(* ===== verification/_CoqProject ===== *)
-Q . S2P
Prelude.v
Prng.v
Credit.v
Device.v
Sched.v
Policy.v
Evtchn.v
Grant.v
P2m.v
Hypervisor.v
HvInvariant.v
HvEvents.v
HvMemory.v
HvControl.v
HvLifecycle.v
HvSafety.v
HvTheorems.v
Observe.v
NonInterf.v
Partition.v
Bits.v
Pending.v
Irouter.v
Sgi.v
VgicCpuif.v
Pl011.v
Gicv3.v
LeafMap.v
Arm64.v
S2Check.v
Stage2.v
Emission.v
Walk.v
ReadBack.v
Isolation.v
Regime.v
Smmu.v
Streams.v
Derive.v
DevicePath.v
Virtio.v
Blk.v
Abort.v
Metal.v
Backend.v
Confine.v
Kick.v
Paravirt.v
Steady.v
Teardown.v
Inherit.v
Build.v
Role.v
CpuState.v
PendingSet.v
Console.v
Linux.v
LinuxTrap.v
Deliver.v
Switch.v
Handover.v
Guests.v
Traps.v
Alive.v
Buses.v
SmmuDriver.v
Dma.v
Mmu.v
