(* ===== verification/Prelude.v ===== *)
(** * A verification library for the Baleen hypervisor

    Baleen is a small type-1 hypervisor. Its decisions live in pure, [no_std] Rust crates
    under [src/]: [hv-core] (the hypercall surface and the subsystems behind it), [hv-part]
    (the division of the machine between guests), [hv-vdev] (the device models a guest's
    accesses trap into) and [hv-s2] (the second-stage page tables a guest runs on). The
    bare-metal layer [hv-metal] puts them on a machine: it owns memory, the paravirtual
    devices and the trap handlers. This library models those crates and the parts of the
    bare-metal layer that decide what a guest can reach, function by function, and proves what
    they promise.

    ** The parts and how they interact

    A guest's hypercall enters [Hypervisor::dispatch], which routes it through a liveness
    gate to one of the subsystems: event channels, grant tables, the scheduler, page
    ownership and page tables, device ownership, the credit account. The hypervisor adds the
    rules that span subsystems: a grant or a page-table entry for a foreign frame is backed by
    a grant of its owner, a vCPU with a deliverable event does not sleep, control over a
    domain is delegated from its creator and revoked with it, and a destroyed domain leaves
    nothing behind. Next to it stand the scheduling policy, which only ever drives the
    scheduler's own transitions, the partition of the machine, and the virtual devices.

    The state is made hardware by [hv-s2]: the live page-table entries of a domain become its
    leaf map, the leaf map is encoded into translation tables, the processor walks them under
    a translation regime, and a bus master walks the same tables through the stream table,
    which is derived from the device assignment of the state.

    On the machine every hypercall goes through one funnel, which dispatches it and then
    clears what the model cannot see: the bytes behind frames that became free, the private
    disk and the device registers of a destroyed domain. The tables of a domain are built from
    the state and the shadow the funnel keeps. A guest also reaches the hypervisor through
    data aborts in the device window: the access is decoded, answered by a device model, and
    a kick makes the backend walk the rings in guest memory under the grants of the guest.

    The same funnel schedules the real guests. Two guests with two vCPUs each share one
    physical CPU: a slice of the hypervisor's own timer, an idle wait or the retirement of a
    guest hands the CPU over, which is a pair of scheduling calls and a switch of every
    register a vCPU owns. Interrupts for a vCPU that is not running, or for one whose list
    registers are full, wait in its pending set and are drained when it runs.

    ** Files and what they model

    - [Prelude]: machine integers, vectors, results, the state-and-panic monad [M], its
      weakest precondition [wp] and the tactics; [Bits]: shifts and fields of machine words.
    - [Credit] — [hv-core/src/lib.rs]; [Prng] — [prng.rs]; [Device] — [device.rs]; [Sched] —
      [sched.rs]; [Policy] — [policy.rs]; [Evtchn] — [evtchn.rs]; [Grant] — [grant.rs]; [P2m] —
      [p2m.rs]. Each has the Rust struct as a record, one definition per method, a runtime
      check [first_violation] where the code has one, and an invariant every method keeps.
    - [Hypervisor] — [hypervisor.rs]: the state of all subsystems, [route], [dispatch],
      [apply] and the operations that cross subsystems. [HvInvariant] states the joint
      invariant [HInv]; [HvEvents], [HvMemory], [HvControl] and [HvLifecycle] prove that the
      operations on events and vCPUs, on memory, on capabilities and devices, and on the life
      of domains keep it; [HvSafety] composes them over all transitions and reads off what a
      domain can reach; [HvTheorems] states the results.
    - [Partition] — [hv-part/src/lib.rs].
    - [Gicv3], [Pl011], [Sgi], [Irouter], [Pending], [VgicCpuif] — the files of the same name
      under [hv-vdev/src/].
    - [LeafMap] — [hv-s2/src/leafmap.rs]: [leaf_map] from the entries of [P2m]. [S2Check] —
      [check.rs]: the check of a whole [Hypervisor] state.
    - [Arm64] — [hv-s2/src/arm64.rs], the tables: [validate], [encode], [walk],
      [window_reach], [verify_encoding]; the six tables of a domain are the record [Tables].
      [Stage2] proves what the descriptors decode to and what validation establishes,
      [Emission] the word [encode] leaves in every slot, [Walk] that a walk computes the
      stated reach, [ReadBack] that the read-back check accepts it and what it misses.
      [Isolation] composes all of it with the reachable states of [Hypervisor].
    - [Regime] — [arm64.rs], the translation regime and its register words.
    - [Smmu] — [hv-s2/src/smmu.rs]: the stream table is a list of words, as in the code.
      [Streams] proves the operations on one entry, [Derive] the derivation of the table,
      [DevicePath] the join of both walkers and what a bus master reaches.
    - [Observe] — [hv-sim/src/noninterference.rs]: what a domain observes, the relation of
      channels and who acts in a transition. [NonInterf] proves local respect for them.
    - [Virtio], [Blk], [Abort] — [hv-metal/src/virtio.rs], [blk.rs], [abort.rs]: the register
      files of the two paravirtual devices, the copy-on-write disk, the decode of a data abort.
    - [Metal] — the state of the machine (the record [World]: the hypervisor, memory as a
      function from addresses to bytes, devices, disk, the serial line) and its accesses to
      memory, from [stage2.rs]. [Backend] — [guest.rs]: the trap handler, the grant gate and the
      backends of both devices. [Confine] gives the rules of a judgement that relates two runs
      on memories that differ where the guest has granted nothing, [Kick] those of what a
      computation leaves alone; [Paravirt] states the results.
    - [Teardown] — [teardown.rs]: the funnel. [Steady] proves what no transition of the
      hypervisor changes; [Inherit] defines the life of the machine as a step relation over
      calls, interrupts, stores and device accesses and proves that no tenant inherits bytes.
    - [Build] — [stage2.rs], [build_stage2_from_p2m]: the composition of the leaf map, its
      checks, the emission, the read-back and the handles, over the life of the machine.
    - [SmmuDriver] — [hv-metal/src/smmu.rs], and the funnel of [teardown.rs] in the build with
      the [smmu] feature: the record [Smmu] is the static of the file with the unit beside it, as
      far as the driver depends on it. [Buses] proves what no transition does to the devices;
      [Dma] proves what the commands make of the unit, and states over the life of the machine
      that it serves what the device assignment says.
    - [Mmu] — [hv-metal/src/mmu.rs]: the tables of the hypervisor's own address space, the registers
      that turn them on and the sweep that reads them back, against the walk of the hardware.
      The link symbols and the addresses of the tables are arguments, and so is memory.
    - [Role], [PendingSet], [Console] — [hv-metal/src/role.rs], [pending.rs], [console.rs]: the
      roles a vCPU plays and the order of succession, the pending set, the shared serial line.
    - [CpuState] — [vcpu.rs], [gic.rs], [fp.rs]: the registers of the processor that belong to a
      vCPU or to its interrupts (the record [Cpu]), their save, poison and restore, the list
      registers and the private interrupts.
    - [Linux], [LinuxTrap] — [linux.rs], with the devices as [vgic.rs] and [vpl011.rs] deploy them:
      the statics of the file (the record [Linux]), the deliveries, the switch, the handovers,
      the handlers of traps and interrupts, and the start of the guests. [Deliver] proves the
      deliveries and the drain, [Switch] the switch, [Handover] what each scheduling call does
      to the guests' vCPUs, [Guests] that the handovers keep the invariant [linux_ok] of the
      machine and [Traps] that every handler returns and keeps it. [Alive] takes the machine as a
      step relation over what the guests do, trap and are interrupted by, and states the results.

    ** Conventions

    A method with [&mut self] is a computation in [M S T := S -> outcome S T]: it ends with a
    new state and a value, or it panics. A panic is what the code does on a failed [unwrap]
    or [debug_assert!], an out-of-range index and the overflow of an unchecked addition, so
    that "never panics" is a theorem ([Done] and not [Panic]) and not an assumption. An [Err]
    is a value, returned with the state it left. The bare-metal image is built in the release
    profile, where an unchecked addition wraps: there it is [Metal.uplus], which traps or wraps
    as the [Board] says, and theorems about both profiles do not ask. Stopping the machine is an
    [Err] too. Integers are [N]; a width is written where
    the code can reach it. A [Vec] or an array is a list indexed by [N].

    ** What the theorems show

    - The hypercall surface ([HvTheorems]): no sequence of calls panics or fails a runtime
      check; a domain reaches only frames it owns or was granted, never one both writable and
      executable; teardown, creation, delegation and revocation do exactly what they say; a
      dead domain is clean and refused; a wake-up is not lost; a rejected call is invisible.
    - Each subsystem: operations succeed exactly under their guards and change exactly what
      they name; opening and closing, mapping and unmapping, linking and unlinking undo each
      other; runtime checks decide their invariants; page-table walks descend.
    - The policy: its decisions are those of its three rules, the driver ends in a
      work-conserving fixpoint, and wake accounting places a vCPU at the floor.
    - The partition: the slots are disjoint in addresses, frames and tables.
    - The second stage: the leaf map is exactly the domain's leaves, no reachable state fails
      the check of its maps, a walk of the encoded tables is for every address what the layout
      and the maps say, and reaches only what the state authorizes; the regime and the stream
      table entries read back as what was encoded; the stream table realizes the device
      assignment exactly or denies everything; a bus master reaches only what the domain that
      holds it may access.
    - Observation: a transition of a domain with no channel to another changes nothing the other
      observes, but for one flow the channels do not name.
    - The machine: a trapped access always ends; the backend reads and writes only granted
      memory, serves a request whole or not at all and retires buffers one by one; the disks of
      tenants are private; the funnel zeroes exactly what became free, so that at any point of
      the life of the machine a free frame holds nobody's bytes; and what a domain's built
      tables reach are bytes behind allocated frames it may access. Where the code does less,
      closed runs show it: an offer that outlives the ownership of its frame, and the two
      addresses of a frame of the super partition.
    - The system MMU: commands reach the unit once and in order, whatever its pace; an accepted
      hypercall leaves it nothing to serve, cached or not, but what the device assignment says; a
      start that reports success leaves every stream denied; a refused derivation is fail-closed
      for a unit that works ([Dma.refused_may_serve] shows one that does not).
    - The hypervisor's own memory: the tables it turns on give the identity with nothing both
      writable and executable, and a boot sweep that passes means that of any tables, as to
      permissions and memory types; output addresses it does not look at.
    - The real guests: an interrupt a guest raises for its own vCPUs reaches those it names and
      nobody else, and is counted once; a drain loses nothing; a vCPU that comes back finds its
      registers as it left them, and the switch leaves the processor with the context, tables,
      identity and interrupts of the incoming vCPU; the order of succession lists every vCPU
      once; the lines of the guests do not mix on the serial line. Over the whole life of the
      machine every trap and expected interrupt is handled to its end, a guest is retired alone,
      and each vCPU that is up has the processor within four slices. Two lemmas show what
      a guest does not survive: an interrupt raised from a register other than [x0], and a
      diagnosis that reads what its peer has written.
    - The devices: every guest access is answered; enables, routes and fields are exactly
      what was written, for the vCPU that wrote them.

    ** Bounds

    Loops with fuel are given enough and proved so: the orphan sweep needs one pass per cell
    of the capability matrix and one to see nothing change; a subtree walk needs one step per
    domain; a free handle is found within the slots in use; the policy driver needs two
    transitions per physical CPU; the loop over a device window needs one step per block and
    one to stop; a kick needs one step per entry between the cursor and the index of the driver,
    at most 65535. The memory a table walk reads is a function from a table address and an index
    to a word, as the code takes it; the theorems ask of it only that it holds the six tables
    at the addresses of the layout. They ask of a layout that it validates and, in addition,
    that its two windows end below 2^48 ([Emission.nameable_windows]), which validation does
    not check ([ReadBack.high_window_truncated]). Theorems over runs bound the number of transitions by
    2^32, because the mapping handles are 32 bits wide; the policy's exactness bounds run
    time and offsets by 2^64, below its 128-bit arithmetic. The life of the real guests is that
    of two guests with two vCPUs each, in the release profile, and asks that the interrupts are
    those the start enables and that the first fault on the memory of a peer is diagnosed as the
    code expects ([Traps.diagnosed]), without which the handler parks.

    ** Not modelled

    - Of [hv-s2]: cache maintenance, barriers and TLB invalidation are outside the crate.
    - Of [hv-metal]: boot, assembly, MMIO registers, the scripted guests and their witnesses
      ([guest.rs]), the probes of [mmu.rs] that fault on purpose. Caches: scrubbing and the writes
      of tables are stores that every reader sees, but for the system MMU, which sees what was
      published. The claim guards of the static cells.
    - The system MMU itself: how fast it fetches commands, what its registers read and what it
      writes to the event queue are parameters of the definitions; that it fetches in order, what
      an invalidation makes it forget, and that it may cache whatever it has seen since, are the
      definitions of the record [SmmuDriver.Unit], as the comments of the driver describe them.
    - Of [linux.rs]: the reports and the text written to the serial line, the self tests, the
      DMA witness, the monitor partition, the enabling of the interrupt controller and of the
      trap controls of the hypervisor at the start; [crate::park] is a panic of the model, so that
      "never panics" includes that no handler parks. The end of the boot is the flag [ended].
      The registers a handler reads once are its arguments, and what a counter shows is a
      function of how often it was read. Atomic words are read and written in one thread.
    - Of [hv-sim/src/noninterference.rs]: the larger observation of the confidentiality sweep
      and the drivers of the sweeps.
    - The rest of [hv-sim], [hv-fuzz], [hv-verify]: drivers, enumerators and proofs about the same code;
      [hv-hal]: traits without bodies; [xtask] and the probes: tooling. *)

From Stdlib Require Import NArith Lia.
From stdpp Require Import base numbers list option.

Declare Scope hv_scope.
Delimit Scope hv_scope with hv.
#[global] Open Scope hv_scope.
#[local] Open Scope N_scope.

(** ** Machine-width integers

    An unsigned integer of the source is an [N]; the width is written where the
    code can reach it: a narrowing cast, a checked or a saturating addition, or an
    unchecked [+] (which panics on overflow, see [uadd] below). *)

Definition u8_max : N := 255.
Definition u16_max : N := 65535.
Definition u32_max : N := 4294967295.
Definition u64_max : N := 18446744073709551615.

(** The identifiers of the source, all unsigned integers. *)
Abbreviation DomId := N (only parsing).
Abbreviation Port := N (only parsing).
Abbreviation Vcpu := N (only parsing).
Abbreviation Virq := N (only parsing).
Abbreviation Pcpu := N (only parsing).
Abbreviation Ticks := N (only parsing).
Abbreviation DevId := N (only parsing).
Abbreviation GrantRef := N (only parsing).
Abbreviation GrantHandle := N (only parsing).
Abbreviation Mfn := N (only parsing).

(** [x as u16] and [x as u32] from a wider unsigned type: truncation. *)
Definition as_u16 (n : N) : N := n mod 65536.
Definition as_u32 (n : N) : N := n mod 4294967296.

(** [checked_add] and [saturating_add] at the width whose maximum is [max]. *)
Definition checked_add (max a b : N) : option N :=
  if decide (a + b <= max) then Some (a + b) else None.
Definition saturating_add (max a b : N) : N := N.min max (a + b).

(** ** Vectors: a [Vec] of the source is a list indexed by [N] *)

Definition vget {A} (l : list A) (i : N) : option A := l !! N.to_nat i.
Definition vset {A} (l : list A) (i : N) (x : A) : list A := <[N.to_nat i := x]> l.
Definition vlen {A} (l : list A) : N := N.of_nat (length l).
Definition vrepeat {A} (n : N) (x : A) : list A := replicate (N.to_nat n) x.

(** [0..n] as a list of indices. *)
Definition vrange (n : N) : list N := N.of_nat <$> seq 0 (N.to_nat n).

(** [a..b] as a list of indices. *)
Definition vrange_from (a b : N) : list N := (fun k => a + k) <$> vrange (b - a).

(** [iter().enumerate()]. *)
Definition enumerate {A} (l : list A) : list (N * A) := zip (vrange (vlen l)) l.

(** [iter().position(f)]. *)
Fixpoint position {A} (f : A -> bool) (l : list A) : option N :=
  match l with
  | [] => None
  | x :: l => if f x then Some 0 else N.succ <$> position f l
  end.

(** [iter().filter(f).count()]. *)
Fixpoint count {A} (f : A -> bool) (l : list A) : N :=
  match l with
  | [] => 0
  | x :: l => (if f x then 1 else 0) + count f l
  end.

(** [iter().map(f).sum()] over unbounded integers (used by specifications). *)
Fixpoint nsum {A} (f : A -> N) (l : list A) : N :=
  match l with
  | [] => 0
  | x :: l => f x + nsum f l
  end.

(** A loop that returns the first [Some] its body produces. *)
Fixpoint first_some {A V} (f : A -> option V) (l : list A) : option V :=
  match l with
  | [] => None
  | x :: l => match f x with Some v => Some v | None => first_some f l end
  end.

(** A [Vec] of rows: the per-domain tables of the subsystems. *)
Definition tget {A} (t : list (list A)) (i j : N) : option A :=
  match vget t i with Some r => vget r j | None => None end.
Definition tset {A} (t : list (list A)) (i j : N) (x : A) : list (list A) :=
  match vget t i with Some r => vset t i (vset r j x) | None => t end.
Definition twidth {A} (t : list (list A)) (i : N) : N :=
  match vget t i with Some r => vlen r | None => 0 end.

(** ** Results, panics and state

    A Rust function with [&mut self] is a state transformer that either finishes
    ([Done], with the new state and the returned value) or panics ([Panic]: a failed
    [unwrap], a failed [debug_assert!], an arithmetic overflow of an unchecked [+] or
    an out-of-range index). A returned [Result] is the value type [result]; an [Err]
    carries the state it was returned in, so that "a rejected call mutates nothing" is
    a theorem and not a convention of the model. *)

Inductive result (E A : Type) : Type :=
| Ok (a : A)
| Err (e : E).
Arguments Ok {E A} a.
Arguments Err {E A} e.

#[global] Instance result_eq_dec {E A} `{EqDecision E, EqDecision A} : EqDecision (result E A).
Proof. solve_decision. Defined.

Inductive outcome (S T : Type) : Type :=
| Done (s : S) (r : T)
| Panic.
Arguments Done {S T} s r.
Arguments Panic {S T}.

Definition M (S T : Type) : Type := S -> outcome S T.

Definition ret {S T} (x : T) : M S T := fun s => Done s x.
Definition bind {S T U} (m : M S T) (k : T -> M S U) : M S U := fun s =>
  match m s with Done s' x => k x s' | Panic => Panic end.

(** The [?] operator: stop at an [Err], go on with the value of an [Ok]. *)
Definition tbind {S E T U} (m : M S (result E T)) (k : T -> M S (result E U)) :
  M S (result E U) :=
  bind m (fun r => match r with Ok x => k x | Err e => ret (Err e) end).

Definition ok {S E T} (x : T) : M S (result E T) := ret (Ok x).
Definition err {S E T} (e : E) : M S (result E T) := ret (Err e).
Definition get {S} : M S S := fun s => Done s s.
Definition gets {S T} (f : S -> T) : M S T := fun s => Done s (f s).
Definition modify {S} (f : S -> S) : M S unit := fun s => Done (f s) tt.
Definition panic {S T} : M S T := fun _ => Panic.

(** [.unwrap()] on a [Result] and on an [Option]. *)
Definition unwrap {S E T} (r : result E T) : M S T :=
  match r with Ok x => ret x | Err _ => panic end.
Definition unwrap_opt {S T} (o : option T) : M S T :=
  match o with Some x => ret x | None => panic end.

(** [debug_assert!(b)]. *)
Definition dbg_assert {S} (b : bool) : M S unit := if b then ret tt else panic.

(** An indexing [l[i]] panics out of range. *)
Definition index {S A} (l : list A) (i : N) : M S A := unwrap_opt (vget l i).

(** [if !P { return Err(e) }]. *)
Definition ensure {S E} (P : Prop) `{Decision P} (e : E) : M S (result E unit) :=
  if decide P then ok tt else err e.

(** [o.ok_or(e)] and a [Result] computed without touching the state. *)
Definition ok_or {E T} (o : option T) (e : E) : result E T :=
  match o with Some x => Ok x | None => Err e end.
Definition lift {S E T} (r : result E T) : M S (result E T) := ret r.

Definition map_err {E F T} (f : E -> F) (r : result E T) : result F T :=
  match r with Ok x => Ok x | Err e => Err (f e) end.
Definition map_ok {E T U} (f : T -> U) (r : result E T) : result E U :=
  match r with Ok x => Ok (f x) | Err e => Err e end.
Definition is_ok {E T} (r : result E T) : bool :=
  match r with Ok _ => true | Err _ => false end.

(** An unchecked [a + b] at the width with maximum [max]: the debug profile panics on
    overflow. *)
Definition uadd {S} (max a b : N) : M S N :=
  if decide (a + b <= max) then ret (a + b) else panic.

(** An unchecked [a * b] at 64 bits. *)
Definition umul {S} (a b : N) : M S N := if decide (a * b <= u64_max) then ret (a * b) else panic.

(** An unchecked [a - b]: the debug profile panics on underflow. *)
Definition usub {S} (a b : N) : M S N :=
  if decide (b <= a) then ret (a - b) else panic.

(** [for x in l { f(x) }]. *)
Fixpoint for_each {S X} (l : list X) (f : X -> M S unit) : M S unit :=
  match l with
  | [] => ret tt
  | x :: l => bind (f x) (fun _ => for_each l f)
  end.

(** [for x in l { out.push(f(x)) }]. *)
Fixpoint for_collect {S X T} (l : list X) (f : X -> M S T) : M S (list T) :=
  match l with
  | [] => ret []
  | x :: l => bind (f x) (fun y => bind (for_collect l f) (fun ys => ret (y :: ys)))
  end.

(** A loop that returns the first [Some] of a body that may panic, and a loop that
    threads a local variable. *)
Fixpoint first_some_m {S X V} (l : list X) (f : X -> M S (option V)) : M S (option V) :=
  match l with
  | [] => ret None
  | x :: l => bind (f x) (fun o =>
      match o with Some v => ret (Some v) | None => first_some_m l f end)
  end.
Fixpoint fold_m {S X T} (l : list X) (f : T -> X -> M S T) (acc : T) : M S T :=
  match l with
  | [] => ret acc
  | x :: l => bind (f acc x) (fun acc => fold_m l f acc)
  end.

(** A loop whose body may return an error, and a loop that stops at the first [false]. *)
Fixpoint for_ok {S X E} (l : list X) (f : X -> M S (result E unit)) : M S (result E unit) :=
  match l with
  | [] => ok tt
  | x :: l => tbind (f x) (fun _ => for_ok l f)
  end.
Fixpoint all_m {S X} (l : list X) (f : X -> M S bool) : M S bool :=
  match l with
  | [] => ret true
  | x :: l => bind (f x) (fun b : bool => if b then all_m l f else ret false)
  end.

(** A component of a larger state, and running an operation of the component on it. *)
Record lens (S A : Type) : Type := Lens {
  lget : S -> A;
  lset : A -> S -> S;
}.
Arguments Lens {S A} lget lset.
Arguments lget {S A} l _.
Arguments lset {S A} l _ _.

Definition zoom {S A T} (l : lens S A) (m : M A T) : M S T := fun s =>
  match m (lget l s) with
  | Done a x => Done (lset l a s) x
  | Panic => Panic
  end.

(** [self.f[i] = x]: an assignment out of range panics. *)
Definition index_set {S A} (l : lens S (list A)) (i : N) (x : A) : M S unit :=
  bind get (fun s => bind (index (lget l s) i) (fun _ => modify (lset l (vset (lget l s) i x)))).

Notation "'let!' x ':=' m 'in' k" := (bind m (fun x => k))
  (at level 10, x pattern, m at level 200, k at level 200) : hv_scope.
Notation "'let?' x ':=' m 'in' k" := (tbind m (fun x => k))
  (at level 10, x pattern, m at level 200, k at level 200) : hv_scope.
Notation "m ;! k" := (bind m (fun _ => k)) (at level 199, right associativity) : hv_scope.
Notation "m ;? k" := (tbind m (fun _ => k)) (at level 199, right associativity) : hv_scope.

(** ** Weakest preconditions: total correctness, no panic *)

Definition wp {S T} (m : M S T) (Q : S -> T -> Prop) (s : S) : Prop :=
  match m s with Done s' x => Q s' x | Panic => False end.
Arguments wp {S T} m Q s : simpl never.

(** ** Lemmas on integers *)

Lemma checked_add_Some m a b c : checked_add m a b = Some c <-> a + b <= m /\ c = a + b.
Proof. unfold checked_add. case_decide; naive_solver. Qed.

Lemma checked_add_None m a b : checked_add m a b = None <-> m < a + b.
Proof. unfold checked_add. case_decide; [|naive_solver lia]. split; [done|lia]. Qed.

Lemma as_u16_id n : n <= u16_max -> as_u16 n = n.
Proof. unfold u16_max. intros. apply N.mod_small. lia. Qed.

Lemma as_u32_id n : n <= u32_max -> as_u32 n = n.
Proof. unfold u32_max. intros. apply N.mod_small. lia. Qed.

(** ** Lemmas on vectors *)

Section Vectors.
Context {A : Type}.
Implicit Types (l : list A) (i j : N) (x y : A).

Lemma vget_Some_lt l i x : vget l i = Some x -> i < vlen l.
Proof. unfold vget, vlen. intros H%lookup_lt_Some. lia. Qed.

Lemma vget_lt_Some l i : i < vlen l -> exists x, vget l i = Some x.
Proof. unfold vget, vlen. intros ?. apply lookup_lt_is_Some_2. lia. Qed.

Lemma vget_None l i : vget l i = None <-> vlen l <= i.
Proof. unfold vget, vlen. rewrite lookup_ge_None. lia. Qed.

Lemma vget_elem l i x : vget l i = Some x -> x ∈ l.
Proof. apply list_elem_of_lookup_2. Qed.

Lemma elem_vget l x : x ∈ l -> exists i, vget l i = Some x.
Proof.
  intros [i Hi]%list_elem_of_lookup. exists (N.of_nat i). unfold vget. by rewrite Nat2N.id.
Qed.

Lemma vlen_vset l i x : vlen (vset l i x) = vlen l.
Proof. unfold vlen, vset. by rewrite length_insert. Qed.

Lemma vlen_app l l' : vlen (l ++ l') = vlen l + vlen l'.
Proof. unfold vlen. rewrite length_app. lia. Qed.

Lemma vget_vset l i j x :
  vget (vset l i x) j = if decide (i = j /\ i < vlen l) then Some x else vget l j.
Proof.
  unfold vget, vset, vlen. rewrite list_lookup_insert.
  case_decide as H; case_decide as H'; try done; exfalso.
  - apply H'. lia.
  - apply H. lia.
Qed.

Lemma vget_vset_eq l i x : i < vlen l -> vget (vset l i x) i = Some x.
Proof. intros. rewrite vget_vset. case_decide; naive_solver. Qed.

Lemma vget_vset_ne l i j x : i <> j -> vget (vset l i x) j = vget l j.
Proof. intros. rewrite vget_vset. case_decide; naive_solver. Qed.

Lemma vset_id l i x : vget l i = Some x -> vset l i x = l.
Proof. apply list_insert_id. Qed.

Lemma vset_vset l i x y : vset (vset l i x) i y = vset l i y.
Proof. unfold vset. apply list_insert_insert_eq. Qed.

Lemma vget_vrepeat n x i : vget (vrepeat n x) i = if decide (i < n) then Some x else None.
Proof.
  unfold vget, vrepeat. case_decide.
  - apply lookup_replicate_2. lia.
  - apply lookup_ge_None_2. rewrite length_replicate. lia.
Qed.

Lemma vlen_vrepeat n x : vlen (vrepeat n x) = n.
Proof. unfold vlen, vrepeat. rewrite length_replicate. lia. Qed.

Lemma vget_app_l l l' i : i < vlen l -> vget (l ++ l') i = vget l i.
Proof. unfold vget, vlen. intros. apply lookup_app_l. lia. Qed.

Lemma vget_snoc l x i :
  vget (l ++ [x]) i = if decide (i = vlen l) then Some x else vget l i.
Proof.
  unfold vget, vlen. case_decide as H.
  - subst. rewrite lookup_app_r by lia. by replace (_ - _)%nat with 0%nat by lia.
  - destruct (decide (N.to_nat i < length l)%nat).
    + by rewrite lookup_app_l.
    + rewrite !(lookup_ge_None_2 _ _); [done|lia|]. rewrite length_app. simpl. lia.
Qed.

Lemma vget_ext l l' : (forall i, vget l i = vget l' i) -> l = l'.
Proof.
  intros H. apply list_eq. intros i. specialize (H (N.of_nat i)). unfold vget in H.
  by rewrite Nat2N.id in H.
Qed.

Lemma vget_fmap {B} (f : A -> B) l i : vget (f <$> l) i = f <$> vget l i.
Proof. unfold vget. by rewrite list_lookup_fmap. Qed.

Lemma vlen_fmap {B} (f : A -> B) l : vlen (f <$> l) = vlen l.
Proof. unfold vlen. by rewrite length_fmap. Qed.
End Vectors.

Lemma elem_vrange n i : i ∈ vrange n <-> i < n.
Proof.
  unfold vrange. rewrite list_elem_of_fmap. split.
  - intros (k & -> & Hk%elem_of_seq). lia.
  - intros H. exists (N.to_nat i). split; [lia|]. apply elem_of_seq. lia.
Qed.

Lemma elem_vrange_from a b i : i ∈ vrange_from a b <-> a <= i /\ i < b.
Proof.
  unfold vrange_from. rewrite list_elem_of_fmap. split.
  - intros (k & -> & Hk%elem_vrange). lia.
  - intros [H1 H2]. exists (i - a). split; [lia|]. apply elem_vrange. lia.
Qed.

Lemma elem_of_snoc {A} (x y : A) l : x ∈ l ++ [y] <-> x ∈ l \/ x = y.
Proof. by rewrite elem_of_app, list_elem_of_singleton. Qed.

Lemma NoDup_vrange n : NoDup (vrange n).
Proof. unfold vrange. apply NoDup_fmap_2; [apply _|apply NoDup_seq]. Qed.

Lemma vlen_vrange n : vlen (vrange n) = n.
Proof. unfold vrange. rewrite vlen_fmap. unfold vlen. rewrite length_seq. lia. Qed.

Lemma vget_vrange n i : vget (vrange n) i = if decide (i < n) then Some i else None.
Proof.
  unfold vrange. rewrite vget_fmap. unfold vget. case_decide as H.
  - rewrite lookup_seq_lt by lia. simpl. f_equal. lia.
  - by rewrite lookup_seq_ge by lia.
Qed.

Lemma vrange_split n l1 i l2 : vrange n = l1 ++ i :: l2 -> i = vlen l1 /\ i < n.
Proof.
  intros H. pose proof (vget_vrange n (vlen l1)) as Hv. rewrite H in Hv.
  unfold vget in Hv. unfold vlen in Hv at 1. rewrite Nat2N.id, list_lookup_middle in Hv by done.
  case_decide; [|done]. by injection Hv as ->.
Qed.


Lemma elem_enumerate {A} (l : list A) i x : (i, x) ∈ enumerate l <-> vget l i = Some x.
Proof.
  unfold enumerate. rewrite list_elem_of_lookup. setoid_rewrite lookup_zip_with_Some. split.
  - intros (k & a & b & [= <- <-] & Ha & Hb).
    pose proof (vget_vrange (vlen l) (N.of_nat k)) as Hr. unfold vget in *.
    rewrite Nat2N.id, Ha in Hr. case_decide; [|done]. injection Hr as ->.
    by rewrite Nat2N.id.
  - intros H. exists (N.to_nat i), i, x. split; [done|]. split; [|done].
    pose proof (vget_vrange (vlen l) i) as Hr. unfold vget in Hr at 1. rewrite Hr.
    rewrite decide_True; [done|]. by eapply vget_Some_lt.
Qed.

(** *** Searching *)

Lemma position_Some {A} (f : A -> bool) l i :
  position f l = Some i <->
  (exists x, vget l i = Some x /\ f x = true) /\
  (forall j y, j < i -> vget l j = Some y -> f y = false).
Proof.
  revert i. induction l as [|a l IH]; intros i; simpl.
  - split; [done|]. intros [(x & Hx & _) _]. unfold vget in Hx. by rewrite lookup_nil in Hx.
  - destruct (f a) eqn:Ha.
    + split.
      * intros [= <-]. split; [by exists a|lia].
      * intros [_ H]. destruct (decide (i = 0)) as [->|]; [done|].
        rewrite (H 0 a) in Ha; [done|lia|done].
    + assert (Hc : forall i x, vget (a :: l) (N.succ i) = Some x <-> vget l i = Some x).
      { intros. unfold vget. by rewrite N2Nat.inj_succ. }
      destruct (position f l) as [k|] eqn:Hp; simpl.
      * split.
        -- intros [= <-]. destruct (proj1 (IH k) eq_refl) as [(x & Hx & Hf) Hm]. split.
           ++ exists x. by rewrite Hc.
           ++ intros j y Hj Hy. destruct (decide (j = 0)) as [->|].
              ** by injection Hy as <-.
              ** apply (Hm (N.pred j)); [lia|]. apply Hc. by rewrite N.succ_pred.
        -- intros [(x & Hx & Hf) Hm]. destruct (decide (i = 0)) as [->|].
           { injection Hx as ->. congruence. }
           assert (Some k = Some (N.pred i)) as [= ->]; [|f_equal; lia].
           apply IH. split.
           ++ exists x. split; [|done]. apply Hc. by rewrite N.succ_pred.
           ++ intros j y Hj Hy. apply (Hm (N.succ j)); [lia|]. by apply Hc.
      * split; [done|]. intros [(x & Hx & Hf) Hm]. exfalso.
        destruct (decide (i = 0)) as [->|]. { injection Hx as ->. congruence. }
        cut (@None N = Some (N.pred i)); [done|]. apply IH. split.
        ++ exists x. split; [|done]. apply Hc. by rewrite N.succ_pred.
        ++ intros j y Hj Hy. apply (Hm (N.succ j)); [lia|]. by apply Hc.
Qed.

Lemma position_None {A} (f : A -> bool) l :
  position f l = None <-> forall x, x ∈ l -> f x = false.
Proof.
  induction l as [|a l IH]; simpl.
  - split; [|done]. intros _ x Hx. by apply elem_of_nil in Hx.
  - setoid_rewrite elem_of_cons. destruct (f a) eqn:Ha.
    + split; [done|]. intros H. rewrite (H a) in Ha; [done|by left].
    + rewrite fmap_None, IH. naive_solver.
Qed.

Lemma first_some_None {A V} (f : A -> option V) l :
  first_some f l = None <-> forall x, x ∈ l -> f x = None.
Proof.
  induction l as [|a l IH]; simpl.
  - split; [|done]. intros _ x Hx. by apply elem_of_nil in Hx.
  - setoid_rewrite elem_of_cons. destruct (f a) eqn:Ha; naive_solver.
Qed.

Lemma first_some_Some {A V} (f : A -> option V) l v :
  first_some f l = Some v -> exists x, x ∈ l /\ f x = Some v.
Proof.
  induction l as [|x l IH]; [done|]. simpl. destruct (f x) as [v'|] eqn:E.
  - intros [= ->]. exists x. split; [by left|done].
  - intros (y & Hy & Hf)%IH. exists y. split; [by right|done].
Qed.

(** A search that one element answers. *)
Lemma first_some_at {A V} `{EqDecision A} (f : A -> option V) l x v :
  x ∈ l -> f x = Some v -> (forall y, y ∈ l -> y <> x -> f y = None) -> first_some f l = Some v.
Proof.
  intros Hx Hf Hne. induction l as [|y l IH]; [by apply elem_of_nil in Hx|]. simpl.
  destruct (decide (y = x)) as [->|Hyx]; [by rewrite Hf|].
  rewrite (Hne y) by (by left || done). apply elem_of_cons in Hx as [->|Hx]; [done|].
  apply IH; [done|]. intros z Hz. apply Hne. by right.
Qed.

Lemma existsb_elem {A} (f : A -> bool) l :
  existsb f l = true <-> exists x, x ∈ l /\ f x = true.
Proof. rewrite existsb_exists. by setoid_rewrite list_elem_of_In. Qed.

Lemma existsb_false {A} (f : A -> bool) l :
  existsb f l = false <-> forall x, x ∈ l -> f x = false.
Proof.
  rewrite <- not_true_iff_false, existsb_elem. split.
  - intros H x Hx. apply not_true_iff_false. naive_solver.
  - intros H (x & Hx & Hf). by rewrite H in Hf.
Qed.

Lemma forallb_elem {A} (f : A -> bool) l :
  forallb f l = true <-> forall x, x ∈ l -> f x = true.
Proof. rewrite forallb_forall. by setoid_rewrite list_elem_of_In. Qed.

(** *** Tables *)

Section Tables.
Context {A : Type}.
Implicit Types (t : list (list A)) (x y : A).

Lemma tget_row t i r j : vget t i = Some r -> tget t i j = vget r j.
Proof. unfold tget. by intros ->. Qed.

Lemma tget_Some_lt t i j x : tget t i j = Some x -> i < vlen t /\ j < twidth t i.
Proof.
  unfold tget, twidth. destruct (vget t i) as [r|] eqn:E; [|done].
  intros H. split; by eapply vget_Some_lt.
Qed.

Lemma tget_lt_Some t i j : j < twidth t i -> exists x, tget t i j = Some x.
Proof.
  unfold tget, twidth. destruct (vget t i) as [r|] eqn:E; [|lia]. apply vget_lt_Some.
Qed.

Lemma tget_None t i j : tget t i j = None <-> twidth t i <= j.
Proof.
  unfold tget, twidth. destruct (vget t i) as [r|]; [apply vget_None|]. split; [lia|done].
Qed.

Lemma twidth_lt t i j : j < twidth t i -> i < vlen t.
Proof.
  unfold twidth. destruct (vget t i) as [r|] eqn:E; [|lia]. intros _. by eapply vget_Some_lt.
Qed.

Lemma twidth_ext t t' i : (forall j, tget t' i j = tget t i j) -> twidth t' i = twidth t i.
Proof.
  intros H. apply N.le_antisymm; apply N.le_ngt; intros Hlt; apply tget_lt_Some in Hlt as [x Hx].
  - rewrite H in Hx. apply tget_Some_lt in Hx as [_ ?]. lia.
  - rewrite <- H in Hx. apply tget_Some_lt in Hx as [_ ?]. lia.
Qed.

Lemma vlen_tset t i j x : vlen (tset t i j x) = vlen t.
Proof. unfold tset. destruct (vget t i); [apply vlen_vset|done]. Qed.

Lemma twidth_tset t i j x k : twidth (tset t i j x) k = twidth t k.
Proof.
  unfold tset, twidth. destruct (vget t i) as [r|] eqn:E; [|done].
  rewrite vget_vset. case_decide as H; [|done]. destruct H as [<- _].
  by rewrite E, vlen_vset.
Qed.

Lemma tget_tset t i j x i' j' :
  tget (tset t i j x) i' j' =
  if decide (i' = i /\ j' = j /\ j < twidth t i) then Some x else tget t i' j'.
Proof.
  unfold tset, tget, twidth. destruct (vget t i) as [r|] eqn:E.
  2: { rewrite decide_False; [done|]. intros (-> & -> & H). lia. }
  rewrite vget_vset. pose proof (vget_Some_lt _ _ _ E).
  destruct (decide (i' = i)) as [->|Hne].
  - rewrite decide_True by done. rewrite vget_vset, E. repeat case_decide; naive_solver.
  - rewrite !decide_False by naive_solver. done.
Qed.

Lemma tget_tset_eq t i j x y : tget t i j = Some y -> tget (tset t i j x) i j = Some x.
Proof. intros [_ H]%tget_Some_lt. rewrite tget_tset. by rewrite decide_True. Qed.

Lemma tget_tset_ne t i j x i' j' :
  ~ (i' = i /\ j' = j) -> tget (tset t i j x) i' j' = tget t i' j'.
Proof. intros H. rewrite tget_tset. rewrite decide_False; naive_solver. Qed.

Lemma tset_tset t i j x y : tset (tset t i j x) i j y = tset t i j y.
Proof.
  unfold tset. destruct (vget t i) as [r|] eqn:E; [|by rewrite E].
  rewrite vget_vset_eq by (by eapply vget_Some_lt). by rewrite !vset_vset.
Qed.

Lemma tset_id t i j x : tget t i j = Some x -> tset t i j x = t.
Proof.
  unfold tget, tset. destruct (vget t i) as [r|] eqn:E; [|done].
  intros H. by rewrite (vset_id r j x H), vset_id.
Qed.

Lemma tget_vrepeat n m x i j :
  tget (vrepeat n (vrepeat m x)) i j = if decide (i < n /\ j < m) then Some x else None.
Proof.
  unfold tget. rewrite vget_vrepeat. repeat case_decide; try rewrite vget_vrepeat;
    repeat case_decide; naive_solver.
Qed.

Lemma twidth_vrepeat n m x i : twidth (vrepeat n (vrepeat m x)) i <= m.
Proof.
  unfold twidth. rewrite vget_vrepeat. case_decide; [by rewrite vlen_vrepeat|lia].
Qed.

(** The nested loop of every [first_violation]: rows, then cells. *)
Lemma first_some_table_None {V} (f : N -> list A -> N -> A -> option V) t :
  first_some (fun '(i, r) => first_some (fun '(j, x) => f i r j x) (enumerate r))
    (enumerate t) = None <->
  forall i r j x, vget t i = Some r -> vget r j = Some x -> f i r j x = None.
Proof.
  rewrite first_some_None. split.
  - intros H i r j x Hr Hx. specialize (H (i, r)). rewrite first_some_None in H.
    apply (H (proj2 (elem_enumerate _ _ _) Hr) (j, x)). by apply elem_enumerate.
  - intros H [i r] Hr%elem_enumerate. apply first_some_None.
    intros [j x] Hx%elem_enumerate. by eapply H.
Qed.
End Tables.

(** *** Counting *)

Lemma count_app {A} (f : A -> bool) l l' : count f (l ++ l') = count f l + count f l'.
Proof. induction l; simpl; lia. Qed.

Lemma count_ext {A} (f g : A -> bool) l :
  (forall x, x ∈ l -> f x = g x) -> count f l = count g l.
Proof.
  induction l as [|a l IH]; simpl; [done|]. intros H.
  rewrite (H a), IH; [done| |by left]. intros. apply H. by right.
Qed.

Lemma count_le {A} (f g : A -> bool) l :
  (forall x, x ∈ l -> f x = true -> g x = true) -> count f l <= count g l.
Proof.
  induction l as [|a l IH]; simpl; [done|]. intros H.
  assert (count f l <= count g l) by (apply IH; intros; apply H; [by right|done]).
  destruct (f a) eqn:E; [rewrite (H a); [lia|by left|done]|]. destruct (g a); lia.
Qed.

Lemma count_zero {A} (f : A -> bool) l : count f l = 0 <-> forall x, x ∈ l -> f x = false.
Proof.
  induction l as [|a l IH]; simpl.
  - split; [|done]. intros _ x Hx. by apply elem_of_nil in Hx.
  - setoid_rewrite elem_of_cons. destruct (f a) eqn:E.
    + split; [lia|]. intros H. rewrite (H a) in E; [done|by left].
    + rewrite N.add_0_l, IH. naive_solver.
Qed.

Lemma count_pos {A} (f : A -> bool) l : 0 < count f l <-> exists x, x ∈ l /\ f x = true.
Proof.
  rewrite <- existsb_elem, <- not_false_iff_true, existsb_false, <- count_zero. lia.
Qed.

Lemma count_le_vlen {A} (f : A -> bool) l : count f l <= vlen l.
Proof.
  unfold vlen. induction l as [|a l IH]; simpl; [done|]. destruct (f a); lia.
Qed.

(** Replacing one element moves a count by that element's contribution. *)
Lemma count_vset {A} (f : A -> bool) l i x y :
  vget l i = Some y ->
  count f (vset l i x) + (if f y then 1 else 0) = count f l + (if f x then 1 else 0).
Proof.
  unfold vget, vset. generalize (N.to_nat i). clear i. intros n. revert l.
  induction n as [|n IH]; intros [|a l]; simpl; try done.
  - intros [= ->]. lia.
  - intros H%IH. lia.
Qed.

(** Replacing an element, with the same contribution, moves no count. *)
Lemma count_vset_same {A} (f : A -> bool) l i x y :
  vget l i = Some y -> f x = f y -> count f (vset l i x) = count f l.
Proof. intros H E. pose proof (count_vset f l i x y H). rewrite E in *. lia. Qed.

Lemma count_split {A} (f g : A -> bool) l :
  count f l = count (fun x => f x && g x) l + count (fun x => f x && negb (g x)) l.
Proof. induction l as [|a l IH]; simpl; [done|]. destruct (f a), (g a); simpl; lia. Qed.

Lemma nsum_ext {A} (f g : A -> N) l :
  (forall x, x ∈ l -> f x = g x) -> nsum f l = nsum g l.
Proof.
  induction l as [|a l IH]; simpl; [done|]. intros H.
  rewrite (H a), IH; [done| |by left]. intros. apply H. by right.
Qed.

Lemma nsum_zero {A} (f : A -> N) l : (forall x, x ∈ l -> f x = 0) -> nsum f l = 0.
Proof.
  induction l as [|a l IH]; simpl; [done|]. intros H.
  rewrite (H a), IH; [done| |by left]. intros. apply H. by right.
Qed.

Lemma nsum_add {A} (f g : A -> N) l : nsum (fun x => f x + g x) l = nsum f l + nsum g l.
Proof. induction l as [|a l IH]; simpl; lia. Qed.

Lemma nsum_app {A} (f : A -> N) l l' : nsum f (l ++ l') = nsum f l + nsum f l'.
Proof. induction l; simpl; lia. Qed.

Lemma nsum_vset {A} (f : A -> N) l i x y :
  vget l i = Some y -> nsum f (vset l i x) + f y = nsum f l + f x.
Proof.
  unfold vget, vset. generalize (N.to_nat i). clear i. intros n. revert l.
  induction n as [|n IH]; intros [|a l]; simpl; try done.
  - intros [= ->]. lia.
  - intros H%IH. lia.
Qed.

Lemma nsum_elem {A} (f : A -> N) l x : x ∈ l -> f x <= nsum f l.
Proof.
  induction l as [|a l IH]; intros Hx; [by apply elem_of_nil in Hx|]. simpl.
  apply elem_of_cons in Hx as [->|Hx]; [lia|]. specialize (IH Hx). lia.
Qed.

(** A [Vec] of slots: the first inactive one is reused, else the [Vec] grows. *)
Definition slot_insert {A} (act : A -> bool) (l : list A) (m : A) : list A :=
  match position (fun x => negb (act x)) l with
  | Some i => vset l i m
  | None => l ++ [m]
  end.

Lemma vlen_slot_insert {A} (act : A -> bool) l m : vlen l <= vlen (slot_insert act l m).
Proof.
  unfold slot_insert. destruct (position _ l); [by rewrite vlen_vset|].
  rewrite vlen_app. lia.
Qed.

Lemma slot_insert_spec {A} (act : A -> bool) l m :
  act m = true ->
  (forall f : A -> N, (forall x, act x = false -> f x = 0) ->
     nsum f (slot_insert act l m) = nsum f l + f m) /\
  (forall x, act x = true -> x ∈ slot_insert act l m <-> x = m \/ x ∈ l) /\
  vlen (slot_insert act l m) <= vlen l + 1 /\
  exists i, vget (slot_insert act l m) i = Some m /\
    forall j x, j <> i -> act x = true -> vget (slot_insert act l m) j = Some x <-> vget l j = Some x.
Proof.
  intros Hm. unfold slot_insert. destruct (position _ l) as [i|] eqn:Hp.
  - apply position_Some in Hp as [(y & Hy & Hya%negb_true_iff) _].
    pose proof (vget_Some_lt _ _ _ Hy) as Hlt.
    assert (Hslot : forall j x, j <> i -> act x = true ->
      vget (vset l i m) j = Some x <-> vget l j = Some x) by (intros; by rewrite vget_vset_ne).
    split_and!; [| |by rewrite vlen_vset; lia|by exists i; rewrite vget_vset_eq].
    + intros f Hf. pose proof (nsum_vset f l i m y Hy) as Hc. rewrite (Hf y Hya) in Hc. lia.
    + intros x Hx. split.
      * intros [j Hj]%elem_vget. destruct (decide (j = i)) as [->|Hne].
        -- rewrite vget_vset_eq in Hj by done. left. congruence.
        -- right. apply Hslot in Hj; [|done..]. by eapply vget_elem.
      * intros [->|[j Hj]%elem_vget]; [by eapply vget_elem, vget_vset_eq|].
        destruct (decide (j = i)) as [->|Hne]; [congruence|].
        eapply vget_elem. by apply Hslot.
  - split_and!.
    + intros f _. rewrite nsum_app. simpl. lia.
    + intros x _. rewrite elem_of_app, list_elem_of_singleton. tauto.
    + rewrite vlen_app. unfold vlen at 2. simpl. lia.
    + exists (vlen l). split; [by rewrite vget_snoc, decide_True|].
      intros j x Hne _. by rewrite vget_snoc, decide_False.
Qed.

Lemma elem_filter_bool {A} (p : A -> bool) l x : x ∈ List.filter p l <-> x ∈ l /\ p x = true.
Proof. rewrite !list_elem_of_In. apply filter_In. Qed.

Lemma filter_fmap_bool {A B} (f : A -> B) (q : B -> bool) l :
  List.filter q (f <$> l) = f <$> List.filter (fun x => q (f x)) l.
Proof. induction l as [|x l IH]; csimpl; [done|]. destruct (q (f x)); csimpl; by rewrite IH. Qed.

Lemma filter_filter_bool {A} (q q' : A -> bool) l :
  List.filter q (List.filter q' l) = List.filter (fun x => q' x && q x) l.
Proof.
  induction l as [|x l IH]; simpl; [done|]. destruct (q' x); simpl; [|done].
  destruct (q x); by rewrite IH.
Qed.

(** An element that a selection finds in one place only. *)
Lemma NoDup_filter_unique {A} (q : A -> bool) l :
  (forall i j x, vget l i = Some x -> vget l j = Some x -> q x = true -> i = j) ->
  NoDup (List.filter q l).
Proof.
  induction l as [|a l IH]; intros Hu; simpl; [constructor|].
  assert (Hc : forall i x, vget l i = Some x -> vget (a :: l) (N.succ i) = Some x)
    by (intros i x Hi; unfold vget; by rewrite N2Nat.inj_succ).
  assert (Hnd : NoDup (List.filter q l)).
  { apply IH. intros i j x Hi Hj Hq. apply N.succ_inj. by eapply Hu; [apply Hc..|]. }
  destruct (q a) eqn:Hq; [|done]. apply list.NoDup_cons. split; [|done].
  intros [ [j Hj]%elem_vget _]%elem_filter_bool.
  assert (0 = N.succ j) by (eapply Hu; [done|by apply Hc|done]). lia.
Qed.

Lemma filter_Permutation {A} (q : A -> bool) l l' :
  NoDup (List.filter q l) -> NoDup (List.filter q l') ->
  (forall x, q x = true -> x ∈ l' <-> x ∈ l) -> List.filter q l' ≡ₚ List.filter q l.
Proof.
  intros H1 H2 Hin. apply NoDup_Permutation; [done..|]. intros x. rewrite !elem_filter_bool.
  destruct (q x) eqn:Hq; [|naive_solver]. by rewrite Hin.
Qed.

Lemma count_filter {A} (q : A -> bool) l : count q l = vlen (List.filter q l).
Proof.
  induction l as [|a l IH]; simpl; [done|]. rewrite IH. destruct (q a); [|lia].
  unfold vlen. simpl. lia.
Qed.

Lemma nsum_filter {A} (f : A -> N) (q : A -> bool) l :
  (forall x, x ∈ l -> q x = false -> f x = 0) -> nsum f l = nsum f (List.filter q l).
Proof.
  induction l as [|a l IH]; intros Hz; simpl; [done|].
  rewrite IH by (intros; apply Hz; [by right|done]). destruct (q a) eqn:Hq; [done|].
  rewrite (Hz a); [done|by left|done].
Qed.

Lemma nsum_Permutation {A} (f : A -> N) l l' : l ≡ₚ l' -> nsum f l = nsum f l'.
Proof. induction 1; simpl; lia. Qed.

Lemma count_nsum {A} (f : A -> bool) l : count f l = nsum (fun x => if f x then 1 else 0) l.
Proof. induction l as [|x l IH]; simpl; [done|]. by rewrite IH. Qed.

(** Exactly one index of a duplicate-free list contributes. *)
Lemma nsum_single {A} (f : A -> N) l a :
  NoDup l -> a ∈ l -> (forall x, x ∈ l -> x <> a -> f x = 0) -> nsum f l = f a.
Proof.
  induction l as [|b l IH]; intros Hnd Ha H; simpl; [by apply elem_of_nil in Ha|].
  apply list.NoDup_cons in Hnd as [Hb Hnd]. apply elem_of_cons in Ha as [<-|Ha].
  - rewrite nsum_zero; [lia|]. intros x Hx. apply H; [by right|]. intros ->. done.
  - rewrite (H b), IH; [lia|done|done| |by left|].
    + intros. apply H; [by right|done].
    + intros ->. done.
Qed.

(** ** Rules of the weakest precondition *)

Section WP.
Context {S E T U : Type}.
Implicit Types (Q : S -> T -> Prop) (s : S).

Lemma wp_mono (m : M S T) (Q Q' : S -> T -> Prop) s :
  wp m Q s -> (forall s' x, Q s' x -> Q' s' x) -> wp m Q' s.
Proof. unfold wp. destruct (m s); auto. Qed.

Lemma wp_and (m : M S T) (Q Q' : S -> T -> Prop) s :
  wp m Q s -> wp m Q' s -> wp m (fun s' x => Q s' x /\ Q' s' x) s.
Proof. unfold wp. destruct (m s); auto. Qed.

Lemma wp_ret (x : T) Q s : Q s x -> wp (ret x) Q s.
Proof. done. Qed.

Lemma wp_bind (m : M S T) (k : T -> M S U) (Q : S -> U -> Prop) s :
  wp m (fun s' x => wp (k x) Q s') s -> wp (bind m k) Q s.
Proof. unfold wp, bind. by destruct (m s). Qed.

Lemma wp_tbind (m : M S (result E T)) (k : T -> M S (result E U))
    (Q : S -> result E U -> Prop) s :
  wp m (fun s' r => match r with Ok x => wp (k x) Q s' | Err e => Q s' (Err e) end) s ->
  wp (tbind m k) Q s.
Proof. unfold wp, tbind, bind. destruct (m s) as [s' [x|e]|]; done. Qed.

Lemma wp_get (Q : S -> S -> Prop) s : Q s s -> wp get Q s.
Proof. done. Qed.

Lemma wp_gets (f : S -> T) Q s : Q s (f s) -> wp (gets f) Q s.
Proof. done. Qed.

Lemma wp_modify (f : S -> S) (Q : S -> unit -> Prop) s : Q (f s) tt -> wp (modify f) Q s.
Proof. done. Qed.

Lemma wp_unwrap (r : result E T) Q s : (exists x, r = Ok x /\ Q s x) -> wp (unwrap r) Q s.
Proof. by intros (x & -> & H). Qed.

Lemma wp_unwrap_opt {X} (o : option X) (Q : S -> X -> Prop) s :
  (exists x, o = Some x /\ Q s x) -> wp (unwrap_opt o) Q s.
Proof. by intros (x & -> & H). Qed.

Lemma wp_dbg_assert (b : bool) (Q : S -> unit -> Prop) s :
  b = true -> Q s tt -> wp (dbg_assert b) Q s.
Proof. by intros ->. Qed.

Lemma wp_ensure (P : Prop) `{Decision P} (e : E) (Q : S -> result E unit -> Prop) s :
  (P -> Q s (Ok tt)) -> (~ P -> Q s (Err e)) -> wp (ensure P e) Q s.
Proof. unfold ensure. intros. case_decide; unfold wp; simpl; auto. Qed.

Lemma wp_ok_or {X} (o : option X) (e : E) (Q : S -> result E X -> Prop) s :
  (forall x, o = Some x -> Q s (Ok x)) -> (o = None -> Q s (Err e)) ->
  wp (lift (ok_or o e)) Q s.
Proof. unfold wp. destruct o; simpl; auto. Qed.

Lemma wp_lift {X} (r : result E X) (Q : S -> result E X -> Prop) s :
  (forall x, r = Ok x -> Q s (Ok x)) -> (forall e, r = Err e -> Q s (Err e)) -> wp (lift r) Q s.
Proof. unfold wp. destruct r; simpl; auto. Qed.

Lemma wp_index {X} (l : list X) i (Q : S -> X -> Prop) s :
  (exists x, vget l i = Some x /\ Q s x) -> wp (index l i) Q s.
Proof. apply wp_unwrap_opt. Qed.

Lemma wp_uadd (max a b : N) (Q : S -> N -> Prop) s :
  a + b <= max -> Q s (a + b) -> wp (uadd max a b) Q s.
Proof. unfold uadd. intros. by rewrite decide_True. Qed.

Lemma wp_usub (a b : N) (Q : S -> N -> Prop) s :
  b <= a -> Q s (a - b) -> wp (usub a b) Q s.
Proof. unfold usub. intros. by rewrite decide_True. Qed.
End WP.

Section Loops.
Context {S T : Type}.
Implicit Types (s : S).

(** A loop: the invariant is indexed by the elements already done. *)
Lemma wp_for_each {X} (l : list X) (f : X -> M S unit) (I : list X -> S -> Prop)
    (Q : S -> unit -> Prop) s :
  I [] s ->
  (forall l1 x l2 s, l = l1 ++ x :: l2 -> I l1 s -> wp (f x) (fun s' _ => I (l1 ++ [x]) s') s) ->
  (forall s, I l s -> Q s tt) ->
  wp (for_each l f) Q s.
Proof.
  intros H0 Hstep Hend.
  cut (forall l2 l1 s, l = l1 ++ l2 -> I l1 s -> wp (for_each l2 f) (fun s' _ => I l s') s).
  { intros Hc. eapply wp_mono; [by apply (Hc l [])|]. intros s' []. apply Hend. }
  induction l2 as [|x l2 IH]; intros l1 s' Hl HI; simpl.
  - apply wp_ret. by rewrite app_nil_r in Hl; subst.
  - apply wp_bind. eapply wp_mono; [by eapply Hstep|].
    intros s'' ? HI'. apply (IH (l1 ++ [x])); [|done]. by rewrite <- app_assoc.
Qed.

(** A loop whose invariant does not mention the progress. *)
Lemma wp_for_each_inv {X} (l : list X) (f : X -> M S unit) (I : S -> Prop)
    (Q : S -> unit -> Prop) s :
  I s ->
  (forall x s, x ∈ l -> I s -> wp (f x) (fun s' _ => I s') s) ->
  (forall s, I s -> Q s tt) ->
  wp (for_each l f) Q s.
Proof.
  intros H0 Hstep Hend. apply wp_for_each with (I := fun _ => I); [done| |done].
  intros l1 x l2 s' -> HI. apply Hstep; [|done]. apply elem_of_app. right. by left.
Qed.

(** A search that finds nothing, and touches nothing. *)
Lemma wp_first_some_m {X V} (l : list X) (f : X -> M S (option V)) (Q : S -> option V -> Prop) s :
  (forall x, x ∈ l -> wp (f x) (fun s' o => s' = s /\ o = None) s) ->
  Q s None -> wp (first_some_m l f) Q s.
Proof.
  intros Hf HQ. induction l as [|x l IH]; simpl; [done|]. apply wp_bind.
  eapply wp_mono; [apply Hf; by left|]. intros s' o [-> ->]. apply IH. intros y Hy.
  apply Hf. by right.
Qed.

Lemma wp_fold_m {X V} (l : list X) (f : V -> X -> M S V) (I : list X -> V -> S -> Prop)
    (Q : S -> V -> Prop) v s :
  I [] v s ->
  (forall l1 x l2 v s, l = l1 ++ x :: l2 -> I l1 v s ->
     wp (f v x) (fun s' v' => I (l1 ++ [x]) v' s') s) ->
  (forall v s, I l v s -> Q s v) ->
  wp (fold_m l f v) Q s.
Proof.
  intros H0 Hstep Hend.
  cut (forall l2 l1 v s, l = l1 ++ l2 -> I l1 v s -> wp (fold_m l2 f v) (fun s' v => I l v s') s).
  { intros Hc. eapply wp_mono; [by apply (Hc l [])|]. intros s' v'. apply Hend. }
  induction l2 as [|x l2 IH]; intros l1 v' s' Hl HI; simpl.
  - apply wp_ret. by rewrite app_nil_r in Hl; subst.
  - apply wp_bind. eapply wp_mono; [by eapply Hstep|].
    intros s'' v'' HI'. apply (IH (l1 ++ [x])); [|done]. by rewrite <- app_assoc.
Qed.

Lemma wp_for_collect {X} (l : list X) (f : X -> M S T) (I : list X -> list T -> S -> Prop)
    (Q : S -> list T -> Prop) s :
  I [] [] s ->
  (forall l1 x l2 ys s, l = l1 ++ x :: l2 -> I l1 ys s ->
     wp (f x) (fun s' y => I (l1 ++ [x]) (ys ++ [y]) s') s) ->
  (forall ys s, I l ys s -> Q s ys) ->
  wp (for_collect l f) Q s.
Proof.
  intros H0 Hstep Hend.
  cut (forall l2 l1 zs s, l = l1 ++ l2 -> I l1 zs s ->
         wp (for_collect l2 f) (fun s' ys => I l (zs ++ ys) s') s).
  { intros Hc. eapply wp_mono; [by apply (Hc l [] [])|]. intros s' ys. apply Hend. }
  induction l2 as [|x l2 IH]; intros l1 zs s' Hl HI; simpl.
  - apply wp_ret. rewrite app_nil_r in *. by subst.
  - apply wp_bind. eapply wp_mono; [by eapply Hstep|]. intros s'' y HI'. apply wp_bind.
    eapply wp_mono; [apply (IH (l1 ++ [x]) (zs ++ [y])); [by rewrite <- app_assoc|done]|].
    intros s3 ys HI3. cbn beta in HI3. apply wp_ret.
    by rewrite <- app_assoc in HI3.
Qed.
End Loops.

(** A loop whose body may return an error: the invariant on the way, a fact of the state the
    error is returned in. *)
Lemma wp_for_ok {S X E} (l : list X) (f : X -> M S (result E unit)) (I : list X -> S -> Prop)
    (F : X -> S -> E -> Prop) s :
  I [] s ->
  (forall l1 x l2 s, l = l1 ++ x :: l2 -> I l1 s ->
     wp (f x) (fun s' r => match r with Ok _ => I (l1 ++ [x]) s' | Err e => F x s' e end) s) ->
  wp (for_ok l f) (fun s' r => match r with Ok _ => I l s' | Err e => exists x, x ∈ l /\ F x s' e end) s.
Proof.
  intros H0 Hstep.
  cut (forall l2 l1 s, l = l1 ++ l2 -> I l1 s ->
    wp (for_ok l2 f) (fun s' r => match r with Ok _ => I l s' | Err e => exists x, x ∈ l /\ F x s' e end) s).
  { intros Hc. by apply (Hc l []). }
  induction l2 as [|x l2 IH]; intros l1 s' Hl HI; simpl.
  - apply wp_ret. rewrite app_nil_r in Hl. by subst.
  - apply wp_tbind. eapply wp_mono; [by eapply Hstep|]. intros s2 [ []|e] Hr.
    + apply (IH (l1 ++ [x])); [by rewrite <- app_assoc|done].
    + exists x. split; [|done]. rewrite Hl. apply elem_of_app. right. by left.
Qed.

Lemma wp_zoom {S A T} (l : lens S A) (m : M A T) (Q : S -> T -> Prop) s :
  wp m (fun a x => Q (lset l a s) x) (lget l s) -> wp (zoom l m) Q s.
Proof. unfold wp, zoom. by destruct (m (lget l s)). Qed.

(** *** Runs *)

Lemma index_Done {S A} (l : list A) i x (s : S) : vget l i = Some x -> index l i s = Done s x.
Proof. unfold index. by intros ->. Qed.

Lemma index_set_Done {S A} (l : lens S (list A)) i x s :
  i < vlen (lget l s) -> index_set l i x s = Done (lset l (vset (lget l s) i x) s) tt.
Proof.
  intros Hi. destruct (vget_lt_Some _ _ Hi) as [y Hy].
  unfold index_set, bind, get, index. by rewrite Hy.
Qed.

Lemma uadd_Done {S} m a b (s : S) : a + b <= m -> uadd m a b s = Done s (a + b).
Proof. intros. unfold uadd. by rewrite decide_True. Qed.

Lemma umul_Done {S} a b (s : S) : a * b <= u64_max -> umul a b s = Done s (a * b).
Proof. intros. unfold umul. by rewrite decide_True. Qed.

Lemma usub_Done {S} a b (s : S) : b <= a -> usub a b s = Done s (a - b).
Proof. intros. unfold usub. by rewrite decide_True. Qed.

(** From a weakest precondition to the outcome of a run. *)
Lemma wp_Done {S T} (m : M S T) Q s : wp m Q s -> exists s' x, m s = Done s' x /\ Q s' x.
Proof. unfold wp. destruct (m s); naive_solver. Qed.

Lemma tbind_Ok {S E T U} (m : M S (result E T)) (k : T -> M S (result E U)) s s' u :
  tbind m k s = Done s' (Ok u) -> exists s1 x, m s = Done s1 (Ok x) /\ k x s1 = Done s' (Ok u).
Proof.
  unfold tbind, bind. destruct (m s) as [s1 [x|e]|]; [|done|done]. intros H. by exists s1, x.
Qed.

Lemma lift_Ok {S E T U} (r : result E T) (k : T -> M S (result E U)) s s' u :
  tbind (lift r) k s = Done s' (Ok u) -> exists x, r = Ok x /\ k x s = Done s' (Ok u).
Proof. intros (s1 & x & H & Hk)%tbind_Ok. injection H as -> ->. by exists x. Qed.

Lemma for_ok_Ok {S X E} (l : list X) (f : X -> M S (result E unit)) s s' u :
  (forall x s s' u, f x s = Done s' (Ok u) -> s' = s) ->
  for_ok l f s = Done s' (Ok u) -> s' = s /\ forall x, x ∈ l -> f x s = Done s (Ok tt).
Proof.
  intros Hf. revert s. induction l as [|x l IH]; intros s; simpl.
  - intros H. injection H as <- _. split; [done|]. by intros x Hx%elem_of_nil.
  - intros (s1 & [] & H1 & H2)%tbind_Ok. pose proof (Hf _ _ _ _ H1) as ->.
    apply IH in H2 as [-> H2]. split; [done|]. intros y [->|Hy]%elem_of_cons; [done|by apply H2].
Qed.

Lemma tbind_Done {S E T U} (m : M S (result E T)) (k : T -> M S (result E U)) s s' x r :
  m s = Done s' (Ok x) -> k x s' = r -> tbind m k s = r.
Proof. intros H <-. unfold tbind, bind. by rewrite H. Qed.

Lemma for_ok_intro {S X E} (l : list X) (f : X -> M S (result E unit)) (s : S) :
  (forall x, x ∈ l -> f x s = Done s (Ok tt)) -> for_ok l f s = Done s (Ok tt).
Proof.
  induction l as [|x l IH]; intros H; [done|]. simpl. eapply tbind_Done; [apply H; by left|].
  apply IH. intros y Hy. apply H. by right.
Qed.

Lemma wp_of_Done {S T} (m : M S T) (Q : S -> T -> Prop) s s' x : m s = Done s' x -> Q s' x -> wp m Q s.
Proof. intros H HQ. unfold wp. by rewrite H. Qed.

Lemma vlen_snoc {A} (l : list A) x : vlen (l ++ [x]) = vlen l + 1.
Proof. by rewrite vlen_app. Qed.

Lemma wp_umul {S} a b (Q : S -> N -> Prop) s : a * b <= u64_max -> Q s (a * b) -> wp (umul a b) Q s.
Proof. intros H HQ. unfold wp. by rewrite umul_Done. Qed.

Lemma wp_index_set {S A} (l : lens S (list A)) i x (Q : S -> unit -> Prop) s :
  i < vlen (lget l s) -> Q (lset l (vset (lget l s) i x) s) tt -> wp (index_set l i x) Q s.
Proof. intros Hi HQ. unfold wp. by rewrite index_set_Done. Qed.

Lemma all_m_true {S X} (l : list X) (f : X -> M S bool) s :
  (forall x, x ∈ l -> f x s = Done s true) -> all_m l f s = Done s true.
Proof.
  induction l as [|x l IH]; intros H; [done|]. simpl. unfold bind. rewrite H by (by left).
  apply IH. intros y Hy. apply H. by right.
Qed.

(** ** Automation *)

Create HintDb hv discriminated.
Create Rewrite HintDb hv.
#[export] Hint Rewrite @vlen_tset @twidth_tset @vlen_vset @vlen_app @vlen_vrepeat @vlen_fmap vlen_vrange : hv.

(** One symbolic execution step; leaves the postcondition with the binds reduced. *)
Ltac wp_step :=
  lazymatch goal with
  | |- wp (bind _ _) _ _ => apply wp_bind
  | |- wp (tbind _ _) _ _ => apply wp_tbind
  | |- wp (ret _) _ _ => apply wp_ret
  | |- wp (ok _) _ _ => apply wp_ret
  | |- wp (err _) _ _ => apply wp_ret
  | |- wp (lift (ok_or _ _)) _ _ => apply wp_ok_or; intros
  | |- wp (lift _) _ _ => apply wp_lift; intros
  | |- wp get _ _ => apply wp_get
  | |- wp (gets _) _ _ => apply wp_gets
  | |- wp (modify _) _ _ => apply wp_modify
  | |- wp (ensure _ _) _ _ => apply wp_ensure; intros
  | |- wp (zoom _ _) _ _ => apply wp_zoom
  | |- wp (if decide ?P then _ else _) _ _ => destruct (decide P)
  | |- wp (match ?x with _ => _ end) _ _ => destruct x eqn:?
  end; cbn beta iota.

Ltac wp_auto := repeat wp_step.

(** Run a call whose specification is [H]; the rest continues from its postcondition. *)
Ltac wp_apply H := eapply wp_mono; [eapply H|cbn beta].

(** The cases of a sweep: the cells done, the cell of this step, the cells left. *)
Ltac sweep_cases :=
  repeat case_decide; rewrite ?elem_of_snoc in *; try done; try (exfalso; tauto).

(** Booleans of the code as propositions. *)
Ltac bool_prop :=
  repeat match goal with
  | H : (_ && _)%bool = true |- _ => apply andb_true_iff in H as [? ?]
  | H : (_ || _)%bool = false |- _ => apply orb_false_iff in H as [? ?]
  | H : negb _ = true |- _ => apply negb_true_iff in H
  | H : negb _ = false |- _ => apply negb_false_iff in H
  | H : bool_decide _ = true |- _ => apply bool_decide_eq_true_1 in H
  | H : bool_decide _ = false |- _ => apply bool_decide_eq_false_1 in H
  end.
