(* ===== verification/Prng.v ===== *)
(** * The generator — [hv-core/src/prng.rs]

    The seeded xorshift64 generator the scenario sweeps draw from: its state, its three
    operations, and the facts a seed sweep relies on (no zero state, no two states with
    one successor, the one seed collision). *)

From Stdlib Require Import NArith Lia.
From stdpp Require Import base numbers list option.
From S2P Require Import Prelude.
#[local] Open Scope N_scope.

(** ** Data and operations *)

Record Prng : Type := mkPrng { state : N }.

Definition GOLDEN : N := 0x9E3779B97F4A7C15.

Definition new (seed : N) : Prng :=
  let mixed := N.lxor seed GOLDEN in
  mkPrng (if decide (mixed = 0) then GOLDEN else mixed).

(** [x << k] on a [u64] drops the bits above. *)
Definition shl64 (x k : N) : N := N.land (N.shiftl x k) u64_max.

Definition step (x : N) : N :=
  let x := N.lxor x (shl64 x 13) in
  let x := N.lxor x (N.shiftr x 7) in
  N.lxor x (shl64 x 17).

Definition next_u64 : M Prng N :=
  let! s := get in
  let x := step (state s) in
  modify (fun _ => mkPrng x) ;! ret x.

(** [assert!(n != 0)] stays in every build profile. *)
Definition below (n : N) : M Prng N :=
  (if decide (n = 0) then panic else ret tt) ;!
  let! x := next_u64 in
  ret (as_u32 (x mod n)).

(** ** Specification *)

(** A [u64] state the generator can leave. *)
Definition Inv (s : Prng) : Prop := 0 < state s < 2 ^ 64.

(** ** Lemmas *)

Lemma testbit_bounded x i : x < 2 ^ 64 -> 64 <= i -> N.testbit x i = false.
Proof.
  intros Hx Hi. destruct (decide (x = 0)) as [->|]; [apply N.bits_0|].
  apply N.bits_above_log2. pose proof (N.log2_lt_pow2 x 64). lia.
Qed.

Lemma bounded_testbit x : (forall i, 64 <= i -> N.testbit x i = false) -> x < 2 ^ 64.
Proof.
  intros H. destruct (decide (x = 0)) as [->|Hx]; [done|].
  apply N.log2_lt_pow2; [lia|]. destruct (decide (N.log2 x < 64)); [done|].
  assert (N.testbit x (N.log2 x) = true) by (apply N.bit_log2; lia).
  rewrite H in *; [done|lia].
Qed.

Lemma shl64_testbit x k i : k <= 64 ->
  N.testbit (shl64 x k) i = if decide (k <= i /\ i < 64) then N.testbit x (i - k) else false.
Proof.
  intros Hk. unfold shl64, u64_max. rewrite N.land_spec.
  change 18446744073709551615 with (N.ones 64). case_decide as H.
  - destruct H. rewrite N.shiftl_spec_high', N.ones_spec_low by lia. apply andb_true_r.
  - destruct (decide (i < k)); [by rewrite N.shiftl_spec_low|].
    rewrite N.ones_spec_high by lia. apply andb_false_r.
Qed.

Lemma lxor_bounded x y : x < 2 ^ 64 -> y < 2 ^ 64 -> N.lxor x y < 2 ^ 64.
Proof.
  intros Hx Hy. apply bounded_testbit. intros i Hi. rewrite N.lxor_spec.
  by rewrite !testbit_bounded.
Qed.

Lemma shl64_bounded x k : k <= 64 -> shl64 x k < 2 ^ 64.
Proof.
  intros Hk. apply bounded_testbit. intros i Hi. rewrite shl64_testbit by done.
  rewrite decide_False; [done|lia].
Qed.

Lemma shiftr_bounded x k : x < 2 ^ 64 -> N.shiftr x k < 2 ^ 64.
Proof.
  intros Hx. apply bounded_testbit. intros i Hi. rewrite N.shiftr_spec' .
  apply testbit_bounded; [done|lia].
Qed.

(** Each of the three rounds is injective: a left-xorshift is determined from its low bits
    up, a right-xorshift from its high bits down. *)
Lemma xorshl_inj k x y : 0 < k -> k <= 64 -> x < 2 ^ 64 -> y < 2 ^ 64 ->
  N.lxor x (shl64 x k) = N.lxor y (shl64 y k) -> x = y.
Proof.
  intros Hk Hk' Hx Hy He. apply N.bits_inj. intros i. induction i as [i IH] using (well_founded_induction N.lt_wf_0).
  destruct (decide (64 <= i)); [by rewrite !testbit_bounded|].
  apply (f_equal (fun z => N.testbit z i)) in He.
  rewrite !N.lxor_spec, !shl64_testbit in He by done. case_decide.
  - rewrite (IH (i - k)) in He by lia.
    by destruct (N.testbit x i), (N.testbit y i), (N.testbit y (i - k)).
  - by rewrite !xorb_false_r in He.
Qed.

Lemma xorshr_inj k x y : 0 < k -> x < 2 ^ 64 -> y < 2 ^ 64 ->
  N.lxor x (N.shiftr x k) = N.lxor y (N.shiftr y k) -> x = y.
Proof.
  intros Hk Hx Hy He. apply N.bits_inj.
  cut (forall n i, 64 - i <= n -> N.testbit x i = N.testbit y i); [intros H i; by apply (H (64 - i))|].
  intros n. induction n as [|n IH] using N.peano_ind; intros i Hi.
  - by rewrite !testbit_bounded by (done || lia).
  - apply (f_equal (fun z => N.testbit z i)) in He.
    rewrite !N.lxor_spec, !N.shiftr_spec' in He.
    destruct (decide (64 <= i)); [by rewrite !testbit_bounded|].
    rewrite (IH (i + k)) in He by lia.
    by destruct (N.testbit x i), (N.testbit y i), (N.testbit y (i + k)).
Qed.

Lemma step_bounded x : x < 2 ^ 64 -> step x < 2 ^ 64.
Proof.
  intros Hx. unfold step. cbv zeta.
  repeat first [apply lxor_bounded|apply shl64_bounded|apply shiftr_bounded]; (done || lia).
Qed.

Lemma step_inj x y : x < 2 ^ 64 -> y < 2 ^ 64 -> step x = step y -> x = y.
Proof.
  intros Hx Hy He. unfold step in He. cbv zeta in He.
  assert (H1 : forall z, z < 2 ^ 64 -> N.lxor z (shl64 z 13) < 2 ^ 64)
    by (intros; apply lxor_bounded; [done|by apply shl64_bounded]).
  assert (H2 : forall z, z < 2 ^ 64 -> N.lxor z (N.shiftr z 7) < 2 ^ 64)
    by (intros; apply lxor_bounded; [done|by apply shiftr_bounded]).
  apply xorshl_inj in He; [|lia|lia|auto..]. apply xorshr_inj in He; [|lia|auto..].
  by apply xorshl_inj in He; [|lia|lia|..].
Qed.

(** Zero is the fixpoint of the map, so no other state reaches it. *)
Lemma step_nonzero x : x < 2 ^ 64 -> x <> 0 -> step x <> 0.
Proof. intros Hx Hn H0. apply Hn, step_inj; [done|lia|]. by rewrite H0. Qed.

Lemma new_state seed :
  state (new seed) = if decide (seed = GOLDEN) then GOLDEN else N.lxor seed GOLDEN.
Proof.
  unfold new. simpl. destruct (decide (seed = GOLDEN)) as [->|Hne].
  - by rewrite N.lxor_nilpotent.
  - rewrite decide_False; [done|]. intros H. by apply N.lxor_eq in H.
Qed.

Lemma prng_new_Inv seed : seed < 2 ^ 64 -> Inv (new seed).
Proof.
  intros Hs. unfold Inv. rewrite new_state. case_decide as H.
  - unfold GOLDEN. lia.
  - split; [|apply lxor_bounded; [done|unfold GOLDEN; lia]].
    destruct (N.lxor seed GOLDEN) eqn:E; [by apply N.lxor_eq in E|lia].
Qed.

(** The seed collision the comment of [new] concedes is the only one. *)
Lemma new_inj seed seed' :
  new seed = new seed' <->
  seed = seed' \/ (seed = 0 /\ seed' = GOLDEN) \/ (seed = GOLDEN /\ seed' = 0).
Proof.
  assert (Hst : forall a b, new a = new b <-> state (new a) = state (new b)).
  { intros a b. split; [by intros ->|]. destruct (new a), (new b). simpl. by intros ->. }
  rewrite Hst, !new_state.
  assert (Hx : forall a b, N.lxor a GOLDEN = N.lxor b GOLDEN -> a = b).
  { intros a b H. apply (f_equal (fun z => N.lxor z GOLDEN)) in H.
    by rewrite !N.lxor_assoc, !N.lxor_nilpotent, !N.lxor_0_r in H. }
  assert (Hg : forall a, N.lxor a GOLDEN = GOLDEN <-> a = 0).
  { intros a. split; [|intros ->; apply N.lxor_0_l]. intros H. apply Hx.
    by rewrite H, N.lxor_0_l. }
  assert (Hg0 : GOLDEN <> 0) by done.
  repeat case_decide; subst.
  - naive_solver.
  - split; [intros E%eq_sym%Hg; auto|]. intros [?|[[? ?]|[_ ->]]]; try done; try congruence.
  - split; [intros E%Hg; auto|]. intros [?|[[-> _]|[? ?]]]; try done; try congruence.
  - split; [intros E%Hx; auto|]. intros [->|[[_ ?]|[? _]]]; done.
Qed.

Lemma wp_next_u64 s : Inv s ->
  wp next_u64 (fun s' x => Inv s' /\ state s' = x /\ x = step (state s)) s.
Proof.
  intros [H1 H2]. unfold next_u64. wp_auto. split; [|done]. unfold Inv. simpl.
  pose proof (step_nonzero (state s) H2). pose proof (step_bounded (state s) H2). lia.
Qed.

Lemma wp_below n s : Inv s -> n <> 0 -> n <= u32_max ->
  wp (below n) (fun s' x => Inv s' /\ x < n /\ x = step (state s) mod n) s.
Proof.
  intros HI Hn Hmax. unfold below. rewrite decide_False by done. wp_step. wp_step. wp_step.
  wp_apply wp_next_u64; [done|]. intros s' x (HI' & _ & ->). wp_step.
  pose proof (N.mod_lt (step (state s)) n Hn). rewrite as_u32_id by lia. done.
Qed.

(** ** Properties *)

(** [n] draws in a row. *)
Fixpoint draws (n : nat) : M Prng (list N) :=
  match n with
  | O => ret []
  | S n => let! x := next_u64 in let! xs := draws n in ret (x :: xs)
  end.

Lemma wp_draws n s :
  Inv s -> wp (draws n) (fun s' xs => Inv s' /\ length xs = n /\
    forall x, x ∈ xs -> 0 < x < 2 ^ 64) s.
Proof.
  revert s. induction n as [|n IH]; intros s HI; simpl.
  - wp_step. split_and!; [done|done|]. intros x Hx. by apply elem_of_nil in Hx.
  - wp_step. wp_apply wp_next_u64; [done|]. intros s1 x (HI1 & Hx & _). wp_step.
    wp_apply IH; [done|]. intros s2 xs (HI2 & Hl & Hxs). wp_step.
    split_and!; [done|simpl; lia|]. intros y [->|Hy]%elem_of_cons; [|auto].
    rewrite <- Hx. apply HI1.
Qed.

(** The first draw already tells the states apart. *)
Lemma draw_inj s s' x : Inv s -> Inv s' ->
  (exists t, next_u64 s = Done t x) -> (exists t, next_u64 s' = Done t x) -> s = s'.
Proof.
  intros [_ H] [_ H'] [t E] [t' E']. injection E as _ E. injection E' as _ E'.
  destruct s as [a], s' as [b]. simpl in *. f_equal. apply step_inj; [done|done|congruence].
Qed.

(** A generator from any [u64] seed draws for ever without a panic, and no draw is
    zero; two seeds whose first draws agree are the same seed, or the one pair
    [0] and [0x9E3779B97F4A7C15] that [new] maps to the same state. *)
Theorem prng_streams (seed seed' : N) (n : nat) :
  seed < 2 ^ 64 -> seed' < 2 ^ 64 ->
  (exists s xs, draws n (new seed) = Done s xs /\ length xs = n /\
    forall x, x ∈ xs -> 0 < x < 2 ^ 64) /\
  (forall s s' xs, draws (S n) (new seed) = Done s xs -> draws (S n) (new seed') = Done s' xs ->
    seed = seed' \/ (seed = 0 /\ seed' = GOLDEN) \/ (seed = GOLDEN /\ seed' = 0)).
Proof.
  intros Hs Hs'. pose proof (prng_new_Inv seed Hs) as HI. pose proof (prng_new_Inv seed' Hs') as HI'.
  split.
  - destruct (wp_Done _ _ _ (wp_draws n _ HI)) as (s & xs & E & _ & Hl & Hx). by exists s, xs.
  - intros s s' xs E E'. apply new_inj.
    assert (Hh : forall a b ys, draws (S n) a = Done b ys ->
      exists t x zs, next_u64 a = Done t x /\ ys = x :: zs).
    { intros a b ys. simpl. unfold bind, next_u64, modify, ret, get. simpl.
      unfold bind. simpl. destruct (draws n _); [|done]. intros [= <- <-]. eauto. }
    destruct (Hh _ _ _ E) as (t & x & zs & H1 & ->).
    destruct (Hh _ _ _ E') as (t' & x' & zs' & H2 & [= <- <-]).
    eapply draw_inj; [done|done|by exists t|by exists t'].
Qed.

Theorem prng_streams_witness :
  exists s xs, draws 2 (new 1) = Done s xs /\ length xs = 2%nat /\
    forall x, x ∈ xs -> 0 < x < 2 ^ 64.
Proof. refine (proj1 (prng_streams 1 2 2 _ _)); vm_compute; reflexivity. Defined.

(** [below n] panics exactly on [n = 0]; otherwise it draws a number under the bound. *)
Theorem prng_below (s : Prng) (n : N) :
  Inv s -> n <= u32_max ->
  (below 0 s = Panic) /\
  (n <> 0 -> exists s' x, below n s = Done s' x /\ x < n /\ Inv s').
Proof.
  intros HI Hn. split; [done|]. intros Hn0.
  destruct (wp_Done _ _ _ (wp_below n s HI Hn0 Hn)) as (s' & x & E & HI' & Hx & _). eauto.
Qed.

Theorem prng_below_witness : exists s' x, below 6 (new 7) = Done s' x /\ x < 6 /\ Inv s'.
Proof.
  refine (proj2 (prng_below (new 7) 6 _ _) _).
  - split; vm_compute; reflexivity.
  - vm_compute. discriminate.
  - discriminate.
Defined.
