(* ===== verification/Credit.v ===== *)
(** * Credit accounts — [hv-core/src/lib.rs]

    The credit account every domain owns ([HvCore]), its two transitions and the toy
    ABI in front of them ([RawHypercall], [decode], [dispatch]). The invariant is
    conservation: [granted = spent + balance], every total within [u64]. *)

From Stdlib Require Import NArith Lia.
From stdpp Require Import base numbers list option.
From S2P Require Import Prelude.
#[local] Open Scope N_scope.

(** ** Data *)

Inductive HError : Type :=
| BadHypercall
| Overflow
| Insufficient.
#[global] Instance HError_eq_dec : EqDecision HError.
Proof. solve_decision. Defined.

(** [HResult]: the value of a successful call is the resulting balance. *)
Definition HResult : Type := result HError N.

Record RawHypercall : Type := mkRaw { nr : N; arg0 : N }.

Definition NR_GRANT : N := 0.
Definition NR_SPEND : N := 1.

Inductive Hypercall : Type :=
| Grant (amount : N)
| Spend (amount : N).

(** [Hypercall::decode]: the argument must fit in a [u32], the number must be known;
    the argument is checked first. *)
Definition decode (raw : RawHypercall) : result HError Hypercall :=
  if decide (arg0 raw <= u32_max) then
    if decide (nr raw = NR_GRANT) then Ok (Grant (arg0 raw))
    else if decide (nr raw = NR_SPEND) then Ok (Spend (arg0 raw))
    else Err BadHypercall
  else Err BadHypercall.

Record HvCore : Type := mkHvCore { balance : N; granted : N; spent : N }.

(** ** Operations *)

Definition new : HvCore := mkHvCore 0 0 0.

Definition invariants_hold : M HvCore bool :=
  let! s := get in
  let! t := uadd u64_max (spent s) (balance s) in
  ret (bool_decide (granted s = t)).

Definition check_invariants : M HvCore unit :=
  let! s := get in
  let! t := uadd u64_max (spent s) (balance s) in
  dbg_assert (bool_decide (granted s = t)).

Definition grant_credit (amount : N) : M HvCore HResult :=
  let! s := get in
  let? new_balance := lift (ok_or (checked_add u64_max (balance s) amount) Overflow) in
  let? new_granted := lift (ok_or (checked_add u64_max (granted s) amount) Overflow) in
  modify (fun s => mkHvCore new_balance new_granted (spent s)) ;!
  check_invariants ;!
  let! s := get in
  ok (balance s).

Definition spend_credit (amount : N) : M HvCore HResult :=
  let! s := get in
  ensure (amount <= balance s) Insufficient ;?
  let? new_spent := lift (ok_or (checked_add u64_max (spent s) amount) Overflow) in
  let! new_balance := usub (balance s) amount in
  modify (fun s => mkHvCore new_balance (granted s) new_spent) ;!
  check_invariants ;!
  let! s := get in
  ok (balance s).

(** [dispatch] threads the guest memory and the clock and uses neither. *)
Definition dispatch {Mem Time : Type} (_mem : Mem) (_time : Time) (call : Hypercall) :
  M HvCore HResult :=
  match call with
  | Grant amount => grant_credit amount
  | Spend amount => spend_credit amount
  end.

(** ** Specification *)

(** Conservation, within the width of the counters. *)
Definition Inv (s : HvCore) : Prop :=
  granted s = spent s + balance s /\ granted s <= u64_max.

(** What the account promises, as a function on states: an unbounded ledger that
    refuses what it cannot represent. *)
Definition ledger (call : Hypercall) (s : HvCore) : HvCore * HResult :=
  match call with
  | Grant a =>
      if decide (granted s + a <= u64_max)
      then (mkHvCore (balance s + a) (granted s + a) (spent s), Ok (balance s + a))
      else (s, Err Overflow)
  | Spend a =>
      if decide (a <= balance s)
      then (mkHvCore (balance s - a) (granted s) (spent s + a), Ok (balance s - a))
      else (s, Err Insufficient)
  end.

(** ** Lemmas *)

Lemma credit_wp_check s (Q : HvCore -> unit -> Prop) :
  Inv s -> Q s tt -> wp check_invariants Q s.
Proof.
  intros [H Hm] HQ. unfold check_invariants. wp_auto. apply wp_uadd; [lia|].
  apply wp_dbg_assert; [|done]. by apply bool_decide_eq_true_2.
Qed.

Lemma credit_new_Inv : Inv new.
Proof. split; vm_compute; done. Qed.

Lemma credit_wp_invariants_hold s (Q : HvCore -> bool -> Prop) :
  Inv s -> Q s true -> wp invariants_hold Q s.
Proof.
  intros [H Hm] HQ. unfold invariants_hold. wp_auto. apply wp_uadd; [lia|]. apply wp_ret.
  by rewrite bool_decide_eq_true_2.
Qed.

(** The code is the ledger: same state, same answer, no panic. *)
Lemma dispatch_ledger_ {Mem Time} (mem : Mem) (time : Time) call s :
  Inv s -> dispatch mem time call s = Done (fst (ledger call s)) (snd (ledger call s)).
Proof.
  intros [H Hm].
  cut (wp (dispatch mem time call) (fun s' r => (s', r) = ledger call s) s).
  { intros (s' & r & -> & E)%wp_Done. by rewrite <- E. }
  destruct call as [a|a]; simpl; [unfold grant_credit|unfold spend_credit]; wp_auto;
    repeat match goal with
    | E : checked_add _ _ _ = Some _ |- _ => apply checked_add_Some in E as [? ->]
    | E : checked_add _ _ _ = None |- _ => apply checked_add_None in E
    end.
  - apply credit_wp_check; [split; simpl; lia|]. wp_auto. by rewrite decide_True by lia.
  - by rewrite decide_False by lia.
  - by rewrite decide_False by lia.
  - apply wp_usub; [done|]. wp_auto.
    apply credit_wp_check; [split; simpl; lia|]. wp_auto. by rewrite decide_True by lia.
  - lia.
  - by rewrite decide_False by lia.
Qed.

Lemma ledger_Inv call s : Inv s -> Inv (fst (ledger call s)).
Proof. intros [H Hm]. destruct call; simpl; case_decide; split; simpl; lia. Qed.

(** A rejected call leaves the core as it was. *)
Lemma ledger_reject call s s' e : ledger call s = (s', Err e) -> s' = s.
Proof. destruct call; simpl; case_decide; by intros [=]. Qed.

(** What the aggregate relies on. *)
Definition credit_post (s : HvCore) (s' : HvCore) (r : HResult) : Prop :=
  Inv s' /\ match r with Ok _ => True | Err _ => s' = s end.

Lemma wp_ledger call (m : M HvCore HResult) s :
  Inv s -> m s = Done (fst (ledger call s)) (snd (ledger call s)) -> wp m (credit_post s) s.
Proof.
  intros H E. unfold wp. rewrite E. split; [by apply ledger_Inv|].
  destruct (ledger call s) as [s' [b|e]] eqn:El; [done|]. by eapply ledger_reject.
Qed.

Lemma wp_grant_credit amount s : Inv s -> wp (grant_credit amount) (credit_post s) s.
Proof.
  intros H. by apply (wp_ledger (Grant amount)), (dispatch_ledger_ tt tt (Grant amount) s H).
Qed.

Lemma wp_spend_credit amount s : Inv s -> wp (spend_credit amount) (credit_post s) s.
Proof.
  intros H. by apply (wp_ledger (Spend amount)), (dispatch_ledger_ tt tt (Spend amount) s H).
Qed.

(** ** Properties *)

(** A sequence of calls, whatever each one answers. *)
Fixpoint run_calls {Mem Time : Type} (mem : Mem) (time : Time) (calls : list Hypercall) :
  M HvCore (list HResult) :=
  match calls with
  | [] => ret []
  | c :: calls =>
      let! r := dispatch mem time c in let! rs := run_calls mem time calls in ret (r :: rs)
  end.

Lemma wp_run_calls {Mem Time : Type} (mem : Mem) (time : Time) calls s :
  Inv s -> wp (run_calls mem time calls) (fun s' rs => Inv s' /\
    (s', rs) = foldl (fun '(s, rs) c => let '(s', r) := ledger c s in (s', rs ++ [r])) (s, []) calls) s.
Proof.
  intros H. 
  cut (forall acc, wp (run_calls mem time calls) (fun s' rs => Inv s' /\
    (s', acc ++ rs) =
      foldl (fun '(s, rs) c => let '(s', r) := ledger c s in (s', rs ++ [r])) (s, acc) calls) s);
    [intros Hc; apply (Hc [])|].
  revert s H. induction calls as [|c calls IH]; intros s H acc; simpl.
  - wp_step. by rewrite app_nil_r.
  - wp_step. unfold wp. rewrite dispatch_ledger_ by done.
    destruct (ledger c s) as [s1 r] eqn:El. simpl.
    assert (H1 : Inv s1) by (pose proof (ledger_Inv c s H) as HI; by rewrite El in HI).
    change (wp (let! rs := run_calls mem time calls in ret (r :: rs)) (fun s' rs => Inv s' /\
      (s', acc ++ rs) = foldl (fun '(s, rs) c => let '(s', r) := ledger c s in (s', rs ++ [r]))
        (s1, acc ++ [r]) calls) s1).
    wp_step. wp_apply (IH s1 H1 (acc ++ [r])). intros s2 rs [HI Heq]. wp_step.
    split; [done|]. by rewrite <- Heq, <- app_assoc.
Qed.

(** One credit hypercall is one step of the ledger: from a conserving account,
    [dispatch] ends without a panic (its unchecked addition and subtraction do not
    overflow, its debug assertion holds), in the state and with the answer of the
    mathematical ledger, errors included; the guest memory and the clock play no part. *)
Theorem dispatch_is_ledger {Mem Time : Type} (mem : Mem) (time : Time) (call : Hypercall)
    (s : HvCore) :
  Inv s -> dispatch mem time call s = Done (fst (ledger call s)) (snd (ledger call s)) /\
    Inv (fst (ledger call s)).
Proof. intros H. split; [by apply dispatch_ledger_|by apply ledger_Inv]. Qed.

Theorem dispatch_is_ledger_witness :
  dispatch tt tt (Spend 3) (mkHvCore 5 7 2) = Done (mkHvCore 2 7 5) (Ok 2).
Proof.
  refine (proj1 (dispatch_is_ledger tt tt (Spend 3) (mkHvCore 5 7 2) _)).
  split; vm_compute; [reflexivity|discriminate].
Defined.

(** Credit is conserved for ever: any sequence of calls on a new account runs to its
    end without a panic, answers each call as the ledger does, and leaves
    [granted = spent + balance] with every total within [u64]. *)
Theorem credit_conserved {Mem Time : Type} (mem : Mem) (time : Time) (calls : list Hypercall) :
  exists s rs, run_calls mem time calls new = Done s rs /\
    granted s = spent s + balance s /\ granted s <= u64_max /\
    (s, rs) = foldl (fun '(s, rs) c => let '(s', r) := ledger c s in (s', rs ++ [r]))
      (new, []) calls.
Proof.
  destruct (wp_Done _ _ _ (wp_run_calls mem time calls new credit_new_Inv))
    as (s & rs & E & [H1 H2] & Heq). by exists s, rs.
Qed.

(** The ABI: a raw call decodes exactly when its number is known and its argument is a
    [u32], whatever the unknown number's argument is. *)
Theorem decode_exact (raw : RawHypercall) :
  (exists c, decode raw = Ok c) <-> arg0 raw <= u32_max /\ (nr raw = NR_GRANT \/ nr raw = NR_SPEND).
Proof.
  unfold decode. repeat case_decide; split; naive_solver.
Qed.
