(* ===== verification/Device.v ===== *)
(** * Device assignment — [hv-core/src/device.rs]

    The exclusive device-to-domain relation: one [option DomId] per device. The
    liveness half of its contract couples it to the domain lifecycle and is proved
    where both are visible, in the integrated core. *)

From Stdlib Require Import NArith Lia.
From stdpp Require Import base numbers list option.
From S2P Require Import Prelude.
#[local] Open Scope N_scope.


Inductive DeviceError : Type :=
| BadDevice
| BadDomain
| Busy
| NotAssigned.
#[global] Instance DeviceError_eq_dec : EqDecision DeviceError.
Proof. solve_decision. Defined.

Record System : Type := mkSystem {
  assigned : list (option DomId);
  num_domains : N;
}.

(** ** Operations *)

Definition new (num_domains num_devices : N) : System :=
  mkSystem (vrepeat num_devices None) num_domains.

Definition set_slot (dev : DevId) (h : option DomId) (s : System) : System :=
  mkSystem (vset (assigned s) dev h) (num_domains s).

Definition assign (dev : DevId) (to : DomId) : M System (result DeviceError unit) :=
  let! s := get in
  ensure (to < num_domains s) BadDomain ;?
  let? slot := lift (ok_or (vget (assigned s) dev) BadDevice) in
  match slot with
  | None => modify (set_slot dev (Some to)) ;! ok tt
  | Some h => if decide (h = to) then ok tt else err Busy
  end.

Definition release (dev : DevId) (from : DomId) : M System (result DeviceError unit) :=
  let! s := get in
  ensure (from < num_domains s) BadDomain ;?
  let? slot := lift (ok_or (vget (assigned s) dev) BadDevice) in
  ensure (slot = Some from) NotAssigned ;?
  modify (set_slot dev None) ;! ok tt.

Definition release_all_of (holder : DomId) : M System unit :=
  modify (fun s => mkSystem
    ((fun slot => if decide (slot = Some holder) then None else slot) <$> assigned s)
    (num_domains s)).

Definition holder_of (s : System) (dev : DevId) : option DomId :=
  match vget (assigned s) dev with Some slot => slot | None => None end.

Definition any_device_of (s : System) (holder : DomId) : bool :=
  bool_decide (Some holder ∈ assigned s).

Definition device_count (s : System) : N := vlen (assigned s).
Definition domain_count (s : System) : N := num_domains s.
Definition assigned_count (s : System) : N :=
  count (fun a => bool_decide (is_Some a)) (assigned s).

(** ** Specification *)

(** Every holder is a domain of the system. *)
Definition Inv (s : System) : Prop :=
  forall dev h, holder_of s dev = Some h -> h < num_domains s.

(** ** Lemmas *)

Lemma holder_of_set_slot s dev h dev' :
  dev < device_count s ->
  holder_of (set_slot dev h s) dev' = if decide (dev' = dev) then h else holder_of s dev'.
Proof.
  intros Hd. unfold holder_of. simpl. destruct (decide (dev' = dev)) as [->|].
  - by rewrite vget_vset_eq.
  - by rewrite vget_vset_ne.
Qed.

Lemma holder_of_release_all h s dev :
  holder_of (mkSystem ((fun slot => if decide (slot = Some h) then None else slot) <$>
    assigned s) (num_domains s)) dev =
  if decide (holder_of s dev = Some h) then None else holder_of s dev.
Proof.
  unfold holder_of. simpl. rewrite vget_fmap.
  destruct (vget (assigned s) dev) as [[d|]|]; simpl; done.
Qed.

Lemma any_device_of_spec s h :
  any_device_of s h = true <-> exists dev, holder_of s dev = Some h.
Proof.
  unfold any_device_of, holder_of. rewrite bool_decide_eq_true. split.
  - intros [i Hi]%elem_vget. exists i. by rewrite Hi.
  - intros [i Hi]. destruct (vget (assigned s) i) as [o|] eqn:E; [|done]. subst.
    by eapply vget_elem.
Qed.

Lemma dev_new_Inv n k : Inv (new n k).
Proof.
  intros dev h. unfold holder_of. simpl. rewrite vget_vrepeat. by case_decide.
Qed.

(** When [assign] and [release] succeed. *)
Definition assignable (s : System) (dev : DevId) (to : DomId) : Prop :=
  to < num_domains s /\ dev < device_count s /\
  (holder_of s dev = None \/ holder_of s dev = Some to).
Definition releasable (s : System) (dev : DevId) (from : DomId) : Prop :=
  from < num_domains s /\ holder_of s dev = Some from.

#[global] Instance assignable_dec s dev to : Decision (assignable s dev to).
Proof. unfold assignable. apply _. Defined.
#[global] Instance releasable_dec s dev from : Decision (releasable s dev from).
Proof. unfold releasable. apply _. Defined.

Lemma holder_slot s dev slot : vget (assigned s) dev = Some slot -> holder_of s dev = slot.
Proof. unfold holder_of. by intros ->. Qed.

(** [assign] and [release] on every branch. *)
Lemma wp_assign dev to s :
  wp (assign dev to) (fun s' r =>
    match r with
    | Ok _ => assignable s dev to /\ num_domains s' = num_domains s /\
        device_count s' = device_count s /\
        forall d, holder_of s' d = if decide (d = dev) then Some to else holder_of s d
    | Err e => s' = s /\ ~ assignable s dev to
    end) s.
Proof.
  unfold assign, assignable, device_count. wp_auto;
    match goal with
    | H : vget _ _ = Some _ |- _ => pose proof (vget_Some_lt _ _ _ H); apply holder_slot in H as Hs
    | H : vget _ _ = None |- _ => apply vget_None in H
    | _ => idtac
    end; try (split; [done|]; intros (? & ? & ?); by (lia || naive_solver)).
  - subst. split_and!; [done..| |done|done|]; [by right|]. intros d. by case_decide; subst.
  - split_and!; [done..| |done| |]; [by left|by simpl; rewrite vlen_vset|].
    intros d. by apply (holder_of_set_slot s dev (Some to) d).
Qed.

Lemma wp_release dev from s :
  wp (release dev from) (fun s' r =>
    match r with
    | Ok _ => releasable s dev from /\ num_domains s' = num_domains s /\
        device_count s' = device_count s /\
        forall d, holder_of s' d = if decide (d = dev) then None else holder_of s d
    | Err e => s' = s /\ ~ releasable s dev from
    end) s.
Proof.
  unfold release, releasable, device_count. wp_auto;
    match goal with
    | H : vget _ _ = Some _ |- _ => pose proof (vget_Some_lt _ _ _ H); apply holder_slot in H as Hs
    | H : vget _ _ = None |- _ => unfold holder_of; rewrite H
    | _ => idtac
    end; try (split; [done|]; intros (? & ?); by (lia || naive_solver)).
  subst. split_and!; [done|done|done|by simpl; rewrite vlen_vset|].
  intros d. by apply (holder_of_set_slot s dev None d).
Qed.

Lemma wp_release_all_of h s :
  wp (release_all_of h) (fun s' _ =>
    num_domains s' = num_domains s /\ device_count s' = device_count s /\
    forall d, holder_of s' d = if decide (holder_of s d = Some h) then None else holder_of s d) s.
Proof.
  unfold release_all_of. wp_auto. split_and!; [done| |].
  - unfold device_count. simpl. apply vlen_fmap.
  - intros d. apply holder_of_release_all.
Qed.

(** ** Properties *)

(** A device has one holder. [assign] never panics and succeeds exactly for a known
    domain and a known device that is free or already held by that domain; it then hands
    the device over and moves no other. [release] succeeds exactly for the holder. A refusal
    changes nothing. *)
Theorem device_exclusive (s : System) (dev : DevId) (d : DomId) :
  (exists s' r, assign dev d s = Done s' r /\ (r = Ok tt <-> assignable s dev d) /\
    forall x, holder_of s' x =
      if decide (assignable s dev d /\ x = dev) then Some d else holder_of s x) /\
  (exists s' r, release dev d s = Done s' r /\ (r = Ok tt <-> releasable s dev d) /\
    forall x, holder_of s' x =
      if decide (releasable s dev d /\ x = dev) then None else holder_of s x).
Proof.
  split.
  - destruct (wp_Done _ _ _ (wp_assign dev d s)) as (s' & [[]|e] & E & H); exists s'; eexists;
      (split; [exact E|]).
    + destruct H as (Ha & _ & _ & Hh). split; [done|]. intros x. rewrite Hh.
      repeat case_decide; tauto.
    + destruct H as [-> Ha]. split; [done|]. intros x. case_decide; tauto.
  - destruct (wp_Done _ _ _ (wp_release dev d s)) as (s' & [[]|e] & E & H); exists s'; eexists;
      (split; [exact E|]).
    + destruct H as (Ha & _ & _ & Hh). split; [done|]. intros x. rewrite Hh.
      repeat case_decide; tauto.
    + destruct H as [-> Ha]. split; [done|]. intros x. case_decide; tauto.
Qed.
