(* ===== verification/Sched.v ===== *)
(** * The scheduler — [hv-core/src/sched.rs]

    Run states of every domain's vCPUs and the occupancy of the physical CPUs, in one
    [System]; the transitions ([admit], [run], [preempt], [block], [wake],
    [set_affinity], [offline], [offline_all]), the queries and the invariant check. *)

From Stdlib Require Import NArith Lia.
From stdpp Require Import base numbers list option.
From S2P Require Import Prelude.
#[local] Open Scope N_scope.

(** ** Data *)


Inductive RunState : Type :=
| Offline
| Runnable
| Running (pcpu : Pcpu)
| Blocked.
#[global] Instance RunState_eq_dec : EqDecision RunState.
Proof. solve_decision. Defined.

Record VirtualCpu : Type := mkVcpu {
  state : RunState;
  v_runtime : Ticks;
  dispatched_at : Ticks;
  affinity : N;
}.

(** [VirtualCpu::OFFLINE]: every construction site overrides the affinity. *)
Definition OFFLINE : VirtualCpu := mkVcpu Offline 0 0 0.

Definition full_mask (num_pcpus : N) : N :=
  if decide (64 <= num_pcpus) then u64_max else N.shiftl 1 num_pcpus - 1.

(** [1u64.checked_shl(pcpu)] is [None] from bit 64 on. *)
Definition mask_permits (mask : N) (pcpu : Pcpu) : bool :=
  if decide (pcpu < 64) then negb (N.land mask (N.shiftl 1 pcpu) =? 0) else false.

(** A [Domain] is its [Vec] of vCPUs. *)
Abbreviation Domain := (list VirtualCpu) (only parsing).

Record System : Type := mkSystem {
  domains : list Domain;
  pcpus : list (option (DomId * Vcpu));
}.

Inductive SchedError : Type :=
| BadDomain
| BadVcpu
| BadPcpu
| WrongState
| PcpuBusy
| NotAffine.
#[global] Instance SchedError_eq_dec : EqDecision SchedError.
Proof. solve_decision. Defined.

Inductive Violation : Type :=
| RunningGhostPcpu (dom vcpu : N)
| OccupancyBroken (dom vcpu : N)
| OccupantNotRunning (pcpu : N)
| OccupantGhost (pcpu : N)
| RunningOffAffinity (dom vcpu : N).

(** ** Queries *)

Definition domain (s : System) (dom : DomId) : result SchedError Domain :=
  ok_or (vget (domains s) dom) BadDomain.

Definition vcpu (s : System) (dom : DomId) (c : Vcpu) : result SchedError VirtualCpu :=
  match domain s dom with
  | Ok d => ok_or (vget d c) BadVcpu
  | Err e => Err e
  end.

Definition vcpu_opt (s : System) (dom : DomId) (c : Vcpu) : option VirtualCpu :=
  match vcpu s dom c with Ok v => Some v | Err _ => None end.

Definition state_of (s : System) (dom : DomId) (c : Vcpu) : option RunState :=
  state <$> vcpu_opt s dom c.

Definition is_running (s : System) (dom : DomId) (c : Vcpu) : bool :=
  match state_of s dom c with Some (Running _) => true | _ => false end.

Definition runtime (s : System) (dom : DomId) (c : Vcpu) : option Ticks :=
  v_runtime <$> vcpu_opt s dom c.

Definition on_cpu_since (s : System) (dom : DomId) (c : Vcpu) : option Ticks :=
  match vcpu_opt s dom c with
  | Some v => match state v with Running _ => Some (dispatched_at v) | _ => None end
  | None => None
  end.

Definition occupant (s : System) (pcpu : Pcpu) : option (DomId * Vcpu) :=
  match vget (pcpus s) pcpu with Some o => o | None => None end.

Definition affinity_of (s : System) (dom : DomId) (c : Vcpu) : option N :=
  affinity <$> vcpu_opt s dom c.

Definition affinity_permits (s : System) (dom : DomId) (c : Vcpu) (pcpu : Pcpu) : bool :=
  match vcpu s dom c with Ok v => mask_permits (affinity v) pcpu | Err _ => false end.

Definition full_affinity (s : System) : N := full_mask (vlen (pcpus s)).

Definition domain_count (s : System) : N := vlen (domains s).
Definition vcpu_count (s : System) (dom : DomId) : N :=
  match domain s dom with Ok d => vlen d | Err _ => 0 end.
Definition pcpu_count (s : System) : N := vlen (pcpus s).
Definition busy_pcpus (s : System) : N := count (fun p => bool_decide (is_Some p)) (pcpus s).

(** The physical CPU a vCPU is running on, or the error of a caller that needs one. *)
Definition running_pcpu (s : System) (dom : DomId) (c : Vcpu) : result SchedError Pcpu :=
  match vcpu s dom c with
  | Ok v => match state v with Running p => Ok p | _ => Err WrongState end
  | Err e => Err e
  end.

(** ** The invariant check *)

Definition vcpu_violation (s : System) (d c : N) (vc : VirtualCpu) : option Violation :=
  match state vc with
  | Running p =>
      match vget (pcpus s) p with
      | None => Some (RunningGhostPcpu d c)
      | Some occ =>
          if decide (occ = Some (as_u16 d, as_u32 c)) then
            if mask_permits (affinity vc) p then None else Some (RunningOffAffinity d c)
          else Some (OccupancyBroken d c)
      end
  | _ => None
  end.

Definition pcpu_violation (s : System) (p : N) (occ : option (DomId * Vcpu)) :
  option Violation :=
  match occ with
  | Some (dom, c) =>
      match vcpu s dom c with
      | Err _ => Some (OccupantGhost p)
      | Ok vc => if decide (state vc = Running (as_u32 p)) then None
                 else Some (OccupantNotRunning p)
      end
  | None => None
  end.

Definition first_violation (s : System) : option Violation :=
  match first_some (fun '(d, dom) =>
          first_some (fun '(c, vc) => vcpu_violation s d c vc) (enumerate dom))
        (enumerate (domains s)) with
  | Some v => Some v
  | None => first_some (fun '(p, occ) => pcpu_violation s p occ) (enumerate (pcpus s))
  end.

Definition invariants_hold (s : System) : bool := bool_decide (first_violation s = None).

Definition check_invariants : M System unit :=
  let! s := get in dbg_assert (match first_violation s with None => true | Some _ => false end).

(** ** Transitions *)

Definition new (num_domains vcpus_per_domain num_pcpus : N) : System :=
  mkSystem
    (vrepeat num_domains
       (vrepeat vcpus_per_domain (mkVcpu Offline 0 0 (full_mask num_pcpus))))
    (vrepeat num_pcpus None).

(** Writing through the reference [vcpu_mut] returns, and to the occupancy table. *)
Definition set_vcpu (dom : DomId) (c : Vcpu) (v : VirtualCpu) (s : System) : System :=
  mkSystem (tset (domains s) dom c v) (pcpus s).

Definition set_state (st : RunState) (v : VirtualCpu) : VirtualCpu :=
  mkVcpu st (v_runtime v) (dispatched_at v) (affinity v).

Definition set_pcpu (p : Pcpu) (o : option (DomId * Vcpu)) : M System unit :=
  let! s := get in
  index (pcpus s) p ;!
  modify (fun s => mkSystem (domains s) (vset (pcpus s) p o)).

(** [account]: close the on-CPU interval. *)
Definition account (dom : DomId) (c : Vcpu) (now : Ticks) : M System unit :=
  let! s := get in
  let! v := unwrap (vcpu s dom c) in
  let delta := now - dispatched_at v in
  modify (set_vcpu dom c
    (mkVcpu (state v) (saturating_add u64_max (v_runtime v) delta) (dispatched_at v)
            (affinity v))).

(** [self.vcpu_mut(dom, vcpu).unwrap().state = st]. *)
Definition put_state (dom : DomId) (c : Vcpu) (st : RunState) : M System unit :=
  let! s := get in
  let! v := unwrap (vcpu s dom c) in
  modify (set_vcpu dom c (set_state st v)).

Definition admit_vcpu (dom : DomId) (c : Vcpu) : M System (result SchedError unit) :=
  let! s := get in
  let? v := lift (vcpu s dom c) in
  ensure (state v = Offline) WrongState ;?
  modify (set_vcpu dom c (set_state Runnable v)) ;!
  check_invariants ;! ok tt.

Definition run (dom : DomId) (c : Vcpu) (pcpu : Pcpu) (now : Ticks) :
  M System (result SchedError unit) :=
  let! s := get in
  ensure (pcpu < vlen (pcpus s)) BadPcpu ;?
  let? v := lift (vcpu s dom c) in
  ensure (state v = Runnable) WrongState ;?
  ensure (affinity_permits s dom c pcpu = true) NotAffine ;?
  let! occ := index (pcpus s) pcpu in
  ensure (occ = None) PcpuBusy ;?
  let! v := unwrap (vcpu s dom c) in
  modify (set_vcpu dom c (mkVcpu (Running pcpu) (v_runtime v) now (affinity v))) ;!
  set_pcpu pcpu (Some (dom, c)) ;!
  check_invariants ;! ok tt.

Definition preempt (dom : DomId) (c : Vcpu) (now : Ticks) : M System (result SchedError unit) :=
  let! s := get in
  let? pcpu := lift (running_pcpu s dom c) in
  account dom c now ;!
  set_pcpu pcpu None ;!
  put_state dom c Runnable ;!
  check_invariants ;! ok tt.

Definition block (dom : DomId) (c : Vcpu) (now : Ticks) : M System (result SchedError unit) :=
  let! s := get in
  let? v := lift (vcpu s dom c) in
  match state v with
  | Running pcpu => account dom c now ;! set_pcpu pcpu None ;! ok tt
  | Runnable => ok tt
  | Offline | Blocked => err WrongState
  end ;?
  put_state dom c Blocked ;!
  check_invariants ;! ok tt.

Definition wake (dom : DomId) (c : Vcpu) : M System (result SchedError unit) :=
  let! s := get in
  let? v := lift (vcpu s dom c) in
  ensure (state v = Blocked) WrongState ;?
  modify (set_vcpu dom c (set_state Runnable v)) ;!
  check_invariants ;! ok tt.

Definition set_affinity (dom : DomId) (c : Vcpu) (aff : N) : M System (result SchedError unit) :=
  let! s := get in
  let mask := N.land aff (full_affinity s) in
  let? v := lift (vcpu s dom c) in
  match state v with
  | Running pcpu => ensure (mask_permits mask pcpu = true) NotAffine
  | _ => ok tt
  end ;?
  let! v := unwrap (vcpu s dom c) in
  modify (set_vcpu dom c (mkVcpu (state v) (v_runtime v) (dispatched_at v) mask)) ;!
  check_invariants ;! ok tt.

Definition offline (dom : DomId) (c : Vcpu) (now : Ticks) : M System (result SchedError unit) :=
  let! s := get in
  let? v := lift (vcpu s dom c) in
  match state v with
  | Offline => err WrongState
  | Running pcpu => account dom c now ;! set_pcpu pcpu None ;! ok tt
  | Runnable | Blocked => ok tt
  end ;?
  let! s := get in
  let full := full_affinity s in
  let! v := unwrap (vcpu s dom c) in
  modify (set_vcpu dom c (mkVcpu Offline (v_runtime v) (dispatched_at v) full)) ;!
  check_invariants ;! ok tt.

Definition offline_all (dom : DomId) (now : Ticks) : M System unit :=
  let! s := get in
  for_each (vrange (as_u32 (vcpu_count s dom))) (fun c =>
    let! s := get in
    if decide (state_of s dom c <> Some Offline) then
      let! r := offline dom c now in dbg_assert (is_ok r)
    else ret tt).

(** ** Specification *)

(** The table of vCPUs and the occupancy table are two records of one fact, and every
    running vCPU is on a physical CPU its mask permits. *)
Record Inv (s : System) : Prop := mkInv {
  inv_doms : vlen (domains s) <= u16_max;
  inv_vcpus : forall d, twidth (domains s) d <= u32_max;
  inv_pcpus : vlen (pcpus s) <= u32_max;
  inv_running : forall d c v p, tget (domains s) d c = Some v -> state v = Running p ->
    vget (pcpus s) p = Some (Some (d, c)) /\ mask_permits (affinity v) p = true;
  inv_occupant : forall p d c, vget (pcpus s) p = Some (Some (d, c)) ->
    exists v, tget (domains s) d c = Some v /\ state v = Running p;
}.

(** The parts of the state no transition changes. *)
Definition same_shape (s s' : System) : Prop :=
  domain_count s' = domain_count s /\ pcpu_count s' = pcpu_count s /\
  forall d, vcpu_count s' d = vcpu_count s d.

(** The record of a vCPU whose on-CPU interval, if it has one, is closed at [now]. *)
Definition leave (now : Ticks) (v : VirtualCpu) : VirtualCpu :=
  match state v with
  | Running _ => mkVcpu (state v)
      (saturating_add u64_max (v_runtime v) (now - dispatched_at v)) (dispatched_at v) (affinity v)
  | _ => v
  end.

(** The vCPU [(d, c)] now has the record [v'], and no other vCPU changed. *)
Definition step_at (d : DomId) (c : Vcpu) (v' : VirtualCpu) (s s' : System) : Prop :=
  Inv s' /\ same_shape s s' /\
  forall d' c', vcpu_opt s' d' c' =
    if decide (d' = d /\ c' = c) then Some v' else vcpu_opt s d' c'.

(** ** Lemmas *)

Lemma vcpu_Ok s d c v : vcpu s d c = Ok v <-> tget (domains s) d c = Some v.
Proof.
  unfold vcpu, domain, tget. destruct (vget (domains s) d) as [r|]; simpl; [|naive_solver].
  destruct (vget r c); simpl; naive_solver.
Qed.

Lemma vcpu_opt_tget s d c : vcpu_opt s d c = tget (domains s) d c.
Proof.
  unfold vcpu_opt. destruct (vcpu s d c) as [v|e] eqn:E.
  - by apply vcpu_Ok in E.
  - destruct (tget (domains s) d c) as [v|] eqn:E'; [|done]. apply vcpu_Ok in E'. congruence.
Qed.

Lemma state_of_Some s d c st :
  state_of s d c = Some st <-> exists v, tget (domains s) d c = Some v /\ state v = st.
Proof.
  unfold state_of. rewrite vcpu_opt_tget. destruct (tget _ d c); simpl; naive_solver.
Qed.

Lemma state_of_Err s d c e : vcpu s d c = Err e -> state_of s d c = None.
Proof. unfold state_of, vcpu_opt. by intros ->. Qed.

Lemma vcpu_count_twidth s d : vcpu_count s d = twidth (domains s) d.
Proof. unfold vcpu_count, domain, twidth. by destruct (vget (domains s) d). Qed.

Lemma mask_permits_testbit mask p :
  mask_permits mask p = true <-> p < 64 /\ N.testbit mask p = true.
Proof.
  unfold mask_permits. case_decide as Hp; [|naive_solver].
  assert (Hl : N.testbit mask p = negb (N.land mask (N.shiftl 1 p) =? 0)); [|rewrite Hl; naive_solver].
  destruct (N.testbit mask p) eqn:E; symmetry.
  - apply negb_true_iff, N.eqb_neq. intros H0. apply (f_equal (fun n => N.testbit n p)) in H0.
    rewrite N.land_spec, E, N.shiftl_spec_high, N.sub_diag, N.bits_0 in H0 by lia. done.
  - apply negb_false_iff, N.eqb_eq, N.bits_inj. intros i. rewrite N.land_spec, N.bits_0.
    destruct (decide (i = p)) as [->|Hne]; [by rewrite E|].
    assert (N.testbit (N.shiftl 1 p) i = false) as ->; [|by rewrite andb_false_r].
    destruct (decide (i < p)); [by rewrite N.shiftl_spec_low|].
    rewrite N.shiftl_spec_high by lia. destruct (i - p) as [|q] eqn:Hq; [lia|done].
Qed.

(** The check finds no violation exactly when the invariant holds. *)
Lemma sched_first_violation_None s :
  vlen (domains s) <= u16_max -> (forall d, twidth (domains s) d <= u32_max) ->
  vlen (pcpus s) <= u32_max -> first_violation s = None <-> Inv s.
Proof.
  intros Hd Hv Hp. unfold first_violation. split.
  - destruct (first_some _ (enumerate (domains s))) eqn:E1; [done|].
    intros E2. rewrite first_some_None in E2.
    rewrite (first_some_table_None (fun d _ c vc => vcpu_violation s d c vc)) in E1.
    split; try done.
    + intros d c v p Ht Hr. unfold tget in Ht.
      destruct (vget (domains s) d) as [r|] eqn:Hrow; [|done].
      specialize (E1 d r c v Hrow Ht). unfold vcpu_violation in E1. rewrite Hr in E1.
      pose proof (vget_Some_lt _ _ _ Hrow). pose proof (vget_Some_lt _ _ _ Ht).
      specialize (Hv d). unfold twidth in Hv. rewrite Hrow in Hv.
      rewrite as_u16_id, as_u32_id in E1 by lia.
      destruct (vget (pcpus s) p); [|done]. case_decide; [|done]. subst.
      by destruct (mask_permits _ _).
    + intros p d c Ho. specialize (E2 (p, Some (d, c))). unfold pcpu_violation in E2.
      rewrite elem_enumerate in E2. specialize (E2 Ho).
      pose proof (vget_Some_lt _ _ _ Ho). rewrite as_u32_id in E2 by lia.
      destruct (vcpu s d c) as [v|] eqn:Ev; [|done]. apply vcpu_Ok in Ev.
      case_decide; [|done]. by exists v.
  - intros [_ _ _ Hr Ho].
    rewrite (proj2 (first_some_table_None (fun d _ c vc => vcpu_violation s d c vc) _)).
    + apply first_some_None. intros [p [[d c]|]] He; [|done]. apply elem_enumerate in He.
      simpl. destruct (Ho _ _ _ He) as (v & Hv1 & Hv2). apply vcpu_Ok in Hv1. rewrite Hv1.
      pose proof (vget_Some_lt _ _ _ He). by rewrite as_u32_id, decide_True by (done || lia).
    + intros d r c v Hrow Hc. unfold vcpu_violation. destruct (state v) as [| |p|] eqn:Hs; try done.
      destruct (Hr d c v p) as [Hpc Hm]; [by rewrite (tget_row _ _ _ _ Hrow)|done|].
      pose proof (vget_Some_lt _ _ _ Hrow). pose proof (vget_Some_lt _ _ _ Hc).
      specialize (Hv d). unfold twidth in Hv. rewrite Hrow in Hv.
      rewrite Hpc, as_u16_id, as_u32_id, decide_True, Hm by (done || lia). done.
Qed.

Lemma sched_wp_check s (Q : System -> unit -> Prop) :
  Inv s -> Q s tt -> wp check_invariants Q s.
Proof.
  intros HI HQ. unfold check_invariants. wp_auto. apply wp_dbg_assert; [|done].
  pose proof HI as [? ? ? _ _]. by rewrite (proj2 (sched_first_violation_None s ltac:(done)
    ltac:(done) ltac:(done)) HI).
Qed.

Lemma sched_new_Inv n m k : n <= u16_max -> m <= u32_max -> k <= u32_max -> Inv (new n m k).
Proof.
  intros Hn Hm Hk. split; simpl.
  - by rewrite vlen_vrepeat.
  - intros d. pose proof (twidth_vrepeat n m (mkVcpu Offline 0 0 (full_mask k)) d). lia.
  - by rewrite vlen_vrepeat.
  - intros d c v p. rewrite tget_vrepeat. case_decide; [|done]. by intros [= <-].
  - intros p d c. rewrite vget_vrepeat. by case_decide.
Qed.

(** *** The two shapes of a transition: one record changes, or one leaves its CPU *)

Lemma sched_Inv_update s d c v v' :
  Inv s -> tget (domains s) d c = Some v ->
  (forall p, state v' = Running p -> state v = Running p /\ mask_permits (affinity v') p = true) ->
  (forall p, state v = Running p -> state v' = Running p) ->
  Inv (set_vcpu d c v' s).
Proof.
  intros [H1 H2 H3 Hr Ho] Ht Hup Hdown. split; simpl; autorewrite with hv; try done.
  - intros i. autorewrite with hv. apply H2.
  - intros d' c' w p. rewrite tget_tset. case_decide as Hc; [|by apply Hr].
    destruct Hc as (-> & -> & _). intros [= <-] Hs. destruct (Hup p Hs) as [Hs' ?].
    destruct (Hr d c v p); done.
  - intros p d' c' Hp. destruct (Ho p d' c' Hp) as (w & Hw & Hs).
    rewrite tget_tset. case_decide as Hc; [|by exists w]. destruct Hc as (-> & -> & _).
    exists v'. split; [done|]. apply Hdown. congruence.
Qed.

Lemma sched_Inv_leave s d c v v' p :
  Inv s -> tget (domains s) d c = Some v -> state v = Running p ->
  (forall q, state v' <> Running q) ->
  Inv (mkSystem (tset (domains s) d c v') (vset (pcpus s) p None)).
Proof.
  intros [H1 H2 H3 Hr Ho] Ht Hs Hn. destruct (Hr d c v p Ht Hs) as [Hp _].
  split; simpl; autorewrite with hv; try done.
  - intros i. autorewrite with hv. apply H2.
  - intros d' c' w q. rewrite tget_tset. case_decide as Hc; [naive_solver|].
    intros Hw Hq. destruct (Hr _ _ _ _ Hw Hq) as [Hv Hm]. split; [|done].
    rewrite vget_vset_ne; [done|]. intros ->. rewrite Hp in Hv. injection Hv as <- <-.
    apply Hc. split_and!; try done. by apply (tget_Some_lt _ _ _ _ Ht).
  - intros q d' c'. rewrite vget_vset. case_decide as Hc; [done|]. intros Hq.
    destruct (Ho _ _ _ Hq) as (w & Hw & Hsw). rewrite tget_tset_ne; [by exists w|].
    intros [-> ->]. apply Hc. assert (q = p) as -> by congruence.
    split; [done|]. by eapply vget_Some_lt.
Qed.

Lemma sched_Inv_enter s d c v p now :
  Inv s -> tget (domains s) d c = Some v -> (forall q, state v <> Running q) ->
  mask_permits (affinity v) p = true -> vget (pcpus s) p = Some None ->
  Inv (mkSystem (tset (domains s) d c (mkVcpu (Running p) (v_runtime v) now (affinity v)))
                (vset (pcpus s) p (Some (d, c)))).
Proof.
  intros [H1 H2 H3 Hr Ho] Ht Hn Hm Hp. pose proof (vget_Some_lt _ _ _ Hp) as Hlt.
  pose proof (tget_Some_lt _ _ _ _ Ht) as [_ Hw].
  split; simpl; autorewrite with hv; try done.
  - intros i. autorewrite with hv. apply H2.
  - intros d' c' w q. rewrite tget_tset. case_decide as Hc.
    + destruct Hc as (-> & -> & _). intros [= <-]. simpl. intros [= <-].
      by rewrite vget_vset_eq.
    + intros Hw' Hq. destruct (Hr _ _ _ _ Hw' Hq) as [Hv Hmm]. split; [|done].
      rewrite vget_vset_ne; [done|]. intros ->. congruence.
  - intros q d' c'. rewrite vget_vset. case_decide as Hc.
    + intros [= <- <-]. destruct Hc as [-> _]. eexists. split; [by eapply tget_tset_eq|done].
    + intros Hq. destruct (Ho _ _ _ Hq) as (w & Hw' & Hsw). rewrite tget_tset_ne; [by exists w|].
      intros [-> ->]. apply (Hn q). congruence.
Qed.

Lemma sched_step_at_intro s d c v v' ps :
  tget (domains s) d c = Some v -> vlen ps = vlen (pcpus s) ->
  Inv (mkSystem (tset (domains s) d c v') ps) ->
  step_at d c v' s (mkSystem (tset (domains s) d c v') ps).
Proof.
  intros Ht Hl HI. split; [done|]. split.
  - unfold same_shape, domain_count, pcpu_count. simpl. split_and!; [by autorewrite with hv|done|].
    intros i. by rewrite !vcpu_count_twidth; simpl; autorewrite with hv.
  - intros d' c'. rewrite !vcpu_opt_tget. simpl. rewrite tget_tset.
    pose proof (tget_Some_lt _ _ _ _ Ht) as [_ Hw].
    destruct (decide (d' = d /\ c' = c)); repeat case_decide; naive_solver.
Qed.

Lemma sched_step_at_state_of d c v' s s' d' c' :
  step_at d c v' s s' ->
  state_of s' d' c' = if decide (d' = d /\ c' = c) then Some (state v') else state_of s d' c'.
Proof. intros (_ & _ & H). unfold state_of. rewrite H. by case_decide. Qed.

Lemma sched_same_shape_refl s : same_shape s s.
Proof. done. Qed.

Lemma sched_same_shape_trans s1 s2 s3 : same_shape s1 s2 -> same_shape s2 s3 -> same_shape s1 s3.
Proof. unfold same_shape. intros (? & ? & ?) (? & ? & ?). split_and!; congruence. Qed.

(** *** Internal steps *)

Lemma wp_account d c now v s (Q : System -> unit -> Prop) p :
  tget (domains s) d c = Some v -> state v = Running p ->
  Q (set_vcpu d c (leave now v) s) tt -> wp (account d c now) Q s.
Proof.
  intros Ht Hs HQ. unfold account. wp_auto. apply wp_unwrap. exists v.
  split; [by apply vcpu_Ok|]. wp_auto. unfold leave in HQ. by rewrite Hs in *.
Qed.

Lemma wp_set_pcpu p o s (Q : System -> unit -> Prop) :
  p < vlen (pcpus s) -> Q (mkSystem (domains s) (vset (pcpus s) p o)) tt ->
  wp (set_pcpu p o) Q s.
Proof.
  intros Hp HQ. unfold set_pcpu. wp_auto. apply wp_index.
  destruct (vget_lt_Some _ _ Hp) as [x Hx]. exists x. split; [done|]. by wp_auto.
Qed.

Lemma wp_put_state d c st v s (Q : System -> unit -> Prop) :
  tget (domains s) d c = Some v -> Q (set_vcpu d c (set_state st v) s) tt ->
  wp (put_state d c st) Q s.
Proof.
  intros Ht HQ. unfold put_state. wp_auto. apply wp_unwrap. exists v.
  split; [by apply vcpu_Ok|]. by wp_auto.
Qed.

(** Closing the interval and freeing the CPU, for a vCPU that holds one. *)
Lemma wp_leave {E} d c now v p s (Q : System -> result E unit -> Prop) :
  Inv s -> tget (domains s) d c = Some v -> state v = Running p ->
  Q (mkSystem (tset (domains s) d c (leave now v)) (vset (pcpus s) p None)) (Ok tt) ->
  wp (account d c now ;! set_pcpu p None ;! ok tt) Q s.
Proof.
  intros HI Ht Hs HQ. wp_auto. eapply wp_account; [done|done|]. wp_auto.
  destruct (inv_running s HI d c v p Ht Hs) as [Hp _].
  apply wp_set_pcpu; [by eapply vget_Some_lt|]. by wp_auto.
Qed.

(** The store every transition ends with. *)
Lemma wp_store {E} d c f v s (Q : System -> result E unit -> Prop) :
  tget (domains s) d c = Some v -> Inv (set_vcpu d c (f v) s) ->
  Q (set_vcpu d c (f v) s) (Ok tt) ->
  wp (let! v := unwrap (vcpu s d c) in
      modify (set_vcpu d c (f v)) ;! check_invariants ;! ok tt) Q s.
Proof.
  intros Ht HI HQ. wp_step. apply wp_unwrap. exists v. split; [by apply vcpu_Ok|].
  wp_step. wp_step. wp_step. apply sched_wp_check; [done|]. by wp_step.
Qed.

(** *** Transitions *)

Ltac sched_lookup :=
  repeat match goal with
  | H : vcpu _ _ _ = Ok _ |- _ => apply vcpu_Ok in H
  end.

Lemma wp_admit_vcpu d c s :
  Inv s -> wp (admit_vcpu d c) (fun s' r =>
    match r with
    | Ok _ => exists v, vcpu_opt s d c = Some v /\ state v = Offline /\
        step_at d c (set_state Runnable v) s s'
    | Err _ => s' = s
    end) s.
Proof.
  intros HI. unfold admit_vcpu. wp_auto; sched_lookup; try done.
  assert (Hs : Inv (set_vcpu d c (set_state Runnable x) s))
    by (eapply sched_Inv_update; [done..|]; congruence).
  apply sched_wp_check; [done|]. wp_auto. rewrite vcpu_opt_tget. exists x.
  split_and!; [done..|]. by eapply sched_step_at_intro.
Qed.

Lemma wp_wake d c s :
  Inv s -> wp (wake d c) (fun s' r =>
    match r with
    | Ok _ => exists v, vcpu_opt s d c = Some v /\ state v = Blocked /\
        step_at d c (set_state Runnable v) s s'
    | Err _ => s' = s /\ state_of s d c <> Some Blocked
    end) s.
Proof.
  intros HI. unfold wake. wp_auto; sched_lookup.
  - assert (Hs : Inv (set_vcpu d c (set_state Runnable x) s))
      by (eapply sched_Inv_update; [done..|]; congruence).
    apply sched_wp_check; [done|]. wp_auto. rewrite vcpu_opt_tget. exists x.
    split_and!; [done..|]. by eapply sched_step_at_intro.
  - split; [done|]. rewrite state_of_Some. naive_solver.
  - split; [done|]. rewrite state_of_Some. intros (v & Hv & _). apply vcpu_Ok in Hv. congruence.
Qed.

Lemma wp_run d c p now s :
  Inv s -> wp (run d c p now) (fun s' r =>
    match r with
    | Ok _ => exists v, vcpu_opt s d c = Some v /\ state v = Runnable /\
        p < pcpu_count s /\ occupant s p = None /\ mask_permits (affinity v) p = true /\
        step_at d c (mkVcpu (Running p) (v_runtime v) now (affinity v)) s s'
    | Err _ => s' = s
    end) s.
Proof.
  intros HI. unfold run. wp_auto; sched_lookup; try done. apply wp_index.
  destruct (vget_lt_Some (pcpus s) p) as [o Ho]; [done|]. exists o. split; [done|].
  wp_auto; [|done]. subst. apply wp_unwrap. exists x. split; [by apply vcpu_Ok|].
  wp_auto. apply wp_set_pcpu; [done|]. wp_auto.
  assert (Hm : mask_permits (affinity x) p = true).
  { unfold affinity_permits in *. by rewrite (proj2 (vcpu_Ok s d c x)) in *. }
  assert (Hs := sched_Inv_enter s d c x p now HI ltac:(done) ltac:(congruence) Hm Ho).
  apply sched_wp_check; [done|]. wp_auto. rewrite vcpu_opt_tget. exists x.
  split_and!; try done; [by unfold occupant; rewrite Ho|].
  by eapply sched_step_at_intro; [|apply vlen_vset|].
Qed.

(** From the state [wp_leave] ends in to the record the transition stores. *)
Lemma sched_Inv_leave_final s d c v v' p now :
  Inv s -> tget (domains s) d c = Some v -> state v = Running p ->
  (forall q, state v' <> Running q) ->
  Inv (set_vcpu d c v' (mkSystem (tset (domains s) d c (leave now v)) (vset (pcpus s) p None))) /\
  step_at d c v' s
    (set_vcpu d c v' (mkSystem (tset (domains s) d c (leave now v)) (vset (pcpus s) p None))).
Proof.
  intros HI Ht Hs Hn. unfold set_vcpu. simpl. rewrite tset_tset.
  assert (Hs' := sched_Inv_leave s d c v v' p HI Ht Hs Hn). split; [done|].
  by eapply sched_step_at_intro; [|apply vlen_vset|].
Qed.

Lemma wp_preempt d c now s :
  Inv s -> wp (preempt d c now) (fun s' r =>
    match r with
    | Ok _ => exists v p, vcpu_opt s d c = Some v /\ state v = Running p /\
        step_at d c (set_state Runnable (leave now v)) s s'
    | Err _ => s' = s /\ forall p, state_of s d c <> Some (Running p)
    end) s.
Proof.
  intros HI. unfold preempt. wp_auto.
  2: { split; [done|]. intros p (v & Hv & Hs)%state_of_Some. apply vcpu_Ok in Hv.
    unfold running_pcpu in *. by rewrite Hv, Hs in *. }
  unfold running_pcpu in *. destruct (vcpu s d c) as [v|] eqn:Hv; [|done].
  destruct (state v) as [| |p|] eqn:Hs; simplify_eq. apply vcpu_Ok in Hv.
  eapply wp_account; [done|done|]. wp_auto.
  destruct (inv_running s HI d c v x Hv Hs) as [Hp _].
  apply wp_set_pcpu; [by eapply vget_Some_lt|]. wp_auto.
  eapply wp_put_state; [by eapply tget_tset_eq|]. wp_auto.
  destruct (sched_Inv_leave_final s d c v (set_state Runnable (leave now v)) x now) as [Hs1 Hs2];
    try done.
  apply sched_wp_check; [done|]. wp_auto. rewrite vcpu_opt_tget. by exists v, x.
Qed.

Lemma wp_block d c now s :
  Inv s -> wp (block d c now) (fun s' r =>
    match r with
    | Ok _ => exists v, vcpu_opt s d c = Some v /\
        (state v = Runnable \/ exists p, state v = Running p) /\
        step_at d c (set_state Blocked (leave now v)) s s'
    | Err _ => s' = s /\ (forall p, state_of s d c <> Some (Running p)) /\
        state_of s d c <> Some Runnable
    end) s.
Proof.
  intros HI. unfold block. wp_step. wp_step. wp_step. wp_step; [|by erewrite state_of_Err].
  sched_lookup. match goal with H : tget _ _ _ = Some ?x |- _ => rename H into Hv, x into v end.
  assert (Hst : state_of s d c = Some (state v)) by (apply state_of_Some; eauto).
  destruct (state v) as [| |p|] eqn:Hs; wp_step.
  - wp_auto. rewrite Hst. naive_solver.
  - wp_auto. eapply wp_put_state; [done|]. wp_auto.
    assert (Hs' : Inv (set_vcpu d c (set_state Blocked v) s))
      by (eapply sched_Inv_update; [done..|]; congruence).
    apply sched_wp_check; [done|]. wp_auto. rewrite vcpu_opt_tget. exists v.
    split_and!; [done|by left|]. unfold leave. rewrite Hs. by eapply sched_step_at_intro.
  - eapply (wp_leave d c now v p); [done..|]. wp_auto.
    eapply wp_put_state; [by eapply tget_tset_eq|]. wp_auto.
    destruct (sched_Inv_leave_final s d c v (set_state Blocked (leave now v)) p now) as [Hs1 Hs2];
      try done.
    apply sched_wp_check; [done|]. wp_auto. rewrite vcpu_opt_tget. exists v.
    split_and!; [done|by right; exists p|done].
  - wp_auto. rewrite Hst. naive_solver.
Qed.

Lemma wp_set_affinity d c aff s :
  Inv s -> wp (set_affinity d c aff) (fun s' r =>
    match r with
    | Ok _ => exists v, vcpu_opt s d c = Some v /\
        step_at d c (mkVcpu (state v) (v_runtime v) (dispatched_at v)
          (N.land aff (full_affinity s))) s s'
    | Err _ => s' = s /\ (vcpu_opt s d c = None \/ exists p, state_of s d c = Some (Running p))
    end) s.
Proof.
  intros HI. unfold set_affinity. set (mask := N.land aff (full_affinity s)).
  wp_step. wp_step. wp_step. wp_step.
  2: { split; [done|left]. unfold vcpu_opt. by match goal with H : vcpu _ _ _ = Err _ |- _ => rewrite H end. }
  sched_lookup. match goal with H : tget _ _ _ = Some ?x |- _ => rename H into Hv, x into v end.
  wp_step. apply wp_mono with (Q := fun s' r => s' = s /\
    (r = Ok tt -> forall p, state v = Running p -> mask_permits mask p = true) /\
    (forall e, r = Err e -> exists p, state v = Running p)).
  { destruct (state v); wp_auto; naive_solver. }
  intros s' [[]|e] (-> & Hm & He).
  2: { split; [done|right]. destruct (He e eq_refl) as [p Hp]. exists p. apply state_of_Some. eauto. }
  specialize (Hm eq_refl).
  assert (Hfin : Inv (set_vcpu d c (mkVcpu (state v) (v_runtime v) (dispatched_at v) mask) s))
    by (eapply sched_Inv_update; [done..| |]; simpl; naive_solver).
  eapply (wp_store _ _ (fun v => mkVcpu (state v) (v_runtime v) (dispatched_at v) mask));
    [done|done|].
  rewrite vcpu_opt_tget. exists v. split; [done|]. by eapply sched_step_at_intro.
Qed.

Lemma wp_offline d c now s :
  Inv s -> wp (offline d c now) (fun s' r =>
    match r with
    | Ok _ => exists v, vcpu_opt s d c = Some v /\ state v <> Offline /\
        step_at d c (mkVcpu Offline (v_runtime (leave now v)) (dispatched_at v)
          (full_affinity s)) s s'
    | Err _ => s' = s /\ (state_of s d c = Some Offline \/ state_of s d c = None)
    end) s.
Proof.
  intros HI. unfold offline. wp_step. wp_step. wp_step. wp_step.
  2: { split; [done|right]. by eapply state_of_Err. }
  sched_lookup. match goal with H : tget _ _ _ = Some ?x |- _ => rename H into Hv, x into v end.
  assert (Hst : state_of s d c = Some (state v)) by (apply state_of_Some; eauto).
  assert (Hstay : (forall p, state v <> Running p) -> leave now v = v /\
    Inv (set_vcpu d c (mkVcpu Offline (v_runtime v) (dispatched_at v) (full_affinity s)) s)).
  { intros Hn. split; [unfold leave; destruct (state v); naive_solver|].
    eapply sched_Inv_update; [done..| |]; naive_solver. }
  destruct (state v) as [| |p|] eqn:Hs; wp_step.
  2, 4: (wp_step; wp_step; wp_step; destruct Hstay as [Hl Hi]; [done|];
    (eapply (wp_store _ _ (fun v => mkVcpu Offline (v_runtime v) (dispatched_at v)
      (full_affinity s))); [done|done|]);
    rewrite vcpu_opt_tget; exists v; rewrite Hl; split_and!; [done|congruence|];
    by eapply sched_step_at_intro).
  - wp_auto. naive_solver.
  - eapply (wp_leave d c now v p); [done..|]. wp_step. wp_step.
    set (s1 := mkSystem _ _).
    assert (Hf : full_affinity s1 = full_affinity s)
      by (unfold full_affinity; simpl; by rewrite vlen_vset).
    rewrite Hf. destruct (sched_Inv_leave_final s d c v (mkVcpu Offline (v_runtime (leave now v))
      (dispatched_at (leave now v)) (full_affinity s)) p now) as [Hs1 Hs2]; try done.
    eapply (wp_store _ _ (fun v => mkVcpu Offline (v_runtime v) (dispatched_at v)
      (full_affinity s))); [by eapply tget_tset_eq|done|].
    rewrite vcpu_opt_tget. exists v. split_and!; [done|congruence|].
    replace (dispatched_at v) with (dispatched_at (leave now v)); [done|].
    unfold leave. by rewrite Hs.
Qed.

(** After [offline_all d], every vCPU of [d] is offline and every other domain's vCPUs
    are as they were. *)
(** What [offline_all] does to a vCPU: one that is already offline is skipped. *)
Definition offlined (now : Ticks) (full : N) (v : VirtualCpu) : VirtualCpu :=
  if decide (state v = Offline) then v
  else mkVcpu Offline (v_runtime (leave now v)) (dispatched_at v) full.

Lemma offlined_idem now full v : offlined now full (offlined now full v) = offlined now full v.
Proof. unfold offlined. repeat case_decide; done. Qed.

Lemma same_shape_full s s' : same_shape s s' -> full_affinity s' = full_affinity s.
Proof. intros (_ & Hp & _). unfold full_affinity. unfold pcpu_count in Hp. by rewrite Hp. Qed.

Lemma same_shape_vcpu s s' d c :
  same_shape s s' -> vcpu_opt s' d c = None <-> vcpu_opt s d c = None.
Proof.
  intros (_ & _ & Hw). specialize (Hw d). rewrite !vcpu_count_twidth in Hw.
  by rewrite !vcpu_opt_tget, !tget_None, Hw.
Qed.

(** One step of the sweep. *)
Lemma wp_offline_step d c now s (Q : System -> unit -> Prop) :
  Inv s -> is_Some (vcpu_opt s d c) ->
  (forall s', Inv s' -> same_shape s s' ->
    (forall d' c', vcpu_opt s' d' c' = if decide (d' = d /\ c' = c)
       then offlined now (full_affinity s) <$> vcpu_opt s d c else vcpu_opt s d' c') -> Q s' tt) ->
  wp (let! s := get in
      if decide (state_of s d c <> Some Offline) then
        let! r := offline d c now in dbg_assert (is_ok r)
      else ret tt) Q s.
Proof.
  intros HI [v Hv] HQ. wp_step. wp_step. unfold state_of. rewrite Hv in *. simpl in *.
  destruct (decide (Some (state v) <> Some Offline)) as [Hs|Hs].
  - wp_step. wp_apply wp_offline; [done|]. intros s2 [[]|e]; cbn beta iota.
    + intros (v' & Hv' & Hne & Hst & Hsh & Hl). rewrite Hv in Hv'. injection Hv' as <-.
      apply wp_dbg_assert; [done|]. apply HQ; [done|done|]. intros d' c'. rewrite Hl.
      case_decide; [|done]. f_equal. unfold offlined. by rewrite decide_False.
    + unfold state_of. rewrite Hv. intros [-> [?|?] ]; done.
  - wp_step. apply HQ; [done|done|]. intros d' c'. case_decide as Hd; [|done].
    destruct Hd as [-> ->]. rewrite Hv. f_equal. unfold offlined.
    rewrite decide_True; [done|]. apply dec_stable in Hs. congruence.
Qed.

Lemma wp_offline_all d now s :
  Inv s -> wp (offline_all d now) (fun s' _ =>
    Inv s' /\ same_shape s s' /\
    (forall c, vcpu_opt s' d c = offlined now (full_affinity s) <$> vcpu_opt s d c) /\
    (forall d' c, d' <> d -> vcpu_opt s' d' c = vcpu_opt s d' c)) s.
Proof.
  intros HI. unfold offline_all. wp_step. wp_step. set (off := offlined now (full_affinity s)).
  assert (Hrange : forall c, is_Some (vcpu_opt s d c) <-> c ∈ vrange (as_u32 (vcpu_count s d))).
  { intros c. rewrite elem_vrange, vcpu_count_twidth, as_u32_id by apply HI.
    rewrite <- not_eq_None_Some, vcpu_opt_tget, tget_None. lia. }
  apply wp_for_each with (I := fun done s' => Inv s' /\ same_shape s s' /\
    (forall c, c ∈ done -> vcpu_opt s' d c = off <$> vcpu_opt s d c) /\
    (forall c, vcpu_opt s' d c = vcpu_opt s d c \/ vcpu_opt s' d c = off <$> vcpu_opt s d c) /\
    (forall d' c, d' <> d -> vcpu_opt s' d' c = vcpu_opt s d' c)).
  - split_and!; [done..| |by left|done]. intros c Hc. by apply elem_of_nil in Hc.
  - intros l1 c l2 s1 Hl (HI1 & Hsh & Hoff & Hany & Hoth).
    assert (Hc : is_Some (vcpu_opt s d c))
      by (apply Hrange; rewrite Hl; apply elem_of_app; right; by left).
    apply wp_offline_step; [done| |].
    { apply not_eq_None_Some. apply not_eq_None_Some in Hc. by rewrite (same_shape_vcpu _ _ _ _ Hsh). }
    intros s2 HI2 Hsh2 Hl2. rewrite (same_shape_full _ _ Hsh) in Hl2. fold off in Hl2.
    assert (Hnew : vcpu_opt s2 d c = off <$> vcpu_opt s d c).
    { rewrite Hl2, decide_True by done. destruct (Hany c) as [-> | ->]; [done|].
      rewrite <- option_fmap_compose. apply option_fmap_ext. intros v. apply offlined_idem. }
    split_and!; [done|by eapply sched_same_shape_trans| | |].
    + intros c' [Hc'| ->]%elem_of_snoc; [|done]. destruct (decide (c' = c)) as [->|Hne]; [done|].
      rewrite Hl2, decide_False by naive_solver. by apply Hoff.
    + intros c'. destruct (decide (c' = c)) as [->|Hne]; [by right|].
      rewrite Hl2, decide_False by naive_solver. apply Hany.
    + intros d' c' Hd. rewrite Hl2, decide_False by naive_solver. by apply Hoth.
  - intros s' (HI' & Hsh & Hoff & _ & Hoth). split_and!; [done..| |done]. intros c.
    destruct (vcpu_opt s d c) as [v|] eqn:Hv.
    + rewrite (Hoff c), Hv; [done|]. by apply Hrange; rewrite Hv.
    + simpl. by apply (same_shape_vcpu _ _ d c Hsh).
Qed.

Lemma offlined_state now full v : state (offlined now full v) = Offline.
Proof. unfold offlined. by case_decide. Qed.

(** ** Properties *)

(** The runtime check of the scheduler decides the invariant: it reports no violation
    exactly when the running vCPUs and the occupied physical CPUs name each other and
    every running vCPU is where its affinity permits. *)
Theorem sched_check_decides (s : System) :
  vlen (domains s) <= u16_max -> (forall d, twidth (domains s) d <= u32_max) ->
  vlen (pcpus s) <= u32_max -> (invariants_hold s = true <-> Inv s).
Proof.
  intros H1 H2 H3. rewrite <- (sched_first_violation_None s H1 H2 H3). unfold invariants_hold.
  apply bool_decide_eq_true.
Qed.

Theorem sched_check_decides_witness : invariants_hold (new 2 3 1) = true <-> Inv (new 2 3 1).
Proof.
  refine (sched_check_decides (new 2 3 1) _ _ _).
  - vm_compute. discriminate.
  - intros d. refine (N.le_trans _ 3 _ (twidth_vrepeat 2 3 _ d) _). vm_compute. discriminate.
  - vm_compute. discriminate.
Defined.

(** When [run] places a vCPU. *)
Definition placeable (s : System) (d : DomId) (c : Vcpu) (p : Pcpu) : Prop :=
  state_of s d c = Some Runnable /\ p < pcpu_count s /\ occupant s p = None /\
  affinity_permits s d c p = true.

Lemma run_rejects d c p now s s' e :
  run d c p now s = Done s' (Err e) -> ~ placeable s d c p.
Proof.
  unfold placeable. intros E (Hst & Hp & Ho & Ha).
  apply state_of_Some in Hst as (v & Hv & Hst).
  apply vcpu_Ok in Hv. revert E. unfold run, tbind, bind, get, lift, ret, ensure, ok, err, index.
  simpl. rewrite (decide_True _ _ Hp), Hv. simpl. rewrite decide_True by done.
  rewrite (decide_True _ _ Ha). destruct (vget_lt_Some (pcpus s) p Hp) as [o Hpo]. rewrite Hpo.
  unfold occupant in Ho. rewrite Hpo in Ho. subst o. simpl.
  destruct (set_pcpu _ _ _) as [s1 []|]; [|done].
  destruct (check_invariants s1) as [s2 []|]; done.
Qed.

(** Two vCPUs never share a physical CPU, and none runs where it may not: [run] never
    panics and places the vCPU exactly when it is runnable, the physical CPU exists and is
    free, and the affinity permits it; then that vCPU, and it alone, occupies it. *)
Theorem run_exclusive (s : System) (d : DomId) (c : Vcpu) (p : Pcpu) (now : Ticks) :
  Inv s -> exists s' r, run d c p now s = Done s' r /\ (r = Ok tt <-> placeable s d c p) /\
    Inv s' /\
    (r = Ok tt -> occupant s' p = Some (d, c) /\ state_of s' d c = Some (Running p) /\
       forall d' c', state_of s' d' c' = Some (Running p) -> d' = d /\ c' = c).
Proof.
  intros HI. destruct (wp_Done _ _ _ (wp_run d c p now s HI)) as (s' & [[]|e] & E & H).
  - destruct H as (v & Hv & Hs & Hp & Ho & Ha & Hst). pose proof Hst as (HI' & _ & _).
    exists s', (Ok tt). split; [done|].
    assert (Hstate : state_of s' d c = Some (Running p))
      by (rewrite (sched_step_at_state_of _ _ _ _ _ d c Hst), decide_True; done).
    assert (Hocc : forall d' c', state_of s' d' c' = Some (Running p) -> occupant s' p = Some (d', c')).
    { intros d' c' (x & Hx & Hxs)%state_of_Some. unfold occupant.
      by rewrite (proj1 (inv_running _ HI' _ _ _ _ Hx Hxs)). }
    split_and!; [split; [|done]; intros _|done|intros _].
    + split_and!; [unfold state_of; by rewrite Hv, <- Hs|done|done|].
      unfold affinity_permits. rewrite vcpu_opt_tget in Hv. by rewrite (proj2 (vcpu_Ok _ _ _ _) Hv).
    + split_and!; [by apply Hocc|done|]. intros d' c' H. pose proof (Hocc _ _ H) as H1.
      rewrite (Hocc _ _ Hstate) in H1. by injection H1.
  - subst s'. exists s, (Err e). split_and!; [done| |done|done].
    split; [done|]. intros Hpl. by apply run_rejects in E.
Qed.

(** A small machine: one vCPU is runnable. *)
Definition demo : System :=
  match admit_vcpu 0 0 (new 2 2 1) with Done s _ => s | Panic => new 2 2 1 end.

Lemma sched_demo_Inv : Inv demo.
Proof.
  assert (HI : Inv (new 2 2 1)) by (apply sched_new_Inv; vm_compute; discriminate).
  destruct (wp_Done _ _ _ (wp_admit_vcpu 0 0 _ HI)) as (s' & [[]|e] & E & H);
    unfold demo; rewrite E.
  - destruct H as (_ & _ & _ & [H _]). exact H.
  - by rewrite H.
Qed.

Theorem run_exclusive_witness : exists s' r, run 0 0 0 5 demo = Done s' r /\ r = Ok tt.
Proof.
  refine (match run_exclusive demo 0 0 0 5 sched_demo_Inv with
    | ex_intro _ s' (ex_intro _ r (conj E (conj H _))) =>
        ex_intro _ s' (ex_intro _ r (conj E (proj2 H _)))
    end).
  vm_compute. repeat split.
Defined.

(** CPU time is accounted to the tick: a vCPU that was running since [t] and is
    preempted, blocked or taken offline at [now] has [now - t] more ticks of run time (none
    if the clock stepped back), saturating at the width of the counter, and is running
    nowhere; every other vCPU's record is untouched. *)
Theorem runtime_accounted (s : System) (d : DomId) (c : Vcpu) (p : Pcpu) (t old now : Ticks) :
  Inv s -> state_of s d c = Some (Running p) -> on_cpu_since s d c = Some t ->
  runtime s d c = Some old ->
  forall op, op = preempt d c now \/ op = block d c now \/ op = offline d c now ->
  exists s', op s = Done s' (Ok tt) /\ Inv s' /\
    runtime s' d c = Some (N.min u64_max (old + (now - t))) /\ on_cpu_since s' d c = None /\
    forall d' c', ~ (d' = d /\ c' = c) -> vcpu_opt s' d' c' = vcpu_opt s d' c'.
Proof.
  intros HI Hst Hon Hrt op Hop.
  assert (H : wp op (fun s' r => r = Ok tt /\ exists v v', vcpu_opt s d c = Some v /\
      (forall q, state v' <> Running q) /\ v_runtime v' = v_runtime (leave now v) /\
      step_at d c v' s s') s).
  { destruct Hop as [->|[->| ->] ].
    - wp_apply wp_preempt; [done|]. intros s' [[]|e].
      + intros (v & q & Hv & _ & Hstep). split; [done|]. by exists v, (set_state Runnable (leave now v)).
      + intros [_ Hn]. by destruct (Hn p).
    - wp_apply wp_block; [done|]. intros s' [[]|e].
      + intros (v & Hv & _ & Hstep). split; [done|]. by exists v, (set_state Blocked (leave now v)).
      + intros (_ & Hn & _). by destruct (Hn p).
    - wp_apply wp_offline; [done|]. intros s' [[]|e].
      + intros (v & Hv & _ & Hstep). split; [done|]. eexists v, _. split_and!; [done| | |exact Hstep]; done.
      + intros [_ [?|?] ]; congruence. }
  destruct (wp_Done _ _ _ H) as (s' & r & E & -> & v & v' & Hv & Hn & Hr & HI' & _ & Hl).
  exists s'. split_and!; [done|done| | |].
  - unfold runtime. rewrite Hl, decide_True by done. simpl. rewrite Hr.
    unfold runtime, on_cpu_since, state_of in *. rewrite Hv in *. simpl in *.
    injection Hst as Hst. rewrite Hst in Hon. injection Hon as <-. injection Hrt as <-.
    unfold leave. by rewrite Hst.
  - unfold on_cpu_since. rewrite Hl, decide_True by done. simpl.
    destruct (state v') as [| |q|] eqn:Hs; try done. by destruct (Hn q).
  - intros d' c' Hne. by rewrite Hl, decide_False.
Qed.

Theorem runtime_accounted_witness :
  exists s', preempt 0 0 9 (match run 0 0 0 5 demo with Done s _ => s | Panic => demo end)
      = Done s' (Ok tt) /\ runtime s' 0 0 = Some 4.
Proof.
  assert (HI : Inv (match run 0 0 0 5 demo with Done s _ => s | Panic => demo end)).
  { destruct (wp_Done _ _ _ (wp_run 0 0 0 5 demo sched_demo_Inv)) as (s' & [[]|e] & E & H); rewrite E.
    - destruct H as (_ & _ & _ & _ & _ & _ & [H _]). exact H.
    - rewrite H. exact sched_demo_Inv. }
  refine (match runtime_accounted _ 0 0 0 5 0 9 HI _ _ _ (preempt 0 0 9) (or_introl eq_refl) with
    | ex_intro _ s' (conj E (conj _ (conj R _))) => ex_intro _ s' (conj E R)
    end); vm_compute; reflexivity.
Defined.

(** A vCPU that goes offline from a live state comes back as it was at boot: offline,
    with every physical CPU permitted. A vCPU that is already offline keeps whatever mask
    [set_affinity] last stored, through [offline_all] too: a narrowed mask, even the empty
    one, survives the recycling of its domain. *)
Theorem offline_affinity (s : System) (d : DomId) (c : Vcpu) (now : Ticks) :
  Inv s ->
  (forall st, state_of s d c = Some st -> st <> Offline ->
     exists s', offline d c now s = Done s' (Ok tt) /\ state_of s' d c = Some Offline /\
       affinity_of s' d c = Some (full_affinity s)) /\
  (forall aff, state_of s d c = Some Offline ->
     exists s' s'', set_affinity d c aff s = Done s' (Ok tt) /\
       offline_all d now s' = Done s'' tt /\
       affinity_of s'' d c = Some (N.land aff (full_affinity s))).
Proof.
  intros HI. split.
  - intros st Hst Hne. destruct (wp_Done _ _ _ (wp_offline d c now s HI)) as (s' & [[]|e] & E & H).
    + destruct H as (v & Hv & Hs & Hstep). pose proof Hstep as (_ & _ & Hl).
      exists s'. split_and!; [done| |].
      * by rewrite (sched_step_at_state_of _ _ _ _ _ d c Hstep), decide_True.
      * unfold affinity_of. by rewrite Hl, decide_True.
    + destruct H as [_ [H|H] ]; congruence.
  - intros aff Hst. destruct (wp_Done _ _ _ (wp_set_affinity d c aff s HI)) as (s' & [[]|e] & E & H).
    2: { exfalso. destruct H as [_ [H|[p H] ] ]; [|congruence]. unfold state_of in Hst.
      by rewrite H in Hst. }
    destruct H as (v & Hv & HI' & Hsh & Hl).
    destruct (wp_Done _ _ _ (wp_offline_all d now s' HI')) as (s'' & [] & E2 & _ & _ & Hoff & _).
    exists s', s''. split_and!; [done|done|]. unfold affinity_of.
    rewrite Hoff, Hl, decide_True by done. simpl. unfold state_of in Hst. rewrite Hv in Hst.
    injection Hst as Hst. unfold offlined. simpl. by rewrite decide_True.
Qed.

Theorem offline_affinity_witness :
  exists s' s'', set_affinity 1 0 0 demo = Done s' (Ok tt) /\
    offline_all 1 7 s' = Done s'' tt /\ affinity_of s'' 1 0 = Some 0.
Proof.
  refine (proj2 (offline_affinity demo 1 0 7 sched_demo_Inv) 0 _). vm_compute. reflexivity.
Defined.
