(* ===== verification/Policy.v ===== *)
(** * The scheduling policy — [hv-core/src/policy.rs]

    The layer that chooses which runnable vCPU gets which physical CPU: weighted
    proportional shares, a quantum, wake-boost, and the driver [advance] that enacts its
    decisions through the transitions of [Sched]. *)

From Stdlib Require Import NArith Lia.
From stdpp Require Import base numbers list option.
From S2P Require Import Sched.
From S2P Require Import Prelude.
#[local] Open Scope N_scope.

(** ** Data *)

Definition u128_max : N := 340282366920938463463374607431768211455.

(** A [Weight] is a [u32]. *)
Abbreviation Weight := N (only parsing).
Definition MIN_WEIGHT : Weight := 1.

Inductive Decision : Type :=
| Run (dom : DomId) (vcpu : Vcpu) (pcpu : Pcpu)
| Preempt (dom : DomId) (vcpu : Vcpu) (pcpu : Pcpu)
| Idle.

(** The source's field [was_schedulable] is [snapshot] here: a method has its name. *)
Record Scheduler : Type := mkScheduler {
  weights : list (list Weight);
  quantum : Ticks;
  offset : list (list N);
  snapshot : list (list bool);
  wake_boost : bool;
}.

Record Share : Type := mkShare {
  service : N;
  weight : N;
}.

(** [saturating_mul] at [u128], and an integer division, which panics on a zero divisor. *)
Definition saturating_mul (a b : N) : N := N.min u128_max (a * b).
Definition udiv {S} (a b : N) : M S N := if decide (b = 0) then panic else ret (a / b).

Definition more_deserving (a b : Share) : bool :=
  saturating_mul (service a) (weight b) <? saturating_mul (service b) (weight a).

(** ** Configuration *)

Definition new (num_domains vcpus_per_domain : N) (q : Ticks) : Scheduler :=
  mkScheduler (vrepeat num_domains (vrepeat vcpus_per_domain MIN_WEIGHT)) q
    (vrepeat num_domains (vrepeat vcpus_per_domain 0))
    (vrepeat num_domains (vrepeat vcpus_per_domain false)) true.

Definition set_wake_boost (enabled : bool) (p : Scheduler) : Scheduler :=
  mkScheduler (weights p) (quantum p) (map (map (fun _ => 0)) (offset p)) (snapshot p) enabled.

Definition set_weight (dom : DomId) (c : Vcpu) (w : Weight) (p : Scheduler) : Scheduler :=
  mkScheduler (tset (weights p) dom c (N.max w MIN_WEIGHT)) (quantum p) (offset p)
    (snapshot p) (wake_boost p).

Definition weight_of (p : Scheduler) (dom : DomId) (c : Vcpu) : Weight :=
  N.max (default MIN_WEIGHT (tget (weights p) dom c)) MIN_WEIGHT.

Definition offset_of (p : Scheduler) (dom : DomId) (c : Vcpu) : N :=
  default 0 (tget (offset p) dom c).

Definition set_offset (dom : DomId) (c : Vcpu) (value : N) (p : Scheduler) : Scheduler :=
  mkScheduler (weights p) (quantum p) (tset (offset p) dom c value) (snapshot p) (wake_boost p).

Definition was_schedulable (p : Scheduler) (dom : DomId) (c : Vcpu) : bool :=
  default false (tget (snapshot p) dom c).

Definition set_was_schedulable (dom : DomId) (c : Vcpu) (value : bool) (p : Scheduler) :
  Scheduler :=
  mkScheduler (weights p) (quantum p) (offset p) (tset (snapshot p) dom c value) (wake_boost p).

(** ** Ranking *)

Definition schedulable (sys : System) (dom : DomId) (c : Vcpu) : bool :=
  match state_of sys dom c with Some Runnable | Some (Running _) => true | _ => false end.

(** [for dom in 0..domain_count { for vcpu in 0..vcpu_count(dom) { .. } }], the loop of
    every scan of the policy, threading a local variable. *)
Definition for_vcpus {S T} (sys : System) (f : T -> DomId -> Vcpu -> M S T) (acc : T) : M S T :=
  fold_m (vrange (as_u16 (domain_count sys))) (fun acc dom =>
    fold_m (vrange (as_u32 (vcpu_count sys dom))) (fun acc c => f acc dom c) acc) acc.

(** The additions are unchecked [u128] additions. *)
Definition share {S} (p : Scheduler) (sys : System) (dom : DomId) (c : Vcpu) (now : Ticks) :
  M S Share :=
  let closed := default 0 (runtime sys dom c) in
  let in_flight := match on_cpu_since sys dom c with
                   | Some since => now - since
                   | None => 0
                   end in
  let! a := uadd u128_max closed in_flight in
  let! b := uadd u128_max a (offset_of p dom c) in
  ret (mkShare b (weight_of p dom c)).

Definition first_idle_pcpu_for (sys : System) (dom : DomId) (c : Vcpu) : option Pcpu :=
  first_some (fun q =>
      if bool_decide (occupant sys q = None) && affinity_permits sys dom c q
      then Some q else None)
    (vrange (as_u32 (pcpu_count sys))).

Definition best_placement {S} (p : Scheduler) (sys : System) (now : Ticks) :
  M S (option (DomId * Vcpu * Pcpu)) :=
  let! best := for_vcpus sys (fun best dom c =>
    if decide (state_of sys dom c <> Some Runnable) then ret best else
    match first_idle_pcpu_for sys dom c with
    | None => ret best
    | Some q =>
        let! sh := share p sys dom c now in
        ret (if match best with Some (_, b) => more_deserving sh b | None => true end
             then Some ((dom, c, q), sh) else best)
    end) None in
  ret (fst <$> best).

Definition some_affine_waiter_beats {S} (p : Scheduler) (sys : System) (q : Pcpu)
    (runner : Share) (now : Ticks) : M S bool :=
  let! found := first_some_m (vrange (as_u16 (domain_count sys))) (fun dom =>
    first_some_m (vrange (as_u32 (vcpu_count sys dom))) (fun c =>
      if negb (bool_decide (state_of sys dom c = Some Runnable))
         || negb (affinity_permits sys dom c q) then ret None else
      let! sh := share p sys dom c now in
      ret (if more_deserving sh runner then Some tt else None))) in
  ret (match found with Some _ => true | None => false end).

Definition best_preemption {S} (p : Scheduler) (sys : System) (now : Ticks) :
  M S (option (DomId * Vcpu * Pcpu)) :=
  let! worst := for_vcpus sys (fun worst dom c =>
    match state_of sys dom c with
    | Some (Running q) =>
        let since := default now (on_cpu_since sys dom c) in
        if decide (now - since < quantum p) then ret worst else
        let! sh := share p sys dom c now in
        let! beaten := some_affine_waiter_beats p sys q sh now in
        ret (if beaten : bool then
               if match worst with Some (_, b) => more_deserving b sh | None => true end
               then Some ((dom, c, q), sh) else worst
             else worst)
    | _ => ret worst
    end) None in
  ret (fst <$> worst).

Definition next {S} (p : Scheduler) (sys : System) (now : Ticks) : M S Decision :=
  let! placement := best_placement p sys now in
  match placement with
  | Some (dom, c, q) => ret (Run dom c q)
  | None =>
      let! preemption := best_preemption p sys now in
      ret (match preemption with
           | Some (dom, c, q) => Preempt dom c q
           | None => Idle
           end)
  end.

(** ** Wake accounting *)

(** The least share of the vCPUs schedulable now and at the last snapshot. *)
Definition pool_floor {S} (p : Scheduler) (sys : System) (now : Ticks) : M S (option Share) :=
  for_vcpus sys (fun floor dom c =>
    if schedulable sys dom c && was_schedulable p dom c then
      let! sh := share p sys dom c now in
      ret (if match floor with Some f => more_deserving sh f | None => true end
           then Some sh else floor)
    else ret floor) None.

Definition account (sys : System) (now : Ticks) : M Scheduler unit :=
  let! p := get in
  let! floor := pool_floor p sys now in
  for_vcpus sys (fun _ dom c =>
    let! p := get in
    let now_sched := schedulable sys dom c in
    let woke := now_sched && negb (was_schedulable p dom c) in
    (if woke && wake_boost p then
       match floor with
       | Some f =>
           let! target := udiv (saturating_mul (service f) (weight_of p dom c)) (weight f) in
           let raw := default 0 (runtime sys dom c) in
           modify (set_offset dom c (target - raw))
       | None => ret tt
       end
     else ret tt) ;!
    modify (set_was_schedulable dom c now_sched)) tt.

(** ** The driver *)

(** The policy and the mechanism it drives. *)
Abbreviation Machine := (Scheduler * System)%type (only parsing).
Definition policy_l : lens Machine Scheduler := Lens fst (fun p st => (p, snd st)).
Definition mech_l : lens Machine System := Lens snd (fun s st => (fst st, s)).

(** The loop of [advance]: [fuel] rounds are left. *)
Fixpoint advance_loop (fuel : nat) (now : Ticks) (enacted : N) : M Machine N :=
  match fuel with
  | O => ret enacted
  | S fuel =>
      let! st := get in
      let! decision := next (fst st) (snd st) now in
      match decision with
      | Run dom c q =>
          let! r := zoom mech_l (Sched.run dom c q now) in
          if is_ok r then
            let! enacted := uadd u32_max enacted 1 in advance_loop fuel now enacted
          else ret enacted
      | Preempt dom c _ =>
          let! r := zoom mech_l (Sched.preempt dom c now) in
          if is_ok r then
            let! enacted := uadd u32_max enacted 1 in advance_loop fuel now enacted
          else ret enacted
      | Idle => ret enacted
      end
  end.

(** [usize] is 64 bits wide; the cap is the sum truncated to 32. *)
Definition advance_limit {S} (sys : System) : M S N :=
  let! total_vcpus := fold_m (vrange (as_u16 (domain_count sys)))
    (fun acc d => uadd u64_max acc (vcpu_count sys d)) 0 in
  let! pcpus2 := uadd u64_max (pcpu_count sys) (pcpu_count sys) in
  let! a := uadd u64_max total_vcpus pcpus2 in
  let! b := uadd u64_max a 1 in
  ret (as_u32 b).

Definition advance (now : Ticks) : M Machine N :=
  let! st := get in
  zoom policy_l (account (snd st) now) ;!
  let! limit := advance_limit (snd st) in
  advance_loop (N.to_nat limit) now 0.

(** ** Specification *)

(** The share of a vCPU, without the width of the additions. *)
Definition in_flight (sys : System) (d : DomId) (c : Vcpu) (now : Ticks) : N :=
  match on_cpu_since sys d c with Some since => now - since | None => 0 end.
Definition raw_runtime (sys : System) (d : DomId) (c : Vcpu) : N := default 0 (runtime sys d c).
Definition share_of (p : Scheduler) (sys : System) (d : DomId) (c : Vcpu) (now : Ticks) : Share :=
  mkShare (raw_runtime sys d c + in_flight sys d c now + offset_of p d c) (weight_of p d c).

(** Exact comparison of two shares as rationals. *)
Definition share_lt (a b : Share) : Prop := service a * weight b < service b * weight a.

(** Room in the counters: weights are [u32]s, every vCPU has received at most [r] ticks of
    service per unit of weight, none of them more than [e] in its open interval, and the
    cross products of two shares fit 128 bits. *)
Record budget (r e : N) (p : Scheduler) (sys : System) (now : Ticks) : Prop := mkBudget {
  bd_weight : forall d c, weight_of p d c <= u32_max;
  bd_service : forall d c,
    raw_runtime sys d c + in_flight sys d c now + offset_of p d c <= r * weight_of p d c;
  bd_flight : forall d c, in_flight sys d c now <= e;
  bd_room : r <= 2 ^ 64;
}.

(** A running vCPU may be evicted from [q]: its quantum has expired and a runnable vCPU that
    may use [q] has a smaller share. *)
Definition evictable (p : Scheduler) (sys : System) (now : Ticks) (d : DomId) (c : Vcpu)
    (q : Pcpu) : Prop :=
  state_of sys d c = Some (Running q) /\ quantum p <= in_flight sys d c now /\
  exists d' c', state_of sys d' c' = Some Runnable /\ affinity_permits sys d' c' q = true /\
    share_lt (share_of p sys d' c' now) (share_of p sys d c now).

Definition decision_ok (p : Scheduler) (sys : System) (now : Ticks) (dec : Decision) : Prop :=
  match dec with
  | Run d c q =>
      placeable sys d c q /\
      (forall q', placeable sys d c q' -> q <= q') /\
      forall d' c' q', placeable sys d' c' q' ->
        ~ share_lt (share_of p sys d' c' now) (share_of p sys d c now)
  | Preempt d c q =>
      (forall d' c' q', ~ placeable sys d' c' q') /\
      evictable p sys now d c q /\
      forall d' c' q', evictable p sys now d' c' q' ->
        ~ share_lt (share_of p sys d c now) (share_of p sys d' c' now)
  | Idle =>
      (forall d c q, ~ placeable sys d c q) /\ (forall d c q, ~ evictable p sys now d c q)
  end.

(** ** Lemmas *)

(** *** Loops *)

Lemma fold_m_app {S X T} (f : T -> X -> M S T) l1 l2 acc s :
  fold_m (l1 ++ l2) f acc s = bind (fold_m l1 f acc) (fold_m l2 f) s.
Proof.
  revert acc s. induction l1 as [|x l1 IH]; intros acc s; simpl; [done|]. unfold bind.
  destruct (f acc x s) as [s' y|]; [|done]. by rewrite IH.
Qed.

Lemma fold_m_pure {S X T} (f : T -> X -> M S T) (g : T -> X -> T) l acc s :
  (forall acc x, x ∈ l -> f acc x s = Done s (g acc x)) ->
  fold_m l f acc s = Done s (foldl g acc l).
Proof.
  revert acc. induction l as [|x l IH]; intros acc H; simpl; [done|]. unfold bind.
  rewrite H by (by left). apply IH. intros. apply H. by right.
Qed.

Lemma first_some_m_pure {S X V} (f : X -> M S (option V)) (g : X -> option V) l s :
  (forall x, x ∈ l -> f x s = Done s (g x)) -> first_some_m l f s = Done s (first_some g l).
Proof.
  induction l as [|x l IH]; intros H; simpl; [done|]. unfold bind. rewrite H by (by left).
  destruct (g x); [done|]. apply IH. intros. apply H. by right.
Qed.

(** The cells a scan visits. *)
Definition cells (sys : System) : list (DomId * Vcpu) :=
  d ← vrange (as_u16 (domain_count sys));
  (fun c => (d, c)) <$> vrange (as_u32 (vcpu_count sys d)).

Lemma for_vcpus_cells {S T} sys (f : T -> DomId -> Vcpu -> M S T) acc s :
  for_vcpus sys f acc s = fold_m (cells sys) (fun acc x => f acc x.1 x.2) acc s.
Proof.
  unfold for_vcpus, cells. generalize (vrange (as_u16 (domain_count sys))). intros l.
  revert acc s. induction l as [|d l IH]; intros acc s; simpl; [done|].
  rewrite fold_m_app. unfold bind.
  assert (Hrow : forall r acc s, fold_m ((fun c => (d, c)) <$> r) (fun acc x => f acc x.1 x.2) acc s
      = fold_m r (fun acc c => f acc d c) acc s).
  { induction r as [|c r IHr]; intros acc' s'; simpl; [done|]. unfold bind.
    destruct (f acc' d c s'); [apply IHr|done]. }
  rewrite Hrow. destruct (fold_m _ _ acc s) as [s' y|]; [apply IH|done].
Qed.

Lemma elem_cells sys d c : Inv sys -> (d, c) ∈ cells sys <-> is_Some (vcpu_opt sys d c).
Proof.
  intros HI. unfold cells. rewrite list_elem_of_bind, vcpu_opt_tget. split.
  - intros (d' & (c' & [= -> ->] & Hc)%list_elem_of_fmap & _).
    apply elem_vrange in Hc. rewrite vcpu_count_twidth, as_u32_id in Hc by apply HI.
    by apply tget_lt_Some in Hc as [v ->].
  - intros [v Hv]. pose proof (tget_Some_lt _ _ _ _ Hv) as [Hd Hc]. exists d. split.
    + apply list_elem_of_fmap. exists c. split; [done|]. apply elem_vrange.
      rewrite vcpu_count_twidth, as_u32_id; [done|apply HI].
    + apply elem_vrange. unfold domain_count. rewrite as_u16_id; [done|apply HI].
Qed.

Lemma NoDup_cells sys : NoDup (cells sys).
Proof.
  unfold cells. pose proof (NoDup_vrange (as_u16 (domain_count sys))) as Hnd. revert Hnd.
  generalize (vrange (as_u16 (domain_count sys))). induction l as [|d l IH]; simpl.
  - intros _. constructor.
  - intros [Hd Hnd]%list.NoDup_cons. apply list.NoDup_app. split_and!.
    + apply NoDup_fmap_2; [intros ? ? [=]; done|apply NoDup_vrange].
    + intros x (c & -> & _)%list_elem_of_fmap (d' & (c' & [= -> ->] & _)%list_elem_of_fmap & Hl)%list_elem_of_bind.
      done.
    + by apply IH.
Qed.

(** *** Choosing the best candidate *)

Section Scan.
Context {X I : Type} (cand : X -> option (I * Share)) (better : Share -> Share -> bool).

Definition scan_step (best : option (I * Share)) (x : X) : option (I * Share) :=
  match cand x with
  | Some (i, sh) =>
      if match best with Some (_, b) => better sh b | None => true end then Some (i, sh) else best
  | None => best
  end.

Definition best_of (l : list X) (best : option (I * Share)) : Prop :=
  match best with
  | None => forall x, x ∈ l -> cand x = None
  | Some (i, sh) => (exists x, x ∈ l /\ cand x = Some (i, sh)) /\
      forall y j sh', y ∈ l -> cand y = Some (j, sh') -> better sh' sh = false
  end.

Lemma scan_best (P : Share -> Prop) l :
  (forall a, P a -> better a a = false) ->
  (forall a b c, P a -> P b -> P c -> better a b = true -> better b c = true -> better a c = true) ->
  (forall x i sh, cand x = Some (i, sh) -> P sh) ->
  best_of l (foldl scan_step None l).
Proof.
  intros Hirr Htr HP. induction l as [|x l IH] using rev_ind; simpl.
  { intros x Hx. by apply elem_of_nil in Hx. }
  rewrite foldl_app. simpl. unfold scan_step at 1.
  destruct (cand x) as [ [i sh]|] eqn:Hx; destruct (foldl _ _ l) as [ [j b]|]; simpl in *.
  - destruct IH as [(y & Hy & Hc) Hmin]. destruct (better sh b) eqn:Hb; simpl; split.
    + exists x. rewrite elem_of_snoc. by split; [right|].
    + intros z k sh' [Hz| ->]%elem_of_snoc Hz'; [|rewrite Hx in Hz'; simplify_eq; by eauto].
      apply not_true_iff_false. intros Hlt. pose proof (Hmin _ _ _ Hz Hz') as Hn.
      rewrite (Htr sh' sh b) in Hn; [done|by eauto..|done|done].
    + exists y. rewrite elem_of_snoc. by split; [left|].
    + intros z k sh' [Hz| ->]%elem_of_snoc Hz'; [by eapply Hmin|congruence].
  - split; [exists x; rewrite elem_of_snoc; by split; [right|]|].
    intros z k sh' [Hz| ->]%elem_of_snoc Hz'; [by rewrite IH in Hz'|].
    rewrite Hx in Hz'. simplify_eq. by eauto.
  - destruct IH as [(y & Hy & Hc) Hmin]. split.
    + exists y. rewrite elem_of_snoc. by split; [left|].
    + intros z k sh' [Hz| ->]%elem_of_snoc Hz'; [by eapply Hmin|congruence].
  - intros z [Hz| ->]%elem_of_snoc; [by apply IH|done].
Qed.
End Scan.

(** *** Shares *)

Definition sane (r : N) (a : Share) : Prop :=
  0 < weight a /\ weight a <= u32_max /\ service a <= r * weight a.

Lemma weight_of_pos p d c : 0 < weight_of p d c.
Proof. unfold weight_of, MIN_WEIGHT. lia. Qed.

Lemma product_fits r a b :
  r <= 2 ^ 64 -> sane r a -> sane r b -> service a * weight b <= u128_max.
Proof.
  intros Hr (_ & Ha & Hs) (_ & Hb & _).
  transitivity (2 ^ 64 * u32_max * u32_max); [|vm_compute; discriminate].
  apply N.mul_le_mono; [|done]. etransitivity; [exact Hs|]. by apply N.mul_le_mono.
Qed.

Lemma more_deserving_exact r a b :
  r <= 2 ^ 64 -> sane r a -> sane r b -> more_deserving a b = true <-> share_lt a b.
Proof.
  intros Hr Ha Hb. unfold more_deserving, share_lt, saturating_mul.
  rewrite !N.min_r by (by eapply product_fits). apply N.ltb_lt.
Qed.

Lemma more_deserving_false r a b :
  r <= 2 ^ 64 -> sane r a -> sane r b -> more_deserving a b = false <-> ~ share_lt a b.
Proof.
  intros Hr Ha Hb. rewrite <- (more_deserving_exact r a b Hr Ha Hb).
  by rewrite not_true_iff_false.
Qed.

Lemma share_lt_irrefl a : ~ share_lt a a.
Proof. unfold share_lt. lia. Qed.

Lemma share_lt_trans a b c :
  0 < weight a -> 0 < weight b -> 0 < weight c ->
  share_lt a b -> share_lt b c -> share_lt a c.
Proof.
  unfold share_lt. intros Ha Hb Hc H1 H2. apply (N.mul_lt_mono_pos_r (weight b)); [done|].
  apply N.lt_le_trans with (service b * weight a * weight c).
  - replace (service a * weight c * weight b) with (service a * weight b * weight c) by lia.
    by apply N.mul_lt_mono_pos_r.
  - replace (service b * weight a * weight c) with (service b * weight c * weight a) by lia.
    replace (service c * weight a * weight b) with (service c * weight b * weight a) by lia.
    apply N.mul_le_mono_r. lia.
Qed.

Section Ranked.
Context (r e : N) (p : Scheduler) (sys : System) (now : Ticks).
Context (HB : budget r e p sys now) (HI : Inv sys).

Lemma share_of_sane d c : sane r (share_of p sys d c now).
Proof. split_and!; [apply weight_of_pos|apply HB|apply HB]. Qed.

Lemma share_Done {S} d c (s : S) : share p sys d c now s = Done s (share_of p sys d c now).
Proof.
  assert (H : raw_runtime sys d c + in_flight sys d c now + offset_of p d c <= u128_max).
  { etransitivity; [apply HB|]. transitivity (2 ^ 64 * u32_max); [|vm_compute; discriminate].
    apply N.mul_le_mono; apply HB. }
  unfold share. fold (raw_runtime sys d c). fold (in_flight sys d c now).
  unfold bind, uadd. rewrite decide_True by lia. cbn. rewrite decide_True by lia. done.
Qed.

Lemma deserving_iff d c d' c' :
  more_deserving (share_of p sys d c now) (share_of p sys d' c' now) = true <->
  share_lt (share_of p sys d c now) (share_of p sys d' c' now).
Proof. eapply more_deserving_exact; [apply HB|apply share_of_sane..]. Qed.

Lemma state_cell d c st : state_of sys d c = Some st -> (d, c) ∈ cells sys.
Proof.
  intros H. apply elem_cells; [done|]. unfold state_of in H. by destruct (vcpu_opt sys d c).
Qed.

Lemma first_idle_Some d c q :
  state_of sys d c = Some Runnable -> first_idle_pcpu_for sys d c = Some q ->
  placeable sys d c q /\ forall q', placeable sys d c q' -> q <= q'.
Proof.
  unfold first_idle_pcpu_for, placeable. intros Hst.
  rewrite as_u32_id by apply HI.
  assert (Hgen : forall n k, first_some (fun q =>
      if bool_decide (occupant sys q = None) && affinity_permits sys d c q then Some q else None)
      (N.of_nat <$> seq k n) = Some q ->
    (q < N.of_nat (k + n) /\ occupant sys q = None /\ affinity_permits sys d c q = true) /\
    forall q', N.of_nat k <= q' -> occupant sys q' = None -> affinity_permits sys d c q' = true ->
      q <= q').
  { induction n as [|n IH]; intros k; simpl; [done|].
    destruct (bool_decide _ && affinity_permits _ _ _ _) eqn:E.
    - intros [= <-]. bool_prop. split; [split_and!; [lia|done..]|]. intros; lia.
    - intros [Hq Hmin]%IH. split; [split_and!; [lia|tauto..]|]. intros q' Hk Ho Ha.
      destruct (decide (q' = N.of_nat k)) as [->|]; [|apply Hmin; [lia|done..] ].
      by rewrite bool_decide_true, Ha in E. }
  unfold vrange. intros [(Hq & Ho & Ha) Hmin]%Hgen.
  split; [split_and!; [done|lia|done|done]|]. intros q' (_ & _ & Ho' & Ha').
  apply Hmin; [lia|done..].
Qed.

Lemma first_idle_None d c q :
  first_idle_pcpu_for sys d c = None -> ~ placeable sys d c q.
Proof.
  unfold first_idle_pcpu_for. rewrite first_some_None. intros H (_ & Hq & Ho & Ha).
  specialize (H q). rewrite elem_vrange, as_u32_id in H by apply HI. specialize (H Hq).
  rewrite bool_decide_true, Ha in H by done. done.
Qed.

(** The candidates of the two scans. *)
Definition place_cand (x : DomId * Vcpu) : option ((DomId * Vcpu * Pcpu) * Share) :=
  if decide (state_of sys x.1 x.2 = Some Runnable) then
    (fun q => ((x.1, x.2, q), share_of p sys x.1 x.2 now)) <$> first_idle_pcpu_for sys x.1 x.2
  else None.

Definition beaten (q : Pcpu) (runner : Share) : bool :=
  existsb (fun x => bool_decide (state_of sys x.1 x.2 = Some Runnable) &&
    affinity_permits sys x.1 x.2 q && more_deserving (share_of p sys x.1 x.2 now) runner)
  (cells sys).

Definition evict_cand (x : DomId * Vcpu) : option ((DomId * Vcpu * Pcpu) * Share) :=
  match state_of sys x.1 x.2 with
  | Some (Running q) =>
      let sh := share_of p sys x.1 x.2 now in
      if decide (in_flight sys x.1 x.2 now < quantum p) then None
      else if beaten q sh then Some ((x.1, x.2, q), sh) else None
  | _ => None
  end.

Lemma best_placement_Done {S} (s : S) :
  best_placement p sys now s =
  Done s (fst <$> foldl (scan_step place_cand more_deserving) None (cells sys)).
Proof.
  unfold best_placement, bind at 1. rewrite for_vcpus_cells.
  rewrite (fold_m_pure _ (scan_step place_cand more_deserving)); [done|].
  intros acc [d c] _. simpl. unfold scan_step, place_cand. simpl.
  destruct (decide (state_of sys d c <> Some Runnable)) as [H|H%dec_stable].
  - by rewrite decide_False.
  - rewrite decide_True by done. destruct (first_idle_pcpu_for sys d c) as [q|]; simpl; [|done].
    unfold bind. rewrite share_Done. done.
Qed.

Lemma beats_Done {S} q runner (s : S) :
  some_affine_waiter_beats p sys q runner now s = Done s (beaten q runner).
Proof.
  set (g := fun (d : DomId) (c : Vcpu) =>
    if negb (bool_decide (state_of sys d c = Some Runnable)) || negb (affinity_permits sys d c q)
    then None else if more_deserving (share_of p sys d c now) runner then Some tt else None).
  unfold some_affine_waiter_beats, bind at 1.
  rewrite (first_some_m_pure _ (fun d => first_some (g d) (vrange (as_u32 (vcpu_count sys d))))).
  2: { intros d _. apply (first_some_m_pure _ (g d)). intros c _. unfold g.
    destruct (_ || _); [done|]. unfold bind. by rewrite share_Done. }
  cbn [ret]. unfold ret. f_equal. destruct (beaten q runner) eqn:E; unfold beaten in E.
  - apply existsb_elem in E as ([d c] & Hx & Hf). simpl in Hf. bool_prop.
    destruct (first_some _ _) eqn:Hn; [done|]. rewrite first_some_None in Hn.
    apply list_elem_of_bind in Hx as (d' & (c' & [= <- <-] & Hc)%list_elem_of_fmap & Hd).
    specialize (Hn _ Hd). rewrite first_some_None in Hn. specialize (Hn _ Hc). unfold g in Hn.
    rewrite bool_decide_true in Hn by done.
    repeat match goal with H : _ = true |- _ => rewrite H in Hn; clear H end. done.
  - rewrite existsb_false in E. assert (first_some (fun d => first_some (g d)
      (vrange (as_u32 (vcpu_count sys d)))) (vrange (as_u16 (domain_count sys))) = None) as ->; [|done].
    apply first_some_None. intros d Hd. apply first_some_None. intros c Hc.
    specialize (E (d, c)). simpl in E. unfold g.
    destruct (bool_decide _); simpl in *; [|done]. destruct (affinity_permits _ _ _ _); simpl in *; [|done].
    rewrite E; [done|]. apply list_elem_of_bind. exists d. split; [|done].
    apply list_elem_of_fmap. by exists c.
Qed.

Lemma best_preemption_Done {S} (s : S) :
  best_preemption p sys now s =
  Done s (fst <$> foldl (scan_step evict_cand (fun a b => more_deserving b a)) None (cells sys)).
Proof.
  unfold best_preemption, bind at 1. rewrite for_vcpus_cells.
  rewrite (fold_m_pure _ (scan_step evict_cand (fun a b => more_deserving b a))); [done|].
  intros acc [d c] _. simpl. unfold scan_step, evict_cand. simpl.
  destruct (state_of sys d c) as [ [| |q|]|] eqn:Hst; try done.
  assert (Hf : now - default now (on_cpu_since sys d c) = in_flight sys d c now).
  { unfold in_flight. destruct (on_cpu_since sys d c); simpl; lia. }
  rewrite Hf. case_decide; [done|]. unfold bind. rewrite share_Done, beats_Done.
  unfold ret. by destruct (beaten q _).
Qed.

Lemma beaten_iff d c q :
  beaten q (share_of p sys d c now) = true <->
  exists d' c', state_of sys d' c' = Some Runnable /\ affinity_permits sys d' c' q = true /\
    share_lt (share_of p sys d' c' now) (share_of p sys d c now).
Proof.
  unfold beaten. rewrite existsb_elem. split.
  - intros ([d' c'] & _ & Hf). simpl in Hf. bool_prop. exists d', c'. split_and!; [done..|].
    by apply deserving_iff.
  - intros (d' & c' & Hst & Ha & Hlt). exists (d', c'). split; [by eapply state_cell|]. simpl.
    rewrite bool_decide_true, Ha by done. by apply deserving_iff.
Qed.

Lemma evict_cand_iff d c q : 
  (exists sh, evict_cand (d, c) = Some ((d, c, q), sh)) <-> evictable p sys now d c q.
Proof.
  unfold evict_cand, evictable. simpl. destruct (state_of sys d c) as [ [| |q'|]|] eqn:Hst;
    try (split; [intros [? ?]|intros [? ?] ]; naive_solver).
  rewrite <- beaten_iff. case_decide as Hq.
  { split; [by intros [? ?]|]. intros (_ & ? & _). lia. }
  destruct (beaten q' _) eqn:Hb.
  - split; [intros [sh [= -> _] ]; split_and!; [done|lia|done]|].
    intros ([= ->] & _ & _). by eexists.
  - split; [by intros [? ?]|]. intros ([= ->] & _ & Hb'). congruence.
Qed.

Lemma cand_sane (cand : DomId * Vcpu -> option ((DomId * Vcpu * Pcpu) * Share)) :
  cand = place_cand \/ cand = evict_cand ->
  forall x i sh, cand x = Some (i, sh) ->
    exists q, i = (x.1, x.2, q) /\ sh = share_of p sys x.1 x.2 now.
Proof.
  intros [->| ->] [d c] i sh; simpl.
  - unfold place_cand. simpl. case_decide; [|done]. intros (q & _ & [= -> ->])%fmap_Some. by exists q.
  - unfold evict_cand. simpl. destruct (state_of sys d c) as [ [| |q|]|]; try done.
    case_decide; [done|]. destruct (beaten q _); [|done]. intros [= <- <-]. by exists q.
Qed.

(** [next] does not panic, and decides as its rules say. *)
Lemma next_ok {S} : exists dec, (forall s : S, next p sys now s = Done s dec) /\
  decision_ok p sys now dec.
Proof.
  assert (Hirr : forall a, sane r a -> more_deserving a a = false).
  { intros a Ha. apply (more_deserving_false r); [apply HB|done|done|apply share_lt_irrefl]. }
  assert (Htr : forall a b c, sane r a -> sane r b -> sane r c ->
    more_deserving a b = true -> more_deserving b c = true -> more_deserving a c = true).
  { intros a b c Ha Hb Hc H1 H2. apply (more_deserving_exact r) in H1, H2; try done; try apply HB.
    apply (more_deserving_exact r); [apply HB|done|done|].
    eapply share_lt_trans; [apply Ha|apply Hb|apply Hc|done|done]. }
  pose proof (scan_best place_cand more_deserving (sane r) (cells sys) Hirr Htr) as Hp.
  pose proof (scan_best evict_cand (fun a b => more_deserving b a) (sane r) (cells sys) Hirr) as He.
  assert (Hs : forall cand, cand = place_cand \/ cand = evict_cand ->
    forall x i sh, cand x = Some (i, sh) -> sane r sh).
  { intros cand Hc x i sh H. destruct (cand_sane cand Hc _ _ _ H) as (q & _ & ->).
    apply share_of_sane. }
  specialize (Hp (Hs _ (or_introl eq_refl))).
  specialize (He (fun a b c Ha Hb Hc H1 H2 => Htr c b a Hc Hb Ha H2 H1) (Hs _ (or_intror eq_refl))).
  assert (Hpl : forall d c q, placeable sys d c q -> exists q', (d, c) ∈ cells sys /\
    place_cand (d, c) = Some ((d, c, q'), share_of p sys d c now)).
  { intros d c q Hpl. unfold place_cand. simpl. rewrite decide_True by apply Hpl.
    destruct (first_idle_pcpu_for sys d c) as [q'|] eqn:E; [|by eapply first_idle_None in E].
    exists q'. split; [|done]. eapply state_cell, Hpl. }
  assert (Hn : forall s : S, next p sys now s = Done s
    match fst <$> foldl (scan_step place_cand more_deserving) None (cells sys) with
    | Some (d, c, q) => Run d c q
    | None =>
        match fst <$> foldl (scan_step evict_cand (fun a b => more_deserving b a)) None (cells sys)
        with Some (d, c, q) => Preempt d c q | None => Idle end
    end).
  { intros s. unfold next, bind. rewrite best_placement_Done.
    destruct (fst <$> _) as [ [ [d c] q]|]; [done|]. by rewrite best_preemption_Done. }
  destruct (foldl (scan_step place_cand _) None (cells sys)) as [ [i sh]|].
  { destruct Hp as [([d c] & _ & Hc) Hmin].
    destruct (cand_sane _ (or_introl eq_refl) _ _ _ Hc) as (q & -> & ->). simpl in *.
    exists (Run d c q). split; [exact Hn|]. unfold place_cand in Hc. simpl in Hc.
    case_decide as Hst; [|done]. apply fmap_Some in Hc as (q0 & Hq & [= <-]).
    destruct (first_idle_Some d c q Hst Hq) as [H1 H2]. split_and!; [done|done|].
    intros d' c' q' (q2 & Hx & Hc')%Hpl. specialize (Hmin _ _ _ Hx Hc').
    apply (more_deserving_false r) in Hmin; [done|apply HB|apply share_of_sane..]. }
  assert (Hno : forall d c q, ~ placeable sys d c q).
  { intros d c q (q' & Hx & Hc)%Hpl. simpl in Hp. by rewrite Hp in Hc. }
  assert (Hev : forall d c q, evictable p sys now d c q -> (d, c) ∈ cells sys /\
    evict_cand (d, c) = Some ((d, c, q), share_of p sys d c now)).
  { intros d c q H. split; [by eapply state_cell, H|]. apply evict_cand_iff in H as [sh H].
    rewrite H. destruct (cand_sane _ (or_intror eq_refl) _ _ _ H) as (? & _ & ->). done. }
  destruct (foldl (scan_step evict_cand _) None (cells sys)) as [ [i sh]|]; simpl.
  - destruct He as [([d c] & _ & Hc) Hmin].
    destruct (cand_sane _ (or_intror eq_refl) _ _ _ Hc) as (q & -> & ->). simpl in *.
    exists (Preempt d c q). split; [exact Hn|].
    split_and!; [done|apply evict_cand_iff; by eexists|].
    intros d' c' q' [Hx Hc']%Hev. specialize (Hmin _ _ _ Hx Hc').
    apply (more_deserving_false r) in Hmin; [done|apply HB|apply share_of_sane..].
  - exists Idle. split; [exact Hn|]. split; [done|]. intros d c q [Hx Hc]%Hev. simpl in He.
    by rewrite He in Hc.
Qed.
End Ranked.

(** *** Wake accounting *)

Definition established (p : Scheduler) (sys : System) (d : DomId) (c : Vcpu) : Prop :=
  schedulable sys d c = true /\ was_schedulable p d c = true.
Definition woken (p : Scheduler) (sys : System) (d : DomId) (c : Vcpu) : bool :=
  schedulable sys d c && negb (was_schedulable p d c).

(** The floor is the least share of the established vCPUs. *)
Definition floor_ok (p : Scheduler) (sys : System) (now : Ticks) (floor : option Share) : Prop :=
  match floor with
  | None => forall d c, ~ established p sys d c
  | Some f => (exists d c, established p sys d c /\ f = share_of p sys d c now) /\
      forall d c, established p sys d c -> ~ share_lt (share_of p sys d c now) f
  end.

(** The service a woken vCPU is placed at, for its weight. *)
Definition placed_at (f : Share) (w : Weight) : N := saturating_mul (service f) w / weight f.

Definition offset_after (p : Scheduler) (sys : System) (floor : option Share) (d : DomId)
    (c : Vcpu) (o : N) : N :=
  match floor with
  | Some f => if woken p sys d c && wake_boost p
              then placed_at f (weight_of p d c) - raw_runtime sys d c else o
  | None => o
  end.

Definition snapshot_after (sys : System) (d : DomId) (c : Vcpu) (b : bool) : bool :=
  match vcpu_opt sys d c with Some _ => schedulable sys d c | None => b end.

(** The scheduler after [account]. *)
Definition accounted (p : Scheduler) (sys : System) (now : Ticks) (p' : Scheduler) : Prop :=
  weights p' = weights p /\ quantum p' = quantum p /\ wake_boost p' = wake_boost p /\
  (forall d c, tget (snapshot p') d c = snapshot_after sys d c <$> tget (snapshot p) d c) /\
  exists floor, floor_ok p sys now floor /\
    forall d c, tget (offset p') d c = offset_after p sys floor d c <$> tget (offset p) d c.

Lemma tget_tset_fmap {A} (t : list (list A)) i j x i' j' :
  tget (tset t i j x) i' j' =
  if decide ((i', j') = (i, j)) then (fun _ => x) <$> tget t i j else tget t i' j'.
Proof.
  case_decide as H.
  - injection H as -> ->. destruct (tget t i j) as [y|] eqn:E; [by eapply tget_tset_eq|].
    simpl. apply tget_None. by rewrite twidth_tset, <- tget_None.
  - apply tget_tset_ne. intros [-> ->]. done.
Qed.

Lemma decide_snoc {A B} `{EqDecision A} (x y : A) (l : list A) (a b : B) :
  (if decide (y ∈ l ++ [x]) then a else b) =
  if decide (y = x) then a else if decide (y ∈ l) then a else b.
Proof. repeat case_decide; rewrite ?elem_of_snoc in *; try done; exfalso; tauto. Qed.

Section Account.
Context (r e : N) (p : Scheduler) (sys : System) (now : Ticks).
Context (HB : budget r e p sys now) (HI : Inv sys).

Definition floor_cand (x : DomId * Vcpu) : option (unit * Share) :=
  if schedulable sys x.1 x.2 && was_schedulable p x.1 x.2
  then Some (tt, share_of p sys x.1 x.2 now) else None.

Lemma pool_floor_Done {S} (s : S) :
  pool_floor p sys now s =
  Done s (snd <$> foldl (scan_step floor_cand more_deserving) None (cells sys)).
Proof.
  unfold pool_floor. rewrite for_vcpus_cells.
  change (@None Share) with (snd <$> @None (unit * Share)). generalize (@None (unit * Share)).
  induction (cells sys) as [|[d c] l IH]; intros acc; [done|]. cbn [foldl]. rewrite <- IH.
  simpl. unfold bind, scan_step, floor_cand. simpl. destruct (_ && _); [|done].
  rewrite (share_Done r e) by done. simpl. f_equal. destruct acc as [ [u b]|]; simpl; [|done].
  by destruct (more_deserving _ b).
Qed.

Lemma pool_floor_ok {S} :
  exists floor, (forall s : S, pool_floor p sys now s = Done s floor) /\ floor_ok p sys now floor.
Proof.
  eexists. split; [apply pool_floor_Done|].
  pose proof (scan_best floor_cand more_deserving (sane r) (cells sys)) as H.
  assert (Hest : forall d c, established p sys d c ->
    (d, c) ∈ cells sys /\ floor_cand (d, c) = Some (tt, share_of p sys d c now)).
  { intros d c [H1 H2]. split.
    - unfold schedulable in H1. destruct (state_of sys d c) eqn:E; [|done]. by eapply state_cell.
    - unfold floor_cand. simpl. by rewrite H1, H2. }
  assert (Hc : forall d c u sh, floor_cand (d, c) = Some (u, sh) ->
    established p sys d c /\ sh = share_of p sys d c now).
  { unfold floor_cand, established. simpl. intros d c u sh. destruct (_ && _) eqn:E; [|done].
    intros [= _ <-]. by bool_prop. }
  assert (Hb : best_of floor_cand more_deserving (cells sys)
    (foldl (scan_step floor_cand more_deserving) None (cells sys))).
  { apply H.
    - intros a Ha. apply (more_deserving_false r); [apply HB|done|done|apply share_lt_irrefl].
    - intros a b c Ha Hb Hc' H1 H2. apply (more_deserving_exact r) in H1, H2; try done; try apply HB.
      apply (more_deserving_exact r); [apply HB|done|done|].
      eapply share_lt_trans; [apply Ha|apply Hb|apply Hc'|done|done].
    - intros [d c] u sh [_ ->]%Hc. eapply share_of_sane; done. }
  destruct (foldl _ _ _) as [ [u f]|]; simpl in *.
  - destruct Hb as [([d c] & _ & [He ->]%Hc) Hmin]. split; [by exists d, c|].
    intros d' c' [Hx Hf]%Hest. specialize (Hmin _ _ _ Hx Hf).
    apply (more_deserving_false r) in Hmin; [done|apply HB|by eapply share_of_sane..].
  - intros d c [Hx Hf]%Hest. by rewrite Hb in Hf.
Qed.

Lemma wp_account_pass floor x l1 p1 :
  floor_ok p sys now floor -> x ∈ cells sys -> x ∉ l1 ->
  let I := fun (l : list (DomId * Vcpu)) p' =>
    weights p' = weights p /\ quantum p' = quantum p /\ wake_boost p' = wake_boost p /\
    (forall d c, tget (snapshot p') d c = if decide ((d, c) ∈ l)
       then snapshot_after sys d c <$> tget (snapshot p) d c else tget (snapshot p) d c) /\
    (forall d c, tget (offset p') d c = if decide ((d, c) ∈ l)
       then offset_after p sys floor d c <$> tget (offset p) d c else tget (offset p) d c) in
  I l1 p1 ->
  wp (let! p := get in
      (if schedulable sys x.1 x.2 && negb (was_schedulable p x.1 x.2) && wake_boost p then
         match floor with
         | Some f =>
             let! target := udiv (saturating_mul (service f) (weight_of p x.1 x.2)) (weight f) in
             modify (set_offset x.1 x.2 (target - default 0 (runtime sys x.1 x.2)))
         | None => ret tt
         end
       else ret tt) ;!
      modify (set_was_schedulable x.1 x.2 (schedulable sys x.1 x.2)))
    (fun p' _ => I (l1 ++ [x]) p') p1.
Proof.
  destruct x as [d c]. simpl. intros Hfl Hx Hnew (Hw & Hq & Hb & Hsn & Ho).
  assert (Hwas : was_schedulable p1 d c = was_schedulable p d c).
  { unfold was_schedulable. by rewrite Hsn, decide_False. }
  assert (Hwt : weight_of p1 d c = weight_of p d c) by (unfold weight_of; by rewrite Hw).
  apply elem_cells in Hx as [v Hv]; [|done].
  assert (Hsnap : forall p2, snapshot p2 = snapshot p1 -> forall d' c',
    tget (snapshot (set_was_schedulable d c (schedulable sys d c) p2)) d' c' =
      if decide ((d', c') ∈ l1 ++ [(d, c)])
      then snapshot_after sys d' c' <$> tget (snapshot p) d' c' else tget (snapshot p) d' c').
  { intros p2 H2 d' c'. simpl. rewrite H2, tget_tset_fmap, !Hsn, decide_snoc.
    rewrite (decide_False (P := (d, c) ∈ l1)) by done. destruct (decide _) as [E|]; [|done].
    injection E as -> ->. unfold snapshot_after. by rewrite Hv. }
  assert (Hoff : forall p2 o, (forall d' c', tget (offset p2) d' c' =
      if decide ((d', c') = (d, c)) then o <$> tget (offset p1) d' c' else tget (offset p1) d' c') ->
    (forall x, o x = offset_after p sys floor d c x) -> forall d' c',
    tget (offset p2) d' c' = if decide ((d', c') ∈ l1 ++ [(d, c)])
      then offset_after p sys floor d' c' <$> tget (offset p) d' c' else tget (offset p) d' c').
  { intros p2 o H2 Hof d' c'. rewrite H2, !Ho, decide_snoc. destruct (decide _) as [E|]; [|done].
    injection E as -> ->. rewrite decide_False by done. by apply option_fmap_ext. }
  wp_step. wp_step. wp_step. rewrite Hwas, Hwt, Hb. fold (woken p sys d c).
  assert (Hsame : forall d' c', tget (offset p1) d' c' =
    if decide ((d', c') = (d, c)) then (fun x => x) <$> tget (offset p1) d' c' else tget (offset p1) d' c').
  { intros. case_decide; [|done]. by destruct (tget _ _ _). }
  destruct (woken p sys d c && wake_boost p) eqn:Hwk; [destruct floor as [f|]|].
  - assert (Hf0 : weight f <> 0).
    { destruct Hfl as [(d0 & c0 & _ & ->) _]. pose proof (weight_of_pos p d0 c0). simpl. lia. }
    wp_step. unfold udiv. rewrite decide_False by done. wp_step. wp_step. wp_step.
    split_and!; [done..|by apply Hsnap|]. apply (Hoff _ (fun _ =>
      placed_at f (weight_of p d c) - raw_runtime sys d c)).
    + intros d' c'. simpl. rewrite tget_tset_fmap. case_decide; [|done]. by simplify_eq.
    + intros y. unfold offset_after. by rewrite Hwk.
  - wp_step. wp_step. split_and!; [done..|by apply Hsnap|]. by apply (Hoff _ (fun x => x) Hsame).
  - wp_step. wp_step. split_and!; [done..|by apply Hsnap|]. apply (Hoff _ (fun x => x) Hsame).
    intros y. unfold offset_after. destruct floor; [|done]. by rewrite Hwk.
Qed.

Lemma wp_account_policy : wp (account sys now) (fun p' _ => accounted p sys now p') p.
Proof.
  unfold account. wp_step. wp_step. wp_step. destruct (@pool_floor_ok Scheduler) as (floor & Hf & Hok).
  unfold wp at 1. rewrite Hf. unfold wp at 1. rewrite for_vcpus_cells.
  apply (wp_fold_m (cells sys) _ (fun l (_ : unit) p' =>
    weights p' = weights p /\ quantum p' = quantum p /\ wake_boost p' = wake_boost p /\
    (forall d c, tget (snapshot p') d c = if decide ((d, c) ∈ l)
       then snapshot_after sys d c <$> tget (snapshot p) d c else tget (snapshot p) d c) /\
    (forall d c, tget (offset p') d c = if decide ((d, c) ∈ l)
       then offset_after p sys floor d c <$> tget (offset p) d c else tget (offset p) d c))).
  - split_and!; [done..| |]; intros d c; rewrite decide_False; try done; apply not_elem_of_nil.
  - intros l1 x l2 u p1 Hl HI1. pose proof (NoDup_cells sys) as Hnd. rewrite Hl in Hnd.
    apply list.NoDup_app in Hnd as (_ & Hd & _).
    refine (wp_account_pass floor x l1 p1 Hok _ _ HI1).
    + rewrite Hl. apply elem_of_app. right. by left.
    + intros Hx. apply (Hd x Hx). by left.
  - intros u p' (Hw & Hq & Hb & Hsn & Ho).
    assert (Hout : forall d c, (d, c) ∉ cells sys -> vcpu_opt sys d c = None).
    { intros d c H. apply eq_None_not_Some. by rewrite <- elem_cells. }
    split_and!; [done..| |].
    + intros d c. rewrite Hsn. case_decide as H; [done|]. unfold snapshot_after.
      rewrite Hout by done. by destruct (tget _ d c).
    + exists floor. split; [done|]. intros d c. rewrite Ho. case_decide as H; [done|].
      unfold offset_after, woken, schedulable, state_of. rewrite Hout by done. simpl.
      destruct floor; by destruct (tget _ d c).
Qed.
End Account.

(** After the accounting pass the room shrinks by the longest open interval at most. *)
Lemma budget_account r e p sys now p' :
  budget r e p sys now -> accounted p sys now p' -> r + e <= 2 ^ 64 ->
  budget (r + e) e p' sys now.
Proof.
  intros HB (Hw & _ & _ & _ & floor & Hf & Ho) Hroom.
  assert (Hwt : forall d c, weight_of p' d c = weight_of p d c)
    by (intros; unfold weight_of; by rewrite Hw).
  constructor; [intros; rewrite Hwt; apply HB| |apply HB|done].
  intros d c. rewrite Hwt. pose proof (weight_of_pos p d c) as Hw0.
  pose proof (bd_service _ _ _ _ _ HB d c) as Hs. pose proof (bd_flight _ _ _ _ _ HB d c) as He.
  assert (He' : e <= e * weight_of p d c).
  { rewrite <- (N.mul_1_r e) at 1. apply N.mul_le_mono_l. lia. }
  assert (H : offset_of p' d c <= offset_of p d c \/
    exists f d0 c0, f = share_of p sys d0 c0 now /\
      offset_of p' d c = placed_at f (weight_of p d c) - raw_runtime sys d c).
  { unfold offset_of. rewrite Ho. destruct (tget (offset p) d c) as [o|]; [simpl|by left].
    unfold offset_after. destruct floor as [f|]; [|by left]. destruct (_ && _); [|by left].
    right. destruct Hf as [(d0 & c0 & _ & ->) _]. by exists (share_of p sys d0 c0 now), d0, c0. }
  rewrite N.mul_add_distr_r. destruct H as [H|(f & d0 & c0 & -> & H)]; [lia|].
  assert (Ht : placed_at (share_of p sys d0 c0 now) (weight_of p d c) <= r * weight_of p d c).
  { unfold placed_at. pose proof (weight_of_pos p d0 c0) as Hw1. simpl.
    apply N.Div0.div_le_upper_bound. unfold saturating_mul.
    etransitivity; [apply N.le_min_r|]. pose proof (bd_service _ _ _ _ _ HB d0 c0) as Hs0.
    replace (weight_of p d0 c0 * (r * weight_of p d c)) with
      (r * weight_of p d0 c0 * weight_of p d c) by lia.
    by apply N.mul_le_mono_r. }
  rewrite H. lia.
Qed.

(** *** The driver *)

Section Driver.
Context (r e : N) (p : Scheduler) (now : Ticks).

Lemma budget_mono s s' :
  budget r e p s now ->
  (forall d c, raw_runtime s' d c + in_flight s' d c now <= raw_runtime s d c + in_flight s d c now /\
     in_flight s' d c now <= in_flight s d c now) ->
  budget r e p s' now.
Proof.
  intros HB H. constructor; [apply HB| | |apply HB]; intros d c; destruct (H d c) as [H1 H2].
  - etransitivity; [|apply HB]. lia.
  - etransitivity; [exact H2|apply HB].
Qed.

Lemma budget_run s s' d c v q :
  budget r e p s now -> vcpu_opt s d c = Some v -> state v = Runnable ->
  step_at d c (mkVcpu (Running q) (v_runtime v) now (affinity v)) s s' ->
  budget r e p s' now.
Proof.
  intros HB Hv Hs (_ & _ & Hl). eapply budget_mono; [done|]. intros d' c'.
  unfold raw_runtime, runtime, in_flight, on_cpu_since. rewrite Hl. case_decide as H; [|lia].
  destruct H as [-> ->]. rewrite Hv. simpl. rewrite Hs. lia.
Qed.

Lemma budget_preempt s s' d c v q :
  budget r e p s now -> vcpu_opt s d c = Some v -> state v = Running q ->
  step_at d c (set_state Runnable (leave now v)) s s' ->
  budget r e p s' now.
Proof.
  intros HB Hv Hs (_ & _ & Hl). eapply budget_mono; [done|]. intros d' c'.
  unfold raw_runtime, runtime, in_flight, on_cpu_since. rewrite Hl. case_decide as H; [|lia].
  destruct H as [-> ->]. rewrite Hv. simpl. unfold leave. rewrite Hs. simpl.
  unfold saturating_add. lia.
Qed.

Lemma occupant_running s q d c :
  Inv s -> occupant s q = Some (d, c) <-> state_of s d c = Some (Running q).
Proof.
  intros HI. unfold occupant. rewrite state_of_Some. split.
  - destruct (vget (pcpus s) q) as [o|] eqn:E; [|done]. intros ->. by apply HI.
  - intros (v & Hv & Hs). by rewrite (proj1 (inv_running _ HI _ _ _ _ Hv Hs)).
Qed.

(** What a physical CPU can still cost: a dispatch if it is idle, an eviction and a dispatch
    if the quantum of its occupant has expired. *)
Definition pcpu_cost (s : System) (q : Pcpu) : N :=
  match occupant s q with
  | None => 1
  | Some (d, c) => if decide (in_flight s d c now < quantum p) then 0 else 2
  end.
Definition remaining (s : System) : N := nsum (pcpu_cost s) (vrange (pcpu_count s)).

Lemma nsum_point {A} (f g : A -> N) l a :
  NoDup l -> a ∈ l -> (forall x, x ∈ l -> x <> a -> f x = g x) -> nsum f l + g a = nsum g l + f a.
Proof.
  induction l as [|b l IH]; intros Hnd Ha H; [by apply elem_of_nil in Ha|]. simpl.
  apply list.NoDup_cons in Hnd as [Hb Hnd]. apply elem_of_cons in Ha as [->|Ha].
  - rewrite (nsum_ext f g l); [lia|]. intros x Hx. apply H; [by right|]. by intros ->.
  - assert (f b = g b) by (apply H; [by left|]; intros ->; done).
    assert (nsum f l + g a = nsum g l + f a); [|lia]. apply IH; [done..|].
    intros x Hx. apply H. by right.
Qed.

Lemma remaining_step s s' d c v' q :
  Inv s -> step_at d c v' s s' -> q < pcpu_count s ->
  (forall q', q' <> q -> state_of s d c <> Some (Running q') /\ state v' <> Running q') ->
  remaining s' + pcpu_cost s q = remaining s + pcpu_cost s' q.
Proof.
  intros HI Hst Hq Hne. pose proof Hst as (HI' & (_ & Hp & _) & Hl). unfold remaining. rewrite Hp.
  apply nsum_point; [apply NoDup_vrange|by apply elem_vrange|]. intros q' _ Hq'.
  destruct (Hne q' Hq') as [H1 H2].
  assert (Hst' : forall d' c', state_of s' d' c' = Some (Running q') <->
    state_of s d' c' = Some (Running q')).
  { intros d' c'. rewrite (sched_step_at_state_of _ _ _ _ _ d' c' Hst). case_decide as Hd; [|done].
    destruct Hd as [-> ->]. naive_solver. }
  assert (Ho : occupant s' q' = occupant s q').
  { apply option_eq. intros [d' c']. by rewrite !occupant_running, Hst'. }
  unfold pcpu_cost. rewrite Ho. destruct (occupant s q') as [ [d' c']|] eqn:E; [|done].
  assert (Hin : in_flight s' d' c' now = in_flight s d' c' now); [|by rewrite Hin].
  apply occupant_running in E; [|done]. unfold in_flight, on_cpu_since. rewrite Hl, decide_False.
  - done.
  - intros [-> ->]. done.
Qed.

Lemma remaining_bound s : remaining s <= 2 * pcpu_count s.
Proof.
  unfold remaining. replace (pcpu_count s) with (vlen (vrange (pcpu_count s))) at 2
    by apply vlen_vrange.
  generalize (vrange (pcpu_count s)). intros l. unfold vlen.
  induction l as [|q l IH]; [done|]. cbn [nsum length].
  assert (pcpu_cost s q <= 2); [|lia]. unfold pcpu_cost.
  destruct (occupant s q) as [ [d c]|]; [case_decide|]; lia.
Qed.

(** Scheduling moves vCPUs between [Runnable] and [Running] only. *)
Lemma schedulable_step s s' d c v' :
  step_at d c v' s s' -> schedulable s d c = true ->
  (state v' = Runnable \/ exists q, state v' = Running q) ->
  forall d' c', schedulable s' d' c' = schedulable s d' c'.
Proof.
  intros Hst Hs Hv d' c'. unfold schedulable at 1.
  rewrite (sched_step_at_state_of _ _ _ _ _ d' c' Hst). case_decide as H; [|done].
  destruct H as [-> ->]. rewrite Hs. by destruct Hv as [->|[q ->] ].
Qed.

Definition settled (s : System) (n0 : N) (st : Scheduler * System) (n : N) : Prop :=
  st.1 = p /\ Inv st.2 /\ same_shape s st.2 /\ decision_ok p st.2 now Idle /\
  n0 <= n <= n0 + remaining s /\ budget r e p st.2 now /\
  forall d c, schedulable st.2 d c = schedulable s d c.

Lemma settled_step s s' n st m :
  settled s' (n + 1) st m -> same_shape s s' -> remaining s' < remaining s ->
  (forall d c, schedulable s' d c = schedulable s d c) -> settled s n st m.
Proof.
  intros (H1 & H2 & H3 & H4 & H5 & H6 & H7) Hsh Hr Hs.
  split_and!; [done|done|by eapply sched_same_shape_trans|done|lia|lia|done|].
  intros d c. by rewrite H7, Hs.
Qed.

Lemma wp_advance_loop fuel s n :
  0 < quantum p -> Inv s -> budget r e p s now ->
  (N.to_nat (remaining s) < fuel)%nat -> n + remaining s <= u32_max ->
  wp (advance_loop fuel now n) (settled s n) (p, s).
Proof.
  intros Hq. revert s n. induction fuel as [|fuel IH]; intros s n HI HB Hf Hn; [lia|].
  cbn [advance_loop]. wp_step. wp_step. cbn [fst snd].
  destruct (@next_ok r e p s now HB HI (Scheduler * System)%type) as (dec & Hdec & Hok).
  apply wp_bind. unfold wp at 1. rewrite Hdec.
  destruct dec as [d c q|d c q|].
  - destruct Hok as (Hpl & _). wp_step. wp_step. cbn [lget mech_l snd].
    destruct (wp_Done _ _ _ (wp_run d c q now s HI)) as (s' & [[]|er] & E & H).
    2: { by apply run_rejects in E. }
    unfold wp at 1. rewrite E. cbn [lset mech_l fst is_ok].
    destruct H as (v & Hv & Hs & Hp & Ho & Ha & Hst).
    pose proof Hst as (HI' & Hsh & Hl).
    assert (Hrem : remaining s' + 1 = remaining s).
    { assert (H : remaining s' + pcpu_cost s q = remaining s + pcpu_cost s' q).
      { eapply remaining_step; [done|exact Hst|done|]. intros q' Hq'. split; [|simpl; congruence].
        unfold state_of. rewrite Hv. simpl. congruence. }
      unfold pcpu_cost in H at 1. rewrite Ho in H. rewrite H. unfold pcpu_cost.
      rewrite (proj2 (occupant_running s' q d c HI')).
      2: { by rewrite (sched_step_at_state_of _ _ _ _ _ d c Hst), decide_True. }
      rewrite decide_True; [lia|]. unfold in_flight, on_cpu_since. rewrite Hl, decide_True by done.
      simpl. lia. }
    wp_step. apply wp_uadd; [lia|]. eapply wp_mono.
    + apply IH; [done|by eapply budget_run|lia|lia].
    + intros st m H. eapply settled_step; [exact H|done|lia|].
      eapply schedulable_step; [done| |right; by eexists].
      unfold schedulable, state_of. rewrite Hv. simpl. by rewrite Hs.
  - destruct Hok as (_ & (Hrun & Hexp & _) & _). wp_step. wp_step. cbn [lget mech_l snd].
    destruct (wp_Done _ _ _ (wp_preempt d c now s HI)) as (s' & [[]|er] & E & H).
    2: { destruct H as [_ H]. by destruct (H q). }
    unfold wp at 1. rewrite E. cbn [lset mech_l fst is_ok].
    destruct H as (v & q0 & Hv & Hs & Hst). pose proof Hst as (HI' & Hsh & Hl).
    assert (q0 = q) as ->.
    { unfold state_of in Hrun. rewrite Hv in Hrun. simpl in Hrun. congruence. }
    assert (Hqp : q < pcpu_count s).
    { rewrite vcpu_opt_tget in Hv. eapply vget_Some_lt, (inv_running _ HI _ _ _ _ Hv Hs). }
    assert (Hnone : occupant s' q = None).
    { apply eq_None_not_Some. intros [ [d' c'] Ho]. apply occupant_running in Ho; [|done].
      rewrite (sched_step_at_state_of _ _ _ _ _ d' c' Hst) in Ho. case_decide as Hd; [done|].
      apply occupant_running in Ho; [|done]. apply occupant_running in Hrun; [|done].
      rewrite Ho in Hrun. apply Hd. by injection Hrun. }
    assert (Hrem : remaining s' + 1 = remaining s).
    { assert (H : remaining s' + pcpu_cost s q = remaining s + pcpu_cost s' q).
      { eapply remaining_step; [done|exact Hst|done|]. intros q' Hq'. split; [congruence|done]. }
      unfold pcpu_cost in H. rewrite Hnone, (proj2 (occupant_running s q d c HI)) in H by done.
      rewrite decide_False in H by lia. lia. }
    wp_step. apply wp_uadd; [lia|]. eapply wp_mono.
    + apply IH; [done|by eapply budget_preempt|lia|lia].
    + intros st m H. eapply settled_step; [exact H|done|lia|].
      eapply schedulable_step; [done| |by left]. unfold schedulable. by rewrite Hrun.
  - wp_step. split_and!; [done|done|done|exact Hok|lia|lia|done|done].
Qed.
End Driver.

Definition total_vcpus (s : System) : N := nsum (vcpu_count s) (vrange (domain_count s)).

Lemma advance_limit_Done {S} sys (s : S) :
  Inv sys -> total_vcpus sys + 2 * pcpu_count sys + 1 <= u32_max ->
  advance_limit sys s = Done s (total_vcpus sys + 2 * pcpu_count sys + 1).
Proof.
  intros HI Hb. unfold advance_limit. rewrite as_u16_id by apply HI.
  assert (H : forall l acc, acc + nsum (vcpu_count sys) l <= u64_max ->
    fold_m l (fun acc d => uadd u64_max acc (vcpu_count sys d)) acc s =
    Done s (acc + nsum (vcpu_count sys) l)).
  { induction l as [|d l IH]; intros acc Ha; simpl in *; [by rewrite N.add_0_r|].
    unfold bind, uadd. rewrite decide_True by lia. cbn. rewrite IH by lia. f_equal. lia. }
  assert (Hu : u32_max <= u64_max) by (vm_compute; discriminate).
  unfold bind. fold (total_vcpus sys) in *. rewrite H; fold (total_vcpus sys); [|lia].
  unfold uadd. rewrite decide_True by lia. cbn. rewrite decide_True by lia. cbn.
  rewrite decide_True by lia. cbn. unfold ret. f_equal. rewrite as_u32_id; lia.
Qed.

(** ** Properties *)

(** The policy never recommends what the mechanism refuses, and chooses fairly: [next]
    does not panic, and a [Run] it returns is a dispatch the mechanism accepts, on the first
    free CPU of the vCPU, of a vCPU no placeable one deserves more than; it returns
    [Preempt] only when nothing can be placed, for a runner whose quantum has expired and
    whom a waiter that may use its CPU beats, the least deserving of them; and it returns
    [Idle] exactly when neither is possible. *)
Theorem next_decides (r e : N) (p : Scheduler) (sys : System) (now : Ticks) :
  Inv sys -> budget r e p sys now ->
  exists dec, next p sys now sys = Done sys dec /\ decision_ok p sys now dec /\
    (forall d c q, dec = Run d c q -> exists s', Sched.run d c q now sys = Done s' (Ok tt)) /\
    (forall d c q, dec = Preempt d c q -> exists s', Sched.preempt d c now sys = Done s' (Ok tt)).
Proof.
  intros HI HB. destruct (@next_ok r e p sys now HB HI System) as (dec & Hd & Hok).
  exists dec. split_and!; [apply Hd|done| |]; intros d c q ->.
  - destruct (wp_Done _ _ _ (wp_run d c q now sys HI)) as (s' & [[]|er] & E & _); [by exists s'|].
    apply run_rejects in E. by destruct Hok.
  - destruct (wp_Done _ _ _ (wp_preempt d c now sys HI)) as (s' & [[]|er] & E & H); [by exists s'|].
    destruct H as [_ H]. destruct Hok as (_ & (Hr & _) & _). by destruct (H q).
Qed.

(** Room, from a bound on each entry of the tables. *)
Lemma table_bound {A} (f : A -> bool) (t : list (list A)) d c x :
  forallb (forallb f) t = true -> tget t d c = Some x -> f x = true.
Proof.
  unfold tget. intros Hall. destruct (vget t d) as [row|] eqn:Hr; [|done]. intros Hx.
  rewrite forallb_elem in Hall. specialize (Hall row (vget_elem _ _ _ Hr)).
  rewrite forallb_elem in Hall. exact (Hall x (vget_elem _ _ _ Hx)).
Qed.

Lemma budget_bounds (t o e : N) p sys now :
  t + e + o <= 2 ^ 64 ->
  forallb (forallb (fun w => w <=? u32_max)) (weights p) = true ->
  forallb (forallb (fun x => x <=? o)) (offset p) = true ->
  forallb (forallb (fun v => (v_runtime v <=? t) &&
    (match state v with Running _ => now - dispatched_at v | _ => 0 end <=? e)))
    (domains sys) = true ->
  budget (t + e + o) e p sys now.
Proof.
  intros Hr Hw Ho Hv.
  assert (Hcell : forall d c, raw_runtime sys d c <= t /\ in_flight sys d c now <= e).
  { intros d c. unfold raw_runtime, runtime, in_flight, on_cpu_since. rewrite vcpu_opt_tget.
    destruct (tget (domains sys) d c) as [v|] eqn:E; simpl; [|lia].
    pose proof (table_bound _ _ _ _ _ Hv E) as H. apply andb_true_iff in H as [H1 H2].
    apply N.leb_le in H1, H2. split; [done|]. destruct (state v); simpl in *; lia. }
  constructor; [| |apply Hcell|done].
  - intros d c. unfold weight_of. apply N.max_lub; [|vm_compute; discriminate].
    destruct (tget (weights p) d c) as [w|] eqn:E; [|vm_compute; discriminate].
    apply N.leb_le. exact (table_bound _ _ _ _ _ Hw E).
  - intros d c. destruct (Hcell d c) as [H1 H2]. pose proof (weight_of_pos p d c).
    assert (offset_of p d c <= o).
    { unfold offset_of. destruct (tget (offset p) d c) as [x|] eqn:E; simpl; [|lia].
      apply N.leb_le. exact (table_bound _ _ _ _ _ Ho E). }
    transitivity ((t + e + o) * 1); [lia|]. apply N.mul_le_mono_l. lia.
Qed.

Lemma demo_budget q : budget 0 0 (new 2 2 q) demo 5.
Proof. apply (budget_bounds 0 0 0); [vm_compute; discriminate|reflexivity..]. Qed.

Theorem next_decides_witness :
  exists dec, next (new 2 2 10) demo 5 demo = Done demo dec /\ dec = Run 0 0 0.
Proof.
  refine (match next_decides 0 0 (new 2 2 10) demo 5 sched_demo_Inv (demo_budget 10) with
    | ex_intro _ dec (conj E _) => ex_intro _ dec (conj E _)
    end).
  vm_compute in E. injection E as <-. reflexivity.
Defined.



(** Wake-boost is exact: [account] does not panic, refreshes the snapshot, leaves the
    offset of every vCPU that did not just enter the pool, and puts one that did at the
    share of the least-served established vCPU, up to the rounding of one division: its run
    time and offset together are that floor scaled to its weight, or its run time alone if
    that is larger. The offset it had before does not count. *)
Theorem account_places_at_floor (r e : N) (p : Scheduler) (sys : System) (now : Ticks) :
  Inv sys -> budget r e p sys now ->
  exists p', account sys now p = Done p' tt /\
    (forall d c, woken p sys d c = false \/ wake_boost p = false ->
       offset_of p' d c = offset_of p d c) /\
    (forall d c, is_Some (vcpu_opt sys d c) -> is_Some (tget (snapshot p) d c) ->
       was_schedulable p' d c = schedulable sys d c) /\
    (forall d0 c0, established p sys d0 c0 -> wake_boost p = true ->
       exists f, floor_ok p sys now (Some f) /\
    forall d c, woken p sys d c = true -> is_Some (tget (offset p) d c) ->
         exists t, raw_runtime sys d c + offset_of p' d c = N.max (raw_runtime sys d c) t /\
    weight f * t <= service f * weight_of p d c < weight f * (t + 1)).
Proof.
  intros HI HB.
  destruct (wp_Done _ _ _ (wp_account_policy r e p sys now HB HI)) as (p' & [] & E & Hacc).
  destruct Hacc as (_ & _ & _ & Hsn & floor & Hf & Ho). exists p'. split_and!; [done| | |].
  - intros d c Hno. unfold offset_of. rewrite Ho. unfold offset_after.
    destruct (tget (offset p) d c); simpl; destruct floor; try done.
    by destruct Hno as [->| ->]; rewrite ?andb_false_r.
  - intros d c [v Hv] [b Hb]. unfold was_schedulable. rewrite Hsn, Hb. simpl.
    unfold snapshot_after. by rewrite Hv.
  - intros d0 c0 Hest Hboost. destruct floor as [f|]; [|by destruct (Hf d0 c0)]. exists f.
    split; [done|]. intros d c Hwk [o Hoff]. exists (placed_at f (weight_of p d c)).
    assert (Hof : offset_of p' d c = placed_at f (weight_of p d c) - raw_runtime sys d c).
    { unfold offset_of. rewrite Ho, Hoff. simpl. by rewrite Hwk, Hboost. }
    split; [rewrite Hof; lia|]. destruct Hf as [(d1 & c1 & _ & ->) _].
    unfold placed_at, saturating_mul. rewrite N.min_r.
    2: { apply (product_fits r _ (share_of p sys d c now)); [apply HB|by eapply share_of_sane..]. }
    pose proof (weight_of_pos p d1 c1) as Hw. simpl in *. split.
    + apply N.Div0.mul_div_le.
    + rewrite N.add_1_r. apply N.mul_succ_div_gt. lia.
Qed.

(** *** Concrete machines *)

(** A configuration call on the policy, and a transition of the mechanism that must be
    accepted. *)
Definition config (f : Scheduler -> Scheduler) : M Machine unit :=
  modify (fun st => (f (fst st), snd st)).
Definition mech (op : M System (result SchedError unit)) : M Machine unit :=
  let! r := zoom mech_l op in dbg_assert (is_ok r).
Definition state_after {T} (m : M Machine T) (st : Machine) : Machine :=
  match m st with Done st' _ => st' | Panic => st end.

(** vCPU 0 runs alone for 100 ticks; vCPU 1 is admitted then. *)
Definition sleeper : Machine :=
  state_after (mech (admit_vcpu 0 0) ;! advance 0 ;! mech (admit_vcpu 0 1))
    (new 1 2 10, Sched.new 1 2 1).

Lemma sleeper_Inv : Inv (snd sleeper).
Proof.
  apply sched_first_violation_None; [vm_compute; discriminate| |vm_compute; discriminate|reflexivity].
  intros d. change (domains (snd sleeper)) with
    [ [mkVcpu (Running 0) 0 0 1; mkVcpu Runnable 0 0 1] ].
  unfold twidth, vget. destruct (N.to_nat d) as [|[|n] ]; vm_compute; discriminate.
Qed.

Theorem account_places_at_floor_witness :
  exists p', account (snd sleeper) 100 (fst sleeper) = Done p' tt /\ offset_of p' 0 1 = 100.
Proof.
  assert (HB : budget 100 100 (fst sleeper) (snd sleeper) 100).
  { apply (budget_bounds 0 0 100); [vm_compute; discriminate|reflexivity..]. }
  refine (match account_places_at_floor 100 100 _ _ 100 sleeper_Inv HB with
    | ex_intro _ p' (conj E _) => ex_intro _ p' (conj E _)
    end).
  vm_compute in E. injection E as <-. reflexivity.
Defined.

(** One domain of twelve vCPUs over seven physical CPUs, with a quantum of zero: vCPU [c]
    has run for the [c]-th number of ticks and has the [c]-th affinity mask. *)
Definition history : list (Ticks * N) :=
  zip [3; 1; 9; 6; 2; 10; 8; 4; 0; 11; 7; 5]
      [113; 33; 119; 76; 49; 109; 31; 83; 32; 25; 121; 38].
Definition busy : Machine :=
  state_after
    (for_each (enumerate history) (fun '(c, (ticks, mask)) =>
       mech (admit_vcpu 0 c) ;! mech (Sched.run 0 c 0 0) ;! mech (Sched.preempt 0 c ticks) ;!
       mech (set_affinity 0 c mask)) ;!
     for_each [(0, 6); (1, 11); (2, 5); (3, 9); (4, 10); (5, 1); (6, 3)] (fun '(q, c) =>
       mech (Sched.run 0 c q 100)))
    (new 1 12 0, Sched.new 1 12 7).

(** A quantum of zero breaks work conservation: from a state the mechanism's own
    transitions lead to, [advance] uses up its 27 rounds, stops after an eviction, and
    leaves a physical CPU idle while [next] still recommends a dispatch onto it. *)
Theorem quantum_zero_stops_early :
  invariants_hold (snd busy) = true /\
  exists st, advance 100 busy = Done st 27 /\ occupant (snd st) 1 = None /\
    placeable (snd st) 0 7 1 /\ next (fst st) (snd st) 100 tt = Done tt (Run 0 7 1).
Proof.
  split; [vm_compute; reflexivity|]. eexists.
  split; [vm_compute; reflexivity|]. split_and!; vm_compute; try reflexivity. repeat split.
Qed.

(** Two vCPUs of two physical CPUs take turns sleeping; before each wake-up the sleeper gets
    the largest weight and the other one the least. *)
Definition reweigh (x y : Vcpu) (t : Ticks) : M Machine N :=
  mech (Sched.block 0 x t) ;! advance t ;!
  config (set_weight 0 x u32_max) ;! config (set_weight 0 y 1) ;!
  mech (wake 0 x) ;! advance t.
Definition reweighed : Machine :=
  state_after
    (mech (admit_vcpu 0 0) ;! mech (admit_vcpu 0 1) ;! advance 0 ;! advance 1 ;!
     reweigh 0 1 2 ;! reweigh 1 0 3 ;! reweigh 0 1 4 ;! reweigh 1 0 5)
    (new 1 2 10, Sched.new 1 2 2).

(** Offsets compound under reweighting until a share overflows: on a machine six ticks
    old, after four sleep, reweight, wake rounds none of which fails, the offset of a vCPU is
    within five of the largest 128-bit integer and the next [advance] panics. *)
Theorem reweighting_overflows :
  invariants_hold (snd reweighed) = true /\ offset_of (fst reweighed) 0 1 = u128_max - 5 /\
  advance 6 reweighed = Panic.
Proof. split_and!; vm_compute; reflexivity. Qed.

(** vCPU 1 joins at tick 100, at the floor; the two share one CPU until tick 150, and vCPU 1,
    served 140 ticks' worth when the other has 110, blocks and wakes. *)
Definition above_floor : Machine :=
  state_after (advance 100 ;! advance 110 ;! advance 150) sleeper.

(** A wake can drag a vCPU that is above the floor back down: blocking and waking at one
    instant lowers its service from 140 to the floor of 110, at no cost. *)
Theorem wake_lowers_service :
  exists st, (mech (Sched.block 0 1 150) ;! advance 150 ;! mech (wake 0 1) ;! advance 150) above_floor
      = Done st 0 /\
    service (share_of (fst above_floor) (snd above_floor) 0 0 150) = 110 /\
    service (share_of (fst above_floor) (snd above_floor) 0 1 150) = 140 /\
    service (share_of (fst st) (snd st) 0 1 150) = 110.
Proof. eexists. split; [vm_compute; reflexivity|]. split_and!; vm_compute; reflexivity. Qed.
