(* ===== verification/Evtchn.v ===== *)
(** * Event channels — [hv-core/src/evtchn.rs]

    Every domain's port table in one [System]; binding, closing, signalling, masking
    and consuming ports, the teardown sweeps, the queries the scheduler seam reads and
    the invariant check. *)

From Stdlib Require Import NArith Lia.
From stdpp Require Import base numbers list option.
From S2P Require Import Prelude.
#[local] Open Scope N_scope.

(** ** Data *)

Inductive PortState : Type :=
| Free
| Unbound (remote : DomId)
| Interdomain (remote : DomId) (remote_port : Port)
| VirqPort (vcpu : Vcpu) (virq : Virq)
| Ipi (vcpu : Vcpu).
#[global] Instance PortState_eq_dec : EqDecision PortState.
Proof. solve_decision. Defined.

Record EventChannel : Type := mkChan {
  state : PortState;
  pending : bool;
  masked : bool;
}.

(** [EventChannel::FREE]. *)
Definition FREE : EventChannel := mkChan Free false false.

(** A [Domain] is its [Vec] of ports. *)
Record System : Type := mkSystem { domains : list (list EventChannel) }.

Inductive EvtchnError : Type :=
| BadDomain
| BadPort
| NoFreePort
| WrongState
| VirqInUse.
#[global] Instance EvtchnError_eq_dec : EqDecision EvtchnError.
Proof. solve_decision. Defined.

Inductive Violation : Type :=
| FreePortHasSignal (dom port : N)
| ReciprocityBroken (dom port : N)
| UnboundGhostDomain (dom port : N)
| DuplicateVirq (dom port : N).

(** ** Internals and queries *)

Definition domain (s : System) (dom : DomId) : result EvtchnError (list EventChannel) :=
  ok_or (vget (domains s) dom) BadDomain.

Definition chan (s : System) (dom : DomId) (port : Port) : result EvtchnError EventChannel :=
  match domain s dom with
  | Ok d => ok_or (vget d port) BadPort
  | Err e => Err e
  end.

Definition find_free (s : System) (dom : DomId) : result EvtchnError Port :=
  match domain s dom with
  | Ok d =>
      ok_or (as_u32 <$> position (fun c => bool_decide (state c = Free)) d) NoFreePort
  | Err e => Err e
  end.

Definition chan_opt (s : System) (dom : DomId) (port : Port) : option EventChannel :=
  match chan s dom port with Ok c => Some c | Err _ => None end.

Definition state_of (s : System) (dom : DomId) (port : Port) : option PortState :=
  state <$> chan_opt s dom port.

Definition is_pending (s : System) (dom : DomId) (port : Port) : bool :=
  match chan s dom port with Ok c => pending c | Err _ => false end.

Definition is_masked (s : System) (dom : DomId) (port : Port) : bool :=
  match chan s dom port with Ok c => masked c | Err _ => false end.

Definition deliverable (s : System) (dom : DomId) (port : Port) : bool :=
  match chan s dom port with Ok c => pending c && negb (masked c) | Err _ => false end.

Definition notify_target (s : System) (dom : DomId) (port : Port) : option Vcpu :=
  match chan_opt s dom port with
  | Some c =>
      match state c with
      | VirqPort vcpu _ | Ipi vcpu => Some vcpu
      | Interdomain _ _ | Unbound _ => Some 0
      | Free => None
      end
  | None => None
  end.

Definition send_target (s : System) (dom : DomId) (port : Port) : option (DomId * Port) :=
  match chan_opt s dom port with
  | Some c =>
      match state c with
      | Interdomain remote remote_port => Some (remote, remote_port)
      | Ipi _ => Some (dom, port)
      | _ => None
      end
  | None => None
  end.

Definition domain_count (s : System) : N := vlen (domains s).
Definition port_count (s : System) (dom : DomId) : N :=
  match domain s dom with Ok d => vlen d | Err _ => 0 end.

Definition has_deliverable_for (s : System) (dom : DomId) (vcpu : Vcpu) : bool :=
  existsb (fun port =>
      deliverable s dom port && bool_decide (notify_target s dom port = Some vcpu))
    (vrange (as_u32 (port_count s dom))).

Definition any_unbound_into (s : System) (target : DomId) : bool :=
  existsb (fun dom =>
      existsb (fun port => bool_decide (state_of s dom port = Some (Unbound target)))
        (vrange (as_u32 (port_count s dom))))
    (vrange (as_u16 (domain_count s))).

(** [matches!(c.state, PortState::Virq { vcpu: v, virq: q } if v == vcpu && q == virq)]. *)
Definition is_virq (vcpu : Vcpu) (virq : Virq) (c : EventChannel) : bool :=
  match state c with
  | VirqPort v q => (v =? vcpu) && (q =? virq)
  | _ => false
  end.

(** ** The invariant check *)

Definition chan_violation (s : System) (d : N) (dom : list EventChannel) (p : N)
    (ec : EventChannel) : option Violation :=
  match state ec with
  | Free => if pending ec || masked ec then Some (FreePortHasSignal d p) else None
  | Interdomain remote remote_port =>
      let peer :=
        match vget (domains s) remote with
        | Some dd => state <$> vget dd remote_port
        | None => None
        end in
      if decide (peer = Some (Interdomain d p)) then None else Some (ReciprocityBroken d p)
  | Unbound remote =>
      if decide (vlen (domains s) <= remote) then Some (UnboundGhostDomain d p) else None
  | VirqPort vcpu virq =>
      if existsb (fun '(q, e) => negb (q =? p) && is_virq vcpu virq e) (enumerate dom)
      then Some (DuplicateVirq d p) else None
  | Ipi _ => None
  end.

Definition first_violation (s : System) : option Violation :=
  first_some (fun '(d, dom) =>
      first_some (fun '(p, ec) => chan_violation s d dom p ec) (enumerate dom))
    (enumerate (domains s)).

Definition invariants_hold (s : System) : bool :=
  match first_violation s with None => true | Some _ => false end.

Definition check_invariants : M System unit :=
  let! s := get in dbg_assert (invariants_hold s).

(** ** Transitions *)

Definition new (num_domains ports_per_domain : N) : System :=
  mkSystem (vrepeat num_domains (vrepeat ports_per_domain FREE)).

(** Writing through the reference [chan_mut] returns. *)
Definition set_chan (dom : DomId) (port : Port) (c : EventChannel) (s : System) : System :=
  mkSystem (tset (domains s) dom port c).

Definition with_state (st : PortState) (c : EventChannel) : EventChannel :=
  mkChan st (pending c) (masked c).

(** [self.chan_mut(dom, port).unwrap()] followed by a write. *)
Definition update_chan (dom : DomId) (port : Port) (f : EventChannel -> EventChannel) :
  M System unit :=
  let! s := get in
  let! c := unwrap (chan s dom port) in
  modify (set_chan dom port (f c)).

Definition alloc_unbound (dom remote : DomId) : M System (result EvtchnError Port) :=
  let! s := get in
  let? _ := lift (domain s remote) in
  let? port := lift (find_free s dom) in
  update_chan dom port (with_state (Unbound remote)) ;!
  check_invariants ;! ok port.

Definition bind_interdomain (dom remote : DomId) (remote_port : Port) :
  M System (result EvtchnError Port) :=
  let! s := get in
  let? peer := lift (chan s remote remote_port) in
  ensure (state peer = Unbound dom) WrongState ;?
  let? port := lift (find_free s dom) in
  update_chan dom port (fun _ => mkChan (Interdomain remote remote_port) false false) ;!
  update_chan remote remote_port (fun _ => mkChan (Interdomain dom port) false false) ;!
  check_invariants ;! ok port.

Definition bind_virq (dom : DomId) (vcpu : Vcpu) (virq : Virq) :
  M System (result EvtchnError Port) :=
  let! s := get in
  let? d := lift (domain s dom) in
  ensure (existsb (is_virq vcpu virq) d = false) VirqInUse ;?
  let? port := lift (find_free s dom) in
  update_chan dom port (with_state (VirqPort vcpu virq)) ;!
  check_invariants ;! ok port.

Definition bind_ipi (dom : DomId) (vcpu : Vcpu) : M System (result EvtchnError Port) :=
  let! s := get in
  let? port := lift (find_free s dom) in
  update_chan dom port (with_state (Ipi vcpu)) ;!
  check_invariants ;! ok port.

Definition close (dom : DomId) (port : Port) : M System (result EvtchnError unit) :=
  let! s := get in
  let? c := lift (chan s dom port) in
  match state c with
  | Free => err WrongState
  | Interdomain remote remote_port =>
      update_chan remote remote_port (fun _ => mkChan (Unbound dom) false false) ;! ok tt
  | _ => ok tt
  end ;?
  update_chan dom port (fun _ => FREE) ;!
  check_invariants ;! ok tt.

Definition send (dom : DomId) (port : Port) : M System (result EvtchnError unit) :=
  let! s := get in
  let? _ := lift (chan s dom port) in
  let? target := lift (ok_or (send_target s dom port) WrongState) in
  update_chan (fst target) (snd target) (fun c => mkChan (state c) true (masked c)) ;!
  check_invariants ;! ok tt.

Definition raise_virq (dom : DomId) (vcpu : Vcpu) (virq : Virq) :
  M System (result EvtchnError Port) :=
  let! s := get in
  let? d := lift (domain s dom) in
  let? i := lift (ok_or (position (is_virq vcpu virq) d) WrongState) in
  let port := as_u32 i in
  update_chan dom port (fun c => mkChan (state c) true (masked c)) ;!
  check_invariants ;! ok port.

Definition set_masked (dom : DomId) (port : Port) (value : bool) :
  M System (result EvtchnError unit) :=
  let! s := get in
  let? c := lift (chan s dom port) in
  ensure (state c <> Free) WrongState ;?
  modify (set_chan dom port (mkChan (state c) (pending c) value)) ;!
  check_invariants ;! ok tt.

Definition mask (dom : DomId) (port : Port) : M System (result EvtchnError unit) :=
  set_masked dom port true.

Definition unmask (dom : DomId) (port : Port) : M System (result EvtchnError unit) :=
  set_masked dom port false.

Definition consume (dom : DomId) (port : Port) : M System (result EvtchnError bool) :=
  let! s := get in
  let? c := lift (chan s dom port) in
  ensure (state c <> Free) WrongState ;?
  let was_pending := pending c in
  modify (set_chan dom port (mkChan (state c) false (masked c))) ;!
  check_invariants ;! ok was_pending.

(** *** Teardown *)

Definition close_all (dom : DomId) : M System unit :=
  let! s := get in
  for_each (vrange (as_u32 (port_count s dom))) (fun port =>
    let! s := get in
    if decide (state_of s dom port <> Some Free) then
      let! r := close dom port in dbg_assert (is_ok r)
    else ret tt).

Definition clear_unbound_into (target : DomId) : M System unit :=
  let! s := get in
  for_each (vrange (as_u16 (domain_count s))) (fun dom =>
    let! s := get in
    for_each (vrange (as_u32 (port_count s dom))) (fun port =>
      let! s := get in
      if decide (state_of s dom port = Some (Unbound target)) then
        update_chan dom port (fun _ => FREE)
      else ret tt)) ;!
  check_invariants.

(** ** Specification *)

(** Well-formedness of the ports: no stale signal on a free port, reciprocity of every
    interdomain link, no half-open port awaiting a ghost, no duplicate VIRQ binding. *)
Record Inv (s : System) : Prop := mkInv {
  inv_doms : vlen (domains s) <= u16_max;
  inv_ports : forall d, twidth (domains s) d <= u32_max;
  inv_free : forall d p c, tget (domains s) d p = Some c -> state c = Free -> c = FREE;
  inv_peer : forall d p c r q, tget (domains s) d p = Some c -> state c = Interdomain r q ->
    exists c', tget (domains s) r q = Some c' /\ state c' = Interdomain d p;
  inv_unbound : forall d p c r, tget (domains s) d p = Some c -> state c = Unbound r ->
    r < vlen (domains s);
  inv_virq : forall d p p' c c' v q, tget (domains s) d p = Some c ->
    tget (domains s) d p' = Some c' -> state c = VirqPort v q -> state c' = VirqPort v q ->
    p = p';
}.

Definition same_shape (s s' : System) : Prop :=
  domain_count s' = domain_count s /\ forall d, port_count s' d = port_count s d.

(** The port [(d, p)] now holds [c'], and no other port changed. *)
Definition step_at (d : DomId) (p : Port) (c' : EventChannel) (s s' : System) : Prop :=
  Inv s' /\ same_shape s s' /\
  forall d' p', chan_opt s' d' p' =
    if decide (d' = d /\ p' = p) then Some c' else chan_opt s d' p'.

(** The vCPU a delivered event on a port in state [st] is for. *)
Definition target_of (st : PortState) : option Vcpu :=
  match st with
  | VirqPort v _ | Ipi v => Some v
  | Interdomain _ _ | Unbound _ => Some 0
  | Free => None
  end.

(** ** Lemmas *)

Lemma chan_Ok s d p c : chan s d p = Ok c <-> tget (domains s) d p = Some c.
Proof.
  unfold chan, domain, tget. destruct (vget (domains s) d) as [r|]; simpl; [|naive_solver].
  destruct (vget r p); simpl; naive_solver.
Qed.

Lemma chan_opt_tget s d p : chan_opt s d p = tget (domains s) d p.
Proof.
  unfold chan_opt. destruct (chan s d p) as [c|e] eqn:E.
  - by apply chan_Ok in E.
  - destruct (tget (domains s) d p) as [c|] eqn:E'; [|done]. apply chan_Ok in E'. congruence.
Qed.

Lemma port_count_twidth s d : port_count s d = twidth (domains s) d.
Proof. unfold port_count, domain, twidth. by destruct (vget (domains s) d). Qed.

Lemma port_state_of_Some s d p st :
  state_of s d p = Some st <-> exists c, tget (domains s) d p = Some c /\ state c = st.
Proof.
  unfold state_of. rewrite chan_opt_tget. destruct (tget _ d p); simpl; naive_solver.
Qed.

Lemma deliverable_tget s d p :
  deliverable s d p = true <->
  exists c, tget (domains s) d p = Some c /\ pending c = true /\ masked c = false.
Proof.
  unfold deliverable. destruct (chan s d p) as [c|e] eqn:E.
  - apply chan_Ok in E. rewrite E, andb_true_iff, negb_true_iff. naive_solver.
  - split; [done|]. intros (c & Hc & _). apply chan_Ok in Hc. congruence.
Qed.

Lemma notify_target_tget s d p :
  notify_target s d p = match tget (domains s) d p with
                        | Some c => target_of (state c) | None => None end.
Proof. unfold notify_target. rewrite chan_opt_tget. by destruct (tget _ d p) as [[[]]|]. Qed.

(** What the scheduler seam asks: some port is deliverable for that vCPU. *)
Lemma has_deliverable_for_spec s d v :
  Inv s -> has_deliverable_for s d v = true <->
  exists p c, tget (domains s) d p = Some c /\ pending c = true /\ masked c = false /\
    target_of (state c) = Some v.
Proof.
  intros HI. unfold has_deliverable_for. rewrite existsb_elem.
  rewrite port_count_twidth, as_u32_id by apply HI. setoid_rewrite elem_vrange.
  setoid_rewrite andb_true_iff. setoid_rewrite deliverable_tget.
  setoid_rewrite bool_decide_eq_true. setoid_rewrite notify_target_tget. split.
  - intros (p & _ & (c & Hc & Hp & Hm) & Ht). exists p, c. by rewrite Hc in Ht.
  - intros (p & c & Hc & Hp & Hm & Ht). exists p. split; [by eapply tget_Some_lt|].
    rewrite Hc. eauto.
Qed.

Lemma any_unbound_into_spec s t :
  Inv s -> any_unbound_into s t = true <-> exists d p, state_of s d p = Some (Unbound t).
Proof.
  intros HI. unfold any_unbound_into, domain_count. rewrite existsb_elem.
  setoid_rewrite existsb_elem. setoid_rewrite bool_decide_eq_true.
  rewrite as_u16_id by apply HI. setoid_rewrite port_count_twidth.
  split; [naive_solver|]. intros (d & p & H). exists d.
  pose proof H as (c & Hc & _)%port_state_of_Some. apply tget_Some_lt in Hc as [Hd Hp].
  split; [by apply elem_vrange|]. exists p. split; [|done].
  rewrite as_u32_id by apply HI. by apply elem_vrange.
Qed.

(** The check finds no violation exactly when the invariant holds. *)
Lemma ev_first_violation_None s :
  vlen (domains s) <= u16_max -> (forall d, twidth (domains s) d <= u32_max) ->
  first_violation s = None <-> Inv s.
Proof.
  intros Hd Hp. unfold first_violation.
  rewrite (first_some_table_None (fun d dom p ec => chan_violation s d dom p ec)).
  assert (Hrow : forall d r p c, vget (domains s) d = Some r -> vget r p = Some c ->
    tget (domains s) d p = Some c) by (intros * Hr Hc; by rewrite (tget_row _ _ _ _ Hr)).
  split.
  - intros H.
    assert (Hv : forall d p c, tget (domains s) d p = Some c -> exists r,
      vget (domains s) d = Some r /\ vget r p = Some c /\ chan_violation s d r p c = None).
    { intros d p c Hc. unfold tget in Hc. destruct (vget (domains s) d) eqn:E; [|done]. eauto. }
    split; try done.
    + intros d p c Hc Hf. destruct (Hv d p c Hc) as (r & _ & _ & Hcv).
      unfold chan_violation in Hcv. rewrite Hf in Hcv. destruct c as [st pe ma]. simpl in *.
      subst. by destruct pe, ma.
    + intros d p c r q Hc Hs. destruct (Hv d p c Hc) as (w & _ & _ & Hcv).
      unfold chan_violation in Hcv. rewrite Hs in Hcv. case_decide as Hpeer; [|done].
      unfold tget. destruct (vget (domains s) r) as [dd|]; [|done].
      destruct (vget dd q) as [c'|]; [|done]. injection Hpeer. eauto.
    + intros d p c r Hc Hs. destruct (Hv d p c Hc) as (w & _ & _ & Hcv).
      unfold chan_violation in Hcv. rewrite Hs in Hcv. case_decide; [done|]. lia.
    + intros d p p' c c' v q Hc Hc' Hs Hs'. destruct (Hv d p c Hc) as (w & Hw & _ & Hcv).
      unfold chan_violation in Hcv. rewrite Hs in Hcv.
      destruct (existsb _ _) eqn:Hex; [done|]. rewrite existsb_false in Hex.
      rewrite (tget_row _ _ _ _ Hw) in Hc'. specialize (Hex (p', c')).
      rewrite elem_enumerate in Hex. specialize (Hex Hc'). unfold is_virq in Hex.
      rewrite Hs', !N.eqb_refl in Hex. simpl in Hex. rewrite andb_true_r in Hex.
      apply negb_false_iff, N.eqb_eq in Hex. done.
  - intros [_ _ Hfree Hpeer Hunb Hvirq] d r p c Hr Hc. unfold chan_violation.
    pose proof (Hrow _ _ _ _ Hr Hc) as Ht. destruct (state c) as [|rem|rem q|v q|v] eqn:Hs; try done.
    + by rewrite (Hfree _ _ _ Ht Hs).
    + pose proof (Hunb _ _ _ _ Ht Hs). by rewrite decide_False by lia.
    + destruct (Hpeer _ _ _ _ _ Ht Hs) as (c' & Hc' & Hs'). unfold tget in Hc'.
      destruct (vget (domains s) rem) as [dd|]; [|done]. rewrite Hc'. simpl.
      by rewrite Hs', decide_True.
    + destruct (existsb _ _) eqn:Hex; [|done]. exfalso.
      apply existsb_elem in Hex as ([p' c'] & He & Hb). apply elem_enumerate in He.
      apply andb_true_iff in Hb as [Hne Hb]. unfold is_virq in Hb.
      destruct (state c') as [| | |v' q'|] eqn:Hs'; try done.
      apply andb_true_iff in Hb as [->%N.eqb_eq ->%N.eqb_eq].
      rewrite (Hvirq d p p' c c' v q Ht (Hrow _ _ _ _ Hr He) Hs Hs') in Hne.
      by rewrite N.eqb_refl in Hne.
Qed.

Lemma ev_wp_check s (Q : System -> unit -> Prop) :
  Inv s -> Q s tt -> wp check_invariants Q s.
Proof.
  intros HI HQ. unfold check_invariants, invariants_hold. wp_auto. apply wp_dbg_assert; [|done].
  pose proof HI as [? ? _ _ _ _]. by rewrite (proj2 (ev_first_violation_None s ltac:(done)
    ltac:(done)) HI).
Qed.

Lemma ev_new_Inv n m : n <= u16_max -> m <= u32_max -> Inv (new n m).
Proof.
  intros Hn Hm. split; simpl.
  - by rewrite vlen_vrepeat.
  - intros d. pose proof (twidth_vrepeat n m FREE d). lia.
  - intros d p c. rewrite tget_vrepeat. case_decide; naive_solver.
  - intros d p c r q. rewrite tget_vrepeat. case_decide; [|done]. by intros [= <-].
  - intros d p c r. rewrite tget_vrepeat. case_decide; [|done]. by intros [= <-].
  - intros d p p' c c' v q. rewrite tget_vrepeat. case_decide; [|done]. by intros [= <-].
Qed.

Lemma find_free_Ok s d p :
  Inv s -> find_free s d = Ok p -> tget (domains s) d p = Some FREE.
Proof.
  intros HI. unfold find_free, domain. destruct (vget (domains s) d) as [r|] eqn:Hr; simpl; [|done].
  destruct (position _ r) as [i|] eqn:Hi; simpl; [|done]. intros [= <-].
  apply position_Some in Hi as [(c & Hc & Hf%bool_decide_eq_true) _].
  assert (Hi : i < twidth (domains s) d)
    by (unfold twidth; rewrite Hr; by eapply vget_Some_lt).
  pose proof (inv_ports s HI d). rewrite as_u32_id by lia.
  rewrite (tget_row _ _ _ _ Hr), Hc. f_equal. eapply inv_free; [done| |done].
  by rewrite (tget_row _ _ _ _ Hr).
Qed.

Lemma ev_same_shape_refl s : same_shape s s.
Proof. done. Qed.

Lemma ev_same_shape_trans s1 s2 s3 :
  same_shape s1 s2 -> same_shape s2 s3 -> same_shape s1 s3.
Proof. unfold same_shape. intros (? & ?) (? & ?). split_and?; congruence. Qed.

Lemma same_shape_chan s s' d p :
  same_shape s s' -> chan_opt s' d p = None <-> chan_opt s d p = None.
Proof.
  intros [_ Hp]. specialize (Hp d). rewrite !port_count_twidth in Hp.
  by rewrite !chan_opt_tget, !tget_None, Hp.
Qed.

Lemma set_chan_shape d p c s : same_shape s (set_chan d p c s).
Proof.
  unfold same_shape, domain_count. simpl. split; [by autorewrite with hv|].
  intros i. by rewrite !port_count_twidth; simpl; autorewrite with hv.
Qed.

Lemma wp_update_chan d p f c s (Q : System -> unit -> Prop) :
  tget (domains s) d p = Some c -> Q (set_chan d p (f c) s) tt -> wp (update_chan d p f) Q s.
Proof.
  intros Hc HQ. unfold update_chan. wp_auto. apply wp_unwrap. exists c.
  split; [by apply chan_Ok|]. by wp_auto.
Qed.

(** A port whose link structure does not change keeps the invariant: the new state is the
    old one, or neither end of the change is part of an interdomain link. *)
Definition relinks (s : System) (d : DomId) (p : Port) (c c' : EventChannel) : Prop :=
  (state c' = Free -> c' = FREE) /\
  (state c' = state c \/
   (forall r q, state c <> Interdomain r q) /\ (forall r q, state c' <> Interdomain r q) /\
   (forall r, state c' = Unbound r -> r < vlen (domains s)) /\
   (forall v q, state c' = VirqPort v q ->
      forall p' c'', tget (domains s) d p' = Some c'' -> state c'' <> VirqPort v q)).

Lemma ev_Inv_update s d p c c' :
  Inv s -> tget (domains s) d p = Some c -> relinks s d p c c' -> Inv (set_chan d p c' s).
Proof.
  intros [H1 H2 H3 H4 H5 H6] Hc [Hf Hch]. split; simpl; autorewrite with hv; try done.
  - intros i. autorewrite with hv. apply H2.
  - intros d' p' x. rewrite tget_tset. case_decide; naive_solver.
  - intros d' p' x r q. rewrite tget_tset. case_decide as Hd.
    + destruct Hd as (-> & -> & _). intros [= <-] Hs. destruct Hch as [He|(_ & Hn & _)]; [|naive_solver].
      rewrite He in Hs. destruct (H4 _ _ _ _ _ Hc Hs) as (y & Hy & Hys).
      rewrite tget_tset. case_decide as Hd; [|by exists y]. destruct Hd as (-> & -> & _).
      exists c'. split; [done|]. congruence.
    + intros Hx Hs. destruct (H4 _ _ _ _ _ Hx Hs) as (y & Hy & Hys).
      rewrite tget_tset. case_decide as Hd'; [|by exists y]. destruct Hd' as (-> & -> & _).
      exists c'. split; [done|]. destruct Hch as [->|(Hn & _)]; naive_solver.
  - intros d' p' x r. rewrite tget_tset. case_decide as Hd; [|naive_solver].
    destruct Hd as (-> & -> & _). intros [= <-]. destruct Hch as [->|(_ & _ & Hu & _)]; naive_solver.
  - intros e p1 p2 c1 c2 v q. rewrite !tget_tset. intros Hc1 Hc2 Hs1 Hs2.
    destruct (decide (e = d /\ p1 = p /\ p < twidth (domains s) d)) as [(E1 & E2 & _)|],
      (decide (e = d /\ p2 = p /\ p < twidth (domains s) d)) as [(E3 & E4 & _)|];
      simplify_eq; try done; [| |by eapply H6];
      (destruct Hch as [He|(_ & _ & _ & Hv)]; [try rewrite He in Hs1; try rewrite He in Hs2|]).
    + by eapply H6.
    + exfalso. by eapply Hv.
    + by eapply H6.
    + exfalso. by eapply Hv.
Qed.

Lemma ev_step_at_intro s d p c c' :
  tget (domains s) d p = Some c -> Inv (set_chan d p c' s) ->
  step_at d p c' s (set_chan d p c' s).
Proof.
  intros Hc HI. split; [done|]. split; [apply set_chan_shape|].
  intros d' p'. rewrite !chan_opt_tget. simpl. rewrite tget_tset.
  pose proof (tget_Some_lt _ _ _ _ Hc) as [_ Hw]. repeat case_decide; naive_solver.
Qed.

(** A single write to a port that keeps the invariant, then the check. *)
Lemma wp_write {E T} d p c f (x : T) s (Q : System -> result E T -> Prop) :
  Inv s -> tget (domains s) d p = Some c -> relinks s d p c (f c) ->
  (step_at d p (f c) s (set_chan d p (f c) s) -> Q (set_chan d p (f c) s) (Ok x)) ->
  wp (update_chan d p f ;! check_invariants ;! ok x) Q s.
Proof.
  intros HI Hc Hr HQ. assert (HI' := ev_Inv_update s d p c (f c) HI Hc Hr).
  wp_step. eapply wp_update_chan; [done|]. wp_step. apply ev_wp_check; [done|]. wp_step.
  apply HQ. by eapply ev_step_at_intro.
Qed.

Lemma relinks_same s d p c c' :
  Inv s -> tget (domains s) d p = Some c -> state c' = state c -> state c <> Free ->
  relinks s d p c c'.
Proof. intros HI Hc He Hf. split; [congruence|by left]. Qed.

(** *** Binding *)

Lemma wp_alloc_unbound d r s :
  Inv s -> wp (alloc_unbound d r) (fun s' res =>
    match res with
    | Ok p => r < domain_count s /\ chan_opt s d p = Some FREE /\
        step_at d p (mkChan (Unbound r) false false) s s'
    | Err _ => s' = s
    end) s.
Proof.
  intros HI. unfold alloc_unbound. wp_step. wp_step. wp_step. wp_step; [|done].
  wp_step. wp_step; [|done].
  match goal with H : find_free _ _ = Ok ?q |- _ => apply (find_free_Ok _ _ _ HI) in H as Hp end.
  assert (Hr : r < domain_count s).
  { unfold domain, ok_or in *. destruct (vget (domains s) r) eqn:E; [|done].
    by eapply vget_Some_lt. }
  eapply wp_write; [done|done| |].
  - split; [done|right]. split_and!; try done. simpl. by intros ? [= <-].
  - intros Hst. rewrite chan_opt_tget. done.
Qed.

Lemma wp_bind_ipi d v s :
  Inv s -> wp (bind_ipi d v) (fun s' res =>
    match res with
    | Ok p => chan_opt s d p = Some FREE /\ step_at d p (mkChan (Ipi v) false false) s s'
    | Err _ => s' = s
    end) s.
Proof.
  intros HI. unfold bind_ipi. wp_step. wp_step. wp_step. wp_step; [|done].
  match goal with H : find_free _ _ = Ok ?q |- _ => apply (find_free_Ok _ _ _ HI) in H as Hp end.
  eapply wp_write; [done|done| |].
  - split; [done|right]. by split_and!.
  - intros Hst. rewrite chan_opt_tget. done.
Qed.

Lemma wp_bind_virq d v q s :
  Inv s -> wp (bind_virq d v q) (fun s' res =>
    match res with
    | Ok p => chan_opt s d p = Some FREE /\ (forall p', state_of s d p' <> Some (VirqPort v q)) /\
        step_at d p (mkChan (VirqPort v q) false false) s s'
    | Err _ => s' = s
    end) s.
Proof.
  intros HI. unfold bind_virq. wp_step. wp_step. wp_step. wp_step; [|done].
  wp_step. wp_step; [|done]. wp_step. wp_step; [|done].
  match goal with H : find_free _ _ = Ok ?q |- _ => apply (find_free_Ok _ _ _ HI) in H as Hp end.
  assert (Hn : forall p' c, tget (domains s) d p' = Some c -> state c <> VirqPort v q).
  { intros p' c Hc Hs. unfold domain, ok_or in *.
    destruct (vget (domains s) d) as [row|] eqn:Hr; [|done]. simplify_eq.
    rewrite (tget_row _ _ _ _ Hr) in Hc. apply vget_elem in Hc.
    match goal with H : existsb _ _ = false |- _ =>
      pose proof (proj1 (existsb_false _ _) H c Hc) as Hb end.
    unfold is_virq in Hb. by rewrite Hs, !N.eqb_refl in Hb. }
  eapply wp_write; [done|done| |].
  - split; [done|right]. split_and!; try done. simpl. intros v' q' [= <- <-]. apply Hn.
  - intros Hst. rewrite chan_opt_tget. split_and!; [done| |done].
    intros p' Hs. apply port_state_of_Some in Hs as (c & Hc & Hs). by eapply Hn.
Qed.

(** Both ends of a new link, on a free port and on a port that waits for us. *)
Lemma ev_Inv_link s d p r q c :
  Inv s -> tget (domains s) d p = Some FREE -> tget (domains s) r q = Some c ->
  state c = Unbound d ->
  Inv (set_chan r q (mkChan (Interdomain d p) false false)
        (set_chan d p (mkChan (Interdomain r q) false false) s)).
Proof.
  intros [H1 H2 H3 H4 H5 H6] Hd Hr Hs.
  assert (Hne : ~ (r = d /\ q = p)) by (intros [-> ->]; rewrite Hd in Hr; by simplify_eq).
  pose proof (tget_Some_lt _ _ _ _ Hd) as [_ Hwd]. pose proof (tget_Some_lt _ _ _ _ Hr) as [_ Hwr].
  assert (Hl : forall e x, tget (tset (tset (domains s) d p (mkChan (Interdomain r q) false false))
      r q (mkChan (Interdomain d p) false false)) e x =
    if decide (e = r /\ x = q) then Some (mkChan (Interdomain d p) false false) else
    if decide (e = d /\ x = p) then Some (mkChan (Interdomain r q) false false) else
    tget (domains s) e x).
  { intros e x. rewrite !tget_tset, twidth_tset. repeat case_decide; naive_solver. }
  split; simpl; autorewrite with hv; try done.
  - intros i. autorewrite with hv. apply H2.
  - intros e x y. rewrite Hl. repeat case_decide; naive_solver.
  - intros e x y r' q'. rewrite Hl. intros Hy Hys. setoid_rewrite Hl.
    destruct (decide (e = r /\ x = q)) as [[-> ->]|].
    { simplify_eq/=. rewrite decide_False by naive_solver. rewrite decide_True by done. eauto. }
    destruct (decide (e = d /\ x = p)) as [[-> ->]|].
    { simplify_eq/=. rewrite decide_True by done. eauto. }
    destruct (H4 _ _ _ _ _ Hy Hys) as (z & Hz & Hzs).
    rewrite !decide_False; [eauto| |]; intros [-> ->]; rewrite Hz in *; simplify_eq; congruence.
  - intros e x y r'. rewrite Hl. repeat case_decide; naive_solver.
  - intros e x x' y y' v w. rewrite !Hl. repeat case_decide; naive_solver.
Qed.

Lemma wp_bind_interdomain d r q s :
  Inv s -> wp (bind_interdomain d r q) (fun s' res =>
    match res with
    | Ok p => state_of s r q = Some (Unbound d) /\ chan_opt s d p = Some FREE /\
        Inv s' /\ same_shape s s' /\
        forall d' p', chan_opt s' d' p' =
          if decide (d' = r /\ p' = q) then Some (mkChan (Interdomain d p) false false) else
          if decide (d' = d /\ p' = p) then Some (mkChan (Interdomain r q) false false) else
          chan_opt s d' p'
    | Err _ => s' = s
    end) s.
Proof.
  intros HI. unfold bind_interdomain. wp_step. wp_step. wp_step. wp_step; [|done].
  wp_step. wp_step; [|done]. wp_step. wp_step; [|done].
  match goal with H : find_free _ _ = Ok ?q |- _ =>
    apply (find_free_Ok _ _ _ HI) in H as Hp; rename q into p end.
  match goal with H : chan _ _ _ = Ok ?c |- _ => apply chan_Ok in H as Hr; rename c into peer end.
  assert (Hs2 := ev_Inv_link s d p r q peer HI Hp Hr ltac:(done)).
  assert (Hne : ~ (r = d /\ q = p)) by (intros [-> ->]; rewrite Hp in Hr; by simplify_eq).
  wp_step. eapply wp_update_chan; [done|]. wp_step. eapply wp_update_chan.
  { simpl. by rewrite tget_tset_ne. }
  wp_step. apply ev_wp_check; [done|]. wp_step.
  rewrite port_state_of_Some, chan_opt_tget. split_and!; [eauto|done|done| |].
  - eapply ev_same_shape_trans; apply set_chan_shape.
  - intros e x. rewrite !chan_opt_tget. simpl.
    pose proof (tget_Some_lt _ _ _ _ Hp) as [_ Hwd]. pose proof (tget_Some_lt _ _ _ _ Hr) as [_ Hwr].
    rewrite !tget_tset, twidth_tset. repeat case_decide; naive_solver.
Qed.

(** *** Closing *)

(** A closed link: our end is free, the peer's end is half-open again. *)
Lemma ev_Inv_unlink s d p r q c :
  Inv s -> tget (domains s) d p = Some c -> state c = Interdomain r q ->
  Inv (set_chan d p FREE (set_chan r q (mkChan (Unbound d) false false) s)).
Proof.
  intros [H1 H2 H3 H4 H5 H6] Hd Hs.
  destruct (H4 _ _ _ _ _ Hd Hs) as (c' & Hr & Hs').
  pose proof (tget_Some_lt _ _ _ _ Hd) as [Hld Hwd]. pose proof (tget_Some_lt _ _ _ _ Hr) as [_ Hwr].
  assert (Hl : forall e x, tget (tset (tset (domains s) r q (mkChan (Unbound d) false false))
      d p FREE) e x =
    if decide (e = d /\ x = p) then Some FREE else
    if decide (e = r /\ x = q) then Some (mkChan (Unbound d) false false) else
    tget (domains s) e x).
  { intros e x. rewrite !tget_tset, twidth_tset. repeat case_decide; naive_solver. }
  split; simpl; autorewrite with hv; try done.
  - intros i. autorewrite with hv. apply H2.
  - intros e x y. rewrite Hl. repeat case_decide; naive_solver.
  - intros e x y r' q'. rewrite Hl. intros Hy Hys. setoid_rewrite Hl.
    destruct (decide (e = d /\ x = p)) as [|Hn1]; [by simplify_eq/=|].
    destruct (decide (e = r /\ x = q)) as [|Hn2]; [by simplify_eq/=|].
    destruct (H4 _ _ _ _ _ Hy Hys) as (z & Hz & Hzs).
    rewrite !decide_False; [eauto| |]; intros [-> ->]; rewrite Hz in *; simplify_eq;
      [apply Hn1|apply Hn2]; split; congruence.
  - intros e x y r'. rewrite Hl. repeat case_decide; naive_solver.
  - intros e x x' y y' v w. rewrite !Hl. repeat case_decide; naive_solver.
Qed.

Lemma wp_close d p s :
  Inv s -> wp (close d p) (fun s' res =>
    match res with
    | Ok _ => exists c, chan_opt s d p = Some c /\ state c <> Free /\ Inv s' /\ same_shape s s' /\
        forall d' p', chan_opt s' d' p' =
          if decide (d' = d /\ p' = p) then Some FREE else
          if decide (state c = Interdomain d' p') then Some (mkChan (Unbound d) false false) else
          chan_opt s d' p'
    | Err _ => s' = s /\ (state_of s d p = None \/ state_of s d p = Some Free)
    end) s.
Proof.
  intros HI. unfold close. wp_step. wp_step. wp_step. wp_step.
  2: { split; [done|left]. unfold state_of, chan_opt.
       by match goal with H : chan _ _ _ = Err _ |- _ => rewrite H end. }
  match goal with H : chan _ _ _ = Ok ?x |- _ => apply chan_Ok in H as Hc; rename x into c end.
  pose proof (tget_Some_lt _ _ _ _ Hc) as [_ Hwd].
  assert (Hsimple : (forall r q, state c <> Interdomain r q) -> state c <> Free ->
    wp (update_chan d p (fun _ => FREE) ;! check_invariants ;! ok tt) (fun s' res =>
      match res : result EvtchnError unit with
      | Ok _ => exists c, chan_opt s d p = Some c /\ state c <> Free /\ Inv s' /\ same_shape s s' /\
        forall d' p', chan_opt s' d' p' =
          if decide (d' = d /\ p' = p) then Some FREE else
          if decide (state c = Interdomain d' p') then Some (mkChan (Unbound d) false false) else
          chan_opt s d' p'
      | Err _ => s' = s /\ (state_of s d p = None \/ state_of s d p = Some Free)
      end) s).
  { intros Hn Hf. eapply wp_write; [done|done| |].
    - split; [done|right]. by split_and!.
    - intros (HI' & Hsh & Hl). exists c. rewrite chan_opt_tget. split_and!; try done.
      intros d' p'. rewrite Hl, chan_opt_tget. case_decide; [done|].
      by rewrite decide_False by apply Hn. }
  wp_step. destruct (state c) as [|r|r q|v q|v] eqn:Hs; cbn beta iota.
  - wp_step. split; [done|right]. apply port_state_of_Some. eauto.
  - wp_step. by apply Hsimple.
  - wp_step. destruct (inv_peer s HI _ _ _ _ _ Hc Hs) as (c' & Hr & Hs').
    assert (Hfin := ev_Inv_unlink s d p r q c HI Hc Hs).
    eapply wp_update_chan; [done|]. wp_step.
    assert (exists c1, tget (domains (set_chan r q (mkChan (Unbound d) false false) s)) d p = Some c1)
      as [c1 Hc1] by (apply tget_lt_Some; simpl; by rewrite twidth_tset).
    wp_step. eapply wp_update_chan; [done|]. wp_step. apply ev_wp_check; [done|]. wp_step.
    exists c. rewrite chan_opt_tget, Hs. split_and!; try done.
    + eapply ev_same_shape_trans; apply set_chan_shape.
    + intros e x. rewrite !chan_opt_tget. simpl. rewrite !tget_tset, !twidth_tset.
      pose proof (tget_Some_lt _ _ _ _ Hr) as [_ Hwr]. repeat case_decide; naive_solver.
  - wp_step. by apply Hsimple.
  - wp_step. by apply Hsimple.
Qed.

(** *** Signalling *)

Lemma send_target_Inv s d p t :
  Inv s -> send_target s d p = Some t ->
  exists c, tget (domains s) (fst t) (snd t) = Some c /\ state c <> Free.
Proof.
  intros HI. unfold send_target. rewrite chan_opt_tget.
  destruct (tget (domains s) d p) as [c|] eqn:Hc; [|done].
  destruct (state c) as [|r|r q|v q|v] eqn:Hs; try done; intros [= <-]; simpl.
  - destruct (inv_peer s HI _ _ _ _ _ Hc Hs) as (c' & Hc' & Hs'). exists c'. by rewrite Hs'.
  - exists c. by rewrite Hs.
Qed.

Lemma wp_send d p s :
  Inv s -> wp (send d p) (fun s' res =>
    match res with
    | Ok _ => exists d' p' c, send_target s d p = Some (d', p') /\ chan_opt s d' p' = Some c /\
        step_at d' p' (mkChan (state c) true (masked c)) s s'
    | Err _ => s' = s /\ send_target s d p = None
    end) s.
Proof.
  intros HI. unfold send. wp_step. wp_step. wp_step. wp_step.
  2: { split; [done|]. unfold send_target, chan_opt.
       by match goal with H : chan _ _ _ = Err _ |- _ => rewrite H end. }
  wp_step. wp_step; [|done].
  match goal with H : send_target _ _ _ = Some ?t |- _ => rename H into Ht; destruct t as [d' p'] end.
  destruct (send_target_Inv s d p _ HI Ht) as (c & Hc & Hf). simpl in *.
  eapply wp_write; [done|done| |].
  - by apply relinks_same.
  - intros Hst. exists d', p', c. by rewrite chan_opt_tget.
Qed.

Lemma is_virq_true v q c : is_virq v q c = true <-> state c = VirqPort v q.
Proof.
  unfold is_virq. destruct (state c); try naive_solver.
  rewrite andb_true_iff, !N.eqb_eq. naive_solver.
Qed.

Lemma wp_raise_virq d v q s :
  Inv s -> wp (raise_virq d v q) (fun s' res =>
    match res with
    | Ok p => exists c, chan_opt s d p = Some c /\ state c = VirqPort v q /\
        step_at d p (mkChan (state c) true (masked c)) s s'
    | Err _ => s' = s
    end) s.
Proof.
  intros HI. unfold raise_virq. wp_step. wp_step. wp_step. wp_step; [|done].
  wp_step. wp_step; [|done].
  match goal with H : domain _ _ = Ok ?r |- _ => rename H into Hr, r into row end.
  match goal with H : position _ _ = Some ?r |- _ => rename H into Hi, r into i end.
  unfold domain, ok_or in Hr. destruct (vget (domains s) d) as [w|] eqn:Hw; simplify_eq.
  apply position_Some in Hi as [(c & Hc & Hv%is_virq_true) _].
  assert (Hi : i < twidth (domains s) d) by (unfold twidth; rewrite Hw; by eapply vget_Some_lt).
  pose proof (inv_ports s HI d). rewrite as_u32_id by lia.
  assert (Ht : tget (domains s) d i = Some c) by (by rewrite (tget_row _ _ _ _ Hw)).
  eapply wp_write; [done|done| |].
  - apply relinks_same; try done. by rewrite Hv.
  - intros Hst. exists c. by rewrite chan_opt_tget.
Qed.

(** [set_masked] and [consume] rewrite one signal bit of a bound port. *)
Lemma wp_set_masked d p b s :
  Inv s -> wp (set_masked d p b) (fun s' res =>
    match res with
    | Ok _ => exists c, chan_opt s d p = Some c /\ state c <> Free /\
        step_at d p (mkChan (state c) (pending c) b) s s'
    | Err _ => s' = s
    end) s.
Proof.
  intros HI. unfold set_masked. wp_step. wp_step. wp_step. wp_step; [|done].
  wp_step. wp_step; [|done]. match goal with H : chan _ _ _ = Ok ?x |- _ =>
    apply chan_Ok in H as Hc; rename x into c end.
  assert (HI' : Inv (set_chan d p (mkChan (state c) (pending c) b) s))
    by (eapply ev_Inv_update; [done..|]; by apply relinks_same).
  wp_step. wp_step. wp_step. apply ev_wp_check; [done|]. wp_step. exists c.
  rewrite chan_opt_tget. split_and!; [done..|]. by eapply ev_step_at_intro.
Qed.

Lemma wp_consume d p s :
  Inv s -> wp (consume d p) (fun s' res =>
    match res with
    | Ok b => exists c, chan_opt s d p = Some c /\ state c <> Free /\ b = pending c /\
        step_at d p (mkChan (state c) false (masked c)) s s'
    | Err _ => s' = s /\ (state_of s d p = None \/ state_of s d p = Some Free)
    end) s.
Proof.
  intros HI. unfold consume. wp_step. wp_step. wp_step. wp_step.
  2: { split; [done|left]. unfold state_of, chan_opt.
    by match goal with H : chan _ _ _ = Err _ |- _ => rewrite H end. }
  match goal with H : chan _ _ _ = Ok ?x |- _ => pose proof H as Hok end.
  wp_step. wp_step.
  2: { split; [done|right]. unfold state_of, chan_opt. rewrite Hok. simpl. f_equal.
    by apply dec_stable. }
  match goal with H : chan _ _ _ = Ok ?x |- _ =>
    apply chan_Ok in H as Hc; rename x into c end.
  assert (HI' : Inv (set_chan d p (mkChan (state c) false (masked c)) s))
    by (eapply ev_Inv_update; [done..|]; by apply relinks_same).
  wp_step. wp_step. wp_step. apply ev_wp_check; [done|]. wp_step. exists c.
  rewrite chan_opt_tget. split_and!; [done..|]. by eapply ev_step_at_intro.
Qed.

(** *** Teardown *)

(** No port became deliverable: a changed port carries no signal that could be delivered. *)
Definition quieter (s s' : System) : Prop :=
  forall d p, chan_opt s' d p = chan_opt s d p \/
    exists c, chan_opt s' d p = Some c /\ pending c && negb (masked c) = false.

Lemma quieter_has_deliverable s s' d v :
  Inv s -> Inv s' -> quieter s s' ->
  has_deliverable_for s' d v = true -> has_deliverable_for s d v = true.
Proof.
  intros HI HI' Hq. rewrite !has_deliverable_for_spec by done.
  intros (p & c & Hc & Hp & Hm & Ht). exists p, c. split; [|done].
  rewrite <- chan_opt_tget in *. destruct (Hq d p) as [<-|(c' & Hc' & Hp')]; [done|].
  rewrite Hc in Hc'. injection Hc' as <-. by rewrite Hp, Hm in Hp'.
Qed.

(** What closing all of [d]'s ports does to a port of another domain. *)
Definition unlink_from (d : DomId) (c : EventChannel) : EventChannel :=
  match state c with
  | Interdomain r _ => if decide (r = d) then mkChan (Unbound d) false false else c
  | _ => c
  end.

Lemma vget_port_lt s d p c :
  Inv s -> chan_opt s d p = Some c -> p ∈ vrange (as_u32 (port_count s d)).
Proof.
  intros HI Hc. rewrite chan_opt_tget in Hc. apply elem_vrange.
  rewrite port_count_twidth, as_u32_id by apply HI. by eapply tget_Some_lt.
Qed.

Lemma wp_close_all d s :
  Inv s -> wp (close_all d) (fun s' _ =>
    Inv s' /\ same_shape s s' /\
    (forall p c, chan_opt s' d p = Some c -> c = FREE) /\
    (forall e p, e <> d -> chan_opt s' e p = unlink_from d <$> chan_opt s e p)) s.
Proof.
  intros HI. unfold close_all. wp_step. wp_step.
  apply wp_for_each with (I := fun done s' => Inv s' /\ same_shape s s' /\
    (forall p c, p ∈ done -> chan_opt s' d p = Some c -> c = FREE) /\
    (forall e p, e <> d -> chan_opt s' e p = chan_opt s e p \/
       chan_opt s' e p = unlink_from d <$> chan_opt s e p)).
  - split_and!; [done..| |by left]. intros p c Hp. by apply elem_of_nil in Hp.
  - intros l1 p l2 s1 Hl (HI1 & Hsh & Hfree & Hoth). wp_step. wp_step. case_decide as Hst.
    + wp_step. wp_apply wp_close; [done|]. intros s2 [[]|e]; cbn beta iota.
      * intros (c & Hc & Hcf & HI2 & Hsh2 & Hl2). apply wp_dbg_assert; [done|].
        split_and!; [done|by eapply ev_same_shape_trans| |].
        -- intros p' c' Hp'. rewrite Hl2. case_decide as E1; [by intros [= <-]|].
           apply elem_of_app in Hp' as [Hp'| ->%list_elem_of_singleton]; [|naive_solver].
           case_decide as E2; [|by apply Hfree]. exfalso. rewrite chan_opt_tget in Hc.
           destruct (inv_peer s1 HI1 _ _ _ _ _ Hc E2) as (c2 & Hc2 & Hs2).
           rewrite <- chan_opt_tget in Hc2. apply Hfree in Hc2 as ->; done.
        -- intros e x He. rewrite Hl2, decide_False by naive_solver.
           case_decide as E2; [|by apply Hoth]. rewrite chan_opt_tget in Hc.
           destruct (inv_peer s1 HI1 _ _ _ _ _ Hc E2) as (c2 & Hc2 & Hs2).
           rewrite <- chan_opt_tget in Hc2. right.
           destruct (Hoth e x He) as [Heq|Heq]; rewrite Heq in Hc2.
           ++ rewrite Hc2. simpl. unfold unlink_from. by rewrite Hs2, decide_True.
           ++ exfalso. destruct (chan_opt s e x) as [c0|]; [|done]. simplify_eq/=.
              unfold unlink_from in Hs2. destruct (state c0) eqn:E0; try congruence.
              case_decide; [done|]. congruence.
      * intros [ -> [Hn|Hn] ]; [|done]. exfalso. unfold state_of in Hn.
        destruct Hsh as (_ & Hw). specialize (Hw d). rewrite !port_count_twidth in Hw.
        assert (Hp : p ∈ vrange (as_u32 (port_count s d)))
          by (rewrite Hl; apply elem_of_app; right; by left).
        apply elem_vrange in Hp. pose proof (inv_ports s HI d).
        rewrite port_count_twidth, as_u32_id in Hp by done.
        destruct (tget_lt_Some (domains s1) d p) as [c Hc]; [by rewrite Hw|].
        rewrite chan_opt_tget, Hc in Hn. done.
    + wp_step. split_and!; [done..| |done]. intros p' c' Hp' Hc'.
      apply elem_of_app in Hp' as [?| ->%list_elem_of_singleton]; [by eapply Hfree|].
      unfold state_of in Hst. rewrite Hc' in Hst. rewrite chan_opt_tget in Hc'.
      eapply inv_free; [done|done|]. by simplify_eq/=.
  - intros s' (HI' & Hsh & Hfree & Hoth).
    assert (Hall : forall p c, chan_opt s' d p = Some c -> c = FREE).
    { intros p c Hc. apply (Hfree p); [|done]. destruct Hsh as (_ & Hw). rewrite <- Hw.
      by eapply vget_port_lt. }
    split_and!; [done..|]. intros e p He. destruct (Hoth e p He) as [Heq|]; [|done].
    rewrite Heq. destruct (chan_opt s e p) as [c|] eqn:Hc; [|done]. simpl. f_equal.
    unfold unlink_from. destruct (state c) as [| |r q| |] eqn:Hs; try done.
    case_decide; [|done]. subst r. exfalso. rewrite chan_opt_tget in Heq.
    destruct (inv_peer s' HI' _ _ _ _ _ Heq Hs) as (c2 & Hc2 & Hs2).
    rewrite <- chan_opt_tget in Hc2. apply Hall in Hc2 as ->. done.
Qed.

Definition clear_unbound (t : DomId) (c : EventChannel) : EventChannel :=
  if decide (state c = Unbound t) then FREE else c.

Lemma clear_unbound_idem t c : clear_unbound t (clear_unbound t c) = clear_unbound t c.
Proof.
  unfold clear_unbound. destruct (decide (state c = Unbound t)) as [|n]; [done|].
  by rewrite decide_False.
Qed.

(** One step of the sweep: the port is cleared. *)
Lemma wp_clear_port t d p s (Q : System -> unit -> Prop) :
  Inv s ->
  (forall s', Inv s' -> same_shape s s' ->
    (forall e x, chan_opt s' e x =
      if decide (e = d /\ x = p) then clear_unbound t <$> chan_opt s e x else chan_opt s e x) ->
    Q s' tt) ->
  wp (let! s := get in
      if decide (state_of s d p = Some (Unbound t)) then update_chan d p (fun _ => FREE)
      else ret tt) Q s.
Proof.
  intros HI HQ. wp_step. wp_step. case_decide as Hst.
  - apply port_state_of_Some in Hst as (c & Hc & Hs).
    assert (HI' : Inv (set_chan d p FREE s)).
    { eapply ev_Inv_update; [done..|]. split; [done|right]. rewrite Hs. by split_and!. }
    eapply wp_update_chan; [done|]. destruct (ev_step_at_intro s d p c FREE Hc HI') as (_ & Hsh & Hl).
    apply HQ; [done..|]. intros e x. rewrite Hl. case_decide as He; [|done].
    destruct He as [-> ->]. rewrite chan_opt_tget, Hc. simpl. f_equal.
    unfold clear_unbound. by rewrite decide_True.
  - wp_step. apply HQ; [done..|]. intros e x. case_decide as He; [|done].
    destruct He as [-> ->]. unfold state_of in Hst. destruct (chan_opt s d p) as [c|]; [|done].
    simpl in *. f_equal. unfold clear_unbound. rewrite decide_False by congruence. done.
Qed.

(** The sweep frees exactly the ports that wait for the target. *)
Lemma wp_clear_unbound_into t s :
  Inv s -> wp (clear_unbound_into t) (fun s' _ =>
    Inv s' /\ same_shape s s' /\
    (forall e p, chan_opt s' e p = clear_unbound t <$> chan_opt s e p)) s.
Proof.
  intros HI. unfold clear_unbound_into. wp_step. wp_step. wp_step.
  pose (mid := fun s1 => Inv s1 /\ same_shape s s1 /\ forall e x,
    chan_opt s1 e x = chan_opt s e x \/ chan_opt s1 e x = clear_unbound t <$> chan_opt s e x).
  pose (exact := fun s1 e x => chan_opt s1 e x = clear_unbound t <$> chan_opt s e x).
  assert (Hkeep : forall s1 s2 d p, mid s1 -> Inv s2 -> same_shape s1 s2 ->
    (forall e x, chan_opt s2 e x =
      if decide (e = d /\ x = p) then clear_unbound t <$> chan_opt s1 e x
      else chan_opt s1 e x) ->
    mid s2 /\ exact s2 d p /\ forall e x, exact s1 e x -> exact s2 e x).
  { intros s1 s2 d p (_ & Hsh & Hm) HI2 Hsh2 Hl.
    assert (Hcl : forall e x, clear_unbound t <$> chan_opt s1 e x =
                              clear_unbound t <$> chan_opt s e x).
    { intros e x. destruct (Hm e x) as [->| ->]; [done|]. rewrite <- option_fmap_compose.
      destruct (chan_opt s e x); [|done]. simpl. f_equal. apply clear_unbound_idem. }
    split_and!; unfold exact.
    - split_and!; [done|by eapply ev_same_shape_trans|]. intros e x. rewrite Hl.
      case_decide; [right; apply Hcl|apply Hm].
    - rewrite Hl, decide_True by done. apply Hcl.
    - intros e x He. rewrite Hl. case_decide; [apply Hcl|done]. }
  apply wp_for_each with (I := fun done s1 => mid s1 /\ forall e x, e ∈ done -> exact s1 e x).
  - split; [|intros e x He; by apply elem_of_nil in He]. split_and!; [done..|by left].
  - intros l1 d l2 s1 Hl (Hmid & Hex). wp_step. wp_step.
    apply wp_for_each with (I := fun done s2 => (mid s2 /\ forall e x, e ∈ l1 -> exact s2 e x) /\
      forall x, x ∈ done -> exact s2 d x).
    + split; [done|]. intros x Hx. by apply elem_of_nil in Hx.
    + intros k1 p k2 s2 Hk ((Hmid2 & Hex2) & Hrow). apply wp_clear_port; [apply Hmid2|].
      intros s3 HI3 Hsh3 Hl3. destruct (Hkeep s2 s3 d p Hmid2 HI3 Hsh3 Hl3) as (? & ? & ?).
      split; [split; [done|]; auto|]. intros x Hx.
      apply elem_of_app in Hx as [?| ->%list_elem_of_singleton]; auto.
    + intros s2 ((Hmid2 & Hex2) & Hrow). split; [done|]. intros e x He.
      apply elem_of_app in He as [?| ->%list_elem_of_singleton]; [auto|].
      destruct Hmid as (HI1 & Hsh1 & _). destruct Hmid2 as (HI2 & Hsh2 & Hm2).
      destruct (chan_opt s2 d x) as [c|] eqn:Hc.
      * apply Hrow. destruct Hsh1 as [_ Hw1], Hsh2 as [_ Hw2].
        rewrite Hw1, <- Hw2. by eapply vget_port_lt.
      * unfold exact. destruct (Hm2 d x) as [He2|He2]; rewrite He2 in *; [|done].
        by rewrite Hc.
  - intros s1 ((HI1 & Hsh & Hm) & Hex). apply ev_wp_check; [done|]. split_and!; [done..|].
    intros e x. destruct (chan_opt s1 e x) as [c|] eqn:Hc.
    + rewrite <- Hc. apply Hex. apply elem_vrange. destruct Hsh as [Hn _].
      rewrite as_u16_id by apply HI. rewrite <- Hn. unfold domain_count.
      rewrite chan_opt_tget in Hc. by eapply tget_Some_lt.
    + destruct (Hm e x) as [He|He]; rewrite He in Hc; [by rewrite Hc|by rewrite <- Hc].
Qed.

(** ** Properties *)

(** Two channel tables of one shape with equal ports are the same table. *)
Lemma chan_ext s s' :
  same_shape s s' -> (forall d p, chan_opt s' d p = chan_opt s d p) -> domains s' = domains s.
Proof.
  intros [Hd _] H. unfold domain_count in Hd. apply vget_ext. intros d.
  destruct (decide (d < vlen (domains s))) as [Hlt|Hge].
  - destruct (vget_lt_Some _ _ Hlt) as [r Hr]. rewrite <- Hd in Hlt.
    destruct (vget_lt_Some _ _ Hlt) as [r' Hr']. rewrite Hr, Hr'. f_equal. apply vget_ext.
    intros p. specialize (H d p). rewrite !chan_opt_tget in H.
    by rewrite !(tget_row _ _ _ _ Hr), !(tget_row _ _ _ _ Hr') in H.
  - rewrite !(proj2 (vget_None _ _)); [done|lia..].
Qed.

Lemma Done_wp {S T} (m : M S T) (Q : S -> T -> Prop) s s' x :
  m s = Done s' x -> wp m Q s -> Q s' x.
Proof. unfold wp. by intros ->. Qed.

(** The runtime check of the event channels decides the invariant: it reports no
    violation exactly when every peer link is mutual, every free port is blank, every
    promised remote exists and no virtual interrupt of a vCPU is bound twice. *)
Theorem evtchn_check_decides (s : System) :
  vlen (domains s) <= u16_max -> (forall d, twidth (domains s) d <= u32_max) ->
  (invariants_hold s = true <-> Inv s).
Proof.
  intros H1 H2. rewrite <- (ev_first_violation_None s H1 H2). unfold invariants_hold.
  destruct (first_violation s); split; done.
Qed.

Theorem evtchn_check_decides_witness : invariants_hold (new 2 3) = true <-> Inv (new 2 3).
Proof.
  refine (evtchn_check_decides (new 2 3) _ _).
  - vm_compute. discriminate.
  - intros d. refine (N.le_trans _ 3 _ (twidth_vrepeat 2 3 FREE d) _). vm_compute. discriminate.
Defined.

(** An interdomain channel, from end to end: a port [a] opens for [b] and [b] binds to
    give two ports that signal each other and no other; closing one end returns the other
    to waiting for [b]'s domain, and closing that one restores the channel table as it was
    before. *)
Theorem channel_roundtrip (s s1 s2 : System) (a b : DomId) (p q : Port) :
  Inv s -> alloc_unbound a b s = Done s1 (Ok p) -> bind_interdomain b a p s1 = Done s2 (Ok q) ->
  send_target s2 b q = Some (a, p) /\ send_target s2 a p = Some (b, q) /\
  exists s3 s4, close b q s2 = Done s3 (Ok tt) /\ state_of s3 a p = Some (Unbound b) /\
    close a p s3 = Done s4 (Ok tt) /\ domains s4 = domains s.
Proof.
  intros HI E1 E2. pose proof (Done_wp _ _ _ _ _ E1 (wp_alloc_unbound a b s HI)) as H1.
  cbn beta iota in H1. destruct H1 as (_ & Hp & HI1 & Hsh1 & Hl1).
  pose proof (Done_wp _ _ _ _ _ E2 (wp_bind_interdomain b a p s1 HI1)) as H2.
  cbn beta iota in H2. destruct H2 as (_ & Hq & HI2 & Hsh2 & Hl2).
  assert (Hqs : chan_opt s b q = Some FREE /\ ~ (b = a /\ q = p)).
  { rewrite Hl1 in Hq. case_decide as Hc; [done|]. done. }
  destruct Hqs as [Hqs Hne].
  assert (Hb : chan_opt s2 b q = Some (mkChan (Interdomain a p) false false))
    by (rewrite Hl2, decide_False, decide_True; done).
  assert (Ha : chan_opt s2 a p = Some (mkChan (Interdomain b q) false false))
    by (rewrite Hl2, decide_True; done).
  split_and!; [unfold send_target; by rewrite Hb|unfold send_target; by rewrite Ha|].
  destruct (wp_Done _ _ _ (wp_close b q s2 HI2)) as (s3 & [[]|e] & E3 & H3).
  2: { exfalso. unfold state_of in H3. rewrite Hb in H3. by destruct H3 as [_ [?|?] ]. }
  destruct H3 as (c & Hc & _ & HI3 & Hsh3 & Hl3). rewrite Hb in Hc. injection Hc as <-.
  assert (Ha3 : chan_opt s3 a p = Some (mkChan (Unbound b) false false)).
  { rewrite Hl3, decide_False, decide_True; [done..|]. intros [-> ->]. by apply Hne. }
  destruct (wp_Done _ _ _ (wp_close a p s3 HI3)) as (s4 & [[]|e] & E4 & H4).
  2: { exfalso. unfold state_of in H4. rewrite Ha3 in H4. by destruct H4 as [_ [?|?] ]. }
  destruct H4 as (c & Hc & _ & HI4 & Hsh4 & Hl4). rewrite Ha3 in Hc. injection Hc as <-.
  exists s3, s4. split_and!; [done|unfold state_of; by rewrite Ha3|done|].
  apply chan_ext; [eauto using ev_same_shape_trans|]. intros d x. rewrite Hl4. case_decide as D1.
  { destruct D1 as [-> ->]. by rewrite Hp. }
  rewrite decide_False by done. rewrite Hl3. case_decide as D2.
  { destruct D2 as [-> ->]. by rewrite Hqs. }
  rewrite decide_False by (intros [= <- <-]; by apply D1). rewrite Hl2, !decide_False by done.
  by rewrite Hl1, decide_False.
Qed.

Theorem channel_roundtrip_witness :
  exists s1 s2, alloc_unbound 0 1 (new 2 3) = Done s1 (Ok 0) /\
    bind_interdomain 1 0 0 s1 = Done s2 (Ok 0) /\ send_target s2 1 0 = Some (0, 0).
Proof.
  eexists _, _. split; [vm_compute; reflexivity|]. split; [vm_compute; reflexivity|].
  refine (proj1 (channel_roundtrip (new 2 3) _ _ 0 1 0 0 _ _ _));
    [apply ev_new_Inv; vm_compute; discriminate|vm_compute; reflexivity..].
Defined.

(** No signal is lost and none is counted twice: a send marks exactly the peer port
    pending and keeps its mask; sending again changes nothing; the receiver's [consume]
    reads the mark once and clears it. *)
Theorem send_consume (s s1 : System) (d : DomId) (p : Port) :
  Inv s -> send d p s = Done s1 (Ok tt) ->
  exists d' p' c, send_target s d p = Some (d', p') /\ chan_opt s d' p' = Some c /\
    (forall e x, chan_opt s1 e x = if decide (e = d' /\ x = p')
       then Some (mkChan (state c) true (masked c)) else chan_opt s e x) /\
    (exists s2, send d p s1 = Done s2 (Ok tt) /\ domains s2 = domains s1) /\
    exists s2 s3, consume d' p' s1 = Done s2 (Ok true) /\ consume d' p' s2 = Done s3 (Ok false).
Proof.
  intros HI E. pose proof (Done_wp _ _ _ _ _ E (wp_send d p s HI)) as H1.
  cbn beta iota in H1. destruct H1 as (d' & p' & c & Ht & Hc & Hst).
  pose proof Hst as (HI1 & Hsh1 & Hl1).
  assert (Hne : state c <> Free).
  { destruct (send_target_Inv s d p _ HI Ht) as (c' & Hc' & Hn). simpl in Hc'.
    rewrite chan_opt_tget, Hc' in Hc. by injection Hc as <-. }
  assert (Hc1 : chan_opt s1 d' p' = Some (mkChan (state c) true (masked c)))
    by (rewrite Hl1, decide_True; done).
  exists d', p', c. split_and!; [done..| |].
  - assert (Ht1 : send_target s1 d p = Some (d', p')).
    { unfold send_target in *. rewrite Hl1. case_decide as Hd; [|done].
      destruct Hd as [-> ->]. by rewrite Hc in Ht. }
    destruct (wp_Done _ _ _ (wp_send d p s1 HI1)) as (s2 & [[]|e] & E2 & H2);
      [|destruct H2 as [_ H2]; congruence].
    destruct H2 as (d2 & p2 & c2 & Ht2 & Hc2 & _ & Hsh2 & Hl2). rewrite Ht1 in Ht2.
    injection Ht2 as <- <-. rewrite Hc1 in Hc2. injection Hc2 as <-.
    exists s2. split; [done|]. apply chan_ext; [done|]. intros e x. rewrite Hl2.
    case_decide as Hd; [|done]. destruct Hd as [-> ->]. by rewrite Hc1.
  - assert (Hcons : forall s0 y, Inv s0 -> chan_opt s0 d' p' = Some y -> state y = state c ->
      exists s4, consume d' p' s0 = Done s4 (Ok (pending y)) /\ Inv s4 /\
        chan_opt s4 d' p' = Some (mkChan (state y) false (masked y))).
    { intros s0 y HI0 Hy Hys. destruct (wp_Done _ _ _ (wp_consume d' p' s0 HI0)) as (s4 & r & E4 & H4).
      destruct r as [b|e].
      - destruct H4 as (y' & Hy' & _ & -> & HI4 & _ & Hl4). rewrite Hy in Hy'. injection Hy' as <-.
        exists s4. split_and!; [done|done|]. by rewrite Hl4, decide_True.
      - exfalso. destruct H4 as [_ H4]. unfold state_of in H4. rewrite Hy in H4. simpl in H4.
        destruct H4 as [?|[= H4] ]; congruence. }
    destruct (Hcons s1 _ HI1 Hc1 eq_refl) as (s2 & E2 & HI2 & Hc2).
    destruct (Hcons s2 _ HI2 Hc2 eq_refl) as (s3 & E3 & _). by exists s2, s3.
Qed.

(** Port 0 of domain 0 and port 0 of domain 1, bound to each other. *)
Definition connected : System :=
  match (alloc_unbound 0 1 ;! bind_interdomain 1 0 0) (new 2 3) with
  | Done s _ => s
  | Panic => new 2 3
  end.

Lemma connected_Inv : Inv connected.
Proof.
  assert (H0 : Inv (new 2 3)) by (apply ev_new_Inv; vm_compute; discriminate).
  destruct (wp_Done _ _ _ (wp_alloc_unbound 0 1 _ H0)) as (s1 & r1 & E1 & H1).
  assert (HI1 : Inv s1) by (destruct r1; [apply H1|by rewrite H1]).
  destruct (wp_Done _ _ _ (wp_bind_interdomain 1 0 0 s1 HI1)) as (s2 & r2 & E2 & H2).
  unfold connected, bind. rewrite E1, E2. destruct r2; [apply H2|by rewrite H2].
Qed.

Theorem send_consume_witness :
  exists s1 s2 s3, send 0 0 connected = Done s1 (Ok tt) /\
    consume 1 0 s1 = Done s2 (Ok true) /\ consume 1 0 s2 = Done s3 (Ok false).
Proof.
  refine (match send_consume connected _ 0 0 connected_Inv _ with
    | ex_intro _ d' (ex_intro _ p' (ex_intro _ c (conj Ht (conj _ (conj _ (conj _
        (ex_intro _ s2 (ex_intro _ s3 H)))))))) => ex_intro _ _ (ex_intro _ s2 (ex_intro _ s3 _))
    end).
  - vm_compute. reflexivity.
  - vm_compute in Ht. injection Ht as <- <-. split; [vm_compute; reflexivity|exact H].
Defined.

(** The domain a port names as its peer, bound or still awaited. *)
Definition names (d : DomId) (c : EventChannel) : bool :=
  match state c with
  | Unbound r => r =? d
  | Interdomain r _ => r =? d
  | _ => false
  end.

(** The event-channel half of a teardown is exact: closing all of [d]'s ports and then
    clearing the ports that wait for [d] never panics, frees every port of [d] and every
    port that names it, and leaves each other port, its pending bit included, as it was. *)
Theorem teardown_severs (s : System) (d : DomId) :
  Inv s -> exists s1 s2, close_all d s = Done s1 tt /\ clear_unbound_into d s1 = Done s2 tt /\
    Inv s2 /\ forall e p c, chan_opt s e p = Some c ->
      chan_opt s2 e p = Some (if (e =? d) || names d c then FREE else c).
Proof.
  intros HI. destruct (wp_Done _ _ _ (wp_close_all d s HI)) as (s1 & [] & E1 & HI1 & Hsh & Hd & Ho).
  destruct (wp_Done _ _ _ (wp_clear_unbound_into d s1 HI1)) as (s2 & [] & E2 & HI2 & _ & Hl).
  exists s1, s2. split_and!; [done..|]. intros e p c Hc. rewrite Hl.
  destruct (N.eqb_spec e d) as [->|Hne]; simpl.
  - destruct (chan_opt s1 d p) as [x|] eqn:Hx; [by rewrite (Hd p x Hx)|].
    apply (same_shape_chan _ _ d p Hsh) in Hx. congruence.
  - rewrite Ho, Hc by done. simpl. f_equal. unfold unlink_from, clear_unbound, names.
    destruct (state c) as [|r|r q|v q|v] eqn:Hs; try by rewrite Hs.
    + destruct (N.eqb_spec r d) as [->|Hr]; case_decide as Hu; congruence.
    + destruct (N.eqb_spec r d) as [->|Hr].
      * rewrite !(decide_True (P := d = d)) by done. by rewrite decide_True.
      * rewrite (decide_False (P := r = d)) by done. case_decide as Hu; congruence.
Qed.

Theorem teardown_severs_witness :
  exists s1 s2, close_all 1 (new 2 2) = Done s1 tt /\ clear_unbound_into 1 s1 = Done s2 tt /\
    chan_opt s2 1 0 = Some FREE.
Proof.
  refine (match teardown_severs (new 2 2) 1 _ with
    | ex_intro _ s1 (ex_intro _ s2 (conj E1 (conj E2 (conj _ H)))) =>
        ex_intro _ s1 (ex_intro _ s2 (conj E1 (conj E2 (H 1 0 FREE _))))
    end).
  - apply ev_new_Inv; vm_compute; discriminate.
  - vm_compute. reflexivity.
Defined.
