(* ===== verification/Grant.v ===== *)
(** * Grant tables — [hv-core/src/grant.rs]

    Every domain's grant entries and the table of active mappings in one [System];
    granting, ending, mapping, unmapping and copying, the teardown drains, the queries
    of the cross-subsystem seam and the invariant check. *)

From Stdlib Require Import NArith Lia.
From stdpp Require Import base numbers list option.
From S2P Require Import Prelude.
#[local] Open Scope N_scope.

(** ** Data *)

Abbreviation Frame := N (only parsing).

Record Unmapped : Type := mkUnmapped {
  u_frame : Frame;
  u_writable : bool;
}.

Inductive GrantEntry : Type :=
| Free
| Access (grantee : DomId) (frame : Frame) (readonly : bool) (maps writable_maps : N).
#[global] Instance GrantEntry_eq_dec : EqDecision GrantEntry.
Proof. solve_decision. Defined.

Record Mapping : Type := mkMapping {
  active : bool;
  grantee : DomId;
  handle : GrantHandle;
  grantor : DomId;
  gref : GrantRef;
  writable : bool;
}.

(** A [DomainGrants] is its [Vec] of entries. *)
Record System : Type := mkSystem {
  domains : list (list GrantEntry);
  maps : list Mapping;
}.

Inductive GrantError : Type :=
| BadDomain
| BadGrantRef
| BadHandle
| WrongState
| InUse
| PermissionDenied
| Overflow.
#[global] Instance GrantError_eq_dec : EqDecision GrantError.
Proof. solve_decision. Defined.

Inductive Violation : Type :=
| GranteeGhostDomain (grantor gref : N)
| RefcountMismatch (grantor gref : N)
| ReadonlyViolated (grantor gref : N)
| WritableExceedsMaps (grantor gref : N)
| DanglingMap (grantor gref : N).

(** ** Internals and queries *)

Definition domain (s : System) (dom : DomId) : result GrantError (list GrantEntry) :=
  ok_or (vget (domains s) dom) BadDomain.

Definition entry (s : System) (dom : DomId) (g : GrantRef) : result GrantError GrantEntry :=
  match domain s dom with
  | Ok d => ok_or (vget d g) BadGrantRef
  | Err e => Err e
  end.

Definition has_foreign_map (s : System) (target : DomId) : bool :=
  existsb (fun m => active m && (grantor m =? target) && negb (grantee m =? target)) (maps s).

Definition holds_any_map (s : System) (g : DomId) : bool :=
  existsb (fun m => active m && (grantee m =? g)) (maps s).

Definition entry_authorizes (to : DomId) (f : Frame) (w : bool) (e : GrantEntry) : bool :=
  match e with
  | Access g f' ro _ _ => (g =? to) && (f' =? f) && (negb w || negb ro)
  | Free => false
  end.

Definition authorizes (s : System) (from to : DomId) (f : Frame) (w : bool) : bool :=
  match domain s from with
  | Err _ => false
  | Ok dom => existsb (entry_authorizes to f w) dom
  end.

Definition is_granted (s : System) (from : DomId) (g : GrantRef) : bool :=
  match entry s from g with Ok (Access _ _ _ _ _) => true | _ => false end.

Definition map_count (s : System) (from : DomId) (g : GrantRef) : option N :=
  match entry s from g with Ok (Access _ _ _ n _) => Some n | _ => None end.

Definition writable_map_count (s : System) (from : DomId) (g : GrantRef) : option N :=
  match entry s from g with Ok (Access _ _ _ _ w) => Some w | _ => None end.

Definition grantee_of (s : System) (from : DomId) (g : GrantRef) : option DomId :=
  match entry s from g with Ok (Access to _ _ _ _) => Some to | _ => None end.

Definition granted_frame (s : System) (from : DomId) (g : GrantRef) : option Frame :=
  match entry s from g with Ok (Access _ f _ _ _) => Some f | _ => None end.

Definition active_maps (s : System) : N := count active (maps s).

Definition grant_entry (s : System) (from : DomId) (g : GrantRef) :
  option (DomId * Frame * bool * N * N) :=
  match entry s from g with
  | Ok (Access to f ro n w) => Some (to, f, ro, n, w)
  | _ => None
  end.

(** The mapping a domain holds under a handle. *)
Definition holds (to : DomId) (h : GrantHandle) (m : Mapping) : bool :=
  active m && (grantee m =? to) && (handle m =? h).

Definition handle_slots (s : System) (to : DomId) : N :=
  foldr N.max 0 ((fun m => handle m + 1) <$>
    List.filter (fun m => active m && (grantee m =? to)) (maps s)).

Definition mapping_at (s : System) (to : DomId) (h : GrantHandle) :
  option (DomId * GrantRef * bool) :=
  (fun m => (grantor m, gref m, writable m)) <$> find (holds to h) (maps s).

Definition domain_count (s : System) : N := vlen (domains s).
Definition entry_count (s : System) (from : DomId) : N :=
  match domain s from with Ok d => vlen d | Err _ => 0 end.

Definition any_grant_to (s : System) (to : DomId) : bool :=
  existsb (fun from =>
      existsb (fun g => bool_decide (grantee_of s from g = Some to))
        (vrange (as_u32 (entry_count s from))))
    (vrange (as_u16 (domain_count s))).

(** ** The invariant check *)

(** A live mapping of the entry [g] of domain [d]. *)
Definition live_on (d g : N) (m : Mapping) : bool :=
  active m && (grantor m =? d) && (gref m =? g).

Definition entry_violation (s : System) (d g : N) (e : GrantEntry) : option Violation :=
  match e with
  | Access to _ ro n w =>
      if decide (vlen (domains s) <= to) then Some (GranteeGhostDomain d g)
      else if decide (n < w) then Some (WritableExceedsMaps d g)
      else if ro && bool_decide (0 < w) then Some (ReadonlyViolated d g)
      else
        let total := count (live_on d g) (maps s) in
        let wr := count (fun m => live_on d g m && writable m) (maps s) in
        if decide (n <> total \/ w <> wr) then Some (RefcountMismatch d g) else None
  | Free => None
  end.

Definition map_violation (s : System) (m : Mapping) : option Violation :=
  if active m then
    let backed :=
      match entry s (grantor m) (gref m) with
      | Ok (Access to _ ro _ _) => (to =? grantee m) && (negb (writable m) || negb ro)
      | _ => false
      end in
    if backed then None else Some (DanglingMap (grantor m) (gref m))
  else None.

Definition first_violation (s : System) : option Violation :=
  match first_some (fun '(d, dom) =>
          first_some (fun '(g, e) => entry_violation s d g e) (enumerate dom))
        (enumerate (domains s)) with
  | Some v => Some v
  | None => first_some (map_violation s) (maps s)
  end.

Definition invariants_hold (s : System) : bool :=
  match first_violation s with None => true | Some _ => false end.

Definition check_invariants : M System unit :=
  let! s := get in dbg_assert (invariants_hold s).

(** ** Transitions *)

Definition new (num_domains entries_per_domain : N) : System :=
  mkSystem (vrepeat num_domains (vrepeat entries_per_domain Free)) [].

(** Writing through the reference [entry_mut] returns. *)
Definition set_entry (dom : DomId) (g : GrantRef) (e : GrantEntry) (s : System) : System :=
  mkSystem (tset (domains s) dom g e) (maps s).

Definition set_maps (l : list Mapping) (s : System) : System := mkSystem (domains s) l.

Definition deactivate (m : Mapping) : Mapping :=
  mkMapping false (grantee m) (handle m) (grantor m) (gref m) (writable m).

Definition grant_access (from : DomId) (g : GrantRef) (to : DomId) (f : Frame) (ro : bool) :
  M System (result GrantError unit) :=
  let! s := get in
  let? _ := lift (domain s to) in
  let? e := lift (entry s from g) in
  ensure (e = Free) WrongState ;?
  modify (set_entry from g (Access to f ro 0 0)) ;!
  check_invariants ;! ok tt.

Definition end_access (from : DomId) (g : GrantRef) : M System (result GrantError unit) :=
  let! s := get in
  let? e := lift (entry s from g) in
  match e with
  | Access _ _ _ n _ => ensure (n = 0) InUse
  | Free => err WrongState
  end ;?
  let! _ := unwrap (entry s from g) in
  modify (set_entry from g Free) ;!
  check_invariants ;! ok tt.

Definition counts_after_map {S} (n w : N) (wr : bool) : M S (result GrantError (N * N)) :=
  let? n' := lift (ok_or (checked_add u32_max n 1) Overflow) in
  let! w' := if wr then uadd u32_max w 1 else ret w in
  ok (n', w').

Definition counts_after_unmap (n w : N) (wr : bool) : N * N :=
  (n - 1, if wr then w - 1 else w).

(** The search of [alloc_handle] for the lowest handle the grantee does not use; the
    fuel is the number of mapping slots (see [wp_free_handle]). *)
Fixpoint free_handle (fuel : nat) (s : System) (to : DomId) (h : GrantHandle) :
  M System GrantHandle :=
  if existsb (holds to h) (maps s) then
    match fuel with
    | O => panic
    | S fuel => let! h' := uadd u32_max h 1 in free_handle fuel s to h'
    end
  else ret h.

Definition alloc_handle (to from : DomId) (g : GrantRef) (wr : bool) : M System GrantHandle :=
  let! s := get in
  let! h := free_handle (length (maps s)) s to 0 in
  let mapping := mkMapping true to h from g wr in
  match position (fun m => negb (active m)) (maps s) with
  | Some i => modify (set_maps (vset (maps s) i mapping))
  | None => modify (set_maps (maps s ++ [mapping]))
  end ;!
  ret h.

Definition map (to from : DomId) (g : GrantRef) (wr : bool) :
  M System (result GrantError GrantHandle) :=
  let! s := get in
  let? e := lift (entry s from g) in
  let? permitted :=
    match e with Access to' _ ro _ _ => ok (to', ro) | Free => err WrongState end in
  ensure (fst permitted = to) PermissionDenied ;?
  ensure (wr && snd permitted = false) PermissionDenied ;?
  let! e := unwrap (entry s from g) in
  match e with
  | Access to' f ro n w =>
      let? nw := counts_after_map n w wr in
      modify (set_entry from g (Access to' f ro (fst nw) (snd nw))) ;! ok tt
  | Free => ok tt
  end ;?
  let! h := alloc_handle to from g wr in
  check_invariants ;! ok h.

Definition unmap (to : DomId) (h : GrantHandle) : M System (result GrantError Unmapped) :=
  let! s := get in
  let? slot := lift (ok_or (position (holds to h) (maps s)) BadHandle) in
  let! mapping := index (maps s) slot in
  let! frame :=
    match entry s (grantor mapping) (gref mapping) with
    | Ok (Access to' f ro n w) =>
        let nw := counts_after_unmap n w (writable mapping) in
        modify (set_entry (grantor mapping) (gref mapping)
                  (Access to' f ro (fst nw) (snd nw))) ;! ret f
    | _ => ret 0
    end in
  modify (fun s => set_maps (vset (maps s) slot (deactivate mapping)) s) ;!
  check_invariants ;! ok (mkUnmapped frame (writable mapping)).

(** [copy] authorises a hypervisor-mediated copy; it takes [&self]. *)
Definition copy (s : System) (to from : DomId) (g : GrantRef) (write : bool) :
  result GrantError unit :=
  match entry s from g with
  | Err e => Err e
  | Ok Free => Err WrongState
  | Ok (Access permitted _ ro _ _) =>
      if decide (permitted = to) then
        if write && ro then Err PermissionDenied else Ok tt
      else Err PermissionDenied
  end.

(** *** Teardown *)

Definition drain_maps_of (to : DomId) : M System (list Unmapped) :=
  let! s := get in
  let handles := handle <$> List.filter (fun m => active m && (grantee m =? to)) (maps s) in
  for_collect handles (fun h => let! r := unmap to h in unwrap r).

Definition drain_foreign_maps_of (target : DomId) : M System (list Unmapped) :=
  let! s := get in
  let held := (fun m => (grantee m, handle m)) <$>
    List.filter (fun m => active m && (grantor m =? target) && negb (grantee m =? target))
      (maps s) in
  for_collect held (fun p => let! r := unmap (fst p) (snd p) in unwrap r).

Definition revoke_all (from : DomId) : M System unit :=
  let! s := get in
  for_each (vrange (as_u32 (entry_count s from))) (fun g =>
    let! s := get in
    if is_granted s from g then
      let! r := end_access from g in dbg_assert (is_ok r)
    else ret tt).

Definition revoke_grants_to (to : DomId) : M System unit :=
  let! s := get in
  for_each (vrange (as_u16 (domain_count s))) (fun from =>
    let! s := get in
    for_each (vrange (as_u32 (entry_count s from))) (fun g =>
      let! s := get in
      if decide (grantee_of s from g = Some to) then
        let! r := end_access from g in dbg_assert (is_ok r)
      else ret tt)).

(** ** Specification *)

(** What [first_violation] checks, on tables of addressable size. *)
Record Wf (s : System) : Prop := mkWf {
  inv_doms : vlen (domains s) <= u16_max;
  inv_entries : forall d, twidth (domains s) d <= u32_max;
  inv_entry : forall d g to f ro n w, tget (domains s) d g = Some (Access to f ro n w) ->
    to < vlen (domains s) /\ w <= n /\ (ro = true -> w = 0) /\
    n = count (live_on d g) (maps s) /\
    w = count (fun m => live_on d g m && writable m) (maps s);
  inv_backed : forall m, m ∈ maps s -> active m = true -> exists f ro n w,
    tget (domains s) (grantor m) (gref m) = Some (Access (grantee m) f ro n w) /\
    (writable m = true -> ro = false);
}.

(** The handle namespace of a domain: an active mapping is its own alone. *)
Definition key (m : Mapping) : DomId * GrantHandle := (grantee m, handle m).
Definition distinct_handles (s : System) : Prop :=
  forall i j mi mj, vget (maps s) i = Some mi -> vget (maps s) j = Some mj ->
    active mi = true -> active mj = true -> key mi = key mj -> i = j.

(** The lowest unused handle is never beyond the table. *)
Definition low_handles (s : System) : Prop :=
  forall m, m ∈ maps s -> active m = true -> handle m <= vlen (maps s).

Definition Inv (s : System) : Prop := Wf s /\ distinct_handles s /\ low_handles s.

(** The frame behind a mapping. *)
Definition frame_of (s : System) (m : Mapping) : Frame :=
  match granted_frame s (grantor m) (gref m) with Some f => f | None => 0 end.

(** The active mappings of kind [b] (writable or not) over frame [f]. *)
Definition over (s : System) (b : bool) (f : Frame) (m : Mapping) : bool :=
  active m && eqb (writable m) b && (frame_of s m =? f).
Definition ext (s : System) (b : bool) (f : Frame) : N := count (over s b f) (maps s).
Definition released_over (b : bool) (f : Frame) (u : Unmapped) : bool :=
  eqb (u_writable u) b && (u_frame u =? f).

(** The authority an entry carries: everything but its reference counts. *)
Definition authority (s : System) (d g : N) : option (DomId * Frame * bool) :=
  match tget (domains s) d g with
  | Some (Access to f ro _ _) => Some (to, f, ro)
  | _ => None
  end.
Definition same_shape (s s' : System) : Prop :=
  domain_count s' = domain_count s /\ forall d, entry_count s' d = entry_count s d.
Definition same_authority (s s' : System) : Prop :=
  same_shape s s' /\ forall d g, authority s' d g = authority s d g.

(** ** Lemmas *)

Lemma entry_Ok s d g e : entry s d g = Ok e <-> tget (domains s) d g = Some e.
Proof.
  unfold entry, domain, tget. destruct (vget (domains s) d) as [r|]; simpl; [|naive_solver].
  destruct (vget r g); simpl; naive_solver.
Qed.

Lemma entry_Err s d g e : entry s d g = Err e -> tget (domains s) d g = None.
Proof.
  intros H. destruct (tget (domains s) d g) as [x|] eqn:E; [|done].
  apply entry_Ok in E. congruence.
Qed.

(** Reading an entry through [entry], by cases on the table. *)
Lemma entry_match {T} s d g (k : GrantEntry -> T) (z : T) :
  match entry s d g with Ok e => k e | Err _ => z end =
  match tget (domains s) d g with Some e => k e | None => z end.
Proof.
  destruct (entry s d g) as [e|e] eqn:E.
  - apply entry_Ok in E. by rewrite E.
  - apply entry_Err in E. by rewrite E.
Qed.

Lemma entry_count_twidth s d : entry_count s d = twidth (domains s) d.
Proof. unfold entry_count, domain, twidth. by destruct (vget (domains s) d). Qed.

Lemma granted_frame_authority s d g : granted_frame s d g = snd ∘ fst <$> authority s d g.
Proof.
  unfold granted_frame, authority.
  rewrite (entry_match s d g (fun e => match e with Access _ f _ _ _ => Some f | _ => None end)).
  by destruct (tget _ d g) as [[]|].
Qed.

Lemma grantee_of_authority s d g : grantee_of s d g = fst ∘ fst <$> authority s d g.
Proof.
  unfold grantee_of, authority.
  rewrite (entry_match s d g (fun e => match e with Access t _ _ _ _ => Some t | _ => None end)).
  by destruct (tget _ d g) as [[]|].
Qed.

Lemma is_granted_authority s d g : is_granted s d g = bool_decide (is_Some (authority s d g)).
Proof.
  unfold is_granted, authority.
  rewrite (entry_match s d g (fun e => match e with Access _ _ _ _ _ => true | _ => false end)).
  by destruct (tget _ d g) as [[]|].
Qed.

(** Some entry of [from] lets [to] reach [f] with that access. *)
Lemma authorizes_spec s from to f w :
  authorizes s from to f w = true <->
  exists g ro, authority s from g = Some (to, f, ro) /\ (w = true -> ro = false).
Proof.
  unfold authorizes, domain, authority, tget.
  destruct (vget (domains s) from) as [row|]; simpl; [|naive_solver].
  rewrite existsb_elem. split.
  - intros (e & [g Hg]%elem_vget & He). destruct e as [|to' f' ro n w']; [done|]. simpl in He.
    bool_prop. exists g, ro. rewrite Hg. apply N.eqb_eq in H, H1. subst. split; [done|].
    intros ->. by destruct ro.
  - intros (g & ro & Ha & Hw). destruct (vget row g) as [[|to' f' ro' n w']|] eqn:Hg; try done.
    simplify_eq. exists (Access to f ro n w'). split; [by eapply vget_elem|]. simpl.
    rewrite !N.eqb_refl. simpl. destruct w; [by rewrite Hw|done].
Qed.

Lemma frame_of_same s s' m : same_authority s s' -> frame_of s' m = frame_of s m.
Proof. intros [_ H]. unfold frame_of. by rewrite !granted_frame_authority, H. Qed.

Lemma over_same s s' b f m : same_authority s s' -> over s' b f m = over s b f m.
Proof. intros H. unfold over. by rewrite (frame_of_same s s'). Qed.

Lemma grant_same_shape_trans s1 s2 s3 :
  same_shape s1 s2 -> same_shape s2 s3 -> same_shape s1 s3.
Proof. unfold same_shape. intros (? & ?) (? & ?). split_and?; congruence. Qed.

Lemma same_authority_refl s : same_authority s s.
Proof. done. Qed.

Lemma same_authority_trans s1 s2 s3 :
  same_authority s1 s2 -> same_authority s2 s3 -> same_authority s1 s3.
Proof.
  intros [Hs1 H1] [Hs2 H2]. split; [by eapply grant_same_shape_trans|]. intros. by rewrite H2.
Qed.

Lemma set_entry_shape d g e s : same_shape s (set_entry d g e s).
Proof.
  unfold same_shape, domain_count. simpl. split; [by autorewrite with hv|].
  intros i. by rewrite !entry_count_twidth; simpl; autorewrite with hv.
Qed.

Lemma count_live s d g n w to f ro :
  Wf s -> tget (domains s) d g = Some (Access to f ro n w) ->
  n = count (live_on d g) (maps s) /\ w = count (fun m => live_on d g m && writable m) (maps s).
Proof. intros HW Ht. by destruct (inv_entry s HW _ _ _ _ _ _ _ Ht) as (_ & _ & _ & ? & ?). Qed.

(** The check finds no violation exactly when the tables are well formed. *)
Lemma grant_first_violation_None s :
  vlen (domains s) <= u16_max -> (forall d, twidth (domains s) d <= u32_max) ->
  first_violation s = None <-> Wf s.
Proof.
  intros Hd He. unfold first_violation.
  pose proof (first_some_table_None (fun d _ g e => entry_violation s d g e) (domains s)) as Htab.
  split.
  - destruct (first_some _ (enumerate (domains s))) eqn:E1; [done|]. intros E2.
    apply proj1 in Htab. specialize (Htab eq_refl). rewrite first_some_None in E2. split; try done.
    + intros d g to f ro n w Ht. unfold tget in Ht.
      destruct (vget (domains s) d) as [row|] eqn:Hrow; [|done].
      specialize (Htab d row g _ Hrow Ht). unfold entry_violation in Htab.
      destruct (decide (vlen (domains s) <= to)); [done|]. destruct (decide (n < w)); [done|].
      destruct (ro && bool_decide (0 < w)) eqn:Hro; [done|].
      destruct (decide (n <> _ \/ w <> _)) as [|Hnot]; [done|].
      assert (Hnw : n = count (live_on d g) (maps s) /\
        w = count (fun m => live_on d g m && writable m) (maps s))
        by (split; apply dec_stable; intros ?; apply Hnot; auto).
      split_and!; [lia|lia| |apply Hnw|apply Hnw].
      intros ->. simpl in Hro. apply bool_decide_eq_false in Hro. lia.
    + intros m Hm Ha. specialize (E2 m Hm). unfold map_violation in E2. rewrite Ha in E2.
      destruct (entry s (grantor m) (gref m)) as [[|to f ro n w]|] eqn:Ee; try done.
      apply entry_Ok in Ee. destruct (_ && _)%bool eqn:Hb in E2; [|done]. bool_prop.
      exists f, ro, n, w. apply N.eqb_eq in H. subst. split; [done|]. intros Hw.
      rewrite Hw in *. by destruct ro.
  - intros [_ _ H3 H4]. apply proj2 in Htab. rewrite Htab.
    + apply first_some_None. intros m Hm. unfold map_violation. destruct (active m) eqn:Ha; [|done].
      destruct (H4 m Hm Ha) as (f & ro & n & w & Ht & Hw). apply entry_Ok in Ht. rewrite Ht.
      rewrite N.eqb_refl. simpl. destruct (writable m); [by rewrite Hw|done].
    + intros d row g e Hrow Hg. destruct e as [|to f ro n w]; [done|].
      destruct (H3 d g to f ro n w) as (Hto & Hle & Hro & Hn & Hw).
      { by rewrite (tget_row _ _ _ _ Hrow). }
      unfold entry_violation. rewrite !decide_False by lia.
      assert (ro && bool_decide (0 < w) = false) as ->.
      { destruct ro; [|done]. simpl. apply bool_decide_eq_false. rewrite Hro; [lia|done]. }
      done.
Qed.

Lemma grant_wp_check s (Q : System -> unit -> Prop) :
  Wf s -> Q s tt -> wp check_invariants Q s.
Proof.
  intros HI HQ. unfold check_invariants, invariants_hold. wp_auto. apply wp_dbg_assert; [|done].
  pose proof HI as [? ? _ _]. by rewrite (proj2 (grant_first_violation_None s ltac:(done)
    ltac:(done)) HI).
Qed.

Lemma grant_new_Inv n m : n <= u16_max -> m <= u32_max -> Inv (new n m).
Proof.
  intros Hn Hm. split_and!.
  - split; simpl.
    + by rewrite vlen_vrepeat.
    + intros d. pose proof (twidth_vrepeat n m Free d). lia.
    + intros d g to f ro c w. rewrite tget_vrepeat. by case_decide.
    + intros x Hx. by apply elem_of_nil in Hx.
  - intros i j mi mj Hi. unfold vget in Hi. simpl in Hi. by rewrite lookup_nil in Hi.
  - intros x Hx%elem_of_nil. done.
Qed.

(** *** Granting and ending *)

(** Rewriting an entry nothing is mapped from. *)
Lemma Wf_set_unmapped s d g e e0 :
  Wf s -> tget (domains s) d g = Some e0 -> count (live_on d g) (maps s) = 0 ->
  (forall to f ro n w, e = Access to f ro n w -> to < vlen (domains s) /\ n = 0 /\ w = 0) ->
  Wf (set_entry d g e s).
Proof.
  intros [H1 H2 H3 H4] Ht H0 He. split; simpl; autorewrite with hv; try done.
  - intros i. autorewrite with hv. apply H2.
  - intros d' g' to f ro n w. rewrite tget_tset. case_decide as Hc; [|by apply H3].
    destruct Hc as (-> & -> & _). intros [= Ee]. destruct (He _ _ _ _ _ Ee) as (? & -> & ->).
    assert (count (fun m => live_on d g m && writable m) (maps s) = 0).
    { pose proof (count_le (fun m => live_on d g m && writable m) (live_on d g) (maps s)) as Hle.
      rewrite H0 in Hle. apply N.le_0_r, Hle. intros x _. by intros [? _]%andb_true_iff. }
    split_and!; (done || lia).
  - intros m Hm Ha. destruct (H4 m Hm Ha) as (f & ro & n & w & Hg & Hw).
    rewrite tget_tset_ne; [by exists f, ro, n, w|]. intros [E1 E2]. rewrite count_zero in H0.
    specialize (H0 m Hm). unfold live_on in H0. rewrite Ha, E1, E2, !N.eqb_refl in H0. done.
Qed.

Lemma authority_set_entry d g e e0 s d' g' :
  tget (domains s) d g = Some e0 ->
  authority (set_entry d g e s) d' g' =
  if decide (d' = d /\ g' = g)
  then match e with Access to f ro _ _ => Some (to, f, ro) | Free => None end
  else authority s d' g'.
Proof.
  intros Ht. pose proof (tget_Some_lt _ _ _ _ Ht) as [_ Hw]. unfold authority. simpl.
  rewrite tget_tset. repeat case_decide; naive_solver.
Qed.

Lemma wp_grant_access d g to f ro s :
  Inv s -> wp (grant_access d g to f ro) (fun s' r =>
    match r with
    | Ok _ => to < domain_count s /\ tget (domains s) d g = Some Free /\
        Inv s' /\ same_shape s s' /\ maps s' = maps s /\
        forall d' g', authority s' d' g' =
          if decide (d' = d /\ g' = g) then Some (to, f, ro) else authority s d' g'
    | Err _ => s' = s
    end) s.
Proof.
  intros (HW & HD & HL). unfold grant_access. wp_step. wp_step. wp_step. wp_step; [|done].
  wp_step. wp_step; [|done]. wp_step. wp_step; [|done]. subst.
  match goal with H : entry _ _ _ = Ok _ |- _ => apply entry_Ok in H as Ht end.
  assert (Hto : to < vlen (domains s)).
  { unfold domain, ok_or in *. destruct (vget (domains s) to) eqn:E; [|done].
    by eapply vget_Some_lt. }
  assert (Hz : count (live_on d g) (maps s) = 0).
  { apply count_zero. intros m Hm. apply not_true_iff_false. intros Hl. unfold live_on in Hl.
    apply andb_true_iff in Hl as [[Ha E1%N.eqb_eq]%andb_true_iff E2%N.eqb_eq].
    destruct (inv_backed s HW m Hm Ha) as (? & ? & ? & ? & Hb & _). congruence. }
  assert (HW' : Wf (set_entry d g (Access to f ro 0 0) s)).
  { eapply Wf_set_unmapped; [done..|]. by intros * [= <- _ _ <- <-]. }
  wp_step. wp_step. wp_step. apply grant_wp_check; [done|]. wp_step.
  split_and!; [done..| |apply set_entry_shape|done|].
  - by split.
  - intros. by eapply authority_set_entry in Ht as ->.
Qed.

Lemma wp_end_access d g s :
  Inv s -> wp (end_access d g) (fun s' r =>
    match r with
    | Ok _ => is_Some (authority s d g) /\ count (live_on d g) (maps s) = 0 /\
        Inv s' /\ same_shape s s' /\ maps s' = maps s /\
        forall d' g', authority s' d' g' =
          if decide (d' = d /\ g' = g) then None else authority s d' g'
    | Err _ => s' = s /\ (authority s d g = None \/ 0 < count (live_on d g) (maps s))
    end) s.
Proof.
  intros (HW & HD & HL). unfold end_access. wp_step. wp_step. wp_step. wp_step.
  2: { split; [done|left]. unfold authority.
       match goal with H : entry _ _ _ = Err _ |- _ => by apply entry_Err in H as -> end. }
  match goal with H : entry _ _ _ = Ok ?x |- _ =>
    pose proof H as He; apply entry_Ok in H as Ht; rename x into e end.
  wp_step. destruct e as [|to f ro n w]; cbn beta iota.
  - wp_step. split; [done|left]. unfold authority. by rewrite Ht.
  - destruct (count_live s d g n w to f ro HW Ht) as [Hn Hw]. wp_step.
    + assert (HW' : Wf (set_entry d g Free s)).
      { eapply Wf_set_unmapped; [done|done|congruence|done]. }
      wp_step. apply wp_unwrap. eexists. split; [done|]. wp_step. wp_step. wp_step.
      apply grant_wp_check; [done|]. wp_step.
      split_and!; [|congruence| |apply set_entry_shape|done|].
      * unfold authority. rewrite Ht. by eexists.
      * by split.
      * intros. by eapply authority_set_entry in Ht as ->.
    + split; [done|right]. lia.
Qed.

(** *** Mapping *)

Lemma holds_true to h m : holds to h m = true <-> active m = true /\ key m = (to, h).
Proof.
  unfold holds, key. rewrite !andb_true_iff, !N.eqb_eq. naive_solver.
Qed.

(** The handles below [h] are all in use, so there are at most as many as mappings. *)
Lemma handles_below s to h :
  (forall k, k < h -> existsb (holds to k) (maps s) = true) -> h <= vlen (maps s).
Proof.
  intros H. rewrite <- (vlen_vrange h), <- (vlen_fmap handle (maps s)). unfold vlen.
  assert (Hs : vrange h ⊆+ (handle <$> maps s)); [|apply submseteq_length in Hs; lia].
  apply NoDup_submseteq; [apply NoDup_vrange|]. intros k Hk%elem_vrange.
  apply H, existsb_elem in Hk as (m & Hm & Hh%holds_true). apply list_elem_of_fmap.
  exists m. split; [|done]. unfold key in Hh. naive_solver.
Qed.

(** The search ends within its fuel and its result is the lowest unused handle. *)
Lemma wp_free_handle fuel s to h :
  vlen (maps s) <= u32_max -> vlen (maps s) <= N.of_nat fuel + h ->
  (forall k, k < h -> existsb (holds to k) (maps s) = true) ->
  forall s0 (Q : System -> GrantHandle -> Prop),
  (forall h', existsb (holds to h') (maps s) = false ->
    (forall k, k < h' -> existsb (holds to k) (maps s) = true) -> Q s0 h') ->
  wp (free_handle fuel s to h) Q s0.
Proof.
  intros Hcap. revert h. induction fuel as [|fuel IH]; intros h Hf Hb s0 Q HQ; simpl;
    destruct (existsb (holds to h) (maps s)) eqn:He; try (by wp_step; apply HQ);
    assert (Hb' : forall k, k < h + 1 -> existsb (holds to k) (maps s) = true)
      by (intros k Hk; destruct (decide (k = h)) as [->|]; [done|apply Hb; lia]);
    pose proof (handles_below s to (h + 1) Hb').
  - lia.
  - wp_step. apply wp_uadd; [lia|]. apply IH; [lia|done|done].
Qed.

(** A slot table after one more mapping: reused slot or new slot. *)
Lemma alloc_slot l m :
  active m = true ->
  let l' := slot_insert active l m in
  (forall f, (forall x, f x = true -> active x = true) ->
     count f l' = count f l + (if f m then 1 else 0)) /\
  (forall x, active x = true -> x ∈ l' <-> x = m \/ x ∈ l) /\
  vlen l' <= vlen l + 1 /\
  exists i, vget l' i = Some m /\
    forall j x, j <> i -> active x = true -> vget l' j = Some x <-> vget l j = Some x.
Proof.
  intros Hm. destruct (slot_insert_spec active l m Hm) as (Hn & ? & ? & ?).
  split_and!; try done. intros f Hf. rewrite !count_nsum. apply Hn.
  intros x Hx. destruct (f x) eqn:E; [|done]. apply Hf in E. congruence.
Qed.

(** The new mapping [m] is in, everything else is as it was. *)
Definition added (m : Mapping) (s s' : System) : Prop :=
  (forall f, (forall x, f x = true -> active x = true) ->
     count f (maps s') = count f (maps s) + (if f m then 1 else 0)) /\
  (forall x, active x = true -> x ∈ maps s' <-> x = m \/ x ∈ maps s).

Lemma distinct_handles_add l m i l' :
  (forall j k mj mk, vget l j = Some mj -> vget l k = Some mk ->
    active mj = true -> active mk = true -> key mj = key mk -> j = k) ->
  (forall x, x ∈ l -> active x = true -> key x <> key m) ->
  vget l' i = Some m ->
  (forall j x, j <> i -> active x = true -> vget l' j = Some x <-> vget l j = Some x) ->
  forall j k mj mk, vget l' j = Some mj -> vget l' k = Some mk ->
    active mj = true -> active mk = true -> key mj = key mk -> j = k.
Proof.
  intros HD Hfresh Hi Hrest j k mj mk Hj Hk Haj Hak Hkey.
  destruct (decide (j = i)) as [->|Hji], (decide (k = i)) as [->|Hki]; [done| | |].
  - exfalso. apply Hrest in Hk; [|done..]. apply vget_elem in Hk.
    apply (Hfresh mk Hk Hak). congruence.
  - exfalso. apply Hrest in Hj; [|done..]. apply vget_elem in Hj.
    apply (Hfresh mj Hj Haj). congruence.
  - apply Hrest in Hj; [|done..]. apply Hrest in Hk; [|done..]. by eapply HD.
Qed.

(** A change of the slot table that the counts of one entry follow. *)
Lemma Wf_recount s d g to f ro n w l' :
  Wf s -> tget (domains s) d g = Some (Access to f ro n w) ->
  (forall d' g', ~ (d' = d /\ g' = g) ->
    count (live_on d' g') l' = count (live_on d' g') (maps s) /\
    count (fun m => live_on d' g' m && writable m) l' =
    count (fun m => live_on d' g' m && writable m) (maps s)) ->
  (forall m, m ∈ l' -> active m = true -> m ∈ maps s \/
    (grantor m = d /\ gref m = g /\ grantee m = to /\ (writable m = true -> ro = false))) ->
  Wf (set_maps l' (set_entry d g (Access to f ro (count (live_on d g) l')
        (count (fun m => live_on d g m && writable m) l')) s)).
Proof.
  intros [H1 H2 H3 H4] Ht Hoth Hin.
  destruct (H3 _ _ _ _ _ _ _ Ht) as (Hto & _ & _ & _ & _).
  assert (Hback : forall m, m ∈ l' -> active m = true -> grantor m = d -> gref m = g ->
    grantee m = to /\ (writable m = true -> ro = false)).
  { intros m Hm Ha E1 E2. destruct (Hin m Hm Ha) as [Hm'|(_ & _ & ? & ?)]; [|done].
    destruct (H4 m Hm' Ha) as (f' & ro' & n' & w' & Hg & Hw). rewrite E1, E2, Ht in Hg.
    by simplify_eq. }
  split; simpl; autorewrite with hv; try done.
  - intros i. autorewrite with hv. apply H2.
  - intros d' g' to' f' ro' n' w'. rewrite tget_tset. case_decide as Hc.
    + destruct Hc as (-> & -> & _). intros [= <- <- <- <- <-]. split_and!; try done.
      * apply count_le. by intros x _ [? _]%andb_true_iff.
      * intros ->. apply count_zero. intros x Hx. apply not_true_iff_false.
        intros [[[Ha E1%N.eqb_eq]%andb_true_iff E2%N.eqb_eq]%andb_true_iff Hw]%andb_true_iff.
        by destruct (Hback x Hx Ha E1 E2) as [_ Hro%(fun h => h Hw)].
    + intros Ht'. assert (~ (d' = d /\ g' = g))
        by (intros [-> ->]; apply Hc; split_and!; try done; by eapply tget_Some_lt).
      destruct (Hoth d' g') as [-> ->]; [done|]. by apply (H3 _ _ _ _ _ _ _ Ht').
  - intros m Hm Ha. rewrite tget_tset. case_decide as Hc.
    + destruct Hc as (E1 & E2 & _). destruct (Hback m Hm Ha E1 E2) as [Eg Hw]. rewrite Eg. eauto 6.
    + destruct (Hin m Hm Ha) as [Hm'|(E1 & E2 & _)]; [by apply H4|].
      exfalso. apply Hc. split_and!; try done. by eapply tget_Some_lt.
Qed.

Lemma authority_recount s d g to f ro n w n' w' l' :
  tget (domains s) d g = Some (Access to f ro n w) ->
  same_authority s (set_maps l' (set_entry d g (Access to f ro n' w') s)).
Proof.
  intros Ht. split; [apply set_entry_shape|]. intros d' g'.
  transitivity (authority (set_entry d g (Access to f ro n' w') s) d' g'); [done|].
  erewrite authority_set_entry by done. case_decide as Hc; [|done]. destruct Hc as [-> ->].
  unfold authority. by rewrite Ht.
Qed.

Lemma wp_alloc_handle to from g wr s (Q : System -> GrantHandle -> Prop) :
  vlen (maps s) <= u32_max ->
  (forall h, existsb (holds to h) (maps s) = false ->
    (forall k, k < h -> existsb (holds to k) (maps s) = true) ->
    let m := mkMapping true to h from g wr in
    Q (set_maps (slot_insert active (maps s) m) s) h) ->
  wp (alloc_handle to from g wr) Q s.
Proof.
  intros Hcap HQ. unfold alloc_handle. wp_step. wp_step. wp_step.
  apply wp_free_handle; [done|unfold vlen; lia|lia|]. intros h Hf Hb. cbv zeta. wp_step.
  specialize (HQ h Hf Hb). cbv zeta in HQ. unfold slot_insert in HQ.
  destruct (position _ (maps s)) as [i|]; wp_step; by wp_step.
Qed.

Lemma live_on_active d g m : live_on d g m = true -> active m = true.
Proof. unfold live_on. by intros [[? _]%andb_true_iff _]%andb_true_iff. Qed.

Lemma live_on_true d g m :
  live_on d g m = true <-> active m = true /\ grantor m = d /\ gref m = g.
Proof. unfold live_on. rewrite !andb_true_iff, !N.eqb_eq. tauto. Qed.

(** What a successful [map] leaves. *)
Definition mapped (to from : DomId) (g : GrantRef) (wr : bool) (h : GrantHandle)
    (s s' : System) : Prop :=
  (exists f ro, authority s from g = Some (to, f, ro) /\ (wr = true -> ro = false)) /\
  existsb (holds to h) (maps s) = false /\
  (forall k, k < h -> existsb (holds to k) (maps s) = true) /\
  Inv s' /\ same_authority s s' /\ added (mkMapping true to h from g wr) s s' /\
  vlen (maps s') <= vlen (maps s) + 1.

Lemma map_final s to from g wr f ro n w h :
  Inv s -> tget (domains s) from g = Some (Access to f ro n w) -> (wr = true -> ro = false) ->
  existsb (holds to h) (maps s) = false ->
  (forall k, k < h -> existsb (holds to k) (maps s) = true) ->
  let m := mkMapping true to h from g wr in
  let s' := set_maps (slot_insert active (maps s) m)
              (set_entry from g (Access to f ro (n + 1) (if wr then w + 1 else w)) s) in
  mapped to from g wr h s s'.
Proof.
  intros (HW & HD & HL) Ht Hro Hfree Hbelow m. cbv zeta.
  destruct (alloc_slot (maps s) m eq_refl) as (Hcount & Hin & Hlen & i & Hi & Hrest).
  destruct (count_live s from g n w to f ro HW Ht) as [Hn Hw].
  set (l' := slot_insert active (maps s) m) in *.
  assert (Hlive : forall d' g', live_on d' g' m = bool_decide (d' = from /\ g' = g)).
  { intros. apply eq_iff_eq_true. rewrite live_on_true, bool_decide_eq_true. simpl. naive_solver. }
  assert (Hc1 : forall d' g', count (live_on d' g') l' = count (live_on d' g') (maps s) +
      (if bool_decide (d' = from /\ g' = g) then 1 else 0)).
  { intros. rewrite Hcount by apply live_on_active. by rewrite Hlive. }
  assert (Hc2 : forall d' g', count (fun m => live_on d' g' m && writable m) l' =
      count (fun m => live_on d' g' m && writable m) (maps s) +
      (if bool_decide (d' = from /\ g' = g) && wr then 1 else 0)).
  { intros. rewrite Hcount by (intros x [? _]%andb_true_iff; by eapply live_on_active).
    by rewrite Hlive. }
  assert (HW' : Wf (set_maps l' (set_entry from g (Access to f ro (n + 1)
    (if wr then w + 1 else w)) s))).
  { replace (n + 1) with (count (live_on from g) l')
      by (rewrite Hc1, bool_decide_true by done; congruence).
    replace (if wr then w + 1 else w) with (count (fun m => live_on from g m && writable m) l')
      by (rewrite Hc2, bool_decide_true, <- Hw by done; simpl; destruct wr; lia).
    eapply Wf_recount; [done|done| |].
    - intros d' g' Hne. rewrite Hc1, Hc2, bool_decide_false by done. simpl. lia.
    - intros x Hx Ha. apply Hin in Hx as [->|?]; [right|by left|done]. by split_and!. }
  split_and!.
  - exists f, ro. split; [|done]. unfold authority. by rewrite Ht.
  - done.
  - done.
  - split; [done|]. unfold distinct_handles, low_handles. split; simpl.
    + eapply (distinct_handles_add (maps s) m i); [done| |done|done].
      intros x Hx Ha Hk. rewrite existsb_false in Hfree. specialize (Hfree x Hx).
      assert (holds to h x = true) by (apply holds_true; split; [done|by rewrite Hk]). congruence.
    + intros x Hx Ha. pose proof (vlen_slot_insert active (maps s) m) as Hge.
      fold l' in Hge. pose proof (handles_below s to h Hbelow).
      apply Hin in Hx as [->|Hx]; [simpl; lia| |done]. pose proof (HL x Hx Ha). lia.
  - by eapply authority_recount.
  - by split.
  - done.
Qed.

(** When the grantee may map the entry. *)
Definition mappable (s : System) (to from : DomId) (g : GrantRef) (wr : bool) : Prop :=
  exists f ro, authority s from g = Some (to, f, ro) /\ (wr = true -> ro = false).

Lemma wp_map to from g wr s :
  Inv s -> vlen (maps s) <= u32_max -> wp (map to from g wr) (fun s' r =>
    match r with
    | Ok h => mapped to from g wr h s s'
    | Err _ => s' = s /\ (vlen (maps s) < u32_max -> ~ mappable s to from g wr)
    end) s.
Proof.
  intros HI Hcap. pose proof HI as [HW _]. unfold map. wp_step. wp_step. wp_step. wp_step.
  2: { split; [done|]. intros _ (f & ro & Ha & _). unfold authority in Ha.
    match goal with H : entry _ _ _ = Err _ |- _ => apply entry_Err in H; by rewrite H in Ha end. }
  match goal with H : entry _ _ _ = Ok ?x |- _ =>
    pose proof H as He; apply entry_Ok in H as Ht; rename x into e end.
  wp_step. 
  assert (Hau : forall to0 f0 ro0, authority s from g = Some (to0, f0, ro0) ->
    exists n w, e = Access to0 f0 ro0 n w).
  { intros to0 f0 ro0. unfold authority. rewrite Ht. destruct e; naive_solver. }
  destruct e as [|to' f ro n w]; cbn beta iota.
  { wp_step. split; [done|]. intros _ (f & ro & Ha & _). apply Hau in Ha. naive_solver. }
  wp_step. wp_step. wp_step.
  2: { split; [done|]. intros _ (f' & ro' & Ha & _). apply Hau in Ha. naive_solver. }
  wp_step. wp_step.
  2: { split; [done|]. intros _ (f' & ro' & Ha & Hr). apply Hau in Ha. simpl in *.
    destruct Ha as (n' & w' & [= -> -> -> -> ->]). destruct wr, ro'; naive_solver. }
  simpl in *. subst to'.
  assert (Hro : wr = true -> ro = false) by (by destruct wr, ro).
  destruct (inv_entry s HW _ _ _ _ _ _ _ Ht) as (_ & Hle & _ & Hcn & _).
  wp_step. apply wp_unwrap. eexists. split; [done|]. cbn beta iota.
  wp_step. wp_step. unfold counts_after_map. wp_step. wp_step.
  2: { split; [done|]. intros Hlt _.
    match goal with H : checked_add _ _ _ = None |- _ => apply checked_add_None in H end.
    pose proof (count_le_vlen (live_on from g) (maps s)). lia. }
  match goal with H : checked_add _ _ _ = Some _ |- _ =>
    apply checked_add_Some in H as [Hmax ->] end.
  apply wp_bind. apply wp_mono with (Q := fun s' x => s' = s /\ x = if wr then w + 1 else w).
  { destruct wr; [apply wp_uadd; [lia|done]|by wp_step]. }
  intros s0 w' [-> ->]. wp_step. wp_step. wp_step. wp_step. wp_step.
  apply wp_alloc_handle; [done|]. intros h Hfree Hbelow. cbv zeta. simpl in Hfree, Hbelow.
  destruct (map_final s to from g wr f ro n w h HI Ht Hro Hfree Hbelow) as (? & ? & ? & HI' & ? & ?).
  wp_step. apply grant_wp_check; [apply HI'|]. wp_step. done.
Qed.

(** *** Unmapping *)

Lemma removed_elem l i m x :
  vget l i = Some m -> x ∈ vset l i (deactivate m) -> active x = true -> x ∈ l.
Proof.
  intros Hi [j Hj]%elem_vget Ha. rewrite vget_vset in Hj. case_decide.
  - injection Hj as <-. done.
  - by eapply vget_elem.
Qed.

Lemma count_removed f l i m :
  (forall x, f x = true -> active x = true) -> vget l i = Some m ->
  count f (vset l i (deactivate m)) + (if f m then 1 else 0) = count f l.
Proof.
  intros Hf Hi. pose proof (count_vset f l i (deactivate m) m Hi) as Hc.
  destruct (f (deactivate m)) eqn:E; [by apply Hf in E|lia].
Qed.

(** What a successful [unmap] leaves: slot [i], which held [m], is inactive. *)
Definition unmapped (to : DomId) (h : GrantHandle) (u : Unmapped) (s s' : System) : Prop :=
  exists i m, vget (maps s) i = Some m /\ holds to h m = true /\
    u = mkUnmapped (frame_of s m) (writable m) /\
    maps s' = vset (maps s) i (deactivate m) /\ Inv s' /\ same_authority s s'.

Lemma wp_unmap to h s :
  Inv s -> wp (unmap to h) (fun s' r =>
    match r with
    | Ok u => unmapped to h u s s'
    | Err _ => s' = s /\ existsb (holds to h) (maps s) = false
    end) s.
Proof.
  intros (HW & HD & HL). unfold unmap. wp_step. wp_step. wp_step. wp_step.
  2: { split; [done|]. apply existsb_false. by apply position_None. }
  match goal with H : position _ _ = Some ?x |- _ => rename x into i;
    apply position_Some in H as [(m & Hi & Hh) _] end.
  pose proof (vget_elem _ _ _ Hi) as Hm.
  pose proof (proj1 (holds_true _ _ _) Hh) as [Ha Hk].
  destruct (inv_backed s HW m Hm Ha) as (f & ro & n & w & Ht & Hw).
  destruct (count_live s _ _ n w _ f ro HW Ht) as [Hn Hwc].
  wp_step. apply wp_index. exists m. split; [done|]. wp_step.
  rewrite (proj2 (entry_Ok _ _ _ _) Ht). cbn beta iota. wp_step. wp_step. wp_step. wp_step.
  wp_step.
  set (l' := vset (maps s) i (deactivate m)).
  assert (Hlive : forall d' g', live_on d' g' m = bool_decide (d' = grantor m /\ g' = gref m)).
  { intros. apply eq_iff_eq_true. rewrite live_on_true, bool_decide_eq_true. naive_solver. }
  assert (Hc1 : forall d' g', count (live_on d' g') l' +
      (if bool_decide (d' = grantor m /\ g' = gref m) then 1 else 0) =
      count (live_on d' g') (maps s)).
  { intros. rewrite <- Hlive. apply count_removed; [apply live_on_active|done]. }
  assert (Hc2 : forall d' g', count (fun m => live_on d' g' m && writable m) l' +
      (if bool_decide (d' = grantor m /\ g' = gref m) && writable m then 1 else 0) =
      count (fun m => live_on d' g' m && writable m) (maps s)).
  { intros. rewrite <- Hlive.
    apply (count_removed (fun m => live_on d' g' m && writable m)); [|done].
    intros x [? _]%andb_true_iff. by eapply live_on_active. }
  assert (HW' : Wf (set_maps l' (set_entry (grantor m) (gref m) (Access (grantee m) f ro
    (n - 1) (if writable m then w - 1 else w)) s))).
  { specialize (Hc1 (grantor m) (gref m)) as Hn'. specialize (Hc2 (grantor m) (gref m)) as Hw'.
    rewrite bool_decide_true in Hn', Hw' by done. simpl in Hw'.
    replace (n - 1) with (count (live_on (grantor m) (gref m)) l') by lia.
    replace (if writable m then w - 1 else w) with
      (count (fun x => live_on (grantor m) (gref m) x && writable x) l')
      by (destruct (writable m); lia).
    eapply Wf_recount; [done|done| |].
    - intros d' g' Hne. specialize (Hc1 d' g'). specialize (Hc2 d' g').
      rewrite bool_decide_false in Hc1, Hc2 by done. simpl in Hc2. lia.
    - intros x Hx Hax. left. by eapply removed_elem. }
  wp_step. apply grant_wp_check; [done|]. wp_step. exists i, m. split_and!; try done.
  - unfold frame_of. rewrite granted_frame_authority. unfold authority. by rewrite Ht.
  - split; [done|]. unfold distinct_handles, low_handles. split; simpl.
    2: { intros x Hx Hax. unfold l' in *. rewrite vlen_vset. apply HL; [|done].
         by eapply removed_elem. }
    intros j k mj mk Hj Hk' Haj Hak. unfold l' in *. rewrite vget_vset in Hj, Hk'.
    case_decide; [by simplify_eq|]. case_decide; [by simplify_eq|]. by eapply HD.
  - by eapply authority_recount.
Qed.

(** *** Drains *)

(** [unmapped] seen from the accounts of the frames and from the table. *)
Lemma unmapped_ext to h u s s' b f :
  unmapped to h u s s' ->
  ext s b f = ext s' b f + (if released_over b f u then 1 else 0).
Proof.
  intros (i & m & Hi & [Ha Hk]%holds_true & -> & Hmaps & _ & Hsa). unfold ext. rewrite Hmaps.
  rewrite (count_ext (over s' b f) (over s b f)) by (intros; by apply over_same).
  assert (Ho : released_over b f (mkUnmapped (frame_of s m) (writable m)) = over s b f m)
    by (unfold over, released_over; simpl; by rewrite Ha).
  rewrite Ho. symmetry. apply count_removed; [|done].
  intros x. unfold over. by intros [[? _]%andb_true_iff _]%andb_true_iff.
Qed.

Lemma unmapped_elem to h u s s' x :
  Inv s -> unmapped to h u s s' -> active x = true ->
  x ∈ maps s' <-> x ∈ maps s /\ key x <> (to, h).
Proof.
  intros (_ & HD & _) (i & m & Hi & [Ha Hk]%holds_true & -> & Hmaps & _ & Hsa) Hx. rewrite Hmaps. split.
  - intros Hin. split; [by eapply removed_elem|]. intros Hkx.
    apply elem_vget in Hin as [j Hj]. rewrite vget_vset in Hj. case_decide as Hc; [by simplify_eq|].
    apply Hc. split; [|by eapply vget_Some_lt]. eapply HD; [done..|]. congruence.
  - intros [[j Hj]%elem_vget Hne]. eapply vget_elem with j. rewrite vget_vset_ne; [done|].
    intros ->. congruence.
Qed.

(** Unmapping a list of distinct held handles: each is released, nothing else is. *)
Lemma wp_drain {X} (l : list X) (f : X -> DomId * GrantHandle) s :
  Inv s -> NoDup (f <$> l) ->
  (forall x, x ∈ l -> exists m, m ∈ maps s /\ active m = true /\ key m = f x) ->
  wp (for_collect l (fun x => let! r := unmap (fst (f x)) (snd (f x)) in unwrap r))
    (fun s' us => Inv s' /\ same_authority s s' /\ vlen (maps s') = vlen (maps s) /\
      (forall b fr, ext s b fr = ext s' b fr + count (released_over b fr) us) /\
      forall x, active x = true -> x ∈ maps s' <-> x ∈ maps s /\ key x ∉ f <$> l) s.
Proof.
  intros HI Hnd Hin.
  apply wp_for_collect with (I := fun done us s' =>
    Inv s' /\ same_authority s s' /\ vlen (maps s') = vlen (maps s) /\
    (forall b fr, ext s b fr = ext s' b fr + count (released_over b fr) us) /\
    forall x, active x = true -> x ∈ maps s' <-> x ∈ maps s /\ key x ∉ f <$> done).
  - split_and!; [done..|intros; simpl; lia|]. intros x _. simpl. pose proof (not_elem_of_nil (key x)). tauto.
  - intros l1 x l2 us s1 Hl (HI1 & Hsa & Hlen & Hext & Hel). wp_step. wp_apply wp_unmap; [done|].
    intros s2 [u|e]; cbn beta iota.
    + intros Hu. apply wp_unwrap. exists u. split; [done|].
      pose proof Hu as (i & m & _ & _ & _ & Hmaps & HI2 & Hsa2). split_and!; [done| | | |].
      * by eapply same_authority_trans.
      * by rewrite Hmaps, vlen_vset.
      * intros b fr. rewrite Hext, (unmapped_ext _ _ _ _ _ b fr Hu), count_app. simpl. lia.
      * intros y Hy. rewrite (unmapped_elem _ _ _ _ _ _ HI1 Hu Hy), Hel by done.
        rewrite fmap_app. simpl. rewrite not_elem_of_app, list_elem_of_singleton.
        rewrite <- surjective_pairing. tauto.
    + intros [-> Hn]. exfalso. destruct (Hin x) as (m & Hm & Ha & Hk).
      { rewrite Hl. apply elem_of_app. right. by left. }
      rewrite existsb_false in Hn. specialize (Hn m).
      rewrite (proj2 (holds_true _ _ _)) in Hn.
      * by specialize (Hn ltac:(apply Hel; [done|]; split; [done|];
          rewrite Hk; rewrite Hl, fmap_app in Hnd; simpl in Hnd;
          apply list.NoDup_app in Hnd as (_ & Hnd & _); intros Hx;
          by apply (Hnd _ Hx); left)).
      * by rewrite <- surjective_pairing.
  - done.
Qed.

(** The keys of the selected active mappings have no duplicates. *)
Lemma NoDup_keys (l : list Mapping) (p : Mapping -> bool) :
  (forall i j mi mj, vget l i = Some mi -> vget l j = Some mj ->
    active mi = true -> active mj = true -> key mi = key mj -> i = j) ->
  (forall m, p m = true -> active m = true) -> NoDup (key <$> List.filter p l).
Proof.
  intros HD Hp. induction l as [|m l IH]; simpl; [constructor|].
  assert (Hc : forall i (x : Mapping), vget (m :: l) (N.succ i) = Some x <-> vget l i = Some x)
    by (intros; unfold vget; by rewrite N2Nat.inj_succ).
  assert (HD' : NoDup (key <$> List.filter p l)).
  { apply IH. intros i j mi mj Hi Hj Hai Haj Hk. apply N.succ_inj. apply Hc in Hi, Hj. by eapply HD. }
  destruct (p m) eqn:Hpm; [|done]. simpl. apply list.NoDup_cons. split; [|done].
  intros (x & Hk & [Hx Hpx]%list_elem_of_In%filter_In)%list_elem_of_fmap.
  apply list_elem_of_In, elem_vget in Hx as [i Hi]. apply Hc in Hi.
  assert (0 = N.succ i); [|lia]. eapply HD; [done|exact Hi|auto..].
Qed.

(** What a drain of the mappings selected by [p] leaves. *)
Definition drained (p : Mapping -> bool) (us : list Unmapped) (s s' : System) : Prop :=
  Inv s' /\ same_authority s s' /\ vlen (maps s') = vlen (maps s) /\
  (forall b f, ext s b f = ext s' b f + count (released_over b f) us) /\
  (forall x, active x = true -> x ∈ maps s' <-> x ∈ maps s /\ p x = false).

Lemma drained_intro {X} (p : Mapping -> bool) (proj : Mapping -> X) (f : X -> DomId * GrantHandle) s :
  Inv s -> (forall m, p m = true -> active m = true) ->
  (forall m, p m = true -> f (proj m) = key m) ->
  wp (for_collect (proj <$> List.filter p (maps s))
    (fun x => let! r := unmap (fst (f x)) (snd (f x)) in unwrap r))
    (fun s' us => drained p us s s') s.
Proof.
  intros HI Hp Hf.
  assert (Hk : f <$> (proj <$> List.filter p (maps s)) = key <$> List.filter p (maps s)).
  { rewrite <- list_fmap_compose. apply list_fmap_ext. intros i m Hm. simpl. apply Hf.
    apply list_elem_of_lookup_2, elem_filter_bool in Hm. tauto. }
  wp_apply (wp_drain (proj <$> List.filter p (maps s)) f s); [done| | |].
  - rewrite Hk. apply NoDup_keys; [apply HI|done].
  - intros x (m & -> & [Hm Hpm]%elem_filter_bool)%list_elem_of_fmap. exists m.
    split_and!; [done|by apply Hp|by rewrite Hf].
  - intros s' us (HI' & Hsa & Hlen & Hext & Hel). split_and!; try done.
    intros x Ha. rewrite Hel by done. rewrite Hk.
    cut (x ∈ maps s -> key x ∉ key <$> List.filter p (maps s) <-> p x = false); [tauto|].
    intros Hx. split.
    + intros Hn. apply not_true_iff_false. intros Hpx. apply Hn. apply list_elem_of_fmap.
      exists x. split; [done|]. by apply elem_filter_bool.
    + intros Hpx (m & Hkm & [Hm Hpm]%elem_filter_bool)%list_elem_of_fmap.
      apply elem_vget in Hx as [i Hi], Hm as [j Hj].
      assert (i = j) as -> by (eapply (proj1 (proj2 HI)); eauto). congruence.
Qed.

Definition held_by (to : DomId) (m : Mapping) : bool := active m && (grantee m =? to).
Definition foreign_on (target : DomId) (m : Mapping) : bool :=
  active m && (grantor m =? target) && negb (grantee m =? target).

Lemma wp_drain_maps_of to s :
  Inv s -> wp (drain_maps_of to) (fun s' us => drained (held_by to) us s s') s.
Proof.
  intros HI. unfold drain_maps_of. wp_step. wp_step.
  apply (drained_intro (held_by to) handle (fun h => (to, h)) s); [done| |];
    unfold held_by, key; intros m [? ?%N.eqb_eq]%andb_true_iff; congruence.
Qed.

Lemma wp_drain_foreign_maps_of target s :
  Inv s -> wp (drain_foreign_maps_of target) (fun s' us => drained (foreign_on target) us s s') s.
Proof.
  intros HI. unfold drain_foreign_maps_of. wp_step. wp_step.
  apply (drained_intro (foreign_on target) (fun m => (grantee m, handle m)) (fun p => p) s);
    [done| |done].
  unfold foreign_on. by intros m [[? _]%andb_true_iff _]%andb_true_iff.
Qed.

(** *** Revocation *)

Lemma authority_bounds s d g a :
  Inv s -> authority s d g = Some a ->
  d ∈ vrange (as_u16 (domain_count s)) /\ g ∈ vrange (as_u32 (entry_count s d)).
Proof.
  intros [HW _]. unfold authority. destruct (tget (domains s) d g) as [e|] eqn:E; [|done].
  intros _. apply tget_Some_lt in E as [Hd Hg]. rewrite !elem_vrange, entry_count_twidth.
  rewrite as_u16_id, as_u32_id by apply HW. done.
Qed.

(** The state of a revocation sweep: some entries are ended, by the selector [f]. *)
Definition revoked (f : DomId -> GrantRef -> option (DomId * Frame * bool) ->
    option (DomId * Frame * bool)) (s s' : System) : Prop :=
  Inv s' /\ same_shape s s' /\ maps s' = maps s /\
  forall d g, authority s' d g = f d g (authority s d g).

Lemma wp_end_sweep d g s (Q : System -> unit -> Prop) :
  Inv s -> is_Some (authority s d g) -> count (live_on d g) (maps s) = 0 ->
  (forall s', revoked (fun d' g' a => if decide (d' = d /\ g' = g) then None else a) s s' ->
    Q s' tt) ->
  wp (let! r := end_access d g in dbg_assert (is_ok r)) Q s.
Proof.
  intros HI [a Ha] Hc HQ. wp_step. wp_apply wp_end_access; [done|].
  intros s' [[]|e]; cbn beta iota.
  - intros (_ & _ & HI' & Hsh & Hm & Hauth). apply wp_dbg_assert; [done|].
    apply HQ. by split_and!.
  - intros [_ [Hn|Hn] ]; [congruence|lia].
Qed.

Lemma wp_revoke_all from s :
  Inv s -> (forall g, count (live_on from g) (maps s) = 0) ->
  wp (revoke_all from) (fun s' _ =>
    revoked (fun d _ a => if decide (d = from) then None else a) s s') s.
Proof.
  intros HI Hlive. unfold revoke_all. wp_step. wp_step.
  apply wp_for_each with (I := fun done => revoked (fun d g a =>
    if decide (d = from /\ g ∈ done) then None else a) s).
  - split_and!; [done..|]. intros d g. rewrite decide_False; [done|].
    intros [_ Hn]. by apply elem_of_nil in Hn.
  - intros l1 g l2 s1 Hl (HI1 & Hsh & Hm & Ha). wp_step. wp_step.
    rewrite is_granted_authority. case_bool_decide as Hg.
    + apply wp_end_sweep; [done|done|by rewrite Hm|].
      intros s2 (HI2 & Hsh2 & Hm2 & Ha2). split_and!; [done| |congruence|].
      * by eapply grant_same_shape_trans.
      * intros d' g'. rewrite Ha2, Ha. sweep_cases.
    + wp_step. split_and!; [done..|]. intros d' g'. rewrite Ha. sweep_cases.
      assert (d' = from /\ g' = g) as [-> ->] by naive_solver. rewrite Ha in Hg.
      rewrite decide_False in Hg by done. apply eq_None_not_Some in Hg. done.
  - intros s' (HI' & Hsh & Hm & Ha). split_and!; [done..|]. intros d g. rewrite Ha.
    repeat case_decide; try done; [naive_solver|].
    destruct (authority s d g) as [a|] eqn:Hag; [|done]. exfalso.
    apply (authority_bounds _ _ _ _ HI) in Hag as [_ Hag]. subst. naive_solver.
Qed.

Definition strip (to : DomId) (a : option (DomId * Frame * bool)) :
  option (DomId * Frame * bool) :=
  match a with
  | Some (t, f, ro) => if decide (t = to) then None else a
  | None => None
  end.

Lemma strip_None to a : fst ∘ fst <$> a <> Some to -> strip to a = a.
Proof.
  destruct a as [[[t f] ro]|]; [|done]. simpl. intros Hn. rewrite decide_False; [done|].
  intros ->. done.
Qed.

Lemma strip_Some to a : fst ∘ fst <$> a = Some to -> strip to a = None.
Proof. destruct a as [[[t f] ro]|]; [|done]. simpl. intros [= ->]. by rewrite decide_True. Qed.

(** A domain that holds no mapping has none on the entries granted to it. *)
Lemma live_grantee s d g to :
  Wf s -> (forall m, m ∈ maps s -> active m = true -> grantee m <> to) ->
  grantee_of s d g = Some to -> count (live_on d g) (maps s) = 0.
Proof.
  intros HW Hn Hg. apply count_zero. intros m Hm. apply not_true_iff_false.
  intros [Ha [<- <-]]%live_on_true. apply (Hn m Hm Ha).
  destruct (inv_backed s HW m Hm Ha) as (f & ro & n & w & Ht & _).
  rewrite grantee_of_authority in Hg. unfold authority in Hg. rewrite Ht in Hg. by injection Hg.
Qed.

Lemma wp_revoke_grants_to to s :
  Inv s -> (forall m, m ∈ maps s -> active m = true -> grantee m <> to) ->
  wp (revoke_grants_to to) (fun s' _ => revoked (fun _ _ => strip to) s s') s.
Proof.
  intros HI Hn. unfold revoke_grants_to. wp_step. wp_step.
  apply wp_for_each with (I := fun done => revoked (fun d g a =>
    if decide (d ∈ done) then strip to a else a) s).
  - split_and!; [done..|]. intros d g. rewrite decide_False; [done|]. apply not_elem_of_nil.
  - intros l1 d l2 s1 Hl Hrev. wp_step. wp_step.
    apply wp_for_each with (I := fun done => revoked (fun d' g a =>
      if decide (d' ∈ l1 \/ d' = d /\ g ∈ done) then strip to a else a) s).
    + destruct Hrev as (HI1 & Hsh & Hm & Ha). split_and!; [done..|]. intros d' g. rewrite Ha.
      pose proof (not_elem_of_nil g). repeat case_decide; naive_solver.
    + intros k1 g k2 s2 Hk (HI2 & Hsh2 & Hm2 & Ha2). wp_step. wp_step. case_decide as Hg.
      * apply wp_end_sweep; [done| | |].
        -- rewrite grantee_of_authority in Hg. destruct (authority s2 d g); [by eexists|done].
        -- eapply live_grantee; [apply HI2|by rewrite Hm2|done].
        -- intros s3 (HI3 & Hsh3 & Hm3 & Ha3). split_and!; [done| |congruence|].
           { by eapply grant_same_shape_trans. }
           intros d' g'. rewrite Ha3. case_decide as Hc.
           ++ destruct Hc as [-> ->]. rewrite decide_True.
              2: { right. split; [done|]. apply elem_of_app. right. by left. }
              rewrite grantee_of_authority, Ha2 in Hg. case_decide as Hd.
              ** destruct (authority s d g) as [[[t f] ro]|]; [|done]. simpl in *.
                 unfold strip in *. by destruct (decide (t = to)) as [|Hne] eqn:Et; simplify_eq/=; rewrite ?Et.
              ** by rewrite strip_Some.
           ++ rewrite Ha2. sweep_cases.
      * wp_step. split_and!; [done..|]. intros d' g'. rewrite Ha2. sweep_cases.
        assert (d' = d /\ g' = g) as [-> ->] by naive_solver.
        rewrite grantee_of_authority, Ha2, decide_False in Hg by done. by rewrite strip_None.
    + intros s2 (HI2 & Hsh2 & Hm2 & Ha2). split_and!; [done..|]. intros d' g'. rewrite Ha2. sweep_cases.
      destruct (authority s d' g') as [a|] eqn:Hag; [|done]. exfalso.
      apply (authority_bounds _ _ _ _ HI) in Hag as [_ Hag].
      destruct Hrev as (_ & [_ Hw1] & _). rewrite Hw1 in *. naive_solver.
  - intros s' (HI' & Hsh & Hm & Ha). split_and!; [done..|]. intros d g. rewrite Ha.
    case_decide; [done|]. destruct (authority s d g) as [a|] eqn:Hag; [|done]. exfalso.
    apply (authority_bounds _ _ _ _ HI) in Hag as [Hag _]. done.
Qed.

(** *** Queries *)

Lemma any_grant_to_spec s to :
  Inv s -> any_grant_to s to = true <-> exists d g f ro, authority s d g = Some (to, f, ro).
Proof.
  intros HI. unfold any_grant_to. rewrite existsb_elem. setoid_rewrite existsb_elem.
  setoid_rewrite bool_decide_eq_true. setoid_rewrite grantee_of_authority. split.
  - intros (d & _ & g & _ & H). exists d, g. destruct (authority s d g) as [[[t f] ro]|]; [|done].
    simpl in H. injection H as ->. eauto.
  - intros (d & g & f & ro & H). destruct (authority_bounds _ _ _ _ HI H) as [Hd Hg].
    exists d. split; [done|]. exists g. by rewrite H.
Qed.

(** [copy] succeeds exactly on the authority of the entry. *)
Lemma copy_spec s to from g w :
  copy s to from g w = Ok tt <->
  exists f ro, authority s from g = Some (to, f, ro) /\ (w = true -> ro = false).
Proof.
  unfold copy, authority.
  destruct (entry s from g) as [e|e] eqn:E; [apply entry_Ok in E|apply entry_Err in E];
    rewrite E; [|naive_solver].
  destruct e as [|to' f ro n k]; [naive_solver|]. case_decide as Ht; [subst|naive_solver].
  destruct w, ro; simpl; naive_solver.
Qed.

(** A mapping that was just made and is taken back. *)
Lemma mapped_unmapped to from g wr h u s s1 s2 :
  mapped to from g wr h s s1 -> unmapped to h u s1 s2 ->
  u = mkUnmapped (frame_of s (mkMapping true to h from g wr)) wr /\
  Inv s2 /\ same_authority s s2 /\
  (forall m, active m = true -> m ∈ maps s2 <-> m ∈ maps s) /\
  (forall f, (forall x, f x = true -> active x = true) ->
     count f (maps s2) = count f (maps s)) /\
  vlen (maps s2) <= vlen (maps s) + 1.
Proof.
  intros (_ & Hfree & _ & HI1 & Hsa1 & [Hcnt Hin1] & Hlen) Hu.
  pose proof Hu as (i & m & Hi & Hh & Hueq & Hmaps & HI2 & Hsa2).
  set (new := mkMapping true to h from g wr) in *. rewrite existsb_false in Hfree.
  assert (m = new) as ->.
  { apply holds_true in Hh as Hh'. destruct Hh' as [Ha Hk].
    apply vget_elem in Hi as Hmin. apply Hin1 in Hmin as [->|Hmin]; [done| |done].
    specialize (Hfree m Hmin). congruence. }
  split_and!; [|done|by eapply same_authority_trans| | |by rewrite Hmaps, vlen_vset].
  - by rewrite Hueq, (frame_of_same _ _ _ Hsa1).
  - intros x Hx. rewrite (unmapped_elem _ _ _ _ _ _ HI1 Hu Hx), Hin1 by done. split.
    + intros [ [->|?] Hk]; [|done]. by exfalso.
    + intros Hxin. split; [by right|]. intros Hk. specialize (Hfree x Hxin).
      rewrite (proj2 (holds_true _ _ _)) in Hfree; done.
  - intros f Hf. pose proof (count_removed f _ _ _ Hf Hi) as H1. rewrite <- Hmaps in H1.
    pose proof (Hcnt f Hf). lia.
Qed.

(** ** Properties *)

(** The runtime check of the grant table decides its invariant: it reports no violation
    exactly when every grantee exists, no read-only entry is mapped writable, every map
    count is the number of live mappings on the entry, and every live mapping stands on an
    entry that permits it. *)
Theorem grant_check_decides (s : System) :
  vlen (domains s) <= u16_max -> (forall d, twidth (domains s) d <= u32_max) ->
  (invariants_hold s = true <-> Wf s).
Proof.
  intros H1 H2. rewrite <- (grant_first_violation_None s H1 H2). unfold invariants_hold.
  destruct (first_violation s); split; done.
Qed.

Theorem grant_check_decides_witness : invariants_hold (new 2 3) = true <-> Wf (new 2 3).
Proof.
  refine (grant_check_decides (new 2 3) _ _).
  - vm_compute. discriminate.
  - intros d. refine (N.le_trans _ 3 _ (twidth_vrepeat 2 3 _ d) _). vm_compute. discriminate.
Defined.

(** Mapping and unmapping. [map] never panics, its search for a handle ends, and it
    succeeds exactly when the entry offers a frame to this grantee and a writable request
    meets a writable grant. The handle is the lowest the grantee does not use; unmapping it
    returns the granted frame and the access taken, and leaves the table as it was before
    the map: the same entries, the same live mappings, every count of them restored. *)
Theorem map_unmap_roundtrip (s : System) (to from : DomId) (g : GrantRef) (wr : bool) :
  Inv s -> vlen (maps s) < u32_max ->
  exists s1 r, map to from g wr s = Done s1 r /\ Inv s1 /\ same_authority s s1 /\
    ((exists h, r = Ok h) <-> mappable s to from g wr) /\
    forall h, r = Ok h ->
      existsb (holds to h) (maps s) = false /\
      (forall k, k < h -> existsb (holds to k) (maps s) = true) /\
      exists s2 f, unmap to h s1 = Done s2 (Ok (mkUnmapped f wr)) /\
        granted_frame s from g = Some f /\ Inv s2 /\ same_authority s s2 /\
        (forall m, active m = true -> m ∈ maps s2 <-> m ∈ maps s) /\
        (forall q, (forall m, q m = true -> active m = true) ->
           count q (maps s2) = count q (maps s)).
Proof.
  intros HI Hcap. destruct (wp_Done _ _ _ (wp_map to from g wr s HI ltac:(lia)))
    as (s1 & [h|e] & E & H).
  2: { destruct H as [-> Hn]. exists s, (Err e). split_and!; [done..| |done].
    split; [by intros [h ?]|]. intros Hm. by destruct (Hn Hcap). }
  exists s1, (Ok h). pose proof H as (Hau & Hfree & Hlow & HI1 & Hsa1 & [_ Hin] & _).
  split_and!; [done..| |].
  { split; [done|by exists h]. }
  intros h' [= <-]. split_and!; [done..|].
  destruct (wp_Done _ _ _ (wp_unmap to h s1 HI1)) as (s2 & [u|e] & E2 & H2).
  2: { exfalso. destruct H2 as [_ H2]. rewrite existsb_false in H2.
    specialize (H2 (mkMapping true to h from g wr)). rewrite (proj2 (holds_true _ _ _)) in H2 by done.
    assert (mkMapping true to h from g wr ∈ maps s1) as Hm by (apply Hin; auto).
    by specialize (H2 Hm). }
  destruct (mapped_unmapped _ _ _ _ _ _ _ _ _ H H2) as (-> & HI2 & Hsa2 & Hm2 & Hc2 & _).
  destruct Hau as (f & ro & Ha & _). exists s2, f. split_and!; [|by rewrite granted_frame_authority, Ha|done..].
  rewrite E2. unfold frame_of. simpl. by rewrite granted_frame_authority, Ha.
Qed.

(** A grant outlives its use: [end_access] never panics and withdraws an entry exactly
    when it offers a frame and nothing is mapped through it; no other entry and no mapping
    moves. *)
Theorem end_access_exact (s : System) (d : DomId) (g : GrantRef) :
  Inv s -> exists s' r, end_access d g s = Done s' r /\ Inv s' /\ maps s' = maps s /\
    (r = Ok tt <-> is_Some (authority s d g) /\ forall m, m ∈ maps s -> live_on d g m = false) /\
    forall d' g', authority s' d' g' =
      if decide (r = Ok tt /\ d' = d /\ g' = g) then None else authority s d' g'.
Proof.
  intros HI. destruct (wp_Done _ _ _ (wp_end_access d g s HI)) as (s' & [[]|e] & E & H).
  - destruct H as (Ha & Hz & HI' & _ & Hm & Hau). exists s', (Ok tt).
    split_and!; [done..| |].
    + split; [|done]. intros _. split; [done|]. by apply count_zero.
    + intros d' g'. rewrite Hau. repeat case_decide; tauto.
  - destruct H as [-> Hor]. exists s, (Err e). split_and!; [done..| |].
    + split; [done|]. intros [Ha Hz]. apply count_zero in Hz.
      destruct Hor as [Hn|Hp]; [rewrite Hn in Ha; by destruct Ha|lia].
    + intros d' g'. rewrite decide_False; [done|]. by intros [? _].
Qed.

(** The drains of a teardown are exact: [drain_maps_of] releases every mapping the
    domain holds and [drain_foreign_maps_of] every mapping another domain holds on its
    frames, nothing else; each reports, frame by frame and access by access, exactly the
    page references the released mappings held, and no entry is withdrawn. *)
Theorem drains_exact (s : System) (t : DomId) :
  Inv s ->
  (exists s' us, drain_maps_of t s = Done s' us /\ drained (held_by t) us s s') /\
  (exists s' us, drain_foreign_maps_of t s = Done s' us /\ drained (foreign_on t) us s s').
Proof.
  intros HI. split.
  - apply wp_Done, wp_drain_maps_of, HI.
  - apply wp_Done, wp_drain_foreign_maps_of, HI.
Qed.

(** A small table: domain 0 offers a frame to domain 1, which has it mapped. *)
Definition demo : System :=
  match grant_access 0 0 1 7 false (new 2 2) with
  | Done s _ => match map 1 0 0 true s with Done s' _ => s' | Panic => s end
  | Panic => new 2 2
  end.

Lemma grant_demo_Inv : Inv demo.
Proof.
  assert (HI : Inv (new 2 2)) by (apply grant_new_Inv; vm_compute; discriminate).
  destruct (wp_Done _ _ _ (wp_grant_access 0 0 1 7 false _ HI)) as (s & r & E & H).
  assert (HI1 : Inv s /\ vlen (maps s) <= u32_max).
  { destruct r as [[]|e]; [|by subst s].
    destruct H as (_ & _ & HI1 & _ & Hm & _). by rewrite Hm. }
  destruct HI1 as [HI1 Hc]. destruct (wp_Done _ _ _ (wp_map 1 0 0 true s HI1 Hc)) as (s' & r' & E' & H').
  unfold demo. rewrite E, E'. destruct r'; [by destruct H' as (_ & _ & _ & ? & _)|].
  by destruct H' as [-> _].
Qed.

Theorem map_unmap_roundtrip_witness :
  exists s1 r, map 1 0 0 false demo = Done s1 r /\ exists h, r = Ok h.
Proof.
  refine (match map_unmap_roundtrip demo 1 0 0 false grant_demo_Inv _ with
    | ex_intro _ s1 (ex_intro _ r (conj E (conj _ (conj _ (conj H _))))) =>
        ex_intro _ s1 (ex_intro _ r (conj E (proj2 H _)))
    end).
  - vm_compute. reflexivity.
  - exists 7, false. vm_compute. split; [reflexivity|discriminate].
Defined.

Theorem end_access_exact_witness :
  exists s' r, end_access 0 0 demo = Done s' r /\ maps s' = maps demo.
Proof.
  refine (match end_access_exact demo 0 0 grant_demo_Inv with
    | ex_intro _ s' (ex_intro _ r (conj E (conj _ (conj H _)))) =>
        ex_intro _ s' (ex_intro _ r (conj E H))
    end).
Defined.

Theorem drains_exact_witness :
  exists s' us, drain_maps_of 1 demo = Done s' us /\ drained (held_by 1) us demo s'.
Proof. refine (proj1 (drains_exact demo 1 grant_demo_Inv)). Defined.
