(* ===== verification/P2m.v ===== *)
(** * Page typing — [hv-core/src/p2m.rs]

    The frames with their reference counts and the page-table links between them in one
    [System]: allocation, the existence, executable and typed references, pins, links,
    the teardown sweeps, the queries of the seam and the invariant check. *)

From Stdlib Require Import NArith Lia.
From stdpp Require Import base numbers list option.
From S2P Require Import Prelude.
#[local] Open Scope N_scope.

(** ** Data *)

Inductive PtLevel : Type := L1 | L2 | L3 | L4.
#[global] Instance PtLevel_eq_dec : EqDecision PtLevel.
Proof. solve_decision. Defined.

Inductive PageType : Type :=
| Writable
| PageTable (level : PtLevel).
#[global] Instance PageType_eq_dec : EqDecision PageType.
Proof. solve_decision. Defined.

Definition interior_child_type (l : PtLevel) : option PageType :=
  match l with
  | L1 => None
  | L2 => Some (PageTable L1)
  | L3 => Some (PageTable L2)
  | L4 => Some (PageTable L3)
  end.

Definition level (t : PageType) : option PtLevel :=
  match t with Writable => None | PageTable l => Some l end.

(** The fields of the variant [Frame::Allocated]. *)
Record Alloc : Type := mkAlloc {
  f_owner : DomId;
  f_refs : N;
  writable_refs : N;
  f_executable_refs : N;
  pagetable_refs : N;
  pt_level : PtLevel;
  pinned : bool;
}.

Inductive Frame : Type :=
| Free
| Allocated (a : Alloc).

Inductive ChildRef : Type :=
| Bare
| Exec
| Typed (ty : PageType).

Definition entry_child_ref (l : PtLevel) (leaf writable execute : bool) : option ChildRef :=
  if leaf then
    Some (if writable then Typed Writable else if execute then Exec else Bare)
  else Typed <$> interior_child_type l.

Definition TABLE_SLOTS : N := 8.

Record Link : Type := mkLink {
  active : bool;
  parent : Mfn;
  slot : N;
  child : Mfn;
  writable : bool;
  leaf : bool;
  execute : bool;
}.

Record System : Type := mkSystem {
  frames : list Frame;
  links : list Link;
  num_domains : N;
}.

Inductive P2mError : Type :=
| BadFrame
| BadDomain
| WrongState
| TypePinned
| InUse
| NotYours
| Overflow
| BadSlot
| WxConflict.
#[global] Instance P2mError_eq_dec : EqDecision P2mError.
Proof. solve_decision. Defined.

Inductive Violation : Type :=
| OwnerGhostDomain (mfn : N)
| TypeConfusion (mfn : N)
| WriteExecuteConfusion (mfn : N)
| TypedExceedsRefs (mfn : N)
| PinnedNotPageTyped (mfn : N)
| MislevelledLink (parent slot : N)
| PagetableRefsAccounted (mfn : N).

(** ** Internals and queries *)

Definition frame (s : System) (m : Mfn) : result P2mError Frame :=
  ok_or (vget (frames s) m) BadFrame.

Definition link_index (s : System) (p : Mfn) (sl : N) : option N :=
  position (fun l => active l && (parent l =? p) && (slot l =? sl)) (links s).

(** The allocated frame at [m], if there is one. *)
Definition allocated (s : System) (m : Mfn) : option Alloc :=
  match frame s m with Ok (Allocated a) => Some a | _ => None end.

Definition is_allocated (s : System) (m : Mfn) : bool :=
  match allocated s m with Some _ => true | None => false end.

Definition owner_of (s : System) (m : Mfn) : option DomId := f_owner <$> allocated s m.
Definition refs (s : System) (m : Mfn) : option N := f_refs <$> allocated s m.
Definition executable_refs (s : System) (m : Mfn) : option N :=
  f_executable_refs <$> allocated s m.

Definition type_refs (s : System) (m : Mfn) (ty : PageType) : option N :=
  match allocated s m with
  | Some a =>
      Some match ty with
           | Writable => writable_refs a
           | PageTable l =>
               if decide (0 < pagetable_refs a /\ pt_level a = l) then pagetable_refs a else 0
           end
  | None => None
  end.

Definition current_type (s : System) (m : Mfn) : option PageType :=
  match allocated s m with
  | Some a =>
      if decide (0 < writable_refs a) then Some Writable
      else if decide (0 < pagetable_refs a) then Some (PageTable (pt_level a))
      else None
  | None => None
  end.

Definition is_pinned (s : System) (m : Mfn) : bool :=
  match allocated s m with Some a => pinned a | None => false end.

Definition child_at (s : System) (p : Mfn) (sl : N) : option Mfn :=
  match link_index s p sl with
  | Some i => child <$> vget (links s) i
  | None => None
  end.

Definition active_links (s : System) : N := count active (links s).

Definition link_edges (s : System) : list (Mfn * N * Mfn * bool * bool * bool) :=
  (fun l => (parent l, slot l, child l, writable l, leaf l, execute l)) <$>
    List.filter active (links s).

Definition has_foreign_link_into (s : System) (owner : DomId) : bool :=
  existsb (fun l => active l && bool_decide (owner_of s (child l) = Some owner) &&
                    bool_decide (owner_of s (parent l) <> Some owner)) (links s).

Definition is_foreign_linked (s : System) (m : Mfn) : bool :=
  existsb (fun l => active l && (child l =? m) &&
                    bool_decide (owner_of s (parent l) <> owner_of s m)) (links s).

Definition is_foreign_linked_by (s : System) (m : Mfn) (linker : DomId) : bool :=
  existsb (fun l => active l && (child l =? m) &&
                    bool_decide (owner_of s (parent l) = Some linker) &&
                    bool_decide (Some linker <> owner_of s m)) (links s).

Definition frame_count (s : System) : N := vlen (frames s).
Definition domain_count (s : System) : N := num_domains s.
Definition allocated_count (s : System) : N :=
  count (fun f => match f with Allocated _ => true | Free => false end) (frames s).

(** ** The invariant check *)

Definition frame_violation (m : N) (f : Frame) : M System (option Violation) :=
  let! s := get in
  match f with
  | Allocated a =>
      if decide (num_domains s <= f_owner a) then ret (Some (OwnerGhostDomain m))
      else if decide (0 < writable_refs a /\ 0 < pagetable_refs a) then
        ret (Some (TypeConfusion m))
      else if decide (0 < writable_refs a /\ 0 < f_executable_refs a) then
        ret (Some (WriteExecuteConfusion m))
      else
        let! wx := uadd u32_max (writable_refs a) (f_executable_refs a) in
        let! typed := uadd u32_max wx (pagetable_refs a) in
        if decide (f_refs a < typed) then ret (Some (TypedExceedsRefs m))
        else if pinned a && (pagetable_refs a =? 0) then ret (Some (PinnedNotPageTyped m))
        else ret None
  | Free => ret None
  end.

Definition link_ok (s : System) (l : Link) : bool :=
  match current_type s (parent l) with
  | Some (PageTable lv) =>
      match entry_child_ref lv (leaf l) (writable l) (execute l) with
      | Some Bare | Some Exec => is_allocated s (child l)
      | Some (Typed ty) => bool_decide (current_type s (child l) = Some ty)
      | None => false
      end
  | _ => false
  end.

Definition link_violation (l : Link) : M System (option Violation) :=
  let! s := get in
  if link_ok s l then ret None else ret (Some (MislevelledLink (parent l) (slot l))).

(** The page-table references the live links and the pin hold against frame [m]. *)
Definition held_refs (m : N) (a : Alloc) : M System N :=
  let! s := get in
  let! held := fold_m (List.filter active (links s)) (fun held l =>
      let! held := if parent l =? m then uadd u32_max held 1 else ret held in
      if (child l =? m) && negb (leaf l) then uadd u32_max held 1 else ret held) 0 in
  if pinned a then uadd u32_max held 1 else ret held.

Definition account_violation (m : N) (f : Frame) : M System (option Violation) :=
  match f with
  | Allocated a =>
      let! held := held_refs m a in
      if decide (pagetable_refs a < held) then ret (Some (PagetableRefsAccounted m))
      else ret None
  | Free => ret None
  end.

Definition first_violation : M System (option Violation) :=
  let! s := get in
  let! v := first_some_m (enumerate (frames s)) (fun mf => frame_violation (fst mf) (snd mf)) in
  match v with
  | Some v => ret (Some v)
  | None =>
      let! v := first_some_m (List.filter active (links s)) link_violation in
      match v with
      | Some v => ret (Some v)
      | None =>
          first_some_m (enumerate (frames s)) (fun mf => account_violation (fst mf) (snd mf))
      end
  end.

Definition invariants_hold : M System bool :=
  let! v := first_violation in ret (match v with None => true | Some _ => false end).

Definition check_invariants : M System unit :=
  let! v := first_violation in dbg_assert (match v with None => true | Some _ => false end).

(** ** Transitions *)

Definition new (num_domains num_frames : N) : System :=
  mkSystem (vrepeat num_frames Free) [] num_domains.

(** Writing through the reference [frame_mut] returns, and to the table of links. *)
Definition set_frame (m : Mfn) (f : Frame) (s : System) : System :=
  mkSystem (vset (frames s) m f) (links s) (num_domains s).
Definition set_links (l : list Link) (s : System) : System :=
  mkSystem (frames s) l (num_domains s).

Definition with_refs (r : N) (a : Alloc) : Alloc :=
  mkAlloc (f_owner a) r (writable_refs a) (f_executable_refs a) (pagetable_refs a)
    (pt_level a) (pinned a).
Definition with_writable (w : N) (a : Alloc) : Alloc :=
  mkAlloc (f_owner a) (f_refs a) w (f_executable_refs a) (pagetable_refs a)
    (pt_level a) (pinned a).
Definition with_executable (x : N) (a : Alloc) : Alloc :=
  mkAlloc (f_owner a) (f_refs a) (writable_refs a) x (pagetable_refs a) (pt_level a) (pinned a).
Definition with_pagetable (p : N) (a : Alloc) : Alloc :=
  mkAlloc (f_owner a) (f_refs a) (writable_refs a) (f_executable_refs a) p
    (pt_level a) (pinned a).
Definition with_level (l : PtLevel) (a : Alloc) : Alloc :=
  mkAlloc (f_owner a) (f_refs a) (writable_refs a) (f_executable_refs a) (pagetable_refs a)
    l (pinned a).
Definition with_pinned (b : bool) (a : Alloc) : Alloc :=
  mkAlloc (f_owner a) (f_refs a) (writable_refs a) (f_executable_refs a) (pagetable_refs a)
    (pt_level a) b.

Definition allocate (owner : DomId) (m : Mfn) : M System (result P2mError unit) :=
  let! s := get in
  ensure (owner < num_domains s) BadDomain ;?
  let? f := lift (frame s m) in
  match f with
  | Free =>
      modify (set_frame m (Allocated (mkAlloc owner 0 0 0 0 L1 false))) ;!
      check_invariants ;! ok tt
  | Allocated _ => err WrongState
  end.

Definition acquire_check (f : Frame) (ty : option PageType) : result P2mError unit :=
  match f with
  | Free => Err WrongState
  | Allocated a =>
      let blocked :=
        match ty with
        | None => None
        | Some Writable =>
            if decide (0 < f_executable_refs a) then Some WxConflict
            else if decide (0 < pagetable_refs a) then Some TypePinned else None
        | Some (PageTable l) =>
            if decide (0 < writable_refs a \/ 0 < pagetable_refs a /\ pt_level a <> l)
            then Some TypePinned else None
        end in
      match blocked with
      | Some e => Err e
      | None =>
          match checked_add u32_max (f_refs a) 1 with
          | None => Err Overflow
          | Some _ =>
              match ty with
              | None => Ok tt
              | Some ty =>
                  let slot := match ty with
                              | Writable => writable_refs a
                              | PageTable _ => pagetable_refs a end in
                  match checked_add u32_max slot 1 with
                  | None => Err Overflow
                  | Some _ => Ok tt
                  end
              end
          end
      end
  end.

Definition can_acquire (s : System) (m : Mfn) (ty : option PageType) : result P2mError unit :=
  match frame s m with Ok f => acquire_check f ty | Err e => Err e end.

(** [System::get] and [System::put]. *)
Definition get_ref (m : Mfn) : M System (result P2mError unit) :=
  let! s := get in
  let? f := lift (frame s m) in
  let? _ := lift (acquire_check f None) in
  match f with
  | Allocated a =>
      let? r := lift (ok_or (checked_add u32_max (f_refs a) 1) Overflow) in
      modify (set_frame m (Allocated (with_refs r a))) ;! ok tt
  | Free => err WrongState
  end ;?
  check_invariants ;! ok tt.

Definition put_ref (m : Mfn) : M System (result P2mError unit) :=
  let! s := get in
  let? f := lift (frame s m) in
  match f with
  | Allocated a =>
      let! wx := uadd u32_max (writable_refs a) (f_executable_refs a) in
      let! typed := uadd u32_max wx (pagetable_refs a) in
      ensure (f_refs a <> 0) WrongState ;?
      let! r := usub (f_refs a) 1 in
      ensure (typed <= r) InUse ;?
      modify (set_frame m (Allocated (with_refs r a))) ;! ok tt
  | Free => err WrongState
  end ;?
  check_invariants ;! ok tt.

Definition get_type (m : Mfn) (ty : PageType) : M System (result P2mError unit) :=
  let! s := get in
  let? f := lift (frame s m) in
  let? _ := lift (acquire_check f (Some ty)) in
  match f with
  | Allocated a =>
      let? r := lift (ok_or (checked_add u32_max (f_refs a) 1) Overflow) in
      match ty with
      | Writable =>
          let? w := lift (ok_or (checked_add u32_max (writable_refs a) 1) Overflow) in
          modify (set_frame m (Allocated (with_refs r (with_writable w a)))) ;! ok tt
      | PageTable l =>
          let a := if decide (pagetable_refs a = 0) then with_level l a else a in
          modify (set_frame m (Allocated a)) ;!
          let? p := lift (ok_or (checked_add u32_max (pagetable_refs a) 1) Overflow) in
          modify (set_frame m (Allocated (with_refs r (with_pagetable p a)))) ;! ok tt
      end
  | Free => err WrongState
  end ;?
  check_invariants ;! ok tt.

Definition put_type (m : Mfn) (ty : PageType) : M System (result P2mError unit) :=
  let! s := get in
  let? f := lift (frame s m) in
  match f with
  | Allocated a =>
      match ty with
      | Writable =>
          ensure (writable_refs a <> 0) WrongState ;?
          let! w := usub (writable_refs a) 1 in
          modify (set_frame m (Allocated (with_refs (f_refs a - 1) (with_writable w a)))) ;!
          ok tt
      | PageTable l =>
          ensure (pagetable_refs a <> 0 /\ pt_level a = l) WrongState ;?
          ensure (pagetable_refs a <> 0) WrongState ;?
          let! p := usub (pagetable_refs a) 1 in
          modify (set_frame m (Allocated (with_refs (f_refs a - 1) (with_pagetable p a)))) ;!
          ok tt
      end
  | Free => err WrongState
  end ;?
  check_invariants ;! ok tt.

Definition get_exec (m : Mfn) : M System (result P2mError unit) :=
  let! s := get in
  let? f := lift (frame s m) in
  match f with
  | Allocated a =>
      ensure (writable_refs a = 0) WxConflict ;?
      let? r := lift (ok_or (checked_add u32_max (f_refs a) 1) Overflow) in
      let? x := lift (ok_or (checked_add u32_max (f_executable_refs a) 1) Overflow) in
      modify (set_frame m (Allocated (with_refs r (with_executable x a)))) ;! ok tt
  | Free => err WrongState
  end ;?
  check_invariants ;! ok tt.

Definition put_exec (m : Mfn) : M System (result P2mError unit) :=
  let! s := get in
  let? f := lift (frame s m) in
  match f with
  | Allocated a =>
      ensure (f_executable_refs a <> 0) WrongState ;?
      let! x := usub (f_executable_refs a) 1 in
      modify (set_frame m (Allocated (with_refs (f_refs a - 1) (with_executable x a)))) ;! ok tt
  | Free => err WrongState
  end ;?
  check_invariants ;! ok tt.

(** Ownership of a frame by the caller, as [pin], [unpin], [free], [link] and [unlink]
    check it. *)
Definition owned (s : System) (caller : DomId) (m : Mfn) : result P2mError Alloc :=
  match frame s m with
  | Ok (Allocated a) => if decide (f_owner a = caller) then Ok a else Err NotYours
  | Ok Free => Err WrongState
  | Err e => Err e
  end.

(** [if let Frame::Allocated { pinned, .. } = frame_mut(mfn).unwrap() { *pinned = b }]. *)
Definition set_pinned (m : Mfn) (b : bool) : M System unit :=
  let! s := get in
  let! f := unwrap (frame s m) in
  match f with
  | Allocated a => modify (set_frame m (Allocated (with_pinned b a)))
  | Free => ret tt
  end.

Definition pin (caller : DomId) (m : Mfn) (l : PtLevel) : M System (result P2mError unit) :=
  let! s := get in
  let? a := lift (owned s caller m) in
  ensure (pinned a = false) WrongState ;?
  get_type m (PageTable l) ;?
  set_pinned m true ;!
  check_invariants ;! ok tt.

Definition unpin (caller : DomId) (m : Mfn) : M System (result P2mError unit) :=
  let! s := get in
  let? a := lift (owned s caller m) in
  ensure (pinned a = true) WrongState ;?
  let! l := match frame s m with Ok (Allocated a) => ret (pt_level a) | _ => panic end in
  set_pinned m false ;!
  put_type m (PageTable l) ;?
  check_invariants ;! ok tt.

Definition free (caller : DomId) (m : Mfn) : M System (result P2mError unit) :=
  let! s := get in
  let? a := lift (owned s caller m) in
  ensure (f_refs a = 0) InUse ;?
  let! _ := unwrap (frame s m) in
  modify (set_frame m Free) ;!
  check_invariants ;! ok tt.

(** *** The hierarchy *)

(** Taking and giving back the reference a page-table entry holds on its child. *)
Definition take_child (c : ChildRef) (m : Mfn) : M System (result P2mError unit) :=
  match c with Bare => get_ref m | Exec => get_exec m | Typed ty => get_type m ty end.
Definition drop_child (c : ChildRef) (m : Mfn) : M System (result P2mError unit) :=
  match c with Bare => put_ref m | Exec => put_exec m | Typed ty => put_type m ty end.

Definition alloc_link (l : Link) : M System unit :=
  let! s := get in
  match position (fun l => negb (active l)) (links s) with
  | Some i => modify (set_links (vset (links s) i l))
  | None => modify (set_links (links s ++ [l]))
  end.

Definition link (caller : DomId) (p : Mfn) (sl : N) (c : Mfn) (w lf x : bool) :
  M System (result P2mError unit) :=
  let! s := get in
  ensure (sl < TABLE_SLOTS) BadSlot ;?
  let x := x && lf in
  ensure (w && x = false) WxConflict ;?
  let? a := lift (owned s caller p) in
  ensure (current_type s p = Some (PageTable (pt_level a))) WrongState ;?
  let lv := pt_level a in
  ensure (is_allocated s c = true) WrongState ;?
  ensure (link_index s p sl = None) WrongState ;?
  let? cref := lift (ok_or (entry_child_ref lv lf w x) WrongState) in
  take_child cref c ;?
  let! r := get_type p (PageTable lv) in
  match r with
  | Err e => let! _ := drop_child cref c in err e
  | Ok _ =>
      alloc_link (mkLink true p sl c w lf x) ;!
      check_invariants ;! ok tt
  end.

Definition unlink (caller : DomId) (p : Mfn) (sl : N) : M System (result P2mError unit) :=
  let! s := get in
  let? a := lift (owned s caller p) in
  let lv := pt_level a in
  let? idx := lift (ok_or (link_index s p sl) WrongState) in
  let! l := index (links s) idx in
  modify (set_links (vset (links s) idx
    (mkLink false (parent l) (slot l) (child l) (writable l) (leaf l) (execute l)))) ;!
  let! rc := put_type p (PageTable lv) in
  dbg_assert (is_ok rc) ;!
  let! cc :=
    match entry_child_ref lv (leaf l) (writable l) (execute l) with
    | Some cref => drop_child cref (child l)
    | None => dbg_assert false ;! ok tt
    end in
  dbg_assert (is_ok cc) ;!
  check_invariants ;! ok tt.

(** *** Teardown *)

Definition unlink_all (owner : DomId) : M System unit :=
  let! s := get in
  for_each (vrange (vlen (links s))) (fun idx =>
    let! s := get in
    let! l := index (links s) idx in
    if active l && bool_decide (owner_of s (parent l) = Some owner) then
      let! r := unlink owner (parent l) (slot l) in dbg_assert (is_ok r)
    else ret tt).

Definition unlink_all_into (owner : DomId) : M System unit :=
  let! s := get in
  for_each (vrange (vlen (links s))) (fun idx =>
    let! s := get in
    let! l := index (links s) idx in
    if negb (active l) || bool_decide (owner_of s (child l) <> Some owner) then ret tt
    else
      match owner_of s (parent l) with
      | None => dbg_assert false
      | Some parent_owner =>
          if decide (parent_owner = owner) then ret tt
          else
            let! r := unlink parent_owner (parent l) (slot l) in dbg_assert (is_ok r)
      end).

Definition unpin_all (owner : DomId) : M System unit :=
  let! s := get in
  for_each (vrange (as_u32 (vlen (frames s)))) (fun m =>
    let! s := get in
    if bool_decide (owner_of s m = Some owner) && is_pinned s m then
      let! r := unpin owner m in dbg_assert (is_ok r)
    else ret tt).

Definition free_all (owner : DomId) : M System unit :=
  let! s := get in
  for_each (vrange (as_u32 (vlen (frames s)))) (fun m =>
    let! s := get in
    if decide (owner_of s m = Some owner) then
      let! r := free owner m in dbg_assert (is_ok r)
    else ret tt).

(** ** Specification *)

(** The four kinds of reference a frame counts. *)
Inductive kind : Type := KBare | KWrite | KExec | KTable.
#[global] Instance kind_eq_dec : EqDecision kind.
Proof. solve_decision. Defined.

(** The references of each kind that frame [m] counts; the existence references that carry
    no type are what [refs] counts on top of the others. *)
Definition typed_refs (a : Alloc) : N :=
  writable_refs a + f_executable_refs a + pagetable_refs a.
Definition kcount (a : Alloc) (k : kind) : N :=
  match k with
  | KBare => f_refs a - typed_refs a
  | KWrite => writable_refs a
  | KExec => f_executable_refs a
  | KTable => pagetable_refs a
  end.
Definition counted (s : System) (k : kind) (m : Mfn) : N :=
  match allocated s m with Some a => kcount a k | None => 0 end.

(** The references a live link holds: one on its table, one on its child. *)
Definition link_kind (l : Link) : kind :=
  if leaf l then if writable l then KWrite else if execute l then KExec else KBare else KTable.
Definition link_refs (k : kind) (m : Mfn) (l : Link) : N :=
  if active l then
    (if decide (k = KTable /\ parent l = m) then 1 else 0) +
    (if decide (link_kind l = k /\ child l = m) then 1 else 0)
  else 0.
Definition links_refs (s : System) (k : kind) (m : Mfn) : N := nsum (link_refs k m) (links s).
Definition pin_refs (s : System) (k : kind) (m : Mfn) : N :=
  if decide (k = KTable /\ is_pinned s m = true) then 1 else 0.

(** References held from outside the page tables: the active grant maps. *)
Definition external : Type := kind -> Mfn -> N.
Definition bump (k : kind) (m : Mfn) (e : external) : external := fun k' m' =>
  e k' m' + (if decide (k' = k /\ m' = m) then 1 else 0).

(** Every reference counted is held, every reference held is counted: by a link, by the
    pin, or from outside as [e] says. With the exclusion rules, the levels of the
    hierarchy and the shape of its entries. *)
Record Good (e : external) (s : System) : Prop := mkGood {
  g_frames : vlen (frames s) <= u32_max;
  g_owner : forall m a, allocated s m = Some a -> f_owner a < num_domains s;
  g_wt : forall m a, allocated s m = Some a -> 0 < writable_refs a -> pagetable_refs a = 0;
  g_wx : forall m a, allocated s m = Some a -> 0 < writable_refs a -> f_executable_refs a = 0;
  g_sum : forall m a, allocated s m = Some a -> typed_refs a <= f_refs a;
  g_max : forall m a, allocated s m = Some a -> f_refs a <= u32_max;
  g_acc : forall k m, counted s k m = links_refs s k m + pin_refs s k m + e k m;
  g_level : forall l p c, l ∈ links s -> active l = true -> leaf l = false ->
    allocated s (parent l) = Some p -> allocated s (child l) = Some c ->
    interior_child_type (pt_level p) = Some (PageTable (pt_level c));
  g_shape : forall l, l ∈ links s -> active l = true ->
    slot l < TABLE_SLOTS /\ (execute l = true -> leaf l = true /\ writable l = false);
  g_unique : forall i j li lj, vget (links s) i = Some li -> vget (links s) j = Some lj ->
    active li = true -> active lj = true -> parent li = parent lj -> slot li = slot lj -> i = j;
}.

(** ** Lemmas *)

Lemma frame_allocated s m a : frame s m = Ok (Allocated a) <-> allocated s m = Some a.
Proof. unfold allocated. destruct (frame s m) as [[|b]|]; naive_solver. Qed.

Lemma allocated_vget s m a : allocated s m = Some a <-> vget (frames s) m = Some (Allocated a).
Proof.
  rewrite <- frame_allocated. unfold frame, ok_or. destruct (vget (frames s) m); naive_solver.
Qed.

Lemma allocated_lt s m a : allocated s m = Some a -> m < vlen (frames s).
Proof. intros H%allocated_vget. by eapply vget_Some_lt. Qed.

Lemma allocated_set s m f m' :
  m < vlen (frames s) ->
  allocated (set_frame m f s) m' =
  if decide (m' = m) then match f with Allocated a => Some a | Free => None end
  else allocated s m'.
Proof.
  intros Hm. unfold allocated, frame. simpl. rewrite vget_vset.
  destruct (decide (m' = m)) as [->|]; case_decide; naive_solver.
Qed.

Lemma allocated_set_links s l m : allocated (set_links l s) m = allocated s m.
Proof. done. Qed.

Lemma is_allocated_Some s m : is_allocated s m = true <-> is_Some (allocated s m).
Proof.
  unfold is_allocated. destruct (allocated s m); [split; [by eexists|done]|].
  split; [done|by intros [??]].
Qed.

Lemma owned_Ok s d m a : owned s d m = Ok a <-> allocated s m = Some a /\ f_owner a = d.
Proof.
  unfold owned, allocated. destruct (frame s m) as [[|b]|]; try naive_solver.
  case_decide; naive_solver.
Qed.

(** Two accounts that agree everywhere are the same account. *)
Definition ext_eq : relation external := pointwise_relation kind (pointwise_relation Mfn eq).

#[global] Instance ext_eq_equiv : Equivalence ext_eq.
Proof.
  split; unfold ext_eq, pointwise_relation.
  - done.
  - intros e e' H k m. by rewrite H.
  - intros e1 e2 e3 H1 H2 k m. by rewrite H1.
Qed.

#[global] Instance Good_proper : Proper (ext_eq ==> eq ==> iff) Good.
Proof.
  cut (forall e e' s, ext_eq e e' -> Good e s -> Good e' s).
  { intros H e e' He s ? <-. split; apply H; [done|by symmetry]. }
  intros e e' s He [H1 H2 H3 H4 H5 H6 H7 H8 H9 H10]. split; try done.
  intros k m. by rewrite H7, (He k m).
Qed.

#[global] Instance bump_proper k m : Proper (ext_eq ==> ext_eq) (bump k m).
Proof. intros e e' He k' m'. unfold bump. by rewrite (He k' m'). Qed.

Lemma bump_comm k m k' m' e : ext_eq (bump k m (bump k' m' e)) (bump k' m' (bump k m e)).
Proof. intros k0 m0. unfold bump. lia. Qed.

(** *** The check passes on every well-accounted state *)

Lemma link_refs_active k m s :
  links_refs s k m = nsum (link_refs k m) (List.filter active (links s)).
Proof.
  unfold links_refs. induction (links s) as [|l ls IH]; simpl; [done|].
  unfold link_refs at 1. destruct (active l) eqn:E; simpl; [|done].
  rewrite IH. unfold link_refs at 2. by rewrite E.
Qed.

(** The table references of a live link, as [held_refs] counts them. *)
Lemma link_refs_table m l :
  active l = true -> link_refs KTable m l =
  (if parent l =? m then 1 else 0) + (if (child l =? m) && negb (leaf l) then 1 else 0).
Proof.
  intros Ha. unfold link_refs, link_kind. rewrite Ha. f_equal.
  - destruct (N.eqb_spec (parent l) m); case_decide; naive_solver.
  - destruct (N.eqb_spec (child l) m), (leaf l); case_decide; try naive_solver.
    destruct (writable l), (execute l); naive_solver.
Qed.

(** A live link keeps its table typed and its child referenced. *)
Lemma good_link e s l :
  Good e s -> l ∈ links s -> active l = true ->
  exists p c, allocated s (parent l) = Some p /\ 0 < pagetable_refs p /\
    allocated s (child l) = Some c /\ 0 < kcount c (link_kind l).
Proof.
  intros HG Hl Ha. pose proof (g_acc e s HG KTable (parent l)) as Hp.
  pose proof (g_acc e s HG (link_kind l) (child l)) as Hc. unfold links_refs, counted in *.
  pose proof (nsum_elem (link_refs KTable (parent l)) (links s) l Hl) as H1.
  pose proof (nsum_elem (link_refs (link_kind l) (child l)) (links s) l Hl) as H2.
  unfold link_refs in H1 at 1, H2 at 1. rewrite Ha in H1, H2.
  rewrite decide_True in H1 by done.
  rewrite (decide_True (P := link_kind l = link_kind l /\ _)) in H2 by done.
  destruct (allocated s (parent l)) as [p|]; [|lia].
  destruct (allocated s (child l)) as [c|]; [|lia].
  exists p, c. split_and!; [done|simpl in Hp; lia|done|lia].
Qed.

Lemma kcount_refs a k : typed_refs a <= f_refs a -> kcount a k <= f_refs a.
Proof. unfold typed_refs. destruct k; simpl; lia. Qed.

Lemma good_table e s m a :
  Good e s -> allocated s m = Some a -> 0 < pagetable_refs a ->
  current_type s m = Some (PageTable (pt_level a)).
Proof.
  intros HG Ha Hp. unfold current_type. rewrite Ha.
  destruct (decide (0 < writable_refs a)) as [Hw|].
  - pose proof (g_wt e s HG m a Ha Hw). lia.
  - by rewrite decide_True.
Qed.

Lemma good_link_ok e s l :
  Good e s -> l ∈ links s -> active l = true -> link_ok s l = true.
Proof.
  intros HG Hl Ha. destruct (good_link e s l HG Hl Ha) as (p & c & Hp & Hpt & Hc & Hk).
  unfold link_ok. rewrite (good_table e s _ p HG Hp Hpt).
  assert (is_allocated s (child l) = true) by (apply is_allocated_Some; by eexists).
  unfold entry_child_ref, link_kind in *. destruct (leaf l) eqn:Hlf.
  - destruct (writable l); [|by destruct (execute l)]. apply bool_decide_eq_true.
    unfold current_type. rewrite Hc. by rewrite decide_True.
  - rewrite (g_level e s HG l p c Hl Ha Hlf Hp Hc). simpl. apply bool_decide_eq_true.
    by apply (good_table e s _ c HG Hc).
Qed.

Lemma wp_held_refs e s m a (Q : System -> N -> Prop) :
  Good e s -> allocated s m = Some a ->
  Q s (links_refs s KTable m + pin_refs s KTable m) -> wp (held_refs m a) Q s.
Proof.
  intros HG Ha HQ. pose proof (g_acc e s HG KTable m) as Hacc.
  unfold counted, pin_refs, is_pinned in *. rewrite Ha in *. simpl in Hacc.
  pose proof (g_sum e s HG m a Ha) as Hs. pose proof (g_max e s HG m a Ha) as Hm.
  unfold typed_refs in Hs. rewrite link_refs_active in *.
  unfold held_refs. wp_step. wp_step. wp_step.
  apply wp_fold_m with (I := fun done held s' =>
    s' = s /\ held = nsum (link_refs KTable m) done).
  - done.
  - intros l1 l l2 held s' Hl [-> ->].
    assert (Hla : active l = true).
    { assert (l ∈ List.filter active (links s)) as Hin
        by (rewrite Hl; apply elem_of_app; right; by left).
      apply list_elem_of_In, filter_In in Hin. tauto. }
    rewrite Hl, nsum_app in Hacc. simpl in Hacc. rewrite link_refs_table in Hacc by done.
    wp_step.
    apply wp_mono with (Q := fun s' x => s' = s /\
      x = nsum (link_refs KTable m) l1 + (if parent l =? m then 1 else 0)).
    { destruct (parent l =? m); [apply wp_uadd; [lia|done]|]. wp_step. split; [done|lia]. }
    intros s' x [-> ->].
    assert (Hfin : nsum (link_refs KTable m) (l1 ++ [l]) =
      nsum (link_refs KTable m) l1 + (if parent l =? m then 1 else 0) +
      (if (child l =? m) && negb (leaf l) then 1 else 0)).
    { rewrite nsum_app. simpl. rewrite link_refs_table by done. lia. }
    rewrite Hfin. destruct ((child l =? m) && negb (leaf l)).
    + apply wp_uadd; [lia|done].
    + wp_step. split; [done|lia].
  - intros held s' [-> ->]. destruct (pinned a) eqn:Hpin.
    + rewrite decide_True in Hacc, HQ by done. apply wp_uadd; [lia|done].
    + rewrite decide_False in HQ by naive_solver. wp_step. by rewrite N.add_0_r in HQ.
Qed.

Lemma enumerate_frame s m f :
  (m, f) ∈ enumerate (frames s) -> match f with Allocated a => allocated s m = Some a | Free => True end.
Proof. rewrite elem_enumerate. destruct f; [done|]. by rewrite allocated_vget. Qed.

Lemma wp_first_violation e s (Q : System -> option Violation -> Prop) :
  Good e s -> Q s None -> wp first_violation Q s.
Proof.
  intros HG HQ. unfold first_violation. wp_step. wp_step. wp_step.
  apply wp_first_some_m.
  { intros [m f] Hf%enumerate_frame. unfold frame_violation. simpl. wp_step. wp_step.
    destruct f as [|a]; [by wp_step|]. pose proof (g_owner e s HG m a Hf).
    pose proof (g_wt e s HG m a Hf). pose proof (g_wx e s HG m a Hf).
    pose proof (g_sum e s HG m a Hf). pose proof (g_max e s HG m a Hf).
    unfold typed_refs in *. rewrite !decide_False by lia.
    wp_step. apply wp_uadd; [lia|]. wp_step. apply wp_uadd; [lia|].
    rewrite decide_False by lia.
    destruct (pinned a && (pagetable_refs a =? 0)) eqn:Hp; [|by wp_step]. exfalso.
    apply andb_true_iff in Hp as [Hp Hz%N.eqb_eq].
    pose proof (g_acc e s HG KTable m) as Hacc. unfold counted, pin_refs, is_pinned in Hacc.
    rewrite Hf in Hacc. rewrite decide_True in Hacc by done. simpl in Hacc. lia. }
  wp_step. apply wp_first_some_m.
  { intros l [Hl Ha]%list_elem_of_In%filter_In. apply list_elem_of_In in Hl.
    unfold link_violation. wp_step. wp_step. rewrite (good_link_ok e s l HG Hl Ha). by wp_step. }
  apply wp_first_some_m; [|done].
  intros [m f] Hf%enumerate_frame. unfold account_violation. simpl.
  destruct f as [|a]; [by wp_step|]. wp_step. eapply wp_held_refs; [done|done|].
  pose proof (g_acc e s HG KTable m) as Hacc. unfold counted in Hacc. rewrite Hf in Hacc.
  simpl in Hacc. rewrite decide_False by lia. by wp_step.
Qed.

Lemma p2m_wp_check e s (Q : System -> unit -> Prop) :
  Good e s -> Q s tt -> wp check_invariants Q s.
Proof.
  intros HG HQ. unfold check_invariants. wp_step. eapply wp_first_violation; [done|].
  by apply wp_dbg_assert.
Qed.

(** *** One frame's record changes *)

Definition pin_count (a : Alloc) (k : kind) : N :=
  if decide (k = KTable /\ pinned a = true) then 1 else 0.

Lemma pin_refs_alloc s k m a : allocated s m = Some a -> pin_refs s k m = pin_count a k.
Proof. intros Ha. unfold pin_refs, is_pinned, pin_count. by rewrite Ha. Qed.

(** The rules a frame's own record obeys. *)
Definition frame_ok (a : Alloc) : Prop :=
  (0 < writable_refs a -> pagetable_refs a = 0 /\ f_executable_refs a = 0) /\
  typed_refs a <= f_refs a /\ f_refs a <= u32_max.

Lemma good_frame_ok e s m a : Good e s -> allocated s m = Some a -> frame_ok a.
Proof.
  intros HG Ha. split_and!.
  - intros Hw. split; [by eapply g_wt|by eapply g_wx].
  - by eapply g_sum.
  - by eapply g_max.
Qed.

Lemma Good_update e e' s m a a' :
  Good e s -> allocated s m = Some a -> f_owner a' = f_owner a -> frame_ok a' ->
  (pt_level a' = pt_level a \/ pagetable_refs a = 0) ->
  (forall k m', m' <> m -> e' k m' = e k m') ->
  (forall k, kcount a' k + pin_count a k + e k m = kcount a k + pin_count a' k + e' k m) ->
  Good e' (set_frame m (Allocated a') s).
Proof.
  intros HG Ha Ho (Hw & Hs & Hm) Hlv He Hk. pose proof (allocated_lt _ _ _ Ha) as Hlt.
  assert (Hal : forall m' b, allocated (set_frame m (Allocated a') s) m' = Some b ->
    m' = m /\ b = a' \/ m' <> m /\ allocated s m' = Some b).
  { intros m' b. rewrite allocated_set by done. case_decide; naive_solver. }
  assert (Hlvl : forall l, l ∈ links s -> active l = true -> leaf l = false ->
    (m = parent l \/ m = child l) -> pt_level a' = pt_level a).
  { intros l Hl Hla Hlf Hor. destruct Hlv as [|Hz]; [done|]. exfalso.
    destruct (good_link e s l HG Hl Hla) as (p & c & Hp & Hpt & Hc & Hck).
    unfold link_kind in Hck. rewrite Hlf in Hck. simpl in Hck.
    destruct Hor as [->| ->]; rewrite Ha in *; simplify_eq; lia. }
  split; simpl.
  - rewrite vlen_vset. apply HG.
  - intros m' b [[-> ->]|[_ Hb]]%Hal; [rewrite Ho|]; by eapply g_owner.
  - intros m' b [[-> ->]|[_ Hb]]%Hal; [by intros [??]%Hw|by eapply g_wt].
  - intros m' b [[-> ->]|[_ Hb]]%Hal; [by intros [??]%Hw|by eapply g_wx].
  - intros m' b [[-> ->]|[_ Hb]]%Hal; [done|by eapply g_sum].
  - intros m' b [[-> ->]|[_ Hb]]%Hal; [done|by eapply g_max].
  - intros k m'. pose proof (g_acc e s HG k m') as Hacc.
    unfold counted, links_refs, pin_refs, is_pinned in *. simpl. rewrite allocated_set by done.
    destruct (decide (m' = m)) as [->|Hmm]; [|by rewrite He].
    rewrite Ha in Hacc. specialize (Hk k). unfold pin_count in Hk.
    repeat case_decide; lia.
  - intros l p c Hl Hla Hlf Hp Hc.
    destruct (good_link e s l HG Hl Hla) as (p0 & c0 & Hp0 & _ & Hc0 & _).
    assert (pt_level p = pt_level p0) as ->.
    { apply Hal in Hp as [[Hm1 ->]|[Hm1 Hp]]; [|congruence]. rewrite Hm1, Ha in Hp0.
      simplify_eq. apply (Hlvl l); auto. }
    assert (pt_level c = pt_level c0) as ->.
    { apply Hal in Hc as [[Hm1 ->]|[Hm1 Hc]]; [|congruence]. rewrite Hm1, Ha in Hc0.
      simplify_eq. apply (Hlvl l); auto. }
    by eapply (g_level e s HG l).
  - apply HG.
  - apply HG.
Qed.

(** *** Taking and dropping references *)

(** The kind of reference a child reference is, and the frame's record with one more. *)
Definition ref_kind (c : ChildRef) : kind :=
  match c with Bare => KBare | Exec => KExec | Typed Writable => KWrite
             | Typed (PageTable _) => KTable end.
Definition stamped (c : ChildRef) (a : Alloc) : Alloc :=
  match c with
  | Typed (PageTable l) => if decide (pagetable_refs a = 0) then with_level l a else a
  | _ => a
  end.
Definition with_ref (f : N -> N) (c : ChildRef) (a : Alloc) : Alloc :=
  match c with
  | Bare => a
  | Exec => with_executable (f (f_executable_refs a)) a
  | Typed Writable => with_writable (f (writable_refs a)) a
  | Typed (PageTable _) => with_pagetable (f (pagetable_refs a)) a
  end.
Definition taken (c : ChildRef) (a : Alloc) : Alloc :=
  with_refs (f_refs a + 1) (with_ref (fun n => n + 1) c (stamped c a)).
Definition dropped (c : ChildRef) (a : Alloc) : Alloc :=
  with_refs (f_refs a - 1) (with_ref (fun n => n - 1) c a).

(** What the guards of [take_child] admit. *)
Definition admits (c : ChildRef) (a : Alloc) : Prop :=
  f_refs a + 1 <= u32_max /\
  match c with
  | Bare => True
  | Exec => writable_refs a = 0
  | Typed Writable => f_executable_refs a = 0 /\ pagetable_refs a = 0
  | Typed (PageTable l) => writable_refs a = 0 /\ (0 < pagetable_refs a -> pt_level a = l)
  end.

Ltac crunch_alloc :=
  unfold frame_ok, kcount, typed_refs, pin_count, bump, taken, dropped, stamped, with_ref,
    with_refs, with_writable, with_executable, with_pagetable, with_level, with_pinned,
    ref_kind, admits in *; simpl in *; unfold typed_refs in *; simpl in *.

Lemma kcount_taken c a k :
  typed_refs a <= f_refs a ->
  kcount (taken c a) k = kcount a k + (if decide (k = ref_kind c) then 1 else 0).
Proof.
  intros Hs. destruct c as [| |[|l]], k; crunch_alloc;
    repeat match goal with |- context [decide (pagetable_refs a = 0)] =>
      destruct (decide (pagetable_refs a = 0)); simpl end; lia.
Qed.

Lemma kcount_dropped c a k :
  typed_refs a <= f_refs a -> 0 < kcount a (ref_kind c) ->
  kcount a k = kcount (dropped c a) k + (if decide (k = ref_kind c) then 1 else 0).
Proof.
  intros Hs Hk. destruct c as [| |[|l]], k; crunch_alloc; lia.
Qed.

Lemma fields_taken c a :
  f_owner (taken c a) = f_owner a /\ pinned (taken c a) = pinned a /\
  f_refs (taken c a) = f_refs a + 1 /\
  (pt_level (taken c a) = pt_level a \/ pagetable_refs a = 0).
Proof. destruct c as [| |[|l]]; crunch_alloc; auto. case_decide; simpl; auto. Qed.

Lemma fields_dropped c a :
  f_owner (dropped c a) = f_owner a /\ pinned (dropped c a) = pinned a /\
  pt_level (dropped c a) = pt_level a.
Proof. by destruct c as [| |[|l]]. Qed.

Lemma frame_ok_taken c a : frame_ok a -> admits c a -> frame_ok (taken c a).
Proof.
  intros Hok Had. destruct c as [| |[|l]]; crunch_alloc; try lia. case_decide; simpl; lia.
Qed.

Lemma frame_ok_dropped c a :
  frame_ok a -> 0 < kcount a (ref_kind c) -> frame_ok (dropped c a).
Proof. intros Hok Hk. destruct c as [| |[|l]]; crunch_alloc; lia. Qed.

Lemma Good_take e s m a c :
  Good e s -> allocated s m = Some a -> admits c a ->
  Good (bump (ref_kind c) m e) (set_frame m (Allocated (taken c a)) s).
Proof.
  intros HG Ha Had. pose proof (good_frame_ok e s m a HG Ha) as Hok.
  destruct (fields_taken c a) as (Ho & Hp & _ & Hl).
  eapply Good_update; [done..|by apply frame_ok_taken|done| |].
  - intros k m' Hne. unfold bump. rewrite decide_False by naive_solver. lia.
  - intros k. rewrite kcount_taken by apply Hok. unfold bump, pin_count. rewrite Hp.
    destruct (decide (k = ref_kind c)) as [->|Hk].
    + rewrite (decide_True (P := ref_kind c = ref_kind c /\ m = m)) by done. lia.
    + rewrite (decide_False (P := k = ref_kind c /\ m = m)) by tauto. lia.
Qed.

Lemma Good_drop e s m a c :
  Good (bump (ref_kind c) m e) s -> allocated s m = Some a ->
  0 < kcount a (ref_kind c) /\ Good e (set_frame m (Allocated (dropped c a)) s).
Proof.
  intros HG Ha. pose proof (good_frame_ok _ s m a HG Ha) as Hok.
  assert (Hpos : 0 < kcount a (ref_kind c)).
  { pose proof (g_acc _ s HG (ref_kind c) m) as Hacc. unfold counted in Hacc. rewrite Ha in Hacc.
    unfold bump in Hacc. rewrite decide_True in Hacc by done. lia. }
  split; [done|]. destruct (fields_dropped c a) as (Ho & Hp & Hl).
  eapply Good_update; [done..|by apply frame_ok_dropped|by left| |].
  - intros k m' Hne. unfold bump. rewrite decide_False by naive_solver. lia.
  - intros k. rewrite (kcount_dropped c a k) by (done || apply Hok).
    unfold bump, pin_count. rewrite Hp. destruct (decide (k = ref_kind c)) as [->|Hk].
    + rewrite (decide_True (P := ref_kind c = ref_kind c /\ m = m)) by done. lia.
    + rewrite (decide_False (P := k = ref_kind c /\ m = m)) by tauto. lia.
Qed.

Lemma set_frame_set_frame m f g s : set_frame m f (set_frame m g s) = set_frame m f s.
Proof. unfold set_frame. simpl. by rewrite vset_vset. Qed.

Lemma acquire_check_Ok f ty :
  acquire_check f ty = Ok tt ->
  exists a, f = Allocated a /\
    match ty with
    | None => f_refs a + 1 <= u32_max
    | Some ty => admits (Typed ty) a /\
        match ty with Writable => writable_refs a | PageTable _ => pagetable_refs a end + 1
          <= u32_max
    end.
Proof.
  destruct f as [|a]; [done|]. unfold acquire_check, checked_add, admits. intros H. exists a.
  split; [done|]. destruct ty as [[|l]|]; repeat case_decide; simplify_eq; split_and?; try lia.
  intros Hp. destruct (decide (pt_level a = l)); [done|]. exfalso. tauto.
Qed.

(** What taking a child reference leaves. *)
Definition took (e : external) (c : ChildRef) (m : Mfn) (s s' : System) : Prop :=
  exists a, allocated s m = Some a /\ admits c a /\
    s' = set_frame m (Allocated (taken c a)) s /\ Good (bump (ref_kind c) m e) s'.

(** The check and the return every reference operation ends with. *)
Lemma wp_finish e s (Q : System -> result P2mError unit -> Prop) :
  Good e s -> Q s (Ok tt) -> wp (check_invariants ;! ok tt) Q s.
Proof. intros HG HQ. wp_step. eapply p2m_wp_check; [done|]. by wp_step. Qed.

Lemma took_finish e c m s a (Q : System -> result P2mError unit -> Prop) :
  Good e s -> allocated s m = Some a -> admits c a ->
  (forall s', took e c m s s' -> Q s' (Ok tt)) ->
  wp (check_invariants ;! ok tt) Q (set_frame m (Allocated (taken c a)) s).
Proof.
  intros HG Ha Had HQ. eapply wp_finish; [by apply Good_take|]. apply HQ. exists a.
  split_and!; [done..|]. by apply Good_take.
Qed.

Lemma wp_get_ref e m s :
  Good e s -> wp (get_ref m) (fun s' r =>
    match r with Ok _ => took e Bare m s s' | Err _ => s' = s end) s.
Proof.
  intros HG. unfold get_ref. wp_step. wp_step. wp_step. wp_step; [|done].
  wp_step. wp_step; [|done].
  match goal with H : acquire_check _ _ = Ok ?u |- _ =>
    destruct u; apply acquire_check_Ok in H as (a & -> & Hr) end.
  match goal with H : frame _ _ = Ok _ |- _ => apply frame_allocated in H as Ha end.
  wp_step. wp_step. wp_step; [|done].
  match goal with H : checked_add _ _ _ = Some _ |- _ => apply checked_add_Some in H as [_ ->] end.
  wp_step. wp_step. wp_step.
  eapply (took_finish e Bare); [done|done|by split|done].
Qed.

Lemma wp_get_exec e m s :
  Good e s -> wp (get_exec m) (fun s' r =>
    match r with Ok _ => took e Exec m s s' | Err _ => s' = s end) s.
Proof.
  intros HG. unfold get_exec. wp_step. wp_step. wp_step. wp_step; [|done].
  match goal with H : frame _ _ = Ok ?f |- _ => destruct f as [|a];
    [by wp_step; wp_step|apply frame_allocated in H as Ha] end.
  wp_step. wp_step. wp_step; [|done]. wp_step. wp_step; [|done]. wp_step. wp_step; [|done].
  repeat match goal with H : checked_add _ _ _ = Some _ |- _ =>
    apply checked_add_Some in H as [? ->] end.
  wp_step. wp_step. wp_step.
  eapply (took_finish e Exec); [done|done|by split|done].
Qed.

Lemma wp_get_type e m ty s :
  Good e s -> wp (get_type m ty) (fun s' r =>
    match r with Ok _ => took e (Typed ty) m s s' | Err _ => s' = s end) s.
Proof.
  intros HG. unfold get_type. wp_step. wp_step. wp_step. wp_step; [|done].
  wp_step. wp_step; [|done].
  match goal with H : acquire_check _ _ = Ok ?u |- _ =>
    destruct u; apply acquire_check_Ok in H as (a & -> & Had & Hmax) end.
  match goal with H : frame _ _ = Ok _ |- _ => apply frame_allocated in H as Ha end.
  pose proof Had as [Hr _].
  wp_step. wp_step. wp_step; [|done].
  match goal with H : checked_add _ _ _ = Some _ |- _ => apply checked_add_Some in H as [_ ->] end.
  destruct ty as [|l].
  - wp_step. wp_step; [|done].
    match goal with H : checked_add _ _ _ = Some _ |- _ => apply checked_add_Some in H as [_ ->] end.
    wp_step. wp_step. wp_step.
    eapply (took_finish e (Typed Writable)); [done|done|done|done].
  - wp_step. wp_step. wp_step. wp_step.
    + match goal with H : checked_add _ _ _ = Some _ |- _ => apply checked_add_Some in H as [_ ->] end.
      wp_step. wp_step. wp_step. rewrite set_frame_set_frame.
      replace (with_refs _ _) with (taken (Typed (PageTable l)) a)
        by (unfold taken, with_ref, stamped; by case_decide).
      eapply (took_finish e (Typed (PageTable l))); [done|done|done|done].
    + exfalso. match goal with H : checked_add _ _ _ = None |- _ =>
        apply checked_add_None in H as Hov end.
      revert Hov. case_decide; simpl; lia.
Qed.

Lemma wp_take_child e c m s :
  Good e s -> wp (take_child c m) (fun s' r =>
    match r with Ok _ => took e c m s s' | Err _ => s' = s end) s.
Proof.
  intros HG. destruct c as [| |ty]; [by apply wp_get_ref|by apply wp_get_exec|by apply wp_get_type].
Qed.

(** What giving a reference back leaves. *)
Definition gave (e : external) (c : ChildRef) (m : Mfn) (s s' : System) : Prop :=
  exists a, allocated s m = Some a /\ s' = set_frame m (Allocated (dropped c a)) s /\ Good e s'.

(** The level a table reference is given back at is the frame's own. *)
Definition at_level (c : ChildRef) (s : System) (m : Mfn) : Prop :=
  match c with
  | Typed (PageTable l) => forall a, allocated s m = Some a -> pt_level a = l
  | _ => True
  end.

(** A reference that is held can be given back: the operation cannot fail. *)
Lemma wp_drop_child e c m s (Q : System -> result P2mError unit -> Prop) :
  Good (bump (ref_kind c) m e) s -> at_level c s m ->
  (forall s', gave e c m s s' -> Q s' (Ok tt)) -> wp (drop_child c m) Q s.
Proof.
  intros HG Hlv HQ.
  assert (exists a, allocated s m = Some a) as [a Ha].
  { pose proof (g_acc _ s HG (ref_kind c) m) as Hacc. unfold counted, bump in Hacc.
    rewrite decide_True in Hacc by done. destruct (allocated s m) as [a|]; [by exists a|lia]. }
  pose proof (good_frame_ok _ s m a HG Ha) as Hok.
  destruct (Good_drop e s m a c HG Ha) as [Hpos HG'].
  assert (Hfin : wp (check_invariants ;! ok tt) Q (set_frame m (Allocated (dropped c a)) s)).
  { eapply wp_finish; [done|]. apply HQ. by exists a. }
  apply frame_allocated in Ha as Hf.
  destruct c as [| |[|l]]; simpl drop_child.
  - unfold put_ref. wp_step. wp_step. wp_step. rewrite Hf. wp_step; [|done]. simplify_eq.
    crunch_alloc. wp_step. wp_step. apply wp_uadd; [lia|]. wp_step. apply wp_uadd; [lia|].
    wp_step. wp_step; [|lia]. wp_step. apply wp_usub; [lia|]. wp_step. wp_step; [|lia].
    wp_step. wp_step. wp_step. apply Hfin.
  - unfold put_exec. wp_step. wp_step. wp_step. rewrite Hf. wp_step; [|done]. simplify_eq.
    crunch_alloc. wp_step. wp_step. wp_step; [|lia]. wp_step. apply wp_usub; [lia|].
    wp_step. wp_step. wp_step. apply Hfin.
  - unfold put_type. wp_step. wp_step. wp_step. rewrite Hf. wp_step; [|done]. simplify_eq.
    crunch_alloc. wp_step. wp_step. wp_step; [|lia]. wp_step. apply wp_usub; [lia|].
    wp_step. wp_step. wp_step. apply Hfin.
  - unfold put_type. wp_step. wp_step. wp_step. rewrite Hf. wp_step; [|done]. simplify_eq.
    simpl in Hlv. specialize (Hlv a Ha).
    crunch_alloc. wp_step. wp_step. wp_step; [|intuition lia]. wp_step. wp_step; [|lia].
    wp_step. apply wp_usub; [lia|]. wp_step. wp_step. wp_step. apply Hfin.
Qed.

(** *** Allocation *)

(** What no reference operation changes: the owners, the links, the dimensions. *)
Record steady (s s' : System) : Prop := mkSteady {
  st_domains : num_domains s' = num_domains s;
  st_frames : frame_count s' = frame_count s;
  st_owner : forall m, owner_of s' m = owner_of s m;
}.

Lemma steady_refl s : steady s s.
Proof. done. Qed.

Lemma steady_trans s1 s2 s3 : steady s1 s2 -> steady s2 s3 -> steady s1 s3.
Proof. intros [? ? H1] [? ? H2]. split; [congruence..|]. intros m. by rewrite H2. Qed.

Lemma steady_set_frame s m a a' :
  allocated s m = Some a -> f_owner a' = f_owner a -> steady s (set_frame m (Allocated a') s).
Proof.
  intros Ha Ho. split; [done|unfold frame_count; simpl; by rewrite vlen_vset|]. intros m'.
  unfold owner_of. rewrite allocated_set by (by eapply allocated_lt).
  case_decide as Hm; [|done]. rewrite Hm, Ha. simpl. by rewrite Ho.
Qed.

Lemma took_steady e c m s s' : took e c m s s' -> steady s s' /\ links s' = links s.
Proof.
  intros (a & Ha & _ & -> & _). split; [|done]. eapply steady_set_frame; [done|].
  apply fields_taken.
Qed.

Lemma gave_steady e c m s s' : gave e c m s s' -> steady s s' /\ links s' = links s.
Proof.
  intros (a & Ha & -> & _). split; [|done]. eapply steady_set_frame; [done|].
  apply fields_dropped.
Qed.

(** No pin moves. *)
Definition same_pins (s s' : System) : Prop := forall m, is_pinned s' m = is_pinned s m.

Lemma same_pins_set_frame s m a a' :
  allocated s m = Some a -> pinned a' = pinned a -> same_pins s (set_frame m (Allocated a') s).
Proof.
  intros Ha Hp m'. unfold is_pinned. rewrite allocated_set by (by eapply allocated_lt).
  case_decide as Hm; [|done]. by rewrite Hm, Ha.
Qed.

Lemma took_pins e c m s s' : took e c m s s' -> same_pins s s'.
Proof.
  intros (a & Ha & _ & -> & _). eapply same_pins_set_frame; [done|]. apply fields_taken.
Qed.

Lemma gave_pins e c m s s' : gave e c m s s' -> same_pins s s'.
Proof.
  intros (a & Ha & -> & _). eapply same_pins_set_frame; [done|]. apply fields_dropped.
Qed.

(** The level of a page that is used as a table does not move while references are taken,
    and that of no page moves while they are given back. *)
Definition levels_up (s s' : System) : Prop := forall m a,
  allocated s m = Some a -> 0 < pagetable_refs a ->
  exists a', allocated s' m = Some a' /\ pt_level a' = pt_level a /\ 0 < pagetable_refs a'.
Definition levels_kept (s s' : System) : Prop := forall m a',
  allocated s' m = Some a' -> exists a, allocated s m = Some a /\ pt_level a' = pt_level a.

Lemma gave_levels e c m s s' : gave e c m s s' -> levels_kept s s'.
Proof.
  intros (a & Ha & -> & _) m' b. rewrite allocated_set by (by eapply allocated_lt).
  case_decide as Hm; [|by eauto]. subst m'. intros [= <-]. exists a. split; [done|].
  apply fields_dropped.
Qed.

(** What giving references back leaves of a frame's marks: the pin and the level. *)
Definition drops (s s' : System) : Prop := forall m x', allocated s' m = Some x' ->
  exists x, allocated s m = Some x /\ pinned x' = pinned x /\ pt_level x' = pt_level x.

Lemma drops_refl s : drops s s.
Proof. intros m x Hx. eauto. Qed.

Lemma drops_trans s1 s2 s3 : drops s1 s2 -> drops s2 s3 -> drops s1 s3.
Proof.
  intros H1 H2 m x Hx. destruct (H2 m x Hx) as (y & Hy & -> & ->). by apply H1.
Qed.

Lemma drops_marks s s' : same_pins s s' -> levels_kept s s' -> drops s s'.
Proof.
  intros Hp Hl m x' Hx'. destruct (Hl m x' Hx') as (x & Hx & ?). exists x. split_and!; [done| |done].
  specialize (Hp m). unfold is_pinned in Hp. by rewrite Hx, Hx' in Hp.
Qed.

Lemma gave_drops e c m s s' : gave e c m s s' -> drops s s'.
Proof. intros Hg. apply drops_marks; [by eapply gave_pins|by eapply gave_levels]. Qed.

(** A free frame becomes an untouched allocated one, or the reverse. *)
Lemma Good_swap e s m f :
  Good e s -> m < vlen (frames s) ->
  (forall k, counted s k m = 0) ->
  match f with
  | Free => True
  | Allocated a => f_owner a < num_domains s /\ f_refs a = 0 /\ typed_refs a = 0 /\ pinned a = false
  end ->
  Good e (set_frame m f s).
Proof.
  intros HG Hm Hz Hf.
  assert (Hlk : forall l, l ∈ links s -> active l = true -> m <> parent l /\ m <> child l).
  { intros l Hl Ha. destruct (good_link e s l HG Hl Ha) as (p & c & Hp & Hpt & Hc & Hk).
    split; intros ->.
    - specialize (Hz KTable). unfold counted in Hz. rewrite Hp in Hz. simpl in Hz. lia.
    - specialize (Hz (link_kind l)). unfold counted in Hz. rewrite Hc in Hz. lia. }
  assert (Hal : forall m' b, allocated (set_frame m f s) m' = Some b ->
    m' = m /\ f = Allocated b \/ m' <> m /\ allocated s m' = Some b).
  { intros m' b. rewrite allocated_set by done. case_decide; [|naive_solver].
    destruct f; naive_solver. }
  assert (Hb : forall b, f = Allocated b -> f_owner b < num_domains s /\ f_refs b = 0 /\
    writable_refs b = 0 /\ f_executable_refs b = 0 /\ pagetable_refs b = 0 /\ pinned b = false).
  { intros b ->. destruct Hf as (? & ? & Ht & ?). unfold typed_refs in Ht.
    split_and!; (done || lia). }
  split; simpl.
  - rewrite vlen_vset. apply HG.
  - intros m' b [[-> Hfb]|[_ Hb']]%Hal; [by apply Hb|by eapply g_owner].
  - intros m' b [[-> Hfb]|[_ Hb']]%Hal; [destruct (Hb b Hfb); lia|by eapply g_wt].
  - intros m' b [[-> Hfb]|[_ Hb']]%Hal; [destruct (Hb b Hfb); lia|by eapply g_wx].
  - intros m' b [[-> Hfb]|[_ Hb']]%Hal; [destruct (Hb b Hfb); unfold typed_refs; lia|by eapply g_sum].
  - intros m' b [[-> Hfb]|[_ Hb']]%Hal; [destruct (Hb b Hfb) as (_ & -> & _); lia|by eapply g_max].
  - intros k m'. pose proof (g_acc e s HG k m') as Hacc.
    unfold counted, links_refs, pin_refs, is_pinned in *. simpl. rewrite allocated_set by done.
    destruct (decide (m' = m)) as [->|Hmm]; [|done]. specialize (Hz k).
    destruct (allocated s m) as [a|] eqn:Ha.
    + rewrite Hz in Hacc. destruct f as [|b].
      * rewrite decide_False by naive_solver. lia.
      * destruct (Hb b eq_refl) as (_ & H1 & H2 & H3 & H4 & H5). rewrite H5.
        rewrite decide_False by naive_solver.
        assert (kcount b k = 0) as -> by (destruct k; simpl; lia). lia.
    + destruct f as [|b]; [done|].
      destruct (Hb b eq_refl) as (_ & H1 & H2 & H3 & H4 & H5). rewrite H5.
      rewrite decide_False by naive_solver. rewrite decide_False in Hacc by naive_solver.
      assert (kcount b k = 0) as -> by (destruct k; simpl; lia). lia.
  - intros l p c Hl Ha Hlf. destruct (Hlk l Hl Ha) as [H1 H2].
    rewrite !allocated_set, !decide_False by congruence. by apply (g_level e s HG).
  - apply HG.
  - apply HG.
Qed.

Definition fresh (owner : DomId) : Alloc := mkAlloc owner 0 0 0 0 L1 false.

Lemma wp_allocate e owner m s :
  Good e s -> wp (allocate owner m) (fun s' r =>
    match r with
    | Ok _ => owner < num_domains s /\ frame s m = Ok Free /\
        s' = set_frame m (Allocated (fresh owner)) s /\ Good e s'
    | Err _ => s' = s
    end) s.
Proof.
  intros HG. unfold allocate. wp_step. wp_step. wp_step. wp_step; [|done].
  wp_step. wp_step; [|done]. match goal with H : frame _ _ = Ok ?f |- _ =>
    rename H into Hf; destruct f as [|a]; [|by wp_step] end.
  assert (Hm : m < vlen (frames s)).
  { unfold frame, ok_or in Hf. destruct (vget (frames s) m) eqn:E; [|done]. by eapply vget_Some_lt. }
  assert (HG' : Good e (set_frame m (Allocated (fresh owner)) s)).
  { apply Good_swap; [done|done| |done]. intros k. unfold counted, allocated. by rewrite Hf. }
  wp_step. wp_step. eapply wp_finish; [done|done].
Qed.

Lemma wp_free e caller m s :
  Good e s -> wp (free caller m) (fun s' r =>
    match r with
    | Ok _ => exists a, allocated s m = Some a /\ f_owner a = caller /\ f_refs a = 0 /\
        s' = set_frame m Free s /\ Good e s'
    | Err _ => s' = s /\
        (owner_of s m <> Some caller \/ exists r, refs s m = Some r /\ 0 < r)
    end) s.
Proof.
  intros HG. unfold free. wp_step. wp_step. wp_step. wp_step.
  2: { split; [done|left]. unfold owner_of. destruct (allocated s m) as [a|] eqn:Ha; [|done].
       simpl. intros [= Ho]. assert (Hok : owned s caller m = Ok a) by (by apply owned_Ok).
       congruence. }
  match goal with H : owned _ _ _ = Ok ?x |- _ => apply owned_Ok in H as [Ha Ho]; rename x into a end.
  wp_step. wp_step.
  - wp_step. apply wp_unwrap. eexists. split; [by apply frame_allocated|]. wp_step. wp_step.
    assert (HG' : Good e (set_frame m Free s)).
    { apply Good_swap; [done|by eapply allocated_lt| |done]. intros k. unfold counted. rewrite Ha.
      pose proof (kcount_refs a k (g_sum e s HG m a Ha)). lia. }
    eapply wp_finish; [done|]. by exists a.
  - split; [done|right]. exists (f_refs a). unfold refs. rewrite Ha. split; [done|lia].
Qed.

(** *** Pins *)

Lemma wp_set_pinned m b a s (Q : System -> unit -> Prop) :
  allocated s m = Some a -> Q (set_frame m (Allocated (with_pinned b a)) s) tt ->
  wp (set_pinned m b) Q s.
Proof.
  intros Ha HQ. unfold set_pinned. wp_step. wp_step. wp_step. apply wp_unwrap. eexists.
  split; [by apply frame_allocated|]. cbn beta iota. by apply wp_modify.
Qed.

Lemma Good_pin e s m a :
  Good (bump KTable m e) s -> allocated s m = Some a -> pinned a = false ->
  Good e (set_frame m (Allocated (with_pinned true a)) s).
Proof.
  intros HG Ha Hp. eapply Good_update; [done|done|done| |by left| |].
  - apply (good_frame_ok _ s m a HG Ha).
  - intros k m' Hne. unfold bump. rewrite decide_False by naive_solver. lia.
  - intros k. unfold bump, pin_count. rewrite Hp. simpl.
    replace (kcount (with_pinned true a) k) with (kcount a k) by (by destruct k).
    destruct (decide (k = KTable)) as [->|Hk].
    + repeat case_decide; try lia; exfalso; naive_solver.
    + rewrite !decide_False by naive_solver. lia.
Qed.

Lemma Good_unpin e s m a :
  Good e s -> allocated s m = Some a -> pinned a = true ->
  Good (bump KTable m e) (set_frame m (Allocated (with_pinned false a)) s).
Proof.
  intros HG Ha Hp. eapply Good_update; [done|done|done| |by left| |].
  - apply (good_frame_ok _ s m a HG Ha).
  - intros k m' Hne. unfold bump. rewrite decide_False by naive_solver. lia.
  - intros k. unfold bump, pin_count. rewrite Hp. simpl.
    replace (kcount (with_pinned false a) k) with (kcount a k) by (by destruct k).
    destruct (decide (k = KTable)) as [->|Hk].
    + repeat case_decide; try lia; exfalso; naive_solver.
    + rewrite !decide_False by naive_solver. lia.
Qed.

Lemma wp_pin e caller m l s :
  Good e s -> wp (pin caller m l) (fun s' r =>
    match r with
    | Ok _ => exists a, allocated s m = Some a /\ f_owner a = caller /\ pinned a = false /\
        admits (Typed (PageTable l)) a /\
        s' = set_frame m (Allocated (with_pinned true (taken (Typed (PageTable l)) a))) s /\
        Good e s' /\ steady s s'
    | Err _ => s' = s
    end) s.
Proof.
  intros HG. unfold pin. wp_step. wp_step. wp_step. wp_step; [|done].
  match goal with H : owned _ _ _ = Ok ?x |- _ => apply owned_Ok in H as [Ha Ho]; rename x into a end.
  wp_step. wp_step; [|done]. wp_step. wp_apply wp_get_type; [done|].
  intros s1 [[]|err]; [|done]. intros (a1 & Ha1 & Had & -> & HG1). simplify_eq.
  pose proof (allocated_lt _ _ _ Ha) as Hlt.
  destruct (fields_taken (Typed (PageTable l)) a) as (Ho & Hp & _).
  wp_step. eapply wp_set_pinned.
  { rewrite allocated_set by done. by rewrite decide_True. }
  rewrite set_frame_set_frame.
  assert (HG2 : Good e (set_frame m (Allocated (with_pinned true
    (taken (Typed (PageTable l)) a))) s)).
  { rewrite <- (set_frame_set_frame m _ (Allocated (taken (Typed (PageTable l)) a)) s).
    apply Good_pin; [done| |congruence]. rewrite allocated_set by done. by rewrite decide_True. }
  eapply wp_finish; [done|]. exists a. split_and!; try done.
  by eapply steady_set_frame.
Qed.

Lemma wp_unpin e caller m s :
  Good e s -> wp (unpin caller m) (fun s' r =>
    match r with
    | Ok _ => exists a, allocated s m = Some a /\ f_owner a = caller /\ pinned a = true /\
        s' = set_frame m (Allocated (dropped (Typed (PageTable (pt_level a)))
               (with_pinned false a))) s /\
        Good e s' /\ steady s s'
    | Err _ => s' = s /\ (owner_of s m <> Some caller \/ is_pinned s m = false)
    end) s.
Proof.
  intros HG. unfold unpin. wp_step. wp_step. wp_step. wp_step.
  2: { split; [done|left]. unfold owner_of. destruct (allocated s m) as [a|] eqn:Ha; [|done].
       simpl. intros [= Ho]. assert (Hok : owned s caller m = Ok a) by (by apply owned_Ok).
       congruence. }
  match goal with H : owned _ _ _ = Ok ?x |- _ => apply owned_Ok in H as [Ha Ho]; rename x into a end.
  wp_step. wp_step.
  2: { split; [done|right]. unfold is_pinned. rewrite Ha. by destruct (pinned a). }
  pose proof (allocated_lt _ _ _ Ha) as Hlt.
  wp_step. rewrite (proj2 (frame_allocated _ _ _) Ha). wp_step. wp_step.
  eapply wp_set_pinned; [done|]. wp_step.
  assert (Ha1 : allocated (set_frame m (Allocated (with_pinned false a)) s) m =
    Some (with_pinned false a)) by (rewrite allocated_set by done; by rewrite decide_True).
  apply (wp_drop_child e (Typed (PageTable (pt_level a)))).
  { by apply Good_unpin. }
  { intros a' Ha'. by simplify_eq. }
  intros s' (a' & Ha' & -> & HG'). simplify_eq. rewrite set_frame_set_frame in *.
  eapply wp_finish; [done|]. exists a. split_and!; try done.
  by eapply steady_set_frame.
Qed.

(** *** Links *)

(** The state up to what nothing can observe: the level a frame without table references
    was last stamped with. *)
Definition canon (a : Alloc) : Alloc :=
  if decide (pagetable_refs a = 0) then with_level L1 a else a.
Record obs_eq (s s' : System) : Prop := mkObs {
  oe_domains : num_domains s' = num_domains s;
  oe_frames : frame_count s' = frame_count s;
  oe_links : links s' = links s;
  oe_alloc : forall m, canon <$> allocated s' m = canon <$> allocated s m;
}.

#[global] Instance obs_eq_equiv : Equivalence obs_eq.
Proof.
  split.
  - intros s. by split.
  - intros s s' [? ? ? H]. split; [congruence..|]. intros m. by rewrite H.
  - intros s1 s2 s3 [? ? ? H1] [? ? ? H2]. split; [congruence..|]. intros m. by rewrite H2.
Qed.

(** A reading of a frame that ignores its dead level. *)
Lemma obs_eq_read {T} (f : Alloc -> T) s s' m :
  (forall a, f (canon a) = f a) -> obs_eq s s' -> f <$> allocated s' m = f <$> allocated s m.
Proof.
  intros Hf Ho. pose proof (oe_alloc s s' Ho m) as H.
  destruct (allocated s m), (allocated s' m); simplify_eq/=; [|done].
  f_equal. rewrite <- (Hf a), <- (Hf a0). by f_equal.
Qed.

Lemma obs_eq_steady s s' : obs_eq s s' -> steady s s'.
Proof.
  intros Ho. split; [apply Ho..|]. intros m. apply (obs_eq_read f_owner); [|done].
  intros a. unfold canon. by case_decide.
Qed.

#[global] Instance owner_of_proper : Proper (obs_eq ==> eq ==> eq) owner_of.
Proof. intros s s' Ho ? m ->. symmetry. by apply obs_eq_steady. Qed.

#[global] Instance refs_proper : Proper (obs_eq ==> eq ==> eq) refs.
Proof.
  intros s s' Ho ? m ->. symmetry. apply (obs_eq_read f_refs); [|done].
  intros a. unfold canon. by case_decide.
Qed.

#[global] Instance current_type_proper : Proper (obs_eq ==> eq ==> eq) current_type.
Proof.
  intros s s' Ho ? m ->.
  pose (f := fun a => if decide (0 < writable_refs a) then Some Writable
      else if decide (0 < pagetable_refs a) then Some (PageTable (pt_level a)) else None).
  assert (Hf : forall a, f (canon a) = f a).
  { intros a. unfold f, canon. destruct (decide (pagetable_refs a = 0)); [simpl|done].
    repeat case_decide; (done || lia). }
  pose proof (obs_eq_read f s s' m Hf Ho) as H. unfold current_type.
  destruct (allocated s m), (allocated s' m); simplify_eq/=; done.
Qed.

#[global] Instance type_refs_proper : Proper (obs_eq ==> eq ==> eq ==> eq) type_refs.
Proof.
  intros s s' Ho ? m -> ? ty ->.
  pose (f := fun a => match ty with
    | Writable => writable_refs a
    | PageTable l => if decide (0 < pagetable_refs a /\ pt_level a = l) then pagetable_refs a else 0
    end).
  assert (Hf : forall a, f (canon a) = f a).
  { intros a. unfold f, canon. destruct (decide (pagetable_refs a = 0)) as [Hz|]; [|done].
    destruct ty; [done|]. simpl.
    rewrite Hz. by rewrite !decide_False by lia. }
  pose proof (obs_eq_read f s s' m Hf Ho) as H. unfold type_refs.
  destruct (allocated s m), (allocated s' m); done.
Qed.

Lemma canon_dropped_taken c a :
  frame_ok a -> canon (dropped c (taken c a)) = canon a.
Proof.
  intros (_ & Hs & _). destruct a as [o r w x p lv pn]. unfold typed_refs in Hs. simpl in Hs.
  assert (Hr : forall n, n + 1 - 1 = n) by lia.
  destruct c as [| |[|l]]; unfold canon; crunch_alloc; rewrite ?Hr; try done.
  destruct (decide (p = 0)) as [->|Hp]; simpl; rewrite ?Hr; [done|]. by rewrite decide_False.
Qed.

(** Taking a child reference and giving it back is invisible. *)
Lemma took_gave_obs e c m s s1 s2 :
  Good e s -> took e c m s s1 -> gave e c m s1 s2 -> obs_eq s s2.
Proof.
  intros HG (a & Ha & _ & -> & _) (b & Hb & -> & _). pose proof (allocated_lt _ _ _ Ha) as Hlt.
  rewrite allocated_set, decide_True in Hb by done. injection Hb as <-.
  rewrite set_frame_set_frame. split; try done.
  - unfold frame_count. simpl. by rewrite vlen_vset.
  - intros m'. rewrite allocated_set by done. case_decide as Hm; [|done]. subst m'.
    rewrite Ha. simpl. f_equal. apply canon_dropped_taken. by eapply good_frame_ok.
Qed.

Lemma taken_level c a l :
  admits c a -> c = Typed (PageTable l) -> pt_level (taken c a) = l.
Proof.
  intros Had ->. crunch_alloc. case_decide; simpl; [done|]. apply Had. lia.
Qed.

(** The live links after one more, and after one fewer. *)
Definition hold_link (l : Link) (e : external) : external :=
  bump (link_kind l) (child l) (bump KTable (parent l) e).

Lemma link_refs_hold k m l e :
  active l = true -> hold_link l e k m = link_refs k m l + e k m.
Proof.
  intros Ha. unfold hold_link, bump, link_refs. rewrite Ha.
  repeat case_decide; (lia || exfalso; naive_solver).
Qed.

Lemma Good_activate e s l :
  Good (hold_link l e) s -> active l = true ->
  (forall x, x ∈ links s -> active x = true -> parent x = parent l -> slot x <> slot l) ->
  slot l < TABLE_SLOTS -> (execute l = true -> leaf l = true /\ writable l = false) ->
  (leaf l = false -> forall p c, allocated s (parent l) = Some p ->
     allocated s (child l) = Some c ->
     interior_child_type (pt_level p) = Some (PageTable (pt_level c))) ->
  Good e (set_links (slot_insert active (links s) l) s).
Proof.
  intros HG Ha Hfree Hsl Hsh Hlv.
  destruct (slot_insert_spec active (links s) l Ha) as (Hsum & Hin & _ & i & Hi & Hrest).
  assert (Hold : forall j x, j <> i -> active x = true ->
    vget (slot_insert active (links s) l) j = Some x -> vget (links s) j = Some x)
    by (intros j x Hne Hx; by apply Hrest).
  destruct HG as [H1 H2 H3 H4 H5 H6 H7 H8 H9 H10]. split; simpl; try done.
  - intros k m. specialize (H7 k m). rewrite link_refs_hold in H7 by done.
    unfold links_refs in *. simpl. rewrite Hsum.
    2: { intros x Hx. unfold link_refs. by rewrite Hx. }
    change (counted (set_links _ s) k m) with (counted s k m).
    change (pin_refs (set_links _ s) k m) with (pin_refs s k m). lia.
  - intros x p c Hx Hxa Hlf. apply Hin in Hx as [->|Hx]; [by apply Hlv|by eapply H8|done].
  - intros x Hx Hxa. apply Hin in Hx as [->|Hx]; [done|by apply H9|done].
  - intros j k x y Hj Hk Hxa Hya Hp Hs.
    destruct (decide (j = i)) as [->|Hji], (decide (k = i)) as [->|Hki]; [done| | |].
    + exfalso. rewrite Hi in Hj. injection Hj as <-. apply Hold, vget_elem in Hk; [|done..].
      by apply (Hfree y).
    + exfalso. rewrite Hi in Hk. injection Hk as <-. apply Hold, vget_elem in Hj; [|done..].
      by apply (Hfree x).
    + apply Hold in Hj, Hk; [|done..]. by eapply H10.
Qed.

Definition deactivate (l : Link) : Link :=
  mkLink false (parent l) (slot l) (child l) (writable l) (leaf l) (execute l).

Lemma deactivated_elem ls i l x :
  x ∈ vset ls i (deactivate l) -> active x = true -> x ∈ ls.
Proof.
  intros [j Hj]%elem_vget Ha. rewrite vget_vset in Hj. case_decide; [by injection Hj as <-|].
  by eapply vget_elem.
Qed.

Lemma Good_deactivate e s i l :
  Good e s -> vget (links s) i = Some l -> active l = true ->
  Good (hold_link l e) (set_links (vset (links s) i (deactivate l)) s).
Proof.
  intros [H1 H2 H3 H4 H5 H6 H7 H8 H9 H10] Hi Ha. split; simpl; try done.
  - intros k m. specialize (H7 k m). rewrite link_refs_hold by done.
    unfold links_refs in *. simpl.
    pose proof (nsum_vset (link_refs k m) (links s) i (deactivate l) l Hi) as Hn.
    unfold link_refs in Hn at 4. simpl in Hn.
    change (counted (set_links _ s) k m) with (counted s k m).
    change (pin_refs (set_links _ s) k m) with (pin_refs s k m). lia.
  - intros x p c Hx Hxa. eapply H8; [by eapply deactivated_elem|done].
  - intros x Hx Hxa. apply H9; [by eapply deactivated_elem|done].
  - intros j k x y Hj Hk. rewrite vget_vset in Hj, Hk.
    repeat case_decide; try (by simplify_eq/=). by apply H10.
Qed.

Lemma entry_child_ref_kind lv lf w x c l :
  entry_child_ref lv lf w x = Some c -> leaf l = lf -> writable l = w -> execute l = x ->
  ref_kind c = link_kind l.
Proof.
  unfold entry_child_ref, link_kind. intros Hc -> -> ->.
  destruct lf; [by destruct w, x; simplify_eq/=|]. by destruct lv; simplify_eq/=.
Qed.

Lemma link_index_None s p sl :
  link_index s p sl = None <->
  forall l, l ∈ links s -> active l = true -> parent l = p -> slot l <> sl.
Proof.
  unfold link_index. rewrite position_None. split; intros H l Hl.
  - intros Ha <- <-. specialize (H l Hl). by rewrite Ha, !N.eqb_refl in H.
  - apply not_true_iff_false. intros [[Ha Hp%N.eqb_eq]%andb_true_iff Hs%N.eqb_eq]%andb_true_iff.
    by apply (H l Hl).
Qed.

Lemma link_index_Some s p sl i :
  link_index s p sl = Some i ->
  exists l, vget (links s) i = Some l /\ active l = true /\ parent l = p /\ slot l = sl.
Proof.
  unfold link_index. intros [(l & Hl & [[Ha Hp%N.eqb_eq]%andb_true_iff
    Hs%N.eqb_eq]%andb_true_iff) _]%position_Some. eauto.
Qed.

(** The table and its level after a reference to its child was taken. *)
Lemma took_keeps e c m s s' p a :
  took e c m s s' -> allocated s p = Some a -> 0 < pagetable_refs a ->
  exists a', allocated s' p = Some a' /\ pt_level a' = pt_level a /\ 0 < pagetable_refs a'.
Proof.
  intros (b & Hb & _ & -> & _) Ha Hp. pose proof (allocated_lt _ _ _ Hb) as Hlt.
  rewrite allocated_set by done. case_decide as Hm; [|by exists a].
  subst p. rewrite Ha in Hb. injection Hb as <-. exists (taken c a).
  destruct (fields_taken c a) as (_ & _ & _ & [Hl|Hl]); [|lia]. split_and!; [done|done|].
  destruct c as [| |[|l]]; crunch_alloc; try lia; case_decide; simpl; lia.
Qed.

(** What a successful [link] leaves: the entry [l] is live, nothing else changed hands. *)
Definition linked (e : external) (caller : DomId) (l : Link) (s s' : System) : Prop :=
  active l = true /\ owner_of s (parent l) = Some caller /\ is_allocated s (child l) = true /\
  link_index s (parent l) (slot l) = None /\ Good e s' /\ steady s s' /\
  (forall x, active x = true -> x ∈ links s' <-> x = l \/ x ∈ links s) /\
  same_pins s s' /\ levels_up s s' /\
  forall k m, links_refs s' k m = links_refs s k m + link_refs k m l.

Lemma wp_link e caller p sl c w lf x s :
  Good e s -> wp (link caller p sl c w lf x) (fun s' r =>
    match r with
    | Ok _ => linked e caller (mkLink true p sl c w lf (x && lf)) s s'
    | Err _ => Good e s' /\ obs_eq s s'
    end) s.
Proof.
  intros HG. unfold link. wp_step. wp_step. wp_step. wp_step; [|done].
  wp_step. wp_step; [|done]. wp_step. wp_step; [|done].
  match goal with H : owned _ _ _ = Ok ?x |- _ => apply owned_Ok in H as [Ha Ho]; rename x into a end.
  wp_step. wp_step; [|done]. wp_step. wp_step; [|done]. wp_step. wp_step; [|done].
  wp_step. wp_step; [|done].
  match goal with H : entry_child_ref _ _ _ _ = Some ?r |- _ => rename H into Hcr, r into cref end.
  set (l := mkLink true p sl c w lf (x && lf)).
  assert (Hk : ref_kind cref = link_kind l) by (by eapply entry_child_ref_kind).
  assert (Hpt : 0 < pagetable_refs a).
  { match goal with H : current_type _ _ = _ |- _ => unfold current_type in H;
      rewrite Ha in H; repeat case_decide; done end. }
  wp_step. wp_apply wp_take_child; [done|]. intros s1 [[]|err]; [|by intros ->].
  intros Ht1. pose proof Ht1 as (b & Hb & Hadb & Hs1 & HG1).
  destruct (took_steady _ _ _ _ _ Ht1) as [Hst1 Hl1].
  destruct (took_keeps _ _ _ _ _ p a Ht1 Ha Hpt) as (a1 & Ha1 & Hlv1 & Hpt1).
  wp_step. wp_apply wp_get_type; [done|]. intros s2 [[]|err]; cbn beta iota.
  - intros Ht2. pose proof Ht2 as (a1' & Ha1' & Had2 & Hs2 & HG2).
    destruct (took_steady _ _ _ _ _ Ht2) as [Hst2 Hl2].
    rewrite Ha1 in Ha1'. injection Ha1' as <-.
    destruct (took_keeps _ _ _ _ _ p a1 Ht2 Ha1 Hpt1) as (a2 & Ha2 & Hlv2 & _).
    assert (HG3 : Good e (set_links (slot_insert active (links s2) l) s2)).
    { apply Good_activate; simpl; try done.
      - eapply Good_proper; [|reflexivity|exact HG2]. unfold hold_link. simpl.
        rewrite bump_comm. by rewrite Hk.
      - rewrite Hl2, Hl1. by apply link_index_None.
      - by destruct x, lf, w.
      - intros Hlf p' c' Hp' Hc'. rewrite Ha2 in Hp'. injection Hp' as <-.
        rewrite Hlv2, Hlv1. unfold entry_child_ref in Hcr. rewrite Hlf in Hcr.
        destruct (interior_child_type (pt_level a)) as [ty|] eqn:Hty; [|done].
        injection Hcr as <-.
        assert (exists lc, ty = PageTable lc) as [lc ->]
          by (destruct (pt_level a); simplify_eq/=; eauto).
        assert (Hbl : exists b1, allocated s1 c = Some b1 /\ pt_level b1 = lc /\
          0 < pagetable_refs b1).
        { exists (taken (Typed (PageTable lc)) b). rewrite Hs1.
          rewrite allocated_set, decide_True by (by eapply allocated_lt || done).
          split_and!; [done|by eapply taken_level|]. crunch_alloc. case_decide; simpl; lia. }
        destruct Hbl as (b1 & Hb1 & Hlb1 & Hpb1).
        destruct (took_keeps _ _ _ _ _ c b1 Ht2 Hb1 Hpb1) as (b2 & Hb2 & Hlb2 & _).
        rewrite Hb2 in Hc'. injection Hc' as <-. by rewrite Hlb2, Hlb1. }
    unfold alloc_link. wp_step. wp_step. wp_step.
    assert (Hend : wp (check_invariants ;! ok tt) (fun s' r =>
      match r : result P2mError unit with
      | Ok _ => linked e caller l s s' | Err _ => Good e s' /\ obs_eq s s' end)
      (set_links (slot_insert active (links s2) l) s2)).
    { eapply wp_finish; [done|]. split_and!; simpl; try done.
      - unfold owner_of. rewrite Ha. simpl. by rewrite Ho.
      - eapply steady_trans; [done|]. by eapply steady_trans.
      - intros y Hy. rewrite <- Hl1, <- Hl2. by apply slot_insert_spec.
      - intros m. change (is_pinned s2 m = is_pinned s m).
        by rewrite (took_pins _ _ _ _ _ Ht2), (took_pins _ _ _ _ _ Ht1).
      - intros m b1 Hb1 Hpb1. change (allocated (set_links _ s2) m) with (allocated s2 m).
        destruct (took_keeps _ _ _ _ _ m b1 Ht1 Hb1 Hpb1) as (b2 & Hb2 & Hlb2 & Hpb2).
        destruct (took_keeps _ _ _ _ _ m b2 Ht2 Hb2 Hpb2) as (b3 & Hb3 & Hlb3 & Hpb3).
        exists b3. split_and!; [done|congruence|done].
      - intros k m. unfold links_refs. simpl. rewrite <- Hl1, <- Hl2.
        apply slot_insert_spec; [done|]. intros y Hy. unfold link_refs. by rewrite Hy. }
    unfold slot_insert in Hend. fold l.
    destruct (position _ (links s2)) as [i|]; apply wp_modify; exact Hend.
  - intros ->. wp_step. apply (wp_drop_child e cref); [done| |].
    + destruct cref as [| |[|lc]]; simpl; try done. intros b' Hb'. subst s1.
      rewrite allocated_set, decide_True in Hb' by (by eapply allocated_lt || done).
      injection Hb' as <-. by eapply taken_level.
    + intros s3 Hg. wp_step. pose proof (took_gave_obs _ _ _ _ _ _ HG Ht1 Hg) as Hobs.
      destruct Hg as (? & _ & _ & HG3). done.
Qed.

(** What a successful [unlink] leaves: slot [i], which held the entry, is inactive. *)
Definition unlinked (e : external) (p : Mfn) (sl : N) (s s' : System) : Prop :=
  exists i l, vget (links s) i = Some l /\ active l = true /\ parent l = p /\ slot l = sl /\
    links s' = vset (links s) i (deactivate l) /\ Good e s' /\ steady s s' /\
    same_pins s s' /\ levels_kept s s'.

Lemma wp_unlink e caller p sl s :
  Good e s -> wp (unlink caller p sl) (fun s' r =>
    match r with
    | Ok _ => owner_of s p = Some caller /\ unlinked e p sl s s'
    | Err _ => s' = s /\ (owner_of s p <> Some caller \/ link_index s p sl = None)
    end) s.
Proof.
  intros HG. unfold unlink. wp_step. wp_step. wp_step. wp_step.
  2: { split; [done|left]. unfold owner_of. destruct (allocated s p) as [a|] eqn:Ha; [|done].
       simpl. intros [= Ho]. assert (Hok : owned s caller p = Ok a) by (by apply owned_Ok).
       congruence. }
  match goal with H : owned _ _ _ = Ok ?x |- _ => apply owned_Ok in H as [Ha Ho]; rename x into a end.
  wp_step. wp_step; [|by split; [|right]].
  match goal with H : link_index _ _ _ = Some ?x |- _ => rename x into i;
    apply link_index_Some in H as (l & Hi & Hla & <- & <-) end.
  wp_step. apply wp_index. exists l. split; [done|]. wp_step. wp_step.
  pose proof (Good_deactivate e s i l HG Hi Hla) as HG1. unfold hold_link in HG1.
  set (s1 := set_links _ s). change (set_links _ s) with s1 in HG1.
  pose proof (vget_elem _ _ _ Hi) as Hl.
  destruct (good_link e s l HG Hl Hla) as (p0 & c0 & Hp0 & Hpt & Hc0 & Hkc).
  rewrite Ha in Hp0. injection Hp0 as <-.
  wp_step. apply (wp_drop_child (bump (link_kind l) (child l) e) (Typed (PageTable (pt_level a)))).
  { eapply Good_proper; [|reflexivity|exact HG1]. apply bump_comm. }
  { intros a' Ha'. change (allocated s (parent l) = Some a') in Ha'. congruence. }
  intros s2 Hg2. destruct (gave_steady _ _ _ _ _ Hg2) as [Hst2 Hl2].
  pose proof Hg2 as (a2 & Ha2 & Hs2 & HG2).
  wp_step. apply wp_dbg_assert; [done|]. wp_step.
  assert (exists cref, entry_child_ref (pt_level a) (leaf l) (writable l) (execute l) = Some cref /\
    at_level cref s2 (child l)) as (cref & Hcr & Hatl).
  { destruct (leaf l) eqn:Hlf.
    - eexists. split; [reflexivity|]. by destruct (writable l), (execute l).
    - pose proof (g_level e s HG l a c0 Hl Hla Hlf Ha Hc0) as Hty. simpl. rewrite Hty. simpl.
      eexists. split; [done|]. intros c2 Hc2. subst s2.
      rewrite allocated_set in Hc2 by (change (frames s1) with (frames s); by eapply allocated_lt).
      case_decide as Hcp.
      + injection Hc2 as <-. change (allocated s (parent l) = Some a2) in Ha2.
        rewrite <- Hcp, Hc0 in Ha2. by injection Ha2 as <-.
      + change (allocated s (child l) = Some c2) in Hc2. congruence. }
  rewrite Hcr. pose proof (entry_child_ref_kind _ _ _ _ _ l Hcr eq_refl eq_refl eq_refl) as Hk.
  apply (wp_drop_child e cref); [by rewrite Hk|done|].
  intros s3 Hg3. destruct (gave_steady _ _ _ _ _ Hg3) as [Hst3 Hl3].
  pose proof Hg3 as (_ & _ & _ & HG3).
  wp_step. apply wp_dbg_assert; [done|]. eapply wp_finish; [done|].
  split; [unfold owner_of; rewrite Ha; simpl; by rewrite Ho|].
  exists i, l. split_and!; try done; [by rewrite Hl3, Hl2| | |].
  - eapply steady_trans; [|done]. by eapply (steady_trans _ s1).
  - intros m. rewrite (gave_pins _ _ _ _ _ Hg3), (gave_pins _ _ _ _ _ Hg2). done.
  - intros m b3 Hb3. destruct (gave_levels _ _ _ _ _ Hg3 m b3 Hb3) as (b2 & Hb2 & ->).
    destruct (gave_levels _ _ _ _ _ Hg2 m b2 Hb2) as (b1 & Hb1 & ->). by exists b1.
Qed.

(** *** Teardown *)

(** What a sweep over the entries selected by [sel] leaves. *)
Definition swept (e : external) (sel : Link -> bool) (s s' : System) : Prop :=
  Good e s' /\ steady s s' /\ drops s s' /\
  forall x, active x = true -> x ∈ links s' <-> x ∈ links s /\ sel x = false.

Lemma wp_unlink_sweep e sel (body : N -> M System unit) s :
  Good e s ->
  (forall idx l s1, steady s s1 -> Good e s1 -> vget (links s1) idx = Some l ->
    (active l && sel l = false -> wp (body idx) (fun s' _ => s' = s1) s1) /\
    (active l = true -> sel l = true ->
       wp (body idx) (fun s' _ => unlinked e (parent l) (slot l) s1 s') s1)) ->
  wp (for_each (vrange (vlen (links s))) body) (fun s' _ => swept e sel s s') s.
Proof.
  intros HG Hbody.
  apply wp_for_each with (I := fun done s' => Good e s' /\ steady s s' /\
    drops s s' /\ vlen (links s') = vlen (links s) /\
    forall j l, active l = true -> vget (links s') j = Some l <->
      vget (links s) j = Some l /\ ~ (j ∈ done /\ sel l = true)).
  - split_and!; [done|done|apply drops_refl|done|].
    intros j l _. pose proof (not_elem_of_nil j). tauto.
  - intros l1 idx l2 s1 Hl (HG1 & Hst & Hdr & Hlen & Hin).
    assert (Hidx : idx < vlen (links s1)).
    { rewrite Hlen. apply elem_vrange. rewrite Hl. apply elem_of_app. right. by left. }
    destruct (vget_lt_Some _ _ Hidx) as [l Hlk].
    destruct (Hbody idx l s1 Hst HG1 Hlk) as [Hskip Hdo].
    destruct (active l && sel l) eqn:Hsel.
    + apply andb_true_iff in Hsel as [Ha Hsel]. wp_apply Hdo; [done..|].
      intros s2 _ (i & l' & Hi & Ha' & Hp & Hsl & Hls & HG2 & Hst2 & Hpi & Hlv).
      assert (i = idx) as -> by (eapply (g_unique e s1 HG1); eauto).
      assert (l' = l) as -> by congruence.
      split_and!; [done|by eapply steady_trans| |by rewrite Hls, vlen_vset|].
      { eapply drops_trans; [done|]. by apply drops_marks. }
      intros j x Hx. rewrite Hls, vget_vset, elem_of_snoc. case_decide as Hj.
      * destruct Hj as [<- _]. split; [by intros [= <-]|]. intros [Hx' Hn].
        exfalso. assert (vget (links s1) idx = Some x) as Hxl
          by (apply Hin; [done|]; split; [done|]; tauto).
        rewrite Hlk in Hxl. injection Hxl as <-. tauto.
      * rewrite Hin by done. assert (j <> idx) by (intros ->; tauto). tauto.
    + wp_apply Hskip; [done|]. intros s2 _ ->. split_and!; [done..|].
      intros j x Hx. rewrite Hin by done. rewrite elem_of_snoc. split.
      * intros [Hj Hn]. split; [done|]. intros [ [?| ->] Hs]; [tauto|].
        assert (vget (links s1) idx = Some x) as Hxl by (apply Hin; tauto).
        rewrite Hlk in Hxl. injection Hxl as <-. by rewrite Hx, Hs in Hsel.
      * tauto.
  - intros s' (HG' & Hst & Hdr & Hlen & Hin). split_and!; [done..|]. intros x Hx. split.
    + intros [j Hj]%elem_vget. apply Hin in Hj as [Hj Hn]; [|done].
      split; [by eapply vget_elem|]. apply not_true_iff_false. intros Hs. apply Hn.
      split; [|done]. apply elem_vrange. by eapply vget_Some_lt.
    + intros [[j Hj]%elem_vget Hs]. eapply vget_elem with j. apply Hin; [done|].
      split; [done|]. intros [_ ?]. congruence.
Qed.

Lemma wp_unlink_live e d l idx s :
  Good e s -> vget (links s) idx = Some l -> active l = true -> owner_of s (parent l) = Some d ->
  wp (let! r := unlink d (parent l) (slot l) in dbg_assert (is_ok r))
    (fun s' _ => unlinked e (parent l) (slot l) s s') s.
Proof.
  intros HG Hl Ha Ho. wp_step. wp_apply wp_unlink; [done|]. intros s' [[]|err]; cbn beta iota.
  - intros [_ Hu]. by apply wp_dbg_assert.
  - intros [_ [?|Hn] ]; [done|]. exfalso. rewrite link_index_None in Hn.
    apply (Hn l); [by eapply vget_elem|done..].
Qed.

Definition own_table (s : System) (d : DomId) (l : Link) : bool :=
  bool_decide (owner_of s (parent l) = Some d).
Definition foreign_into (s : System) (d : DomId) (l : Link) : bool :=
  bool_decide (owner_of s (child l) = Some d /\ owner_of s (parent l) <> Some d).

Lemma wp_unlink_all e d s :
  Good e s -> wp (unlink_all d) (fun s' _ => swept e (own_table s d) s s') s.
Proof.
  intros HG. unfold unlink_all. wp_step. wp_step.
  apply wp_unlink_sweep; [done|]. intros idx l s1 Hst HG1 Hl.
  assert (Hsel : bool_decide (owner_of s1 (parent l) = Some d) = own_table s d l)
    by (unfold own_table; by rewrite (st_owner _ _ Hst)).
  split; intros Ha; [|intros Hs]; wp_step; wp_step; wp_step; apply wp_index;
    (exists l; split; [done|]; cbn beta; rewrite Hsel).
  - rewrite Ha. by wp_step.
  - rewrite Ha, Hs. simpl. eapply wp_unlink_live; [done..|].
    rewrite Hs in Hsel. by apply bool_decide_eq_true in Hsel.
Qed.

Lemma wp_unlink_all_into e d s :
  Good e s -> wp (unlink_all_into d) (fun s' _ => swept e (foreign_into s d) s s') s.
Proof.
  intros HG. unfold unlink_all_into. wp_step. wp_step.
  apply wp_unlink_sweep; [done|]. intros idx l s1 Hst HG1 Hl.
  split; intros Ha; [|intros Hs]; wp_step; wp_step; wp_step; apply wp_index;
    (exists l; split; [done|]; cbn beta); pose proof (st_owner _ _ Hst) as Ho.
  - destruct (active l) eqn:Hla; simpl in *; [|by wp_step].
    case_bool_decide as Hc; [by wp_step|]. apply bool_decide_eq_false in Ha.
    destruct (good_link e s1 l HG1 (vget_elem _ _ _ Hl) Hla) as (p & c & Hp & _).
    assert (owner_of s1 (parent l) = Some (f_owner p)) as Hop by (unfold owner_of; by rewrite Hp).
    rewrite Hop. case_decide as Hd; [by wp_step|]. exfalso. apply Ha. rewrite <- !Ho.
    split; [by first [exact Hc|apply dec_stable]|]. rewrite Hop. intros [= ?]. by apply Hd.
  - apply bool_decide_eq_true in Hs as [Hc Hn]. rewrite Ha. simpl.
    rewrite bool_decide_false by (rewrite Ho; tauto).
    destruct (good_link e s1 l HG1 (vget_elem _ _ _ Hl) Ha) as (p & c & Hp & _).
    assert (owner_of s1 (parent l) = Some (f_owner p)) as Hop by (unfold owner_of; by rewrite Hp).
    rewrite Hop. rewrite decide_False by (rewrite <- Ho, Hop in Hn; congruence).
    by eapply wp_unlink_live.
Qed.

Lemma frame_range s m a :
  vlen (frames s) <= u32_max -> allocated s m = Some a -> m ∈ vrange (as_u32 (vlen (frames s))).
Proof. intros Hf Ha. rewrite elem_vrange, as_u32_id by done. by eapply allocated_lt. Qed.

(** The frames of other domains are as they were. *)
Definition others_kept (d : DomId) (s s' : System) : Prop :=
  forall m, owner_of s m <> Some d -> allocated s' m = allocated s m.

Lemma wp_unpin_all e d s :
  Good e s -> wp (unpin_all d) (fun s' _ =>
    Good e s' /\ steady s s' /\ links s' = links s /\ others_kept d s s' /\
    forall m, owner_of s m = Some d -> is_pinned s' m = false) s.
Proof.
  intros HG. unfold unpin_all. wp_step. wp_step.
  apply wp_for_each with (I := fun done s' =>
    Good e s' /\ steady s s' /\ links s' = links s /\ others_kept d s s' /\
    forall m, m ∈ done -> owner_of s m = Some d -> is_pinned s' m = false).
  - split_and!; [done..|]. intros m Hm. by apply elem_of_nil in Hm.
  - intros l1 m l2 s1 Hl (HG1 & Hst & Hls & Hoth & Hdone). wp_step. wp_step.
    rewrite (st_owner _ _ Hst). case_bool_decide as Ho; simpl.
    + destruct (is_pinned s1 m) eqn:Hpin.
      * wp_step. wp_apply wp_unpin; [done|]. intros s2 [[]|err]; cbn beta iota.
        -- intros (a & Ha & _ & _ & Hs2 & HG2 & Hst2). apply wp_dbg_assert; [done|].
           assert (Hal : forall m', allocated s2 m' = if decide (m' = m)
             then Some (dropped (Typed (PageTable (pt_level a))) (with_pinned false a))
             else allocated s1 m')
             by (intros; rewrite Hs2; apply allocated_set; by eapply allocated_lt).
           split_and!; [done|by eapply steady_trans|by rewrite Hs2| |].
           ++ intros m' Hm'. rewrite Hal, decide_False by congruence. by apply Hoth.
           ++ intros m' [Hm'| ->]%elem_of_snoc Ho'; unfold is_pinned; rewrite Hal;
                case_decide; try done. by apply Hdone.
        -- intros [_ [Hn|?] ]; [|congruence]. by rewrite (st_owner _ _ Hst) in Hn.
      * wp_step. split_and!; [done..|]. intros m' [Hm'| ->]%elem_of_snoc Ho'; [by apply Hdone|done].
    + wp_step. split_and!; [done..|]. intros m' [Hm'| ->]%elem_of_snoc Ho'; [by apply Hdone|done].
  - intros s' (HG' & Hst & Hls & Hoth & Hdone). split_and!; [done..|]. intros m Ho.
    apply Hdone; [|done]. unfold owner_of in Ho. destruct (allocated s m) as [a|] eqn:Ha; [|done].
    eapply frame_range; [apply HG|done].
Qed.

(** A frame nothing refers to has no references. *)
Lemma good_unreferenced e s m a :
  Good e s -> allocated s m = Some a ->
  (forall l, l ∈ links s -> active l = true -> parent l <> m /\ child l <> m) ->
  pinned a = false -> (forall k, e k m = 0) -> f_refs a = 0.
Proof.
  intros HG Ha Hl Hp He.
  assert (Hz : forall k, kcount a k = 0).
  { intros k. pose proof (g_acc e s HG k m) as Hacc. unfold counted, links_refs, pin_refs in Hacc.
    unfold is_pinned in Hacc. rewrite Ha, Hp, He in Hacc.
    rewrite decide_False in Hacc by naive_solver. rewrite nsum_zero in Hacc; [done|].
    intros l Hin. unfold link_refs. destruct (active l) eqn:Hla; [|done].
    destruct (Hl l Hin Hla). rewrite !decide_False by tauto. done. }
  pose proof (Hz KBare) as H1. pose proof (Hz KWrite) as H2. pose proof (Hz KExec) as H3.
  pose proof (Hz KTable) as H4. pose proof (g_sum e s HG m a Ha) as Hs.
  simpl in *. unfold typed_refs in *. lia.
Qed.

Lemma wp_free_all e d s :
  Good e s -> (forall m a, allocated s m = Some a -> f_owner a = d -> f_refs a = 0) ->
  wp (free_all d) (fun s' _ =>
    Good e s' /\ num_domains s' = num_domains s /\ frame_count s' = frame_count s /\
    links s' = links s /\
    forall m, allocated s' m = if decide (owner_of s m = Some d) then None else allocated s m) s.
Proof.
  intros HG Hz. unfold free_all. wp_step. wp_step.
  apply wp_for_each with (I := fun done s' =>
    Good e s' /\ num_domains s' = num_domains s /\ frame_count s' = frame_count s /\
    links s' = links s /\
    forall m, allocated s' m =
      if decide (owner_of s m = Some d /\ m ∈ done) then None else allocated s m).
  - split_and!; [done..|]. intros m. pose proof (not_elem_of_nil m).
    rewrite decide_False; tauto.
  - intros l1 m l2 s1 Hl (HG1 & Hn & Hf & Hls & Hal). wp_step. wp_step. case_decide as Ho.
    + assert (Hom : owner_of s m = Some d).
      { unfold owner_of in *. rewrite Hal in Ho. by case_decide. }
      wp_step. wp_apply wp_free; [done|]. intros s2 [[]|err]; cbn beta iota.
      * intros (a & Ha & _ & _ & Hs2 & HG2). apply wp_dbg_assert; [done|].
        pose proof (allocated_lt _ _ _ Ha) as Hlt.
        split_and!; [done|by rewrite Hs2| |by rewrite Hs2|].
        -- rewrite <- Hf, Hs2. unfold frame_count. simpl. apply vlen_vset.
        -- intros m'. rewrite Hs2, allocated_set by done. rewrite Hal.
           destruct (decide (m' = m)) as [->|]; sweep_cases.
      * intros [_ [?|(r & Hr & Hpos)] ]; [done|]. exfalso. unfold refs in Hr.
        rewrite Hal in Hr. case_decide as Hc; [done|].
        destruct (allocated s m) as [a|] eqn:Ha; [|done]. injection Hr as <-.
        unfold owner_of in Hom. rewrite Ha in Hom. injection Hom as Hom.
        rewrite (Hz m a Ha Hom) in Hpos. lia.
    + wp_step. split_and!; [done..|]. intros m'. rewrite Hal. sweep_cases.
      assert (m' = m) as -> by tauto. unfold owner_of in *. rewrite Hal in Ho.
      rewrite decide_False in Ho by tauto. tauto.
  - intros s' (HG' & Hn & Hf & Hls & Hal). split_and!; [done..|]. intros m. rewrite Hal.
    repeat case_decide; try tauto; try done. exfalso. unfold owner_of in *.
    destruct (allocated s m) as [a|] eqn:Ha; [|done].
    pose proof (frame_range s m a (g_frames e s HG) Ha). tauto.
Qed.

(** *** Boot *)

Lemma p2m_new_Good e n k :
  k <= u32_max -> (forall kd m, e kd m = 0) -> Good e (new n k).
Proof.
  intros Hk He.
  assert (Hno : forall m, allocated (new n k) m = None).
  { intros m. unfold allocated, frame. simpl. rewrite vget_vrepeat. by case_decide. }
  assert (Hnl : forall l : Link, l ∉ (@nil Link)) by (intros l; apply not_elem_of_nil).
  split; simpl.
  - by rewrite vlen_vrepeat.
  - intros m a. by rewrite Hno.
  - intros m a. by rewrite Hno.
  - intros m a. by rewrite Hno.
  - intros m a. by rewrite Hno.
  - intros m a. by rewrite Hno.
  - intros kd m. unfold counted, links_refs, pin_refs, is_pinned. rewrite Hno, He. simpl.
    by rewrite decide_False by naive_solver.
  - intros l p c Hl. by apply Hnl in Hl.
  - intros l Hl. by apply Hnl in Hl.
  - intros i j li lj Hi. apply vget_elem in Hi. by apply Hnl in Hi.
Qed.

Lemma new_owner n k m : owner_of (new n k) m = None.
Proof.
  unfold owner_of, allocated, frame. simpl. rewrite vget_vrepeat. by case_decide.
Qed.

(** ** Properties *)

(** The uses of a frame: an entry onto it, an entry of it as a table, a pin, or a reference
    from outside the page tables. *)
Inductive used_as (e : external) (s : System) (m : Mfn) : kind -> Prop :=
| use_entry l : l ∈ links s -> active l = true -> child l = m -> used_as e s m (link_kind l)
| use_table l : l ∈ links s -> active l = true -> parent l = m -> used_as e s m KTable
| use_pin : is_pinned s m = true -> used_as e s m KTable
| use_outside k : 0 < e k m -> used_as e s m k.

Lemma used_counted e s m k : Good e s -> used_as e s m k -> 0 < counted s k m.
Proof.
  intros HG Hu. destruct Hu as [l Hl Ha <-|l Hl Ha <-|Hp|k He].
  - destruct (good_link e s l HG Hl Ha) as (p & c & _ & _ & Hc & Hk). unfold counted. by rewrite Hc.
  - destruct (good_link e s l HG Hl Ha) as (p & c & Hp & Hk & _ & _). unfold counted. by rewrite Hp.
  - rewrite (g_acc e s HG). unfold pin_refs. rewrite decide_True by done. lia.
  - rewrite (g_acc e s HG). lia.
Qed.

(** No page is written and executed, and none is written and used as a page table: a
    frame with a writable use — an entry or a grant map — has no executable and no table
    use, so a guest can neither edit its own translation nor the code it runs. *)
Theorem uses_exclusive (e : external) (s : System) (m : Mfn) (k k' : kind) :
  Good e s -> used_as e s m KWrite -> used_as e s m k -> k <> KExec /\ k <> KTable.
Proof.
  intros HG Hu Hu'. apply (used_counted _ _ _ _ HG) in Hu, Hu'. unfold counted in *.
  destruct (allocated s m) as [a|] eqn:Ha; [|lia]. simpl in Hu.
  pose proof (g_wt e s HG m a Ha Hu). pose proof (g_wx e s HG m a Ha Hu).
  split; intros ->; simpl in *; lia.
Qed.

(** The entries a hardware walk follows from one table to the next. *)
Inductive walk (s : System) : nat -> Mfn -> Mfn -> Prop :=
| walk_here m : walk s 0 m m
| walk_down n l m : l ∈ links s -> active l = true -> leaf l = false ->
    walk s n (child l) m -> walk s (S n) (parent l) m.

Definition rank (l : PtLevel) : nat :=
  match l with L1 => 1 | L2 => 2 | L3 => 3 | L4 => 4 end.

Lemma walk_rank e s n p m :
  Good e s -> walk s n p m -> forall a b, allocated s p = Some a -> allocated s m = Some b ->
  rank (pt_level a) = (n + rank (pt_level b))%nat.
Proof.
  intros HG. induction 1 as [m|n l m Hl Ha Hlf Hw IH]; intros a b Hpa Hmb.
  - rewrite Hpa in Hmb. by injection Hmb as ->.
  - destruct (good_link e s l HG Hl Ha) as (p' & c & _ & _ & Hc & _).
    pose proof (g_level e s HG l a c Hl Ha Hlf Hpa Hc) as Hty. specialize (IH c b Hc Hmb).
    destruct (pt_level a), (pt_level c); simplify_eq/=; lia.
Qed.

Lemma walk_allocated e s n p m :
  Good e s -> walk s (S n) p m -> is_Some (allocated s p) /\ is_Some (allocated s m).
Proof.
  intros HG Hw. remember (S n) as k eqn:Hk. revert n Hk.
  induction Hw as [|k l m Hl Ha Hlf Hw IH]; intros n Hk; [done|]. injection Hk as <-.
  destruct (good_link e s l HG Hl Ha) as (p' & c & Hp & _ & Hc & _).
  split; [by rewrite Hp|]. destruct k as [|k].
  - inversion Hw; subst. by rewrite Hc.
  - by apply (IH k).
Qed.


Lemma counted_alloc s s' m a a' :
  allocated s m = Some a -> allocated s' m = Some a' ->
  typed_refs a <= f_refs a -> typed_refs a' <= f_refs a' ->
  (forall k, counted s' k m = counted s k m) -> f_owner a' = f_owner a -> pinned a' = pinned a ->
  (0 < pagetable_refs a -> pt_level a' = pt_level a) -> canon a' = canon a.
Proof.
  intros Ha Ha' Hs Hs' Hc Ho Hp Hl. unfold counted in Hc. rewrite Ha, Ha' in Hc.
  pose proof (Hc KBare) as H1. pose proof (Hc KWrite) as H2. pose proof (Hc KExec) as H3.
  pose proof (Hc KTable) as H4. destruct a, a'. unfold canon, with_level, typed_refs in *.
  simpl in *. subst. unfold typed_refs in *. simpl in *. assert (f_refs1 = f_refs0) as -> by lia.
  repeat case_decide; [done|]. by rewrite Hl by lia.
Qed.

(** An entry can be taken back: after a successful [link] the slot leads to the child,
    [unlink] by the owner of the table succeeds, and the two together leave no trace — every
    frame has its owner, its pin and all its reference counts as before, and the live entries
    are the ones there were. *)
Theorem link_unlink_roundtrip (e : external) (s s1 : System) (caller : DomId) (p c : Mfn)
    (sl : N) (w lf x : bool) :
  Good e s -> link caller p sl c w lf x s = Done s1 (Ok tt) ->
  child_at s1 p sl = Some c /\
  exists s2, unlink caller p sl s1 = Done s2 (Ok tt) /\ Good e s2 /\
    (forall m, canon <$> allocated s2 m = canon <$> allocated s m) /\
    (forall l, active l = true -> l ∈ links s2 <-> l ∈ links s).
Proof.
  intros HG E. assert (Hl : wp (link caller p sl c w lf x) (fun s' r => s' = s1 -> r = Ok tt ->
    linked e caller (mkLink true p sl c w lf (x && lf)) s s1) s).
  { wp_apply wp_link; [done|]. by intros s' [[]|err] H -> ?. }
  unfold wp in Hl. rewrite E in Hl. specialize (Hl eq_refl eq_refl).
  set (l := mkLink true p sl c w lf (x && lf)) in *.
  destruct Hl as (_ & Ho & _ & Hfree & HG1 & Hst1 & Hin1 & Hpin1 & Hup1 & Hrefs1).
  assert (Hlive : l ∈ links s1) by (apply Hin1; auto).
  assert (Hat : forall i y, vget (links s1) i = Some y -> active y = true -> parent y = p ->
    slot y = sl -> y = l).
  { intros i y Hi Hy Hyp Hys. apply vget_elem in Hi. apply Hin1 in Hi as [->|Hi]; [done| |done].
    exfalso. simpl in Hfree. rewrite link_index_None in Hfree. by apply (Hfree y). }
  split.
  { unfold child_at. destruct (link_index s1 p sl) as [i|] eqn:Hi.
    - apply link_index_Some in Hi as (y & Hy & Hya & Hyp & Hys). rewrite Hy. simpl.
      by rewrite (Hat i y).
    - exfalso. rewrite link_index_None in Hi. by apply (Hi l). }
  destruct (wp_Done _ _ _ (wp_unlink e caller p sl s1 HG1)) as (s2 & [[]|err] & E2 & H2).
  2: { exfalso. destruct H2 as [_ [H2|H2] ].
    - apply H2. rewrite (st_owner _ _ Hst1). exact Ho.
    - rewrite link_index_None in H2. by apply (H2 l). }
  destruct H2 as (_ & i & y & Hi & Hya & Hyp & Hys & Hls & HG2 & Hst2 & Hpin2 & Hlev2).
  assert (y = l) as -> by (by eapply Hat).
  assert (Hcount : forall k m, counted s2 k m = counted s k m).
  { intros k m. rewrite (g_acc e s2 HG2), (g_acc e s HG). pose proof (Hrefs1 k m) as H1.
    assert (pin_refs s2 k m = pin_refs s k m) as -> by (unfold pin_refs; by rewrite Hpin2, Hpin1).
    unfold links_refs in *. rewrite Hls.
    pose proof (nsum_vset (link_refs k m) (links s1) i (deactivate l) l Hi) as Hn.
    assert (link_refs k m (deactivate l) = 0) as Hz by done. lia. }
  exists s2. split_and!; [done|done| |].
  - intros m. assert (Howner : owner_of s2 m = owner_of s m)
      by (by rewrite (st_owner _ _ Hst2), (st_owner _ _ Hst1)).
    pose proof (Hpin2 m) as Hpm. rewrite (Hpin1 m) in Hpm.
    unfold owner_of, is_pinned in *. destruct (allocated s2 m) as [a2|] eqn:Ha2,
      (allocated s m) as [a|] eqn:Ha; simpl in *; try done. injection Howner as Howner. f_equal.
    eapply (counted_alloc s s2 m); try done; [by eapply (g_sum e s)|by eapply (g_sum e s2)|].
    intros Hp0. destruct (Hup1 m a Ha Hp0) as (a1 & Ha1 & <- & _).
    destruct (Hlev2 m a2 Ha2) as (a1' & Ha1' & ->). congruence.
  - intros y Hy. rewrite Hls. split.
    + intros [j Hj]%elem_vget. rewrite vget_vset in Hj. case_decide as Hc.
      { injection Hj as <-. done. }
      pose proof (vget_elem _ _ _ Hj) as Hm. apply Hin1 in Hm as [->|Hm]; [|done|done].
      exfalso. apply Hc. pose proof (vget_Some_lt _ _ _ Hi). split; [|done].
      by eapply (g_unique e s1 HG1).
    + intros Hm. assert (Hm1 : y ∈ links s1) by (apply Hin1; auto).
      apply elem_vget in Hm1 as [j Hj]. apply (vget_elem _ j). rewrite vget_vset_ne; [done|].
      intros ->. rewrite Hi in Hj. injection Hj as <-. simpl in Hfree.
      rewrite link_index_None in Hfree. by apply (Hfree l).
Qed.

(** A frame leaves its owner only when nothing uses it: [free] succeeds exactly for the
    owner of a frame that no entry, pin or outside reference uses; the frame is then free,
    and no other frame and no entry changed. *)
Theorem free_exact (e : external) (s : System) (caller : DomId) (m : Mfn) :
  Good e s -> exists s' r, free caller m s = Done s' r /\ Good e s' /\ links s' = links s /\
    (r = Ok tt <-> owner_of s m = Some caller /\ forall k, ~ used_as e s m k) /\
    forall m', allocated s' m' = if decide (r = Ok tt /\ m' = m) then None else allocated s m'.
Proof.
  intros HG. destruct (wp_Done _ _ _ (wp_free e caller m s HG)) as (s' & [[]|err] & E & H).
  - destruct H as (a & Ha & Ho & Hz & -> & HG'). exists (set_frame m Free s), (Ok tt).
    split_and!; [done..| |].
    + split; [|done]. intros _. split; [unfold owner_of; rewrite Ha; simpl; by rewrite Ho|].
      intros k Hu. apply (used_counted _ _ _ _ HG) in Hu. unfold counted in Hu. rewrite Ha in Hu.
      pose proof (kcount_refs a k (g_sum e s HG m a Ha)). lia.
    + intros m'. rewrite allocated_set by (by eapply allocated_lt). repeat case_decide; tauto.
  - destruct H as [-> Hor]. exists s, (Err err). split_and!; [done..| |].
    + split; [done|]. intros [Ho Hu]. exfalso. destruct Hor as [Hn|(r & Hr & Hpos)]; [done|].
      unfold refs in Hr. destruct (allocated s m) as [a|] eqn:Ha; [|done]. injection Hr as <-.
      assert (Hz : f_refs a = 0); [|lia].
      eapply (good_unreferenced e s m a HG Ha).
      * intros l Hl Hla. split; intros Hm; [eapply Hu, (use_table e s m l)|eapply Hu, (use_entry e s m l)]; done.
      * apply not_true_iff_false. intros Hp. apply (Hu KTable), use_pin. unfold is_pinned. by rewrite Ha.
      * intros k. destruct (decide (e k m = 0)) as [|Hk]; [done|]. exfalso.
        apply (Hu k), use_outside. lia.
    + intros m'. rewrite decide_False; [done|]. by intros [? _].
Qed.

(** *** Witnesses: a two-level table that maps a frame writable *)

Definition nothing : external := fun _ _ => 0.
Definition demo_setup : M System (result P2mError unit) :=
  allocate 0 0 ;! allocate 0 1 ;! allocate 0 2 ;! pin 0 0 L2 ;! link 0 0 0 1 false false false.
Definition demo_table : System :=
  match demo_setup (new 2 4) with Done s _ => s | Panic => new 2 4 end.
Definition demo : System :=
  match link 0 1 3 2 true true false demo_table with Done s _ => s | Panic => demo_table end.

Lemma Good_of {T} (m : M System T) s :
  wp m (fun s' _ => Good nothing s') s ->
  Good nothing (match m s with Done s' _ => s' | Panic => s end).
Proof. intros (s' & x & -> & H)%wp_Done. exact H. Qed.

Lemma demo_link_Good caller p sl c w lf x s :
  Good nothing s -> wp (link caller p sl c w lf x) (fun s' _ => Good nothing s') s.
Proof.
  intros HG. wp_apply wp_link; [exact HG|]. intros s' [[]|err]; [|by intros [? _] ].
  by intros (_ & _ & _ & _ & ? & _).
Qed.

Lemma demo_table_Good : Good nothing demo_table.
Proof.
  apply (Good_of demo_setup).
  assert (HG : Good nothing (new 2 4)) by (apply p2m_new_Good; [vm_compute; discriminate|done]).
  assert (Hal : forall d m s, Good nothing s -> wp (allocate d m) (fun s' _ => Good nothing s') s).
  { intros d m s H. wp_apply wp_allocate; [exact H|]. intros s' [[]|err]; [|by intros ->].
    by intros (_ & _ & _ & ?). }
  unfold demo_setup. wp_step. wp_apply Hal; [done|]. intros s1 _ H1.
  wp_step. wp_apply Hal; [done|]. intros s2 _ H2. wp_step. wp_apply Hal; [done|]. intros s3 _ H3.
  wp_step. wp_apply wp_pin; [exact H3|]. intros s4 [[]|err].
  - intros (a & _ & _ & _ & _ & _ & H4 & _). by apply demo_link_Good.
  - intros ->. by apply demo_link_Good.
Qed.

Lemma demo_Good : Good nothing demo.
Proof. apply Good_of, demo_link_Good, demo_table_Good. Qed.

(** An entry of a concrete state, by its slot. *)
Lemma demo_entry s i l : vget (links s) i = Some l -> l ∈ links s.
Proof. apply vget_elem. Qed.

Theorem uses_exclusive_witness : KWrite <> KExec /\ KWrite <> KTable.
Proof.
  assert (Hu : used_as nothing demo 2 KWrite).
  { refine (use_entry nothing demo 2 (mkLink true 1 3 2 true true false) _ eq_refl eq_refl).
    apply (demo_entry demo 1). vm_compute. reflexivity. }
  exact (uses_exclusive nothing demo 2 KWrite KWrite demo_Good Hu Hu).
Defined.


Theorem link_unlink_roundtrip_witness :
  child_at demo 1 3 = Some 2 /\ exists s2, unlink 0 1 3 demo = Done s2 (Ok tt).
Proof.
  assert (E : link 0 1 3 2 true true false demo_table = Done demo (Ok tt))
    by (vm_compute; reflexivity).
  refine (match link_unlink_roundtrip nothing demo_table demo 0 1 2 3 true true false
      demo_table_Good E with
    | conj H (ex_intro _ s2 (conj E2 _)) => conj H (ex_intro _ s2 E2)
    end).
Defined.

Theorem free_exact_witness : exists s' r, free 0 2 demo = Done s' r /\ links s' = links demo.
Proof.
  refine (match free_exact nothing demo 0 2 demo_Good with
    | ex_intro _ s' (ex_intro _ r (conj E (conj _ (conj H _)))) =>
        ex_intro _ s' (ex_intro _ r (conj E H))
    end).
Defined.
