(* ===== verification/Hypervisor.v ===== *)
(** * The hypervisor — [hv-core/src/hypervisor.rs]

    The aggregate state of all subsystems, the hypercall surface ([HvCall], [route],
    [dispatch], [apply]), the seams between subsystems, the domain lifecycle, the control
    capabilities and the cross-subsystem invariant check. *)

From Stdlib Require Import NArith Lia.
From stdpp Require Import base numbers list option.
From S2P Require Import Credit.
From S2P Require Import Device.
From S2P Require Import Sched.
From S2P Require Import Evtchn.
From S2P Require Import Grant.
From S2P Require Import P2m.
From S2P Require Import Prelude.
#[local] Open Scope N_scope.

(** ** Data *)

Inductive HvCall : Type :=
| CreditGrant (amount : N)
| CreditSpend (amount : N)
| EvtchnAllocUnbound (remote : DomId)
| EvtchnBindInterdomain (remote : DomId) (remote_port : Port)
| EvtchnBindVirq (vcpu : Vcpu) (virq : Virq)
| EvtchnBindIpi (vcpu : Vcpu)
| EvtchnClose (port : Port)
| EvtchnSend (port : Port)
| EvtchnMask (port : Port)
| EvtchnUnmask (port : Port)
| EvtchnConsume (port : Port)
| GrantAccess (gref : GrantRef) (grantee : DomId) (frame : N) (readonly : bool)
| GrantEndAccess (gref : GrantRef)
| GrantMap (grantor : DomId) (gref : GrantRef) (writable : bool)
| GrantUnmap (handle : GrantHandle)
| GrantCopy (grantor : DomId) (gref : GrantRef) (write : bool)
| SchedAdmit (vcpu : Vcpu)
| SchedRun (vcpu : Vcpu) (pcpu : Pcpu) (now : Ticks)
| SchedPreempt (vcpu : Vcpu) (now : Ticks)
| SchedBlock (vcpu : Vcpu) (now : Ticks)
| SchedWake (vcpu : Vcpu)
| SchedOffline (vcpu : Vcpu) (now : Ticks)
| SchedSetAffinity (target : DomId) (vcpu : Vcpu) (affinity : N)
| P2mAllocate (mfn : Mfn)
| P2mFree (mfn : Mfn)
| P2mPin (mfn : Mfn) (level : P2m.PtLevel)
| P2mUnpin (mfn : Mfn)
| P2mLink (parent : Mfn) (slot : N) (child : Mfn) (writable leaf execute : bool)
| P2mUnlink (parent : Mfn) (slot : N)
| DomainCreate (target : DomId) (may_create : bool)
| DomainDestroy (target : DomId) (now : Ticks)
| ControlGrant (target to : DomId)
| ControlRevoke (target from : DomId)
| DeviceAssign (dev : DevId) (to : DomId)
| DeviceRelease (dev : DevId) (from : DomId).

Inductive HvOutcome : Type :=
| ODone
| OBalance (balance : N)
| OPort (port : Port)
| OHandle (handle : GrantHandle)
| OPending (pending : bool).

Inductive HvError : Type :=
| BadDomain
| ECredit (e : Credit.HError)
| EEvtchn (e : Evtchn.EvtchnError)
| EGrant (e : Grant.GrantError)
| ESched (e : Sched.SchedError)
| EP2m (e : P2m.P2mError)
| EDevice (e : Device.DeviceError)
| StaleGrant
| Unauthorized
| Denied
| NotAlive
| AlreadyAlive.

Inductive CrossViolation : Type :=
| UnbackedGrantMap (grantor : DomId) (gref : GrantRef)
| MisownedGrantMap (grantor : DomId) (gref : GrantRef)
| LostWakeup (dom : DomId) (vcpu : Vcpu)
| UnauthorizedForeignLink (parent child : Mfn)
| DeadDomainNotClean (dom : DomId)
| DeadDomainReferenced (dom : DomId)
| DeadDomainMayCreate (dom : DomId)
| ControlEdgeDeadEndpoint (holder target : DomId)
| ControlEdgeOrphaned (holder target : DomId).

Inductive DomainLife : Type := Dead | Live.
#[global] Instance DomainLife_eq_dec : EqDecision DomainLife.
Proof. solve_decision. Defined.

Inductive Control : Type :=
| Absent
| Root
| Via (delegator : DomId).
#[global] Instance Control_eq_dec : EqDecision Control.
Proof. solve_decision. Defined.

Record Hypervisor : Type := mkHv {
  credit : list Credit.HvCore;
  evtchn : Evtchn.System;
  grant : Grant.System;
  sched : Sched.System;
  p2m : P2m.System;
  device : Device.System;
  life : list DomainLife;
  may_create : list bool;
  controls : list (list Control);
}.

Inductive Transition : Type :=
| Guest (caller : DomId) (call : HvCall)
| RaiseVcpuVirq (dom : DomId) (vcpu : Vcpu) (virq : Virq).

Inductive TransitionOutcome : Type :=
| TGuest (o : HvOutcome)
| TRaiseVcpuVirq (deliverable : bool).

(** ** The subsystems as parts of the aggregate *)

Definition set_evtchn (e : Evtchn.System) (s : Hypervisor) : Hypervisor :=
  mkHv (credit s) e (grant s) (sched s) (p2m s) (device s) (life s) (may_create s) (controls s).
Definition set_grant (g : Grant.System) (s : Hypervisor) : Hypervisor :=
  mkHv (credit s) (evtchn s) g (sched s) (p2m s) (device s) (life s) (may_create s) (controls s).
Definition set_sched (c : Sched.System) (s : Hypervisor) : Hypervisor :=
  mkHv (credit s) (evtchn s) (grant s) c (p2m s) (device s) (life s) (may_create s) (controls s).
Definition set_p2m (p : P2m.System) (s : Hypervisor) : Hypervisor :=
  mkHv (credit s) (evtchn s) (grant s) (sched s) p (device s) (life s) (may_create s) (controls s).
Definition set_device (d : Device.System) (s : Hypervisor) : Hypervisor :=
  mkHv (credit s) (evtchn s) (grant s) (sched s) (p2m s) d (life s) (may_create s) (controls s).
Definition set_credit (c : list Credit.HvCore) (s : Hypervisor) : Hypervisor :=
  mkHv c (evtchn s) (grant s) (sched s) (p2m s) (device s) (life s) (may_create s) (controls s).
Definition set_life (l : list DomainLife) (s : Hypervisor) : Hypervisor :=
  mkHv (credit s) (evtchn s) (grant s) (sched s) (p2m s) (device s) l (may_create s) (controls s).
Definition set_may_create (l : list bool) (s : Hypervisor) : Hypervisor :=
  mkHv (credit s) (evtchn s) (grant s) (sched s) (p2m s) (device s) (life s) l (controls s).
Definition set_controls (c : list (list Control)) (s : Hypervisor) : Hypervisor :=
  mkHv (credit s) (evtchn s) (grant s) (sched s) (p2m s) (device s) (life s) (may_create s) c.

Definition evtchn_l : lens Hypervisor Evtchn.System := Lens evtchn set_evtchn.
Definition grant_l : lens Hypervisor Grant.System := Lens grant set_grant.
Definition sched_l : lens Hypervisor Sched.System := Lens sched set_sched.
Definition p2m_l : lens Hypervisor P2m.System := Lens p2m set_p2m.
Definition device_l : lens Hypervisor Device.System := Lens device set_device.
Definition credit_l (d : DomId) : lens Hypervisor Credit.HvCore :=
  Lens (fun s => default Credit.new (vget (credit s) d))
       (fun c s => set_credit (vset (credit s) d c) s).

(** [.map(fo).map_err(fe)] on the result of a subsystem call. *)
Definition call {A E T} (l : lens Hypervisor A) (m : M A (result E T)) (fo : T -> HvOutcome)
    (fe : E -> HvError) : M Hypervisor (result HvError HvOutcome) :=
  let! r := zoom l m in ret (map_err fe (map_ok fo r)).
Definition done {T} (_ : T) : HvOutcome := ODone.

(** ** Queries *)

Definition domain_count (s : Hypervisor) : N := vlen (credit s).

Definition balance (s : Hypervisor) (d : DomId) : option N :=
  Credit.balance <$> vget (credit s) d.

Definition has_may_create (s : Hypervisor) (d : DomId) : bool :=
  default false (vget (may_create s) d).

Definition control_edge (s : Hypervisor) (h t : DomId) : Control :=
  default Absent (tget (controls s) h t).

Definition has_control (s : Hypervisor) (h t : DomId) : bool :=
  bool_decide (control_edge s h t <> Absent).

Definition life_of (s : Hypervisor) (d : DomId) : option DomainLife := vget (life s) d.
Definition is_live (s : Hypervisor) (d : DomId) : bool :=
  bool_decide (life_of s d = Some Live).

(** ** The cross-subsystem check *)

(** [self.controls[h][t]] and [self.life[d]]. *)
Definition cell (h t : DomId) : M Hypervisor Control :=
  let! s := get in let! row := index (controls s) h in index row t.
Definition life_at (d : DomId) : M Hypervisor DomainLife :=
  let! s := get in index (life s) d.

(** The totals [maps_over_frame] accumulates over every entry that offers the frame. *)
Definition maps_over_frame (s : Hypervisor) (f : N) : N * N :=
  foldl (fun acc from =>
    foldl (fun acc g =>
      if decide (Grant.granted_frame (grant s) from g = Some f) then
        (saturating_add u32_max (fst acc) (default 0 (Grant.map_count (grant s) from g)),
         saturating_add u32_max (snd acc) (default 0 (Grant.writable_map_count (grant s) from g)))
      else acc) acc (vrange (as_u32 (Grant.entry_count (grant s) from))))
    (0, 0) (vrange (as_u16 (Grant.domain_count (grant s)))).

Definition is_clean_shell (s : Hypervisor) (d : DomId) : bool :=
  forallb (fun p => bool_decide (Evtchn.state_of (evtchn s) d p = Some Evtchn.Free))
    (vrange (as_u32 (Evtchn.port_count (evtchn s) d))) &&
  forallb (fun v => bool_decide (Sched.state_of (sched s) d v = Some Sched.Offline))
    (vrange (as_u32 (Sched.vcpu_count (sched s) d))) &&
  forallb (fun g => negb (Grant.is_granted (grant s) d g))
    (vrange (as_u32 (Grant.entry_count (grant s) d))) &&
  negb (Grant.holds_any_map (grant s) d) &&
  forallb (fun m => bool_decide (P2m.owner_of (p2m s) m <> Some d))
    (vrange (as_u32 (P2m.frame_count (p2m s)))).

Definition is_unreferenced (s : Hypervisor) (d : DomId) : bool :=
  negb (Grant.any_grant_to (grant s) d) && negb (Evtchn.any_unbound_into (evtchn s) d) &&
  negb (Device.any_device_of (device s) d).

Definition grant_violation (from : DomId) (g : GrantRef) :
  M Hypervisor (option CrossViolation) :=
  let! s := get in
  match Grant.map_count (grant s) from g with
  | Some n =>
      if decide (0 < n) then
        let! f := unwrap_opt (Grant.granted_frame (grant s) from g) in
        if decide (P2m.owner_of (p2m s) f <> Some from) then ret (Some (MisownedGrantMap from g))
        else
          let total := maps_over_frame s f in
          let refs := default 0 (P2m.refs (p2m s) f) in
          let wrefs := default 0 (P2m.type_refs (p2m s) f P2m.Writable) in
          if decide (refs < fst total \/ wrefs < snd total)
          then ret (Some (UnbackedGrantMap from g)) else ret None
      else ret None
  | None => ret None
  end.

Definition wakeup_violation (s : Hypervisor) (d : DomId) (p : Port) : option CrossViolation :=
  if Evtchn.deliverable (evtchn s) d p then
    match Evtchn.notify_target (evtchn s) d p with
    | Some v =>
        if decide (Sched.state_of (sched s) d v = Some Sched.Blocked)
        then Some (LostWakeup d v) else None
    | None => None
    end
  else None.

Definition link_violation (s : Hypervisor) (e : Mfn * N * Mfn * bool * bool * bool) :
  option CrossViolation :=
  let '(parent, _, child, writable, _, _) := e in
  match P2m.owner_of (p2m s) child, P2m.owner_of (p2m s) parent with
  | Some co, Some po =>
      if negb (co =? po) && negb (Grant.authorizes (grant s) co po child writable)
      then Some (UnauthorizedForeignLink parent child) else None
  | _, _ => None
  end.

Definition life_violation (d : DomId) : M Hypervisor (option CrossViolation) :=
  let! l := life_at d in
  let! s := get in
  if decide (l = Dead) then
    if negb (is_clean_shell s d) then ret (Some (DeadDomainNotClean d))
    else if negb (is_unreferenced s d) then ret (Some (DeadDomainReferenced d))
    else
      let! mc := index (may_create s) d in
      if mc then ret (Some (DeadDomainMayCreate d)) else ret None
  else ret None.

Definition endpoint_violation (h t : DomId) : M Hypervisor (option CrossViolation) :=
  let! e := cell h t in
  if decide (e <> Absent) then
    let! lh := life_at h in
    if decide (lh <> Live) then ret (Some (ControlEdgeDeadEndpoint h t))
    else
      let! lt := life_at t in
      if decide (lt <> Live) then ret (Some (ControlEdgeDeadEndpoint h t)) else ret None
  else ret None.

(** The walk up the delegation tree; [steps_left] counts the steps the check allows. *)
Fixpoint reaches_root (steps_left : nat) (cur t : DomId) : M Hypervisor bool :=
  let! e := cell cur t in
  match e with
  | Root => ret true
  | Absent => ret false
  | Via parent =>
      match steps_left with
      | O => ret false
      | S k => reaches_root k parent t
      end
  end.

Definition orphan_violation (h t : DomId) : M Hypervisor (option CrossViolation) :=
  let! e := cell h t in
  if decide (e = Absent) then ret None
  else
    let! s := get in
    let! ok := reaches_root (N.to_nat (domain_count s)) h t in
    ret (if ok then None else Some (ControlEdgeOrphaned h t)).

(** [for a in 0..n { for b in 0..m(a) { … } }], stopping at the first violation. *)
Definition nested {S V} (n : N) (m : N -> N) (f : N -> N -> M S (option V)) :
  M S (option V) :=
  first_some_m (vrange n) (fun a => first_some_m (vrange (m a)) (fun b => f a b)).

Definition or_else {S V} (m k : M S (option V)) : M S (option V) :=
  let! v := m in match v with Some v => ret (Some v) | None => k end.

Definition first_cross_violation : M Hypervisor (option CrossViolation) :=
  let! s := get in
  let n := as_u16 (domain_count s) in
  or_else (nested (as_u16 (Grant.domain_count (grant s)))
             (fun d => as_u32 (Grant.entry_count (grant s) d)) grant_violation)
  (or_else (nested (as_u16 (Evtchn.domain_count (evtchn s)))
             (fun d => as_u32 (Evtchn.port_count (evtchn s) d))
             (fun d p => ret (wakeup_violation s d p)))
  (or_else (ret (first_some (link_violation s) (P2m.link_edges (p2m s))))
  (or_else (first_some_m (vrange n) life_violation)
  (or_else (nested n (fun _ => n) endpoint_violation)
           (nested n (fun _ => n) orphan_violation))))).

Definition check_cross : M Hypervisor unit :=
  let! v := first_cross_violation in
  dbg_assert (match v with None => true | Some _ => false end).

(** [invariants_hold]: every subsystem's own check, then the cross-subsystem one. *)
Definition invariants_hold : M Hypervisor bool :=
  let! s := get in
  if Evtchn.invariants_hold (evtchn s) && Grant.invariants_hold (grant s) &&
     Sched.invariants_hold (sched s) then
    let! p := zoom p2m_l P2m.invariants_hold in
    if p then
      let! c := fold_m (vrange (vlen (credit s))) (fun (acc : bool) d =>
        if acc then zoom (credit_l d) Credit.invariants_hold else ret false) true in
      if c then
        let! v := first_cross_violation in
        ret (match v with None => true | Some _ => false end)
      else ret false
    else ret false
  else ret false.

(** ** Construction *)

Definition new (num_domains ports_per_domain grants_per_domain vcpus_per_domain num_pcpus
    num_frames num_devices : N) : Hypervisor :=
  mkHv (vrepeat num_domains Credit.new)
    (Evtchn.new num_domains ports_per_domain)
    (Grant.new num_domains grants_per_domain)
    (Sched.new num_domains vcpus_per_domain num_pcpus)
    (P2m.new num_domains num_frames)
    (Device.new num_domains num_devices)
    ((fun d => if d =? 0 then Live else Dead) <$> vrange num_domains)
    ((fun d => d =? 0) <$> vrange num_domains)
    (vrepeat num_domains (vrepeat num_domains Absent)).

(** ** Guards *)

(** [target as usize >= self.domain_count()]. *)
Definition in_range (s : Hypervisor) (d : DomId) : Prop := d < domain_count s.
#[global] Instance in_range_dec s d : Decision (in_range s d).
Proof. unfold in_range. apply _. Defined.

Definition reject_dead_target (t : DomId) : M Hypervisor (result HvError unit) :=
  let! s := get in
  if decide (in_range s t) then
    let! l := life_at t in ensure (l = Live) NotAlive
  else ok tt.

Definition check_bind_vcpu (caller : DomId) (v : Vcpu) : M Hypervisor (result HvError unit) :=
  let! s := get in
  ensure (~ (caller < Sched.domain_count (sched s) /\ Sched.vcpu_count (sched s) caller <= v))
    (ESched Sched.BadVcpu).

(** [caller != t && self.controls[caller][t] == Absent] is refused. *)
Definition require_control_or_self (caller t : DomId) : M Hypervisor (result HvError unit) :=
  if decide (caller = t) then ok tt
  else let! e := cell caller t in ensure (e <> Absent) Denied.

(** ** Event and scheduler seams *)

Definition wake_if_deliverable (d : DomId) (p : Port) : M Hypervisor unit :=
  let! s := get in
  if Evtchn.deliverable (evtchn s) d p then
    match Evtchn.notify_target (evtchn s) d p with
    | Some v => let! _ := zoom sched_l (Sched.wake d v) in ret tt
    | None => ret tt
    end
  else ret tt.

Definition evtchn_send (caller : DomId) (p : Port) : M Hypervisor (result HvError HvOutcome) :=
  call evtchn_l (Evtchn.send caller p) done EEvtchn ;?
  let! s := get in
  match Evtchn.send_target (evtchn s) caller p with
  | Some t => wake_if_deliverable (fst t) (snd t)
  | None => ret tt
  end ;!
  ok ODone.

Definition evtchn_unmask (caller : DomId) (p : Port) : M Hypervisor (result HvError HvOutcome) :=
  call evtchn_l (Evtchn.unmask caller p) done EEvtchn ;?
  wake_if_deliverable caller p ;!
  ok ODone.

Definition raise_vcpu_virq (d : DomId) (v : Vcpu) (q : Virq) :
  M Hypervisor (result HvError bool) :=
  let! r := zoom evtchn_l (Evtchn.raise_virq d v q) in
  let? p := lift (map_err EEvtchn r) in
  wake_if_deliverable d p ;!
  check_cross ;!
  let! s := get in
  ok (Evtchn.deliverable (evtchn s) d p).

Definition sched_block (caller : DomId) (v : Vcpu) (now : Ticks) :
  M Hypervisor (result HvError HvOutcome) :=
  let! s := get in
  let blockable :=
    match Sched.state_of (sched s) caller v with
    | Some (Sched.Running _) | Some Sched.Runnable => true | _ => false end in
  if blockable && Evtchn.has_deliverable_for (evtchn s) caller v then ok ODone
  else call sched_l (Sched.block caller v now) done ESched.

Definition sched_set_affinity (caller t : DomId) (v : Vcpu) (aff : N) :
  M Hypervisor (result HvError HvOutcome) :=
  let! s := get in
  ensure (in_range s t) BadDomain ;?
  require_control_or_self caller t ;?
  call sched_l (Sched.set_affinity t v aff) done ESched.

(** ** Grant and page-table seams *)

(** Taking and giving back the page reference that backs a grant map. *)
Definition take_page (f : Mfn) (wr : bool) : M P2m.System (result P2m.P2mError unit) :=
  if wr then P2m.get_type f P2m.Writable else P2m.get_ref f.
Definition release_page (f : Mfn) (wr : bool) : M P2m.System (result P2m.P2mError unit) :=
  if wr then P2m.put_type f P2m.Writable else P2m.put_ref f.

Definition grant_map (caller from : DomId) (g : GrantRef) (wr : bool) :
  M Hypervisor (result HvError HvOutcome) :=
  let! s := get in
  let? f := lift (ok_or (Grant.granted_frame (grant s) from g) (EGrant Grant.WrongState)) in
  ensure (P2m.owner_of (p2m s) f = Some from) StaleGrant ;?
  let! r := zoom grant_l (Grant.map caller from g wr) in
  let? h := lift (map_err EGrant r) in
  let! acquire := zoom p2m_l (take_page f wr) in
  match acquire with
  | Ok _ => ok (OHandle h)
  | Err e => let! _ := zoom grant_l (Grant.unmap caller h) in err (EP2m e)
  end.

Definition release_unmapped (u : Grant.Unmapped) : M Hypervisor unit :=
  let! released := zoom p2m_l (release_page (Grant.u_frame u) (Grant.u_writable u)) in
  dbg_assert (is_ok released).

Definition grant_unmap (caller : DomId) (h : GrantHandle) :
  M Hypervisor (result HvError HvOutcome) :=
  let! r := zoom grant_l (Grant.unmap caller h) in
  let? u := lift (map_err EGrant r) in
  release_unmapped u ;!
  ok ODone.

Definition p2m_link (caller : DomId) (parent : Mfn) (slot : N) (child : Mfn)
    (wr leaf x : bool) : M Hypervisor (result HvError HvOutcome) :=
  let! s := get in
  match P2m.owner_of (p2m s) child with
  | Some owner =>
      if decide (owner <> caller) then
        ensure (Grant.authorizes (grant s) owner caller child wr = true) Unauthorized
      else ok tt
  | None => ok tt
  end ;?
  call p2m_l (P2m.link caller parent slot child wr leaf x) done EP2m.

Definition grant_copy (caller from : DomId) (g : GrantRef) (write : bool) :
  M Hypervisor (result HvError HvOutcome) :=
  let! s := get in
  match Grant.granted_frame (grant s) from g with
  | Some f => ensure (P2m.owner_of (p2m s) f = Some from) StaleGrant
  | None => ok tt
  end ;?
  ret (map_err EGrant (map_ok done (Grant.copy (grant s) caller from g write))).

Definition grant_end_access (caller : DomId) (g : GrantRef) :
  M Hypervisor (result HvError HvOutcome) :=
  let! s := get in
  match Grant.granted_frame (grant s) caller g, Grant.grantee_of (grant s) caller g with
  | Some f, Some to =>
      ensure (P2m.is_foreign_linked_by (p2m s) f to = false) (EGrant Grant.InUse)
  | _, _ => ok tt
  end ;?
  call grant_l (Grant.end_access caller g) done EGrant.

(** ** Control capabilities *)

(** [self.controls[h][t] = e]. *)
Definition set_cell (h t : DomId) (e : Control) : M Hypervisor unit :=
  let! _ := cell h t in
  modify (fun s => set_controls (tset (controls s) h t e) s).

Fixpoint control_subtree_walk (fuel : nat) (caller cur t : DomId) : M Hypervisor bool :=
  match fuel with
  | O => ret false
  | S k =>
      if decide (cur = caller) then ret true
      else
        let! e := cell cur t in
        match e with
        | Via parent => control_subtree_walk k caller parent t
        | Root | Absent => ret false
        end
  end.

(** The loop runs for [0..=n]. *)
Definition control_subtree_contains (caller node t : DomId) : M Hypervisor bool :=
  let! s := get in
  control_subtree_walk (S (N.to_nat (domain_count s))) caller node t.

(** One pass of the sweep; the result says whether it removed an edge. *)
Definition sweep_cell (t : DomId) (changed : bool) (h : DomId) : M Hypervisor bool :=
  let! e := cell h t in
  match e with
  | Via parent =>
      let! d := cell parent t in
      if decide (d = Absent) then set_cell h t Absent ;! ret true else ret changed
  | _ => ret changed
  end.
Definition sweep_pass : M Hypervisor bool :=
  let! s := get in
  let n := domain_count s in
  fold_m (vrange n) (fun changed t => fold_m (vrange n) (sweep_cell t) changed) false.

(** The [while changed] loop; a pass that changes anything removes an edge, so there are at
    most as many passes as cells, and one more. *)
Fixpoint sweep_loop (fuel : nat) : M Hypervisor unit :=
  match fuel with
  | O => panic
  | S k => let! changed := sweep_pass in if changed then sweep_loop k else ret tt
  end.
Definition sweep_orphaned_control_edges : M Hypervisor unit :=
  let! s := get in
  sweep_loop (S (N.to_nat (domain_count s * domain_count s))).

Definition control_grant (caller t to : DomId) : M Hypervisor (result HvError HvOutcome) :=
  let! s := get in
  ensure (in_range s t /\ in_range s to) BadDomain ;?
  let! e := cell caller t in
  ensure (e <> Absent) Denied ;?
  ensure (to <> t) Denied ;?
  let! l := life_at to in
  ensure (l = Live) NotAlive ;?
  let! e := cell to t in
  if decide (e <> Absent) then ok ODone
  else set_cell to t (Via caller) ;! ok ODone.

Definition control_revoke (caller t from : DomId) : M Hypervisor (result HvError HvOutcome) :=
  let! s := get in
  ensure (in_range s t /\ in_range s from) BadDomain ;?
  let! e := cell caller t in
  ensure (e <> Absent) Denied ;?
  let! inside := control_subtree_contains caller from t in
  ensure (inside = true) Denied ;?
  set_cell from t Absent ;!
  sweep_orphaned_control_edges ;!
  ok ODone.

(** ** Devices *)

Definition device_assign (caller : DomId) (dev : DevId) (to : DomId) :
  M Hypervisor (result HvError HvOutcome) :=
  let! s := get in
  ensure (in_range s to) BadDomain ;?
  let! e := cell caller to in
  ensure (e <> Absent) Denied ;?
  reject_dead_target to ;?
  call device_l (Device.assign dev to) done EDevice.

Definition device_release (caller : DomId) (dev : DevId) (from : DomId) :
  M Hypervisor (result HvError HvOutcome) :=
  let! s := get in
  ensure (in_range s from) BadDomain ;?
  require_control_or_self caller from ;?
  call device_l (Device.release dev from) done EDevice.

(** ** The domain lifecycle *)

Definition set_life_at (d : DomId) (l : DomainLife) : M Hypervisor unit :=
  let! _ := life_at d in modify (fun s => set_life (vset (life s) d l) s).
Definition set_may_create_at (d : DomId) (b : bool) : M Hypervisor unit :=
  let! s := get in
  let! _ := index (may_create s) d in
  modify (fun s => set_may_create (vset (may_create s) d b) s).

Definition domain_create (caller t : DomId) (mc : bool) :
  M Hypervisor (result HvError HvOutcome) :=
  let! s := get in
  ensure (in_range s t) BadDomain ;?
  let! c := index (may_create s) caller in
  ensure (c = true) Denied ;?
  let! l := life_at t in
  ensure (l = Dead) AlreadyAlive ;?
  dbg_assert (is_clean_shell s t && is_unreferenced s t) ;!
  set_life_at t Live ;!
  set_may_create_at t mc ;!
  set_cell caller t Root ;!
  ok ODone.

(** Step 2 and 3 of [domain_destroy]: release every foreign reference into the target's
    frames, then every map it holds. *)
Definition reclaim_foreign (t : DomId) : M Hypervisor unit :=
  let! us := zoom grant_l (Grant.drain_foreign_maps_of t) in
  for_each us release_unmapped ;!
  zoom p2m_l (P2m.unlink_all_into t) ;!
  let! s := get in
  dbg_assert (negb (Grant.has_foreign_map (grant s) t) &&
              negb (P2m.has_foreign_link_into (p2m s) t)).
Definition release_own_maps (t : DomId) : M Hypervisor unit :=
  let! us := zoom grant_l (Grant.drain_maps_of t) in
  for_each us release_unmapped.

(** The row and the column of the target in the control matrix. *)
Definition clear_control (t : DomId) : M Hypervisor unit :=
  let! s := get in
  for_each (vrange (domain_count s)) (fun h => set_cell h t Absent ;! set_cell t h Absent).

Definition domain_destroy (caller t : DomId) (now : Ticks) :
  M Hypervisor (result HvError HvOutcome) :=
  let! s := get in
  ensure (in_range s caller /\ in_range s t) BadDomain ;?
  require_control_or_self caller t ;?
  let! l := life_at t in
  dbg_assert (bool_decide (l = Live)) ;!
  zoom evtchn_l (Evtchn.close_all t) ;!
  zoom sched_l (Sched.offline_all t now) ;!
  reclaim_foreign t ;!
  release_own_maps t ;!
  zoom grant_l (Grant.revoke_all t) ;!
  zoom p2m_l (P2m.unlink_all t) ;!
  zoom p2m_l (P2m.unpin_all t) ;!
  zoom p2m_l (P2m.free_all t) ;!
  zoom grant_l (Grant.revoke_grants_to t) ;!
  zoom evtchn_l (Evtchn.clear_unbound_into t) ;!
  zoom device_l (Device.release_all_of t) ;!
  set_life_at t Dead ;!
  set_may_create_at t false ;!
  clear_control t ;!
  sweep_orphaned_control_edges ;!
  let! s := get in
  dbg_assert (is_clean_shell s t) ;!
  ok ODone.

(** ** The hypercall surface *)

(** [self.credit_of(caller)?.op(amount)]. *)
Definition credit_call (caller : DomId) (m : M Credit.HvCore Credit.HResult) :
  M Hypervisor (result HvError HvOutcome) :=
  let! s := get in
  let? _ := lift (ok_or (vget (credit s) caller) BadDomain) in
  call (credit_l caller) m OBalance ECredit.

Definition handle (caller : DomId) (c : HvCall) : M Hypervisor (result HvError HvOutcome) :=
  match c with
  | CreditGrant a => credit_call caller (Credit.grant_credit a)
  | CreditSpend a => credit_call caller (Credit.spend_credit a)
  | EvtchnAllocUnbound r =>
      reject_dead_target r ;?
      call evtchn_l (Evtchn.alloc_unbound caller r) OPort EEvtchn
  | EvtchnBindInterdomain r rp =>
      call evtchn_l (Evtchn.bind_interdomain caller r rp) OPort EEvtchn
  | EvtchnBindVirq v q =>
      check_bind_vcpu caller v ;? call evtchn_l (Evtchn.bind_virq caller v q) OPort EEvtchn
  | EvtchnBindIpi v =>
      check_bind_vcpu caller v ;? call evtchn_l (Evtchn.bind_ipi caller v) OPort EEvtchn
  | EvtchnClose p => call evtchn_l (Evtchn.close caller p) done EEvtchn
  | EvtchnSend p => evtchn_send caller p
  | EvtchnMask p => call evtchn_l (Evtchn.mask caller p) done EEvtchn
  | EvtchnUnmask p => evtchn_unmask caller p
  | EvtchnConsume p => call evtchn_l (Evtchn.consume caller p) OPending EEvtchn
  | GrantAccess g to f ro =>
      reject_dead_target to ;? call grant_l (Grant.grant_access caller g to f ro) done EGrant
  | GrantEndAccess g => grant_end_access caller g
  | GrantMap from g wr => grant_map caller from g wr
  | GrantUnmap h => grant_unmap caller h
  | GrantCopy from g wr => grant_copy caller from g wr
  | SchedAdmit v => call sched_l (Sched.admit_vcpu caller v) done ESched
  | SchedRun v p now => call sched_l (Sched.run caller v p now) done ESched
  | SchedPreempt v now => call sched_l (Sched.preempt caller v now) done ESched
  | SchedBlock v now => sched_block caller v now
  | SchedWake v => call sched_l (Sched.wake caller v) done ESched
  | SchedOffline v now => call sched_l (Sched.offline caller v now) done ESched
  | SchedSetAffinity t v aff => sched_set_affinity caller t v aff
  | P2mAllocate m => call p2m_l (P2m.allocate caller m) done EP2m
  | P2mFree m => call p2m_l (P2m.free caller m) done EP2m
  | P2mPin m l => call p2m_l (P2m.pin caller m l) done EP2m
  | P2mUnpin m => call p2m_l (P2m.unpin caller m) done EP2m
  | P2mLink p sl c wr lf x => p2m_link caller p sl c wr lf x
  | P2mUnlink p sl => call p2m_l (P2m.unlink caller p sl) done EP2m
  | DomainCreate t mc => domain_create caller t mc
  | DomainDestroy t now => domain_destroy caller t now
  | ControlGrant t to => control_grant caller t to
  | ControlRevoke t from => control_revoke caller t from
  | DeviceAssign d to => device_assign caller d to
  | DeviceRelease d from => device_release caller d from
  end.

Definition route (caller : DomId) (c : HvCall) : M Hypervisor (result HvError HvOutcome) :=
  let! s := get in
  ensure (in_range s caller) BadDomain ;?
  let! l := life_at caller in
  ensure (l = Live) NotAlive ;?
  handle caller c.

Definition dispatch (caller : DomId) (c : HvCall) : M Hypervisor (result HvError HvOutcome) :=
  let! outcome := route caller c in
  check_cross ;! ret outcome.

Definition apply (t : Transition) : M Hypervisor (result HvError TransitionOutcome) :=
  match t with
  | Guest caller c => let! r := dispatch caller c in ret (map_ok TGuest r)
  | RaiseVcpuVirq d v q => let! r := raise_vcpu_virq d v q in ret (map_ok TRaiseVcpuVirq r)
  end.
