(* ===== verification/HvInvariant.v ===== *)
(** * The invariant of the aggregate — [hv-core/src/hypervisor.rs]

    The joint invariant of the subsystems ([HInv]) and the proof that every runtime check
    of the aggregate ([first_cross_violation], [invariants_hold]) passes on a state that
    satisfies it. *)

From Stdlib Require Import NArith Lia.
From stdpp Require Import base numbers list option.
From S2P Require Import Credit.
From S2P Require Import Device.
From S2P Require Import Sched.
From S2P Require Import Evtchn.
From S2P Require Import Grant.
From S2P Require Import P2m.
From S2P Require Import Hypervisor.
From S2P Require Import Prelude.
#[local] Open Scope N_scope.

(** ** Specification *)

(** The page references that the active grant maps hold. *)
Definition backing (g : Grant.System) : P2m.external := fun k m =>
  match k with
  | P2m.KBare => Grant.ext g false m
  | P2m.KWrite => Grant.ext g true m
  | P2m.KExec | P2m.KTable => 0
  end.

(** Memory: the references the pages count are exactly those the links, the pins and the
    grant maps hold; a mapped frame belongs to its grantor; a page-table entry onto
    another domain's frame is covered by a grant of that frame. *)
Record Memory (g : Grant.System) (p : P2m.System) : Prop := mkMemory {
  mem_grant : Grant.Inv g;
  mem_p2m : P2m.Good (backing g) p;
  mem_owned : forall m, m ∈ Grant.maps g -> Grant.active m = true ->
    P2m.owner_of p (Grant.frame_of g m) = Some (Grant.grantor m);
  mem_links : forall l co po, l ∈ P2m.links p -> P2m.active l = true ->
    P2m.owner_of p (P2m.child l) = Some co -> P2m.owner_of p (P2m.parent l) = Some po ->
    co <> po -> Grant.authorizes g co po (P2m.child l) (P2m.writable l) = true;
}.

(** Events: no deliverable event rests on a blocked vCPU. *)
Record Events (e : Evtchn.System) (c : Sched.System) : Prop := mkEvents {
  ev_evtchn : Evtchn.Inv e;
  ev_sched : Sched.Inv c;
  ev_wakeup : forall d v, Evtchn.has_deliverable_for e d v = true ->
    Sched.state_of c d v <> Some Sched.Blocked;
}.

(** A domain that holds nothing, and that nothing names. *)
Record Clean (s : Hypervisor) (d : DomId) : Prop := mkClean {
  cl_ports : forall p c, Evtchn.chan_opt (evtchn s) d p = Some c -> Evtchn.state c = Evtchn.Free;
  cl_vcpus : forall v st, Sched.state_of (sched s) d v = Some st -> st = Sched.Offline;
  cl_grants : forall g, Grant.authority (grant s) d g = None;
  cl_maps : forall m, m ∈ Grant.maps (grant s) -> Grant.active m = true -> Grant.grantee m <> d;
  cl_frames : forall m, P2m.owner_of (p2m s) m <> Some d;
}.
Record Unreferenced (s : Hypervisor) (d : DomId) : Prop := mkUnreferenced {
  un_grants : forall e g f ro, Grant.authority (grant s) e g <> Some (d, f, ro);
  un_ports : forall e p, Evtchn.state_of (evtchn s) e p <> Some (Evtchn.Unbound d);
  un_devices : forall dev, Device.holder_of (device s) dev <> Some d;
}.

(** The provenance of a control edge: from its holder up to the creator of the target. *)
Inductive rooted (c : list (list Control)) (t : DomId) : DomId -> Prop :=
| rooted_root h : tget c h t = Some Root -> rooted c t h
| rooted_via h p : tget c h t = Some (Via p) -> rooted c t p -> rooted c t h.

Record Authority (l : list DomainLife) (c : list (list Control)) : Prop := mkAuthority {
  au_live : forall h t e, tget c h t = Some e -> e <> Absent ->
    vget l h = Some Live /\ vget l t = Some Live /\ h <> t;
  au_rooted : forall h t e, tget c h t = Some e -> e <> Absent -> rooted c t h;
}.

(** Every table of the aggregate is sized for the same domains. *)
Record Dims (s : Hypervisor) : Prop := mkDims {
  d_max : domain_count s <= u16_max;
  d_evtchn : Evtchn.domain_count (evtchn s) = domain_count s;
  d_grant : Grant.domain_count (grant s) = domain_count s;
  d_sched : Sched.domain_count (sched s) = domain_count s;
  d_p2m : P2m.domain_count (p2m s) = domain_count s;
  d_device : Device.domain_count (device s) = domain_count s;
  d_life : vlen (life s) = domain_count s;
  d_may : vlen (may_create s) = domain_count s;
  d_rows : vlen (controls s) = domain_count s;
  d_cols : forall h, h < domain_count s -> twidth (controls s) h = domain_count s;
}.

Record HInv (s : Hypervisor) : Prop := mkHInv {
  h_dims : Dims s;
  h_credit : forall d c, vget (credit s) d = Some c -> Credit.Inv c;
  h_memory : Memory (grant s) (p2m s);
  h_events : Events (evtchn s) (sched s);
  h_device : Device.Inv (device s);
  h_authority : Authority (life s) (controls s);
  h_dead : forall d, vget (life s) d = Some Dead ->
    Clean s d /\ Unreferenced s d /\ vget (may_create s) d = Some false;
}.

(** ** Lemmas *)

(** *** Cells *)

Lemma cell_lookup s h t :
  Dims s -> h < domain_count s -> t < domain_count s -> exists e, tget (controls s) h t = Some e.
Proof. intros HD Hh Ht. apply tget_lt_Some. by rewrite (d_cols s HD). Qed.

Lemma wp_cell s h t (Q : Hypervisor -> Control -> Prop) :
  Dims s -> h < domain_count s -> t < domain_count s ->
  (forall e, tget (controls s) h t = Some e -> Q s e) -> wp (cell h t) Q s.
Proof.
  intros HD Hh Ht HQ. destruct (cell_lookup s h t HD Hh Ht) as [e He].
  specialize (HQ e He). unfold tget in He. unfold cell. wp_step. wp_step. wp_step.
  apply wp_index. destruct (vget (controls s) h) as [row|]; [|done]. exists row. split; [done|].
  apply wp_index. by exists e.
Qed.

Lemma wp_life_at s d (Q : Hypervisor -> DomainLife -> Prop) :
  Dims s -> d < domain_count s -> (forall l, vget (life s) d = Some l -> Q s l) ->
  wp (life_at d) Q s.
Proof.
  intros HD Hd HQ. unfold life_at. wp_step. wp_step. apply wp_index.
  destruct (vget_lt_Some (life s) d) as [l Hl]; [by rewrite (d_life s HD)|]. eauto.
Qed.

Lemma in_range_cell s h t e : Dims s -> tget (controls s) h t = Some e ->
  h < domain_count s /\ t < domain_count s.
Proof.
  intros HD He. apply tget_Some_lt in He as [Hh Ht]. rewrite (d_rows s HD) in Hh.
  by rewrite (d_cols s HD) in Ht.
Qed.

(** *** The provenance walk ends within its bound *)

Inductive rooted_n (c : list (list Control)) (t : DomId) : nat -> DomId -> Prop :=
| rooted_n_root h : tget c h t = Some Root -> rooted_n c t 0 h
| rooted_n_via k h p : tget c h t = Some (Via p) -> rooted_n c t k p -> rooted_n c t (S k) h.

Lemma rooted_depth c t h : rooted c t h -> exists k, rooted_n c t k h.
Proof.
  induction 1 as [h Hr|h p Hv _ [k Hk]]; [exists 0%nat; by constructor|].
  exists (S k). by eapply rooted_n_via.
Qed.

Lemma rooted_n_det c t k k' h : rooted_n c t k h -> rooted_n c t k' h -> k = k'.
Proof.
  intros H. revert k'. induction H as [h Hr|k h p Hv _ IH]; intros k' H'; inversion H'; subst;
    try congruence. f_equal. apply IH. congruence.
Qed.

Lemma rooted_path c t k h :
  rooted_n c t k h -> exists l, length l = S k /\ NoDup l /\
    forall x, x ∈ l -> x < vlen c /\ exists j, (j <= k)%nat /\ rooted_n c t j x.
Proof.
  induction 1 as [h Hr|k h p Hv Hp (l & Hlen & Hnd & Hl)].
  - exists [h]. split_and!; [done|apply NoDup_singleton|]. intros x ->%list_elem_of_singleton.
    split; [by eapply tget_Some_lt|]. exists 0%nat. split; [lia|]. by constructor.
  - exists (h :: l). split_and!; [simpl; lia| |].
    + apply list.NoDup_cons. split; [|done]. intros Hin.
      destruct (Hl h Hin) as (_ & j & Hj & Hn).
      assert (S k = j); [|lia]. eapply rooted_n_det; [by eapply rooted_n_via|done].
    + intros x [->|Hx]%elem_of_cons.
      * split; [by eapply tget_Some_lt|]. exists (S k). split; [lia|]. by eapply rooted_n_via.
      * destruct (Hl x Hx) as (? & j & Hj & Hn). split; [done|]. exists j. split; [lia|done].
Qed.

(** A chain visits a domain at most once, so it is shorter than the number of domains. *)
Lemma rooted_n_bound c t k h : rooted_n c t k h -> N.of_nat k < vlen c.
Proof.
  intros (l & Hlen & Hnd & Hl)%rooted_path.
  assert (Hs : l ⊆+ vrange (vlen c)).
  { apply NoDup_submseteq; [done|]. intros x Hx. apply elem_vrange. by apply Hl. }
  apply submseteq_length in Hs. pose proof (vlen_vrange (vlen c)) as Hv. unfold vlen in *. lia.
Qed.

Lemma wp_reaches_root s t k h steps (Q : Hypervisor -> bool -> Prop) :
  Dims s -> rooted_n (controls s) t k h -> (k <= steps)%nat -> Q s true ->
  wp (reaches_root steps h t) Q s.
Proof.
  intros HD Hk. revert steps. induction Hk as [h Hr|k h p Hv Hp IH]; intros steps Hs HQ.
  - destruct (in_range_cell s h t _ HD Hr) as [Hh Ht].
    destruct steps; simpl; wp_step; (apply wp_cell; [done..|]); intros e He;
      rewrite Hr in He; injection He as <-; cbn beta iota; by wp_step.
  - destruct (in_range_cell s h t _ HD Hv) as [Hh Ht].
    destruct steps as [|steps]; [lia|]. simpl. wp_step. apply wp_cell; [done..|].
    intros e He. rewrite Hv in He. injection He as <-. cbn beta iota. apply IH; [lia|done].
Qed.

(** *** The maps over a frame, counted entry by entry *)

Lemma count_and_le {A} (f g : A -> bool) l : count (fun x => f x && g x) l <= count g l.
Proof. apply count_le. by intros x _ [_ ?]%andb_true_iff. Qed.

Lemma count_key {A} (key : A -> N) (q : A -> bool) (a : A) l :
  NoDup l -> nsum (fun x => if (key a =? x) && q a then 1 else 0) l <= if q a then 1 else 0.
Proof.
  intros Hnd. destruct (q a).
  - destruct (decide (key a ∈ l)) as [Hin|Hin].
    + rewrite (nsum_single _ l (key a) Hnd Hin).
      * by rewrite N.eqb_refl.
      * intros x _ Hx. destruct (N.eqb_spec (key a) x); [congruence|done].
    + rewrite nsum_zero; [done|]. intros x Hx.
      destruct (N.eqb_spec (key a) x); [congruence|done].
  - rewrite nsum_zero; [done|]. intros x _. by rewrite andb_false_r.
Qed.

(** Counting by key counts no element twice. *)
Lemma nsum_count_keys {A} (key : A -> N) (q : A -> bool) l (ms : list A) :
  NoDup l -> nsum (fun x => count (fun m => (key m =? x) && q m) ms) l <= count q ms.
Proof.
  intros Hnd. induction ms as [|a ms IH]; simpl; [by rewrite nsum_zero|].
  rewrite nsum_add. pose proof (count_key key q a l Hnd). lia.
Qed.

Lemma nsum_le {A} (f g : A -> N) l : (forall x, x ∈ l -> f x <= g x) -> nsum f l <= nsum g l.
Proof.
  induction l as [|a l IH]; simpl; [done|]. intros H.
  assert (nsum f l <= nsum g l) by (apply IH; intros; apply H; by right).
  pose proof (H a ltac:(by left)). lia.
Qed.

(** A fold of saturating additions stays below the sum. *)
Lemma foldl_saturating {A B} (sel : B -> N) (step : B -> A -> B) (f : A -> N) l acc :
  (forall b x, x ∈ l -> sel (step b x) <= sel b + f x) ->
  sel (foldl step acc l) <= sel acc + nsum f l.
Proof.
  revert acc. induction l as [|a l IH]; intros acc H; simpl; [lia|].
  pose proof (IH (step acc a) ltac:(intros; apply H; by right)).
  pose proof (H acc a ltac:(by left)). lia.
Qed.

(** The sum over the entries that offer [f] of a count of the live mappings on them. *)
Lemma entries_count_le g f (q : Grant.Mapping -> bool) n (w : N -> N) :
  (forall m, q m = true -> Grant.active m = true) ->
  nsum (fun d => nsum (fun r =>
      if decide (Grant.granted_frame g d r = Some f)
      then count (fun m => Grant.live_on d r m && q m) (Grant.maps g) else 0) (vrange (w d)))
    (vrange n) <=
  count (fun m => q m && (Grant.frame_of g m =? f)) (Grant.maps g).
Proof.
  intros Hq.
  pose (hit := fun d r m => (Grant.gref m =? r) && ((Grant.grantor m =? d) &&
    (q m && (Grant.frame_of g m =? f)))).
  apply (N.le_trans _ (nsum (fun d => nsum (fun r => count (hit d r) (Grant.maps g))
    (vrange (w d))) (vrange n))).
  - apply nsum_le. intros d _. apply nsum_le. intros r _.
    case_decide as Hf; [|lia]. apply count_le. intros m _ [Hl Hqm]%andb_true_iff.
    unfold Grant.live_on in Hl. unfold hit.
    apply andb_true_iff in Hl as [[_ Hd]%andb_true_iff Hr]. rewrite Hd, Hr, Hqm. simpl.
    apply N.eqb_eq in Hd, Hr. unfold Grant.frame_of. rewrite Hd, Hr, Hf. apply N.eqb_refl.
  - etrans; [|apply (nsum_count_keys Grant.grantor _ (vrange n)), NoDup_vrange].
    apply nsum_le. intros d _. apply nsum_count_keys, NoDup_vrange.
Qed.

Lemma map_counts g d r :
  Grant.Inv g ->
  default 0 (Grant.map_count g d r) <= count (fun m => Grant.live_on d r m && Grant.active m)
    (Grant.maps g) /\
  default 0 (Grant.writable_map_count g d r) <=
    count (fun m => Grant.live_on d r m && (Grant.active m && Grant.writable m)) (Grant.maps g).
Proof.
  intros [HW _]. unfold Grant.map_count, Grant.writable_map_count.
  destruct (Grant.entry g d r) as [[|to f ro n w]|] eqn:He; simpl; try lia.
  apply Grant.entry_Ok in He. destruct (Grant.count_live g d r n w to f ro HW He) as [-> ->].
  split; apply N.eq_le_incl, count_ext; intros m _.
  - destruct (Grant.live_on d r m) eqn:Hl; [|done]. by rewrite (Grant.live_on_active _ _ _ Hl).
  - destruct (Grant.live_on d r m) eqn:Hl; [|done]. by rewrite (Grant.live_on_active _ _ _ Hl).
Qed.

Lemma ext_split g f :
  count (fun m => Grant.active m && (Grant.frame_of g m =? f)) (Grant.maps g) =
    Grant.ext g true f + Grant.ext g false f /\
  count (fun m => Grant.active m && Grant.writable m && (Grant.frame_of g m =? f)) (Grant.maps g) =
    Grant.ext g true f.
Proof.
  unfold Grant.ext, Grant.over. split.
  - rewrite (count_split _ Grant.writable). f_equal; apply count_ext; intros m _;
      by destruct (Grant.active m), (Grant.writable m), (Grant.frame_of g m =? f).
  - apply count_ext. intros m _. by destruct (Grant.active m), (Grant.writable m).
Qed.

Lemma maps_over_frame_le s f :
  Grant.Inv (grant s) ->
  fst (maps_over_frame s f) <= Grant.ext (grant s) true f + Grant.ext (grant s) false f /\
  snd (maps_over_frame s f) <= Grant.ext (grant s) true f.
Proof.
  intros HI. set (g := grant s) in *.
  pose (term := fun (q : Grant.Mapping -> bool) d r =>
    if decide (Grant.granted_frame g d r = Some f)
    then count (fun m => Grant.live_on d r m && q m) (Grant.maps g) else 0).
  assert (Hfold : forall sel (q : Grant.Mapping -> bool),
    (forall (acc : N * N) d r, sel (if decide (Grant.granted_frame g d r = Some f) then
        (saturating_add u32_max (fst acc) (default 0 (Grant.map_count g d r)),
         saturating_add u32_max (snd acc) (default 0 (Grant.writable_map_count g d r)))
      else acc) <= sel acc + term q d r) ->
    sel (0, 0) = 0 -> (forall m, q m = true -> Grant.active m = true) ->
    sel (maps_over_frame s f) <= count (fun m => q m && (Grant.frame_of g m =? f)) (Grant.maps g)).
  { intros sel q Hstep H0 Hq. unfold maps_over_frame. fold g.
    etrans; [apply (foldl_saturating sel _ (fun d => nsum (term q d)
      (vrange (as_u32 (Grant.entry_count g d)))))|].
    - intros acc d _. apply (foldl_saturating sel _ (term q d)). intros b r _. apply Hstep.
    - rewrite H0, N.add_0_l. by apply entries_count_le. }
  destruct (ext_split g f) as [<- <-]. split.
  - apply (Hfold fst Grant.active); [|done..]. intros acc d r. unfold term. case_decide; simpl; [|lia].
    unfold saturating_add. pose proof (proj1 (map_counts g d r HI)). lia.
  - etrans; [apply (Hfold snd (fun m => Grant.active m && Grant.writable m))|done]; [|done|].
    + intros acc d r. unfold term. case_decide; simpl; [|lia].
      unfold saturating_add. pose proof (proj2 (map_counts g d r HI)). lia.
    + by intros m [? _]%andb_true_iff.
Qed.

(** *** The lifecycle queries *)

Lemma is_clean_shell_true s d :
  Evtchn.Inv (evtchn s) -> Sched.Inv (sched s) -> Grant.Inv (grant s) ->
  P2m.frame_count (p2m s) <= u32_max ->
  is_clean_shell s d = true <-> Clean s d.
Proof.
  intros HE HS HG HF. unfold is_clean_shell.
  rewrite !andb_true_iff, !forallb_elem, negb_true_iff.
  unfold Grant.holds_any_map. rewrite existsb_false. split.
  - intros ((((H1 & H2) & H3) & H4) & H5). split.
    + intros p c Hc. pose proof (H1 p (Evtchn.vget_port_lt _ _ _ _ HE Hc)) as Hb.
      apply bool_decide_eq_true in Hb. unfold Evtchn.state_of in Hb. rewrite Hc in Hb.
      by injection Hb.
    + intros v st Hst. assert (v ∈ vrange (as_u32 (Sched.vcpu_count (sched s) d))) as Hv.
      { apply elem_vrange. rewrite Sched.vcpu_count_twidth, as_u32_id by apply HS.
        apply Sched.state_of_Some in Hst as (x & Hx & _). by eapply tget_Some_lt. }
      pose proof (H2 v Hv) as Hb. apply bool_decide_eq_true in Hb. congruence.
    + intros r. destruct (Grant.authority (grant s) d r) as [a|] eqn:Ha; [|done].
      destruct (Grant.authority_bounds _ _ _ _ HG Ha) as [_ Hr]. specialize (H3 r Hr).
      rewrite Grant.is_granted_authority, Ha in H3. done.
    + intros m Hm Ha <-. specialize (H4 m Hm). by rewrite Ha, N.eqb_refl in H4.
    + intros m Hm. assert (m ∈ vrange (as_u32 (P2m.frame_count (p2m s)))) as Hr.
      { apply elem_vrange. rewrite as_u32_id by done. unfold P2m.owner_of in Hm.
        destruct (P2m.allocated (p2m s) m) as [a|] eqn:Ha; [|done]. by eapply P2m.allocated_lt. }
      specialize (H5 m Hr). apply bool_decide_eq_true in H5. done.
  - intros [H1 H2 H3 H4 H5]. split_and!.
    + intros p Hp%elem_vrange. rewrite Evtchn.port_count_twidth, as_u32_id in Hp by apply HE.
      apply bool_decide_eq_true, Evtchn.port_state_of_Some.
      destruct (tget_lt_Some _ _ _ Hp) as [c Hc]. exists c. split; [done|].
      apply (H1 p). by rewrite Evtchn.chan_opt_tget.
    + intros v Hv%elem_vrange. rewrite Sched.vcpu_count_twidth, as_u32_id in Hv by apply HS.
      apply bool_decide_eq_true. destruct (tget_lt_Some _ _ _ Hv) as [x Hx].
      apply Sched.state_of_Some. exists x. split; [done|]. apply (H2 v).
      apply Sched.state_of_Some. eauto.
    + intros r _. by rewrite Grant.is_granted_authority, H3.
    + intros m Hm. destruct (Grant.active m) eqn:Ha; [|done]. simpl.
      apply N.eqb_neq. by apply H4.
    + intros m _. apply bool_decide_eq_true. apply H5.
Qed.

Lemma is_unreferenced_true s d :
  Evtchn.Inv (evtchn s) -> Grant.Inv (grant s) ->
  is_unreferenced s d = true <-> Unreferenced s d.
Proof.
  intros HE HG. unfold is_unreferenced. rewrite !andb_true_iff, !negb_true_iff.
  rewrite <- !not_true_iff_false, Grant.any_grant_to_spec, Evtchn.any_unbound_into_spec,
    Device.any_device_of_spec by done.
  split; [intros [[H1 H2] H3]; split; naive_solver|intros [H1 H2 H3]; naive_solver].
Qed.

(** *** The cross-subsystem check passes *)

Lemma wp_or_else_None {S V} (m k : M S (option V)) (Q : S -> option V -> Prop) s :
  wp m (fun s' v => s' = s /\ v = None) s -> wp k Q s -> wp (or_else m k) Q s.
Proof. intros Hm Hk. unfold or_else. wp_step. wp_apply Hm. by intros s' v [-> ->]. Qed.

Lemma wp_nested_None {S V} n m (f : N -> N -> M S (option V)) (Q : S -> option V -> Prop) s :
  (forall a b, a < n -> b < m a -> wp (f a b) (fun s' v => s' = s /\ v = None) s) ->
  Q s None -> wp (nested n m f) Q s.
Proof.
  intros Hf HQ. unfold nested. apply wp_first_some_m; [|done]. intros a Ha%elem_vrange.
  apply wp_first_some_m; [|done]. intros b Hb%elem_vrange. by apply Hf.
Qed.

Lemma wp_grant_violation s d r :
  Memory (grant s) (p2m s) ->
  wp (grant_violation d r) (fun s' v => s' = s /\ v = None) s.
Proof.
  intros [HG HP Hown _]. pose proof HG as [HW _]. unfold grant_violation. wp_step. wp_step.
  destruct (Grant.map_count (grant s) d r) as [n|] eqn:Hn; [|by wp_step].
  case_decide as Hpos; [|by wp_step].
  unfold Grant.map_count in Hn. destruct (Grant.entry (grant s) d r) as [[|to f ro n' w]|] eqn:He;
    try done. injection Hn as ->.
  assert (Hf : Grant.granted_frame (grant s) d r = Some f)
    by (unfold Grant.granted_frame; by rewrite He).
  apply Grant.entry_Ok in He. destruct (Grant.count_live _ _ _ _ _ _ _ _ HW He) as [Hc _].
  assert (exists m, m ∈ Grant.maps (grant s) /\ Grant.live_on d r m = true) as (m & Hm & Hl)
    by (apply count_pos; lia).
  apply Grant.live_on_true in Hl as (Ha & Hd & Hr).
  assert (Hfm : Grant.frame_of (grant s) m = f)
    by (unfold Grant.frame_of; by rewrite Hd, Hr, Hf).
  pose proof (Hown m Hm Ha) as Ho. rewrite Hfm, Hd in Ho.
  wp_step. apply wp_unwrap_opt. exists f. split; [done|]. cbn beta.
  rewrite decide_False by (by intros ?).
  assert (Hback : P2m.refs (p2m s) f <> None /\
    Grant.ext (grant s) true f + Grant.ext (grant s) false f <= default 0 (P2m.refs (p2m s) f) /\
    Grant.ext (grant s) true f <= default 0 (P2m.type_refs (p2m s) f P2m.Writable)).
  { unfold P2m.owner_of, P2m.refs, P2m.type_refs in *.
    destruct (P2m.allocated (p2m s) f) as [a|] eqn:Hal; [|done]. simpl.
    pose proof (P2m.g_acc _ _ HP P2m.KWrite f) as H1. pose proof (P2m.g_acc _ _ HP P2m.KBare f) as H2.
    pose proof (P2m.g_sum _ _ HP f a Hal) as Hs. unfold P2m.counted in H1, H2.
    rewrite Hal in H1, H2. simpl in H1, H2. unfold P2m.typed_refs in *. split_and!; [done|lia|lia]. }
  destruct Hback as (_ & Hb1 & Hb2). destruct (maps_over_frame_le s f HG) as [Hm1 Hm2].
  rewrite decide_False by lia. by wp_step.
Qed.

Lemma wakeup_violation_None s d p :
  Events (evtchn s) (sched s) -> wakeup_violation s d p = None.
Proof.
  intros [HE HS Hw]. unfold wakeup_violation.
  destruct (Evtchn.deliverable (evtchn s) d p) eqn:Hd; [|done].
  destruct (Evtchn.notify_target (evtchn s) d p) as [v|] eqn:Ht; [|done].
  rewrite decide_False; [done|]. apply Hw. apply Evtchn.has_deliverable_for_spec; [done|].
  apply Evtchn.deliverable_tget in Hd as (c & Hc & Hp & Hm). exists p, c.
  rewrite Evtchn.notify_target_tget, Hc in Ht. done.
Qed.

Lemma link_violations_None s :
  Memory (grant s) (p2m s) -> first_some (link_violation s) (P2m.link_edges (p2m s)) = None.
Proof.
  intros [_ _ _ Hl]. apply first_some_None. intros e He. unfold P2m.link_edges in He.
  apply list_elem_of_fmap in He as (l & -> & [Hin Ha]%list_elem_of_In%filter_In).
  apply list_elem_of_In in Hin. unfold link_violation.
  destruct (P2m.owner_of (p2m s) (P2m.child l)) as [co|] eqn:Hc; [|done].
  destruct (P2m.owner_of (p2m s) (P2m.parent l)) as [po|] eqn:Hp; [|done].
  destruct (N.eqb_spec co po) as [|Hne]; [done|]. simpl. by rewrite (Hl l co po).
Qed.

Lemma memory_frame_count g p : Memory g p -> P2m.frame_count p <= u32_max.
Proof. intros H. apply (P2m.g_frames _ _ (mem_p2m _ _ H)). Qed.

Lemma wp_life_violation s d :
  HInv s -> d < domain_count s -> wp (life_violation d) (fun s' v => s' = s /\ v = None) s.
Proof.
  intros HI Hd. unfold life_violation. wp_step. apply wp_life_at; [apply HI|done|].
  intros l Hl. wp_step. wp_step. case_decide as Hdead; [|by wp_step]. subst l.
  destruct (h_dead s HI d Hl) as (Hc & Hu & Hm).
  rewrite (proj2 (is_clean_shell_true s d (ev_evtchn _ _ (h_events s HI))
    (ev_sched _ _ (h_events s HI)) (mem_grant _ _ (h_memory s HI))
    (memory_frame_count _ _ (h_memory s HI))) Hc). simpl.
  rewrite (proj2 (is_unreferenced_true s d (ev_evtchn _ _ (h_events s HI))
    (mem_grant _ _ (h_memory s HI))) Hu). simpl.
  wp_step. apply wp_index. exists false. split; [done|]. by wp_step.
Qed.

Lemma wp_endpoint_violation s h t :
  HInv s -> h < domain_count s -> t < domain_count s ->
  wp (endpoint_violation h t) (fun s' v => s' = s /\ v = None) s.
Proof.
  intros HI Hh Ht. unfold endpoint_violation. wp_step. apply wp_cell; [apply HI|done|done|].
  intros e He. case_decide as Hne; [|by wp_step].
  destruct (au_live _ _ (h_authority s HI) h t e He Hne) as (H1 & H2 & _).
  wp_step. apply wp_life_at; [apply HI|done|]. intros l1 Hl1.
  rewrite decide_False by (intros ?; congruence).
  wp_step. apply wp_life_at; [apply HI|done|]. intros l2 Hl2.
  rewrite decide_False by (intros ?; congruence). by wp_step.
Qed.

Lemma wp_orphan_violation s h t :
  HInv s -> h < domain_count s -> t < domain_count s ->
  wp (orphan_violation h t) (fun s' v => s' = s /\ v = None) s.
Proof.
  intros HI Hh Ht. pose proof (h_dims s HI) as HD. unfold orphan_violation. wp_step.
  apply wp_cell; [done..|]. intros e He. case_decide as Hne; [by wp_step|]. wp_step. wp_step.
  destruct (rooted_depth _ _ _ (au_rooted _ _ (h_authority s HI) h t e He Hne)) as [k Hk].
  wp_step. eapply wp_reaches_root; [done|done| |by wp_step].
  pose proof (rooted_n_bound _ _ _ _ Hk) as Hb. rewrite (d_rows s HD) in Hb. lia.
Qed.

Lemma wp_first_cross_violation s (Q : Hypervisor -> option CrossViolation -> Prop) :
  HInv s -> Q s None -> wp first_cross_violation Q s.
Proof.
  intros HI HQ. pose proof (h_dims s HI) as HD. unfold first_cross_violation. wp_step. wp_step.
  rewrite (as_u16_id (domain_count s)) by apply HD.
  apply wp_or_else_None; [apply wp_nested_None; [|done]; intros d r _ _; apply wp_grant_violation, HI|].
  apply wp_or_else_None.
  { apply wp_nested_None; [|done]. intros d p _ _. wp_step. split; [done|].
    apply wakeup_violation_None, HI. }
  apply wp_or_else_None; [wp_step; split; [done|]; apply link_violations_None, HI|].
  apply wp_or_else_None.
  { apply wp_first_some_m; [|done]. intros d Hd%elem_vrange. by apply wp_life_violation. }
  apply wp_or_else_None.
  { apply wp_nested_None; [|done]. intros h t Hh Ht. by apply wp_endpoint_violation. }
  apply wp_nested_None; [|done]. intros h t Hh Ht. by apply wp_orphan_violation.
Qed.

Lemma wp_check_cross s (Q : Hypervisor -> unit -> Prop) :
  HInv s -> Q s tt -> wp check_cross Q s.
Proof.
  intros HI HQ. unfold check_cross. wp_step. apply wp_first_cross_violation; [done|].
  by apply wp_dbg_assert.
Qed.

(** *** The aggregate check *)

Lemma set_p2m_id s : set_p2m (p2m s) s = s.
Proof. by destruct s. Qed.

Lemma set_credit_id s : set_credit (credit s) s = s.
Proof. by destruct s. Qed.

Lemma wp_hv_invariants_hold s (Q : Hypervisor -> bool -> Prop) :
  HInv s -> Q s true -> wp invariants_hold Q s.
Proof.
  intros HI HQ. pose proof HI as [HD Hcr [HG HP _ _] [HE HS _] _ _ _].
  unfold invariants_hold. wp_step. wp_step.
  assert (Evtchn.invariants_hold (evtchn s) = true) as ->.
  { unfold Evtchn.invariants_hold. by rewrite (proj2 (Evtchn.ev_first_violation_None _
      (Evtchn.inv_doms _ HE) (Evtchn.inv_ports _ HE)) HE). }
  assert (Grant.invariants_hold (grant s) = true) as ->.
  { unfold Grant.invariants_hold. destruct HG as [HW ?].
    by rewrite (proj2 (Grant.grant_first_violation_None _
      (Grant.inv_doms _ HW) (Grant.inv_entries _ HW)) HW). }
  assert (Sched.invariants_hold (sched s) = true) as ->.
  { unfold Sched.invariants_hold. apply bool_decide_eq_true.
    by apply (Sched.sched_first_violation_None _ (Sched.inv_doms _ HS) (Sched.inv_vcpus _ HS)
      (Sched.inv_pcpus _ HS)). }
  cbn [andb]. wp_step. wp_step. unfold P2m.invariants_hold. wp_step.
  eapply P2m.wp_first_violation; [done|]. wp_step. simpl. rewrite set_p2m_id.
  wp_step. apply wp_fold_m with (I := fun _ acc s' => s' = s /\ acc = true); [done| |].
  - intros l1 d l2 acc s' Hl [-> ->].
    assert (Hd : d < vlen (credit s)) by (apply elem_vrange; rewrite Hl; apply elem_of_app; right; by left).
    destruct (vget_lt_Some _ _ Hd) as [c Hc]. wp_step. simpl. rewrite Hc. simpl.
    apply Credit.credit_wp_invariants_hold; [by eapply Hcr|].
    rewrite vset_id by done. by rewrite set_credit_id.
  - intros acc s' [-> ->]. cbn beta iota. wp_step. apply wp_first_cross_violation; [done|]. by wp_step.
Qed.

(** *** Boot *)

Lemma hv_new_HInv n ports grants vcpus pcpus frames devices :
  n <= u16_max -> ports <= u32_max -> grants <= u32_max -> vcpus <= u32_max ->
  pcpus <= u32_max -> frames <= u32_max ->
  HInv (new n ports grants vcpus pcpus frames devices).
Proof.
  intros Hn Hp Hg Hv Hc Hf.
  pose proof (Evtchn.ev_new_Inv n ports Hn Hp) as HE.
  pose proof (Grant.grant_new_Inv n grants Hn Hg) as HG.
  pose proof (Sched.sched_new_Inv n vcpus pcpus Hn Hv Hc) as HS.
  assert (Hports : forall d p c, tget (Evtchn.domains (Evtchn.new n ports)) d p = Some c ->
    c = Evtchn.FREE) by (intros d p c; simpl; rewrite tget_vrepeat; case_decide; naive_solver).
  assert (Hgr : forall d g, Grant.authority (Grant.new n grants) d g = None)
    by (intros d g; unfold Grant.authority; simpl; rewrite tget_vrepeat; by case_decide).
  assert (Hcells : forall h t e, tget (vrepeat n (vrepeat n Absent)) h t = Some e -> e = Absent)
    by (intros h t e; rewrite tget_vrepeat; case_decide; naive_solver).
  split; simpl.
  - split; unfold domain_count, Evtchn.domain_count, Grant.domain_count, Sched.domain_count,
      P2m.domain_count, Device.domain_count; simpl; autorewrite with hv; try done.
    intros h Hh. unfold twidth. rewrite vget_vrepeat, decide_True by done. apply vlen_vrepeat.
  - intros d c. rewrite vget_vrepeat. case_decide; [|done]. intros [= <-]. apply Credit.credit_new_Inv.
  - split; simpl.
    + done.
    + apply P2m.p2m_new_Good; [done|]. by intros [] m.
    + intros m Hm. by apply elem_of_nil in Hm.
    + intros l co po Hl. by apply elem_of_nil in Hl.
  - split; [done|done|]. intros d v Hd. apply Evtchn.has_deliverable_for_spec in Hd; [|done].
    destruct Hd as (p & c & Hcp & Hpend & _). apply Hports in Hcp as ->. done.
  - apply Device.dev_new_Inv.
  - split; intros h t e He; by apply Hcells in He as ->.
  - intros d Hd. rewrite vget_fmap, vget_vrange in Hd. case_decide as Hdn; [|done]. simpl in Hd.
    destruct (N.eqb_spec d 0) as [|Hd0]; [done|]. split_and!.
    + split; simpl.
      * intros p c Hpc. rewrite Evtchn.chan_opt_tget in Hpc. by apply Hports in Hpc as ->.
      * intros v st Hst. apply Sched.state_of_Some in Hst as (x & Hx & <-). simpl in Hx.
        rewrite tget_vrepeat in Hx. case_decide; naive_solver.
      * intros g. apply Hgr.
      * intros m Hm. by apply elem_of_nil in Hm.
      * intros m. by rewrite P2m.new_owner.
    + split; simpl.
      * intros e g f ro. by rewrite Hgr.
      * intros e p Hst. apply Evtchn.port_state_of_Some in Hst as (c & Hcp & Hs).
        by apply Hports in Hcp as ->.
      * intros dev. unfold Device.holder_of. simpl. rewrite vget_vrepeat. by case_decide.
    + rewrite vget_fmap, vget_vrange, decide_True by done. simpl. f_equal. by apply N.eqb_neq.
Qed.
