(* ===== verification/HvEvents.v ===== *)
(** * Events and scheduling under the aggregate — [hv-core/src/hypervisor.rs]

    The event-channel and scheduler hypercalls keep the joint invariant: in particular no
    wakeup is lost, and nothing of a dead domain comes back to life. *)

From Stdlib Require Import NArith Lia.
From stdpp Require Import base numbers list option.
From S2P Require Import Credit.
From S2P Require Import Device.
From S2P Require Import Sched.
From S2P Require Import Evtchn.
From S2P Require Import Grant.
From S2P Require Import P2m.
From S2P Require Import Hypervisor.
From S2P Require Import HvInvariant.
From S2P Require Import Prelude.
#[local] Open Scope N_scope.

(** ** Specification *)

(** The event-channel and scheduler side of a dead domain. *)
Definition ev_shell (e : Evtchn.System) (d : DomId) : Prop :=
  (forall p c, Evtchn.chan_opt e d p = Some c -> Evtchn.state c = Evtchn.Free) /\
  (forall d' p, Evtchn.state_of e d' p <> Some (Evtchn.Unbound d)).
Definition sc_shell (c : Sched.System) (d : DomId) : Prop :=
  forall v st, Sched.state_of c d v = Some st -> st = Sched.Offline.

(** An event-channel step on behalf of a live domain that raises nothing. *)
Definition ev_quiet (live : DomId -> Prop) (e e' : Evtchn.System) : Prop :=
  Evtchn.Inv e' /\ Evtchn.same_shape e e' /\ Evtchn.quieter e e' /\
  forall d, ~ live d -> ev_shell e d -> ev_shell e' d.

(** An event-channel step that may make one port deliverable. *)
Definition ev_signal (d : DomId) (p : Port) (e e' : Evtchn.System) : Prop :=
  Evtchn.Inv e' /\ Evtchn.same_shape e e' /\
  (forall d', ev_shell e d' -> ev_shell e' d') /\
  forall d' p' c, ~ (d' = d /\ p' = p) -> Evtchn.chan_opt e' d' p' = Some c ->
    Evtchn.chan_opt e d' p' = Some c.

(** Two states that answer every query alike: the grant tables may differ in released
    mapping slots, the frame table in the remembered level of a page no type reference
    holds. *)
Record same_view (s s' : Hypervisor) : Prop := mkSameView {
  sv_credit : credit s' = credit s;
  sv_evtchn : evtchn s' = evtchn s;
  sv_sched : sched s' = sched s;
  sv_device : device s' = device s;
  sv_life : life s' = life s;
  sv_may : may_create s' = may_create s;
  sv_controls : controls s' = controls s;
  sv_authority : Grant.same_authority (grant s) (grant s');
  sv_maps : forall m, Grant.active m = true -> m ∈ Grant.maps (grant s') <->
    m ∈ Grant.maps (grant s);
  sv_p2m : P2m.obs_eq (p2m s) (p2m s');
}.

(** What every handler promises: the joint invariant, at most one new mapping slot, and no
    visible effect when it rejects. *)
Definition kept {E T} (s : Hypervisor) (s' : Hypervisor) (r : result E T) : Prop :=
  HInv s' /\ vlen (Grant.maps (grant s')) <= vlen (Grant.maps (grant s)) + 1 /\
  match r with Ok _ => True | Err _ => same_view s s' end.

(** ** Lemmas *)

(** The joint invariant after a change of the two subsystems. *)
Lemma HInv_events s e c :
  HInv s -> Events e c -> Evtchn.same_shape (evtchn s) e -> Sched.same_shape (sched s) c ->
  (forall d, vget (life s) d = Some Dead -> ev_shell (evtchn s) d -> sc_shell (sched s) d ->
     ev_shell e d /\ sc_shell c d) ->
  HInv (set_sched c (set_evtchn e s)).
Proof.
  intros [HD Hcr HM HE Hdev HA Hdead] HE' [Hse _] (Hsc & _) Hsh.
  pose proof (d_evtchn s HD). pose proof (d_sched s HD).
  split; simpl; try done.
  - destruct HD. split; simpl; try done; unfold domain_count in *; simpl in *; congruence.
  - intros d Hd. destruct (Hdead d Hd) as (Hc & Hu & Hm).
    destruct (Hsh d Hd) as [[H1 H2] H3].
    + split; [apply Hc|apply Hu].
    + intros v st. apply Hc.
    + split_and!; [|split; simpl; [apply Hu|done|apply Hu]|done].
      destruct Hc. by split.
Qed.

(** *** Event-channel steps *)

Lemma ev_step_shell d p c c' e e' d0 :
  Evtchn.step_at d p c' e e' -> Evtchn.chan_opt e d p = Some c ->
  (Evtchn.state c' = Evtchn.state c \/ d0 <> d /\ Evtchn.state c' <> Evtchn.Unbound d0) ->
  ev_shell e d0 -> ev_shell e' d0.
Proof.
  intros (_ & _ & Hl) Hc Hor [H1 H2]. split.
  - intros p' x. rewrite Hl. case_decide as Hd; [|apply H1]. destruct Hd as [-> ->].
    intros [= <-]. destruct Hor as [->|[]]; [by eapply H1|done].
  - intros d' p'. unfold Evtchn.state_of. rewrite Hl. case_decide as Hd; [|apply H2].
    destruct Hd as [-> ->]. simpl. intros [= Hs]. destruct Hor as [He|[_ ?]]; [|done].
    apply (H2 d p). unfold Evtchn.state_of. rewrite Hc. simpl. congruence.
Qed.

Lemma ev_step_quieter d p c' e e' :
  Evtchn.step_at d p c' e e' -> Evtchn.pending c' && negb (Evtchn.masked c') = false -> Evtchn.quieter e e'.
Proof.
  intros (_ & _ & Hl) Hp d' p'. rewrite Hl. case_decide; [right; by exists c'|by left].
Qed.

Lemma ev_step_quiet (live : DomId -> Prop) d p c c' e e' :
  Evtchn.step_at d p c' e e' -> Evtchn.chan_opt e d p = Some c ->
  Evtchn.pending c' && negb (Evtchn.masked c') = false ->
  live d -> (Evtchn.state c' = Evtchn.state c \/
    forall r, Evtchn.state c' = Evtchn.Unbound r -> live r) ->
  ev_quiet live e e'.
Proof.
  intros Hst Hc Hp Hd Hor. pose proof Hst as (HI & Hsh & _).
  split_and!; [done|done|by eapply ev_step_quieter|]. intros d0 Hn. eapply ev_step_shell; [done|done|].
  destruct Hor as [?|Hor]; [by left|right]. split; [by intros ->|]. intros Hs. by apply Hn, Hor.
Qed.

Lemma ev_quiet_refl (live : DomId -> Prop) e : Evtchn.Inv e -> ev_quiet live e e.
Proof. intros HI. split_and!; [done|done|by left|done]. Qed.

Section Quiet.
Context (live : DomId -> Prop) (e : Evtchn.System) (caller : DomId).
Context (HI : Evtchn.Inv e) (Hlive : live caller).

(** The post-condition the quiet operations share. *)
Local Abbreviation quiet := (fun e' r =>
  match r with Ok _ => ev_quiet live e e' | Err _ => e' = e end).

Lemma quiet_alloc_unbound r : live r -> wp (Evtchn.alloc_unbound caller r) quiet e.
Proof.
  intros Hr. wp_apply Evtchn.wp_alloc_unbound; [done|]. intros e' [p|err]; [|done].
  intros (_ & Hc & Hst). eapply ev_step_quiet; [done|done|done|done|right]. by intros r' [= <-].
Qed.

Lemma quiet_bind_ipi v : wp (Evtchn.bind_ipi caller v) quiet e.
Proof.
  wp_apply Evtchn.wp_bind_ipi; [done|]. intros e' [p|err]; [|done].
  intros (Hc & Hst). by eapply ev_step_quiet; [done|done|done|done|right].
Qed.

Lemma quiet_bind_virq v q : wp (Evtchn.bind_virq caller v q) quiet e.
Proof.
  wp_apply Evtchn.wp_bind_virq; [done|]. intros e' [p|err]; [|done].
  intros (Hc & _ & Hst). by eapply ev_step_quiet; [done|done|done|done|right].
Qed.

Lemma quiet_bind_interdomain r q : wp (Evtchn.bind_interdomain caller r q) quiet e.
Proof.
  wp_apply Evtchn.wp_bind_interdomain; [done|]. intros e' [p|err]; [|done].
  intros (Hu & Hc & HI' & Hsh & Hl). split_and!; [done|done| |].
  - intros d' p'. rewrite Hl. repeat case_decide; [right..|by left]; by eexists.
  - intros d0 Hn [H1 H2]. split.
    + intros p' x. rewrite Hl. case_decide as Hd.
      * destruct Hd as [-> ->]. exfalso. unfold Evtchn.state_of in Hu.
        destruct (Evtchn.chan_opt e r q) as [y|] eqn:Hy; [|done]. simpl in Hu.
        pose proof (H1 q y Hy). congruence.
      * case_decide as Hd'; [|apply H1]. destruct Hd' as [-> _]. done.
    + intros d' p'. unfold Evtchn.state_of. rewrite Hl. repeat case_decide; try done. apply H2.
Qed.

Lemma quiet_close p : wp (Evtchn.close caller p) quiet e.
Proof.
  wp_apply Evtchn.wp_close; [done|]. intros e' [[]|err]; [|by intros [-> _] ].
  intros (c & Hc & Hf & HI' & Hsh & Hl). split_and!; [done|done| |].
  - intros d' p'. rewrite Hl. repeat case_decide; [right..|by left]; by eexists.
  - intros d0 Hn [H1 H2]. split.
    + intros p' x. rewrite Hl. case_decide; [by intros [= <-]|].
      case_decide as Hs; [|apply H1]. exfalso. rewrite Evtchn.chan_opt_tget in Hc.
      destruct (Evtchn.inv_peer e HI _ _ _ _ _ Hc Hs) as (y & Hy & Hys).
      rewrite <- Evtchn.chan_opt_tget in Hy. pose proof (H1 p' y Hy). congruence.
    + intros d' p'. unfold Evtchn.state_of. rewrite Hl. repeat case_decide; try done; [|apply H2].
      simpl. intros [= ->]. done.
Qed.

Lemma quiet_mask p : wp (Evtchn.mask caller p) quiet e.
Proof.
  wp_apply (Evtchn.wp_set_masked caller p true); [done|]. intros e' [[]|err]; [|done].
  intros (c & Hc & Hf & Hst). eapply ev_step_quiet; [done|done|apply andb_false_r|done|by left].
Qed.

Lemma quiet_consume p : wp (Evtchn.consume caller p) quiet e.
Proof.
  wp_apply Evtchn.wp_consume; [done|]. intros e' [b|err]; [|by intros [-> _] ].
  intros (c & Hc & Hf & _ & Hst). by eapply ev_step_quiet; [done|done|done|done|left].
Qed.
End Quiet.

(** A quiet step keeps the joint invariant, whatever the call returns. *)
Lemma HInv_quiet s e' live :
  HInv s -> (forall d, live d -> vget (life s) d <> Some Dead) ->
  ev_quiet live (evtchn s) e' -> HInv (set_evtchn e' s).
Proof.
  intros HI Hlive (HE & Hsh & Hq & Hshell). pose proof (h_events s HI) as [HE0 HS Hw].
  apply (HInv_events s e' (sched s)); [done| |done|done|].
  - split; [done..|]. intros d v Hd. apply Hw. by apply (Evtchn.quieter_has_deliverable _ e').
  - intros d Hd He Hc. split; [|done]. apply Hshell; [|done]. intros Hl. by apply (Hlive d).
Qed.

Lemma wp_call {A E T} (l : lens Hypervisor A) (m : M A (result E T)) fo fe s
    (Q : Hypervisor -> result HvError HvOutcome -> Prop) :
  wp m (fun a r => Q (lset l a s) (map_err fe (map_ok fo r))) (lget l s) -> wp (call l m fo fe) Q s.
Proof. intros H. unfold call. wp_step. by apply wp_zoom. Qed.

(** *** Signals and the wakeup *)

Lemma ev_step_signal d p c c' e e' :
  Evtchn.step_at d p c' e e' -> Evtchn.chan_opt e d p = Some c ->
  Evtchn.state c' = Evtchn.state c -> ev_signal d p e e'.
Proof.
  intros Hst Hc Hs. pose proof Hst as (HI & Hsh & Hl). split_and!; [done|done| |].
  - intros d'. eapply ev_step_shell; [done|done|by left].
  - intros d' p' x Hne. by rewrite Hl, decide_False.
Qed.

(** After the signal, waking the port's vCPU leaves no event resting on a blocked one. *)
Lemma wp_wake_if_deliverable s d p e' (Q : Hypervisor -> unit -> Prop) :
  HInv s -> ev_signal d p (evtchn s) e' ->
  (forall c', let s' := set_sched c' (set_evtchn e' s) in HInv s' ->
     Sched.same_shape (sched s) c' ->
     (forall d' v, d' <> d -> Sched.vcpu_opt c' d' v = Sched.vcpu_opt (sched s) d' v) -> Q s' tt) ->
  wp (wake_if_deliverable d p) Q (set_evtchn e' s).
Proof.
  intros HI (HE & Hsh & Hshell & Hrest) HQ. pose proof (h_events s HI) as [HE0 HS Hw].
  assert (Hfin : forall c', Sched.Inv c' -> Sched.same_shape (sched s) c' ->
    (forall v, Sched.state_of c' d v = Some Sched.Blocked ->
       Evtchn.deliverable e' d p = true -> Evtchn.notify_target e' d p <> Some v) ->
    (forall d' v, Sched.state_of c' d' v = Some Sched.Blocked ->
       Sched.state_of (sched s) d' v = Some Sched.Blocked) ->
    (forall d', sc_shell (sched s) d' -> sc_shell c' d') ->
    (forall d' v, d' <> d -> Sched.vcpu_opt c' d' v = Sched.vcpu_opt (sched s) d' v) ->
    Q (set_sched c' (set_evtchn e' s)) tt).
  { intros c' HS' Hsh' Hno Hbl Hsc Hoth. apply HQ; [|done|done]. apply HInv_events; [done| |done|done|].
    - split; [done..|]. intros d' v Hd Hb.
      apply Evtchn.has_deliverable_for_spec in Hd; [|done].
      destruct Hd as (p' & c & Hc & Hp & Hm & Ht).
      destruct (decide (d' = d /\ p' = p)) as [[-> ->]|Hne].
      + apply (Hno v); [done| |by rewrite Evtchn.notify_target_tget, Hc].
        apply Evtchn.deliverable_tget. eauto.
      + apply (Hw d' v); [|by apply Hbl]. apply Evtchn.has_deliverable_for_spec; [done|].
        exists p', c. rewrite <- Evtchn.chan_opt_tget in *. split; [by eapply Hrest|done].
    - intros d' _ H1 H2. split; [by apply Hshell|by apply Hsc]. }
  unfold wake_if_deliverable. wp_step. wp_step. simpl.
  assert (Hsame : (forall v, Sched.state_of (sched s) d v = Some Sched.Blocked ->
      Evtchn.deliverable e' d p = true -> Evtchn.notify_target e' d p <> Some v) ->
    Q (set_evtchn e' s) tt).
  { intros Hno. apply (Hfin (sched s)); try done. }
  destruct (Evtchn.deliverable e' d p) eqn:Hd; [|wp_step; apply Hsame; congruence].
  destruct (Evtchn.notify_target e' d p) as [v|] eqn:Ht; [|wp_step; apply Hsame; congruence].
  wp_step. wp_step. wp_apply Sched.wp_wake; [done|]. intros c' [[]|err].
  - simpl. intros (x & Hx & Hxs & Hst). pose proof Hst as (HS' & Hsh' & _). wp_step.
    pose proof (Sched.sched_step_at_state_of d v _ _ _ d v Hst) as Hv.
    rewrite decide_True in Hv by done. apply (Hfin c'); [done|done| | | |].
    + intros v' Hb _ [= <-]. rewrite Hv in Hb. done.
    + intros d' v' Hb. rewrite (Sched.sched_step_at_state_of _ _ _ _ _ d' v' Hst) in Hb.
      by case_decide.
    + intros d' Hsc v' st. rewrite (Sched.sched_step_at_state_of _ _ _ _ _ d' v' Hst).
      case_decide as Hdv; [|apply Hsc]. destruct Hdv as [-> ->]. intros _.
      specialize (Hsc v (Sched.state x)). unfold Sched.state_of in Hsc. rewrite Hx in Hsc.
      specialize (Hsc eq_refl). congruence.
    + intros d' v' Hne. destruct Hst as (_ & _ & Hst). rewrite Hst. by rewrite decide_False by naive_solver.
  - intros [-> Hnb]. wp_step. apply Hsame. intros v' Hb _ [= <-]. done.
Qed.

Lemma HInv_refl_set_evtchn s : set_evtchn (evtchn s) s = s.
Proof. by destruct s. Qed.

(** *** The handlers *)

Lemma same_view_refl s : same_view s s.
Proof. split; done. Qed.

Lemma kept_refl {E T} s (r : result E T) : HInv s -> kept s s r.
Proof. intros HI. split_and!; [done|lia|]. destruct r; [done|apply same_view_refl]. Qed.

Lemma kept_grant {E T} s s' (x : T) :
  HInv s' -> grant s' = grant s -> kept s s' (@Ok E T x).
Proof. intros HI Hg. split_and!; [done|rewrite Hg; lia|done]. Qed.

Lemma send_target_step d p c c' e e' d0 p0 :
  Evtchn.step_at d p c' e e' -> Evtchn.chan_opt e d p = Some c ->
  Evtchn.state c' = Evtchn.state c -> Evtchn.send_target e' d0 p0 = Evtchn.send_target e d0 p0.
Proof.
  intros (_ & _ & Hl) Hc Hs. unfold Evtchn.send_target. rewrite Hl. case_decide as Hd; [|done].
  destruct Hd as [-> ->]. by rewrite Hc, Hs.
Qed.

Section Handlers.
Context (s : Hypervisor) (caller : DomId).
Context (HI : HInv s) (Hcaller : vget (life s) caller = Some Live).

Local Abbreviation live := (fun d => vget (life s) d = Some Live) (only parsing).

Lemma live_not_dead d : live d -> vget (life s) d <> Some Dead.
Proof. congruence. Qed.

Lemma kept_quiet {E T} (m : M Evtchn.System (result E T)) fo fe :
  wp m (fun e' r => match r with
    | Ok _ => ev_quiet live (evtchn s) e'
    | Err _ => e' = evtchn s
    end) (evtchn s) ->
  wp (call evtchn_l m fo fe) (kept s) s.
Proof.
  intros Hm. apply wp_call. simpl. wp_apply Hm. intros e' [x|err]; simpl.
  - intros Hq. apply kept_grant; [|done]. eapply HInv_quiet; [done|apply live_not_dead|done].
  - intros ->. rewrite HInv_refl_set_evtchn. by apply kept_refl.
Qed.

Lemma kept_evtchn_send p : wp (evtchn_send caller p) (kept s) s.
Proof.
  unfold evtchn_send. wp_step. apply wp_call. simpl.
  wp_apply Evtchn.wp_send; [apply HI|]. intros e' [[]|err]; simpl.
  - intros (d & q & c & Ht & Hc & Hst). wp_step. wp_step. wp_step. simpl.
    rewrite (send_target_step _ _ _ _ _ _ caller p Hst Hc eq_refl), Ht. simpl.
    eapply wp_wake_if_deliverable; [done|by eapply ev_step_signal|]. intros c' s' HI' _ _.
    wp_step. by apply kept_grant.
  - intros [-> _]. rewrite HInv_refl_set_evtchn. by apply kept_refl.
Qed.

Lemma kept_evtchn_unmask p : wp (evtchn_unmask caller p) (kept s) s.
Proof.
  unfold evtchn_unmask. wp_step. apply wp_call. simpl.
  wp_apply (Evtchn.wp_set_masked caller p false); [apply HI|]. intros e' [[]|err]; simpl.
  - intros (c & Hc & _ & Hst). wp_step.
    eapply wp_wake_if_deliverable; [done|by eapply ev_step_signal|]. intros c' s' HI' _ _.
    wp_step. by apply kept_grant.
  - intros ->. rewrite HInv_refl_set_evtchn. by apply kept_refl.
Qed.

Lemma kept_raise_vcpu_virq d v q : wp (raise_vcpu_virq d v q) (kept s) s.
Proof.
  unfold raise_vcpu_virq. wp_step. wp_step. simpl.
  wp_apply Evtchn.wp_raise_virq; [apply HI|]. intros e' [p|err]; simpl.
  - intros (c & Hc & _ & Hst). wp_step. wp_step; [|done].
    match goal with H : Ok _ = Ok _ |- _ => injection H as <- end. wp_step.
    eapply wp_wake_if_deliverable; [done|by eapply ev_step_signal|]. intros c' s' HI' _ _.
    wp_step. apply wp_check_cross; [done|]. wp_step. wp_step. wp_step. by apply kept_grant.
  - intros ->. rewrite HInv_refl_set_evtchn. wp_step. wp_step; [done|]. by apply kept_refl.
Qed.

(** *** The scheduler *)

(** A scheduler step that blocks no vCPU with a deliverable event, and that touches a dead
    domain only to leave it as it is. *)
Lemma HInv_sched_step t c v' sc' :
  Sched.step_at t c v' (sched s) sc' ->
  (Sched.state v' = Sched.Blocked -> Evtchn.has_deliverable_for (evtchn s) t c = false) ->
  (vget (life s) t = Some Dead -> Sched.state_of (sched s) t c = Some (Sched.state v')) ->
  HInv (set_sched sc' s).
Proof.
  intros Hst Hb Hd. pose proof Hst as (HS & Hsh & _). pose proof (h_events s HI) as [HE HS0 Hw].
  apply (HInv_events s (evtchn s) sc'); [done| |done|done|].
  - split; [done..|]. intros d v Hdel. rewrite (Sched.sched_step_at_state_of _ _ _ _ _ d v Hst).
    case_decide as Hdv; [|by apply Hw]. destruct Hdv as [-> ->]. intros [= Hs].
    rewrite Hb in Hdel; done.
  - intros d Hdead He Hc. split; [done|]. intros v st.
    rewrite (Sched.sched_step_at_state_of _ _ _ _ _ d v Hst).
    case_decide as Hdv; [|apply Hc]. destruct Hdv as [-> ->]. intros [= <-].
    by apply (Hc c), Hd.
Qed.

Lemma set_sched_id : set_sched (sched s) s = s.
Proof. by destruct s. Qed.

Lemma kept_sched {E} (m : M Sched.System (result E unit)) fe :
  wp m (fun sc' r =>
    match r with
    | Ok _ => exists c v', Sched.step_at caller c v' (sched s) sc' /\
        (Sched.state v' = Sched.Blocked -> Evtchn.has_deliverable_for (evtchn s) caller c = false)
    | Err _ => sc' = sched s
    end) (sched s) ->
  wp (call sched_l m done fe) (kept s) s.
Proof.
  intros Hm. apply wp_call. simpl. wp_apply Hm. intros sc' [[]|err]; simpl.
  - intros (c & v' & Hst & Hb). apply kept_grant; [|done].
    eapply HInv_sched_step; [done|done|]. congruence.
  - intros ->. rewrite set_sched_id. by apply kept_refl.
Qed.

Lemma kept_sched_admit v : wp (call sched_l (Sched.admit_vcpu caller v) done ESched) (kept s) s.
Proof.
  apply kept_sched. wp_apply Sched.wp_admit_vcpu; [apply HI|].
  intros sc' [[]|err]; [|done]. intros (x & _ & _ & Hst). eexists _, _. by split.
Qed.

Lemma kept_sched_run v p now : wp (call sched_l (Sched.run caller v p now) done ESched) (kept s) s.
Proof.
  apply kept_sched. wp_apply Sched.wp_run; [apply HI|].
  intros sc' [[]|err]; [|done]. intros (x & _ & _ & _ & _ & _ & Hst). eexists _, _. by split.
Qed.

Lemma kept_sched_preempt v now :
  wp (call sched_l (Sched.preempt caller v now) done ESched) (kept s) s.
Proof.
  apply kept_sched. wp_apply Sched.wp_preempt; [apply HI|].
  intros sc' [[]|err]; [|by intros [-> _] ]. intros (x & p & _ & _ & Hst). eexists _, _. by split.
Qed.

Lemma kept_sched_wake v : wp (call sched_l (Sched.wake caller v) done ESched) (kept s) s.
Proof.
  apply kept_sched. wp_apply Sched.wp_wake; [apply HI|].
  intros sc' [[]|err]; [|by intros [-> _]]. intros (x & _ & _ & Hst). eexists _, _. by split.
Qed.

Lemma kept_sched_offline v now :
  wp (call sched_l (Sched.offline caller v now) done ESched) (kept s) s.
Proof.
  apply kept_sched. wp_apply Sched.wp_offline; [apply HI|].
  intros sc' [[]|err]; [|by intros [-> _]]. intros (x & _ & _ & Hst). eexists _, _. by split.
Qed.

(** [sched_block] asks for a deliverable event first, so a blocked vCPU has none. *)
Lemma kept_sched_block v now : wp (sched_block caller v now) (kept s) s.
Proof.
  unfold sched_block. wp_step. wp_step.
  destruct (_ && _)%bool eqn:Hg; [wp_step; by apply kept_refl|].
  apply kept_sched. wp_apply Sched.wp_block; [apply HI|].
  intros sc' [[]|err]; [|by intros [-> _]]. intros (x & Hx & Hs & Hst). eexists _, _.
  split; [done|]. intros _. apply andb_false_iff in Hg as [Hg|Hg]; [|done]. exfalso.
  unfold Sched.state_of in Hg. rewrite Hx in Hg. simpl in Hg.
  destruct Hs as [Hs|[p Hs]]; by rewrite Hs in Hg.
Qed.

Lemma wp_require_control t (Q : Hypervisor -> result HvError unit -> Prop) :
  t < domain_count s ->
  (caller = t \/ vget (life s) t = Some Live /\ has_control s caller t = true -> Q s (Ok tt)) ->
  (caller <> t -> has_control s caller t = false -> forall e, Q s (Err e)) ->
  wp (require_control_or_self caller t) Q s.
Proof.
  intros Ht HQ HQ'. pose proof (h_dims s HI) as HD. unfold require_control_or_self.
  case_decide as Hct; [wp_step; apply HQ; by left|]. wp_step. apply wp_cell; [done| |done|].
  - rewrite <- (d_life s HD). by eapply vget_Some_lt.
  - intros e He. assert (Hc : has_control s caller t = bool_decide (e <> Absent))
      by (unfold has_control, control_edge; by rewrite He).
    wp_step; [apply HQ; right|apply HQ'; [done|]]; rewrite Hc.
    + split; [by apply (au_live _ _ (h_authority s HI) caller t e He)|by apply bool_decide_eq_true].
    + by apply bool_decide_eq_false.
Qed.

Lemma kept_sched_set_affinity t v aff : wp (sched_set_affinity caller t v aff) (kept s) s.
Proof.
  unfold sched_set_affinity. wp_step. wp_step. wp_step. wp_step; [|by apply kept_refl].
  wp_step. apply wp_require_control; [done| |intros; by apply kept_refl]. intros Hlive.
  apply wp_call. simpl. wp_apply Sched.wp_set_affinity; [apply HI|].
  intros sc' [[]|err]; simpl.
  - intros (x & Hx & Hst). apply kept_grant; [|done].
    assert (Hsx : Sched.state_of (sched s) t v = Some (Sched.state x))
      by (unfold Sched.state_of; by rewrite Hx).
    eapply HInv_sched_step; [done| |]; simpl; [|done]. intros Hb.
    apply not_true_iff_false. intros Hd. apply (ev_wakeup _ _ (h_events s HI) t v Hd).
    by rewrite Hsx, Hb.
  - intros [-> _]. rewrite set_sched_id. by apply kept_refl.
Qed.
End Handlers.
