(* ===== verification/HvMemory.v ===== *)
(** * Memory under the aggregate — [hv-core/src/hypervisor.rs]

    The grant-table and page-table hypercalls keep the joint invariant: every page
    reference stays backed by a grant map, a link or a pin, and no page-table entry crosses
    domains without a grant. *)

From Stdlib Require Import NArith Lia.
From stdpp Require Import base numbers list option.
From S2P Require Import Credit.
From S2P Require Import Device.
From S2P Require Import Sched.
From S2P Require Import Evtchn.
From S2P Require Import Grant.
From S2P Require Import P2m.
From S2P Require Import Hypervisor.
From S2P Require Import HvInvariant.
From S2P Require Import HvEvents.
From S2P Require Import Prelude.
#[local] Open Scope N_scope.

(** ** Specification *)

(** The memory side of a dead domain. *)
Record mem_shell (g : Grant.System) (p : P2m.System) (d : DomId) : Prop := mkMemShell {
  ms_grants : forall r, Grant.authority g d r = None;
  ms_maps : forall m, m ∈ Grant.maps g -> Grant.active m = true -> Grant.grantee m <> d;
  ms_frames : forall m, P2m.owner_of p m <> Some d;
  ms_grantee : forall e r f ro, Grant.authority g e r <> Some (d, f, ro);
}.

(** ** Lemmas *)

(** The joint invariant after a change of the two subsystems. *)
Lemma HInv_memory s g p :
  HInv s -> Memory g p -> Grant.same_shape (grant s) g ->
  P2m.num_domains p = P2m.num_domains (p2m s) ->
  (forall d, vget (life s) d = Some Dead -> mem_shell (grant s) (p2m s) d -> mem_shell g p d) ->
  HInv (set_p2m p (set_grant g s)).
Proof.
  intros [HD Hcr HM HE Hdev HA Hdead] HM' [Hsg _] Hsp Hsh.
  pose proof (d_grant s HD). pose proof (d_p2m s HD).
  split; simpl; try done.
  - destruct HD. unfold P2m.domain_count, domain_count in *.
    split; simpl; try done; unfold domain_count, P2m.domain_count in *; simpl in *; congruence.
  - intros d Hd. destruct (Hdead d Hd) as (Hc & Hu & Hm).
    destruct (Hsh d Hd) as [H1 H2 H3 H4].
    + split; [apply Hc|apply Hc|apply Hc|apply Hu].
    + split_and!; [|split; simpl; [done|apply Hu|apply Hu]|done].
      destruct Hc. by split.
Qed.

Lemma set_grant_id s : set_grant (grant s) s = s.
Proof. by destruct s. Qed.

Lemma set_p2m_grant_id g s : set_p2m (p2m s) (set_grant g s) = set_grant g s.
Proof. by destruct s. Qed.

(** *** The grants that stand do not move *)

(** Same mappings, and the entries behind the active ones are as they were. *)
Lemma backing_same g g' :
  Grant.maps g' = Grant.maps g ->
  (forall m, m ∈ Grant.maps g -> Grant.active m = true -> Grant.frame_of g' m = Grant.frame_of g m) ->
  P2m.ext_eq (backing g) (backing g').
Proof.
  intros Hm Hf k f.
  assert (He : forall b, Grant.ext g b f = Grant.ext g' b f).
  { intros b. unfold Grant.ext. rewrite Hm. apply count_ext. intros m Hin. unfold Grant.over.
    destruct (Grant.active m) eqn:Ha; [|done]. by rewrite Hf. }
  destruct k; simpl; auto.
Qed.

Lemma backing_authority g g' :
  Grant.same_authority g g' -> Grant.maps g' = Grant.maps g -> P2m.ext_eq (backing g) (backing g').
Proof. intros Hsa Hm. apply backing_same; [done|]. intros. by apply Grant.frame_of_same. Qed.

Lemma active_authority g m :
  Grant.Inv g -> m ∈ Grant.maps g -> Grant.active m = true ->
  exists f ro, Grant.authority g (Grant.grantor m) (Grant.gref m) =
    Some (Grant.grantee m, f, ro).
Proof.
  intros [HW _] Hm Ha. destruct (Grant.inv_backed g HW m Hm Ha) as (f & ro & n & w & Ht & _).
  exists f, ro. unfold Grant.authority. by rewrite Ht.
Qed.

Lemma frame_of_authority g m :
  Grant.frame_of g m = default 0 ((snd ∘ fst) <$>
    Grant.authority g (Grant.grantor m) (Grant.gref m)).
Proof.
  unfold Grant.frame_of. rewrite Grant.granted_frame_authority.
  by destruct (Grant.authority g (Grant.grantor m) (Grant.gref m)) as [[[]]|].
Qed.

(** *** Page-table steps that change no owner *)

Lemma Memory_steady g p p' :
  Memory g p -> P2m.Good (backing g) p' -> P2m.steady p p' ->
  (forall l, l ∈ P2m.links p' -> P2m.active l = true -> l ∈ P2m.links p \/
    forall co po, P2m.owner_of p (P2m.child l) = Some co ->
      P2m.owner_of p (P2m.parent l) = Some po -> co <> po ->
      Grant.authorizes g co po (P2m.child l) (P2m.writable l) = true) ->
  Memory g p'.
Proof.
  intros [HG HP Hown Hl] HP' Hst Hin. split; [done|done| |].
  - intros m Hm Ha. rewrite (P2m.st_owner _ _ Hst). by apply Hown.
  - intros l co po Hl' Ha. rewrite !(P2m.st_owner _ _ Hst). intros Hc Hp Hne.
    destruct (Hin l Hl' Ha) as [Hold|Hnew]; [by eapply Hl|by eapply Hnew].
Qed.

Lemma mem_shell_steady g p p' d : P2m.steady p p' -> mem_shell g p d -> mem_shell g p' d.
Proof.
  intros Hst [H1 H2 H3 H4]. split; try done. intros m. by rewrite (P2m.st_owner _ _ Hst).
Qed.

Lemma HInv_p2m s p :
  HInv s -> P2m.Good (backing (grant s)) p -> P2m.steady (p2m s) p ->
  (forall l, l ∈ P2m.links p -> P2m.active l = true -> l ∈ P2m.links (p2m s) \/
    forall co po, P2m.owner_of (p2m s) (P2m.child l) = Some co ->
      P2m.owner_of (p2m s) (P2m.parent l) = Some po -> co <> po ->
      Grant.authorizes (grant s) co po (P2m.child l) (P2m.writable l) = true) ->
  HInv (set_p2m p s).
Proof.
  intros HI HP Hst Hl.
  assert (HI' : HInv (set_p2m p (set_grant (grant s) s))); [|by rewrite set_grant_id in HI'].
  apply HInv_memory; [done| |done|apply Hst|].
  - by apply (Memory_steady _ (p2m s)); [apply HI|..].
  - intros d _. by apply mem_shell_steady.
Qed.

(** *** Taking and giving back the page behind a map *)

Definition page_ref (wr : bool) : P2m.ChildRef :=
  if wr then P2m.Typed P2m.Writable else P2m.Bare.

Lemma take_page_child f wr : take_page f wr = P2m.take_child (page_ref wr) f.
Proof. by destruct wr. Qed.

Lemma release_page_child f wr : release_page f wr = P2m.drop_child (page_ref wr) f.
Proof. by destruct wr. Qed.

Lemma wp_release_unmapped e u s (Q : Hypervisor -> unit -> Prop) :
  P2m.Good (P2m.bump (P2m.ref_kind (page_ref (Grant.u_writable u))) (Grant.u_frame u) e) (p2m s) ->
  (forall p, P2m.Good e p -> P2m.steady (p2m s) p -> P2m.drops (p2m s) p ->
     P2m.links p = P2m.links (p2m s) -> Q (set_p2m p s) tt) ->
  wp (release_unmapped u) Q s.
Proof.
  intros HG HQ. unfold release_unmapped. rewrite release_page_child. wp_step. wp_step. simpl.
  eapply P2m.wp_drop_child; [done|by destruct (Grant.u_writable u)|].
  intros p Hg. destruct (P2m.gave_steady _ _ _ _ _ Hg) as [Hst Hl]. cbn beta iota.
  apply wp_dbg_assert; [done|]. pose proof (P2m.gave_drops _ _ _ _ _ Hg).
  destruct Hg as (_ & _ & _ & HG'). by apply HQ.
Qed.

(** The references a list of drained mappings gives back. *)
Definition owing (us : list Grant.Unmapped) (e : P2m.external) : P2m.external := fun k m =>
  e k m + match k with
          | P2m.KBare => count (Grant.released_over false m) us
          | P2m.KWrite => count (Grant.released_over true m) us
          | _ => 0
          end.

Lemma owing_cons u us e :
  P2m.ext_eq (owing (u :: us) e)
    (P2m.bump (P2m.ref_kind (page_ref (Grant.u_writable u))) (Grant.u_frame u) (owing us e)).
Proof.
  intros k m. unfold owing, P2m.bump. simpl. unfold Grant.released_over at 1 3.
  destruct u as [f w]. simpl. destruct (N.eqb_spec f m) as [->|Hne].
  - destruct k, w; simpl; repeat case_decide; try lia; exfalso; naive_solver.
  - rewrite !andb_false_r, decide_False by naive_solver. destruct k; lia.
Qed.

Lemma owing_nil e : P2m.ext_eq (owing [] e) e.
Proof. intros k m. unfold owing. destruct k; simpl; lia. Qed.

(** Draining mappings and releasing their pages: the accounts balance again. *)
Lemma wp_release_all e us s (Q : Hypervisor -> unit -> Prop) :
  P2m.Good (owing us e) (p2m s) ->
  (forall p, P2m.Good e p -> P2m.steady (p2m s) p -> P2m.drops (p2m s) p ->
     P2m.links p = P2m.links (p2m s) -> Q (set_p2m p s) tt) ->
  wp (for_each us release_unmapped) Q s.
Proof.
  revert s. induction us as [|u us IH]; intros s HG HQ; simpl.
  - wp_step. rewrite owing_nil in HG. specialize (HQ (p2m s) HG (P2m.steady_refl _) (P2m.drops_refl _) eq_refl).
    by rewrite set_p2m_id in HQ.
  - rewrite owing_cons in HG. wp_step. eapply wp_release_unmapped; [done|]. intros p HG1 Hst Hdr Hl.
    apply IH; [done|]. simpl. intros p' HG2 Hst2 Hdr2 Hl2. apply (HQ p'); [done| | |congruence].
    + by eapply P2m.steady_trans.
    + by eapply P2m.drops_trans.
Qed.

Lemma backing_drained q us g g' :
  Grant.drained q us g g' -> P2m.ext_eq (backing g) (owing us (backing g')).
Proof.
  intros (_ & _ & _ & Hext & _) k m. unfold owing. destruct k; simpl; rewrite ?Hext; lia.
Qed.

Lemma backing_unmapped to h u g g' :
  Grant.unmapped to h u g g' -> P2m.ext_eq (backing g)
    (P2m.bump (P2m.ref_kind (page_ref (Grant.u_writable u))) (Grant.u_frame u) (backing g')).
Proof.
  intros Hu. rewrite <- (owing_nil (backing g')), <- owing_cons. intros k m. unfold owing.
  destruct k; simpl; rewrite ?(Grant.unmapped_ext _ _ _ _ _ _ _ Hu); lia.
Qed.

(** A page table keeps its accounts when the mappings change in step. *)
Lemma Memory_fewer g g' p p' :
  Memory g p -> Grant.Inv g' -> Grant.same_authority g g' ->
  (forall m, m ∈ Grant.maps g' -> Grant.active m = true -> m ∈ Grant.maps g) ->
  P2m.Good (backing g') p' -> P2m.steady p p' -> P2m.links p' = P2m.links p -> Memory g' p'.
Proof.
  intros [HG HP Hown Hl] HG' Hsa Hm HP' Hst Hls. split; [done|done| |].
  - intros m Hin Ha. rewrite (P2m.st_owner _ _ Hst), (Grant.frame_of_same _ _ _ Hsa).
    by apply Hown; [apply Hm|].
  - intros l co po. rewrite Hls, !(P2m.st_owner _ _ Hst). intros Hin Ha Hc Hp Hne.
    pose proof (Hl l co po Hin Ha Hc Hp Hne) as Hau. apply Grant.authorizes_spec in Hau.
    apply Grant.authorizes_spec. by setoid_rewrite (proj2 Hsa).
Qed.

Lemma mem_shell_fewer g g' p p' d :
  Grant.same_authority g g' ->
  (forall m, m ∈ Grant.maps g' -> Grant.active m = true -> m ∈ Grant.maps g) ->
  P2m.steady p p' -> mem_shell g p d -> mem_shell g' p' d.
Proof.
  intros [_ Ha] Hm Hst [H1 H2 H3 H4]. split.
  - intros r. by rewrite Ha.
  - intros m Hin Hac. by apply H2; [apply Hm|].
  - intros m. by rewrite (P2m.st_owner _ _ Hst).
  - intros e r f ro. by rewrite Ha.
Qed.

(** *** Grant entries *)

Lemma Memory_authority g g' p :
  Memory g p -> Grant.Inv g' -> Grant.maps g' = Grant.maps g ->
  (forall m, m ∈ Grant.maps g -> Grant.active m = true ->
     Grant.authority g' (Grant.grantor m) (Grant.gref m) =
     Grant.authority g (Grant.grantor m) (Grant.gref m)) ->
  (forall l co po r f ro, l ∈ P2m.links p -> P2m.active l = true ->
     P2m.owner_of p (P2m.child l) = Some co -> P2m.owner_of p (P2m.parent l) = Some po -> co <> po ->
     Grant.authority g co r = Some (po, P2m.child l, ro) ->
     f = P2m.child l -> Grant.authority g' co r = Some (po, f, ro)) ->
  Memory g' p.
Proof.
  intros [HG HP Hown Hl] HG' Hm Hmap Hlink.
  assert (Hfr : forall m, m ∈ Grant.maps g -> Grant.active m = true ->
    Grant.frame_of g' m = Grant.frame_of g m)
    by (intros m Hin Ha; by rewrite !frame_of_authority, Hmap).
  split; [done| | |].
  - rewrite <- (backing_same g g'); done.
  - rewrite Hm. intros m Hin Ha. rewrite Hfr by done. by apply Hown.
  - intros l co po Hin Ha Hc Hp Hne. pose proof (Hl l co po Hin Ha Hc Hp Hne) as Hau.
    apply Grant.authorizes_spec in Hau as (r & ro & Hr & Hw). apply Grant.authorizes_spec.
    exists r, ro. split; [|done]. by eapply Hlink.
Qed.

Section Handlers.
Context (s : Hypervisor) (caller : DomId).
Context (HI : HInv s) (Hcaller : vget (life s) caller = Some Live).

Lemma wp_reject_dead_target t (Q : Hypervisor -> result HvError unit -> Prop) :
  (vget (life s) t <> Some Dead -> Q s (Ok tt)) -> (forall e, Q s (Err e)) ->
  wp (reject_dead_target t) Q s.
Proof.
  intros HQ HQ'. pose proof (h_dims s HI) as HD. unfold reject_dead_target. wp_step. wp_step.
  case_decide as Hr.
  - wp_step. apply wp_life_at; [done|done|]. intros l Hl. wp_step; [|apply HQ'].
    apply HQ. congruence.
  - wp_step. apply HQ. intros Hl. apply Hr. unfold in_range.
    rewrite <- (d_life s HD). by eapply vget_Some_lt.
Qed.

Lemma kept_grant_access g to f ro :
  wp (reject_dead_target to ;? call grant_l (Grant.grant_access caller g to f ro) done EGrant)
    (kept s) s.
Proof.
  wp_step. apply wp_reject_dead_target; [|intros; by apply kept_refl]. intros Hto.
  pose proof (mem_grant _ _ (h_memory s HI)) as HG. apply wp_call. simpl.
  wp_apply Grant.wp_grant_access; [done|]. intros g' [[]|err]; simpl.
  2: { intros ->. rewrite set_grant_id. by apply kept_refl. }
  intros (_ & Hfree & HG' & Hsh & Hm & Ha).
  assert (Hnone : Grant.authority (grant s) caller g = None)
    by (unfold Grant.authority; by rewrite Hfree).
  split; [|simpl; rewrite Hm; lia]. rewrite <- set_p2m_grant_id.
  apply HInv_memory; [done| |done|done|].
  - eapply Memory_authority; [apply HI|done|done| |].
    + intros m Hin Hac. rewrite Ha. case_decide as Hd; [|done]. destruct Hd as [Hd1 Hd2].
      destruct (active_authority _ _ HG Hin Hac) as (f' & ro' & He).
      rewrite Hd1, Hd2, Hnone in He. done.
    + intros l co po r f' ro' _ _ _ _ _ He ->. rewrite Ha. case_decide as Hd; [|done].
      destruct Hd as [-> ->]. congruence.
  - intros d Hd [H1 H2 H3 H4]. split; [|by rewrite Hm|done|].
    + intros r. rewrite Ha. case_decide as Hc; [|done]. destruct Hc as [-> _]. congruence.
    + intros e r f' ro'. rewrite Ha. case_decide; [|apply H4]. intros [= <- _ _]. done.
Qed.

Lemma kept_grant_end_access g : wp (grant_end_access caller g) (kept s) s.
Proof.
  pose proof (mem_grant _ _ (h_memory s HI)) as HG. unfold grant_end_access.
  wp_step. wp_step. wp_step.
  apply wp_mono with (Q := fun s' r => s' = s /\ (r = Ok tt ->
    forall to f ro, Grant.authority (grant s) caller g = Some (to, f, ro) ->
    P2m.is_foreign_linked_by (p2m s) f to = false)).
  { rewrite Grant.granted_frame_authority, Grant.grantee_of_authority.
    destruct (Grant.authority (grant s) caller g) as [[[to f] ro]|]; simpl.
    - wp_step; (split; [done|]); [|done]. intros _ to' f' ro' [= <- <- <-]. done.
    - wp_step. split; [done|]. congruence. }
  intros s' [[]|err] [-> Hno]; [|by apply kept_refl]. specialize (Hno eq_refl).
  apply wp_call. simpl. wp_apply Grant.wp_end_access; [done|]. intros g' [[]|err]; simpl.
  2: { intros [-> _]. rewrite set_grant_id. by apply kept_refl. }
  intros (_ & Hz & HG' & Hsh & Hm & Ha).
  split; [|simpl; rewrite Hm; lia]. rewrite <- set_p2m_grant_id.
  apply HInv_memory; [done| |done|done|].
  - eapply Memory_authority; [apply HI|done|done| |].
    + intros m Hin Hac. rewrite Ha. case_decide as Hd; [|done]. destruct Hd as [Hd1 Hd2].
      exfalso. rewrite count_zero in Hz. specialize (Hz m Hin).
      rewrite (proj2 (Grant.live_on_true _ _ _)) in Hz; done.
    + intros l co po r f ro Hin Hac Hc Hp Hne He ->. rewrite Ha. case_decide as Hd; [|done].
      exfalso. destruct Hd as [-> ->]. specialize (Hno _ _ _ He).
      unfold P2m.is_foreign_linked_by in Hno. rewrite existsb_false in Hno.
      specialize (Hno l Hin). rewrite Hac, N.eqb_refl, Hc, Hp in Hno.
      rewrite !bool_decide_true in Hno by congruence. done.
  - intros d Hd [H1 H2 H3 H4]. split; [|by rewrite Hm|done|].
    + intros r. rewrite Ha. by case_decide.
    + intros e r f ro. rewrite Ha. case_decide; [done|apply H4].
Qed.

Lemma kept_grant_copy from g wr : wp (grant_copy caller from g wr) (kept s) s.
Proof.
  unfold grant_copy. wp_step. wp_step. wp_step.
  destruct (Grant.granted_frame (grant s) from g); wp_step; try by (apply kept_refl).
  all: wp_step; by apply kept_refl.
Qed.

(** *** Mapping and unmapping *)

(** The two calls on every path: what the grant table and the page did. *)
Lemma wp_grant_unmap h (Q : Hypervisor -> result HvError HvOutcome -> Prop) :
  (forall u g' p', Grant.unmapped caller h u (grant s) g' -> P2m.Good (backing g') p' ->
     P2m.steady (p2m s) p' -> P2m.drops (p2m s) p' -> P2m.links p' = P2m.links (p2m s) ->
     Q (set_p2m p' (set_grant g' s)) (Ok ODone)) ->
  (forall e, Q s (Err e)) -> wp (grant_unmap caller h) Q s.
Proof.
  intros Hok Herr. pose proof (mem_grant _ _ (h_memory s HI)) as HG. unfold grant_unmap.
  wp_step. wp_step. simpl. wp_apply Grant.wp_unmap; [done|]. intros g' [u|err]; simpl.
  2: { intros [-> _]. rewrite set_grant_id. wp_step. wp_step; [done|]. apply Herr. }
  intros Hu. wp_step. wp_step; [|done]. match goal with H : Ok _ = Ok _ |- _ => injection H as <- end.
  wp_step. eapply (wp_release_unmapped (backing g')).
  { simpl. rewrite <- (backing_unmapped _ _ _ _ _ Hu). apply HI. }
  simpl. intros p HP Hst Hdr Hl. wp_step. by eapply Hok.
Qed.

Lemma kept_grant_unmap h : wp (grant_unmap caller h) (kept s) s.
Proof.
  apply wp_grant_unmap; [|intros; by apply kept_refl].
  intros u g' p Hu HP Hst Hdr Hl. pose proof Hu as (i & m & Hi & _ & _ & Hmaps & HG' & Hsa).
  assert (Hsub : forall x, x ∈ Grant.maps g' -> Grant.active x = true -> x ∈ Grant.maps (grant s)).
  { intros x Hx Hxa. rewrite Hmaps in Hx. by eapply Grant.removed_elem. }
  split; [|simpl; rewrite Hmaps, vlen_vset; lia].
  apply HInv_memory; [done| |apply Hsa|apply Hst|].
  - eapply Memory_fewer; [apply HI|done..].
  - intros d _. by eapply mem_shell_fewer.
Qed.

Lemma backing_ext_eq g g' :
  (forall b f, Grant.ext g' b f = Grant.ext g b f) -> P2m.ext_eq (backing g) (backing g').
Proof. intros H k f. destruct k; simpl; by rewrite ?H. Qed.

Lemma wp_grant_map from g wr (Q : Hypervisor -> result HvError HvOutcome -> Prop) :
  vlen (Grant.maps (grant s)) <= u32_max ->
  (forall h f g' p', Grant.granted_frame (grant s) from g = Some f ->
     P2m.owner_of (p2m s) f = Some from -> Grant.mapped caller from g wr h (grant s) g' ->
     P2m.took (backing (grant s)) (page_ref wr) f (p2m s) p' ->
     Q (set_p2m p' (set_grant g' s)) (Ok (OHandle h))) ->
  (forall h u g1 g2 e, Grant.mapped caller from g wr h (grant s) g1 ->
     Grant.unmapped caller h u g1 g2 -> Q (set_grant g2 s) (Err e)) ->
  (forall e, Q s (Err e)) -> wp (grant_map caller from g wr) Q s.
Proof.
  intros Hcap Hok Hback Herr. pose proof (h_memory s HI) as HM. pose proof (mem_grant _ _ HM) as HG.
  unfold grant_map. wp_step. wp_step. wp_step. wp_step; [|apply Herr].
  match goal with H : Grant.granted_frame _ _ _ = Some ?x |- _ => rename H into Hf, x into f end.
  wp_step. wp_step; [|apply Herr]. wp_step. wp_step. simpl. wp_apply Grant.wp_map; [done..|].
  intros g1 [h|err]; simpl.
  2: { intros [-> _]. rewrite set_grant_id. wp_step. wp_step; [done|]. apply Herr. }
  intros Hmap. wp_step. wp_step; [|done].
  match goal with H : Ok _ = Ok _ |- _ => injection H as <- end.
  wp_step. wp_step. simpl. rewrite take_page_child.
  wp_apply P2m.wp_take_child; [apply HM|]. intros p' [[]|err]; cbn beta iota.
  - intros Ht. wp_step. by eapply Hok.
  - intros ->. pose proof Hmap as (_ & _ & _ & HI1 & _ & [_ Hin1] & _).
    wp_step. wp_step. simpl. wp_apply Grant.wp_unmap; [done|]. intros g2 [u|err2].
    + intros Hu. wp_step. simpl. by eapply Hback.
    + intros [_ Hn]. exfalso. rewrite existsb_false in Hn.
      specialize (Hn (Grant.mkMapping true caller h from g wr)).
      rewrite (proj2 (Grant.holds_true _ _ _)) in Hn by done.
      discriminate Hn. apply Hin1; [done|by left].
Qed.

(** The account of a frame after one more mapping of it. *)
Lemma backing_mapped to from g wr h f g0 g1 :
  Grant.granted_frame g0 from g = Some f -> Grant.mapped to from g wr h g0 g1 ->
  P2m.ext_eq (backing g1) (P2m.bump (P2m.ref_kind (page_ref wr)) f (backing g0)).
Proof.
  intros Hf (_ & _ & _ & _ & Hsa & [Hcnt _] & _) k m. unfold P2m.bump.
  set (new := Grant.mkMapping true to h from g wr) in *.
  assert (Hfn : Grant.frame_of g0 new = f) by (unfold Grant.frame_of; simpl; by rewrite Hf).
  assert (He : forall b, Grant.ext g1 b m = Grant.ext g0 b m +
    (if Grant.over g0 b m new then 1 else 0)).
  { intros b. unfold Grant.ext. rewrite (count_ext (Grant.over g1 b m) (Grant.over g0 b m))
      by (intros; by apply Grant.over_same).
    apply Hcnt. intros x. unfold Grant.over. by intros [[? _]%andb_true_iff _]%andb_true_iff. }
  unfold Grant.over in He. rewrite Hfn in He. simpl in He. destruct (N.eqb_spec f m) as [->|Hne].
  - destruct k, wr; simpl; rewrite ?He; simpl; repeat case_decide; try lia; exfalso; naive_solver.
  - rewrite decide_False by naive_solver. destruct k; simpl; rewrite ?He, ?andb_false_r; lia.
Qed.

Lemma kept_grant_map from g wr :
  vlen (Grant.maps (grant s)) <= u32_max -> wp (grant_map caller from g wr) (kept s) s.
Proof.
  intros Hcap. pose proof (h_memory s HI) as HM.
  apply wp_grant_map; [done| | |intros; by apply kept_refl].
  - intros h f g1 p' Hf Ho Hmap Ht. destruct (P2m.took_steady _ _ _ _ _ Ht) as [Hst Hl].
    destruct Ht as (_ & _ & _ & _ & HP'). rewrite <- (backing_mapped _ _ _ _ _ _ _ _ Hf Hmap) in HP'.
    pose proof Hmap as (_ & _ & _ & HI1 & Hsa1 & [_ Hin1] & Hlen).
    split_and!; [|simpl; lia|done]. apply HInv_memory; [done| |apply Hsa1|apply Hst|].
    + split; [done|done| |].
      * intros m Hin Ha. rewrite (P2m.st_owner _ _ Hst), (Grant.frame_of_same _ _ _ Hsa1).
        apply Hin1 in Hin as [->|Hin]; [|by apply HM|done].
        unfold Grant.frame_of. simpl. by rewrite Hf.
      * intros l co po. rewrite Hl, !(P2m.st_owner _ _ Hst). intros Hin Ha Hc Hp Hne.
        pose proof (mem_links _ _ HM l co po Hin Ha Hc Hp Hne) as Hauth.
        apply Grant.authorizes_spec in Hauth. apply Grant.authorizes_spec.
        by setoid_rewrite (proj2 Hsa1).
    + intros d Hd [H1 H2 H3 H4]. split.
      * intros r. by rewrite (proj2 Hsa1).
      * intros m Hin Ha. apply Hin1 in Hin as [->|Hin]; [|by apply H2|done].
        simpl. congruence.
      * intros m. by rewrite (P2m.st_owner _ _ Hst).
      * intros e r f' ro. by rewrite (proj2 Hsa1).
  - intros h u g1 g2 e Hmap Hu.
    destruct (Grant.mapped_unmapped _ _ _ _ _ _ _ _ _ Hmap Hu)
      as (_ & HI2 & Hsa & Hin2 & Hcnt2 & Hlen2).
    assert (Hext : forall b f, Grant.ext g2 b f = Grant.ext (grant s) b f).
    { intros b fr. unfold Grant.ext.
      rewrite (count_ext (Grant.over g2 b fr) (Grant.over (grant s) b fr))
        by (intros; by apply Grant.over_same).
      apply Hcnt2. intros x. unfold Grant.over. by intros [[? _]%andb_true_iff _]%andb_true_iff. }
    split_and!; [|simpl; lia|done]. change (HInv (set_p2m (p2m s) (set_grant g2 s))).
    apply HInv_memory; [done| |apply Hsa|done|].
    + eapply Memory_fewer; [done|done|done| | |done|done].
      -- intros m Hm Ha. by apply Hin2.
      -- rewrite <- (backing_ext_eq (grant s) g2); [apply HM|done].
    + intros d _. eapply mem_shell_fewer; [done| |done]. intros m Hm Ha. by apply Hin2.
Qed.

(** *** Page tables *)

Lemma kept_p2m {E} (m : M P2m.System (result E unit)) fe :
  wp m (fun p' r => P2m.Good (backing (grant s)) p' /\
    match r with
    | Ok _ => P2m.steady (p2m s) p' /\
        forall l, l ∈ P2m.links p' -> P2m.active l = true -> l ∈ P2m.links (p2m s) \/
          forall co po, P2m.owner_of (p2m s) (P2m.child l) = Some co ->
            P2m.owner_of (p2m s) (P2m.parent l) = Some po -> co <> po ->
            Grant.authorizes (grant s) co po (P2m.child l) (P2m.writable l) = true
    | Err _ => P2m.obs_eq (p2m s) p'
    end) (p2m s) ->
  wp (call p2m_l m done fe) (kept s) s.
Proof.
  intros Hm. apply wp_call. simpl. wp_apply Hm. intros p' [x|err] [HP Hr]; simpl.
  - destruct Hr as [Hst Hl]. apply kept_grant; [|done]. by apply HInv_p2m.
  - split_and!; [|simpl; lia|by split]. apply HInv_p2m; [done|done|by apply P2m.obs_eq_steady|].
    rewrite (P2m.oe_links _ _ Hr). by left.
Qed.

Lemma kept_p2m_pin m l : wp (call p2m_l (P2m.pin caller m l) done EP2m) (kept s) s.
Proof.
  apply kept_p2m. wp_apply P2m.wp_pin; [apply HI|]. intros p' [[]|err].
  - intros (a & _ & _ & _ & _ & Hp & HP & Hst). split_and!; [done|done|]. subst p'. by left.
  - intros ->. split; [apply HI|done].
Qed.

Lemma kept_p2m_unpin m : wp (call p2m_l (P2m.unpin caller m) done EP2m) (kept s) s.
Proof.
  apply kept_p2m. wp_apply P2m.wp_unpin; [apply HI|]. intros p' [[]|err].
  - intros (a & _ & _ & _ & Hp & HP & Hst). split_and!; [done|done|]. subst p'. by left.
  - intros [-> _]. split; [apply HI|done].
Qed.

Lemma kept_p2m_unlink p sl : wp (call p2m_l (P2m.unlink caller p sl) done EP2m) (kept s) s.
Proof.
  apply kept_p2m. wp_apply P2m.wp_unlink; [apply HI|]. intros p' [[]|err].
  - intros (_ & i & l & _ & _ & _ & _ & Hls & HP & Hst & _). split_and!; [done|done|].
    intros x Hx Ha. left. rewrite Hls in Hx. by eapply P2m.deactivated_elem.
  - intros [-> _]. split; [apply HI|done].
Qed.

(** A foreign entry asks for the owner's grant first. *)
Lemma wp_p2m_link p sl c wr lf x (Q : Hypervisor -> result HvError HvOutcome -> Prop) :
  ((forall o, P2m.owner_of (p2m s) c = Some o -> o <> caller ->
      Grant.authorizes (grant s) o caller c wr = true) ->
   wp (call p2m_l (P2m.link caller p sl c wr lf x) done EP2m) Q s) ->
  (forall e, Q s (Err e)) -> wp (p2m_link caller p sl c wr lf x) Q s.
Proof.
  intros Hok Herr. unfold p2m_link. wp_step. wp_step. wp_step.
  destruct (P2m.owner_of (p2m s) c) as [o|] eqn:Ho; [|wp_step; by apply Hok].
  case_decide as Hne; [wp_step; [|apply Herr]|wp_step]; apply Hok; intros o' [= <-]; done.
Qed.

Lemma kept_p2m_link p sl c wr lf x : wp (p2m_link caller p sl c wr lf x) (kept s) s.
Proof.
  apply wp_p2m_link; [intros Hau|intros; by apply kept_refl].
  apply kept_p2m. wp_apply P2m.wp_link; [apply HI|]. intros p' [[]|err]; [|done].
  intros (_ & Ho & _ & _ & HP & Hst & Hin & _). split_and!; [done|done|].
  intros l Hl Ha. apply Hin in Hl as [->|Hl]; [right|by left|done]. simpl in *.
  intros co po Hc Hp Hne. rewrite Ho in Hp. injection Hp as <-. by apply Hau.
Qed.

(** *** Frames *)

Lemma kept_frames p' d0 m :
  P2m.Good (backing (grant s)) p' -> P2m.num_domains p' = P2m.num_domains (p2m s) ->
  P2m.links p' = P2m.links (p2m s) ->
  (forall m', m' <> m -> P2m.owner_of p' m' = P2m.owner_of (p2m s) m') ->
  (forall d, P2m.owner_of p' m = Some d -> d = d0) -> vget (life s) d0 = Some Live ->
  (forall l, l ∈ P2m.links (p2m s) -> P2m.active l = true -> P2m.child l <> m /\ P2m.parent l <> m) ->
  (forall x, x ∈ Grant.maps (grant s) -> Grant.active x = true -> Grant.frame_of (grant s) x <> m) ->
  HInv (set_p2m p' s).
Proof.
  intros HP Hn Hl Hoth Hd0 Hlive Hlk Hmp. pose proof (h_memory s HI) as HM.
  assert (HI' : HInv (set_p2m p' (set_grant (grant s) s))); [|by rewrite set_grant_id in HI'].
  apply HInv_memory; [done| |done|done|].
  - split; [apply HM|done| |].
    + intros x Hx Ha. rewrite Hoth by (by apply Hmp). by apply HM.
    + intros l co po. rewrite Hl. intros Hin Ha. destruct (Hlk l Hin Ha) as [H1 H2].
      rewrite !Hoth by done. by apply HM.
  - intros d Hd [H1 H2 H3 H4]. split; [done|done| |done]. intros m' Ho.
    destruct (decide (m' = m)) as [->|Hne]; [|by rewrite Hoth in Ho; [apply (H3 m')|]].
    apply Hd0 in Ho as ->. congruence.
Qed.

Lemma owner_of_set m f p m' :
  m < vlen (P2m.frames p) ->
  P2m.owner_of (P2m.set_frame m f p) m' =
  if decide (m' = m) then P2m.f_owner <$> match f with P2m.Allocated a => Some a | _ => None end
  else P2m.owner_of p m'.
Proof. intros Hm. unfold P2m.owner_of. rewrite P2m.allocated_set by done. by case_decide. Qed.

(** No entry touches a frame without references. *)
Lemma idle_links e p m :
  P2m.Good e p -> (forall x, P2m.allocated p m = Some x -> P2m.f_refs x = 0) ->
  forall l, l ∈ P2m.links p -> P2m.active l = true -> P2m.child l <> m /\ P2m.parent l <> m.
Proof.
  intros HP Hz l Hl Ha. destruct (P2m.good_link _ _ _ HP Hl Ha) as (x & c & Hx & Hpt & Hc & Hk).
  split; intros E; subst m.
  - pose proof (P2m.kcount_refs c (P2m.link_kind l) (P2m.g_sum _ _ HP _ _ Hc)).
    specialize (Hz _ Hc). lia.
  - pose proof (P2m.kcount_refs x P2m.KTable (P2m.g_sum _ _ HP _ _ Hx)) as Hle. simpl in Hle.
    specialize (Hz _ Hx). lia.
Qed.

Lemma kept_p2m_allocate m : wp (call p2m_l (P2m.allocate caller m) done EP2m) (kept s) s.
Proof.
  pose proof (h_memory s HI) as HM. apply wp_call. simpl. wp_apply P2m.wp_allocate; [apply HM|].
  intros p' [[]|err]; simpl.
  2: { intros ->. rewrite set_p2m_id. by apply kept_refl. }
  intros (_ & Hfree & Hp & HP). apply kept_grant; [|done].
  assert (Hm : m < vlen (P2m.frames (p2m s))).
  { unfold P2m.frame, ok_or in Hfree. destruct (vget _ m) eqn:E; [|done]. by eapply vget_Some_lt. }
  assert (Hno : P2m.allocated (p2m s) m = None) by (unfold P2m.allocated; by rewrite Hfree).
  eapply (kept_frames p' caller m); try done; try (by rewrite Hp).
  - intros m' Hne. rewrite Hp, owner_of_set by done. by rewrite decide_False.
  - intros d. rewrite Hp, owner_of_set, decide_True by done. by intros [= <-].
  - eapply idle_links; [apply HM|congruence].
  - intros x Hx Ha E. pose proof (mem_owned _ _ HM x Hx Ha) as Ho. rewrite E in Ho.
    unfold P2m.owner_of in Ho. by rewrite Hno in Ho.
Qed.

Lemma ext_pos g b f : 0 < Grant.ext g b f <-> exists m, m ∈ Grant.maps g /\ Grant.over g b f m = true.
Proof. apply count_pos. Qed.

Lemma kept_p2m_free m : wp (call p2m_l (P2m.free caller m) done EP2m) (kept s) s.
Proof.
  pose proof (h_memory s HI) as HM. apply wp_call. simpl. wp_apply P2m.wp_free; [apply HM|].
  intros p' [[]|err]; simpl.
  2: { intros [-> _]. rewrite set_p2m_id. by apply kept_refl. }
  intros (a & Ha & Ho & Hz & Hp & HP). apply kept_grant; [|done].
  pose proof (P2m.allocated_lt _ _ _ Ha) as Hm. pose proof (mem_p2m _ _ HM) as HP0.
  assert (Hk : forall k, P2m.kcount a k = 0).
  { intros k. pose proof (P2m.kcount_refs a k (P2m.g_sum _ _ HP0 m a Ha)). lia. }
  eapply (kept_frames p' caller m); try done; try (by rewrite Hp).
  - intros m' Hne. rewrite Hp, owner_of_set by done. by rewrite decide_False.
  - intros d. rewrite Hp, owner_of_set, decide_True by done. done.
  - eapply idle_links; [apply HM|congruence].
  - intros x Hx Hxa E.
    assert (Hext : 0 < Grant.ext (grant s) (Grant.writable x) m).
    { apply ext_pos. exists x. split; [done|]. unfold Grant.over.
      by rewrite Hxa, E, eqb_reflx, N.eqb_refl. }
    destruct (Grant.writable x).
    + pose proof (P2m.g_acc _ _ HP0 P2m.KWrite m) as Hacc. unfold P2m.counted in Hacc.
      rewrite Ha, Hk in Hacc. simpl in Hacc. lia.
    + pose proof (P2m.g_acc _ _ HP0 P2m.KBare m) as Hacc. unfold P2m.counted in Hacc.
      rewrite Ha, Hk in Hacc. simpl in Hacc. lia.
Qed.
End Handlers.
