(* ===== verification/HvControl.v ===== *)
(** * Control capabilities — [hv-core/src/hypervisor.rs]

    The matrix of control edges: delegation, revocation with its cascade, the sweep that
    computes the cascade, and the device calls that are gated on an edge. *)

From Stdlib Require Import NArith Lia.
From stdpp Require Import base numbers list option.
From S2P Require Import Credit.
From S2P Require Import Device.
From S2P Require Import Sched.
From S2P Require Import Evtchn.
From S2P Require Import Grant.
From S2P Require Import P2m.
From S2P Require Import Hypervisor.
From S2P Require Import HvInvariant.
From S2P Require Import HvEvents.
From S2P Require Import HvMemory.
From S2P Require Import Prelude.
#[local] Open Scope N_scope.

(** ** Specification *)

Abbreviation matrix := (list (list Control)) (only parsing).

(** The dimensions of a matrix over [n] domains. *)
Definition square (n : N) (c : matrix) : Prop := vlen c = n /\ forall h, h < n -> twidth c h = n.

(** What a cascade leaves of [c]: the edges that still trace to a root, and only those. *)
Definition cascade (c c' : matrix) : Prop :=
  forall h t e, tget c h t = Some e ->
    (rooted c t h -> tget c' h t = Some e) /\
    (forall e', tget c' h t = Some e' -> e' <> Absent -> e' = e /\ rooted c t h).

(** The edges that are present. *)
Definition present (c : matrix) : N :=
  nsum (count (fun e => bool_decide (e <> Absent))) c.

(** No edge rests on a delegator without an edge of its own. *)
Definition orphan_at (c : matrix) (h t : DomId) : Prop :=
  exists p, tget c h t = Some (Via p) /\ tget c p t = Some Absent.

(** ** Lemmas *)

Lemma square_tset n c h t e : square n c -> square n (tset c h t e).
Proof. intros [H1 H2]. split; [by rewrite vlen_tset|]. intros i Hi. rewrite twidth_tset. auto. Qed.

Lemma square_lookup n c h t : square n c -> h < n -> t < n -> exists e, tget c h t = Some e.
Proof. intros [H1 H2] Hh Ht. apply tget_lt_Some. by rewrite H2. Qed.

Lemma square_range n c h t e : square n c -> tget c h t = Some e -> h < n /\ t < n.
Proof.
  intros [H1 H2] He. apply tget_Some_lt in He as [Hh Ht]. rewrite H1 in Hh.
  by rewrite H2 in Ht.
Qed.

Lemma Dims_square s : Dims s -> square (domain_count s) (controls s).
Proof. intros HD. split; apply HD. Qed.

Lemma Dims_controls s c : Dims s -> square (domain_count s) c -> Dims (set_controls c s).
Proof. intros [] [H1 H2]. by split. Qed.

Lemma present_tset c h t e x :
  tget c h t = Some e ->
  present (tset c h t x) + (if bool_decide (e <> Absent) then 1 else 0) =
  present c + (if bool_decide (x <> Absent) then 1 else 0).
Proof.
  unfold tget, tset, present. destruct (vget c h) as [row|] eqn:Hr; [|done]. intros He.
  pose proof (nsum_vset (count (fun e => bool_decide (e <> Absent))) c h (vset row t x) row Hr) as Hn.
  pose proof (count_vset (fun e => bool_decide (e <> Absent)) row t x e He) as Hc.
  cbn beta in *. lia.
Qed.

Lemma present_bound n c : square n c -> present c <= n * n.
Proof.
  intros [H1 H2]. unfold present.
  assert (Hrow : forall row, row ∈ c -> count (fun e => bool_decide (e <> Absent)) row <= n).
  { intros row [i Hi]%elem_vget. pose proof (vget_Some_lt _ _ _ Hi) as Hlt. rewrite H1 in Hlt.
    specialize (H2 i Hlt). unfold twidth in H2. rewrite Hi in H2. rewrite <- H2.
    apply count_le_vlen. }
  rewrite <- H1 at 1. clear H1 H2. unfold vlen. induction c as [|row c IH]; simpl; [lia|].
  pose proof (Hrow row ltac:(by left)).
  assert (nsum (count (fun e => bool_decide (e <> Absent))) c <= N.of_nat (length c) * n)
    by (apply IH; intros; apply Hrow; by right).
  lia.
Qed.

(** *** Running the control operations on the matrix alone *)

Lemma wp_set_cell s h t e (Q : Hypervisor -> unit -> Prop) :
  Dims s -> h < domain_count s -> t < domain_count s ->
  Q (set_controls (tset (controls s) h t e) s) tt -> wp (set_cell h t e) Q s.
Proof.
  intros HD Hh Ht HQ. unfold set_cell. wp_step. apply wp_cell; [done..|]. intros _ _.
  by wp_step.
Qed.

(** The state of a sweep that started on the matrix [c1] of [s]. *)
Definition below (c1 c : matrix) : Prop :=
  forall h t e, tget c1 h t = Some e ->
    (tget c h t = Some e \/ tget c h t = Some Absent) /\ (rooted c1 t h -> tget c h t = Some e).

Lemma below_refl c : below c c.
Proof. intros h t e He. split; [by left|done]. Qed.

Lemma rooted_parent c t h p : tget c h t = Some (Via p) -> rooted c t h -> rooted c t p.
Proof. intros Hv Hr. inversion Hr as [? Hr'|? q Hq Hp]; subst; congruence. Qed.

Lemma rooted_absent c t h : tget c h t = Some Absent -> ~ rooted c t h.
Proof. intros Ha Hr. inversion Hr; congruence. Qed.

Lemma rooted_cell c t h : rooted c t h -> exists e, tget c h t = Some e /\ e <> Absent.
Proof. intros Hr. inversion Hr; eauto. Qed.

(** Removing an orphan removes no edge that traces to a root. *)
Lemma below_orphan c1 c h t :
  below c1 c -> (forall x y e, tget c x y = Some e -> exists e1, tget c1 x y = Some e1) ->
  orphan_at c h t -> below c1 (tset c h t Absent).
Proof.
  intros Hb Hdom (p & Hp & Ha) x y e He. destruct (Hb x y e He) as [Hor Hr].
  rewrite tget_tset. case_decide as Hc; [|done]. destruct Hc as (-> & -> & _).
  split; [by right|]. intros Hroot. exfalso.
  pose proof (Hr Hroot) as Hk. rewrite Hp in Hk. injection Hk as <-.
  pose proof (rooted_parent _ _ _ _ He Hroot) as Hroot'.
  destruct (Hdom _ _ _ Ha) as [e1 He1]. destruct (Hb p t e1 He1) as [_ Hkeep].
  specialize (Hkeep Hroot'). rewrite Ha in Hkeep. injection Hkeep as <-.
  by apply (rooted_absent c1 t p).
Qed.

(** One pass: it stays below, removes an edge when it says so, and leaves no orphan when
    it says it changed nothing. *)
Definition pass_inv (s : Hypervisor) (c0 : matrix) (visited : list (N * N)) (changed : bool)
    (s' : Hypervisor) : Prop :=
  exists c, s' = set_controls c s /\ square (domain_count s) c /\ below (controls s) c /\
    if changed then present c < present c0
    else c = c0 /\ forall h t, (t, h) ∈ visited -> ~ orphan_at c h t.

Lemma below_dom n c1 c : square n c1 -> square n c ->
  forall x y e, tget c x y = Some e -> exists e1, tget c1 x y = Some e1.
Proof.
  intros H1 H2 x y e He. destruct (square_range n c x y e H2 He). by eapply square_lookup.
Qed.

(** The delegators named in the matrix are domains. *)
Definition named_in_range (n : N) (c : matrix) : Prop :=
  forall h t p, tget c h t = Some (Via p) -> p < n.

Lemma wp_sweep_cell s c0 visited changed t h s' :
  Dims s -> named_in_range (domain_count s) (controls s) ->
  pass_inv s c0 visited changed s' -> t < domain_count s -> h < domain_count s ->
  wp (sweep_cell t changed h) (fun s'' ch => pass_inv s c0 (visited ++ [(t, h)]) ch s'') s'.
Proof.
  intros HD Hnm (c & -> & Hsq & Hb & Hch) Ht Hh.
  pose proof (Dims_controls s c HD Hsq) as HD'. pose proof (Dims_square s HD) as Hsq1.
  assert (Hkeep : ~ orphan_at c h t ->
    pass_inv s c0 (visited ++ [(t, h)]) changed (set_controls c s)).
  { intros Hno. exists c. split_and!; [done..|]. destruct changed; [done|].
    destruct Hch as [Hc Hv]. split; [done|]. intros h' t' Hin.
    apply elem_of_snoc in Hin as [Hin|[= -> ->] ]; [by apply Hv|done]. }
  unfold sweep_cell. wp_step. apply wp_cell; [done..|]. simpl. intros e He.
  destruct e as [| |p]; try (wp_step; apply Hkeep; intros (q & Hq & _); congruence).
  assert (Hp : p < domain_count s).
  { destruct (below_dom _ _ _ Hsq1 Hsq _ _ _ He) as [e1 He1].
    destruct (Hb h t e1 He1) as [[Hk|Hk] _]; rewrite He in Hk; simplify_eq.
    by eapply Hnm. }
  wp_step. apply wp_cell; [done..|]. simpl. intros d Hd. case_decide as Hda.
  - subst d. assert (Hor : orphan_at c h t) by (by exists p).
    wp_step. apply wp_set_cell; [done..|]. wp_step. simpl.
    exists (tset c h t Absent). split_and!; [done|by apply square_tset| |].
    + eapply below_orphan; [done| |done]. by eapply below_dom.
    + pose proof (present_tset c h t (Via p) Absent He) as Hpr.
      rewrite bool_decide_true, bool_decide_false in Hpr by naive_solver.
      destruct changed; [lia|]. destruct Hch as [<- _]. lia.
  - wp_step. apply Hkeep. intros (q & Hq & Hqa). rewrite He in Hq. injection Hq as <-. congruence.
Qed.

Lemma wp_sweep_pass s c :
  Dims s -> named_in_range (domain_count s) (controls s) ->
  square (domain_count s) c -> below (controls s) c ->
  wp sweep_pass (fun s' changed => exists c', s' = set_controls c' s /\
    square (domain_count s) c' /\ below (controls s) c' /\
    if changed then present c' < present c else c' = c /\ forall h t, ~ orphan_at c h t)
    (set_controls c s).
Proof.
  intros HD Hnm Hsq Hb. unfold sweep_pass. wp_step. wp_step.
  change (domain_count (set_controls c s)) with (domain_count s).
  apply wp_fold_m with (I := fun done ch s' => pass_inv s c
    (list_bind _ _ (fun t => (fun h => (t, h)) <$> vrange (domain_count s)) done) ch s').
  - exists c. repeat (split; [done|]). intros h t Hin.
    by apply elem_of_nil in Hin.
  - intros l1 t l2 ch s1 Hl HP.
    assert (Ht : t < domain_count s) by (apply elem_vrange; rewrite Hl; apply elem_of_app; right; by left).
    rewrite bind_app. simpl. rewrite app_nil_r.
    apply wp_fold_m with (I := fun done ch s' => pass_inv s c
      (list_bind _ _ (fun t => (fun h => (t, h)) <$> vrange (domain_count s)) l1 ++
       ((fun h => (t, h)) <$> done)) ch s').
    + by rewrite app_nil_r.
    + intros k1 h k2 ch' s2 Hk HP'.
      assert (Hh : h < domain_count s)
        by (apply elem_vrange; rewrite Hk; apply elem_of_app; right; by left).
      rewrite fmap_app, app_assoc. by apply wp_sweep_cell.
    + done.
  - intros ch s' (c' & -> & Hsq' & Hb' & Hch). exists c'. split_and!; [done..|].
    destruct ch; [done|]. destruct Hch as [-> Hv]. split; [done|]. intros h t Hor.
    pose proof Hor as (p & Hp & _). destruct (square_range _ _ _ _ _ Hsq Hp) as [Hh Ht].
    apply (Hv h t); [|done]. apply list_elem_of_bind. exists t. split; [|by apply elem_vrange].
    apply list_elem_of_fmap. exists h. split; [done|by apply elem_vrange].
Qed.

(** The loop ends within its fuel, at a matrix without orphans. *)
Lemma wp_sweep_loop fuel s c (Q : Hypervisor -> unit -> Prop) :
  Dims s -> named_in_range (domain_count s) (controls s) ->
  square (domain_count s) c -> below (controls s) c -> present c < N.of_nat fuel ->
  (forall c', square (domain_count s) c' -> below (controls s) c' ->
     (forall h t, ~ orphan_at c' h t) -> Q (set_controls c' s) tt) ->
  wp (sweep_loop fuel) Q (set_controls c s).
Proof.
  intros HD Hnm. revert c. induction fuel as [|fuel IH]; intros c Hsq Hb Hf HQ; [lia|].
  simpl. wp_step. wp_apply wp_sweep_pass; [done..|]. intros s' changed (c' & -> & Hsq' & Hb' & Hch).
  destruct changed.
  - apply IH; [done|done|lia|done].
  - destruct Hch as [-> Hno]. wp_step. by apply HQ.
Qed.

(** A matrix below [c1] without orphans is the cascade of [c1], when every edge of [c1]
    traced to a root before some edges of it were cleared. *)
Lemma below_cascade c0 c1 c :
  (forall h t e, tget c1 h t = Some e -> e <> Absent -> tget c0 h t = Some e /\ rooted c0 t h) ->
  (forall h t p, tget c1 h t = Some (Via p) -> exists e, tget c1 p t = Some e) ->
  below c1 c -> (forall h t, ~ orphan_at c h t) -> cascade c1 c.
Proof.
  intros Hold Hdom Hb Hno h t e He. destruct (Hb h t e He) as [_ Hk]. split; [done|].
  intros e' He' Hne.
  cut (rooted c1 t h).
  { intros Hr. rewrite (Hk Hr) in He'. by injection He' as <-. }
  assert (Hke : forall x y ey, tget c1 x y = Some ey -> forall ec, tget c x y = Some ec ->
    ec <> Absent -> ec = ey).
  { intros x y ey Hey ec Hec Hnec. destruct (Hb x y ey Hey) as [[Ho|Ho] _]; congruence. }
  assert (e' = e) as -> by (by eapply Hke).
  destruct (Hold h t e He Hne) as [_ [k Hkn]%rooted_depth].
  revert h e He Hk He' Hne Hkn. induction k as [k IH] using lt_wf_ind.
  intros h e He Hk He' Hne Hkn. destruct e as [| |p]; [done|by apply rooted_root|].
  destruct (Hold h t _ He Hne) as [Hc0 _].
  apply rooted_via with p; [done|]. destruct (Hdom h t p He) as [ep Hep].
  assert (Hpc : exists ec, tget c p t = Some ec /\ ec <> Absent).
  { destruct (Hb p t ep Hep) as [[Ho|Ho] _].
    - exists ep. split; [done|]. intros ->. apply (Hno h t). by exists p.
    - exfalso. apply (Hno h t). by exists p. }
  destruct Hpc as (ec & Hec & Hnec). assert (ec = ep) as -> by (by eapply Hke).
  inversion Hkn as [h' Hr|k' h' p' Hv Hp']; subst; rewrite Hc0 in *; simplify_eq.
  eapply (IH k'); [lia|done|by apply Hb|done|done|done].
Qed.

(** A cascade of the authority that stood: what is left is authority. *)
Lemma cascade_Authority l c c' :
  (forall h t e, tget c h t = Some e -> e <> Absent ->
     vget l h = Some Live /\ vget l t = Some Live /\ h <> t) ->
  (forall x y e, tget c' x y = Some e -> exists e1, tget c x y = Some e1) ->
  cascade c c' -> Authority l c'.
Proof.
  intros Hlive Hdom Hc. split.
  - intros h t e He Hne. destruct (Hdom h t e He) as [e1 He1].
    destruct (Hc h t e1 He1) as [_ Hk]. destruct (Hk e He Hne) as [-> _]. by eapply Hlive.
  - intros h t e He Hne. destruct (Hdom h t e He) as [e1 He1].
    destruct (Hc h t e1 He1) as [_ Hk]. destruct (Hk e He Hne) as [_ Hr].
    clear - Hc Hr. induction Hr as [h Hr|h p Hv Hp IH].
    + apply rooted_root. by apply (Hc h t Root Hr), rooted_root.
    + apply rooted_via with p; [|done]. apply (Hc h t (Via p) Hv). by eapply rooted_via.
Qed.

(** The whole sweep ends, within its fuel. *)
Lemma wp_sweep_below s (Q : Hypervisor -> unit -> Prop) :
  Dims s -> named_in_range (domain_count s) (controls s) ->
  (forall c', square (domain_count s) c' -> below (controls s) c' ->
     (forall h t, ~ orphan_at c' h t) -> Q (set_controls c' s) tt) ->
  wp sweep_orphaned_control_edges Q s.
Proof.
  intros HD Hnm HQ. pose proof (Dims_square s HD) as Hsq.
  unfold sweep_orphaned_control_edges. wp_step. wp_step.
  assert (Hid : s = set_controls (controls s) s) by (by destruct s).
  pose proof (present_bound _ _ Hsq). set (fuel := S _).
  cut (wp (sweep_loop fuel) Q (set_controls (controls s) s)); [by rewrite <- Hid|].
  apply wp_sweep_loop; [done|done|done|apply below_refl|lia|done].
Qed.

(** The whole sweep, on a matrix of which some edges were cleared. *)
Lemma wp_sweep s c0 (Q : Hypervisor -> unit -> Prop) :
  Dims s -> square (domain_count s) c0 ->
  (forall h t e, tget (controls s) h t = Some e -> e <> Absent ->
     tget c0 h t = Some e /\ rooted c0 t h) ->
  (forall c', square (domain_count s) c' -> cascade (controls s) c' -> Q (set_controls c' s) tt) ->
  wp sweep_orphaned_control_edges Q s.
Proof.
  intros HD Hsq0 Hold HQ. pose proof (Dims_square s HD) as Hsq.
  assert (Hnm : named_in_range (domain_count s) (controls s)).
  { intros h t p Hp. destruct (Hold h t _ Hp) as [Hc0 Hr]; [done|].
    destruct (rooted_cell _ _ _ (rooted_parent _ _ _ _ Hc0 Hr)) as (e & He & _).
    apply (square_range _ _ _ _ _ Hsq0 He). }
  apply wp_sweep_below; [done|done|].
  intros c' Hsq' Hb Hno. apply HQ; [done|]. eapply below_cascade; [done| |done|done].
  intros h t p Hp. eapply square_lookup; [done|by eapply Hnm|].
  apply (square_range _ _ _ _ _ Hsq Hp).
Qed.

(** *** The handlers *)

Lemma HInv_controls s c :
  HInv s -> square (domain_count s) c -> Authority (life s) c -> HInv (set_controls c s).
Proof.
  intros [HD Hcr HM HE Hdev HA Hdead] Hsq HA'. split; simpl; try done.
  - by apply Dims_controls.
  - intros d Hd. destruct (Hdead d Hd) as ([] & [] & Hm). by split_and!.
Qed.

(** The walk [control_subtree_contains] makes: [caller] is [node] or above it. *)
Inductive on_chain (c : matrix) (t : DomId) (caller : DomId) : DomId -> Prop :=
| chain_here : on_chain c t caller caller
| chain_up h p : tget c h t = Some (Via p) -> on_chain c t caller p -> on_chain c t caller h.

Lemma wp_subtree_walk s t caller k node fuel (Q : Hypervisor -> bool -> Prop) :
  Dims s -> rooted_n (controls s) t k node -> (k < fuel)%nat ->
  (forall b, b = true <-> on_chain (controls s) t caller node -> Q s b) ->
  wp (control_subtree_walk fuel caller node t) Q s.
Proof.
  intros HD Hk. revert fuel Q. induction Hk as [h Hr|k h p Hv Hp IH]; intros fuel Q Hf HQ;
    (destruct fuel as [|fuel]; [lia|]); simpl.
  - case_decide as Hc; [subst; wp_step; apply HQ; split; [constructor|done]|].
    destruct (in_range_cell s h t _ HD Hr). wp_step. apply wp_cell; [done..|].
    intros e He. rewrite Hr in He. injection He as <-. wp_step. apply HQ. split; [done|].
    intros Hch. inversion Hch; subst; congruence.
  - case_decide as Hc; [subst; wp_step; apply HQ; split; [constructor|done]|].
    destruct (in_range_cell s h t _ HD Hv). wp_step. apply wp_cell; [done..|].
    intros e He. rewrite Hv in He. injection He as <-. cbn beta iota.
    apply IH; [lia|]. intros b Hb. apply HQ. rewrite Hb. split.
    + intros Hch. by eapply chain_up.
    + intros Hch. inversion Hch as [|h' p' Hv' Hp']; subst; [done|]. congruence.
Qed.

Lemma wp_control_subtree_contains s t caller node (Q : Hypervisor -> bool -> Prop) :
  HInv s -> node < domain_count s -> t < domain_count s ->
  (forall b, b = true <-> on_chain (controls s) t caller node -> Q s b) ->
  wp (control_subtree_contains caller node t) Q s.
Proof.
  intros HI Hn Ht HQ. pose proof (h_dims s HI) as HD. unfold control_subtree_contains.
  wp_step. wp_step. destruct (cell_lookup s node t HD Hn Ht) as [e He].
  destruct (decide (e = Absent)) as [->|Hne].
  - cbn [control_subtree_walk]. case_decide as Hc; [subst; wp_step; apply HQ; split; [constructor|done]|].
    wp_step. apply wp_cell; [done..|]. intros e' He'. rewrite He in He'. injection He' as <-.
    wp_step. apply HQ. split; [done|]. intros Hch. inversion Hch; subst; congruence.
  - destruct (rooted_depth _ _ _ (au_rooted _ _ (h_authority s HI) node t e He Hne)) as [k Hk].
    eapply wp_subtree_walk; [done|done| |done].
    pose proof (rooted_n_bound _ _ _ _ Hk) as Hb. rewrite (d_rows s HD) in Hb. lia.
Qed.

(** Revoking [from] removes exactly the edges whose chain passes through [from]. *)
Lemma rooted_cleared c t from t' h :
  (exists e, tget c from t = Some e) ->
  rooted (tset c from t Absent) t' h <->
  rooted c t' h /\ (t' = t -> ~ on_chain c t from h).
Proof.
  intros [e He]. pose proof (tget_Some_lt _ _ _ _ He) as [_ Hlt]. split.
  - induction 1 as [h Hr|h p Hv Hp [IH1 IH2]].
    + rewrite tget_tset in Hr. case_decide as Hd; [done|]. split; [by constructor|].
      intros -> Hch. inversion Hch as [|h' p' Hv' _]; subst; [by apply Hd|congruence].
    + rewrite tget_tset in Hv. case_decide as Hd; [done|]. split; [by eapply rooted_via|].
      intros -> Hch. inversion Hch as [|h' p' Hv' Hch']; subst; [by apply Hd|].
      rewrite Hv in Hv'. injection Hv' as <-. by apply IH2.
  - intros [Hr Hno]. induction Hr as [h Hr|h p Hv Hp IH].
    + apply rooted_root. rewrite tget_tset. case_decide as Hd; [|done].
      destruct Hd as (-> & -> & _). exfalso. apply Hno; [done|constructor].
    + apply rooted_via with p.
      * rewrite tget_tset. case_decide as Hd; [|done]. destruct Hd as (-> & -> & _).
        exfalso. apply Hno; [done|constructor].
      * apply IH. intros -> Hch. apply Hno; [done|]. by eapply chain_up.
Qed.

(** The cascade of a revocation, edge by edge. *)
Lemma cascade_revoke n l c t from c' :
  square n c -> square n c' -> Authority l c -> from < n -> t < n ->
  cascade (tset c from t Absent) c' ->
  forall h t' e, tget c h t' = Some e ->
    (t' = t /\ on_chain c t from h -> tget c' h t' = Some Absent) /\
    (~ (t' = t /\ on_chain c t from h) -> tget c' h t' = Some e).
Proof.
  intros Hsq Hsq' HA Hf Ht Hcas h t' e He. set (c1 := tset c from t Absent) in *.
  destruct (square_lookup n c from t Hsq Hf Ht) as [e0 He0].
  pose proof (rooted_cleared c t from t' h (ex_intro _ e0 He0)) as Hrc. fold c1 in Hrc.
  destruct (square_range n c h t' e Hsq He) as [Hh Ht'].
  destruct (square_lookup n c' h t' Hsq' Hh Ht') as [e' He'].
  assert (exists e1, tget c1 h t' = Some e1 /\ (e1 = e \/ e1 = Absent /\ h = from /\ t' = t))
    as (e1 & He1 & Hor).
  { unfold c1. rewrite tget_tset. case_decide as Hd; [exists Absent|exists e]; tauto. }
  destruct (Hcas h t' e1 He1) as [Hkeep Honly].
  assert (Hor' : e' = Absent \/ e' = e1 /\ rooted c1 t' h).
  { destruct (decide (e' = Absent)) as [|Hne]; [by left|right]. by apply Honly. }
  split.
  - intros [-> Hch]. destruct Hor' as [->|[_ Hr] ]; [done|]. apply Hrc in Hr as [_ Hr].
    by destruct (Hr eq_refl).
  - intros Hn. destruct (decide (e = Absent)) as [->|Hne].
    + rewrite He'. destruct Hor' as [->|[-> _] ]; [done|]. destruct Hor as [->|[-> _] ]; done.
    + assert (Hr : rooted c1 t' h).
      { apply Hrc. split; [by eapply (au_rooted _ _ HA)|]. intros -> Hch. by apply Hn. }
      destruct Hor as [->|(_ & -> & ->)]; [by apply Hkeep|]. exfalso. apply Hn. split; [done|].
      constructor.
Qed.

Section Handlers.
Context (s : Hypervisor) (caller : DomId).
Context (HI : HInv s) (Hcaller : vget (life s) caller = Some Live).

Lemma caller_range : caller < domain_count s.
Proof. rewrite <- (d_life s (h_dims s HI)). by eapply vget_Some_lt. Qed.

(** A fresh edge under a standing one keeps every edge rooted. *)
Lemma rooted_attach c to t d :
  tget c to t = Some Absent ->
  (forall t' h, rooted c t' h -> rooted (tset c to t (Via d)) t' h) /\
  (rooted c t d -> rooted (tset c to t (Via d)) t to).
Proof.
  intros Ha. pose proof (tget_Some_lt _ _ _ _ Ha) as [_ Hlt].
  assert (Hmono : forall t' h, rooted c t' h -> rooted (tset c to t (Via d)) t' h).
  { intros t' h. induction 1 as [h Hr|h p Hv Hp IH]; [apply rooted_root|apply rooted_via with p; [|done]];
      rewrite tget_tset_ne; try done; intros [-> ->]; congruence. }
  split; [done|]. intros Hd. apply rooted_via with d; [by eapply tget_tset_eq|by apply Hmono].
Qed.

Lemma has_control_cell h t e : tget (controls s) h t = Some e -> has_control s h t = bool_decide (e <> Absent).
Proof. intros He. unfold has_control, control_edge. by rewrite He. Qed.

Lemma has_control_range h t : has_control s h t = true -> h < domain_count s /\ t < domain_count s.
Proof.
  unfold has_control, control_edge. intros Hh%bool_decide_eq_true.
  destruct (tget (controls s) h t) as [e|] eqn:He; [|done].
  by apply (in_range_cell s h t e (h_dims s HI)).
Qed.

Lemma has_control_absent h t e :
  tget (controls s) h t = Some e -> ~ e <> Absent -> has_control s h t = false.
Proof. intros He Hn. rewrite (has_control_cell h t e He). by apply bool_decide_eq_false. Qed.

(** When [control_grant] and [control_revoke] are authorised. *)
Definition may_delegate (t to : DomId) : Prop :=
  has_control s caller t = true /\ to <> t /\ vget (life s) to = Some Live.
Definition may_revoke (t from : DomId) : Prop :=
  has_control s caller t = true /\ from < domain_count s /\ on_chain (controls s) t caller from.

Lemma wp_control_grant t to :
  wp (control_grant caller t to) (fun s' r =>
    kept s s' r /\
    match r with
    | Ok _ => may_delegate t to /\
        (has_control s to t = true /\ s' = s \/ tget (controls s) to t = Some Absent /\
           s' = set_controls (tset (controls s) to t (Via caller)) s)
    | Err _ => s' = s /\ ~ may_delegate t to
    end) s.
Proof.
  pose proof (h_dims s HI) as HD. pose proof caller_range as Hc.
  pose proof (h_authority s HI) as HA. unfold control_grant. wp_step. wp_step. wp_step.
  wp_step.
  2: { split_and!; [by apply kept_refl|done|]. intros (Hh & _ & Hl).
    apply has_control_range in Hh as [_ Hh]. apply vget_Some_lt in Hl. rewrite (d_life s HD) in Hl.
    match goal with H : ~ _ |- _ => by apply H end. }
  match goal with H : in_range _ _ /\ in_range _ _ |- _ => destruct H as [Ht Hto] end.
  wp_step. apply wp_cell; [done..|]. intros e He. wp_step. wp_step.
  2: { split_and!; [by apply kept_refl|done|]. intros (Hh & _).
    rewrite (has_control_absent caller t e) in Hh; done. }
  wp_step. wp_step.
  2: { split_and!; [by apply kept_refl|done|]. intros (_ & Hne & _). done. }
  wp_step. apply wp_life_at; [done..|]. intros l Hl. wp_step. wp_step.
  2: { split_and!; [by apply kept_refl|done|]. intros (_ & _ & Hl'). congruence. }
  subst l. assert (Hmay : may_delegate t to).
  { split_and!; [|done|done]. rewrite (has_control_cell caller t e He). by apply bool_decide_eq_true. }
  wp_step. apply wp_cell; [done..|]. intros e2 He2. case_decide as Hne2.
  - wp_step. split; [by apply kept_refl|]. split; [done|left]. split; [|done].
    rewrite (has_control_cell to t e2 He2). by apply bool_decide_eq_true.
  - subst e2. wp_step. apply wp_set_cell; [done..|]. wp_step.
    split; [|split; [done|by right]].
    apply kept_grant; [|done]. apply HInv_controls; [done|apply square_tset, Dims_square, HD|].
    destruct (rooted_attach (controls s) to t caller He2) as [Hm Hn].
    destruct (au_live _ _ HA caller t e He ltac:(done)) as (_ & Hlt & _).
    split; intros h t' e' He' Hne'; rewrite tget_tset in He'; case_decide as Hd.
    + destruct Hd as (-> & -> & _). done.
    + by eapply (au_live _ _ HA).
    + destruct Hd as (-> & -> & _). apply Hn. by eapply (au_rooted _ _ HA).
    + apply Hm. by eapply (au_rooted _ _ HA).
Qed.

Lemma wp_control_revoke t from :
  wp (control_revoke caller t from) (fun s' r =>
    kept s s' r /\
    match r with
    | Ok _ => may_revoke t from /\
        exists c', s' = set_controls c' s /\ square (domain_count s) c' /\
          cascade (tset (controls s) from t Absent) c'
    | Err _ => s' = s /\ ~ may_revoke t from
    end) s.
Proof.
  pose proof (h_dims s HI) as HD. pose proof caller_range as Hc.
  pose proof (h_authority s HI) as HA. pose proof (Dims_square s HD) as Hsq.
  unfold control_revoke. wp_step. wp_step. wp_step.
  wp_step.
  2: { split_and!; [by apply kept_refl|done|]. intros (Hh & Hf & _).
    apply has_control_range in Hh as [_ Hh]. match goal with H : ~ _ |- _ => by apply H end. }
  match goal with H : in_range _ _ /\ in_range _ _ |- _ => destruct H as [Ht Hfrom] end.
  wp_step. apply wp_cell; [done..|]. intros e He. wp_step. wp_step.
  2: { split_and!; [by apply kept_refl|done|]. intros (Hh & _).
    rewrite (has_control_absent caller t e) in Hh; done. }
  wp_step. apply wp_control_subtree_contains; [done..|]. intros b Hb. wp_step.
  wp_step.
  2: { split_and!; [by apply kept_refl|done|]. intros (_ & _ & Hch). apply Hb in Hch. done. }
  subst b. apply proj1 in Hb. specialize (Hb eq_refl).
  assert (Hmay : may_revoke t from).
  { split_and!; [|done|done]. rewrite (has_control_cell caller t e He). by apply bool_decide_eq_true. }
  wp_step. apply wp_set_cell; [done..|]. wp_step.
  set (c1 := tset (controls s) from t Absent). set (s1 := set_controls c1 s).
  assert (Hsq1 : square (domain_count s) c1) by (by apply square_tset).
  apply (wp_sweep s1 (controls s)); [by apply Dims_controls|done| |].
  { simpl. intros h t' e' He' Hne'. unfold c1 in He'. rewrite tget_tset in He'.
    case_decide; [by simplify_eq|]. split; [done|]. by eapply (au_rooted _ _ HA). }
  intros c' Hsq' Hcas. change (set_controls c' s1) with (set_controls c' s). simpl in Hcas.
  wp_step. split.
  - apply kept_grant; [|done]. apply HInv_controls; [done|done|].
    eapply cascade_Authority; [| |exact Hcas].
    + intros h t' e' He' Hne'. unfold c1 in He'. rewrite tget_tset in He'.
      case_decide; [by simplify_eq|]. by eapply (au_live _ _ HA).
    + by eapply below_dom.
  - split; [done|]. by exists c'.
Qed.

Lemma HInv_device s' dv :
  HInv s' -> Device.Inv dv -> Device.num_domains dv = Device.num_domains (device s') ->
  (forall d, vget (life s') d = Some Dead -> (forall dev, Device.holder_of (device s') dev <> Some d) ->
     forall dev, Device.holder_of dv dev <> Some d) ->
  HInv (set_device dv s').
Proof.
  intros [HD Hcr HM HE Hdev HA Hdead] Hdv Hn Hsh. split; simpl; try done.
  - destruct HD. unfold Device.domain_count, domain_count in *.
    split; simpl; try done; unfold Device.domain_count, domain_count in *; simpl; congruence.
  - intros d Hd. destruct (Hdead d Hd) as ([] & [] & Hm). split_and!; [by split| |done].
    split; simpl; [done|done|by apply Hsh].
Qed.

Lemma set_device_id s' : set_device (device s') s' = s'.
Proof. by destruct s'. Qed.

Lemma kept_device_assign dev to : wp (device_assign caller dev to) (kept s) s.
Proof.
  pose proof (h_dims s HI) as HD. pose proof caller_range as Hc. unfold device_assign.
  wp_step. wp_step. wp_step. wp_step; [|by apply kept_refl]. wp_step. apply wp_cell; [done..|].
  intros e He. wp_step. wp_step; [|by apply kept_refl]. wp_step.
  apply wp_reject_dead_target; [done| |intros; by apply kept_refl]. intros Hto.
  apply wp_call. simpl. wp_apply Device.wp_assign. intros dv [[]|err]; simpl.
  - intros ((Hlt & _) & Hn & _ & Hh). apply kept_grant; [|done].
    apply HInv_device; [done| |done|].
    + intros d h. rewrite Hh, Hn. case_decide; [by intros [= <-]|]. apply (h_device s HI).
    + intros d Hd Hno d'. rewrite Hh. case_decide; [intros [= ->]; done|apply Hno].
  - intros [-> _]. rewrite set_device_id. by apply kept_refl.
Qed.

Lemma kept_device_release dev from : wp (device_release caller dev from) (kept s) s.
Proof.
  unfold device_release. wp_step. wp_step. wp_step. wp_step; [|by apply kept_refl]. wp_step.
  apply wp_require_control; [done|done|done| |intros; by apply kept_refl]. intros _.
  apply wp_call. simpl. wp_apply Device.wp_release. intros dv [[]|err]; simpl.
  - intros (_ & Hn & _ & Hh). apply kept_grant; [|done]. apply HInv_device; [done| |done|].
    + intros d h. rewrite Hh, Hn. case_decide; [done|]. apply (h_device s HI).
    + intros d Hd Hno d'. rewrite Hh. case_decide; [done|apply Hno].
  - intros [-> _]. rewrite set_device_id. by apply kept_refl.
Qed.

Lemma kept_credit_call m :
  (forall c, Credit.Inv c -> wp m (Credit.credit_post c) c) ->
  wp (credit_call caller m) (kept s) s.
Proof.
  intros Hm. unfold credit_call. wp_step. wp_step. wp_step. wp_step; [|by apply kept_refl].
  match goal with H : vget (credit s) caller = Some ?x |- _ => rename H into Hc, x into c end.
  apply wp_call. simpl. rewrite Hc. simpl. wp_apply Hm; [by eapply (h_credit s HI)|].
  intros c' [bal|err] [HI' Hr]; simpl.
  2: { subst c'. rewrite vset_id, set_credit_id by done. by apply kept_refl. }
  apply kept_grant; [|done].
  pose proof HI as [HD Hcr HM HE Hdev HA Hdead].
  assert (Hn : domain_count (set_credit (vset (credit s) caller c') s) = domain_count s)
    by (unfold domain_count; simpl; apply vlen_vset).
  split; simpl; try done.
  - destruct HD. split; rewrite ?Hn; done.
  - intros d x. rewrite vget_vset. case_decide; [by intros [= <-]|apply Hcr].
  - intros d Hd. destruct (Hdead d Hd) as ([] & [] & Hmc). by split_and!.
Qed.
End Handlers.
