(* ===== verification/HvLifecycle.v ===== *)
(** * The domain lifecycle — [hv-core/src/hypervisor.rs]

    Creation and destruction of domains: the teardown reclaims everything the target holds
    and everything that names it, and leaves a clean shell nothing refers to. *)

From Stdlib Require Import NArith Lia.
From stdpp Require Import base numbers list option.
From S2P Require Import Credit.
From S2P Require Import Device.
From S2P Require Import Sched.
From S2P Require Import Evtchn.
From S2P Require Import Grant.
From S2P Require Import P2m.
From S2P Require Import Hypervisor.
From S2P Require Import HvInvariant.
From S2P Require Import HvEvents.
From S2P Require Import HvMemory.
From S2P Require Import HvControl.
From S2P Require Import Prelude.
#[local] Open Scope N_scope.

(** ** Specification *)

(** The frames of the other domains keep their pins and their levels. *)
Definition others_drop (t : DomId) (p p' : P2m.System) : Prop := forall m x',
  P2m.owner_of p m <> Some t -> P2m.allocated p' m = Some x' ->
  exists x, P2m.allocated p m = Some x /\ P2m.pinned x' = P2m.pinned x /\
    P2m.pt_level x' = P2m.pt_level x.

(** The memory side of a teardown of [t]: what may still be there of [g] and [p]. *)
Record wiped (t : DomId) (g : Grant.System) (p : P2m.System) (g' : Grant.System)
    (p' : P2m.System) : Prop := mkWiped {
  wi_memory : Memory g' p';
  wi_shell : mem_shell g' p' t;
  wi_shape : Grant.same_shape g g';
  wi_slots : vlen (Grant.maps g') = vlen (Grant.maps g);
  wi_domains : P2m.num_domains p' = P2m.num_domains p;
  wi_frames : P2m.frame_count p' = P2m.frame_count p;
  wi_authority : forall d r, Grant.authority g' d r =
    if decide (d = t) then None else Grant.strip t (Grant.authority g d r);
  wi_maps : forall m, Grant.active m = true -> m ∈ Grant.maps g' <->
    m ∈ Grant.maps g /\ Grant.grantor m <> t /\ Grant.grantee m <> t;
  wi_owner : forall m, P2m.owner_of p' m =
    if decide (P2m.owner_of p m = Some t) then None else P2m.owner_of p m;
  wi_links : forall l, P2m.active l = true -> l ∈ P2m.links p' <->
    l ∈ P2m.links p /\ P2m.owner_of p (P2m.parent l) <> Some t /\
    P2m.owner_of p (P2m.child l) <> Some t;
  wi_marks : others_drop t p p';
}.

(** ** Lemmas *)

(** *** Reclaiming the foreign references *)

(** An intermediate state of the reclaim: the grants of [g] stand, some mappings and links
    are gone. *)
Record reclaimed (qm : Grant.Mapping -> bool) (ql : P2m.Link -> bool) (g : Grant.System)
    (p : P2m.System) (g' : Grant.System) (p' : P2m.System) : Prop := mkReclaimed {
  rc_memory : Memory g' p';
  rc_authority : Grant.same_authority g g';
  rc_slots : vlen (Grant.maps g') = vlen (Grant.maps g);
  rc_steady : P2m.steady p p';
  rc_maps : forall m, Grant.active m = true -> m ∈ Grant.maps g' <->
    m ∈ Grant.maps g /\ qm m = false;
  rc_links : forall l, P2m.active l = true -> l ∈ P2m.links p' <->
    l ∈ P2m.links p /\ ql l = false;
  rc_drops : P2m.drops p p';
}.

Lemma reclaimed_drained q us g g' p p' :
  Memory g p -> Grant.drained q us g g' -> P2m.Good (backing g') p' -> P2m.steady p p' ->
  P2m.drops p p' -> P2m.links p' = P2m.links p -> reclaimed q (fun _ => false) g p g' p'.
Proof.
  intros HM (HG' & Hsa & Hlen & _ & Hin) HP' Hst Hdr Hl. split; try done.
  - eapply Memory_fewer; try done. intros m Hm Ha. by apply Hin.
  - intros l _. rewrite Hl. tauto.
Qed.

Lemma reclaimed_swept sel g p p' :
  Memory g p -> P2m.swept (backing g) sel p p' -> reclaimed (fun _ => false) sel g p g p'.
Proof.
  intros HM (HP' & Hst & Hdr & Hin). split; try done.
  - eapply Memory_steady; [done|done|done|]. intros l Hl Ha. left. by apply Hin.
  - intros m _. tauto.
Qed.

Lemma reclaimed_trans q1 q2 l1 l2 g1 p1 g2 p2 g3 p3 :
  reclaimed q1 l1 g1 p1 g2 p2 -> reclaimed q2 l2 g2 p2 g3 p3 ->
  reclaimed (fun m => q1 m || q2 m) (fun l => l1 l || l2 l) g1 p1 g3 p3.
Proof.
  intros [HM1 Ha1 Hs1 Hst1 Hm1 Hl1 Hd1] [HM2 Ha2 Hs2 Hst2 Hm2 Hl2 Hd2]. split; try done.
  - by eapply Grant.same_authority_trans.
  - congruence.
  - by eapply P2m.steady_trans.
  - intros m Ha. rewrite Hm2, Hm1, orb_false_iff by done. tauto.
  - intros l Ha. rewrite Hl2, Hl1, orb_false_iff by done. tauto.
  - by eapply P2m.drops_trans.
Qed.

Lemma wp_drain_release t q (m : M Grant.System (list Grant.Unmapped)) s
    (Q : Hypervisor -> unit -> Prop) :
  Memory (grant s) (p2m s) ->
  wp m (fun g' us => Grant.drained q us (grant s) g') (grant s) ->
  (forall g' p', reclaimed q (fun _ => false) (grant s) (p2m s) g' p' ->
     Q (set_p2m p' (set_grant g' s)) t) ->
  wp (let! us := zoom grant_l m in for_each us release_unmapped) Q s.
Proof.
  intros HM Hm HQ. wp_step. wp_step. simpl. wp_apply Hm. intros g' us Hd.
  eapply (wp_release_all (backing g')).
  { simpl. rewrite <- (backing_drained _ _ _ _ Hd). apply HM. }
  simpl. intros p' HP' Hst Hdr Hl. destruct t. apply HQ. by eapply reclaimed_drained.
Qed.

(** Nothing foreign is left in the target's frames, so the assertion holds. *)
Lemma wp_reclaim_foreign t s (Q : Hypervisor -> unit -> Prop) :
  Memory (grant s) (p2m s) ->
  (forall g' p', reclaimed (Grant.foreign_on t) (P2m.foreign_into (p2m s) t)
     (grant s) (p2m s) g' p' -> Q (set_p2m p' (set_grant g' s)) tt) ->
  wp (reclaim_foreign t) Q s.
Proof.
  intros HM HQ. unfold reclaim_foreign. wp_step. wp_step. simpl.
  wp_apply Grant.wp_drain_foreign_maps_of; [apply HM|]. intros g1 us Hd. wp_step.
  eapply (wp_release_all (backing g1)).
  { simpl. rewrite <- (backing_drained _ _ _ _ Hd). apply HM. }
  simpl. intros p1 HP1 Hst1 Hd1 Hl1.
  pose proof (reclaimed_drained _ _ _ _ _ _ HM Hd HP1 Hst1 Hd1 Hl1) as R1.
  wp_step. wp_step. simpl. wp_apply P2m.wp_unlink_all_into; [done|]. intros p2 r Hsw.
  pose proof (reclaimed_swept _ _ _ _ (rc_memory _ _ _ _ _ _ R1) Hsw) as R2.
  pose proof (reclaimed_trans _ _ _ _ _ _ _ _ _ _ R1 R2) as R.
  assert (R' : reclaimed (Grant.foreign_on t) (P2m.foreign_into (p2m s) t)
    (grant s) (p2m s) g1 p2).
  { destruct R as [H1 H2 H3 H4 H5 H6 H7]. split; try done.
    - intros m Ha. rewrite H5 by done. by rewrite orb_false_r.
    - intros l Ha. rewrite H6 by done. simpl. unfold P2m.foreign_into.
      by rewrite !(P2m.st_owner _ _ Hst1). }
  wp_step. wp_step. apply wp_dbg_assert; [|by apply HQ]. simpl.
  apply andb_true_iff. rewrite !negb_true_iff. unfold Grant.has_foreign_map, P2m.has_foreign_link_into.
  rewrite !existsb_false. split.
  - intros m Hm. destruct (Grant.active m) eqn:Ha; [|done].
    apply (rc_maps _ _ _ _ _ _ R' m Ha) in Hm as [_ Hm]. unfold Grant.foreign_on in Hm.
    by rewrite Ha in Hm.
  - intros l Hl. destruct (P2m.active l) eqn:Ha; [|done].
    apply (rc_links _ _ _ _ _ _ R' l Ha) in Hl as [_ Hl]. unfold P2m.foreign_into in Hl.
    apply bool_decide_eq_false in Hl. rewrite !(P2m.st_owner _ _ (rc_steady _ _ _ _ _ _ R')).
    simpl. apply andb_false_iff.
    destruct (decide (P2m.owner_of (p2m s) (P2m.child l) = Some t)) as [E|E];
      [right|left]; apply bool_decide_eq_false; tauto.
Qed.

Lemma wp_release_own_maps t s (Q : Hypervisor -> unit -> Prop) :
  Memory (grant s) (p2m s) ->
  (forall g' p', reclaimed (Grant.held_by t) (fun _ => false) (grant s) (p2m s) g' p' ->
     Q (set_p2m p' (set_grant g' s)) tt) ->
  wp (release_own_maps t) Q s.
Proof.
  intros HM HQ. eapply wp_drain_release; [done| |done].
  apply Grant.wp_drain_maps_of, HM.
Qed.

(** *** Revoking what the target offers, and what was offered to it *)

(** Nothing is mapped from [t], by [t], or linked from outside into [t]'s frames. *)
Record unmapped_from (t : DomId) (g : Grant.System) (p : P2m.System) : Prop := mkUnmappedFrom {
  uf_maps : forall m, m ∈ Grant.maps g -> Grant.active m = true ->
    Grant.grantor m <> t /\ Grant.grantee m <> t;
  uf_links : forall l, l ∈ P2m.links p -> P2m.active l = true ->
    P2m.owner_of p (P2m.child l) = Some t -> P2m.owner_of p (P2m.parent l) = Some t;
}.

Lemma wp_revoke_offered t s (Q : Hypervisor -> unit -> Prop) :
  Memory (grant s) (p2m s) -> unmapped_from t (grant s) (p2m s) ->
  (forall g', Memory g' (p2m s) -> Grant.same_shape (grant s) g' ->
     Grant.maps g' = Grant.maps (grant s) ->
     (forall d r, Grant.authority g' d r = if decide (d = t) then None
        else Grant.authority (grant s) d r) ->
     Q (set_grant g' s) tt) ->
  wp (zoom grant_l (Grant.revoke_all t)) Q s.
Proof.
  intros HM [Hum Hul] HQ. wp_step. simpl. wp_apply Grant.wp_revoke_all; [apply HM| |].
  - intros g. apply count_zero. intros m Hm. apply not_true_iff_false.
    intros (Ha & Hd & _)%Grant.live_on_true. by destruct (Hum m Hm Ha).
  - intros g' [] (HG' & Hsh & Hm & Ha). apply HQ; [|done..].
    eapply Memory_authority; [done|done|done| |].
    + intros m Hin Hac. rewrite Ha. destruct (Hum m Hin Hac). by rewrite decide_False.
    + intros l co po r f ro Hin Hac Hc Hp Hne He ->. rewrite Ha. rewrite decide_False; [done|].
      intros ->. pose proof (Hul l Hin Hac Hc). congruence.
Qed.

Lemma wp_revoke_received t s (Q : Hypervisor -> unit -> Prop) :
  Memory (grant s) (p2m s) ->
  (forall m, m ∈ Grant.maps (grant s) -> Grant.active m = true -> Grant.grantee m <> t) ->
  (forall m, P2m.owner_of (p2m s) m <> Some t) ->
  (forall g', Memory g' (p2m s) -> Grant.same_shape (grant s) g' ->
     Grant.maps g' = Grant.maps (grant s) ->
     (forall d r, Grant.authority g' d r = Grant.strip t (Grant.authority (grant s) d r)) ->
     Q (set_grant g' s) tt) ->
  wp (zoom grant_l (Grant.revoke_grants_to t)) Q s.
Proof.
  intros HM Hum Hof HQ. wp_step. simpl. wp_apply Grant.wp_revoke_grants_to; [apply HM|done|].
  intros g' [] (HG' & Hsh & Hm & Ha). apply HQ; [|done..].
  eapply Memory_authority; [done|done|done| |].
  - intros m Hin Hac. rewrite Ha. apply Grant.strip_None.
    destruct (active_authority _ _ (mem_grant _ _ HM) Hin Hac) as (f & ro & He). rewrite He.
    simpl. intros [= Hg]. by apply (Hum m Hin Hac).
  - intros l co po r f ro Hin Hac Hc Hp Hne He ->. rewrite Ha, He. simpl.
    rewrite decide_False; [done|]. intros ->. by apply (Hof (P2m.parent l)).
Qed.

(** *** Freeing the target's frames *)

(** The three sweeps over the target's own page tables, pins and frames. *)
Lemma wp_free_memory {T} t s (Q : Hypervisor -> T -> Prop) (k : M Hypervisor T) :
  Memory (grant s) (p2m s) -> unmapped_from t (grant s) (p2m s) ->
  (forall p', Memory (grant s) p' -> P2m.num_domains p' = P2m.num_domains (p2m s) ->
     P2m.frame_count p' = P2m.frame_count (p2m s) ->
     (forall m, P2m.owner_of p' m =
        if decide (P2m.owner_of (p2m s) m = Some t) then None else P2m.owner_of (p2m s) m) ->
     (forall l, P2m.active l = true -> l ∈ P2m.links p' <-> l ∈ P2m.links (p2m s) /\
        P2m.owner_of (p2m s) (P2m.parent l) <> Some t) ->
     others_drop t (p2m s) p' -> wp k Q (set_p2m p' s)) ->
  wp (zoom p2m_l (P2m.unlink_all t) ;! zoom p2m_l (P2m.unpin_all t) ;!
      zoom p2m_l (P2m.free_all t) ;! k) Q s.
Proof.
  intros HM [Hum Hul] HQ. wp_step. wp_step. simpl.
  wp_apply P2m.wp_unlink_all; [apply HM|]. intros p1 [] (HP1 & Hst1 & Hd1 & Hl1).
  wp_step. wp_step. simpl. wp_apply P2m.wp_unpin_all; [done|].
  intros p2 [] (HP2 & Hst2 & Hl2 & Hk2 & Hpin).
  pose proof (P2m.steady_trans _ _ _ Hst1 Hst2) as Hst.
  assert (Hlk : forall l, P2m.active l = true -> l ∈ P2m.links p2 <->
    l ∈ P2m.links (p2m s) /\ P2m.owner_of (p2m s) (P2m.parent l) <> Some t).
  { intros l Ha. rewrite Hl2, Hl1 by done. unfold P2m.own_table. by rewrite bool_decide_eq_false. }
  wp_step. wp_step. simpl. wp_apply P2m.wp_free_all; [done| |].
  { intros m a Ha Ho. assert (Hom : P2m.owner_of p2 m = Some t)
      by (unfold P2m.owner_of; rewrite Ha; simpl; by rewrite Ho).
    eapply P2m.good_unreferenced; [exact HP2|done| | |].
    - intros l Hl Hac. apply Hlk in Hl as [Hl Hp]; [|done].
      split; intros E; subst m; rewrite (P2m.st_owner _ _ Hst) in Hom; [done|].
      by apply Hp, Hul.
    - rewrite (P2m.st_owner _ _ Hst2) in Hom. specialize (Hpin m Hom).
      unfold P2m.is_pinned in Hpin. by rewrite Ha in Hpin.
    - intros kd. assert (Hz : forall b, Grant.ext (grant s) b m = 0).
      { intros b. apply count_zero. intros x Hx. apply not_true_iff_false. unfold Grant.over.
        intros [[Hac _]%andb_true_iff Hf%N.eqb_eq]%andb_true_iff.
        destruct (Hum x Hx Hac) as [Hg _]. apply Hg.
        pose proof (mem_owned _ _ HM x Hx Hac) as Hox. rewrite Hf in Hox.
        rewrite (P2m.st_owner _ _ Hst) in Hom. congruence. }
      by destruct kd; simpl. }
  intros p3 [] (HP3 & Hn3 & Hf3 & Hl3 & Hal3).
  assert (Hown : forall m, P2m.owner_of p3 m =
    if decide (P2m.owner_of (p2m s) m = Some t) then None else P2m.owner_of (p2m s) m).
  { intros m. unfold P2m.owner_of at 1. rewrite Hal3. rewrite (P2m.st_owner _ _ Hst).
    case_decide; [done|]. by rewrite <- (P2m.st_owner _ _ Hst). }
  assert (Hlk3 : forall l, P2m.active l = true -> l ∈ P2m.links p3 <->
    l ∈ P2m.links (p2m s) /\ P2m.owner_of (p2m s) (P2m.parent l) <> Some t)
    by (intros l Ha; rewrite Hl3; by apply Hlk).
  apply (HQ p3); [|rewrite Hn3; apply Hst|rewrite Hf3; apply Hst|done|done|].
  2: { intros m x' Hne. rewrite Hal3. case_decide as Ho; [done|].
    rewrite (P2m.st_owner _ _ Hst2) in Ho. rewrite Hk2 by done. apply Hd1. }
  split; [apply HM|done| |].
  - intros m Hm Ha. rewrite Hown. pose proof (mem_owned _ _ HM m Hm Ha) as Ho.
    destruct (Hum m Hm Ha). rewrite decide_False; [done|]. congruence.
  - intros l co po Hl Ha. apply Hlk3 in Hl as [Hl Hp]; [|done]. rewrite !Hown.
    repeat case_decide; try done. by apply HM.
Qed.

(** All the memory steps of the teardown, in the order of the code. *)
Lemma wp_wipe_memory {T} t s (Q : Hypervisor -> T -> Prop) (k : M Hypervisor T) :
  Memory (grant s) (p2m s) ->
  (forall g' p', wiped t (grant s) (p2m s) g' p' -> wp k Q (set_p2m p' (set_grant g' s))) ->
  wp (reclaim_foreign t ;! release_own_maps t ;! zoom grant_l (Grant.revoke_all t) ;!
      zoom p2m_l (P2m.unlink_all t) ;! zoom p2m_l (P2m.unpin_all t) ;!
      zoom p2m_l (P2m.free_all t) ;! zoom grant_l (Grant.revoke_grants_to t) ;! k) Q s.
Proof.
  intros HM HQ. wp_step. apply wp_reclaim_foreign; [done|]. intros g1 p1 R1.
  wp_step. apply wp_release_own_maps; [apply R1|]. simpl. intros g2 p2 R2.
  pose proof (reclaimed_trans _ _ _ _ _ _ _ _ _ _ R1 R2) as [HM2 Ha2 Hs2 Hst2 Hm2 Hl2 Hd2].
  assert (Hmaps : forall m, Grant.active m = true -> m ∈ Grant.maps g2 <->
    m ∈ Grant.maps (grant s) /\ Grant.grantor m <> t /\ Grant.grantee m <> t).
  { intros m Ha. rewrite Hm2 by done. unfold Grant.foreign_on, Grant.held_by. rewrite Ha. simpl.
    destruct (N.eqb_spec (Grant.grantor m) t), (N.eqb_spec (Grant.grantee m) t); simpl;
      naive_solver. }
  assert (Huf : unmapped_from t g2 p2).
  { split.
    - intros m Hm Ha. by apply Hmaps in Hm as [_ ?].
    - intros l Hl Ha. rewrite !(P2m.st_owner _ _ Hst2). apply Hl2 in Hl as [_ Hl]; [|done].
      unfold P2m.foreign_into in Hl. rewrite orb_false_r in Hl. apply bool_decide_eq_false in Hl.
      intros Hc. destruct (decide (P2m.owner_of (p2m s) (P2m.parent l) = Some t)); tauto. }
  wp_step. apply wp_revoke_offered; [done|done|]. simpl. intros g3 HM3 Hsh3 Hm3 Ha3.
  apply wp_free_memory; simpl; [done|by split; [rewrite Hm3|]; apply Huf|].
  intros p4 HM4 Hn4 Hf4 Ho4 Hl4 Hd4.
  wp_step. apply wp_revoke_received; simpl; [done| | |].
  { rewrite Hm3. intros m Hm Ha. by apply Hmaps in Hm as (_ & _ & ?). }
  { intros m. rewrite Ho4. by case_decide. }
  intros g5 HM5 Hsh5 Hm5 Ha5.
  assert (Hau : forall d r, Grant.authority g5 d r =
    if decide (d = t) then None else Grant.strip t (Grant.authority (grant s) d r)).
  { intros d r. rewrite Ha5, Ha3. case_decide; [done|]. by rewrite (proj2 Ha2). }
  assert (Hown : forall m, P2m.owner_of p4 m =
    if decide (P2m.owner_of (p2m s) m = Some t) then None else P2m.owner_of (p2m s) m)
    by (intros m; by rewrite Ho4, !(P2m.st_owner _ _ Hst2)).
  apply (HQ g5 p4). split; try done.
  - split.
    + intros r. by rewrite Hau, decide_True.
    + rewrite Hm5, Hm3. intros m Hm Ha. by apply Hmaps in Hm as (_ & _ & ?).
    + intros m. rewrite Hown. by case_decide.
    + intros e r f ro. rewrite Hau. case_decide; [done|]. unfold Grant.strip.
      destruct (Grant.authority (grant s) e r) as [[[to f'] ro']|]; [|done].
      case_decide; [done|]. congruence.
  - eapply Grant.grant_same_shape_trans; [apply Ha2|]. by eapply Grant.grant_same_shape_trans.
  - congruence.
  - rewrite Hn4. apply Hst2.
  - rewrite Hf4. apply Hst2.
  - intros m Ha. rewrite Hm5, Hm3. by apply Hmaps.
  - intros l Ha. rewrite Hl4, Hl2 by done. rewrite !(P2m.st_owner _ _ Hst2).
    unfold P2m.foreign_into. rewrite orb_false_r, bool_decide_eq_false. tauto.
  - intros m x' Hne Hx. destruct (Hd4 m x') as (y & Hy & -> & ->);
      [by rewrite (P2m.st_owner _ _ Hst2)|done|]. by apply Hd2.
Qed.

(** *** Creation *)

Lemma wp_set_life_at s d l (Q : Hypervisor -> unit -> Prop) :
  Dims s -> d < domain_count s -> Q (set_life (vset (life s) d l) s) tt ->
  wp (set_life_at d l) Q s.
Proof.
  intros HD Hd HQ. unfold set_life_at. wp_step. apply wp_life_at; [done..|]. intros _ _. by wp_step.
Qed.

Lemma wp_set_may_create_at s d b (Q : Hypervisor -> unit -> Prop) :
  Dims s -> d < domain_count s -> Q (set_may_create (vset (may_create s) d b) s) tt ->
  wp (set_may_create_at d b) Q s.
Proof.
  intros HD Hd HQ. unfold set_may_create_at. wp_step. wp_step. wp_step. apply wp_index.
  destruct (vget_lt_Some (may_create s) d) as [x Hx]; [by rewrite (d_may s HD)|].
  exists x. split; [done|]. by wp_step.
Qed.

Lemma Dims_life s d l : Dims s -> Dims (set_life (vset (life s) d l) s).
Proof. intros []. split; simpl; rewrite ?vlen_vset; done. Qed.

Lemma Dims_may s d b : Dims s -> Dims (set_may_create (vset (may_create s) d b) s).
Proof. intros []. split; simpl; rewrite ?vlen_vset; done. Qed.

(** The state in which [t] was born under [caller]. *)
Definition born (caller t : DomId) (mc : bool) (s : Hypervisor) : Hypervisor :=
  set_controls (tset (controls s) caller t Root)
    (set_may_create (vset (may_create s) t mc) (set_life (vset (life s) t Live) s)).

Lemma HInv_born caller t mc s :
  HInv s -> vget (life s) caller = Some Live -> vget (life s) t = Some Dead ->
  HInv (born caller t mc s).
Proof.
  intros HI Hc Ht. pose proof HI as [HD Hcr HM HE Hdev HA Hdead].
  assert (Hno : forall h e, tget (controls s) h t = Some e -> e = Absent).
  { intros h e He. destruct (decide (e = Absent)) as [|Hne]; [done|].
    destruct (au_live _ _ HA h t e He Hne) as (_ & Hl & _). congruence. }
  assert (Hrow : exists e, tget (controls s) caller t = Some e).
  { apply cell_lookup; [done|..]; rewrite <- (d_life s HD); by eapply vget_Some_lt. }
  destruct Hrow as [e0 He0]. pose proof (tget_Some_lt _ _ _ _ He0) as [_ Hlt].
  assert (Hlv : forall d, vget (life s) d = Some Live ->
    vget (vset (life s) t Live) d = Some Live).
  { intros d Hd. rewrite vget_vset. by case_decide. }
  split; try done.
  - apply (Dims_controls (set_may_create (vset (may_create s) t mc)
      (set_life (vset (life s) t Live) s))).
    + by apply (Dims_may (set_life _ s)), Dims_life.
    + apply square_tset. by apply (Dims_square s).
  - simpl. split; intros h x e He Hne; rewrite tget_tset in He; case_decide as Hd.
    + destruct Hd as (-> & -> & _). split_and!; [by apply Hlv| |congruence].
      rewrite vget_vset, decide_True; [done|]. split; [done|]. by eapply vget_Some_lt.
    + destruct (au_live _ _ HA h x e He Hne) as (? & ? & ?). auto.
    + destruct Hd as (-> & -> & _). apply rooted_root. rewrite tget_tset.
      by rewrite decide_True.
    + pose proof (au_rooted _ _ HA h x e He Hne) as Hr.
      assert (Hx : x <> t) by (intros ->; apply Hne; by eapply Hno).
      clear -Hr Hx. induction Hr as [h Hr|h p Hv _ IH]; [apply rooted_root|eapply rooted_via; [|done] ];
        rewrite tget_tset_ne; try done; by intros [_ ?].
  - simpl. intros d Hd. rewrite vget_vset in Hd. case_decide as Hdt; [done|].
    destruct (Hdead d Hd) as ([] & [] & Hm). split_and!; [by split..|].
    rewrite vget_vset_ne; [done|]. intros ->. apply Hdt. split; [done|]. by eapply vget_Some_lt.
Qed.

(** A dead slot passes the assertion, so creation only stops at its guards. *)
Lemma wp_domain_create caller t mc s :
  HInv s -> vget (life s) caller = Some Live ->
  wp (domain_create caller t mc) (fun s' r =>
    kept s s' r /\
    match r with
    | Ok _ => vget (may_create s) caller = Some true /\ vget (life s) t = Some Dead /\
        s' = born caller t mc s
    | Err e => s' = s /\ ~ (vget (may_create s) caller = Some true /\ vget (life s) t = Some Dead)
    end) s.
Proof.
  intros HI Hc. pose proof (h_dims s HI) as HD. pose proof (caller_range s caller HI Hc) as Hcr.
  unfold domain_create. wp_step. wp_step. wp_step. wp_step.
  2: { split_and!; [by apply kept_refl|done|]. intros [_ Hd]. apply vget_Some_lt in Hd.
    by rewrite (d_life s HD) in Hd. }
  match goal with H : in_range _ _ |- _ => rename H into Ht end.
  wp_step. apply wp_index. destruct (vget_lt_Some (may_create s) caller) as [c Hmc];
    [by rewrite (d_may s HD)|]. exists c. split; [done|].
  wp_step. wp_step.
  2: { split_and!; [by apply kept_refl|done|]. intros [Hm' _]. congruence. }
  subst c.
  wp_step. apply wp_life_at; [done..|]. intros l Hl. wp_step. wp_step.
  2: { split_and!; [by apply kept_refl|done|]. intros [_ Hd]. congruence. }
  subst l.
  destruct (h_dead s HI t Hl) as (Hcl & Hun & _). wp_step. apply wp_dbg_assert.
  { apply andb_true_iff. split.
    - apply is_clean_shell_true; [apply HI..| |done]. eapply memory_frame_count, HI.
    - apply is_unreferenced_true; [apply HI..|done]. }
  wp_step. apply wp_set_life_at; [done..|]. pose proof (Dims_life s t Live HD) as HD1.
  wp_step. apply wp_set_may_create_at; [done..|]. pose proof (Dims_may _ t mc HD1) as HD2.
  wp_step. apply wp_set_cell; [done..|]. wp_step.
  change (kept s (born caller t mc s) (@Ok HvError HvOutcome ODone) /\
    vget (may_create s) caller = Some true /\ vget (life s) t = Some Dead /\
    born caller t mc s = born caller t mc s).
  split; [|done]. apply kept_grant; [|done]. by apply HInv_born.
Qed.

(** *** Clearing the row and the column of a domain *)

(** [c'] is [c] without the edges of and onto [t]. *)
Definition detached (t : DomId) (c c' : list (list Control)) : Prop :=
  forall h x e, tget c h x = Some e ->
    tget c' h x = Some (if decide (h = t \/ x = t) then Absent else e).

Lemma wp_clear_control t s (Q : Hypervisor -> unit -> Prop) :
  Dims s -> t < domain_count s ->
  (forall c, square (domain_count s) c -> detached t (controls s) c -> Q (set_controls c s) tt) ->
  wp (clear_control t) Q s.
Proof.
  intros HD Ht HQ. pose proof (Dims_square s HD) as Hsq. unfold clear_control. wp_step. wp_step.
  apply wp_for_each with (I := fun done s' => exists c, s' = set_controls c s /\
    square (domain_count s) c /\ forall h x e, tget (controls s) h x = Some e ->
      tget c h x = Some (if decide ((h = t /\ x ∈ done) \/ (x = t /\ h ∈ done))
        then Absent else e)).
  - exists (controls s). split_and!; [by destruct s|done|]. intros h x e He.
    rewrite decide_False; [done|]. by intros [[_ Hin]|[_ Hin] ]; apply elem_of_nil in Hin.
  - intros l1 y l2 s1 Hl (c & -> & Hsq1 & Hc).
    assert (Hy : y < domain_count s)
      by (apply elem_vrange; rewrite Hl; apply elem_of_app; right; by left).
    pose proof (Dims_controls s c HD Hsq1) as HD1. wp_step. apply wp_set_cell; [done..|].
    pose proof (Dims_controls s _ HD (square_tset _ _ y t Absent Hsq1)) as HD2.
    apply wp_set_cell; [done..|]. simpl. eexists. split_and!; [reflexivity| |].
    + by apply square_tset, square_tset.
    + intros h x e He. destruct (square_range _ _ _ _ _ Hsq He) as [Hh Hx].
      destruct Hsq1 as [_ Hw]. rewrite !tget_tset, twidth_tset, (Hc h x e He), !Hw by done.
      repeat case_decide; rewrite ?elem_of_snoc in *; try done; exfalso; naive_solver.
  - intros s1 (c & -> & Hsq1 & Hc). apply HQ; [done|]. intros h x e He.
    rewrite (Hc h x e He). f_equal. destruct (square_range _ _ _ _ _ Hsq He).
    repeat case_decide; rewrite ?elem_vrange in *; naive_solver.
Qed.

(** *** Destruction *)

(** What is left of a port when [t] is gone: a port of [t], or one that names it, is free. *)
Definition severed (t d : DomId) (c : Evtchn.EventChannel) : Evtchn.EventChannel :=
  if decide (d = t) then Evtchn.FREE
  else Evtchn.clear_unbound t (Evtchn.unlink_from t c).

(** The whole effect of a teardown of [t]. *)
Record destroyed (t : DomId) (s s' : Hypervisor) : Prop := mkDestroyed {
  de_credit : credit s' = credit s;
  de_life : life s' = vset (life s) t Dead;
  de_may : may_create s' = vset (may_create s) t false;
  de_ports : forall d p, Evtchn.chan_opt (evtchn s') d p =
    severed t d <$> Evtchn.chan_opt (evtchn s) d p;
  de_offline : exists now, forall v, Sched.vcpu_opt (sched s') t v =
    Sched.offlined now (Sched.full_affinity (sched s)) <$> Sched.vcpu_opt (sched s) t v;
  de_sched : forall d v, d <> t -> Sched.vcpu_opt (sched s') d v = Sched.vcpu_opt (sched s) d v;
  de_memory : wiped t (grant s) (p2m s) (grant s') (p2m s');
  de_devices : Device.device_count (device s') = Device.device_count (device s);
  de_device : forall dev, Device.holder_of (device s') dev =
    if decide (Device.holder_of (device s) dev = Some t) then None
    else Device.holder_of (device s) dev;
  de_controls : exists c, detached t (controls s) c /\ cascade c (controls s');
}.

Section Teardown.
Context (s : Hypervisor) (t : DomId) (HI : HInv s) (Ht : vget (life s) t = Some Live).

(** Closing every port of [t] and taking its vCPUs off keeps the invariant. *)
Lemma HInv_silenced e1 c1 :
  Evtchn.Inv e1 -> Evtchn.same_shape (evtchn s) e1 ->
  (forall p c, Evtchn.chan_opt e1 t p = Some c -> c = Evtchn.FREE) ->
  (forall d p, d <> t -> Evtchn.chan_opt e1 d p =
     Evtchn.unlink_from t <$> Evtchn.chan_opt (evtchn s) d p) ->
  Sched.Inv c1 -> Sched.same_shape (sched s) c1 ->
  (forall v st, Sched.state_of c1 t v = Some st -> st = Sched.Offline) ->
  (forall d v, d <> t -> Sched.vcpu_opt c1 d v = Sched.vcpu_opt (sched s) d v) ->
  HInv (set_sched c1 (set_evtchn e1 s)).
Proof.
  intros HE1 Hsh1 Hfree Hoth HS1 Hshc Hoff Hrun. pose proof (h_events s HI) as [HE0 HS0 Hw].
  assert (Hst : forall d v, d <> t -> Sched.state_of c1 d v = Sched.state_of (sched s) d v)
    by (intros; unfold Sched.state_of; by rewrite Hrun).
  assert (Hq : Evtchn.quieter (evtchn s) e1).
  { intros d p. destruct (decide (d = t)) as [->|Hne].
    - destruct (Evtchn.chan_opt e1 t p) as [c|] eqn:Hc.
      + right. exists c. split; [done|]. by rewrite (Hfree p c Hc).
      + left. symmetry. by apply (Evtchn.same_shape_chan _ _ t p Hsh1).
    - rewrite (Hoth d p Hne). destruct (Evtchn.chan_opt (evtchn s) d p) as [c|]; [|by left].
      simpl. unfold Evtchn.unlink_from. destruct (Evtchn.state c); try by left.
      case_decide; [right; by eexists|by left]. }
  apply HInv_events; [done| |done|done|].
  - split; [done..|]. intros d v Hd Hb. destruct (decide (d = t)) as [->|Hne].
    + by apply Hoff in Hb.
    + rewrite Hst in Hb by done. apply (Hw d v); [|done].
      by apply (Evtchn.quieter_has_deliverable _ e1).
  - intros d Hd [H1 H2] Hs. assert (Hne : d <> t) by congruence. split.
    + split.
      * intros p c. rewrite Hoth by done.
        destruct (Evtchn.chan_opt (evtchn s) d p) as [c0|] eqn:Hc0; [|done].
        intros [= <-]. unfold Evtchn.unlink_from. by rewrite (H1 p c0 Hc0), (H1 p c0 Hc0).
      * intros d' p. unfold Evtchn.state_of. destruct (decide (d' = t)) as [->|Hne'].
        -- destruct (Evtchn.chan_opt e1 t p) as [c|] eqn:Hc; [|done]. by rewrite (Hfree p c Hc).
        -- rewrite (Hoth d' p Hne'). specialize (H2 d' p). unfold Evtchn.state_of in H2.
           destruct (Evtchn.chan_opt (evtchn s) d' p) as [c|]; [|done]. simpl in *.
           unfold Evtchn.unlink_from. destruct (Evtchn.state c) eqn:Hc; try congruence.
           case_decide; simpl; congruence.
    + intros v st. rewrite Hst by done. apply Hs.
Qed.

Lemma HInv_wiped s1 g p :
  HInv s1 -> wiped t (grant s1) (p2m s1) g p -> HInv (set_p2m p (set_grant g s1)).
Proof.
  intros HI1 [HM Hsh Hshape _ Hdom _ Hau Hm Ho _ _].
  apply HInv_memory; [done|done|done|done|]. intros d Hd [H1 H2 H3 H4]. split.
  - intros r. rewrite Hau. case_decide; [done|]. by rewrite H1.
  - intros m Hin Ha. apply Hm in Hin as [Hin _]; [|done]. by apply H2.
  - intros m. rewrite Ho. case_decide; [done|apply H3].
  - intros e r f ro. rewrite Hau. case_decide; [done|]. specialize (H4 e r). unfold Grant.strip.
    destruct (Grant.authority (grant s1) e r) as [[[to f'] ro']|]; [|done].
    case_decide; [done|]. apply H4.
Qed.

Lemma HInv_unbound_cleared s2 e2 :
  HInv s2 -> Evtchn.Inv e2 -> Evtchn.same_shape (evtchn s2) e2 ->
  (forall d p, Evtchn.chan_opt e2 d p =
     Evtchn.clear_unbound t <$> Evtchn.chan_opt (evtchn s2) d p) ->
  HInv (set_evtchn e2 s2).
Proof.
  intros HI2 HE2 Hsh Hl.
  apply (HInv_quiet s2 e2 (fun d => vget (life s2) d <> Some Dead)); [done|done|].
  split_and!; [done|done| |].
  - intros d p. rewrite Hl. destruct (Evtchn.chan_opt (evtchn s2) d p) as [c|]; [|by left].
    simpl. unfold Evtchn.clear_unbound. case_decide; [right; by eexists|by left].
  - intros d _ [H1 H2]. split.
    + intros p c. rewrite Hl. destruct (Evtchn.chan_opt (evtchn s2) d p) as [c0|] eqn:Hc; [|done].
      intros [= <-]. unfold Evtchn.clear_unbound. case_decide; [done|]. by apply (H1 p).
    + intros d' p. specialize (H2 d' p). unfold Evtchn.state_of in *. rewrite Hl.
      destruct (Evtchn.chan_opt (evtchn s2) d' p) as [c|]; [|done]. simpl in *.
      unfold Evtchn.clear_unbound. by case_decide.
Qed.

Lemma HInv_buried s4 c :
  HInv s4 -> Clean s4 t -> Unreferenced s4 t -> vget (life s4) t = Some Live ->
  square (domain_count s4) c -> Authority (vset (life s4) t Dead) c ->
  HInv (set_controls c (set_may_create (vset (may_create s4) t false)
    (set_life (vset (life s4) t Dead) s4))).
Proof.
  intros [HD Hcr HM HE Hdev HA Hdead] Hcl Hun Hl Hsq HA'.
  split; simpl; try done.
  - by apply (Dims_controls (set_may_create _ _)), Hsq;
      apply (Dims_may (set_life _ s4)), Dims_life.
  - intros d Hd. rewrite vget_vset in Hd. case_decide as Hdt.
    + destruct Hdt as [<- Hlt]. destruct Hcl, Hun. split_and!; [by split..|].
      rewrite vget_vset, decide_True; [done|]. split; [done|].
      rewrite (d_may s4 HD). by rewrite <- (d_life s4 HD).
    + destruct (Hdead d Hd) as ([] & [] & Hm). split_and!; [by split..|].
      rewrite vget_vset_ne; [done|]. intros ->. congruence.
Qed.

(** The edges left without [t], as far as they were edges before. *)
Lemma detached_live c h x e :
  square (domain_count s) c -> detached t (controls s) c -> tget c h x = Some e -> e <> Absent ->
  tget (controls s) h x = Some e /\ h <> t /\ x <> t.
Proof.
  intros Hsq Hc He Hne. destruct (square_range _ _ _ _ _ Hsq He) as [Hh Hx].
  destruct (square_lookup _ _ _ _ (Dims_square s (h_dims s HI)) Hh Hx) as [e0 He0].
  rewrite (Hc h x e0 He0) in He. case_decide as Hd; [congruence|]. injection He as ->.
  split; [done|]. tauto.
Qed.
End Teardown.

(** The end of the teardown: the slot is dead, no edge names it, and what hung below it is
    gone. The last assertion holds. *)
Lemma wp_bury s t (Q : Hypervisor -> result HvError HvOutcome -> Prop) :
  HInv s -> vget (life s) t = Some Live -> Clean s t -> Unreferenced s t ->
  (forall c c', detached t (controls s) c -> cascade c c' ->
    let s' := set_controls c' (set_may_create (vset (may_create s) t false)
      (set_life (vset (life s) t Dead) s)) in
    HInv s' -> Q s' (Ok ODone)) ->
  wp (set_life_at t Dead ;! set_may_create_at t false ;! clear_control t ;!
      sweep_orphaned_control_edges ;!
      let! s := get in dbg_assert (is_clean_shell s t) ;! ok ODone) Q s.
Proof.
  intros HI Hl Hcl Hun HQ. pose proof (h_dims s HI) as HD. pose proof (h_authority s HI) as HA.
  assert (Ht : t < domain_count s) by (rewrite <- (d_life s HD); by eapply vget_Some_lt).
  wp_step. apply wp_set_life_at; [done..|]. pose proof (Dims_life s t Dead HD) as HD1.
  wp_step. apply wp_set_may_create_at; [done..|]. pose proof (Dims_may _ t false HD1) as HD2.
  set (s2 := set_may_create _ _) in *.
  wp_step. apply wp_clear_control; [done..|]. intros c Hsq Hdet.
  pose proof (Dims_controls s2 c HD2 Hsq) as HD3.
  assert (Hedge : forall h x e, tget c h x = Some e -> e <> Absent ->
    tget (controls s) h x = Some e /\ h <> t /\ x <> t)
    by (intros; by apply (detached_live s t HI c)).
  wp_step. apply (wp_sweep (set_controls c s2) (controls s)); [done|exact (Dims_square s HD)| |].
  { intros h x e He Hne. destruct (Hedge h x e He Hne) as (He0 & _). split; [done|].
    by eapply (au_rooted _ _ HA). }
  intros c' Hsq' Hcas. change (set_controls c' (set_controls c s2)) with (set_controls c' s2).
  assert (HI' : HInv (set_controls c' s2)).
  { apply (HInv_buried s); [done..|]. eapply cascade_Authority; [| |exact Hcas].
    - intros h x e He Hne. destruct (Hedge h x e He Hne) as (He0 & Hh & Hx).
      rewrite !vget_vset_ne by done. by eapply (au_live _ _ HA).
    - by apply (below_dom (domain_count s)). }
  wp_step. wp_step. wp_step. apply wp_dbg_assert.
  - apply is_clean_shell_true; [apply HI..| |by destruct Hcl].
    eapply (memory_frame_count (grant s)), HI.
  - wp_step. by apply (HQ c c').
Qed.

Lemma wp_domain_destroy caller t now s :
  HInv s -> vget (life s) caller = Some Live ->
  wp (domain_destroy caller t now) (fun s' r =>
    kept s s' r /\
    match r with
    | Ok _ => (caller = t \/ has_control s caller t = true) /\ vget (life s) t = Some Live /\
        destroyed t s s' /\ Clean s' t /\ Unreferenced s' t
    | Err e => s' = s /\ ~ (caller = t \/ has_control s caller t = true)
    end) s.
Proof.
  intros HI Hcaller. pose proof (h_dims s HI) as HD.
  unfold domain_destroy. wp_step. wp_step. wp_step. wp_step.
  2: { split_and!; [by apply kept_refl|done|].
    pose proof (caller_range s caller HI Hcaller) as Hc.
    intros [->|Hh]; [match goal with H : ~ _ |- _ => by apply H end|].
    unfold has_control, control_edge in Hh. apply bool_decide_eq_true in Hh.
    destruct (tget (controls s) caller t) as [e|] eqn:He; [|done].
    destruct (in_range_cell s caller t e HD He). match goal with H : ~ _ |- _ => by apply H end. }
  match goal with H : in_range _ _ /\ in_range _ _ |- _ => destruct H as [Hc Ht] end.
  wp_step. apply wp_require_control; [done|done|done| |].
  2: { intros Hne Hno e. split_and!; [by apply kept_refl|done|]. rewrite Hno. by intros [?|?]. }
  intros Hor. assert (Hl : vget (life s) t = Some Live) by (by destruct Hor as [<-|[? _] ]).
  assert (Hauth : caller = t \/ has_control s caller t = true) by tauto. clear Hor.
  wp_step. apply wp_life_at; [done..|]. intros l Hl'. rewrite Hl in Hl'. injection Hl' as <-.
  wp_step. apply wp_dbg_assert; [done|].
  wp_step. wp_step. simpl. wp_apply Evtchn.wp_close_all; [apply HI|].
  intros e1 [] (HE1 & Hsh1 & Hfree & Hoth).
  wp_step. wp_step. simpl. wp_apply Sched.wp_offline_all; [apply HI|].
  intros c1 [] (HS1 & Hshc & Hoffd & Hrun).
  assert (Hoff : forall v st, Sched.state_of c1 t v = Some st -> st = Sched.Offline).
  { intros v st. unfold Sched.state_of. rewrite Hoffd.
    destruct (Sched.vcpu_opt (sched s) t v); [|done]. intros [= <-]. apply Sched.offlined_state. }
  pose proof (HInv_silenced s t HI Hl e1 c1 HE1 Hsh1 Hfree Hoth HS1 Hshc Hoff Hrun) as HIa.
  apply wp_wipe_memory; [apply HI|]. simpl. intros g p HW.
  pose proof (HInv_wiped t _ g p HIa HW) as HIb.
  wp_step. wp_step. simpl. wp_apply Evtchn.wp_clear_unbound_into; [done|].
  intros e2 [] (HE2 & Hsh2 & Hl2).
  pose proof (HInv_unbound_cleared t _ e2 HIb HE2 Hsh2 Hl2) as HIc.
  wp_step. wp_step. simpl. wp_apply Device.wp_release_all_of.
  intros dv [] (Hdn & Hdc & Hdh). set (sc := set_evtchn e2 _) in HIc.
  assert (HId : HInv (set_device dv sc)).
  { apply HInv_device; [done| |done|].
    - intros dev h. rewrite Hdh, Hdn. case_decide; [done|]. apply (h_device s HI).
    - intros d _ Hno dev. rewrite Hdh. case_decide; [done|apply Hno]. }
  assert (Hports : forall d q, Evtchn.chan_opt e2 d q =
    severed t d <$> Evtchn.chan_opt (evtchn s) d q).
  { intros d q. rewrite Hl2. unfold severed. case_decide as Hd; [subst d|].
    - pose proof (Evtchn.same_shape_chan _ _ t q Hsh1) as Hs.
      destruct (Evtchn.chan_opt e1 t q) as [x|] eqn:Hx.
      + rewrite (Hfree q x Hx). destruct (Evtchn.chan_opt (evtchn s) t q); [done|].
        by destruct (proj2 Hs eq_refl).
      + by rewrite (proj1 Hs eq_refl).
    - rewrite Hoth by done. by destruct (Evtchn.chan_opt (evtchn s) d q). }
  set (sd := set_device dv sc) in *.
  assert (Hoff' : forall v st, Sched.state_of (sched sd) t v = Some st -> st = Sched.Offline)
    by done.
  assert (Hcl : Clean sd t).
  { destruct (wi_shell _ _ _ _ _ HW) as [H1 H2 H3 H4]. split; try done.
    intros q x. simpl. rewrite Hports.
    destruct (Evtchn.chan_opt (evtchn s) t q); [|done]. simpl. intros [= <-].
    unfold severed. by rewrite decide_True. }
  assert (Hun : Unreferenced sd t).
  { split.
    - apply (wi_shell _ _ _ _ _ HW).
    - intros d q. unfold Evtchn.state_of. simpl. rewrite Hl2.
      destruct (Evtchn.chan_opt e1 d q) as [x|]; [|done]. simpl.
      unfold Evtchn.clear_unbound. case_decide; [done|]. congruence.
    - intros dev. simpl. rewrite Hdh. by case_decide. }
  apply wp_bury; [done..|]. intros c c' Hdet Hcas s' HI'. split.
  - split; [done|]. simpl. rewrite (wi_slots _ _ _ _ _ HW). simpl. lia.
  - split_and!; [done|done| | |].
    + split; try done; [by exists now|by exists c].
    + by destruct Hcl.
    + by destruct Hun.
Qed.
