(* ===== verification/HvSafety.v ===== *)
(** * The whole surface — [hv-core/src/hypervisor.rs]

    Every transition from a state that satisfies the joint invariant ends without a panic in
    such a state, and a rejected one has no visible effect; the same for runs from boot. *)

From Stdlib Require Import NArith Lia.
From stdpp Require Import base numbers list option.
From S2P Require Import Credit.
From S2P Require Import Device.
From S2P Require Import Sched.
From S2P Require Import Evtchn.
From S2P Require Import Grant.
From S2P Require Import P2m.
From S2P Require Import Hypervisor.
From S2P Require Import HvInvariant.
From S2P Require Import HvEvents.
From S2P Require Import HvMemory.
From S2P Require Import HvControl.
From S2P Require Import HvLifecycle.
From S2P Require Import Prelude.
#[local] Open Scope N_scope.

(** ** Definitions *)

(** A run: the transitions in order, whatever each one answers. *)
Fixpoint run (ts : list Transition) : M Hypervisor (list (result HvError TransitionOutcome)) :=
  match ts with
  | [] => ret []
  | t :: ts => let! r := apply t in let! rs := run ts in ret (r :: rs)
  end.

(** ** Lemmas *)

Section Surface.
Context (s : Hypervisor) (caller : DomId).
Context (HI : HInv s) (Hcaller : vget (life s) caller = Some Live).
Context (Hcap : vlen (Grant.maps (grant s)) <= u32_max).

Lemma live_grantor r : vget (life s) r <> Some Dead -> r < domain_count s ->
  vget (life s) r = Some Live.
Proof.
  intros Hr Hlt. destruct (vget_lt_Some (life s) r) as [l Hl];
    [by rewrite (d_life s (h_dims s HI))|]. destruct l; congruence.
Qed.

Lemma kept_evtchn_alloc r :
  wp (reject_dead_target r ;? call evtchn_l (Evtchn.alloc_unbound caller r) OPort EEvtchn)
    (kept s) s.
Proof.
  wp_step. apply wp_reject_dead_target; [done| |intros; by apply kept_refl]. intros Hr.
  apply wp_call. simpl. wp_apply Evtchn.wp_alloc_unbound; [apply HI|].
  intros e' [p|err]; simpl; [|intros ->; rewrite HInv_refl_set_evtchn; by apply kept_refl].
  intros (_ & Hc & Hst). apply kept_grant; [|done].
  apply (HInv_quiet s e' (fun d => vget (life s) d <> Some Dead)); [done|done|].
  eapply ev_step_quiet; [done|done|done|congruence|right]. by intros r' [= <-].
Qed.

Lemma kept_checked_bind v m fo :
  wp m (fun e' (r : result Evtchn.EvtchnError Port) => match r with
    | Ok _ => ev_quiet (fun d => vget (life s) d = Some Live) (evtchn s) e'
    | Err _ => e' = evtchn s
    end) (evtchn s) ->
  wp (check_bind_vcpu caller v ;? call evtchn_l m fo EEvtchn) (kept s) s.
Proof.
  intros Hm. wp_step. unfold check_bind_vcpu. wp_step. wp_step. wp_step.
  - by apply kept_quiet.
  - by apply kept_refl.
Qed.

Lemma kept_handle c : wp (handle caller c) (kept s) s.
Proof.
  pose proof (ev_evtchn _ _ (h_events s HI)) as HE. destruct c; simpl.
  - apply kept_credit_call; [done..|]. intros. by apply Credit.wp_grant_credit.
  - apply kept_credit_call; [done..|]. intros. by apply Credit.wp_spend_credit.
  - apply kept_evtchn_alloc.
  - apply kept_quiet; [done|]. by apply quiet_bind_interdomain.
  - apply kept_checked_bind. by apply quiet_bind_virq.
  - apply kept_checked_bind. by apply quiet_bind_ipi.
  - apply kept_quiet; [done|]. by apply quiet_close.
  - by apply kept_evtchn_send.
  - apply kept_quiet; [done|]. by apply quiet_mask.
  - by apply kept_evtchn_unmask.
  - apply kept_quiet; [done|]. by apply quiet_consume.
  - by apply kept_grant_access.
  - by apply kept_grant_end_access.
  - by apply kept_grant_map.
  - by apply kept_grant_unmap.
  - by apply kept_grant_copy.
  - by apply kept_sched_admit.
  - by apply kept_sched_run.
  - by apply kept_sched_preempt.
  - by apply kept_sched_block.
  - by apply kept_sched_wake.
  - by apply kept_sched_offline.
  - by apply kept_sched_set_affinity.
  - by apply kept_p2m_allocate.
  - by apply kept_p2m_free.
  - by apply kept_p2m_pin.
  - by apply kept_p2m_unpin.
  - by apply kept_p2m_link.
  - by apply kept_p2m_unlink.
  - wp_apply wp_domain_create; [done..|]. tauto.
  - wp_apply wp_domain_destroy; [done..|]. tauto.
  - wp_apply wp_control_grant; [done..|]. tauto.
  - wp_apply wp_control_revoke; [done..|]. tauto.
  - by apply kept_device_assign.
  - by apply kept_device_release.
Qed.
End Surface.

(** The gate: a dead or unknown caller reaches no handler. *)
Lemma wp_route s caller c :
  HInv s -> vlen (Grant.maps (grant s)) <= u32_max ->
  wp (route caller c) (fun s' r => kept s s' r /\
    (vget (life s) caller <> Some Live -> s' = s /\ (r = Err BadDomain \/ r = Err NotAlive))) s.
Proof.
  intros HI Hcap. pose proof (h_dims s HI) as HD. unfold route. wp_step. wp_step. wp_step. wp_step.
  - wp_step. apply wp_life_at; [done..|]. intros l Hl. wp_step. wp_step.
    + subst l. wp_apply kept_handle; [done..|]. by intros s' r Hk.
    + split; [by apply kept_refl|auto].
  - split; [by apply kept_refl|auto].
Qed.

Lemma wp_dispatch s caller c :
  HInv s -> vlen (Grant.maps (grant s)) <= u32_max ->
  wp (dispatch caller c) (fun s' r => kept s s' r /\
    (vget (life s) caller <> Some Live -> s' = s /\ (r = Err BadDomain \/ r = Err NotAlive))) s.
Proof.
  intros HI Hcap. unfold dispatch. wp_step. wp_apply wp_route; [done..|].
  intros s' r [Hk Hd]. wp_step. apply wp_check_cross; [apply Hk|]. wp_step. done.
Qed.

Lemma kept_map_ok {E T U} (f : T -> U) s s' (r : result E T) :
  kept s s' r -> kept s s' (map_ok f r).
Proof. by destruct r. Qed.

Lemma wp_apply_transition s t :
  HInv s -> vlen (Grant.maps (grant s)) <= u32_max -> wp (apply t) (kept s) s.
Proof.
  intros HI Hcap. destruct t as [caller c|d v q]; simpl; wp_step.
  - wp_apply wp_dispatch; [done..|]. intros s' r [Hk _]. wp_step. by apply kept_map_ok.
  - wp_apply kept_raise_vcpu_virq; [done..|]. intros s' r Hk. wp_step. by apply kept_map_ok.
Qed.

(** A run of [k] transitions adds at most [k] mapping slots. *)
Lemma wp_run_transitions s ts :
  HInv s -> vlen (Grant.maps (grant s)) + vlen ts <= u32_max + 1 ->
  wp (run ts) (fun s' rs => HInv s' /\ vlen rs = vlen ts /\
    vlen (Grant.maps (grant s')) <= vlen (Grant.maps (grant s)) + vlen ts) s.
Proof.
  revert s. induction ts as [|t ts IH]; intros s HI Hcap; simpl.
  - wp_step. split_and!; [done|done|lia].
  - assert (Hlen : vlen (t :: ts) = vlen ts + 1) by (unfold vlen; simpl; lia).
    wp_step. wp_apply wp_apply_transition; [done|lia|]. intros s1 r (HI1 & Hs1 & _).
    wp_step. wp_apply IH; [done|lia|]. intros s2 rs (HI2 & Hrs & Hs2). wp_step.
    split_and!; [done| |lia]. unfold vlen in *. simpl. lia.
Qed.

(** *** Reachable states *)

(** Table sizes the identifiers of the source can index. *)
Definition sizes_ok (n ports grants vcpus pcpus frames : N) : Prop :=
  n <= u16_max /\ ports <= u32_max /\ grants <= u32_max /\ vcpus <= u32_max /\
  pcpus <= u32_max /\ frames <= u32_max.

(** The states the machine can be in after [k] transitions from boot. *)
Inductive reachable : N -> Hypervisor -> Prop :=
| reach_boot n ports grants vcpus pcpus frames devices :
    sizes_ok n ports grants vcpus pcpus frames ->
    reachable 0 (new n ports grants vcpus pcpus frames devices)
| reach_step k s t s' r :
    reachable k s -> k <= u32_max -> apply t s = Done s' r -> reachable (k + 1) s'.

Lemma reachable_HInv k s :
  reachable k s -> HInv s /\ vlen (Grant.maps (grant s)) <= k.
Proof.
  induction 1 as [n ports grants vcpus pcpus frames devices (?&?&?&?&?&?)|k s t s' r _ [HI Hm] Hk E].
  - split; [by apply hv_new_HInv|done].
  - pose proof (wp_apply_transition s t HI ltac:(lia)) as H. unfold wp in H. rewrite E in H.
    destruct H as (HI' & Hm' & _). split; [done|lia].
Qed.

Lemma reachable_run k s ts :
  reachable k s -> k + vlen ts <= u32_max + 1 ->
  exists s' rs, run ts s = Done s' rs /\ vlen rs = vlen ts /\ reachable (k + vlen ts) s'.
Proof.
  revert k s. induction ts as [|t ts IH]; intros k s HR Hk.
  - exists s, []. split_and!; [done|done|]. replace (k + vlen []) with k by (unfold vlen; simpl; lia). done.
  - assert (Hlen : vlen (t :: ts) = 1 + vlen ts) by (unfold vlen; simpl; lia).
    destruct (reachable_HInv k s HR) as [HI Hm].
    destruct (wp_Done _ _ _ (wp_apply_transition s t HI ltac:(lia))) as (s1 & r & E & _).
    pose proof (reach_step k s t s1 r HR ltac:(lia) E) as HR1.
    destruct (IH (k + 1) s1 HR1 ltac:(lia)) as (s2 & rs & E2 & Hrs & HR2).
    exists s2, (r :: rs). split_and!.
    + simpl. unfold bind. by rewrite E, E2.
    + unfold vlen in *. simpl. lia.
    + by rewrite Hlen, N.add_assoc.
Qed.

(** *** Access *)

(** What domain [d] can reach at frame [f], for writing when [w]: through an entry of one
    of its page tables, or through a grant map it holds. *)
Inductive access (s : Hypervisor) (d : DomId) (w : bool) (f : Mfn) : Prop :=
| access_entry l : l ∈ P2m.links (p2m s) -> P2m.active l = true ->
    P2m.owner_of (p2m s) (P2m.parent l) = Some d -> P2m.child l = f ->
    (w = true -> P2m.leaf l = true /\ P2m.writable l = true) -> access s d w f
| access_map m : m ∈ Grant.maps (grant s) -> Grant.active m = true -> Grant.grantee m = d ->
    Grant.frame_of (grant s) m = f -> (w = true -> Grant.writable m = true) -> access s d w f.

Lemma access_owned s d w f :
  HInv s -> access s d w f -> exists o, P2m.owner_of (p2m s) f = Some o.
Proof.
  intros HI Ha. pose proof (h_memory s HI) as HM. destruct Ha as [l Hl Ha _ <- _|m Hm Ha _ <- _].
  - destruct (P2m.good_link _ _ _ (mem_p2m _ _ HM) Hl Ha) as (p & c & _ & _ & Hc & _).
    unfold P2m.owner_of. rewrite Hc. by eexists.
  - eexists. by apply (mem_owned _ _ HM).
Qed.

(** Access to another domain's frame stands on its owner's grant. *)
Lemma access_granted s d w f o :
  HInv s -> access s d w f -> P2m.owner_of (p2m s) f = Some o -> o <> d ->
  exists g ro, Grant.authority (grant s) o g = Some (d, f, ro) /\ (w = true -> ro = false).
Proof.
  intros HI Ha Ho Hne. pose proof (h_memory s HI) as HM.
  destruct Ha as [l Hl Ha Hp <- Hw|m Hm Ha <- <- Hw].
  - pose proof (mem_links _ _ HM l o d Hl Ha Ho Hp Hne) as Hau.
    apply Grant.authorizes_spec in Hau as (g & ro & Hg & Hro). exists g, ro. split; [done|].
    intros ->. by apply Hro, Hw.
  - pose proof (mem_owned _ _ HM m Hm Ha) as Hown. rewrite Ho in Hown. injection Hown as ->.
    destruct (mem_grant _ _ HM) as [HW _].
    destruct (Grant.inv_backed _ HW m Hm Ha) as (f & ro & n & k & Ht & Hro).
    exists (Grant.gref m), ro. split.
    + unfold Grant.authority. rewrite Ht. f_equal. f_equal. f_equal. unfold Grant.frame_of.
      rewrite Grant.granted_frame_authority. unfold Grant.authority. by rewrite Ht.
    + intros ->. by apply Hro, Hw.
Qed.

(** Writable access, an entry that executes, a table and a pin exclude one another. *)
Lemma access_uses s d f :
  HInv s -> access s d true f ->
  0 < P2m.counted (p2m s) P2m.KWrite f.
Proof.
  intros HI Ha. pose proof (mem_p2m _ _ (h_memory s HI)) as HP.
  apply (P2m.used_counted _ _ _ _ HP).
  destruct Ha as [l Hl Ha _ <- Hw|m Hm Ha _ <- Hw].
  - destruct (Hw eq_refl) as [H1 H2].
    replace P2m.KWrite with (P2m.link_kind l) by (unfold P2m.link_kind; by rewrite H1, H2).
    by apply P2m.use_entry.
  - apply P2m.use_outside. simpl. apply ext_pos. exists m. split; [done|]. unfold Grant.over.
    by rewrite Ha, (Hw eq_refl), N.eqb_refl.
Qed.

(** What a teardown leaves of the accesses. *)
Lemma access_destroyed t s s' d w f :
  HInv s -> destroyed t s s' ->
  access s' d w f <-> access s d w f /\ d <> t /\ P2m.owner_of (p2m s) f <> Some t.
Proof.
  intros HI HD. pose proof (h_memory s HI) as HM. pose proof (de_memory t s s' HD) as HW.
  assert (Hfr : forall m, m ∈ Grant.maps (grant s) -> Grant.active m = true ->
    Grant.grantor m <> t -> Grant.grantee m <> t ->
    Grant.frame_of (grant s') m = Grant.frame_of (grant s) m).
  { intros m Hm Ha H1 H2. rewrite !frame_of_authority, (wi_authority _ _ _ _ _ HW).
    rewrite decide_False by done. rewrite Grant.strip_None; [done|].
    destruct (active_authority _ _ (mem_grant _ _ HM) Hm Ha) as (fr & ro & ->). simpl. congruence. }
  split.
  - intros [l Hl Ha Hp <- Hw|m Hm Ha <- <- Hw].
    + apply (wi_links _ _ _ _ _ HW l Ha) in Hl as (Hl & Hpt & Hct).
      rewrite (wi_owner _ _ _ _ _ HW) in Hp. rewrite decide_False in Hp by done.
      split_and!; [by eapply access_entry|congruence|done].
    + apply (wi_maps _ _ _ _ _ HW m Ha) in Hm as (Hm & H1 & H2).
      rewrite (Hfr m Hm Ha H1 H2). split_and!; [by eapply access_map|done|].
      rewrite (mem_owned _ _ HM m Hm Ha). congruence.
  - intros (Hacc & Hd & Hf). destruct Hacc as [l Hl Ha Hp <- Hw|m Hm Ha <- <- Hw].
    + apply (access_entry s' d w _ l); [apply (wi_links _ _ _ _ _ HW l Ha)|done| |done|done].
      * split_and!; [done|congruence|done].
      * rewrite (wi_owner _ _ _ _ _ HW), decide_False; [done|congruence].
    + rewrite (mem_owned _ _ HM m Hm Ha) in Hf.
      apply (access_map s' _ w _ m); [apply (wi_maps _ _ _ _ _ HW m Ha)|done|done| |done].
      * split_and!; [done|congruence|done].
      * apply Hfr; [done|done|congruence|done].
Qed.
