(* ===== verification/HvTheorems.v ===== *)
(** * What the hypervisor core guarantees — [hv-core/src/hypervisor.rs]

    The properties of the whole transition relation, from boot: no transition panics, the
    invariant of every subsystem and the joint one hold for ever, memory is isolated, no
    event is lost, the lifecycle leaves nothing behind, and authority has a provenance. *)

From Stdlib Require Import NArith Lia.
From stdpp Require Import base numbers list option.
From S2P Require Import Credit.
From S2P Require Import Device.
From S2P Require Import Sched.
From S2P Require Import Evtchn.
From S2P Require Import Grant.
From S2P Require Import P2m.
From S2P Require Import Hypervisor.
From S2P Require Import HvInvariant.
From S2P Require Import HvEvents.
From S2P Require Import HvMemory.
From S2P Require Import HvControl.
From S2P Require Import HvLifecycle.
From S2P Require Import HvSafety.
From S2P Require Import Prelude.
#[local] Open Scope N_scope.

(** ** A small machine, for the witnesses

    Domain 0 creates domains 1 and 2; domain 1 offers one of its frames to domain 0, which
    maps it writable; domain 0 hands its control over domain 1 to domain 2. *)

Definition demo_boot : Hypervisor := new 3 4 4 2 1 8 1.
Definition demo_trace : list Transition :=
  [Guest 0 (DomainCreate 1 false); Guest 0 (DomainCreate 2 false);
   Guest 1 (P2mAllocate 2); Guest 1 (GrantAccess 0 0 2 false);
   Guest 0 (GrantMap 1 0 true); Guest 0 (ControlGrant 1 2);
   Guest 1 (SchedAdmit 0); Guest 1 (EvtchnBindVirq 0 5); Guest 1 (SchedBlock 0 3)].
Definition demo : Hypervisor :=
  match run demo_trace demo_boot with Done s _ => s | Panic => demo_boot end.

Lemma demo_reachable : reachable 9 demo.
Proof.
  assert (HB : reachable 0 demo_boot)
    by (apply reach_boot; repeat split; vm_compute; discriminate).
  destruct (reachable_run 0 demo_boot demo_trace HB) as (s & rs & E & _ & HR);
    [vm_compute; discriminate|].
  unfold demo. rewrite E. exact HR.
Qed.

Lemma demo_HInv : HInv demo.
Proof. exact (proj1 (reachable_HInv 9 demo demo_reachable)). Qed.

(** ** Safety of the whole *)

(** C1: no sequence of hypercalls and virtual interrupts can crash the hypervisor: from boot,
    any transitions by any callers, with any arguments and in any order, run to their end —
    no debug assertion, unwrap, index or unchecked addition of the core fails and every loop
    ends — each gets an answer, and at the end every runtime check passes: those of the five
    subsystems, of every credit account, and the check across them. *)
Theorem run_never_panics (n ports grants vcpus pcpus frames devices : N) (ts : list Transition) :
  sizes_ok n ports grants vcpus pcpus frames -> vlen ts <= u32_max + 1 ->
  exists s rs, run ts (new n ports grants vcpus pcpus frames devices) = Done s rs /\
    vlen rs = vlen ts /\ invariants_hold s = Done s true.
Proof.
  intros Hsz Hts. pose proof (reach_boot _ _ _ _ _ _ devices Hsz) as HB.
  destruct (reachable_run 0 _ ts HB) as (s & rs & E & Hrs & HR); [lia|].
  exists s, rs. split_and!; [done|done|]. destruct (reachable_HInv _ _ HR) as [HI _].
  assert (H : wp invariants_hold (fun s' b => s' = s /\ b = true) s)
    by (by apply wp_hv_invariants_hold).
  apply wp_Done in H as (s' & b & E' & -> & ->). done.
Qed.

Theorem run_never_panics_witness :
  exists s rs, run demo_trace demo_boot = Done s rs /\ vlen rs = 9 /\
    invariants_hold s = Done s true.
Proof.
  refine (run_never_panics 3 4 4 2 1 8 1 demo_trace _ _).
  - repeat split; vm_compute; discriminate.
  - vm_compute. discriminate.
Defined.

(** The joint invariant is inductive: any transition from a state that satisfies it, with
    room for one more mapping slot, ends without a panic in a state that satisfies it and
    has at most one mapping slot more. *)
Theorem transition_preserves (s : Hypervisor) (t : Transition) :
  HInv s -> vlen (Grant.maps (grant s)) <= u32_max ->
  exists s' r, apply t s = Done s' r /\ HInv s' /\
    vlen (Grant.maps (grant s')) <= vlen (Grant.maps (grant s)) + 1.
Proof.
  intros HI Hcap. destruct (wp_Done _ _ _ (wp_apply_transition s t HI Hcap))
    as (s' & r & E & HI' & Hm & _). by exists s', r.
Qed.

Theorem transition_preserves_witness :
  exists s' r, apply (Guest 0 (DomainDestroy 1 7)) demo = Done s' r /\ HInv s' /\
    vlen (Grant.maps (grant s')) <= 2.
Proof.
  refine (transition_preserves demo (Guest 0 (DomainDestroy 1 7)) demo_HInv _).
  vm_compute. discriminate.
Defined.

(** C33: a rejected hypercall has no effect a guest can see: whatever a call that ends in an
    error had begun is undone, and every account, port, grant, mapping, vCPU, frame, entry,
    device, life and capability reads as before. *)
Theorem rejected_invisible (k : N) (s s' : Hypervisor) (t : Transition) (e : HvError) :
  reachable k s -> k <= u32_max -> apply t s = Done s' (Err e) -> same_view s s'.
Proof.
  intros HR Hk E. destruct (reachable_HInv k s HR) as [HI Hm].
  pose proof (wp_apply_transition s t HI ltac:(lia)) as H. unfold wp in H. rewrite E in H.
  apply H.
Qed.

Theorem rejected_invisible_witness : exists s', apply (Guest 2 (GrantMap 1 0 true)) demo =
    Done s' (Err (EGrant Grant.PermissionDenied)) /\ same_view demo s'.
Proof.
  eexists. split; [vm_compute; reflexivity|].
  refine (rejected_invisible 9 demo _ (Guest 2 (GrantMap 1 0 true)) _ demo_reachable _ _).
  - vm_compute. discriminate.
  - vm_compute. reflexivity.
Defined.

(** The gate: a hypercall in the name of a domain that is not live reaches no handler;
    it is answered [BadDomain] or [NotAlive] and changes nothing at all. *)
Theorem dead_caller_refused (k : N) (s : Hypervisor) (caller : DomId) (c : HvCall) :
  reachable k s -> k <= u32_max -> vget (life s) caller <> Some Live ->
  dispatch caller c s = Done s (Err BadDomain) \/ dispatch caller c s = Done s (Err NotAlive).
Proof.
  intros HR Hk Hl. destruct (reachable_HInv k s HR) as [HI Hm].
  destruct (wp_Done _ _ _ (wp_dispatch s caller c HI ltac:(lia))) as (s' & r & E & _ & Hd).
  rewrite E. destruct (Hd Hl) as [-> [-> | ->] ]; auto.
Qed.

Theorem dead_caller_refused_witness :
  dispatch 1 (P2mAllocate 0) demo_boot = Done demo_boot (Err BadDomain) \/
  dispatch 1 (P2mAllocate 0) demo_boot = Done demo_boot (Err NotAlive).
Proof.
  refine (dead_caller_refused 0 demo_boot 1 (P2mAllocate 0) _ _ _).
  - apply reach_boot. repeat split; vm_compute; discriminate.
  - vm_compute. discriminate.
  - vm_compute. discriminate.
Defined.

(** ** Isolation *)


Lemma demo_access : access demo 0 true 2.
Proof.
  apply (access_map demo 0 true 2 (Grant.mkMapping true 0 0 1 0 true)); try done.
  apply (vget_elem _ 0). vm_compute. reflexivity.
Qed.


(** C28: nobody writes code or page tables: while some domain can write a frame, through an
    entry or a grant map, no entry anywhere executes it, none uses it as a table, and it is
    not pinned as one. *)
Theorem write_xor_execute (k : N) (s : Hypervisor) (d : DomId) (f : Mfn) :
  reachable k s -> access s d true f ->
  P2m.is_pinned (p2m s) f = false /\
  forall l, l ∈ P2m.links (p2m s) -> P2m.active l = true ->
    P2m.parent l <> f /\ (P2m.child l = f -> P2m.leaf l = true /\ P2m.execute l = false).
Proof.
  intros HR Ha. destruct (reachable_HInv k s HR) as [HI _].
  pose proof (mem_p2m _ _ (h_memory s HI)) as HP. apply (access_uses s d f HI) in Ha.
  assert (Hno : forall kd, P2m.used_as (backing (grant s)) (p2m s) f kd ->
    kd <> P2m.KExec /\ kd <> P2m.KTable).
  { intros kd Hu. apply (P2m.used_counted _ _ _ _ HP) in Hu. unfold P2m.counted in *.
    destruct (P2m.allocated (p2m s) f) as [a|] eqn:Hal; [|lia]. simpl in Ha.
    pose proof (P2m.g_wt _ _ HP f a Hal Ha). pose proof (P2m.g_wx _ _ HP f a Hal Ha).
    split; intros ->; simpl in *; lia. }
  split.
  - apply not_true_iff_false. intros Hp. by destruct (Hno _ (P2m.use_pin _ _ _ Hp)).
  - intros l Hl Hla. split.
    + intros Hp. by destruct (Hno _ (P2m.use_table _ _ _ l Hl Hla Hp)).
    + intros Hc. destruct (Hno _ (P2m.use_entry _ _ _ l Hl Hla Hc)) as [Hx Ht].
      destruct (P2m.g_shape _ _ HP l Hl Hla) as [_ Hsh]. unfold P2m.link_kind in *.
      destruct (P2m.leaf l), (P2m.writable l), (P2m.execute l); try done.
      by destruct (Hsh eq_refl).
Qed.

Theorem write_xor_execute_witness : P2m.is_pinned (p2m demo) 2 = false.
Proof. refine (proj1 (write_xor_execute 9 demo 0 2 demo_reachable demo_access)). Defined.

(** C30: no wakeup is lost: in every reachable state, a vCPU that a pending, unmasked event
    is for is not blocked. *)
Theorem no_lost_wakeup (k : N) (s : Hypervisor) (d : DomId) (p : Port) (v : Vcpu) :
  reachable k s -> Evtchn.deliverable (evtchn s) d p = true ->
  Evtchn.notify_target (evtchn s) d p = Some v ->
  Sched.state_of (sched s) d v <> Some Sched.Blocked.
Proof.
  intros HR Hd Ht. destruct (reachable_HInv k s HR) as [HI _].
  pose proof (h_events s HI) as [HE _ Hw]. apply Hw. apply Evtchn.has_deliverable_for_spec; [done|].
  apply Evtchn.deliverable_tget in Hd as (c & Hc & Hp & Hm). exists p, c.
  rewrite Evtchn.notify_target_tget, Hc in Ht. done.
Qed.

(** The same machine after a virtual interrupt for the blocked vCPU. *)
Definition demo_raised : Hypervisor :=
  match run [RaiseVcpuVirq 1 0 5] demo with Done s _ => s | Panic => demo end.

Lemma demo_raised_reachable : reachable 10 demo_raised.
Proof.
  destruct (reachable_run 9 demo [RaiseVcpuVirq 1 0 5] demo_reachable) as (s & rs & E & _ & HR);
    [vm_compute; discriminate|].
  unfold demo_raised. rewrite E. exact HR.
Qed.

Theorem no_lost_wakeup_witness :
  Sched.state_of (sched demo) 1 0 = Some Sched.Blocked /\
  Sched.state_of (sched demo_raised) 1 0 <> Some Sched.Blocked.
Proof.
  split; [vm_compute; reflexivity|].
  refine (no_lost_wakeup 10 demo_raised 1 0 0 demo_raised_reachable _ _);
    vm_compute; reflexivity.
Defined.

(** ** The lifecycle *)

(** The dead leave nothing: in every reachable state a domain that is not alive owns no
    frame, holds no port, vCPU, mapping or device, is named by no grant, no waiting port and
    no capability, and reaches no memory. *)
Theorem dead_is_clean (k : N) (s : Hypervisor) (d : DomId) :
  reachable k s -> vget (life s) d = Some Dead ->
  Clean s d /\ Unreferenced s d /\ vget (may_create s) d = Some false /\
  (forall w f, ~ access s d w f) /\
  forall x, has_control s d x = false /\ has_control s x d = false.
Proof.
  intros HR Hd. destruct (reachable_HInv k s HR) as [HI _].
  destruct (h_dead s HI d Hd) as (Hc & Hu & Hm). split_and!; [done..| |].
  - intros w f [l Hl Ha Hp _ _|m Hm' Ha He _ _].
    + by apply (cl_frames s d Hc (P2m.parent l)).
    + by apply (cl_maps s d Hc m).
  - assert (Hno : forall h t, has_control s h t = true ->
      vget (life s) h = Some Live /\ vget (life s) t = Some Live).
    { intros h t Hh. unfold has_control, control_edge in Hh. apply bool_decide_eq_true in Hh.
      destruct (tget (controls s) h t) as [e|] eqn:He; [|done].
      by destruct (au_live _ _ (h_authority s HI) h t e He Hh) as (? & ? & _). }
    intros x. split; apply not_true_iff_false; intros [H1 H2]%Hno; congruence.
Qed.

Theorem dead_is_clean_witness : ~ access demo_boot 1 true 0.
Proof.
  refine (proj1 (proj2 (proj2 (proj2 (dead_is_clean 0 demo_boot 1 _ _)))) true 0).
  - apply reach_boot. repeat split; vm_compute; discriminate.
  - vm_compute. reflexivity.
Defined.



(** Creation: [domain_create] by a live caller never panics and succeeds exactly when the
    caller may create and the slot is dead; the newborn is live with the privilege asked
    for, the caller is its one controller, and nothing else changed. *)
Theorem create_exact (s : Hypervisor) (caller t : DomId) (mc : bool) :
  HInv s -> vget (life s) caller = Some Live ->
  exists s' r, domain_create caller t mc s = Done s' r /\ HInv s' /\
    ((exists o, r = Ok o) <-> vget (may_create s) caller = Some true /\
       vget (life s) t = Some Dead) /\
    s' = (if decide (vget (may_create s) caller = Some true /\ vget (life s) t = Some Dead)
          then born caller t mc s else s) /\
    ((exists o, r = Ok o) -> forall h, has_control s' h t = true <-> h = caller).
Proof.
  intros HI Hc. destruct (wp_Done _ _ _ (wp_domain_create caller t mc s HI Hc))
    as (s' & [o|e] & E & (HI' & _ & _) & H); exists s'; eexists; (split; [exact E|]).
  - destruct H as (Hm & Hd & ->). split_and!; [done|split; [done|by exists o]|by rewrite decide_True|].
    intros _ h.
    assert (Hrow : exists e, tget (controls s) caller t = Some e).
    { apply cell_lookup; [apply HI|..]; rewrite <- (d_life s (h_dims s HI)); by eapply vget_Some_lt. }
    destruct Hrow as [e0 He0]. unfold has_control, control_edge. rewrite bool_decide_eq_true. simpl.
    split; [|intros ->; by rewrite (tget_tset_eq _ _ _ _ _ He0)].
    intros Hh. destruct (decide (h = caller)) as [|Hne]; [done|]. exfalso.
    rewrite tget_tset_ne in Hh by naive_solver.
    destruct (tget (controls s) h t) as [e|] eqn:He; [|done].
    destruct (au_live _ _ (h_authority s HI) h t e He Hh) as (_ & Hl & _). congruence.
  - destruct H as [-> Hn]. split_and!; [done|split; [by intros [? ?]|done]| |by intros [? ?] ].
    by rewrite decide_False.
Qed.

Theorem create_exact_witness :
  exists s' r, domain_create 0 1 true demo_boot = Done s' r /\ exists o, r = Ok o.
Proof.
  assert (HI : HInv demo_boot) by (apply hv_new_HInv; vm_compute; discriminate).
  refine (match create_exact demo_boot 0 1 true HI _ with
    | ex_intro _ s' (ex_intro _ r (conj E (conj _ (conj H _)))) =>
        ex_intro _ s' (ex_intro _ r (conj E (proj2 H _)))
    end).
  - vm_compute. reflexivity.
  - split; vm_compute; reflexivity.
Defined.

(** ** Authority *)

(** C31: authority has a provenance: in every reachable state each capability is held by a
    live domain over another live domain and traces, delegation by delegation, to a domain
    that holds the capability of a creator. *)
Theorem control_provenance (k : N) (s : Hypervisor) (h t : DomId) :
  reachable k s -> has_control s h t = true ->
  vget (life s) h = Some Live /\ vget (life s) t = Some Live /\ h <> t /\
  exists root, tget (controls s) root t = Some Root /\ on_chain (controls s) t root h.
Proof.
  intros HR Hh. destruct (reachable_HInv k s HR) as [HI _].
  unfold has_control, control_edge in Hh. apply bool_decide_eq_true in Hh.
  destruct (tget (controls s) h t) as [e|] eqn:He; [|done].
  pose proof (h_authority s HI) as HA.
  destruct (au_live _ _ HA h t e He Hh) as (H1 & H2 & H3). split_and!; [done..|].
  pose proof (au_rooted _ _ HA h t e He Hh) as Hr. clear -Hr.
  induction Hr as [h Hr|h p Hv _ (root & Hroot & Hch)].
  - exists h. split; [done|constructor].
  - exists root. split; [done|]. by eapply chain_up.
Qed.

Theorem control_provenance_witness :
  exists root, tget (controls demo) root 1 = Some Root /\ on_chain (controls demo) 1 root 2.
Proof.
  refine (proj2 (proj2 (proj2 (control_provenance 9 demo 2 1 demo_reachable _)))).
  vm_compute. reflexivity.
Defined.

(** Delegation: [control_grant] by a live caller never panics and succeeds exactly when
    the caller holds the capability and the receiver is a live domain other than the target;
    the receiver then holds it — under the caller, unless it held it before — and no other
    capability changed. *)
Theorem delegate_exact (s : Hypervisor) (caller t to : DomId) :
  HInv s -> vget (life s) caller = Some Live ->
  exists s' r, control_grant caller t to s = Done s' r /\ HInv s' /\
    ((exists o, r = Ok o) <-> may_delegate s caller t to) /\
    ((exists o, r = Ok o) -> has_control s' to t = true /\
       forall h x, ~ (h = to /\ x = t) -> tget (controls s') h x = tget (controls s) h x).
Proof.
  intros HI Hc. destruct (wp_Done _ _ _ (wp_control_grant s caller HI Hc t to))
    as (s' & [o|e] & E & (HI' & _ & _) & H); exists s'; eexists; (split; [exact E|]).
  - destruct H as (Hm & Hor). split_and!; [done|split; [done|by exists o]|]. intros _.
    destruct Hor as [[Hh ->]|[Ha ->] ]; [done|]. split.
    + unfold has_control, control_edge. simpl. by rewrite (tget_tset_eq _ _ _ _ _ Ha).
    + intros h x Hne. simpl. by rewrite tget_tset_ne.
  - destruct H as [-> Hn]. split_and!; [done|split; [by intros [? ?]|done]|by intros [? ?] ].
Qed.

Theorem delegate_exact_witness :
  exists s' r, control_grant 0 2 1 demo = Done s' r /\ exists o, r = Ok o.
Proof.
  refine (match delegate_exact demo 0 2 1 demo_HInv _ with
    | ex_intro _ s' (ex_intro _ r (conj E (conj _ (conj H _)))) =>
        ex_intro _ s' (ex_intro _ r (conj E (proj2 H _)))
    end).
  - vm_compute. reflexivity.
  - split; [vm_compute; reflexivity|]. split; [discriminate|vm_compute; reflexivity].
Defined.

(** C32: revocation cascades, and no further: [control_revoke] by a live caller never panics,
    its sweep ends, and it succeeds exactly when the caller holds the capability and stands
    on the delegation chain of the one it revokes; then precisely the capabilities over the
    target that were delegated through the revoked one are gone, at any depth, and every
    other capability of the system stands as it was. *)
Theorem revoke_exact (s : Hypervisor) (caller t from : DomId) :
  HInv s -> vget (life s) caller = Some Live ->
  exists s' r, control_revoke caller t from s = Done s' r /\ HInv s' /\
    ((exists o, r = Ok o) <-> may_revoke s caller t from) /\
    ((exists o, r = Ok o) -> forall h x e, tget (controls s) h x = Some e ->
       (x = t /\ on_chain (controls s) t from h -> tget (controls s') h x = Some Absent) /\
       (~ (x = t /\ on_chain (controls s) t from h) -> tget (controls s') h x = Some e)).
Proof.
  intros HI Hc. destruct (wp_Done _ _ _ (wp_control_revoke s caller HI Hc t from))
    as (s' & [o|e] & E & (HI' & _ & _) & H); exists s'; eexists; (split; [exact E|]).
  - destruct H as (Hm & c' & -> & Hsq & Hcas). split_and!; [done|split; [done|by exists o]|].
    intros _. destruct Hm as (Hh & Hf & _). apply (has_control_range s HI) in Hh as [_ Ht].
    pose proof (h_dims s HI) as HD. simpl.
    by apply (cascade_revoke (domain_count s) (life s)); [apply Dims_square|..|apply HI| | |].
  - destruct H as [-> Hn]. split_and!; [done|split; [by intros [? ?]|done]|by intros [? ?] ].
Qed.

Theorem revoke_exact_witness :
  exists s' r, control_revoke 0 1 2 demo = Done s' r /\ exists o, r = Ok o.
Proof.
  refine (match revoke_exact demo 0 1 2 demo_HInv _ with
    | ex_intro _ s' (ex_intro _ r (conj E (conj _ (conj H _)))) =>
        ex_intro _ s' (ex_intro _ r (conj E (proj2 H _)))
    end).
  - vm_compute. reflexivity.
  - split; [vm_compute; reflexivity|]. split; [vm_compute; reflexivity|].
    apply (chain_up _ _ _ 2 0); [vm_compute; reflexivity|constructor].
Defined.

(** The cascade ends: whatever edges were just cleared, as long as every delegator named
    is a domain, the [while changed] loop of the sweep stops within one pass per cell of the
    matrix; it leaves no capability whose delegator holds none, and takes none that traces
    to a creator's. *)
Theorem sweep_terminates (s : Hypervisor) :
  Dims s -> (forall h t p, tget (controls s) h t = Some (Via p) -> p < domain_count s) ->
  exists c, sweep_orphaned_control_edges s = Done (set_controls c s) tt /\
    (forall h t, ~ orphan_at c h t) /\
    forall h t e, tget (controls s) h t = Some e ->
      (tget c h t = Some e \/ tget c h t = Some Absent) /\
      (rooted (controls s) t h -> tget c h t = Some e).
Proof.
  intros HD Hnm. assert (H : wp sweep_orphaned_control_edges (fun s' _ => exists c,
    s' = set_controls c s /\ below (controls s) c /\ forall h t, ~ orphan_at c h t) s).
  { apply wp_sweep_below; [done|done|]. intros c _ Hbc Hno. by exists c. }
  apply wp_Done in H as (s' & [] & E & c & -> & Hbc & Hno). exists c. split_and!; [done|done|].
  intros h t e He. by apply Hbc.
Qed.

(** The matrix of the small machine without the creator's capability over domain 1. *)
Definition demo_orphaned : Hypervisor := set_controls (tset (controls demo) 0 1 Absent) demo.

Lemma demo_named h t p :
  tget (controls demo_orphaned) h t = Some (Via p) -> p < domain_count demo_orphaned.
Proof.
  change (controls demo_orphaned) with (tset (controls demo) 0 1 Absent).
  intros Hp. rewrite tget_tset in Hp. case_decide; [done|].
  pose proof demo_HInv as HI.
  pose proof (au_rooted _ _ (h_authority demo HI) h t _ Hp ltac:(discriminate)) as Hr.
  destruct (rooted_cell _ _ _ (rooted_parent _ _ _ _ Hp Hr)) as (e & He & _).
  apply (in_range_cell demo p t e (h_dims demo HI) He).
Qed.

Lemma demo_orphaned_Dims : Dims demo_orphaned.
Proof. apply Dims_controls; [apply demo_HInv|]. apply square_tset, Dims_square, demo_HInv. Qed.

Theorem sweep_terminates_witness :
  exists c, sweep_orphaned_control_edges demo_orphaned = Done (set_controls c demo_orphaned) tt.
Proof.
  refine (match sweep_terminates demo_orphaned demo_orphaned_Dims demo_named with
    | ex_intro _ c (conj E _) => ex_intro _ c E
    end).
Defined.

(** ** A recycled domain *)

(** A scheduling mask outlives its domain: narrowing the mask of a vCPU that was never
    brought up survives the destruction of the domain and its re-creation, so the next
    domain of that slot starts with a vCPU that may run nowhere — although every step
    succeeds and every invariant holds. *)
Theorem recycled_affinity :
  exists s, run [Guest 0 (DomainCreate 1 false); Guest 0 (SchedSetAffinity 1 0 0);
                 Guest 0 (DomainDestroy 1 7); Guest 0 (DomainCreate 1 false);
                 Guest 1 (SchedAdmit 0); Guest 1 (SchedRun 0 0 9)] demo_boot =
    Done s [Ok (TGuest ODone); Ok (TGuest ODone); Ok (TGuest ODone); Ok (TGuest ODone);
            Ok (TGuest ODone); Err (ESched Sched.NotAffine)] /\
    Sched.affinity_of (sched s) 1 0 = Some 0 /\ Sched.full_affinity (sched s) = 1 /\
    invariants_hold s = Done s true.
Proof. eexists. split; [vm_compute; reflexivity|]. split_and!; vm_compute; reflexivity. Qed.
