(* ===== verification/Observe.v ===== *)
(** * What a domain observes — [hv-sim/src/noninterference.rs]

    The observation of a domain ([obs]), the channels through which one domain may move
    another's observation ([Channels], [authorized]), and the surface of the state that an
    observation is a function of. *)

From Stdlib Require Import NArith Lia.
From stdpp Require Import base numbers list option sorting.
From S2P Require Import Credit.
From S2P Require Import Device.
From S2P Require Import Sched.
From S2P Require Import Evtchn.
From S2P Require Import Grant.
From S2P Require Import P2m.
From S2P Require Import Hypervisor.
From S2P Require Import HvInvariant.
From S2P Require Import HvEvents.
From S2P Require Import HvMemory.
From S2P Require Import HvControl.
From S2P Require Import HvLifecycle.
From S2P Require Import HvSafety.
From S2P Require Import Prelude.
#[local] Open Scope N_scope.

(** ** Channels *)

Record Channels : Type := mkChannels {
  ch_grant : bool;
  ch_evtchn : bool;
  ch_control : bool;
  ch_create : bool;
  ch_teardown_reach : bool;
  ch_teardown_borrow : bool;
}.

Definition full : Channels := mkChannels true true true true true true.

Definition a_grants_to (s : Hypervisor) (a b : DomId) : bool :=
  existsb (fun r =>
      match Grant.grant_entry (grant s) a r with
      | Some (grantee, _, _, _, _) => grantee =? b
      | None => false
      end) (vrange (as_u32 (Grant.entry_count (grant s) a))).

Definition a_borrows_from (s : Hypervisor) (a b : DomId) : bool :=
  let mapped := existsb (fun h =>
      match Grant.mapping_at (grant s) a h with
      | Some (grantor, _, _) => grantor =? b
      | None => false
      end) (vrange (as_u32 (Grant.handle_slots (grant s) a))) in
  let linked := existsb (fun '(parent, _, child, _, _, _) =>
      bool_decide (P2m.owner_of (p2m s) parent = Some a) &&
      bool_decide (P2m.owner_of (p2m s) child = Some b)) (P2m.link_edges (p2m s)) in
  mapped || linked.

Definition a_port_toward (s : Hypervisor) (a b : DomId) : bool :=
  existsb (fun port =>
      match Evtchn.state_of (evtchn s) a port with
      | Some (Evtchn.Unbound remote) => remote =? b
      | Some (Evtchn.Interdomain remote _) => remote =? b
      | _ => false
      end) (vrange (as_u32 (Evtchn.port_count (evtchn s) a))).

Definition teardown_reach_to (s : Hypervisor) (b a : DomId) : bool :=
  existsb (fun c => has_control s b c && (a_grants_to s a c || a_port_toward s a c))
    (vrange (as_u16 (domain_count s))).

Definition teardown_borrow_from (s : Hypervisor) (b a : DomId) : bool :=
  existsb (fun c => ((c =? b) || has_control s b c) && a_borrows_from s a c)
    (vrange (as_u16 (domain_count s))).

Definition authorized (ch : Channels) (s : Hypervisor) (b a : DomId) : bool :=
  (b =? a) ||
  ch_grant ch && a_grants_to s a b ||
  ch_evtchn ch && a_port_toward s a b ||
  ch_control ch && has_control s b a ||
  ch_create ch && has_may_create s b && negb (is_live s a) ||
  ch_teardown_reach ch && teardown_reach_to s b a ||
  ch_teardown_borrow ch && teardown_borrow_from s b a.

(** ** The observation *)

Definition level_tag (ty : option P2m.PageType) : N :=
  match ty with
  | None => 0
  | Some P2m.Writable => 1
  | Some (P2m.PageTable P2m.L1) => 2
  | Some (P2m.PageTable P2m.L2) => 3
  | Some (P2m.PageTable P2m.L3) => 4
  | Some (P2m.PageTable P2m.L4) => 5
  end.

Definition obs_port (e : Evtchn.System) (a : DomId) (port : Port) : list N :=
  let '(tag, x, y) :=
    match Evtchn.state_of e a port with
    | Some (Evtchn.Unbound remote) => (1, remote, 0)
    | Some (Evtchn.Interdomain remote remote_port) => (2, remote, remote_port)
    | Some (Evtchn.VirqPort vcpu virq) => (3, vcpu, virq)
    | Some (Evtchn.Ipi vcpu) => (4, vcpu, 0)
    | _ => (0, 0, 0)
    end in
  [tag; x; y; N.b2n (Evtchn.is_pending e a port); N.b2n (Evtchn.is_masked e a port)].

Definition obs_grant (g : Grant.System) (p : P2m.System) (a : DomId) (r : GrantRef) : list N :=
  match Grant.grant_entry g a r with
  | Some (grantee, frame, ro, maps, wmaps) =>
      [1; grantee; frame; N.b2n ro; maps; wmaps; N.b2n (P2m.is_foreign_linked_by p frame grantee)]
  | None => [0; 0; 0; 0; 0; 0; 0]
  end.

Definition obs_handle (g : Grant.System) (a : DomId) (h : GrantHandle) : list N :=
  match Grant.mapping_at g a h with
  | Some (grantor, r, w) => [1; grantor; r; N.b2n w]
  | None => [0; 0; 0; 0]
  end.

Definition obs_vcpu (c : Sched.System) (a : DomId) (v : Vcpu) : list N :=
  let '(tag, pc) :=
    match Sched.state_of c a v with
    | Some Sched.Runnable => (1, 0)
    | Some (Sched.Running pcpu) => (2, pcpu)
    | Some Sched.Blocked => (3, 0)
    | _ => (0, 0)
    end in
  [tag; pc; default 0 (Sched.affinity_of c a v)].

Definition obs_frame (p : P2m.System) (a : DomId) (m : Mfn) : list N :=
  if decide (P2m.owner_of p m = Some a) then
    let ty := P2m.current_type p m in
    let pt_refs :=
      match ty with
      | Some (P2m.PageTable l) => default 0 (P2m.type_refs p m (P2m.PageTable l))
      | _ => 0
      end in
    [1; m; default 0 (P2m.refs p m); default 0 (P2m.type_refs p m P2m.Writable);
     default 0 (P2m.executable_refs p m); pt_refs; level_tag ty; N.b2n (P2m.is_pinned p m)]
  else [].

(** [sort_unstable] on arrays: the lexicographic order of their elements. *)
Fixpoint lex_leb (x y : list N) : bool :=
  match x, y with
  | [], _ => true
  | _ :: _, [] => false
  | a :: x, b :: y => (a <? b) || (a =? b) && lex_leb x y
  end.
Definition lex_le (x y : list N) : Prop := lex_leb x y = true.
#[global] Instance lex_le_dec x y : Decision (lex_le x y).
Proof. unfold lex_le. apply _. Defined.

Definition obs_edges (p : P2m.System) (a : DomId) : list (list N) :=
  let mine := List.filter (fun '(parent, _, _, _, _, _) =>
      bool_decide (P2m.owner_of p parent = Some a)) (P2m.link_edges p) in
  merge_sort lex_le ((fun '(par, slot, ch, w, leaf, execute) =>
      [par; slot; ch; N.b2n w; N.b2n leaf; N.b2n execute]) <$> mine).

Definition obs (s : Hypervisor) (a : DomId) : list N :=
  let e := evtchn s in
  let g := grant s in
  let p := p2m s in
  [N.b2n (is_live s a); default 0 (balance s a); 851968] ++
  flat_map (obs_port e a) (vrange (as_u32 (Evtchn.port_count e a))) ++ [851969] ++
  flat_map (obs_grant g p a) (vrange (as_u32 (Grant.entry_count g a))) ++ [851970] ++
  flat_map (obs_handle g a) (vrange (as_u32 (Grant.handle_slots g a))) ++ [851971] ++
  flat_map (obs_vcpu (sched s) a) (vrange (as_u32 (Sched.vcpu_count (sched s) a))) ++ [851972] ++
  flat_map (obs_frame p a) (vrange (as_u32 (P2m.frame_count p))) ++ [851973] ++
  vlen (obs_edges p a) :: concat (obs_edges p a) ++ [851974] ++
  List.filter (fun dev => bool_decide (Device.holder_of (device s) dev = Some a))
    (vrange (as_u16 (Device.device_count (device s)))).

(** The domain a transition is attributed to. *)
Definition transition_actor (t : Transition) : DomId :=
  match t with
  | Guest caller _ => caller
  | RaiseVcpuVirq dom _ _ => dom
  end.

(** ** Specification *)

(** What an observation is a function of, subsystem by subsystem. *)
Definition ev_same (a : DomId) (e e' : Evtchn.System) : Prop :=
  forall p, Evtchn.chan_opt e' a p = Evtchn.chan_opt e a p.
Definition sc_same (a : DomId) (c c' : Sched.System) : Prop :=
  forall v, Sched.vcpu_opt c' a v = Sched.vcpu_opt c a v.
Record dv_same (a : DomId) (d d' : Device.System) : Prop := mkDvSame {
  ds_count : Device.device_count d' = Device.device_count d;
  ds_held : forall dev, Device.holder_of d' dev = Some a <-> Device.holder_of d dev = Some a;
}.
Record mem_same (a : DomId) (g : Grant.System) (p : P2m.System) (g' : Grant.System)
    (p' : P2m.System) : Prop := mkMemSame {
  mo_shape : Grant.same_shape g g';
  mo_authority : forall r, Grant.authority g' a r = Grant.authority g a r;
  mo_mappings : forall m, Grant.active m = true -> Grant.grantor m = a \/ Grant.grantee m = a ->
    m ∈ Grant.maps g' <-> m ∈ Grant.maps g;
  mo_frames : P2m.frame_count p' = P2m.frame_count p;
  mo_owner : forall m, P2m.owner_of p' m = Some a <-> P2m.owner_of p m = Some a;
  mo_marks : forall m x x', P2m.owner_of p m = Some a -> P2m.allocated p m = Some x ->
    P2m.allocated p' m = Some x' -> P2m.pinned x' = P2m.pinned x /\
    (0 < P2m.pagetable_refs x -> 0 < P2m.pagetable_refs x' -> P2m.pt_level x' = P2m.pt_level x);
  mo_links : forall l, P2m.active l = true ->
    P2m.owner_of p (P2m.parent l) = Some a \/ P2m.owner_of p (P2m.child l) = Some a ->
    l ∈ P2m.links p' <-> l ∈ P2m.links p;
  mo_offers : forall r to f ro, Grant.authority g a r = Some (to, f, ro) ->
    P2m.is_foreign_linked_by p' f to = P2m.is_foreign_linked_by p f to;
}.

(** The parts of the state that belong to [a] are as they were. *)
Record same_surface (a : DomId) (s s' : Hypervisor) : Prop := mkSameSurface {
  su_life : vget (life s') a = vget (life s) a;
  su_credit : vget (credit s') a = vget (credit s) a;
  su_events : ev_same a (evtchn s) (evtchn s');
  su_sched : sc_same a (sched s) (sched s');
  su_memory : mem_same a (grant s) (p2m s) (grant s') (p2m s');
  su_device : dv_same a (device s) (device s');
}.

(** ** Lemmas *)

(** *** The order of the sort *)

#[global] Instance lex_le_total : Total lex_le.
Proof.
  intros x. induction x as [|a x IH]; intros y; [by left|]. destruct y as [|b y]; [by right|].
  unfold lex_le. simpl. destruct (N.lt_trichotomy a b) as [Hlt|[->|Hlt]].
  - left. by apply N.ltb_lt in Hlt as ->.
  - rewrite N.eqb_refl, N.ltb_irrefl. simpl. apply IH.
  - right. by apply N.ltb_lt in Hlt as ->.
Qed.

Lemma lex_le_cons a b x y : lex_le (a :: x) (b :: y) <-> a < b \/ a = b /\ lex_le x y.
Proof.
  unfold lex_le. simpl. rewrite orb_true_iff, andb_true_iff, N.ltb_lt, N.eqb_eq. done.
Qed.

#[global] Instance lex_le_trans : Transitive lex_le.
Proof.
  intros x y z. revert x z. induction y as [|b y IH]; intros [|a x] [|c z]; try done.
  rewrite !lex_le_cons. intros [?|[-> ?]] [?|[-> ?]]; [left; lia|by left|by left|right].
  split; [done|by eapply IH].
Qed.

#[global] Instance lex_le_antisymm : AntiSymm (=) lex_le.
Proof.
  intros x. induction x as [|a x IH]; intros [|b y]; try done.
  rewrite !lex_le_cons. intros [?|[? ?]] [?|[? ?]]; try lia. subst. f_equal. by apply IH.
Qed.

(** A sort depends on the elements alone. *)
Lemma merge_sort_eq l l' : l ≡ₚ l' -> merge_sort lex_le l = merge_sort lex_le l'.
Proof.
  intros Hp. apply (StronglySorted_unique lex_le); [apply StronglySorted_merge_sort; apply _..|].
  by rewrite !merge_sort_Permutation.
Qed.

(** *** Mappings and links as sets *)

Lemma maps_Permutation (q : Grant.Mapping -> bool) g g' :
  Grant.Inv g -> Grant.Inv g' -> (forall m, q m = true -> Grant.active m = true) ->
  (forall m, q m = true -> m ∈ Grant.maps g' <-> m ∈ Grant.maps g) ->
  List.filter q (Grant.maps g') ≡ₚ List.filter q (Grant.maps g).
Proof.
  intros (_ & HD & _) (_ & HD' & _) Hq Hin.
  apply filter_Permutation; [|..|done]; apply NoDup_filter_unique; intros i j x Hi Hj Hx;
    eauto using eq_refl.
Qed.

Lemma links_Permutation (q : P2m.Link -> bool) e e' p p' :
  P2m.Good e p -> P2m.Good e' p' -> (forall l, q l = true -> P2m.active l = true) ->
  (forall l, q l = true -> l ∈ P2m.links p' <-> l ∈ P2m.links p) ->
  List.filter q (P2m.links p') ≡ₚ List.filter q (P2m.links p).
Proof.
  intros HG HG' Hq Hin.
  apply filter_Permutation; [| |done]; apply NoDup_filter_unique; intros i j x Hi Hj Hx.
  - by eapply (P2m.g_unique _ _ HG); eauto.
  - by eapply (P2m.g_unique _ _ HG'); eauto.
Qed.

Lemma foldr_max_Permutation l l' : l ≡ₚ l' -> foldr N.max 0 l = foldr N.max 0 l'.
Proof. induction 1; simpl; lia. Qed.

Lemma mapping_at_Some g to h x :
  Grant.Inv g -> Grant.mapping_at g to h = Some x <->
  exists m, m ∈ Grant.maps g /\ Grant.holds to h m = true /\
    x = (Grant.grantor m, Grant.gref m, Grant.writable m).
Proof.
  intros (_ & HD & _). unfold Grant.mapping_at. split.
  - intros (m & Hm & ->)%fmap_Some. apply find_some in Hm as [Hm Hh]. exists m.
    by rewrite list_elem_of_In.
  - intros (m & Hm & Hh & ->). destruct (find _ _) as [m'|] eqn:E.
    + apply find_some in E as [Hm' Hh']. apply list_elem_of_In in Hm'.
      apply elem_vget in Hm as [i Hi], Hm' as [j Hj].
      apply Grant.holds_true in Hh as [Ha Hk], Hh' as [Ha' Hk'].
      assert (i = j) as -> by (eapply HD; eauto; congruence).
      assert (m' = m) as -> by congruence. done.
    + exfalso. apply list_elem_of_In in Hm. pose proof (find_none _ _ E m Hm). congruence.
Qed.

(** An entry with its reference counts. *)
Lemma grant_entry_counts g d r :
  Grant.Inv g -> Grant.grant_entry g d r =
  (fun '(to, f, ro) => (to, f, ro, count (Grant.live_on d r) (Grant.maps g),
     count (fun m => Grant.live_on d r m && Grant.writable m) (Grant.maps g))) <$>
  Grant.authority g d r.
Proof.
  intros [HW _]. unfold Grant.grant_entry, Grant.authority. rewrite Grant.entry_match.
  destruct (tget _ d r) as [[|to f ro n w]|] eqn:Ht; simpl; [done| |done].
  by destruct (Grant.count_live _ _ _ _ _ _ _ _ HW Ht) as [<- <-].
Qed.

(** *** The frames of an observer *)

Section Frames.
Context (a : DomId) (g g' : Grant.System) (p p' : P2m.System).
Context (HM : Memory g p) (HM' : Memory g' p') (HS : mem_same a g p g' p').

Lemma surface_links_refs k m :
  P2m.owner_of p m = Some a -> P2m.links_refs p' k m = P2m.links_refs p k m.
Proof.
  intros Ho. pose (q l := P2m.active l && ((P2m.parent l =? m) || (P2m.child l =? m))).
  assert (Hz : forall l, q l = false -> P2m.link_refs k m l = 0).
  { intros l. unfold q, P2m.link_refs. destruct (P2m.active l); [|done].
    intros [H1%N.eqb_neq H2%N.eqb_neq]%orb_false_iff. by rewrite !decide_False by tauto. }
  unfold P2m.links_refs.
  rewrite (nsum_filter _ q (P2m.links p')), (nsum_filter _ q (P2m.links p)) by auto.
  apply nsum_Permutation. eapply links_Permutation; [apply HM|apply HM'|..]; unfold q.
  - by intros l [? _]%andb_true_iff.
  - intros l [Ha Hl]%andb_true_iff. apply (mo_links _ _ _ _ _ HS); [done|].
    apply orb_true_iff in Hl as [<-%N.eqb_eq|<-%N.eqb_eq]; auto.
Qed.

(** The mappings over a frame of the observer are mappings of its grants. *)
Lemma surface_ext b m : P2m.owner_of p m = Some a -> Grant.ext g' b m = Grant.ext g b m.
Proof.
  intros Ho. pose (q x := Grant.active x && eqb (Grant.writable x) b && (Grant.grantor x =? a) &&
    (Grant.frame_of g x =? m)).
  assert (Hfr : forall x, Grant.grantor x = a -> Grant.frame_of g' x = Grant.frame_of g x).
  { intros x Hx. rewrite (frame_of_authority g'), (frame_of_authority g), Hx.
    by rewrite (mo_authority _ _ _ _ _ HS (Grant.gref x)). }
  assert (Hq : forall x, q x = true -> Grant.active x = true /\ Grant.grantor x = a).
  { unfold q. intros x [[[? _]%andb_true_iff ?%N.eqb_eq]%andb_true_iff _]%andb_true_iff. done. }
  unfold Grant.ext. transitivity (count q (Grant.maps g')).
  - apply count_ext. intros x Hx. unfold Grant.over, q.
    destruct (Grant.active x) eqn:Hxa; [|done]. simpl. destruct (eqb _ _); [|done]. simpl.
    destruct (N.eqb_spec (Grant.grantor x) a) as [E|E]; [by rewrite Hfr|].
    apply N.eqb_neq. intros Hf. pose proof (mem_owned _ _ HM' x Hx Hxa) as Hox. rewrite Hf in Hox.
    apply (mo_owner _ _ _ _ _ HS) in Ho. congruence.
  - transitivity (count q (Grant.maps g)).
    + rewrite !count_filter. unfold vlen. f_equal. apply Permutation_length.
      apply maps_Permutation; [apply HM|apply HM'|intros x ?; by apply Hq|].
      intros x [Hxa Hx]%Hq. apply (mo_mappings _ _ _ _ _ HS); auto.
    + apply count_ext. intros x Hx. unfold Grant.over, q.
      destruct (Grant.active x) eqn:Hxa; [|done]. simpl. destruct (eqb _ _); [|done]. simpl.
      destruct (N.eqb_spec (Grant.grantor x) a) as [E|E]; [done|]. symmetry.
      apply N.eqb_neq. intros Hf. pose proof (mem_owned _ _ HM x Hx Hxa) as Hox. congruence.
Qed.

Lemma surface_counted k m :
  P2m.owner_of p m = Some a -> P2m.counted p' k m = P2m.counted p k m.
Proof.
  intros Ho. rewrite !(P2m.g_acc _ _ (mem_p2m _ _ HM)), !(P2m.g_acc _ _ (mem_p2m _ _ HM')).
  rewrite surface_links_refs by done.
  assert (Hb : backing g' k m = backing g k m) by (destruct k; simpl; by rewrite ?surface_ext).
  rewrite Hb. do 2 f_equal. unfold P2m.pin_refs, P2m.is_pinned.
  pose proof (proj2 (mo_owner _ _ _ _ _ HS m) Ho) as Ho'. unfold P2m.owner_of in Ho, Ho'.
  destruct (P2m.allocated p m) as [x|] eqn:Hx; [|done].
  destruct (P2m.allocated p' m) as [x'|] eqn:Hx'; [|done].
  destruct (mo_marks _ _ _ _ _ HS m x x') as [-> _]; try done. unfold P2m.owner_of. by rewrite Hx.
Qed.

Lemma surface_frame m :
  P2m.owner_of p m = Some a ->
  P2m.canon <$> P2m.allocated p' m = P2m.canon <$> P2m.allocated p m.
Proof.
  intros Ho. pose proof (proj2 (mo_owner _ _ _ _ _ HS m) Ho) as Ho'.
  pose proof (surface_counted P2m.KTable m Ho) as Ht. unfold P2m.counted in Ht.
  pose proof Ho as Ho0. unfold P2m.owner_of in Ho0, Ho'.
  destruct (P2m.allocated p m) as [x|] eqn:Hx; [|done].
  destruct (P2m.allocated p' m) as [x'|] eqn:Hx'; [|done]. simpl in *. f_equal.
  destruct (mo_marks _ _ _ _ _ HS m x x') as [Hp Hl]; try done.
  eapply P2m.counted_alloc; [exact Hx|exact Hx'|..]; try done.
  - by eapply (P2m.g_sum _ _ (mem_p2m _ _ HM)).
  - by eapply (P2m.g_sum _ _ (mem_p2m _ _ HM')).
  - intros k. by apply surface_counted.
  - congruence.
  - intros H0. apply Hl; [done|]. by rewrite Ht.
Qed.
End Frames.

(** *** Equal surfaces, equal observations *)

Lemma flat_map_ext_eq {A B} (f f' : A -> list B) l :
  (forall x, f' x = f x) -> flat_map f' l = flat_map f l.
Proof. intros H. induction l as [|x l IH]; simpl; [done|]. by rewrite H, IH. Qed.

Lemma canon_fields x x' :
  P2m.canon x' = P2m.canon x ->
  P2m.f_owner x' = P2m.f_owner x /\ P2m.f_refs x' = P2m.f_refs x /\
  P2m.writable_refs x' = P2m.writable_refs x /\
  P2m.f_executable_refs x' = P2m.f_executable_refs x /\
  P2m.pagetable_refs x' = P2m.pagetable_refs x /\ P2m.pinned x' = P2m.pinned x /\
  (0 < P2m.pagetable_refs x -> P2m.pt_level x' = P2m.pt_level x).
Proof.
  destruct x, x'. unfold P2m.canon, P2m.with_level. simpl. intros H.
  repeat case_decide; subst; injection H; intros; subst; split_and!; try done; intros; exfalso; lia.
Qed.

(** Two readings of a frame that agree up to the level nothing observes. *)
Lemma obs_frame_canon a p p' m :
  (P2m.owner_of p' m = Some a <-> P2m.owner_of p m = Some a) ->
  (P2m.owner_of p m = Some a -> P2m.canon <$> P2m.allocated p' m = P2m.canon <$> P2m.allocated p m) ->
  obs_frame p' a m = obs_frame p a m.
Proof.
  intros Ho Hc. unfold obs_frame.
  destruct (decide (P2m.owner_of p m = Some a)) as [E|E];
    [rewrite decide_True by tauto|by rewrite decide_False by tauto].
  specialize (Hc E). unfold P2m.owner_of in E. unfold P2m.current_type, P2m.refs, P2m.type_refs,
    P2m.executable_refs, P2m.is_pinned.
  destruct (P2m.allocated p m) as [x|]; [|done].
  destruct (P2m.allocated p' m) as [x'|]; [|done]. simpl in Hc. injection Hc as Hc.
  destruct (canon_fields _ _ Hc) as (_ & Hr & Hw & Hx & Hp & Hpin & Hlv). simpl.
  rewrite Hr, Hw, Hx, Hp, Hpin. destruct (decide (0 < P2m.writable_refs x)); [done|].
  destruct (decide (0 < P2m.pagetable_refs x)); [|done]. by rewrite Hlv by done.
Qed.

Section Surface.
Context (a : DomId) (s s' : Hypervisor).
Context (HI : HInv s) (HI' : HInv s') (HS : same_surface a s s').

Lemma port_count_same : Evtchn.port_count (evtchn s') a = Evtchn.port_count (evtchn s) a.
Proof.
  rewrite !Evtchn.port_count_twidth. apply twidth_ext. intros p.
  rewrite <- !Evtchn.chan_opt_tget. apply (su_events _ _ _ HS).
Qed.

Lemma vcpu_count_same : Sched.vcpu_count (sched s') a = Sched.vcpu_count (sched s) a.
Proof.
  rewrite !Sched.vcpu_count_twidth. apply twidth_ext. intros v.
  rewrite <- !Sched.vcpu_opt_tget. apply (su_sched _ _ _ HS).
Qed.

Lemma obs_port_same p : obs_port (evtchn s') a p = obs_port (evtchn s) a p.
Proof.
  pose proof (su_events _ _ _ HS p) as Hc.
  unfold obs_port, Evtchn.state_of, Evtchn.is_pending, Evtchn.is_masked. rewrite Hc.
  unfold Evtchn.chan_opt in Hc.
  destruct (Evtchn.chan (evtchn s') a p), (Evtchn.chan (evtchn s) a p); simplify_eq; done.
Qed.

Lemma live_counts_same r :
  count (Grant.live_on a r) (Grant.maps (grant s')) = count (Grant.live_on a r) (Grant.maps (grant s)) /\
  count (fun m => Grant.live_on a r m && Grant.writable m) (Grant.maps (grant s')) =
  count (fun m => Grant.live_on a r m && Grant.writable m) (Grant.maps (grant s)).
Proof.
  pose proof (su_memory _ _ _ HS) as Hm. rewrite !count_filter. unfold vlen.
  split; f_equal; apply Permutation_length, maps_Permutation; try apply h_memory; try done;
    intros m; rewrite ?andb_true_iff, Grant.live_on_true; intros; try tauto;
    apply (mo_mappings _ _ _ _ _ Hm); tauto.
Qed.

Lemma obs_grant_same r :
  obs_grant (grant s') (p2m s') a r = obs_grant (grant s) (p2m s) a r.
Proof.
  pose proof (su_memory _ _ _ HS) as Hm. unfold obs_grant.
  rewrite !grant_entry_counts by (apply h_memory; done).
  rewrite (mo_authority _ _ _ _ _ Hm). destruct (live_counts_same r) as [-> ->].
  destruct (Grant.authority (grant s) a r) as [[[to f] ro]|] eqn:Ha; simpl; [|done].
  by rewrite (mo_offers _ _ _ _ _ Hm _ _ _ _ Ha).
Qed.

Lemma mine_same :
  List.filter (fun m => Grant.active m && (Grant.grantee m =? a)) (Grant.maps (grant s')) ≡ₚ
  List.filter (fun m => Grant.active m && (Grant.grantee m =? a)) (Grant.maps (grant s)).
Proof.
  pose proof (su_memory _ _ _ HS) as Hm. apply maps_Permutation; try apply h_memory; try done;
    intros m [Ha Hg%N.eqb_eq]%andb_true_iff; [done|]. apply (mo_mappings _ _ _ _ _ Hm); auto.
Qed.

Lemma handle_slots_same : Grant.handle_slots (grant s') a = Grant.handle_slots (grant s) a.
Proof. unfold Grant.handle_slots. by apply foldr_max_Permutation, fmap_Permutation, mine_same. Qed.

Lemma obs_handle_same h : obs_handle (grant s') a h = obs_handle (grant s) a h.
Proof.
  pose proof (su_memory _ _ _ HS) as Hm. unfold obs_handle.
  replace (Grant.mapping_at (grant s') a h) with (Grant.mapping_at (grant s) a h); [done|].
  apply option_eq. intros x. rewrite !mapping_at_Some by (apply h_memory; done).
  split; intros (m & Hin & Hh & ->); exists m; (split_and!; [|done|done]);
    pose proof (proj1 (Grant.holds_true _ _ _) Hh) as [Ha [= Hg _]];
    apply (mo_mappings _ _ _ _ _ Hm); auto.
Qed.

Lemma obs_edges_same : obs_edges (p2m s') a = obs_edges (p2m s) a.
Proof.
  pose proof (su_memory _ _ _ HS) as Hm. unfold obs_edges, P2m.link_edges.
  pose (own p l := bool_decide (P2m.owner_of p (P2m.parent l) = Some a)).
  rewrite !filter_fmap_bool, !filter_filter_bool. apply merge_sort_eq, fmap_Permutation, fmap_Permutation.
  change (List.filter (fun l => P2m.active l && own (p2m s') l) (P2m.links (p2m s')) ≡ₚ
    List.filter (fun l => P2m.active l && own (p2m s) l) (P2m.links (p2m s))).
  replace (List.filter (fun l => P2m.active l && own (p2m s') l) (P2m.links (p2m s'))) with
    (List.filter (fun l => P2m.active l && own (p2m s) l) (P2m.links (p2m s'))).
  - eapply links_Permutation; [apply (h_memory s HI)|apply (h_memory s' HI')|..].
    + by intros l [? _]%andb_true_iff.
    + intros l [Ha Ho%bool_decide_eq_true]%andb_true_iff. apply (mo_links _ _ _ _ _ Hm); auto.
  - apply filter_ext. intros l. f_equal. unfold own. apply bool_decide_ext. symmetry.
    apply (mo_owner _ _ _ _ _ Hm).
Qed.

Lemma surface_obs : obs s' a = obs s a.
Proof.
  pose proof (su_memory _ _ _ HS) as Hm. unfold obs, is_live, life_of, balance.
  rewrite (su_life _ _ _ HS), (su_credit _ _ _ HS), obs_edges_same, handle_slots_same.
  rewrite port_count_same, vcpu_count_same, (proj2 (mo_shape _ _ _ _ _ Hm)).
  rewrite (mo_frames _ _ _ _ _ Hm).
  rewrite (ds_count _ _ _ (su_device _ _ _ HS)).
  rewrite (flat_map_ext_eq _ _ _ obs_port_same), (flat_map_ext_eq _ _ _ obs_grant_same).
  rewrite (flat_map_ext_eq _ _ _ obs_handle_same).
  rewrite (flat_map_ext_eq (obs_vcpu (sched s) a) (obs_vcpu (sched s') a)).
  2: { intros v. unfold obs_vcpu, Sched.state_of, Sched.affinity_of.
       by rewrite (su_sched _ _ _ HS). }
  rewrite (flat_map_ext_eq (obs_frame (p2m s) a) (obs_frame (p2m s') a)).
  2: { intros m. apply obs_frame_canon; [apply (mo_owner _ _ _ _ _ Hm)|].
       intros Ho. eapply surface_frame; [apply (h_memory s HI)|apply (h_memory s' HI')|done|done]. }
  rewrite (filter_ext (fun dev => bool_decide (Device.holder_of (device s') dev = Some a))
    (fun dev => bool_decide (Device.holder_of (device s) dev = Some a))); [done|].
  intros dev. apply bool_decide_ext. apply (ds_held _ _ _ (su_device _ _ _ HS)).
Qed.
End Surface.
