(* ===== verification/NonInterf.v ===== *)
(** * Non-interference — [hv-sim/src/noninterference.rs]

    Local respect, for every reachable state of the core: a transition of a domain that has
    no channel to another leaves what the other observes unchanged. The one flow the
    relation of channels does not name — the teardown of a domain whose frame the observer
    has offered without owning it — is a hypothesis of the theorem, and a run exhibits it. *)

From Stdlib Require Import NArith Lia.
From stdpp Require Import base numbers list option.
From S2P Require Import Credit.
From S2P Require Import Device.
From S2P Require Import Sched.
From S2P Require Import Evtchn.
From S2P Require Import Grant.
From S2P Require Import P2m.
From S2P Require Import Hypervisor.
From S2P Require Import HvInvariant.
From S2P Require Import HvEvents.
From S2P Require Import HvMemory.
From S2P Require Import HvControl.
From S2P Require Import HvLifecycle.
From S2P Require Import HvSafety.
From S2P Require Import HvTheorems.
From S2P Require Import Observe.
From S2P Require Import Prelude.
#[local] Open Scope N_scope.

(** ** Specification *)

(** What the observer holds toward [c], as the channels read it. *)
Definition no_offer (s : Hypervisor) (a c : DomId) : Prop :=
  forall r f ro, Grant.authority (grant s) a r <> Some (c, f, ro).
Definition no_port (s : Hypervisor) (a c : DomId) : Prop :=
  forall p x, Evtchn.chan_opt (evtchn s) a p = Some x -> Evtchn.names c x = false.
Record no_borrow (s : Hypervisor) (a c : DomId) : Prop := mkNoBorrow {
  nb_maps : forall m, m ∈ Grant.maps (grant s) -> Grant.active m = true ->
    Grant.grantee m = a -> Grant.grantor m <> c;
  nb_links : forall l, l ∈ P2m.links (p2m s) -> P2m.active l = true ->
    P2m.owner_of (p2m s) (P2m.parent l) = Some a -> P2m.owner_of (p2m s) (P2m.child l) <> Some c;
}.

(** [b] has no channel to [a]. *)
Record stranger (s : Hypervisor) (b a : DomId) : Prop := mkStranger {
  sg_ne : b <> a;
  sg_offer : no_offer s a b;
  sg_port : no_port s a b;
  sg_control : has_control s b a = false;
  sg_create : has_may_create s b = true -> vget (life s) a = Some Live;
  sg_reach : forall c, has_control s b c = true -> no_offer s a c /\ no_port s a c;
  sg_borrow : forall c, c = b \/ has_control s b c = true -> no_borrow s a c;
}.

(** [a] has offered a frame that [c] owns. *)
Definition offers_frame_of (s : Hypervisor) (a c : DomId) : bool :=
  existsb (fun r =>
      match Grant.grant_entry (grant s) a r with
      | Some (_, frame, _, _, _) => bool_decide (P2m.owner_of (p2m s) frame = Some c)
      | None => false
      end) (vrange (as_u32 (Grant.entry_count (grant s) a))).

(** ** Lemmas *)

(** *** The channels *)

Lemma rows_false g a (q : DomId -> N -> bool) :
  Grant.Inv g ->
  existsb (fun r =>
      match Grant.grant_entry g a r with
      | Some (to, f, _, _, _) => q to f
      | None => false
      end) (vrange (as_u32 (Grant.entry_count g a))) = false ->
  forall r to f ro, Grant.authority g a r = Some (to, f, ro) -> q to f = false.
Proof.
  intros HG Hx r to f ro Ha. rewrite existsb_false in Hx.
  specialize (Hx r (proj2 (Grant.authority_bounds _ _ _ _ HG Ha))).
  rewrite grant_entry_counts, Ha in Hx by done. exact Hx.
Qed.

Lemma a_grants_to_false s a c : Grant.Inv (grant s) -> a_grants_to s a c = false -> no_offer s a c.
Proof.
  intros HG H r f ro Ha. pose proof (rows_false _ a (fun to _ => to =? c) HG H _ _ _ _ Ha) as Hc.
  by apply N.eqb_neq in Hc.
Qed.

Lemma offers_frame_of_false s a c :
  Grant.Inv (grant s) -> offers_frame_of s a c = false ->
  forall r to f ro, Grant.authority (grant s) a r = Some (to, f, ro) ->
    P2m.owner_of (p2m s) f <> Some c.
Proof.
  intros HG H r to f ro Ha.
  pose proof (rows_false _ a (fun _ f => bool_decide (P2m.owner_of (p2m s) f = Some c)) HG H _ _ _ _ Ha) as Hc.
  by apply bool_decide_eq_false in Hc.
Qed.

Lemma a_port_toward_false s a c :
  Evtchn.Inv (evtchn s) -> a_port_toward s a c = false -> no_port s a c.
Proof.
  intros HE H p x Hx. unfold a_port_toward in H. rewrite existsb_false in H.
  specialize (H p (Evtchn.vget_port_lt _ _ _ _ HE Hx)).
  unfold Evtchn.state_of in H. rewrite Hx in H. simpl in H. unfold Evtchn.names.
  by destruct (Evtchn.state x).
Qed.

Lemma handle_slots_lt g m :
  Grant.Inv g -> vlen (Grant.maps g) < u32_max -> m ∈ Grant.maps g -> Grant.active m = true ->
  Grant.handle m ∈ vrange (as_u32 (Grant.handle_slots g (Grant.grantee m))).
Proof.
  intros (_ & _ & HL) Hcap Hm Ha. apply elem_vrange. unfold Grant.handle_slots.
  set (mine := List.filter _ (Grant.maps g)).
  assert (Hle : foldr N.max 0 ((fun m => Grant.handle m + 1) <$> mine) <= u32_max).
  { assert (Hall : forall x, x ∈ mine -> Grant.handle x + 1 <= u32_max).
    { intros x [Hx [Hxa _]%andb_true_iff]%elem_filter_bool. pose proof (HL x Hx Hxa). lia. }
    clearbody mine. induction mine as [|x l IH]; csimpl; [done|].
    pose proof (Hall x ltac:(by left)). specialize (IH ltac:(intros; apply Hall; by right)). lia. }
  rewrite as_u32_id by done.
  assert (Hin : m ∈ mine).
  { apply elem_filter_bool. split; [done|]. by rewrite Ha, N.eqb_refl. }
  clear Hle. clearbody mine. induction Hin as [m l|m x l _ IH]; csimpl; [lia|].
  specialize (IH Hm Ha). lia.
Qed.

Lemma a_borrows_from_false s a c :
  HInv s -> vlen (Grant.maps (grant s)) < u32_max -> a_borrows_from s a c = false ->
  no_borrow s a c.
Proof.
  intros HI Hcap H. unfold a_borrows_from in H. cbv zeta in H. apply orb_false_iff in H as [H1 H2].
  pose proof (mem_grant _ _ (h_memory s HI)) as HG.
  rewrite existsb_false in H1. rewrite existsb_false in H2. split.
  - intros m Hm Ha <- <-. pose proof (handle_slots_lt _ _ HG Hcap Hm Ha) as Hh.
    specialize (H1 _ Hh). assert (Hat : Grant.mapping_at (grant s) (Grant.grantee m) (Grant.handle m) =
      Some (Grant.grantor m, Grant.gref m, Grant.writable m)).
    { apply mapping_at_Some; [done|]. exists m. split_and!; [done| |done]. by apply Grant.holds_true. }
    rewrite Hat in H1. by apply N.eqb_neq in H1.
  - intros l Hl Ha Hp Hc. specialize (H2 (P2m.parent l, P2m.slot l, P2m.child l, P2m.writable l,
      P2m.leaf l, P2m.execute l)).
    cbn beta iota in H2. rewrite !bool_decide_true in H2 by done. discriminate H2. unfold P2m.link_edges.
    apply list_elem_of_fmap. exists l. split; [done|]. by apply elem_filter_bool.
Qed.

Lemma stranger_intro s b a :
  HInv s -> vlen (Grant.maps (grant s)) < u32_max -> b < domain_count s ->
  authorized full s b a = false -> stranger s b a.
Proof.
  intros HI Hcap Hb H. unfold authorized in H. simpl in H.
  repeat match goal with H : _ || _ = false |- _ => apply orb_false_iff in H as [H ?] end.
  match goal with H : teardown_reach_to _ _ _ = _ |- _ => rename H into Hr end.
  match goal with H : teardown_borrow_from _ _ _ = _ |- _ => rename H into Hbo end.
  unfold teardown_reach_to in Hr. unfold teardown_borrow_from in Hbo.
  rewrite existsb_false in Hr, Hbo. pose proof (mem_grant _ _ (h_memory s HI)) as HG.
  pose proof (ev_evtchn _ _ (h_events s HI)) as HE.
  assert (Hin : forall c, c = b \/ has_control s b c = true -> c ∈ vrange (as_u16 (domain_count s))).
  { intros c Hc. rewrite as_u16_id by (apply (d_max s), HI). apply elem_vrange.
    destruct Hc as [->|Hc]; [done|]. by apply (has_control_range s HI) in Hc as [_ ?]. }
  split.
  - by apply N.eqb_neq.
  - by apply a_grants_to_false.
  - by apply a_port_toward_false.
  - done.
  - intros Hm. match goal with H : has_may_create s b && _ = false |- _ => rewrite Hm in H end.
    unfold is_live, life_of in *. simpl in *.
    match goal with H : negb _ = false |- _ => by apply negb_false_iff, bool_decide_eq_true in H end.
  - intros c Hc. specialize (Hr c (Hin c (or_intror Hc))). rewrite Hc in Hr. simpl in Hr.
    apply orb_false_iff in Hr as [? ?]. split; [by apply a_grants_to_false|by apply a_port_toward_false].
  - intros c Hc. specialize (Hbo c (Hin c Hc)). apply a_borrows_from_false; [done..|].
    destruct Hc as [->|Hc]; [rewrite N.eqb_refl in Hbo|rewrite Hc, orb_true_r in Hbo]; done.
Qed.

(** *** Surfaces *)

Lemma ev_same_refl a e : ev_same a e e.
Proof. done. Qed.
Lemma sc_same_refl a c : sc_same a c c.
Proof. done. Qed.
Lemma dv_same_refl a d : dv_same a d d.
Proof. by split. Qed.
Lemma mem_same_refl a g p : mem_same a g p g p.
Proof. split; try done. intros m x x' _ Hx Hx'. by simplify_eq. Qed.
#[local] Hint Resolve ev_same_refl sc_same_refl dv_same_refl mem_same_refl : core.

Lemma surface_refl a s : same_surface a s s.
Proof. by split. Qed.

(** An entry of [to]'s tables onto a frame of another domain. *)
Lemma foreign_linked_by_true p f to :
  P2m.is_foreign_linked_by p f to = true <->
  P2m.owner_of p f <> Some to /\ exists l, l ∈ P2m.links p /\ P2m.active l = true /\
    P2m.child l = f /\ P2m.owner_of p (P2m.parent l) = Some to.
Proof.
  unfold P2m.is_foreign_linked_by. rewrite existsb_elem. split.
  - intros (l & Hl & [[[Ha Hc%N.eqb_eq]%andb_true_iff Hp%bool_decide_eq_true]%andb_true_iff
      Hne%bool_decide_eq_true]%andb_true_iff).
    split; [congruence|]. by exists l.
  - intros (Hne & l & Hl & Ha & Hc & Hp). exists l. split; [done|].
    rewrite Ha, Hc, N.eqb_refl, !bool_decide_true by congruence. done.
Qed.

(** The status depends on the entries of that domain onto that frame. *)
Lemma foreign_linked_by_same p p' f to :
  (P2m.owner_of p' f <> Some to <-> P2m.owner_of p f <> Some to) \/
    (forall l, l ∈ P2m.links p -> P2m.active l = true -> P2m.child l <> f) /\
    (forall l, l ∈ P2m.links p' -> P2m.active l = true -> P2m.child l <> f) ->
  (forall l, P2m.active l = true -> P2m.child l = f ->
     l ∈ P2m.links p' /\ P2m.owner_of p' (P2m.parent l) = Some to <->
     l ∈ P2m.links p /\ P2m.owner_of p (P2m.parent l) = Some to) ->
  P2m.is_foreign_linked_by p' f to = P2m.is_foreign_linked_by p f to.
Proof.
  intros Ho Hl. apply eq_iff_eq_true. rewrite !foreign_linked_by_true.
  destruct Ho as [Ho|[H1 H2]]; [rewrite Ho|]; split; intros (? & l & ? & ? & ? & ?); try naive_solver.
Qed.

(** Grant changes that touch neither the entries of [a] nor a mapping of or on [a]. *)
Lemma mem_same_grant a g g' p :
  Grant.same_shape g g' -> (forall r, Grant.authority g' a r = Grant.authority g a r) ->
  (forall m, Grant.active m = true -> Grant.grantor m = a \/ Grant.grantee m = a ->
     m ∈ Grant.maps g' <-> m ∈ Grant.maps g) -> mem_same a g p g' p.
Proof. intros Hsh Ha Hm. split; try done. intros m x x' _ Hx Hx'. by simplify_eq. Qed.

Lemma mem_same_both a g p g' p' :
  mem_same a g p g' p -> mem_same a g p g p' -> mem_same a g p g' p'.
Proof. by intros [] []; split. Qed.

(** The marks of the observer's frames. *)
Definition marks_kept (a : DomId) (p p' : P2m.System) : Prop := forall m x x',
  P2m.owner_of p m = Some a -> P2m.allocated p m = Some x -> P2m.allocated p' m = Some x' ->
  P2m.pinned x' = P2m.pinned x /\
  (0 < P2m.pagetable_refs x -> 0 < P2m.pagetable_refs x' -> P2m.pt_level x' = P2m.pt_level x).

Lemma marks_same a p p' :
  (forall m, P2m.owner_of p m = Some a -> P2m.allocated p' m = P2m.allocated p m) ->
  marks_kept a p p'.
Proof. intros H m x x' Ho Hx. rewrite H by done. intros Hx'. by simplify_eq. Qed.

Lemma marks_drops a p p' : P2m.drops p p' -> marks_kept a p p'.
Proof.
  intros Hd m x x' _ Hx Hx'. destruct (Hd m x' Hx') as (y & Hy & -> & ->). by simplify_eq.
Qed.

Lemma allocated_other a p m f o m' :
  m < vlen (P2m.frames p) -> P2m.owner_of p m = o -> o <> Some a -> P2m.owner_of p m' = Some a ->
  P2m.allocated (P2m.set_frame m f p) m' = P2m.allocated p m'.
Proof.
  intros Hm Ho Hne Ho'. rewrite P2m.allocated_set by done. rewrite decide_False; [done|congruence].
Qed.

(** Page-table changes that keep every owner. *)
Lemma mem_same_steady a g p p' :
  P2m.steady p p' -> marks_kept a p p' ->
  (forall l, P2m.active l = true ->
    P2m.owner_of p (P2m.parent l) = Some a \/ P2m.owner_of p (P2m.child l) = Some a \/
    (exists r to ro, Grant.authority g a r = Some (to, P2m.child l, ro) /\
       P2m.owner_of p (P2m.parent l) = Some to) ->
    l ∈ P2m.links p' <-> l ∈ P2m.links p) ->
  mem_same a g p g p'.
Proof.
  intros Hst Hmk Hl. split; try done.
  - apply Hst.
  - intros m. by rewrite (P2m.st_owner _ _ Hst).
  - intros l Ha [?|?]; apply Hl; auto.
  - intros r to f ro Hr. apply foreign_linked_by_same; rewrite ?(P2m.st_owner _ _ Hst); [by left|].
    intros l Ha <-. rewrite (P2m.st_owner _ _ Hst). split; intros [Hin Hp];
      (split; [|done]); apply Hl; eauto 8.
Qed.

(** What a guest cannot see, an observer cannot either. *)
Lemma view_surface a s s' : same_view s s' -> same_surface a s s'.
Proof.
  intros [H1 H2 H3 H4 H5 H6 H7 [Hsh Hau] Hm Hp]. split; rewrite ?H1, ?H2, ?H3, ?H4, ?H5; auto.
  pose proof (P2m.obs_eq_steady _ _ Hp) as Hst. split; try done.
  - intros m Ha _. by apply Hm.
  - apply Hst.
  - intros m. by rewrite (P2m.st_owner _ _ Hst).
  - intros m x x' _ Hx Hx'. pose proof (P2m.oe_alloc _ _ Hp m) as Hc. rewrite Hx, Hx' in Hc.
    injection Hc as Hc. destruct (canon_fields _ _ Hc) as (_ & _ & _ & _ & _ & ? & ?). auto.
  - intros l _ _. by rewrite (P2m.oe_links _ _ Hp).
  - intros r to f ro _. apply foreign_linked_by_same; rewrite ?(P2m.st_owner _ _ Hst); [by left|].
    intros l Ha _. by rewrite (P2m.oe_links _ _ Hp), (P2m.st_owner _ _ Hst).
Qed.

Lemma surface_events a s e c :
  ev_same a (evtchn s) e -> sc_same a (sched s) c -> same_surface a s (set_sched c (set_evtchn e s)).
Proof. by split. Qed.
Lemma surface_evtchn a s e : ev_same a (evtchn s) e -> same_surface a s (set_evtchn e s).
Proof. by split. Qed.
Lemma surface_sched a s c : sc_same a (sched s) c -> same_surface a s (set_sched c s).
Proof. by split. Qed.
Lemma surface_memory a s g p :
  mem_same a (grant s) (p2m s) g p -> same_surface a s (set_p2m p (set_grant g s)).
Proof. by split. Qed.
Lemma surface_grant a s g : mem_same a (grant s) (p2m s) g (p2m s) -> same_surface a s (set_grant g s).
Proof. by split. Qed.
Lemma surface_p2m a s p : mem_same a (grant s) (p2m s) (grant s) p -> same_surface a s (set_p2m p s).
Proof. by split. Qed.

Lemma ev_same_step a d p c e e' : Evtchn.step_at d p c e e' -> d <> a -> ev_same a e e'.
Proof.
  intros (_ & _ & Hst) Hne q. rewrite Hst. by rewrite decide_False by naive_solver.
Qed.
Lemma sc_same_step a d v x c c' : Sched.step_at d v x c c' -> d <> a -> sc_same a c c'.
Proof.
  intros (_ & _ & Hst) Hne q. rewrite Hst. by rewrite decide_False by naive_solver.
Qed.

(** *** The hypercalls, one by one *)

(** An answered call moved nothing of the observer's; a refused one is not seen anyway. *)
Definition unseen {T} (a : DomId) (s s' : Hypervisor) (r : result HvError T) : Prop :=
  match r with Ok _ => same_surface a s s' | Err _ => True end.

Section Handlers.
Context (s : Hypervisor) (caller a : DomId).
Context (HI : HInv s) (Hcaller : vget (life s) caller = Some Live) (HS : stranger s caller a).

Lemma unseen_call {A E T} (l : lens Hypervisor A) (m : M A (result E T)) fo fe :
  wp m (fun x r => match r with Ok _ => same_surface a s (lset l x s) | Err _ => True end) (lget l s) ->
  wp (call l m fo fe) (unseen a s) s.
Proof. intros Hm. apply wp_call. wp_apply Hm. intros x [y|e]; done. Qed.

(** A port of the observer does not name the caller. *)
Lemma port_names p x : Evtchn.chan_opt (evtchn s) a p = Some x ->
  Evtchn.state x <> Evtchn.Unbound caller /\ forall q, Evtchn.state x <> Evtchn.Interdomain caller q.
Proof.
  intros Hx. pose proof (sg_port _ _ _ HS p x Hx) as Hn. unfold Evtchn.names in Hn.
  destruct (Evtchn.state x); (split; [|intros q]); try done; apply N.eqb_neq in Hn; congruence.
Qed.

(** The other end of a channel of the caller is not the observer's. *)
Lemma peer_not_observer p x d q :
  Evtchn.chan_opt (evtchn s) caller p = Some x -> Evtchn.state x = Evtchn.Interdomain d q -> d <> a.
Proof.
  rewrite Evtchn.chan_opt_tget. intros Hx Hs ->.
  destruct (Evtchn.inv_peer _ (ev_evtchn _ _ (h_events s HI)) _ _ _ _ _ Hx Hs) as (y & Hy & Hys).
  rewrite <- Evtchn.chan_opt_tget in Hy. by destruct (port_names _ _ Hy) as [_ Hn%(fun h => h p)].
Qed.

Lemma unseen_alloc r :
  wp (reject_dead_target r ;? call evtchn_l (Evtchn.alloc_unbound caller r) OPort EEvtchn)
    (unseen a s) s.
Proof.
  wp_step. apply wp_reject_dead_target; [done|intros _|done]. cbn beta iota. apply unseen_call.
  wp_apply Evtchn.wp_alloc_unbound; [apply HI|]. intros e' [p|e]; [|done]. intros (_ & _ & Hst).
  eapply surface_evtchn, ev_same_step, HS. done.
Qed.

Lemma unseen_bind_interdomain r q :
  wp (call evtchn_l (Evtchn.bind_interdomain caller r q) OPort EEvtchn) (unseen a s) s.
Proof.
  apply unseen_call. wp_apply Evtchn.wp_bind_interdomain; [apply HI|]. intros e' [p|e]; [|done].
  intros (Hu & _ & _ & Hsh & Hst). apply surface_evtchn. intros x. rewrite Hst.
  pose proof (sg_ne _ _ _ HS). case_decide as Hr; [|by rewrite decide_False by naive_solver].
  destruct Hr as [<- ->]. unfold Evtchn.state_of in Hu.
  destruct (Evtchn.chan_opt _ a q) as [c|] eqn:Hc; [|done]. injection Hu as Hu.
  by destruct (port_names _ _ Hc).
Qed.

Lemma unseen_check_bind {T} v (m : M Evtchn.System (result Evtchn.EvtchnError T)) fo :
  wp m (fun e' r => match r with Ok _ => ev_same a (evtchn s) e' | Err _ => True end) (evtchn s) ->
  wp (check_bind_vcpu caller v ;? call evtchn_l m fo EEvtchn) (unseen a s) s.
Proof.
  intros Hm. unfold check_bind_vcpu. wp_step. wp_step. wp_step. wp_step; [|done].
  apply unseen_call. wp_apply Hm. intros e' [p|e]; [|done]. apply surface_evtchn.
Qed.

Lemma unseen_close p : wp (call evtchn_l (Evtchn.close caller p) done EEvtchn) (unseen a s) s.
Proof.
  apply unseen_call. wp_apply Evtchn.wp_close; [apply HI|]. intros e' [[]|e]; [|done].
  intros (c & Hc & _ & _ & Hsh & Hst). apply surface_evtchn. intros x. rewrite Hst.
  pose proof (sg_ne _ _ _ HS). rewrite decide_False by naive_solver.
  rewrite decide_False; [done|]. intros Hp. by eapply peer_not_observer.
Qed.

Lemma unseen_mask p : wp (call evtchn_l (Evtchn.mask caller p) done EEvtchn) (unseen a s) s.
Proof.
  apply unseen_call. wp_apply Evtchn.wp_set_masked; [apply HI|]. intros e' [[]|e]; [|done].
  intros (c & _ & _ & Hst). by eapply surface_evtchn, ev_same_step, HS.
Qed.

Lemma unseen_consume p : wp (call evtchn_l (Evtchn.consume caller p) OPending EEvtchn) (unseen a s) s.
Proof.
  apply unseen_call. wp_apply Evtchn.wp_consume; [apply HI|]. intros e' [b|e]; [|done].
  intros (c & _ & _ & _ & Hst). by eapply surface_evtchn, ev_same_step, HS.
Qed.

(** A signal to a port that is not the observer's, and the wakeup that follows it. *)
Lemma surface_signal d p c x e' c' :
  Evtchn.step_at d p x (evtchn s) e' -> Evtchn.chan_opt (evtchn s) d p = Some c -> d <> a ->
  (forall d' v, d' <> d -> Sched.vcpu_opt c' d' v = Sched.vcpu_opt (sched s) d' v) ->
  same_surface a s (set_sched c' (set_evtchn e' s)).
Proof.
  intros Hst Hc Hd Hv. apply surface_events; [by eapply ev_same_step|].
  intros v. by apply Hv.
Qed.

Lemma unseen_send p : wp (evtchn_send caller p) (unseen a s) s.
Proof.
  unfold evtchn_send. wp_step. apply wp_call. simpl.
  wp_apply Evtchn.wp_send; [apply HI|]. intros e' [[]|err]; simpl; [|done].
  intros (d & q & c & Ht & Hc & Hst). wp_step. wp_step. wp_step. simpl.
  rewrite (send_target_step _ _ _ _ _ _ caller p Hst Hc eq_refl), Ht. simpl.
  eapply wp_wake_if_deliverable; [done|by eapply ev_step_signal|]. intros c' s' _ _ Hv.
  wp_step. eapply surface_signal; [done|done| |done].
  unfold Evtchn.send_target in Ht. destruct (Evtchn.chan_opt _ caller p) as [x|] eqn:Hx; [|done].
  destruct (Evtchn.state x) eqn:Hs; try done; injection Ht as <- <-; [by eapply peer_not_observer|apply HS].
Qed.

Lemma unseen_unmask p : wp (evtchn_unmask caller p) (unseen a s) s.
Proof.
  unfold evtchn_unmask. wp_step. apply wp_call. simpl.
  wp_apply (Evtchn.wp_set_masked caller p false); [apply HI|]. intros e' [[]|err]; simpl; [|done].
  intros (c & Hc & _ & Hst). wp_step.
  eapply wp_wake_if_deliverable; [done|by eapply ev_step_signal|]. intros c' s' _ _ Hv.
  wp_step. eapply surface_signal; [done|done|apply HS|done].
Qed.

Lemma unseen_sched (m : M Sched.System (result Sched.SchedError unit)) t :
  wp m (fun c' r => match r with
    | Ok _ => exists v x, Sched.step_at t v x (sched s) c'
    | Err _ => True end) (sched s) ->
  t <> a -> wp (call sched_l m done ESched) (unseen a s) s.
Proof.
  intros Hm Ht. apply unseen_call. wp_apply Hm. intros c' [ []|e]; [|done].
  intros (v & x & Hst). by eapply surface_sched, sc_same_step.
Qed.

Lemma unseen_sched_admit v : wp (call sched_l (Sched.admit_vcpu caller v) done ESched) (unseen a s) s.
Proof.
  eapply unseen_sched, HS. wp_apply Sched.wp_admit_vcpu; [apply HI|]. intros c' [[]|e]; naive_solver.
Qed.

Lemma unseen_sched_run v p now :
  wp (call sched_l (Sched.run caller v p now) done ESched) (unseen a s) s.
Proof.
  eapply unseen_sched, HS. wp_apply Sched.wp_run; [apply HI|]. intros c' [[]|e]; naive_solver.
Qed.

Lemma unseen_sched_preempt v now :
  wp (call sched_l (Sched.preempt caller v now) done ESched) (unseen a s) s.
Proof.
  eapply unseen_sched, HS. wp_apply Sched.wp_preempt; [apply HI|]. intros c' [[]|e]; naive_solver.
Qed.

Lemma unseen_sched_wake v : wp (call sched_l (Sched.wake caller v) done ESched) (unseen a s) s.
Proof.
  eapply unseen_sched, HS. wp_apply Sched.wp_wake; [apply HI|]. intros c' [[]|e]; naive_solver.
Qed.

Lemma unseen_sched_offline v now :
  wp (call sched_l (Sched.offline caller v now) done ESched) (unseen a s) s.
Proof.
  eapply unseen_sched, HS. wp_apply Sched.wp_offline; [apply HI|]. intros c' [[]|e]; naive_solver.
Qed.

Lemma unseen_sched_block v now : wp (sched_block caller v now) (unseen a s) s.
Proof.
  unfold sched_block. wp_step. wp_step.
  destruct (_ && _); [wp_step; apply surface_refl|].
  eapply unseen_sched, HS. wp_apply Sched.wp_block; [apply HI|]. intros c' [[]|e]; naive_solver.
Qed.

(** A guard on a capability over the observer refuses. *)
Lemma wp_control_not_observer t (Q : Hypervisor -> result HvError unit -> Prop) :
  t < domain_count s -> (t <> a -> Q s (Ok tt)) -> (forall e, Q s (Err e)) ->
  wp (require_control_or_self caller t) Q s.
Proof.
  intros Ht Hok Herr. apply wp_require_control; [done..| |intros; apply Herr].
  intros Hc. apply Hok. intros ->. destruct Hc as [Hc|[_ Hc] ]; [by apply (sg_ne _ _ _ HS)|].
  by rewrite (sg_control _ _ _ HS) in Hc.
Qed.

Lemma unseen_sched_set_affinity t v aff : wp (sched_set_affinity caller t v aff) (unseen a s) s.
Proof.
  unfold sched_set_affinity. wp_step. wp_step. wp_step. wp_step; [|done]. wp_step.
  apply wp_control_not_observer; [done| |done]. intros Ht. cbn beta iota.
  eapply unseen_sched; [|done]. wp_apply Sched.wp_set_affinity; [apply HI|].
  intros c' [[]|e]; naive_solver.
Qed.

(** *** Devices and capabilities *)

Lemma cell_not_observer t e :
  tget (controls s) caller t = Some e -> e <> Absent -> t <> a.
Proof.
  intros He Hne ->. pose proof (sg_control _ _ _ HS) as Hc.
  rewrite (has_control_cell s caller a e He), bool_decide_true in Hc by done. done.
Qed.

Lemma unseen_device (m : M Device.System (result Device.DeviceError unit)) :
  wp m (fun d' r => match r with Ok _ => dv_same a (device s) d' | Err _ => True end) (device s) ->
  wp (call device_l m done EDevice) (unseen a s) s.
Proof. intros Hm. apply unseen_call. wp_apply Hm. intros d' [ []|e]; [by split|done]. Qed.

Lemma unseen_device_assign dev to : wp (device_assign caller dev to) (unseen a s) s.
Proof.
  pose proof (h_dims s HI) as HD. unfold device_assign. wp_step. wp_step. wp_step. wp_step; [|done].
  wp_step. apply wp_cell; [done| |done|]; [by apply (caller_range s caller)|]. intros e He.
  wp_step. wp_step; [|done]. pose proof (cell_not_observer _ _ He ltac:(done)) as Hto. wp_step.
  apply wp_reject_dead_target; [done|intros _|done]. cbn beta iota.
  apply unseen_device. wp_apply Device.wp_assign. intros d' [[]|err]; [|done].
  intros ((_ & _ & Hfree) & _ & Hct & Hh). split; [done|]. intros d. rewrite Hh.
  case_decide; [|done]. subst d. destruct Hfree as [-> | ->]; split; congruence.
Qed.

Lemma unseen_device_release dev from : wp (device_release caller dev from) (unseen a s) s.
Proof.
  unfold device_release. wp_step. wp_step. wp_step. wp_step; [|done]. wp_step.
  apply wp_control_not_observer; [done| |done]. intros Hf. cbn beta iota.
  apply unseen_device. wp_apply Device.wp_release. intros d' [[]|err]; [|done].
  intros ((_ & Hheld) & _ & Hct & Hh). split; [done|]. intros d. rewrite Hh.
  case_decide; [|done]. subst d. rewrite Hheld. split; congruence.
Qed.

Lemma unseen_control_grant t to : wp (control_grant caller t to) (unseen a s) s.
Proof.
  wp_apply wp_control_grant; [done..|]. intros s' [o|e] [_ Hr]; [|done].
  destruct Hr as (_ & [ [_ ->]|[_ ->] ]); [apply surface_refl|by split].
Qed.

Lemma unseen_control_revoke t from : wp (control_revoke caller t from) (unseen a s) s.
Proof.
  wp_apply wp_control_revoke; [done..|]. intros s' [o|e] [_ Hr]; [|done].
  destruct Hr as (_ & c & -> & _). by split.
Qed.

Lemma unseen_credit m :
  (forall c, Credit.Inv c -> wp m (Credit.credit_post c) c) ->
  wp (credit_call caller m) (unseen a s) s.
Proof.
  intros Hm. unfold credit_call. wp_step. wp_step. wp_step. wp_step; [|done].
  match goal with H : vget _ _ = Some _ |- _ => rename H into Hc end.
  apply unseen_call. unfold lget. simpl. rewrite Hc. simpl.
  wp_apply Hm; [by apply (h_credit s HI caller)|]. intros c' [b|e] _; [|done].
  split; simpl; auto. apply vget_vset_ne. apply HS.
Qed.

(** *** Grants *)

Lemma unseen_grant_access g to f ro :
  wp (reject_dead_target to ;? call grant_l (Grant.grant_access caller g to f ro) done EGrant)
    (unseen a s) s.
Proof.
  wp_step. apply wp_reject_dead_target; [done|intros _|done]. cbn beta iota. apply unseen_call.
  wp_apply Grant.wp_grant_access; [apply HI|]. intros g' [[]|e]; [|done].
  intros (_ & _ & _ & Hsh & Hm & Hau). apply surface_grant, mem_same_grant; [done| |by rewrite Hm].
  intros r. rewrite Hau. pose proof (sg_ne _ _ _ HS). by rewrite decide_False by naive_solver.
Qed.

Lemma unseen_grant_end_access g : wp (grant_end_access caller g) (unseen a s) s.
Proof.
  unfold grant_end_access. wp_step. wp_step. wp_step.
  apply wp_mono with (Q := fun s' r => s' = s).
  { destruct (Grant.granted_frame (grant s) caller g), (Grant.grantee_of (grant s) caller g);
      wp_step; done. }
  intros s' [[]|e] ->; [|done]. apply unseen_call.
  wp_apply Grant.wp_end_access; [apply HI|]. intros g' [[]|e]; [|done].
  intros (_ & _ & _ & Hsh & Hm & Hau). apply surface_grant, mem_same_grant; [done| |by rewrite Hm].
  intros r. rewrite Hau. pose proof (sg_ne _ _ _ HS). by rewrite decide_False by naive_solver.
Qed.

Lemma unseen_grant_copy from g wr : wp (grant_copy caller from g wr) (unseen a s) s.
Proof.
  unfold grant_copy. wp_step. wp_step. wp_step.
  destruct (Grant.granted_frame (grant s) from g); wp_step; try done; wp_step;
    destruct (Grant.copy _ _ _ _ _); try done; apply surface_refl.
Qed.

(** The grantor of a mapping of the caller is not the observer. *)
Lemma grantor_not_observer m :
  m ∈ Grant.maps (grant s) -> Grant.active m = true -> Grant.grantee m = caller ->
  Grant.grantor m <> a.
Proof.
  intros Hm Ha <- <-.
  destruct (active_authority _ _ (mem_grant _ _ (h_memory s HI)) Hm Ha) as (f & ro & Hau).
  by apply (sg_offer _ _ _ HS) in Hau.
Qed.

Lemma unseen_grant_map from g wr :
  vlen (Grant.maps (grant s)) <= u32_max -> wp (grant_map caller from g wr) (unseen a s) s.
Proof.
  intros Hcap. apply wp_grant_map; [done..| |done|done].
  intros h f g' p' Hf Ho (Hau & _ & _ & _ & [Hsh Hsa] & [_ Hin] & _) Ht. pose proof (sg_ne _ _ _ HS) as Hne.
  assert (Hfr : from <> a).
  { intros ->. destruct Hau as (f' & ro & Hau & _). by apply (sg_offer _ _ _ HS) in Hau. }
  apply surface_memory, mem_same_both.
  - apply mem_same_grant; [done..|]. intros m Ha Hm. rewrite Hin by done. split; [|by right].
    intros [->|?]; [|done]. simpl in Hm. destruct Hm; congruence.
  - destruct (P2m.took_steady _ _ _ _ _ Ht) as [Hst Hl]. destruct Ht as (x & Hx & _ & -> & _).
    apply mem_same_steady; [done| |done].
    apply marks_same. intros m Hm. eapply allocated_other; [by eapply P2m.allocated_lt|done| |done].
    congruence.
Qed.

Lemma unseen_grant_unmap h : wp (grant_unmap caller h) (unseen a s) s.
Proof.
  apply wp_grant_unmap; [done| |done]. intros u g' p' Hu HP Hst Hdr Hl.
  pose proof Hu as (i & m & Hi & [Hma Hk]%Grant.holds_true & _ & Hmaps & _ & Hsh & Hsa).
  injection Hk as Hto Hh. pose proof (grantor_not_observer m (vget_elem _ _ _ Hi) Hma Hto) as Hgr.
  apply surface_memory, mem_same_both.
  - apply mem_same_grant; [done..|]. intros x Hxa Hx.
    rewrite (Grant.unmapped_elem _ _ _ _ _ x (mem_grant _ _ (h_memory s HI)) Hu Hxa). split; [tauto|].
    intros Hin. split; [done|]. intros Hkx. unfold Grant.key in Hkx. injection Hkx as Hxg Hxh.
    destruct Hx as [Hx|Hx]; [|by rewrite Hx in Hxg; apply (sg_ne _ _ _ HS)].
    by apply (grantor_not_observer x).
  - apply mem_same_steady; [done|by apply marks_drops|by rewrite Hl].
Qed.

(** *** Page tables *)

Lemma unseen_p2m (m : M P2m.System (result P2m.P2mError unit)) :
  wp m (fun p' r => match r with
    | Ok _ => mem_same a (grant s) (p2m s) (grant s) p'
    | Err _ => True end) (p2m s) ->
  wp (call p2m_l m done EP2m) (unseen a s) s.
Proof. intros Hm. apply unseen_call. wp_apply Hm. intros p' [ []|e]; [apply surface_p2m|done]. Qed.

(** A frame of the caller's, used or not, comes, goes or is marked. *)
Lemma mem_same_idle m f :
  m < vlen (P2m.frames (p2m s)) ->
  P2m.owner_of (p2m s) m <> Some a -> P2m.owner_of (P2m.set_frame m f (p2m s)) m <> Some a ->
  (forall l, l ∈ P2m.links (p2m s) -> P2m.active l = true -> P2m.child l <> m /\ P2m.parent l <> m) ->
  mem_same a (grant s) (p2m s) (grant s) (P2m.set_frame m f (p2m s)).
Proof.
  intros Hm Ho Ho' Hl.
  assert (Hoth : forall x, x <> m -> P2m.owner_of (P2m.set_frame m f (p2m s)) x = P2m.owner_of (p2m s) x).
  { intros x Hx. rewrite owner_of_set by done. by rewrite decide_False. }
  split; try done.
  - unfold P2m.frame_count. simpl. by rewrite vlen_vset.
  - intros x. destruct (decide (x = m)) as [->|Hx]; [tauto|by rewrite Hoth].
  - apply marks_same. intros x Hx. by eapply allocated_other.
  - intros r to f' ro _. apply foreign_linked_by_same; simpl.
    + destruct (decide (f' = m)) as [->|Hx]; [right|left; by rewrite Hoth].
      split; intros l Hin Ha; by apply (Hl l).
    + intros l Ha _. split; intros [Hin Hp]; (split; [done|]);
        destruct (Hl l Hin Ha) as [_ Hpm]; pose proof (Hoth _ Hpm); congruence.
Qed.

Lemma unseen_p2m_allocate m : wp (call p2m_l (P2m.allocate caller m) done EP2m) (unseen a s) s.
Proof.
  pose proof (mem_p2m _ _ (h_memory s HI)) as HP0. pose proof (sg_ne _ _ _ HS) as Hne.
  apply unseen_p2m. wp_apply P2m.wp_allocate; [done|]. intros p' [[]|e]; [|done].
  intros (_ & Hfree & -> & _).
  assert (Hm : m < vlen (P2m.frames (p2m s))).
  { unfold P2m.frame, ok_or in Hfree. destruct (vget _ m) eqn:E; [|done]. by eapply vget_Some_lt. }
  assert (Hno : P2m.allocated (p2m s) m = None) by (unfold P2m.allocated; by rewrite Hfree).
  apply mem_same_idle; [done|..].
  - unfold P2m.owner_of. by rewrite Hno.
  - rewrite owner_of_set, decide_True by done. simpl. congruence.
  - eapply idle_links; [done|congruence].
Qed.

Lemma unseen_p2m_free m : wp (call p2m_l (P2m.free caller m) done EP2m) (unseen a s) s.
Proof.
  pose proof (mem_p2m _ _ (h_memory s HI)) as HP0. pose proof (sg_ne _ _ _ HS) as Hne.
  apply unseen_p2m. wp_apply P2m.wp_free; [done|]. intros p' [[]|e]; [|done].
  intros (x & Hx & Ho & Hz & -> & _). pose proof (P2m.allocated_lt _ _ _ Hx) as Hm.
  apply mem_same_idle; [done|..].
  - unfold P2m.owner_of. rewrite Hx. simpl. congruence.
  - rewrite owner_of_set, decide_True by done. done.
  - eapply idle_links; [done|congruence].
Qed.

Lemma mem_same_own m x f :
  P2m.allocated (p2m s) m = Some x -> P2m.f_owner x = caller ->
  P2m.steady (p2m s) (P2m.set_frame m f (p2m s)) ->
  mem_same a (grant s) (p2m s) (grant s) (P2m.set_frame m f (p2m s)).
Proof.
  intros Hx Ho Hst. apply mem_same_steady; [done| |done]. apply marks_same. intros y Hy.
  eapply allocated_other; [by eapply P2m.allocated_lt|done| |done].
  unfold P2m.owner_of. rewrite Hx. simpl. pose proof (sg_ne _ _ _ HS). congruence.
Qed.

Lemma unseen_p2m_pin m l : wp (call p2m_l (P2m.pin caller m l) done EP2m) (unseen a s) s.
Proof.
  apply unseen_p2m. wp_apply P2m.wp_pin; [apply HI|]. intros p' [[]|e]; [|done].
  intros (x & Hx & Ho & _ & _ & -> & _ & Hst). by eapply mem_same_own.
Qed.

Lemma unseen_p2m_unpin m : wp (call p2m_l (P2m.unpin caller m) done EP2m) (unseen a s) s.
Proof.
  apply unseen_p2m. wp_apply P2m.wp_unpin; [apply HI|]. intros p' [[]|e]; [|done].
  intros (x & Hx & Ho & _ & -> & _ & Hst). by eapply mem_same_own.
Qed.

(** An entry of the caller's tables is of no concern to the observer, when every frame it
    leads to is the caller's or offered to it. *)
Lemma entry_not_observer l :
  P2m.owner_of (p2m s) (P2m.parent l) = Some caller ->
  (P2m.owner_of (p2m s) (P2m.child l) = Some a ->
     exists w, Grant.authorizes (grant s) a caller (P2m.child l) w = true) ->
  ~ (P2m.owner_of (p2m s) (P2m.parent l) = Some a \/ P2m.owner_of (p2m s) (P2m.child l) = Some a \/
    exists r to ro, Grant.authority (grant s) a r = Some (to, P2m.child l, ro) /\
      P2m.owner_of (p2m s) (P2m.parent l) = Some to).
Proof.
  intros Hp Hau [Hx|[Hx|(r & to & ro & Hr & Hx)] ]; pose proof (sg_ne _ _ _ HS).
  - congruence.
  - destruct (Hau Hx) as (w & (g & ro & Hg & _)%Grant.authorizes_spec).
    by apply (sg_offer _ _ _ HS) in Hg.
  - rewrite Hp in Hx. injection Hx as <-. by apply (sg_offer _ _ _ HS) in Hr.
Qed.

Lemma unseen_p2m_link p sl c wr lf x : wp (p2m_link caller p sl c wr lf x) (unseen a s) s.
Proof.
  apply wp_p2m_link; [intros Hau|done]. apply unseen_p2m. wp_apply P2m.wp_link; [apply HI|].
  intros p' [[]|e]; [|done]. intros (_ & Ho & _ & _ & _ & Hst & Hin & Hpin & Hup & _).
  apply mem_same_steady; [done| |].
  - intros m y y' _ Hy Hy'. split.
    + specialize (Hpin m). unfold P2m.is_pinned in Hpin. by rewrite Hy, Hy' in Hpin.
    + intros H0 _. destruct (Hup m y Hy H0) as (z & Hz & Hlv & _). congruence.
  - intros l Ha Hl. rewrite Hin by done. split; [|by right]. intros [->|?]; [|done].
    exfalso. eapply entry_not_observer; [|..|exact Hl]; simpl; [done|].
    intros Hc. exists wr. apply Hau; [done|]. intros ->. by apply (sg_ne _ _ _ HS).
Qed.

Lemma unseen_p2m_unlink p sl : wp (call p2m_l (P2m.unlink caller p sl) done EP2m) (unseen a s) s.
Proof.
  pose proof (h_memory s HI) as HM. apply unseen_p2m. wp_apply P2m.wp_unlink; [apply HI|].
  intros p' [[]|e]; [|done]. intros (Ho & i & l & Hi & Hla & Hp & _ & Hls & _ & Hst & Hpin & Hlv).
  subst p. apply mem_same_steady; [done|by apply marks_drops, P2m.drops_marks|].
  intros y Ha Hy. rewrite Hls. split; [intros Hin; by eapply P2m.deactivated_elem|].
  intros [j Hj]%elem_vget. eapply vget_elem with j. rewrite vget_vset_ne; [done|]. intros ->.
  assert (y = l) as -> by congruence. eapply entry_not_observer; [done| |exact Hy].
  intros Hc. exists (P2m.writable l). apply (mem_links _ _ HM); [by eapply vget_elem|done..|].
  intros ->. by apply (sg_ne _ _ _ HS).
Qed.

(** *** The lifecycle *)

Lemma unseen_domain_create t mc : wp (domain_create caller t mc) (unseen a s) s.
Proof.
  wp_apply wp_domain_create; [done..|]. intros s' [o|e] [_ Hr]; [|done].
  destruct Hr as (Hm & Hd & ->).
  assert (Ht : t <> a).
  { intros ->. rewrite (sg_create _ _ _ HS) in Hd; [done|]. unfold has_may_create. by rewrite Hm. }
  unfold born. split; simpl; auto. by apply vget_vset_ne.
Qed.

(** What a teardown leaves of a port that does not name the domain. *)
Lemma severed_other t d x : d <> t -> Evtchn.names t x = false -> severed t d x = x.
Proof.
  intros Hd Hn. unfold severed. rewrite decide_False by done.
  assert (Hu : Evtchn.unlink_from t x = x).
  { unfold Evtchn.unlink_from, Evtchn.names in *. destruct (Evtchn.state x); try done.
    apply N.eqb_neq in Hn. by rewrite decide_False. }
  rewrite Hu. unfold Evtchn.clear_unbound, Evtchn.names in *. rewrite decide_False; [done|].
  intros E. rewrite E in Hn. by apply N.eqb_neq in Hn.
Qed.

(** The teardown of a domain the caller may destroy, seen by a stranger. *)
Lemma surface_destroyed t s' :
  caller = t \/ has_control s caller t = true -> destroyed t s s' ->
  (forall r to f ro, Grant.authority (grant s) a r = Some (to, f, ro) ->
     P2m.owner_of (p2m s) f <> Some t) ->
  same_surface a s s'.
Proof.
  intros Ht [D1 D2 _ D4 _ D6 D7 Dc D8 _] Hoff. pose proof (h_memory s HI) as HM.
  assert (Hta : t <> a).
  { intros ->. destruct Ht as [Ht|Ht]; [by apply (sg_ne _ _ _ HS)|].
    by rewrite (sg_control _ _ _ HS) in Ht. }
  assert (Hno : no_offer s a t /\ no_port s a t).
  { destruct Ht as [<-|Ht]; [split; apply HS|by apply (sg_reach _ _ _ HS)]. }
  destruct Hno as [Hno Hnp].
  assert (Hnb : no_borrow s a t) by (apply (sg_borrow _ _ _ HS); destruct Ht; auto).
  split.
  - rewrite D2. by apply vget_vset_ne.
  - by rewrite D1.
  - intros p. rewrite D4. destruct (Evtchn.chan_opt (evtchn s) a p) as [x|] eqn:Hx; [|done].
    simpl. by rewrite severed_other by (done || by eapply Hnp).
  - intros v. by apply D6.
  - destruct D7 as [_ _ Hsh _ _ Hfc Hau Hm Ho Hl Hmk].
    assert (Hown : forall m, P2m.owner_of (p2m s) m = Some a -> P2m.owner_of (p2m s) m <> Some t)
      by congruence.
    split; try done.
    + intros r. rewrite Hau, decide_False by done. apply Grant.strip_None.
      destruct (Grant.authority (grant s) a r) as [[[to f] ro]|] eqn:E; [|done]. simpl.
      intros [= ->]. by apply Hno in E.
    + intros m Ha Hma. rewrite Hm by done. split; [tauto|]. intros Hin. split; [done|].
      destruct Hma as [Hg|Hg]; (split; [intros E|intros E]); try congruence.
      * destruct (active_authority _ _ (mem_grant _ _ HM) Hin Ha) as (f & ro & Hf).
        rewrite Hg, E in Hf. by apply Hno in Hf.
      * by apply (nb_maps _ _ _ Hnb m).
    + intros m. rewrite Ho. case_decide; [|done]. split; congruence.
    + intros m x x' Hom Hx Hx'. destruct (Hmk m x') as (y & Hy & -> & ->); [congruence|done|].
      by simplify_eq.
    + intros l Ha Hla. rewrite Hl by done. split; [tauto|]. intros Hin. split; [done|].
      destruct Hla as [Hp|Hc]; (split; [intros E|intros E]); try congruence.
      * by apply (nb_links _ _ _ Hnb l).
      * pose proof (mem_links _ _ HM l a t Hin Ha Hc E ltac:(congruence)) as Hg.
        apply Grant.authorizes_spec in Hg as (g & ro & Hg & _). by apply Hno in Hg.
    + intros r to f ro Hr. pose proof (Hoff r to f ro Hr) as Hft.
      assert (Hto : to <> t) by (intros ->; by apply Hno in Hr).
      apply foreign_linked_by_same; rewrite ?Ho, ?(decide_False (P := _ = _)) by done; [by left|].
      intros l Ha <-. rewrite Hl by done. rewrite Ho. split.
      * intros [(Hin & Hp & _) Hx]. by rewrite decide_False in Hx.
      * intros [Hin Hx]. split; [split_and!; [done|congruence|done]|].
        rewrite decide_False by congruence. done.
  - split; [done|]. intros dev. rewrite D8. case_decide; [|done]. split; congruence.
Qed.

Lemma unseen_domain_destroy t now :
  (forall r to f ro, Grant.authority (grant s) a r = Some (to, f, ro) ->
     P2m.owner_of (p2m s) f <> Some t) ->
  wp (domain_destroy caller t now) (unseen a s) s.
Proof.
  intros Hoff. wp_apply wp_domain_destroy; [done..|]. intros s' [o|e] [_ Hr]; [|done].
  destruct Hr as (Ht & _ & Hd & _). by eapply surface_destroyed.
Qed.

(** *** The whole surface *)

Lemma unseen_handle c :
  vlen (Grant.maps (grant s)) <= u32_max ->
  (forall t now, c = DomainDestroy t now -> offers_frame_of s a t = false) ->
  wp (handle caller c) (unseen a s) s.
Proof.
  intros Hcap Hoff. destruct c; simpl.
  - apply unseen_credit. intros. by apply Credit.wp_grant_credit.
  - apply unseen_credit. intros. by apply Credit.wp_spend_credit.
  - apply unseen_alloc.
  - apply unseen_bind_interdomain.
  - apply unseen_check_bind. wp_apply Evtchn.wp_bind_virq; [apply HI|]. intros e' [p|e]; [|done].
    intros (_ & _ & Hst). by eapply ev_same_step, HS.
  - apply unseen_check_bind. wp_apply Evtchn.wp_bind_ipi; [apply HI|]. intros e' [p|e]; [|done].
    intros (_ & Hst). by eapply ev_same_step, HS.
  - apply unseen_close.
  - apply unseen_send.
  - apply unseen_mask.
  - apply unseen_unmask.
  - apply unseen_consume.
  - apply unseen_grant_access.
  - apply unseen_grant_end_access.
  - by apply unseen_grant_map.
  - apply unseen_grant_unmap.
  - apply unseen_grant_copy.
  - apply unseen_sched_admit.
  - apply unseen_sched_run.
  - apply unseen_sched_preempt.
  - apply unseen_sched_block.
  - apply unseen_sched_wake.
  - apply unseen_sched_offline.
  - apply unseen_sched_set_affinity.
  - apply unseen_p2m_allocate.
  - apply unseen_p2m_free.
  - apply unseen_p2m_pin.
  - apply unseen_p2m_unpin.
  - apply unseen_p2m_link.
  - apply unseen_p2m_unlink.
  - apply unseen_domain_create.
  - apply unseen_domain_destroy. eapply offers_frame_of_false; [apply HI|by eapply Hoff].
  - apply unseen_control_grant.
  - apply unseen_control_revoke.
  - apply unseen_device_assign.
  - apply unseen_device_release.
Qed.
End Handlers.

Lemma kept_unseen {T} a s s' (r : result HvError T) :
  kept s s' r -> unseen a s s' r -> HInv s' /\ same_surface a s s'.
Proof. intros (HI & _ & Hv) Hu. split; [done|]. destruct r; [done|by apply view_surface]. Qed.

(** A virtual interrupt for another domain. *)
Lemma unseen_raise s a d v q :
  HInv s -> d <> a -> wp (raise_vcpu_virq d v q) (unseen a s) s.
Proof.
  intros HI Hd. unfold raise_vcpu_virq. wp_step. wp_step. simpl.
  wp_apply Evtchn.wp_raise_virq; [apply HI|]. intros e' [p|err]; simpl.
  - intros (c & Hc & _ & Hst). wp_step. wp_step; [|done].
    match goal with H : Ok _ = Ok _ |- _ => injection H as <- end. wp_step.
    eapply wp_wake_if_deliverable; [done|by eapply ev_step_signal|]. intros c' s' HI' _ Hv.
    wp_step. apply wp_check_cross; [done|]. wp_step. wp_step. wp_step. by eapply surface_signal.
  - intros _. wp_step. by wp_step.
Qed.

(** The destruction of a domain is seen through the grants of its frames. *)
Definition unoffered (s : Hypervisor) (a : DomId) (t : Transition) : Prop :=
  forall b c now, t = Guest b (DomainDestroy c now) -> offers_frame_of s a c = false.

Lemma wp_apply_surface s a t :
  HInv s -> vlen (Grant.maps (grant s)) < u32_max ->
  authorized full s (transition_actor t) a = false -> unoffered s a t ->
  wp (apply t) (fun s' _ => HInv s' /\ same_surface a s s') s.
Proof.
  intros HI Hcap Hna Hun. pose proof (h_dims s HI) as HD. destruct t as [b c|d v q]; simpl in *; wp_step.
  - unfold dispatch. wp_step.
    apply wp_mono with (Q := fun s' _ => HInv s' /\ same_surface a s s').
    2: { intros s' r [HI' Hsu]. wp_step. apply wp_check_cross; [done|]. wp_step. by wp_step. }
    unfold route. wp_step. wp_step. wp_step. wp_step; [|split; [done|apply surface_refl]].
    wp_step. apply wp_life_at; [done..|]. intros l Hl. wp_step. wp_step;
      [subst l|split; [done|apply surface_refl]].
    eapply wp_mono; [apply (wp_and _ (kept s) (unseen a s)); [apply kept_handle; [done|done|lia]|]|].
    + apply unseen_handle; [done|done| |lia|].
      * by apply stranger_intro.
      * intros t now ->. by eapply Hun.
    + intros s' r [Hk Hu]. by eapply kept_unseen.
  - assert (Hd : d <> a).
    { intros ->. unfold authorized in Hna. by rewrite N.eqb_refl in Hna. }
    eapply wp_mono; [apply (wp_and _ (kept s) (unseen a s));
      [by apply kept_raise_vcpu_virq|by apply unseen_raise]|].
    intros s' r [Hk Hu]. wp_step. by eapply kept_unseen.
Qed.

(** ** Properties *)

(** C3: local respect: in every reachable state, a transition attributed to a domain that has
    no channel to [a] — it is not [a], [a] has offered it no frame and opened it no port, it
    holds no capability over [a], may not bring [a] to life, and controls no domain that [a]
    offers to, waits for or borrows from — leaves everything [a] observes as it was, bit for
    bit: its account, ports, grants with their reference counts, mappings, vCPUs, frames,
    page-table entries and devices. A destruction must also not be of a domain one of whose
    frames [a] has offered as its own. *)
Theorem local_respect (k : N) (s s' : Hypervisor) (t : Transition)
    (r : result HvError TransitionOutcome) (a : DomId) :
  reachable k s -> k < u32_max -> apply t s = Done s' r ->
  authorized full s (transition_actor t) a = false -> unoffered s a t -> obs s' a = obs s a.
Proof.
  intros Hr Hk E Hna Hun. apply reachable_HInv in Hr as [HI Hlen].
  pose proof (wp_apply_surface s a t HI ltac:(lia) Hna Hun) as H. unfold wp in H. rewrite E in H.
  destruct H as [HI' Hs]. by apply surface_obs.
Qed.

(** Domain 0 offers a frame of domain 2 to domain 1 — which domain 2 also offers it, and
    which domain 1 links. *)
Definition stale_trace : list Transition :=
  [Guest 0 (DomainCreate 1 false); Guest 0 (DomainCreate 2 false);
   Guest 2 (P2mAllocate 5); Guest 2 (GrantAccess 0 1 5 true); Guest 0 (GrantAccess 0 1 5 true);
   Guest 1 (P2mAllocate 0); Guest 1 (P2mPin 0 P2m.L1); Guest 1 (P2mLink 0 0 5 false true false)].
Definition stale : Hypervisor :=
  match run stale_trace (new 3 1 1 0 0 6 0) with Done s _ => s | Panic => new 3 1 1 0 0 6 0 end.

Lemma stale_reachable : reachable 8 stale.
Proof.
  assert (HB : reachable 0 (new 3 1 1 0 0 6 0))
    by (apply reach_boot; repeat split; vm_compute; discriminate).
  destruct (reachable_run 0 _ stale_trace HB) as (s & rs & E & _ & HR); [vm_compute; discriminate|].
  unfold stale. rewrite E. exact HR.
Qed.

Theorem local_respect_witness :
  exists s' r, apply (Guest 2 (P2mAllocate 4)) stale = Done s' r /\ obs s' 0 = obs stale 0.
Proof.
  assert (E : exists s' r, apply (Guest 2 (P2mAllocate 4)) stale = Done s' r)
    by (vm_compute; eauto).
  destruct E as (s' & r & E). exists s', r. split; [exact E|].
  refine (local_respect 8 stale s' (Guest 2 (P2mAllocate 4)) r 0 stale_reachable _ E _ _).
  - vm_compute. reflexivity.
  - vm_compute. reflexivity.
  - intros b c now H. discriminate H.
Defined.

(** The hypothesis on destructions is needed: a run of eight successful hypercalls leads
    to a state in which domain 2 has no channel to domain 0 — the whole relation denies
    it — and yet, by destroying itself, it changes what domain 0 observes: the status of the
    grant by which domain 0 had offered one of domain 2's frames as if it were its own. *)
Theorem stale_offer_flow :
  exists s', reachable 8 stale /\ authorized full stale 2 0 = false /\
    apply (Guest 2 (DomainDestroy 2 0)) stale = Done s' (Ok (TGuest ODone)) /\
    obs s' 0 <> obs stale 0.
Proof.
  assert (E : exists s', apply (Guest 2 (DomainDestroy 2 0)) stale = Done s' (Ok (TGuest ODone)) /\
    obs s' 0 <> obs stale 0) by (eexists; split; [vm_compute; reflexivity|vm_compute; discriminate]).
  destruct E as (s' & E & Hne). exists s'. split_and!; [exact stale_reachable| |exact E|exact Hne].
  vm_compute. reflexivity.
Qed.
