(* ===== verification/Partition.v ===== *)
(** * The partition — [hv-part/src/lib.rs]

    How one machine is divided between guest slots: model frames, page-table frames, the
    address window and the domain id of every slot, as arithmetic on the fields of one
    record. All of it is 64-bit arithmetic that panics on overflow unless checked. *)

From Stdlib Require Import NArith Lia.
From stdpp Require Import base numbers list option.
From S2P Require Import Prelude.
#[local] Open Scope N_scope.

(** ** Data *)

Definition DOM0 : DomId := 0.

Record Partition : Type := mkPartition {
  num_guests : N;
  frames_per_guest : N;
  window_len : N;
  ram_base : N;
  ram_end : N;
  num_sup_frames : N;
  tables_per_guest : N;
  vcpus_per_guest : N;
}.

Definition checked_mul (a b : N) : option N :=
  if decide (a * b <= u64_max) then Some (a * b) else None.

Definition window_len_from {S} (frames_per_guest frame_bytes : N) : M S N :=
  umul frames_per_guest frame_bytes.

(** ** Well-formedness *)

Definition exact_halving (p : Partition) : bool :=
  match checked_mul (num_guests p) (frames_per_guest p) with
  | Some f => f =? num_sup_frames p
  | None => false
  end.

Definition window_fits (p : Partition) : bool :=
  match checked_mul (num_guests p) (window_len p) with
  | None => false
  | Some span =>
      match checked_add u64_max (ram_base p) span with
      | Some e => e <=? ram_end p
      | None => false
      end
  end.

Definition tables_fit (p : Partition) : bool :=
  match checked_mul (num_guests p) (tables_per_guest p) with
  | None => false
  | Some t => bool_decide (is_Some (checked_add u64_max (num_sup_frames p) t))
  end.

Definition is_well_formed (p : Partition) : bool :=
  (0 <? num_guests p) && (num_guests p <? u16_max) && (0 <? frames_per_guest p) &&
  (0 <? window_len p) && (0 <? vcpus_per_guest p) &&
  exact_halving p && window_fits p && tables_fit p.

(** ** Derivations *)

Definition has_slot (p : Partition) (slot : N) : bool := slot <? num_guests p.

Definition first_frame {S} (p : Partition) (slot : N) : M S N := umul slot (frames_per_guest p).
Definition frames_end {S} (p : Partition) (slot : N) : M S N :=
  let! f := first_frame p slot in uadd u64_max f (frames_per_guest p).

Definition first_table {S} (p : Partition) (slot : N) : M S N :=
  let! t := umul slot (tables_per_guest p) in uadd u64_max (num_sup_frames p) t.
Definition tables_end {S} (p : Partition) (slot : N) : M S N :=
  let! t := first_table p slot in uadd u64_max t (tables_per_guest p).

Definition window_base {S} (p : Partition) (slot : N) : M S N :=
  let! o := umul slot (window_len p) in uadd u64_max (ram_base p) o.
Definition window_end {S} (p : Partition) (slot : N) : M S N :=
  let! b := window_base p slot in uadd u64_max b (window_len p).

(** [x && y] where each operand may panic: the right one only if the left one holds. *)
Definition and_m {S} (x y : M S bool) : M S bool := let! b := x in if b : bool then y else ret false.
Definition lt_m {S} (x y : M S N) : M S bool := let! a := x in let! b := y in ret (a <? b).

Definition window_contains {S} (p : Partition) (slot ipa : N) : M S bool :=
  let! b := window_base p slot in
  if b <=? ipa then let! e := window_end p slot in ret (ipa <? e) else ret false.

Definition owner_of {S} (p : Partition) (ipa : N) : M S (option N) :=
  first_some_m (vrange (num_guests p)) (fun slot =>
    let! c := window_contains p slot ipa in ret (if c : bool then Some slot else None)).

(** [slot as u16 + 1]. *)
Definition dom_of {S} (p : Partition) (slot : N) : M S DomId := uadd u16_max (as_u16 slot) 1.

Definition in_window {S} (p : Partition) (slot off : N) : M S (option N) :=
  if negb (has_slot p slot) || (window_len p <=? off) then ret None else
  let! b := window_base p slot in
  let! a := uadd u64_max b off in ret (Some a).

Definition window_top {S} (p : Partition) (slot len : N) : M S (option N) :=
  if negb (has_slot p slot) || (len =? 0) || (window_len p <? len) then ret None else
  let! e := window_end p slot in
  let! a := usub e len in ret (Some a).

(** ** Checks of the whole partition *)

(** [b] from [a + 1] up to [num_guests]. *)
Definition above (p : Partition) (a : N) : list N := vrange_from (a + 1) (num_guests p).

Definition windows_in_range {S} (p : Partition) : M S bool :=
  all_m (vrange (num_guests p)) (fun slot =>
    let! e := window_end p slot in ret (negb (ram_end p <? e))).

Definition windows_disjoint {S} (p : Partition) : M S bool :=
  all_m (vrange (num_guests p)) (fun a =>
    all_m (above p a) (fun b =>
      let! overlap := and_m (lt_m (window_base p a) (window_end p b))
                            (lt_m (window_base p b) (window_end p a)) in
      ret (negb overlap))).

Definition frames_disjoint {S} (p : Partition) : M S bool :=
  all_m (vrange (num_guests p)) (fun a =>
    let! t := first_table p a in
    if t <? num_sup_frames p then ret false else
    all_m (above p a) (fun b =>
      let! frames := and_m (lt_m (first_frame p a) (frames_end p b))
                           (lt_m (first_frame p b) (frames_end p a)) in
      if frames : bool then ret false else
      let! tables := and_m (lt_m (first_table p a) (tables_end p b))
                           (lt_m (first_table p b) (tables_end p a)) in
      ret (negb tables))).

(** ** Specification *)

Record WF (p : Partition) : Prop := mkWF {
  wf_guests : 0 < num_guests p < u16_max;
  wf_frames : 0 < frames_per_guest p;
  wf_window : 0 < window_len p;
  wf_halving : num_guests p * frames_per_guest p = num_sup_frames p;
  wf_ram : ram_base p + num_guests p * window_len p <= ram_end p;
  wf_ram_fits : ram_base p + num_guests p * window_len p <= u64_max;
  wf_tables_fit : num_sup_frames p + num_guests p * tables_per_guest p <= u64_max;
}.

(** ** Lemmas *)

Lemma is_well_formed_WF p : is_well_formed p = true -> WF p.
Proof.
  unfold is_well_formed, exact_halving, window_fits, tables_fit, checked_mul, checked_add.
  intros H. bool_prop. repeat case_decide; try done.
  repeat match goal with
  | H : (_ <? _) = true |- _ => apply N.ltb_lt in H
  | H : (_ <=? _) = true |- _ => apply N.leb_le in H
  | H : (_ =? _) = true |- _ => apply N.eqb_eq in H
  end.
  by constructor.
Qed.

Lemma slot_scale a n w : a < n -> a * w + w <= n * w.
Proof. intros. rewrite <- N.mul_succ_l. apply N.mul_le_mono_r. lia. Qed.

Section Wf.
Context {S : Type} (p : Partition) (HW : WF p).
Implicit Types (s : S) (a b : N).

Lemma first_frame_Done a s :
  a < num_guests p -> first_frame p a s = Done s (a * frames_per_guest p).
Proof.
  intros Ha. apply umul_Done. destruct HW. pose proof (slot_scale _ _ (frames_per_guest p) Ha).
  lia.
Qed.

Lemma frames_end_Done a s : a < num_guests p ->
  frames_end p a s = Done s (a * frames_per_guest p + frames_per_guest p).
Proof.
  intros Ha. unfold frames_end, bind. rewrite first_frame_Done by done. apply uadd_Done.
  destruct HW. pose proof (slot_scale _ _ (frames_per_guest p) Ha). lia.
Qed.

Lemma first_table_Done a s : a < num_guests p ->
  first_table p a s = Done s (num_sup_frames p + a * tables_per_guest p).
Proof.
  intros Ha. destruct HW. pose proof (slot_scale _ _ (tables_per_guest p) Ha).
  unfold first_table, bind. rewrite umul_Done by lia. apply uadd_Done. lia.
Qed.

Lemma tables_end_Done a s : a < num_guests p ->
  tables_end p a s = Done s (num_sup_frames p + a * tables_per_guest p + tables_per_guest p).
Proof.
  intros Ha. destruct HW. pose proof (slot_scale _ _ (tables_per_guest p) Ha).
  unfold tables_end, bind. rewrite first_table_Done by done. apply uadd_Done. lia.
Qed.

Lemma window_base_Done a s : a < num_guests p ->
  window_base p a s = Done s (ram_base p + a * window_len p).
Proof.
  intros Ha. destruct HW. pose proof (slot_scale _ _ (window_len p) Ha).
  unfold window_base, bind. rewrite umul_Done by lia. apply uadd_Done. lia.
Qed.

Lemma window_end_Done a s : a < num_guests p ->
  window_end p a s = Done s (ram_base p + a * window_len p + window_len p).
Proof.
  intros Ha. destruct HW. pose proof (slot_scale _ _ (window_len p) Ha).
  unfold window_end, bind. rewrite window_base_Done by done. apply uadd_Done. lia.
Qed.

Definition in_slot (a ipa : N) : bool :=
  (ram_base p + a * window_len p <=? ipa) &&
  (ipa <? ram_base p + a * window_len p + window_len p).

Lemma window_contains_Done a ipa s : a < num_guests p ->
  window_contains p a ipa s = Done s (in_slot a ipa).
Proof.
  intros Ha. unfold window_contains, bind. rewrite window_base_Done by done. unfold in_slot.
  destruct (_ <=? _); [|done]. by rewrite window_end_Done.
Qed.

Lemma in_slot_unique a b ipa : in_slot a ipa = true -> in_slot b ipa = true -> a = b.
Proof.
  unfold in_slot. rewrite !andb_true_iff, !N.leb_le, !N.ltb_lt. intros [A1 A2] [B1 B2].
  destruct (N.lt_trichotomy a b) as [H|[H|H] ]; [|done|];
    pose proof (slot_scale _ _ (window_len p) H); lia.
Qed.

Lemma elem_above a b : b ∈ above p a -> a < b < num_guests p.
Proof. unfold above. intros [? ?]%elem_vrange_from. lia. Qed.

Lemma and_lt_false (x y z w : M S N) nx ny nz nw s :
  x s = Done s nx -> y s = Done s ny -> z s = Done s nz -> w s = Done s nw -> nw <= nz ->
  and_m (lt_m x y) (lt_m z w) s = Done s false.
Proof.
  intros Hx Hy Hz Hw Hle. unfold and_m, lt_m, bind. rewrite Hx, Hy. unfold ret.
  destruct (nx <? ny); [|done]. rewrite Hz, Hw. f_equal. by apply N.ltb_ge.
Qed.
End Wf.

(** ** Properties *)


Definition board : Partition := mkPartition 2 32 67108864 1073741824 1207959552 64 1 2.


(** The owner of an address, and the domain of a slot. *)
Lemma owner_of_Done {S} (p : Partition) (HW : WF p) ipa (s : S) :
  exists o, owner_of p ipa s = Done s o /\
    forall slot, o = Some slot <-> slot < num_guests p /\ in_slot p slot ipa = true.
Proof.
  exists (first_some (fun x => if in_slot p x ipa then Some x else None) (vrange (num_guests p))). split.
  - unfold owner_of. assert (Hl : forall x, x ∈ vrange (num_guests p) -> x < num_guests p)
      by (intros; by apply elem_vrange).
    induction (vrange (num_guests p)) as [|x l IH]; simpl; [done|]. unfold bind.
    rewrite (window_contains_Done p HW) by (apply Hl; by left). simpl.
    destruct (in_slot p x ipa); [done|]. apply IH. intros. apply Hl. by right.
  - intros slot. assert (Hs : forall l, first_some (fun x => if in_slot p x ipa then Some x else None) l
      = Some slot <-> slot ∈ l /\ in_slot p slot ipa = true).
    { induction l as [|x l IH]; simpl; [by rewrite elem_of_nil; naive_solver|].
      rewrite elem_of_cons. destruct (in_slot p x ipa) eqn:E; [|naive_solver congruence].
      split; [intros [= ->]; tauto|]. intros [_ H]. f_equal. by eapply in_slot_unique. }
    by rewrite Hs, elem_vrange.
Qed.

Lemma dom_of_Done {S} (p : Partition) (HW : WF p) slot (s : S) : slot < num_guests p ->
  dom_of p slot s = Done s (slot + 1).
Proof.
  intros Hs. destruct HW. unfold dom_of. unfold u16_max in *. rewrite as_u16_id by (unfold u16_max; lia).
  apply uadd_Done. lia.
Qed.

(** An address has one owner, and a slot one domain: in a well-formed partition [owner_of]
    returns exactly the slot whose window contains the address, and [None] when no window
    does; [in_window] and [window_top] stay in the window of their slot; and [dom_of] gives
    every slot a domain of its own, never the privileged one. *)
Theorem partition_owner {S} (p : Partition) (s : S) :
  is_well_formed p = true ->
  (forall ipa, exists o, owner_of p ipa s = Done s o /\
     forall slot, o = Some slot <->
       has_slot p slot = true /\ window_contains p slot ipa s = Done s true) /\
  (forall slot off a, in_window p slot off s = Done s (Some a) -> owner_of p a s = Done s (Some slot)) /\
  (forall slot len a, window_top p slot len s = Done s (Some a) -> owner_of p a s = Done s (Some slot)) /\
  (forall slot, has_slot p slot = true -> exists d, dom_of p slot s = Done s d /\ d <> DOM0 /\
     forall slot', has_slot p slot' = true -> dom_of p slot' s = Done s d -> slot' = slot).
Proof.
  intros HW%is_well_formed_WF.
  pose proof (fun ipa => owner_of_Done p HW ipa s) as Hown.
  assert (Hhas : forall slot, has_slot p slot = true <-> slot < num_guests p)
    by (intros; apply N.ltb_lt).
  assert (Hin : forall slot a, slot < num_guests p -> in_slot p slot a = true ->
    owner_of p a s = Done s (Some slot)).
  { intros slot a Hs Ha. destruct (Hown a) as (o & -> & Ho). f_equal. by apply Ho. }
  split_and!.
  - intros ipa. destruct (Hown ipa) as (o & E & Ho). exists o. split; [done|]. intros slot.
    rewrite Ho, Hhas. split; intros [H1 H2]; (split; [done|]).
    + rewrite window_contains_Done by done. by f_equal.
    + rewrite window_contains_Done in H2 by done. by injection H2.
  - intros slot off a. unfold in_window. destruct (has_slot p slot) eqn:Hs; [|done].
    apply Hhas in Hs. simpl. destruct (_ <=? _) eqn:Ho; [done|]. apply N.leb_gt in Ho.
    unfold bind. rewrite window_base_Done by done. unfold uadd.
    case_decide; [|done]. intros [= <-]. apply Hin; [done|]. unfold in_slot.
    rewrite andb_true_iff, N.leb_le, N.ltb_lt. lia.
  - intros slot len a. unfold window_top. destruct (has_slot p slot) eqn:Hs; [|done].
    apply Hhas in Hs. simpl. destruct (_ || _) eqn:Ho; [done|]. bool_prop.
    repeat match goal with
    | H : (_ =? _) = false |- _ => apply N.eqb_neq in H
    | H : (_ <? _) = false |- _ => apply N.ltb_ge in H
    end.
    unfold bind. rewrite window_end_Done by done. unfold usub.
    case_decide; [|done]. intros [= <-]. apply Hin; [done|]. unfold in_slot.
    rewrite andb_true_iff, N.leb_le, N.ltb_lt. lia.
  - pose proof (fun slot => dom_of_Done p HW slot s) as Hd.
    intros slot Hs%Hhas. exists (slot + 1). rewrite Hd by done.
    split_and!; [done|unfold DOM0; lia|]. intros slot' Hs'%Hhas. rewrite Hd by done.
    intros [= H]. lia.
Qed.

Theorem partition_owner_witness : exists o, owner_of board 1140850690 tt = Done tt o /\ o = Some 1.
Proof.
  refine (match proj1 (partition_owner board tt eq_refl) 1140850690 with
    | ex_intro _ o (conj E H) => ex_intro _ o (conj E (proj2 (H 1) _))
    end).
  split; vm_compute; reflexivity.
Defined.
