(* ===== verification/Bits.v ===== *)
(** * Bit operations of the device models

    Shifts, complements and fields of machine words as the source writes them, the lemmas
    that reduce them to single bits, and the tactic that decides an equation of words bit by
    bit. *)

From Stdlib Require Import NArith Lia Btauto.
From stdpp Require Import base numbers list option.
From S2P Require Import Prelude.
#[local] Open Scope N_scope.

(** [x << n] at [w] bits: the bits shifted out are lost. *)
Definition shl (w x n : N) : N := N.land (N.shiftl x n) (N.ones w).

(** [!x] at [w] bits. *)
Definition bnot (w x : N) : N := N.lxor x (N.ones w).

(** [x as u8]. *)
Definition as_u8 (n : N) : N := n mod 256.

(** [x.trailing_zeros()] of a nonzero word. *)
Fixpoint pos_ctz (p : positive) : N :=
  match p with
  | xO p => N.succ (pos_ctz p)
  | _ => 0
  end.
Definition trailing_zeros (w x : N) : N :=
  match x with N0 => w | Npos p => pos_ctz p end.

(** [x.count_ones()]. *)
Fixpoint pos_ones (p : positive) : N :=
  match p with
  | xO p => pos_ones p
  | xI p => N.succ (pos_ones p)
  | xH => 1
  end.
Definition count_ones (x : N) : N := match x with N0 => 0 | Npos p => pos_ones p end.

(** ** Lemmas *)

Lemma testbit_shiftl a n i : N.testbit (N.shiftl a n) i = (n <=? i) && N.testbit a (i - n).
Proof.
  destruct (N.leb_spec n i); simpl; [by apply N.shiftl_spec_high'|by apply N.shiftl_spec_low].
Qed.

Lemma testbit_ones n i : N.testbit (N.ones n) i = (i <? n).
Proof.
  destruct (N.ltb_spec i n); [by apply N.ones_spec_low|by apply N.ones_spec_high].
Qed.

Lemma testbit_one i : N.testbit 1 i = (i =? 0).
Proof. destruct i as [|p]; [done|]. by destruct p. Qed.

Lemma testbit_mod a w i : N.testbit (a mod 2 ^ w) i = (i <? w) && N.testbit a i.
Proof.
  destruct (N.ltb_spec i w); simpl; [by apply N.mod_pow2_bits_low|by apply N.mod_pow2_bits_high].
Qed.

Lemma testbit_if (b : bool) x y i :
  N.testbit (if b then x else y) i = if b then N.testbit x i else N.testbit y i.
Proof. by destruct b. Qed.

(** A word of [w] bits has no bit from [w] up, and conversely. *)
Lemma testbit_high x w i : x < 2 ^ w -> w <= i -> N.testbit x i = false.
Proof. intros Hx Hi. rewrite <- (N.mod_small x (2 ^ w)) by done. by apply N.mod_pow2_bits_high. Qed.

Lemma bits_bound x w : (forall i, w <= i -> N.testbit x i = false) -> x < 2 ^ w.
Proof.
  intros H. assert (x mod 2 ^ w = x) as <-.
  { apply N.bits_inj. intros i. rewrite testbit_mod. destruct (N.ltb_spec i w); [done|].
    simpl. by rewrite H. }
  apply N.mod_lt. by apply N.pow_nonzero.
Qed.

Lemma testbit_shl w x n i : N.testbit (shl w x n) i = (i <? w) && ((n <=? i) && N.testbit x (i - n)).
Proof. unfold shl. rewrite N.land_spec, testbit_shiftl, testbit_ones. btauto. Qed.

Lemma testbit_bnot w x i : N.testbit (bnot w x) i = xorb (N.testbit x i) (i <? w).
Proof. unfold bnot. by rewrite N.lxor_spec, testbit_ones. Qed.

Create Rewrite HintDb bits.
#[export] Hint Rewrite N.land_spec N.lor_spec N.lxor_spec N.ldiff_spec N.shiftr_spec'
  testbit_shiftl testbit_ones testbit_one testbit_mod testbit_if testbit_shl testbit_bnot
  N.bits_0 : bits.

(** Decide an equation of words: compare bit [i], splitting on every comparison. *)
Ltac split_compare :=
  repeat match goal with
  | |- context [?a <=? ?b] => destruct (N.leb_spec a b)
  | |- context [?a <? ?b] => destruct (N.ltb_spec a b)
  | |- context [?a =? ?b] => destruct (N.eqb_spec a b)
  end.
Ltac bitwise_at i :=
  apply N.bits_inj; intros i; autorewrite with bits; split_compare; simpl;
  try reflexivity; try btauto; try (exfalso; lia).

Lemma land_pow2 x n : (N.land x (N.shiftl 1 n) =? 0) = negb (N.testbit x n).
Proof.
  destruct (N.testbit x n) eqn:E; simpl.
  - apply N.eqb_neq. intros H. apply (f_equal (fun y => N.testbit y n)) in H.
    autorewrite with bits in H. rewrite E, N.leb_refl, N.sub_diag in H. done.
  - apply N.eqb_eq. apply N.bits_inj. intros i. autorewrite with bits.
    destruct (decide (i = n)) as [->|]; [by rewrite E|]. split_compare; simpl; try btauto; lia.
Qed.

Lemma land_ones_mod x w : N.land x (N.ones w) = x mod 2 ^ w.
Proof. apply N.land_ones. Qed.

Lemma shl_small w x n m : x < 2 ^ m -> m + n <= w -> shl w x n = N.shiftl x n.
Proof.
  intros Hx Hw. bitwise_at i. destruct (N.testbit x (i - n)) eqn:E; [|done].
  rewrite (testbit_high x m) in E; [done|done|lia].
Qed.

(** *** Aligned words *)

Lemma aligned_bits x k i : x mod 2 ^ k = 0 -> i < k -> N.testbit x i = false.
Proof.
  intros Hm Hi. assert (E : N.testbit (x mod 2 ^ k) i = N.testbit x i).
  { rewrite testbit_mod. by rewrite (proj2 (N.ltb_lt _ _) Hi). }
  rewrite <- E, Hm. apply N.bits_0.
Qed.

(** The parts of a word made of an aligned address and attributes outside its bits. *)
Lemma land_aligned_low x k mask :
  x mod 2 ^ k = 0 -> mask < 2 ^ k -> N.land x mask = 0.
Proof.
  intros Hx Hm. apply N.bits_inj. intros i. rewrite N.land_spec, N.bits_0.
  destruct (N.ltb_spec i k); [by rewrite (aligned_bits x k)|].
  by rewrite (testbit_high mask k), andb_false_r.
Qed.

Lemma land_window x k w :
  x mod 2 ^ k = 0 -> x < 2 ^ w -> N.land x (N.shiftl (N.ones (w - k)) k) = x.
Proof.
  intros Hx Hw. apply N.bits_inj. intros i. autorewrite with bits.
  destruct (N.leb_spec k i) as [H|H]; [|by rewrite (aligned_bits x k), andb_false_r].
  destruct (N.ltb_spec (i - k) (w - k)); [btauto|].
  rewrite (testbit_high x w); [done|done|lia].
Qed.

Lemma lor_add x y k : x mod 2 ^ k = 0 -> y < 2 ^ k -> N.lor x y = x + y.
Proof.
  intros Hx Hy. symmetry. rewrite N.add_nocarry_lxor; [apply N.lxor_lor|]; by apply land_aligned_low with k.
Qed.

(** *** Trailing zeros *)

Lemma pos_ctz_spec p :
  N.testbit (Npos p) (pos_ctz p) = true /\ forall i, i < pos_ctz p -> N.testbit (Npos p) i = false.
Proof.
  induction p as [p _|p [IH1 IH2]|]; simpl pos_ctz.
  - split; [done|lia].
  - change (Npos (xO p)) with (N.double (Npos p)). split.
    + by rewrite N.double_bits_succ.
    + intros i Hi. destruct i as [|q] using N.peano_ind; [done|].
      rewrite N.double_bits_succ. apply IH2. lia.
  - split; [done|lia].
Qed.

Lemma trailing_zeros_spec w x : x <> 0 ->
  N.testbit x (trailing_zeros w x) = true /\
  forall i, i < trailing_zeros w x -> N.testbit x i = false.
Proof. destruct x as [|p]; [done|]. intros _. apply pos_ctz_spec. Qed.

(** *** Population count *)

Lemma pos_ones_nsum p n :
  N.of_nat (Pos.size_nat p) <= N.of_nat n ->
  pos_ones p = nsum (fun i => if N.testbit (Npos p) i then 1 else 0) (vrange (N.of_nat n)).
Proof.
  assert (Hshift : forall f k, nsum f (vrange (N.of_nat (S k))) =
      f 0 + nsum (fun i => f (N.succ i)) (vrange (N.of_nat k))).
  { intros f k. unfold vrange. rewrite !Nat2N.id. simpl. f_equal.
    rewrite <- seq_shift. generalize (seq 0 k). intros l. induction l as [|a l IH]; [done|].
    simpl. rewrite IH. do 2 f_equal. lia. }
  revert n. induction p as [p IH|p IH|]; intros [|n] Hn; simpl in Hn; try lia; rewrite Hshift.
  - simpl pos_ones. rewrite (IH n) by lia. change (N.testbit (Npos (xI p)) 0) with true.
    rewrite <- N.add_1_l. f_equal. apply nsum_ext. intros i _.
    change (Npos (xI p)) with (2 * Npos p + 1). by rewrite N.testbit_odd_succ by lia.
  - simpl pos_ones. rewrite (IH n) by lia. change (N.testbit (Npos (xO p)) 0) with false.
    rewrite N.add_0_l. apply nsum_ext. intros i _.
    change (Npos (xO p)) with (N.double (Npos p)). by rewrite N.double_bits_succ.
  - simpl pos_ones. change (N.testbit 1 0) with true. rewrite nsum_zero; [done|].
    intros i _. rewrite testbit_one. by destruct i.
Qed.

Lemma count_ones_count w x :
  x < 2 ^ w -> count_ones x = count (fun i => N.testbit x i) (vrange w).
Proof.
  intros Hx. rewrite count_nsum. destruct x as [|p].
  { rewrite nsum_zero; [done|]. intros i _. by rewrite N.bits_0. }
  assert (Hs : N.of_nat (Pos.size_nat p) = Npos (Pos.size p)).
  { clear. induction p as [p IH|p IH|]; simpl; lia. }
  assert (H : N.size (Npos p) <= w).
  { rewrite N.size_log2 by done. apply N.log2_lt_pow2 in Hx; lia. }
  change (N.size (Npos p)) with (Npos (Pos.size p)) in H. rewrite <- Hs in H.
  assert (Hw : w = N.of_nat (N.to_nat w)) by lia. rewrite Hw in *. simpl. by apply pos_ones_nsum.
Qed.
