(* ===== verification/Pending.v ===== *)
(** * The software pending set — [hv-vdev/src/pending.rs]

    The index arithmetic of a set of interrupt ids kept as 64-bit words. *)

From Stdlib Require Import NArith Lia Btauto.
From stdpp Require Import base numbers list option.
From S2P Require Import Bits.
From S2P Require Import Prelude.
#[local] Open Scope N_scope.

(** ** Operations *)

(** [div_ceil]. *)
Definition words_for (intids : N) : N := intids / 64 + (if intids mod 64 =? 0 then 0 else 1).
Definition word_of (intid : N) : N := intid / 64.
Definition bit_of (intid : N) : N := shl 64 1 (intid mod 64).

(** [(word * 64) as u32 + bit], the addition unchecked. *)
Definition intid_of {S} (word bit : N) : M S N := uadd u32_max (as_u32 (word * 64)) bit.

(** The loop over the words: [w] is the index of the first word of [words]. *)
Fixpoint lowest_from {S} (w : N) (words : list N) : M S (option N) :=
  match words with
  | [] => ret None
  | x :: words =>
      if negb (x =? 0) then let! i := intid_of w (trailing_zeros 64 x) in ret (Some i)
      else lowest_from (w + 1) words
  end.
Definition lowest_set {S} (words : list N) : M S (option N) := lowest_from 0 words.

Fixpoint is_empty (words : list N) : bool :=
  match words with
  | [] => true
  | x :: words => if negb (x =? 0) then false else is_empty words
  end.

(** ** Specification *)

(** The set the words stand for. *)
Definition member (words : list N) (i : N) : Prop :=
  exists x, vget words (word_of i) = Some x /\ N.testbit x (i mod 64) = true.

(** Adding an id, as the caller does with the two index functions. *)
Definition mark (words : list N) (i : N) : list N :=
  match vget words (word_of i) with
  | Some x => vset words (word_of i) (N.lor x (bit_of i))
  | None => words
  end.

(** ** Lemmas *)

Lemma testbit_bit_of i k : N.testbit (bit_of i) k = (k =? i mod 64).
Proof.
  unfold bit_of. pose proof (N.mod_lt i 64 ltac:(done)). autorewrite with bits.
  split_compare; simpl; try lia; try done.
Qed.

Lemma index_inj i j : word_of i = word_of j -> i mod 64 = j mod 64 -> i = j.
Proof.
  unfold word_of. intros H1 H2. pose proof (N.div_mod i 64 ltac:(done)).
  pose proof (N.div_mod j 64 ltac:(done)). congruence.
Qed.

Lemma word_zero x : x < 2 ^ 64 -> x <> 0 -> trailing_zeros 64 x < 64.
Proof.
  intros Hx H0. destruct (trailing_zeros_spec 64 x H0) as [Ht _].
  destruct (N.ltb_spec (trailing_zeros 64 x) 64); [done|].
  by rewrite (testbit_high x 64) in Ht.
Qed.

Lemma lowest_from_spec {S} (words : list N) (w : N) (s : S) :
  (forall x, x ∈ words -> x < 2 ^ 64) -> (w + vlen words) * 64 <= 2 ^ 32 ->
  exists o, lowest_from w words s = Done s o /\
    match o with
    | None => forall x, x ∈ words -> x = 0
    | Some i => exists k x, vget words k = Some x /\ i = (w + k) * 64 + trailing_zeros 64 x /\
        x <> 0 /\ forall j y, j < k -> vget words j = Some y -> y = 0
    end.
Proof.
  revert w. induction words as [|x words IH]; intros w Hx Hw.
  { exists None. split; [done|]. intros x H. by apply elem_of_nil in H. }
  assert (Hlen : vlen (x :: words) = vlen words + 1) by (unfold vlen; simpl; lia).
  cbn [lowest_from]. destruct (N.eqb_spec x 0) as [->|H0]; cbn [negb].
  - destruct (IH (w + 1)) as (o & E & Ho); [intros; apply Hx; by right|lia|].
    exists o. split; [done|]. destruct o as [i|].
    + destruct Ho as (k & y & Hk & -> & Hy & Hmin). exists (N.succ k), y. split_and!; [|lia|done|].
      * unfold vget. rewrite N2Nat.inj_succ. exact Hk.
      * intros j z Hj Hz. destruct j as [|j] using N.peano_ind; [by injection Hz as <-|].
        apply (Hmin j z); [lia|]. unfold vget in Hz. rewrite N2Nat.inj_succ in Hz. exact Hz.
    + intros y [->|Hy]%elem_of_cons; [done|by apply Ho].
  - pose proof (Hx x (list_elem_of_here _ _)) as Hx0. pose proof (word_zero x Hx0 H0) as Ht.
    exists (Some (w * 64 + trailing_zeros 64 x)). split.
    + unfold bind, intid_of. assert (Hm : as_u32 (w * 64) = w * 64)
        by (apply N.mod_small; change 4294967296 with (2 ^ 32); lia).
      rewrite Hm. unfold uadd. rewrite decide_True; [done|]. change (2 ^ 32) with (u32_max + 1) in Hw. lia.
    + exists 0, x. split_and!; [done|lia|done|lia].
Qed.

Lemma is_empty_spec words : is_empty words = true <-> forall x, x ∈ words -> x = 0.
Proof.
  induction words as [|x words IH]; simpl.
  - split; [|done]. intros _ x H. by apply elem_of_nil in H.
  - setoid_rewrite elem_of_cons. destruct (N.eqb_spec x 0) as [->|H]; simpl; [naive_solver|].
    split; [done|]. intros H'. destruct H. apply H'. by left.
Qed.

(** A set of [words_for n] words holds every id below [n]. *)
Lemma words_bound n : n <= u32_max + 1 -> words_for n * 64 <= 2 ^ 32.
Proof.
  intros Hn. change (2 ^ 32) with 4294967296. unfold words_for, u32_max in *.
  pose proof (N.div_mod n 64 ltac:(done)) as Hdm. pose proof (N.mod_lt n 64 ltac:(done)) as Hm.
  revert Hdm Hm Hn. generalize (n / 64) (n mod 64). intros q r Hdm Hm Hn.
  destruct (N.eqb_spec r 0) as [E|E]; lia.
Qed.

Lemma word_in_range (words : list N) n i :
  vlen words = words_for n -> i < n -> exists x, vget words (word_of i) = Some x.
Proof.
  intros Hlen Hi. apply vget_lt_Some. rewrite Hlen. unfold word_of, words_for.
  assert (i / 64 <= n / 64) by (apply N.Div0.div_le_mono; lia).
  destruct (N.eqb_spec (n mod 64) 0) as [E|E]; [|lia].
  assert (i / 64 <> n / 64); [|lia]. intros H1. pose proof (N.div_mod i 64 ltac:(done)) as Hi64.
  pose proof (N.div_mod n 64 ltac:(done)) as Hdm. rewrite H1 in Hi64. rewrite E in Hdm.
  revert Hi Hdm Hi64. generalize (n / 64) (i mod 64). lia.
Qed.

(** The id of bit [b] of word [k] is a member when the bit is set. *)
Lemma member_bit (words : list N) k x b :
  vget words k = Some x -> b < 64 -> N.testbit x b = true -> member words (k * 64 + b).
Proof.
  intros Hk Hb Ht. exists x. unfold word_of.
  by rewrite N.div_add_l, N.div_small, N.add_0_r, N.add_comm, N.Div0.mod_add, N.mod_small.
Qed.

Lemma members_zero (words : list N) :
  (forall x, x ∈ words -> x < 2 ^ 64) ->
  (forall x, x ∈ words -> x = 0) <-> forall i, ~ member words i.
Proof.
  intros Hx. split.
  - intros Hz i (x & Hi & Ht). apply vget_elem in Hi. by rewrite (Hz x Hi), N.bits_0 in Ht.
  - intros Hno x Hin. destruct (decide (x = 0)) as [|H0]; [done|]. exfalso.
    apply elem_vget in Hin as [k Hk]. apply (Hno (k * 64 + trailing_zeros 64 x)).
    apply (member_bit words k x); [done|apply word_zero; [by apply Hx, (vget_elem _ k)|done]|].
    by apply trailing_zeros_spec.
Qed.

Lemma mark_member (words : list N) i j x :
  vget words (word_of i) = Some x -> member (mark words i) j <-> j = i \/ member words j.
Proof.
  intros Hxi. unfold mark. rewrite Hxi. unfold member. setoid_rewrite vget_vset.
  destruct (decide (word_of i = word_of j)) as [Hw|Hw].
  - rewrite <- Hw. rewrite decide_True by (split; [done|by eapply vget_Some_lt]). rewrite Hxi. split.
    + intros (y & [= <-] & Ht). rewrite N.lor_spec, testbit_bit_of in Ht.
      apply orb_true_iff in Ht as [Ht|Ht]; [right; by exists x|left].
      apply N.eqb_eq in Ht. by apply index_inj.
    + intros [->|(y & [= <-] & Ht)]; eexists; (split; [done|]); rewrite N.lor_spec.
      * by rewrite testbit_bit_of, N.eqb_refl, orb_true_r.
      * by rewrite Ht.
  - rewrite decide_False by tauto. split; [by right|]. intros [->|]; done.
Qed.

(** The first set bit of the first nonzero word is the least member. *)
Lemma first_is_least (words : list N) k x j :
  (forall x, x ∈ words -> x < 2 ^ 64) -> vget words k = Some x -> x <> 0 ->
  (forall j y, j < k -> vget words j = Some y -> y = 0) ->
  member words j -> k * 64 + trailing_zeros 64 x <= j.
Proof.
  intros Hx Hk H0 Hmin (y & Hy & Htj). destruct (trailing_zeros_spec 64 x H0) as [_ Hlow].
  pose proof (word_zero x (Hx x (vget_elem _ _ _ Hk)) H0) as Hlt.
  unfold word_of in Hy. pose proof (N.div_mod j 64 ltac:(done)) as Hj.
  destruct (N.lt_trichotomy (j / 64) k) as [H|[H|H] ].
  - by rewrite (Hmin _ _ H Hy), N.bits_0 in Htj.
  - rewrite H, Hk in Hy. injection Hy as <-.
    destruct (N.ltb_spec (j mod 64) (trailing_zeros 64 x)) as [Hc|]; [|lia].
    by rewrite Hlow in Htj.
  - clear -H Hj Hlt. rewrite Hj. revert H Hlt. clear Hj.
    generalize (j / 64) (j mod 64) (trailing_zeros 64 x). lia.
Qed.

(** The least member, and [None] exactly when there is none. *)
Lemma pending_lowest {S} (words : list N) (n : N) (s : S) :
  (forall x, x ∈ words -> x <= u64_max) -> vlen words = words_for n -> n <= u32_max + 1 ->
  exists o, lowest_set words s = Done s o /\ (o = None <-> forall i, ~ member words i) /\
    forall i, o = Some i <-> member words i /\ forall j, member words j -> i <= j.
Proof.
  intros Hx Hlen Hn.
  assert (Hx' : forall x, x ∈ words -> x < 2 ^ 64).
  { intros x H. apply Hx, N.lt_succ_r in H. exact H. }
  destruct (lowest_from_spec words 0 s Hx') as (o & E & Ho); [by rewrite Hlen; apply words_bound|].
  exists o. split; [done|]. destruct o as [i|].
  + destruct Ho as (k & x & Hk & -> & H0 & Hmin). rewrite N.add_0_l.
    assert (Hmem : member words (k * 64 + trailing_zeros 64 x)).
    { apply (member_bit words k x); [done| |by apply trailing_zeros_spec].
      apply word_zero; [by apply Hx', (vget_elem _ k)|done]. }
    split; [split; [done|]; intros Hz; by destruct (Hz _ Hmem)|].
    intros i. split; [intros [= <-]; split; [done|intros j; by eapply first_is_least]|].
    intros [Hi Hmi]. f_equal. apply N.le_antisymm; [by eapply first_is_least|by apply Hmi].
  + pose proof (proj1 (members_zero words Hx') Ho) as Hno. split; [done|].
    intros i. split; [done|]. intros [Hi _]. by destruct (Hno i).
Qed.

(** ** Properties *)

(** The pending set is a set of every interrupt id the guest can name: an id below [n] has
    its bit in one of [words_for n] words, no two ids share one; marking an id adds it and
    nothing else; [lowest_set] never overflows and returns the least id of the set, and
    [None] exactly when [is_empty] holds, which is when there is none. *)
Theorem pending_set_exact {S} (words : list N) (n : N) (s : S) :
  (forall x, x ∈ words -> x <= u64_max) -> vlen words = words_for n -> n <= u32_max + 1 ->
  (forall i, i < n -> exists x, vget words (word_of i) = Some x) /\
  (forall i j, i < n -> member (mark words i) j <-> j = i \/ member words j) /\
  exists o, lowest_set words s = Done s o /\ (o = None <-> is_empty words = true) /\
    (is_empty words = true <-> forall i, ~ member words i) /\
    forall i, o = Some i <-> member words i /\ forall j, member words j -> i <= j.
Proof.
  intros Hx Hlen Hn.
  assert (Hx' : forall x, x ∈ words -> x < 2 ^ 64).
  { intros x H. apply Hx, N.lt_succ_r in H. exact H. }
  split_and!.
  - intros i. by apply word_in_range.
  - intros i j Hi. destruct (word_in_range words n i Hlen Hi) as [x Hxi]. by eapply mark_member.
  - destruct (pending_lowest words n s) as (o & E & He & Hm); [done..|].
    assert (Hz : is_empty words = true <-> forall i, ~ member words i)
      by (by rewrite is_empty_spec, members_zero).
    exists o. split_and!; [done|by rewrite Hz|done|done].
Qed.

Theorem pending_set_exact_witness :
  exists o, lowest_set [0; 64; 0; 0; 1] tt = Done tt o /\ o = Some 70.
Proof.
  refine (match pending_set_exact [0; 64; 0; 0; 1] 288 tt _ _ _ with
    | conj _ (conj _ (ex_intro _ o (conj E _))) => ex_intro _ o (conj E _)
    end).
  - intros x Hx. repeat (apply elem_of_cons in Hx as [->|Hx]; [vm_compute; discriminate|]).
    by apply elem_of_nil in Hx.
  - reflexivity.
  - vm_compute. discriminate.
  - vm_compute in E. injection E as <-. reflexivity.
Defined.
