(* ===== verification/Irouter.v ===== *)
(** * Where a shared interrupt is routed — [hv-vdev/src/irouter.rs]

    The decode of one [GICD_IROUTER<n>] value and the question it answers: does the route
    name the vCPU of this packed affinity? *)

From Stdlib Require Import NArith Lia Btauto.
From stdpp Require Import base numbers list option.
From S2P Require Import Bits.
From S2P Require Import Prelude.
#[local] Open Scope N_scope.

(** ** Data *)

Definition IRM_BIT : N := shl 64 1 31.
Definition AFF_LOW_MASK : N := 16777215.
Definition AFF3_SHIFT : N := 32.
Definition AFF_BYTE : N := 255.
Definition PACKED_AFF3_SHIFT : N := 24.

Record SpiRoute : Type := mkRoute {
  any_of_n : bool;
  r_affinity : N;
}.

(** ** Operations *)

Definition decode (value : N) : SpiRoute :=
  mkRoute (negb (N.land value IRM_BIT =? 0))
    (N.lor (N.land value AFF_LOW_MASK)
           (shl 64 (N.land (N.shiftr value AFF3_SHIFT) AFF_BYTE) PACKED_AFF3_SHIFT)).

Definition is_any_of_n (r : SpiRoute) : bool := any_of_n r.

Definition targets (r : SpiRoute) (aff : N) : bool := negb (any_of_n r) && (aff =? r_affinity r).

(** ** Specification *)

(** Byte [k] of a register value. *)
Definition byte_at (value k : N) : N := (value / 2 ^ k) mod 256.

(** The affinity a value names: [Aff3] comes from bits 32 to 39, the rest from the low 24. *)
Definition named (value : N) : N := value mod 2 ^ 24 + 2 ^ 24 * byte_at value 32.

(** ** Lemmas *)

Lemma byte_at_bits value k : byte_at value k = N.land (N.shiftr value k) (N.ones 8).
Proof. unfold byte_at. by rewrite land_ones_mod, N.shiftr_div_pow2. Qed.

Lemma testbit_byte_at value k i : N.testbit (byte_at value k) i = (i <? 8) && N.testbit value (i + k).
Proof. rewrite byte_at_bits. autorewrite with bits. btauto. Qed.

Lemma byte_at_lt value k : byte_at value k < 2 ^ 8.
Proof. apply N.mod_lt. done. Qed.

(** A sum of disjoint ranges of bits is their disjunction. *)
Lemma add_shifted a b k : a < 2 ^ k -> a + 2 ^ k * b = N.lor a (N.shiftl b k).
Proof.
  intros Ha. rewrite <- N.lxor_lor, N.add_nocarry_lxor.
  - by rewrite N.shiftl_mul_pow2, (N.mul_comm b).
  - rewrite N.mul_comm, <- N.shiftl_mul_pow2. apply N.bits_inj. intros i. autorewrite with bits.
    destruct (N.leb_spec k i); [|btauto]. by rewrite (testbit_high a k).
  - apply N.bits_inj. intros i. autorewrite with bits.
    destruct (N.leb_spec k i); [|btauto]. by rewrite (testbit_high a k).
Qed.

Lemma decode_affinity value : r_affinity (decode value) = named value.
Proof.
  unfold decode, named. simpl. rewrite add_shifted by (by apply N.mod_lt).
  change AFF_LOW_MASK with (N.ones 24). rewrite land_ones_mod. f_equal.
  rewrite byte_at_bits. unfold AFF3_SHIFT, PACKED_AFF3_SHIFT.
  change AFF_BYTE with (N.ones 8). apply (shl_small _ _ _ 8); [|done].
  rewrite land_ones_mod. by apply N.mod_lt.
Qed.

Lemma decode_irm value : any_of_n (decode value) = N.testbit value 31.
Proof.
  unfold decode, IRM_BIT. simpl any_of_n. rewrite (shl_small 64 1 31 1) by (try lia; done).
  by rewrite land_pow2, negb_involutive.
Qed.

Lemma route_targets_spec value aff :
  targets (decode value) aff = true <-> N.testbit value 31 = false /\ aff = named value.
Proof.
  unfold targets. rewrite decode_affinity, decode_irm, andb_true_iff, negb_true_iff, N.eqb_eq.
  done.
Qed.
