(* ===== verification/Sgi.v ===== *)
(** * Who an inter-processor interrupt names — [hv-vdev/src/sgi.rs]

    The decode of a guest's write to [ICC_SGI1R_EL1] and the predicate over packed
    affinities it stands for. *)

From Stdlib Require Import NArith Lia Btauto.
From stdpp Require Import base numbers list option.
From S2P Require Import Bits.
From S2P Require Import Irouter.
From S2P Require Import Prelude.
#[local] Open Scope N_scope.

(** ** Data *)

Definition INTID_SHIFT : N := 24.
Definition INTID_MASK : N := 15.
Definition IRM_BIT : N := shl 64 1 47.
Definition AFF1_SHIFT : N := 16.
Definition AFF2_SHIFT : N := 32.
Definition AFF3_SHIFT : N := 56.
Definition AFF_BYTE : N := 255.
Definition RS_SHIFT : N := 40.
Definition RS_MASK : N := 15.
Definition TARGET_LIST_MASK : N := 65535.
Definition TARGETS_PER_RANGE : N := 16.
Definition AFF0_MASK : N := 255.

Record SgiTargets : Type := mkTargets {
  intid : N;
  broadcast : bool;
  sender : N;
  cluster : N;
  range_base : N;
  target_list : N;
}.

(** ** Operations *)

Definition decode (value snd : N) : SgiTargets :=
  let aff1 := N.land (N.shiftr value AFF1_SHIFT) AFF_BYTE in
  let aff2 := N.land (N.shiftr value AFF2_SHIFT) AFF_BYTE in
  let aff3 := N.land (N.shiftr value AFF3_SHIFT) AFF_BYTE in
  mkTargets
    (as_u32 (N.land (N.shiftr value INTID_SHIFT) INTID_MASK))
    (negb (N.land value IRM_BIT =? 0))
    snd
    (N.lor (N.lor (shl 64 aff1 8) (shl 64 aff2 16)) (shl 64 aff3 24))
    (N.land (N.shiftr value RS_SHIFT) RS_MASK * TARGETS_PER_RANGE)
    (N.land value TARGET_LIST_MASK).

Definition is_broadcast (t : SgiTargets) : bool := broadcast t.

Definition targets (t : SgiTargets) (aff : N) : bool :=
  if broadcast t then negb (aff =? sender t)
  else if negb (N.land aff (bnot 64 AFF0_MASK) =? cluster t) then false
  else
    let aff0 := N.land aff AFF0_MASK in
    if (aff0 <? range_base t) || (range_base t + TARGETS_PER_RANGE <=? aff0) then false
    else negb (N.land (target_list t) (shl 64 1 (aff0 - range_base t)) =? 0).

(** ** Specification *)

(** The cluster a value names, [Aff3:Aff2:Aff1], and the range selector. *)
Definition named_cluster (value : N) : N :=
  byte_at value 16 + 2 ^ 8 * (byte_at value 32 + 2 ^ 8 * byte_at value 56).
Definition range_of (value : N) : N := 16 * ((value / 2 ^ 40) mod 16).

(** The PEs a value names when it is not a broadcast. *)
Definition names_pe (value aff : N) : Prop :=
  aff / 256 = named_cluster value /\
  range_of value <= aff mod 256 < range_of value + 16 /\
  N.testbit value (aff mod 256 - range_of value) = true.

(** ** Lemmas *)

Lemma decode_cluster value s : cluster (decode value s) = 256 * named_cluster value.
Proof.
  unfold decode, named_cluster. cbn [cluster].
  change AFF_BYTE with (N.ones 8). rewrite <- !byte_at_bits.
  rewrite !(shl_small 64 _ _ 8) by (try apply byte_at_lt; done).
  rewrite (add_shifted (byte_at value 32)) by apply byte_at_lt.
  rewrite (add_shifted (byte_at value 16)) by apply byte_at_lt.
  rewrite N.mul_comm. change 256 with (2 ^ 8). rewrite <- N.shiftl_mul_pow2.
  rewrite !N.shiftl_lor, !N.shiftl_shiftl. by rewrite N.lor_assoc.
Qed.

Lemma aff_cluster aff : aff < 2 ^ 64 -> N.land aff (bnot 64 AFF0_MASK) = 256 * (aff / 256).
Proof.
  intros Ha. rewrite N.mul_comm. change 256 with (2 ^ 8) at 1 2.
  rewrite <- N.shiftl_mul_pow2, <- N.shiftr_div_pow2.
  change AFF0_MASK with (N.ones 8). apply N.bits_inj. intros i. autorewrite with bits.
  destruct (N.ltb_spec i 64); [|by rewrite !(testbit_high aff 64) by (done || lia); btauto].
  destruct (N.leb_spec 8 i), (N.ltb_spec i 8); simpl; try lia.
  replace (i - 8 + 8) with i by lia. btauto.
Qed.

Lemma decode_range value s :
  range_base (decode value s) = range_of value /\ range_of value <= 240.
Proof.
  unfold decode, range_of. cbn [range_base]. change RS_MASK with (N.ones 4).
  rewrite land_ones_mod, N.shiftr_div_pow2. change (2 ^ 4) with 16. unfold RS_SHIFT, TARGETS_PER_RANGE.
  pose proof (N.mod_lt (value / 2 ^ 40) 16 ltac:(done)). lia.
Qed.

(** Whom a decoded write names. *)
Lemma sgi_targets_spec value s aff :
  aff < 2 ^ 64 ->
  targets (decode value s) aff = true <->
  if N.testbit value 47 then aff <> s else names_pe value aff.
Proof.
  intros Ha. unfold targets. destruct (decode_range value s) as [Hr Hb].
  rewrite Hr, decode_cluster, aff_cluster by done. unfold decode at 1 2 3, IRM_BIT.
  cbn [broadcast sender target_list].
  rewrite (shl_small 64 1 47 1) by (try lia; done). rewrite land_pow2, negb_involutive.
  destruct (N.testbit value 47).
  { by rewrite negb_true_iff, N.eqb_neq. }
  unfold names_pe, TARGETS_PER_RANGE. change AFF0_MASK with (N.ones 8).
  rewrite land_ones_mod. change (2 ^ 8) with 256.
  pose proof (N.mod_lt aff 256 ltac:(done)) as Hlt.
  destruct (N.eqb_spec (256 * (aff / 256)) (256 * named_cluster value)) as [E|E]; simpl.
  2: { split; [done|]. intros [H _]. by rewrite H in E. }
  apply N.mul_cancel_l in E; [|done].
  destruct (N.ltb_spec (aff mod 256) (range_of value)); simpl; [split; [done|]; lia|].
  destruct (N.leb_spec (range_of value + 16) (aff mod 256)); simpl; [split; [done|]; lia|].
  rewrite (shl_small 64 1 _ 1) by (try lia; done). rewrite land_pow2, negb_involutive.
  change TARGET_LIST_MASK with (N.ones 16). autorewrite with bits.
  destruct (N.ltb_spec (aff mod 256 - range_of value) 16); [|lia]. rewrite andb_true_r.
  split; [intros Ht; split_and!; try done; lia|tauto].
Qed.

Lemma sgi_intid_lt value s : intid (decode value s) < 16.
Proof.
  unfold decode. cbn [intid]. change INTID_MASK with (N.ones 4). rewrite land_ones_mod.
  unfold as_u32. eapply N.le_lt_trans; [apply N.Div0.mod_le|]. by apply N.mod_lt.
Qed.

(** ** Properties *)

(** A guest's [ICC_SGI1R_EL1] write names whom the architecture says, whatever its 64
    bits: a broadcast every PE but the sender; otherwise exactly the PEs of the cluster in
    the three affinity bytes whose [Aff0] is in the selected range of sixteen with its list
    bit set. So a write that names a cluster other than zero reaches none of the vCPUs a
    guest has, and one write reaches at most sixteen; and it always raises an SGI. *)
Theorem sgi_names_exactly (value snd : N) :
  intid (decode value snd) < 16 /\
  (forall aff, aff <= u64_max -> targets (decode value snd) aff = true <->
     if N.testbit value 47 then aff <> snd else names_pe value aff) /\
  (N.testbit value 47 = false -> named_cluster value <> 0 ->
     forall v, v <= 255 -> targets (decode value snd) v = false) /\
  (N.testbit value 47 = false -> forall vs, NoDup vs ->
     (forall aff, aff ∈ vs -> aff <= u64_max /\ targets (decode value snd) aff = true) ->
     vlen vs <= 16).
Proof.
  assert (Hs : forall aff, aff <= u64_max -> targets (decode value snd) aff = true <->
    if N.testbit value 47 then aff <> snd else names_pe value aff).
  { intros aff Ha. apply sgi_targets_spec. apply N.lt_succ_r in Ha. exact Ha. }
  split_and!; [|done| |].
  - apply sgi_intid_lt.
  - intros Hirm Hc v Hv. apply not_true_iff_false. rewrite Hs.
    2: { etransitivity; [exact Hv|done]. }
    rewrite Hirm. intros (H & _). apply Hc. rewrite <- H. apply N.div_small. lia.
  - intros Hirm vs Hnd Hvs. destruct (decode_range value snd) as [_ Hb].
    assert (Hsub : vs ⊆ (fun k => 256 * named_cluster value + (range_of value + k)) <$> vrange 16).
    { intros aff Haff. destruct (Hvs aff Haff) as [Hle Ht]. rewrite (Hs aff Hle), Hirm in Ht.
      destruct Ht as (H1 & H2 & _). apply list_elem_of_fmap.
      exists (aff mod 256 - range_of value). split; [|apply elem_vrange; lia].
      rewrite <- H1. pose proof (N.div_mod aff 256 ltac:(done)). lia. }
    pose proof (NoDup_submseteq _ _ Hnd Hsub) as Hm. apply submseteq_length in Hm.
    unfold vlen. rewrite length_fmap in Hm. change (length (vrange 16)) with 16%nat in Hm. lia.
Qed.
