(* ===== verification/VgicCpuif.v ===== *)
(** * The list registers of the virtual CPU interface — [hv-vdev/src/vgic_cpuif.rs]

    The encoding of a list register, its decoders, and the transform a context switch
    applies to a saved bank of them. *)

From Stdlib Require Import NArith Lia Btauto.
From stdpp Require Import base numbers list option.
From S2P Require Import Bits.
From S2P Require Import Prelude.
#[local] Open Scope N_scope.

(** ** The layout *)

Definition MAX_LIST_REGISTERS : N := 16.
Definition LR_VINTID_SHIFT : N := 0.
Definition LR_VINTID_BITS : N := 32.
Definition LR_PINTID_SHIFT : N := 32.
Definition LR_PINTID_BITS : N := 10.
Definition LR_PRIORITY_SHIFT : N := 48.
Definition LR_PRIORITY_BITS : N := 8.
Definition LR_GROUP1 : N := shl 64 1 60.
Definition LR_HW : N := shl 64 1 61.
Definition LR_STATE_SHIFT : N := 62.
Definition LR_STATE_BITS : N := 2.

Definition field_mask (shift bits : N) : N := shl 64 (shl 64 1 bits - 1) shift.
Definition field (lr shift bits : N) : N := N.land (N.shiftr lr shift) (shl 64 1 bits - 1).

Definition MAX_PINTID : N := shl 32 1 LR_PINTID_BITS - 1.

Inductive LrState : Type :=
| Invalid
| Pending
| Active
| PendingActive.
#[global] Instance LrState_eq_dec : EqDecision LrState.
Proof. solve_decision. Defined.

(** ** Decoders *)

Definition lr_state (lr : N) : LrState :=
  match field lr LR_STATE_SHIFT LR_STATE_BITS with
  | 0 => Invalid
  | 1 => Pending
  | 2 => Active
  | _ => PendingActive
  end.
Definition lr_is_free (lr : N) : bool := bool_decide (lr_state lr = Invalid).
Definition lr_is_hw (lr : N) : bool := negb (N.land lr LR_HW =? 0).
Definition lr_is_group1 (lr : N) : bool := negb (N.land lr LR_GROUP1 =? 0).
Definition lr_vintid (lr : N) : N := as_u32 (field lr LR_VINTID_SHIFT LR_VINTID_BITS).
Definition lr_priority (lr : N) : N := as_u8 (field lr LR_PRIORITY_SHIFT LR_PRIORITY_BITS).
Definition lr_pintid (lr : N) : option N :=
  if lr_is_hw lr then Some (as_u32 (field lr LR_PINTID_SHIFT LR_PINTID_BITS)) else None.

(** ** Encoders *)

Definition encode_lr (vintid : N) (hw : option N) (priority : N) : option N :=
  let base := N.lor (N.lor (N.lor (shl 64 1 LR_STATE_SHIFT) LR_GROUP1)
                           (shl 64 priority LR_PRIORITY_SHIFT))
                    (shl 64 vintid LR_VINTID_SHIFT) in
  match hw with
  | Some pintid =>
      if decide (MAX_PINTID < pintid) then None
      else Some (N.lor (N.lor base LR_HW) (shl 64 pintid LR_PINTID_SHIFT))
  | None => Some base
  end.

Definition encode_active (vintid : N) : N :=
  N.lor (shl 64 2 LR_STATE_SHIFT) (shl 64 vintid LR_VINTID_SHIFT).

(** ** The context switch *)

(** [*lr &= !(LR_HW | PINTID_FIELD)]. *)
Definition demote (lr : N) : N :=
  N.land lr (bnot 64 (N.lor LR_HW (field_mask LR_PINTID_SHIFT LR_PINTID_BITS))).

(** The loop over the bank: the bank it leaves, and how many registers it converted. *)
Fixpoint release_hardware_mappings (bank : list N) : list N * N :=
  match bank with
  | [] => ([], 0)
  | lr :: bank =>
      let '(rest, released) := release_hardware_mappings bank in
      if negb (lr_is_free lr) && lr_is_hw lr then (demote lr :: rest, released + 1)
      else (lr :: rest, released)
  end.

(** ** Specification *)

(** A list register as its fields. *)
Record lr_view : Type := mkView {
  v_state : LrState;
  v_group1 : bool;
  v_vintid : N;
  v_priority : N;
  v_pintid : option N;
}.
Definition view (lr : N) : lr_view :=
  mkView (lr_state lr) (lr_is_group1 lr) (lr_vintid lr) (lr_priority lr) (lr_pintid lr).

#[global] Arguments lr_is_free : simpl never.
#[global] Arguments lr_is_hw : simpl never.
#[global] Arguments demote : simpl never.
#[global] Arguments view : simpl never.

(** ** Lemmas *)

Lemma mask_ones b : b < 64 -> shl 64 1 b - 1 = N.ones b.
Proof.
  intros Hb. rewrite (shl_small 64 1 b 1) by (try lia; done). unfold N.ones. lia.
Qed.

Lemma testbit_field lr s b i :
  b < 64 -> N.testbit (field lr s b) i = (i <? b) && N.testbit lr (i + s).
Proof. intros Hb. unfold field. rewrite mask_ones by done. autorewrite with bits. btauto. Qed.

Lemma field_ext lr lr' s b :
  b < 64 -> (forall i, i < b -> N.testbit lr (i + s) = N.testbit lr' (i + s)) ->
  field lr s b = field lr' s b.
Proof.
  intros Hb H. apply N.bits_inj. intros i. rewrite !testbit_field by done.
  destruct (N.ltb_spec i b); [|done]. simpl. by apply H.
Qed.

(** A field holds [x] when its bits are those of [x]. *)
Lemma field_is lr s b x :
  b < 64 -> x < 2 ^ b -> (forall i, i < b -> N.testbit lr (i + s) = N.testbit x i) ->
  field lr s b = x.
Proof.
  intros Hb Hx H. apply N.bits_inj. intros i. rewrite testbit_field by done.
  destruct (N.ltb_spec i b); simpl; [by apply H|by rewrite (testbit_high x b)].
Qed.

Lemma lr_is_hw_bit lr : lr_is_hw lr = N.testbit lr 61.
Proof.
  unfold lr_is_hw, LR_HW. rewrite (shl_small 64 1 61 1) by (try lia; done).
  by rewrite land_pow2, negb_involutive.
Qed.

Lemma lr_is_group1_bit lr : lr_is_group1 lr = N.testbit lr 60.
Proof.
  unfold lr_is_group1, LR_GROUP1. rewrite (shl_small 64 1 60 1) by (try lia; done).
  by rewrite land_pow2, negb_involutive.
Qed.

(** The bits a demotion clears. *)
Lemma testbit_demote lr i :
  lr < 2 ^ 64 -> N.testbit (demote lr) i =
  N.testbit lr i && negb (i =? 61) && negb ((32 <=? i) && (i <? 42)).
Proof.
  intros Hlr. unfold demote, field_mask. rewrite mask_ones by done.
  unfold LR_HW, LR_PINTID_SHIFT, LR_PINTID_BITS. autorewrite with bits.
  destruct (decide (64 <= i)); [by rewrite (testbit_high lr 64)|].
  split_compare; simpl; try btauto; try lia.
Qed.

Ltac high_bits :=
  repeat match goal with
  | H : ?x < 2 ^ ?w |- context [N.testbit ?x ?i] => rewrite (testbit_high x w i H) by lia
  end.

Lemma testbit_encode_base p v i :
  p < 2 ^ 8 -> v < 2 ^ 32 ->
  N.testbit (N.lor (N.lor (N.lor (shl 64 1 LR_STATE_SHIFT) LR_GROUP1)
     (shl 64 p LR_PRIORITY_SHIFT)) (shl 64 v LR_VINTID_SHIFT)) i =
  (i =? 62) || (i =? 60) || ((48 <=? i) && N.testbit p (i - 48)) || N.testbit v i.
Proof.
  intros Hp Hv. unfold LR_STATE_SHIFT, LR_GROUP1, LR_PRIORITY_SHIFT, LR_VINTID_SHIFT.
  autorewrite with bits. rewrite N.sub_0_r.
  split_compare; simpl; try btauto; try lia; high_bits; try btauto.
Qed.

Lemma pow2_32 : 2 ^ 32 = 4294967296.
Proof. done. Qed.

Lemma encode_lr_view v hw p lr :
  v < 2 ^ 32 -> p < 2 ^ 8 -> encode_lr v hw p = Some lr ->
  lr < 2 ^ 64 /\ view lr = mkView Pending true v p hw.
Proof.
  intros Hv Hp H.
  assert (Hbits : forall i, N.testbit lr i =
    (i =? 62) || (i =? 60) || ((48 <=? i) && N.testbit p (i - 48)) || N.testbit v i ||
    match hw with Some q => (i =? 61) || ((32 <=? i) && N.testbit q (i - 32)) | None => false end).
  { intros i. unfold encode_lr in H. destruct hw as [q|].
    - case_decide as Hq; [done|]. injection H as <-. change MAX_PINTID with 1023 in Hq.
      assert (Hq' : q < 2 ^ 10) by (change (2 ^ 10) with 1024; lia).
      rewrite N.lor_spec, N.lor_spec, testbit_encode_base by done.
      unfold LR_HW, LR_PINTID_SHIFT. autorewrite with bits.
      split_compare; simpl; try btauto; try lia; high_bits; try btauto.
    - injection H as <-. rewrite testbit_encode_base by done. btauto. }
  assert (Hq : forall q, hw = Some q -> q < 2 ^ 10).
  { intros q ->. unfold encode_lr in H. case_decide as Hq; [done|].
    change MAX_PINTID with 1023 in Hq. change (2 ^ 10) with 1024. lia. }
  clear H. split.
  { apply bits_bound. intros i Hi. rewrite Hbits. destruct hw as [q|];
      [specialize (Hq q eq_refl)|]; split_compare; simpl; try lia; by high_bits. }
  unfold view. f_equal.
  - unfold lr_state, LR_STATE_SHIFT, LR_STATE_BITS. rewrite (field_is lr 62 2 1); [done|done..|].
    intros i Hi. rewrite Hbits, testbit_one. destruct hw as [q|];
      [specialize (Hq q eq_refl)|]; split_compare; simpl; try lia; by high_bits.
  - rewrite lr_is_group1_bit, Hbits. by rewrite N.eqb_refl, orb_true_r.
  - unfold lr_vintid, LR_VINTID_SHIFT, LR_VINTID_BITS. rewrite (field_is lr 0 32 v); [|done..|].
    + apply N.mod_small. exact Hv.
    + intros i Hi. rewrite N.add_0_r, Hbits. destruct hw as [q|]; split_compare; simpl; try lia; btauto.
  - unfold lr_priority, LR_PRIORITY_SHIFT, LR_PRIORITY_BITS. rewrite (field_is lr 48 8 p); [|done..|].
    + apply N.mod_small. exact Hp.
    + intros i Hi. rewrite Hbits. replace (i + 48 - 48) with i by lia. destruct hw as [q|];
        [specialize (Hq q eq_refl)|]; split_compare; simpl; try lia; high_bits; try btauto.
  - unfold lr_pintid. rewrite lr_is_hw_bit, Hbits. destruct hw as [q|]; simpl.
    + rewrite !orb_true_r. f_equal. unfold LR_PINTID_SHIFT, LR_PINTID_BITS.
      specialize (Hq q eq_refl). rewrite (field_is lr 32 10 q); [|done..|].
      * apply N.mod_small. etransitivity; [exact Hq|done].
      * intros i Hi. rewrite Hbits. replace (i + 32 - 32) with i by lia.
        split_compare; simpl; try lia; high_bits; try btauto.
    + high_bits. done.
Qed.

Lemma demote_view lr :
  lr < 2 ^ 64 -> view (demote lr) =
    mkView (lr_state lr) (lr_is_group1 lr) (lr_vintid lr) (lr_priority lr) None.
Proof.
  intros Hlr.
  assert (Hf : forall s b, b < 64 -> (forall i, i < b -> ~ (32 <= i + s < 42) /\ i + s <> 61) ->
    field (demote lr) s b = field lr s b).
  { intros s b Hb H. apply field_ext; [done|]. intros i Hi. rewrite testbit_demote by done.
    destruct (H i Hi). split_compare; simpl; try btauto; lia. }
  unfold view. f_equal.
  - unfold lr_state. rewrite Hf; [done|done|]. unfold LR_STATE_SHIFT, LR_STATE_BITS. lia.
  - rewrite !lr_is_group1_bit, testbit_demote by done. simpl. btauto.
  - unfold lr_vintid. rewrite Hf; [done|done|]. unfold LR_VINTID_SHIFT, LR_VINTID_BITS. lia.
  - unfold lr_priority. rewrite Hf; [done|done|]. unfold LR_PRIORITY_SHIFT, LR_PRIORITY_BITS. lia.
  - unfold lr_pintid. rewrite lr_is_hw_bit, testbit_demote by done. simpl.
    by rewrite andb_false_r.
Qed.

Lemma release_spec bank :
  release_hardware_mappings bank =
  ((fun lr => if negb (lr_is_free lr) && lr_is_hw lr then demote lr else lr) <$> bank,
   count (fun lr => negb (lr_is_free lr) && lr_is_hw lr) bank).
Proof.
  induction bank as [|lr bank IH]; [done|]. rewrite fmap_cons.
  cbn [release_hardware_mappings count]. rewrite IH.
  destruct (negb (lr_is_free lr) && lr_is_hw lr).
  - by rewrite N.add_comm.
  - by rewrite N.add_0_l.
Qed.

(** ** Properties *)

(** A list register reads back what was encoded: [encode_lr] refuses exactly the physical
    INTIDs its field cannot name, and otherwise gives a 64-bit word that decodes to a pending
    Group-1 interrupt with the virtual INTID, the priority and the mapping it was given;
    [encode_active] gives an occupied register that is neither pending nor mapped. *)
Theorem list_register_roundtrip (vintid priority : N) (hw : option N) :
  vintid <= u32_max -> priority <= u8_max ->
  (encode_lr vintid hw priority = None <-> exists p, hw = Some p /\ MAX_PINTID < p) /\
  (forall lr, encode_lr vintid hw priority = Some lr ->
     lr <= u64_max /\ view lr = mkView Pending true vintid priority hw) /\
  lr_state (encode_active vintid) = Active /\ lr_vintid (encode_active vintid) = vintid /\
  lr_pintid (encode_active vintid) = None.
Proof.
  intros Hv Hp. assert (Hv' : vintid < 2 ^ 32) by (apply N.lt_succ_r in Hv; exact Hv).
  assert (Hp' : priority < 2 ^ 8) by (apply N.lt_succ_r in Hp; exact Hp).
  assert (Ha : forall i, N.testbit (encode_active vintid) i = (i =? 63) || N.testbit vintid i).
  { intros i. unfold encode_active, LR_STATE_SHIFT, LR_VINTID_SHIFT. autorewrite with bits.
    rewrite N.sub_0_r. destruct (N.eqb_spec i 63) as [->|]; [done|].
    split_compare; simpl; try lia; try btauto.
    - destruct (i - 62) as [|q] eqn:E; [simpl; btauto|]. lia.
    - high_bits. done. }
  split_and!.
  - unfold encode_lr. destruct hw as [p|]; [|split; [done|by intros (? & ? & _)]].
    case_decide as Hd; (split; [intros H|intros (q & [= <-] & Hq)]); try done; eauto.
  - intros lr Hlr. destruct (encode_lr_view _ _ _ _ Hv' Hp' Hlr) as [H1 H2]. split; [|done].
    apply N.lt_succ_r. exact H1.
  - unfold lr_state, LR_STATE_SHIFT, LR_STATE_BITS. rewrite (field_is _ 62 2 2); [done|done..|].
    intros i Hi. rewrite Ha. high_bits. rewrite orb_false_r. destruct (decide (i = 0)) as [->|]; [done|].
    assert (i = 1) as -> by lia. done.
  - unfold lr_vintid, LR_VINTID_SHIFT, LR_VINTID_BITS. rewrite (field_is _ 0 32 vintid); [|done..|].
    + by apply N.mod_small.
    + intros i Hi. rewrite N.add_0_r, Ha. destruct (N.eqb_spec i 63); [lia|done].
  - unfold lr_pintid. rewrite lr_is_hw_bit, Ha. high_bits. done.
Qed.

Theorem list_register_roundtrip_witness :
  exists lr, encode_lr 27 (Some 27) 128 = Some lr /\ view lr = mkView Pending true 27 128 (Some 27).
Proof.
  refine (match list_register_roundtrip 27 128 (Some 27) _ _ with
    | conj _ (conj H _) => ex_intro _ _ (conj eq_refl (proj2 (H _ eq_refl)))
    end); vm_compute; discriminate.
Defined.

(** A context switch takes the physical mappings back and nothing else: after
    [release_hardware_mappings] a register that is occupied carries no mapping and keeps its
    state, group, virtual INTID and priority; a free register, residue included, and an
    unmapped one are bit for bit as they were; and the count returned is the number of
    registers converted. *)
Theorem release_exact (bank : list N) :
  (forall lr, lr ∈ bank -> lr <= u64_max) ->
  exists bank', release_hardware_mappings bank =
      (bank', count (fun lr => negb (lr_is_free lr) && lr_is_hw lr) bank) /\
    vlen bank' = vlen bank /\
    forall i lr, vget bank i = Some lr -> exists lr', vget bank' i = Some lr' /\
      (lr_is_free lr = true \/ lr_is_hw lr = false -> lr' = lr) /\
      (lr_is_free lr = false -> view lr' =
         mkView (lr_state lr) (lr_is_group1 lr) (lr_vintid lr) (lr_priority lr) None).
Proof.
  intros Hb. rewrite release_spec. eexists. split; [done|]. split; [apply vlen_fmap|].
  intros i lr Hi. rewrite vget_fmap, Hi. eexists. split; [done|].
  assert (Hlr : lr < 2 ^ 64).
  { pose proof (Hb lr (vget_elem _ _ _ Hi)) as H. apply N.lt_succ_r in H. exact H. }
  destruct (lr_is_free lr) eqn:Hf, (lr_is_hw lr) eqn:Hh; simpl; split; try naive_solver.
  - intros _. by apply demote_view.
  - intros _. unfold view. f_equal. unfold lr_pintid. by rewrite Hh.
Qed.

(** A bank with a forwarded timer, and the residue of a completed forwarded interrupt. *)
Definition demo_bank : list N := [8106479445231009819; 3494793426803621915].

Theorem release_exact_witness :
  exists bank', release_hardware_mappings demo_bank = (bank', 1) /\ vlen bank' = 2 /\
    lr_is_free 3494793426803621915 = true /\ lr_is_hw 3494793426803621915 = true.
Proof.
  refine (match release_exact demo_bank _ with
    | ex_intro _ bank' (conj E (conj H _)) =>
        ex_intro _ bank' (conj E (conj H (conj eq_refl eq_refl)))
    end).
  intros lr H. unfold demo_bank in H. apply elem_of_cons in H as [->|H]; [vm_compute; discriminate|].
  apply list_elem_of_singleton in H as ->. vm_compute. discriminate.
Defined.
