(* ===== verification/Pl011.v ===== *)
(** * The emulated UART — [hv-vdev/src/pl011.rs]

    The register file of a PL011 that only transmits, and the matcher that watches the
    transmitted bytes for a marker. *)

From Stdlib Require Import NArith Lia Btauto.
From stdpp Require Import base numbers list option.
From S2P Require Import Bits.
From S2P Require Import Prelude.
#[local] Open Scope N_scope.

(** ** The register map *)

Definition DR : N := 0.
Definition RSR_ECR : N := 4.
Definition FR : N := 24.
Definition ILPR : N := 32.
Definition IBRD : N := 36.
Definition FBRD : N := 40.
Definition LCR_H : N := 44.
Definition CR : N := 48.
Definition IFLS : N := 52.
Definition IMSC : N := 56.
Definition RIS : N := 60.
Definition MIS : N := 64.
Definition ICR : N := 68.
Definition DMACR : N := 72.
Definition PERIPH_ID0 : N := 4064.
Definition PCELL_ID0 : N := 4080.

Definition FR_STATIC : N := N.lor (shl 32 1 7) (shl 32 1 4).
Definition RIS_STATIC : N := shl 32 1 5.
Definition IFLS_RESET : N := 18.
Definition ID : list N := [17; 16; 20; 0; 13; 240; 5; 177].
Definition ID_BLOCK_BYTES : N := 4 * vlen ID / 2.

Record VirtPl011 : Type := mkPl011 {
  cr : N;
  lcr_h : N;
  ibrd : N;
  fbrd : N;
  ifls : N;
  imsc : N;
  ilpr : N;
  dmacr : N;
}.

(** ** The device *)

Definition new : VirtPl011 := mkPl011 0 0 0 0 IFLS_RESET 0 0 0.

(** [(base..base + len).contains(&off)]. *)
Definition in_range (base len off : N) : bool := (base <=? off) && (off <? base + len).

Definition read_id {S} (off : N) : M S N :=
  if in_range PERIPH_ID0 ID_BLOCK_BYTES off || in_range PCELL_ID0 ID_BLOCK_BYTES off then
    let! i :=
      if off <? PCELL_ID0 then let! d := usub off PERIPH_ID0 in ret (d / 4)
      else let! d := usub off PCELL_ID0 in ret (vlen ID / 2 + d / 4) in
    index ID i
  else ret 0.

Definition read_word (off : N) : M VirtPl011 N :=
  let! u := get in
  if off =? DR then ret 0
  else if off =? RSR_ECR then ret 0
  else if off =? FR then ret FR_STATIC
  else if off =? ILPR then ret (ilpr u)
  else if off =? IBRD then ret (ibrd u)
  else if off =? FBRD then ret (fbrd u)
  else if off =? LCR_H then ret (lcr_h u)
  else if off =? CR then ret (cr u)
  else if off =? IFLS then ret (ifls u)
  else if off =? IMSC then ret (imsc u)
  else if off =? RIS then ret RIS_STATIC
  else if off =? MIS then ret (N.land RIS_STATIC (imsc u))
  else if off =? DMACR then ret (dmacr u)
  else read_id off.

Definition mmio_read (off bytes : N) : M VirtPl011 N :=
  let! word := read_word (N.land off (bnot 64 3)) in
  let lane := N.land off 3 * 8 in
  let mask := if bytes =? 1 then 255 else if bytes =? 2 then 65535 else 4294967295 in
  ret (N.land (N.shiftr word lane) mask).

Definition mmio_write (off value : N) : M VirtPl011 (option N) :=
  if off =? DR then ret (Some (as_u8 value)) else
  modify (fun u =>
    let v := as_u32 value in
    if off =? RSR_ECR then u
    else if off =? ILPR then mkPl011 (cr u) (lcr_h u) (ibrd u) (fbrd u) (ifls u) (imsc u) v (dmacr u)
    else if off =? IBRD then mkPl011 (cr u) (lcr_h u) v (fbrd u) (ifls u) (imsc u) (ilpr u) (dmacr u)
    else if off =? FBRD then mkPl011 (cr u) (lcr_h u) (ibrd u) v (ifls u) (imsc u) (ilpr u) (dmacr u)
    else if off =? LCR_H then mkPl011 (cr u) v (ibrd u) (fbrd u) (ifls u) (imsc u) (ilpr u) (dmacr u)
    else if off =? CR then mkPl011 v (lcr_h u) (ibrd u) (fbrd u) (ifls u) (imsc u) (ilpr u) (dmacr u)
    else if off =? IFLS then mkPl011 (cr u) (lcr_h u) (ibrd u) (fbrd u) v (imsc u) (ilpr u) (dmacr u)
    else if off =? IMSC then mkPl011 (cr u) (lcr_h u) (ibrd u) (fbrd u) (ifls u) v (ilpr u) (dmacr u)
    else if off =? ICR then u
    else if off =? DMACR then mkPl011 (cr u) (lcr_h u) (ibrd u) (fbrd u) (ifls u) (imsc u) (ilpr u) v
    else u) ;!
  ret None.

(** ** The matcher *)

Record NeedleMatcher : Type := mkMatcher {
  needle : list N;
  at_ : N;
  saw : bool;
}.

(** [new] asserts that the needle is not empty. *)
Definition matcher_new {S} (n : list N) : M S NeedleMatcher :=
  if decide (n = []) then panic else ret (mkMatcher n 0 false).

Definition feed (byte : N) : M NeedleMatcher unit :=
  let! m := get in
  if saw m then ret tt else
  let! want := index (needle m) (at_ m) in
  if byte =? want then
    let! a := uadd u64_max (at_ m) 1 in
    modify (fun m => mkMatcher (needle m) a (if a =? vlen (needle m) then true else saw m))
  else
    let! first := index (needle m) 0 in
    modify (fun m => mkMatcher (needle m) (if byte =? first then 1 else 0) (saw m)).

(** ** Specification *)

(** The bytes of a stream, one after the other, as the driver of the matcher gives them. *)
Definition feed_all (bytes : list N) : M NeedleMatcher unit := for_each bytes feed.

(** The registers a driver programs. *)
Definition rw_registers : list N := [ILPR; IBRD; FBRD; LCR_H; CR; IFLS; IMSC; DMACR].

(** What a 32-bit read of an aligned offset returns. *)
Definition reads (u : VirtPl011) (off : N) : option N :=
  match mmio_read off 4 u with Done _ v => Some v | Panic => None end.

(** [l] ends with the first [n] elements of the needle. *)
Definition ends_with_prefix (ndl l : list N) (n : nat) : Prop :=
  (n <= length ndl)%nat /\ exists l0, l = l0 ++ take n ndl.

(** ** Lemmas *)

Lemma read_id_Done {S} off (s : S) : exists v, read_id off s = Done s v /\ v < 256.
Proof.
  unfold read_id. destruct (in_range PERIPH_ID0 _ off || in_range PCELL_ID0 _ off) eqn:E.
  2: { exists 0. by split. }
  assert (Hlt : off < 4096 /\ 4064 <= off).
  { unfold in_range in E. change ID_BLOCK_BYTES with 16 in E.
    unfold PERIPH_ID0, PCELL_ID0 in E. apply orb_true_iff in E as [E|E];
      apply andb_true_iff in E as [E1 E2]; apply N.leb_le in E1; apply N.ltb_lt in E2; lia. }
  assert (Hid : forall i, i < 8 -> exists v, vget ID i = Some v /\ v < 256).
  { intros i Hi. destruct (vget_lt_Some ID i) as [v Hv]; [exact Hi|]. exists v. split; [done|].
    apply vget_elem in Hv. unfold ID in Hv.
    repeat (apply elem_of_cons in Hv as [->|Hv]; [done|]). by apply elem_of_nil in Hv. }
  unfold bind, usub. destruct (N.ltb_spec off PCELL_ID0) as [H|H]; unfold PCELL_ID0, PERIPH_ID0 in *.
  - rewrite decide_True by lia. cbn. unfold index.
    destruct (Hid ((off - 4064) / 4)) as (v & -> & Hv).
    + apply N.Div0.div_lt_upper_bound; lia.
    + by exists v.
  - rewrite decide_True by lia. change (vlen ID / 2) with 4. cbn [ret]. unfold ret, index.
    destruct (Hid (4 + (off - 4080) / 4)) as (v & -> & Hv).
    + assert ((off - 4080) / 4 < 4); [|lia]. apply N.Div0.div_lt_upper_bound; lia.
    + by exists v.
Qed.

Lemma read_word_Done off u : exists v, read_word off u = Done u v.
Proof.
  unfold read_word. unfold bind, get.
  repeat match goal with |- context [if (off =? ?r) then _ else _] => destruct (off =? r) end;
    try (eexists; reflexivity).
  destruct (read_id_Done off u) as (v & E & _). by exists v.
Qed.

Lemma mmio_read_Done off bytes u :
  exists v, mmio_read off bytes u = Done u v /\
    v <= (if bytes =? 1 then 255 else if bytes =? 2 then 65535 else 4294967295).
Proof.
  unfold mmio_read, bind. destruct (read_word_Done (N.land off (bnot 64 3)) u) as [w ->].
  eexists. split; [reflexivity|].
  assert (Hm : forall x k, N.land x (N.ones k) <= N.pred (2 ^ k)).
  { intros x k. rewrite land_ones_mod. apply N.lt_le_pred, N.mod_lt. by apply N.pow_nonzero. }
  destruct (bytes =? 1); [exact (Hm _ 8)|]. destruct (bytes =? 2); [exact (Hm _ 16)|exact (Hm _ 32)].
Qed.

(** *** The matcher *)

(** One step of the matcher, where its indexings succeed. *)
Definition feed_step (b : N) (m : NeedleMatcher) : NeedleMatcher :=
  if saw m then m
  else if decide (vget (needle m) (at_ m) = Some b) then
    mkMatcher (needle m) (at_ m + 1) (at_ m + 1 =? vlen (needle m))
  else mkMatcher (needle m) (if decide (vget (needle m) 0 = Some b) then 1 else 0) false.

Lemma feed_Done b m :
  vlen (needle m) <= u64_max -> (saw m = false -> at_ m < vlen (needle m)) ->
  feed b m = Done (feed_step b m) tt.
Proof.
  intros Hlen Hat. unfold feed, feed_step. unfold bind at 1, get. cbn beta iota.
  destruct (saw m) eqn:Hs; [done|]. specialize (Hat eq_refl).
  destruct (vget_lt_Some _ _ Hat) as [w Hw]. unfold index, bind. rewrite Hw.
  cbn [unwrap_opt]. unfold ret at 1. destruct (N.eqb_spec b w) as [->|Hne].
  - rewrite decide_True by done. unfold uadd. rewrite decide_True by lia.
    unfold ret, modify. cbn beta iota. rewrite Hs. by destruct (_ =? _).
  - rewrite decide_False by congruence.
    destruct (vget_lt_Some (needle m) 0 ltac:(lia)) as [f Hf]. rewrite Hf.
    cbn [unwrap_opt]. unfold ret, modify. cbn beta iota. rewrite Hs.
    destruct (N.eqb_spec b f) as [->|]; [by rewrite decide_True|by rewrite decide_False by congruence].
Qed.

(** The needle is a piece of the stream. *)
Definition occurs (ndl l : list N) : Prop := exists l1 l2, l = l1 ++ ndl ++ l2.

(** What the matcher knows after the stream [l]: its cursor is a match in progress, and if
    the first byte of the needle comes only once in it, the longest one. *)
Record matched (ndl l : list N) (m : NeedleMatcher) : Prop := mkMatched {
  ma_needle : needle m = ndl;
  ma_sound : saw m = true -> occurs ndl l;
  ma_cursor : saw m = false -> at_ m < vlen ndl /\ ends_with_prefix ndl l (N.to_nat (at_ m));
  ma_longest : (forall i, 0 < i -> vget ndl i <> vget ndl 0) -> saw m = false ->
    ~ occurs ndl l /\ forall n, ends_with_prefix ndl l n -> (n <= N.to_nat (at_ m))%nat;
}.

Lemma ends_prefix_0 ndl l : ends_with_prefix ndl l 0.
Proof. split; [lia|]. exists l. by rewrite take_0, app_nil_r. Qed.

Lemma ends_prefix_snoc ndl l b n :
  ends_with_prefix ndl l n -> ndl !! n = Some b -> ends_with_prefix ndl (l ++ [b]) (S n).
Proof.
  intros [Hn [l0 ->] ] Hb. pose proof (lookup_lt_Some _ _ _ Hb). split; [lia|].
  exists l0. by rewrite (take_S_r _ _ b), app_assoc.
Qed.

Lemma ends_prefix_unsnoc ndl l b n :
  ends_with_prefix ndl (l ++ [b]) (S n) -> ends_with_prefix ndl l n /\ ndl !! n = Some b.
Proof.
  intros [Hn [l0 E] ]. destruct (lookup_lt_is_Some_2 ndl n ltac:(lia)) as [c Hc].
  rewrite (take_S_r _ _ c Hc), app_assoc in E. apply app_inj_tail in E as [-> ->].
  split; [|done]. split; [lia|]. by exists l0.
Qed.

Lemma occurs_snoc ndl l b :
  ndl <> [] -> occurs ndl (l ++ [b]) -> occurs ndl l \/ ends_with_prefix ndl (l ++ [b]) (length ndl).
Proof.
  intros Hne (l1 & l2 & E). destruct l2 as [|x l2 _] using rev_ind.
  - right. rewrite app_nil_r in E. split; [done|]. exists l1. by rewrite take_ge.
  - left. rewrite !app_assoc in E. apply app_inj_tail in E as [-> _]. exists l1, l2.
    by rewrite app_assoc.
Qed.

(** Two matches in progress nest only if the first byte of the needle comes again. *)
Lemma ends_prefix_nested ndl l n k :
  (forall i, 0 < i -> vget ndl i <> vget ndl 0) ->
  ends_with_prefix ndl l n -> ends_with_prefix ndl l k -> (0 < n < k)%nat -> False.
Proof.
  intros Huniq [Hn [l1 E1] ] [Hk [l2 E2] ] Hlt. rewrite E1 in E2.
  apply (Huniq (N.of_nat (k - n))); [lia|]. unfold vget. rewrite Nat2N.id. simpl.
  assert (Hlen : (length l1 + n = length l2 + k)%nat).
  { apply (f_equal length) in E2. rewrite !length_app, !length_take in E2. lia. }
  transitivity ((l2 ++ take k ndl) !! length l1).
  - rewrite lookup_app_r by lia. replace (length l1 - length l2)%nat with (k - n)%nat by lia.
    by rewrite lookup_take_lt by lia.
  - rewrite <- E2, lookup_app_r by lia. rewrite Nat.sub_diag. by rewrite lookup_take_lt by lia.
Qed.

Lemma matched_step ndl l m b :
  ndl <> [] -> matched ndl l m -> matched ndl (l ++ [b]) (feed_step b m).
Proof.
  intros Hne [Hn Hs Hc Hl]. unfold feed_step. destruct (saw m) eqn:Hsaw.
  { constructor; rewrite ?Hsaw; try done. intros _. destruct (Hs eq_refl) as (l1 & l2 & ->).
    exists l1, (l2 ++ [b]). by rewrite <- !app_assoc. }
  destruct (Hc eq_refl) as [Hat Hpre]. rewrite Hn.
  assert (Hlong : forall n, (forall i, 0 < i -> vget ndl i <> vget ndl 0) ->
    ends_with_prefix ndl (l ++ [b]) (S n) -> (n <= N.to_nat (at_ m))%nat /\ ndl !! n = Some b).
  { intros n Hu He. apply ends_prefix_unsnoc in He as [He Hb]. split; [|done].
    by apply (Hl Hu eq_refl). }
  case_decide as Hb.
  - pose proof (ends_prefix_snoc _ _ _ _ Hpre Hb) as Hpre'.
    assert (Hsucc : N.to_nat (at_ m + 1) = S (N.to_nat (at_ m))) by lia.
    constructor; cbn [needle saw at_]; [done| | |].
    + intros Hfull%N.eqb_eq. destruct Hpre' as [_ [l0 E] ]. exists l0, [].
      rewrite E, app_nil_r. f_equal. apply take_ge. unfold vlen in Hfull. lia.
    + intros Hfull%N.eqb_neq. split; [lia|]. by rewrite Hsucc.
    + intros Hu Hfull%N.eqb_neq. split.
      * intros [Ho|He]%occurs_snoc; [by apply (Hl Hu eq_refl)| |done].
        destruct (length ndl) as [|n] eqn:Hlen; [by destruct ndl|].
        destruct (Hlong n Hu He) as [Hle _]. unfold vlen in *. lia.
      * intros [|n] He; [lia|]. destruct (Hlong n Hu He). lia.
  - set (a := if decide (vget ndl 0 = Some b) then 1 else 0).
    assert (Hpos : 0 < vlen ndl) by lia.
    assert (Ha : ends_with_prefix ndl (l ++ [b]) (N.to_nat a) /\ a <= 1).
    { unfold a. case_decide as H0; (split; [|done]); [|apply ends_prefix_0].
      apply (ends_prefix_snoc ndl l b 0); [apply ends_prefix_0|exact H0]. }
    assert (Hmax : forall n, (forall i, 0 < i -> vget ndl i <> vget ndl 0) ->
      ends_with_prefix ndl (l ++ [b]) n -> (n <= N.to_nat a)%nat).
    { intros [|n] Hu He; [lia|]. destruct (Hlong n Hu He) as [Hle Hnb].
      destruct (decide (n = N.to_nat (at_ m))) as [->|Hn']; [done|].
      apply ends_prefix_unsnoc in He as [He _]. destruct n as [|n].
      - unfold a. rewrite decide_True; [lia|exact Hnb].
      - exfalso. eapply (ends_prefix_nested ndl l); [exact Hu|exact He|exact Hpre|lia]. }
    assert (Hlen1 : vlen ndl = 1 -> a = 0).
    { intros H1. unfold a. rewrite decide_False; [done|]. intros H0. apply Hb.
      assert (at_ m = 0) as -> by lia. done. }
    constructor; cbn [needle saw at_]; [done|done| |].
    + intros _. split; [|apply Ha]. destruct (decide (vlen ndl = 1)) as [H1|H1];
        [rewrite (Hlen1 H1); lia|]. destruct Ha as [_ Ha]. lia.
    + intros Hu _. split; [|by intros; apply Hmax].
      intros [Ho|He]%occurs_snoc; [by apply (Hl Hu eq_refl)| |done].
      pose proof (Hmax _ Hu He) as Hle. destruct Ha as [_ Ha]. unfold vlen in *.
      destruct (decide (N.of_nat (length ndl) = 1)) as [H1|H1]; [rewrite (Hlen1 H1) in Hle|]; lia.
Qed.

Lemma feed_all_matched ndl bytes :
  ndl <> [] -> vlen ndl <= u64_max ->
  exists m, (let! m0 := matcher_new ndl in ret m0) tt = Done tt (mkMatcher ndl 0 false) /\
    feed_all bytes (mkMatcher ndl 0 false) = Done m tt /\ matched ndl bytes m.
Proof.
  intros Hne Hlen. unfold matcher_new. rewrite decide_False by done.
  assert (H : wp (feed_all bytes) (fun m _ => matched ndl bytes m) (mkMatcher ndl 0 false)).
  { unfold feed_all. apply wp_for_each with (I := matched ndl).
    - constructor; cbn [needle saw at_]; [done|done| |].
      + intros _. split; [destruct ndl; [done|unfold vlen; simpl; lia]|apply ends_prefix_0].
      + intros _ _. split.
        * intros (l1 & l2 & E). apply Hne. destruct ndl; [done|]. by destruct l1.
        * intros n [_ [l0 E] ]. symmetry in E. apply app_eq_nil in E as [_ E].
          destruct n; [lia|]. by destruct ndl.
    - intros l1 b l2 m _ Hm. unfold wp. rewrite feed_Done.
      + by apply matched_step.
      + rewrite (ma_needle _ _ _ Hm). done.
      + rewrite (ma_needle _ _ _ Hm). apply Hm.
    - done. }
  apply wp_Done in H as (m & [] & E & Hm). by exists m.
Qed.

(** ** Properties *)

(** The UART is total and a register file: a read at any offset and width ends without a
    panic, fits the width and changes nothing; a write ends without a panic and hands back
    a byte exactly when it is to the data register; after it, the eight read-write registers
    read as before except the one written, which reads the low 32 bits of the value; and a
    write anywhere else changes nothing. *)
Theorem uart_registers (u : VirtPl011) (off bytes value : N) :
  (exists v, mmio_read off bytes u = Done u v /\
     v <= (if bytes =? 1 then 255 else if bytes =? 2 then 65535 else 4294967295)) /\
  exists u' o, mmio_write off value u = Done u' o /\
    o = (if off =? DR then Some (value mod 256) else None) /\
    (off ∉ rw_registers -> u' = u) /\
    forall r, r ∈ rw_registers ->
      reads u' r = if off =? r then Some (value mod 2 ^ 32) else reads u r.
Proof.
  split; [apply mmio_read_Done|]. unfold mmio_write.
  destruct (N.eqb_spec off DR) as [->|Hdr].
  { exists u, (Some (value mod 256)). split_and!; [done..|]. intros r Hr.
    destruct (N.eqb_spec DR r) as [<-|]; [|done]. exfalso. revert Hr. vm_compute.
    intros Hr. repeat (apply elem_of_cons in Hr as [Hr|Hr]; [done|]). by apply elem_of_nil in Hr. }
  unfold bind, modify. eexists _, None. split; [reflexivity|]. split; [done|].
  assert (Hv : N.land (N.shiftr (as_u32 value) 0) 4294967295 = value mod 2 ^ 32).
  { change 4294967295 with (N.ones 32). rewrite land_ones_mod, N.shiftr_0_r.
    unfold as_u32. change 4294967296 with (2 ^ 32). by rewrite N.Div0.mod_mod. }
  split.
  - intros Hn. unfold rw_registers in Hn.
    repeat (apply not_elem_of_cons in Hn as [? Hn]).
    repeat match goal with |- context [off =? ?r] => destruct (N.eqb_spec off r); [by try congruence|] end.
    done.
  - intros r Hr. unfold rw_registers in Hr.
    repeat match goal with
    | |- context [if off =? ?r then mkPl011 _ _ _ _ _ _ _ _ else _] => destruct (N.eqb_spec off r) as [->|]
    | |- context [if off =? ?r then u else _] => destruct (N.eqb_spec off r) as [->|]
    end;
    repeat (apply elem_of_cons in Hr as [->|Hr];
      [repeat match goal with |- context [?a =? ?b] =>
         first [rewrite (N.eqb_refl a) | rewrite (proj2 (N.eqb_neq a b)) by (done || congruence)] end;
       try (unfold reads; cbn -[N.land]; f_equal; exact Hv); try reflexivity|]);
    by apply elem_of_nil in Hr.
Qed.

(** The matcher never indexes past its needle and never reports a needle that did not
    come; and it reports every one that did, when the needle's first byte does not come
    again in it. *)
Theorem matcher_exact (ndl bytes : list N) :
  ndl <> [] -> vlen ndl <= u64_max ->
  exists m, feed_all bytes (mkMatcher ndl 0 false) = Done m tt /\
    (saw m = true -> occurs ndl bytes) /\
    ((forall i, 0 < i -> vget ndl i <> vget ndl 0) -> occurs ndl bytes -> saw m = true).
Proof.
  intros Hne Hlen. destruct (feed_all_matched ndl bytes Hne Hlen) as (m & _ & E & Hm).
  exists m. split_and!; [done|apply Hm|]. intros Hu Ho. destruct (saw m) eqn:Hs; [done|].
  by destruct (ma_longest _ _ _ Hm Hu Hs).
Qed.

Theorem matcher_exact_witness :
  exists m, feed_all [104; 98; 97; 108; 120] (mkMatcher [98; 97; 108] 0 false) = Done m tt /\
    saw m = true.
Proof.
  refine (match matcher_exact [98; 97; 108] [104; 98; 97; 108; 120] _ _ with
    | ex_intro _ m (conj E (conj _ H)) => ex_intro _ m (conj E (H _ _))
    end).
  - discriminate.
  - vm_compute. discriminate.
  - intros i Hi. destruct (decide (3 <= i)) as [H3|H3].
    + rewrite (proj2 (vget_None [98; 97; 108] i)) by exact H3. discriminate.
    + assert (i = 1 \/ i = 2) as [-> | ->] by lia; vm_compute; discriminate.
  - exists [104], [120]. reflexivity.
Defined.

(** The matcher misses a needle whose start repeats: fed [aaab], a matcher for [aab],
    which the stream contains, does not report it, since a mismatch falls back to the
    needle's first byte and not to the longest border. *)
Theorem matcher_misses :
  occurs [97; 97; 98] [97; 97; 97; 98] /\
  exists m, feed_all [97; 97; 97; 98] (mkMatcher [97; 97; 98] 0 false) = Done m tt /\ saw m = false.
Proof.
  split; [by exists [97], []|]. eexists. split; vm_compute; reflexivity.
Qed.
