(* ===== verification/Gicv3.v ===== *)
(** * The emulated interrupt controller — [hv-vdev/src/gicv3.rs]

    The address decode of the distributor and of one redistributor per vCPU, the register
    reads and writes, and the two questions the hypervisor asks before it delivers an
    interrupt: is it enabled for this vCPU, and where did the guest route it. *)

From Stdlib Require Import NArith Lia Btauto String.
From stdpp Require Import base numbers list option.
From S2P Require Import Bits.
From S2P Require Import Irouter.
From S2P Require Import Prelude.
#[local] Open Scope N_scope.

(** ** Constants *)

Definition NUM_INTIDS : N := 288.
Definition WORDS : N := NUM_INTIDS / 32.
Definition FIRST_SPI : N := 32.

Definition GICD_CTLR : N := 0.
Definition GICD_TYPER : N := 4.
Definition GICD_IIDR : N := 8.
Definition GICD_TYPER2 : N := 12.
Definition GICD_IGROUPR : N := 128.
Definition GICD_ISENABLER : N := 256.
Definition GICD_ICENABLER : N := 384.
Definition GICD_ISPENDR : N := 512.
Definition GICD_ICPENDR : N := 640.
Definition GICD_ISACTIVER : N := 768.
Definition GICD_ICACTIVER : N := 896.
Definition GICD_IPRIORITYR : N := 1024.
Definition GICD_ICFGR : N := 3072.
Definition GICD_IROUTER : N := 24576.
Definition GICD_PIDR2 : N := 65512.

Definition GICR_FRAME : N := 65536.
Definition GICR_FRAMES : N := 2.
Definition GICR_CTLR : N := 0.
Definition GICR_IIDR : N := 4.
Definition GICR_TYPER : N := 8.
Definition GICR_WAKER : N := 20.
Definition GICR_PIDR2 : N := 65512.
Definition GICR_IGROUPR0 : N := 128.
Definition GICR_ISENABLER0 : N := 256.
Definition GICR_ICENABLER0 : N := 384.
Definition GICR_ISPENDR0 : N := 512.
Definition GICR_ICPENDR0 : N := 640.
Definition GICR_ISACTIVER0 : N := 768.
Definition GICR_ICACTIVER0 : N := 896.
Definition GICR_IPRIORITYR : N := 1024.
Definition GICR_ICFGR0 : N := 3072.
Definition GICR_ICFGR1 : N := 3076.

Definition CTLR_ARE_NS : N := shl 32 1 4.
Definition CTLR_WRITABLE : N := 3.
Definition GICD_TYPER_NO_1_OF_N : N := shl 32 1 25.
Definition GICD_TYPER_VALUE : N :=
  N.lor (N.lor (as_u32 (NUM_INTIDS / 32 - 1)) (shl 32 9 19)) GICD_TYPER_NO_1_OF_N.
Definition BALEEN_IIDR : N := 23457.
Definition PIDR2_GICV3 : N := shl 32 3 4.
Definition GICR_TYPER_LAST : N := shl 64 1 4.
Definition GICR_TYPER_PROC_SHIFT : N := 8.
Definition GICR_TYPER_AFF_SHIFT : N := 32.
Definition WAKER_PROCESSOR_SLEEP : N := shl 32 1 1.
Definition WAKER_CHILDREN_ASLEEP : N := shl 32 1 2.

Definition vcpu_affinity (vcpu : N) : N := vcpu.

(** ** The address map *)

Record GicLayout : Type := mkLayout {
  gicd_base : N;
  gicd_len : N;
  gicr_rd_base : N;
  gicr_end : N;
}.

Inductive GicFrame : Type :=
| Dist
| Redist (n : N)
| Sgi (n : N).

Definition name (f : GicFrame) : string :=
  match f with Dist => "GICD" | Redist _ => "GICR" | Sgi _ => "GICR_SGI" end.

Definition vcpu (f : GicFrame) : option N :=
  match f with Dist => None | Redist n | Sgi n => Some n end.

(** [checked_mul] at 64 bits. *)
Definition checked_mul64 (a b : N) : option N :=
  if decide (a * b <= u64_max) then Some (a * b) else None.

Definition validate (l : GicLayout) (vcpus : N) : bool :=
  if vcpus =? 0 then false else
  match checked_add u64_max (gicd_base l) (gicd_len l) with
  | None => false
  | Some gicd_end =>
      if gicr_rd_base l <? gicd_end then false else
      match checked_mul64 vcpus (GICR_FRAMES * GICR_FRAME) with
      | None => false
      | Some span =>
          match checked_add u64_max (gicr_rd_base l) span with
          | Some need => need <=? gicr_end l
          | None => false
          end
      end
  end.

Definition in_window (l : GicLayout) (ipa : N) : bool :=
  (gicd_base l <=? ipa) && (ipa <? (gicd_base l + gicd_len l) mod (u64_max + 1)) ||
  (gicr_rd_base l <=? ipa) && (ipa <? gicr_end l).

Definition frame_of {S} (l : GicLayout) (ipa vcpus : N) : M S (option (GicFrame * N)) :=
  if negb (in_window l ipa) then ret None
  else if ipa <? gicr_rd_base l then
    let! o := usub ipa (gicd_base l) in ret (Some (Dist, o))
  else
    let! off := usub ipa (gicr_rd_base l) in
    let pair := GICR_FRAMES * GICR_FRAME in
    let n := off / pair in
    if vcpus <=? n then ret None
    else
      let within := off mod pair in
      if within <? GICR_FRAME then ret (Some (Redist n, within))
      else let! o := usub within GICR_FRAME in ret (Some (Sgi n, o)).

(** ** State *)

Record Unhandled : Type := mkUnhandled {
  frame : string;
  offset : N;
}.

Record RedistBank : Type := mkBank {
  asleep : bool;
  r_enabled : N;
  r_group : N;
  r_priority : list N;
  r_icfgr : list N;
}.

Record VirtGic : Type := mkGic {
  layout : GicLayout;
  ctlr : N;
  redist : list RedistBank;
  enabled : list N;
  group : list N;
  priority : list N;
  icfgr : list N;
  irouter : list N;
}.

Definition AT_RESET : RedistBank :=
  mkBank true 0 0 (vrepeat FIRST_SPI 0) (vrepeat (FIRST_SPI / 16) 0).

Definition set_ctlr v g :=
  mkGic (layout g) v (redist g) (enabled g) (group g) (priority g) (icfgr g) (irouter g).
Definition set_redist v g :=
  mkGic (layout g) (ctlr g) v (enabled g) (group g) (priority g) (icfgr g) (irouter g).
Definition set_enabled_words v g :=
  mkGic (layout g) (ctlr g) (redist g) v (group g) (priority g) (icfgr g) (irouter g).
Definition set_group v g :=
  mkGic (layout g) (ctlr g) (redist g) (enabled g) v (priority g) (icfgr g) (irouter g).
Definition set_priority v g :=
  mkGic (layout g) (ctlr g) (redist g) (enabled g) (group g) v (icfgr g) (irouter g).
Definition set_icfgr v g :=
  mkGic (layout g) (ctlr g) (redist g) (enabled g) (group g) (priority g) v (irouter g).
Definition set_irouter v g :=
  mkGic (layout g) (ctlr g) (redist g) (enabled g) (group g) (priority g) (icfgr g) v.

Definition bank_asleep v b := mkBank v (r_enabled b) (r_group b) (r_priority b) (r_icfgr b).
Definition bank_enabled v b := mkBank (asleep b) v (r_group b) (r_priority b) (r_icfgr b).
Definition bank_group v b := mkBank (asleep b) (r_enabled b) v (r_priority b) (r_icfgr b).
Definition bank_priority v b := mkBank (asleep b) (r_enabled b) (r_group b) v (r_icfgr b).
Definition bank_icfgr v b := mkBank (asleep b) (r_enabled b) (r_group b) (r_priority b) v.

Definition enabled_l := Lens enabled set_enabled_words.
Definition group_l := Lens group set_group.
Definition priority_l := Lens priority set_priority.
Definition icfgr_l := Lens icfgr set_icfgr.
Definition irouter_l := Lens irouter set_irouter.
Definition r_priority_l := Lens r_priority bank_priority.
Definition r_icfgr_l := Lens r_icfgr bank_icfgr.

(** [self.redist.get_mut(n)?]: [None] out of range, otherwise an operation of that bank. *)
Definition on_bank {T} (n : N) (m : M RedistBank (option T)) : M VirtGic (option T) := fun g =>
  match vget (redist g) n with
  | None => Done g None
  | Some b =>
      match m b with
      | Done b r => Done (set_redist (vset (redist g) n b) g) r
      | Panic => Panic
      end
  end.

(** ** The register banks *)

(** [x.is_multiple_of(n)]. *)
Definition is_multiple_of (x n : N) : bool := x mod n =? 0.

Definition word_index (off base cnt : N) : option N :=
  if (off <? base) || (base + 4 * cnt <=? off) || negb (is_multiple_of off 4) then None
  else Some ((off - base) / 4).

Inductive DistWord : Type :=
| Spi (w : N)
| BankedRes0
| Elsewhere.

Definition dist_word (off base cnt intids_per_word : N) : DistWord :=
  let banked_words := FIRST_SPI / intids_per_word in
  match word_index off base cnt with
  | Some w => if banked_words <=? w then Spi w else BankedRes0
  | None => Elsewhere
  end.

Definition dist_word_index (off base cnt intids_per_word : N) : option N :=
  match dist_word off base cnt intids_per_word with
  | Spi w => Some w
  | BankedRes0 | Elsewhere => None
  end.

Definition dist_banks : list (N * N * N) :=
  [(GICD_IGROUPR, WORDS, 32); (GICD_ISENABLER, WORDS, 32); (GICD_ICENABLER, WORDS, 32);
   (GICD_ISPENDR, WORDS, 32); (GICD_ICPENDR, WORDS, 32); (GICD_ISACTIVER, WORDS, 32);
   (GICD_ICACTIVER, WORDS, 32); (GICD_ICFGR, NUM_INTIDS / 16, 16)].

Definition dist_banked_res0 (off : N) : bool :=
  existsb (fun '(base, cnt, per) =>
    match dist_word off base cnt per with BankedRes0 => true | _ => false end) dist_banks
  || (GICD_IPRIORITYR <=? off) && (off <? GICD_IPRIORITYR + FIRST_SPI).

Definition irouter_index (off : N) : option N :=
  let first := GICD_IROUTER + 8 * FIRST_SPI in
  let fin := GICD_IROUTER + 8 * NUM_INTIDS in
  if (off <? first) || (fin <=? off) || negb (is_multiple_of off 8) then None
  else Some ((off - first) / 8).

(** [dist_word_index(off, base, WORDS, 32).is_some()] for one of the pending and active
    banks. *)
Definition is_pend_or_active (off : N) : bool :=
  let named base := match dist_word_index off base WORDS 32 with Some _ => true | None => false end in
  named GICD_ISPENDR || named GICD_ICPENDR || named GICD_ISACTIVER || named GICD_ICACTIVER.

Definition in_bytes (base lo hi off : N) : bool := (base + lo <=? off) && (off <? base + hi).

(** ** The two questions *)

Definition is_enabled (v intid : N) : M VirtGic bool :=
  let! g := get in
  if NUM_INTIDS <=? intid then ret false
  else if intid <? FIRST_SPI then
    ret match vget (redist g) v with
        | Some r => negb (N.land (r_enabled r) (shl 32 1 intid) =? 0)
        | None => false
        end
  else
    let! w := index (enabled g) (intid / 32) in
    ret (negb (N.land w (shl 32 1 (intid mod 32)) =? 0)).

Definition spi_route (intid : N) : M VirtGic (option SpiRoute) :=
  let! g := get in
  if negb ((FIRST_SPI <=? intid) && (intid <? NUM_INTIDS)) then ret None
  else let! v := index (irouter g) (intid - FIRST_SPI) in ret (Some (Irouter.decode v)).

(** ** Reading and writing *)

(** The four bytes of a priority word, from the offset's word. *)
Definition priority_base (off bank : N) : N := N.land (off - bank) (bnot 64 3).

Definition read_bytes {S} (w : N) (bytes : list N) (base : N) : M S N :=
  fold_m (vrange 4) (fun v k =>
    let! x := index bytes (base + k) in ret (N.lor v (shl w x (8 * k)))) 0.

Definition write_bytes {S} (l : lens S (list N)) (base value : N) : M S unit :=
  for_each (vrange 4) (fun k => index_set l (base + k) (as_u8 (N.shiftr value (8 * k)))).

Section Device.
Context (VCPUS : N).

Definition new (l : GicLayout) : VirtGic :=
  mkGic l 0 (vrepeat VCPUS AT_RESET) (vrepeat WORDS 0) (vrepeat WORDS 0) (vrepeat NUM_INTIDS 0)
    (vrepeat (NUM_INTIDS / 16) 0) (vrepeat (NUM_INTIDS - FIRST_SPI) 0).

Definition gicr_typer {S} (n : N) : M S N :=
  let! n1 := uadd u64_max n 1 in
  let last := if n1 =? VCPUS then GICR_TYPER_LAST else 0 in
  ret (N.lor (N.lor last (shl 64 n GICR_TYPER_PROC_SHIFT))
             (shl 64 (vcpu_affinity n) GICR_TYPER_AFF_SHIFT)).

Definition dist_bank_read (off size : N) : M VirtGic (option N) :=
  let! g := get in
  if dist_banked_res0 off then ret (Some 0) else
  match dist_word_index off GICD_IGROUPR WORDS 32 with
  | Some w => let! v := index (group g) w in ret (Some v)
  | None =>
  match dist_word_index off GICD_ISENABLER WORDS 32 with
  | Some w => let! v := index (enabled g) w in ret (Some v)
  | None =>
  match dist_word_index off GICD_ICENABLER WORDS 32 with
  | Some w => let! v := index (enabled g) w in ret (Some v)
  | None =>
  if is_pend_or_active off then ret (Some 0) else
  match dist_word_index off GICD_ICFGR (NUM_INTIDS / 16) 16 with
  | Some w => let! v := index (icfgr g) w in ret (Some v)
  | None =>
  if in_bytes GICD_IPRIORITYR FIRST_SPI NUM_INTIDS off then
    let! v := read_bytes 64 (priority g) (priority_base off GICD_IPRIORITYR) in ret (Some v)
  else ret None
  end end end end.

Definition dist_read (off size : N) : M VirtGic (option N) :=
  let! g := get in
  match irouter_index off with
  | Some i => let! v := index (irouter g) i in ret (Some v)
  | None =>
      if off =? GICD_CTLR then ret (Some (N.lor (ctlr g) CTLR_ARE_NS))
      else if off =? GICD_TYPER then ret (Some GICD_TYPER_VALUE)
      else if off =? GICD_IIDR then ret (Some BALEEN_IIDR)
      else if off =? GICD_TYPER2 then ret (Some 0)
      else if off =? GICD_PIDR2 then ret (Some PIDR2_GICV3)
      else dist_bank_read off size
  end.

Definition set_enabled (w bits : N) : M VirtGic N :=
  let! g := get in
  let! old := index (enabled g) w in
  let newly := N.land bits (bnot 32 old) in
  index_set enabled_l w (N.lor old bits) ;!
  ret (count_ones newly).

Definition dist_write (off size value : N) : M VirtGic (option N) :=
  match irouter_index off with
  | Some i => index_set irouter_l i value ;! ret (Some 0)
  | None =>
  let v := as_u32 value in
  if off =? GICD_CTLR then modify (set_ctlr (N.land v CTLR_WRITABLE)) ;! ret (Some 0)
  else if (off =? GICD_TYPER) || (off =? GICD_IIDR) || (off =? GICD_TYPER2) || (off =? GICD_PIDR2)
  then ret (Some 0)
  else if dist_banked_res0 off then ret (Some 0) else
  match dist_word_index off GICD_IGROUPR WORDS 32 with
  | Some w => index_set group_l w v ;! ret (Some 0)
  | None =>
  match dist_word_index off GICD_ISENABLER WORDS 32 with
  | Some w => let! c := set_enabled w v in ret (Some c)
  | None =>
  match dist_word_index off GICD_ICENABLER WORDS 32 with
  | Some w =>
      let! g := get in
      let! old := index (enabled g) w in
      index_set enabled_l w (N.land old (bnot 32 v)) ;! ret (Some 0)
  | None =>
  if is_pend_or_active off then ret (Some 0) else
  match dist_word_index off GICD_ICFGR (NUM_INTIDS / 16) 16 with
  | Some w => index_set icfgr_l w v ;! ret (Some 0)
  | None =>
  if in_bytes GICD_IPRIORITYR FIRST_SPI NUM_INTIDS off then
    write_bytes priority_l (priority_base off GICD_IPRIORITYR) value ;! ret (Some 0)
  else ret None
  end end end end end.

Definition redist_read (n off : N) : M VirtGic (option N) :=
  on_bank n (
    let! b := get in
    if off =? GICR_CTLR then ret (Some 0)
    else if off =? GICR_IIDR then ret (Some BALEEN_IIDR)
    else if off =? GICR_TYPER then let! t := gicr_typer n in ret (Some t)
    else if off =? GICR_WAKER then
      ret (Some (if asleep b then N.lor WAKER_PROCESSOR_SLEEP WAKER_CHILDREN_ASLEEP else 0))
    else if off =? GICR_PIDR2 then ret (Some PIDR2_GICV3)
    else ret None).

Definition redist_write (n off value : N) : M VirtGic (option N) :=
  on_bank n (
    if off =? GICR_WAKER then
      modify (bank_asleep (negb (N.land value WAKER_PROCESSOR_SLEEP =? 0))) ;! ret (Some 0)
    else if (off =? GICR_CTLR) || (off =? GICR_IIDR) || (off =? GICR_TYPER) || (off =? GICR_PIDR2)
    then ret (Some 0)
    else ret None).

Definition sgi_read (n off : N) : M VirtGic (option N) :=
  on_bank n (
    let! b := get in
    if off =? GICR_IGROUPR0 then ret (Some (r_group b))
    else if (off =? GICR_ISENABLER0) || (off =? GICR_ICENABLER0) then ret (Some (r_enabled b))
    else if (off =? GICR_ISPENDR0) || (off =? GICR_ICPENDR0)
         || (off =? GICR_ISACTIVER0) || (off =? GICR_ICACTIVER0) then ret (Some 0)
    else if off =? GICR_ICFGR0 then let! v := index (r_icfgr b) 0 in ret (Some v)
    else if off =? GICR_ICFGR1 then let! v := index (r_icfgr b) 1 in ret (Some v)
    else if in_bytes GICR_IPRIORITYR 0 FIRST_SPI off then
      let! v := read_bytes 32 (r_priority b) (priority_base off GICR_IPRIORITYR) in ret (Some v)
    else ret None).

Definition sgi_write (n off value : N) : M VirtGic (option N) :=
  on_bank n (
    if off =? GICR_IGROUPR0 then modify (bank_group value) ;! ret (Some 0)
    else if off =? GICR_ISENABLER0 then
      let! b := get in
      let newly := N.land value (bnot 32 (r_enabled b)) in
      modify (fun b => bank_enabled (N.lor (r_enabled b) value) b) ;!
      ret (Some (count_ones newly))
    else if off =? GICR_ICENABLER0 then
      modify (fun b => bank_enabled (N.land (r_enabled b) (bnot 32 value)) b) ;! ret (Some 0)
    else if (off =? GICR_ISPENDR0) || (off =? GICR_ICPENDR0)
         || (off =? GICR_ISACTIVER0) || (off =? GICR_ICACTIVER0) then ret (Some 0)
    else if off =? GICR_ICFGR0 then index_set r_icfgr_l 0 value ;! ret (Some 0)
    else if off =? GICR_ICFGR1 then index_set r_icfgr_l 1 value ;! ret (Some 0)
    else if in_bytes GICR_IPRIORITYR 0 FIRST_SPI off then
      write_bytes r_priority_l (priority_base off GICR_IPRIORITYR) value ;! ret (Some 0)
    else ret None).

Definition outside (ipa : N) : Unhandled := mkUnhandled "outside every emulated GIC frame" ipa.

Definition mmio_read (ipa size : N) : M VirtGic (result Unhandled N) :=
  let! g := get in
  let! o := frame_of (layout g) ipa VCPUS in
  match o with
  | None => err (outside ipa)
  | Some (f, off) =>
      let! r :=
        match f with
        | Dist => dist_read off size
        | Redist n => redist_read n off
        | Sgi n => sgi_read n off
        end in
      ret (ok_or r (mkUnhandled (name f) off))
  end.

Definition mmio_write (ipa size value : N) : M VirtGic (result Unhandled N) :=
  let! g := get in
  let! o := frame_of (layout g) ipa VCPUS in
  match o with
  | None => err (outside ipa)
  | Some (f, off) =>
      let! r :=
        match f with
        | Dist => dist_write off size value
        | Redist n => redist_write n off (as_u32 value)
        | Sgi n => sgi_write n off (as_u32 value)
        end in
      ret (ok_or r (mkUnhandled (name f) off))
  end.
End Device.

(** ** Specification *)

(** The lengths the array types fix, the width of the enable words, and the zero copies of
    the interrupts the redistributors own. *)
Record bank_wf (b : RedistBank) : Prop := mkBankWf {
  bw_enabled : r_enabled b < 2 ^ 32;
  bw_priority : vlen (r_priority b) = FIRST_SPI;
  bw_icfgr : vlen (r_icfgr b) = FIRST_SPI / 16;
}.

Record gic_wf (VCPUS : N) (g : VirtGic) : Prop := mkGicWf {
  gw_redist : vlen (redist g) = VCPUS;
  gw_banks : forall n b, vget (redist g) n = Some b -> bank_wf b;
  gw_enabled : vlen (enabled g) = WORDS;
  gw_words : forall w x, vget (enabled g) w = Some x -> x < 2 ^ 32;
  gw_group : vlen (group g) = WORDS;
  gw_priority : vlen (priority g) = NUM_INTIDS;
  gw_icfgr : vlen (icfgr g) = NUM_INTIDS / 16;
  gw_irouter : vlen (irouter g) = NUM_INTIDS - FIRST_SPI;
  gw_banked : vget (enabled g) 0 = Some 0 /\ vget (group g) 0 = Some 0 /\
    vget (icfgr g) 0 = Some 0 /\ vget (icfgr g) 1 = Some 0 /\
    forall i, i < FIRST_SPI -> vget (priority g) i = Some 0;
}.

(** The register a distributor offset names. *)
Inductive DistReg : Type :=
| RegRouter (i : N)
| RegCtlr
| RegId
| RegRes0
| RegGroup (w : N)
| RegSetEnable (w : N)
| RegClearEnable (w : N)
| RegPendActive
| RegConfig (w : N)
| RegPriority (base : N).

Definition dist_reg (off : N) : option DistReg :=
  match irouter_index off with
  | Some i => Some (RegRouter i)
  | None =>
  if off =? GICD_CTLR then Some RegCtlr
  else if (off =? GICD_TYPER) || (off =? GICD_IIDR) || (off =? GICD_TYPER2) || (off =? GICD_PIDR2)
  then Some RegId
  else if dist_banked_res0 off then Some RegRes0 else
  match dist_word_index off GICD_IGROUPR WORDS 32 with
  | Some w => Some (RegGroup w)
  | None =>
  match dist_word_index off GICD_ISENABLER WORDS 32 with
  | Some w => Some (RegSetEnable w)
  | None =>
  match dist_word_index off GICD_ICENABLER WORDS 32 with
  | Some w => Some (RegClearEnable w)
  | None =>
  if is_pend_or_active off then Some RegPendActive else
  match dist_word_index off GICD_ICFGR (NUM_INTIDS / 16) 16 with
  | Some w => Some (RegConfig w)
  | None =>
  if in_bytes GICD_IPRIORITYR FIRST_SPI NUM_INTIDS off
  then Some (RegPriority (priority_base off GICD_IPRIORITYR)) else None
  end end end end end.

(** The bytes of a list after a four-byte store at [base]. *)
Definition store4 (l : list N) (base value : N) : list N :=
  foldl (fun l k => vset l (base + k) (as_u8 (N.shiftr value (8 * k)))) l (vrange 4).

(** What writing a register does, and how many interrupts it newly enables. *)
Definition word_of (l : list N) (w : N) : N := default 0 (vget l w).
Definition reg_write (r : DistReg) (value : N) (g : VirtGic) : VirtGic :=
  let v := as_u32 value in
  match r with
  | RegRouter i => set_irouter (vset (irouter g) i value) g
  | RegCtlr => set_ctlr (N.land v CTLR_WRITABLE) g
  | RegGroup w => set_group (vset (group g) w v) g
  | RegSetEnable w => set_enabled_words (vset (enabled g) w (N.lor (word_of (enabled g) w) v)) g
  | RegClearEnable w =>
      set_enabled_words (vset (enabled g) w (N.land (word_of (enabled g) w) (bnot 32 v))) g
  | RegConfig w => set_icfgr (vset (icfgr g) w v) g
  | RegPriority base => set_priority (store4 (priority g) base value) g
  | RegId | RegRes0 | RegPendActive => g
  end.
Definition reg_count (r : DistReg) (value : N) (g : VirtGic) : N :=
  match r with
  | RegSetEnable w => count_ones (N.land (as_u32 value) (bnot 32 (word_of (enabled g) w)))
  | _ => 0
  end.

(** Where a register lies. *)
Definition reg_at (r : DistReg) (off : N) : Prop :=
  match r with
  | RegRouter i => off = GICD_IROUTER + 8 * (FIRST_SPI + i) /\ i < NUM_INTIDS - FIRST_SPI
  | RegCtlr => off = GICD_CTLR
  | RegGroup w => off = GICD_IGROUPR + 4 * w /\ 1 <= w < WORDS
  | RegSetEnable w => off = GICD_ISENABLER + 4 * w /\ 1 <= w < WORDS
  | RegClearEnable w => off = GICD_ICENABLER + 4 * w /\ 1 <= w < WORDS
  | RegConfig w => off = GICD_ICFGR + 4 * w /\ 2 <= w < NUM_INTIDS / 16
  | RegPriority base => base mod 4 = 0 /\ FIRST_SPI <= base /\ base + 3 < NUM_INTIDS /\
      GICD_IPRIORITYR + base <= off < GICD_IPRIORITYR + base + 4
  | RegId | RegRes0 | RegPendActive => True
  end.

(** Is the interrupt enabled for the vCPU: the answer as a function of the state. *)
Definition enabled_for (g : VirtGic) (v i : N) : bool :=
  if NUM_INTIDS <=? i then false
  else if i <? FIRST_SPI then
    match vget (redist g) v with Some b => N.testbit (r_enabled b) i | None => false end
  else N.testbit (word_of (enabled g) (i / 32)) (i mod 32).

(** What a write of [value] at an offset of a frame does to one enable bit. *)
Definition enable_effect (f : GicFrame) (off value v i : N) : option bool :=
  match f with
  | Dist =>
      if (FIRST_SPI <=? i) && (i <? NUM_INTIDS) && N.testbit value (i mod 32) then
        if off =? GICD_ISENABLER + 4 * (i / 32) then Some true
        else if off =? GICD_ICENABLER + 4 * (i / 32) then Some false else None
      else None
  | Sgi n =>
      if (v =? n) && (i <? FIRST_SPI) && N.testbit value i then
        if off =? GICR_ISENABLER0 then Some true
        else if off =? GICR_ICENABLER0 then Some false else None
      else None
  | Redist _ => None
  end.

(** ** Lemmas *)

(** *** The register map *)

Lemma mod_multiple off n : n <> 0 -> off mod n = 0 -> off = n * (off / n).
Proof. intros Hn H. pose proof (N.div_mod off n Hn). lia. Qed.

Lemma word_index_Some off base cnt w :
  base mod 4 = 0 -> word_index off base cnt = Some w <-> off = base + 4 * w /\ w < cnt.
Proof.
  intros Hb. unfold word_index, is_multiple_of.
  pose proof (mod_multiple base 4 ltac:(done) Hb) as Hb4. revert Hb4.
  generalize (base / 4) as b. intros b ->.
  destruct (N.ltb_spec off (4 * b)) as [H1|H1]; simpl.
  { split; [done|]. lia. }
  destruct (N.leb_spec (4 * b + 4 * cnt) off) as [H2|H2]; simpl.
  { split; [done|]. lia. }
  destruct (N.eqb_spec (off mod 4) 0) as [H3|H3]; simpl.
  - pose proof (mod_multiple off 4 ltac:(done) H3) as Ho. revert Ho.
    generalize (off / 4) as o. intros o ->.
    replace (4 * o - 4 * b) with ((o - b) * 4) by lia. rewrite N.div_mul by done.
    split; [intros [= <-]; lia|]. intros [? ?]. f_equal. lia.
  - split; [done|]. intros [-> _]. destruct H3.
    rewrite <- N.mul_add_distr_l, N.mul_comm. by apply N.Div0.mod_mul.
Qed.

Lemma dist_word_index_Some off base cnt per w :
  base mod 4 = 0 ->
  dist_word_index off base cnt per = Some w <-> off = base + 4 * w /\ FIRST_SPI / per <= w < cnt.
Proof.
  intros Hb. unfold dist_word_index, dist_word.
  destruct (word_index off base cnt) as [x|] eqn:E.
  - destruct (proj1 (word_index_Some off base cnt x Hb) E) as [-> Hx].
    destruct (N.leb_spec (FIRST_SPI / per) x) as [H|H].
    + split; [intros [= <-]; lia|]. intros [? ?]. f_equal. lia.
    + split; [done|]. intros [? ?]. assert (x = w) by lia. subst. lia.
  - split; [done|]. intros [-> [_ H] ].
    assert (word_index (base + 4 * w) base cnt = Some w) by (by apply word_index_Some). congruence.
Qed.

Lemma irouter_index_Some off i :
  irouter_index off = Some i <-> off = GICD_IROUTER + 8 * (FIRST_SPI + i) /\ i < NUM_INTIDS - FIRST_SPI.
Proof.
  unfold irouter_index, is_multiple_of, GICD_IROUTER, FIRST_SPI, NUM_INTIDS.
  destruct (N.ltb_spec off (24576 + 8 * 32)) as [H1|H1]; cbn [orb].
  { split; [done|]. lia. }
  destruct (N.leb_spec (24576 + 8 * 288) off) as [H2|H2]; cbn [orb].
  { split; [done|]. lia. }
  destruct (N.eqb_spec (off mod 8) 0) as [H3|H3]; cbn [orb negb].
  - pose proof (mod_multiple off 8 ltac:(done) H3) as Ho. revert Ho.
    generalize (off / 8) as o. intros o ->.
    replace (8 * o - (24576 + 8 * 32)) with ((o - 3104) * 8) by lia. rewrite N.div_mul by done.
    split; [intros [= <-]; lia|]. intros [? ?]. f_equal. lia.
  - split; [done|]. intros [-> _]. destruct H3.
    replace (24576 + 8 * (32 + i)) with ((3104 + i) * 8) by lia. by apply N.Div0.mod_mul.
Qed.

Lemma priority_base_spec off lo hi :
  GICD_IPRIORITYR + lo <= off < GICD_IPRIORITYR + hi -> lo mod 4 = 0 -> hi mod 4 = 0 ->
  off <= u64_max ->
  let base := priority_base off GICD_IPRIORITYR in
  base mod 4 = 0 /\ lo <= base /\ base + 3 < hi /\
  GICD_IPRIORITYR + base <= off < GICD_IPRIORITYR + base + 4.
Proof.
  intros Ho Hlo Hhi Hmax. unfold priority_base.
  assert (E : N.land (off - GICD_IPRIORITYR) (bnot 64 3) = 4 * ((off - GICD_IPRIORITYR) / 4)).
  { assert (Hx : off - GICD_IPRIORITYR < 2 ^ 64).
    { apply N.lt_succ_r in Hmax. change (N.succ u64_max) with (2 ^ 64) in Hmax. lia. }
    revert Hx. generalize (off - GICD_IPRIORITYR) as x. intros x Hx. rewrite N.mul_comm.
    change 4 with (2 ^ 2). rewrite <- N.shiftl_mul_pow2, <- N.shiftr_div_pow2.
    change 3 with (N.ones 2). apply N.bits_inj. intros i. autorewrite with bits.
    destruct (N.ltb_spec i 64); [|by rewrite !(testbit_high x 64) by (done || lia); btauto].
    destruct (N.leb_spec 2 i), (N.ltb_spec i 2); simpl; try lia.
    replace (i - 2 + 2) with i by lia. btauto. }
  rewrite E. cbn zeta. unfold GICD_IPRIORITYR in *.
  pose proof (N.div_mod (off - 1024) 4 ltac:(done)) as Hd.
  pose proof (N.mod_lt (off - 1024) 4 ltac:(done)) as Hm. revert Hd Hm.
  apply mod_multiple in Hlo, Hhi; try done. revert Hlo Hhi.
  generalize (lo / 4) (hi / 4) ((off - 1024) / 4) ((off - 1024) mod 4). intros a b q r -> -> Hd Hm.
  split; [by rewrite N.mul_comm, N.Div0.mod_mul|]. lia.
Qed.

Lemma dist_reg_at off r : off <= u64_max -> dist_reg off = Some r -> reg_at r off.
Proof.
  intros Hoff. unfold dist_reg.
  destruct (irouter_index off) as [i|] eqn:Ei.
  { intros [= <-]. by apply irouter_index_Some. }
  destruct (N.eqb_spec off GICD_CTLR) as [->|_]; [by intros [= <-]|].
  destruct ((_ =? _) || _ || _ || _); [by intros [= <-]|].
  destruct (dist_banked_res0 off); [by intros [= <-]|].
  destruct (dist_word_index off GICD_IGROUPR _ _) as [w|] eqn:E1.
  { intros [= <-]. by apply dist_word_index_Some in E1. }
  destruct (dist_word_index off GICD_ISENABLER _ _) as [w|] eqn:E2.
  { intros [= <-]. by apply dist_word_index_Some in E2. }
  destruct (dist_word_index off GICD_ICENABLER _ _) as [w|] eqn:E3.
  { intros [= <-]. by apply dist_word_index_Some in E3. }
  destruct (is_pend_or_active off); [by intros [= <-]|].
  destruct (dist_word_index off GICD_ICFGR _ _) as [w|] eqn:E4.
  { intros [= <-]. by apply dist_word_index_Some in E4. }
  destruct (in_bytes _ _ _ off) eqn:E5; [|done]. intros [= <-].
  unfold in_bytes in E5. apply andb_true_iff in E5 as [H1%N.leb_le H2%N.ltb_lt].
  by apply priority_base_spec.
Qed.

(** The offset of an enable word or of a routing register names that register. *)
Lemma dist_reg_enable w : 1 <= w < WORDS ->
  dist_reg (GICD_ISENABLER + 4 * w) = Some (RegSetEnable w) /\
  dist_reg (GICD_ICENABLER + 4 * w) = Some (RegClearEnable w).
Proof.
  change WORDS with 9. intros Hw.
  assert (w = 1 \/ w = 2 \/ w = 3 \/ w = 4 \/ w = 5 \/ w = 6 \/ w = 7 \/ w = 8) as H by lia.
  repeat (destruct H as [->|H]; [by split|]). by subst.
Qed.

Lemma dist_reg_router i : i < NUM_INTIDS - FIRST_SPI ->
  dist_reg (GICD_IROUTER + 8 * (FIRST_SPI + i)) = Some (RegRouter i).
Proof.
  intros Hi. unfold dist_reg.
  by rewrite (proj2 (irouter_index_Some _ i) (conj eq_refl Hi)).
Qed.

(** *** Indexed assignments *)

Lemma vlen_store4 l base value : vlen (store4 l base value) = vlen l.
Proof. unfold store4. simpl. by rewrite !vlen_vset. Qed.

Lemma vget_store4 l base value i :
  base + 3 < vlen l ->
  vget (store4 l base value) i =
  if decide (base <= i < base + 4) then Some (as_u8 (N.shiftr value (8 * (i - base)))) else vget l i.
Proof.
  intros Hb. unfold store4.
  change (vrange 4) with [0; 1; 2; 3]. cbn [foldl]. rewrite !vget_vset, !vlen_vset.
  repeat case_decide; try lia; try done; try tauto;
    match goal with H : base + ?k = i /\ _ |- _ => destruct H as [<- _]; by replace (base + k - base) with k by lia end.
Qed.

Lemma read_bytes_Done {S} w bytes base (s : S) :
  base + 3 < vlen bytes -> exists v, read_bytes w bytes base s = Done s v.
Proof.
  intros Hb. unfold read_bytes. change (vrange 4) with [0; 1; 2; 3]. cbn [fold_m].
  destruct (vget_lt_Some bytes (base + 0) ltac:(lia)) as [a Ha].
  destruct (vget_lt_Some bytes (base + 1) ltac:(lia)) as [b Hb'].
  destruct (vget_lt_Some bytes (base + 2) ltac:(lia)) as [c Hc].
  destruct (vget_lt_Some bytes (base + 3) ltac:(lia)) as [d Hd].
  unfold bind, index. rewrite Ha, Hb', Hc, Hd. cbn [unwrap_opt]. unfold ret.
  by eexists.
Qed.

Lemma write_bytes_Done {S} (l : lens S (list N)) base value s :
  (forall x y s, lset l x (lset l y s) = lset l x s) -> (forall x s, lget l (lset l x s) = x) ->
  base + 3 < vlen (lget l s) ->
  write_bytes l base value s = Done (lset l (store4 (lget l s) base value) s) tt.
Proof.
  intros Hss Hgs Hb. unfold write_bytes. change (vrange 4) with [0; 1; 2; 3]. cbn [for_each].
  unfold bind.
  rewrite (index_set_Done l (base + 0)) by lia.
  rewrite (index_set_Done l (base + 1)) by (rewrite Hgs, vlen_vset; lia).
  rewrite (index_set_Done l (base + 2)) by (rewrite !Hgs, !vlen_vset; lia).
  rewrite (index_set_Done l (base + 3)) by (rewrite !Hgs, !vlen_vset; lia).
  rewrite !Hgs, !Hss. reflexivity.
Qed.

(** *** The distributor *)

Lemma vget_word_of l w : w < vlen l -> vget l w = Some (word_of l w).
Proof. intros H. destruct (vget_lt_Some _ _ H) as [x Hx]. unfold word_of. by rewrite Hx. Qed.

Lemma dist_write_reg VCPUS off size value g :
  gic_wf VCPUS g -> off <= u64_max ->
  dist_write off size value g =
  match dist_reg off with
  | Some r => Done (reg_write r value g) (Some (reg_count r value g))
  | None => Done g None
  end.
Proof.
  intros [Hr Hb He Hw Hg Hp Hi Ho Hz] Hoff. pose proof (dist_reg_at off) as Hat. revert Hat.
  unfold dist_write, dist_reg.
  destruct (irouter_index off) as [i|].
  { intros Hat. destruct (Hat _ Hoff eq_refl) as [_ Hlt].
    unfold bind. rewrite index_set_Done by (cbn [lget irouter_l]; lia). done. }
  destruct (off =? GICD_CTLR); [done|].
  destruct (_ || (off =? GICD_PIDR2)); [done|].
  destruct (dist_banked_res0 off); [done|].
  destruct (dist_word_index off GICD_IGROUPR _ _) as [w|].
  { intros Hat. destruct (Hat _ Hoff eq_refl) as [_ Hlt].
    unfold bind. rewrite index_set_Done by (cbn [lget group_l]; lia). done. }
  destruct (dist_word_index off GICD_ISENABLER _ _) as [w|].
  { intros Hat. destruct (Hat _ Hoff eq_refl) as [_ Hlt].
    unfold set_enabled, bind, get. rewrite (index_Done _ _ _ _ (vget_word_of (enabled g) w ltac:(lia))).
    rewrite index_set_Done by (cbn [lget enabled_l]; lia). done. }
  destruct (dist_word_index off GICD_ICENABLER _ _) as [w|].
  { intros Hat. destruct (Hat _ Hoff eq_refl) as [_ Hlt].
    unfold bind, get. rewrite (index_Done _ _ _ _ (vget_word_of (enabled g) w ltac:(lia))).
    rewrite index_set_Done by (cbn [lget enabled_l]; lia). done. }
  destruct (is_pend_or_active off); [done|].
  destruct (dist_word_index off GICD_ICFGR _ _) as [w|].
  { intros Hat. destruct (Hat _ Hoff eq_refl) as [_ Hlt].
    unfold bind. rewrite index_set_Done by (cbn [lget icfgr_l]; lia). done. }
  destruct (in_bytes _ _ _ off) eqn:E; [|done].
  intros Hat. destruct (Hat _ Hoff eq_refl) as (_ & _ & Hlt & _).
  unfold bind. rewrite write_bytes_Done; [done|done|done|]. cbn [lget priority_l]. lia.
Qed.

Lemma dist_read_Done VCPUS off size g :
  gic_wf VCPUS g -> off <= u64_max -> exists r, dist_read off size g = Done g r /\
    (r = None <-> dist_reg off = None).
Proof.
  intros [Hr Hb He Hw Hg Hp Hi Ho Hz] Hoff. pose proof (dist_reg_at off) as Hat. revert Hat.
  unfold dist_read, dist_bank_read, dist_reg. unfold bind at 1, get.
  assert (Hidx : forall l w, w < vlen l -> bind (index l w) (fun v => ret (Some v)) g =
    Done g (Some (word_of l w))).
  { intros l w Hl. unfold bind. by rewrite (index_Done _ _ _ _ (vget_word_of _ w Hl)). }
  destruct (irouter_index off) as [i|].
  { intros Hat. destruct (Hat _ Hoff eq_refl) as [_ Hlt]. rewrite Hidx by lia. by eexists. }
  destruct (off =? GICD_CTLR); [by eexists|].
  destruct (off =? GICD_TYPER); [by eexists|].
  destruct (off =? GICD_IIDR); [by eexists|].
  destruct (off =? GICD_TYPER2); [by eexists|].
  destruct (off =? GICD_PIDR2); [by eexists|]. cbn [orb]. unfold bind at 1.
  destruct (dist_banked_res0 off); [by eexists|].
  destruct (dist_word_index off GICD_IGROUPR _ _) as [w|].
  { intros Hat. destruct (Hat _ Hoff eq_refl) as [_ Hlt]. rewrite Hidx by lia. by eexists. }
  destruct (dist_word_index off GICD_ISENABLER _ _) as [w|].
  { intros Hat. destruct (Hat _ Hoff eq_refl) as [_ Hlt]. rewrite Hidx by lia. by eexists. }
  destruct (dist_word_index off GICD_ICENABLER _ _) as [w|].
  { intros Hat. destruct (Hat _ Hoff eq_refl) as [_ Hlt]. rewrite Hidx by lia. by eexists. }
  destruct (is_pend_or_active off); [by eexists|].
  destruct (dist_word_index off GICD_ICFGR _ _) as [w|].
  { intros Hat. destruct (Hat _ Hoff eq_refl) as [_ Hlt]. rewrite Hidx by lia. by eexists. }
  destruct (in_bytes _ _ _ off); [|by eexists]. intros Hat.
  destruct (Hat _ Hoff eq_refl) as (_ & _ & Hlt & _).
  destruct (read_bytes_Done 64 (priority g) (priority_base off GICD_IPRIORITYR) g) as [v E]; [lia|].
  unfold bind. rewrite E. by eexists.
Qed.

(** A distributor write keeps the state well formed. *)
Lemma land_lt x y w : x < 2 ^ w -> N.land x y < 2 ^ w.
Proof.
  intros Hx. apply bits_bound. intros i Hi. rewrite N.land_spec, (testbit_high x w) by done. done.
Qed.

Lemma lor_lt x y w : x < 2 ^ w -> y < 2 ^ w -> N.lor x y < 2 ^ w.
Proof.
  intros Hx Hy. apply bits_bound. intros i Hi.
  by rewrite N.lor_spec, (testbit_high x w), (testbit_high y w) by done.
Qed.

Lemma as_u32_lt v : as_u32 v < 2 ^ 32.
Proof. by apply N.mod_lt. Qed.

Lemma reg_write_wf VCPUS r off value g :
  gic_wf VCPUS g -> reg_at r off -> gic_wf VCPUS (reg_write r value g).
Proof.
  intros [Hr Hb He Hw Hg Hp Hi Ho (Hz1 & Hz2 & Hz3 & Hz4 & Hz5)] Hat.
  destruct r as [i| | | |w|w|w| |w|base]; cbn [reg_write reg_at] in *; try (by split);
    (split; cbn; rewrite ?vlen_vset, ?vlen_store4; try done).
  - destruct Hat as [_ Hat]. split_and!; rewrite ?vget_vset_ne by lia; done.
  - intros x y Hx. rewrite vget_vset in Hx. case_decide; [|by apply (Hw x)]. injection Hx as <-.
    apply lor_lt; [|apply as_u32_lt]. eapply (Hw w), vget_word_of. lia.
  - destruct Hat as [_ Hat]. split_and!; rewrite ?vget_vset_ne by lia; done.
  - intros x y Hx. rewrite vget_vset in Hx. case_decide; [|by apply (Hw x)]. injection Hx as <-.
    apply land_lt. eapply (Hw w), vget_word_of. lia.
  - destruct Hat as [_ Hat]. split_and!; rewrite ?vget_vset_ne by lia; done.
  - destruct Hat as [_ Hat]. split_and!; rewrite ?vget_vset_ne by lia; done.
  - destruct Hat as (_ & Hlo & Hhi & _). split_and!; [done..|]. intros i Hlt.
    rewrite vget_store4 by lia. rewrite decide_False by lia. by apply Hz5.
Qed.

(** *** The redistributors *)

Lemma bank_at VCPUS g n :
  gic_wf VCPUS g -> n < VCPUS -> exists b, vget (redist g) n = Some b /\ bank_wf b.
Proof.
  intros Hg Hn. destruct (vget_lt_Some (redist g) n) as [b Hb]; [by rewrite (gw_redist _ _ Hg)|].
  exists b. split; [done|]. by apply (gw_banks _ _ Hg n).
Qed.

Lemma on_bank_Done {T} n (m : M RedistBank (option T)) g b b' r :
  vget (redist g) n = Some b -> m b = Done b' r ->
  on_bank n m g = Done (set_redist (vset (redist g) n b') g) r.
Proof. intros Hb Hm. unfold on_bank. by rewrite Hb, Hm. Qed.

Lemma set_redist_id g : set_redist (redist g) g = g.
Proof. by destruct g. Qed.

Lemma set_bank_wf VCPUS g n b :
  gic_wf VCPUS g -> bank_wf b -> gic_wf VCPUS (set_redist (vset (redist g) n b) g).
Proof.
  intros [Hr Hb He Hw Hg Hp Hi Ho Hz] Hwf. split; cbn; rewrite ?vlen_vset; try done.
  intros m c. rewrite vget_vset. case_decide; [by intros [= <-]|by apply Hb].
Qed.

Lemma on_bank_reads {T} n (m : M RedistBank (option T)) g b (P : option T -> Prop) :
  vget (redist g) n = Some b -> (exists r, m b = Done b r /\ P r) ->
  exists r, on_bank n m g = Done g r /\ P r.
Proof.
  intros Hb (r & Hm & HP). exists r. split; [|done].
  by rewrite (on_bank_Done n m g b b r Hb Hm), vset_id, set_redist_id.
Qed.

Lemma on_bank_writes {T} n (m : M RedistBank (option T)) g b
    (P : RedistBank -> option T -> Prop) :
  vget (redist g) n = Some b -> (exists b' r, m b = Done b' r /\ P b' r) ->
  exists b' r, on_bank n m g = Done (set_redist (vset (redist g) n b') g) r /\ P b' r.
Proof.
  intros Hb (b' & r & Hm & HP). exists b', r. split; [|done]. by apply (on_bank_Done n m g b).
Qed.

Lemma gicr_typer_Done {S} VCPUS n (s : S) :
  n < VCPUS -> VCPUS <= 255 ->
  gicr_typer VCPUS n s = Done s ((if n + 1 =? VCPUS then 16 else 0) + 2 ^ 8 * (n + 2 ^ 24 * n)).
Proof.
  intros Hn Hv. unfold gicr_typer, bind, uadd. rewrite decide_True by (unfold u64_max; lia).
  unfold ret. f_equal. unfold GICR_TYPER_PROC_SHIFT, GICR_TYPER_AFF_SHIFT, vcpu_affinity.
  rewrite !(shl_small 64 n _ 8) by (try done; change (2 ^ 8) with 256; lia).
  rewrite (add_shifted n) by (change (2 ^ 24) with 16777216; lia).
  rewrite add_shifted by (by destruct (n + 1 =? VCPUS)).
  rewrite N.shiftl_lor, N.shiftl_shiftl, N.lor_assoc. by do 2 f_equal.
Qed.

(** A read of a redistributor's frames. *)
Lemma redist_read_Done VCPUS n off g :
  gic_wf VCPUS g -> n < VCPUS -> VCPUS <= 255 -> exists r, redist_read VCPUS n off g = Done g r.
Proof.
  intros Hg Hn Hv. destruct (bank_at _ _ _ Hg Hn) as (b & Hb & Hwf).
  cut (exists r, redist_read VCPUS n off g = Done g r /\ True); [naive_solver|].
  unfold redist_read. apply (on_bank_reads n _ g b); [done|].
  pose proof (gicr_typer_Done VCPUS n b Hn Hv) as Ht. unfold bind, get.
  destruct (off =? GICR_CTLR); [by eexists|]. destruct (off =? GICR_IIDR); [by eexists|].
  destruct (off =? GICR_TYPER); [rewrite Ht; by eexists|].
  destruct (off =? GICR_WAKER); [by eexists|]. destruct (off =? GICR_PIDR2); by eexists.
Qed.

Lemma in_bytes_base b off :
  in_bytes GICR_IPRIORITYR 0 FIRST_SPI off = true -> off <= u64_max -> bank_wf b ->
  priority_base off GICR_IPRIORITYR + 3 < vlen (r_priority b).
Proof.
  intros E Hoff [_ Hp _]. apply andb_true_iff in E as [H1%N.leb_le H2%N.ltb_lt].
  destruct (priority_base_spec off 0 FIRST_SPI) as (_ & _ & H & _); [by split|done..|].
  by rewrite Hp.
Qed.

Lemma sgi_read_Done VCPUS n off g :
  gic_wf VCPUS g -> n < VCPUS -> off <= u64_max -> exists r, sgi_read n off g = Done g r.
Proof.
  intros Hg Hn Hoff. destruct (bank_at _ _ _ Hg Hn) as (b & Hb & Hwf).
  cut (exists r, sgi_read n off g = Done g r /\ True); [naive_solver|].
  unfold sgi_read. apply (on_bank_reads n _ g b); [done|]. unfold bind at 1, get.
  assert (Hidx : forall w, w < 2 -> exists r, bind (index (r_icfgr b) w) (fun v => ret (Some v)) b =
    Done b r /\ True).
  { intros w Hw. unfold bind. rewrite (index_Done _ _ (word_of (r_icfgr b) w)); [by eexists|].
    apply vget_word_of. by rewrite (bw_icfgr _ Hwf). }
  destruct (off =? GICR_IGROUPR0); [by eexists|]. destruct (_ || (off =? GICR_ICENABLER0)); [by eexists|].
  destruct (_ || (off =? GICR_ICACTIVER0)); [by eexists|].
  destruct (off =? GICR_ICFGR0); [by apply Hidx|]. destruct (off =? GICR_ICFGR1); [by apply Hidx|].
  destruct (in_bytes _ _ _ off) eqn:E; [|by eexists]. unfold bind.
  destruct (read_bytes_Done 32 (r_priority b) (priority_base off GICR_IPRIORITYR) b) as [v Ev].
  { by apply in_bytes_base. }
  rewrite Ev. by eexists.
Qed.

(** What a write of the SGI frame leaves of the enable word, and what it counts. *)
Definition sgi_enables (off value old : N) : N :=
  if off =? GICR_ISENABLER0 then N.lor old value
  else if off =? GICR_ICENABLER0 then N.land old (bnot 32 value) else old.
Definition sgi_count (off value old : N) : N :=
  if off =? GICR_ISENABLER0 then count_ones (N.land value (bnot 32 old)) else 0.

Lemma sgi_write_Done VCPUS n off value g :
  gic_wf VCPUS g -> n < VCPUS -> off <= u64_max -> value < 2 ^ 32 ->
  exists b b' r, vget (redist g) n = Some b /\
    sgi_write n off value g = Done (set_redist (vset (redist g) n b') g) r /\
    bank_wf b' /\ (r = None -> b' = b) /\
    r_enabled b' = sgi_enables off value (r_enabled b) /\
    (forall c, r = Some c -> c = sgi_count off value (r_enabled b)).
Proof.
  intros Hg Hn Hoff Hval. destruct (bank_at _ _ _ Hg Hn) as (b & Hb & Hwf). exists b.
  cut (exists b' r, sgi_write n off value g = Done (set_redist (vset (redist g) n b') g) r /\
    bank_wf b' /\ (r = None -> b' = b) /\ r_enabled b' = sgi_enables off value (r_enabled b) /\
    (forall c, r = Some c -> c = sgi_count off value (r_enabled b))).
  { intros (b' & r & ?). by exists b', r. }
  unfold sgi_write. eapply (on_bank_writes n _ g b); [done|]. unfold sgi_enables, sgi_count.
  pose proof Hwf as [H1 H2 H3].
  assert (Hidx : forall w, w < 2 -> index_set r_icfgr_l w value b =
    Done (bank_icfgr (vset (r_icfgr b) w value) b) tt).
  { intros w Hw. apply index_set_Done. cbn [lget r_icfgr_l]. by rewrite H3. }
  assert (Hcfg : forall w, bank_wf (bank_icfgr (vset (r_icfgr b) w value) b)).
  { intros w. split; cbn; by rewrite ?vlen_vset. }
  destruct (N.eqb_spec off GICR_IGROUPR0) as [->|_].
  { do 2 eexists. split; [reflexivity|]. split_and!; [by split|done|done|by intros c [= <-] ]. }
  destruct (off =? GICR_ISENABLER0).
  { do 2 eexists. split; [reflexivity|]. split_and!; [|done|done|by intros c [= <-] ].
    split; cbn; try done. by apply lor_lt. }
  destruct (off =? GICR_ICENABLER0).
  { do 2 eexists. split; [reflexivity|]. split_and!; [|done|done|by intros c [= <-] ].
    split; cbn; try done. by apply land_lt. }
  destruct (_ || (off =? GICR_ICACTIVER0)).
  { do 2 eexists. split; [reflexivity|]. split_and!; [done..|by intros c [= <-] ]. }
  unfold bind. destruct (off =? GICR_ICFGR0).
  { rewrite Hidx by done. do 2 eexists. split; [reflexivity|].
    split_and!; [apply Hcfg|done|done|by intros c [= <-] ]. }
  destruct (off =? GICR_ICFGR1).
  { rewrite Hidx by done. do 2 eexists. split; [reflexivity|].
    split_and!; [apply Hcfg|done|done|by intros c [= <-] ]. }
  destruct (in_bytes _ _ _ off) eqn:E.
  - rewrite write_bytes_Done; [|done|done|by apply in_bytes_base].
    do 2 eexists. split; [reflexivity|]. split_and!; [|done|done|by intros c [= <-] ].
    split; cbn; by rewrite ?vlen_store4.
  - do 2 eexists. split; [reflexivity|]. by split_and!.
Qed.

Lemma redist_write_Done VCPUS n off value g :
  gic_wf VCPUS g -> n < VCPUS ->
  exists b b' r, vget (redist g) n = Some b /\
    redist_write n off value g = Done (set_redist (vset (redist g) n b') g) r /\
    bank_wf b' /\ (r = None -> b' = b) /\ r_enabled b' = r_enabled b /\
    (forall c, r = Some c -> c = 0) /\
    (asleep b' = if off =? GICR_WAKER then N.testbit value 1 else asleep b).
Proof.
  intros Hg Hn. destruct (bank_at _ _ _ Hg Hn) as (b & Hb & Hwf). exists b.
  cut (exists b' r, redist_write n off value g = Done (set_redist (vset (redist g) n b') g) r /\
    bank_wf b' /\ (r = None -> b' = b) /\ r_enabled b' = r_enabled b /\
    (forall c, r = Some c -> c = 0) /\
    (asleep b' = if off =? GICR_WAKER then N.testbit value 1 else asleep b)).
  { intros (b' & r & ?). by exists b', r. }
  unfold redist_write. eapply (on_bank_writes n _ g b); [done|]. pose proof Hwf as [H1 H2 H3].
  destruct (off =? GICR_WAKER).
  { do 2 eexists. split; [reflexivity|]. split_and!; [by split|done|done|by intros c [= <-]|].
    cbn. unfold WAKER_PROCESSOR_SLEEP. rewrite (shl_small 32 1 1 1) by done.
    by rewrite land_pow2, negb_involutive. }
  destruct (_ || (off =? GICR_PIDR2)); do 2 eexists; (split; [reflexivity|]);
    split_and!; try done; by intros c [= <-].
Qed.

(** *** The address map *)

(** The frames of the device: the distributor, and a pair of frames for every vCPU. *)
Definition at_frame (l : GicLayout) (vcpus : N) (f : GicFrame) (off ipa : N) : Prop :=
  match f with
  | Dist => ipa = gicd_base l + off /\ off < gicd_len l
  | Redist n => ipa = gicr_rd_base l + 2 * GICR_FRAME * n + off /\ off < GICR_FRAME /\ n < vcpus
  | Sgi n => ipa = gicr_rd_base l + 2 * GICR_FRAME * n + GICR_FRAME + off /\ off < GICR_FRAME /\
      n < vcpus
  end.

Lemma frame_of_Done {S} l ipa vcpus (s : S) :
  exists o, frame_of l ipa vcpus s = Done s o /\
    forall f off, o = Some (f, off) -> off <= ipa /\
      match f with Dist => True | Redist n | Sgi n => n < vcpus end.
Proof.
  unfold frame_of. destruct (in_window l ipa) eqn:Ew; simpl; [|by exists None].
  destruct (N.ltb_spec ipa (gicr_rd_base l)) as [H|H].
  - unfold in_window in Ew. assert (Hb : gicd_base l <= ipa).
    { apply orb_true_iff in Ew as [Ew|Ew]; apply andb_true_iff in Ew as [E1%N.leb_le _]; lia. }
    unfold bind, usub. rewrite decide_True by done. eexists. split; [done|].
    intros f off [= <- <-]. split; [lia|done].
  - unfold bind at 1, usub at 1. rewrite decide_True by done. cbn [ret].
    change (ret (ipa - gicr_rd_base l) s) with (Done s (ipa - gicr_rd_base l)). cbn beta iota.
    change (GICR_FRAMES * GICR_FRAME) with 131072. unfold GICR_FRAME.
    pose proof (N.div_mod (ipa - gicr_rd_base l) 131072 ltac:(done)) as Hd. revert Hd.
    generalize ((ipa - gicr_rd_base l) / 131072) ((ipa - gicr_rd_base l) mod 131072).
    intros n w Hd. destruct (N.leb_spec vcpus n) as [Hn|Hn]; [by exists None|].
    destruct (N.ltb_spec w 65536) as [Hw|Hw].
    + eexists. split; [done|]. intros f off [= <- <-]. split; [lia|done].
    + unfold bind, usub. rewrite decide_True by done. eexists. split; [done|].
      intros f off [= <- <-]. split; [lia|done].
Qed.

Lemma validate_spec l vcpus :
  validate l vcpus = true ->
  0 < vcpus /\ gicd_base l + gicd_len l <= gicr_rd_base l /\
  gicr_rd_base l + 131072 * vcpus <= gicr_end l /\
  gicd_base l + gicd_len l <= u64_max /\ gicr_rd_base l + 131072 * vcpus <= u64_max.
Proof.
  unfold validate. destruct (N.eqb_spec vcpus 0) as [|H0]; [done|].
  destruct (checked_add _ _ _) as [e|] eqn:E; [|done]. apply checked_add_Some in E as [E1 ->].
  destruct (N.ltb_spec (gicr_rd_base l) (gicd_base l + gicd_len l)) as [|H1]; [done|].
  unfold checked_mul64. change (GICR_FRAMES * GICR_FRAME) with 131072.
  case_decide as H2; [|done]. destruct (checked_add u64_max (gicr_rd_base l) _) as [e|] eqn:E; [|done].
  apply checked_add_Some in E as [E2 ->]. intros H3%N.leb_le. lia.
Qed.

Lemma frame_of_exact {S} l ipa vcpus (s : S) f off :
  validate l vcpus = true ->
  frame_of l ipa vcpus s = Done s (Some (f, off)) <-> at_frame l vcpus f off ipa.
Proof.
  intros (H0 & H1 & H2 & H3 & H4)%validate_spec. unfold frame_of, in_window.
  rewrite (N.mod_small (gicd_base l + gicd_len l)) by lia.
  unfold at_frame, GICR_FRAME.
  destruct (N.ltb_spec ipa (gicr_rd_base l)) as [H|H].
  - rewrite (proj2 (N.leb_gt _ _) H). cbn [andb]. rewrite orb_false_r.
    destruct (N.leb_spec (gicd_base l) ipa) as [Ha|Ha],
      (N.ltb_spec ipa (gicd_base l + gicd_len l)) as [Hb|Hb]; cbn [andb negb].
    2-4: split; [done|]; destruct f; lia.
    unfold bind, usub. rewrite decide_True by done. unfold ret. split.
    + intros [= <- <-]. lia.
    + destruct f; intros; [|lia..]. do 3 f_equal. lia.
  - rewrite (proj2 (N.leb_le _ _) H). cbn [andb].
    destruct (N.ltb_spec ipa (gicr_end l)) as [He|He].
    2: { rewrite orb_false_r. rewrite (proj2 (N.ltb_ge ipa (gicd_base l + gicd_len l))) by lia.
         rewrite andb_false_r. cbn [negb]. split; [done|]. destruct f; nia. }
    rewrite orb_true_r. cbn [negb]. unfold bind at 1, usub at 1. rewrite decide_True by done.
    change (ret (ipa - gicr_rd_base l) s) with (Done s (ipa - gicr_rd_base l)). cbn beta iota.
    change (GICR_FRAMES * 65536) with 131072. change (2 * 65536) with 131072.
    pose proof (N.div_mod (ipa - gicr_rd_base l) 131072 ltac:(done)) as Hd.
    pose proof (N.mod_lt (ipa - gicr_rd_base l) 131072 ltac:(done)) as Hm. revert Hd Hm.
    generalize ((ipa - gicr_rd_base l) / 131072) ((ipa - gicr_rd_base l) mod 131072).
    intros n w Hd Hm. destruct (N.leb_spec vcpus n) as [Hn|Hn].
    { split; [done|]. destruct f; nia. }
    destruct (N.ltb_spec w 65536) as [Hw|Hw].
    + unfold ret. split; [intros [= <- <-]; nia|]. destruct f as [|k|k]; intros Hf; [lia| |].
      * assert (k = n) by nia. subst k. do 3 f_equal. lia.
      * exfalso. assert (k = n) by nia. subst k. lia.
    + unfold bind, usub. rewrite decide_True by done. unfold ret.
      split; [intros [= <- <-]; nia|]. destruct f as [|k|k]; intros Hf; [lia| |].
      * exfalso. assert (k = n) by nia. subst k. lia.
      * assert (k = n) by nia. subst k. do 3 f_equal. lia.
Qed.

(** *** The enable bits *)

(** [f] counted over a range it is false on outside a window. *)
Lemma count_window f lo k n :
  lo + k <= n -> (forall i, f i = true -> lo <= i < lo + k) ->
  count f (vrange n) = count (fun j => f (lo + j)) (vrange k).
Proof.
  intros Hn Hf.
  assert (Hshift : forall a m, N.of_nat <$> seq (a + N.to_nat lo) m = (fun j => lo + j) <$> (N.of_nat <$> seq a m)).
  { intros a m. revert a. induction m as [|m IH]; intros a; [done|]. simpl. f_equal; [lia|].
    apply (IH (S a)). }
  assert (H0 : forall l, (forall x, x ∈ l -> ~ lo <= x < lo + k) -> count f l = 0).
  { intros l Hl. apply count_zero. intros x Hx. apply not_true_iff_false. intros E.
    by apply (Hl x Hx), Hf. }
  assert (Hmap : forall l, count f ((fun j => lo + j) <$> l) = count (fun j => f (lo + j)) l).
  { induction l as [|x l IH]; [done|]. rewrite fmap_cons. cbn [count]. by rewrite IH. }
  unfold vrange. replace (N.to_nat n) with (N.to_nat lo + (N.to_nat k + N.to_nat (n - lo - k)))%nat by lia.
  rewrite !seq_app, !fmap_app, !count_app, (Hshift 0%nat). rewrite Hmap.
  rewrite H0, (H0 (N.of_nat <$> seq (0 + N.to_nat lo + N.to_nat k) _)); [lia| |].
  - intros x (y & -> & Hy%elem_of_seq)%list_elem_of_fmap. lia.
  - intros x (y & -> & Hy%elem_of_seq)%list_elem_of_fmap. lia.
Qed.

Lemma testbit_as_u32 v i : i < 32 -> N.testbit (as_u32 v) i = N.testbit v i.
Proof. intros Hi. unfold as_u32. change 4294967296 with (2 ^ 32). rewrite testbit_mod.
  by rewrite (proj2 (N.ltb_lt _ _) Hi). Qed.

Lemma enabled_for_Done VCPUS g v i :
  gic_wf VCPUS g -> is_enabled v i g = Done g (enabled_for g v i).
Proof.
  intros Hg. unfold is_enabled, enabled_for, bind, get.
  destruct (N.leb_spec NUM_INTIDS i) as [H1|H1]; [done|].
  destruct (N.ltb_spec i FIRST_SPI) as [H2|H2].
  - unfold ret. f_equal. destruct (vget (redist g) v); [|done].
    unfold FIRST_SPI in H2. rewrite (shl_small 32 1 i 1) by (try lia; done).
    by rewrite land_pow2, negb_involutive.
  - pose proof (N.mod_lt i 32 ltac:(done)) as Hm.
    assert (Hw : i / 32 < vlen (enabled g)).
    { rewrite (gw_enabled _ _ Hg). by apply N.Div0.div_lt_upper_bound. }
    rewrite (index_Done _ _ _ _ (vget_word_of _ _ Hw)). unfold ret. f_equal.
    rewrite (shl_small 32 1 _ 1) by (try lia; done). by rewrite land_pow2, negb_involutive.
Qed.

(** Bits newly set, counted over the interrupts of one word. *)
Lemma newly_count (g g' : VirtGic) v lo old val :
  val < 2 ^ 32 -> lo + 32 <= NUM_INTIDS ->
  (forall i, enabled_for g' v i = true -> enabled_for g v i = false -> lo <= i < lo + 32) ->
  (forall j, j < 32 -> enabled_for g v (lo + j) = N.testbit old j /\
     enabled_for g' v (lo + j) = N.testbit old j || N.testbit val j) ->
  count_ones (N.land val (bnot 32 old)) =
  count (fun i => negb (enabled_for g v i) && enabled_for g' v i) (vrange NUM_INTIDS).
Proof.
  intros Hval Hlo Hout Hin. rewrite (count_window _ lo 32); [|done|].
  2: { intros i [H1%negb_true_iff H2]%andb_true_iff. by apply Hout. }
  rewrite (count_ones_count 32) by (by apply land_lt). apply count_ext.
  intros j Hj%elem_vrange. destruct (Hin j Hj) as [-> ->]. autorewrite with bits.
  rewrite (proj2 (N.ltb_lt _ _) Hj). btauto.
Qed.

Lemma newly_none (g g' : VirtGic) v :
  (forall i, enabled_for g' v i = true -> enabled_for g v i = true) ->
  0 = count (fun i => negb (enabled_for g v i) && enabled_for g' v i) (vrange NUM_INTIDS).
Proof.
  intros H. rewrite count_nsum, nsum_zero; [done|]. intros i _.
  destruct (enabled_for g' v i) eqn:E; [by rewrite (H i E)|by rewrite andb_false_r].
Qed.

(** A register write and the enable bits of the distributor. *)
Lemma reg_write_enables VCPUS r off value g v i :
  gic_wf VCPUS g -> dist_reg off = Some r -> off <= u64_max ->
  enabled_for (reg_write r value g) v i =
  default (enabled_for g v i) (enable_effect Dist off value v i).
Proof.
  intros Hg Hr Hoff. pose proof (dist_reg_at _ _ Hoff Hr) as Hat. unfold enable_effect.
  assert (Hkeep : redist (reg_write r value g) = redist g) by (by destruct r).
  unfold enabled_for. rewrite Hkeep.
  destruct (N.leb_spec NUM_INTIDS i) as [H1|H1].
  { rewrite (proj2 (N.ltb_ge _ _) H1), andb_false_r. done. }
  destruct (N.ltb_spec i FIRST_SPI) as [H2|H2].
  { rewrite (proj2 (N.leb_gt _ _) H2). done. }
  rewrite (proj2 (N.leb_le _ _) H2), (proj2 (N.ltb_lt _ _) H1). cbn [andb].
  unfold NUM_INTIDS, FIRST_SPI in H1, H2. pose proof (N.mod_lt i 32 ltac:(done)) as Hm.
  assert (Hw : 1 <= i / 32 < WORDS).
  { pose proof (N.div_mod i 32 ltac:(done)) as Hd. change WORDS with 9. revert Hd Hm.
    generalize (i / 32) (i mod 32). lia. }
  destruct (dist_reg_enable _ Hw) as [Hset Hclr]. revert Hw Hm Hset Hclr.
  generalize (i / 32) (i mod 32). clear H1 H2 i. intros w k Hw Hm Hset Hclr.
  assert (Hlen : w < vlen (enabled g)) by (rewrite (gw_enabled _ _ Hg); lia).
  destruct (N.eqb_spec off (GICD_ISENABLER + 4 * w)) as [E|E].
  { rewrite E, Hset in Hr. injection Hr as <-. cbn [reg_write enabled set_enabled_words].
    unfold word_of at 1. rewrite vget_vset_eq by done. simpl.
    rewrite N.lor_spec, testbit_as_u32 by done.
    destruct (N.testbit value k); [by rewrite orb_true_r|by rewrite orb_false_r]. }
  destruct (N.eqb_spec off (GICD_ICENABLER + 4 * w)) as [E'|E'].
  { rewrite E', Hclr in Hr. injection Hr as <-. cbn [reg_write enabled set_enabled_words].
    unfold word_of at 1. rewrite vget_vset_eq by done. simpl.
    autorewrite with bits. rewrite testbit_as_u32 by done.
    rewrite (proj2 (N.ltb_lt k 32)) by done.
    by destruct (N.testbit value k), (N.testbit (word_of (enabled g) w) k). }
  assert (Hsame : word_of (enabled (reg_write r value g)) w = word_of (enabled g) w).
  { destruct r as [| | | |w'|w'|w'| | |]; try done; cbn [reg_write enabled set_enabled_words];
      unfold word_of; rewrite vget_vset_ne; try done; intros ->; destruct Hat as [-> _]; done. }
  rewrite Hsame. by destruct (N.testbit value k).
Qed.

(** The interrupts a register write newly enables, counted for any vCPU. *)
Lemma reg_write_count VCPUS r off value g v :
  gic_wf VCPUS g -> dist_reg off = Some r -> off <= u64_max ->
  reg_count r value g =
  count (fun i => negb (enabled_for g v i) && enabled_for (reg_write r value g) v i) (vrange NUM_INTIDS).
Proof.
  intros Hg Hr Hoff. pose proof (dist_reg_at _ _ Hoff Hr) as Hat.
  pose proof (fun i => reg_write_enables VCPUS r off value g v i Hg Hr Hoff) as He.
  assert (Hno : (forall i, enable_effect Dist off value v i <> Some true) ->
    0 = count (fun i => negb (enabled_for g v i) && enabled_for (reg_write r value g) v i)
      (vrange NUM_INTIDS)).
  { intros Hn. apply newly_none. intros i. rewrite He. specialize (Hn i).
    by destruct (enable_effect Dist off value v i) as [ []|]. }
  assert (Hset : forall w, 1 <= w < WORDS -> off = GICD_ISENABLER + 4 * w -> r = RegSetEnable w).
  { intros w Hw ->. destruct (dist_reg_enable w Hw). congruence. }
  assert (Heff : (forall w, r <> RegSetEnable w) -> forall i, enable_effect Dist off value v i <> Some true).
  { intros Hr' i. unfold enable_effect.
    destruct ((FIRST_SPI <=? i) && (i <? NUM_INTIDS) && _) eqn:E; [|done].
    apply andb_true_iff in E as [ [E1%N.leb_le E2%N.ltb_lt]%andb_true_iff _].
    destruct (N.eqb_spec off (GICD_ISENABLER + 4 * (i / 32))) as [Ho|Ho].
    - exfalso. apply (Hr' (i / 32)), Hset; [|done]. unfold FIRST_SPI, NUM_INTIDS in *.
      change WORDS with 9. split; [apply N.div_le_lower_bound; lia|apply N.Div0.div_lt_upper_bound; lia].
    - by destruct (off =? _). }
  destruct r as [| | | | |w| | | |]; cbn [reg_count]; try (apply Hno, Heff; intros ? [=]).
  destruct Hat as [-> Hw]. clear Hno Hset Heff.
  pose proof (vget_word_of (enabled g) w ltac:(rewrite (gw_enabled _ _ Hg); lia)) as Hold.
  apply (newly_count _ _ v (32 * w)); [apply as_u32_lt| | |].
  - change WORDS with 9 in Hw. unfold NUM_INTIDS. lia.
  - intros i Ht Hf. rewrite He, Hf in Ht. unfold enable_effect in Ht.
    destruct ((FIRST_SPI <=? i) && (i <? NUM_INTIDS) && _); [|done].
    destruct (N.eqb_spec (GICD_ISENABLER + 4 * w) (GICD_ISENABLER + 4 * (i / 32))) as [E|E].
    + assert (w = i / 32) as -> by lia. pose proof (N.div_mod i 32 ltac:(done)) as Hd.
      pose proof (N.mod_lt i 32 ltac:(done)) as Hm. revert Hd Hm. generalize (i / 32) (i mod 32). lia.
    + by destruct (_ =? _).
  - intros j Hj. change WORDS with 9 in Hw.
    assert (Hq : (32 * w + j) / 32 = w) by (rewrite N.mul_comm, N.div_add_l, N.div_small by done; lia).
    assert (Hrm : (32 * w + j) mod 32 = j).
    { rewrite N.add_comm, N.mul_comm, N.Div0.mod_add. by apply N.mod_small. }
    assert (Eg : enabled_for g v (32 * w + j) = N.testbit (word_of (enabled g) w) j).
    { unfold enabled_for, NUM_INTIDS, FIRST_SPI. rewrite (proj2 (N.leb_gt _ _)) by lia.
      rewrite (proj2 (N.ltb_ge _ _)) by lia. by rewrite Hq, Hrm. }
    rewrite He, Eg. split; [done|]. unfold enable_effect, NUM_INTIDS, FIRST_SPI.
    rewrite (proj2 (N.leb_le _ _)) by lia. rewrite (proj2 (N.ltb_lt (32 * w + j) _)) by lia.
    rewrite Hq, Hrm, N.eqb_refl, testbit_as_u32 by done. cbn [andb].
    destruct (N.testbit value j); [by rewrite orb_true_r|by rewrite orb_false_r].
Qed.

(** *** The whole access *)

(** How a write ends: the frame's register is written, or nothing happens. *)
Inductive written (VCPUS ipa value : N) (g : VirtGic) : VirtGic -> result Unhandled N -> Prop :=
| W_outside e : frame_of (layout g) ipa VCPUS g = Done g None -> written VCPUS ipa value g g (Err e)
| W_dist off r :
    frame_of (layout g) ipa VCPUS g = Done g (Some (Dist, off)) -> dist_reg off = Some r ->
    written VCPUS ipa value g (reg_write r value g) (Ok (reg_count r value g))
| W_none f off e :
    frame_of (layout g) ipa VCPUS g = Done g (Some (f, off)) ->
    (f = Dist -> dist_reg off = None) -> written VCPUS ipa value g g (Err e)
| W_redist n off b b' :
    frame_of (layout g) ipa VCPUS g = Done g (Some (Redist n, off)) -> vget (redist g) n = Some b ->
    bank_wf b' -> r_enabled b' = r_enabled b ->
    asleep b' = (if off =? GICR_WAKER then N.testbit value 1 else asleep b) ->
    written VCPUS ipa value g (set_redist (vset (redist g) n b') g) (Ok 0)
| W_sgi n off b b' :
    frame_of (layout g) ipa VCPUS g = Done g (Some (Sgi n, off)) -> vget (redist g) n = Some b ->
    bank_wf b' -> r_enabled b' = sgi_enables off (as_u32 value) (r_enabled b) ->
    written VCPUS ipa value g (set_redist (vset (redist g) n b') g)
      (Ok (sgi_count off (as_u32 value) (r_enabled b))).

Lemma mmio_write_written VCPUS ipa size value g :
  gic_wf VCPUS g -> ipa <= u64_max ->
  exists g' r, mmio_write VCPUS ipa size value g = Done g' r /\ written VCPUS ipa value g g' r.
Proof.
  intros Hg Hipa. unfold mmio_write. unfold bind at 1 2, get.
  destruct (frame_of_Done (layout g) ipa VCPUS g) as (o & Ho & Hf). rewrite Ho.
  destruct o as [ [f off]|].
  2: { do 2 eexists. split; [reflexivity|]. by apply W_outside. }
  destruct (Hf f off eq_refl) as [Hle Hn]. assert (Hoff : off <= u64_max) by lia. clear Hf.
  unfold bind. destruct f as [|n|n].
  - rewrite (dist_write_reg VCPUS) by done. destruct (dist_reg off) as [r|] eqn:Hr.
    + do 2 eexists. split; [reflexivity|]. by eapply W_dist.
    + do 2 eexists. split; [reflexivity|]. by eapply W_none.
  - destruct (redist_write_Done VCPUS n off (as_u32 value) g Hg Hn)
      as (b & b' & r & Hb & -> & Hwf & Hsame & He & Hc & Ha).
    do 2 eexists. split; [reflexivity|]. destruct r as [c|]; cbn [ok_or].
    + rewrite (Hc c eq_refl). eapply W_redist; try done. rewrite Ha. by rewrite testbit_as_u32.
    + rewrite (Hsame eq_refl), vset_id, set_redist_id by done. by eapply W_none.
  - destruct (sgi_write_Done VCPUS n off (as_u32 value) g Hg Hn Hoff (as_u32_lt _))
      as (b & b' & r & Hb & -> & Hwf & Hsame & He & Hc).
    do 2 eexists. split; [reflexivity|]. destruct r as [c|]; cbn [ok_or].
    + rewrite (Hc c eq_refl). by eapply W_sgi.
    + rewrite (Hsame eq_refl), vset_id, set_redist_id by done. by eapply W_none.
Qed.

Lemma written_wf VCPUS ipa value g g' r :
  gic_wf VCPUS g -> ipa <= u64_max -> written VCPUS ipa value g g' r ->
  gic_wf VCPUS g' /\ layout g' = layout g /\ (forall e, r = Err e -> g' = g).
Proof.
  intros Hg Hipa [e Ho|off reg Ho Hr|f off e Ho Hr|n off b b' Ho Hb Hwf He Ha|n off b b' Ho Hb Hwf He];
    try done.
  - destruct (frame_of_Done (layout g) ipa VCPUS g) as (o & Ho' & Hf).
    rewrite Ho in Ho'. injection Ho' as <-. destruct (Hf _ _ eq_refl) as [Hle _].
    split_and!; [|by destruct reg|done]. eapply (reg_write_wf _ _ off); [done|].
    apply dist_reg_at; [lia|done].
  - split_and!; [by apply set_bank_wf|done|done].
  - split_and!; [by apply set_bank_wf|done|done].
Qed.

Lemma new_wf VCPUS l : gic_wf VCPUS (new VCPUS l).
Proof.
  assert (Hz : forall n i x, vget (vrepeat n 0) i = Some x -> x = 0).
  { intros n i x. rewrite vget_vrepeat. case_decide; naive_solver. }
  split; cbn [new redist enabled group priority icfgr irouter]; rewrite ?vlen_vrepeat; try done.
  - intros n b. rewrite vget_vrepeat. case_decide; [|done]. by intros [= <-].
  - intros w x Hx%Hz. by subst.
  - split_and!; try (by rewrite vget_vrepeat, decide_True by done).
    intros i Hi. rewrite vget_vrepeat, decide_True; [done|]. unfold FIRST_SPI, NUM_INTIDS in *. lia.
Qed.

Lemma spi_route_Done VCPUS g i :
  gic_wf VCPUS g -> spi_route i g = Done g
    (if (FIRST_SPI <=? i) && (i <? NUM_INTIDS)
     then Some (Irouter.decode (word_of (irouter g) (i - FIRST_SPI))) else None).
Proof.
  intros Hg. unfold spi_route, bind, get.
  destruct (N.leb_spec FIRST_SPI i), (N.ltb_spec i NUM_INTIDS); cbn [andb negb]; try done.
  rewrite (index_Done _ _ _ _ (vget_word_of (irouter g) (i - FIRST_SPI)
    ltac:(rewrite (gw_irouter _ _ Hg); lia))). done.
Qed.

Lemma mmio_read_redist VCPUS n off size g :
  validate (layout g) VCPUS = true -> n < VCPUS -> off < GICR_FRAME ->
  mmio_read VCPUS (gicr_rd_base (layout g) + 2 * GICR_FRAME * n + off) size g =
  bind (redist_read VCPUS n off) (fun r => ret (ok_or r (mkUnhandled "GICR" off))) g.
Proof.
  intros Hv Hn Hoff. unfold mmio_read. unfold bind at 1 2, get.
  by rewrite (proj2 (frame_of_exact _ _ VCPUS g (Redist n) off Hv) (conj eq_refl (conj Hoff Hn))).
Qed.

(** An SGI frame write and the enable bits. *)
Lemma set_bank_enables g n off value b b' v i :
  vget (redist g) n = Some b -> r_enabled b' = sgi_enables off (as_u32 value) (r_enabled b) ->
  enabled_for (set_redist (vset (redist g) n b') g) v i =
  default (enabled_for g v i) (enable_effect (Sgi n) off value v i).
Proof.
  intros Hb He. pose proof (vget_Some_lt _ _ _ Hb) as Hn.
  unfold enabled_for, enable_effect. cbn [redist enabled set_redist].
  destruct (N.leb_spec NUM_INTIDS i) as [H1|H1].
  { rewrite (proj2 (N.ltb_ge i FIRST_SPI)) by (unfold FIRST_SPI, NUM_INTIDS in *; lia).
    by rewrite andb_false_r. }
  destruct (N.ltb_spec i FIRST_SPI) as [H2|H2]; [|by rewrite andb_false_r].
  rewrite vget_vset. destruct (N.eqb_spec v n) as [->|Hne].
  2: { rewrite decide_False by naive_solver. done. }
  rewrite decide_True by done. rewrite He, Hb, andb_true_l. unfold sgi_enables.
  destruct (off =? GICR_ISENABLER0).
  { rewrite N.lor_spec, testbit_as_u32 by done.
    by destruct (N.testbit value i), (N.testbit (r_enabled b) i). }
  destruct (off =? GICR_ICENABLER0).
  { autorewrite with bits. rewrite testbit_as_u32, (proj2 (N.ltb_lt i 32) H2) by done.
    by destruct (N.testbit value i), (N.testbit (r_enabled b) i). }
  by destruct (N.testbit value i).
Qed.

Lemma set_bank_count g n off value b b' :
  vget (redist g) n = Some b -> r_enabled b' = sgi_enables off (as_u32 value) (r_enabled b) ->
  sgi_count off (as_u32 value) (r_enabled b) =
  count (fun i => negb (enabled_for g n i) &&
                  enabled_for (set_redist (vset (redist g) n b') g) n i) (vrange NUM_INTIDS).
Proof.
  intros Hb He. pose proof (fun i => set_bank_enables g n off value b b' n i Hb He) as Hbit.
  unfold sgi_count. destruct (N.eqb_spec off GICR_ISENABLER0) as [->|Ho1].
  - apply (newly_count _ _ n 0); [apply as_u32_lt|done| |].
    + intros i Ht Hfa. rewrite Hbit, Hfa in Ht. unfold enable_effect in Ht.
      destruct (N.ltb_spec i FIRST_SPI) as [H2|H2]; [exact (conj (N.le_0_l _) H2)|].
      by rewrite andb_false_r in Ht.
    + intros j Hj. rewrite N.add_0_l, Hbit.
      assert (Eg : enabled_for g n j = N.testbit (r_enabled b) j).
      { unfold enabled_for. unfold NUM_INTIDS, FIRST_SPI. rewrite (proj2 (N.leb_gt _ _)) by lia.
        by rewrite (proj2 (N.ltb_lt _ _) Hj), Hb. }
      rewrite Eg. split; [done|]. unfold enable_effect. rewrite !N.eqb_refl.
      rewrite (proj2 (N.ltb_lt j FIRST_SPI) Hj), testbit_as_u32 by done.
      by destruct (N.testbit value j), (N.testbit (r_enabled b) j).
  - apply newly_none. intros i. rewrite Hbit. unfold enable_effect.
    destruct ((n =? n) && (i <? FIRST_SPI) && _); [|done].
    rewrite (proj2 (N.eqb_neq _ _) Ho1). by destruct (off =? GICR_ICENABLER0).
Qed.

Lemma set_bank_same_enables g n b b' v i :
  vget (redist g) n = Some b -> r_enabled b' = r_enabled b ->
  enabled_for (set_redist (vset (redist g) n b') g) v i = enabled_for g v i.
Proof.
  intros Hb He. unfold enabled_for. cbn [redist enabled set_redist].
  destruct (NUM_INTIDS <=? i); [done|]. destruct (i <? FIRST_SPI); [|done].
  rewrite vget_vset. case_decide as Hn; [|done]. destruct Hn as [<- _]. by rewrite Hb, He.
Qed.

Lemma written_enables VCPUS ipa value g g' c :
  gic_wf VCPUS g -> ipa <= u64_max -> written VCPUS ipa value g g' (Ok c) ->
  exists f off, frame_of (layout g) ipa VCPUS g = Done g (Some (f, off)) /\
    (forall v i, enabled_for g' v i = default (enabled_for g v i) (enable_effect f off value v i)) /\
    (forall v, default v (vcpu f) = v ->
       c = count (fun i => negb (enabled_for g v i) && enabled_for g' v i) (vrange NUM_INTIDS)).
Proof.
  intros Hg Hipa Hw. destruct (frame_of_Done (layout g) ipa VCPUS g) as (o & Ho & Hf).
  inversion Hw as [|off reg Ho' Hr| |n off b b' Ho' Hb Hwf He Ha|n off b b' Ho' Hb Hwf He]; subst;
    eexists _, off; (split; [exact Ho'|]).
  - destruct (Hf Dist off) as [Hle _]; [congruence|]. split.
    + intros v i. apply (reg_write_enables VCPUS); [done|done|lia].
    + intros v _. apply (reg_write_count VCPUS reg off); [done|done|lia].
  - split; [intros; by eapply set_bank_same_enables|]. intros v _. apply newly_none. intros i.
    by rewrite (set_bank_same_enables g n b b').
  - split; [intros; by eapply set_bank_enables|]. intros v Hv. cbn in Hv. subst v.
    by apply set_bank_count.
Qed.

(** The fields of a redistributor's type register. *)
Lemma typer_fields (VCPUS n : N) :
  n < VCPUS -> VCPUS <= 255 ->
  let t := (if n + 1 =? VCPUS then 16 else 0) + 2 ^ 8 * (n + 2 ^ 24 * n) in
  N.testbit t 4 = (n + 1 =? VCPUS) /\ byte_at t 8 = n /\ t / 2 ^ 32 = n.
Proof.
  intros Hn Hv. assert (Hn8 : n < 2 ^ 8) by (change (2 ^ 8) with 256; lia).
  set (l := if n + 1 =? VCPUS then 16 else 0). cbn zeta.
  assert (Hl4 : l < 2 ^ 8 /\ N.testbit l 4 = (n + 1 =? VCPUS))
    by (unfold l; by destruct (n + 1 =? VCPUS)).
  clearbody l. destruct Hl4 as [Hl8 Hl4].
  rewrite (add_shifted n) by (change (2 ^ 24) with 16777216; lia).
  rewrite add_shifted by done. split_and!.
  - autorewrite with bits. rewrite Hl4. by rewrite orb_false_r.
  - apply N.bits_inj. intros i. rewrite testbit_byte_at. autorewrite with bits.
    replace (i + 8 - 8) with i by lia.
    destruct (N.ltb_spec i 8); [|by rewrite (testbit_high n 8)].
    rewrite (proj2 (N.leb_gt 24 i)), (proj2 (N.leb_le 8 (i + 8))) by lia.
    rewrite (testbit_high l 8) by (done || lia). btauto.
  - rewrite <- N.shiftr_div_pow2. apply N.bits_inj. intros i. autorewrite with bits.
    rewrite (proj2 (N.leb_le 8 (i + 32))), (proj2 (N.leb_le 24 (i + 32 - 8))) by lia.
    replace (i + 32 - 8 - 24) with i by lia.
    rewrite (testbit_high n 8 (i + 32 - 8)) by (done || lia).
    rewrite (testbit_high l 8) by (done || lia). btauto.
Qed.

(** Reading and writing the wake register of a vCPU. *)
Lemma waker_read VCPUS k g b size :
  validate (layout g) VCPUS = true -> k < VCPUS -> vget (redist g) k = Some b ->
  mmio_read VCPUS (gicr_rd_base (layout g) + 2 * GICR_FRAME * k + GICR_WAKER) size g =
  Done g (Ok (if asleep b then 6 else 0)).
Proof.
  intros Hl Hk Hb. rewrite mmio_read_redist by done. unfold bind, redist_read.
  rewrite (on_bank_Done k _ g b b (Some (if asleep b then 6 else 0)) Hb).
  - by rewrite vset_id, set_redist_id.
  - unfold bind, get. by destruct (asleep b).
Qed.

Lemma waker_write VCPUS k g b size value :
  validate (layout g) VCPUS = true -> k < VCPUS -> vget (redist g) k = Some b ->
  mmio_write VCPUS (gicr_rd_base (layout g) + 2 * GICR_FRAME * k + GICR_WAKER) size value g =
  Done (set_redist (vset (redist g) k (bank_asleep (N.testbit value 1) b)) g) (Ok 0).
Proof.
  intros Hl Hk Hb. unfold mmio_write. unfold bind at 1 2, get.
  rewrite (proj2 (frame_of_exact _ _ VCPUS g (Redist k) GICR_WAKER Hl)) by (by split_and!).
  unfold bind, redist_write.
  rewrite (on_bank_Done k _ g b (bank_asleep (N.testbit value 1) b) (Some 0) Hb); [done|].
  unfold bind, modify, ret. cbn. do 2 f_equal. unfold WAKER_PROCESSOR_SLEEP.
  rewrite (shl_small 32 1 1 1) by done. rewrite land_pow2, negb_involutive.
  by apply testbit_as_u32.
Qed.

(** A read is answered and changes nothing. *)
Lemma mmio_read_run VCPUS g ipa size : VCPUS <= 255 -> gic_wf VCPUS g -> ipa <= u64_max ->
  exists r, mmio_read VCPUS ipa size g = Done g r.
Proof.
  intros Hv Hg Hipa. unfold mmio_read. unfold bind at 1 2, get.
  destruct (frame_of_Done (layout g) ipa VCPUS g) as (o & -> & Hf).
  destruct o as [ [f off]|]; [|by eexists]. destruct (Hf f off eq_refl) as [Hle Hn].
  assert (Hoff : off <= u64_max) by lia. unfold bind. destruct f as [|n|n].
  - destruct (dist_read_Done VCPUS off size g Hg Hoff) as (r & -> & _). by eexists.
  - destruct (redist_read_Done VCPUS n off g Hg Hn Hv) as (r & ->). by eexists.
  - destruct (sgi_read_Done VCPUS n off g Hg Hn Hoff) as (r & ->). by eexists.
Qed.

Lemma mmio_write_run VCPUS g ipa size value : gic_wf VCPUS g -> ipa <= u64_max ->
  exists g' r, mmio_write VCPUS ipa size value g = Done g' r /\
    gic_wf VCPUS g' /\ layout g' = layout g /\ (forall e, r = Err e -> g' = g).
Proof.
  intros Hg Hipa. destruct (mmio_write_written VCPUS ipa size value g Hg Hipa) as (g' & r & E & Hw).
  exists g', r. split; [done|]. by apply (written_wf VCPUS ipa value g).
Qed.

(** ** Properties *)

(** C36: the device is total over everything a guest can do to it: whatever the layout, an
    access of any address, any width and any value is answered, never a panic and never an
    index out of range; a read changes nothing; a write that is refused changes nothing, and
    one that is accepted keeps the state well formed. In particular no write whatsoever
    reaches the distributor's copies of the interrupts 0 to 31, which stay zero. *)
Theorem gic_total (VCPUS : N) (g : VirtGic) (ipa size value : N) :
  VCPUS <= 255 -> gic_wf VCPUS g -> ipa <= u64_max ->
  (exists r, mmio_read VCPUS ipa size g = Done g r) /\
  exists g' r, mmio_write VCPUS ipa size value g = Done g' r /\
    gic_wf VCPUS g' /\ layout g' = layout g /\ (forall e, r = Err e -> g' = g).
Proof.
  intros Hv Hg Hipa. split; [by apply mmio_read_run|by apply mmio_write_run].
Qed.

Theorem gic_total_witness :
  exists r, mmio_read 2 134217984 4 (new 2 (mkLayout 134217728 65536 134873088 150601728)) =
    Done (new 2 (mkLayout 134217728 65536 134873088 150601728)) r.
Proof.
  refine (proj1 (gic_total 2 _ 134217984 4 0 _ (new_wf _ _) _)); vm_compute; discriminate.
Defined.

(** A write enables, for a vCPU, exactly the interrupts it names in a set-enable register
    the vCPU sees, disables exactly those it names in a clear-enable register, and leaves
    every other enable bit as it was: an SPI by the word of the distributor, an SGI or a PPI
    by the frame of that one vCPU, so that no vCPU can enable another one's. The count
    returned is the number of interrupts the write newly enabled. *)
Theorem enables_exact (VCPUS : N) (g : VirtGic) (ipa size value : N) (g' : VirtGic) (c : N) :
  gic_wf VCPUS g -> ipa <= u64_max -> mmio_write VCPUS ipa size value g = Done g' (Ok c) ->
  exists f off, frame_of (layout g) ipa VCPUS g = Done g (Some (f, off)) /\
    (forall v i, is_enabled v i g = Done g (enabled_for g v i) /\
       is_enabled v i g' = Done g' (default (enabled_for g v i) (enable_effect f off value v i))) /\
    (forall v, default v (vcpu f) = v ->
       c = count (fun i => negb (enabled_for g v i) && enabled_for g' v i) (vrange NUM_INTIDS)).
Proof.
  intros Hg Hipa E. destruct (mmio_write_written VCPUS ipa size value g Hg Hipa) as (g1 & r & E1 & Hw).
  rewrite E in E1. injection E1 as <- <-. pose proof (written_wf _ _ _ _ _ _ Hg Hipa Hw) as (Hg' & _).
  destruct (written_enables _ _ _ _ _ _ Hg Hipa Hw) as (f & off & Ho & He & Hc).
  exists f, off. split_and!; [done| |done]. intros v i.
  rewrite !(enabled_for_Done VCPUS) by done. by rewrite He.
Qed.

(** A guest of two vCPUs: vCPU 1 enables its interrupts 0 and 30, and vCPU 0's stay off. *)
Definition demo_layout : GicLayout := mkLayout 134217728 65536 134873088 150601728.
Definition demo_write : N := 134873088 + 196608 + 256.

Theorem enables_exact_witness :
  match mmio_write 2 demo_write 4 1073741825 (new 2 demo_layout) with
  | Done g' (Ok c) => c = 2 /\ is_enabled 1 30 g' = Done g' true /\ is_enabled 0 30 g' = Done g' false
  | _ => False
  end.
Proof.
  destruct (mmio_write 2 demo_write 4 1073741825 (new 2 demo_layout)) as [g' [c|e]|] eqn:E.
  - destruct (enables_exact 2 (new 2 demo_layout) demo_write 4 1073741825 g' c) as (f & off & Ho & He & Hc).
    + apply new_wf.
    + vm_compute. discriminate.
    + exact E.
    + assert (Hf : f = Sgi 1 /\ off = 256).
      { vm_compute in Ho. injection Ho as <- <-. split; reflexivity. }
      destruct Hf as [-> ->]. split.
      * vm_compute in E. injection E as <- <-. reflexivity.
      * split; [exact (proj2 (He 1 30))|exact (proj2 (He 0 30))].
  - vm_compute in E. discriminate E.
  - vm_compute in E. discriminate E.
Defined.

(** Routing is the guest's decision: after a 64-bit write of [value] to the routing
    register of SPI [i], [spi_route] answers exactly the vCPU [value] names, which is at most
    one and none when the value asks for any of them; the routes of the other SPIs are
    untouched; and no other accepted write changes any route. An interrupt that is not an SPI
    never has a route. *)
Theorem routing_exact (VCPUS : N) (g : VirtGic) (ipa size value : N) (g' : VirtGic) (c : N) :
  gic_wf VCPUS g -> ipa <= u64_max -> mmio_write VCPUS ipa size value g = Done g' (Ok c) ->
  exists f off, frame_of (layout g) ipa VCPUS g = Done g (Some (f, off)) /\
    forall i, exists o, spi_route i g' = Done g' o /\
      (is_Some o <-> FIRST_SPI <= i < NUM_INTIDS) /\
      (f = Dist -> FIRST_SPI <= i < NUM_INTIDS -> off = GICD_IROUTER + 8 * i ->
         c = 0 /\ exists r, o = Some r /\ forall aff, targets r aff = true <->
           N.testbit value 31 = false /\ aff = named value) /\
      (~ (f = Dist /\ off = GICD_IROUTER + 8 * i) -> spi_route i g = Done g o).
Proof.
  intros Hg Hipa E. destruct (mmio_write_written VCPUS ipa size value g Hg Hipa) as (g1 & r & E1 & Hw).
  rewrite E in E1. injection E1 as <- <-. pose proof (written_wf _ _ _ _ _ _ Hg Hipa Hw) as (Hg' & _).
  destruct (frame_of_Done (layout g) ipa VCPUS g) as (o & Ho & Hf).
  assert (Hsome : forall i (x : SpiRoute), is_Some (if (FIRST_SPI <=? i) && (i <? NUM_INTIDS) then Some x else None) <->
    FIRST_SPI <= i < NUM_INTIDS).
  { intros i x. destruct (N.leb_spec FIRST_SPI i), (N.ltb_spec i NUM_INTIDS); cbn [andb];
      (split; [intros [? ?]; try done; lia|intros ?; try lia; by eexists]). }
  assert (Hkeep : irouter g' = irouter g -> forall i, exists o, spi_route i g' = Done g' o /\
      (is_Some o <-> FIRST_SPI <= i < NUM_INTIDS) /\ spi_route i g = Done g o).
  { intros Hi i. rewrite !(spi_route_Done VCPUS) by done. rewrite Hi. eexists. by split_and!. }
  inversion Hw as [|off reg Ho' Hr| |n off b b' Ho' Hb Hwf He Ha|n off b b' Ho' Hb Hwf He]; subst;
    eexists _, off; (split; [exact Ho'|]).
  2-3: intros i; destruct (Hkeep eq_refl i) as (x & ? & ? & ?); exists x; by split_and!.
  destruct (Hf Dist off) as [Hle _]; [congruence|]. clear Hf Ho.
  pose proof (dist_reg_at off reg ltac:(lia) Hr) as Hat. intros i.
  assert (Hhit : FIRST_SPI <= i < NUM_INTIDS -> off = GICD_IROUTER + 8 * i -> reg = RegRouter (i - FIRST_SPI)).
  { intros Hi ->. replace i with (FIRST_SPI + (i - FIRST_SPI)) in Hr at 1 by lia.
    rewrite dist_reg_router in Hr by lia. congruence. }
  assert (Hdec : (exists j, reg = RegRouter j) \/ ~ exists j, reg = RegRouter j).
  { destruct reg; [left; by eexists|right; by intros [? ?]..]. }
  destruct Hdec as [ [j ->]|Hno].
  - destruct Hat as [-> Hj]. rewrite !(spi_route_Done VCPUS) by done. eexists.
    split; [reflexivity|]. split; [apply Hsome|].
    cbn [reg_write reg_count irouter set_irouter]. split.
    + intros _ Hi Heq. injection (Hhit Hi Heq) as ->. split; [done|].
      rewrite (proj2 (N.leb_le _ _)), (proj2 (N.ltb_lt _ _)) by lia. cbn [andb].
      eexists. split; [reflexivity|]. intros aff. unfold word_of.
      rewrite vget_vset_eq by (rewrite (gw_irouter _ _ Hg); lia). apply route_targets_spec.
    + intros Hne. destruct (_ && _) eqn:Ei; [|done].
      apply andb_true_iff in Ei as [H1%N.leb_le _]. unfold word_of. rewrite vget_vset_ne; [done|].
      intros ->. apply Hne. split; [done|]. f_equal. lia.
  - destruct (Hkeep ltac:(destruct reg; try done; exfalso; apply Hno; by eexists) i) as (x & H1 & H2 & H3).
    exists x. split_and!; [done|done| |done]. intros _ Hi Heq. exfalso. apply Hno. eexists. by apply Hhit.
Qed.

Theorem routing_exact_witness :
  match mmio_write 2 (134217728 + 24576 + 8 * 33) 8 1 (new 2 demo_layout) with
  | Done g' (Ok _) => exists r, spi_route 33 g' = Done g' (Some r) /\ targets r 1 = true
  | _ => False
  end.
Proof.
  destruct (mmio_write 2 (134217728 + 24576 + 8 * 33) 8 1 (new 2 demo_layout)) as [g' [c|e]|] eqn:E.
  - destruct (routing_exact 2 (new 2 demo_layout) (134217728 + 24576 + 8 * 33) 8 1 g' c)
      as (f & off & Ho & Hi).
    + apply new_wf.
    + vm_compute. discriminate.
    + exact E.
    + assert (Hf : f = Dist /\ off = GICD_IROUTER + 8 * 33).
      { vm_compute in Ho. injection Ho as <- <-. split; reflexivity. }
      destruct Hf as [-> ->]. destruct (Hi 33) as (o & Hs & _ & Hr & _).
      destruct (Hr eq_refl) as (_ & r & -> & Ht); [unfold FIRST_SPI, NUM_INTIDS; lia|reflexivity|].
      exists r. split; [exact Hs|]. apply Ht. split; reflexivity.
  - vm_compute in E. discriminate E.
  - vm_compute in E. discriminate E.
Defined.

(** On a valid layout the decode of an address is a partition: the distributor's window
    and the two frames of every redistributor are pairwise disjoint, an address decodes to a
    frame and offset exactly when it is that offset of that frame, and an address past the
    last vCPU's frames decodes to none. On any layout at all the decode is total and a frame it
    names belongs to a vCPU the guest has. *)
Theorem frames_partition {S} (l : GicLayout) (vcpus ipa : N) (s : S) :
  (exists o, frame_of l ipa vcpus s = Done s o /\
     forall f off n, o = Some (f, off) -> vcpu f = Some n -> n < vcpus) /\
  (validate l vcpus = true ->
     (forall f off, frame_of l ipa vcpus s = Done s (Some (f, off)) <-> at_frame l vcpus f off ipa) /\
     (forall f off f' off', at_frame l vcpus f off ipa -> at_frame l vcpus f' off' ipa ->
        f = f' /\ off = off') /\
     (gicr_rd_base l + 2 * GICR_FRAME * vcpus <= ipa -> frame_of l ipa vcpus s = Done s None)).
Proof.
  destruct (frame_of_Done l ipa vcpus s) as (o & Ho & Hf). split.
  - exists o. split; [done|]. intros f off n -> Hn. destruct (Hf f off eq_refl) as [_ H].
    destruct f; [done|by injection Hn as <-..].
  - intros Hv. split_and!.
    + intros f off. by apply frame_of_exact.
    + intros f off f' off' H1 H2. apply (frame_of_exact l ipa vcpus s _ _ Hv) in H1, H2.
      rewrite H1 in H2. by injection H2.
    + intros Hpast. rewrite Ho. f_equal. destruct o as [ [f off]|]; [exfalso|done].
      apply (frame_of_exact l ipa vcpus s _ _ Hv) in Ho. apply validate_spec in Hv as (H0 & H1 & _).
      unfold at_frame, GICR_FRAME in *. destruct f; nia.
Qed.

Theorem frames_partition_witness :
  frame_of demo_layout demo_write 2 tt = Done tt (Some (Sgi 1, 256)) /\
  frame_of demo_layout (134873088 + 262144) 2 tt = Done tt None.
Proof.
  split.
  - apply (proj1 (proj2 (frames_partition demo_layout 2 demo_write tt) eq_refl)).
    split; [reflexivity|]. split; reflexivity.
  - apply (proj2 (proj2 (proj2 (frames_partition demo_layout 2 (134873088 + 262144) tt) eq_refl))).
    vm_compute. discriminate.
Defined.

(** A guest finds its redistributors: the type register of the one of vCPU [n] says it is
    the last exactly for the last vCPU, and carries [n] as the processor number and the
    affinity of vCPU [n]; and the wake handshake ends: after a write of the wake register its
    read-back says asleep, and children asleep, exactly if the sleep bit was written, while
    the wake register of every other vCPU reads as before. *)
Theorem redistributor_discovery (VCPUS n : N) (g : VirtGic) (size value : N) :
  let base k := gicr_rd_base (layout g) + 2 * GICR_FRAME * k in
  VCPUS <= 255 -> gic_wf VCPUS g -> validate (layout g) VCPUS = true -> n < VCPUS ->
  (exists t, mmio_read VCPUS (base n + GICR_TYPER) size g = Done g (Ok t) /\
     N.testbit t 4 = (n + 1 =? VCPUS) /\ byte_at t 8 = n /\ t / 2 ^ 32 = vcpu_affinity n) /\
  exists g' c, mmio_write VCPUS (base n + GICR_WAKER) size value g = Done g' (Ok c) /\
    mmio_read VCPUS (base n + GICR_WAKER) size g' =
      Done g' (Ok (if N.testbit value 1 then 6 else 0)) /\
    (forall k, k < VCPUS -> k <> n -> exists v,
       mmio_read VCPUS (base k + GICR_WAKER) size g = Done g (Ok v) /\
       mmio_read VCPUS (base k + GICR_WAKER) size g' = Done g' (Ok v)).
Proof.
  intros base Hv Hg Hl Hn. destruct (bank_at VCPUS g n Hg Hn) as (b & Hb & Hwf).
  unfold base. split.
  - eexists. split; [|by apply typer_fields].
    rewrite mmio_read_redist by done. unfold bind at 1, redist_read.
    rewrite (on_bank_Done n _ g b b _ Hb
      (f_equal (fun o => match o with Done s t => Done s (Some t) | Panic => Panic end)
         (gicr_typer_Done VCPUS n b Hn Hv))).
    by rewrite vset_id, set_redist_id.
  - rewrite (waker_write _ _ _ b) by done. do 2 eexists. split; [reflexivity|]. split.
    + apply (waker_read _ n (set_redist _ g) (bank_asleep (N.testbit value 1) b)); [done|done|].
      cbn [redist set_redist]. apply vget_vset_eq. by eapply vget_Some_lt.
    + intros k Hk Hkn. destruct (bank_at VCPUS g k Hg Hk) as (b' & Hb' & _).
      exists (if asleep b' then 6 else 0). split; [by apply waker_read|].
      apply (waker_read _ k (set_redist _ g) b'); [done|done|]. cbn [redist set_redist].
      by rewrite vget_vset_ne.
Qed.

Theorem redistributor_discovery_witness :
  exists t, mmio_read 2 (gicr_rd_base demo_layout + 131072 + 8) 8 (new 2 demo_layout) =
    Done (new 2 demo_layout) (Ok t) /\ N.testbit t 4 = true.
Proof.
  destruct (redistributor_discovery 2 1 (new 2 demo_layout) 8 0) as [ (t & Ht & Hb & _) _].
  - vm_compute. discriminate.
  - apply new_wf.
  - reflexivity.
  - reflexivity.
  - exists t. split; [exact Ht|exact Hb].
Defined.

(** A byte store to a priority register is a word store: with the four priorities of the
    interrupts 32 to 35 set to 16, 32, 48 and 64, a one-byte write of 80 to the priority of
    interrupt 33 gives the priority 80 to interrupt 32, and clears those of 33, 34 and 35. *)
Theorem priority_byte_store :
  let base := gicd_base demo_layout + GICD_IPRIORITYR in
  match mmio_write 1 (base + 32) 4 1076895760 (new 1 demo_layout) with
  | Done g (Ok _) =>
      (vget (priority g) <$> [32; 33; 34; 35]) = Some <$> [16; 32; 48; 64] /\
      match mmio_write 1 (base + 33) 1 80 g with
      | Done g' (Ok _) => (vget (priority g') <$> [32; 33; 34; 35]) = Some <$> [80; 0; 0; 0]
      | _ => False
      end
  | _ => False
  end.
Proof. vm_compute. split; reflexivity. Qed.
