(* ===== verification/LeafMap.v ===== *)
(** * Which frames a domain's second stage reaches — [hv-s2/src/leafmap.rs]

    The leaf map: for every machine frame, whether a domain's page tables reach it, at which
    permission and at which of the two sizes. It is computed from the live page-table entries
    and says nothing of descriptors. *)

From Stdlib Require Import NArith Lia.
From stdpp Require Import base numbers list option.
From S2P Require Import P2m.
From S2P Require Import Prelude.
#[local] Open Scope N_scope.

(** ** Data *)

(** [(parent, slot, child, writable, leaf, execute)]. *)
Definition Edge : Type := Mfn * N * Mfn * bool * bool * bool.

Inductive Perm : Type := Ro | Rw | Rx.
#[global] Instance Perm_eq_dec : EqDecision Perm.
Proof. solve_decision. Defined.

Definition writable (p : Perm) : bool := match p with Rw => true | _ => false end.
Definition executable (p : Perm) : bool := match p with Rx => true | _ => false end.

Inductive Span : Type := Base | Super.
#[global] Instance Span_eq_dec : EqDecision Span.
Proof. solve_decision. Defined.

Record Maps : Type := mkMaps {
  base : list (option Perm);
  sup : list (option Perm);
}.

Record FrameOutOfRange : Type := mkOut {
  o_mfn : Mfn;
  capacity : N;
}.

Inductive MapError : Type :=
| OutOfRange (o : FrameOutOfRange)
| SpanConflict (mfn : Mfn)
| UnsupportedSpan (parent : Mfn).

(** ** Operations *)

(** [match span { Base => base, Super => sup }], read and assigned. *)
Definition map_of (sp : Span) (o : Maps) : list (option Perm) :=
  match sp with Base => base o | Super => sup o end.
Definition set_map (sp : Span) (l : list (option Perm)) (o : Maps) : Maps :=
  match sp with Base => mkMaps l (sup o) | Super => mkMaps (base o) l end.

(** [for slot in map.iter_mut() { *slot = None; }]. *)
Definition clear (l : list (option Perm)) : list (option Perm) := (fun _ => None) <$> l.

Definition edge_perm (w x : bool) : Perm := if w then Rw else if x then Rx else Ro.

Section Emit.
Context (owner_of : Mfn -> option DomId) (span_of : Mfn -> option Span) (dom : DomId).

(** The body of the loop over the edges. *)
Definition place (e : Edge) : M Maps (result MapError unit) :=
  let '(parent, _, child, w, leaf, x) := e in
  if negb leaf || negb (bool_decide (owner_of parent = Some dom)) then ok tt else
  let? span := lift (ok_or (span_of parent) (UnsupportedSpan parent)) in
  let! out := get in
  if vlen (map_of span out) <=? child
  then err (OutOfRange (mkOut child (vlen (map_of span out))))
  else modify (set_map span (vset (map_of span out) child (Some (edge_perm w x)))) ;! ok tt.

Fixpoint place_all (edges : list Edge) : M Maps (result MapError unit) :=
  match edges with
  | [] => ok tt
  | e :: edges => place e ;? place_all edges
  end.

Definition is_mapped (o : option (option Perm)) : bool :=
  match o with Some (Some _) => true | _ => false end.

(** The pass that looks for a frame of both sizes. *)
Definition conflict (o : Maps) : option Mfn :=
  first_some (fun m => if is_mapped (vget (base o) m) && is_mapped (vget (sup o) m)
                       then Some (as_u32 m) else None)
    (vrange (N.min (vlen (base o)) (vlen (sup o)))).

Definition leaf_map_from_edges (edges : list Edge) : M Maps (result MapError unit) :=
  modify (fun o => mkMaps (clear (base o)) (clear (sup o))) ;!
  place_all edges ;?
  let! out := get in
  match conflict out with Some m => err (SpanConflict m) | None => ok tt end.
End Emit.

Definition span_of_table (p2m : P2m.System) (parent : Mfn) : option Span :=
  match P2m.current_type p2m parent with
  | Some (PageTable L1) => Some Base
  | Some (PageTable L2) => Some Super
  | _ => None
  end.

Definition leaf_map (p2m : P2m.System) (dom : DomId) : M Maps (result MapError unit) :=
  leaf_map_from_edges (P2m.owner_of p2m) (span_of_table p2m) dom (P2m.link_edges p2m).

(** ** Specification *)

(** The edge is a leaf of a table the domain owns, of the given size and frame. *)
Definition hits (owner_of : Mfn -> option DomId) (span_of : Mfn -> option Span)
    (dom : DomId) (sp : Span) (m : Mfn) (e : Edge) : Prop :=
  let '(parent, _, child, _, leaf, _) := e in
  leaf = true /\ owner_of parent = Some dom /\ span_of parent = Some sp /\ child = m.
#[global] Instance hits_dec o s d sp m e : Decision (hits o s d sp m e).
Proof. destruct e as [ [ [ [ [p sl] c] w] lf] x]. simpl. apply _. Defined.

(** The permission of the last edge that hits. *)
Definition perm_of (e : Edge) : Perm := let '(_, _, _, w, _, x) := e in edge_perm w x.
Definition authorized (owner_of : Mfn -> option DomId) (span_of : Mfn -> option Span)
    (dom : DomId) (edges : list Edge) (sp : Span) (m : Mfn) : option Perm :=
  foldl (fun acc e => if decide (hits owner_of span_of dom sp m e) then Some (perm_of e) else acc)
    None edges.

(** The maps can represent the leaves of the domain's tables. *)
Record emissible (owner_of : Mfn -> option DomId) (span_of : Mfn -> option Span) (dom : DomId)
    (edges : list Edge) (o : Maps) : Prop := mkEmissible {
  em_fit : forall sp m e, e ∈ edges -> hits owner_of span_of dom sp m e -> m < vlen (map_of sp o);
  em_span : forall p sl c w x, (p, sl, c, w, true, x) ∈ edges -> owner_of p = Some dom ->
    exists sp, span_of p = Some sp;
  em_one : forall m e e', e ∈ edges -> e' ∈ edges -> hits owner_of span_of dom Base m e ->
    ~ hits owner_of span_of dom Super m e';
}.

(** ** Lemmas *)

Lemma map_of_set_map sp sp' l o :
  map_of sp (set_map sp' l o) = if decide (sp = sp') then l else map_of sp o.
Proof. by destruct sp, sp'. Qed.

Lemma vlen_clear l : vlen (clear l) = vlen l.
Proof. apply vlen_fmap. Qed.

Lemma vget_clear l m : vget (clear l) m = (fun _ => None) <$> vget l m.
Proof. apply vget_fmap. Qed.

Lemma is_mapped_Some o : is_mapped o = true <-> exists p, o = Some (Some p).
Proof. destruct o as [ [p|]|]; simpl; naive_solver. Qed.

Section Placing.
Context (owner_of : Mfn -> option DomId) (span_of : Mfn -> option Span) (dom : DomId).
#[local] Abbreviation hits := (hits owner_of span_of dom).
#[local] Abbreviation authorized := (authorized owner_of span_of dom).

Lemma authorized_snoc edges e sp m :
  authorized (edges ++ [e]) sp m =
  if decide (hits sp m e) then Some (perm_of e) else authorized edges sp m.
Proof. unfold LeafMap.authorized. by rewrite foldl_app. Qed.

Lemma authorized_Some edges sp m p :
  authorized edges sp m = Some p -> exists e, e ∈ edges /\ hits sp m e /\ perm_of e = p.
Proof.
  induction edges as [|e edges IH] using rev_ind; [done|]. rewrite authorized_snoc.
  setoid_rewrite elem_of_snoc. case_decide as H.
  - intros [= <-]. exists e. by split; [right|].
  - intros (e' & ? & ?)%IH. exists e'. by split; [left|].
Qed.

Lemma authorized_hit edges sp m e :
  e ∈ edges -> hits sp m e -> exists p, authorized edges sp m = Some p.
Proof.
  induction edges as [|e' edges IH] using rev_ind; [by intros ?%elem_of_nil|].
  rewrite authorized_snoc, elem_of_snoc. intros He Hh. case_decide as H; [by eexists|].
  destruct He as [He| ->]; [by apply IH|done].
Qed.

(** What is known of the maps after [done] edges. *)
Record placed (o : Maps) (dones : list Edge) (o' : Maps) : Prop := mkPlaced {
  pl_len : forall sp, vlen (map_of sp o') = vlen (map_of sp o);
  pl_map : forall sp m, m < vlen (map_of sp o) -> vget (map_of sp o') m = Some (authorized dones sp m);
  pl_fit : forall sp m e, e ∈ dones -> hits sp m e -> m < vlen (map_of sp o);
  pl_span : forall p sl c w x, (p, sl, c, w, true, x) ∈ dones -> owner_of p = Some dom ->
    exists sp, span_of p = Some sp;
}.

(** How placing can fail. *)
Definition place_fails (o : Maps) (edges : list Edge) (e : MapError) : Prop :=
  match e with
  | UnsupportedSpan p => exists sl c w x, (p, sl, c, w, true, x) ∈ edges /\
      owner_of p = Some dom /\ span_of p = None
  | OutOfRange r => exists sp e, e ∈ edges /\ hits sp (o_mfn r) e /\
      capacity r = vlen (map_of sp o) /\ capacity r <= o_mfn r
  | SpanConflict _ => False
  end.

Lemma place_spec o dones e o1 :
  placed o dones o1 ->
  exists o2 r, place owner_of span_of dom e o1 = Done o2 r /\
    match r with
    | Ok _ => placed o (dones ++ [e]) o2
    | Err er => place_fails o [e] er /\ forall sp, vlen (map_of sp o2) = vlen (map_of sp o)
    end.
Proof.
  intros [Hlen Hmap Hfit Hspan]. destruct e as [ [ [ [ [p sl] c] w] lf] x]. unfold place.
  destruct (negb lf || negb (bool_decide (owner_of p = Some dom))) eqn:Eskip.
  { do 2 eexists. split; [reflexivity|].
    assert (Hno : ~ (lf = true /\ owner_of p = Some dom)).
    { intros [-> Ho]. by rewrite bool_decide_true in Eskip. }
    split; [done| | |].
    - intros sp m Hm. rewrite authorized_snoc, decide_False by (simpl; tauto). by apply Hmap.
    - intros sp m e [He| ->]%elem_of_snoc Hh; [by eapply Hfit|simpl in Hh; tauto].
    - intros p' sl' c' w' x' [He|[= -> -> -> -> <- ->] ]%elem_of_snoc Ho; [by eapply Hspan|tauto]. }
  apply orb_false_iff in Eskip as [ ->%negb_false_iff Ho%negb_false_iff%bool_decide_eq_true].
  unfold tbind, bind, lift, ret. destruct (span_of p) as [sp|] eqn:Hs; cbn [ok_or].
  2: { do 2 eexists. split; [reflexivity|]. split; [|done].
       exists sl, c, w, x. split_and!; [by apply list_elem_of_singleton|done|done]. }
  unfold get. destruct (N.leb_spec (vlen (map_of sp o1)) c) as [Hc|Hc].
  { do 2 eexists. split; [reflexivity|]. split; [|done].
    exists sp, (p, sl, c, w, true, x). cbn [o_mfn capacity]. rewrite <- Hlen.
    split_and!; [by apply list_elem_of_singleton|done|done|done]. }
  do 2 eexists. split; [reflexivity|].
  assert (Hhit : forall sp' m, hits sp' m (p, sl, c, w, true, x) <-> sp' = sp /\ c = m).
  { intros sp' m. simpl. rewrite Hs. naive_solver. }
  split.
  - intros sp'. rewrite map_of_set_map. case_decide; [subst; by rewrite vlen_vset|done].
  - intros sp' m Hm. rewrite map_of_set_map, authorized_snoc.
    destruct (decide (hits sp' m _)) as [Hh|Hh]; rewrite Hhit in Hh.
    + destruct Hh as [-> <-]. rewrite decide_True by done. by apply vget_vset_eq.
    + case_decide as Hsp; [subst sp'; rewrite vget_vset_ne by naive_solver|]; by apply Hmap.
  - intros sp' m e [He| ->]%elem_of_snoc Hh; [by eapply Hfit|]. apply Hhit in Hh as [-> <-].
    by rewrite <- Hlen.
  - intros p' sl' c' w' x' [He|[= -> -> -> -> ->] ]%elem_of_snoc Ho'; [by eapply Hspan|by eexists].
Qed.

Lemma place_fails_mono o es es' er :
  place_fails o es er -> (forall e, e ∈ es -> e ∈ es') -> place_fails o es' er.
Proof. destruct er; simpl; naive_solver. Qed.

Lemma place_all_spec o dones edges o1 :
  placed o dones o1 ->
  exists o2 r, place_all owner_of span_of dom edges o1 = Done o2 r /\
    match r with
    | Ok _ => placed o (dones ++ edges) o2
    | Err er => place_fails o edges er /\ forall sp, vlen (map_of sp o2) = vlen (map_of sp o)
    end.
Proof.
  revert dones o1. induction edges as [|e edges IH]; intros dones o1 HP.
  { do 2 eexists. split; [reflexivity|]. by rewrite app_nil_r. }
  destruct (place_spec o dones e o1 HP) as (o2 & r & E & Hr). cbn [place_all].
  unfold tbind, bind. rewrite E. destruct r as [ []|er].
  - destruct (IH (dones ++ [e]) o2 Hr) as (o3 & r & E' & Hr'). exists o3, r. split; [done|].
    destruct r as [ []|er]; [by rewrite <- app_assoc in Hr'|]. destruct Hr' as [Hf ?]. split; [|done].
    eapply place_fails_mono; [done|]. intros. by right.
  - do 2 eexists. split; [reflexivity|]. destruct Hr as [Hf ?]. split; [|done].
    eapply place_fails_mono; [done|]. intros e' ->%list_elem_of_singleton. by left.
Qed.

Lemma conflict_None o :
  conflict o = None ->
  forall m, ~ (is_mapped (vget (base o) m) = true /\ is_mapped (vget (sup o) m) = true).
Proof.
  unfold conflict. rewrite first_some_None. intros H m [Hb Hs].
  assert (Hm : m < N.min (vlen (base o)) (vlen (sup o))).
  { apply is_mapped_Some in Hb as [? Hb], Hs as [? Hs]. apply vget_Some_lt in Hb, Hs. lia. }
  specialize (H m (proj2 (elem_vrange _ _) Hm)). by rewrite Hb, Hs in H.
Qed.

Lemma conflict_Some o m :
  vlen (base o) <= u32_max + 1 -> conflict o = Some m ->
  is_mapped (vget (base o) m) = true /\ is_mapped (vget (sup o) m) = true.
Proof.
  unfold conflict. intros Hlen. assert (Hr : forall i, i ∈ vrange (N.min (vlen (base o)) (vlen (sup o))) ->
    i < vlen (base o)) by (intros i Hi%elem_vrange; lia). revert Hr.
  generalize (vrange (N.min (vlen (base o)) (vlen (sup o)))). induction l as [|i l IH]; [done|].
  intros Hr. simpl. destruct (_ && _) eqn:E.
  - intros [= <-]. rewrite as_u32_id by (specialize (Hr i (list_elem_of_here _ _)); lia).
    by apply andb_true_iff.
  - apply IH. intros j Hj. apply Hr. by right.
Qed.
End Placing.

(** The emission, on every branch. *)
Lemma leaf_map_spec owner_of span_of dom (edges : list Edge) (o : Maps) :
  vlen (base o) <= u32_max + 1 ->
  exists o' r, leaf_map_from_edges owner_of span_of dom edges o = Done o' r /\
    (forall sp, vlen (map_of sp o') = vlen (map_of sp o)) /\
    match r with
    | Ok _ =>
        (forall sp m, m < vlen (map_of sp o) ->
           vget (map_of sp o') m = Some (authorized owner_of span_of dom edges sp m)) /\
        (forall sp m e, e ∈ edges -> hits owner_of span_of dom sp m e -> m < vlen (map_of sp o)) /\
        (forall p sl c w x, (p, sl, c, w, true, x) ∈ edges -> owner_of p = Some dom ->
           exists sp, span_of p = Some sp) /\
        (forall m e e', e ∈ edges -> e' ∈ edges -> hits owner_of span_of dom Base m e ->
           ~ hits owner_of span_of dom Super m e')
    | Err (SpanConflict m) => exists e e', e ∈ edges /\ e' ∈ edges /\
        hits owner_of span_of dom Base m e /\ hits owner_of span_of dom Super m e'
    | Err er => place_fails owner_of span_of dom o edges er
    end.
Proof.
  intros Hu. unfold leaf_map_from_edges. unfold bind at 1, modify.
  set (o0 := mkMaps (clear (base o)) (clear (sup o))).
  assert (Hl0 : forall sp, vlen (map_of sp o0) = vlen (map_of sp o)).
  { intros []; cbn; apply vlen_clear. }
  assert (HP : placed owner_of span_of dom o [] o0).
  { split; [done| | |].
    - intros sp m Hm. destruct (vget_lt_Some _ _ Hm) as [x Hx].
      destruct sp; cbn in *; by rewrite vget_clear, Hx.
    - by intros ? ? ? ?%elem_of_nil.
    - by intros ? ? ? ? ? ?%elem_of_nil. }
  destruct (place_all_spec owner_of span_of dom o [] edges o0 HP) as (o1 & r & E & Hr).
  unfold tbind. unfold bind at 1. rewrite E. destruct r as [ []|er].
  2: { do 2 eexists. split; [reflexivity|]. destruct Hr as [Hf Hl]. split; [done|].
       by destruct er. }
  destruct Hr as [Hlen Hmap Hfit Hspan]. unfold bind, get.
  destruct (conflict o1) as [m|] eqn:Ec; do 2 eexists; (split; [reflexivity|]); (split; [done|]).
  - pose proof (Hlen Base) as Hb. cbn in Hb. apply conflict_Some in Ec; [|by rewrite Hb].
    destruct Ec as [ [pb Eb]%is_mapped_Some [ps Es]%is_mapped_Some].
    assert (Hb' : m < vlen (map_of Base o)) by (rewrite <- Hlen; by eapply vget_Some_lt).
    assert (Hs' : m < vlen (map_of Super o)) by (rewrite <- Hlen; by eapply vget_Some_lt).
    apply (Hmap Base) in Hb'. apply (Hmap Super) in Hs'. cbn [map_of] in Hb', Hs'.
    rewrite Eb in Hb'. rewrite Es in Hs'. injection Hb' as Hb'. injection Hs' as Hs'.
    symmetry in Hb', Hs'. apply authorized_Some in Hb' as (e & ? & ? & _), Hs' as (e' & ? & ? & _).
    by exists e, e'.
  - split_and!; [done|done|done|]. intros m e e' He He' Hh Hh'.
    apply (conflict_None _ Ec m). rewrite !is_mapped_Some.
    pose proof (Hmap Base m (Hfit _ _ _ He Hh)) as Hb. pose proof (Hmap Super m (Hfit _ _ _ He' Hh')) as Hs.
    destruct (authorized_hit owner_of span_of dom edges Base m e He Hh) as [pb Eb].
    destruct (authorized_hit owner_of span_of dom edges Super m e' He' Hh') as [ps Es].
    cbn [map_of app] in Hb, Hs. rewrite Eb in Hb. rewrite Es in Hs. split; by eexists.
Qed.

(** ** Properties *)

(** The emitted maps are the page-table relation, whatever the edges, the owners, the sizes
    and the stale content of the buffers. The emission never panics and succeeds exactly when
    every leaf of a table the domain owns has a supported size and fits, and no frame is
    mapped at both sizes; then every slot of both maps holds exactly the permission of the
    last such leaf that maps this frame at this size, and [None] when there is none. A failure
    names a leaf of the domain whose table has no supported size, one that does not fit, or a
    frame mapped at both sizes. *)
Theorem leaf_map_exact owner_of span_of dom (edges : list Edge) (o : Maps) :
  vlen (base o) <= u32_max + 1 ->
  exists o' r, leaf_map_from_edges owner_of span_of dom edges o = Done o' r /\
    (forall sp, vlen (map_of sp o') = vlen (map_of sp o)) /\
    (r = Ok tt <-> emissible owner_of span_of dom edges o) /\
    match r with
    | Ok _ => forall sp m, m < vlen (map_of sp o) ->
        vget (map_of sp o') m = Some (authorized owner_of span_of dom edges sp m)
    | Err (SpanConflict m) => exists e e', e ∈ edges /\ e' ∈ edges /\
        hits owner_of span_of dom Base m e /\ hits owner_of span_of dom Super m e'
    | Err er => place_fails owner_of span_of dom o edges er
    end.
Proof.
  intros Hu. destruct (leaf_map_spec owner_of span_of dom edges o Hu) as (o' & r & E & Hlen & Hr).
  exists o', r. destruct r as [ []|er]; split_and!; try done.
  - destruct Hr as (_ & H1 & H2 & H3). by split.
  - by destruct Hr.
  - split; [done|]. intros [H1 H2 H3]. exfalso. destruct er as [x|m|p].
    + destruct Hr as (sp & e & He & Hh & Hc & Hle). pose proof (H1 sp _ e He Hh). lia.
    + destruct Hr as (e & e' & He & He' & Hh & Hh'). by apply (H3 m e e').
    + destruct Hr as (sl & c & w & x & He & Ho & Hs). destruct (H2 _ _ _ _ _ He Ho) as [? ?]. congruence.
Qed.

(** Two leaves into frame 2 of a table of domain 1: the later one wins; the table of domain 0
    contributes nothing, and the stale content is gone. *)
Theorem leaf_map_exact_witness :
  let edges := [(7, 0, 2, true, true, false); (8, 0, 3, true, true, false); (7, 1, 2, false, true, true)] in
  let stale := mkMaps [Some Rw; Some Rw; None; Some Rx] [Some Rw] in
  exists o', leaf_map_from_edges (fun m => Some (8 - m)) (fun _ => Some Base) 1 edges stale = Done o' (Ok tt) /\
    vget (base o') 2 = Some (Some Rx) /\ vget (base o') 0 = Some None.
Proof.
  intros edges stale.
  destruct (leaf_map_exact (fun m => Some (8 - m)) (fun _ => Some Base) 1 edges stale) as (o' & r & E & _ & _ & Hr).
  - vm_compute. discriminate.
  - assert (Hok : r = Ok tt) by (vm_compute in E; injection E as _ <-; reflexivity).
    subst r. exists o'. split; [exact E|].
    split; [exact (Hr Base 2 eq_refl)|exact (Hr Base 0 eq_refl)].
Defined.
