(* ===== verification/Arm64.v ===== *)
(** * Second-stage tables — [hv-s2/src/arm64.rs], the tables

    The emission of a domain's translation tables from its leaf maps, the walk of those
    tables, the statement of what each address should reach, and the read-back check. *)

From Stdlib Require Import NArith Lia Btauto String.
From stdpp Require Import base numbers list option.
From S2P Require Import Bits.
From S2P Require Import Irouter.
From S2P Require Import LeafMap.
From S2P Require Import Prelude.
#[local] Open Scope N_scope.

(** ** Memory types and descriptors *)

Definition TABLE_ENTRIES : N := 512.

Inductive MemoryType : Type :=
| NormalWbIsh
| NormalNonCacheable
| DeviceNGnRnE.

Definition stage1_mair_byte (t : MemoryType) : N :=
  match t with NormalWbIsh => 255 | NormalNonCacheable => 68 | DeviceNGnRnE => 0 end.

Definition INNER_SHAREABLE : N := shl 64 3 8.
Definition NON_SHAREABLE : N := shl 64 0 8.
Definition shareability_bits (t : MemoryType) : N :=
  match t with
  | NormalWbIsh => INNER_SHAREABLE
  | NormalNonCacheable | DeviceNGnRnE => NON_SHAREABLE
  end.

Definition stage2_leaf_bits (t : MemoryType) : N :=
  let mem_attr := match t with NormalWbIsh => 15 | NormalNonCacheable => 5 | DeviceNGnRnE => 0 end in
  N.lor (shl 64 mem_attr 2) (shareability_bits t).

Definition TABLE : N := 3.
Definition PAGE : N := 3.
Definition BLOCK : N := 1.
Definition ADDR_4K : N := 281474976706560.
Definition ADDR_2M : N := 281474974613504.
Definition AF : N := shl 64 1 10.
Definition LEAF_COMMON : N := N.lor (stage2_leaf_bits NormalWbIsh) AF.
Definition S2AP_RW : N := shl 64 3 6.
Definition S2AP_RO : N := shl 64 1 6.
Definition XN : N := shl 64 1 54.
Definition BLOCK_ROX : N := N.lor (N.lor BLOCK LEAF_COMMON) S2AP_RO.
Definition PAGE_RW : N := N.lor (N.lor (N.lor PAGE LEAF_COMMON) S2AP_RW) XN.
Definition PAGE_RO : N := N.lor (N.lor (N.lor PAGE LEAF_COMMON) S2AP_RO) XN.
Definition PAGE_RX : N := N.lor (N.lor PAGE LEAF_COMMON) S2AP_RO.
Definition BLOCK_RW : N := N.lor (N.lor (N.lor BLOCK LEAF_COMMON) S2AP_RW) XN.
Definition BLOCK_RO : N := N.lor (N.lor (N.lor BLOCK LEAF_COMMON) S2AP_RO) XN.
Definition BLOCK_RW_X : N := N.lor (N.lor BLOCK LEAF_COMMON) S2AP_RW.
Definition BLOCK_RX : N := N.lor (N.lor BLOCK LEAF_COMMON) S2AP_RO.
Definition BLOCK_DEVICE : N :=
  N.lor (N.lor (N.lor (N.lor BLOCK (stage2_leaf_bits DeviceNGnRnE)) AF) S2AP_RW) XN.

Definition BLOCK_SIZE : N := 2097152.
Definition PAGE_SIZE : N := BLOCK_SIZE / TABLE_ENTRIES.
Definition L1_ENTRY_SIZE : N := BLOCK_SIZE * TABLE_ENTRIES.
Definition ADDRESSABLE : N := L1_ENTRY_SIZE * TABLE_ENTRIES.
Definition MAX_TABLE_PA : N := shl 64 1 48.

(** ** Layout and tables *)

Record Layout : Type := mkLayout {
  l1_pa : N;
  l2_code_pa : N;
  l2_data_pa : N;
  l3_data_pa : N;
  l2_sup_pa : N;
  l2_dev_pa : N;
  guest_image_pa : option N;
  data_ipa_base : N;
  data_pa_base : N;
  frame_size : N;
  sup_ipa_base : N;
  sup_pa_base : N;
  device_base : N;
  device_len : N;
  sup_wx_exempt : bool;
  sup_frames : N;
}.

Record Tables : Type := mkTables {
  l1 : list N;
  l2_code : list N;
  l2_data : list N;
  l3_data : list N;
  l2_sup : list N;
  l2_dev : list N;
}.

Definition l1_l : lens Tables (list N) :=
  Lens l1 (fun v t => mkTables v (l2_code t) (l2_data t) (l3_data t) (l2_sup t) (l2_dev t)).
Definition l2_code_l : lens Tables (list N) :=
  Lens l2_code (fun v t => mkTables (l1 t) v (l2_data t) (l3_data t) (l2_sup t) (l2_dev t)).
Definition l2_data_l : lens Tables (list N) :=
  Lens l2_data (fun v t => mkTables (l1 t) (l2_code t) v (l3_data t) (l2_sup t) (l2_dev t)).
Definition l3_data_l : lens Tables (list N) :=
  Lens l3_data (fun v t => mkTables (l1 t) (l2_code t) (l2_data t) v (l2_sup t) (l2_dev t)).
Definition l2_sup_l : lens Tables (list N) :=
  Lens l2_sup (fun v t => mkTables (l1 t) (l2_code t) (l2_data t) (l3_data t) v (l2_dev t)).
Definition l2_dev_l : lens Tables (list N) :=
  Lens l2_dev (fun v t => mkTables (l1 t) (l2_code t) (l2_data t) (l3_data t) (l2_sup t) v).

(** [((a >> sh) & 0x1ff) as usize]. *)
Definition slot_of (a sh : N) : N := N.land (N.shiftr a sh) 511.

Definition frame_addr {S} (base fsize m : N) : M S N :=
  let! o := umul m fsize in uadd u64_max base o.
Definition frame_pa {S} (lay : Layout) (m : N) : M S N :=
  frame_addr (data_pa_base lay) (frame_size lay) m.
Definition frame_ipa {S} (lay : Layout) (m : N) : M S N :=
  frame_addr (data_ipa_base lay) (frame_size lay) m.
Definition super_size {S} (lay : Layout) : M S N := umul TABLE_ENTRIES (frame_size lay).
Definition super_pa {S} (lay : Layout) (m : N) : M S N :=
  let! z := super_size lay in frame_addr (sup_pa_base lay) z m.
Definition super_ipa {S} (lay : Layout) (m : N) : M S N :=
  let! z := super_size lay in frame_addr (sup_ipa_base lay) z m.

Definition leaf_access_xn (p : Perm) (wx_exempt : bool) : Perm * bool :=
  match p with
  | Ro => (Ro, true)
  | Rw => (Rw, negb wx_exempt)
  | Rx => (Ro, false)
  end.

Definition page_leaf_attrs (p : Perm) : N :=
  match p with Rw => PAGE_RW | Ro => PAGE_RO | Rx => PAGE_RX end.

Definition block_leaf_attrs (p : Perm) (wx_exempt : bool) : N :=
  match p, wx_exempt with
  | Rw, false => BLOCK_RW
  | Rw, true => BLOCK_RW_X
  | Ro, _ => BLOCK_RO
  | Rx, _ => BLOCK_RX
  end.

(** ** Emission *)

Definition table_desc (pa : N) : N := N.lor (N.land pa ADDR_4K) TABLE.

(** [leaves.iter().enumerate().take(TABLE_ENTRIES)]. *)
Definition entries (leaves : list (option Perm)) : list (N * option Perm) :=
  take (N.to_nat TABLE_ENTRIES) (enumerate leaves).

Definition emit_image (lay : Layout) : M Tables unit :=
  match guest_image_pa lay with
  | Some image_pa =>
      index_set l1_l (slot_of image_pa 30) (table_desc (l2_code_pa lay)) ;!
      index_set l2_code_l (slot_of image_pa 21) (N.lor (N.land image_pa ADDR_2M) BLOCK_ROX)
  | None => ret tt
  end.

Definition emit_leaf (lay : Layout) (e : N * option Perm) : M Tables unit :=
  match e with
  | (m, Some perm) =>
      let! pa := frame_pa lay (as_u32 m) in
      index_set l3_data_l m (N.lor (N.land pa ADDR_4K) (page_leaf_attrs perm))
  | (_, None) => ret tt
  end.

Definition emit_super (lay : Layout) (e : N * option Perm) : M Tables unit :=
  match e with
  | (m, Some perm) =>
      let attrs := block_leaf_attrs perm (sup_wx_exempt lay) in
      let! ipa := super_ipa lay (as_u32 m) in
      let! pa := super_pa lay (as_u32 m) in
      index_set l2_sup_l (slot_of ipa 21) (N.lor (N.land pa ADDR_2M) attrs)
  | (_, None) => ret tt
  end.

(** The loop over the device window; [fuel] is one more than its blocks. *)
Fixpoint emit_device_from (lay : Layout) (fuel : nat) (a : N) : M Tables unit :=
  match fuel with
  | O => panic
  | S fuel =>
      let! fin := uadd u64_max (device_base lay) (device_len lay) in
      if a <? fin then
        index_set l2_dev_l (slot_of a 21) (N.lor (N.land a ADDR_2M) BLOCK_DEVICE) ;!
        let! a := uadd u64_max a BLOCK_SIZE in
        emit_device_from lay fuel a
      else ret tt
  end.

Definition emit_device (lay : Layout) : M Tables unit :=
  if 0 <? device_len lay then
    index_set l1_l (slot_of (device_base lay) 30) (table_desc (l2_dev_pa lay)) ;!
    emit_device_from lay (N.to_nat (device_len lay / BLOCK_SIZE + 2)) (device_base lay)
  else ret tt.

(** [*table = [0; TABLE_ENTRIES]]. *)
Definition clear_table (l : lens Tables (list N)) : M Tables unit :=
  modify (lset l (vrepeat TABLE_ENTRIES 0)).

Definition encode (leaves supers : list (option Perm)) (lay : Layout) : M Tables unit :=
  emit_image lay ;!
  index_set l1_l (slot_of (data_ipa_base lay) 30) (table_desc (l2_data_pa lay)) ;!
  index_set l2_data_l (slot_of (data_ipa_base lay) 21) (table_desc (l3_data_pa lay)) ;!
  clear_table l3_data_l ;!
  for_each (entries leaves) (emit_leaf lay) ;!
  index_set l1_l (slot_of (sup_ipa_base lay) 30) (table_desc (l2_sup_pa lay)) ;!
  clear_table l2_sup_l ;!
  for_each (entries supers) (emit_super lay) ;!
  clear_table l2_dev_l ;!
  emit_device lay.

(** ** Decoding and walking *)

Record Decoded : Type := mkDecoded {
  pa : N;
  perm : Perm;
  xn : bool;
}.
#[global] Instance Decoded_eq_dec : EqDecision Decoded.
Proof. solve_decision. Defined.

Definition decode_perm (d : N) : option Perm :=
  let f := N.land (N.shiftr d 6) 3 in
  if f =? 3 then Some Rw else if f =? 1 then Some Ro else None.

Definition decode_page (d : N) : option Decoded :=
  if negb (N.land d 3 =? PAGE) then None else
  match decode_perm d with
  | Some p => Some (mkDecoded (N.land d ADDR_4K) p (negb (N.land d XN =? 0)))
  | None => None
  end.

Definition decode_block (d : N) : option Decoded :=
  if negb (N.land d 3 =? BLOCK) then None else
  match decode_perm d with
  | Some p => Some (mkDecoded (N.land d ADDR_2M) p (negb (N.land d XN =? 0)))
  | None => None
  end.

Definition decode_table (d : N) : option N :=
  if negb (N.land d 3 =? TABLE) then None else Some (N.land d ADDR_4K).

Record Reach : Type := mkReach {
  r_pa : N;
  r_perm : Perm;
  r_xn : bool;
}.
#[global] Instance Reach_eq_dec : EqDecision Reach.
Proof. solve_decision. Defined.

Definition reach_writable (r : Reach) : bool := LeafMap.writable (r_perm r).

Definition walk (root ipa : N) (fetch : N -> N -> N) : option Reach :=
  if ADDRESSABLE <=? ipa then None else
  match decode_table (fetch root (slot_of ipa 30)) with
  | None => None
  | Some l2_pa =>
      let l2_desc := fetch l2_pa (slot_of ipa 21) in
      match decode_block l2_desc with
      | Some block =>
          Some (mkReach (N.lor (pa block) (N.land ipa (BLOCK_SIZE - 1))) (perm block) (xn block))
      | None =>
          match decode_table l2_desc with
          | None => None
          | Some l3_pa =>
              match decode_page (fetch l3_pa (slot_of ipa 12)) with
              | None => None
              | Some page =>
                  Some (mkReach (N.lor (pa page) (N.land ipa (PAGE_SIZE - 1))) (perm page) (xn page))
              end
          end
      end
  end.

(** What the layout says an address must reach. *)
Definition window_reach {S} (lay : Layout) (leaves supers : list (option Perm)) (ipa : N) :
    M S (option Reach) :=
  let in_image :=
    match guest_image_pa lay with
    | Some image_pa => (image_pa <=? ipa) && (ipa - image_pa <? BLOCK_SIZE)
    | None => false
    end in
  if in_image then ret (Some (mkReach ipa Ro false)) else
  let! data_span := umul TABLE_ENTRIES (frame_size lay) in
  if (data_ipa_base lay <=? ipa) && (ipa - data_ipa_base lay <? data_span) then
    let off := ipa - data_ipa_base lay in
    let m := as_u32 (off / frame_size lay) in
    match vget leaves m with
    | Some (Some p) =>
        let '(access, x) := leaf_access_xn p false in
        let! b := frame_pa lay m in
        let! a := uadd u64_max b (off mod frame_size lay) in
        ret (Some (mkReach a access x))
    | _ => ret None
    end
  else
  let! sup_size := super_size lay in
  let! in_sup :=
    if sup_ipa_base lay <=? ipa then
      let! span := umul (sup_frames lay) sup_size in ret (ipa - sup_ipa_base lay <? span)
    else ret false in
  if in_sup : bool then
    let off := ipa - sup_ipa_base lay in
    let m := as_u32 (off / sup_size) in
    match vget supers m with
    | Some (Some p) =>
        let '(access, x) := leaf_access_xn p (sup_wx_exempt lay) in
        let! b := super_pa lay m in
        let! a := uadd u64_max b (off mod sup_size) in
        ret (Some (mkReach a access x))
    | _ => ret None
    end
  else if (0 <? device_len lay) && (device_base lay <=? ipa)
          && (ipa - device_base lay <? device_len lay) then ret (Some (mkReach ipa Rw true))
  else ret None.

(** ** Validation *)

Inductive EncodingViolation : Type :=
| RegionsCollide (l1_index : N)
| WindowsOverlap (space : string)
| DeviceWindowUnaligned (base len : N)
| WindowUnaligned (window : string) (base align : N)
| RegionCrossesL1 (l1_index span : N)
| TableUnnameable (table : string) (pa : N)
| GranuleNotEmitted (frame_size : N)
| BadDeviceBlock (index desc : N)
| BadTableEntry (table : string) (index : N) (found : option N) (expected : N)
| BadImageBlock (found : option Decoded) (expected_pa : N)
| BadLeaf (mfn : N) (found : option Decoded) (expected : option (N * Perm))
| SpuriousDescriptor (table : string) (index desc : N).

Definition code_l1 (lay : Layout) : option N := (fun p => slot_of p 30) <$> guest_image_pa lay.
Definition code_l2 (lay : Layout) : option N := (fun p => slot_of p 21) <$> guest_image_pa lay.
Definition data_l1 (lay : Layout) : N := slot_of (data_ipa_base lay) 30.
Definition data_l2 (lay : Layout) : N := slot_of (data_ipa_base lay) 21.
Definition sup_l1 (lay : Layout) : N := slot_of (sup_ipa_base lay) 30.
Definition dev_l1 (lay : Layout) : option N :=
  if 0 <? device_len lay then Some (slot_of (device_base lay) 30) else None.

Definition aligned (window : string) (base align : N) : result EncodingViolation unit :=
  if base mod align =? 0 then Ok tt else Err (WindowUnaligned window base align).

Definition nameable (table : string) (p : N) : result EncodingViolation unit :=
  if (p <? MAX_TABLE_PA) && (p mod PAGE_SIZE =? 0) then Ok tt else Err (TableUnnameable table p).

(** [(L1 index, IPA base, PA base, span)]. *)
Definition Region : Type := N * N * N * N.

Definition regions {S} (lay : Layout) : M S (list (option Region)) :=
  let! data_span := umul TABLE_ENTRIES (frame_size lay) in
  let! z := super_size lay in
  let! sup_span := umul (sup_frames lay) z in
  ret [(fun p => (slot_of p 30, p, p, BLOCK_SIZE)) <$> guest_image_pa lay;
       Some (data_l1 lay, data_ipa_base lay, data_pa_base lay, data_span);
       Some (sup_l1 lay, sup_ipa_base lay, sup_pa_base lay, sup_span);
       (fun i => (i, device_base lay, device_base lay, device_len lay)) <$> dev_l1 lay].

Definition fits_l1 {S} (r : Region) : M S (result EncodingViolation unit) :=
  let '(l1_index, ipa, _, span) := r in
  let! bad :=
    if ADDRESSABLE <=? ipa then ret true
    else if ADDRESSABLE - ipa <? span then ret true
    else let! e := uadd u64_max (ipa mod L1_ENTRY_SIZE) span in ret (L1_ENTRY_SIZE <? e) in
  if bad : bool then err (RegionCrossesL1 l1_index span) else ok tt.

Definition overlaps {S} (a alen b blen : N) : M S bool :=
  let! e := uadd u64_max b blen in
  if a <? e then let! e := uadd u64_max a alen in ret (b <? e) else ret false.

Definition apart {S} (ra rb : Region) : M S (result EncodingViolation unit) :=
  let '(l1a, ipa_a, pa_a, span_a) := ra in
  let '(l1b, ipa_b, pa_b, span_b) := rb in
  if l1a =? l1b then err (RegionsCollide l1a) else
  let! o := overlaps ipa_a span_a ipa_b span_b in
  if o : bool then err (WindowsOverlap "ipa") else
  let! o := overlaps pa_a span_a pa_b span_b in
  if o : bool then err (WindowsOverlap "pa") else ok tt.

(** [for i in 0..n { for j in i + 1..n { .. } }] over the regions present. *)
Fixpoint pairwise {S} (rs : list (option Region)) : M S (result EncodingViolation unit) :=
  match rs with
  | [] => ok tt
  | ra :: rs =>
      for_ok rs (fun rb => match ra, rb with Some a, Some b => apart a b | _, _ => ok tt end) ;?
      pairwise rs
  end.

Definition validate {S} (lay : Layout) : M S (result EncodingViolation unit) :=
  if negb (device_len lay mod BLOCK_SIZE =? 0)
  then err (DeviceWindowUnaligned (device_base lay) (device_len lay)) else
  if negb (frame_size lay =? PAGE_SIZE) then err (GranuleNotEmitted (frame_size lay)) else
  lift (aligned "data ipa" (data_ipa_base lay) BLOCK_SIZE) ;?
  lift (aligned "data pa" (data_pa_base lay) PAGE_SIZE) ;?
  lift (aligned "super ipa" (sup_ipa_base lay) BLOCK_SIZE) ;?
  lift (aligned "super pa" (sup_pa_base lay) BLOCK_SIZE) ;?
  lift (match guest_image_pa lay with
        | Some p => aligned "guest image" p BLOCK_SIZE
        | None => Ok tt
        end) ;?
  lift (if 0 <? device_len lay then aligned "device" (device_base lay) BLOCK_SIZE else Ok tt) ;?
  lift (nameable "l1" (l1_pa lay)) ;?
  lift (nameable "l2_code" (l2_code_pa lay)) ;?
  lift (nameable "l2_data" (l2_data_pa lay)) ;?
  lift (nameable "l3_data" (l3_data_pa lay)) ;?
  lift (nameable "l2_sup" (l2_sup_pa lay)) ;?
  lift (nameable "l2_dev" (l2_dev_pa lay)) ;?
  let! rs := regions lay in
  for_ok (omap id rs) fits_l1 ;?
  pairwise rs.

(** ** Reading the tables back *)

Record DecodedDevice : Type := mkDecodedDevice {
  dd_pa : N;
  dd_xn : bool;
}.
#[global] Instance DecodedDevice_eq_dec : EqDecision DecodedDevice.
Proof. solve_decision. Defined.

Definition decode_device_block (d : N) : option DecodedDevice :=
  if negb (N.land d 3 =? BLOCK) then None else
  if negb (N.land (N.shiftr d 2) 15 =? 0) then None else
  Some (mkDecodedDevice (N.land d ADDR_2M) (negb (N.land d XN =? 0))).

Definition dead_except {S} (table : list N) (live : list N) (nm : string) :
    M S (result EncodingViolation unit) :=
  for_ok (enumerate table) (fun '(i, d) =>
    if negb (d =? 0) && negb (existsb (N.eqb i) live) then err (SpuriousDescriptor nm i d) else ok tt).

(** An [L1] entry must chain to its region's table. *)
Definition check_l1 (t : Tables) (e : N * N) : M Layout (result EncodingViolation unit) :=
  let '(idx, expected) := e in
  let! d := index (l1 t) idx in
  if decide (decode_table d = Some expected) then ok tt
  else err (BadTableEntry "l1" idx (decode_table d) expected).

Definition l1_expected (lay : Layout) : list (N * N) :=
  omap id
    [Some (data_l1 lay, N.land (l2_data_pa lay) ADDR_4K);
     Some (sup_l1 lay, N.land (l2_sup_pa lay) ADDR_4K);
     (fun i => (i, N.land (l2_code_pa lay) ADDR_4K)) <$> code_l1 lay;
     (fun i => (i, N.land (l2_dev_pa lay) ADDR_4K)) <$> dev_l1 lay].

Definition check_image (lay : Layout) (t : Tables) : M Layout (result EncodingViolation unit) :=
  match guest_image_pa lay, code_l2 lay with
  | Some image_pa, Some c =>
      let want := mkDecoded (N.land image_pa ADDR_2M) Ro false in
      let! d := index (l2_code t) c in
      if decide (decode_block d = Some want) then dead_except (l2_code t) [c] "l2_code"
      else err (BadImageBlock (decode_block d) (pa want))
  | _, _ => dead_except (l2_code t) [] "l2_code"
  end.

(** The mismatch of a leaf slot: [want] against what the word decodes to. *)
Definition leaf_mismatch (table : string) (slot m d : N) (want found : option Decoded) :
    result EncodingViolation unit :=
  if decide (found = want) then Ok tt
  else if bool_decide (want = None) && negb (d =? 0) then Err (SpuriousDescriptor table slot d)
  else Err (BadLeaf m found ((fun w => (pa w, perm w)) <$> want)).

Definition wanted (leaves : list (option Perm)) (m : N) : option Perm :=
  match vget leaves m with Some (Some p) => Some p | _ => None end.

Definition check_l3 (leaves : list (option Perm)) (lay : Layout) (t : Tables) (m : N) :
    M Layout (result EncodingViolation unit) :=
  let! want :=
    match wanted leaves m with
    | Some p =>
        let '(access, x) := leaf_access_xn p false in
        let! a := frame_pa lay (as_u32 m) in
        ret (Some (mkDecoded (N.land a ADDR_4K) access x))
    | None => ret None
    end in
  let! d := index (l3_data t) m in
  lift (leaf_mismatch "l3_data" m (as_u32 m) d want (decode_page d)).

Definition check_sup (supers : list (option Perm)) (lay : Layout) (t : Tables) (m : N) :
    M Layout (result EncodingViolation unit) :=
  let! want :=
    match wanted supers m with
    | Some p =>
        let '(access, x) := leaf_access_xn p (sup_wx_exempt lay) in
        let! a := super_pa lay (as_u32 m) in
        ret (Some (mkDecoded (N.land a ADDR_2M) access x))
    | None => ret None
    end in
  let! ipa := super_ipa lay (as_u32 m) in
  let! d := index (l2_sup t) (slot_of ipa 21) in
  lift (leaf_mismatch "l2_sup" (slot_of ipa 21) (as_u32 m) d want (decode_block d)).

Definition check_dev (lay : Layout) (t : Tables) (idx : N) : M Layout (result EncodingViolation unit) :=
  let! want :=
    if 0 <? device_len lay then
      let l1_base := N.land (device_base lay) (bnot 64 (BLOCK_SIZE * TABLE_ENTRIES - 1)) in
      let! o := umul idx BLOCK_SIZE in
      let! a := uadd u64_max l1_base o in
      let! inside :=
        if device_base lay <=? a then
          let! fin := uadd u64_max (device_base lay) (device_len lay) in ret (a <? fin)
        else ret false in
      ret (if inside : bool then Some (mkDecodedDevice (N.land a ADDR_2M) true) else None)
    else ret None in
  let! d := index (l2_dev t) idx in
  let found := decode_device_block d in
  if decide (found = want) then ok tt
  else if bool_decide (want = None) && negb (d =? 0) then err (SpuriousDescriptor "l2_dev" idx d)
  else err (BadDeviceBlock idx d).

Definition verify_encoding (leaves supers : list (option Perm)) (lay : Layout) (t : Tables) :
    M Layout (result EncodingViolation unit) :=
  validate lay ;?
  for_ok (l1_expected lay) (check_l1 t) ;?
  dead_except (l1 t) (fst <$> l1_expected lay) "l1" ;?
  check_image lay t ;?
  let want_l3 := N.land (l3_data_pa lay) ADDR_4K in
  let! d := index (l2_data t) (data_l2 lay) in
  if negb (bool_decide (decode_table d = Some want_l3))
  then err (BadTableEntry "l2_data" (data_l2 lay) (decode_table d) want_l3) else
  dead_except (l2_data t) [data_l2 lay] "l2_data" ;?
  for_ok (vrange TABLE_ENTRIES) (check_l3 leaves lay t) ;?
  for_ok (vrange TABLE_ENTRIES) (check_sup supers lay t) ;?
  for_ok (vrange TABLE_ENTRIES) (check_dev lay t).
