(* ===== verification/S2Check.v ===== *)
(** * Second-stage maps against the hypervisor — [hv-s2/src/check.rs]

    The predicates that say an emitted leaf map is right, the check of a whole hypervisor
    state, and the theorem that no reachable state fails it. *)

From Stdlib Require Import NArith Lia.
From stdpp Require Import base numbers list option.
From S2P Require Import Arm64.
From S2P Require Import Grant.
From S2P Require Import P2m.
From S2P Require Import Hypervisor.
From S2P Require Import HvInvariant.
From S2P Require Import HvSafety.
From S2P Require Import LeafMap.
From S2P Require Import Prelude.
#[local] Open Scope N_scope.

(** ** Data *)

Inductive Violation : Type :=
| UnauthorizedMapping (dom : DomId) (mfn : Mfn) (owner : option DomId) (perm : Perm)
| WriteEscalation (dom : DomId) (mfn : Mfn) (owner : DomId)
| Inexact (dom : DomId) (mfn : Mfn) (mapped expected : option Perm)
| Overflow (dom : DomId) (mfn : Mfn).

Inductive OutOfDomain : Type :=
| OodSpanConflict (dom : DomId) (mfn : Mfn)
| OodUnsupportedSpan (dom : DomId) (parent : Mfn).

Inductive Verdict : Type :=
| Violated (v : Violation)
| OutOf (o : OutOfDomain).

Definition finding (v : Verdict) : option Violation :=
  match v with Violated v => Some v | OutOf _ => None end.

(** ** Operations *)

(** A loop that returns at the first error its body produces. *)
Definition first_err {A E} (f : A -> option E) (l : list A) : result E unit :=
  match first_some f l with Some e => Err e | None => Ok tt end.

Definition check_authorized_with (dom : DomId) (leaves : list (option Perm))
    (owner_of : Mfn -> option DomId) (authorizes : DomId -> DomId -> Mfn -> bool -> bool) :
    result Violation unit :=
  first_err (fun '(m, leaf) =>
    match leaf with
    | None => None
    | Some perm =>
        let mfn := as_u32 m in
        let owner := owner_of mfn in
        if decide (owner = Some dom) then None else
        match owner with
        | None => Some (UnauthorizedMapping dom mfn owner perm)
        | Some grantor =>
            let writable := bool_decide (perm = Rw) in
            if authorizes grantor dom mfn writable then None
            else if writable && authorizes grantor dom mfn false
                 then Some (WriteEscalation dom mfn grantor)
                 else Some (UnauthorizedMapping dom mfn owner perm)
        end
    end) (enumerate leaves).

Definition check_authorized (hv : Hypervisor) (dom : DomId) (leaves : list (option Perm)) :
    result Violation unit :=
  check_authorized_with dom leaves (P2m.owner_of (p2m hv)) (Grant.authorizes (grant hv)).

(** The model's verdict for a frame: the last leaf edge of this size into it. *)
Definition expected_leaf (hv : Hypervisor) (dom : DomId) (span : Span) (mfn : Mfn) : option Perm :=
  foldl (fun acc '(parent, _, child, w, leaf, x) =>
    if leaf && (child =? mfn) && bool_decide (P2m.owner_of (p2m hv) parent = Some dom)
       && bool_decide (span_of_table (p2m hv) parent = Some span)
    then Some (if w : bool then Rw else if x : bool then Rx else Ro)
    else acc) None (P2m.link_edges (p2m hv)).

Definition check_exact (hv : Hypervisor) (dom : DomId) (leaves : list (option Perm)) (span : Span) :
    result Violation unit :=
  first_err (fun '(m, mapped) =>
    let mfn := as_u32 m in
    let expected := expected_leaf hv dom span mfn in
    if decide (mapped = expected) then None else Some (Inexact dom mfn mapped expected))
    (enumerate leaves).

Definition map_verdict (dom : DomId) (e : MapError) : Verdict :=
  match e with
  | OutOfRange r => Violated (Overflow dom (o_mfn r))
  | SpanConflict mfn => OutOf (OodSpanConflict dom mfn)
  | UnsupportedSpan parent => OutOf (OodUnsupportedSpan dom parent)
  end.

(** One domain: emit, then both checks on both maps. *)
Definition check_dom (hv : Hypervisor) (dom : DomId) : M Maps (result Verdict unit) :=
  let! e := leaf_map (p2m hv) dom in
  lift (map_err (map_verdict dom) e) ;?
  let! o := get in
  lift (map_err Violated (check_authorized hv dom (base o))) ;?
  lift (map_err Violated (check_exact hv dom (base o) Base)) ;?
  lift (map_err Violated (check_authorized hv dom (sup o))) ;?
  lift (map_err Violated (check_exact hv dom (sup o) Super)).

Fixpoint check_doms (hv : Hypervisor) (doms : list DomId) : M Maps (result Verdict unit) :=
  match doms with
  | [] => ok tt
  | d :: doms => check_dom hv d ;? check_doms hv doms
  end.

(** The buffers are allocated empty and cut to the model's frames. *)
Definition check_all (hv : Hypervisor) : outcome Maps (result Verdict unit) :=
  let frames := N.min (P2m.frame_count (p2m hv)) TABLE_ENTRIES in
  check_doms hv (as_u16 <$> vrange (domain_count hv))
    (mkMaps (vrepeat frames None) (vrepeat frames None)).

(** ** Specification *)

(** A map lets a domain reach a frame only if the domain owns the frame or its owner grants
    it, for writing if the leaf is writable. *)
Definition leaf_ok (s : Hypervisor) (d : DomId) (m : Mfn) (p : Perm) : Prop :=
  access s d (LeafMap.writable p) m /\
  exists o, P2m.owner_of (p2m s) m = Some o /\
    (o = d \/ exists g ro, Grant.authority (grant s) o g = Some (d, m, ro) /\ (p = Rw -> ro = false)).

(** ** Lemmas *)

Lemma first_err_Ok {A E} (f : A -> option E) l :
  (forall x, x ∈ l -> f x = None) -> first_err f l = Ok tt.
Proof. intros H. unfold first_err. by rewrite (proj2 (first_some_None f l) H). Qed.

Lemma elem_link_edges s e :
  e ∈ P2m.link_edges s <-> exists l, l ∈ P2m.links s /\ P2m.active l = true /\
    e = (P2m.parent l, P2m.slot l, P2m.child l, P2m.writable l, P2m.leaf l, P2m.execute l).
Proof.
  unfold P2m.link_edges. rewrite list_elem_of_fmap. setoid_rewrite list_elem_of_In.
  setoid_rewrite filter_In. naive_solver.
Qed.

Lemma expected_authorized s d sp m :
  expected_leaf s d sp m =
  authorized (P2m.owner_of (p2m s)) (span_of_table (p2m s)) d (P2m.link_edges (p2m s)) sp m.
Proof.
  unfold expected_leaf, authorized. generalize (P2m.link_edges (p2m s)). intros es.
  induction es as [|e es IH] using rev_ind; [done|]. rewrite !foldl_app, <- IH. simpl.
  destruct e as [ [ [ [ [p sl] c] w] lf] x]. unfold hits, perm_of, edge_perm.
  case_decide as H.
  - destruct H as (-> & Ho & Hs & ->). by rewrite N.eqb_refl, !bool_decide_true.
  - destruct (_ && _) eqn:E; [|done]. destruct H.
    apply andb_true_iff in E as [ [ [-> Hc%N.eqb_eq]%andb_true_iff Ho%bool_decide_eq_true]%andb_true_iff
      Hs%bool_decide_eq_true].
    by split_and!.
Qed.

(** A leaf that hits is an entry, and the access it gives is authorized. *)
Lemma hit_link s d sp m e :
  e ∈ P2m.link_edges (p2m s) -> hits (P2m.owner_of (p2m s)) (span_of_table (p2m s)) d sp m e ->
  exists l, l ∈ P2m.links (p2m s) /\ P2m.active l = true /\ P2m.leaf l = true /\
    P2m.owner_of (p2m s) (P2m.parent l) = Some d /\ P2m.child l = m /\
    perm_of e = edge_perm (P2m.writable l) (P2m.execute l).
Proof.
  intros (l & Hl & Ha & ->)%elem_link_edges (Hlf & Ho & _ & Hc). by exists l.
Qed.

Lemma writable_edge_perm w x : LeafMap.writable (edge_perm w x) = w.
Proof. by destruct w, x. Qed.

Lemma hit_access s d sp m e :
  e ∈ P2m.link_edges (p2m s) -> hits (P2m.owner_of (p2m s)) (span_of_table (p2m s)) d sp m e ->
  access s d (LeafMap.writable (perm_of e)) m.
Proof.
  intros He Hh. destruct (hit_link _ _ _ _ _ He Hh) as (l & Hl & Ha & Hlf & Ho & Hc & ->).
  rewrite writable_edge_perm. by apply (access_entry s d _ m l).
Qed.

Lemma hit_frame s d sp m e :
  HInv s -> e ∈ P2m.link_edges (p2m s) ->
  hits (P2m.owner_of (p2m s)) (span_of_table (p2m s)) d sp m e -> m < P2m.frame_count (p2m s).
Proof.
  intros HI He Hh. destruct (access_owned s d _ m HI (hit_access _ _ _ _ _ He Hh)) as [o Ho].
  unfold P2m.owner_of in Ho. destruct (P2m.allocated (p2m s) m) eqn:E; [|done].
  by eapply P2m.allocated_lt.
Qed.

Lemma leaf_authorized s d sp m p :
  HInv s ->
  authorized (P2m.owner_of (p2m s)) (span_of_table (p2m s)) d (P2m.link_edges (p2m s)) sp m = Some p ->
  leaf_ok s d m p /\
  forall o, P2m.owner_of (p2m s) m = Some o -> o <> d ->
    Grant.authorizes (grant s) o d m (bool_decide (p = Rw)) = true.
Proof.
  intros HI (e & He & Hh & <-)%authorized_Some. pose proof (hit_access _ _ _ _ _ He Hh) as Hacc.
  assert (Hw : LeafMap.writable (perm_of e) = bool_decide (perm_of e = Rw)).
  { by destruct (perm_of e). }
  assert (Hau : forall o, P2m.owner_of (p2m s) m = Some o -> o <> d ->
    Grant.authorizes (grant s) o d m (bool_decide (perm_of e = Rw)) = true).
  { intros o Ho Hne. rewrite <- Hw. apply Grant.authorizes_spec.
    by apply (access_granted s d _ m o HI Hacc). }
  split; [|done]. split; [done|]. destruct (access_owned s d _ m HI Hacc) as [o Ho].
  exists o. split; [done|]. destruct (decide (o = d)) as [|Hne]; [by left|right].
  destruct (access_granted s d _ m o HI Hacc Ho Hne) as (g & ro & Hg & Hro).
  exists g, ro. split; [done|]. intros Hrw. apply Hro. by rewrite Hrw.
Qed.

(** No domain's map makes executable what one domain's map makes writable. *)
Lemma leaf_write_xor_execute s d sp m d2 sp2 :
  HInv s ->
  authorized (P2m.owner_of (p2m s)) (span_of_table (p2m s)) d (P2m.link_edges (p2m s)) sp m = Some Rw ->
  authorized (P2m.owner_of (p2m s)) (span_of_table (p2m s)) d2 (P2m.link_edges (p2m s)) sp2 m <> Some Rx.
Proof.
  intros HI Hw Hx. destruct (leaf_authorized s d sp m Rw HI Hw) as [ [Hacc _] _].
  apply authorized_Some in Hx as (e & He & Hh & Hp).
  destruct (hit_link _ _ _ _ _ He Hh) as (l & Hl & Hla & Hlf & _ & Hc & Hpe). rewrite Hp in Hpe.
  apply (access_uses s d m HI) in Hacc. pose proof (mem_p2m _ _ (h_memory s HI)) as HP.
  assert (Hx : 0 < P2m.counted (p2m s) P2m.KExec m).
  { apply (P2m.used_counted _ _ _ _ HP).
    replace P2m.KExec with (P2m.link_kind l); [by apply P2m.use_entry|].
    unfold P2m.link_kind. rewrite Hlf. by destruct (P2m.writable l), (P2m.execute l). }
  unfold P2m.counted in *. destruct (P2m.allocated (p2m s) m) as [a|] eqn:Ha; [|lia].
  pose proof (P2m.g_wx _ _ HP m a Ha Hacc) as Hz. simpl in Hx. lia.
Qed.

(** The maps the emitter produced pass both checks. *)
Definition emitted (s : Hypervisor) (d : DomId) (sp : Span) (leaves : list (option Perm)) : Prop :=
  vlen leaves <= u32_max + 1 /\
  forall m x, vget leaves m = Some x ->
    x = authorized (P2m.owner_of (p2m s)) (span_of_table (p2m s)) d (P2m.link_edges (p2m s)) sp m.

Lemma emitted_checks s d sp leaves :
  HInv s -> emitted s d sp leaves ->
  check_authorized s d leaves = Ok tt /\ check_exact s d leaves sp = Ok tt.
Proof.
  intros HI [Hlen Hem]. split; apply first_err_Ok; intros [m x] Hx%elem_enumerate;
    pose proof (vget_Some_lt _ _ _ Hx); rewrite as_u32_id by lia; apply Hem in Hx as ->.
  - destruct (authorized _ _ _ _ _ _) as [p|] eqn:E; [|done].
    destruct (leaf_authorized s d sp m p HI E) as [ [_ (o & Ho & _)] Hau].
    cbn zeta. rewrite Ho. destruct (decide (Some o = Some d)) as [Hd|Hd]; [done|].
    rewrite (Hau o Ho); [done|congruence].
  - cbn zeta. rewrite expected_authorized. by rewrite decide_True.
Qed.

Lemma leaf_map_emitted s d o :
  vlen (base o) <= u32_max + 1 -> vlen (sup o) <= u32_max + 1 ->
  exists o' r, leaf_map (p2m s) d o = Done o' r /\
    (forall sp, vlen (map_of sp o') = vlen (map_of sp o)) /\
    match r with
    | Ok _ => forall sp, emitted s d sp (map_of sp o')
    | Err (OutOfRange x) => exists sp e, e ∈ P2m.link_edges (p2m s) /\
        hits (P2m.owner_of (p2m s)) (span_of_table (p2m s)) d sp (o_mfn x) e /\
        vlen (map_of sp o) <= o_mfn x
    | Err _ => True
    end.
Proof.
  intros Hb Hs. destruct (leaf_map_spec (P2m.owner_of (p2m s)) (span_of_table (p2m s)) d
    (P2m.link_edges (p2m s)) o Hb) as (o' & r & E & Hlen & Hr).
  exists o', r. split_and!; [done|done|]. destruct r as [ []|[x|m|p] ]; try done.
  - destruct Hr as (Hm & _). intros sp. split; [rewrite Hlen; by destruct sp|].
    intros m x Hx. pose proof (vget_Some_lt _ _ _ Hx) as Hlt. rewrite Hlen in Hlt.
    rewrite (Hm sp m Hlt) in Hx. by injection Hx.
  - destruct Hr as (sp & e & He & Hh & Hc & Hle). exists sp, e. split_and!; [done|done|lia].
Qed.

Lemma emitted_leaf_ok s d o o' sp m p :
  HInv s -> vlen (base o) <= u32_max + 1 -> vlen (sup o) <= u32_max + 1 ->
  leaf_map (p2m s) d o = Done o' (Ok tt) -> vget (map_of sp o') m = Some (Some p) ->
  authorized (P2m.owner_of (p2m s)) (span_of_table (p2m s)) d (P2m.link_edges (p2m s)) sp m = Some p /\
  leaf_ok s d m p.
Proof.
  intros HI Hb Hs E Hm. destruct (leaf_map_emitted s d o Hb Hs) as (o1 & r & E1 & _ & Hr).
  rewrite E in E1. injection E1 as <- <-. apply Hr in Hm. symmetry in Hm. split; [done|].
  by apply (leaf_authorized s d sp m p).
Qed.

Lemma check_dom_ok s d o :
  HInv s -> P2m.frame_count (p2m s) <= TABLE_ENTRIES ->
  (forall sp, vlen (map_of sp o) = P2m.frame_count (p2m s)) ->
  exists o' r, check_dom s d o = Done o' r /\
    (forall sp, vlen (map_of sp o') = P2m.frame_count (p2m s)) /\
    (forall e, r = Err e -> finding e = None).
Proof.
  intros HI Hf Hlen. pose proof (Hlen Base) as Hb. pose proof (Hlen Super) as Hs. cbn in Hb, Hs.
  destruct (leaf_map_emitted s d o) as (o' & r & E & Hl & Hr);
    [unfold TABLE_ENTRIES, u32_max in *; lia..|].
  unfold check_dom, bind, tbind. unfold lift, ret. rewrite E. destruct r as [ []|er].
  - destruct (emitted_checks s d Base (base o') HI (Hr Base)) as [Hb1 Hb2].
    destruct (emitted_checks s d Super (sup o') HI (Hr Super)) as [Hs1 Hs2].
    cbn [map_err]. unfold bind, get. rewrite Hb1, Hb2, Hs1, Hs2. cbn [map_err]. unfold ret.
    do 2 eexists. split; [reflexivity|]. split; [|done]. intros sp. by rewrite Hl.
  - do 2 eexists. split; [reflexivity|]. split; [intros sp; by rewrite Hl|].
    intros e [= <-]. destruct er as [x|m|p]; [|done|done]. exfalso.
    destruct Hr as (sp & e & He & Hh & Hle). pose proof (hit_frame _ _ _ _ _ HI He Hh).
    rewrite Hlen in Hle. lia.
Qed.

(** ** Properties *)


(** The second stage of a domain is authorized: in every reachable state, when the leaf
    map of a domain is emitted, a frame it reaches at a permission is one the domain can
    access so, through an entry of its own page table: it owns the frame, or the owner grants
    it, read-write for a writable leaf. A frame one domain's map makes writable, no domain's
    map makes executable. A domain that is not live has empty maps. *)
Theorem stage2_authorized (k : N) (s : Hypervisor) (d : DomId) (o o' : Maps) :
  reachable k s -> vlen (base o) <= u32_max + 1 -> vlen (sup o) <= u32_max + 1 ->
  leaf_map (p2m s) d o = Done o' (Ok tt) ->
  (forall sp m p, vget (map_of sp o') m = Some (Some p) ->
     leaf_ok s d m p /\ vget (life s) d <> Some Dead /\
     (p = Rw -> forall d2 sp2, authorized (P2m.owner_of (p2m s)) (span_of_table (p2m s)) d2
        (P2m.link_edges (p2m s)) sp2 m <> Some Rx)) /\
  (forall sp l, l ∈ P2m.links (p2m s) -> P2m.active l = true -> P2m.leaf l = true ->
     P2m.owner_of (p2m s) (P2m.parent l) = Some d -> span_of_table (p2m s) (P2m.parent l) = Some sp ->
     exists p, vget (map_of sp o') (P2m.child l) = Some (Some p)).
Proof.
  intros HR Hb Hs E. destruct (reachable_HInv k s HR) as [HI _]. split.
  - intros sp m p Hm. destruct (emitted_leaf_ok s d o o' sp m p HI Hb Hs E Hm) as [Hau Hok].
    clear Hm. rename Hau into Hm. split_and!; [done| |].
    + intros Hd. apply authorized_Some in Hm as (e & He & Hh & _).
      destruct (hit_link _ _ _ _ _ He Hh) as (l & _ & _ & _ & Ho & _).
      destruct (h_dead s HI d Hd) as (Hclean & _). by apply (cl_frames s d Hclean) in Ho.
    + intros -> d2 sp2. by apply (leaf_write_xor_execute s d sp m).
  - intros sp l Hl Ha Hlf Ho Hsp.
    destruct (leaf_map_spec (P2m.owner_of (p2m s)) (span_of_table (p2m s)) d
      (P2m.link_edges (p2m s)) o Hb) as (o1 & r & E1 & Hlen & Hr).
    unfold leaf_map in E. rewrite E in E1. injection E1 as <- <-.
    destruct Hr as (Hm & Hfit & _).
    assert (He : (P2m.parent l, P2m.slot l, P2m.child l, P2m.writable l, P2m.leaf l, P2m.execute l)
      ∈ P2m.link_edges (p2m s)) by (apply elem_link_edges; by exists l).
    assert (Hh : hits (P2m.owner_of (p2m s)) (span_of_table (p2m s)) d sp (P2m.child l)
      (P2m.parent l, P2m.slot l, P2m.child l, P2m.writable l, P2m.leaf l, P2m.execute l)) by done.
    rewrite (Hm sp (P2m.child l) (Hfit _ _ _ He Hh)).
    destruct (authorized_hit _ _ _ _ _ _ _ He Hh) as [p Hp]. exists p. by rewrite Hp.
Qed.

(** A small machine: domain 1 grants its frame 2 to domain 0, whose page table 5 maps it
    writable and maps domain 0's own frame 6 executable. *)
Definition paging_boot : Hypervisor := new 2 4 4 2 1 8 1.
Definition paging_trace : list Transition :=
  [Guest 0 (DomainCreate 1 false); Guest 1 (P2mAllocate 2); Guest 1 (GrantAccess 0 0 2 false);
   Guest 0 (P2mAllocate 5); Guest 0 (P2mPin 5 L1); Guest 0 (P2mLink 5 0 2 true true false);
   Guest 0 (P2mAllocate 6); Guest 0 (P2mLink 5 1 6 false true true)].
Definition paging : Hypervisor :=
  match run paging_trace paging_boot with Done s _ => s | Panic => paging_boot end.

Lemma paging_reachable : reachable 8 paging.
Proof.
  assert (HB : reachable 0 paging_boot)
    by (apply reach_boot; repeat split; vm_compute; discriminate).
  destruct (reachable_run 0 paging_boot paging_trace HB) as (s & rs & E & _ & HR);
    [vm_compute; discriminate|].
  unfold paging. rewrite E. exact HR.
Qed.


Theorem stage2_authorized_witness :
  match leaf_map (p2m paging) 0 (mkMaps (vrepeat 8 None) (vrepeat 8 None)) with
  | Done o (Ok _) => vget (base o) 2 = Some (Some Rw) /\ leaf_ok paging 0 2 Rw /\ leaf_ok paging 0 6 Rx
  | _ => False
  end.
Proof.
  destruct (leaf_map (p2m paging) 0 (mkMaps (vrepeat 8 None) (vrepeat 8 None))) as [o [ []|e]|] eqn:E.
  - destruct (stage2_authorized 8 paging 0 (mkMaps (vrepeat 8 None) (vrepeat 8 None)) o) as [H _].
    + exact paging_reachable.
    + vm_compute. discriminate.
    + vm_compute. discriminate.
    + exact E.
    + assert (Hv : vget (base o) 2 = Some (Some Rw) /\ vget (base o) 6 = Some (Some Rx)).
      { vm_compute in E. injection E as <-. split; reflexivity. }
      destruct Hv as [H2 H6]. split; [exact H2|].
      split; [exact (proj1 (H Base 2 Rw H2))|exact (proj1 (H Base 6 Rx H6))].
  - vm_compute in E. discriminate E.
  - vm_compute in E. discriminate E.
Defined.
