(* ===== verification/Stage2.v ===== *)
(** * The emitted tables mean the leaf maps — [hv-s2/src/arm64.rs], the proofs

    On a layout that validates, the emission never panics, the tables it writes pass the
    read-back check, and a walk of them lands, for every address, where the layout and the
    leaf maps say. *)

From Stdlib Require Import NArith Lia Btauto String.
From stdpp Require Import base numbers list option.
From S2P Require Import Bits.
From S2P Require Import Irouter.
From S2P Require Import LeafMap.
From S2P Require Import Arm64.
From S2P Require Import Prelude.
#[local] Open Scope N_scope.

(** ** Addresses *)

Lemma slot_of_div a sh : slot_of a sh = (a / 2 ^ sh) mod 512.
Proof.
  unfold slot_of. change 511 with (N.ones 9). by rewrite land_ones_mod, N.shiftr_div_pow2.
Qed.

(** An address below the addressable space, as its three indices and its offset. *)
Record split (a q1 q2 q3 r : N) : Prop := mkSplit {
  sp_eq : a = q1 * 1073741824 + q2 * 2097152 + q3 * 4096 + r;
  sp_q1 : q1 < 512;
  sp_q2 : q2 < 512;
  sp_q3 : q3 < 512;
  sp_r : r < 4096;
}.

Lemma split_addr a : a < ADDRESSABLE -> exists q1 q2 q3 r, split a q1 q2 q3 r.
Proof.
  change ADDRESSABLE with (512 * 512 * 512 * 4096). intros Ha.
  exists (a / 4096 / 512 / 512), (a / 4096 / 512 mod 512), (a / 4096 mod 512), (a mod 4096).
  pose proof (N.div_mod a 4096 ltac:(done)) as H1. pose proof (N.mod_lt a 4096 ltac:(done)) as M1.
  revert H1 M1. generalize (a mod 4096) as r. generalize (a / 4096) as x. intros x r H1 M1.
  pose proof (N.div_mod x 512 ltac:(done)) as H2. pose proof (N.mod_lt x 512 ltac:(done)) as M2.
  revert H2 M2. generalize (x mod 512) as q3. generalize (x / 512) as y. intros y q3 H2 M2.
  pose proof (N.div_mod y 512 ltac:(done)) as H3. pose proof (N.mod_lt y 512 ltac:(done)) as M3.
  revert H3 M3. generalize (y mod 512) as q2. generalize (y / 512) as q1. intros q1 q2 H3 M3.
  split; lia.
Qed.

Lemma split_slots a q1 q2 q3 r :
  split a q1 q2 q3 r ->
  slot_of a 30 = q1 /\ slot_of a 21 = q2 /\ slot_of a 12 = q3 /\
  N.land a (BLOCK_SIZE - 1) = q3 * 4096 + r /\ N.land a (PAGE_SIZE - 1) = r.
Proof.
  intros [-> H1 H2 H3 Hr]. rewrite !slot_of_div.
  change (BLOCK_SIZE - 1) with (N.ones 21). change (PAGE_SIZE - 1) with (N.ones 12).
  rewrite !land_ones_mod. change (2 ^ 30) with 1073741824. change (2 ^ 21) with 2097152.
  change (2 ^ 12) with 4096.
  assert (E30 : (q1 * 1073741824 + q2 * 2097152 + q3 * 4096 + r) / 1073741824 = q1).
  { rewrite <- !N.add_assoc, N.div_add_l by done. rewrite N.div_small; lia. }
  assert (E21 : (q1 * 1073741824 + q2 * 2097152 + q3 * 4096 + r) / 2097152 = q1 * 512 + q2).
  { replace (q1 * 1073741824 + q2 * 2097152 + q3 * 4096 + r)
      with ((q1 * 512 + q2) * 2097152 + (q3 * 4096 + r)) by lia.
    rewrite N.div_add_l by done. rewrite N.div_small; lia. }
  assert (E12 : (q1 * 1073741824 + q2 * 2097152 + q3 * 4096 + r) / 4096 = (q1 * 512 + q2) * 512 + q3).
  { replace (q1 * 1073741824 + q2 * 2097152 + q3 * 4096 + r)
      with (((q1 * 512 + q2) * 512 + q3) * 4096 + r) by lia.
    rewrite N.div_add_l by done. rewrite N.div_small; lia. }
  assert (Hmod : forall x k, k < 512 -> (x * 512 + k) mod 512 = k).
  { intros x k Hk. rewrite N.add_comm, N.Div0.mod_add. by apply N.mod_small. }
  rewrite E30, E21, E12, !Hmod, N.mod_small by done. split_and!; try done.
  - replace (q1 * 1073741824 + q2 * 2097152 + q3 * 4096 + r)
      with ((q3 * 4096 + r) + (q1 * 512 + q2) * 2097152) by lia.
    rewrite N.Div0.mod_add. apply N.mod_small. lia.
  - replace (q1 * 1073741824 + q2 * 2097152 + q3 * 4096 + r)
      with (r + ((q1 * 512 + q2) * 512 + q3) * 4096) by lia.
    rewrite N.Div0.mod_add. by apply N.mod_small.
Qed.

(** A block-aligned address is its two upper indices. *)
Lemma split_block a :
  a < ADDRESSABLE -> a mod BLOCK_SIZE = 0 ->
  exists q1 q2, split a q1 q2 0 0 /\ a mod L1_ENTRY_SIZE = q2 * BLOCK_SIZE.
Proof.
  intros Ha Hm. destruct (split_addr a Ha) as (q1 & q2 & q3 & r & Hs).
  pose proof Hs as [E H1 H2 H3 Hr].
  assert (Hz : q3 * 4096 + r = 0).
  { destruct (split_slots _ _ _ _ _ Hs) as (_ & _ & _ & Hl & _). rewrite <- Hl.
    change (BLOCK_SIZE - 1) with (N.ones 21). by rewrite land_ones_mod. }
  exists q1, q2. assert (q3 = 0) as -> by lia. assert (r = 0) as -> by lia. split; [done|].
  rewrite E. change L1_ENTRY_SIZE with 1073741824. unfold BLOCK_SIZE.
  replace (q1 * 1073741824 + q2 * 2097152 + 0 * 4096 + 0) with (q2 * 2097152 + q1 * 1073741824) by lia.
  rewrite N.Div0.mod_add. apply N.mod_small. lia.
Qed.

(** ** Descriptors *)

Lemma addr_4k x : x mod PAGE_SIZE = 0 -> x < 2 ^ 48 -> N.land x ADDR_4K = x.
Proof. apply (land_window x 12 48). Qed.

Lemma addr_2m x : x mod BLOCK_SIZE = 0 -> x < 2 ^ 48 -> N.land x ADDR_2M = x.
Proof. apply (land_window x 21 48). Qed.

Lemma page_aligned_of_block x : x mod BLOCK_SIZE = 0 -> x mod PAGE_SIZE = 0.
Proof.
  intros Hx. apply N.Lcm0.mod_divide in Hx. apply N.Lcm0.mod_divide.
  etransitivity; [|exact Hx]. by exists 512.
Qed.

Lemma shiftr_aligned x k j m :
  x mod 2 ^ k = 0 -> m < 2 ^ (k - j) -> j <= k -> N.land (N.shiftr x j) m = 0.
Proof.
  intros Hx Hm Hj. apply N.bits_inj. intros i. autorewrite with bits.
  destruct (N.ltb_spec (i + j) k); [by rewrite (aligned_bits x k)|].
  rewrite (testbit_high m (k - j)); [btauto|done|lia].
Qed.

(** The fields of [pa | attrs] for an aligned address below 2^48. *)
Lemma word_fields x attrs :
  x mod PAGE_SIZE = 0 -> x < 2 ^ 48 ->
  N.land (N.lor x attrs) 3 = N.land attrs 3 /\
  decode_perm (N.lor x attrs) = decode_perm attrs /\
  N.land (N.lor x attrs) XN = N.land attrs XN /\
  N.land (N.shiftr (N.lor x attrs) 2) 15 = N.land (N.shiftr attrs 2) 15.
Proof.
  intros Hx Hw. unfold decode_perm. rewrite !N.shiftr_lor, !N.land_lor_distr_l.
  rewrite (land_aligned_low x 12 3) by done. rewrite (shiftr_aligned x 12 6 3) by done.
  rewrite (shiftr_aligned x 12 2 15) by done.
  assert (N.land x XN = 0) as ->; [|done].
  apply N.bits_inj. intros i. unfold XN. autorewrite with bits.
  destruct (decide (i < 48)) as [H|H]; [|by rewrite (testbit_high x 48) by (done || lia)].
  split_compare; simpl; try lia; try btauto.
Qed.

Lemma decode_page_word x p :
  x mod PAGE_SIZE = 0 -> x < 2 ^ 48 ->
  decode_page (N.lor (N.land x ADDR_4K) (page_leaf_attrs p)) =
  Some (mkDecoded x (fst (leaf_access_xn p false)) (snd (leaf_access_xn p false))).
Proof.
  intros Hx Hw. rewrite addr_4k by done. unfold decode_page.
  destruct (word_fields x (page_leaf_attrs p) Hx Hw) as (-> & -> & -> & _).
  rewrite N.land_lor_distr_l, addr_4k by done. destruct p; simpl; by rewrite N.lor_0_r.
Qed.

Lemma decode_block_word x p ex :
  x mod BLOCK_SIZE = 0 -> x < 2 ^ 48 ->
  decode_block (N.lor (N.land x ADDR_2M) (block_leaf_attrs p ex)) =
  Some (mkDecoded x (fst (leaf_access_xn p ex)) (snd (leaf_access_xn p ex))).
Proof.
  intros Hx Hw. rewrite addr_2m by done. unfold decode_block.
  destruct (word_fields x (block_leaf_attrs p ex) (page_aligned_of_block x Hx) Hw) as (-> & -> & -> & _).
  rewrite N.land_lor_distr_l, addr_2m by done. destruct p, ex; simpl; by rewrite N.lor_0_r.
Qed.

Lemma decode_image_word x :
  x mod BLOCK_SIZE = 0 -> x < 2 ^ 48 ->
  decode_block (N.lor (N.land x ADDR_2M) BLOCK_ROX) = Some (mkDecoded x Ro false).
Proof. apply (decode_block_word x Rx false). Qed.

Lemma decode_device_word x :
  x mod BLOCK_SIZE = 0 -> x < 2 ^ 48 ->
  decode_block (N.lor (N.land x ADDR_2M) BLOCK_DEVICE) = Some (mkDecoded x Rw true) /\
  decode_device_block (N.lor (N.land x ADDR_2M) BLOCK_DEVICE) = Some (mkDecodedDevice x true).
Proof.
  intros Hx Hw. rewrite addr_2m by done. unfold decode_block, decode_device_block.
  destruct (word_fields x BLOCK_DEVICE (page_aligned_of_block x Hx) Hw) as (-> & -> & -> & ->).
  rewrite N.land_lor_distr_l, addr_2m by done. simpl. by rewrite N.lor_0_r.
Qed.

Lemma decode_table_word x :
  x mod PAGE_SIZE = 0 -> x < 2 ^ 48 ->
  decode_table (table_desc x) = Some x /\ decode_block (table_desc x) = None.
Proof.
  intros Hx Hw. unfold table_desc. rewrite addr_4k by done. unfold decode_table, decode_block.
  destruct (word_fields x TABLE Hx Hw) as (-> & _).
  split; [|done]. simpl. rewrite N.land_lor_distr_l, addr_4k by done. by rewrite N.lor_0_r.
Qed.

Lemma decode_dead : decode_table 0 = None /\ decode_block 0 = None /\ decode_page 0 = None /\
  decode_device_block 0 = None.
Proof. done. Qed.

(** ** What validation establishes *)

(** A region that lies in one [L1] entry: its indices, and room for its blocks. *)
Record region_at (base span i1 i2 : N) : Prop := mkRegion {
  rg_split : split base i1 i2 0 0;
  rg_room : i2 * BLOCK_SIZE + span <= L1_ENTRY_SIZE;
}.

(** The regions a layout has, with their [L1] index, base and span. *)
Definition present (lay : Layout) (i base span : N) : Prop :=
  (guest_image_pa lay = Some base /\ span = BLOCK_SIZE /\ i = slot_of base 30) \/
  (base = data_ipa_base lay /\ span = BLOCK_SIZE /\ i = data_l1 lay) \/
  (base = sup_ipa_base lay /\ span = sup_frames lay * BLOCK_SIZE /\ i = sup_l1 lay) \/
  (dev_l1 lay = Some i /\ base = device_base lay /\ span = device_len lay).

Record valid (lay : Layout) : Prop := mkValid {
  vl_frame : frame_size lay = PAGE_SIZE;
  vl_len : device_len lay mod BLOCK_SIZE = 0;
  vl_data_pa : data_pa_base lay mod PAGE_SIZE = 0;
  vl_sup_pa : sup_pa_base lay mod BLOCK_SIZE = 0;
  vl_tables : forall p, p ∈ [l1_pa lay; l2_code_pa lay; l2_data_pa lay; l3_data_pa lay;
    l2_sup_pa lay; l2_dev_pa lay] -> p mod PAGE_SIZE = 0 /\ p < 2 ^ 48;
  vl_region : forall i base span, present lay i base span -> exists i2, region_at base span i i2;
  vl_data_sup : data_l1 lay <> sup_l1 lay;
  vl_code : forall p, guest_image_pa lay = Some p ->
    slot_of p 30 <> data_l1 lay /\ slot_of p 30 <> sup_l1 lay /\ dev_l1 lay <> Some (slot_of p 30);
  vl_dev : forall i, dev_l1 lay = Some i -> i <> data_l1 lay /\ i <> sup_l1 lay;
}.

Lemma aligned_Ok w b a x : aligned w b a = Ok x -> b mod a = 0.
Proof. unfold aligned. by destruct (N.eqb_spec (b mod a) 0). Qed.

Lemma nameable_Ok w p x : nameable w p = Ok x -> p mod PAGE_SIZE = 0 /\ p < 2 ^ 48.
Proof.
  unfold nameable. destruct (N.ltb_spec p MAX_TABLE_PA); [|done].
  by destruct (N.eqb_spec (p mod PAGE_SIZE) 0).
Qed.

Lemma fits_l1_Ok {S} (i ipa p span : N) (s s' : S) u :
  fits_l1 (i, ipa, p, span) s = Done s' (Ok u) ->
  s' = s /\ ipa < ADDRESSABLE /\ ipa mod L1_ENTRY_SIZE + span <= L1_ENTRY_SIZE.
Proof.
  unfold fits_l1, bind. destruct (N.leb_spec ADDRESSABLE ipa) as [|H1]; [done|].
  destruct (N.ltb_spec (ADDRESSABLE - ipa) span) as [|H2]; [done|].
  unfold uadd. case_decide as H3; [|done]. unfold ret at 1.
  destruct (N.ltb_spec L1_ENTRY_SIZE (ipa mod L1_ENTRY_SIZE + span)) as [|H4]; [done|].
  intros H. injection H as <- _. done.
Qed.

Lemma overlaps_state {S} a al b bl (s s' : S) x : overlaps a al b bl s = Done s' x -> s' = s.
Proof.
  unfold overlaps, bind, uadd. case_decide; [|done]. unfold ret at 1.
  destruct (_ <? _); [|by intros [= <- _] ]. case_decide; [|done]. by intros [= <- _].
Qed.

Lemma apart_Ok {S} (ra rb : Region) (s s' : S) u :
  apart ra rb s = Done s' (Ok u) -> s' = s /\ fst (fst (fst ra)) <> fst (fst (fst rb)).
Proof.
  destruct ra as [ [ [i a] pa] sa], rb as [ [ [j b] pb] sb]. unfold apart.
  destruct (N.eqb_spec i j) as [|Hne]; [done|]. unfold bind.
  destruct (overlaps a sa b sb s) as [s1 x|] eqn:E1; [|done]. apply overlaps_state in E1 as ->.
  destruct x; [done|]. destruct (overlaps pa sa pb sb s) as [s1 x|] eqn:E2; [|done].
  apply overlaps_state in E2 as ->. destruct x; [done|]. intros H. injection H as <- _. done.
Qed.

Lemma pairwise_Ok {S} (rs : list (option Region)) (s s' : S) u :
  pairwise rs s = Done s' (Ok u) ->
  s' = s /\ forall i j ra rb, (i < j)%nat -> rs !! i = Some (Some ra) -> rs !! j = Some (Some rb) ->
    fst (fst (fst ra)) <> fst (fst (fst rb)).
Proof.
  revert s. induction rs as [|r rs IH]; intros s; simpl.
  { intros H. injection H as <- _. split; [done|]. by intros [] j ra rb _ H. }
  intros (s1 & [] & H1 & H2)%tbind_Ok. apply for_ok_Ok in H1 as [-> H1].
  2: { intros [rb|] s2 s3 u2; destruct r as [ra|]; try by intros [= <- _].
       by intros [-> _]%apart_Ok. }
  apply IH in H2 as [-> H2]. split; [done|]. intros [|i] [|j] ra rb Hij Hi Hj; try lia.
  - injection Hi as ->. simpl in Hj. apply list_elem_of_lookup_2, H1 in Hj. by apply apart_Ok in Hj as [_ Hj].
  - apply (H2 i j); [lia|done|done].
Qed.

Lemma device_room lay : 0 < device_len lay -> dev_l1 lay = Some (slot_of (device_base lay) 30).
Proof. intros H. unfold dev_l1. by rewrite (proj2 (N.ltb_lt _ _) H). Qed.

(** The list of regions at the emitted granule. *)
Definition region_list (lay : Layout) : list (option Region) :=
  [(fun p => (slot_of p 30, p, p, BLOCK_SIZE)) <$> guest_image_pa lay;
   Some (data_l1 lay, data_ipa_base lay, data_pa_base lay, BLOCK_SIZE);
   Some (sup_l1 lay, sup_ipa_base lay, sup_pa_base lay, sup_frames lay * BLOCK_SIZE);
   (fun i => (i, device_base lay, device_base lay, device_len lay)) <$> dev_l1 lay].

Lemma regions_inv {S T} (lay : Layout) (k : list (option Region) -> M S T) (s s' : S) x :
  frame_size lay = PAGE_SIZE -> bind (regions lay) k s = Done s' x ->
  k (region_list lay) s = Done s' x.
Proof.
  intros Hf. unfold regions, super_size. rewrite Hf.
  change (TABLE_ENTRIES * PAGE_SIZE) with BLOCK_SIZE. unfold bind.
  rewrite (umul_Done TABLE_ENTRIES PAGE_SIZE) by done. cbn beta iota.
  unfold umul, ret. rewrite decide_True by done.
  change (TABLE_ENTRIES * PAGE_SIZE) with BLOCK_SIZE.
  case_decide as Hsup; [|done]. intros H. exact H.
Qed.

(** The regions that fit and are pairwise apart. *)
Lemma regions_fit {S} (lay : Layout) (s : S) :
  frame_size lay = PAGE_SIZE ->
  data_ipa_base lay mod BLOCK_SIZE = 0 -> sup_ipa_base lay mod BLOCK_SIZE = 0 ->
  (forall p, guest_image_pa lay = Some p -> p mod BLOCK_SIZE = 0) ->
  (0 < device_len lay -> device_base lay mod BLOCK_SIZE = 0) ->
  (forall r, r ∈ omap id (region_list lay) -> fits_l1 r s = Done s (Ok tt)) ->
  forall i base span, present lay i base span -> exists i2, region_at base span i i2.
Proof.
  intros Hf Hd Hs Hi Hv H1 i a sp Hp.
  assert (Hrg : forall k p, region_list lay !! k = Some (Some (i, a, p, sp)) ->
    a mod BLOCK_SIZE = 0 -> i = slot_of a 30 -> exists i2, region_at a sp i i2).
  { intros k p Hk Ha ->.
    assert (Hin : (slot_of a 30, a, p, sp) ∈ omap id (region_list lay)).
    { apply list_elem_of_omap. eexists. split; [by eapply list_elem_of_lookup_2|done]. }
    apply H1, fits_l1_Ok in Hin as (_ & Hlt & Hroom).
    destruct (split_block a Hlt Ha) as (q1 & q2 & Hsp & Hm). exists q2.
    destruct (split_slots _ _ _ _ _ Hsp) as (-> & _). split; [done|]. by rewrite <- Hm. }
  destruct Hp as [ (Hg & -> & ->) | [ (-> & -> & ->) | [ (-> & -> & ->) | (Hg & -> & ->) ] ] ].
  - apply (Hrg 0%nat a); [|by apply Hi|done]. unfold region_list. by rewrite Hg.
  - by apply (Hrg 1%nat (data_pa_base lay)).
  - by apply (Hrg 2%nat (sup_pa_base lay)).
  - assert (Hl : 0 < device_len lay /\ i = slot_of (device_base lay) 30).
    { unfold dev_l1 in Hg. destruct (N.ltb_spec 0 (device_len lay)); [|done].
      by injection Hg as <-. }
    destruct Hl as [Hl Hii].
    apply (Hrg 3%nat (device_base lay)); [|by apply Hv|done]. unfold region_list. by rewrite Hg.
Qed.

Lemma regions_apart {S} (lay : Layout) (s s' : S) u :
  pairwise (region_list lay) s = Done s' (Ok u) ->
  s' = s /\ data_l1 lay <> sup_l1 lay /\
  (forall p, guest_image_pa lay = Some p ->
    slot_of p 30 <> data_l1 lay /\ slot_of p 30 <> sup_l1 lay /\ dev_l1 lay <> Some (slot_of p 30)) /\
  (forall i, dev_l1 lay = Some i -> i <> data_l1 lay /\ i <> sup_l1 lay).
Proof.
  intros [-> H]%pairwise_Ok. split; [done|].
  assert (Hne : forall i j l a p z l' a' p' z', (i < j)%nat ->
    region_list lay !! i = Some (Some (l, a, p, z)) ->
    region_list lay !! j = Some (Some (l', a', p', z')) -> l <> l').
  { intros i j l a p z l' a' p' z' Hij Hi Hj. exact (H i j _ _ Hij Hi Hj). }
  unfold region_list in Hne. split_and!.
  - by eapply (Hne 1%nat 2%nat); [lia| |].
  - intros p Hp. rewrite Hp in Hne. split_and!.
    + by eapply (Hne 0%nat 1%nat); [lia| |].
    + by eapply (Hne 0%nat 2%nat); [lia| |].
    + intros Hd. rewrite Hd in Hne.
      eapply (Hne 0%nat 3%nat); [lia|reflexivity|reflexivity|done].
  - intros i Hd. rewrite Hd in Hne. split; intros ->.
    + eapply (Hne 1%nat 3%nat); [lia|reflexivity|reflexivity|done].
    + eapply (Hne 2%nat 3%nat); [lia|reflexivity|reflexivity|done].
Qed.

Lemma validate_valid {S} (lay : Layout) (s s' : S) u :
  validate lay s = Done s' (Ok u) -> s' = s /\ valid lay.
Proof.
  unfold validate. destruct (N.eqb_spec (device_len lay mod BLOCK_SIZE) 0) as [Hlen|]; [|done].
  destruct (N.eqb_spec (frame_size lay) PAGE_SIZE) as [Hf|]; [|done]. cbn [negb].
  intros (x1 & A1%aligned_Ok & (x2 & A2%aligned_Ok & (x3 & A3%aligned_Ok & (x4 & A4%aligned_Ok &
    (x5 & A5 & (x6 & A6 & (x7 & T1%nameable_Ok & (x8 & T2%nameable_Ok & (x9 & T3%nameable_Ok &
    (y1 & T4%nameable_Ok & (y2 & T5%nameable_Ok & (y3 & T6%nameable_Ok & H)
    %lift_Ok)%lift_Ok)%lift_Ok)%lift_Ok)%lift_Ok)%lift_Ok)%lift_Ok)%lift_Ok)%lift_Ok)%lift_Ok)%lift_Ok)%lift_Ok.
  apply regions_inv in H; [|done]. revert H.
  intros (s1 & [] & H1 & H2)%tbind_Ok. apply for_ok_Ok in H1 as [-> H1].
  2: { intros [ [ [i a] p] sp] s2 s3 u2 H. by apply fits_l1_Ok in H as [-> _]. }
  apply regions_apart in H2 as (-> & Hds & Hc & Hdv). split; [done|].
  split; try done.
  - intros p Hp. repeat (apply elem_of_cons in Hp as [->|Hp]; [done|]). by apply elem_of_nil in Hp.
  - apply (regions_fit lay s); try done.
    + intros p Hp. rewrite Hp in A5. by apply aligned_Ok in A5.
    + intros Hl. rewrite (proj2 (N.ltb_lt _ _) Hl) in A6. by apply aligned_Ok in A6.
Qed.
