(* ===== verification/Emission.v ===== *)
(** * Emission and walk — [hv-s2/src/arm64.rs], the agreement proofs

    What [encode] writes in every slot, that a walk of the emitted tables reaches exactly
    what the layout and the leaf maps say, and that the read-back check accepts them. *)

From Stdlib Require Import NArith Lia Btauto String.
From stdpp Require Import base numbers list option sets.
From S2P Require Import Bits.
From S2P Require Import Irouter.
From S2P Require Import LeafMap.
From S2P Require Import Arm64.
From S2P Require Import Stage2.
From S2P Require Import Prelude.
#[local] Open Scope N_scope.

(** ** The word of every slot *)

Definition l1_word (lay : Layout) (i : N) : N :=
  if decide (code_l1 lay = Some i) then table_desc (l2_code_pa lay)
  else if decide (i = data_l1 lay) then table_desc (l2_data_pa lay)
  else if decide (i = sup_l1 lay) then table_desc (l2_sup_pa lay)
  else if decide (dev_l1 lay = Some i) then table_desc (l2_dev_pa lay)
  else 0.

Definition code_word (lay : Layout) (i : N) : N :=
  match guest_image_pa lay with
  | Some p => if decide (i = slot_of p 21) then N.lor (N.land p ADDR_2M) BLOCK_ROX else 0
  | None => 0
  end.

Definition data_word (lay : Layout) (i : N) : N :=
  if decide (i = data_l2 lay) then table_desc (l3_data_pa lay) else 0.

Definition l3_word (lay : Layout) (leaves : list (option Perm)) (m : N) : N :=
  match wanted leaves m with
  | Some p => N.lor (N.land (data_pa_base lay + m * PAGE_SIZE) ADDR_4K) (page_leaf_attrs p)
  | None => 0
  end.

Definition sup_l2 (lay : Layout) : N := slot_of (sup_ipa_base lay) 21.
Definition dev_l2 (lay : Layout) : N := slot_of (device_base lay) 21.

Definition sup_word (lay : Layout) (supers : list (option Perm)) (i : N) : N :=
  if decide (sup_l2 lay <= i) then
    match wanted supers (i - sup_l2 lay) with
    | Some p => N.lor (N.land (sup_pa_base lay + (i - sup_l2 lay) * BLOCK_SIZE) ADDR_2M)
                      (block_leaf_attrs p (sup_wx_exempt lay))
    | None => 0
    end
  else 0.

Definition dev_word (lay : Layout) (i : N) : N :=
  if decide (dev_l2 lay <= i /\ (i - dev_l2 lay) * BLOCK_SIZE < device_len lay)
  then N.lor (N.land (device_base lay + (i - dev_l2 lay) * BLOCK_SIZE) ADDR_2M) BLOCK_DEVICE
  else 0.

(** A table that holds the words of [f]; a table that is zero wherever [f] is. *)
Definition holds (f : N -> N) (l : list N) : Prop :=
  vlen l = TABLE_ENTRIES /\ forall i, i < TABLE_ENTRIES -> vget l i = Some (f i).
Definition quiet (f : N -> N) (l : list N) : Prop :=
  vlen l = TABLE_ENTRIES /\ forall i, i < TABLE_ENTRIES -> f i = 0 -> vget l i = Some 0.

(** The tables before an emission: zero in every slot the emission does not write. *)
Record skeleton (lay : Layout) (t : Tables) : Prop := mkSkeleton {
  sk_l1 : quiet (l1_word lay) (l1 t);
  sk_code : quiet (code_word lay) (l2_code t);
  sk_data : quiet (data_word lay) (l2_data t);
}.

Record emitted (lay : Layout) (leaves supers : list (option Perm)) (t : Tables) : Prop := mkEmitted {
  em_l1 : holds (l1_word lay) (l1 t);
  em_code : holds (code_word lay) (l2_code t);
  em_data : holds (data_word lay) (l2_data t);
  em_l3 : holds (l3_word lay leaves) (l3_data t);
  em_sup : holds (sup_word lay supers) (l2_sup t);
  em_dev : holds (dev_word lay) (l2_dev t);
}.

(** The windows a layout maps lie below the output addresses a descriptor can name, and the
    super map names no frame past the super pool. *)
Record nameable_windows (lay : Layout) (supers : list (option Perm)) : Prop := mkNameable {
  nw_data : data_pa_base lay + BLOCK_SIZE <= 2 ^ 48;
  nw_sup : sup_pa_base lay + sup_frames lay * BLOCK_SIZE <= 2 ^ 48;
  nw_none : forall m, sup_frames lay <= m -> wanted supers m = None;
}.

Lemma wanted_fit lay supers m p :
  nameable_windows lay supers -> wanted supers m = Some p -> m < sup_frames lay.
Proof.
  intros Hw Hp. destruct (N.lt_ge_cases m (sup_frames lay)) as [|H]; [done|].
  by rewrite (nw_none _ _ Hw m H) in Hp.
Qed.

(** ** Writing a slot *)

Lemma slot_lt a sh : slot_of a sh < TABLE_ENTRIES.
Proof. rewrite slot_of_div. by apply N.mod_lt. Qed.

(** A table is brought to [f] by writing the slots of a list. *)
Definition write_all (f : N -> N) (ks : list N) (l : list N) : list N :=
  foldl (fun l i => vset l i (f i)) l ks.

Lemma vlen_write_all f ks l : vlen (write_all f ks l) = vlen l.
Proof. revert l. induction ks as [|i ks IH]; intros l; [done|]. simpl. by rewrite IH, vlen_vset. Qed.

Lemma vget_write_all f ks l j :
  j < vlen l -> vget (write_all f ks l) j = if decide (j ∈ ks) then Some (f j) else vget l j.
Proof.
  revert l. induction ks as [|i ks IH]; intros l Hj.
  - rewrite decide_False; [done|apply not_elem_of_nil].
  - change (write_all f (i :: ks) l) with (write_all f ks (vset l i (f i))). rewrite IH by (by rewrite vlen_vset). rewrite vget_vset.
    destruct (decide (j ∈ ks)) as [H|H], (decide (j ∈ i :: ks)) as [H'|H']; try done.
    + exfalso. apply H'. by right.
    + apply elem_of_cons in H' as [->|H']; [|done]. by rewrite decide_True.
    + rewrite decide_False; [done|]. intros [-> _]. apply H'. by left.
Qed.

Lemma write_all_holds f ks l :
  quiet f l -> (forall i, i < TABLE_ENTRIES -> f i <> 0 -> i ∈ ks) -> holds f (write_all f ks l).
Proof.
  intros [Hl Hq] Hks. split; [by rewrite vlen_write_all|]. intros i Hi.
  rewrite vget_write_all by (by rewrite Hl). case_decide as Hin; [done|].
  destruct (decide (f i = 0)) as [Hz|Hz]; [by rewrite Hq, Hz|]. exfalso. by apply Hin, Hks.
Qed.

(** ** The entries of a leaf map *)

Lemma entries_split leaves l1 m o l2 :
  entries leaves = l1 ++ (m, o) :: l2 -> m = vlen l1 /\ m < TABLE_ENTRIES /\ vget leaves m = Some o.
Proof.
  intros H. assert (Hk : entries leaves !! length l1 = Some (m, o)) by (rewrite H; by apply list_lookup_middle).
  unfold entries in Hk. apply lookup_take_Some in Hk as [Hk Hlt].
  pose proof Hk as Hin%list_elem_of_lookup_2. apply elem_enumerate in Hin as Hv.
  unfold enumerate in Hk. apply lookup_zip_with_Some in Hk as (a & b & [= <- <-] & Ha & _).
  pose proof (vget_vrange (vlen leaves) (vlen l1)) as Hr. unfold vget in Hr. change (N.to_nat (vlen l1)) with (N.to_nat (N.of_nat (length l1))) in Hr.
  rewrite Nat2N.id, Ha in Hr. case_decide; [|done]. injection Hr as ->.
  split; [done|]. split; [|done]. unfold vlen, TABLE_ENTRIES in *. lia.
Qed.

Lemma entries_len leaves : vlen (entries leaves) = N.min TABLE_ENTRIES (vlen leaves).
Proof.
  unfold entries, enumerate. unfold vlen at 1. rewrite length_take, length_zip.
  pose proof (vlen_vrange (vlen leaves)) as H. unfold vlen in *. unfold TABLE_ENTRIES. lia.
Qed.

Lemma wanted_beyond leaves m : vlen leaves <= m -> wanted leaves m = None.
Proof. intros H. unfold wanted. by rewrite (proj2 (vget_None _ _) H). Qed.

(** ** Addresses of a window *)

Lemma split_shift a q1 q2 k :
  split a q1 q2 0 0 -> q2 + k < 512 -> split (a + k * BLOCK_SIZE) q1 (q2 + k) 0 0.
Proof. intros [-> H1 H2 _ _] Hk. unfold BLOCK_SIZE. split; lia. Qed.

(** Block [k] of a region has the [L2] slot [k] past the region's first. *)
Lemma region_block base span i1 i2 k :
  region_at base span i1 i2 -> k * BLOCK_SIZE < span ->
  split (base + k * BLOCK_SIZE) i1 (slot_of base 21 + k) 0 0 /\
  slot_of (base + k * BLOCK_SIZE) 21 = slot_of base 21 + k /\
  slot_of base 21 + k < TABLE_ENTRIES /\ slot_of base 21 = i2 /\
  base + k * BLOCK_SIZE + BLOCK_SIZE <= ADDRESSABLE.
Proof.
  intros [Hs Hr] Hk. destruct (split_slots _ _ _ _ _ Hs) as (_ & -> & _).
  assert (Hlt : i2 + k < 512).
  { change L1_ENTRY_SIZE with (512 * BLOCK_SIZE) in Hr. unfold BLOCK_SIZE in *. lia. }
  pose proof (split_shift _ _ _ k Hs Hlt) as Hs'.
  destruct (split_slots _ _ _ _ _ Hs') as (_ & E & _). split_and!; try done.
  destruct Hs' as [-> H1 _ _ _]. change ADDRESSABLE with 549755813888. unfold BLOCK_SIZE. lia.
Qed.

Lemma super_region lay : valid lay -> exists i2,
  region_at (sup_ipa_base lay) (sup_frames lay * BLOCK_SIZE) (sup_l1 lay) i2.
Proof. intros Hv. apply (vl_region _ Hv). right. right. by left. Qed.

Lemma super_slot lay m : valid lay -> m < sup_frames lay ->
  slot_of (sup_ipa_base lay + m * BLOCK_SIZE) 21 = sup_l2 lay + m /\
  sup_l2 lay + m < TABLE_ENTRIES /\ sup_ipa_base lay + m * BLOCK_SIZE <= ADDRESSABLE.
Proof.
  intros Hv Hm. destruct (super_region lay Hv) as (i2 & Hr).
  destruct (region_block _ _ _ _ m Hr) as (_ & E & H & _ & Ha); [unfold BLOCK_SIZE; lia|].
  split_and!; [done|done|lia].
Qed.

Lemma super_addr_Done {S} lay base m (s : S) :
  valid lay -> base + m * BLOCK_SIZE <= u64_max ->
  bind (super_size lay) (fun z => frame_addr base z m) s = Done s (base + m * BLOCK_SIZE).
Proof.
  intros Hv Hb. unfold super_size, frame_addr. rewrite (vl_frame _ Hv). unfold bind.
  rewrite umul_Done by done. change (TABLE_ENTRIES * PAGE_SIZE) with BLOCK_SIZE.
  rewrite umul_Done by lia. by apply uadd_Done.
Qed.

Lemma super_ipa_Done {S} lay m (s : S) : valid lay -> m < sup_frames lay ->
  super_ipa lay m s = Done s (sup_ipa_base lay + m * BLOCK_SIZE).
Proof.
  intros Hv Hm. apply super_addr_Done; [done|]. destruct (super_slot lay m Hv Hm) as (_ & _ & H).
  change ADDRESSABLE with 549755813888 in H. unfold u64_max. lia.
Qed.

Lemma super_pa_Done {S} lay supers m (s : S) :
  valid lay -> nameable_windows lay supers -> m < sup_frames lay ->
  super_pa lay m s = Done s (sup_pa_base lay + m * BLOCK_SIZE).
Proof.
  intros Hv Hw Hm. apply super_addr_Done; [done|]. pose proof (nw_sup _ _ Hw) as H.
  change (2 ^ 48) with 281474976710656 in H. unfold u64_max, BLOCK_SIZE in *. lia.
Qed.

Lemma frame_pa_Done {S} lay supers m (s : S) :
  valid lay -> nameable_windows lay supers -> m < TABLE_ENTRIES ->
  frame_pa lay m s = Done s (data_pa_base lay + m * PAGE_SIZE).
Proof.
  intros Hv Hw Hm. unfold frame_pa, frame_addr. rewrite (vl_frame _ Hv).
  assert (Hoff : m * PAGE_SIZE <= BLOCK_SIZE).
  { change BLOCK_SIZE with (TABLE_ENTRIES * PAGE_SIZE). change PAGE_SIZE with 4096. lia. }
  pose proof (nw_data _ _ Hw) as Hd. change (2 ^ 48) with 281474976710656 in Hd.
  unfold bind. rewrite umul_Done; [|unfold u64_max, BLOCK_SIZE in *; lia].
  apply uadd_Done. unfold u64_max, BLOCK_SIZE in *; lia.
Qed.

Lemma small_u32 m : m < TABLE_ENTRIES -> as_u32 m = m.
Proof. intros H. apply as_u32_id. unfold TABLE_ENTRIES, u32_max in *. lia. Qed.

(** ** The leaf loops *)

(** A table whose slots from [base] hold the words of [f] for the first [n] entries. *)
Definition partial (f : N -> N) (base n : N) (l : list N) : Prop :=
  vlen l = TABLE_ENTRIES /\
  forall i, i < TABLE_ENTRIES -> vget l i = Some (if decide (base <= i /\ i < base + n) then f i else 0).

Lemma partial_zero f base : partial f base 0 (vrepeat TABLE_ENTRIES 0).
Proof.
  split; [apply vlen_vrepeat|]. intros i Hi. rewrite vget_vrepeat, decide_True by done.
  rewrite decide_False; [done|lia].
Qed.

Lemma partial_write f base n l i w :
  partial f base n l -> i = base + n -> i < TABLE_ENTRIES -> w = f i ->
  partial f base (n + 1) (vset l i w).
Proof.
  intros [Hl Hp] -> Hi ->. split; [by rewrite vlen_vset|]. intros j Hj. rewrite vget_vset, Hl, Hp by done.
  repeat case_decide; try done; try lia. by replace j with (base + n) by lia.
Qed.

Lemma partial_skip f base n l :
  partial f base n l -> f (base + n) = 0 -> partial f base (n + 1) l.
Proof.
  intros [Hl Hp] Hz. split; [done|]. intros j Hj. rewrite Hp by done.
  repeat case_decide; try done; try lia. replace j with (base + n) by lia. by rewrite Hz.
Qed.

Lemma partial_holds f base n l :
  partial f base n l ->
  (forall i, i < TABLE_ENTRIES -> ~ (base <= i /\ i < base + n) -> f i = 0) -> holds f l.
Proof.
  intros [Hl Hp] Hz. split; [done|]. intros i Hi. rewrite Hp by done. case_decide; [done|].
  by rewrite Hz.
Qed.

Lemma wp_leaves lay leaves supers t (Q : Tables -> unit -> Prop) :
  valid lay -> nameable_windows lay supers -> l3_data t = vrepeat TABLE_ENTRIES 0 ->
  (forall v, holds (l3_word lay leaves) v -> Q (lset l3_data_l v t) tt) ->
  wp (for_each (entries leaves) (emit_leaf lay)) Q t.
Proof.
  intros Hv Hw Ht HQ.
  apply wp_for_each with (I := fun l s => exists v, s = lset l3_data_l v t /\
    partial (l3_word lay leaves) 0 (vlen l) v).
  - exists (l3_data t). split; [by destruct t|]. rewrite Ht. apply partial_zero.
  - intros done_ [m o] rest s Heq (v & -> & Hp).
    destruct (entries_split _ _ _ _ _ Heq) as (-> & Hlt & Hg). unfold emit_leaf.
    destruct o as [p|].
    + rewrite small_u32 by done. apply wp_bind.
      eapply wp_of_Done; [by eapply frame_pa_Done|].
      destruct Hp as [Hl Hp]. apply wp_index_set; [by simpl; rewrite Hl|].
      eexists. split; [by destruct t|]. rewrite vlen_snoc. apply partial_write; try done.
      unfold l3_word, wanted. by rewrite Hg.
    + apply wp_ret. exists v. split; [done|]. rewrite vlen_snoc. apply partial_skip; [done|].
      rewrite N.add_0_l. unfold l3_word, wanted. by rewrite Hg.
  - intros s (v & -> & Hp). apply HQ. apply (partial_holds _ _ _ _ Hp). intros i Hi Hn.
    unfold l3_word. rewrite wanted_beyond; [done|]. rewrite entries_len in Hn. lia.
Qed.

Lemma wp_supers lay supers t (Q : Tables -> unit -> Prop) :
  valid lay -> nameable_windows lay supers -> l2_sup t = vrepeat TABLE_ENTRIES 0 ->
  (forall v, holds (sup_word lay supers) v -> Q (lset l2_sup_l v t) tt) ->
  wp (for_each (entries supers) (emit_super lay)) Q t.
Proof.
  intros Hv Hw Ht HQ.
  apply wp_for_each with (I := fun l s => exists v, s = lset l2_sup_l v t /\
    partial (sup_word lay supers) (sup_l2 lay) (vlen l) v).
  - exists (l2_sup t). split; [by destruct t|]. rewrite Ht. apply partial_zero.
  - intros done_ [m o] rest s Heq (v & -> & Hp).
    destruct (entries_split _ _ _ _ _ Heq) as (-> & Hlt & Hg). unfold emit_super.
    destruct o as [p|].
    + assert (Hm : vlen done_ < sup_frames lay).
      { apply (wanted_fit lay supers _ p Hw). unfold wanted. by rewrite Hg. }
      rewrite small_u32 by done. destruct (super_slot lay (vlen done_) Hv Hm) as (Hslot & Hlt2 & Hipa).
      apply wp_bind. eapply wp_of_Done; [by apply super_ipa_Done|].
      apply wp_bind. eapply wp_of_Done; [by eapply super_pa_Done|].
      rewrite Hslot. destruct Hp as [Hl Hp]. apply wp_index_set; [by simpl; rewrite Hl|].
      eexists. split; [by destruct t|]. rewrite vlen_snoc. apply partial_write; try done.
      unfold sup_word. rewrite decide_True by lia.
      replace (sup_l2 lay + vlen done_ - sup_l2 lay) with (vlen done_) by lia.
      unfold wanted. by rewrite Hg.
    + apply wp_ret. exists v. split; [done|]. rewrite vlen_snoc. apply partial_skip; [done|].
      unfold sup_word. rewrite decide_True by lia.
      replace (sup_l2 lay + vlen done_ - sup_l2 lay) with (vlen done_) by lia.
      unfold wanted. by rewrite Hg.
  - intros s (v & -> & Hp). apply HQ. apply (partial_holds _ _ _ _ Hp). intros i Hi Hn.
    unfold sup_word. case_decide; [|done]. rewrite wanted_beyond; [done|].
    rewrite entries_len in Hn. lia.
Qed.

(** ** The device window *)

Lemma device_region lay : valid lay -> 0 < device_len lay ->
  dev_l1 lay = Some (slot_of (device_base lay) 30) /\
  exists n i2, device_len lay = n * BLOCK_SIZE /\
    region_at (device_base lay) (device_len lay) (slot_of (device_base lay) 30) i2.
Proof.
  intros Hv Hl. pose proof (device_room lay Hl) as Hd. split; [done|].
  destruct (vl_region _ Hv (slot_of (device_base lay) 30) (device_base lay) (device_len lay)) as (i2 & Hr).
  { right. right. by right. }
  pose proof (vl_len _ Hv) as Hn. apply N.Lcm0.mod_divide in Hn as (n & Hn). by exists n, i2.
Qed.

Lemma dev_word_at lay k :
  k * BLOCK_SIZE < device_len lay ->
  dev_word lay (dev_l2 lay + k) = N.lor (N.land (device_base lay + k * BLOCK_SIZE) ADDR_2M) BLOCK_DEVICE.
Proof.
  intros Hk. unfold dev_word. replace (dev_l2 lay + k - dev_l2 lay) with k by lia.
  rewrite decide_True; [done|lia].
Qed.

Lemma wp_device_from lay n i2 fuel k t (Q : Tables -> unit -> Prop) :
  device_len lay = n * BLOCK_SIZE ->
  region_at (device_base lay) (device_len lay) (slot_of (device_base lay) 30) i2 ->
  0 < n -> k <= n -> (N.to_nat (n - k) < fuel)%nat ->
  partial (dev_word lay) (dev_l2 lay) k (l2_dev t) ->
  (forall v, holds (dev_word lay) v -> Q (lset l2_dev_l v t) tt) ->
  wp (emit_device_from lay fuel (device_base lay + k * BLOCK_SIZE)) Q t.
Proof.
  intros Hn Hr Hpos. revert k t Q. induction fuel as [|fuel IH]; intros k t Q Hk Hf Hp HQ; [lia|].
  assert (Hfit : device_base lay + device_len lay <= u64_max).
  { destruct (region_block _ _ _ _ (n - 1) Hr) as (_ & _ & _ & _ & Ha); [unfold BLOCK_SIZE in *; lia|].
    change ADDRESSABLE with 549755813888 in Ha. unfold u64_max, BLOCK_SIZE in *. lia. }
  cbn [emit_device_from]. apply wp_bind, wp_uadd; [done|].
  destruct (N.ltb_spec (device_base lay + k * BLOCK_SIZE) (device_base lay + device_len lay)) as [Hlt|Hge].
  - assert (Hkn : k < n) by (unfold BLOCK_SIZE in *; lia).
    destruct (region_block _ _ _ _ k Hr) as (_ & Hslot & Hs & _ & _); [lia|].
    rewrite Hslot. destruct Hp as [Hl Hp]. apply wp_bind, wp_index_set; [by simpl; rewrite Hl|].
    apply wp_bind, wp_uadd; [unfold BLOCK_SIZE in *; lia|].
    replace (device_base lay + k * BLOCK_SIZE + BLOCK_SIZE)
      with (device_base lay + (k + 1) * BLOCK_SIZE) by lia.
    apply IH; [lia|lia| |].
    + apply partial_write; try done. rewrite dev_word_at by lia. done.
    + intros v Hv. specialize (HQ v Hv). by destruct t.
  - apply wp_ret. assert (k = n) as -> by (unfold BLOCK_SIZE in *; lia).
    specialize (HQ (l2_dev t)). destruct t. apply HQ. apply (partial_holds _ _ _ _ Hp).
    intros i Hi Hni. unfold dev_word. rewrite decide_False; [done|]. unfold BLOCK_SIZE in *. lia.
Qed.

Lemma wp_device lay t (Q : Tables -> unit -> Prop) :
  valid lay -> vlen (l1 t) = TABLE_ENTRIES -> l2_dev t = vrepeat TABLE_ENTRIES 0 ->
  (forall v, holds (dev_word lay) v ->
     Q (lset l2_dev_l v (lset l1_l (foldl (fun l i => vset l i (table_desc (l2_dev_pa lay))) (l1 t)
          (option_list (dev_l1 lay))) t)) tt) ->
  wp (emit_device lay) Q t.
Proof.
  intros Hv Hl Ht HQ. unfold emit_device. destruct (N.ltb_spec 0 (device_len lay)) as [H|H].
  - destruct (device_region lay Hv H) as (Hd & n & i2 & Hn & Hr). rewrite Hd in HQ.
    apply wp_bind, wp_index_set; [by simpl; rewrite Hl; apply slot_lt|].
    rewrite <- (N.add_0_r (device_base lay)) at 1.
    change (wp (emit_device_from lay (N.to_nat (device_len lay / BLOCK_SIZE + 2))
      (device_base lay + 0 * BLOCK_SIZE)) Q (lset l1_l
        (vset (l1 t) (slot_of (device_base lay) 30) (table_desc (l2_dev_pa lay))) t)).
    assert (0 < n) by (unfold BLOCK_SIZE in *; lia).
    apply (wp_device_from lay n i2); try done; [lia| |].
    + rewrite Hn, N.div_mul by done. lia.
    + simpl. rewrite Ht. apply partial_zero.
  - apply wp_ret. assert (Hd : dev_l1 lay = None).
    { unfold dev_l1. destruct (N.ltb_spec 0 (device_len lay)); [lia|done]. }
    rewrite Hd in HQ. simpl in HQ. specialize (HQ (l2_dev t)). destruct t. apply HQ. rewrite Ht.
    split; [apply vlen_vrepeat|]. intros i Hi. rewrite vget_vrepeat, decide_True by done.
    unfold dev_word. rewrite decide_False; [done|lia].
Qed.

(** ** The whole emission *)

Lemma l1_word_code lay p : guest_image_pa lay = Some p ->
  l1_word lay (slot_of p 30) = table_desc (l2_code_pa lay).
Proof. intros H. unfold l1_word, code_l1. rewrite H. by rewrite decide_True. Qed.

Lemma code_l1_ne lay i : valid lay -> i = data_l1 lay \/ i = sup_l1 lay \/ dev_l1 lay = Some i ->
  code_l1 lay <> Some i.
Proof.
  intros Hv Hi. unfold code_l1. destruct (guest_image_pa lay) as [p|] eqn:E; [|done].
  intros [= <-]. destruct (vl_code _ Hv p E) as (H1 & H2 & H3). by destruct Hi as [Hi|[Hi|Hi] ].
Qed.

Lemma l1_word_data lay : valid lay -> l1_word lay (data_l1 lay) = table_desc (l2_data_pa lay).
Proof.
  intros Hv. unfold l1_word. rewrite decide_False by (apply code_l1_ne; auto). by rewrite decide_True.
Qed.

Lemma l1_word_sup lay : valid lay -> l1_word lay (sup_l1 lay) = table_desc (l2_sup_pa lay).
Proof.
  intros Hv. unfold l1_word. rewrite decide_False by (apply code_l1_ne; auto).
  rewrite decide_False by (intros H; by apply (vl_data_sup _ Hv)). by rewrite decide_True.
Qed.

Lemma l1_word_dev lay i : valid lay -> dev_l1 lay = Some i -> l1_word lay i = table_desc (l2_dev_pa lay).
Proof.
  intros Hv Hi. unfold l1_word. rewrite decide_False by (apply code_l1_ne; auto).
  destruct (vl_dev _ Hv i Hi) as [H1 H2]. rewrite !decide_False by done. by rewrite decide_True.
Qed.

(** The [L1] slots of the layout's regions, in the order they are written. *)
Definition l1_live (lay : Layout) : list N :=
  option_list (code_l1 lay) ++ [data_l1 lay; sup_l1 lay] ++ option_list (dev_l1 lay).

Lemma l1_word_live lay i : l1_word lay i <> 0 -> i ∈ l1_live lay.
Proof.
  unfold l1_word, l1_live. intros H. rewrite !elem_of_app, !elem_of_cons.
  repeat case_decide; try done; destruct (code_l1 lay), (dev_l1 lay); simplify_eq/=; set_solver.
Qed.

Lemma wp_image lay t (Q : Tables -> unit -> Prop) :
  vlen (l1 t) = TABLE_ENTRIES -> vlen (l2_code t) = TABLE_ENTRIES ->
  Q (lset l2_code_l (write_all (code_word lay) (option_list (code_l2 lay)) (l2_code t))
      (lset l1_l (write_all (l1_word lay) (option_list (code_l1 lay)) (l1 t)) t)) tt ->
  wp (emit_image lay) Q t.
Proof.
  intros Hl Hc HQ. unfold emit_image, code_l2, code_l1 in *.
  destruct (guest_image_pa lay) as [p|] eqn:E; simpl in HQ; [|by apply wp_ret; destruct t].
  rewrite (l1_word_code lay p E) in HQ. unfold code_word in HQ. rewrite E, decide_True in HQ by done.
  apply wp_bind, wp_index_set; [by simpl; rewrite Hl; apply slot_lt|].
  apply wp_index_set; [by simpl; rewrite Hc; apply slot_lt|done].
Qed.

Lemma wp_clear (l : lens Tables (list N)) t (Q : Tables -> unit -> Prop) :
  Q (lset l (vrepeat TABLE_ENTRIES 0) t) tt -> wp (clear_table l) Q t.
Proof. done. Qed.

Lemma encode_emitted lay leaves supers t0 :
  valid lay -> nameable_windows lay supers -> skeleton lay t0 ->
  wp (encode leaves supers lay) (fun t _ => emitted lay leaves supers t) t0.
Proof.
  intros Hv Hw [H1 Hc Hd]. pose proof H1 as [L1 _]. pose proof Hc as [Lc _]. pose proof Hd as [Ld _].
  unfold encode. apply wp_bind, wp_image; [done|done|].
  apply wp_bind, wp_index_set; [by simpl; rewrite vlen_write_all, L1; apply slot_lt|].
  apply wp_bind, wp_index_set; [by simpl; rewrite Ld; apply slot_lt|].
  apply wp_bind, wp_clear, wp_bind. eapply wp_leaves; [done|done|done|]. intros v3 H3.
  apply wp_bind, wp_index_set; [by simpl; rewrite vlen_vset, vlen_write_all, L1; apply slot_lt|].
  apply wp_bind, wp_clear, wp_bind. eapply wp_supers; [done|done|done|]. intros vs Hs.
  apply wp_bind, wp_clear. apply wp_device; [done| |done|].
  { simpl. by rewrite !vlen_vset, vlen_write_all, L1. }
  intros vd Hdev. cbn -[vset write_all foldl table_desc slot_of TABLE_ENTRIES].
  split; cbn -[vset write_all foldl table_desc slot_of TABLE_ENTRIES]; try done.
  - set (l := vset _ _ _).
    assert (foldl (fun l i => vset l i (table_desc (l2_dev_pa lay))) l (option_list (dev_l1 lay)) =
      write_all (l1_word lay) (l1_live lay) (l1 t0)) as ->; [|by apply write_all_holds; [|intros i _; apply l1_word_live] ].
    unfold l1_live, write_all. rewrite !foldl_app. cbn [foldl].
    rewrite l1_word_data, l1_word_sup by done. unfold l.
    destruct (dev_l1 lay) as [i|] eqn:E; [|done]. 
    change (option_list (Some i)) with [i]. cbn [foldl]. by rewrite (l1_word_dev lay i).
  - apply write_all_holds; [done|]. intros i _. unfold code_word, code_l2.
    destruct (guest_image_pa lay) as [p|]; [|done]. case_decide; [subst; set_solver|done].
  - change (vset (l2_data t0) (slot_of (data_ipa_base lay) 21) (table_desc (l3_data_pa lay)))
      with (vset (l2_data t0) (data_l2 lay) (table_desc (l3_data_pa lay))).
    assert (table_desc (l3_data_pa lay) = data_word lay (data_l2 lay)) as ->.
    { unfold data_word. by rewrite decide_True. }
    apply (write_all_holds (data_word lay) [data_l2 lay]); [done|]. intros i _. unfold data_word.
    case_decide; [subst; set_solver|done].
Qed.
