(* ===== verification/Walk.v ===== *)
(** * Walking the emitted tables — [hv-s2/src/arm64.rs], the agreement of the walker

    [window_reach] never panics on a layout that validates and computes [target]; a walk of
    emitted tables computes the same. *)

From Stdlib Require Import NArith Lia Btauto String.
From stdpp Require Import base numbers list option sets.
From S2P Require Import Bits.
From S2P Require Import Irouter.
From S2P Require Import LeafMap.
From S2P Require Import Arm64.
From S2P Require Import Stage2.
From S2P Require Import Emission.
From S2P Require Import Prelude.
#[local] Open Scope N_scope.

(** ** Specification *)

Definition in_window (base span ipa : N) : bool := (base <=? ipa) && (ipa - base <? span).

(** What an address reaches through a leaf of [unit_]-sized frames based at [pa_base]. *)
Definition leaf_target (leaves : list (option Perm)) (exempt : bool) (pa_base unit_ off : N) :
    option Reach :=
  match wanted leaves (off / unit_) with
  | Some p => Some (mkReach (pa_base + off) (fst (leaf_access_xn p exempt)) (snd (leaf_access_xn p exempt)))
  | None => None
  end.

Definition in_image (lay : Layout) (ipa : N) : bool :=
  match guest_image_pa lay with Some p => in_window p BLOCK_SIZE ipa | None => false end.

(** What the layout and the leaf maps say an address reaches. *)
Definition target (lay : Layout) (leaves supers : list (option Perm)) (ipa : N) : option Reach :=
  if in_image lay ipa then Some (mkReach ipa Ro false)
  else if in_window (data_ipa_base lay) BLOCK_SIZE ipa then
    leaf_target leaves false (data_pa_base lay) PAGE_SIZE (ipa - data_ipa_base lay)
  else if in_window (sup_ipa_base lay) (sup_frames lay * BLOCK_SIZE) ipa then
    leaf_target supers (sup_wx_exempt lay) (sup_pa_base lay) BLOCK_SIZE (ipa - sup_ipa_base lay)
  else if in_window (device_base lay) (device_len lay) ipa then Some (mkReach ipa Rw true)
  else None.

(** The memory the walker reads: the six tables at their addresses. *)
Record fetches (lay : Layout) (t : Tables) (fetch : N -> N -> N) : Prop := mkFetches {
  ft_l1 : forall i w, vget (l1 t) i = Some w -> fetch (l1_pa lay) i = w;
  ft_code : forall i w, vget (l2_code t) i = Some w -> fetch (l2_code_pa lay) i = w;
  ft_data : forall i w, vget (l2_data t) i = Some w -> fetch (l2_data_pa lay) i = w;
  ft_l3 : forall i w, vget (l3_data t) i = Some w -> fetch (l3_data_pa lay) i = w;
  ft_sup : forall i w, vget (l2_sup t) i = Some w -> fetch (l2_sup_pa lay) i = w;
  ft_dev : forall i w, vget (l2_dev t) i = Some w -> fetch (l2_dev_pa lay) i = w;
}.

(** ** Windows *)

Lemma in_window_far base span i1 i2 ipa :
  region_at base span i1 i2 -> ADDRESSABLE <= ipa -> in_window base span ipa = false.
Proof.
  intros [ [-> H1 _ _ _] Hr] Ha. change ADDRESSABLE with 549755813888 in Ha.
  change L1_ENTRY_SIZE with 1073741824 in Hr. unfold in_window, BLOCK_SIZE in *.
  destruct (N.leb_spec (i1 * 1073741824 + i2 * 2097152 + 0 * 4096 + 0) ipa); [|done]. simpl.
  apply N.ltb_ge. lia.
Qed.

Lemma in_window_other base span i1 i2 ipa p1 p2 p3 r :
  region_at base span i1 i2 -> split ipa p1 p2 p3 r -> p1 <> i1 -> in_window base span ipa = false.
Proof.
  intros [ [-> H1 _ _ _] Hr] [-> P1 P2 P3 Pr] Hne. change L1_ENTRY_SIZE with 1073741824 in Hr.
  unfold in_window, BLOCK_SIZE in *. apply andb_false_iff. rewrite N.leb_gt, N.ltb_ge. lia.
Qed.

Lemma in_window_same base span i2 ipa p1 p2 p3 r :
  region_at base span p1 i2 -> split ipa p1 p2 p3 r ->
  in_window base span ipa = (i2 <=? p2) && ((p2 - i2) * BLOCK_SIZE + p3 * PAGE_SIZE + r <? span) /\
  (i2 <= p2 -> ipa - base = (p2 - i2) * BLOCK_SIZE + p3 * PAGE_SIZE + r).
Proof.
  intros [ [-> H1 _ _ _] Hr] [-> P1 P2 P3 Pr]. change PAGE_SIZE with 4096.
  unfold in_window, BLOCK_SIZE in *. split; [|lia]. apply eq_true_iff_eq.
  rewrite !andb_true_iff, !N.leb_le, !N.ltb_lt. lia.
Qed.

(** ** The stated reach never panics *)

Lemma in_window_true base span ipa :
  in_window base span ipa = true <-> base <= ipa /\ ipa - base < span.
Proof. unfold in_window. by rewrite andb_true_iff, N.leb_le, N.ltb_lt. Qed.

Lemma data_region lay : valid lay -> exists i2,
  region_at (data_ipa_base lay) BLOCK_SIZE (data_l1 lay) i2.
Proof. intros Hv. apply (vl_region _ Hv). right. by left. Qed.

Lemma sup_frames_lt lay : valid lay -> sup_frames lay <= TABLE_ENTRIES.
Proof.
  intros Hv. destruct (super_region lay Hv) as (i2 & Hr). pose proof (rg_room _ _ _ _ Hr) as H.
  change L1_ENTRY_SIZE with (TABLE_ENTRIES * BLOCK_SIZE) in H. unfold BLOCK_SIZE, TABLE_ENTRIES in *. lia.
Qed.

(** The frame of an offset, and the offset put back together. *)
Lemma div_bound off n c : c <> 0 -> off < n * c -> off / c < n.
Proof. intros Hc H. apply N.Div0.div_lt_upper_bound. by rewrite N.mul_comm. Qed.

Lemma div_mod_add b off c : c <> 0 -> b + off / c * c + off mod c = b + off.
Proof. intros Hc. pose proof (N.div_mod off c Hc). lia. Qed.

(** One window of leaves, as [window_reach] computes it. *)
Lemma leaf_window_Done {S} (leaves : list (option Perm)) exempt pa_base c off n
    (addr : N -> M S N) (s : S) :
  c <> 0 -> off < n * c -> n <= TABLE_ENTRIES -> pa_base + n * c <= u64_max ->
  (forall m, m < n -> addr m s = Done s (pa_base + m * c)) ->
  match vget leaves (as_u32 (off / c)) with
  | Some (Some p) =>
      let '(access, x) := leaf_access_xn p exempt in
      let! b := addr (as_u32 (off / c)) in
      let! a := uadd u64_max b (off mod c) in
      ret (Some (mkReach a access x))
  | _ => ret None
  end s = Done s (leaf_target leaves exempt pa_base c off).
Proof.
  intros Hc Hoff Hn Hu Haddr. pose proof (div_bound off n c Hc Hoff) as Hm.
  rewrite small_u32 by lia. unfold leaf_target, wanted.
  destruct (vget leaves (off / c)) as [ [p|]|]; [|done|done].
  destruct (leaf_access_xn p exempt) as [access x]. unfold bind. rewrite Haddr by done.
  pose proof (div_mod_add pa_base off c Hc) as E. rewrite uadd_Done by lia. rewrite E. done.
Qed.

Lemma window_reach_target {S} lay leaves supers ipa (s : S) :
  valid lay -> nameable_windows lay supers ->
  window_reach lay leaves supers ipa s = Done s (target lay leaves supers ipa).
Proof.
  intros Hv Hw. pose proof (nw_data _ _ Hw) as Hd. pose proof (nw_sup _ _ Hw) as Hs.
  change (2 ^ 48) with 281474976710656 in *. pose proof (sup_frames_lt lay Hv) as Hn.
  unfold window_reach, target, in_image. rewrite (vl_frame _ Hv).
  fold (in_window (data_ipa_base lay) (TABLE_ENTRIES * PAGE_SIZE) ipa).
  match goal with |- (if ?b then _ else _) _ = Done _ (if ?c then _ else _) => change c with b; destruct b end;
    [done|].
  unfold bind at 1. rewrite (umul_Done TABLE_ENTRIES PAGE_SIZE) by done.
  change (TABLE_ENTRIES * PAGE_SIZE) with BLOCK_SIZE. fold (in_window (data_ipa_base lay) BLOCK_SIZE ipa).
  destruct (in_window (data_ipa_base lay) BLOCK_SIZE ipa) eqn:Ed.
  { apply in_window_true in Ed as [_ Ed]. apply (leaf_window_Done _ _ _ _ _ TABLE_ENTRIES); try done.
    - unfold u64_max, BLOCK_SIZE in *. change (TABLE_ENTRIES * PAGE_SIZE) with 2097152. lia.
    - intros m Hm. by eapply frame_pa_Done. }
  unfold super_size. rewrite (vl_frame _ Hv). unfold bind at 1.
  rewrite (umul_Done TABLE_ENTRIES PAGE_SIZE) by done. change (TABLE_ENTRIES * PAGE_SIZE) with BLOCK_SIZE.
  assert (E : (if sup_ipa_base lay <=? ipa
               then let! span := umul (sup_frames lay) BLOCK_SIZE in ret (ipa - sup_ipa_base lay <? span)
               else ret false) s = Done s (in_window (sup_ipa_base lay) (sup_frames lay * BLOCK_SIZE) ipa)).
  { unfold in_window. destruct (sup_ipa_base lay <=? ipa); [|done]. unfold bind.
    rewrite umul_Done; [done|]. unfold u64_max. lia. }
  unfold bind at 1. rewrite E. clear E.
  destruct (in_window (sup_ipa_base lay) (sup_frames lay * BLOCK_SIZE) ipa) eqn:Es.
  { apply in_window_true in Es as [_ Es]. apply (leaf_window_Done _ _ _ _ _ (sup_frames lay)); try done.
    - unfold u64_max. lia.
    - intros m Hm. by eapply super_pa_Done. }
  unfold in_window. destruct (N.ltb_spec 0 (device_len lay)) as [Hl|Hl]; cbn [andb].
  - by destruct (_ && _).
  - destruct (N.ltb_spec (ipa - device_base lay) (device_len lay)); [lia|]. by rewrite andb_false_r.
Qed.

(** ** Steps of the walk *)

Section Steps.
Context (lay : Layout) (fetch : N -> N -> N) (ipa p1 p2 p3 r tbl : N).
Hypothesis Hs : split ipa p1 p2 p3 r.
Hypothesis Htbl : tbl mod PAGE_SIZE = 0 /\ tbl < 2 ^ 48.
Hypothesis H1 : fetch (l1_pa lay) p1 = table_desc tbl.

Lemma split_addressable : (ADDRESSABLE <=? ipa) = false.
Proof.
  apply N.leb_gt. destruct Hs as [-> ? ? ? ?]. change ADDRESSABLE with 549755813888. lia.
Qed.

Lemma walk_block d :
  decode_block (fetch tbl p2) = Some d ->
  walk (l1_pa lay) ipa fetch =
    Some (mkReach (N.lor (pa d) (p3 * 4096 + r)) (perm d) (xn d)).
Proof.
  intros Hd. destruct (split_slots _ _ _ _ _ Hs) as (E1 & E2 & _ & E4 & _). unfold walk.
  rewrite split_addressable, E1, H1, (proj1 (decode_table_word tbl (proj1 Htbl) (proj2 Htbl))).
  by rewrite E2, Hd, E4.
Qed.

Lemma walk_dead : fetch tbl p2 = 0 -> walk (l1_pa lay) ipa fetch = None.
Proof.
  intros Hd. destruct (split_slots _ _ _ _ _ Hs) as (E1 & E2 & _). unfold walk.
  rewrite split_addressable, E1, H1, (proj1 (decode_table_word tbl (proj1 Htbl) (proj2 Htbl))).
  by rewrite E2, Hd.
Qed.

Lemma walk_page leaf :
  leaf mod PAGE_SIZE = 0 -> leaf < 2 ^ 48 -> fetch tbl p2 = table_desc leaf ->
  walk (l1_pa lay) ipa fetch =
    match decode_page (fetch leaf p3) with
    | Some d => Some (mkReach (N.lor (pa d) r) (perm d) (xn d))
    | None => None
    end.
Proof.
  intros Hl1 Hl2 Hd. destruct (split_slots _ _ _ _ _ Hs) as (E1 & E2 & E3 & _ & E5). unfold walk.
  rewrite split_addressable, E1, H1, (proj1 (decode_table_word tbl (proj1 Htbl) (proj2 Htbl))).
  destruct (decode_table_word leaf Hl1 Hl2) as [T1 T2].
  rewrite E2, Hd, T2, T1, E3, E5. by destruct (decode_page _).
Qed.
End Steps.

Lemma split_aligned a q1 q2 : split a q1 q2 0 0 -> a mod BLOCK_SIZE = 0.
Proof.
  intros [-> _ _ _ _]. replace (q1 * 1073741824 + q2 * 2097152 + 0 * 4096 + 0)
    with ((q1 * 512 + q2) * BLOCK_SIZE) by (unfold BLOCK_SIZE; lia). by apply N.Div0.mod_mul.
Qed.

Lemma mod_add_mul x k c : x mod c = 0 -> (x + k * c) mod c = 0.
Proof. intros H. by rewrite N.Div0.mod_add. Qed.

(** The frame of an offset given by its parts. *)
Lemma div_parts q c y : y < c -> (q * c + y) / c = q.
Proof. intros H. rewrite N.div_add_l by lia. rewrite N.div_small by done. lia. Qed.

(** ** Agreement, one [L1] entry at a time *)

Section Agreement.
Context (lay : Layout) (leaves supers : list (option Perm)) (t : Tables) (fetch : N -> N -> N).
Hypothesis Hv : valid lay.
Hypothesis Hw : nameable_windows lay supers.
Hypothesis He : emitted lay leaves supers t.
Hypothesis Hf : fetches lay t fetch.

Lemma image_region p : guest_image_pa lay = Some p -> exists i2, region_at p BLOCK_SIZE (slot_of p 30) i2.
Proof. intros Hp. apply (vl_region _ Hv). by left. Qed.

Lemma in_image_other ipa p1 p2 p3 r :
  split ipa p1 p2 p3 r -> code_l1 lay <> Some p1 -> in_image lay ipa = false.
Proof.
  unfold in_image, code_l1. intros Hs Hne. destruct (guest_image_pa lay) as [p|] eqn:E; [|done].
  destruct (image_region p E) as (i2 & Hr). apply (in_window_other _ _ _ _ _ _ _ _ _ Hr Hs).
  intros ->. by apply Hne.
Qed.

Lemma in_device_other ipa p1 p2 p3 r :
  split ipa p1 p2 p3 r -> dev_l1 lay <> Some p1 -> in_window (device_base lay) (device_len lay) ipa = false.
Proof.
  intros Hs Hne. destruct (N.eq_0_gt_0_cases (device_len lay)) as [Hz|Hl].
  - unfold in_window. rewrite Hz. destruct (N.ltb_spec (ipa - device_base lay) 0); [lia|apply andb_false_r].
  - destruct (device_region lay Hv Hl) as (Hd & n & i2 & _ & Hr).
    apply (in_window_other _ _ _ _ _ _ _ _ _ Hr Hs). intros ->. by apply Hne.
Qed.

Lemma in_data_other ipa p1 p2 p3 r :
  split ipa p1 p2 p3 r -> p1 <> data_l1 lay -> in_window (data_ipa_base lay) BLOCK_SIZE ipa = false.
Proof.
  intros Hs Hne. destruct (data_region lay Hv) as (i2 & Hr).
  by apply (in_window_other _ _ _ _ _ _ _ _ _ Hr Hs).
Qed.

Lemma in_super_other ipa p1 p2 p3 r :
  split ipa p1 p2 p3 r -> p1 <> sup_l1 lay ->
  in_window (sup_ipa_base lay) (sup_frames lay * BLOCK_SIZE) ipa = false.
Proof.
  intros Hs Hne. destruct (super_region lay Hv) as (i2 & Hr).
  by apply (in_window_other _ _ _ _ _ _ _ _ _ Hr Hs).
Qed.

Lemma table_at p : p ∈ [l1_pa lay; l2_code_pa lay; l2_data_pa lay; l3_data_pa lay; l2_sup_pa lay; l2_dev_pa lay] ->
  p mod PAGE_SIZE = 0 /\ p < 2 ^ 48.
Proof. apply (vl_tables _ Hv). Qed.

Lemma fetch_l1 ipa p1 p2 p3 r : split ipa p1 p2 p3 r -> fetch (l1_pa lay) p1 = l1_word lay p1.
Proof. intros [_ H _ _ _]. apply (ft_l1 _ _ _ Hf). by apply (em_l1 _ _ _ _ He). Qed.

Lemma walk_image ipa p1 p2 p3 r :
  split ipa p1 p2 p3 r -> code_l1 lay = Some p1 ->
  walk (l1_pa lay) ipa fetch = if in_image lay ipa then Some (mkReach ipa Ro false) else None.
Proof.
  intros Hs Hc. pose proof (fetch_l1 _ _ _ _ _ Hs) as H1. unfold l1_word in H1.
  rewrite decide_True in H1 by done. unfold code_l1 in Hc.
  destruct (guest_image_pa lay) as [p|] eqn:E; [|done]. injection Hc as <-.
  assert (Hfc : fetch (l2_code_pa lay) p2 = code_word lay p2).
  { apply (ft_code _ _ _ Hf), (em_code _ _ _ _ He). by destruct Hs. }
  unfold code_word in Hfc. rewrite E in Hfc. unfold in_image. rewrite E.
  assert (Ht : l2_code_pa lay mod PAGE_SIZE = 0 /\ l2_code_pa lay < 2 ^ 48) by (apply table_at; set_solver).
  destruct (image_region p E) as (i2 & Hr). destruct (in_window_same _ _ _ _ _ _ _ _ Hr Hs) as [-> Hoff].
  destruct (region_block _ _ _ _ 0 Hr) as (Hs0 & _ & _ & Hi2 & _); [done|].
  change PAGE_SIZE with 4096 in *. case_decide as Hd.
  - rewrite Hi2 in Hd. subst p2. rewrite N.leb_refl, N.sub_diag.
    destruct Hr as [Hsp _]. pose proof Hsp as [Ep ? ? _ _]. pose proof Hs as [Ei ? ? ? ?].
    rewrite (proj2 (N.ltb_lt _ _)) by (unfold BLOCK_SIZE; lia). simpl.
    pose proof (split_aligned _ _ _ Hsp) as Hp.
    erewrite (walk_block lay fetch ipa); [|done|done|done|rewrite Hfc; apply decode_image_word; [done|lia] ].
    simpl. rewrite (lor_add _ _ 21); [|done|lia]. do 2 f_equal. lia.
  - rewrite Hi2 in Hd. erewrite (walk_dead lay fetch ipa); [|done|done|done|done].
    destruct (N.leb_spec i2 p2); [|done]. simpl. destruct (N.ltb_spec ((p2 - i2) * BLOCK_SIZE + p3 * 4096 + r) BLOCK_SIZE);
      [unfold BLOCK_SIZE in *; lia|done].
Qed.
Lemma walk_super ipa p1 p2 p3 r :
  split ipa p1 p2 p3 r -> p1 = sup_l1 lay -> l1_word lay p1 = table_desc (l2_sup_pa lay) ->
  walk (l1_pa lay) ipa fetch =
    if in_window (sup_ipa_base lay) (sup_frames lay * BLOCK_SIZE) ipa
    then leaf_target supers (sup_wx_exempt lay) (sup_pa_base lay) BLOCK_SIZE (ipa - sup_ipa_base lay)
    else None.
Proof.
  intros Hs -> Hl1. pose proof (fetch_l1 _ _ _ _ _ Hs) as H1. rewrite Hl1 in H1.
  assert (Hfc : fetch (l2_sup_pa lay) p2 = sup_word lay supers p2).
  { apply (ft_sup _ _ _ Hf), (em_sup _ _ _ _ He). by destruct Hs. }
  assert (Ht : l2_sup_pa lay mod PAGE_SIZE = 0 /\ l2_sup_pa lay < 2 ^ 48) by (apply table_at; set_solver).
  destruct (super_region lay Hv) as (i2 & Hr). destruct (in_window_same _ _ _ _ _ _ _ _ Hr Hs) as [-> Hoff].
  assert (Hi2 : sup_l2 lay = i2).
  { destruct (split_slots _ _ _ _ _ (rg_split _ _ _ _ Hr)) as (_ & E & _). exact E. }
  assert (Hlow : p3 * PAGE_SIZE + r < BLOCK_SIZE).
  { destruct Hs. change PAGE_SIZE with 4096. unfold BLOCK_SIZE. lia. }
  unfold sup_word in Hfc. rewrite Hi2 in Hfc.
  destruct (N.leb_spec i2 p2) as [Hle|Hgt]; simpl.
  2: { rewrite decide_False in Hfc by lia. by apply (walk_dead lay fetch ipa (sup_l1 lay) p2 p3 r (l2_sup_pa lay)). }
  rewrite decide_True in Hfc by done. rewrite (Hoff Hle), <- N.add_assoc.
  unfold leaf_target. rewrite div_parts by done.
  destruct (wanted supers (p2 - i2)) as [p|] eqn:Ep.
  - pose proof (wanted_fit _ _ _ _ Hw Ep) as Hm.
    rewrite (proj2 (N.ltb_lt _ _)) by (unfold BLOCK_SIZE in *; lia).
    pose proof (nw_sup _ _ Hw) as Hpa.
    assert (Hal : (sup_pa_base lay + (p2 - i2) * BLOCK_SIZE) mod BLOCK_SIZE = 0) by (apply mod_add_mul, Hv).
    erewrite (walk_block lay fetch ipa); [|done|done|done|rewrite Hfc; apply decode_block_word; [done|unfold BLOCK_SIZE in *; lia] ].
    simpl. rewrite (lor_add _ _ 21); [|done|done]. do 2 f_equal. change PAGE_SIZE with 4096. lia.
  - rewrite (walk_dead lay fetch ipa (sup_l1 lay) p2 p3 r (l2_sup_pa lay)) by done. by destruct (_ <? _).
Qed.

Lemma walk_data ipa p1 p2 p3 r :
  split ipa p1 p2 p3 r -> p1 = data_l1 lay -> l1_word lay p1 = table_desc (l2_data_pa lay) ->
  walk (l1_pa lay) ipa fetch =
    if in_window (data_ipa_base lay) BLOCK_SIZE ipa
    then leaf_target leaves false (data_pa_base lay) PAGE_SIZE (ipa - data_ipa_base lay)
    else None.
Proof.
  intros Hs -> Hl1. pose proof (fetch_l1 _ _ _ _ _ Hs) as H1. rewrite Hl1 in H1.
  assert (Hfc : fetch (l2_data_pa lay) p2 = data_word lay p2).
  { apply (ft_data _ _ _ Hf), (em_data _ _ _ _ He). by destruct Hs. }
  assert (Hf3 : fetch (l3_data_pa lay) p3 = l3_word lay leaves p3).
  { apply (ft_l3 _ _ _ Hf), (em_l3 _ _ _ _ He). by destruct Hs. }
  assert (Ht : l2_data_pa lay mod PAGE_SIZE = 0 /\ l2_data_pa lay < 2 ^ 48) by (apply table_at; set_solver).
  assert (Ht3 : l3_data_pa lay mod PAGE_SIZE = 0 /\ l3_data_pa lay < 2 ^ 48) by (apply table_at; set_solver).
  destruct (data_region lay Hv) as (i2 & Hr). destruct (in_window_same _ _ _ _ _ _ _ _ Hr Hs) as [-> Hoff].
  assert (Hi2 : data_l2 lay = i2).
  { destruct (split_slots _ _ _ _ _ (rg_split _ _ _ _ Hr)) as (_ & E & _). exact E. }
  assert (Hlow : p3 * PAGE_SIZE + r < BLOCK_SIZE /\ r < PAGE_SIZE /\ p3 < TABLE_ENTRIES).
  { destruct Hs. change PAGE_SIZE with 4096. unfold BLOCK_SIZE, TABLE_ENTRIES. lia. }
  unfold data_word in Hfc. rewrite Hi2 in Hfc. case_decide as Hd.
  - subst p2. rewrite N.leb_refl, (Hoff (N.le_refl _)), N.sub_diag, N.mul_0_l, N.add_0_l.
    rewrite (proj2 (N.ltb_lt _ _)) by lia. simpl. unfold leaf_target. rewrite div_parts by lia.
    rewrite (walk_page lay fetch ipa _ _ _ _ _ Hs Ht H1 (l3_data_pa lay)); [|apply Ht3|apply Ht3|done].
    rewrite Hf3. unfold l3_word. destruct (wanted leaves p3) as [p|]; [|done].
    assert (Hal : (data_pa_base lay + p3 * PAGE_SIZE) mod PAGE_SIZE = 0) by (apply mod_add_mul, Hv).
    rewrite decode_page_word; [|done|].
    2: { pose proof (nw_data _ _ Hw). change BLOCK_SIZE with (TABLE_ENTRIES * PAGE_SIZE) in *.
         change PAGE_SIZE with 4096 in *. lia. }
    simpl. rewrite (lor_add _ _ 12); [|done|apply Hlow]. do 2 f_equal. lia.
  - rewrite (walk_dead lay fetch ipa (data_l1 lay) p2 p3 r (l2_data_pa lay)) by done.
    destruct (N.leb_spec i2 p2); [|done]. simpl. destruct (N.ltb_spec ((p2 - i2) * BLOCK_SIZE + p3 * PAGE_SIZE + r) BLOCK_SIZE);
      [unfold BLOCK_SIZE in *; lia|done].
Qed.

Lemma walk_device ipa p1 p2 p3 r :
  split ipa p1 p2 p3 r -> dev_l1 lay = Some p1 -> l1_word lay p1 = table_desc (l2_dev_pa lay) ->
  walk (l1_pa lay) ipa fetch =
    if in_window (device_base lay) (device_len lay) ipa then Some (mkReach ipa Rw true) else None.
Proof.
  intros Hs Hd Hl1. pose proof (fetch_l1 _ _ _ _ _ Hs) as H1. rewrite Hl1 in H1.
  assert (Hl : 0 < device_len lay).
  { unfold dev_l1 in Hd. destruct (N.ltb_spec 0 (device_len lay)); done. }
  destruct (device_region lay Hv Hl) as (Hd' & n & i2 & Hn & Hr). rewrite Hd' in Hd. injection Hd as Ep1.
  rewrite Ep1 in Hr.
  assert (Hfc : fetch (l2_dev_pa lay) p2 = dev_word lay p2).
  { apply (ft_dev _ _ _ Hf), (em_dev _ _ _ _ He). by destruct Hs. }
  assert (Ht : l2_dev_pa lay mod PAGE_SIZE = 0 /\ l2_dev_pa lay < 2 ^ 48) by (apply table_at; set_solver).
  destruct (in_window_same _ _ _ _ _ _ _ _ Hr Hs) as [-> Hoff].
  assert (Hi2 : dev_l2 lay = i2).
  { destruct (split_slots _ _ _ _ _ (rg_split _ _ _ _ Hr)) as (_ & E & _). exact E. }
  assert (Hlow : p3 * PAGE_SIZE + r < BLOCK_SIZE).
  { destruct Hs. change PAGE_SIZE with 4096. unfold BLOCK_SIZE. lia. }
  unfold dev_word in Hfc. rewrite Hi2 in Hfc.
  destruct (N.leb_spec i2 p2) as [Hle|Hgt]; simpl.
  2: { rewrite decide_False in Hfc by lia. by apply (walk_dead lay fetch ipa p1 p2 p3 r (l2_dev_pa lay)). }
  case_decide as Hin.
  - destruct Hin as [_ Hin]. assert (Hk : p2 - i2 < n) by (unfold BLOCK_SIZE in *; lia).
    rewrite (proj2 (N.ltb_lt _ _)) by (rewrite Hn; unfold BLOCK_SIZE in *; lia).
    destruct (region_block _ _ _ _ (p2 - i2) Hr Hin) as (Hsk & _ & _ & _ & Ha).
    pose proof (split_aligned _ _ _ Hsk) as Hal.
    erewrite (walk_block lay fetch ipa); [|done|done|done|].
    2: { rewrite Hfc. apply decode_device_word; [done|]. change ADDRESSABLE with 549755813888 in Ha.
         change (2 ^ 48) with 281474976710656. lia. }
    simpl. rewrite (lor_add _ _ 21); [|done|done]. do 2 f_equal. specialize (Hoff Hle).
    change PAGE_SIZE with 4096 in Hoff.
    destruct Hr as [ [-> ? ? _ _] _], Hs as [-> ? ? ? ?]. unfold BLOCK_SIZE. lia.
  - rewrite (walk_dead lay fetch ipa p1 p2 p3 r (l2_dev_pa lay)) by done.
    assert ((p2 - i2) * BLOCK_SIZE >= device_len lay) by lia.
    by destruct (N.ltb_spec ((p2 - i2) * BLOCK_SIZE + p3 * PAGE_SIZE + r) (device_len lay)); [lia|].
Qed.

Lemma walk_target ipa : walk (l1_pa lay) ipa fetch = target lay leaves supers ipa.
Proof.
  unfold target. destruct (N.lt_ge_cases ipa ADDRESSABLE) as [Ha|Ha].
  - destruct (split_addr ipa Ha) as (p1 & p2 & p3 & r & Hs).
    destruct (decide (code_l1 lay = Some p1)) as [Hc|Hc].
    { rewrite (walk_image ipa p1 p2 p3 r) by done. destruct (in_image lay ipa); [done|].
      pose proof (code_l1_ne lay p1 Hv) as Hx.
      rewrite (in_data_other ipa p1 p2 p3 r), (in_super_other ipa p1 p2 p3 r), (in_device_other ipa p1 p2 p3 r);
        auto; intros ?; apply Hx; auto. }
    rewrite (in_image_other ipa p1 p2 p3 r) by done.
    assert (Hw1 := fetch_l1 _ _ _ _ _ Hs). unfold l1_word in Hw1. rewrite decide_False in Hw1 by done.
    destruct (decide (p1 = data_l1 lay)) as [Hd|Hd].
    { rewrite (walk_data ipa p1 p2 p3 r); [|done|done|subst; by apply l1_word_data].
      destruct (in_window (data_ipa_base lay) BLOCK_SIZE ipa); [done|].
      rewrite (in_super_other ipa p1 p2 p3 r), (in_device_other ipa p1 p2 p3 r); try done.
      - intros Hx. by destruct (vl_dev _ Hv _ Hx).
      - intros Hx. apply (vl_data_sup _ Hv). congruence. }
    rewrite (in_data_other ipa p1 p2 p3 r) by done.
    destruct (decide (p1 = sup_l1 lay)) as [Hu|Hu].
    { rewrite (walk_super ipa p1 p2 p3 r); [|done|done|subst; by apply l1_word_sup].
      destruct (in_window (sup_ipa_base lay) _ ipa); [done|].
      rewrite (in_device_other ipa p1 p2 p3 r); try done.
      intros Hx. by destruct (vl_dev _ Hv _ Hx). }
    rewrite (in_super_other ipa p1 p2 p3 r) by done.
    destruct (decide (dev_l1 lay = Some p1)) as [He1|He1].
    { apply (walk_device ipa p1 p2 p3 r); [done|done|by apply l1_word_dev]. }
    rewrite (in_device_other ipa p1 p2 p3 r) by done.
    destruct (split_slots _ _ _ _ _ Hs) as (E1 & _). unfold walk. by rewrite E1, Hw1; destruct (_ <=? _).
  - unfold walk. rewrite (proj2 (N.leb_le _ _) Ha).
    destruct (data_region lay Hv) as (i2 & Hr2), (super_region lay Hv) as (i3 & Hr3).
    rewrite (in_window_far _ _ _ _ _ Hr2 Ha), (in_window_far _ _ _ _ _ Hr3 Ha).
    assert (in_image lay ipa = false) as ->.
    { unfold in_image. destruct (guest_image_pa lay) as [p|] eqn:E; [|done].
      destruct (image_region p E) as (i4 & Hr4). by rewrite (in_window_far _ _ _ _ _ Hr4 Ha). }
    destruct (N.eq_0_gt_0_cases (device_len lay)) as [Hz|Hl].
    + unfold in_window. rewrite Hz. destruct (N.ltb_spec (ipa - device_base lay) 0); [lia|by rewrite andb_false_r].
    + destruct (device_region lay Hv Hl) as (_ & n & i5 & _ & Hr5). by rewrite (in_window_far _ _ _ _ _ Hr5 Ha).
Qed.
End Agreement.
