(* ===== verification/ReadBack.v ===== *)
(** * Reading emitted tables back — [hv-s2/src/arm64.rs], the check and its gaps

    [verify_encoding] accepts what [encode] emits on every layout that validates and whose
    windows a descriptor can name; a word the emitter never wrote can pass it, and so can a
    window no descriptor can name. *)

From Stdlib Require Import NArith Lia Btauto String.
From stdpp Require Import base numbers list option sets.
From S2P Require Import Bits.
From S2P Require Import Irouter.
From S2P Require Import LeafMap.
From S2P Require Import Arm64.
From S2P Require Import Stage2.
From S2P Require Import Emission.
From S2P Require Import Walk.
From S2P Require Import Prelude.
#[local] Open Scope N_scope.

(** ** Dead slots *)

Lemma dead_except_intro {S} f table live nm (s : S) :
  holds f table -> (forall i, f i <> 0 -> i ∈ live) -> dead_except table live nm s = Done s (Ok tt).
Proof.
  intros [Hl Hh] Hlive. apply for_ok_intro. intros [i d] Hin%elem_enumerate.
  assert (Hi : i < TABLE_ENTRIES) by (rewrite <- Hl; by eapply vget_Some_lt).
  rewrite (Hh i Hi) in Hin. injection Hin as <-.
  destruct (N.eqb_spec (f i) 0) as [|Hne]; [done|]. simpl.
  assert (existsb (N.eqb i) live = true) as ->; [|done].
  apply existsb_exists. exists i. split; [by apply list_elem_of_In, Hlive|apply N.eqb_refl].
Qed.

Lemma index_holds {S} f table i (s : S) : holds f table -> i < TABLE_ENTRIES -> index table i s = Done s (f i).
Proof. intros [_ Hh] Hi. apply index_Done. by apply Hh. Qed.

(** ** The parts of the check *)

Section Check.
Context (lay : Layout) (leaves supers : list (option Perm)) (t : Tables).
Hypothesis Hv : valid lay.
Hypothesis Hw : nameable_windows lay supers.
Hypothesis He : emitted lay leaves supers t.

Lemma desc_back p :
  p ∈ [l1_pa lay; l2_code_pa lay; l2_data_pa lay; l3_data_pa lay; l2_sup_pa lay; l2_dev_pa lay] ->
  decode_table (table_desc p) = Some (N.land p ADDR_4K).
Proof.
  intros Hp. destruct (vl_tables _ Hv p Hp) as [H1 H2]. rewrite addr_4k by done.
  by apply decode_table_word.
Qed.

Lemma check_l1_ok e : e ∈ l1_expected lay -> check_l1 t e lay = Done lay (Ok tt).
Proof.
  intros Hin. assert (He1 : exists p, e.2 = N.land p ADDR_4K /\ l1_word lay e.1 = table_desc p /\
    e.1 < TABLE_ENTRIES /\
    p ∈ [l1_pa lay; l2_code_pa lay; l2_data_pa lay; l3_data_pa lay; l2_sup_pa lay; l2_dev_pa lay]).
  { unfold l1_expected in Hin. apply list_elem_of_omap in Hin as (o & Hin & Ho). unfold id in Ho. subst o.
    rewrite !elem_of_cons, elem_of_nil in Hin. destruct Hin as [Hin|[Hin|[Hin|[Hin|[] ] ] ] ].
    - injection Hin as ->. exists (l2_data_pa lay). split_and!; [done|by apply l1_word_data|apply slot_lt|set_solver].
    - injection Hin as ->. exists (l2_sup_pa lay). split_and!; [done|by apply l1_word_sup|apply slot_lt|set_solver].
    - unfold code_l1 in Hin. destruct (guest_image_pa lay) as [p|] eqn:E; [|done]. injection Hin as ->.
      exists (l2_code_pa lay). split_and!; [done|by apply l1_word_code|apply slot_lt|set_solver].
    - destruct (dev_l1 lay) as [i|] eqn:E; [|done]. injection Hin as ->.
      exists (l2_dev_pa lay). split_and!; [done|by apply l1_word_dev| |set_solver].
      unfold dev_l1 in E. destruct (_ <? _); [|done]. injection E as <-. apply slot_lt. }
  destruct e as [i x]. simpl in He1. destruct He1 as (p & -> & Hword & Hi & Hp). unfold check_l1.
  unfold bind. rewrite (index_holds _ _ _ _ (em_l1 _ _ _ _ He) Hi), Hword, (desc_back p Hp).
  by rewrite decide_True.
Qed.

Lemma l1_word_expected i : l1_word lay i <> 0 -> i ∈ (fst <$> l1_expected lay).
Proof.
  intros H. unfold l1_word in H. rewrite list_elem_of_fmap. unfold l1_expected.
  destruct (decide (code_l1 lay = Some i)) as [Hc|].
  { eexists (i, _). split; [done|]. apply list_elem_of_omap. rewrite Hc. eexists. split; [|done].
    right. right. by left. }
  destruct (decide (i = data_l1 lay)) as [->|].
  { eexists (_, _). split; [done|]. apply list_elem_of_omap. eexists. split; [by left|done]. }
  destruct (decide (i = sup_l1 lay)) as [->|].
  { eexists (_, _). split; [done|]. apply list_elem_of_omap. eexists. split; [right; by left|done]. }
  destruct (decide (dev_l1 lay = Some i)) as [Hd|]; [|done].
  eexists (i, _). split; [done|]. apply list_elem_of_omap. rewrite Hd. eexists. split; [|done].
  right. right. right. by left.
Qed.

Lemma image_region_of p : guest_image_pa lay = Some p -> p mod BLOCK_SIZE = 0 /\ p < 2 ^ 48.
Proof.
  intros Hp. destruct (vl_region _ Hv (slot_of p 30) p BLOCK_SIZE) as (i2 & Hr); [by left|].
  destruct (rg_split _ _ _ _ Hr) as [E ? ? _ _]. split; [by eapply split_aligned, Hr|].
  rewrite E. change (2 ^ 48) with 281474976710656. lia.
Qed.

Lemma check_image_ok : check_image lay t lay = Done lay (Ok tt).
Proof.
  unfold check_image, code_l2. pose proof (em_code _ _ _ _ He) as Hc.
  destruct (guest_image_pa lay) as [p|] eqn:E; simpl.
  - destruct (image_region_of p E) as [Ha Hlt]. unfold bind.
    assert (Hw0 : code_word lay (slot_of p 21) = N.lor (N.land p ADDR_2M) BLOCK_ROX).
    { unfold code_word. rewrite E. by rewrite decide_True. }
    rewrite (index_holds _ _ _ _ Hc (slot_lt _ _)), Hw0.
    rewrite decide_True by (rewrite (decode_image_word p Ha Hlt), (addr_2m p Ha Hlt); done).
    apply (dead_except_intro (code_word lay)); [done|]. intros i. unfold code_word. rewrite E.
    case_decide; [set_solver|done].
  - apply (dead_except_intro (code_word lay)); [done|]. intros i. unfold code_word. by rewrite E.
Qed.

Lemma check_l3_ok m : m < TABLE_ENTRIES -> check_l3 leaves lay t m lay = Done lay (Ok tt).
Proof.
  intros Hm. unfold check_l3. pose proof (index_holds _ _ m lay (em_l3 _ _ _ _ He) Hm) as Hi.
  unfold l3_word in Hi. destruct (wanted leaves m) as [p|].
  - rewrite small_u32 by done. unfold bind.
    pose proof (frame_pa_Done lay supers m lay Hv Hw Hm) as Hp.
    assert (Hal : (data_pa_base lay + m * PAGE_SIZE) mod PAGE_SIZE = 0) by (apply mod_add_mul, Hv).
    assert (Hlt : data_pa_base lay + m * PAGE_SIZE < 2 ^ 48).
    { pose proof (nw_data _ _ Hw). change BLOCK_SIZE with (TABLE_ENTRIES * PAGE_SIZE) in *.
      change PAGE_SIZE with 4096 in *. lia. }
    pose proof (decode_page_word _ p Hal Hlt) as Hd. pose proof (addr_4k _ Hal Hlt) as Ha.
    destruct (leaf_access_xn p false) as [access x]. rewrite Hp. unfold ret at 1. rewrite Hi.
    unfold lift, ret, leaf_mismatch. rewrite Hd, Ha. by rewrite decide_True.
  - unfold bind. unfold ret at 1. rewrite Hi. done.
Qed.

Lemma slot_shift a m : slot_of (a + m * BLOCK_SIZE) 21 = (slot_of a 21 + m) mod TABLE_ENTRIES.
Proof.
  rewrite !slot_of_div. change (2 ^ 21) with BLOCK_SIZE. rewrite N.div_add by done.
  unfold TABLE_ENTRIES. by rewrite N.Div0.add_mod_idemp_l.
Qed.

Lemma super_slot_zero m : m < TABLE_ENTRIES -> wanted supers m = None ->
  sup_word lay supers (slot_of (sup_ipa_base lay + m * BLOCK_SIZE) 21) = 0.
Proof.
  intros Hm Hn. rewrite slot_shift. fold (sup_l2 lay). unfold sup_word.
  pose proof (slot_lt (sup_ipa_base lay) 21) as Hs. fold (sup_l2 lay) in Hs.
  destruct (N.lt_ge_cases (sup_l2 lay + m) TABLE_ENTRIES) as [Hlt|Hge].
  - rewrite N.mod_small by done. replace (sup_l2 lay + m - sup_l2 lay) with m by lia.
    rewrite Hn. by case_decide.
  - assert (E : (sup_l2 lay + m) mod TABLE_ENTRIES = sup_l2 lay + m - TABLE_ENTRIES).
    { symmetry. apply (N.mod_unique _ _ 1); lia. }
    rewrite E, decide_False; [done|lia].
Qed.

Lemma check_sup_ok m : m < TABLE_ENTRIES -> check_sup supers lay t m lay = Done lay (Ok tt).
Proof.
  intros Hm. unfold check_sup. rewrite small_u32 by done.
  destruct (super_region lay Hv) as (i2 & Hr). pose proof (rg_split _ _ _ _ Hr) as Hs.
  destruct (split_slots _ _ _ _ _ Hs) as (_ & Hi2 & _).
  assert (Hipa : super_ipa lay m lay = Done lay (sup_ipa_base lay + m * BLOCK_SIZE)).
  { apply super_addr_Done; [done|]. destruct Hs as [-> ? ? _ _].
    unfold u64_max, BLOCK_SIZE, TABLE_ENTRIES in *. lia. }
  pose proof (index_holds _ _ (slot_of (sup_ipa_base lay + m * BLOCK_SIZE) 21) lay
    (em_sup _ _ _ _ He) (slot_lt _ _)) as Hi.
  destruct (wanted supers m) as [p|] eqn:Ep.
  - pose proof (wanted_fit _ _ _ _ Hw Ep) as Hlt.
    destruct (super_slot lay m Hv Hlt) as (Hslot & _ & _). unfold bind.
    pose proof (super_pa_Done lay supers m lay Hv Hw Hlt) as Hp.
    assert (Hal : (sup_pa_base lay + m * BLOCK_SIZE) mod BLOCK_SIZE = 0) by (apply mod_add_mul, Hv).
    assert (Hb : sup_pa_base lay + m * BLOCK_SIZE < 2 ^ 48).
    { pose proof (nw_sup _ _ Hw). unfold BLOCK_SIZE in *. lia. }
    pose proof (decode_block_word _ p (sup_wx_exempt lay) Hal Hb) as Hd. pose proof (addr_2m _ Hal Hb) as Ha.
    unfold sup_word in Hi. rewrite Hslot in Hi. rewrite decide_True in Hi by lia.
    replace (sup_l2 lay + m - sup_l2 lay) with m in Hi by lia. rewrite Ep in Hi.
    destruct (leaf_access_xn p (sup_wx_exempt lay)) as [access x]. rewrite Hp. unfold ret at 1. rewrite Hipa, Hslot, Hi.
    unfold lift, ret, leaf_mismatch. rewrite Hd, Ha. by rewrite decide_True.
  - assert (Hz : sup_word lay supers (slot_of (sup_ipa_base lay + m * BLOCK_SIZE) 21) = 0).
    { apply super_slot_zero; [|done]. done. }
    unfold bind. unfold ret at 1. rewrite Hipa, Hi, Hz. done.
Qed.
Lemma l1_base_of a q1 q2 :
  split a q1 q2 0 0 ->
  N.land a (bnot 64 (BLOCK_SIZE * TABLE_ENTRIES - 1)) = q1 * (TABLE_ENTRIES * BLOCK_SIZE).
Proof.
  intros Hs. change (BLOCK_SIZE * TABLE_ENTRIES - 1) with (N.ones 30).
  change (TABLE_ENTRIES * BLOCK_SIZE) with (2 ^ 30).
  assert (E : a / 2 ^ 30 = q1 /\ a < 2 ^ 64).
  { destruct Hs as [-> H1 H2 _ _]. change (2 ^ 30) with 1073741824. change (2 ^ 64) with 18446744073709551616.
    split; [|lia]. rewrite <- !N.add_assoc, N.div_add_l by done. rewrite N.div_small; lia. }
  destruct E as [<- Ha]. rewrite <- N.shiftl_mul_pow2, <- N.shiftr_div_pow2, <- N.ldiff_ones_r.
  apply N.bits_inj. intros i. autorewrite with bits.
  destruct (decide (i < 64)) as [H|H]; [|rewrite (testbit_high a 64) by (done || lia); done].
  rewrite (proj2 (N.ltb_lt i 64) H). split_compare; simpl; btauto.
Qed.

Lemma check_dev_ok idx : idx < TABLE_ENTRIES -> check_dev lay t idx lay = Done lay (Ok tt).
Proof.
  intros Hm. unfold check_dev. pose proof (index_holds _ _ idx lay (em_dev _ _ _ _ He) Hm) as Hi.
  destruct (N.ltb_spec 0 (device_len lay)) as [Hl|Hl].
  2: { unfold bind. unfold ret at 1. rewrite Hi.
       assert (dev_word lay idx = 0) as ->; [|done]. unfold dev_word. rewrite decide_False; [done|lia]. }
  destruct (device_region lay Hv Hl) as (_ & n & i2 & Hn & Hr). pose proof (rg_split _ _ _ _ Hr) as Hs.
  destruct (split_slots _ _ _ _ _ Hs) as (_ & Hi2 & _).
  rewrite (l1_base_of _ _ _ Hs). pose proof (rg_room _ _ _ _ Hr) as Hroom.
  pose proof Hs as [Eb H1 H2 _ _]. set (q1 := slot_of (device_base lay) 30) in *.
  change L1_ENTRY_SIZE with (512 * BLOCK_SIZE) in Hroom. unfold TABLE_ENTRIES in Hm.
  unfold bind. rewrite umul_Done by (unfold u64_max, BLOCK_SIZE; lia).
  rewrite uadd_Done by (unfold u64_max, TABLE_ENTRIES, BLOCK_SIZE in *; lia).
  set (a := q1 * (TABLE_ENTRIES * BLOCK_SIZE) + idx * BLOCK_SIZE).
  assert (Ea : i2 <= idx -> a = device_base lay + (idx - i2) * BLOCK_SIZE).
  { intros Hle. unfold a. rewrite Eb. unfold TABLE_ENTRIES, BLOCK_SIZE. lia. }
  assert (Einside : (if device_base lay <=? a
      then let! fin := uadd u64_max (device_base lay) (device_len lay) in ret (a <? fin)
      else ret false) lay = Done lay (bool_decide (i2 <= idx /\ (idx - i2) * BLOCK_SIZE < device_len lay))).
  { destruct (N.leb_spec (device_base lay) a) as [Hle|Hgt].
    - unfold bind. rewrite uadd_Done by (unfold u64_max, BLOCK_SIZE in *; lia). unfold ret. f_equal.
      assert (i2 <= idx) by (unfold a, TABLE_ENTRIES, BLOCK_SIZE in *; lia). rewrite Ea by done.
      apply eq_true_iff_eq. rewrite N.ltb_lt, bool_decide_eq_true. lia.
    - unfold ret. f_equal. symmetry. apply bool_decide_eq_false. intros [Hle _]. rewrite Ea in Hgt by done. lia. }
  unfold bind in Einside. rewrite Einside. clear Einside. unfold ret at 1. rewrite Hi.
  pose proof (fun k => dev_word_at lay k) as Hdw. unfold dev_l2 in Hdw. rewrite Hi2 in Hdw.
  case_bool_decide as Hin.
  - destruct Hin as [Hle Hin]. specialize (Hdw _ Hin). replace (i2 + (idx - i2)) with idx in Hdw by lia.
    destruct (region_block _ _ _ _ (idx - i2) Hr) as (Hsk & _ & _ & _ & Hfar); [apply Hin|].
    pose proof (split_aligned _ _ _ Hsk) as Hal.
    assert (Hlt : device_base lay + (idx - i2) * BLOCK_SIZE < 2 ^ 48).
    { change ADDRESSABLE with 549755813888 in Hfar. change (2 ^ 48) with 281474976710656. lia. }
    destruct (decode_device_word _ Hal Hlt) as [_ Hd]. rewrite Hdw, Ea by done.
    rewrite decide_True; [done|]. rewrite Hd. by rewrite addr_2m.
  - assert (dev_word lay idx = 0) as ->; [|done]. unfold dev_word, dev_l2. by rewrite Hi2, decide_False.
Qed.

Lemma verify_ok : validate lay lay = Done lay (Ok tt) ->
  verify_encoding leaves supers lay t lay = Done lay (Ok tt).
Proof.
  intros Hval. unfold verify_encoding. eapply tbind_Done; [exact Hval|].
  eapply tbind_Done; [apply for_ok_intro; intros e; apply check_l1_ok|].
  eapply tbind_Done; [eapply dead_except_intro; [apply He|intros i; apply l1_word_expected]|].
  eapply tbind_Done; [apply check_image_ok|].
  unfold bind. rewrite (index_holds _ _ (data_l2 lay) lay (em_data _ _ _ _ He) (slot_lt _ _)).
  assert (Hd : decode_table (data_word lay (data_l2 lay)) = Some (N.land (l3_data_pa lay) ADDR_4K)).
  { unfold data_word. rewrite decide_True by done. apply desc_back. set_solver. }
  rewrite Hd, bool_decide_eq_true_2 by done. cbn [negb].
  eapply tbind_Done; [apply (dead_except_intro (data_word lay)); [apply He|]|].
  { intros i. unfold data_word. case_decide; [subst; set_solver|done]. }
  eapply tbind_Done; [apply for_ok_intro; intros m Hm%elem_vrange; by apply check_l3_ok|].
  eapply tbind_Done; [apply for_ok_intro; intros m Hm%elem_vrange; by apply check_sup_ok|].
  apply for_ok_intro. intros m Hm%elem_vrange. by apply check_dev_ok.
Qed.
End Check.

(** ** The properties *)


(** The read-back check accepts what the emission writes: no correct encoding is rejected. *)
Theorem encode_verifies (lay : Layout) (leaves supers : list (option Perm)) (t0 : Tables) :
  validate lay lay = Done lay (Ok tt) -> nameable_windows lay supers -> skeleton lay t0 ->
  exists t, encode leaves supers lay t0 = Done t tt /\
    verify_encoding leaves supers lay t lay = Done lay (Ok tt).
Proof.
  intros Hval Hw Hsk. pose proof Hval as [_ Hv]%validate_valid.
  destruct (wp_Done _ _ _ (encode_emitted lay leaves supers t0 Hv Hw Hsk)) as (t & [] & Ht & He).
  exists t. split; [done|]. by apply verify_ok.
Qed.

(** ** A layout *)

Definition demo : Layout :=
  mkLayout 4096 8192 12288 16384 20480 24576 (Some 2097152) 1073741824 16777216 4096
    2147483648 268435456 3221225472 4194304 false 4.
Definition blank : Tables :=
  let z := vrepeat TABLE_ENTRIES 0 in mkTables z z z z z z.
Definition demo_leaves : list (option Perm) := [Some Rw; None; Some Rx].
Definition demo_supers : list (option Perm) := [None; Some Ro].

Lemma quiet_blank f : quiet f (vrepeat TABLE_ENTRIES 0).
Proof.
  split; [apply vlen_vrepeat|]. intros i Hi _. by rewrite vget_vrepeat, decide_True.
Qed.
Lemma blank_skeleton lay : skeleton lay blank.
Proof. split; apply quiet_blank. Qed.

Lemma demo_windows : nameable_windows demo demo_supers.
Proof.
  split; [vm_compute; congruence..|]. intros m Hm. apply wanted_beyond.
  change (vlen demo_supers) with 2. change (sup_frames demo) with 4 in Hm. lia.
Qed.

(** The tables in memory, at their addresses. *)
Definition memory (t : Tables) (p i : N) : N :=
  default 0 (
    if p =? 4096 then vget (l1 t) i else if p =? 8192 then vget (l2_code t) i
    else if p =? 12288 then vget (l2_data t) i else if p =? 16384 then vget (l3_data t) i
    else if p =? 20480 then vget (l2_sup t) i else if p =? 24576 then vget (l2_dev t) i else None).

Lemma memory_fetches t : fetches demo t (memory t).
Proof. split; intros i w H; unfold memory; simpl; by rewrite H. Qed.


Theorem encode_verifies_witness :
  validate demo demo = Done demo (Ok tt) /\
  exists t, encode demo_leaves demo_supers demo blank = Done t tt /\
    verify_encoding demo_leaves demo_supers demo t demo = Done demo (Ok tt).
Proof.
  assert (Hval : validate demo demo = Done demo (Ok tt)) by (vm_compute; reflexivity).
  split; [exact Hval|].
  apply (encode_verifies demo demo_leaves demo_supers blank Hval
    demo_windows (blank_skeleton demo)).
Defined.

(** ** What the check misses *)

(** A page of ordinary memory, writable and executable, written into a device slot outside
    the device window passes the check, and a walk reaches it where the layout says nothing
    is mapped. *)
Definition stray : N := BLOCK_RW_X.
Definition with_stray (t : Tables) : Tables := lset l2_dev_l (vset (l2_dev t) 9 stray) t.
Definition stray_ipa : N := 3221225472 + 9 * 2097152 + 77.

Theorem verify_misses_stray :
  exists t, encode demo_leaves demo_supers demo blank = Done t tt /\
    verify_encoding demo_leaves demo_supers demo (with_stray t) demo = Done demo (Ok tt) /\
    window_reach demo demo_leaves demo_supers stray_ipa demo = Done demo None /\
    walk 4096 stray_ipa (memory (with_stray t)) = Some (mkReach 77 Rw false).
Proof. eexists. split; [vm_compute; reflexivity|]. split_and!; vm_compute; reflexivity. Qed.

(** A data window based above the output addresses a descriptor can name validates, is
    truncated by the emission, and passes the read-back check. *)
Definition high : Layout :=
  mkLayout 4096 8192 12288 16384 20480 24576 (Some 2097152) 1073741824 (281474976710656 + 16777216)
    4096 2147483648 268435456 3221225472 4194304 false 4.

Theorem high_window_truncated :
  validate high high = Done high (Ok tt) /\
  exists t, encode demo_leaves demo_supers high blank = Done t tt /\
    verify_encoding demo_leaves demo_supers high t high = Done high (Ok tt) /\
    window_reach high demo_leaves demo_supers 1073741824 high =
      Done high (Some (mkReach (281474976710656 + 16777216) Rw true)) /\
    walk 4096 1073741824 (memory t) = Some (mkReach 16777216 Rw true).
Proof.
  split; [vm_compute; reflexivity|]. eexists. split; [vm_compute; reflexivity|].
  split_and!; vm_compute; reflexivity.
Qed.
