(* ===== verification/Isolation.v ===== *)
(** * From page tables to descriptors — the two halves of [hv-s2] composed

    The frames a domain's hardware tables let it reach are frames the hypervisor state
    authorizes it to reach: the leaf map of [hv-s2/src/leafmap.rs], encoded by
    [hv-s2/src/arm64.rs], walked. *)

From Stdlib Require Import NArith Lia.
From stdpp Require Import base numbers list option.
From S2P Require Import P2m.
From S2P Require Import Hypervisor.
From S2P Require Import HvInvariant.
From S2P Require Import HvSafety.
From S2P Require Import LeafMap.
From S2P Require Import S2Check.
From S2P Require Import Arm64.
From S2P Require Import Stage2.
From S2P Require Import Emission.
From S2P Require Import Walk.
From S2P Require Import ReadBack.
From S2P Require Import Prelude.
#[local] Open Scope N_scope.

(** ** Specification *)

(** The leaf maps as the emission takes them: the super map is the prefix of a longer array
    whose rest is empty. *)
Definition padded (n : N) (l : list (option Perm)) : list (option Perm) := l ++ vrepeat n None.

(** A byte of a frame of [size] in a window of frames based at [base]. *)
Definition in_frame (base size m a : N) : Prop := base + m * size <= a /\ a < base + (m + 1) * size.

(** The reach is a byte of a frame the domain may access so. *)
Definition frame_reach (s : Hypervisor) (d : DomId) (base size : N) (exempt : bool) (r : Reach) : Prop :=
  exists m p, in_frame base size m (r_pa r) /\ leaf_ok s d m p /\
    leaf_access_xn p exempt = (r_perm r, r_xn r).

(** What a walk of a domain's tables may reach. *)
Inductive reach_ok (s : Hypervisor) (d : DomId) (lay : Layout) (ipa : N) (r : Reach) : Prop :=
| ReachImage : in_image lay ipa = true -> r = mkReach ipa Ro false -> reach_ok s d lay ipa r
| ReachBase : frame_reach s d (data_pa_base lay) PAGE_SIZE false r -> reach_ok s d lay ipa r
| ReachSuper : frame_reach s d (sup_pa_base lay) BLOCK_SIZE (sup_wx_exempt lay) r -> reach_ok s d lay ipa r
| ReachDevice : in_window (device_base lay) (device_len lay) ipa = true -> r = mkReach ipa Rw true ->
    reach_ok s d lay ipa r.

(** ** Lemmas *)

Lemma wanted_padded n l m : wanted (padded n l) m = wanted l m.
Proof.
  unfold wanted, padded. destruct (N.lt_ge_cases m (vlen l)) as [H|H]; [by rewrite vget_app_l|].
  rewrite (proj2 (vget_None l m) H). unfold vget, vlen in *. rewrite lookup_app_r by lia.
  destruct (_ !! _) as [x|] eqn:E; [|done]. unfold vrepeat in E. by apply lookup_replicate in E as [-> _].
Qed.

Lemma wanted_vget l m p : wanted l m = Some p <-> vget l m = Some (Some p).
Proof. unfold wanted. destruct (vget l m) as [ [q|]|]; naive_solver. Qed.

(** A reach through a map is a byte of a frame the map has. *)
Definition map_reach (l : list (option Perm)) (base size : N) (exempt : bool) (r : Reach) : Prop :=
  exists m p, vget l m = Some (Some p) /\ in_frame base size m (r_pa r) /\
    leaf_access_xn p exempt = (r_perm r, r_xn r).

Lemma leaf_target_reach leaves exempt base size off r :
  0 < size -> leaf_target leaves exempt base size off = Some r -> map_reach leaves base size exempt r.
Proof.
  intros Hz H. unfold leaf_target in H. destruct (wanted leaves (off / size)) as [p|] eqn:E; [|done].
  injection H as <-. apply wanted_vget in E. exists (off / size), p.
  split_and!; [done| |by destruct (leaf_access_xn p exempt)].
  unfold in_frame. cbn [r_pa]. pose proof (N.div_mod off size ltac:(lia)) as H.
  pose proof (N.mod_lt off size ltac:(lia)) as Hr. revert H Hr.
  generalize (off mod size), (off / size). intros a q -> Ha. split; lia.
Qed.

(** What a walk of emitted tables reaches: the image, a frame of a map, or the device window. *)
Lemma emitted_reach lay leaves l n t fetch ipa r :
  Stage2.valid lay -> nameable_windows lay (padded n l) ->
  Emission.emitted lay leaves (padded n l) t -> fetches lay t fetch ->
  walk (l1_pa lay) ipa fetch = Some r ->
  (in_image lay ipa = true /\ r = mkReach ipa Ro false) \/
  map_reach leaves (data_pa_base lay) PAGE_SIZE false r \/
  map_reach l (sup_pa_base lay) BLOCK_SIZE (sup_wx_exempt lay) r \/
  (in_window (device_base lay) (device_len lay) ipa = true /\ r = mkReach ipa Rw true).
Proof.
  intros Hv Hw He Hf Hwalk. rewrite (walk_target lay _ _ t fetch Hv Hw He Hf) in Hwalk.
  unfold target in Hwalk. destruct (in_image lay ipa) eqn:Ei; [injection Hwalk as <-; by left|right].
  destruct (in_window (data_ipa_base lay) BLOCK_SIZE ipa); [|destruct (in_window (sup_ipa_base lay) _ ipa)].
  - left. by eapply leaf_target_reach.
  - right. left. apply leaf_target_reach in Hwalk as (m & p & Hm & Hr); [|done]. exists m, p.
    split; [|done]. by rewrite <- wanted_vget, wanted_padded, wanted_vget in Hm.
  - destruct (in_window (device_base lay) (device_len lay) ipa) eqn:Ed; [|done].
    injection Hwalk as <-. by do 2 right.
Qed.

(** The walk of emitted tables, judged against the state. *)
Lemma emitted_reach_ok k s d o o' lay n t fetch ipa r :
  reachable k s -> vlen (base o) <= u32_max + 1 -> vlen (sup o) <= u32_max + 1 ->
  leaf_map (p2m s) d o = Done o' (Ok tt) -> Stage2.valid lay ->
  nameable_windows lay (padded n (sup o')) -> Emission.emitted lay (base o') (padded n (sup o')) t ->
  fetches lay t fetch -> walk (l1_pa lay) ipa fetch = Some r -> reach_ok s d lay ipa r.
Proof.
  intros HR Hb Hs E Hv Hw He Hf Hwalk. destruct (reachable_HInv k s HR) as [HI _].
  assert (Hok : forall sp base size exempt, map_reach (map_of sp o') base size exempt r ->
    frame_reach s d base size exempt r).
  { intros sp bs size ex (m & p & Hm & Hr). exists m, p. split; [apply Hr|]. split; [|apply Hr].
    by eapply (emitted_leaf_ok s d o o' sp m p). }
  destruct (emitted_reach lay _ _ n t fetch ipa r Hv Hw He Hf Hwalk) as [ [H1 H2]|[H|[H|[H1 H2] ] ] ].
  - by apply ReachImage.
  - by apply ReachBase, (Hok Base).
  - by apply ReachSuper, (Hok Super).
  - by apply ReachDevice.
Qed.

(** ** Properties *)

(** C4: the hardware tables of a domain reach only what the hypervisor authorizes. In every
    reachable state, when the leaf maps of a domain are emitted and encoded for a layout that
    validates, the encoding does not panic, and a walk of the encoded tables from any guest
    address that reaches anything reaches the shared read-only image, the device window, or a
    byte of a frame the domain owns or was granted — at the permission it may access it with,
    so writably only if its owner offers it for writing. *)
Theorem tables_isolate (k n : N) (s : Hypervisor) (d : DomId) (o o' : Maps) (lay : Layout) (t0 : Tables) :
  reachable k s -> vlen (base o) <= u32_max + 1 -> vlen (sup o) <= u32_max + 1 ->
  leaf_map (p2m s) d o = Done o' (Ok tt) ->
  validate lay lay = Done lay (Ok tt) -> nameable_windows lay (padded n (sup o')) -> skeleton lay t0 ->
  exists t, encode (base o') (padded n (sup o')) lay t0 = Done t tt /\
    forall fetch ipa r, fetches lay t fetch -> walk (l1_pa lay) ipa fetch = Some r ->
      reach_ok s d lay ipa r.
Proof.
  intros HR Hb Hs E Hval Hw Hsk. pose proof Hval as [_ Hv]%validate_valid.
  destruct (wp_Done _ _ _ (encode_emitted lay (base o') _ t0 Hv Hw Hsk)) as (t & [] & Ht & He).
  exists t. split; [exact Ht|]. intros fetch ipa r Hf Hwalk.
  by apply (emitted_reach_ok k s d o o' lay n t fetch).
Qed.

(** The maps of the small machine [paging], encoded for the layout [demo] and walked. *)
Definition paging_maps : Maps := mkMaps (vrepeat 8 None) (vrepeat 4 None).
Definition paging_leaves : list (option Perm) :=
  [None; None; Some Rw; None; None; None; Some Rx; None].

Lemma paging_emits :
  leaf_map (p2m paging) 0 paging_maps = Done (mkMaps paging_leaves (vrepeat 4 None)) (Ok tt).
Proof. vm_compute. reflexivity. Qed.

Lemma paging_windows : nameable_windows demo (padded 4 (vrepeat 4 None)).
Proof.
  split; [vm_compute; congruence..|]. intros m _. rewrite wanted_padded. unfold wanted.
  rewrite vget_vrepeat. by case_decide.
Qed.

Definition paging_ipa : N := 1073741824 + 2 * 4096 + 5.

Theorem tables_isolate_witness :
  exists t, encode paging_leaves (padded 4 (vrepeat 4 None)) demo blank = Done t tt /\
    walk 4096 paging_ipa (memory t) = Some (mkReach (16777216 + 2 * 4096 + 5) Rw true) /\
    reach_ok paging 0 demo paging_ipa (mkReach (16777216 + 2 * 4096 + 5) Rw true).
Proof.
  destruct (tables_isolate 8 4 paging 0 paging_maps _ demo blank paging_reachable
    ltac:(vm_compute; discriminate) ltac:(vm_compute; discriminate) paging_emits
    ltac:(vm_compute; reflexivity) paging_windows (blank_skeleton demo)) as (t & Ht & Hw).
  exists t. split; [exact Ht|].
  assert (Hk : walk 4096 paging_ipa (memory t) = Some (mkReach (16777216 + 2 * 4096 + 5) Rw true)).
  { vm_compute in Ht. injection Ht as <-. vm_compute. reflexivity. }
  split; [exact Hk|]. apply (Hw (memory t)); [apply memory_fetches|exact Hk].
Defined.
