(* ===== verification/Regime.v ===== *)
(** * The stage-2 translation regime — [hv-s2/src/arm64.rs], the regime

    The parameters a walker reads a table under, their encoding in [VTCR_EL2] and the base
    register [VTTBR_EL2], and the readers of both. *)

From Stdlib Require Import NArith Lia Btauto.
From stdpp Require Import base numbers list option.
From S2P Require Import Bits.
From S2P Require Import Prelude.
#[local] Open Scope N_scope.

(** ** The base register *)

Inductive VmidBits : Type := B8 | B16.
#[global] Instance VmidBits_eq_dec : EqDecision VmidBits.
Proof. solve_decision. Defined.

Definition vs (b : VmidBits) : N := match b with B8 => 0 | B16 => 1 end.
Definition vmid_count (b : VmidBits) : N := match b with B8 => 256 | B16 => 65536 end.

Definition vttbr (l1_pa vmid : N) : N := N.lor l1_pa (shl 64 vmid 48).
Definition vttbr_table (vttbr : N) : N := N.land vttbr 281474976710655.
Definition vttbr_vmid (vttbr : N) (bits : VmidBits) : N :=
  as_u16 (N.land (as_u32 (N.shiftr vttbr 48)) (vmid_count bits - 1)).

(** ** The regime *)

Inductive Granule : Type := K4 | K16 | K64.
#[global] Instance Granule_eq_dec : EqDecision Granule.
Proof. solve_decision. Defined.

Definition page_bits (g : Granule) : N := match g with K4 => 12 | K16 => 14 | K64 => 16 end.
Definition level_bits (g : Granule) : N := page_bits g - 3.
Definition tg0 (g : Granule) : N := match g with K4 => 0 | K64 => 1 | K16 => 2 end.
Definition from_tg0 (v : N) : option Granule :=
  match v with 0 => Some K4 | 1 => Some K64 | 2 => Some K16 | _ => None end.

Inductive StartLevel : Type := L0 | L1 | L2 | L3.
#[global] Instance StartLevel_eq_dec : EqDecision StartLevel.
Proof. solve_decision. Defined.

Definition number (l : StartLevel) : N := match l with L0 => 0 | L1 => 1 | L2 => 2 | L3 => 3 end.
Definition sl0 (l : StartLevel) : N := match l with L2 => 0 | L1 => 1 | L0 => 2 | L3 => 3 end.
Definition from_sl0 (v : N) : option StartLevel :=
  match v with 0 => Some L2 | 1 => Some L1 | 2 => Some L0 | 3 => Some L3 | _ => None end.
Definition span (l : StartLevel) (g : Granule) : N :=
  page_bits g + (3 - number l) * level_bits g + level_bits g.

Inductive PaSize : Type := P32 | P36 | P40 | P42 | P44 | P48 | P52.
#[global] Instance PaSize_eq_dec : EqDecision PaSize.
Proof. solve_decision. Defined.

Definition ps (p : PaSize) : N :=
  match p with P32 => 0 | P36 => 1 | P40 => 2 | P42 => 3 | P44 => 4 | P48 => 5 | P52 => 6 end.
Definition from_ps (v : N) : option PaSize :=
  match v with
  | 0 => Some P32 | 1 => Some P36 | 2 => Some P40 | 3 => Some P42 | 4 => Some P44
  | 5 => Some P48 | 6 => Some P52 | _ => None
  end.

Record Stage2Regime : Type := mkRegime {
  granule : Granule;
  ipa_bits : N;
  start_level : StartLevel;
  pa_size : PaSize;
  walk_shareability : N;
  walk_inner : N;
  walk_outer : N;
}.
#[global] Instance Stage2Regime_eq_dec : EqDecision Stage2Regime.
Proof. solve_decision. Defined.

(** The bits the level below the start level resolves. *)
Definition lower (r : Stage2Regime) : N := span (start_level r) (granule r) - level_bits (granule r).

Definition valid (r : Stage2Regime) : bool :=
  (ipa_bits r <=? 48) && (page_bits (granule r) <? ipa_bits r) &&
  (ipa_bits r <=? span (start_level r) (granule r)) && (lower r <? ipa_bits r) &&
  (walk_shareability r <=? 3) && (walk_inner r <=? 3) && (walk_outer r <=? 3).

Definition t0sz {S} (r : Stage2Regime) : M S N := usub 64 (ipa_bits r).

(** [1u64 << n]: a shift of 64 or more panics in the debug profile. *)
Definition shl_one {S} (n : N) : M S N := if n <? 64 then ret (shl 64 1 n) else panic.

Definition table_align {S} (r : Stage2Regime) : M S N :=
  let! e := usub (ipa_bits r) (lower r) in
  let! entries := shl_one e in
  let! size := umul entries 8 in
  ret (if size <? 64 then 64 else size).

Definition BALEEN_STAGE2 : Stage2Regime := mkRegime K4 39 L1 P40 3 1 1.
Definition BALEEN_VMID_BITS : VmidBits := B8.
Definition VTCR_RES1 : N := shl 64 1 31.

Definition vtcr_el2 {S} (r : Stage2Regime) (b : VmidBits) : M S (option N) :=
  if negb (valid r) then ret None else
  let! t := t0sz r in
  ret (Some
    (N.lor (N.lor (N.lor (N.lor (N.lor (N.lor (N.lor (N.lor
      VTCR_RES1 (shl 64 (ps (pa_size r)) 16)) (shl 64 (vs b) 19))
      (shl 64 (tg0 (granule r)) 14)) (shl 64 (walk_shareability r) 12))
      (shl 64 (walk_outer r) 10)) (shl 64 (walk_inner r) 8))
      (shl 64 (sl0 (start_level r)) 6)) t)).

(** [(v >> shift) & mask]. *)
Definition field (v shift mask : N) : N := N.land (N.shiftr v shift) mask.

Definition decode_vtcr_el2 (v : N) : option (Stage2Regime * VmidBits) :=
  if (N.land v VTCR_RES1 =? 0) || negb (N.land v (shl 64 1 32) =? 0) then None else
  match from_tg0 (field v 14 3), from_sl0 (field v 6 3), from_ps (field v 16 7) with
  | Some g, Some l, Some p =>
      let r := mkRegime g (64 - N.land v 63) l p (field v 12 3) (field v 8 3) (field v 10 3) in
      let b := if field v 19 1 =? 0 then B8 else B16 in
      if valid r then Some (r, b) else None
  | _, _, _ => None
  end.

(** ** Specification *)

(** The number of entries of the start-level table. *)
Definition start_entries (r : Stage2Regime) : N := 2 ^ (ipa_bits r - lower r).

(** ** Lemmas *)

(** A field of a word built of disjoint fields. *)
Lemma field_lor a b s m : field (N.lor a b) s m = N.lor (field a s m) (field b s m).
Proof. unfold field. by rewrite N.shiftr_lor, N.land_lor_distr_l. Qed.

Lemma field_at x n w : x < 2 ^ w -> n + w <= 64 -> field (shl 64 x n) n (N.ones w) = x.
Proof.
  intros Hx Hw. unfold field. apply N.bits_inj. intros i. autorewrite with bits.
  replace (i + n - n) with i by lia. destruct (N.ltb_spec i w) as [H|H].
  - rewrite (proj2 (N.ltb_lt _ _)), (proj2 (N.leb_le _ _)) by lia. btauto.
  - rewrite (testbit_high x w) by done. btauto.
Qed.

Lemma field_off x n w s m k :
  x < 2 ^ w -> m < 2 ^ k -> n + w <= s \/ s + k <= n -> field (shl 64 x n) s m = 0.
Proof.
  intros Hx Hm Hd. unfold field. apply N.bits_inj. intros i. autorewrite with bits.
  destruct (N.ltb_spec i k) as [H|H]; [|rewrite (testbit_high m k) by done; btauto].
  destruct Hd as [Hd|Hd].
  - rewrite (testbit_high x w) by (done || lia). btauto.
  - rewrite (proj2 (N.leb_gt _ _)) by lia. btauto.
Qed.

Lemma shl_at_0 x : x < 2 ^ 64 -> shl 64 x 0 = x.
Proof. intros H. unfold shl. rewrite N.shiftl_0_r, land_ones_mod. by apply N.mod_small. Qed.

(** Read the field at [s]: the widths of the fields of the word are the hypotheses. *)
Ltac off_field :=
  match goal with
  | H : ?x < 2 ^ ?w |- context [field (shl 64 ?x ?n) ?s ?m] =>
      first [ rewrite (field_off x n w s m 1 H) by (done || lia)
            | rewrite (field_off x n w s m 2 H) by (done || lia)
            | rewrite (field_off x n w s m 3 H) by (done || lia)
            | rewrite (field_off x n w s m 6 H) by (done || lia)
            | rewrite (field_off x n w s m 16 H) by (done || lia) ]
  end.
Ltac read_field :=
  rewrite ?field_lor; repeat off_field; rewrite ?N.lor_0_l, ?N.lor_0_r.

Lemma ps_lt p : ps p < 2 ^ 3. Proof. by destruct p. Qed.
Lemma vs_lt b : vs b < 2 ^ 1. Proof. by destruct b. Qed.
Lemma tg0_lt g : tg0 g < 2 ^ 2. Proof. by destruct g. Qed.
Lemma sl0_lt l : sl0 l < 2 ^ 2. Proof. by destruct l. Qed.

Lemma from_ps_ps p : from_ps (ps p) = Some p. Proof. by destruct p. Qed.
Lemma from_tg0_tg0 g : from_tg0 (tg0 g) = Some g. Proof. by destruct g. Qed.
Lemma from_sl0_sl0 l : from_sl0 (sl0 l) = Some l. Proof. by destruct l. Qed.

Lemma valid_spec r : valid r = true <->
  ipa_bits r <= 48 /\ page_bits (granule r) < ipa_bits r /\
  ipa_bits r <= span (start_level r) (granule r) /\ lower r < ipa_bits r /\
  walk_shareability r < 2 ^ 2 /\ walk_inner r < 2 ^ 2 /\ walk_outer r < 2 ^ 2.
Proof.
  unfold valid. rewrite !andb_true_iff, !N.leb_le, !N.ltb_lt. change (2 ^ 2) with 4. lia.
Qed.

Lemma t0sz_Done {S} r (s : S) : valid r = true -> t0sz r s = Done s (64 - ipa_bits r) /\ 64 - ipa_bits r < 2 ^ 6.
Proof.
  intros (H1 & H2 & _)%valid_spec. split; [apply usub_Done; lia|]. change (2 ^ 6) with 64.
  assert (0 < page_bits (granule r)) by by destruct (granule r). lia.
Qed.

(** The fields of the register word, read back. *)
Lemma vtcr_fields r b t :
  valid r = true -> t < 2 ^ 6 ->
  let v := N.lor (N.lor (N.lor (N.lor (N.lor (N.lor (N.lor (N.lor
      VTCR_RES1 (shl 64 (ps (pa_size r)) 16)) (shl 64 (vs b) 19))
      (shl 64 (tg0 (granule r)) 14)) (shl 64 (walk_shareability r) 12))
      (shl 64 (walk_outer r) 10)) (shl 64 (walk_inner r) 8))
      (shl 64 (sl0 (start_level r)) 6)) t in
  field v 14 3 = tg0 (granule r) /\ field v 6 3 = sl0 (start_level r) /\
  field v 16 7 = ps (pa_size r) /\ N.land v 63 = t /\ field v 12 3 = walk_shareability r /\
  field v 8 3 = walk_inner r /\ field v 10 3 = walk_outer r /\ field v 19 1 = vs b /\
  N.testbit v 31 = true /\ N.testbit v 32 = false.
Proof.
  intros (_ & _ & _ & _ & Hsh & Hin & Hout)%valid_spec Ht v.
  pose proof (ps_lt (pa_size r)) as Hps. pose proof (vs_lt b) as Hvs.
  pose proof (tg0_lt (granule r)) as Htg. pose proof (sl0_lt (start_level r)) as Hsl.
  assert (H1 : 1 < 2 ^ 1) by done.
  assert (Hv : v = N.lor (N.lor (N.lor (N.lor (N.lor (N.lor (N.lor (N.lor
      (shl 64 1 31) (shl 64 (ps (pa_size r)) 16)) (shl 64 (vs b) 19))
      (shl 64 (tg0 (granule r)) 14)) (shl 64 (walk_shareability r) 12))
      (shl 64 (walk_outer r) 10)) (shl 64 (walk_inner r) 8))
      (shl 64 (sl0 (start_level r)) 6)) (shl 64 t 0)).
  { unfold v, VTCR_RES1. rewrite (shl_at_0 t); [done|]. by etransitivity. }
  assert (E63 : N.land v 63 = field v 0 63) by (unfold field; by rewrite N.shiftr_0_r).
  rewrite E63, Hv. clear v Hv E63. split_and!; try (read_field; first
    [ by apply (field_at _ _ 1) | by apply (field_at _ _ 2) | by apply (field_at _ _ 3) | by apply (field_at _ _ 6) ]).
  - rewrite !N.lor_spec, !testbit_shl. done.
  - rewrite !N.lor_spec, !testbit_shl. change (32 <? 64) with true. cbn [andb N.leb N.compare Pos.compare Pos.compare_cont].
    repeat match goal with
    | H : ?x < 2 ^ ?w |- context [N.testbit ?x ?i] => rewrite (testbit_high x w i H) by (vm_compute; discriminate)
    end. done.
Qed.

Lemma ipa_bits_gt r : valid r = true -> 12 < ipa_bits r /\ ipa_bits r <= 48.
Proof.
  intros (H1 & H2 & _)%valid_spec. split; [|done].
  assert (12 <= page_bits (granule r)) by by destruct (granule r). lia.
Qed.

Lemma vtcr_el2_Done {S} r b (s : S) : valid r = true ->
  exists v, vtcr_el2 r b s = Done s (Some v) /\ decode_vtcr_el2 v = Some (r, b).
Proof.
  intros Hv. destruct (t0sz_Done r s Hv) as [Ht Hlt]. pose proof (ipa_bits_gt r Hv) as [Hlo Hhi].
  eexists. split. { unfold vtcr_el2. rewrite Hv. cbn [negb]. unfold bind. rewrite Ht. reflexivity. }
  destruct (vtcr_fields r b _ Hv Hlt) as (F1 & F2 & F3 & F4 & F5 & F6 & F7 & F8 & B31 & B32).
  unfold decode_vtcr_el2. match goal with |- context [N.land ?v VTCR_RES1] =>
    change (N.land v VTCR_RES1) with (N.land v (N.shiftl 1 31)) end.
  change (shl 64 1 32) with (N.shiftl 1 32). rewrite !land_pow2, B31, B32. cbn [negb orb].
  rewrite F1, F2, F3, F4, F5, F6, F7, F8, from_tg0_tg0, from_sl0_sl0, from_ps_ps.
  replace (64 - (64 - ipa_bits r)) with (ipa_bits r) by lia.
  assert (E : mkRegime (granule r) (ipa_bits r) (start_level r) (pa_size r) (walk_shareability r)
    (walk_inner r) (walk_outer r) = r) by by destruct r.
  rewrite E, Hv. do 2 f_equal. by destruct b.
Qed.

(** The geometry of a valid regime. *)
Lemma valid_levels r : valid r = true ->
  lower r < ipa_bits r /\ ipa_bits r - lower r <= level_bits (granule r) /\
  page_bits (granule r) <= lower r.
Proof.
  intros (_ & _ & H3 & H4 & _)%valid_spec. revert H3 H4. unfold lower, span, level_bits.
  destruct (granule r), (start_level r); simpl; lia.
Qed.

Lemma span_step g l l' : number l < number l' -> span l' g <= span l g - level_bits g.
Proof. destruct g, l, l'; intros H; (done || (vm_compute; discriminate)). Qed.

Lemma table_align_Done {S} r (s : S) : valid r = true ->
  table_align r s = Done s (N.max 64 (8 * start_entries r)).
Proof.
  intros Hv. destruct (valid_levels r Hv) as (H1 & H2 & _). unfold table_align, start_entries, bind.
  rewrite usub_Done by lia. assert (Hk : ipa_bits r - lower r <= 13).
  { etransitivity; [exact H2|]. by destruct (granule r). }
  revert Hk. generalize (ipa_bits r - lower r). intros k Hk. unfold shl_one.
  rewrite (proj2 (N.ltb_lt k 64)) by lia.
  assert (E : shl 64 1 k = 2 ^ k).
  { rewrite (shl_small 64 1 k 1) by (done || lia). by rewrite N.shiftl_1_l. }
  unfold ret at 1. rewrite E. assert (2 ^ k <= 2 ^ 13) by (by apply N.pow_le_mono_r).
  change (2 ^ 13) with 8192 in *. rewrite umul_Done by (unfold u64_max; lia).
  unfold ret. f_equal. destruct (N.ltb_spec (2 ^ k * 8) 64); lia.
Qed.

(** ** Properties *)

(** The register encoding of a regime is exact: a regime a walker can be configured with is
    encoded without panic, and the word reads back as that regime and that VMID width; any
    other regime is refused, and a word that reads back at all reads back as a valid regime. *)
Theorem vtcr_roundtrip {S} (r : Stage2Regime) (b : VmidBits) (s : S) :
  (if valid r
   then exists v, vtcr_el2 r b s = Done s (Some v) /\ decode_vtcr_el2 v = Some (r, b)
   else vtcr_el2 r b s = Done s None) /\
  (forall v r b, decode_vtcr_el2 v = Some (r, b) -> valid r = true).
Proof.
  split.
  - destruct (valid r) eqn:Hv; [by apply vtcr_el2_Done|]. unfold vtcr_el2. by rewrite Hv.
  - intros v r' b'. unfold decode_vtcr_el2. destruct (_ || _); [done|].
    destruct (from_tg0 (field v 14 3)), (from_sl0 (field v 6 3)), (from_ps (field v 16 7)); try done.
    match goal with |- context [valid ?x] => generalize x end. intros x. generalize (field v 19 1). intros y.
    destruct (valid x) eqn:Hv; [|done]. by intros [= <- <-].
Qed.

(** The start level of a valid regime is forced by its granule and its input size: its table
    has at least two entries and at most a full table, every level below is a full table, and
    the alignment the base registers need is that table's size. *)
Theorem regime_geometry {S} (r : Stage2Regime) (s : S) :
  valid r = true ->
  table_align r s = Done s (N.max 64 (8 * start_entries r)) /\
  2 <= start_entries r /\ start_entries r <= 2 ^ level_bits (granule r) /\
  lower r = page_bits (granule r) + (3 - number (start_level r)) * level_bits (granule r) /\
  (forall r', valid r' = true -> granule r' = granule r -> ipa_bits r' = ipa_bits r ->
    start_level r' = start_level r).
Proof.
  intros Hv. destruct (valid_levels r Hv) as (H1 & H2 & H3). split_and!.
  - by apply table_align_Done.
  - unfold start_entries. change 2 with (2 ^ 1) at 1. apply N.pow_le_mono_r; lia.
  - unfold start_entries. apply N.pow_le_mono_r; lia.
  - unfold lower, span. by rewrite N.add_sub.
  - intros r' Hv' Hg Hi. apply valid_spec in Hv as (_ & _ & A1 & A2 & _).
    apply valid_spec in Hv' as (_ & _ & B1 & B2 & _). unfold lower in *. rewrite Hg, Hi in *.
    destruct (N.lt_trichotomy (number (start_level r)) (number (start_level r'))) as [H|[H|H] ].
    + pose proof (span_step (granule r) _ _ H). lia.
    + revert H. by destruct (start_level r), (start_level r').
    + pose proof (span_step (granule r) _ _ H). lia.
Qed.

Theorem regime_geometry_witness :
  valid BALEEN_STAGE2 = true /\ table_align BALEEN_STAGE2 tt = Done tt 4096.
Proof.
  split; [vm_compute; reflexivity|].
  destruct (regime_geometry BALEEN_STAGE2 tt) as [H _]; [vm_compute; reflexivity|].
  rewrite H. vm_compute. reflexivity.
Defined.

(** The word the machine runs with. *)
Example baleen_vtcr : vtcr_el2 BALEEN_STAGE2 BALEEN_VMID_BITS tt = Done tt (Some 0x80023559).
Proof. vm_compute. reflexivity. Qed.
