(* ===== verification/Smmu.v ===== *)
(** * The stream table of the system MMU — [hv-s2/src/smmu.rs]

    Which devices reach memory, and through whose tables: the stream table entries, the
    verdict on a stream, the derivation of the whole table from the device assignment, and
    the reach of a device. *)

From Stdlib Require Import NArith Lia Btauto.
From stdpp Require Import base numbers list option.
From S2P Require Import Bits.
From S2P Require Import Device.
From S2P Require Import LeafMap.
From S2P Require Import Arm64.
From S2P Require Import Regime.
From S2P Require Import Prelude.
#[local] Open Scope N_scope.

(** ** Constants *)

Definition STE_WORDS : N := 8.
Definition STE_BYTES : N := STE_WORDS * 8.
Definition STE_V : N := 1.
Definition STE_CONFIG_SHIFT : N := 1.
Definition STE_CONFIG_MASK : N := 7.
Definition CONFIG_NOT_ABORT : N := 4.
Definition CONFIG_BYPASS : N := 4.
Definition CONFIG_S1 : N := 5.
Definition CONFIG_S2 : N := 6.
Definition CONFIG_NESTED : N := 7.
Definition STE_SHCFG_INCOMING : N := shl 64 1 44.
Definition STRTAB_BASE_ADDR_MASK : N := 0x000fffffffffffc0.
Definition STRTAB_CFG_LOG2SIZE_MASK : N := 63.
Definition STRTAB_CFG_FMT_LINEAR : N := shl 32 0 16.
Definition BUS0_LOG2SIZE : N := 8.
Definition MAX_LOG2SIZE : N := 16.

(** ** Verdicts *)

Inductive StreamVerdict : Type :=
| OutOfRange | Invalid | ConfigAbort | Bypass | Stage1Only | Stage2Only | Nested.
#[global] Instance StreamVerdict_eq_dec : EqDecision StreamVerdict.
Proof. solve_decision. Defined.

Definition permits (v : StreamVerdict) : bool :=
  match v with
  | OutOfRange | Invalid | ConfigAbort => false
  | Bypass | Stage1Only | Stage2Only | Nested => true
  end.
Definition stage2_unconfined (v : StreamVerdict) : bool :=
  match v with Bypass | Stage1Only => true | _ => false end.

Inductive SteError : Type :=
| BadRegime | GranuleNotEmitted | UnalignedTable | TableAddressTooLarge.
#[global] Instance SteError_eq_dec : EqDecision SteError.
Proof. solve_decision. Defined.

Inductive StreamTableError : Type :=
| SidOutOfRange
| TableTooSmall
| BadBinding (e : SteError).
#[global] Instance StreamTableError_eq_dec : EqDecision StreamTableError.
Proof. solve_decision. Defined.

(** ** The table *)

Definition table_words (log2size : N) : option N :=
  if MAX_LOG2SIZE <? log2size then None else Some (N.shiftl 1 log2size * STE_WORDS).

Definition base_alignment (log2size : N) : option N :=
  match table_words log2size with
  | Some words => let size := words * 8 in Some (if STE_BYTES <? size then size else STE_BYTES)
  | None => None
  end.

Definition strtab_base (pa : N) : N := N.land pa STRTAB_BASE_ADDR_MASK.

Definition strtab_base_cfg (log2size : N) : option N :=
  if MAX_LOG2SIZE <? log2size then None
  else Some (N.lor STRTAB_CFG_FMT_LINEAR (N.land log2size STRTAB_CFG_LOG2SIZE_MASK)).

Definition deny_ste : list N := vrepeat STE_WORDS 0.
Definition bypass_ste : list N :=
  [N.lor STE_V (shl 64 CONFIG_BYPASS STE_CONFIG_SHIFT); STE_SHCFG_INCOMING; 0; 0; 0; 0; 0; 0].

Definition decode (word0 : N) : StreamVerdict :=
  if N.land word0 STE_V =? 0 then Invalid else
  let config := as_u8 (N.land (N.shiftr word0 STE_CONFIG_SHIFT) STE_CONFIG_MASK) in
  if N.land config CONFIG_NOT_ABORT =? 0 then ConfigAbort else
  if config =? CONFIG_BYPASS then Bypass
  else if config =? CONFIG_S1 then Stage1Only
  else if config =? CONFIG_S2 then Stage2Only
  else if config =? CONFIG_NESTED then Nested
  else ConfigAbort.

Definition entry_offset (words_len log2size sid : N) : option N :=
  match table_words log2size with
  | None => None
  | Some needed =>
      if words_len <? needed then None
      else if N.shiftl 1 log2size <=? sid then None
      else Some (sid * STE_WORDS)
  end.

Definition verdict {S} (words : list N) (log2size sid : N) : M S StreamVerdict :=
  match entry_offset (vlen words) log2size sid with
  | None => ret OutOfRange
  | Some off => let! w := index words off in ret (decode w)
  end.

(** [words.fill(0)]. *)
Definition init_deny : M (list N) unit := modify (fun w => vrepeat (vlen w) 0).

(** [words[off..off + src.len()].copy_from_slice(src)]: out of range it panics. *)
Definition copy_slice (off : N) (src : list N) : M (list N) unit :=
  let! w := get in
  if off + vlen src <=? vlen w then modify (list_inserts (N.to_nat off) src) else panic.

Definition bind_ste (log2size sid : N) (ste : list N) : M (list N) (result StreamTableError unit) :=
  let! words := get in
  match table_words log2size with
  | Some needed =>
      if needed <=? vlen words then
        match entry_offset (vlen words) log2size sid with
        | Some off => copy_slice off ste ;! ok tt
        | None => err SidOutOfRange
        end
      else err TableTooSmall
  | None => err TableTooSmall
  end.

Definition unbind (log2size sid : N) : M (list N) (result StreamTableError unit) :=
  bind_ste log2size sid deny_ste.

Definition denies_every_stream {S} (words : list N) (log2size : N) : M S bool :=
  match table_words log2size with
  | None => ret false
  | Some needed =>
      if vlen words <? needed then ret false
      else all_m (vrange (N.shiftl 1 log2size)) (fun sid =>
        let! v := verdict words log2size sid in ret (negb (permits v)))
  end.

Definition permitted_stream_count {S} (words : list N) (log2size : N) : M S N :=
  match table_words log2size with
  | None => ret 0
  | Some needed =>
      if vlen words <? needed then ret 0
      else fold_m (vrange (N.shiftl 1 log2size)) (fun n sid =>
        let! v := verdict words log2size sid in ret (if permits v then n + 1 else n)) 0
  end.

(** ** Binding a stream to a domain *)

Definition STE2_S2VMID_MASK : N := 0xffff.
Definition STE2_S2T0SZ_SHIFT : N := 32.
Definition STE2_S2SL0_SHIFT : N := 38.
Definition STE2_S2IR0_SHIFT : N := 40.
Definition STE2_S2OR0_SHIFT : N := 42.
Definition STE2_S2SH0_SHIFT : N := 44.
Definition STE2_S2TG_SHIFT : N := 46.
Definition STE2_S2PS_SHIFT : N := 48.
Definition STE2_S2AA64 : N := shl 64 1 51.
Definition STE2_S2PTW : N := shl 64 1 54.
Definition STE2_S2R : N := shl 64 1 58.
Definition STE3_S2TTB_MASK : N := 0x000ffffffffffff0.

Record Stage2Binding : Type := mkBinding {
  s2ttb : N;
  vmid : N;
  regime : Stage2Regime;
}.
#[global] Instance Stage2Binding_eq_dec : EqDecision Stage2Binding.
Proof. solve_decision. Defined.

(** Word 2 of the entry. *)
Definition ste2 (b : Stage2Binding) (t : N) : N :=
  let r := regime b in
  N.lor (N.lor (N.lor (N.lor (N.lor (N.lor (N.lor (N.lor (N.lor (N.lor
    (N.land (vmid b) STE2_S2VMID_MASK) (shl 64 t STE2_S2T0SZ_SHIFT))
    (shl 64 (sl0 (start_level r)) STE2_S2SL0_SHIFT))
    (shl 64 (walk_inner r) STE2_S2IR0_SHIFT)) (shl 64 (walk_outer r) STE2_S2OR0_SHIFT))
    (shl 64 (walk_shareability r) STE2_S2SH0_SHIFT)) (shl 64 0 STE2_S2TG_SHIFT))
    (shl 64 (ps (pa_size r)) STE2_S2PS_SHIFT)) STE2_S2AA64) STE2_S2PTW) STE2_S2R.

Definition stage2_ste {S} (b : Stage2Binding) : M S (result SteError (list N)) :=
  if negb (Regime.valid (regime b)) then err BadRegime else
  if negb (bool_decide (granule (regime b) = K4)) then err GranuleNotEmitted else
  if negb (N.shiftr (s2ttb b) 52 =? 0) then err TableAddressTooLarge else
  let! al := table_align (regime b) in
  if negb (s2ttb b mod al =? 0) then err UnalignedTable else
  let! t := t0sz (regime b) in
  ok [N.lor STE_V (shl 64 CONFIG_S2 STE_CONFIG_SHIFT); STE_SHCFG_INCOMING; ste2 b t;
      N.land (s2ttb b) STE3_S2TTB_MASK; 0; 0; 0; 0].

Definition decode_stage2_binding {S} (ste : list N) : M S (option Stage2Binding) :=
  if vlen ste <? STE_WORDS then ret None else
  let! w0 := index ste 0 in
  if negb (bool_decide (decode w0 = Stage2Only)) then ret None else
  let! w2 := index ste 2 in
  if N.land w2 STE2_S2AA64 =? 0 then ret None else
  if negb (field w2 STE2_S2TG_SHIFT 3 =? 0) then ret None else
  match from_sl0 (field w2 STE2_S2SL0_SHIFT 3), from_ps (field w2 STE2_S2PS_SHIFT 7) with
  | Some l, Some p =>
      let r := mkRegime K4 (64 - field w2 STE2_S2T0SZ_SHIFT 63) l p
        (field w2 STE2_S2SH0_SHIFT 3) (field w2 STE2_S2IR0_SHIFT 3) (field w2 STE2_S2OR0_SHIFT 3) in
      if negb (Regime.valid r) then ret None else
      let! w3 := index ste 3 in
      ret (Some (mkBinding (N.land w3 STE3_S2TTB_MASK) (as_u16 (N.land w2 STE2_S2VMID_MASK)) r))
  | _, _ => ret None
  end.

(** [&words[off..off + n]]. *)
Definition slice {S} (words : list N) (off n : N) : M S (list N) :=
  if off + n <=? vlen words then ret (take (N.to_nat n) (drop (N.to_nat off) words)) else panic.

Definition stage2_binding_at {S} (words : list N) (log2size sid : N) : M S (option Stage2Binding) :=
  match entry_offset (vlen words) log2size sid with
  | None => ret None
  | Some off => let! ste := slice words off STE_WORDS in decode_stage2_binding ste
  end.

Definition bind_stage2 (log2size sid : N) (b : Stage2Binding) :
    M (list N) (result StreamTableError unit) :=
  let! r := stage2_ste b in
  let? ste := lift (map_err BadBinding r) in
  bind_ste log2size sid ste.

(** ** Deriving the table from the device assignment *)

Inductive DeriveError : Type :=
| StreamMapTooShort
| BindingMapTooShort
| StreamAliased (a b : DevId)
| NoBinding (d : DomId)
| DSidOutOfRange (sid : N)
| Unencodable (e : SteError)
| DTableTooSmall.
#[global] Instance DeriveError_eq_dec : EqDecision DeriveError.
Proof. solve_decision. Defined.

Definition holder_of_stream (devices : Device.System) (stream_of : list N) (sid : N) : option DomId :=
  match first_some (fun dev => if decide (vget stream_of dev = Some sid)
                               then Some (Device.holder_of devices (as_u16 dev)) else None)
          (vrange (Device.device_count devices)) with
  | Some h => h
  | None => None
  end.

Definition intended_binding (devices : Device.System) (stream_of : list N)
    (binding_of : list (option Stage2Binding)) (sid : N) : option Stage2Binding :=
  match holder_of_stream devices stream_of sid with
  | Some holder => match vget binding_of holder with Some o => o | None => None end
  | None => None
  end.

(** An [init_deny] before the error is returned. *)
Definition refuse (e : DeriveError) : M (list N) (result DeriveError unit) := init_deny ;! err e.

Definition check_aliases (ndev : N) (stream_of : list N) : M (list N) (result DeriveError unit) :=
  for_ok (vrange ndev) (fun a =>
    for_ok (vrange_from (a + 1) ndev) (fun b =>
      let! x := index stream_of a in
      let! y := index stream_of b in
      if x =? y then refuse (StreamAliased (as_u16 a) (as_u16 b)) else ok tt)).

Definition bind_error (sid : N) (e : StreamTableError) : DeriveError :=
  match e with
  | BadBinding e => Unencodable e
  | SidOutOfRange => DSidOutOfRange sid
  | TableTooSmall => DTableTooSmall
  end.

Definition bind_device (log2size : N) (devices : Device.System) (stream_of : list N)
    (binding_of : list (option Stage2Binding)) (dev : N) : M (list N) (result DeriveError unit) :=
  match Device.holder_of devices (as_u16 dev) with
  | None => ok tt
  | Some holder =>
      let! o := index binding_of holder in
      match o with
      | None => refuse (NoBinding holder)
      | Some binding =>
          let! sid := index stream_of dev in
          let! r := bind_stage2 log2size sid binding in
          match r with Err e => refuse (bind_error sid e) | Ok _ => ok tt end
      end
  end.

Definition derive_stream_table (log2size : N) (devices : Device.System) (stream_of : list N)
    (binding_of : list (option Stage2Binding)) : M (list N) (result DeriveError unit) :=
  init_deny ;!
  let! words := get in
  match table_words log2size with
  | Some needed =>
      if needed <=? vlen words then
        let ndev := Device.device_count devices in
        if vlen stream_of <? ndev then err StreamMapTooShort else
        if vlen binding_of <? Device.domain_count devices then err BindingMapTooShort else
        check_aliases ndev stream_of ;?
        for_ok (vrange ndev) (bind_device log2size devices stream_of binding_of)
      else err DTableTooSmall
  | None => err DTableTooSmall
  end.

Definition table_refines_the_relation {S} (words : list N) (log2size : N) (devices : Device.System)
    (stream_of : list N) (binding_of : list (option Stage2Binding)) : M S bool :=
  match table_words log2size with
  | None => ret false
  | Some needed =>
      if vlen words <? needed then ret false
      else all_m (vrange (N.shiftl 1 log2size)) (fun sid =>
        let want := intended_binding devices stream_of binding_of sid in
        let! b := stage2_binding_at words log2size sid in
        if bool_decide (b = want) then
          let! v := verdict words log2size sid in
          ret (bool_decide (permits v = bool_decide (is_Some want)))
        else ret false)
  end.

(** ** The join of both walkers *)

Record Stage2Handles : Type := mkHandles {
  h_vttbr : N;
  h_binding : Stage2Binding;
}.

Inductive HandleError : Type :=
| HSte (e : SteError)
| VttbrNarrowerThanSte (l1_pa : N).

Definition stage2_handles {S} (layout : Layout) (vmid : N) : M S (result HandleError Stage2Handles) :=
  if MAX_TABLE_PA <=? l1_pa layout then err (VttbrNarrowerThanSte (l1_pa layout)) else
  let v := vttbr (l1_pa layout) vmid in
  let binding := mkBinding (l1_pa layout) (vttbr_vmid v BALEEN_VMID_BITS) BALEEN_STAGE2 in
  let! r := stage2_ste binding in
  let? _ := lift (map_err HSte r) in
  ok (mkHandles v binding).

Definition device_reach {S} (words : list N) (log2size sid ipa : N) (fetch : N -> N -> N) :
    M S (option Reach) :=
  let! o := stage2_binding_at words log2size sid in
  match o with
  | Some binding => ret (walk (s2ttb binding) ipa fetch)
  | None => ret None
  end.
