(* ===== verification/Streams.v ===== *)
(** * Stream table entries — [hv-s2/src/smmu.rs], the proofs on one entry

    Reading an arbitrary table never panics; binding a stream writes its entry and no other;
    the entry of a domain reads back as that domain's binding. *)

From Stdlib Require Import NArith Lia Btauto.
From stdpp Require Import base numbers list option.
From S2P Require Import Bits.
From S2P Require Import LeafMap.
From S2P Require Import Arm64.
From S2P Require Import Regime.
From S2P Require Import Smmu.
From S2P Require Import Prelude.
#[local] Open Scope N_scope.

(** ** Specification *)

(** Word [k] of the entry of a stream. *)
Definition word (w : list N) (sid k : N) : N := default 0 (vget w (sid * STE_WORDS + k)).

(** The storage holds the table, and the table covers the stream. *)
Definition fits (w : list N) (log2size : N) : Prop :=
  log2size <= MAX_LOG2SIZE /\ 2 ^ log2size * STE_WORDS <= vlen w.
Definition covered (w : list N) (log2size sid : N) : Prop := fits w log2size /\ sid < 2 ^ log2size.
#[global] Instance fits_dec w l : Decision (fits w l).
Proof. unfold fits. apply _. Defined.
#[global] Instance covered_dec w l sid : Decision (covered w l sid).
Proof. unfold covered. apply _. Defined.

(** What the words of an entry say. *)
Definition read_binding (w0 w2 w3 : N) : option Stage2Binding :=
  if negb (bool_decide (decode w0 = Stage2Only)) then None else
  if N.land w2 STE2_S2AA64 =? 0 then None else
  if negb (field w2 STE2_S2TG_SHIFT 3 =? 0) then None else
  match from_sl0 (field w2 STE2_S2SL0_SHIFT 3), from_ps (field w2 STE2_S2PS_SHIFT 7) with
  | Some l, Some p =>
      let r := mkRegime K4 (64 - field w2 STE2_S2T0SZ_SHIFT 63) l p
        (field w2 STE2_S2SH0_SHIFT 3) (field w2 STE2_S2IR0_SHIFT 3) (field w2 STE2_S2OR0_SHIFT 3) in
      if negb (Regime.valid r) then None
      else Some (mkBinding (N.land w3 STE3_S2TTB_MASK) (as_u16 (N.land w2 STE2_S2VMID_MASK)) r)
  | _, _ => None
  end.

Definition verdict_of (w : list N) (log2size sid : N) : StreamVerdict :=
  if decide (covered w log2size sid) then decode (word w sid 0) else OutOfRange.
Definition binding_at (w : list N) (log2size sid : N) : option Stage2Binding :=
  if decide (covered w log2size sid) then read_binding (word w sid 0) (word w sid 2) (word w sid 3)
  else None.

(** The table [w'] is [w] with the entry of [sid] replaced. *)
Record sets (w : list N) (sid : N) (ste w' : list N) : Prop := mkSets {
  set_len : vlen w' = vlen w;
  set_word : forall sid' k, k < STE_WORDS ->
    word w' sid' k = if decide (sid' = sid) then default 0 (vget ste k) else word w sid' k;
}.

(** A binding an entry can express. *)
Definition encodable (b : Stage2Binding) : Prop :=
  Regime.valid (regime b) = true /\ granule (regime b) = K4 /\ s2ttb b < 2 ^ 52 /\
  s2ttb b mod N.max 64 (8 * start_entries (regime b)) = 0.
#[global] Instance encodable_dec b : Decision (encodable b).
Proof. unfold encodable. apply _. Defined.

(** ** Reading *)

Lemma table_words_fits w l :
  match table_words l with Some needed => needed <= vlen w | None => False end <-> fits w l.
Proof.
  unfold table_words, fits. rewrite N.shiftl_1_l. destruct (N.ltb_spec MAX_LOG2SIZE l); [lia|tauto].
Qed.

Lemma entry_offset_covered w l sid :
  entry_offset (vlen w) l sid = if decide (covered w l sid) then Some (sid * STE_WORDS) else None.
Proof.
  unfold entry_offset. pose proof (table_words_fits w l) as Hf. rewrite N.shiftl_1_l.
  unfold covered. destruct (table_words l) as [needed|].
  - destruct (N.ltb_spec (vlen w) needed) as [H1|H1]; [rewrite decide_False; [done|rewrite <- Hf; lia]|].
    destruct (N.leb_spec (2 ^ l) sid) as [H2|H2]; [rewrite decide_False; [done|lia]|].
    rewrite decide_True; [done|]. rewrite <- Hf. done.
  - rewrite decide_False; [done|]. rewrite <- Hf. tauto.
Qed.

Lemma covered_bound w l sid : covered w l sid -> sid * STE_WORDS + STE_WORDS <= vlen w.
Proof. intros [ [_ H] Hs]. unfold STE_WORDS in *. lia. Qed.

Lemma word_get w l sid k : covered w l sid -> k < STE_WORDS ->
  vget w (sid * STE_WORDS + k) = Some (word w sid k).
Proof.
  intros Hc%covered_bound Hk. unfold word.
  destruct (vget_lt_Some w (sid * STE_WORDS + k)) as [x Hx]; [lia|]. by rewrite Hx.
Qed.

Lemma verdict_Done {S} w l sid (s : S) : verdict w l sid s = Done s (verdict_of w l sid).
Proof.
  unfold verdict, verdict_of. rewrite entry_offset_covered. case_decide as Hc; [|done].
  pose proof (word_get w l sid 0 Hc ltac:(done)) as Hw. rewrite N.add_0_r in Hw.
  unfold bind. by rewrite (index_Done _ _ _ _ Hw).
Qed.

Lemma slice_Done {S} w l sid (s : S) : covered w l sid ->
  exists e, slice w (sid * STE_WORDS) STE_WORDS s = Done s e /\ vlen e = STE_WORDS /\
    forall k, k < STE_WORDS -> vget e k = Some (word w sid k).
Proof.
  intros Hc. pose proof (covered_bound _ _ _ Hc) as Hb. unfold slice.
  rewrite (proj2 (N.leb_le _ _) Hb). eexists. split; [done|].
  assert (Hl : vlen (take (N.to_nat STE_WORDS) (drop (N.to_nat (sid * STE_WORDS)) w)) = STE_WORDS).
  { unfold vlen. rewrite length_take, length_drop. unfold vlen, STE_WORDS in *. lia. }
  split; [done|]. intros k Hk. rewrite <- (word_get w l sid k Hc Hk). unfold vget.
  rewrite lookup_take_lt by (unfold STE_WORDS in *; lia). rewrite lookup_drop. f_equal. lia.
Qed.

Lemma decode_binding_Done {S} e w0 w2 w3 (s : S) :
  vlen e = STE_WORDS -> vget e 0 = Some w0 -> vget e 2 = Some w2 -> vget e 3 = Some w3 ->
  decode_stage2_binding e s = Done s (read_binding w0 w2 w3).
Proof.
  intros Hl H0 H2 H3. unfold decode_stage2_binding, read_binding. rewrite Hl. cbn [N.ltb].
  change (STE_WORDS <? STE_WORDS) with false. unfold bind.
  rewrite (index_Done _ _ _ _ H0). destruct (negb (bool_decide _)); [done|].
  rewrite (index_Done _ _ _ _ H2). destruct (N.land w2 STE2_S2AA64 =? 0); [done|].
  destruct (negb (field w2 STE2_S2TG_SHIFT 3 =? 0)); [done|].
  destruct (from_sl0 _) as [l|]; [|done]. destruct (from_ps _) as [p|]; [|done].
  destruct (negb _); [done|]. by rewrite (index_Done _ _ _ _ H3).
Qed.

Lemma binding_at_Done {S} w l sid (s : S) : stage2_binding_at w l sid s = Done s (binding_at w l sid).
Proof.
  unfold stage2_binding_at, binding_at. rewrite entry_offset_covered. case_decide as Hc; [|done].
  destruct (slice_Done w l sid s Hc) as (e & He & Hl & Hg). unfold bind. rewrite He.
  by apply decode_binding_Done; [|apply Hg..].
Qed.

(** An entry with a binding is one that translates. *)
Lemma binding_verdict w l sid b : binding_at w l sid = Some b -> verdict_of w l sid = Stage2Only.
Proof.
  unfold binding_at, verdict_of, read_binding. case_decide; [|done].
  destruct (bool_decide (decode (word w sid 0) = Stage2Only)) eqn:E; [|done].
  intros _. by apply bool_decide_eq_true_1 in E.
Qed.

(** ** Writing *)

Lemma copy_sets w l sid ste :
  covered w l sid -> vlen ste = STE_WORDS ->
  exists w', copy_slice (sid * STE_WORDS) ste w = Done w' tt /\ sets w sid ste w'.
Proof.
  intros Hc Hl. pose proof (covered_bound _ _ _ Hc) as Hb. unfold copy_slice, bind, get.
  rewrite Hl, (proj2 (N.leb_le _ _) Hb). eexists. split; [done|]. split.
  - unfold vlen. by rewrite length_inserts.
  - intros sid' k Hk. unfold word, vget, vlen in *. case_decide as Hs.
    + subst sid'. rewrite list_lookup_inserts by (unfold STE_WORDS in *; lia).
      do 2 f_equal. lia.
    + destruct (N.lt_trichotomy sid' sid) as [H|[H|H] ]; [|done|].
      * rewrite list_lookup_inserts_lt; [done|]. unfold STE_WORDS in *. lia.
      * rewrite list_lookup_inserts_ge; [done|]. unfold STE_WORDS in *. lia.
Qed.

Lemma bind_run w l sid ste :
  vlen ste = STE_WORDS ->
  exists w' r, bind_ste l sid ste w = Done w' r /\
    (if decide (covered w l sid) then r = Ok tt /\ sets w sid ste w'
     else w' = w /\ r = Err (if decide (fits w l) then SidOutOfRange else TableTooSmall)).
Proof.
  intros Hl. unfold bind_ste. unfold bind at 1, get. pose proof (table_words_fits w l) as Hf.
  rewrite entry_offset_covered. destruct (decide (covered w l sid)) as [Hc|Hc].
  - destruct (copy_sets w l sid ste Hc Hl) as (w' & E & Hs). destruct Hc as [Hfit _].
    apply Hf in Hfit. destruct (table_words l) as [needed|]; [|done].
    rewrite (proj2 (N.leb_le _ _) Hfit). exists w', (Ok tt). unfold bind. by rewrite E.
  - exists w. destruct (decide (fits w l)) as [Hfit|Hfit]; rewrite <- Hf in Hfit;
      destruct (table_words l) as [needed|]; try done; try (by eexists).
    + rewrite (proj2 (N.leb_le _ _) Hfit). by eexists.
    + destruct (N.leb_spec needed (vlen w)); [done|]. by eexists.
Qed.

(** ** The entry of a binding *)

Lemma table_align_16 r b : Regime.valid r = true -> b mod N.max 64 (8 * start_entries r) = 0 -> b mod 2 ^ 4 = 0.
Proof.
  intros Hv Hb. apply N.Lcm0.mod_divide in Hb. apply N.Lcm0.mod_divide. etransitivity; [|exact Hb].
  destruct (N.max_spec 64 (8 * start_entries r)) as [ [H ->]|[_ ->] ]; [|by exists 4].
  unfold start_entries in *. set (k := ipa_bits r - lower r) in *.
  assert (Hk : 3 <= k).
  { destruct (N.le_gt_cases 3 k) as [|Hlt]; [done|]. exfalso.
    assert (2 ^ k <= 2 ^ 2) by (apply N.pow_le_mono_r; lia). change (2 ^ 2) with 4 in *. lia. }
  exists (2 ^ (k - 1)). change (2 ^ 4) with (2 * 2 ^ 3). rewrite (N.mul_comm 8), N.mul_assoc.
  change 8 with (2 ^ 3). f_equal. rewrite N.mul_comm, <- N.pow_succ_r'. f_equal. lia.
Qed.

(** What [stage2_ste] writes. *)
Definition ste_of (b : Stage2Binding) : list N :=
  [N.lor STE_V (shl 64 CONFIG_S2 STE_CONFIG_SHIFT); STE_SHCFG_INCOMING; ste2 b (64 - ipa_bits (regime b));
   N.land (s2ttb b) STE3_S2TTB_MASK; 0; 0; 0; 0].

Lemma stage2_ste_run {S} b (s : S) :
  exists r, stage2_ste b s = Done s r /\
    match r with Ok ste => encodable b /\ ste = ste_of b | Err _ => ~ encodable b end.
Proof.
  unfold stage2_ste. destruct (Regime.valid (regime b)) eqn:Hv; cbn [negb].
  2: { eexists. split; [done|]. intros (H & _). congruence. }
  destruct (decide (granule (regime b) = K4)) as [Hg|Hg].
  2: { rewrite bool_decide_eq_false_2 by done. eexists. split; [done|]. by intros (_ & ? & _). }
  rewrite bool_decide_eq_true_2 by done. cbn [negb]. rewrite N.shiftr_div_pow2.
  destruct (N.eqb_spec (s2ttb b / 2 ^ 52) 0) as [Hlt|Hge]; cbn [negb]; rewrite N.div_small_iff in * by done.
  2: { eexists. split; [done|]. by intros (_ & _ & ? & _). }
  unfold bind. rewrite (table_align_Done _ s Hv). destruct (t0sz_Done (regime b) s Hv) as [Ht _].
  destruct (N.eqb_spec (s2ttb b mod N.max 64 (8 * start_entries (regime b))) 0) as [Ha|Ha]; cbn [negb].
  - rewrite Ht. eexists. by split.
  - eexists. split; [done|]. by intros (_ & _ & _ & ?).
Qed.

Lemma ste2_fields b :
  Regime.valid (regime b) = true -> vmid b <= u16_max ->
  let v := ste2 b (64 - ipa_bits (regime b)) in
  let r := regime b in
  field v 46 3 = 0 /\ field v 38 3 = sl0 (start_level r) /\ field v 48 7 = ps (pa_size r) /\
  field v 32 63 = 64 - ipa_bits r /\ field v 44 3 = walk_shareability r /\
  field v 40 3 = walk_inner r /\ field v 42 3 = walk_outer r /\ N.land v 65535 = vmid b /\
  N.testbit v 51 = true.
Proof.
  intros Hv Hm v r. destruct (t0sz_Done r tt Hv) as [_ Ht].
  apply valid_spec in Hv as (_ & _ & _ & _ & Hsh & Hin & Hout). fold r in Hsh, Hin, Hout.
  pose proof (ps_lt (pa_size r)) as Hps. pose proof (sl0_lt (start_level r)) as Hsl.
  assert (H0 : 0 < 2 ^ 2) by done. assert (H1 : 1 < 2 ^ 1) by done.
  assert (Hvm : vmid b < 2 ^ 16) by (change (2 ^ 16) with 65536; unfold u16_max in Hm; lia).
  set (t := 64 - ipa_bits r) in *.
  assert (E : v = N.lor (N.lor (N.lor (N.lor (N.lor (N.lor (N.lor (N.lor (N.lor (N.lor
    (shl 64 (vmid b) 0) (shl 64 t 32)) (shl 64 (sl0 (start_level r)) 38))
    (shl 64 (walk_inner r) 40)) (shl 64 (walk_outer r) 42))
    (shl 64 (walk_shareability r) 44)) (shl 64 0 46))
    (shl 64 (ps (pa_size r)) 48)) (shl 64 1 51)) (shl 64 1 54)) (shl 64 1 58)).
  { unfold v, ste2. fold r t. rewrite (shl_at_0 (vmid b)) by (by etransitivity).
    change STE2_S2VMID_MASK with (N.ones 16). rewrite land_ones_mod, (N.mod_small (vmid b)) by done. done. }
  assert (Em : N.land v 65535 = field v 0 65535) by (unfold field; by rewrite N.shiftr_0_r).
  rewrite Em, E. clear v E Em.
  split_and!; try (read_field; first
    [ reflexivity | by apply (field_at _ _ 2) | by apply (field_at _ _ 3) | by apply (field_at _ _ 6) | by apply (field_at _ _ 16) ]).
  rewrite !N.lor_spec, !testbit_shl. change (51 <? 64) with true. change (51 <=? 51) with true.
  change (N.testbit 1 (51 - 51)) with true. cbn [andb]. by rewrite !orb_true_r.
Qed.

(** The words of a binding's entry read back as the binding. *)
Lemma ste_of_reads b : encodable b -> vmid b <= u16_max ->
  vlen (ste_of b) = STE_WORDS /\
  exists w0 w2 w3, vget (ste_of b) 0 = Some w0 /\ vget (ste_of b) 2 = Some w2 /\ vget (ste_of b) 3 = Some w3 /\
    decode w0 = Stage2Only /\ read_binding w0 w2 w3 = Some b.
Proof.
  intros (Hv & Hg & Hlt & Ha) Hm. split; [done|]. do 3 eexists. split_and!; [done..|].
  destruct (ste2_fields b Hv Hm) as (F1 & F2 & F3 & F4 & F5 & F6 & F7 & F8 & B51).
  assert (Hd : decode (N.lor STE_V (shl 64 CONFIG_S2 STE_CONFIG_SHIFT)) = Stage2Only) by done.
  unfold read_binding. rewrite Hd, bool_decide_eq_true_2 by done. cbn [negb].
  change STE2_S2AA64 with (N.shiftl 1 51). rewrite land_pow2, B51. cbn [negb].
  unfold STE2_S2TG_SHIFT, STE2_S2SL0_SHIFT, STE2_S2PS_SHIFT, STE2_S2T0SZ_SHIFT, STE2_S2SH0_SHIFT,
    STE2_S2IR0_SHIFT, STE2_S2OR0_SHIFT, STE2_S2VMID_MASK.
  rewrite F1, F2, F3, F4, F5, F6, F7, F8, from_sl0_sl0, from_ps_ps. cbn [negb N.eqb].
  pose proof (ipa_bits_gt _ Hv) as [Hlo Hhi].
  replace (64 - (64 - ipa_bits (regime b))) with (ipa_bits (regime b)) by lia.
  assert (E : mkRegime K4 (ipa_bits (regime b)) (start_level (regime b)) (pa_size (regime b))
    (walk_shareability (regime b)) (walk_inner (regime b)) (walk_outer (regime b)) = regime b).
  { rewrite <- Hg. by destruct (regime b). }
  rewrite E, Hv. cbn [negb]. rewrite as_u16_id by done.
  change STE3_S2TTB_MASK with (N.shiftl (N.ones (52 - 4)) 4).
  rewrite !(land_window (s2ttb b) 4 52 (table_align_16 _ _ Hv Ha) Hlt). by destruct b.
Qed.

Lemma sets_covered w sid ste w' l sid' :
  sets w sid ste w' -> covered w' l sid' <-> covered w l sid'.
Proof. intros [Hl _]. unfold covered, fits. by rewrite Hl. Qed.

(** A table whose entry of [sid] was replaced by a binding's. *)
Lemma sets_reads w sid b w' :
  encodable b -> vmid b <= u16_max -> sets w sid (ste_of b) w' ->
  decode (word w' sid 0) = Stage2Only /\
  read_binding (word w' sid 0) (word w' sid 2) (word w' sid 3) = Some b.
Proof.
  intros He Hm [_ Hw]. destruct (ste_of_reads b He Hm) as (_ & w0 & w2 & w3 & G0 & G2 & G3 & Hd & Hr).
  rewrite !Hw by done. rewrite !decide_True by done. rewrite G0, G2, G3. done.
Qed.

Lemma bind_stage2_run w l sid b :
  exists w' r, bind_stage2 l sid b w = Done w' r /\
    (if decide (encodable b /\ covered w l sid) then r = Ok tt /\ sets w sid (ste_of b) w'
     else w' = w /\ exists e, r = Err e).
Proof.
  unfold bind_stage2. destruct (stage2_ste_run b w) as ([ste|e] & E & Hr); unfold bind at 1; rewrite E.
  - destruct Hr as [He ->]. unfold tbind, lift, bind, ret. cbn [map_err].
    destruct (bind_run w l sid (ste_of b) eq_refl) as (w' & r & E' & H). exists w', r. split; [done|].
    destruct (decide (covered w l sid)) as [Hc|Hc].
    + by rewrite decide_True.
    + rewrite decide_False by tauto. destruct H as [-> ->]. split; [done|by eexists].
  - do 2 eexists. split; [done|]. rewrite decide_False by tauto. split; [done|by eexists].
Qed.

Lemma sets_other w l sid ste w' sid' :
  sets w sid ste w' -> sid' <> sid ->
  binding_at w' l sid' = binding_at w l sid' /\ verdict_of w' l sid' = verdict_of w l sid'.
Proof.
  intros Hs Hne. unfold binding_at, verdict_of. pose proof (sets_covered _ _ _ _ l sid' Hs) as Hc.
  destruct Hs as [_ Hw].
  rewrite !Hw by done. rewrite !(decide_False (P:=sid' = sid)) by done.
  destruct (decide (covered w l sid')) as [H|H]; rewrite <- Hc in H; destruct (decide _); tauto.
Qed.

(** ** Properties *)

(** C12: binding a stream to a domain writes exactly its entry: it never panics, succeeds exactly
    when the table covers the stream and an entry can name the binding without losing a bit,
    and a refusal writes nothing. Afterwards that stream is confined to precisely that
    binding, every other stream is where it was, and unbinding makes the stream denied. *)
Theorem bind_stage2_exact (w : list N) (log2size sid : N) (b : Stage2Binding) :
  vmid b <= u16_max ->
  exists w' r, bind_stage2 log2size sid b w = Done w' r /\
    (r = Ok tt <-> encodable b /\ covered w log2size sid) /\ (r <> Ok tt -> w' = w) /\
    (r = Ok tt ->
      stage2_binding_at w' log2size sid tt = Done tt (Some b) /\
      verdict w' log2size sid tt = Done tt Stage2Only /\
      (forall sid', sid' <> sid ->
        stage2_binding_at w' log2size sid' tt = stage2_binding_at w log2size sid' tt /\
        verdict w' log2size sid' tt = verdict w log2size sid' tt) /\
      exists w2, unbind log2size sid w' = Done w2 (Ok tt) /\
        verdict w2 log2size sid tt = Done tt Invalid).
Proof.
  intros Hm. destruct (bind_stage2_run w log2size sid b) as (w' & r & E & Hr). exists w', r.
  split; [done|]. setoid_rewrite binding_at_Done. setoid_rewrite verdict_Done.
  destruct (decide (encodable b /\ covered w log2size sid)) as [ [He Hc]|Hn].
  2: { destruct Hr as [-> (e & ->)]. split_and!; (done || intros H; by destruct Hn). }
  destruct Hr as [-> Hs]. destruct (sets_reads w sid b w' He Hm Hs) as [Hd Hb].
  pose proof (proj2 (sets_covered _ _ _ _ _ sid Hs) Hc) as Hc'.
  split; [tauto|]. split; [done|]. intros _. split_and!.
  - unfold binding_at. by rewrite decide_True, Hb.
  - unfold verdict_of. by rewrite decide_True, Hd.
  - intros sid' Hne. by destruct (sets_other _ log2size _ _ _ _ Hs Hne) as [-> ->].
  - destruct (bind_run w' log2size sid deny_ste eq_refl) as (w2 & r2 & E2 & H2).
    rewrite decide_True in H2 by done. destruct H2 as [-> Hs2]. exists w2. split; [done|].
    unfold verdict_of. rewrite decide_True by (by apply (sets_covered _ _ _ _ _ _ Hs2)).
    by rewrite (set_word _ _ _ _ Hs2), decide_True.
Qed.

Theorem bind_stage2_exact_witness :
  let b := mkBinding 0x40100000 1 BALEEN_STAGE2 in
  exists w', bind_stage2 8 5 b (vrepeat 2048 0) = Done w' (Ok tt) /\
    stage2_binding_at w' 8 5 tt = Done tt (Some b) /\ stage2_binding_at w' 8 6 tt = Done tt None.
Proof.
  intros b. destruct (bind_stage2_exact (vrepeat 2048 0) 8 5 b) as (w' & r & E & Hok & _ & H).
  - vm_compute. discriminate.
  - assert (Hr : r = Ok tt).
    { apply Hok. split; [repeat split; vm_compute; reflexivity|].
      split; [split; vm_compute; discriminate|vm_compute; reflexivity]. }
    destruct (H Hr) as (H1 & _ & H2 & _). subst r. exists w'.
    split; [exact E|]. split; [exact H1|]. rewrite (proj1 (H2 6 ltac:(discriminate))).
    vm_compute. reflexivity.
Defined.
