(* ===== verification/Derive.v ===== *)
(** * The stream table refines the device assignment — [hv-s2/src/smmu.rs], the derivation

    [derive_stream_table] either realizes the whole assignment relation, stream by stream, or
    leaves a table that denies every stream. *)

From Stdlib Require Import NArith Lia.
From stdpp Require Import base numbers list option.
From S2P Require Import Bits.
From S2P Require Import Device.
From S2P Require Import LeafMap.
From S2P Require Import Arm64.
From S2P Require Import Regime.
From S2P Require Import Smmu.
From S2P Require Import Streams.
From S2P Require Import Prelude.
#[local] Open Scope N_scope.

(** ** Specification *)

Section Relation.
Context (devices : Device.System) (stream_of : list N) (binding_of : list (option Stage2Binding)).

(** Device [dev] is held by a domain that has binding [b]. *)
Definition bound (dev : N) (b : Stage2Binding) : Prop :=
  exists h, Device.holder_of devices dev = Some h /\ vget binding_of h = Some (Some b).

(** The assignment can be expressed by a table of [2^log2size] entries in [w]. *)
Record derivable (w : list N) (log2size : N) : Prop := mkDerivable {
  dv_fits : fits w log2size;
  dv_streams : Device.device_count devices <= vlen stream_of;
  dv_bindings : Device.domain_count devices <= vlen binding_of;
  dv_inj : forall a b sid, a < Device.device_count devices -> b < Device.device_count devices ->
    vget stream_of a = Some sid -> vget stream_of b = Some sid -> a = b;
  dv_bound : forall dev h, dev < Device.device_count devices -> Device.holder_of devices dev = Some h ->
    exists b sid, vget binding_of h = Some (Some b) /\ encodable b /\
      vget stream_of dev = Some sid /\ sid < 2 ^ log2size;
}.

(** What the machine's own bounds give: holders are domains, device identifiers and VMIDs are
    16 bits. *)
Record wf : Prop := mkWf {
  wf_inv : Device.Inv devices;
  wf_count : Device.device_count devices <= u16_max + 1;
  wf_vmid : forall h b, vget binding_of h = Some (Some b) -> vmid b <= u16_max;
}.

(** Entry [sid] realizes binding [b]; entry [sid] is zero. *)
Definition realizes (w : list N) (sid : N) (b : Stage2Binding) : Prop :=
  decode (word w sid 0) = Stage2Only /\
  read_binding (word w sid 0) (word w sid 2) (word w sid 3) = Some b.

(** The table after the devices below [n]. *)
Record derived (len n : N) (w : list N) : Prop := mkDerived {
  dr_len : vlen w = len;
  dr_bound : forall dev sid b, dev < n -> vget stream_of dev = Some sid -> bound dev b -> realizes w sid b;
  dr_rest : forall sid, (forall dev b, dev < n -> vget stream_of dev = Some sid -> ~ bound dev b) ->
    word w sid 0 = 0;
}.

(** ** Lemmas *)

Hypothesis Hwf : wf.

Lemma bound_fun dev b b' : bound dev b -> bound dev b' -> b = b'.
Proof. intros (h & H1 & H2) (h' & H1' & H2'). congruence. Qed.

Lemma dev_id dev : dev < Device.device_count devices -> as_u16 dev = dev.
Proof. intros H. apply as_u16_id. pose proof (wf_count Hwf). unfold u16_max in *. lia. Qed.

(** *** The relation, looked up *)

Lemma intended_spec (sid : N) (b : Stage2Binding) :
  (forall a b sid, a < Device.device_count devices -> b < Device.device_count devices ->
    vget stream_of a = Some sid -> vget stream_of b = Some sid -> a = b) ->
  intended_binding devices stream_of binding_of sid = Some b <->
  exists dev, dev < Device.device_count devices /\ vget stream_of dev = Some sid /\ bound dev b.
Proof.
  intros Hinj. unfold intended_binding, holder_of_stream.
  set (f := fun dev => if decide (vget stream_of dev = Some sid)
    then Some (Device.holder_of devices (as_u16 dev)) else None).
  split.
  - intros H. destruct (first_some f (vrange (Device.device_count devices))) as [o|] eqn:E; [|done].
    apply first_some_Some in E as (dev & Hd%elem_vrange & Hf). unfold f in Hf. case_decide as Hs; [|done].
    injection Hf as Ho. rewrite dev_id in Ho by done. subst o. exists dev. split_and!; [done|done|].
    destruct (Device.holder_of devices dev) as [h|] eqn:Eh; [|done]. exists h. split; [done|].
    destruct (vget binding_of h) as [x|]; congruence.
  - intros (dev & Hd & Hs & h & Hh & Hb).
    rewrite (first_some_at f (vrange (Device.device_count devices)) dev (Device.holder_of devices dev)).
    + by rewrite Hh, Hb.
    + by apply elem_vrange.
    + unfold f. by rewrite decide_True, dev_id.
    + intros y Hy%elem_vrange Hne. unfold f. rewrite decide_False; [done|].
      intros Hs'. apply Hne. by apply (Hinj y dev sid).
Qed.

(** *** One device *)

Definition good (log2size dev h : N) : Prop :=
  exists b sid, vget binding_of h = Some (Some b) /\ encodable b /\
    vget stream_of dev = Some sid /\ sid < 2 ^ log2size.

Definition zeros (len : N) (w : list N) : Prop := w = vrepeat len 0.

Lemma wp_refuse e w (Q : list N -> result DeriveError unit -> Prop) :
  Q (vrepeat (vlen w) 0) (Err e) -> wp (refuse e) Q w.
Proof. done. Qed.

Context (log2size len : N).
Hypothesis Hfits : log2size <= MAX_LOG2SIZE /\ 2 ^ log2size * STE_WORDS <= len.
Hypothesis Hstreams : Device.device_count devices <= vlen stream_of.
Hypothesis Hbindings : Device.domain_count devices <= vlen binding_of.
Hypothesis Hinj : forall a b sid, a < Device.device_count devices -> b < Device.device_count devices ->
    vget stream_of a = Some sid -> vget stream_of b = Some sid -> a = b.

Lemma derived_skip n w : derived len n w -> Device.holder_of devices n = None -> derived len (n + 1) w.
Proof.
  intros [Hl Hb Hr] Hn. assert (Hno : forall b, ~ bound n b) by (intros b (h & H & _); congruence).
  split; [done| |].
  - intros dev sid b Hd Hs Hbd. apply (Hb dev); [|done|done].
    destruct (decide (dev = n)) as [->|]; [by apply Hno in Hbd|lia].
  - intros sid H. apply Hr. intros dev b Hd. apply H. lia.
Qed.

Lemma derived_bind n w w' sid b :
  derived len n w -> n < Device.device_count devices -> vget stream_of n = Some sid -> bound n b ->
  encodable b -> sets w sid (ste_of b) w' -> derived len (n + 1) w'.
Proof.
  intros [Hl Hb Hr] Hn Hs Hbd He Hset.
  assert (Hm : vmid b <= u16_max) by (destruct Hbd as (h & _ & H); by apply (wf_vmid Hwf h)).
  pose proof (sets_reads w sid b w' He Hm Hset) as Hreal. destruct Hset as [Hl' Hw'].
  split; [by rewrite Hl'| |].
  - intros dev sid' b' Hd Hs' Hbd'. destruct (decide (sid' = sid)) as [->|Hne].
    + assert (dev = n) as -> by (apply (Hinj dev n sid); try done; lia).
      by rewrite (bound_fun n b' b).
    + assert (dev <> n) by congruence. unfold realizes. rewrite !Hw' by done.
      rewrite !(decide_False (P:=sid' = sid)) by done. apply (Hb dev); [lia|done|done].
  - intros sid' H. rewrite Hw' by done. rewrite (decide_False (P:=sid' = sid)).
    + apply Hr. intros dev b' Hd. apply H. lia.
    + intros ->. by apply (H n b); [lia| |].
Qed.

Lemma wp_bind_device n w :
  derived len n w -> n < Device.device_count devices ->
  wp (bind_device log2size devices stream_of binding_of n) (fun w' r =>
    match r with
    | Ok _ => derived len (n + 1) w' /\ forall h, Device.holder_of devices n = Some h -> good log2size n h
    | Err _ => zeros len w' /\ exists h, Device.holder_of devices n = Some h /\ ~ good log2size n h
    end) w.
Proof.
  intros Hd Hn. pose proof (dr_len _ _ _ Hd) as Hlen. unfold bind_device. rewrite dev_id by done.
  destruct (Device.holder_of devices n) as [h|] eqn:Eh.
  2: { apply wp_ret. split; [by apply derived_skip|done]. }
  pose proof (wf_inv Hwf n h Eh) as Hh. unfold Device.domain_count in Hbindings.
  destruct (vget_lt_Some binding_of h) as [o Ho]; [lia|]. apply wp_bind, wp_index. exists o. split; [done|].
  destruct o as [b|].
  2: { apply wp_refuse. rewrite Hlen. split; [done|]. exists h. split; [done|]. intros (b & sid & H & _). congruence. }
  destruct (vget_lt_Some stream_of n) as [sid Hs]; [lia|]. apply wp_bind, wp_index. exists sid. split; [done|].
  destruct (bind_stage2_run w log2size sid b) as (w' & r & E & Hr). apply wp_bind.
  eapply wp_of_Done; [exact E|]. destruct (decide (encodable b /\ covered w log2size sid)) as [ [He Hc]|Hno].
  - destruct Hr as [-> Hset]. apply wp_ret. split.
    + eapply derived_bind; try done. by exists h.
    + intros h' [= <-]. exists b, sid. split_and!; [done|done|done|apply Hc].
  - destruct Hr as (-> & e & ->). apply wp_refuse. rewrite Hlen. split; [done|]. exists h. split; [done|].
    intros (b' & sid' & H1 & H2 & H3 & H4). apply Hno. assert (b' = b) as -> by congruence.
    assert (sid' = sid) as -> by congruence. split; [done|]. split; [|done]. unfold fits. by rewrite Hlen.
Qed.

(** *** The whole table *)

Definition aliased : Prop :=
  exists a b sid, a < b /\ b < Device.device_count devices /\
    vget stream_of a = Some sid /\ vget stream_of b = Some sid.
End Relation.

Lemma wp_check_aliases devices stream_of len w :
  Device.device_count devices <= vlen stream_of -> vlen w = len ->
  wp (check_aliases (Device.device_count devices) stream_of) (fun w' r =>
    match r with
    | Ok _ => w' = w /\ ~ aliased devices stream_of
    | Err _ => zeros len w' /\ aliased devices stream_of
    end) w.
Proof.
  intros Hstreams Hlen. unfold check_aliases. set (n := Device.device_count devices) in *.
  set (apart_from := fun a => forall b sid, a < b -> b < n -> vget stream_of a = Some sid ->
    vget stream_of b = Some sid -> False).
  eapply wp_mono; [apply (wp_for_ok _ _ (fun l w' => w' = w /\ forall a, a ∈ l -> apart_from a)
    (fun _ w' _ => zeros len w' /\ aliased devices stream_of))|].
  - split; [done|]. by intros a Ha%elem_of_nil.
  - intros l1 a l2 w1 Hl [-> Hall]. apply vrange_split in Hl as [_ Ha].
    eapply wp_mono; [apply (wp_for_ok _ _ (fun l w' => w' = w /\ forall b sid, b ∈ l ->
      vget stream_of a = Some sid -> vget stream_of b = Some sid -> False)
      (fun _ w' _ => zeros len w' /\ aliased devices stream_of))|].
    + split; [done|]. by intros b sid Hb%elem_of_nil.
    + intros m1 b m2 w2 Hm [-> Hb].
      assert (Hin : b ∈ vrange_from (a + 1) n) by (rewrite Hm; apply elem_of_app; right; by left).
      apply elem_vrange_from in Hin as [Hab Hbn].
      destruct (vget_lt_Some stream_of a) as [x Hx]; [lia|].
      destruct (vget_lt_Some stream_of b) as [y Hy]; [lia|].
      apply wp_bind, wp_index. exists x. split; [done|]. apply wp_bind, wp_index. exists y. split; [done|].
      destruct (N.eqb_spec x y) as [->|Hne].
      * apply wp_refuse. split; [by rewrite Hlen|]. exists a, b, y. split_and!; [lia|done|done|done].
      * apply wp_ret. split; [done|]. intros c sid [Hc| ->]%elem_of_snoc; [by apply Hb|]. congruence.
    + intros w2 [ []|e]; [|by intros (x & _ & H)]. intros [-> Hb]. split; [done|].
      intros c [Hc| ->]%elem_of_snoc; [by apply Hall|]. intros b sid H1 H2. apply Hb.
      apply elem_vrange_from. lia.
  - intros w2 [ []|e]; [|by intros (x & _ & H)]. intros [-> Hall]. split; [done|].
    intros (a & b & sid & H1 & H2 & H3 & H4).
    assert (Ha : a ∈ vrange n) by (apply elem_vrange; unfold n; lia). by apply (Hall a Ha b sid).
Qed.

Lemma aliased_inj devices stream_of : ~ aliased devices stream_of ->
  forall a b sid, a < Device.device_count devices -> b < Device.device_count devices ->
    vget stream_of a = Some sid -> vget stream_of b = Some sid -> a = b.
Proof.
  intros Hno a b sid Ha Hb H1 H2. destruct (N.lt_trichotomy a b) as [H|[H|H] ]; [|done|];
    exfalso; apply Hno; [by exists a, b, sid|by exists b, a, sid].
Qed.

Section Table.
Context (devices : Device.System) (stream_of : list N) (binding_of : list (option Stage2Binding)).
Context (log2size len : N).
Hypothesis Hwf : wf devices binding_of.
Hypothesis Hfits : log2size <= MAX_LOG2SIZE /\ 2 ^ log2size * STE_WORDS <= len.
Hypothesis Hstreams : Device.device_count devices <= vlen stream_of.
Hypothesis Hbindings : Device.domain_count devices <= vlen binding_of.

Lemma wp_bind_all w :
  derived devices stream_of binding_of len 0 w -> ~ aliased devices stream_of ->
  wp (for_ok (vrange (Device.device_count devices)) (bind_device log2size devices stream_of binding_of))
    (fun w' r => match r with
      | Ok _ => derived devices stream_of binding_of len (Device.device_count devices) w' /\
          forall dev h, dev < Device.device_count devices -> Device.holder_of devices dev = Some h ->
            good stream_of binding_of log2size dev h
      | Err _ => zeros len w' /\ exists dev h, dev < Device.device_count devices /\
          Device.holder_of devices dev = Some h /\ ~ good stream_of binding_of log2size dev h
      end) w.
Proof.
  intros Hd Hno. pose proof (aliased_inj devices stream_of Hno) as Hinj.
  eapply wp_mono; [apply (wp_for_ok _ _ (fun l w' => derived devices stream_of binding_of len (vlen l) w' /\
      forall dev h, dev < vlen l -> Device.holder_of devices dev = Some h -> good stream_of binding_of log2size dev h)
    (fun dev w' _ => zeros len w' /\ exists h, Device.holder_of devices dev = Some h /\
      ~ good stream_of binding_of log2size dev h))|].
  - split; [done|]. intros dev h H. change (vlen []) with 0 in H. lia.
  - intros l1 dev l2 w1 Hl [Hd1 Hg]. apply vrange_split in Hl as [-> Hn].
    eapply wp_mono; [by apply (wp_bind_device devices stream_of binding_of Hwf log2size len)|].
    intros w2 [ []|e]; [|done]. intros [Hd2 Hg2]. rewrite vlen_snoc. split; [done|].
    intros dev h Hlt Hh. destruct (decide (dev = vlen l1)) as [->|]; [by apply Hg2|]. apply Hg; [lia|done].
  - intros w2 [ []|e].
    + intros [Hd2 Hg]. rewrite vlen_vrange in *. done.
    + intros (dev & Hin%elem_vrange & Hz & h & Hh & Hng). split; [done|]. by exists dev, h.
Qed.
End Table.

(** The outcome of the derivation. *)
Lemma derive_run (w : list N) log2size devices stream_of binding_of :
  wf devices binding_of ->
  exists w' r, derive_stream_table log2size devices stream_of binding_of w = Done w' r /\
    vlen w' = vlen w /\
    match r with
    | Ok _ => derivable devices stream_of binding_of w log2size /\
        derived devices stream_of binding_of (vlen w) (Device.device_count devices) w'
    | Err _ => zeros (vlen w) w' /\ ~ derivable devices stream_of binding_of w log2size
    end.
Proof.
  intros Hwf. apply (wp_Done (derive_stream_table log2size devices stream_of binding_of) (fun w' r =>
    vlen w' = vlen w /\ match r with
    | Ok _ => derivable devices stream_of binding_of w log2size /\
        derived devices stream_of binding_of (vlen w) (Device.device_count devices) w'
    | Err _ => zeros (vlen w) w' /\ ~ derivable devices stream_of binding_of w log2size
    end) w). unfold derive_stream_table.
  apply wp_bind. apply (wp_modify (fun w => vrepeat (vlen w) 0)). apply wp_bind, wp_get.
  set (w0 := vrepeat (vlen w) 0). assert (Hl0 : vlen w0 = vlen w) by apply vlen_vrepeat.
  pose proof (table_words_fits w log2size) as Hf. rewrite Hl0.
  assert (Hz : forall Q : Prop, ~ Q -> vlen w0 = vlen w /\ zeros (vlen w) w0 /\ ~ Q).
  { intros Q HQ. split; [done|]. by split. }
  destruct (table_words log2size) as [needed|].
  2: { apply wp_ret, Hz. intros [H _ _ _ _]. by rewrite <- Hf in H. }
  destruct (N.leb_spec needed (vlen w)) as [Hfit|Hno].
  2: { apply wp_ret, Hz. intros [H _ _ _ _]. rewrite <- Hf in H. lia. }
  apply Hf in Hfit.
  destruct (N.ltb_spec (vlen stream_of) (Device.device_count devices)) as [Hs|Hs].
  { apply wp_ret, Hz. intros [_ H _ _ _]. lia. }
  destruct (N.ltb_spec (vlen binding_of) (Device.domain_count devices)) as [Hb|Hb].
  { apply wp_ret, Hz. intros [_ _ H _ _]. lia. }
  apply wp_tbind. eapply wp_mono; [by apply (wp_check_aliases devices stream_of (vlen w))|].
  intros w1 [ []|e].
  - intros [-> Hna]. eapply wp_mono; [apply (wp_bind_all devices stream_of binding_of log2size (vlen w)); try done|].
    + split; [done|lia|]. intros sid _. unfold word, w0. rewrite vget_vrepeat. by case_decide.
    + intros w2 [ []|e].
      * intros [Hd Hg]. split; [by apply Hd|]. split; [|done]. split; try done. by apply aliased_inj.
      * intros (-> & dev & h & Hd & Hh & Hng). split; [by rewrite vlen_vrepeat|]. split; [done|].
        intros [_ _ _ _ H]. apply Hng. by apply H.
  - intros [-> (a & b & sid & H1 & H2 & H3 & H4)]. split; [by rewrite vlen_vrepeat|]. split; [done|].
    intros [_ _ _ Hinj _]. assert (a = b); [apply (Hinj a b sid); (done || lia)|lia].
Qed.

(** *** Reading the result *)

Lemma zeros_denies w len l sid : zeros len w -> permits (verdict_of w l sid) = false.
Proof.
  intros ->. unfold verdict_of. case_decide as Hc; [|done]. unfold word.
  rewrite vget_vrepeat. by case_decide.
Qed.

Lemma derived_reads w w' l devices stream_of binding_of sid :
  wf devices binding_of -> derivable devices stream_of binding_of w l ->
  derived devices stream_of binding_of (vlen w) (Device.device_count devices) w' ->
  binding_at w' l sid = intended_binding devices stream_of binding_of sid /\
  permits (verdict_of w' l sid) = bool_decide (is_Some (intended_binding devices stream_of binding_of sid)).
Proof.
  intros Hwf Hdv [Hl Hb Hr]. pose proof (dv_inj _ _ _ _ _ Hdv) as Hinj.
  pose proof (fun b => intended_spec devices stream_of binding_of Hwf sid b Hinj) as Hi.
  assert (Hcov : covered w' l sid <-> sid < 2 ^ l).
  { unfold covered, fits. rewrite Hl. pose proof (dv_fits _ _ _ _ _ Hdv). unfold fits in *. tauto. }
  destruct (intended_binding devices stream_of binding_of sid) as [b|] eqn:E.
  - destruct (proj1 (Hi b) eq_refl) as (dev & Hd & Hs & Hbd).
    destruct (Hb dev sid b Hd Hs Hbd) as [Hdec Hread].
    assert (Hc : covered w' l sid).
    { apply Hcov. destruct Hbd as (h & Hh & Hbh).
      destruct (dv_bound _ _ _ _ _ Hdv dev h Hd Hh) as (b' & sid' & _ & _ & Hs' & Hlt). congruence. }
    unfold binding_at, verdict_of. by rewrite !decide_True, Hread, Hdec.
  - assert (Hz : word w' sid 0 = 0).
    { apply Hr. intros dev b Hd Hs Hbd. assert (None = Some b); [|done].
      apply Hi. by exists dev. }
    unfold binding_at, verdict_of. by case_decide; rewrite ?Hz.
Qed.

(** The run-time check accepts the derived table. *)
Lemma derived_refines {S} w w' l devices stream_of binding_of (s : S) :
  wf devices binding_of -> derivable devices stream_of binding_of w l -> vlen w' = vlen w ->
  derived devices stream_of binding_of (vlen w) (Device.device_count devices) w' ->
  table_refines_the_relation w' l devices stream_of binding_of s = Done s true.
Proof.
  intros Hwf Hdv Hl Hd. unfold table_refines_the_relation. pose proof (table_words_fits w' l) as Hf.
  assert (Hfit : fits w' l) by (unfold fits; rewrite Hl; apply Hdv).
  apply Hf in Hfit. destruct (table_words l) as [needed|]; [|done].
  destruct (N.ltb_spec (vlen w') needed); [lia|]. apply all_m_true. intros sid _.
  destruct (derived_reads w w' l _ _ _ sid Hwf Hdv Hd) as [Hb Hp].
  unfold bind. rewrite binding_at_Done, bool_decide_eq_true_2 by done. rewrite verdict_Done.
  unfold ret. f_equal. apply bool_decide_eq_true_2. exact Hp.
Qed.

(** ** Properties *)

(** C11: the stream table refines the device assignment. The derivation never panics; it succeeds
    exactly when the relation can be expressed — the table holds every stream an assigned
    device carries, no two devices share a stream, and every holder has a binding an entry can
    name. On success a stream translates through binding [b] if and only if it is carried by a
    device whose holder has [b]; every other stream is denied, and the run-time check of the
    table accepts it. On any refusal the table denies every stream. *)
Theorem derive_refines (w : list N) (log2size : N) (devices : Device.System) (stream_of : list N)
    (binding_of : list (option Stage2Binding)) :
  wf devices binding_of ->
  exists w' r, derive_stream_table log2size devices stream_of binding_of w = Done w' r /\
    (r = Ok tt <-> derivable devices stream_of binding_of w log2size) /\
    match r with
    | Ok _ =>
        (forall sid, exists o v, stage2_binding_at w' log2size sid tt = Done tt o /\
          verdict w' log2size sid tt = Done tt v /\ permits v = bool_decide (is_Some o) /\
          stage2_unconfined v = false /\
          forall b, o = Some b <-> exists dev h, dev < Device.device_count devices /\
            vget stream_of dev = Some sid /\ Device.holder_of devices dev = Some h /\
            vget binding_of h = Some (Some b)) /\
        table_refines_the_relation w' log2size devices stream_of binding_of tt = Done tt true
    | Err _ => forall sid, exists v, verdict w' log2size sid tt = Done tt v /\ permits v = false
    end.
Proof.
  intros Hwf. destruct (derive_run w log2size devices stream_of binding_of Hwf) as (w' & r & E & Hl & Hr).
  exists w', r. split; [done|]. destruct r as [ []|e].
  2: { destruct Hr as [Hz Hno]. split; [by split|]. intros sid. eexists. split; [apply verdict_Done|].
       by eapply zeros_denies. }
  destruct Hr as [Hdv Hd]. split; [by split|]. split.
  - intros sid. destruct (derived_reads w w' log2size _ _ _ sid Hwf Hdv Hd) as [Hb Hp].
    exists (binding_at w' log2size sid), (verdict_of w' log2size sid).
    split; [apply binding_at_Done|]. split; [apply verdict_Done|]. split; [by rewrite Hb|]. split.
    + destruct (binding_at w' log2size sid) as [b|] eqn:Eb.
      * by rewrite (binding_verdict _ _ _ _ Eb).
      * rewrite <- Hb in Hp. rewrite bool_decide_eq_false_2 in Hp by (intros [? ?]; done).
        by destruct (verdict_of w' log2size sid).
    + intros b. rewrite Hb, (intended_spec _ _ _ Hwf sid b (dv_inj _ _ _ _ _ Hdv)). unfold bound. naive_solver.
  - by apply (derived_refines w).
Qed.

(** Two devices, one held by domain 1, whose tables sit at 1 GiB. *)
Definition two_devices : Device.System := Device.mkSystem [Some 1; None] 2.
Definition dom1_binding : Stage2Binding := mkBinding 0x40100000 1 BALEEN_STAGE2.

Lemma two_devices_wf : wf two_devices [None; Some dom1_binding].
Proof.
  split.
  - intros dev h H. unfold Device.holder_of, vget in H. simpl in H.
    destruct (N.to_nat dev) as [|[|[|n] ] ]; simpl in H; try done. injection H as <-. done.
  - done.
  - intros h b H. unfold vget in H. destruct (N.to_nat h) as [|[|[|n] ] ]; simpl in H; try done.
    injection H as <-. done.
Qed.

Theorem derive_refines_witness :
  exists w', derive_stream_table 8 two_devices [8; 16] [None; Some dom1_binding] (vrepeat 2048 7) = Done w' (Ok tt) /\
    stage2_binding_at w' 8 8 tt = Done tt (Some dom1_binding) /\
    table_refines_the_relation w' 8 two_devices [8; 16] [None; Some dom1_binding] tt = Done tt true.
Proof.
  destruct (derive_refines (vrepeat 2048 7) 8 two_devices [8; 16] [None; Some dom1_binding] two_devices_wf)
    as (w' & r & E & _ & Hr).
  assert (Hok : r = Ok tt) by (vm_compute in E; injection E as _ <-; reflexivity).
  subst r. destruct Hr as [Hs Ht]. exists w'. split; [exact E|]. split; [|exact Ht].
  destruct (Hs 8) as (o & v & Ho & _ & _ & _ & Hb). rewrite Ho. f_equal.
  apply Hb. exists 0, 1. repeat split; vm_compute; reflexivity.
Defined.
