(* ===== verification/DevicePath.v ===== *)
(** * The device path — [hv-s2] composed with [hv-core]

    Both walkers of a domain's tables are given one table under one regime, and what a bus
    master reaches is what the domain that holds it may access. *)

From Stdlib Require Import NArith Lia Btauto.
From stdpp Require Import base numbers list option.
From S2P Require Import Bits.
From S2P Require Import Device.
From S2P Require Import P2m.
From S2P Require Import Hypervisor.
From S2P Require Import HvInvariant.
From S2P Require Import HvSafety.
From S2P Require Import LeafMap.
From S2P Require Import S2Check.
From S2P Require Import Arm64.
From S2P Require Import Stage2.
From S2P Require Import Emission.
From S2P Require Import Walk.
From S2P Require Import ReadBack.
From S2P Require Import Isolation.
From S2P Require Import Regime.
From S2P Require Import Smmu.
From S2P Require Import Streams.
From S2P Require Import Derive.
From S2P Require Import Prelude.
#[local] Open Scope N_scope.

(** ** Specification *)

(** The tables of domain [d] were emitted from the state for [lay] and lie in memory. *)
Record tables_of (s : Hypervisor) (d : DomId) (lay : Layout) (fetch : N -> N -> N) : Prop := mkTablesOf {
  to_valid : validate lay lay = Done lay (Ok tt);
  to_emitted : exists o o' n t0 t,
    vlen (base o) <= u32_max + 1 /\ vlen (sup o) <= u32_max + 1 /\
    leaf_map (p2m s) d o = Done o' (Ok tt) /\ nameable_windows lay (padded n (sup o')) /\
    skeleton lay t0 /\ encode (base o') (padded n (sup o')) lay t0 = Done t tt /\ fetches lay t fetch;
}.

(** ** Lemmas *)

Lemma tables_reach k s d lay fetch ipa r :
  reachable k s -> tables_of s d lay fetch -> walk (l1_pa lay) ipa fetch = Some r ->
  reach_ok s d lay ipa r.
Proof.
  intros HR [Hval (o & o' & n & t0 & t & Hb & Hs & E & Hw & Hsk & Ht & Hf)] Hwalk.
  pose proof Hval as [_ Hv]%validate_valid.
  pose proof (encode_emitted lay (base o') (padded n (sup o')) t0 Hv Hw Hsk) as He.
  unfold wp in He. rewrite Ht in He.
  by apply (emitted_reach_ok k s d o o' lay n t fetch).
Qed.

Lemma baleen_encodable p v :
  encodable (mkBinding p v BALEEN_STAGE2) <-> p < 2 ^ 52 /\ p mod 4096 = 0.
Proof.
  unfold encodable. cbn [regime s2ttb].
  change (N.max 64 (8 * start_entries BALEEN_STAGE2)) with 4096. intuition.
Qed.

Lemma vttbr_reads p v : p < 2 ^ 48 -> vttbr_table (vttbr p v) = p /\ vttbr_vmid (vttbr p v) B8 = v mod 256.
Proof.
  intros Hp. unfold vttbr_table, vttbr_vmid, vttbr. split.
  - change 281474976710655 with (N.ones 48). apply N.bits_inj. intros i. autorewrite with bits.
    destruct (N.ltb_spec i 48) as [H|H].
    + rewrite (proj2 (N.leb_gt 48 i)) by lia. btauto.
    + rewrite (testbit_high p 48) by done. btauto.
  - assert (E : N.land (as_u32 (N.shiftr (N.lor p (shl 64 v 48)) 48)) (vmid_count B8 - 1) = v mod 256).
    { change (vmid_count B8 - 1) with (N.ones 8). unfold as_u32. change 256 with (2 ^ 8).
      change 4294967296 with (2 ^ 32). apply N.bits_inj. intros i. autorewrite with bits.
      destruct (N.ltb_spec i 8) as [H|H]; [|btauto].
      rewrite (testbit_high p 48) by (done || lia). replace (i + 48 - 48) with i by lia.
      rewrite (proj2 (N.ltb_lt i 32)), (proj2 (N.ltb_lt (i + 48) 64)), (proj2 (N.leb_le 48 (i + 48))) by lia.
      btauto. }
    rewrite E. apply as_u16_id. pose proof (N.mod_lt v 256 ltac:(done)). unfold u16_max. lia.
Qed.

(** The handles of a table set, on every branch. *)
Lemma handles_run {S} lay v (s : S) :
  exists r, stage2_handles lay v s = Done s r /\
    match r with
    | Ok h => l1_pa lay < 2 ^ 48 /\ l1_pa lay mod 4096 = 0 /\ h_vttbr h = vttbr (l1_pa lay) v /\
        h_binding h = mkBinding (l1_pa lay) (v mod 256) BALEEN_STAGE2
    | Err _ => ~ (l1_pa lay < 2 ^ 48 /\ l1_pa lay mod 4096 = 0)
    end.
Proof.
  unfold stage2_handles. change MAX_TABLE_PA with (2 ^ 48).
  destruct (N.leb_spec (2 ^ 48) (l1_pa lay)) as [H|H]; [eexists; split; [done|]; intros [Hlt _]; by apply N.le_ngt in H|].
  destruct (vttbr_reads (l1_pa lay) v H) as [_ Hv]. unfold BALEEN_VMID_BITS. rewrite Hv.
  destruct (stage2_ste_run (mkBinding (l1_pa lay) (v mod 256) BALEEN_STAGE2) s) as ([ste|e] & E & Hr);
    unfold bind at 1; rewrite E; eexists; (split; [done|]).
  - destruct Hr as [ [_ Hm]%baleen_encodable _]. done.
  - intros [_ Hm]. apply Hr, baleen_encodable. split; [|done]. etransitivity; [exact H|done].
Qed.

(** ** Properties *)

(** Both walkers are pointed at one table. The handles are minted without panic exactly for a
    table base below 2^48 on a page boundary, so for every layout that validates; then the
    base register of the processor and the stream table binding name the same table, the
    binding carries the VMID the processor tags with, and a stream bound to it walks what the
    processor walks. *)
Theorem handles_agree (lay : Layout) (v : N) (w w' : list N) (log2size sid : N) (fetch : N -> N -> N) :
  exists r, stage2_handles lay v tt = Done tt r /\
    ((exists h, r = Ok h) <-> l1_pa lay < 2 ^ 48 /\ l1_pa lay mod 4096 = 0) /\
    (validate lay lay = Done lay (Ok tt) -> exists h, r = Ok h) /\
    forall h, r = Ok h ->
      vttbr_table (h_vttbr h) = l1_pa lay /\ s2ttb (h_binding h) = l1_pa lay /\
      vttbr_vmid (h_vttbr h) BALEEN_VMID_BITS = vmid (h_binding h) /\
      regime (h_binding h) = BALEEN_STAGE2 /\
      (bind_stage2 log2size sid (h_binding h) w = Done w' (Ok tt) -> forall ipa,
        device_reach w' log2size sid ipa fetch tt = Done tt (walk (vttbr_table (h_vttbr h)) ipa fetch)).
Proof.
  destruct (handles_run lay v tt) as (r & E & Hr). exists r. split; [done|].
  assert (Hiff : (exists h, r = Ok h) <-> l1_pa lay < 2 ^ 48 /\ l1_pa lay mod 4096 = 0).
  { destruct r as [h|e]; [split; [by destruct Hr as (? & ? & _)|by exists h]|].
    split; [by intros [h ?]|done]. }
  split; [done|]. split.
  - intros [_ Hv]%validate_valid. apply Hiff.
    destruct (vl_tables _ Hv (l1_pa lay) ltac:(by left)) as [H1 H2]. done.
  - intros h ->. destruct Hr as (Hlt & Hm & Hvt & Hb). rewrite Hvt, Hb.
    destruct (vttbr_reads (l1_pa lay) v Hlt) as [-> Hvm]. cbn [s2ttb vmid regime].
    split_and!; [done|done|done|done|]. intros Hbind ipa.
    set (b := mkBinding (l1_pa lay) (v mod 256) BALEEN_STAGE2) in *.
    assert (Hb16 : vmid b <= u16_max).
    { pose proof (N.mod_lt v 256 ltac:(done)). unfold u16_max. cbn. lia. }
    destruct (bind_stage2_run w log2size sid b) as (w2 & r & E2 & H2). rewrite Hbind in E2.
    injection E2 as <- <-. destruct (decide (encodable b /\ covered w log2size sid)) as [ [He Hc]|Hn].
    2: { by destruct H2 as (_ & e & ?). }
    destruct H2 as [_ Hset]. destruct (sets_reads w sid b w' He Hb16 Hset) as [_ Hread].
    unfold device_reach, bind. rewrite binding_at_Done. unfold binding_at.
    rewrite decide_True by (by apply (sets_covered _ _ _ _ _ sid Hset)). by rewrite Hread.
Qed.

(** C8: a device reaches what its domain may access, and nothing else. In every reachable state,
    with the stream table derived from the device assignment of that state and every binding
    the handle of a domain's emitted tables: a transaction of any stream, to any address, is
    resolved without panic, and if it reaches memory then a device that carries the stream is
    held by a live domain, and the transaction reaches the shared read-only image, that
    domain's device window, or a byte of a frame that domain may access with that
    permission. *)
Theorem devices_isolate (k : N) (s : Hypervisor) (w w' : list N) (log2size : N) (stream_of : list N)
    (binding_of : list (option Stage2Binding)) (layout_of : DomId -> Layout) (fetch : N -> N -> N) :
  reachable k s -> Device.device_count (device s) <= u16_max + 1 ->
  (forall d b, vget binding_of d = Some (Some b) -> exists v h,
    stage2_handles (layout_of d) v tt = Done tt (Ok h) /\ b = h_binding h /\
    tables_of s d (layout_of d) fetch) ->
  derive_stream_table log2size (device s) stream_of binding_of w = Done w' (Ok tt) ->
  forall sid ipa, exists o, device_reach w' log2size sid ipa fetch tt = Done tt o /\
    forall r, o = Some r -> exists dev d, vget stream_of dev = Some sid /\
      Device.holder_of (device s) dev = Some d /\ vget (life s) d <> Some Dead /\
      reach_ok s d (layout_of d) ipa r.
Proof.
  intros HR Hc Hbs E sid ipa. destruct (reachable_HInv k s HR) as [HI _].
  assert (Hwf : wf (device s) binding_of).
  { split; [apply HI|done|]. intros d b Hb. destruct (Hbs d b Hb) as (v & h & Hh & -> & _).
    destruct (handles_run (layout_of d) v tt) as (r & Er & Hr). rewrite Hh in Er. injection Er as <-.
    destruct Hr as (_ & _ & _ & ->). pose proof (N.mod_lt v 256 ltac:(done)). unfold u16_max. cbn. lia. }
  destruct (derive_run w log2size (device s) stream_of binding_of Hwf) as (w2 & r & E2 & _ & Hr).
  rewrite E in E2. injection E2 as <- <-. destruct Hr as [Hdv Hd].
  destruct (derived_reads w w' log2size _ _ _ sid Hwf Hdv Hd) as [Hb _].
  unfold device_reach, bind. rewrite binding_at_Done. unfold ret.
  destruct (binding_at w' log2size sid) as [b|]; eexists; (split; [reflexivity|]); [|done].
  intros r Hwalk. symmetry in Hb.
  apply (intended_spec _ _ _ Hwf sid b (dv_inj _ _ _ _ _ Hdv)) in Hb as (dev & Hdev & Hs & d & Hh & Hbd).
  destruct (Hbs d b Hbd) as (v & h & Hhandle & -> & Ht).
  destruct (handles_run (layout_of d) v tt) as (r' & Er & Hr'). rewrite Hhandle in Er. injection Er as <-.
  destruct Hr' as (_ & _ & _ & Hbind). rewrite Hbind in Hwalk. cbn [s2ttb] in Hwalk.
  exists dev, d. split_and!; [done|done| |by eapply tables_reach].
  intros Hdead. destruct (h_dead s HI d Hdead) as (_ & Hun & _). by apply (un_devices s d Hun dev).
Qed.

(** A machine whose one device is held by domain 1, which maps its own frame 2. *)
Definition bus_boot : Hypervisor := new 2 4 4 2 1 8 1.
Definition bus_trace : list Transition :=
  [Guest 0 (DomainCreate 1 false); Guest 1 (P2mAllocate 2); Guest 1 (P2mAllocate 5);
   Guest 1 (P2mPin 5 P2m.L1); Guest 1 (P2mLink 5 0 2 true true false); Guest 0 (DeviceAssign 0 1)].
Definition bus : Hypervisor :=
  match run bus_trace bus_boot with Done s _ => s | Panic => bus_boot end.

Lemma bus_reachable : reachable 6 bus.
Proof.
  assert (HB : reachable 0 bus_boot) by (apply reach_boot; repeat split; vm_compute; discriminate).
  destruct (reachable_run 0 bus_boot bus_trace HB) as (s & rs & E & _ & HR); [vm_compute; discriminate|].
  unfold bus. rewrite E. exact HR.
Qed.

Definition bus_maps : Maps := mkMaps (vrepeat 8 None) (vrepeat 4 None).
Definition bus_leaves : list (option Perm) := [None; None; Some Rw; None; None; None; None; None].
Definition bus_tables : Tables :=
  match encode bus_leaves (padded 4 (vrepeat 4 None)) demo blank with Done t _ => t | Panic => blank end.
Definition bus_bindings : list (option Stage2Binding) := [None; Some (mkBinding 4096 1 BALEEN_STAGE2)].

Lemma bus_tables_of : tables_of bus 1 demo (memory bus_tables).
Proof.
  split; [vm_compute; reflexivity|].
  exists bus_maps, (mkMaps bus_leaves (vrepeat 4 None)), 4, blank, bus_tables.
  split_and!; [vm_compute; discriminate|vm_compute; discriminate|vm_compute; reflexivity| | | |].
  - exact paging_windows.
  - apply blank_skeleton.
  - vm_compute. reflexivity.
  - apply memory_fetches.
Qed.

Lemma bus_bound d b : vget bus_bindings d = Some (Some b) ->
  exists v h, stage2_handles demo v tt = Done tt (Ok h) /\ b = h_binding h /\
    tables_of bus d demo (memory bus_tables).
Proof.
  intros H. unfold vget in H. destruct (N.to_nat d) as [|[|[|n] ] ] eqn:Ed; simpl in H; try done.
  injection H as <-. assert (d = 1) as -> by lia. exists 1. eexists. split; [vm_compute; reflexivity|].
  split; [reflexivity|exact bus_tables_of].
Qed.

Theorem handles_agree_witness :
  validate demo demo = Done demo (Ok tt) /\
  exists h, stage2_handles demo 1 tt = Done tt (Ok h) /\ vttbr_table (h_vttbr h) = 4096 /\
    s2ttb (h_binding h) = 4096.
Proof.
  assert (Hval : validate demo demo = Done demo (Ok tt)) by (vm_compute; reflexivity).
  split; [exact Hval|].
  destruct (handles_agree demo 1 [] [] 8 8 (memory blank)) as (r & E & _ & Hok & H).
  destruct (Hok Hval) as [h ->]. exists h. split; [exact E|].
  destruct (H h eq_refl) as (H1 & H2 & _). split; [exact H1|exact H2].
Defined.

Theorem devices_isolate_witness :
  exists w', derive_stream_table 8 (device bus) [8] bus_bindings (vrepeat 2048 0) = Done w' (Ok tt) /\
    device_reach w' 8 8 paging_ipa (memory bus_tables) tt =
      Done tt (Some (mkReach (16777216 + 2 * 4096 + 5) Rw true)) /\
    reach_ok bus 1 demo paging_ipa (mkReach (16777216 + 2 * 4096 + 5) Rw true).
Proof.
  eexists. split; [vm_compute; reflexivity|].
  match goal with |- device_reach ?w' _ _ _ _ _ = _ /\ _ =>
    destruct (devices_isolate 6 bus (vrepeat 2048 0) w' 8 [8] bus_bindings (fun _ => demo)
      (memory bus_tables) bus_reachable ltac:(vm_compute; discriminate) bus_bound
      ltac:(vm_compute; reflexivity) 8 paging_ipa) as (o & Ho & Hr)
  end.
  assert (Hv : o = Some (mkReach (16777216 + 2 * 4096 + 5) Rw true)).
  { vm_compute in Ho. injection Ho as <-. reflexivity. }
  split; [rewrite <- Hv; exact Ho|].
  destruct (Hr _ Hv) as (dev & d & _ & Hh & _ & Hok).
  assert (d = 1) as ->; [|exact Hok].
  unfold Device.holder_of, vget in Hh. destruct (N.to_nat dev) as [|[|n] ] eqn:Ed;
    vm_compute in Hh; congruence.
Defined.
