(* ===== verification/Virtio.v ===== *)
(** * The paravirtual console — [hv-metal/src/virtio.rs]

    The register file of the virtio-mmio transport as the console device implements it: the
    identity, the handshake over [Status] and the feature words, and the addresses of the
    virtqueue a driver programs. *)

From Stdlib Require Import NArith Lia Btauto.
From stdpp Require Import base numbers list option.
From S2P Require Import Bits.
From S2P Require Import Prelude.
#[local] Open Scope N_scope.

(** ** The window and the register map *)

Definition VIRTIO_MMIO_BASE : N := 0x0a000000.
Definition VIRTIO_MMIO_SIZE : N := 0x200.

Definition in_mmio_window (addr : N) : bool :=
  (VIRTIO_MMIO_BASE <=? addr) && (addr <? VIRTIO_MMIO_BASE + VIRTIO_MMIO_SIZE).

Definition MAGIC_VALUE : N := 0x000.
Definition VERSION : N := 0x004.
Definition DEVICE_ID : N := 0x008.
Definition VENDOR_ID : N := 0x00c.
Definition DEVICE_FEATURES : N := 0x010.
Definition DEVICE_FEATURES_SEL : N := 0x014.
Definition DRIVER_FEATURES : N := 0x020.
Definition DRIVER_FEATURES_SEL : N := 0x024.
Definition QUEUE_SEL : N := 0x030.
Definition QUEUE_NUM_MAX : N := 0x034.
Definition QUEUE_NUM : N := 0x038.
Definition QUEUE_READY : N := 0x044.
Definition QUEUE_NOTIFY : N := 0x050.
Definition INTERRUPT_STATUS : N := 0x060.
Definition INTERRUPT_ACK : N := 0x064.
Definition STATUS : N := 0x070.
Definition QUEUE_DESC_LOW : N := 0x080.
Definition QUEUE_DESC_HIGH : N := 0x084.
Definition QUEUE_DRIVER_LOW : N := 0x090.
Definition QUEUE_DRIVER_HIGH : N := 0x094.
Definition QUEUE_DEVICE_LOW : N := 0x0a0.
Definition QUEUE_DEVICE_HIGH : N := 0x0a4.
Definition CONFIG_GENERATION : N := 0x0fc.

Definition MAGIC : N := 0x74726976.
Definition VERSION_V2 : N := 2.
Definition DEVICE_ID_CONSOLE : N := 3.
Definition VENDOR : N := 0x4c414256.

Definition VIRTIO_F_VERSION_1_BIT : N := 32.
Definition VERSION_1_WORD1_MASK : N := shl 32 1 (VIRTIO_F_VERSION_1_BIT - 32).

Definition STATUS_ACKNOWLEDGE : N := 1.
Definition STATUS_DRIVER : N := 2.
Definition STATUS_DRIVER_OK : N := 4.
Definition STATUS_FEATURES_OK : N := 8.

Definition VIRTQ_DESC_SIZE : N := 16.
Definition VIRTQ_AVAIL_IDX_OFF : N := 2.
Definition VIRTQ_AVAIL_RING_OFF : N := 4.
Definition VIRTQ_USED_IDX_OFF : N := 2.
Definition VIRTQ_USED_RING_OFF : N := 4.
Definition VIRTQ_USED_ELEM_SIZE : N := 8.
Definition QUEUE_NUM_MAX_VAL : N := 8.

(** ** The register file *)

Record VirtioConsole : Type := mkConsole {
  device_features_sel : N;
  driver_features_sel : N;
  driver_features : list N;
  queue_sel : N;
  queue_num : N;
  queue_ready : N;
  queue_desc : N;
  queue_driver : N;
  queue_device : N;
  status : N;
  interrupt_status : N;
  used_idx : N;
  last_avail_idx : N;
}.

Definition set_device_features_sel v d := mkConsole v (driver_features_sel d)
  (driver_features d) (queue_sel d) (queue_num d) (queue_ready d) (queue_desc d)
  (queue_driver d) (queue_device d) (status d) (interrupt_status d) (used_idx d)
  (last_avail_idx d) .
Definition set_driver_features_sel v d := mkConsole (device_features_sel d) v
  (driver_features d) (queue_sel d) (queue_num d) (queue_ready d) (queue_desc d)
  (queue_driver d) (queue_device d) (status d) (interrupt_status d) (used_idx d)
  (last_avail_idx d) .
Definition set_driver_features v d := mkConsole (device_features_sel d) (driver_features_sel d)
  v (queue_sel d) (queue_num d) (queue_ready d) (queue_desc d) (queue_driver d) (queue_device d)
  (status d) (interrupt_status d) (used_idx d) (last_avail_idx d) .
Definition set_queue_sel v d := mkConsole (device_features_sel d) (driver_features_sel d)
  (driver_features d) v (queue_num d) (queue_ready d) (queue_desc d) (queue_driver d)
  (queue_device d) (status d) (interrupt_status d) (used_idx d) (last_avail_idx d) .
Definition set_queue_num v d := mkConsole (device_features_sel d) (driver_features_sel d)
  (driver_features d) (queue_sel d) v (queue_ready d) (queue_desc d) (queue_driver d)
  (queue_device d) (status d) (interrupt_status d) (used_idx d) (last_avail_idx d) .
Definition set_queue_ready v d := mkConsole (device_features_sel d) (driver_features_sel d)
  (driver_features d) (queue_sel d) (queue_num d) v (queue_desc d) (queue_driver d)
  (queue_device d) (status d) (interrupt_status d) (used_idx d) (last_avail_idx d) .
Definition set_queue_desc v d := mkConsole (device_features_sel d) (driver_features_sel d)
  (driver_features d) (queue_sel d) (queue_num d) (queue_ready d) v (queue_driver d)
  (queue_device d) (status d) (interrupt_status d) (used_idx d) (last_avail_idx d) .
Definition set_queue_driver v d := mkConsole (device_features_sel d) (driver_features_sel d)
  (driver_features d) (queue_sel d) (queue_num d) (queue_ready d) (queue_desc d) v
  (queue_device d) (status d) (interrupt_status d) (used_idx d) (last_avail_idx d) .
Definition set_queue_device v d := mkConsole (device_features_sel d) (driver_features_sel d)
  (driver_features d) (queue_sel d) (queue_num d) (queue_ready d) (queue_desc d)
  (queue_driver d) v (status d) (interrupt_status d) (used_idx d) (last_avail_idx d) .
Definition set_status v d := mkConsole (device_features_sel d) (driver_features_sel d)
  (driver_features d) (queue_sel d) (queue_num d) (queue_ready d) (queue_desc d)
  (queue_driver d) (queue_device d) v (interrupt_status d) (used_idx d) (last_avail_idx d) .
Definition set_interrupt_status v d := mkConsole (device_features_sel d) (driver_features_sel d)
  (driver_features d) (queue_sel d) (queue_num d) (queue_ready d) (queue_desc d)
  (queue_driver d) (queue_device d) (status d) v (used_idx d) (last_avail_idx d) .
Definition set_used_idx v d := mkConsole (device_features_sel d) (driver_features_sel d)
  (driver_features d) (queue_sel d) (queue_num d) (queue_ready d) (queue_desc d)
  (queue_driver d) (queue_device d) (status d) (interrupt_status d) v (last_avail_idx d) .
Definition set_last_avail_idx v d := mkConsole (device_features_sel d) (driver_features_sel d)
  (driver_features d) (queue_sel d) (queue_num d) (queue_ready d) (queue_desc d)
  (queue_driver d) (queue_device d) (status d) (interrupt_status d) (used_idx d) v.

Definition new : VirtioConsole := mkConsole 0 0 (vrepeat 2 0) 0 0 0 0 0 0 0 0 0 0.

Definition queue_live (d : VirtioConsole) : bool :=
  negb (N.land (status d) STATUS_DRIVER_OK =? 0) && (queue_ready d =? 1).

(** [(old & !0xffff_ffff) | value] and [(old & 0xffff_ffff) | (value << 32)]. *)
Definition with_low (old value : N) : N := N.lor (N.land old (bnot 64 0xffffffff)) value.
Definition with_high (old value : N) : N := N.lor (N.land old 0xffffffff) (shl 64 value 32).

Definition mmio_read (offset : N) (d : VirtioConsole) : N :=
  if offset =? MAGIC_VALUE then MAGIC
  else if offset =? VERSION then VERSION_V2
  else if offset =? DEVICE_ID then DEVICE_ID_CONSOLE
  else if offset =? VENDOR_ID then VENDOR
  else if offset =? DEVICE_FEATURES then
    if device_features_sel d =? 1 then shl 32 1 (VIRTIO_F_VERSION_1_BIT - 32) else 0
  else if offset =? QUEUE_NUM_MAX then QUEUE_NUM_MAX_VAL
  else if offset =? QUEUE_READY then queue_ready d
  else if offset =? INTERRUPT_STATUS then interrupt_status d
  else if offset =? STATUS then status d
  else if offset =? CONFIG_GENERATION then 0
  else 0.

(** The two steps of a write of [Status]: the value is taken, then [FEATURES_OK] is dropped
    when the driver has not accepted the version bit. *)
Definition write_status (value : N) : M VirtioConsole unit :=
  modify (set_status value) ;!
  if N.land value STATUS_FEATURES_OK =? 0 then ret tt else
  let! d := get in
  let! w := index (driver_features d) 1 in
  if N.land w VERSION_1_WORD1_MASK =? 0
  then modify (fun d => set_status (N.land (status d) (bnot 32 STATUS_FEATURES_OK)) d)
  else ret tt.

(** [true] for a kick of the queue. *)
Definition mmio_write (offset value : N) : M VirtioConsole bool :=
  if offset =? QUEUE_NOTIFY then ret true else
  (if offset =? DEVICE_FEATURES_SEL then modify (set_device_features_sel value)
   else if offset =? DRIVER_FEATURES_SEL then modify (set_driver_features_sel value)
   else if offset =? DRIVER_FEATURES then
     let! d := get in
     index_set (Lens driver_features set_driver_features) (N.land (driver_features_sel d) 1) value
   else if offset =? QUEUE_SEL then modify (set_queue_sel value)
   else if offset =? QUEUE_NUM then modify (set_queue_num value)
   else if offset =? QUEUE_READY then modify (set_queue_ready value)
   else if offset =? QUEUE_DESC_LOW then
     modify (fun d => set_queue_desc (with_low (queue_desc d) value) d)
   else if offset =? QUEUE_DESC_HIGH then
     modify (fun d => set_queue_desc (with_high (queue_desc d) value) d)
   else if offset =? QUEUE_DRIVER_LOW then
     modify (fun d => set_queue_driver (with_low (queue_driver d) value) d)
   else if offset =? QUEUE_DRIVER_HIGH then
     modify (fun d => set_queue_driver (with_high (queue_driver d) value) d)
   else if offset =? QUEUE_DEVICE_LOW then
     modify (fun d => set_queue_device (with_low (queue_device d) value) d)
   else if offset =? QUEUE_DEVICE_HIGH then
     modify (fun d => set_queue_device (with_high (queue_device d) value) d)
   else if offset =? STATUS then write_status value
   else if offset =? INTERRUPT_ACK then
     modify (fun d => set_interrupt_status (N.land (interrupt_status d) (bnot 32 value)) d)
   else ret tt) ;!
  ret false.

(** ** Specification *)

(** The widths of the fields. *)
Record wf (d : VirtioConsole) : Prop := mkWf {
  wf_device_features_sel : device_features_sel d < 2 ^ 32;
  wf_driver_features_sel : driver_features_sel d < 2 ^ 32;
  wf_driver_features : exists w0 w1, driver_features d = [w0; w1] /\ w0 < 2 ^ 32 /\ w1 < 2 ^ 32;
  wf_queue_sel : queue_sel d < 2 ^ 32;
  wf_queue_num : queue_num d < 2 ^ 32;
  wf_queue_ready : queue_ready d < 2 ^ 32;
  wf_queue_desc : queue_desc d < 2 ^ 64;
  wf_queue_driver : queue_driver d < 2 ^ 64;
  wf_queue_device : queue_device d < 2 ^ 64;
  wf_status : status d < 2 ^ 32;
  wf_interrupt_status : interrupt_status d < 2 ^ 32;
  wf_used_idx : used_idx d < 2 ^ 16;
  wf_last_avail_idx : last_avail_idx d < 2 ^ 16;
}.

(** The driver has accepted [VIRTIO_F_VERSION_1]. *)
Definition accepted (fs : list N) : bool :=
  match vget fs 1 with Some w => N.testbit w 0 | None => false end.

(** What a driver reads back after it wrote [v] to [Status]. *)
Definition confirmed (fs : list N) (v : N) : N :=
  if N.testbit v 3 && negb (accepted fs) then N.clearbit v 3 else v.

(** One register write after the other, and the two halves of an address in either order. *)
Definition two_writes (a b : N * N) : M VirtioConsole bool :=
  mmio_write a.1 a.2 ;! mmio_write b.1 b.2.
Definition programs (low high : N) (field : VirtioConsole -> N) (lo hi : N) (d : VirtioConsole) :
    Prop :=
  exists d', two_writes (low, lo) (high, hi) d = Done d' false /\
    two_writes (high, hi) (low, lo) d = Done d' false /\ field d' = 2 ^ 32 * hi + lo.

(** ** Lemmas *)

Lemma with_low_spec old value : old < 2 ^ 64 -> value < 2 ^ 32 ->
  with_low old value = 2 ^ 32 * (old / 2 ^ 32) + value.
Proof.
  intros Ho Hv. unfold with_low. rewrite N.mul_comm, <- N.shiftr_div_pow2, <- N.shiftl_mul_pow2.
  assert (E : N.land old (bnot 64 0xffffffff) = N.shiftl (N.shiftr old 32) 32).
  { apply N.bits_inj. intros i. rewrite N.land_spec, testbit_bnot, testbit_shiftl, N.shiftr_spec'.
    change 0xffffffff with (N.ones 32). rewrite testbit_ones.
    destruct (N.ltb_spec i 32), (N.leb_spec 32 i); try lia; simpl.
    - destruct (N.ltb_spec i 64); [apply andb_false_r|lia].
    - replace (i - 32 + 32) with i by lia. destruct (N.ltb_spec i 64); [apply andb_true_r|].
      by rewrite (testbit_high _ _ _ Ho). }
  rewrite E. apply lor_add with (k := 32); [|done].
  rewrite N.shiftl_mul_pow2. by apply N.Div0.mod_mul.
Qed.

Lemma with_high_spec old value : value < 2 ^ 32 ->
  with_high old value = 2 ^ 32 * value + old mod 2 ^ 32.
Proof.
  intros Hv. unfold with_high. rewrite (shl_small 64 value 32 32) by (done || lia).
  change 0xffffffff with (N.ones 32). rewrite land_ones_mod, N.lor_comm.
  rewrite (lor_add _ _ 32), N.shiftl_mul_pow2; [lia| |by apply N.mod_lt].
  rewrite N.shiftl_mul_pow2. by apply N.Div0.mod_mul.
Qed.

Lemma with_low_bound old value : old < 2 ^ 64 -> value < 2 ^ 32 -> with_low old value < 2 ^ 64.
Proof.
  intros Ho Hv. rewrite with_low_spec by done.
  assert (old / 2 ^ 32 < 2 ^ 32) by (apply N.Div0.div_lt_upper_bound; lia). lia.
Qed.

Lemma with_high_bound old value : value < 2 ^ 32 -> with_high old value < 2 ^ 64.
Proof.
  intros Hv. rewrite with_high_spec by done.
  assert (old mod 2 ^ 32 < 2 ^ 32) by (by apply N.mod_lt). lia.
Qed.

(** The two halves of an address, in either order. *)
Lemma with_low_high old lo hi : old < 2 ^ 64 -> lo < 2 ^ 32 -> hi < 2 ^ 32 ->
  with_high (with_low old lo) hi = 2 ^ 32 * hi + lo /\
    with_low (with_high old hi) lo = 2 ^ 32 * hi + lo.
Proof.
  intros Ho Hlo Hhi. split.
  - rewrite with_high_spec, with_low_spec by done. f_equal.
    rewrite N.mul_comm, N.add_comm, N.Div0.mod_add. by apply N.mod_small.
  - rewrite with_low_spec by (done || by apply with_high_bound). rewrite with_high_spec by done.
    f_equal. f_equal. rewrite N.mul_comm, N.div_add_l by done.
    rewrite N.div_small by (by apply N.mod_lt). lia.
Qed.

Lemma featured fs w0 w1 : fs = [w0; w1] -> accepted fs = N.testbit w1 0.
Proof. by intros ->. Qed.

(** The write of [Status] leaves the confirmed value. *)
Lemma write_status_run v d : wf d -> v < 2 ^ 32 ->
  write_status v d = Done (set_status (confirmed (driver_features d) v) d) tt.
Proof.
  intros [_ _ (w0 & w1 & Hf & _ & _) _ _ _ _ _ _ _ _ _ _] Hv. unfold write_status, confirmed.
  change STATUS_FEATURES_OK with (N.shiftl 1 3). change VERSION_1_WORD1_MASK with (N.shiftl 1 0).
  rewrite (featured _ _ _ Hf). unfold bind, modify, get. rewrite !land_pow2.
  destruct (N.testbit v 3); simpl; [|done].
  rewrite Hf. unfold index. simpl. rewrite (land_pow2 w1 0).
  destruct (N.testbit w1 0); simpl; [done|].
  f_equal. unfold set_status. simpl. f_equal.
  rewrite N.clearbit_spec'. change (2 ^ 3) with (N.shiftl 1 3). change 8 with (N.shiftl 1 3).
  apply N.bits_inj. intros i. autorewrite with bits.
  destruct (N.ltb_spec i 32) as [|Hi]; [btauto|]. by rewrite (testbit_high _ _ _ Hv Hi).
Qed.

Lemma confirmed_bound fs v : v < 2 ^ 32 -> confirmed fs v < 2 ^ 32.
Proof.
  intros. unfold confirmed. case_match; [|done]. rewrite N.clearbit_spec'.
  pose proof (N.ldiff_le_l v (2 ^ 3)). lia.
Qed.

(** A bit of a register selects one of two words. *)
Lemma features_run v d : wf d -> v < 2 ^ 32 -> exists fs,
  index_set (Lens driver_features set_driver_features) (N.land (driver_features_sel d) 1) v d =
    Done (set_driver_features fs d) tt /\ (exists w0 w1, fs = [w0; w1] /\ w0 < 2 ^ 32 /\ w1 < 2 ^ 32) /\
    (N.testbit (driver_features_sel d) 0 = true -> vget fs 1 = Some v).
Proof.
  intros [_ _ (w0 & w1 & Hf & H0 & H1) _ _ _ _ _ _ _ _ _ _] Hv.
  change 1 with (N.ones 1) at 1. rewrite land_ones_mod, <- N.bit0_mod.
  set (b := N.testbit (driver_features_sel d) 0).
  exists (vset (driver_features d) (N.b2n b) v). split_and!.
  - apply (index_set_Done (Lens driver_features set_driver_features)). cbn [lget]. rewrite Hf.
    by destruct b.
  - rewrite Hf. destruct b; simpl; [by exists w0, v|by exists v, w1].
  - rewrite Hf. by destruct b.
Qed.

Lemma read_bound off d : wf d -> mmio_read off d < 2 ^ 32.
Proof. intros [ ]. unfold mmio_read. repeat case_match; done. Qed.

(** A register pair that writes the halves of one field. *)
Lemma programs_intro low high field (upd : N -> VirtioConsole -> VirtioConsole) lo hi d :
  (forall v d, mmio_write low v d = Done (upd (with_low (field d) v) d) false) ->
  (forall v d, mmio_write high v d = Done (upd (with_high (field d) v) d) false) ->
  (forall v d, field (upd v d) = v) -> (forall v w d, upd v (upd w d) = upd v d) ->
  field d < 2 ^ 64 -> lo < 2 ^ 32 -> hi < 2 ^ 32 -> programs low high field lo hi d.
Proof.
  intros Hl Hh Hf Hu Hd Hlo Hhi. destruct (with_low_high (field d) lo hi) as [E1 E2]; [done..|].
  exists (upd (2 ^ 32 * hi + lo) d). unfold two_writes, bind. simpl.
  rewrite (Hl lo d), (Hh hi d). cbn beta iota. rewrite Hl, Hh, !Hf, !Hu, E1, E2. done.
Qed.

(** One register of a write. *)
Ltac offset_case :=
  match goal with
  | |- context [if ?off =? ?r then _ else _] => destruct (N.eqb_spec off r) as [->|?]
  end.

(** A write keeps the widths. *)
Lemma write_wf off v d : wf d -> v < 2 ^ 32 ->
  exists d', mmio_write off v d = Done d' (off =? QUEUE_NOTIFY) /\ wf d'.
Proof.
  intros Hd Hv. unfold mmio_write. offset_case; [by exists d|]. unfold bind, modify, get.
  pose proof Hd as [ ]. offset_case; [eexists; split; [done|by constructor]|].
  offset_case; [eexists; split; [done|by constructor]|].
  offset_case.
  { destruct (features_run v d Hd Hv) as (fs & E & Hfs & _). rewrite E.
    eexists. split; [done|by constructor]. }
  do 3 (offset_case; [eexists; split; [done|by constructor]|]).
  do 6 (offset_case; [eexists; split; [done|constructor; simpl; try done;
    by first [apply with_low_bound|apply with_high_bound] ]|]).
  offset_case.
  { rewrite write_status_run by done. eexists. split; [done|constructor; simpl; try done].
    by apply confirmed_bound. }
  offset_case; [|by exists d]. eexists. split; [done|constructor; simpl; try done].
  pose proof (N.land_le_l (interrupt_status d) (bnot 32 v)). lia.
Qed.

(** ** Properties *)



(** The handshake: [Status] reads back as written, but for [FEATURES_OK] when the driver has
    not accepted the version bit, which it does through the second feature word; and each of
    the three addresses of the queue is the pair of halves the driver wrote, in either
    order. *)
Theorem negotiation (v lo hi : N) (d : VirtioConsole) :
  wf d -> v < 2 ^ 32 -> lo < 2 ^ 32 -> hi < 2 ^ 32 ->
  (exists d', mmio_write STATUS v d = Done d' false /\
     mmio_read STATUS d' = confirmed (driver_features d) v) /\
  (exists d', two_writes (DRIVER_FEATURES_SEL, 1) (DRIVER_FEATURES, v) d = Done d' false /\
     accepted (driver_features d') = N.testbit v 0) /\
  programs QUEUE_DESC_LOW QUEUE_DESC_HIGH queue_desc lo hi d /\
  programs QUEUE_DRIVER_LOW QUEUE_DRIVER_HIGH queue_driver lo hi d /\
  programs QUEUE_DEVICE_LOW QUEUE_DEVICE_HIGH queue_device lo hi d.
Proof.
  intros Hd Hv Hlo Hhi. pose proof Hd as [ ]. split_and!.
  - eexists. split; [unfold mmio_write; simpl; unfold bind; by rewrite write_status_run|done].
  - destruct (features_run v (set_driver_features_sel 1 d)) as (fs & E & _ & Hv1);
      [by constructor|done|].
    exists (set_driver_features fs (set_driver_features_sel 1 d)). split.
    + transitivity (bind (index_set (Lens driver_features set_driver_features)
          (N.land (driver_features_sel (set_driver_features_sel 1 d)) 1) v) (fun _ => ret false)
          (set_driver_features_sel 1 d)); [done|]. unfold bind. by rewrite E.
    + unfold accepted. cbn [driver_features set_driver_features]. by rewrite Hv1.
  - apply programs_intro with (upd := set_queue_desc); done.
  - apply programs_intro with (upd := set_queue_driver); done.
  - apply programs_intro with (upd := set_queue_device); done.
Qed.

Theorem negotiation_witness :
  (exists d', mmio_write STATUS 11 new = Done d' false /\
     mmio_read STATUS d' = confirmed (driver_features new) 11) /\
  (exists d', two_writes (DRIVER_FEATURES_SEL, 1) (DRIVER_FEATURES, 11) new = Done d' false /\
     accepted (driver_features d') = N.testbit 11 0) /\
  programs QUEUE_DESC_LOW QUEUE_DESC_HIGH queue_desc 7 1 new /\
  programs QUEUE_DRIVER_LOW QUEUE_DRIVER_HIGH queue_driver 7 1 new /\
  programs QUEUE_DEVICE_LOW QUEUE_DEVICE_HIGH queue_device 7 1 new.
Proof. apply (negotiation 11 7 1 new); [|done..]. constructor; try done. by exists 0, 0. Defined.
