(* ===== verification/Blk.v ===== *)
(** * The paravirtual disk — [hv-metal/src/blk.rs]

    The copy-on-write store behind the block device — a template shared by all tenants and an
    overlay for each — and the register file of the device, which speaks the same transport as
    the console of [Virtio]. *)

From Stdlib Require Import NArith Lia.
From stdpp Require Import base numbers list option.
From S2P Require Import Bits.
From S2P Require Import Virtio.
From S2P Require Import Prelude.
#[local] Open Scope N_scope.

(** ** The request protocol *)

Definition DEVICE_ID_BLK : N := 2.
Definition VIRTIO_BLK_T_IN : N := 0.
Definition VIRTIO_BLK_T_OUT : N := 1.
Definition VIRTIO_BLK_S_OK : N := 0.
Definition VIRTIO_BLK_S_IOERR : N := 1.
Definition VIRTQ_DESC_F_NEXT : N := 1.
Definition VIRTQ_DESC_F_WRITE : N := 2.
Definition SECTOR_SIZE : N := 512.
Definition BLK_HDR_SIZE : N := 16.
Definition BLK_HDR_SECTOR_OFF : N := 8.
Definition BLK_CONFIG_CAPACITY : N := 0x100.
Definition DISK_SECTORS : N := 4.
Definition N_TENANTS : N := 2.

(** ** The copy-on-write store *)

Record BlkDisk : Type := mkDisk {
  template : list (list N);
  overlay : list (list (list N));
  dirty : list (list bool);
}.

Definition new_disk : BlkDisk :=
  mkDisk (vrepeat DISK_SECTORS (vrepeat SECTOR_SIZE 0))
    (vrepeat N_TENANTS (vrepeat DISK_SECTORS (vrepeat SECTOR_SIZE 0)))
    (vrepeat N_TENANTS (vrepeat DISK_SECTORS false)).

Definition template_l : lens BlkDisk (list (list N)) :=
  Lens template (fun t d => mkDisk t (overlay d) (dirty d)).
Definition overlay_l : lens BlkDisk (list (list (list N))) :=
  Lens overlay (fun o d => mkDisk (template d) o (dirty d)).
Definition dirty_l : lens BlkDisk (list (list bool)) :=
  Lens dirty (fun b d => mkDisk (template d) (overlay d) b).

(** [self.f[i][j]] and an assignment to it, both of which panic out of range. *)
Definition index2 {S A} (t : list (list A)) (i j : N) : M S A :=
  let! row := index t i in index row j.
Definition index2_set {A} (l : lens BlkDisk (list (list A))) (i j : N) (x : A) : M BlkDisk unit :=
  let! d := get in
  let! row := index (lget l d) i in
  let! _ := index row j in
  modify (lset l (tset (lget l d) i j x)).

(** A sector holding [bytes], cut to a sector or padded with zeros. *)
Definition sector_of (bytes : list N) : list N :=
  let n := N.min (vlen bytes) SECTOR_SIZE in
  take (N.to_nat n) bytes ++ vrepeat (SECTOR_SIZE - n) 0.

Definition seed_template (sector : N) (bytes : list N) : M BlkDisk unit :=
  index_set template_l sector (sector_of bytes).

Definition read (tenant sector : N) : M BlkDisk (list N) :=
  let! d := get in
  let! b := index2 (dirty d) tenant sector in
  if b : bool then index2 (overlay d) tenant sector else index (template d) sector.

Definition write (tenant sector : N) (bytes : list N) : M BlkDisk unit :=
  index2_set overlay_l tenant sector (sector_of bytes) ;!
  index2_set dirty_l tenant sector true.

Definition is_dirty (tenant sector : N) : M BlkDisk bool :=
  let! d := get in index2 (dirty d) tenant sector.

Definition discard_overlay (tenant : N) : M BlkDisk unit :=
  index_set overlay_l tenant (vrepeat DISK_SECTORS (vrepeat SECTOR_SIZE 0)) ;!
  index_set dirty_l tenant (vrepeat DISK_SECTORS false).

Definition template_sector (sector : N) : M BlkDisk (list N) :=
  let! d := get in index (template d) sector.

Definition overlay_sector (tenant sector : N) : M BlkDisk (list N) :=
  let! d := get in index2 (overlay d) tenant sector.

(** ** The register file *)

Record VirtioBlk : Type := mkBlk {
  device_features_sel : N;
  driver_features_sel : N;
  driver_features : list N;
  queue_sel : N;
  queue_num : N;
  queue_ready : N;
  queue_desc : N;
  queue_driver : N;
  queue_device : N;
  status : N;
  interrupt_status : N;
  used_idx : N;
  last_avail_idx : N;
  capacity : N;
}.

Definition set_device_features_sel v d := mkBlk v (driver_features_sel d) (driver_features d)
  (queue_sel d) (queue_num d) (queue_ready d) (queue_desc d) (queue_driver d) (queue_device d)
  (status d) (interrupt_status d) (used_idx d) (last_avail_idx d) (capacity d) .
Definition set_driver_features_sel v d := mkBlk (device_features_sel d) v (driver_features d)
  (queue_sel d) (queue_num d) (queue_ready d) (queue_desc d) (queue_driver d) (queue_device d)
  (status d) (interrupt_status d) (used_idx d) (last_avail_idx d) (capacity d) .
Definition set_driver_features v d := mkBlk (device_features_sel d) (driver_features_sel d) v
  (queue_sel d) (queue_num d) (queue_ready d) (queue_desc d) (queue_driver d) (queue_device d)
  (status d) (interrupt_status d) (used_idx d) (last_avail_idx d) (capacity d) .
Definition set_queue_sel v d := mkBlk (device_features_sel d) (driver_features_sel d)
  (driver_features d) v (queue_num d) (queue_ready d) (queue_desc d) (queue_driver d)
  (queue_device d) (status d) (interrupt_status d) (used_idx d) (last_avail_idx d) (capacity d)
  .
Definition set_queue_num v d := mkBlk (device_features_sel d) (driver_features_sel d)
  (driver_features d) (queue_sel d) v (queue_ready d) (queue_desc d) (queue_driver d)
  (queue_device d) (status d) (interrupt_status d) (used_idx d) (last_avail_idx d) (capacity d)
  .
Definition set_queue_ready v d := mkBlk (device_features_sel d) (driver_features_sel d)
  (driver_features d) (queue_sel d) (queue_num d) v (queue_desc d) (queue_driver d)
  (queue_device d) (status d) (interrupt_status d) (used_idx d) (last_avail_idx d) (capacity d)
  .
Definition set_queue_desc v d := mkBlk (device_features_sel d) (driver_features_sel d)
  (driver_features d) (queue_sel d) (queue_num d) (queue_ready d) v (queue_driver d)
  (queue_device d) (status d) (interrupt_status d) (used_idx d) (last_avail_idx d) (capacity d)
  .
Definition set_queue_driver v d := mkBlk (device_features_sel d) (driver_features_sel d)
  (driver_features d) (queue_sel d) (queue_num d) (queue_ready d) (queue_desc d) v
  (queue_device d) (status d) (interrupt_status d) (used_idx d) (last_avail_idx d) (capacity d)
  .
Definition set_queue_device v d := mkBlk (device_features_sel d) (driver_features_sel d)
  (driver_features d) (queue_sel d) (queue_num d) (queue_ready d) (queue_desc d)
  (queue_driver d) v (status d) (interrupt_status d) (used_idx d) (last_avail_idx d)
  (capacity d) .
Definition set_status v d := mkBlk (device_features_sel d) (driver_features_sel d)
  (driver_features d) (queue_sel d) (queue_num d) (queue_ready d) (queue_desc d)
  (queue_driver d) (queue_device d) v (interrupt_status d) (used_idx d) (last_avail_idx d)
  (capacity d) .
Definition set_interrupt_status v d := mkBlk (device_features_sel d) (driver_features_sel d)
  (driver_features d) (queue_sel d) (queue_num d) (queue_ready d) (queue_desc d)
  (queue_driver d) (queue_device d) (status d) v (used_idx d) (last_avail_idx d) (capacity d) .
Definition set_used_idx v d := mkBlk (device_features_sel d) (driver_features_sel d)
  (driver_features d) (queue_sel d) (queue_num d) (queue_ready d) (queue_desc d)
  (queue_driver d) (queue_device d) (status d) (interrupt_status d) v (last_avail_idx d)
  (capacity d) .
Definition set_last_avail_idx v d := mkBlk (device_features_sel d) (driver_features_sel d)
  (driver_features d) (queue_sel d) (queue_num d) (queue_ready d) (queue_desc d)
  (queue_driver d) (queue_device d) (status d) (interrupt_status d) (used_idx d) v (capacity d)
  .

Definition new : VirtioBlk := mkBlk 0 0 (vrepeat 2 0) 0 0 0 0 0 0 0 0 0 0 DISK_SECTORS.

Definition queue_live (d : VirtioBlk) : bool :=
  negb (N.land (status d) STATUS_DRIVER_OK =? 0) && (queue_ready d =? 1).

Definition mmio_read (offset : N) (d : VirtioBlk) : N :=
  if offset =? MAGIC_VALUE then MAGIC
  else if offset =? VERSION then VERSION_V2
  else if offset =? DEVICE_ID then DEVICE_ID_BLK
  else if offset =? VENDOR_ID then VENDOR
  else if offset =? DEVICE_FEATURES then
    if device_features_sel d =? 1 then shl 32 1 (VIRTIO_F_VERSION_1_BIT - 32) else 0
  else if offset =? QUEUE_NUM_MAX then QUEUE_NUM_MAX_VAL
  else if offset =? QUEUE_READY then queue_ready d
  else if offset =? INTERRUPT_STATUS then interrupt_status d
  else if offset =? STATUS then status d
  else if offset =? CONFIG_GENERATION then 0
  else if offset =? BLK_CONFIG_CAPACITY then as_u32 (capacity d)
  else if offset =? BLK_CONFIG_CAPACITY + 4 then as_u32 (N.shiftr (capacity d) 32)
  else 0.

(** A write of [Status]: zero resets the device, any other value is taken as the console
    takes it. *)
Definition write_status (value : N) : M VirtioBlk unit :=
  if value =? 0 then modify (fun _ => new) else
  modify (set_status value) ;!
  if N.land value STATUS_FEATURES_OK =? 0 then ret tt else
  let! d := get in
  let! w := index (driver_features d) 1 in
  if N.land w VERSION_1_WORD1_MASK =? 0
  then modify (fun d => set_status (N.land (status d) (bnot 32 STATUS_FEATURES_OK)) d)
  else ret tt.

(** [true] for a kick of the queue. *)
Definition mmio_write (offset value : N) : M VirtioBlk bool :=
  if offset =? QUEUE_NOTIFY then ret true else
  (if offset =? DEVICE_FEATURES_SEL then modify (set_device_features_sel value)
   else if offset =? DRIVER_FEATURES_SEL then modify (set_driver_features_sel value)
   else if offset =? DRIVER_FEATURES then
     let! d := get in
     index_set (Lens driver_features set_driver_features) (N.land (driver_features_sel d) 1) value
   else if offset =? QUEUE_SEL then modify (set_queue_sel value)
   else if offset =? QUEUE_NUM then modify (set_queue_num value)
   else if offset =? QUEUE_READY then modify (set_queue_ready value)
   else if offset =? QUEUE_DESC_LOW then
     modify (fun d => set_queue_desc (with_low (queue_desc d) value) d)
   else if offset =? QUEUE_DESC_HIGH then
     modify (fun d => set_queue_desc (with_high (queue_desc d) value) d)
   else if offset =? QUEUE_DRIVER_LOW then
     modify (fun d => set_queue_driver (with_low (queue_driver d) value) d)
   else if offset =? QUEUE_DRIVER_HIGH then
     modify (fun d => set_queue_driver (with_high (queue_driver d) value) d)
   else if offset =? QUEUE_DEVICE_LOW then
     modify (fun d => set_queue_device (with_low (queue_device d) value) d)
   else if offset =? QUEUE_DEVICE_HIGH then
     modify (fun d => set_queue_device (with_high (queue_device d) value) d)
   else if offset =? STATUS then write_status value
   else if offset =? INTERRUPT_ACK then
     modify (fun d => set_interrupt_status (N.land (interrupt_status d) (bnot 32 value)) d)
   else ret tt) ;!
  ret false.

(** ** Specification *)

(** The registers the two devices have in common. *)
Definition transport (d : VirtioBlk) : VirtioConsole :=
  mkConsole (device_features_sel d) (driver_features_sel d) (driver_features d) (queue_sel d)
    (queue_num d) (queue_ready d) (queue_desc d) (queue_driver d) (queue_device d) (status d)
    (interrupt_status d) (used_idx d) (last_avail_idx d).

(** The dimensions of the store. *)
Record wf_disk (d : BlkDisk) : Prop := mkWfDisk {
  wf_template : vlen (template d) = DISK_SECTORS /\
    forall s b, vget (template d) s = Some b -> vlen b = SECTOR_SIZE;
  wf_overlay : vlen (overlay d) = N_TENANTS /\
    (forall t, t < N_TENANTS -> twidth (overlay d) t = DISK_SECTORS) /\
    forall t s b, tget (overlay d) t s = Some b -> vlen b = SECTOR_SIZE;
  wf_dirty : vlen (dirty d) = N_TENANTS /\
    forall t, t < N_TENANTS -> twidth (dirty d) t = DISK_SECTORS;
}.

(** The private sectors of a tenant. *)
Definition private (d : BlkDisk) (t s : N) : option (list N) :=
  match tget (dirty d) t s with Some true => tget (overlay d) t s | _ => None end.

(** What tenants do to the store, and what it means to one private sector. *)
Inductive DiskOp : Type :=
| DWrite (t s : N) (bytes : list N)
| DDiscard (t : N).

Definition op_tenant (o : DiskOp) : N := match o with DWrite t _ _ | DDiscard t => t end.
Definition op_valid (o : DiskOp) : Prop :=
  op_tenant o < N_TENANTS /\ match o with DWrite _ s _ => s < DISK_SECTORS | _ => True end.
Definition run_op (o : DiskOp) : M BlkDisk unit :=
  match o with DWrite t s bytes => write t s bytes | DDiscard t => discard_overlay t end.

Definition touch (t s : N) (p : option (list N)) (o : DiskOp) : option (list N) :=
  match o with
  | DWrite t' s' bytes => if decide (t' = t /\ s' = s) then Some (sector_of bytes) else p
  | DDiscard t' => if decide (t' = t) then None else p
  end.

(** ** Lemmas *)

Lemma vlen_sector_of bytes : vlen (sector_of bytes) = SECTOR_SIZE.
Proof.
  unfold sector_of. rewrite vlen_app, vlen_vrepeat. unfold vlen at 1.
  rewrite length_take. unfold vlen, SECTOR_SIZE. lia.
Qed.

(** Cells of a table and assignments to them. *)
Lemma index2_run {S A} (t : list (list A)) i j x (s : S) :
  tget t i j = Some x -> index2 t i j s = Done s x.
Proof.
  unfold tget, index2, bind. destruct (vget t i) as [r|] eqn:Hr; [|done]. intros Hx.
  by rewrite (index_Done _ _ _ _ Hr), (index_Done _ _ _ _ Hx).
Qed.

Lemma index2_set_run {A} (l : lens BlkDisk (list (list A))) i j x y d :
  tget (lget l d) i j = Some y -> index2_set l i j x d = Done (lset l (tset (lget l d) i j x) d) tt.
Proof.
  unfold tget, index2_set, bind, get. destruct (vget (lget l d) i) as [r|] eqn:Hr; [|done].
  intros Hy. by rewrite (index_Done _ _ _ _ Hr), (index_Done _ _ _ _ Hy).
Qed.

Section Store.
Context (d : BlkDisk) (Hd : wf_disk d).

Lemma disk_cell t s : t < N_TENANTS -> s < DISK_SECTORS ->
  exists b o, tget (dirty d) t s = Some b /\ tget (overlay d) t s = Some o.
Proof.
  destruct Hd as [_ (_ & Ho & _) (_ & Hb)]. intros Ht Hs.
  destruct (tget_lt_Some (dirty d) t s) as [b Hbt]; [by rewrite Hb|].
  destruct (tget_lt_Some (overlay d) t s) as [o Hot]; [by rewrite Ho|]. by exists b, o.
Qed.

Lemma read_run t s : t < N_TENANTS -> s < DISK_SECTORS ->
  exists b, read t s d = Done d b /\ vlen b = SECTOR_SIZE /\
    Some b = match private d t s with Some x => Some x | None => vget (template d) s end.
Proof.
  intros Ht Hs. destruct (disk_cell t s Ht Hs) as (b & o & Hb & Ho).
  unfold read, bind, get, private. rewrite (index2_run _ _ _ _ _ Hb), Hb, Ho.
  destruct Hd as [ [Htl Htb] (_ & _ & Hob) _]. destruct b.
  - exists o. rewrite (index2_run _ _ _ _ _ Ho). split_and!; [done|by eapply Hob|done].
  - destruct (vget_lt_Some (template d) s) as [x Hx]; [lia|].
    rewrite (index_Done _ _ _ _ Hx). exists x. split_and!; [done|by eapply Htb|done].
Qed.

(** The effect of an operation: it ends, keeps the shape and the template, and changes the
    private sectors it names. *)
Definition op_effect (o : DiskOp) (d' : BlkDisk) : Prop :=
  run_op o d = Done d' tt /\ wf_disk d' /\ template d' = template d /\
  forall t s, t < N_TENANTS -> s < DISK_SECTORS -> private d' t s = touch t s (private d t s) o.

Lemma write_run t s bytes : t < N_TENANTS -> s < DISK_SECTORS ->
  exists d', op_effect (DWrite t s bytes) d'.
Proof.
  intros Ht Hs. destruct (disk_cell t s Ht Hs) as (b & o & Hb & Ho). unfold op_effect, run_op, write.
  exists (mkDisk (template d) (tset (overlay d) t s (sector_of bytes)) (tset (dirty d) t s true)).
  destruct Hd as [Htp (Hvo & Hwo & Hob) (Hvb & Hwb)]. split_and!; [| |done|].
  - unfold bind. rewrite (index2_set_run overlay_l _ _ _ _ _ Ho).
    cbn beta iota. by rewrite (index2_set_run dirty_l t s true b).
  - constructor; [done| |]; simpl; rewrite vlen_tset; (split; [done|]).
    + split; [intros; rewrite twidth_tset; by apply Hwo|].
      intros t' s' x. rewrite tget_tset. case_decide; [|by apply Hob].
      intros [= <-]. apply vlen_sector_of.
    + intros. rewrite twidth_tset. by apply Hwb.
  - intros t' s' Ht' Hs'. unfold private, touch. simpl. rewrite !tget_tset, Hwo, Hwb by done.
    destruct (decide (t = t' /\ s = s')) as [ [-> ->]|Hne]; [by rewrite !decide_True|].
    rewrite !decide_False by naive_solver. done.
Qed.

Lemma discard_run t : t < N_TENANTS -> exists d', op_effect (DDiscard t) d'.
Proof.
  intros Ht. unfold op_effect, run_op, discard_overlay.
  set (zeros := vrepeat DISK_SECTORS (vrepeat SECTOR_SIZE 0)).
  set (clean := vrepeat DISK_SECTORS false).
  exists (mkDisk (template d) (vset (overlay d) t zeros) (vset (dirty d) t clean)).
  destruct Hd as [Htp (Hvo & Hwo & Hob) (Hvb & Hwb)]. split_and!; [| |done|].
  - unfold bind. rewrite (index_set_Done overlay_l) by (simpl; by rewrite Hvo).
    cbn beta iota. by rewrite (index_set_Done dirty_l) by (simpl; by rewrite Hvb).
  - constructor; [done| |]; simpl; rewrite vlen_vset; (split; [done|]).
    + split.
      * intros t' Ht'. specialize (Hwo t' Ht'). unfold twidth in *. rewrite vget_vset.
        case_decide; [apply vlen_vrepeat|done].
      * intros t' s' x. unfold tget. rewrite vget_vset. case_decide.
        -- unfold zeros. rewrite vget_vrepeat. case_decide; [|done]. intros [= <-].
           apply vlen_vrepeat.
        -- apply Hob.
    + intros t' Ht'. specialize (Hwb t' Ht'). unfold twidth in *. rewrite vget_vset.
      case_decide; [apply vlen_vrepeat|done].
  - intros t' s' Ht' Hs'. unfold private, touch, tget. simpl. rewrite !vget_vset, Hvo, Hvb.
    destruct (decide (t = t')) as [->|Hne].
    + rewrite decide_True by done. unfold clean. by rewrite vget_vrepeat, decide_True.
    + rewrite !decide_False by naive_solver. done.
Qed.

Lemma op_run o : op_valid o -> exists d', op_effect o d'.
Proof. destruct o; intros [Ht Hs]; [by apply write_run|by apply discard_run]. Qed.
End Store.

Lemma run_ops ops d : wf_disk d -> Forall op_valid ops ->
  exists d', for_each ops run_op d = Done d' tt /\ wf_disk d' /\ template d' = template d /\
    forall t s, t < N_TENANTS -> s < DISK_SECTORS ->
      private d' t s = foldl (touch t s) (private d t s) ops.
Proof.
  revert d. induction ops as [|o ops IH]; intros d Hd Hv; simpl; [by exists d|].
  apply list.Forall_cons in Hv as [Ho Hv].
  destruct (op_run d Hd o Ho) as (d1 & E1 & Hd1 & Ht1 & Hp1).
  destruct (IH d1 Hd1 Hv) as (d' & E & Hd' & Ht' & Hp'). exists d'.
  split_and!; [by unfold bind; rewrite E1|done|by rewrite Ht'|].
  intros t s Ht Hs. by rewrite Hp', Hp1.
Qed.

Lemma touch_other t s o p : op_tenant o <> t -> touch t s p o = p.
Proof. destruct o; simpl; intros; by rewrite decide_False by naive_solver. Qed.

Lemma touch_filter t s ops p :
  foldl (touch t s) p ops = foldl (touch t s) p (List.filter (fun o => op_tenant o =? t) ops).
Proof.
  revert p. induction ops as [|o ops IH]; intros p; simpl; [done|].
  destruct (N.eqb_spec (op_tenant o) t) as [Ho|Ho]; simpl; [apply IH|].
  by rewrite (touch_other t s o p Ho).
Qed.

Lemma wf_new_disk : wf_disk new_disk.
Proof.
  constructor; simpl; (split; [apply vlen_vrepeat|]).
  - intros s b. rewrite vget_vrepeat. case_decide; [|done]. intros [= <-]. apply vlen_vrepeat.
  - split.
    + intros t Ht. unfold twidth. rewrite vget_vrepeat, decide_True by done. apply vlen_vrepeat.
    + intros t s b. rewrite tget_vrepeat. case_decide; [|done]. intros [= <-]. apply vlen_vrepeat.
  - intros t Ht. unfold twidth. rewrite vget_vrepeat, decide_True by done. apply vlen_vrepeat.
Qed.

(** A write on the shared registers. *)
Lemma write_transport off v d : Virtio.wf (transport d) -> off <> STATUS \/ v <> 0 ->
  exists d' n, mmio_write off v d = Done d' n /\
    Virtio.mmio_write off v (transport d) = Done (transport d') n /\ capacity d' = capacity d.
Proof.
  intros Hd Hne. destruct Hd as [_ _ (w0 & w1 & Hf & _) _ _ _ _ _ _ _ _ _ _].
  destruct d as [a b fs q1 q2 q3 q4 q5 q6 q7 q8 q9 q10 q11]. simpl in Hf. subst fs.
  unfold mmio_write, Virtio.mmio_write.
  do 3 (offset_case; [by eexists _, _|]).
  offset_case.
  { assert (Hb : N.land b 1 = 0 \/ N.land b 1 = 1).
    { change (N.land b 1) with (N.land b (N.ones 1)). rewrite land_ones_mod, <- N.bit0_mod.
      destruct (N.testbit b 0); auto. }
    unfold bind, get. cbn [driver_features_sel Virtio.driver_features_sel transport].
    destruct Hb as [-> | ->]; by eexists _, _. }
  do 9 (offset_case; [by eexists _, _|]).
  offset_case.
  { destruct Hne as [Hne|Hne]; [done|]. unfold write_status, Virtio.write_status.
    rewrite (proj2 (N.eqb_neq v 0) Hne). destruct (N.land v STATUS_FEATURES_OK =? 0);
      [by eexists _, _|]. unfold bind, modify, get.
    unfold index, vget. change (N.to_nat 1) with 1%nat. cbn -[N.land VERSION_1_WORD1_MASK].
    destruct (N.land w1 VERSION_1_WORD1_MASK =? 0); by eexists _, _. }
  offset_case; by eexists _, _.
Qed.

(** ** Properties *)

(** C24: the store is a template and one private disk per tenant: any sequence of writes and
    discards ends without a panic and leaves the template as it was, and afterwards a tenant
    reads from a sector what it last wrote there since its last discard, cut or padded to a
    sector, or else what it read before, or else the template — a function of its own
    operations alone, whatever the others did. *)
Theorem overlay_isolation (ops : list DiskOp) (d : BlkDisk) :
  wf_disk d -> Forall op_valid ops ->
  exists d', for_each ops run_op d = Done d' tt /\ wf_disk d' /\ template d' = template d /\
    forall t s, t < N_TENANTS -> s < DISK_SECTORS ->
      let own := List.filter (fun o => op_tenant o =? t) ops in
      exists b, read t s d' = Done d' b /\ vlen b = SECTOR_SIZE /\
        Some b = match foldl (touch t s) (private d t s) own with
                 | Some x => Some x
                 | None => vget (template d) s
                 end.
Proof.
  intros Hd Hv. destruct (run_ops ops d Hd Hv) as (d' & E & Hd' & Ht & Hp).
  exists d'. split_and!; [done..|]. intros t s Hts Hs own.
  destruct (read_run d' Hd' t s Hts Hs) as (b & Eb & Hl & Hb). exists b. split_and!; [done..|].
  by rewrite Hb, Ht, Hp, touch_filter.
Qed.

Theorem overlay_isolation_witness :
  let ops := [DWrite 0 2 [7; 7]; DWrite 1 2 [9]; DDiscard 1] in
  exists d', for_each ops run_op new_disk = Done d' tt /\ wf_disk d' /\
    template d' = template new_disk /\
    forall t s, t < N_TENANTS -> s < DISK_SECTORS ->
      let own := List.filter (fun o => op_tenant o =? t) ops in
      exists b, read t s d' = Done d' b /\ vlen b = SECTOR_SIZE /\
        Some b = match foldl (touch t s) (private new_disk t s) own with
                 | Some x => Some x
                 | None => vget (template new_disk) s
                 end.
Proof. apply overlay_isolation; [apply wf_new_disk|repeat constructor]. Defined.

(** The block device speaks the transport of the console: a read of any register but the
    identity and the capacity, and a write of anything but zero to [Status], do on the
    registers they share what the console does, with the same answer, and leave the capacity
    alone. Zero written to [Status] resets the block device, and resets nothing of the
    console but that register: its queue and the cursors of its ring survive. *)
Theorem transport_agrees (off v : N) (d : VirtioBlk) :
  Virtio.wf (transport d) -> v < 2 ^ 32 ->
  (off <> DEVICE_ID -> off <> BLK_CONFIG_CAPACITY -> off <> BLK_CONFIG_CAPACITY + 4 ->
     mmio_read off d = Virtio.mmio_read off (transport d)) /\
  (off <> STATUS \/ v <> 0 -> exists d' n, mmio_write off v d = Done d' n /\
     Virtio.mmio_write off v (transport d) = Done (transport d') n /\ capacity d' = capacity d) /\
  mmio_write STATUS 0 d = Done new false /\
  Virtio.mmio_write STATUS 0 (transport d) = Done (Virtio.set_status 0 (transport d)) false.
Proof.
  intros Hd Hv. split_and!.
  - intros H1 H2 H3. unfold mmio_read, Virtio.mmio_read.
    repeat (offset_case; [done|]). done.
  - by apply write_transport.
  - done.
  - done.
Qed.

Theorem transport_agrees_witness :
  (QUEUE_SEL <> DEVICE_ID -> QUEUE_SEL <> BLK_CONFIG_CAPACITY -> QUEUE_SEL <> BLK_CONFIG_CAPACITY + 4 ->
     mmio_read QUEUE_SEL new = Virtio.mmio_read QUEUE_SEL (transport new)) /\
  (QUEUE_SEL <> STATUS \/ 5 <> 0 -> exists d' n, mmio_write QUEUE_SEL 5 new = Done d' n /\
     Virtio.mmio_write QUEUE_SEL 5 (transport new) = Done (transport d') n /\
     capacity d' = capacity new) /\
  mmio_write STATUS 0 new = Done new false /\
  Virtio.mmio_write STATUS 0 (transport new) = Done (Virtio.set_status 0 (transport new)) false.
Proof. apply transport_agrees; [|done]. constructor; try done. by exists 0, 0. Defined.
