(* ===== verification/Abort.v ===== *)
(** * Decoding a trapped access — [hv-metal/src/abort.rs]

    What a data abort says of the access that took it: the syndrome of [ESR_EL2] and the
    faulting address that [HPFAR_EL2] and [FAR_EL2] hold in two parts. *)

From Stdlib Require Import NArith Lia Btauto.
From stdpp Require Import base numbers list option.
From S2P Require Import Bits.
From S2P Require Import Prelude.
#[local] Open Scope N_scope.

Definition EC_DATA_ABORT : N := 0x24.

Record DataAbort : Type := mkAbort {
  isv : bool;
  sas : N;
  srt : N;
  sf : bool;
  wnr : bool;
  fnv : bool;
  s1ptw : bool;
}.

Definition decode (esr : N) : DataAbort :=
  let iss := N.land esr 0x01ffffff in
  let flag n := negb (N.land (N.shiftr iss n) 1 =? 0) in
  mkAbort (flag 24) (N.land (N.shiftr iss 22) 3) (N.land (N.shiftr iss 16) 0x1f)
    (flag 15) (flag 6) (flag 10) (flag 7).

Definition access_bytes (a : DataAbort) : N := shl 64 1 (sas a).

Definition value_mask (a : DataAbort) : N :=
  if sas a =? 0 then 0xff
  else if sas a =? 1 then 0xffff
  else if sas a =? 2 then 0xffffffff
  else u64_max.

Definition page_ipa (hpfar : N) : N := shl 64 (N.land hpfar 0x00000ffffffffff0) 8.

Definition full_ipa (hpfar far : N) : N := N.lor (page_ipa hpfar) (N.land far 0xfff).

(** ** Specification *)

(** The syndrome the architecture defines for an access: each field at its position, the
    other bits of the register ([EC], [IL], [ISS2] and the rest of [ISS]) in [rest]. *)
Definition syndrome (a : DataAbort) (rest : N) (i : N) : bool :=
  if i =? 24 then isv a
  else if (22 <=? i) && (i <? 24) then N.testbit (sas a) (i - 22)
  else if (16 <=? i) && (i <? 21) then N.testbit (srt a) (i - 16)
  else if i =? 15 then sf a
  else if i =? 10 then fnv a
  else if i =? 7 then s1ptw a
  else if i =? 6 then wnr a
  else N.testbit rest i.

(** A fault at [ipa]: [HPFAR_EL2] holds its page number in bits 4 to 43, and the offset in
    the page is that of the virtual address. *)
Definition faults_at (ipa hpfar far : N) : Prop :=
  (forall i, i < 40 -> N.testbit hpfar (4 + i) = N.testbit ipa (12 + i)) /\
  far mod 4096 = ipa mod 4096.

(** ** Lemmas *)

Lemma decode_flag esr n : n < 25 ->
  negb (N.land (N.shiftr (N.land esr 0x01ffffff) n) 1 =? 0) = N.testbit esr n.
Proof.
  intros Hn. change 1 with (N.shiftl 1 0). rewrite land_pow2, negb_involutive.
  change 0x01ffffff with (N.ones 25). rewrite N.shiftr_spec', N.land_spec, testbit_ones.
  destruct (N.ltb_spec (0 + n) 25); [by rewrite andb_true_r|lia].
Qed.

Lemma decode_field esr n w x : n + w <= 25 -> x < 2 ^ w ->
  (forall i, i < w -> N.testbit esr (n + i) = N.testbit x i) ->
  N.land (N.shiftr (N.land esr 0x01ffffff) n) (N.ones w) = x.
Proof.
  intros Hn Hx H. change 0x01ffffff with (N.ones 25). apply N.bits_inj. intros i.
  autorewrite with bits. destruct (N.ltb_spec i w) as [Hi|Hi].
  - destruct (N.ltb_spec (i + n) 25); [|lia]. rewrite !andb_true_r, N.add_comm. by apply H.
  - rewrite andb_false_r. by rewrite (testbit_high x w).
Qed.

Lemma page_ipa_spec ipa hpfar far : ipa < 2 ^ 52 -> faults_at ipa hpfar far ->
  page_ipa hpfar = N.ldiff ipa 0xfff.
Proof.
  intros Hi [Hp _]. unfold page_ipa. change 0x00000ffffffffff0 with (N.shiftl (N.ones 40) 4).
  change 0xfff with (N.ones 12). apply N.bits_inj. intros i. autorewrite with bits.
  destruct (N.ltb_spec i 12) as [H12|H12].
  - rewrite andb_false_r. destruct (N.leb_spec 8 i); [|by rewrite andb_false_r].
    destruct (N.leb_spec 4 (i - 8)); [lia|]. by rewrite !andb_false_r.
  - destruct (N.ltb_spec i 52) as [H52|H52].
    + destruct (N.ltb_spec i 64), (N.leb_spec 8 i), (N.leb_spec 4 (i - 8)),
        (N.ltb_spec (i - 8 - 4) 40); try lia.
      specialize (Hp (i - 12) ltac:(lia)). replace (4 + (i - 12)) with (i - 8) in Hp by lia.
      replace (12 + (i - 12)) with i in Hp by lia. rewrite Hp. btauto.
    + rewrite (testbit_high ipa 52) by done. destruct (N.ltb_spec (i - 8 - 4) 40); [lia|].
      btauto.
Qed.

(** ** Properties *)

(** The decoder reads back the access: for any syndrome that carries the fields of an
    access at the positions the architecture gives them, whatever its other bits, the fields
    are the decoded ones; the size is 1, 2, 4 or 8 bytes and the mask is the bits of that many
    bytes; and for a fault at an address the registers report, the decoded address is it. *)
Theorem decode_roundtrip (a : DataAbort) (rest esr ipa hpfar far : N) :
  sas a < 4 -> srt a < 32 -> (forall i, N.testbit esr i = syndrome a rest i) ->
  ipa < 2 ^ 52 -> faults_at ipa hpfar far ->
  decode esr = a /\ value_mask a = N.ones (8 * access_bytes a) /\
  page_ipa hpfar = ipa - ipa mod 4096 /\ full_ipa hpfar far = ipa.
Proof.
  intros Hs Hr He Hi Hf. pose proof (page_ipa_spec ipa hpfar far Hi Hf) as Hp.
  destruct Hf as [_ Hf]. split_and!.
  - unfold decode. rewrite !decode_flag, !He by done.
    change 3 with (N.ones 2). change 0x1f with (N.ones 5).
    rewrite (decode_field esr 22 2 (sas a)), (decode_field esr 16 5 (srt a)); try done.
    + by destruct a.
    + intros i Hi5. rewrite He. assert (i = 0 \/ i = 1 \/ i = 2 \/ i = 3 \/ i = 4) by lia.
      by destruct_or!; subst i.
    + intros i Hi2. rewrite He. assert (i = 0 \/ i = 1) by lia. by destruct_or!; subst i.
  - assert (sas a = 0 \/ sas a = 1 \/ sas a = 2 \/ sas a = 3) as H by lia.
    unfold value_mask, access_bytes. destruct_or! H; by rewrite H.
  - rewrite Hp. change 0xfff with (N.ones 12). change 4096 with (2 ^ 12).
    rewrite N.ldiff_ones_r, N.shiftr_div_pow2, N.shiftl_mul_pow2.
    pose proof (N.Div0.div_mod ipa (2 ^ 12)) as E. rewrite E at 2.
    rewrite N.add_sub. apply N.mul_comm.
  - unfold full_ipa. rewrite Hp. change 0xfff with (N.ones 12). rewrite land_ones_mod.
    change (2 ^ 12) with 4096. rewrite Hf. change 4096 with (2 ^ 12). rewrite <- land_ones_mod.
    apply N.bits_inj. intros i. autorewrite with bits. destruct (i <? 12); btauto.
Qed.

(** A load of a word into register 5, at [0x0a000070]. *)
Theorem decode_roundtrip_witness :
  decode 0x93850006 = mkAbort true 2 5 false false false false /\
  value_mask (mkAbort true 2 5 false false false false) =
    N.ones (8 * access_bytes (mkAbort true 2 5 false false false false)) /\
  page_ipa 0xa0000 = 0x0a000070 - 0x0a000070 mod 4096 /\ full_ipa 0xa0000 0xffff0070 = 0x0a000070.
Proof.
  apply (decode_roundtrip (mkAbort true 2 5 false false false false) 0x93850006);
    [done|done| |done|split; [|done] ].
  - intros i. unfold syndrome.
    destruct (N.eqb_spec i 24) as [->|]; [done|].
    destruct (N.leb_spec 22 i), (N.ltb_spec i 24); simpl;
      try (assert (i = 22 \/ i = 23) by lia; by destruct_or!; subst i).
    all: destruct (N.leb_spec 16 i), (N.ltb_spec i 21); simpl;
      try (assert (i = 16 \/ i = 17 \/ i = 18 \/ i = 19 \/ i = 20) by lia; by destruct_or!; subst i).
    all: destruct (N.eqb_spec i 15) as [->|]; [done|]; destruct (N.eqb_spec i 10) as [->|]; [done|];
      destruct (N.eqb_spec i 7) as [->|]; [done|]; by destruct (N.eqb_spec i 6) as [->|].
  - intros i Hi. assert (H : In (N.to_nat i) (seq 0 40)) by (apply in_seq; lia).
    rewrite <- (N2Nat.id i). revert H. generalize (N.to_nat i). intros n H.
    repeat (destruct H as [<-|H]; [reflexivity|]). destruct H.
Defined.
