(* ===== verification/Metal.v ===== *)
(** * The machine under the hypervisor — [hv-metal/src/guest.rs], [stage2.rs]

    The state the bare-metal layer keeps for its synthetic guests: the hypervisor of
    [Hypervisor], the bytes of memory, the paravirtual devices, the disk and the serial line;
    and the accesses to the memory that backs the frames: the window of [GuestMem] and the
    scrubbing of a frame.

    The addresses that the linker and the configuration fix are a [Board]; so is whether an
    unchecked addition traps or wraps, because the release profile the image is built with
    wraps. *)

From Stdlib Require Import NArith Lia.
From stdpp Require Import base numbers list option.
From S2P Require Import Hypervisor.
From S2P Require Import Virtio.
From S2P Require Import Blk.
From S2P Require Import Arm64.
From S2P Require Import Prelude.
#[local] Open Scope N_scope.

(** ** The board *)

Record Board : Type := mkBoard {
  overflow_checks : bool;
  data_ram_start : N;
  data_ram_end : N;
  sup_ram_start : N;
  num_sup_frames : N;
  num_frames : N;
}.

Definition DATA_IPA_BASE : N := 0x80000000.
Definition FRAME_SIZE : N := 0x1000.
Definition SUPER_SIZE : N := TABLE_ENTRIES * FRAME_SIZE.

(** ** The state *)

Inductive ActiveVirtio : Type := NoDevice | Console | Disk.

(** What is written to the serial line: the bytes of guests, and the reports of the
    hypervisor. *)
Inductive Report : Type :=
| RefusedBelow (gpa : N)
| RefusedCrossing (gpa len : N)
| RefusedUngranted (mfn : Mfn) (gpa : N) (writable : bool)
| NotLive (dev : ActiveVirtio) (status ready : N)
| Draining (len : N)
| MalformedHeader
| MalformedData
| ReadServed (sector tenant n : N)
| WriteLanded (tenant sector : N)
| OverlayDiscarded (dom : DomId) (tenant : N).
Inductive Output : Type :=
| Put (byte : N)
| Say (r : Report).

Record World : Type := mkWorld {
  model : Hypervisor;
  mem : N -> N;
  console : VirtioConsole;
  blk : VirtioBlk;
  disk : BlkDisk;
  active : ActiveVirtio;
  blk_tenant : N;
  allocated : list bool;
  tenant_of : list (option N);
  ungranted_refused : bool;
  drained_ok : bool;
  blk_ungranted_refused : bool;
  line : list Output;
}.

Definition model_l : lens World Hypervisor := Lens model (fun v w =>
  mkWorld v (mem w) (console w) (blk w) (disk w) (active w) (blk_tenant w) (allocated w)
    (tenant_of w) (ungranted_refused w) (drained_ok w) (blk_ungranted_refused w) (line w)).
Definition mem_l : lens World (N -> N) := Lens mem (fun v w =>
  mkWorld (model w) v (console w) (blk w) (disk w) (active w) (blk_tenant w) (allocated w)
    (tenant_of w) (ungranted_refused w) (drained_ok w) (blk_ungranted_refused w) (line w)).
Definition console_l : lens World VirtioConsole := Lens console (fun v w =>
  mkWorld (model w) (mem w) v (blk w) (disk w) (active w) (blk_tenant w) (allocated w)
    (tenant_of w) (ungranted_refused w) (drained_ok w) (blk_ungranted_refused w) (line w)).
Definition blk_l : lens World VirtioBlk := Lens blk (fun v w =>
  mkWorld (model w) (mem w) (console w) v (disk w) (active w) (blk_tenant w) (allocated w)
    (tenant_of w) (ungranted_refused w) (drained_ok w) (blk_ungranted_refused w) (line w)).
Definition disk_l : lens World BlkDisk := Lens disk (fun v w =>
  mkWorld (model w) (mem w) (console w) (blk w) v (active w) (blk_tenant w) (allocated w)
    (tenant_of w) (ungranted_refused w) (drained_ok w) (blk_ungranted_refused w) (line w)).
Definition allocated_l : lens World (list bool) := Lens allocated (fun v w =>
  mkWorld (model w) (mem w) (console w) (blk w) (disk w) (active w) (blk_tenant w) v
    (tenant_of w) (ungranted_refused w) (drained_ok w) (blk_ungranted_refused w) (line w)).
Definition tenant_of_l : lens World (list (option N)) := Lens tenant_of (fun v w =>
  mkWorld (model w) (mem w) (console w) (blk w) (disk w) (active w) (blk_tenant w) (allocated w)
    v (ungranted_refused w) (drained_ok w) (blk_ungranted_refused w) (line w)).
Definition set_ungranted_refused v w :=
  mkWorld (model w) (mem w) (console w) (blk w) (disk w) (active w) (blk_tenant w) (allocated w)
    (tenant_of w) v (drained_ok w) (blk_ungranted_refused w) (line w).
Definition set_drained_ok v w :=
  mkWorld (model w) (mem w) (console w) (blk w) (disk w) (active w) (blk_tenant w) (allocated w)
    (tenant_of w) (ungranted_refused w) v (blk_ungranted_refused w) (line w).
Definition set_blk_ungranted_refused v w :=
  mkWorld (model w) (mem w) (console w) (blk w) (disk w) (active w) (blk_tenant w) (allocated w)
    (tenant_of w) (ungranted_refused w) (drained_ok w) v (line w).
Definition emit (o : Output) w :=
  mkWorld (model w) (mem w) (console w) (blk w) (disk w) (active w) (blk_tenant w) (allocated w)
    (tenant_of w) (ungranted_refused w) (drained_ok w) (blk_ungranted_refused w) (line w ++ [o]).

Definition say (r : Report) : M World unit := modify (emit (Say r)).
Definition put (byte : N) : M World unit := modify (emit (Put byte)).

(** ** Memory *)

(** [copy_nonoverlapping] from and to physical memory, and [write_bytes]. *)
Definition fetch (m : N -> N) (pa len : N) : list N := (fun i => m (pa + i)) <$> vrange len.
Definition store (m : N -> N) (pa : N) (buf : list N) : N -> N := fun a =>
  match (if pa <=? a then vget buf (a - pa) else None) with Some x => x | None => m a end.
Definition fill (m : N -> N) (pa len byte : N) : N -> N := fun a =>
  if (pa <=? a) && (a <? pa + len) then byte else m a.

Inductive MemError : Type := OutOfBounds.

Section Board.
Context (b : Board).

(** An unchecked addition of 64-bit words. *)
Definition uplus {S} (x y : N) : M S N :=
  if decide (x + y <= u64_max) then ret (x + y)
  else if overflow_checks b then panic else ret ((x + y) mod (u64_max + 1)).

(** [data_ram_end() - data_ram_start()] and [data_ram_start() + off] are linker addresses and
    do not overflow. *)
Definition ipa_to_pa (gpa len : N) : result MemError N :=
  let window := data_ram_end b - data_ram_start b in
  if gpa <? DATA_IPA_BASE then Err OutOfBounds else
  let off := gpa - DATA_IPA_BASE in
  match checked_add u64_max off len with
  | None => Err OutOfBounds
  | Some last => if window <? last then Err OutOfBounds else Ok (data_ram_start b + off)
  end.

Definition guest_read (gpa len : N) : M World (result MemError (list N)) :=
  let? pa := lift (ipa_to_pa gpa len) in
  let! w := get in
  ok (fetch (mem w) pa len).

Definition guest_write (gpa : N) (buf : list N) : M World (result MemError unit) :=
  let? pa := lift (ipa_to_pa gpa (vlen buf)) in
  modify (fun w => lset mem_l (store (mem w) pa buf) w) ;!
  ok tt.

(** The frames below [num_sup_frames] are backed by a large block each, the others by a page
    of the data window. The cache maintenance around the zeroing is not modelled. *)
Definition scrub_frame (mfn : Mfn) : M World unit :=
  let! r :=
    if mfn <? num_sup_frames b then
      let! pa := frame_addr (sup_ram_start b) SUPER_SIZE mfn in ret (pa, SUPER_SIZE)
    else
      let! pa := frame_addr (data_ram_start b) FRAME_SIZE mfn in ret (pa, FRAME_SIZE) in
  modify (fun w => lset mem_l (fill (mem w) r.1 r.2 0) w).

(** ** Specification *)

(** The addresses of the window are those of a machine: they fit the physical address space. *)
Record board_ok : Prop := mkBoardOk {
  window_ordered : data_ram_start b <= data_ram_end b;
  window_named : data_ram_end b < 2 ^ 44;
}.

End Board.

(** ** Lemmas *)

Lemma fetch_ext m m' pa len :
  (forall i, i < len -> m' (pa + i) = m (pa + i)) -> fetch m' pa len = fetch m pa len.
Proof.
  intros H. apply vget_ext. intros i. unfold fetch. rewrite !vget_fmap, vget_vrange.
  case_decide; simpl; [|done]. by rewrite H.
Qed.

Lemma vlen_fetch m pa len : vlen (fetch m pa len) = len.
Proof. unfold fetch. by rewrite vlen_fmap, vlen_vrange. Qed.

Lemma vget_fetch m pa len i : i < len -> vget (fetch m pa len) i = Some (m (pa + i)).
Proof. intros. unfold fetch. by rewrite vget_fmap, vget_vrange, decide_True. Qed.

Lemma store_spec m pa buf a :
  (pa <= a < pa + vlen buf /\ vget buf (a - pa) = Some (store m pa buf a)) \/
  (~ pa <= a < pa + vlen buf) /\ store m pa buf a = m a.
Proof.
  unfold store. destruct (N.leb_spec pa a); [|right; split; [lia|done] ].
  destruct (vget buf (a - pa)) as [x|] eqn:Hx.
  - left. pose proof (vget_Some_lt _ _ _ Hx). split; [lia|done].
  - right. apply vget_None in Hx. split; [lia|done].
Qed.

Lemma store_other m pa buf a : ~ pa <= a < pa + vlen buf -> store m pa buf a = m a.
Proof. destruct (store_spec m pa buf a) as [ [? _]|[_ ?] ]; [done|done]. Qed.

(** What was stored is read back. *)
Lemma fetch_store m pa buf : fetch (store m pa buf) pa (vlen buf) = buf.
Proof.
  apply vget_ext. intros i. destruct (N.lt_ge_cases i (vlen buf)) as [Hi|Hi].
  - rewrite vget_fetch by done. destruct (store_spec m pa buf (pa + i)) as [ [_ H]|[H _] ]; [|lia].
    rewrite <- H. f_equal. lia.
  - rewrite (proj2 (vget_None _ _)) by (by rewrite vlen_fetch). symmetry. by apply vget_None.
Qed.
