(* ===== verification/Backend.v ===== *)
(** * The backend of the paravirtual devices — [hv-metal/src/guest.rs]

    A trapped access to the device window is decoded and answered by the device model; a kick
    of the queue runs the backend, which walks the rings in guest memory on behalf of domain 0
    and moves bytes between the guest's buffers and the serial line or the disk. Every access
    to guest memory first asks the grant table. *)

From Stdlib Require Import NArith Lia.
From stdpp Require Import base numbers list option.
From S2P Require Import Bits.
From S2P Require Import Grant.
From S2P Require Import Hypervisor.
From S2P Require Import Blk.
From S2P Require Import Virtio.
From S2P Require Import Abort.
From S2P Require Import Metal.
From S2P Require Import Prelude.
#[local] Open Scope N_scope.

Definition VIRTIO_DOM : DomId := 1.
Definition VIRTIO_BACKEND : DomId := 0.

(** [from_le_bytes] and [to_le_bytes]. *)
Fixpoint from_le_bytes (l : list N) : N :=
  match l with [] => 0 | x :: l => x + 256 * from_le_bytes l end.
Fixpoint to_le_bytes (n : nat) (x : N) : list N :=
  match n with O => [] | S n => x mod 256 :: to_le_bytes n (x / 256) end.

Definition wrapping_inc16 (x : N) : N := as_u16 (x + 1).

Section Backend.
Context (b : Board).

(** ** The grant gate *)

Definition gpa_to_mfn (gpa : N) : option Mfn :=
  if gpa <? DATA_IPA_BASE then None else Some (as_u32 ((gpa - DATA_IPA_BASE) / FRAME_SIZE)).

Definition refuse (r : Report) : M World bool :=
  say r ;! modify (set_ungranted_refused true) ;! ret false.

Definition backend_authorize (gpa len : N) (writable : bool) : M World bool :=
  match gpa_to_mfn gpa with
  | None => refuse (RefusedBelow gpa)
  | Some mfn =>
      let! last := uplus b (N.land gpa (FRAME_SIZE - 1)) len in
      if FRAME_SIZE <? last then refuse (RefusedCrossing gpa len) else
      let! w := get in
      if negb (Grant.authorizes (grant (model w)) VIRTIO_DOM VIRTIO_BACKEND mfn writable)
      then refuse (RefusedUngranted mfn gpa writable)
      else ret true
  end.

(** The buffer that a refused read leaves untouched is not returned. *)
Definition backend_read (gpa len : N) : M World (option (list N)) :=
  let! allowed := backend_authorize gpa len false in
  if allowed : bool then
    let! r := guest_read b gpa len in
    ret (match r with Ok buf => Some buf | Err _ => None end)
  else ret None.

Definition backend_write (gpa : N) (buf : list N) : M World bool :=
  let! allowed := backend_authorize gpa (vlen buf) true in
  if allowed : bool then let! r := guest_write b gpa buf in ret (is_ok r) else ret false.

Definition backend_read_u16 (gpa : N) : M World (option N) :=
  let! o := backend_read gpa 2 in ret (from_le_bytes <$> o).
Definition backend_read_u32 (gpa : N) : M World (option N) :=
  let! o := backend_read gpa 4 in ret (from_le_bytes <$> o).
Definition backend_read_u64 (gpa : N) : M World (option N) :=
  let! o := backend_read gpa 8 in ret (from_le_bytes <$> o).

(** ** The console *)

Definition MAX_TX : N := 256.

Definition backend_drain_to_console (addr len : N) : M World N :=
  let len := N.min len MAX_TX in
  let! o := backend_read addr len in
  match o with
  | None => ret 0
  | Some slice => say (Draining len) ;! for_each slice put ;! ret len
  end.

(** Retire a buffer on the used ring: the element, then the index. *)
Definition console_retire (num head written : N) : M World unit :=
  let! w := get in
  let dev := console w in
  let used_slot := used_idx dev mod num in
  let! a := uplus b (queue_device dev) VIRTQ_USED_RING_OFF in
  let! elem := uplus b a (used_slot * VIRTQ_USED_ELEM_SIZE) in
  backend_write elem (to_le_bytes 4 head) ;!
  let! elem4 := uplus b elem 4 in
  backend_write elem4 (to_le_bytes 4 written) ;!
  modify (fun w => lset console_l (set_used_idx (wrapping_inc16 (used_idx (console w))) (console w)) w) ;!
  let! w := get in
  let! a := uplus b (queue_device (console w)) VIRTQ_USED_IDX_OFF in
  backend_write a (to_le_bytes 2 (used_idx (console w))) ;!
  ret tt.

(** One available entry; [false] when the backend gives up. *)
Definition console_entry (num : N) : M World bool :=
  let! w := get in
  let dev := console w in
  let slot := last_avail_idx dev mod num in
  let! a := uplus b (queue_driver dev) VIRTQ_AVAIL_RING_OFF in
  let! a := uplus b a (slot * 2) in
  let! head := backend_read_u16 a in
  match head with
  | None => ret false
  | Some head =>
      let! desc := uplus b (queue_desc dev) (head * VIRTQ_DESC_SIZE) in
      let! addr := backend_read_u64 desc in
      let! a := uplus b desc 8 in
      let! len := backend_read_u32 a in
      match addr, len with
      | Some addr, Some len =>
          let! written := backend_drain_to_console addr len in
          console_retire num head written ;!
          modify (fun w => lset console_l
            (set_last_avail_idx (wrapping_inc16 (last_avail_idx (console w))) (console w)) w) ;!
          ret true
      | _, _ => ret false
      end
  end.

(** [while dev.last_avail_idx != avail_idx]; the fuel is the distance, at most 65535. *)
Fixpoint console_loop (fuel : nat) (num avail_idx : N) : M World bool :=
  let! w := get in
  if last_avail_idx (console w) =? avail_idx then ret true else
  match fuel with
  | O => panic
  | S fuel =>
      let! more := console_entry num in
      if more : bool then console_loop fuel num avail_idx else ret false
  end.

(** How many entries lie between a cursor and the index of the driver. *)
Definition pending (avail_idx last : N) : nat := N.to_nat (as_u16 (avail_idx + 65536 - last)).

Definition handle_virtio_notify : M World unit :=
  let! w := get in
  let dev := console w in
  if negb (queue_live dev) then say (NotLive Console (status dev) (queue_ready dev)) else
  let num := as_u16 (queue_num dev) in
  if num =? 0 then ret tt else
  let! a := uplus b (queue_driver dev) VIRTQ_AVAIL_IDX_OFF in
  let! avail_idx := backend_read_u16 a in
  match avail_idx with
  | None => ret tt
  | Some avail_idx =>
      let! finished := console_loop (pending avail_idx (last_avail_idx dev)) num avail_idx in
      if finished : bool then
        modify (fun w => lset console_l
          (set_interrupt_status (N.lor (interrupt_status (console w)) 1) (console w)) w) ;!
        modify (set_drained_ok true)
      else ret tt
  end.

(** ** The disk *)

Record BlkDesc : Type := mkDesc {
  addr : N;
  len : N;
  flags : N;
  next : N;
}.

(** [?] on a read that may be refused. *)
Definition obind {T U} (m : M World (option T)) (k : T -> M World (option U)) : M World (option U) :=
  let! o := m in match o with None => ret None | Some x => k x end.

Definition backend_read_desc (desc_table index num : N) : M World (option BlkDesc) :=
  if num <=? index then ret None else
  let! d := uplus b desc_table (index * VIRTQ_DESC_SIZE) in
  obind (backend_read_u64 d) (fun addr =>
  let! d8 := uplus b d 8 in
  obind (backend_read_u32 d8) (fun len =>
  let! d12 := uplus b d 12 in
  obind (backend_read_u16 d12) (fun flags =>
  let! d14 := uplus b d 14 in
  obind (backend_read_u16 d14) (fun next =>
  ret (Some (mkDesc addr len flags next)))))).

(** Echo the served bytes up to the first zero. *)
Fixpoint echo (l : list N) : M World unit :=
  match l with
  | [] => ret tt
  | x :: l => if x =? 0 then ret tt else put x ;! echo l
  end.

(** Serve a read: the sector the tenant sees goes to the buffer. The status. *)
Definition serve_in (tenant sector buf n : N) : M World N :=
  let! allowed := backend_authorize buf n true in
  if negb allowed then modify (set_blk_ungranted_refused true) ;! ret VIRTIO_BLK_S_IOERR else
  let! sector_data := zoom disk_l (Blk.read tenant sector) in
  let data := take (N.to_nat n) sector_data in
  let! r := guest_write b buf data in
  if is_ok r then say (ReadServed sector tenant n) ;! echo data ;! ret VIRTIO_BLK_S_OK
  else ret VIRTIO_BLK_S_IOERR.

(** Serve a write: the buffer goes to the overlay of the tenant. *)
Definition serve_out (tenant sector buf n : N) : M World N :=
  let! allowed := backend_authorize buf n false in
  if negb allowed then modify (set_blk_ungranted_refused true) ;! ret VIRTIO_BLK_S_IOERR else
  let! r := guest_read b buf n in
  match r with
  | Ok bytes =>
      zoom disk_l (Blk.write tenant sector bytes) ;!
      say (WriteLanded tenant sector) ;! ret VIRTIO_BLK_S_OK
  | Err _ => ret VIRTIO_BLK_S_IOERR
  end.

Definition process_blk_request (desc_table num head : N) : M World unit :=
  let! w := get in
  let tenant := blk_tenant w in
  let! d0 := backend_read_desc desc_table head num in
  match d0 with None => ret tt | Some d0 =>
  if (N.land (flags d0) VIRTQ_DESC_F_NEXT =? 0) || (len d0 <? BLK_HDR_SIZE)
  then say MalformedHeader else
  let! typ := backend_read_u32 (addr d0) in
  let! a := uplus b (addr d0) BLK_HDR_SECTOR_OFF in
  let! sector64 := backend_read_u64 a in
  match typ, sector64 with
  | Some typ, Some sector =>
      let! d1 := backend_read_desc desc_table (next d0) num in
      match d1 with None => ret tt | Some d1 =>
      if N.land (flags d1) VIRTQ_DESC_F_NEXT =? 0 then say MalformedData else
      let n := N.min (len d1) SECTOR_SIZE in
      let data_writable := negb (N.land (flags d1) VIRTQ_DESC_F_WRITE =? 0) in
      let direction_ok :=
        if typ =? VIRTIO_BLK_T_IN then data_writable
        else if typ =? VIRTIO_BLK_T_OUT then negb data_writable
        else false in
      let! d2 := backend_read_desc desc_table (next d1) num in
      match d2 with None => ret tt | Some d2 =>
      let! status :=
        if (DISK_SECTORS <=? sector) || negb direction_ok then ret VIRTIO_BLK_S_IOERR
        else if typ =? VIRTIO_BLK_T_IN then serve_in tenant sector (addr d1) n
        else if typ =? VIRTIO_BLK_T_OUT then serve_out tenant sector (addr d1) n
        else ret VIRTIO_BLK_S_IOERR in
      backend_write (addr d2) [status] ;! ret tt
      end end
  | _, _ => ret tt
  end end.

Definition blk_retire (num head : N) : M World unit :=
  let! w := get in
  let dev := blk w in
  let used_slot := Blk.used_idx dev mod num in
  let! a := uplus b (Blk.queue_device dev) VIRTQ_USED_RING_OFF in
  let! elem := uplus b a (used_slot * VIRTQ_USED_ELEM_SIZE) in
  backend_write elem (to_le_bytes 4 head) ;!
  let! elem4 := uplus b elem 4 in
  backend_write elem4 (to_le_bytes 4 0) ;!
  modify (fun w => lset blk_l (Blk.set_used_idx (wrapping_inc16 (Blk.used_idx (blk w))) (blk w)) w) ;!
  let! w := get in
  let! a := uplus b (Blk.queue_device (blk w)) VIRTQ_USED_IDX_OFF in
  backend_write a (to_le_bytes 2 (Blk.used_idx (blk w))) ;!
  ret tt.

Definition blk_entry (num : N) : M World bool :=
  let! w := get in
  let dev := blk w in
  let slot := Blk.last_avail_idx dev mod num in
  let! a := uplus b (Blk.queue_driver dev) VIRTQ_AVAIL_RING_OFF in
  let! a := uplus b a (slot * 2) in
  let! head := backend_read_u16 a in
  match head with
  | None => ret false
  | Some head =>
      process_blk_request (Blk.queue_desc dev) num head ;!
      blk_retire num head ;!
      modify (fun w => lset blk_l
        (Blk.set_last_avail_idx (wrapping_inc16 (Blk.last_avail_idx (blk w))) (blk w)) w) ;!
      ret true
  end.

Fixpoint blk_loop (fuel : nat) (num avail_idx : N) : M World bool :=
  let! w := get in
  if Blk.last_avail_idx (blk w) =? avail_idx then ret true else
  match fuel with
  | O => panic
  | S fuel =>
      let! more := blk_entry num in
      if more : bool then blk_loop fuel num avail_idx else ret false
  end.

Definition handle_virtio_blk_notify : M World unit :=
  let! w := get in
  let dev := blk w in
  if negb (Blk.queue_live dev) then say (NotLive Disk (Blk.status dev) (Blk.queue_ready dev)) else
  let num := as_u16 (Blk.queue_num dev) in
  if num =? 0 then ret tt else
  let! a := uplus b (Blk.queue_driver dev) VIRTQ_AVAIL_IDX_OFF in
  let! avail_idx := backend_read_u16 a in
  match avail_idx with
  | None => ret tt
  | Some avail_idx =>
      let! finished := blk_loop (pending avail_idx (Blk.last_avail_idx dev)) num avail_idx in
      if finished : bool then
        modify (fun w => lset blk_l
          (Blk.set_interrupt_status (N.lor (Blk.interrupt_status (blk w)) 1) (blk w)) w)
      else ret tt
  end.

(** ** The trap *)

(** The registers of the trapped guest, and why the hypervisor stops the machine. *)
Record Cpu : Type := mkCpu {
  x : list N;
  elr : N;
}.
Inductive Halt : Type := NoSyndrome | FarInvalid | NotAWord | NoDeviceActive.

Definition kick (dev : ActiveVirtio) : M World unit :=
  match dev with
  | NoDevice => ret tt
  | Console => handle_virtio_notify
  | Disk => handle_virtio_blk_notify
  end.

(** A store to a register of the active device, and the kick it may be. *)
Definition store_register (dev : ActiveVirtio) (offset value : N) : M World unit :=
  let! notify :=
    match dev with
    | Console => zoom console_l (Virtio.mmio_write offset value)
    | Disk => zoom blk_l (Blk.mmio_write offset value)
    | NoDevice => ret false
    end in
  if notify : bool then kick dev else ret tt.

(** The caller has seen that [far] lies in the window. *)
Definition handle_mmio (cpu : Cpu) (esr far : N) : M World (result Halt Cpu) :=
  let a := decode esr in
  if negb (isv a) then err NoSyndrome else
  if fnv a then err FarInvalid else
  if negb (access_bytes a =? 4) then err NotAWord else
  let! offset := usub far VIRTIO_MMIO_BASE in
  let! w := get in
  let dev := active w in
  match dev with NoDevice => err NoDeviceActive | _ =>
  let! x' :=
    if wnr a then
      let! src := if srt a <? 31 then index (x cpu) (srt a) else ret 0 in
      let value := as_u32 (N.land src (value_mask a)) in
      store_register dev offset value ;!
      ret (x cpu)
    else
      let value :=
        match dev with
        | Console => Virtio.mmio_read offset (console w)
        | Disk => Blk.mmio_read offset (blk w)
        | NoDevice => 0
        end in
      if srt a <? 31 then
        let! _ := index (x cpu) (srt a) in ret (vset (x cpu) (srt a) value)
      else ret (x cpu) in
  ok (mkCpu x' ((elr cpu + 4) mod (u64_max + 1)))
  end.

(** ** Specification *)

(** The answer of the gate, and what a read returns that it lets through. *)
Inductive Verdict : Type := Allowed | Refused (r : Report) | Trap.

Definition gate (hv : Hypervisor) (gpa len : N) (wr : bool) : Verdict :=
  match gpa_to_mfn gpa with
  | None => Refused (RefusedBelow gpa)
  | Some mfn =>
      match uplus b (N.land gpa (FRAME_SIZE - 1)) len tt with
      | Panic => Trap
      | Done _ last =>
          if FRAME_SIZE <? last then Refused (RefusedCrossing gpa len)
          else if Grant.authorizes (grant hv) VIRTIO_DOM VIRTIO_BACKEND mfn wr then Allowed
          else Refused (RefusedUngranted mfn gpa wr)
      end
  end.

Definition refusal (r : Report) (w : World) : World :=
  set_ungranted_refused true (emit (Say r) w).

(** A byte of the memory behind a frame that the guest has granted to the backend, for
    writing or at all. *)
Definition granted (hv : Hypervisor) (wr : bool) (pa : N) : Prop :=
  exists m, Grant.authorizes (grant hv) VIRTIO_DOM VIRTIO_BACKEND m wr = true /\
    data_ram_start b + m * FRAME_SIZE <= pa < data_ram_start b + (m + 1) * FRAME_SIZE.

Definition with_mem (w : World) (m : N -> N) : World := lset mem_l m w.

(** Two machines that differ at most in memory the guest has not granted. *)
Definition agree (w1 w2 : World) : Prop :=
  w2 = with_mem w1 (mem w2) /\
  forall pa, granted (model w1) false pa -> mem w2 pa = mem w1 pa.

(** The memory is written only where the guest has granted it for writing. *)
Definition kept (w w' : World) : Prop :=
  model w' = model w /\ forall pa, ~ granted (model w) true pa -> mem w' pa = mem w pa.

(** A computation that, when the model satisfies [P], reads memory only where the guest has
    granted it and writes it only where it has granted it for writing: run on two machines
    that agree it does the same and leaves them in agreement. *)
Definition confined {T} (P : Hypervisor -> Prop) (c : M World T) : Prop :=
  forall w1 w2, agree w1 w2 -> P (model w1) ->
  match c w1, c w2 with
  | Done w1' r1, Done w2' r2 => r1 = r2 /\ agree w1' w2' /\ kept w1 w1' /\ kept w2 w2'
  | Panic, Panic => True
  | _, _ => False
  end.

End Backend.

(** Bytes are below 256: in memory, and in what tenants see of the disk. *)
Definition bytes_ok (l : list N) : Prop := forall x, x ∈ l -> x < 256.
Definition disk_bytes (d : BlkDisk) : Prop :=
  (forall s l, vget (template d) s = Some l -> bytes_ok l) /\
  forall t s l, t < N_TENANTS -> s < DISK_SECTORS -> private d t s = Some l -> bytes_ok l.

(** The disk has its shape, the registers their widths and the bytes of memory theirs. *)
Record wf_store (w : World) : Prop := mkWfStore {
  ws_disk : Blk.wf_disk (disk w);
  ws_bytes : disk_bytes (disk w);
  ws_mem : forall pa, mem w pa < 256;
  ws_tenant : blk_tenant w < N_TENANTS;
}.
Record wf_world (w : World) : Prop := mkWfWorld {
  ww_store : wf_store w;
  ww_console : Virtio.wf (console w);
  ww_blk : Virtio.wf (Blk.transport (blk w));
}.

(** The distance of the cursors of a ring. *)
Definition lag (used last : N) : N := as_u16 (used + 65536 - last).

(** What a request of a tenant may do to memory and the disk, with the status it reports: a
    failed one nothing, a read a part of the sector the tenant sees into memory, a write a
    part of memory into its sector. *)
Inductive served (tenant : N) (m : N -> N) (d : BlkDisk) : N -> (N -> N) -> BlkDisk -> Prop :=
| served_error : served tenant m d VIRTIO_BLK_S_IOERR m d
| served_read s l pa n : s < DISK_SECTORS -> Blk.read tenant s d = Done d l ->
    served tenant m d VIRTIO_BLK_S_OK (store m pa (take n l)) d
| served_write s pa n d' : s < DISK_SECTORS -> n <= SECTOR_SIZE ->
    Blk.write tenant s (fetch m pa n) d = Done d' tt -> served tenant m d VIRTIO_BLK_S_OK m d'.
