(* ===== verification/Confine.v ===== *)
(** * The backend stays within its grants

    Proofs about [Backend]: every access of the paravirtual devices to memory is one the guest
    has granted, a kick ends, and the disk is served sector by sector — and the one thing the
    gate does not ask, whether the guest owns what it grants. *)

From Stdlib Require Import NArith Lia.
From stdpp Require Import base numbers list option.
From S2P Require Import Bits.
From S2P Require Import Grant.
From S2P Require Import P2m.
From S2P Require Import Hypervisor.
From S2P Require Import HvInvariant.
From S2P Require Import HvSafety.
From S2P Require Import HvTheorems.
From S2P Require Import Blk.
From S2P Require Import Virtio.
From S2P Require Import Abort.
From S2P Require Import Metal.
From S2P Require Import Backend.
From S2P Require Import Prelude.
#[local] Open Scope N_scope.

Section Confine.
Context (b : Board).
Implicit Types (w : World) (P : Hypervisor -> Prop).

(** ** The gate *)

Lemma authorize_gate gpa n wr w :
  backend_authorize b gpa n wr w =
  match gate b (model w) gpa n wr with
  | Allowed => Done w true
  | Refused r => Done (refusal r w) false
  | Trap => Panic
  end.
Proof.
  unfold backend_authorize, gate. destruct (gpa_to_mfn gpa) as [m|]; [|done].
  unfold bind at 1, uplus. case_decide; [|destruct (overflow_checks b)]; try done.
  all: unfold ret, bind, get; cbn beta iota; case_match; [done|]; cbn beta iota.
  all: by destruct (Grant.authorizes _ _ _ _ _).
Qed.

(** The bytes of an access the gate allows lie in a granted frame. *)
Lemma gate_granted hv gpa n wr pa i : board_ok b ->
  gate b hv gpa n wr = Allowed -> ipa_to_pa b gpa n = Ok pa -> i < n -> granted b hv wr (pa + i).
Proof.
  intros Hb. unfold gate, gpa_to_mfn, ipa_to_pa.
  destruct (N.ltb_spec gpa DATA_IPA_BASE) as [|Hg]; [done|]. set (off := gpa - DATA_IPA_BASE).
  intros Hgate Hpa Hi. destruct (checked_add _ off n) as [last|] eqn:Hl; [|done].
  apply checked_add_Some in Hl as [Hl ->]. destruct (N.ltb_spec (data_ram_end b - data_ram_start b) (off + n)); [done|].
  injection Hpa as <-. destruct Hb as [Hb1 Hb2].
  assert (Hm : as_u32 (off / FRAME_SIZE) = off / FRAME_SIZE).
  { apply N.mod_small. apply N.Div0.div_lt_upper_bound. unfold FRAME_SIZE. lia. }
  assert (Hlow : N.land gpa (FRAME_SIZE - 1) = off mod FRAME_SIZE).
  { change (FRAME_SIZE - 1) with (N.ones 12). rewrite land_ones_mod. change (2 ^ 12) with FRAME_SIZE.
    replace gpa with (off + 524288 * FRAME_SIZE) by (unfold off, DATA_IPA_BASE, FRAME_SIZE in *; lia).
    apply N.Div0.mod_add. }
  rewrite Hm, Hlow in Hgate.
  assert (Hm2 : off mod FRAME_SIZE < FRAME_SIZE) by (by apply N.mod_lt).
  unfold uplus in Hgate. rewrite decide_True in Hgate
    by (unfold FRAME_SIZE, u64_max, DATA_IPA_BASE in *; lia).
  cbn in Hgate. destruct (N.ltb_spec FRAME_SIZE (off mod FRAME_SIZE + n)); [done|].
  destruct (Grant.authorizes _ _ _ _ _) eqn:Ha; [|done].
  exists (off / FRAME_SIZE). split; [done|]. pose proof (N.Div0.div_mod off FRAME_SIZE). nia.
Qed.

Lemma granted_weaken hv pa : granted b hv true pa -> granted b hv false pa.
Proof.
  intros (m & Ha & Hr). exists m. split; [|done].
  apply Grant.authorizes_spec in Ha as (g & ro & Ha & _). apply Grant.authorizes_spec.
  by exists g, ro.
Qed.

(** ** The rules of confinement *)

Lemma agree_refl w : agree b w w.
Proof. split; [by destruct w|done]. Qed.

Lemma agree_model w1 w2 : agree b w1 w2 -> model w2 = model w1.
Proof. by intros [-> _]. Qed.

Lemma confined_kept_refl w : kept b w w.
Proof. done. Qed.

Lemma confined_kept_trans w1 w2 w3 : kept b w1 w2 -> kept b w2 w3 -> kept b w1 w3.
Proof.
  intros [E1 H1] [E2 H2]. split; [congruence|]. intros pa Hpa. rewrite H2 by (by rewrite E1).
  by apply H1.
Qed.

Lemma confined_ret {T} P (x : T) : confined b P (ret x).
Proof. intros w1 w2 Ha _. by split_and!. Qed.

Lemma confined_bind {T U} P (c : M World T) (k : T -> M World U) :
  confined b P c -> (forall x, confined b P (k x)) -> confined b P (bind c k).
Proof.
  intros Hc Hk w1 w2 Ha HP. specialize (Hc w1 w2 Ha HP). unfold bind.
  destruct (c w1) as [w1' r1|], (c w2) as [w2' r2|]; try done.
  destruct Hc as (<- & Ha' & H1 & H2).
  specialize (Hk r1 w1' w2' Ha'). rewrite (proj1 H1) in Hk. specialize (Hk HP).
  destruct (k r1 w1') as [w1'' x1|], (k r1 w2') as [w2'' x2|]; try done.
  destruct Hk as (<- & Ha'' & H1' & H2'). split_and!; [done..| |]; by eapply confined_kept_trans.
Qed.

Lemma confined_mono {T} P P' (c : M World T) :
  confined b P' c -> (forall hv, P hv -> P' hv) -> confined b P c.
Proof. intros Hc HP w1 w2 Ha H. apply Hc; [done|by apply HP]. Qed.

(** A reading of the state, which may not be of the memory. *)
Lemma confined_get {T} P (k : World -> M World T) :
  (forall w m, k (with_mem w m) = k w) -> (forall w, confined b P (k w)) -> confined b P (bind get k).
Proof.
  intros Hm Hk w1 w2 Ha HP. unfold bind, get. pose proof (Hk w1 w1 w2 Ha HP) as H.
  assert (Ek : k w2 = k w1) by (rewrite (proj1 Ha); apply Hm). by rewrite Ek.
Qed.

(** An update of another part of the state. *)
Lemma confined_modify P (f : World -> World) :
  (forall w, model (f w) = model w) -> (forall w, mem (f w) = mem w) ->
  (forall w m, f (with_mem w m) = with_mem (f w) m) -> confined b P (modify f).
Proof.
  intros Hmo Hme Hf w1 w2 [E Hm] _. unfold modify. split_and!; [done| | |].
  - split.
    + rewrite E at 1. by rewrite Hf, E, Hme.
    + intros pa. rewrite Hmo, !Hme. apply Hm.
  - split; [done|]. intros. by rewrite Hme.
  - split; [done|]. intros. by rewrite Hme.
Qed.

Lemma confined_panic {T} P : confined b P (panic : M World T).
Proof. done. Qed.

Lemma confined_uplus P y z : confined b P (uplus b y z).
Proof.
  unfold uplus. case_decide; [apply confined_ret|].
  destruct (overflow_checks b); [apply confined_panic|apply confined_ret].
Qed.

Lemma confined_zoom {A T} P (l : lens World A) (c : M A T) :
  (forall w m, lget l (with_mem w m) = lget l w) ->
  (forall w m v, lset l v (with_mem w m) = with_mem (lset l v w) m) ->
  (forall w v, model (lset l v w) = model w) -> (forall w v, mem (lset l v w) = mem w) ->
  confined b P (zoom l c).
Proof.
  intros Hg Hs Hmo Hme w1 w2 [E Hm] _. unfold zoom.
  assert (Eg : lget l w2 = lget l w1) by (rewrite E; apply Hg). rewrite Eg.
  destruct (c (lget l w1)) as [v r|]; [|done]. split_and!; [done| | |].
  - split; [|intros pa; rewrite Hmo, !Hme; apply Hm]. rewrite Hme, <- Hs. by f_equal.
  - split; [done|]. intros. by rewrite Hme.
  - split; [done|]. intros. by rewrite Hme.
Qed.

Lemma confined_for_each {X} P (l : list X) (f : X -> M World unit) :
  (forall x, confined b P (f x)) -> confined b P (for_each l f).
Proof. intros Hf. induction l; simpl; [apply confined_ret|by apply confined_bind]. Qed.

(** The reports and the witness flags. *)
Lemma confined_say P r : confined b P (say r).
Proof. by apply confined_modify. Qed.
Lemma confined_put P y : confined b P (put y).
Proof. by apply confined_modify. Qed.

(** An access behind the gate: the rest may rely on its verdict. *)
Lemma confined_authorize {T} P gpa n wr (k : bool -> M World T) :
  confined b (fun hv => P hv /\ gate b hv gpa n wr = Allowed) (k true) -> confined b P (k false) ->
  confined b P (bind (backend_authorize b gpa n wr) k).
Proof.
  intros Ht Hf w1 w2 Ha HP. unfold bind. rewrite !authorize_gate, (agree_model _ _ Ha).
  destruct (gate b (model w1) gpa n wr) as [|r|] eqn:Hg; [| |done].
  - by apply Ht.
  - assert (Hr : confined b P (modify (refusal r))) by (by apply confined_modify).
    apply (confined_bind P _ (fun _ => k false) Hr (fun _ => Hf) w1 w2 Ha HP).
Qed.

Lemma confined_guest_read P gpa n wr : board_ok b ->
  (forall hv, P hv -> gate b hv gpa n wr = Allowed) -> confined b P (guest_read b gpa n).
Proof.
  intros Hb HP w1 w2 Ha Hw. unfold guest_read, tbind, lift, bind, ret, get, ok.
  destruct (ipa_to_pa b gpa n) as [pa|e] eqn:Hpa; [|by split_and!].
  split_and!; [|done..]. f_equal. symmetry. apply fetch_ext. intros i Hi. apply Ha.
  assert (Hg : granted b (model w1) wr (pa + i)) by (eapply gate_granted; eauto).
  destruct wr; [by apply granted_weaken|done].
Qed.

Lemma confined_guest_write P gpa buf : board_ok b ->
  (forall hv, P hv -> gate b hv gpa (vlen buf) true = Allowed) ->
  confined b P (guest_write b gpa buf).
Proof.
  intros Hb HP w1 w2 Ha Hw. unfold guest_write, tbind, lift, bind, ret, modify, ok.
  destruct (ipa_to_pa b gpa (vlen buf)) as [pa|e] eqn:Hpa; [|by split_and!].
  assert (Hk : forall w, model w = model w1 -> kept b w (lset mem_l (store (mem w) pa buf) w)).
  { intros w Hm. split; [done|]. intros a Hna. simpl. apply store_other. intros Hin. apply Hna.
    rewrite Hm. replace a with (pa + (a - pa)) by lia.
    eapply gate_granted; [done|by apply HP|exact Hpa|lia]. }
  split_and!; [done| |by apply Hk|apply Hk; by apply agree_model].
  destruct Ha as [E Hm]. split.
  - transitivity (lset mem_l (store (mem w2) pa buf) (with_mem w1 (mem w2))); [by rewrite <- E|done].
  - intros a Hga. simpl in *. specialize (Hm a Hga). unfold store. by rewrite Hm.
Qed.

(** ** The backend *)

Context (Hb : board_ok b).

Lemma confined_read P gpa n : confined b P (backend_read b gpa n).
Proof.
  apply confined_authorize; [|apply confined_ret]. apply confined_bind; [|intros; apply confined_ret].
  by apply confined_guest_read with (wr := false); [|intros ? [_ ?] ].
Qed.

Lemma confined_write P gpa buf : confined b P (backend_write b gpa buf).
Proof.
  apply confined_authorize; [|apply confined_ret]. apply confined_bind; [|intros; apply confined_ret].
  by apply confined_guest_write; [|intros ? [_ ?] ].
Qed.

Lemma confined_obind {T U} P (m : M World (option T)) (k : T -> M World (option U)) :
  confined b P m -> (forall x, confined b P (k x)) -> confined b P (obind m k).
Proof. intros Hm Hk. apply confined_bind; [done|]. intros [x|]; [apply Hk|apply confined_ret]. Qed.

End Confine.

Create HintDb confine discriminated.
#[export] Hint Resolve confined_ret confined_panic confined_uplus confined_say confined_put
  confined_read confined_write confined_for_each : confine.
#[export] Hint Extern 1 (confined _ _ (modify _)) => apply confined_modify : confine.
#[export] Hint Extern 1 (confined _ _ (zoom _ _)) => apply confined_zoom : confine.

(** One step of a proof of confinement. *)
Ltac confine_step :=
  first
  [ solve [eauto with confine]
  | lazymatch goal with
    | |- confined _ _ (bind get _) => apply confined_get; [intros; reflexivity|intros ?]
    | |- confined _ _ (bind _ _) => apply confined_bind; [|intros ?]
    | |- confined _ _ (obind _ _) => apply confined_obind; [|intros ?]
    | |- confined _ _ (if ?c then _ else _) => destruct c
    | |- confined _ _ (match ?c with _ => _ end) => destruct c
    | |- confined _ _ (let x := ?y in _) => set (x := y)
    end ].
Ltac confine := repeat confine_step.

Section Devices.
Context (b : Board) (Hb : board_ok b).
Implicit Types (P : Hypervisor -> Prop).

Lemma confined_drain P a n : confined b P (backend_drain_to_console b a n).
Proof. unfold backend_drain_to_console. confine. Qed.
#[local] Hint Resolve confined_drain : confine.

Lemma confined_console_retire P num head n : confined b P (console_retire b num head n).
Proof. unfold console_retire. confine. Qed.
#[local] Hint Resolve confined_console_retire : confine.

Lemma confined_console_entry P num : confined b P (console_entry b num).
Proof. unfold console_entry, backend_read_u16, backend_read_u32, backend_read_u64. confine. Qed.
#[local] Hint Resolve confined_console_entry : confine.

Lemma confined_console_loop P fuel num idx : confined b P (console_loop b fuel num idx).
Proof. induction fuel; simpl; confine. Qed.
#[local] Hint Resolve confined_console_loop : confine.

Lemma confined_virtio_notify P : confined b P (handle_virtio_notify b).
Proof. unfold handle_virtio_notify, backend_read_u16. confine. Qed.

#[local] Hint Resolve confined_virtio_notify : confine.

Lemma confined_read_desc P t i num : confined b P (backend_read_desc b t i num).
Proof. unfold backend_read_desc, backend_read_u16, backend_read_u32, backend_read_u64. confine. Qed.
#[local] Hint Resolve confined_read_desc : confine.

Lemma confined_echo P l : confined b P (echo l).
Proof. induction l; simpl; confine. Qed.
#[local] Hint Resolve confined_echo : confine.

Lemma vlen_take_le {A} (l : list A) n : vlen (take (N.to_nat n) l) <= n.
Proof. unfold vlen. rewrite length_take. lia. Qed.

(** The gate has seen the length of the request; the sector may be shorter. *)
Lemma gate_shorter hv gpa n n' wr : n' <= n -> n <= FRAME_SIZE ->
  gate b hv gpa n wr = Allowed -> gate b hv gpa n' wr = Allowed.
Proof.
  intros Hn Hf. unfold gate. destruct (gpa_to_mfn gpa); [|done].
  assert (Hlow : N.land gpa (FRAME_SIZE - 1) < FRAME_SIZE).
  { change (FRAME_SIZE - 1) with (N.ones 12). rewrite land_ones_mod. by apply N.mod_lt. }
  unfold uplus. rewrite !decide_True by (unfold FRAME_SIZE, u64_max in *; lia). cbn.
  destruct (N.ltb_spec FRAME_SIZE (N.land gpa (FRAME_SIZE - 1) + n)); [done|].
  destruct (N.ltb_spec FRAME_SIZE (N.land gpa (FRAME_SIZE - 1) + n')); [lia|done].
Qed.

Lemma confined_serve_in P t s gpa n : n <= SECTOR_SIZE -> confined b P (serve_in b t s gpa n).
Proof.
  intros Hn. unfold serve_in. apply confined_authorize; simpl; [|confine].
  apply confined_bind; [by apply confined_zoom|intros data].
  apply confined_bind; [|intros; confine]. apply confined_guest_write; [done|].
  intros hv [_ Hg]. eapply gate_shorter; [apply vlen_take_le| |exact Hg].
  unfold SECTOR_SIZE, FRAME_SIZE in *. lia.
Qed.

Lemma confined_serve_out P t s gpa n : confined b P (serve_out b t s gpa n).
Proof.
  unfold serve_out. apply confined_authorize; simpl; [|confine].
  apply confined_bind; [|intros; confine]. apply confined_guest_read with (wr := false); [done|].
  by intros hv [_ Hg].
Qed.
#[local] Hint Resolve confined_serve_in confined_serve_out N.le_min_r : confine.

Lemma confined_blk_request P t num head : confined b P (process_blk_request b t num head).
Proof. unfold process_blk_request, backend_read_u32, backend_read_u64. confine. Qed.
#[local] Hint Resolve confined_blk_request : confine.

Lemma confined_blk_retire P num head : confined b P (blk_retire b num head).
Proof. unfold blk_retire. confine. Qed.
#[local] Hint Resolve confined_blk_retire : confine.

Lemma confined_blk_entry P num : confined b P (blk_entry b num).
Proof. unfold blk_entry, backend_read_u16. confine. Qed.
#[local] Hint Resolve confined_blk_entry : confine.

Lemma confined_blk_loop P fuel num idx : confined b P (blk_loop b fuel num idx).
Proof. induction fuel; simpl; confine. Qed.
#[local] Hint Resolve confined_blk_loop : confine.

Lemma confined_blk_notify P : confined b P (handle_virtio_blk_notify b).
Proof. unfold handle_virtio_blk_notify, backend_read_u16. confine. Qed.
#[local] Hint Resolve confined_blk_notify : confine.

Lemma confined_index {A} P (l : list A) i : confined b P (index l i).
Proof. unfold index, unwrap_opt. confine. Qed.
Lemma confined_usub P y z : confined b P (usub y z).
Proof. unfold usub. confine. Qed.
#[local] Hint Resolve confined_index confined_usub : confine.

Lemma confined_mmio P cpu esr far : confined b P (handle_mmio b cpu esr far).
Proof. unfold handle_mmio, err, ok, store_register, kick. confine. Qed.

End Devices.
