(* ===== verification/Kick.v ===== *)
(** * A kick ends

    The profile the image is built with wraps an addition that overflows; under it no access
    of a guest to a paravirtual device stops the hypervisor, the loops over a ring end, and
    the two cursors of a ring stay in step. *)

From Stdlib Require Import NArith Lia.
From stdpp Require Import base numbers list option.
From S2P Require Import Bits.
From S2P Require Import Hypervisor.
From S2P Require Import Blk.
From S2P Require Import Virtio.
From S2P Require Import Abort.
From S2P Require Import Metal.
From S2P Require Import Backend.
From S2P Require Import Confine.
From S2P Require Import Prelude.
#[local] Open Scope N_scope.

(** ** Bytes *)

Lemma bytes_app l l' : bytes_ok l -> bytes_ok l' -> bytes_ok (l ++ l').
Proof. intros H H' x [?|?]%elem_of_app; auto. Qed.

Lemma bytes_take n l : bytes_ok l -> bytes_ok (take n l).
Proof. intros H x Hx. apply H. by eapply elem_of_take in Hx as (i & Hi & _); apply list_elem_of_lookup_2 in Hi. Qed.

Lemma bytes_zeros n : bytes_ok (vrepeat n 0).
Proof. intros x Hx. apply elem_of_replicate in Hx as [-> _]. lia. Qed.

Lemma bytes_sector l : bytes_ok l -> bytes_ok (sector_of l).
Proof. intros H. apply bytes_app; [by apply bytes_take|apply bytes_zeros]. Qed.

Lemma bytes_le n y : bytes_ok (to_le_bytes n y).
Proof.
  revert y. induction n as [|n IH]; intros y z Hz; simpl in Hz; [by apply elem_of_nil in Hz|].
  apply elem_of_cons in Hz as [->|Hz]; [by apply N.mod_lt|by apply (IH (y / 256))].
Qed.

Lemma bytes_fetch m pa n : (forall a, m a < 256) -> bytes_ok (fetch m pa n).
Proof.
  intros H x [i Hi]%elem_vget. unfold fetch in Hi. rewrite vget_fmap, vget_vrange in Hi.
  case_decide; [|done]. by injection Hi as <-.
Qed.

Lemma bytes_store m pa l : (forall a, m a < 256) -> bytes_ok l -> forall a, store m pa l a < 256.
Proof.
  intros Hm Hl a. destruct (store_spec m pa l a) as [ [_ H]|[_ ->] ]; [|done].
  apply Hl. by eapply vget_elem.
Qed.

Lemma from_le_bound l : bytes_ok l -> from_le_bytes l < 256 ^ vlen l.
Proof.
  induction l as [|x l IH]; intros H; simpl; [done|].
  assert (x < 256) by (apply H; by left). assert (from_le_bytes l < 256 ^ vlen l)
    by (apply IH; intros y Hy; apply H; by right).
  replace (vlen (x :: l)) with (N.succ (vlen l)) by (unfold vlen; simpl; lia).
  rewrite N.pow_succ_r'. nia.
Qed.

(** ** What the backend leaves alone *)

Record same_devices (w w' : World) : Prop := mkSameDevices {
  sd_model : model w' = model w;
  sd_console : console w' = console w;
  sd_blk : blk w' = blk w;
  sd_active : active w' = active w;
  sd_tenant : blk_tenant w' = blk_tenant w;
  sd_allocated : allocated w' = allocated w;
  sd_bound : tenant_of w' = tenant_of w;
}.

(** Nor does it touch memory or the disk. *)
Record still (w w' : World) : Prop := mkStill {
  st_devices : same_devices w w';
  st_mem : mem w' = mem w;
  st_disk : disk w' = disk w;
}.

#[global] Instance same_devices_preorder : PreOrder same_devices.
Proof. split; [by intros w|]. intros w1 w2 w3 [ ] [ ]. constructor; congruence. Qed.
#[global] Instance still_preorder : PreOrder still.
Proof.
  split; [by intros w|]. intros w1 w2 w3 [D1 ? ?] [D2 ? ?].
  constructor; [by etrans|congruence..].
Qed.

(** The relations between the states before and after that a read of memory satisfies. *)
Class Tolerant (R : relation World) : Prop := {
  tolerant_preorder :: PreOrder R;
  tolerant_still : forall w w', still w w' -> R w w';
}.
#[global] Instance still_tolerant : Tolerant still.
Proof. split; [apply _|done]. Qed.
#[global] Instance same_devices_tolerant : Tolerant same_devices.
Proof. split; [apply _|]. by intros w w' [ ]. Qed.

Section Kick.
Context (b : Board) (Hrel : overflow_checks b = false).

(** A computation that ends and keeps the store well formed, leaves a state in relation [R]
    to the one it started in, and returns a value that satisfies [Q]. *)
Definition quiet {T} (R : relation World) (Q : T -> Prop) (c : M World T) : Prop :=
  forall w, wf_store w -> wp c (fun w' r => wf_store w' /\ R w w' /\ Q r) w.

Section Rules.
Context {R : relation World} `{!Tolerant R}.

Lemma quiet_ret {T} (Q : T -> Prop) (x : T) : Q x -> quiet R Q (ret x).
Proof. intros HQ w Hw. by apply wp_ret. Qed.

Lemma quiet_bind {T U} (Q : T -> Prop) (Q' : U -> Prop) (c : M World T) (k : T -> M World U) :
  quiet R Q c -> (forall x, Q x -> quiet R Q' (k x)) -> quiet R Q' (bind c k).
Proof.
  intros Hc Hk w Hw. wp_step. wp_apply Hc; [done|]. intros w' x (Hw' & Hs & Hx).
  wp_apply (Hk x Hx); [done|]. intros w'' y (Hw'' & Hs' & Hy). split_and!; [done|by etrans|done].
Qed.

Lemma quiet_mono {T} (Q Q' : T -> Prop) (c : M World T) :
  quiet R Q c -> (forall x, Q x -> Q' x) -> quiet R Q' c.
Proof. intros Hc HQ w Hw. wp_apply Hc; [done|]. naive_solver. Qed.

Lemma quiet_get {T} (Q : T -> Prop) (k : World -> M World T) :
  (forall w, wf_store w -> wp (k w) (fun w' r => wf_store w' /\ R w w' /\ Q r) w) ->
  quiet R Q (bind get k).
Proof. intros Hk w Hw. wp_step. wp_step. by apply Hk. Qed.

Lemma quiet_modify (f : World -> World) :
  (forall w, wf_store w -> wf_store (f w)) -> (forall w, R w (f w)) ->
  quiet R (fun _ => True) (modify f).
Proof. intros Hf Hs w Hw. wp_step. split_and!; auto. Qed.

Lemma quiet_uplus y z : quiet R (fun _ => True) (uplus b y z).
Proof. unfold uplus. rewrite Hrel. case_decide; by apply quiet_ret. Qed.

Lemma quiet_say r : quiet R (fun _ => True) (say r).
Proof. apply quiet_modify; [by intros w [ ]|]. intros w. by apply tolerant_still. Qed.
Lemma quiet_put y : quiet R (fun _ => True) (put y).
Proof. apply quiet_modify; [by intros w [ ]|]. intros w. by apply tolerant_still. Qed.

Lemma quiet_for_each {X} (l : list X) (f : X -> M World unit) :
  (forall x, quiet R (fun _ => True) (f x)) -> quiet R (fun _ => True) (for_each l f).
Proof. intros Hf. induction l; simpl; [by apply quiet_ret|]. by eapply quiet_bind. Qed.

Lemma quiet_authorize gpa n wr : quiet R (fun _ => True) (backend_authorize b gpa n wr).
Proof.
  intros w Hw. unfold wp. rewrite authorize_gate. destruct (gate b (model w) gpa n wr) eqn:Hg; [done| |].
  - split_and!; [by destruct Hw|by apply tolerant_still|done].
  - exfalso. revert Hg. unfold gate, uplus. rewrite Hrel. destruct (gpa_to_mfn gpa); [|done].
    case_decide; cbn; repeat case_match; done.
Qed.

Lemma quiet_read gpa n :
  quiet R (fun o => forall l, o = Some l -> vlen l = n /\ bytes_ok l) (backend_read b gpa n).
Proof.
  eapply quiet_bind; [apply quiet_authorize|]. intros [|] _; [|by apply quiet_ret].
  eapply quiet_bind with (Q := fun r => forall l, r = Ok l -> vlen l = n /\ bytes_ok l).
  - intros w Hw. unfold guest_read. wp_step. apply wp_lift; [|by intros].
    intros pa _. wp_step. wp_step. wp_step. split_and!; [done|done|].
    intros l [= <-]. split; [apply vlen_fetch|]. apply bytes_fetch, Hw.
  - intros r Hr. apply quiet_ret. intros l Hl. apply Hr. destruct r; [|done]. congruence.
Qed.

(** A word of the ring fits its width. *)
Lemma quiet_word n gpa :
  quiet R (fun o => forall v, o = Some v -> v < 256 ^ n)
    (let! o := backend_read b gpa n in ret (from_le_bytes <$> o)).
Proof.
  eapply quiet_bind; [apply quiet_read|]. intros o Ho. apply quiet_ret. intros v Hv.
  apply fmap_Some in Hv as (l & -> & ->). destruct (Ho l eq_refl) as [Hl Hb].
  rewrite <- Hl. by apply from_le_bound.
Qed.

Lemma quiet_obind {T U} (Q : T -> Prop) (m : M World (option T)) (k : T -> M World (option U)) :
  quiet R (fun o => forall x, o = Some x -> Q x) m -> (forall x, quiet R (fun _ => True) (k x)) ->
  quiet R (fun _ => True) (obind m k).
Proof.
  intros Hm Hk. eapply quiet_bind; [exact Hm|]. intros [x|] _; [apply Hk|by apply quiet_ret].
Qed.

Lemma quiet_drain a n : quiet R (fun _ => True) (backend_drain_to_console b a n).
Proof.
  unfold backend_drain_to_console. eapply quiet_bind; [apply quiet_read|].
  intros [l|] _; [|by apply quiet_ret]. eapply quiet_bind; [apply quiet_say|]. intros _ _.
  eapply quiet_bind; [apply quiet_for_each, quiet_put|]. intros _ _. by apply quiet_ret.
Qed.

Lemma quiet_desc t i num : quiet R (fun _ => True) (backend_read_desc b t i num).
Proof.
  unfold backend_read_desc. destruct (num <=? i); [by apply quiet_ret|].
  eapply quiet_bind; [apply quiet_uplus|]. intros d _.
  do 3 (eapply quiet_obind; [apply quiet_word|]; intros ?;
        eapply quiet_bind; [apply quiet_uplus|]; intros ? _).
  eapply quiet_obind; [apply quiet_word|]. intros ?. by apply quiet_ret.
Qed.

Lemma quiet_echo l : quiet R (fun _ => True) (echo l).
Proof.
  induction l as [|y l IH]; simpl; [by apply quiet_ret|]. destruct (y =? 0); [by apply quiet_ret|].
  eapply quiet_bind; [apply quiet_put|]. by intros.
Qed.

(** The disk: a sector is read and written whole. *)
Lemma quiet_disk_read (t s : N) : t < N_TENANTS -> s < DISK_SECTORS ->
  quiet R (fun l => vlen l = SECTOR_SIZE /\ bytes_ok l) (zoom disk_l (Blk.read t s)).
Proof.
  intros Ht Hs w Hw. wp_step. destruct (read_run _ (ws_disk _ Hw) t s Ht Hs) as (l & E & Hl & Hv).
  unfold wp. simpl. rewrite E. split_and!; [by destruct Hw|by apply tolerant_still|done|].
  destruct (ws_bytes _ Hw) as [H1 H2]. destruct (private (disk w) t s) eqn:Hp.
  - injection Hv as ->. by eapply H2.
  - symmetry in Hv. by eapply H1.
Qed.

End Rules.

Lemma quiet_write gpa buf : bytes_ok buf -> quiet same_devices (fun _ => True) (backend_write b gpa buf).
Proof.
  intros Hbuf. eapply quiet_bind; [apply quiet_authorize|]. intros [|] _; [|by apply quiet_ret].
  eapply quiet_bind with (Q := fun _ => True); [|intros; by apply quiet_ret].
  intros w Hw. unfold guest_write. wp_step. apply wp_lift; [|done].
  intros pa _. wp_step. wp_step. wp_step. split_and!; [|done..].
  destruct Hw as [ ]. constructor; try done. by apply bytes_store.
Qed.

Lemma quiet_disk_write (t s : N) bytes : t < N_TENANTS -> s < DISK_SECTORS -> bytes_ok bytes ->
  quiet same_devices (fun _ => True) (zoom disk_l (Blk.write t s bytes)).
Proof.
  intros Ht Hs Hbs w Hw. wp_step.
  destruct (write_run _ (ws_disk _ Hw) t s bytes Ht Hs) as (d & E & Hd & Htp & Hp).
  unfold wp. simpl in E |- *. rewrite E. split_and!; [|done..].
  destruct Hw as [_ [H1 H2] Hm Hten]. constructor; simpl; try done. split; [by rewrite Htp|].
  intros t' s' l Ht' Hs' Hl. rewrite Hp in Hl by done. simpl in Hl. case_decide.
  - injection Hl as <-. by apply bytes_sector.
  - by eapply H2.
Qed.

Lemma quiet_serve_in t s gpa n : t < N_TENANTS -> s < DISK_SECTORS ->
  quiet same_devices (fun st => st < 256) (serve_in b t s gpa n).
Proof.
  intros Ht Hs. eapply quiet_bind; [apply quiet_authorize|]. intros [|] _; simpl.
  - eapply quiet_bind; [by apply quiet_disk_read|]. intros l [_ Hl].
    eapply quiet_bind with (Q := fun _ => True).
    + intros w Hw. unfold guest_write. wp_step. apply wp_lift; [|done].
      intros pa _. wp_step. wp_step. wp_step. split_and!; [|done..].
      destruct Hw as [ ]. constructor; try done. simpl. apply bytes_store; [done|by apply bytes_take].
    + intros r _. destruct (is_ok r); [|by apply quiet_ret].
      eapply quiet_bind; [apply quiet_say|]. intros _ _.
      eapply quiet_bind; [apply quiet_echo|]. intros _ _. by apply quiet_ret.
  - eapply quiet_bind with (Q := fun _ => True); [by apply quiet_modify; [intros w [ ]|]|].
    intros. by apply quiet_ret.
Qed.

Lemma quiet_serve_out t s gpa n : t < N_TENANTS -> s < DISK_SECTORS ->
  quiet same_devices (fun st => st < 256) (serve_out b t s gpa n).
Proof.
  intros Ht Hs. eapply quiet_bind; [apply quiet_authorize|]. intros [|] _; simpl.
  - eapply quiet_bind with (Q := fun r => forall l, r = Ok l -> bytes_ok l).
    + intros w Hw. unfold guest_read. wp_step. apply wp_lift; [|by intros].
      intros pa _. wp_step. wp_step. wp_step. split_and!; [done|done|].
      intros l [= <-]. apply bytes_fetch, Hw.
    + intros [l|e] Hl; [|by apply quiet_ret].
      eapply quiet_bind; [by apply quiet_disk_write; [..|apply Hl]|]. intros _ _.
      eapply quiet_bind; [apply quiet_say|]. intros _ _. by apply quiet_ret.
  - eapply quiet_bind with (Q := fun _ => True); [by apply quiet_modify; [intros w [ ]|]|].
    intros. by apply quiet_ret.
Qed.

Lemma bytes_one st : st < 256 -> bytes_ok [st].
Proof. by intros H y ->%list_elem_of_singleton. Qed.

Lemma quiet_request t num head : quiet same_devices (fun _ => True) (process_blk_request b t num head).
Proof.
  apply quiet_get. intros w Hw. pose proof (ws_tenant _ Hw) as Hten.
  refine ((_ : quiet same_devices (fun _ => True) _) w Hw). generalize (blk_tenant w) Hten. clear w Hw Hten.
  intros ten Hten. cbv zeta.
  eapply quiet_bind; [apply quiet_desc|]. intros [d0|] _; [|by apply quiet_ret].
  destruct (_ || _); [apply quiet_say|].
  eapply quiet_bind; [apply quiet_word|]. intros typ _.
  eapply quiet_bind; [apply quiet_uplus|]. intros a _.
  eapply quiet_bind; [apply quiet_word|]. intros sector _.
  destruct typ as [typ|]; [|by apply quiet_ret]. destruct sector as [sector|]; [|by apply quiet_ret].
  eapply quiet_bind; [apply quiet_desc|]. intros [d1|] _; [|by apply quiet_ret].
  destruct (_ =? 0); [apply quiet_say|].
  eapply quiet_bind; [apply quiet_desc|]. intros [d2|] _; [|by apply quiet_ret].
  eapply quiet_bind with (Q := fun st => st < 256).
  - destruct (N.leb_spec DISK_SECTORS sector) as [|Hs]; simpl; [by apply quiet_ret|].
    case_match; [by apply quiet_ret|].
    case_match; [by apply quiet_serve_in|]. case_match; [by apply quiet_serve_out|].
    by apply quiet_ret.
  - intros st Hst. eapply quiet_bind; [by apply quiet_write, bytes_one|]. intros _ _.
    by apply quiet_ret.
Qed.

(** Run a step that changes nothing. *)
Ltac still_step H :=
  wp_step; wp_apply H; [assumption|];
  let w := fresh "w" in let r := fresh "r" in let Hw := fresh "Hw" in let Hs := fresh "Hs" in
  intros w r (Hw & Hs & _).

(** *** The effect of a request *)

Definition effect {T} (tenant : N) (st : T -> N) (w w' : World) (r : T) : Prop :=
  wf_store w' /\ same_devices w w' /\
  served tenant (mem w) (disk w) (st r) (mem w') (disk w').

Lemma still_error tenant w w' : wf_store w' -> still w w' ->
  effect tenant (fun st => st) w w' VIRTIO_BLK_S_IOERR.
Proof. intros Hw [Hs Hm Hd]. split_and!; [done..|]. rewrite Hm, Hd. constructor. Qed.

Lemma serve_in_effect t s gpa n w : wf_store w -> t < N_TENANTS -> s < DISK_SECTORS ->
  wp (serve_in b t s gpa n) (effect t (fun st => st) w) w.
Proof.
  intros Hw Ht Hs. unfold serve_in. wp_step. wp_apply (quiet_authorize (R := still)); [done|].
  intros w1 [|] (Hw1 & Hst & _); simpl.
  - wp_step. wp_step. destruct (read_run _ (ws_disk _ Hw1) t s Ht Hs) as (l & El & Hl & Hv).
    eapply wp_of_Done; [exact El|]. wp_step.
    assert (Hb : bytes_ok l).
    { destruct (ws_bytes _ Hw1) as [H1 H2]. destruct (private (disk w1) t s) eqn:Hp.
      - injection Hv as ->. by eapply H2.
      - symmetry in Hv. by eapply H1. }
    unfold guest_write. wp_step. apply wp_lift.
    + intros pa _. wp_step. wp_step. wp_step. set (w2 := lset mem_l _ _).
      assert (Hw2 : wf_store w2).
      { destruct Hw1. constructor; try done. simpl. apply bytes_store; [done|by apply bytes_take]. }
      simpl. wp_step. wp_apply (quiet_say (R := still)); [done|]. intros w3 _ (Hw3 & Hs3 & _).
      wp_step. wp_apply (quiet_echo (R := still)); [done|]. intros w4 _ (Hw4 & Hs4 & _). wp_step.
      assert (H4 : still w2 w4) by (by etrans). destruct H4 as [D4 M4 K4], Hst as [D1 M1 K1].
      split_and!; [done| |].
      * etrans; [exact D1|]. etrans; [|exact D4]. by constructor.
      * rewrite M4, K4. simpl. rewrite M1, K1. rewrite K1 in El. by econstructor.
    + intros e _. simpl. wp_step. apply still_error; [by destruct Hw1|].
      etrans; [exact Hst|by constructor].
  - wp_step. wp_step. wp_step. apply still_error; [by destruct Hw1|]. etrans; [exact Hst|by constructor].
Qed.

Lemma serve_out_effect t s gpa n w : wf_store w -> t < N_TENANTS -> s < DISK_SECTORS ->
  n <= SECTOR_SIZE -> wp (serve_out b t s gpa n) (effect t (fun st => st) w) w.
Proof.
  intros Hw Ht Hs Hn. unfold serve_out. wp_step. wp_apply (quiet_authorize (R := still)); [done|].
  intros w1 [|] (Hw1 & Hst & _); simpl.
  - wp_step. unfold guest_read. wp_step. apply wp_lift.
    + intros pa _. wp_step. wp_step. wp_step. wp_step.
      assert (Hb : bytes_ok (fetch (mem w1) pa n)) by apply bytes_fetch, Hw1.
      destruct (wp_Done _ _ _ (quiet_disk_write t s _ Ht Hs Hb w1 Hw1)) as (w2 & [] & E & Hw2 & Hd2 & _).
      eapply wp_of_Done; [exact E|].
      destruct (write_run _ (ws_disk _ Hw1) t s (fetch (mem w1) pa n) Ht Hs) as (d' & Ed & _).
      unfold zoom in E. simpl in E, Ed. rewrite Ed in E. injection E as E.
      wp_step. wp_apply (quiet_say (R := still)); [done|]. intros w3 _ (Hw3 & [D3 M3 K3] & _). wp_step.
      destruct Hst as [D1 M1 K1]. split_and!; [done|by etrans; [|etrans]|].
      rewrite M3, K3, <- E. simpl. rewrite M1 in Ed |- *. rewrite K1 in Ed. by econstructor.
    + intros e _. wp_step. apply still_error; [by destruct Hw1|].
      etrans; [exact Hst|by constructor].
  - wp_step. wp_step. wp_step. apply still_error; [by destruct Hw1|]. etrans; [exact Hst|by constructor].
Qed.

(** The whole request: the transfer, then the status byte if the chain ends in one. *)
Definition settled (tenant : N) (w w' : World) : Prop :=
  same_devices w w' /\
  ((mem w' = mem w /\ disk w' = disk w) \/
   exists st m, served tenant (mem w) (disk w) st m (disk w') /\
     (mem w' = m \/ exists pa, mem w' = store m pa [st])).

Lemma still_settled t w w' : still w w' -> settled t w w'.
Proof. intros [Hs Hm Hd]. split; [done|by left]. Qed.

Lemma served_byte t m d st m' d' : served t m d st m' d' -> st < 256.
Proof. by destruct 1. Qed.

(** The last step: the status byte is written, or refused. *)
Lemma status_settled t w w1 st gpa : effect t (fun st => st) w w1 st ->
  wp (let! _ := backend_write b gpa [st] in ret tt) (fun w' _ => settled t w w') w1.
Proof.
  intros (Hw1 & Hd1 & Hs). wp_step. unfold backend_write. wp_step.
  wp_apply (quiet_authorize (R := still)); [done|]. intros w2 [|] (Hw2 & [D2 M2 K2] & _).
  - wp_step. unfold guest_write. wp_step. apply wp_lift.
    + intros pa _. do 5 wp_step. split; [etrans; [exact Hd1|etrans; [exact D2|by constructor] ]|].
      right. exists st, (mem w1). simpl. rewrite K2. split; [done|]. right. exists pa. by rewrite M2.
    + intros e _. do 2 wp_step. split; [by etrans|]. right. exists st, (mem w1).
      rewrite K2. split; [done|by left].
  - do 2 wp_step. split; [by etrans|]. right. exists st, (mem w1). rewrite K2. split; [done|by left].
Qed.

Lemma request_run t num head w : wf_store w ->
  wp (process_blk_request b t num head) (fun w' _ => settled (blk_tenant w) w w') w.
Proof.
  intros Hw. pose proof (ws_tenant _ Hw) as Hten.
  unfold process_blk_request. wp_step. wp_step. cbv zeta. set (ten := blk_tenant w) in *.
  still_step (quiet_desc (R := still) t head num).
  destruct r as [d0|]; [|by wp_step; apply still_settled].
  assert (Hsay : forall r w', wf_store w' -> still w w' -> wp (say r) (fun w' _ => settled ten w w') w').
  { intros r w' Hw' Hs'. wp_apply (quiet_say (R := still)); [done|]. intros w'' _ (_ & Hs'' & _).
    apply still_settled. by etrans. }
  destruct (_ || _); [by apply Hsay|].
  still_step (quiet_word (R := still) 4). still_step (quiet_uplus (R := still)).
  still_step (quiet_word (R := still) 8).
  assert (H3 : still w w3) by (repeat (etrans; [eassumption|]); done). clear Hs Hs0 Hs1 Hs2.
  destruct r as [typ|]; [|by wp_step; apply still_settled].
  destruct r1 as [sector|]; [|by wp_step; apply still_settled].
  still_step (quiet_desc (R := still) t (next d0) num).
  assert (H4 : still w w4) by (by etrans).
  destruct r as [d1|]; [|by wp_step; apply still_settled].
  destruct (_ =? 0); [by apply Hsay|].
  still_step (quiet_desc (R := still) t (next d1) num).
  assert (H5 : still w w5) by (by etrans). clear H3 H4 Hs Hs0.
  destruct r as [d2|]; [|by wp_step; apply still_settled].
  wp_step. apply wp_mono with (Q := effect ten (fun st => st) w); [|intros; by apply status_settled].
  assert (Hmono : forall (c : M World N), wp c (effect ten (fun st => st) w5) w5 ->
    wp c (effect ten (fun st => st) w) w5).
  { intros c Hc. wp_apply Hc. intros w' st (Hw' & Hd' & Hsv). destruct H5 as [D5 M5 K5].
    rewrite M5, K5 in Hsv. split_and!; [done|by etrans|done]. }
  destruct (N.leb_spec DISK_SECTORS sector) as [|Hsec]; simpl; [wp_step; by apply still_error|].
  case_match; [wp_step; by apply still_error|].
  case_match; [by apply Hmono, serve_in_effect|].
  case_match; [|wp_step; by apply still_error].
  apply Hmono, serve_out_effect; [done..|apply N.le_min_r].
Qed.

(** *** The cursors *)

(** What an entry does to the registers of the console, and of the block device. *)
Definition advanced (d d' : VirtioConsole) : Prop :=
  d' = set_last_avail_idx (wrapping_inc16 (last_avail_idx d))
         (set_used_idx (wrapping_inc16 (used_idx d)) d).
Definition blk_advanced (d d' : VirtioBlk) : Prop :=
  d' = Blk.set_last_avail_idx (wrapping_inc16 (Blk.last_avail_idx d))
         (Blk.set_used_idx (wrapping_inc16 (Blk.used_idx d)) d).

Record elsewhere (w w' : World) : Prop := mkElsewhere {
  el_model : model w' = model w;
  el_active : active w' = active w;
  el_tenant : blk_tenant w' = blk_tenant w;
  el_allocated : allocated w' = allocated w;
  el_bound : tenant_of w' = tenant_of w;
}.

#[global] Instance elsewhere_preorder : PreOrder elsewhere.
Proof. split; [by intros w|]. intros w1 w2 w3 [ ] [ ]. constructor; congruence. Qed.

Lemma same_elsewhere w w' : same_devices w w' -> elsewhere w w'.
Proof. by intros [ ]. Qed.

Lemma wf_store_console w d : wf_store w -> wf_store (lset console_l d w).
Proof. by intros [ ]. Qed.
Lemma wf_store_blk w d : wf_store w -> wf_store (lset blk_l d w).
Proof. by intros [ ]. Qed.

(** Run a quiet step and collect what it leaves alone. *)
Ltac quiet_step H :=
  wp_step; wp_apply H; [assumption|];
  let w := fresh "w" in let r := fresh "r" in let Hw := fresh "Hw" in let Hs := fresh "Hs" in
  let Hr := fresh "Hr" in intros w r (Hw & Hs & Hr).

Lemma console_retire_run num head n w : wf_store w ->
  wp (console_retire b num head n) (fun w' _ => wf_store w' /\ elsewhere w w' /\ blk w' = blk w /\
    console w' = set_used_idx (wrapping_inc16 (used_idx (console w))) (console w)) w.
Proof.
  intros Hw. unfold console_retire. wp_step. wp_step. cbv zeta.
  quiet_step quiet_uplus. quiet_step quiet_uplus.
  quiet_step (quiet_write r0 (to_le_bytes 4 head) (bytes_le _ _)). quiet_step quiet_uplus.
  quiet_step (quiet_write r2 (to_le_bytes 4 n) (bytes_le _ _)).
  wp_step. wp_step. set (w5 := lset console_l _ _).
  assert (Hw5 : wf_store w5) by (by apply wf_store_console).
  wp_step. wp_step. quiet_step quiet_uplus.
  quiet_step (quiet_write r4 (to_le_bytes 2 (used_idx (console w5))) (bytes_le _ _)).
  wp_step.
  assert (H1 : same_devices w w4) by (repeat (etrans; [eassumption|]); done).
  assert (H2 : same_devices w5 w7) by (etrans; eassumption).
  destruct H1 as [M1 C1 B1 A1 T1 L1 O1], H2 as [M2 C2 B2 A2 T2 L2 O2]. simpl in M2, C2, B2, A2, T2, L2, O2.
  split_and!; [done|constructor; congruence|congruence|]. by rewrite C2, C1.
Qed.

Lemma blk_retire_run num head w : wf_store w ->
  wp (blk_retire b num head) (fun w' _ => wf_store w' /\ elsewhere w w' /\ console w' = console w /\
    blk w' = Blk.set_used_idx (wrapping_inc16 (Blk.used_idx (blk w))) (blk w)) w.
Proof.
  intros Hw. unfold blk_retire. wp_step. wp_step. cbv zeta.
  quiet_step quiet_uplus. quiet_step quiet_uplus.
  quiet_step (quiet_write r0 (to_le_bytes 4 head) (bytes_le _ _)). quiet_step quiet_uplus.
  quiet_step (quiet_write r2 (to_le_bytes 4 0) (bytes_le _ _)).
  wp_step. wp_step. set (w5 := lset blk_l _ _).
  assert (Hw5 : wf_store w5) by (by apply wf_store_blk).
  wp_step. wp_step. quiet_step quiet_uplus.
  quiet_step (quiet_write r4 (to_le_bytes 2 (Blk.used_idx (blk w5))) (bytes_le _ _)).
  wp_step.
  assert (H1 : same_devices w w4) by (repeat (etrans; [eassumption|]); done).
  assert (H2 : same_devices w5 w7) by (etrans; eassumption).
  destruct H1 as [M1 C1 B1 A1 T1 L1 O1], H2 as [M2 C2 B2 A2 T2 L2 O2]. simpl in M2, C2, B2, A2, T2, L2, O2.
  split_and!; [done|constructor; congruence|congruence|]. by rewrite B2, B1.
Qed.

Lemma console_entry_run num w : wf_store w ->
  wp (console_entry b num) (fun w' more => wf_store w' /\ elsewhere w w' /\ blk w' = blk w /\
    if more : bool then advanced (console w) (console w') else console w' = console w) w.
Proof.
  intros Hw. unfold console_entry. wp_step. wp_step. cbv zeta.
  quiet_step quiet_uplus. quiet_step quiet_uplus. quiet_step (quiet_word 2).
  assert (H1 : same_devices w w2) by (repeat (etrans; [eassumption|]); done).
  destruct r1 as [head|]; [|wp_step; destruct H1; split_and!; [done|by constructor|done|done] ].
  quiet_step quiet_uplus. quiet_step (quiet_word 8). quiet_step quiet_uplus. quiet_step (quiet_word 4).
  assert (H2 : same_devices w w6) by (repeat (etrans; [eassumption|]); done).
  destruct r2 as [addr|]; [|wp_step; destruct H2; split_and!; [done|by constructor|done|done] ].
  destruct r4 as [len|]; [|wp_step; destruct H2; split_and!; [done|by constructor|done|done] ].
  quiet_step quiet_drain. wp_step. wp_apply console_retire_run; [done|].
  intros w8 [] (Hw8 & He & Hbk & Hc). wp_step. wp_step. wp_step.
  assert (H3 : same_devices w w7) by (etrans; eassumption). destruct H3 as [M C B A T L O].
  split_and!; [by apply wf_store_console| |simpl; congruence|].
  - destruct He as [M' A' T' L' O']. constructor; simpl; congruence.
  - unfold advanced. simpl. by rewrite Hc, C.
Qed.

Lemma blk_entry_run num w : wf_store w ->
  wp (blk_entry b num) (fun w' more => wf_store w' /\ elsewhere w w' /\ console w' = console w /\
    if more : bool then blk_advanced (blk w) (blk w') else blk w' = blk w) w.
Proof.
  intros Hw. unfold blk_entry. wp_step. wp_step. cbv zeta.
  quiet_step quiet_uplus. quiet_step quiet_uplus. quiet_step (quiet_word 2).
  assert (H1 : same_devices w w2) by (repeat (etrans; [eassumption|]); done).
  destruct r1 as [head|]; [|wp_step; destruct H1; split_and!; [done|by constructor|done|done] ].
  quiet_step quiet_request. wp_step. wp_apply blk_retire_run; [done|].
  intros w8 [] (Hw8 & He & Hbk & Hc). wp_step. wp_step. wp_step.
  assert (H3 : same_devices w w3) by (etrans; eassumption). destruct H3 as [M C B A T L O].
  split_and!; [by apply wf_store_blk| |simpl; congruence|].
  - destruct He as [M' A' T' L' O']. constructor; simpl; congruence.
  - unfold blk_advanced. simpl. by rewrite Hc, B.
Qed.

(** *** The loops *)

(** [k] buffers have been retired: both cursors of the ring have advanced by [k]. *)
Definition moved (k : N) (d d' : VirtioConsole) : Prop :=
  d' = set_last_avail_idx (as_u16 (last_avail_idx d + k)) (set_used_idx (as_u16 (used_idx d + k)) d).
Definition blk_moved (k : N) (d d' : VirtioBlk) : Prop :=
  d' = Blk.set_last_avail_idx (as_u16 (Blk.last_avail_idx d + k))
         (Blk.set_used_idx (as_u16 (Blk.used_idx d + k)) d).

Lemma as_u16_step x k : as_u16 (wrapping_inc16 x + k) = as_u16 (x + N.succ k).
Proof.
  unfold wrapping_inc16, as_u16. rewrite N.Div0.add_mod_idemp_l. f_equal. lia.
Qed.

Lemma moved_0 d : used_idx d < 65536 -> last_avail_idx d < 65536 -> moved 0 d d.
Proof.
  intros Hu Hl. unfold moved, as_u16. rewrite !N.add_0_r, !N.mod_small by done. by destruct d.
Qed.
Lemma blk_moved_0 d : Blk.used_idx d < 65536 -> Blk.last_avail_idx d < 65536 -> blk_moved 0 d d.
Proof.
  intros Hu Hl. unfold blk_moved, as_u16. rewrite !N.add_0_r, !N.mod_small by done. by destruct d.
Qed.

Lemma moved_step k d d1 d2 : advanced d d1 -> moved k d1 d2 -> moved (N.succ k) d d2.
Proof. unfold advanced, moved. intros -> ->. simpl. by rewrite !as_u16_step. Qed.
Lemma blk_moved_step k d d1 d2 : blk_advanced d d1 -> blk_moved k d1 d2 -> blk_moved (N.succ k) d d2.
Proof. unfold blk_advanced, blk_moved. intros -> ->. simpl. by rewrite !as_u16_step. Qed.

(** The distance to the index of the driver shrinks by one with every entry. *)
Lemma pending_spec idx last : idx < 65536 -> last < 65536 ->
  N.of_nat (pending idx last) = if decide (last <= idx) then idx - last else idx + 65536 - last.
Proof.
  intros Hi Hl. unfold pending, as_u16. rewrite N2Nat.id. case_decide as H.
  - replace (idx + 65536 - last) with (idx - last + 1 * 65536) by lia.
    rewrite N.Div0.mod_add. apply N.mod_small. lia.
  - apply N.mod_small. lia.
Qed.

Lemma inc16_spec x : x < 65536 -> wrapping_inc16 x = if decide (x = 65535) then 0 else x + 1.
Proof.
  intros Hx. unfold wrapping_inc16, as_u16. case_decide; [by subst|]. apply N.mod_small. lia.
Qed.

Lemma pending_step idx last : idx < 65536 -> last < 65536 -> last <> idx ->
  pending idx last = S (pending idx (wrapping_inc16 last)).
Proof.
  intros Hi Hl Hne. apply Nat2N.inj. rewrite Nat2N.inj_succ, (inc16_spec last Hl).
  rewrite !pending_spec by (repeat case_decide; lia). repeat case_decide; lia.
Qed.

Lemma console_loop_run num idx : idx < 65536 -> forall fuel w, wf_store w ->
  used_idx (console w) < 65536 -> last_avail_idx (console w) < 65536 ->
  fuel = pending idx (last_avail_idx (console w)) ->
  wp (console_loop b fuel num idx) (fun w' finished => wf_store w' /\ elsewhere w w' /\
    blk w' = blk w /\ exists k, k <= N.of_nat fuel /\ moved k (console w) (console w') /\
    (finished = true -> last_avail_idx (console w') = idx)) w.
Proof.
  intros Hi. induction fuel as [|fuel IH]; intros w Hw Hu Hl Hf.
  all: simpl; wp_step; wp_step; destruct (N.eqb_spec (last_avail_idx (console w)) idx) as [E|Hne].
  all: try (wp_step; split_and!; [done..|]; exists 0; split_and!; [lia|by apply moved_0|done]).
  - exfalso. rewrite pending_step in Hf by done. done.
  - wp_step. wp_apply console_entry_run; [done|]. intros w1 [|] (Hw1 & He1 & Hb1 & Ha1).
    + rewrite pending_step in Hf by done. injection Hf as Hf.
      assert (H16 : forall x, wrapping_inc16 x < 65536) by (intros; by apply N.mod_lt).
      wp_apply (IH w1); [done|rewrite Ha1; apply H16|rewrite Ha1; apply H16|by rewrite Ha1|].
      intros w2 fin (Hw2 & He2 & Hb2 & k & Hk & Hm & Hfin).
      split_and!; [done|by etrans|congruence|]. exists (N.succ k).
      split_and!; [lia|by eapply moved_step|done].
    + wp_step. split_and!; [done..|]. exists 0. rewrite Ha1. split_and!; [lia|by apply moved_0|done].
Qed.

Lemma blk_loop_run num idx : idx < 65536 -> forall fuel w, wf_store w ->
  Blk.used_idx (blk w) < 65536 -> Blk.last_avail_idx (blk w) < 65536 ->
  fuel = pending idx (Blk.last_avail_idx (blk w)) ->
  wp (blk_loop b fuel num idx) (fun w' finished => wf_store w' /\ elsewhere w w' /\
    console w' = console w /\ exists k, k <= N.of_nat fuel /\ blk_moved k (blk w) (blk w') /\
    (finished = true -> Blk.last_avail_idx (blk w') = idx)) w.
Proof.
  intros Hi. induction fuel as [|fuel IH]; intros w Hw Hu Hl Hf.
  all: simpl; wp_step; wp_step; destruct (N.eqb_spec (Blk.last_avail_idx (blk w)) idx) as [E|Hne].
  all: try (wp_step; split_and!; [done..|]; exists 0; split_and!; [lia|by apply blk_moved_0|done]).
  - exfalso. rewrite pending_step in Hf by done. done.
  - wp_step. wp_apply blk_entry_run; [done|]. intros w1 [|] (Hw1 & He1 & Hb1 & Ha1).
    + rewrite pending_step in Hf by done. injection Hf as Hf.
      assert (H16 : forall x, wrapping_inc16 x < 65536) by (intros; by apply N.mod_lt).
      wp_apply (IH w1); [done|rewrite Ha1; apply H16|rewrite Ha1; apply H16|by rewrite Ha1|].
      intros w2 fin (Hw2 & He2 & Hb2 & k & Hk & Hm & Hfin).
      split_and!; [done|by etrans|congruence|]. exists (N.succ k).
      split_and!; [lia|by eapply blk_moved_step|done].
    + wp_step. split_and!; [done..|]. exists 0. rewrite Ha1. split_and!; [lia|by apply blk_moved_0|done].
Qed.

(** A kick of the console: some number of buffers is retired, and the interrupt is raised
    exactly when the ring has been emptied. *)
Definition kicked (d d' : VirtioConsole) : Prop :=
  exists k, k < 65536 /\ (moved k d d' \/
    exists d1, moved k d d1 /\ d' = set_interrupt_status (N.lor (interrupt_status d1) 1) d1).
Definition blk_kicked (d d' : VirtioBlk) : Prop :=
  exists k, k < 65536 /\ (blk_moved k d d' \/
    exists d1, blk_moved k d d1 /\ d' = Blk.set_interrupt_status (N.lor (Blk.interrupt_status d1) 1) d1).

Lemma pending_bound idx last : N.of_nat (pending idx last) < 65536.
Proof. unfold pending, as_u16. rewrite N2Nat.id. by apply N.mod_lt. Qed.

Lemma virtio_notify_run w : wf_world w ->
  wp (handle_virtio_notify b) (fun w' _ => wf_store w' /\ elsewhere w w' /\ blk w' = blk w /\
    kicked (console w) (console w')) w.
Proof.
  intros [Hw Hc _]. pose proof (wf_used_idx _ Hc) as Hu. pose proof (wf_last_avail_idx _ Hc) as Hl.
  assert (H0 : kicked (console w) (console w)) by (exists 0; split; [done|left; by apply moved_0]).
  unfold handle_virtio_notify. wp_step. wp_step. cbv zeta.
  destruct (negb (queue_live (console w))).
  { wp_apply (quiet_say (R := same_devices)); [done|]. intros w' _ (Hw' & [ ] & _). rewrite sd_console0.
    split_and!; [done|by constructor|done..]. }
  case_match; [wp_step; by split_and!|].
  quiet_step quiet_uplus. quiet_step (quiet_word 2).
  assert (H1 : same_devices w w1) by (etrans; eassumption). destruct H1 as [M C B A T L O].
  destruct r0 as [idx|]; [|wp_step; rewrite C; split_and!; [done|by constructor|done..] ].
  wp_step. wp_apply (console_loop_run (as_u16 (queue_num (console w))) idx);
    [by apply Hr0|done|by rewrite C|by rewrite C|by rewrite C|].
  intros w2 fin (Hw2 & [M2 A2 T2] & B2 & k & Hk & Hm & _).
  pose proof (pending_bound idx (last_avail_idx (console w))). rewrite C in Hm.
  destruct fin.
  - wp_step. wp_step. wp_step. simpl. split_and!; [by destruct Hw2|constructor; simpl; congruence|congruence|].
    exists k. split; [lia|right]. by exists (console w2).
  - wp_step. split_and!; [done|constructor; congruence|congruence|]. exists k. split; [lia|by left].
Qed.

Lemma blk_notify_run w : wf_world w ->
  wp (handle_virtio_blk_notify b) (fun w' _ => wf_store w' /\ elsewhere w w' /\ console w' = console w /\
    blk_kicked (blk w) (blk w')) w.
Proof.
  intros [Hw _ Hc]. pose proof (wf_used_idx _ Hc) as Hu. pose proof (wf_last_avail_idx _ Hc) as Hl.
  simpl in Hu, Hl.
  assert (H0 : blk_kicked (blk w) (blk w)) by (exists 0; split; [done|left; by apply blk_moved_0]).
  unfold handle_virtio_blk_notify. wp_step. wp_step. cbv zeta.
  destruct (negb (Blk.queue_live (blk w))).
  { wp_apply (quiet_say (R := same_devices)); [done|]. intros w' _ (Hw' & [ ] & _). rewrite sd_blk0.
    split_and!; [done|by constructor|done..]. }
  case_match; [wp_step; by split_and!|].
  quiet_step quiet_uplus. quiet_step (quiet_word 2).
  assert (H1 : same_devices w w1) by (etrans; eassumption). destruct H1 as [M C B A T L O].
  destruct r0 as [idx|]; [|wp_step; rewrite B; split_and!; [done|by constructor|done..] ].
  wp_step. wp_apply (blk_loop_run (as_u16 (Blk.queue_num (blk w))) idx);
    [by apply Hr0|done|by rewrite B|by rewrite B|by rewrite B|].
  intros w2 fin (Hw2 & [M2 A2 T2] & B2 & k & Hk & Hm & _).
  pose proof (pending_bound idx (Blk.last_avail_idx (blk w))). rewrite B in Hm.
  destruct fin.
  - wp_step. simpl. split_and!; [by destruct Hw2|constructor; simpl; congruence|congruence|].
    exists k. split; [lia|right]. by exists (blk w2).
  - wp_step. split_and!; [done|constructor; congruence|congruence|]. exists k. split; [lia|by left].
Qed.
End Kick.
