(* ===== verification/Paravirt.v ===== *)
(** * The paravirtual devices: properties

    What a guest can do through the device window, and what it cannot: the backend stays
    within the grants of the guest, a trapped access always ends, a kick retires buffers one
    by one, a request to the disk is served whole or not at all — and what the gate does not
    ask. *)

From Stdlib Require Import NArith Lia.
From stdpp Require Import base numbers list option.
From S2P Require Import Bits.
From S2P Require Import Grant.
From S2P Require Import P2m.
From S2P Require Import Hypervisor.
From S2P Require Import HvSafety.
From S2P Require Import HvTheorems.
From S2P Require Import Blk.
From S2P Require Import Virtio.
From S2P Require Import Abort.
From S2P Require Import Metal.
From S2P Require Import Backend.
From S2P Require Import Confine.
From S2P Require Import Kick.
From S2P Require Import Prelude.
#[local] Open Scope N_scope.

(** ** Lemmas *)

Lemma lor_bound a c n : a < 2 ^ n -> c < 2 ^ n -> N.lor a c < 2 ^ n.
Proof.
  intros Ha Hc. apply bits_bound. intros i Hi. rewrite N.lor_spec.
  by rewrite (testbit_high a n), (testbit_high c n).
Qed.

Lemma moved_wf k d d' : Virtio.wf d -> moved k d d' -> Virtio.wf d'.
Proof. intros [ ] ->. constructor; simpl; try done; by apply N.mod_lt. Qed.

Lemma kicked_wf d d' : Virtio.wf d -> kicked d d' -> Virtio.wf d'.
Proof.
  intros Hd (k & _ & [Hm|(d1 & Hm & ->)]); [by eapply moved_wf|].
  pose proof (moved_wf _ _ _ Hd Hm) as [ ]. constructor; simpl; try done. by apply lor_bound.
Qed.

(** The same of the block device, through the registers it shares. *)
Lemma blk_kicked_transport d d' : blk_kicked d d' -> kicked (transport d) (transport d').
Proof.
  intros (k & Hk & [Hm|(d1 & Hm & ->)]); exists k; (split; [done|]); rewrite Hm; [by left|right].
  by eexists; split; [done|].
Qed.

(** The cursors stay at the same distance. *)
Lemma as_u16_wrap v : v < 2 * 65536 -> as_u16 v = if decide (v < 65536) then v else v - 65536.
Proof.
  intros Hv. unfold as_u16. case_decide; [by apply N.mod_small|].
  replace v with (v - 65536 + 1 * 65536) at 1 by lia. rewrite N.Div0.mod_add. apply N.mod_small. lia.
Qed.

Lemma lag_moved used last k : used < 65536 -> last < 65536 ->
  lag (as_u16 (used + k)) (as_u16 (last + k)) = lag used last.
Proof.
  intros Hu Hl. assert (Hk : forall z, as_u16 (z + k) = as_u16 (z + k mod 65536))
    by (intros; unfold as_u16; by rewrite N.Div0.add_mod_idemp_r).
  assert (Hc : k mod 65536 < 65536) by (by apply N.mod_lt).
  unfold lag. rewrite !Hk, (as_u16_wrap (used + _)), (as_u16_wrap (last + _)) by lia.
  repeat case_decide; rewrite !as_u16_wrap by lia; repeat case_decide; lia.
Qed.

Lemma kicked_lag d d' : Virtio.wf d -> kicked d d' ->
  lag (used_idx d') (last_avail_idx d') = lag (used_idx d) (last_avail_idx d).
Proof.
  intros [ ] (k & Hk & [->|(d1 & -> & ->)]); simpl; by apply lag_moved.
Qed.

Section Mmio.
Context (b : Board) (Hrel : overflow_checks b = false).

Lemma kick_wf dev w : wf_world w -> wp (kick b dev) (fun w' _ => wf_world w' /\ elsewhere w w') w.
Proof.
  intros Hw. pose proof Hw as [Hs Hc Hb]. destruct dev; simpl.
  - wp_step. by split.
  - wp_apply virtio_notify_run; [done..|]. intros w' _ (Hs' & He & Hb' & Hk). split; [|done].
    constructor; [done|exact (kicked_wf _ _ Hc Hk)|by rewrite Hb'].
  - wp_apply blk_notify_run; [done..|]. intros w' _ (Hs' & He & Hc' & Hk). split; [|done].
    constructor; [done|by rewrite Hc'|]. eapply kicked_wf; [exact Hb|]. by apply blk_kicked_transport.
Qed.

Lemma blk_write_wf off v d : Virtio.wf (transport d) -> v < 2 ^ 32 ->
  exists d' n, Blk.mmio_write off v d = Done d' n /\ Virtio.wf (transport d').
Proof.
  intros Hd Hv. destruct (decide (off = STATUS /\ v = 0)) as [ [-> ->]|Hne].
  - exists Blk.new, false. split; [done|]. constructor; try done. by exists 0, 0.
  - destruct (write_transport off v d Hd) as (d' & n & E & E' & _).
    { destruct (decide (off = STATUS)); [right|left]; naive_solver. }
    destruct (write_wf off v _ Hd Hv) as (d'' & E'' & Hd''). exists d', n. split; [done|].
    rewrite E' in E''. by injection E'' as -> ->.
Qed.

(** The store of a trapped access, and the kick it may be. *)
Lemma store_wf dev off v w : wf_world w -> v < 2 ^ 32 ->
  wp (store_register b dev off v) (fun w' _ => wf_world w' /\ elsewhere w w') w.
Proof.
  intros Hw Hv. pose proof Hw as [Hs Hc Hb]. unfold store_register. wp_step. destruct dev.
  - wp_step. wp_step. by split.
  - wp_step. destruct (write_wf off v _ Hc Hv) as (d' & E & Hd'). eapply wp_of_Done; [exact E|].
    set (w1 := lset console_l d' _).
    assert (Hw1 : wf_world w1) by (constructor; [by apply wf_store_console|done|done]).
    destruct (_ =? _); [|wp_step; by split]. wp_apply kick_wf; [done|]. intros w' _ [Hw' [ ] ]. by split.
  - wp_step. destruct (blk_write_wf off v _ Hb Hv) as (d' & n & E & Hd'). eapply wp_of_Done; [exact E|].
    set (w1 := lset blk_l d' _).
    assert (Hw1 : wf_world w1) by (constructor; [by apply wf_store_blk|done|done]).
    destruct n; [|wp_step; by split]. wp_apply kick_wf; [done|]. intros w' _ [Hw' [ ] ]. by split.
Qed.
Lemma mmio_run cpu esr far w :
  wf_world w -> vlen (x cpu) = 31 -> VIRTIO_MMIO_BASE <= far ->
  exists w' r, handle_mmio b cpu esr far w = Done w' r /\ wf_world w' /\ elsewhere w w' /\
    match r with
    | Err _ => w' = w
    | Ok cpu' => elr cpu' = (elr cpu + 4) mod (u64_max + 1) /\ vlen (x cpu') = 31 /\
        forall i, wnr (decode esr) = true \/ i <> srt (decode esr) ->
          vget (x cpu') i = vget (x cpu) i
    end.
Proof.
  intros Hw Hx Hfar. apply wp_Done. unfold handle_mmio. cbv zeta. set (a := decode esr).
  destruct (negb (isv a)); [by wp_step|]. destruct (fnv a); [by wp_step|].
  destruct (negb (access_bytes a =? 4)); [by wp_step|].
  wp_step. apply wp_usub; [done|]. wp_step. wp_step.
  assert (Hidx : srt a < 31 -> exists v, vget (x cpu) (srt a) = Some v)
    by (intros; apply vget_lt_Some; lia).
  destruct (active w) eqn:Hd; [by wp_step| |].
  all: wp_step; apply wp_mono with (Q := fun w' x' => wf_world w' /\ elsewhere w w' /\
    vlen x' = 31 /\ forall i, wnr a = true \/ i <> srt a -> vget x' i = vget (x cpu) i);
    [|intros w' x' (Hw' & Hm & Hx' & Hi); wp_step; by split_and!].
  all: destruct (wnr a); [|destruct (N.ltb_spec (srt a) 31) as [Hlt|];
    [wp_step; apply wp_index; destruct (Hidx Hlt) as [v Hv]; exists v; split; [done|]; wp_step;
     split_and!; [done|done|by rewrite vlen_vset|]; intros i [?|Hi]; [done|]; by apply vget_vset_ne
    |by wp_step] ].
  all: wp_step; apply wp_mono with (Q := fun w' _ => w' = w);
    [destruct (N.ltb_spec (srt a) 31) as [Hlt|]; [|by wp_step];
     apply wp_index; destruct (Hidx Hlt) as [v Hv]; by exists v|].
  all: intros w' src ->; wp_step; wp_apply store_wf; [done|by apply N.mod_lt|].
  all: intros w' _ [Hw' He]; wp_step; by split_and!.
Qed.
End Mmio.

(** A request leaves the template and the other tenants alone. *)
Lemma served_isolated t m d st m' d' : Blk.wf_disk d -> t < N_TENANTS -> served t m d st m' d' ->
  template d' = template d /\ forall t' s, t' < N_TENANTS -> s < DISK_SECTORS -> t' <> t ->
    private d' t' s = private d t' s.
Proof.
  intros Hd Ht [|s l pa n Hs Hl|s pa n d2 Hs Hn E]; [done..|].
  destruct (write_run d Hd t s (fetch m pa n) Ht Hs) as (d3 & E3 & _ & Htp & Hp).
  simpl in E3. rewrite E in E3. injection E3 as <-. split; [done|]. intros t' s' Ht' Hs' Hne.
  rewrite Hp by done. by apply touch_other.
Qed.

(** ** A small machine *)

(** Guest 1 owns frames 2 and 3 and grants them to the backend, and so it does with frame 5,
    which domain 2 owns and grants to nobody. *)
Definition pv_trace : list Transition :=
  [Guest 0 (DomainCreate 1 false); Guest 0 (DomainCreate 2 false);
   Guest 1 (P2mAllocate 2); Guest 1 (P2mAllocate 3); Guest 2 (P2mAllocate 5);
   Guest 1 (GrantAccess 0 0 2 false); Guest 1 (GrantAccess 1 0 3 true);
   Guest 1 (GrantAccess 2 0 5 true)].
Definition pv_boot : Hypervisor := Hypervisor.new 3 1 4 1 1 8 0.
Definition pv_model : Hypervisor :=
  match run pv_trace pv_boot with Done s _ => s | Panic => pv_boot end.

Lemma pv_reachable : reachable 8 pv_model.
Proof.
  assert (HB : reachable 0 pv_boot) by (apply reach_boot; repeat split; vm_compute; discriminate).
  destruct (reachable_run 0 _ pv_trace HB) as (s & rs & E & _ & HR); [vm_compute; discriminate|].
  unfold pv_model. rewrite E. exact HR.
Qed.

Definition pv_board : Board := mkBoard false 0x1000000 0x1008000 0x2000000 1 8.

(** Frame 2 holds the rings: one available entry, whose descriptor names four bytes at
    [buf]; frame 3 holds a message of the guest and frame 5 a secret of domain 2. *)
Definition pv_mem (buf : N) : N -> N :=
  store (store (store (store (fun _ => 0)
    0x1002000 (to_le_bytes 8 buf ++ to_le_bytes 4 4)) 0x1002100 [0; 0; 1; 0; 0; 0])
    0x1003000 [66; 65; 76; 69]) 0x1005000 [83; 69; 67; 82].

(** The driver has finished the handshake. *)
Definition pv_console : VirtioConsole :=
  mkConsole 0 1 [0; 1] 0 8 1 0x80002000 0x80002100 0x80002200 15 0 0 0.

Definition pv_world (buf : N) : World :=
  mkWorld pv_model (pv_mem buf) pv_console Blk.new new_disk Console 0 (vrepeat 8 false)
    (vrepeat 3 None) false false false [].

(** A word stored to [QueueNotify]. *)
Definition pv_cpu : Cpu := mkCpu (vrepeat 31 0) 0x40001000.
Definition pv_esr : N := 0x93850046.
Definition pv_far : N := VIRTIO_MMIO_BASE + QUEUE_NOTIFY.

Lemma new_store_wf hv m l1 l2 a x1 x2 x3 x4 dev con bd : (forall pa, m pa < 256) ->
  a < N_TENANTS -> wf_store (mkWorld hv m con bd new_disk dev a l1 l2 x1 x2 x3 x4).
Proof.
  intros Hm Ha.
  constructor; simpl; try done; [apply wf_new_disk|]. split.
  - intros s l. unfold new_disk. simpl. rewrite vget_vrepeat. case_decide; [|done].
    intros [= <-]. apply bytes_zeros.
  - intros t s l _ _. unfold private. simpl. rewrite tget_vrepeat. by case_decide.
Qed.

Lemma pv_mem_byte buf pa : pv_mem buf pa < 256.
Proof.
  assert (H : forall l, forallb (fun x => x <? 256) l = true -> bytes_ok l).
  { intros l Hl x Hx. rewrite forallb_elem in Hl. by apply N.ltb_lt, Hl. }
  unfold pv_mem. repeat apply bytes_store; try (by apply H); [done|].
  apply bytes_app; apply bytes_le.
Qed.

Lemma pv_world_wf buf : wf_world (pv_world buf).
Proof.
  constructor.
  - apply new_store_wf; [apply pv_mem_byte|done].
  - constructor; try done. by exists 0, 1.
  - constructor; try done. by exists 0, 0.
Qed.

(** ** Properties *)

(** C22: the ring is a grant: whatever a guest does through the device window — any register
    of any device, kicks with any rings and descriptors included — the hypervisor changes
    memory only where guest 1 has granted a frame to the backend for writing, leaves its own
    model alone, and does the same, to the registers, the disk, the serial line and the
    granted memory, whatever the rest of memory holds: nothing else is read. *)
Theorem mmio_confined (b : Board) (cpu : Cpu) (esr far : N) (w w' : World) (r : result Halt Cpu) :
  board_ok b -> handle_mmio b cpu esr far w = Done w' r ->
  model w' = model w /\
  (forall pa, ~ granted b (model w) true pa -> mem w' pa = mem w pa) /\
  forall m, (forall pa, granted b (model w) false pa -> m pa = mem w pa) ->
    exists m', handle_mmio b cpu esr far (with_mem w m) = Done (with_mem w' m') r /\
      forall pa, granted b (model w) false pa -> m' pa = mem w' pa.
Proof.
  intros Hb E. pose proof (confined_mmio b Hb (fun _ => True) cpu esr far) as Hc.
  assert (Hrun : forall m, (forall pa, granted b (model w) false pa -> m pa = mem w pa) ->
    match handle_mmio b cpu esr far (with_mem w m) with
    | Done w2 r2 => r = r2 /\ agree b w' w2 /\ kept b w w' /\ kept b (with_mem w m) w2
    | Panic => False
    end).
  { intros m Hm. specialize (Hc w (with_mem w m) (conj eq_refl Hm) I). rewrite E in Hc. exact Hc. }
  assert (Hk : kept b w w').
  { specialize (Hrun (mem w) (fun _ _ => eq_refl)).
    destruct (handle_mmio b cpu esr far (with_mem w (mem w))); [apply Hrun|destruct Hrun]. }
  split_and!; [apply Hk|apply Hk|]. intros m Hm. specialize (Hrun m Hm).
  destruct (handle_mmio b cpu esr far (with_mem w m)) as [w2 r2|]; [|destruct Hrun].
  destruct Hrun as (<- & [E2 Ha] & _ & _). exists (mem w2). split; [by rewrite <- E2|].
  intros pa Hpa. apply Ha. by rewrite (proj1 Hk).
Qed.

Theorem mmio_confined_witness : exists w' r,
  handle_mmio pv_board pv_cpu pv_esr pv_far (pv_world 0x80003000) = Done w' r /\
  line w' = [Say (Draining 4); Put 66; Put 65; Put 76; Put 69] /\
  model w' = model (pv_world 0x80003000) /\
  (forall pa, ~ granted pv_board (model (pv_world 0x80003000)) true pa ->
     mem w' pa = mem (pv_world 0x80003000) pa).
Proof.
  assert (El : match handle_mmio pv_board pv_cpu pv_esr pv_far (pv_world 0x80003000) with
    | Done w' _ => line w' = [Say (Draining 4); Put 66; Put 65; Put 76; Put 69] | Panic => False end)
    by (vm_compute; reflexivity).
  destruct (handle_mmio pv_board pv_cpu pv_esr pv_far (pv_world 0x80003000)) as [w' r|] eqn:E;
    [|destruct El].
  exists w', r. destruct (mmio_confined pv_board pv_cpu pv_esr pv_far (pv_world 0x80003000) w' r
    ltac:(split; vm_compute; congruence) E) as (H1 & H2 & _).
  exact (conj eq_refl (conj El (conj H1 H2))).
Defined.

(** C25: no access to the device window stops the hypervisor by accident: in the profile the
    image is built with, every trapped access ends, keeps the store and the registers well
    formed and the model as it is, and either halts the machine for one of four named
    reasons, before it has touched anything, or resumes the guest behind the instruction with
    no general register changed but the target of a load. *)
Theorem mmio_total (b : Board) (cpu : Cpu) (esr far : N) (w : World) :
  overflow_checks b = false -> wf_world w -> vlen (x cpu) = 31 -> VIRTIO_MMIO_BASE <= far ->
  exists w' r, handle_mmio b cpu esr far w = Done w' r /\ wf_world w' /\ model w' = model w /\
    match r with
    | Err _ => w' = w
    | Ok cpu' => elr cpu' = (elr cpu + 4) mod (u64_max + 1) /\ vlen (x cpu') = 31 /\
        forall i, wnr (decode esr) = true \/ i <> srt (decode esr) ->
          vget (x cpu') i = vget (x cpu) i
    end.
Proof.
  intros Hrel Hw Hx Hfar.
  destruct (mmio_run b Hrel cpu esr far w Hw Hx Hfar) as (w' & r & E & Hw' & [ ] & Hr).
  by exists w', r.
Qed.

Theorem mmio_total_witness : exists w' r,
  handle_mmio pv_board pv_cpu pv_esr pv_far (pv_world 0x80003000) = Done w' r /\ wf_world w' /\
  model w' = model (pv_world 0x80003000) /\
  match r with
  | Err _ => w' = pv_world 0x80003000
  | Ok cpu' => elr cpu' = (elr pv_cpu + 4) mod (u64_max + 1) /\ vlen (x cpu') = 31 /\
      forall i, wnr (decode pv_esr) = true \/ i <> srt (decode pv_esr) ->
        vget (x cpu') i = vget (x pv_cpu) i
  end.
Proof.
  apply (mmio_total pv_board pv_cpu pv_esr pv_far (pv_world 0x80003000));
    [done|apply pv_world_wf|done|vm_compute; discriminate].
Defined.

(** C26: a kick ends, and retires buffers one by one: for either device there is a number
    below 65536 such that both cursors of its ring have advanced by it, so that they stay at
    the same distance; no other register changes but the interrupt status, no register of the
    other device changes, and the model does not. *)
Theorem kick_retires (b : Board) (w : World) : overflow_checks b = false -> wf_world w ->
  (exists w', handle_virtio_notify b w = Done w' tt /\ kicked (console w) (console w') /\
     lag (used_idx (console w')) (last_avail_idx (console w')) =
       lag (used_idx (console w)) (last_avail_idx (console w)) /\
     blk w' = blk w /\ model w' = model w) /\
  (exists w', handle_virtio_blk_notify b w = Done w' tt /\ blk_kicked (blk w) (blk w') /\
     lag (Blk.used_idx (blk w')) (Blk.last_avail_idx (blk w')) =
       lag (Blk.used_idx (blk w)) (Blk.last_avail_idx (blk w)) /\
     console w' = console w /\ model w' = model w).
Proof.
  intros Hrel Hw. split.
  - destruct (wp_Done _ _ _ (virtio_notify_run b Hrel w Hw)) as (w' & [] & E & _ & [ ] & Hb & Hk).
    exists w'. split_and!; [done|done| |done|done].
    by apply kicked_lag; [apply Hw|].
  - destruct (wp_Done _ _ _ (blk_notify_run b Hrel w Hw)) as (w' & [] & E & _ & [ ] & Hc & Hk).
    exists w'. split_and!; [done|done| |done|done].
    by apply (kicked_lag (transport _) (transport _)); [apply Hw|apply blk_kicked_transport].
Qed.

Theorem kick_retires_witness :
  let w := pv_world 0x80003000 in
  (exists w', handle_virtio_notify pv_board w = Done w' tt /\ kicked (console w) (console w') /\
     lag (used_idx (console w')) (last_avail_idx (console w')) =
       lag (used_idx (console w)) (last_avail_idx (console w)) /\
     blk w' = blk w /\ model w' = model w) /\
  (exists w', handle_virtio_blk_notify pv_board w = Done w' tt /\ blk_kicked (blk w) (blk w') /\
     lag (Blk.used_idx (blk w')) (Blk.last_avail_idx (blk w')) =
       lag (Blk.used_idx (blk w)) (Blk.last_avail_idx (blk w)) /\
     console w' = console w /\ model w' = model w).
Proof. apply kick_retires; [done|apply pv_world_wf]. Defined.



(** What the gate does not ask: a grant is not checked against the owner of the frame. In
    a reachable state of the model, domain 2 alone can access frame 5 and grants it to nobody,
    but guest 1 has offered the frame to the backend as if it were its own; a kick with a
    descriptor that names the frame sends its bytes to the serial line. *)
Theorem stale_grant_leak :
  reachable 8 pv_model /\ P2m.owner_of (p2m pv_model) 5 = Some 2 /\
  (forall d wr, access pv_model d wr 5 -> d = 2) /\
  exists w' cpu', handle_mmio pv_board pv_cpu pv_esr pv_far (pv_world 0x80005000) = Done w' (Ok cpu') /\
    fetch (mem (pv_world 0x80005000)) (data_ram_start pv_board + 5 * FRAME_SIZE) 4 = [83; 69; 67; 82] /\
    line w' = [Say (Draining 4); Put 83; Put 69; Put 67; Put 82].
Proof.
  assert (Ho : P2m.owner_of (p2m pv_model) 5 = Some 2) by (vm_compute; reflexivity).
  split; [exact pv_reachable|]. split; [exact Ho|]. split.
  - intros d wr Ha. destruct (reachable_HInv _ _ pv_reachable) as [HI _].
    destruct (decide (2 = d)) as [|Hne]; [done|].
    destruct (access_granted _ _ _ _ _ HI Ha Ho Hne) as (g & ro & Hg & _).
    assert (Hau : Grant.authorizes (grant pv_model) 2 d 5 false = true)
      by (apply Grant.authorizes_spec; by exists g, ro).
    assert (Hno : forall d, Grant.authorizes (grant pv_model) 2 d 5 false = false)
      by (intros; vm_compute; reflexivity).
    by rewrite Hno in Hau.
  - assert (El : match handle_mmio pv_board pv_cpu pv_esr pv_far (pv_world 0x80005000) with
      | Done w' (Ok _) => line w' = [Say (Draining 4); Put 83; Put 69; Put 67; Put 82]
      | _ => False end) by (vm_compute; reflexivity).
    destruct (handle_mmio pv_board pv_cpu pv_esr pv_far (pv_world 0x80005000)) as [w' [cpu'|]|];
      [|destruct El..].
    exists w', cpu'. split; [reflexivity|]. split; [vm_compute; reflexivity|exact El].
Qed.
