(* ===== verification/Steady.v ===== *)
(** * What no transition changes

    A judgement for relations between the states before and after a computation that hold
    whatever it answers, with one rule per combinator, and two uses of it: no transition of
    the hypervisor changes the number of frames, and an interrupt leaves the pages alone. *)

From Stdlib Require Import NArith Lia.
From stdpp Require Import base numbers list option.
From S2P Require Import P2m.
From S2P Require Import Hypervisor.
From S2P Require Import Prelude.
#[local] Open Scope N_scope.

(** ** Specification *)

Definition ends {S T} (R : relation S) (m : M S T) : Prop :=
  forall s s' x, m s = Done s' x -> R s s'.

(** ** Rules *)

Section Rules.
Context {S : Type} (R : relation S) `{!PreOrder R}.

Lemma ends_ret {T} (x : T) : ends R (ret x).
Proof. by intros s s' y [= <- <-]. Qed.
Lemma ends_panic {T} : ends R (panic : M S T).
Proof. done. Qed.
Lemma ends_get : ends R get.
Proof. by intros s s' y [= <- <-]. Qed.
Lemma ends_gets {T} (f : S -> T) : ends R (gets f).
Proof. by intros s s' y [= <- <-]. Qed.
Lemma ends_modify (f : S -> S) : (forall s, R s (f s)) -> ends R (modify f).
Proof. intros H s s' [] [= <-]. apply H. Qed.

Lemma ends_bind {T U} (m : M S T) (k : T -> M S U) :
  ends R m -> (forall x, ends R (k x)) -> ends R (bind m k).
Proof.
  intros Hm Hk s s' y. unfold bind. destruct (m s) as [s1 x|] eqn:E; [|done]. intros E'.
  etrans; [by eapply Hm|by eapply Hk].
Qed.
Lemma ends_tbind {E T U} (m : M S (result E T)) (k : T -> M S (result E U)) :
  ends R m -> (forall x, ends R (k x)) -> ends R (tbind m k).
Proof.
  intros Hm Hk s s' y. unfold tbind, bind. destruct (m s) as [s1 [x|e]|] eqn:E0; [| |done].
  - intros E'. etrans; [by eapply Hm|by eapply Hk].
  - intros [= <- <-]. by eapply Hm.
Qed.

Lemma ends_for_each {X} (l : list X) (f : X -> M S unit) :
  (forall x, ends R (f x)) -> ends R (for_each l f).
Proof. intros H. induction l; [apply ends_ret|by apply ends_bind]. Qed.
Lemma ends_for_collect {X T} (l : list X) (f : X -> M S T) :
  (forall x, ends R (f x)) -> ends R (for_collect l f).
Proof.
  intros H. induction l; [apply ends_ret|]. apply ends_bind; [done|intros y].
  apply ends_bind; [done|intros ys]. apply ends_ret.
Qed.
Lemma ends_first_some_m {X V} (l : list X) (f : X -> M S (option V)) :
  (forall x, ends R (f x)) -> ends R (first_some_m l f).
Proof.
  intros H. induction l; [apply ends_ret|]. apply ends_bind; [done|].
  intros [v|]; [apply ends_ret|done].
Qed.
Lemma ends_fold_m {X T} (l : list X) (f : T -> X -> M S T) acc :
  (forall t x, ends R (f t x)) -> ends R (fold_m l f acc).
Proof. intros H. revert acc. induction l; intros acc; [apply ends_ret|by apply ends_bind]. Qed.
End Rules.

(** The component of a lens moves as its own relation says. *)
Lemma ends_zoom {S A T} (R : relation S) (Ra : relation A) (l : lens S A) (m : M A T) :
  (forall a s, Ra (lget l s) a -> R s (lset l a s)) -> ends Ra m -> ends R (zoom l m).
Proof.
  intros HR Hm s s' x. unfold zoom. destruct (m (lget l s)) as [a y|] eqn:E; [|done].
  intros [= <- <-]. by eapply HR, Hm.
Qed.

Lemma ends_any {S T} (m : M S T) : ends (fun _ _ => True) m.
Proof. done. Qed.

(** ** Automation *)

Ltac head_of t := lazymatch t with ?f _ => head_of f | ?f => f end.

(** One step: the rule of the outermost combinator, a case of a [match], or the definition
    of the head. *)
Ltac ends_step :=
  lazymatch goal with
  | |- forall _, _ => intro
  | |- ends _ (bind _ _) => apply ends_bind; [apply _| |]
  | |- ends _ (tbind _ _) => apply ends_tbind; [apply _| |]
  | |- ends _ (ret _) => apply ends_ret, _
  | |- ends _ panic => apply ends_panic
  | |- ends _ get => apply ends_get, _
  | |- ends _ (gets _) => apply ends_gets, _
  | |- ends _ (modify _) => apply ends_modify
  | |- ends _ (for_each _ _) => apply ends_for_each; [apply _|]
  | |- ends _ (for_collect _ _) => apply ends_for_collect; [apply _|]
  | |- ends _ (first_some_m _ _) => apply ends_first_some_m; [apply _|]
  | |- ends _ (fold_m _ _ _) => apply ends_fold_m; [apply _|]
  | |- ends _ (match ?x with _ => _ end) => destruct x
  | |- ends _ (let _ := _ in _) => cbv zeta
  | |- ends _ ?m => let h := head_of m in unfold h; cbv beta
  end.
Ltac ends_auto := repeat ends_step.

(** ** The number of frames *)

Definition same_frames (p p' : P2m.System) : Prop := P2m.frame_count p' = P2m.frame_count p.
#[global] Instance same_frames_preorder : PreOrder same_frames.
Proof. split; [by intros p|]. intros p1 p2 p3 H1 H2. unfold same_frames in *. congruence. Qed.

Definition same_pages (R : relation P2m.System) (s s' : Hypervisor) : Prop := R (p2m s) (p2m s').
#[global] Instance same_pages_preorder R `{!PreOrder R} : PreOrder (same_pages R).
Proof. split; [by intros s; unfold same_pages|]. intros s1 s2 s3. unfold same_pages. apply transitivity. Qed.

Lemma same_frames_set m f p : same_frames p (P2m.set_frame m f p).
Proof. unfold same_frames, P2m.frame_count. simpl. apply vlen_vset. Qed.

Create HintDb frames discriminated.
Ltac frames_auto := repeat (solve [eauto 1 with frames nocore] || ends_step || apply same_frames_set || done).

Lemma steady_allocate c m : ends same_frames (P2m.allocate c m).
Proof. unfold P2m.allocate. frames_auto. Qed.
Lemma steady_free c m : ends same_frames (P2m.free c m).
Proof. unfold P2m.free. frames_auto. Qed.
Lemma steady_get_type m ty : ends same_frames (P2m.get_type m ty).
Proof. unfold P2m.get_type. frames_auto. Qed.
Lemma steady_put_type m ty : ends same_frames (P2m.put_type m ty).
Proof. unfold P2m.put_type. frames_auto. Qed.
Lemma steady_get_ref m : ends same_frames (P2m.get_ref m).
Proof. unfold P2m.get_ref. frames_auto. Qed.
Lemma steady_put_ref m : ends same_frames (P2m.put_ref m).
Proof. unfold P2m.put_ref. frames_auto. Qed.
Lemma steady_pin c m l : ends same_frames (P2m.pin c m l).
Proof. unfold P2m.pin. frames_auto. Qed.
Lemma steady_unpin c m : ends same_frames (P2m.unpin c m).
Proof. unfold P2m.unpin. frames_auto. Qed.
Lemma steady_link c p sl ch w lf x : ends same_frames (P2m.link c p sl ch w lf x).
Proof. unfold P2m.link. frames_auto. Qed.
Lemma steady_unlink c p sl : ends same_frames (P2m.unlink c p sl).
Proof. unfold P2m.unlink. frames_auto. Qed.
Lemma steady_unlink_all d : ends same_frames (P2m.unlink_all d).
Proof. unfold P2m.unlink_all. frames_auto. Qed.
Lemma steady_unlink_all_into d : ends same_frames (P2m.unlink_all_into d).
Proof. unfold P2m.unlink_all_into. frames_auto. Qed.
Lemma steady_unpin_all d : ends same_frames (P2m.unpin_all d).
Proof. unfold P2m.unpin_all. frames_auto. Qed.
Lemma steady_free_all d : ends same_frames (P2m.free_all d).
Proof. unfold P2m.free_all. frames_auto. Qed.
#[export] Hint Resolve steady_allocate steady_free steady_get_type steady_put_type steady_get_ref steady_put_ref steady_pin steady_unpin steady_link steady_unlink steady_unlink_all steady_unlink_all_into steady_unpin_all steady_free_all : frames.

(** ** The hypervisor *)

(** A computation of another component leaves the pages alone. *)
Ltac pages_auto :=
  repeat match goal with
  | |- ends _ (zoom p2m_l _) => apply ends_zoom with (Ra := same_frames); [done|]
  | |- ends _ (zoom _ _) => apply ends_zoom with (Ra := fun _ _ => True); [done|apply ends_any]
  | |- ends (same_pages _) (modify _) => apply ends_modify; done
  | |- ends (same_pages _) (sweep_loop _) => fail 1
  | _ => solve [eauto 1 with frames nocore] || ends_step
  end.

Section Pages.
Context (R : relation P2m.System) `{!PreOrder R}.

Lemma steady_reaches_root k c t : ends (same_pages R) (reaches_root k c t).
Proof. revert c. induction k; intros c; simpl; pages_auto. Qed.
Lemma steady_check_cross : ends (same_pages R) check_cross.
Proof.
  pose proof steady_reaches_root. unfold check_cross. repeat (solve [auto] || ends_step).
Qed.
End Pages.

Lemma steady_subtree_walk k c cur t : ends (same_pages same_frames) (control_subtree_walk k c cur t).
Proof. revert cur. induction k; intros cur; simpl; pages_auto; auto. Qed.
Lemma steady_sweep_pass : ends (same_pages same_frames) sweep_pass.
Proof. unfold sweep_pass. pages_auto. Qed.
Lemma steady_sweep_loop k : ends (same_pages same_frames) (sweep_loop k).
Proof.
  induction k; simpl; [apply ends_panic|]. apply ends_bind; [apply _|apply steady_sweep_pass|].
  intros []; [done|apply ends_ret, _].
Qed.
#[export] Hint Extern 0 (ends _ check_cross) => apply steady_check_cross; apply _ : frames.
#[export] Hint Resolve steady_subtree_walk steady_sweep_loop : frames.

Lemma steady_handle caller c : ends (same_pages same_frames) (handle caller c).
Proof. destruct c; simpl; pages_auto. Qed.
#[export] Hint Resolve steady_handle : frames.

(** No transition changes the number of frames. *)
Lemma steady_dispatch caller c : ends (same_pages same_frames) (dispatch caller c).
Proof. unfold dispatch, route. pages_auto. Qed.

(** An interrupt leaves the pages alone. *)
Lemma virq_pages d v q : ends (same_pages eq) (raise_vcpu_virq d v q).
Proof. pages_auto. Qed.
