(* ===== verification/Teardown.v ===== *)
(** * The dispatch funnel — [hv-metal/src/teardown.rs]

    Every hypercall of the metal goes through one function: it runs the dispatch of the
    model and then discharges what the model cannot express — the bytes behind a frame that
    became free, the private disk and the registers a destroyed domain leaves behind. *)

From Stdlib Require Import NArith Lia.
From stdpp Require Import base numbers list option.
From S2P Require Import P2m.
From S2P Require Import Hypervisor.
From S2P Require Import HvInvariant.
From S2P Require Import HvEvents.
From S2P Require Import HvSafety.
From S2P Require Import Blk.
From S2P Require Import Virtio.
From S2P Require Import Arm64.
From S2P Require Import Metal.
From S2P Require Import Backend.
From S2P Require Import Confine.
From S2P Require Import Prelude.
#[local] Open Scope N_scope.

Section Board.
Context (b : Board).

Definition bind_tenant (dom : DomId) (tenant : N) : M World unit :=
  modify (fun w => lset tenant_of_l (vset (Metal.tenant_of w) dom (Some tenant)) w).

Definition shadow_says_allocated (mfn : Mfn) : M World bool :=
  gets (fun w => match vget (Metal.allocated w) mfn with Some was => was | None => false end).

Definition discard_tenant_overlay (tenant : N) : M World unit :=
  zoom disk_l (Blk.discard_overlay tenant).

Definition reset_device_state : M World unit :=
  modify (lset console_l Virtio.new) ;! modify (lset blk_l Blk.new).

Definition on_destroy (target : DomId) : M World unit :=
  let! w := get in
  match vget (Metal.tenant_of w) target with
  | Some (Some tenant) =>
      discard_tenant_overlay tenant ;! say (OverlayDiscarded target tenant)
  | _ => ret tt
  end ;!
  reset_device_state.

(** One frame of the shadow. *)
Definition refresh (e : N * bool) : M World unit :=
  let '(mfn, was) := e in
  let! w := get in
  let now := P2m.is_allocated (p2m (model w)) (as_u32 mfn) in
  (if was && negb now then scrub_frame b (as_u32 mfn) else ret tt) ;!
  modify (fun w => lset allocated_l (vset (Metal.allocated w) mfn now) w).

(** The build without the [smmu] feature, whose stream table is derived again here. *)
Definition dispatch (caller : DomId) (c : HvCall) : M World (result HvError HvOutcome) :=
  let! outcome := zoom model_l (Hypervisor.dispatch caller c) in
  (if is_ok outcome then
     match c with DomainDestroy target _ => on_destroy target | _ => ret tt end ;!
     let! w := get in
     for_each (enumerate (Metal.allocated w)) refresh
   else ret tt) ;!
  ret outcome.

(** ** Specification *)

(** The memory behind a frame. *)
Definition backing (mfn : Mfn) : N * N :=
  if mfn <? num_sup_frames b then (sup_ram_start b + mfn * SUPER_SIZE, SUPER_SIZE)
  else (data_ram_start b + mfn * FRAME_SIZE, FRAME_SIZE).
Definition behind (mfn : Mfn) (pa : N) : Prop :=
  (backing mfn).1 <= pa < (backing mfn).1 + (backing mfn).2.

(** The two windows are apart and name addresses of the machine. *)
Record windows_ok : Prop := mkWindows {
  wo_frames : num_frames b <= u32_max;
  wo_data : data_ram_start b + num_frames b * FRAME_SIZE <= u64_max;
  wo_sup : sup_ram_start b + num_sup_frames b * SUPER_SIZE <= u64_max;
  wo_apart : data_ram_start b + num_frames b * FRAME_SIZE <= sup_ram_start b \/
    sup_ram_start b + num_sup_frames b * SUPER_SIZE <= data_ram_start b;
}.

(** What the shadow says of every frame. *)
Definition shadow (p : P2m.System) (n : N) : list bool := P2m.is_allocated p <$> vrange n.

(** The shadow has the frame allocated and the model has it free. *)
Definition freed (w : World) (p : P2m.System) (mfn : Mfn) : Prop :=
  vget (Metal.allocated w) mfn = Some true /\ P2m.is_allocated p mfn = false.

(** What the funnel does to memory once the model is [hv]: the freed frames are zero, and
    nothing else has changed. *)
Record scrubbed (w w' : World) : Prop := mkScrubbed {
  sc_shadow : Metal.allocated w' = shadow (p2m (model w')) (vlen (Metal.allocated w));
  sc_zero : forall f pa, freed w (p2m (model w')) f -> behind f pa -> mem w' pa = 0;
  sc_rest : forall pa, (forall f, freed w (p2m (model w')) f -> ~ behind f pa) -> mem w' pa = mem w pa;
  sc_either : forall pa, mem w' pa = 0 \/ mem w' pa = mem w pa;
}.

(** What it does to the devices and the disk: the teardown of a domain resets the devices
    and discards the private sectors of its tenant. *)
Record released (target : DomId) (w w' : World) : Prop := mkReleased {
  rl_console : console w' = Virtio.new;
  rl_blk : blk w' = Blk.new;
  rl_wf : Blk.wf_disk (disk w');
  rl_template : template (disk w') = template (disk w);
  rl_private : forall t s, t < N_TENANTS -> s < DISK_SECTORS ->
    private (disk w') t s =
      if decide (vget (Metal.tenant_of w) target = Some (Some t)) then None else private (disk w) t s;
}.
Definition devices_kept (w w' : World) : Prop :=
  console w' = console w /\ blk w' = blk w /\ disk w' = disk w.

(** The tenants that are bound have a private disk. *)
Definition tenants_ok (w : World) : Prop :=
  Blk.wf_disk (disk w) /\ forall d t, vget (Metal.tenant_of w) d = Some (Some t) -> t < N_TENANTS.

(** ** Lemmas *)

Lemma backing_fits f : windows_ok -> f < num_frames b -> (backing f).1 + (backing f).2 <= u64_max.
Proof.
  intros [Hf Hd Hs _] Hlt. unfold backing. destruct (N.ltb_spec f (num_sup_frames b)); simpl.
  - assert ((f + 1) * SUPER_SIZE <= num_sup_frames b * SUPER_SIZE) by (apply N.mul_le_mono_r; lia). lia.
  - assert ((f + 1) * FRAME_SIZE <= num_frames b * FRAME_SIZE) by (apply N.mul_le_mono_r; lia). lia.
Qed.

Lemma runs_apart start size f f' pa : 0 < size -> f <> f' ->
  start + f * size <= pa < start + f * size + size ->
  ~ start + f' * size <= pa < start + f' * size + size.
Proof.
  intros Hz Hne H H'. destruct (N.lt_total f f') as [Hl|[?|Hl]]; [|done|].
  - assert ((f + 1) * size <= f' * size) by (apply N.mul_le_mono_r; lia). lia.
  - assert ((f' + 1) * size <= f * size) by (apply N.mul_le_mono_r; lia). lia.
Qed.

(** The memories behind two frames do not meet. *)
Lemma behind_apart f f' pa : windows_ok -> f < num_frames b -> f' < num_frames b -> f <> f' ->
  behind f pa -> ~ behind f' pa.
Proof.
  intros [_ _ _ Ha] Hf Hf' Hne. unfold behind, backing.
  destruct (N.ltb_spec f (num_sup_frames b)) as [Hs|Hs];
    destruct (N.ltb_spec f' (num_sup_frames b)) as [Hs'|Hs']; simpl.
  - by apply runs_apart.
  - assert ((f + 1) * SUPER_SIZE <= num_sup_frames b * SUPER_SIZE) by (apply N.mul_le_mono_r; lia).
    assert ((f' + 1) * FRAME_SIZE <= num_frames b * FRAME_SIZE) by (apply N.mul_le_mono_r; lia). lia.
  - assert ((f' + 1) * SUPER_SIZE <= num_sup_frames b * SUPER_SIZE) by (apply N.mul_le_mono_r; lia).
    assert ((f + 1) * FRAME_SIZE <= num_frames b * FRAME_SIZE) by (apply N.mul_le_mono_r; lia). lia.
  - by apply runs_apart.
Qed.

Lemma fill_spec m pa len byte a :
  fill m pa len byte a = if decide (pa <= a < pa + len) then byte else m a.
Proof.
  unfold fill. destruct (N.leb_spec pa a), (N.ltb_spec a (pa + len)); simpl; case_decide; (done || lia).
Qed.

(** Scrubbing zeroes the memory behind the frame, and nothing else. *)
Lemma wp_scrub f w (Q : World -> unit -> Prop) : windows_ok -> f < num_frames b ->
  (forall m, (forall pa, behind f pa -> m pa = 0) -> (forall pa, ~ behind f pa -> m pa = mem w pa) ->
     (forall pa, m pa = 0 \/ m pa = mem w pa) -> Q (with_mem w m) tt) ->
  wp (scrub_frame b f) Q w.
Proof.
  intros Hw Hf HQ. pose proof (backing_fits f Hw Hf) as Hfit. unfold scrub_frame. wp_step.
  set (m := fill (mem w) (backing f).1 (backing f).2 0).
  assert (Hm : Q (with_mem w m) tt).
  { apply HQ; intros pa; unfold m; rewrite fill_spec; unfold behind; case_decide; tauto. }
  unfold m, backing in Hm, Hfit. destruct (f <? num_sup_frames b); simpl in *;
    unfold frame_addr; wp_step; wp_step; (apply wp_umul; [lia|]); (apply wp_uadd; [lia|]); by do 2 wp_step.
Qed.

Lemma vlen_shadow p n : vlen (shadow p n) = n.
Proof. unfold shadow. by rewrite vlen_fmap, vlen_vrange. Qed.

Lemma vget_shadow p n f : vget (shadow p n) f = if decide (f < n) then Some (P2m.is_allocated p f) else None.
Proof. unfold shadow. rewrite vget_fmap, vget_vrange. by case_decide. Qed.

Lemma enumerate_split {A} (l : list A) l1 i x l2 :
  enumerate l = l1 ++ (i, x) :: l2 -> i = vlen l1 /\ vget l i = Some x.
Proof.
  intros E. assert (H : enumerate l !! length l1 = Some (i, x))
    by (rewrite E, lookup_app_r by lia; by rewrite Nat.sub_diag).
  unfold enumerate in H. apply lookup_zip_with_Some in H as (j & y & [= <- <-] & Hj & Hy).
  assert (Hv : vget (vrange (vlen l)) (vlen l1) = Some i) by (unfold vget, vlen; by rewrite Nat2N.id).
  rewrite vget_vrange in Hv. case_decide; [|done]. injection Hv as <-. split; [done|].
  unfold vget, vlen. by rewrite Nat2N.id.
Qed.

(** The pass over the shadow, [n] frames done. *)
Record sweeping (w : World) (n : N) (w' : World) : Prop := mkSweeping {
  sg_only : w' = lset allocated_l (Metal.allocated w') (with_mem w (mem w'));
  sg_shadow : forall f, vget (Metal.allocated w') f =
    if decide (f < n) then (fun _ => P2m.is_allocated (p2m (model w)) f) <$> vget (Metal.allocated w) f
    else vget (Metal.allocated w) f;
  sg_zero : forall f pa, f < n -> freed w (p2m (model w)) f -> behind f pa -> mem w' pa = 0;
  sg_rest : forall pa, (forall f, f < n -> freed w (p2m (model w)) f -> ~ behind f pa) ->
    mem w' pa = mem w pa;
  sg_either : forall pa, mem w' pa = 0 \/ mem w' pa = mem w pa;
}.

Lemma sweeping_start w : sweeping w 0 w.
Proof.
  split; [by destruct w| |intros f pa Hf; lia|done|by right]. intros f. case_decide; [lia|done].
Qed.

Lemma sweeping_step w n w' was : windows_ok -> vlen (Metal.allocated w) = num_frames b ->
  vget (Metal.allocated w) n = Some was -> sweeping w n w' ->
  wp (refresh (n, was)) (fun w'' _ => sweeping w (n + 1) w'') w'.
Proof.
  intros Hw Hlen Hn [Ho Hs Hz Hr He]. pose proof (vget_Some_lt _ _ _ Hn) as Hlt. rewrite Hlen in Hlt.
  assert (Hmod : model w' = model w) by (by rewrite Ho).
  assert (Hn' : vget (Metal.allocated w') n = Some was) by (rewrite Hs; case_decide; [lia|done]).
  unfold refresh. wp_step. wp_step. rewrite as_u32_id by (pose proof (wo_frames Hw); lia). rewrite Hmod.
  set (now := P2m.is_allocated (p2m (model w)) n).
  set (P := fun w1 => w1 = with_mem w' (mem w1) /\
    (freed w (p2m (model w)) n -> forall pa, behind n pa -> mem w1 pa = 0) /\
    (forall pa, (freed w (p2m (model w)) n -> ~ behind n pa) -> mem w1 pa = mem w' pa) /\
    (forall pa, mem w1 pa = 0 \/ mem w1 pa = mem w' pa)).
  wp_step. apply wp_mono with (Q := fun w1 _ => P w1).
  - destruct (was && negb now) eqn:Ef.
    + assert (Hfr : freed w (p2m (model w)) n).
      { apply andb_true_iff in Ef as [-> Hneg%negb_true_iff]. by split. }
      apply wp_scrub; [done..|]. intros m Hm Hm' Hm2.
      split_and!; [done|intros _; exact Hm| |exact Hm2]. intros pa Hpa. apply Hm'. by apply Hpa.
    + wp_step. split_and!; [by destruct w'| |done|by right]. intros [Hw1 Hnow].
      rewrite Hn in Hw1. injection Hw1 as ->. unfold now in Ef. by rewrite Hnow in Ef.
  - intros w1 _ (Eo & Hzero & Hrest & Heither). wp_step.
    assert (Hall : Metal.allocated w1 = Metal.allocated w') by (by rewrite Eo). split; simpl.
    + rewrite Eo, Ho. reflexivity.
    + intros f. rewrite Hall, vget_vset, Hs. pose proof (vget_Some_lt _ _ _ Hn').
      repeat case_decide; destruct_and?; subst; try lia; try done; by rewrite Hn.
    + intros f pa Hf Hfr Hb. destruct (decide (f = n)) as [->|Hne]; [by apply Hzero|].
      rewrite Hrest; [apply (Hz f); (done || lia)|]. intros _. eapply behind_apart; [exact Hw|..|exact Hb]; try done.
      destruct Hfr as [Hfr _]. apply vget_Some_lt in Hfr. lia.
    + intros pa Hpa. rewrite Hrest; [|intros; by apply Hpa; [lia|] ]. apply Hr. intros f Hf.
      apply Hpa. lia.
    + intros pa. destruct (Heither pa) as [->| ->]; [by left|apply He].
Qed.

Lemma sweep_run w : windows_ok -> vlen (Metal.allocated w) = num_frames b ->
  wp (for_each (enumerate (Metal.allocated w)) refresh) (fun w' _ =>
    w' = lset allocated_l (Metal.allocated w') (with_mem w (mem w')) /\ scrubbed w w') w.
Proof.
  intros Hw Hlen. apply wp_for_each with (I := fun l1 w' => sweeping w (vlen l1) w').
  - apply sweeping_start.
  - intros l1 [i was] l2 w' E HI. apply enumerate_split in E as [-> Hi]. rewrite vlen_snoc.
    by apply sweeping_step.
  - assert (Hn : vlen (enumerate (Metal.allocated w)) = vlen (Metal.allocated w)).
    { unfold enumerate, vlen. rewrite length_zip_with, <- (N2Nat.id (N.of_nat _)).
      pose proof (vlen_vrange (vlen (Metal.allocated w))) as Hv. unfold vlen in Hv. lia. }
    rewrite Hn. intros w' [Ho Hs Hz Hr He]. split; [done|].
    assert (Hmod : model w' = model w) by (by rewrite Ho).
    assert (Hb : forall f, freed w (p2m (model w)) f -> f < vlen (Metal.allocated w))
      by (intros f [Hf _]; by apply vget_Some_lt in Hf).
    split; rewrite ?Hmod.
    + apply vget_ext. intros f. rewrite Hs, vget_shadow. case_decide as Hf.
      * destruct (vget_lt_Some _ _ Hf) as [x Hx]. by rewrite Hx.
      * apply vget_None. lia.
    + intros f pa Hf. apply Hz; auto.
    + intros pa Hpa. apply Hr. auto.
    + exact He.
Qed.

Lemma wp_on_destroy target w : tenants_ok w ->
  wp (on_destroy target) (fun w' _ => released target w w' /\ tenants_ok w' /\
    model w' = model w /\ mem w' = mem w /\ Metal.allocated w' = Metal.allocated w /\
    Metal.tenant_of w' = Metal.tenant_of w /\ blk_tenant w' = blk_tenant w) w.
Proof.
  intros [Hd Ht]. unfold on_destroy. wp_step. wp_step. wp_step.
  apply wp_mono with (Q := fun w' _ => Blk.wf_disk (disk w') /\ template (disk w') = template (disk w) /\
    (forall t s, t < N_TENANTS -> s < DISK_SECTORS -> private (disk w') t s =
      if decide (vget (Metal.tenant_of w) target = Some (Some t)) then None else private (disk w) t s) /\
    model w' = model w /\ mem w' = mem w /\ Metal.allocated w' = Metal.allocated w /\
    Metal.tenant_of w' = Metal.tenant_of w /\ blk_tenant w' = blk_tenant w).
  - destruct (vget (Metal.tenant_of w) target) as [ [t|]|] eqn:Et.
    + destruct (discard_run (disk w) Hd t (Ht _ _ Et)) as (d' & E & Hd' & Htp & Hp).
      unfold discard_tenant_overlay. wp_step. wp_step.
      eapply wp_of_Done; [exact E|]. unfold say. wp_step. split_and!; [done|done| |done..].
      intros t' s Ht' Hs. simpl. rewrite Hp by done. simpl. repeat case_decide; naive_solver.
    + wp_step. split_and!; [done|done| |done..]. intros t' s _ _. by case_decide.
    + wp_step. split_and!; [done|done| |done..]. intros t' s _ _. by case_decide.
  - intros w1 _ (Hd1 & Ht1 & Hp1 & ? & ? & ? & Hof & ?). unfold reset_device_state. wp_step. wp_step. wp_step.
    split_and!; [by constructor| |done..]. split; [done|]. simpl. rewrite Hof. exact Ht.
Qed.

Lemma dispatch_run caller c w : windows_ok -> HInv (model w) ->
  vlen (Grant.maps (grant (model w))) <= u32_max -> vlen (Metal.allocated w) = num_frames b ->
  tenants_ok w ->
  exists w' r, dispatch caller c w = Done w' r /\
    Hypervisor.dispatch caller c (model w) = Done (model w') r /\
    Metal.tenant_of w' = Metal.tenant_of w /\ tenants_ok w' /\ blk_tenant w' = blk_tenant w /\
    match r with
    | Err _ => w' = lset model_l (model w') w /\ same_view (model w) (model w')
    | Ok _ => scrubbed w w' /\
        match c with DomainDestroy target _ => released target w w' | _ => devices_kept w w' end
    end.
Proof.
  intros Hw HI Hcap Hlen Ht.
  destruct (wp_Done _ _ _ (wp_dispatch (model w) caller c HI Hcap)) as (hv & r & E & (_ & _ & Hk) & _).
  cut (wp (dispatch caller c) (fun w' r' => r' = r /\ model w' = hv /\
    Metal.tenant_of w' = Metal.tenant_of w /\ tenants_ok w' /\ blk_tenant w' = blk_tenant w /\
    match r with
    | Err _ => w' = lset model_l (model w') w
    | Ok _ => scrubbed w w' /\
        match c with DomainDestroy target _ => released target w w' | _ => devices_kept w w' end
    end) w).
  { intros (w' & r' & E' & -> & Hm & Hof & Htt & Hbt & Hr)%wp_Done. exists w', r. subst hv.
    split_and!; [done..|]. by destruct r. }
  unfold dispatch. wp_step. wp_step. eapply wp_of_Done; [exact E|]. cbn beta. wp_step.
  set (w1 := lset model_l hv w). destruct r as [o|e]; simpl; [|by do 2 wp_step].
  wp_step. set (R := fun w' => match c with DomainDestroy t _ => released t w w' | _ => devices_kept w w' end).
  apply wp_mono with (Q := fun w2 _ => R w2 /\ tenants_ok w2 /\ model w2 = hv /\ mem w2 = mem w /\
    Metal.allocated w2 = Metal.allocated w /\ Metal.tenant_of w2 = Metal.tenant_of w /\
    blk_tenant w2 = blk_tenant w).
  { unfold R. destruct c; try (wp_step; by split_and!).
    wp_apply (wp_on_destroy target w1); [done|]. intros w2 _ ([ ] & ?). split; [by constructor|done]. }
  intros w2 _ (HR & Ht2 & Hm2 & Hmem & Hall & Hof & Hbt). wp_step. wp_step.
  wp_apply sweep_run; [done|by rewrite Hall|]. intros w3 _ (Eo & [Hs Hz Hre Hei]). wp_step.
  assert (Hm3 : model w3 = hv) by (by rewrite Eo).
  assert (Hfr : forall f, freed w2 (p2m (model w3)) f <-> freed w (p2m (model w3)) f)
    by (intros; unfold freed; by rewrite Hall).
  split_and!; [done|done|by rewrite Eo| |by rewrite Eo| |].
  - destruct Ht2 as [H1 H2]. by rewrite Eo.
  - split; [by rewrite <- Hall| | |by rewrite <- Hmem].
    + intros f pa Hf. by apply Hz, Hfr.
    + intros pa Hpa. rewrite Hre; [by rewrite Hmem|]. intros f Hf. by apply Hpa, Hfr.
  - unfold R in HR. destruct c; rewrite Eo; try exact HR. destruct HR. by constructor.
Qed.
End Board.
