(* ===== verification/Inherit.v ===== *)
(** * Content non-inheritance — the promise of [hv-metal/src/teardown.rs]

    Whatever the life of the machine has been — hypercalls through the funnel, interrupts,
    writes to frames that are allocated, accesses to the paravirtual devices — a frame that is
    free holds zeros or what it held at boot, and so does a frame that a call allocates. *)

From Stdlib Require Import NArith Lia.
From stdpp Require Import base numbers list option.
From S2P Require Import Grant.
From S2P Require Import P2m.
From S2P Require Import Hypervisor.
From S2P Require Import HvInvariant.
From S2P Require Import HvEvents.
From S2P Require Import HvSafety.
From S2P Require Import HvTheorems.
From S2P Require Import Blk.
From S2P Require Import Virtio.
From S2P Require Import Arm64.
From S2P Require Import Abort.
From S2P Require Import Metal.
From S2P Require Import Backend.
From S2P Require Import Confine.
From S2P Require Import Kick.
From S2P Require Import Paravirt.
From S2P Require Import Steady.
From S2P Require Import Teardown.
From S2P Require Import Prelude.
#[local] Open Scope N_scope.

(** ** Specification *)

#[local] Abbreviation free w f := (P2m.is_allocated (p2m (model w)) f = false).
#[local] Abbreviation live w f := (P2m.is_allocated (p2m (model w)) f = true).

Section Life.
Context (b : Board).

(** Every frame the guest offers the backend for writing is allocated and of the data
    window. *)
Definition offers_sound (w : World) : Prop :=
  forall m, Grant.authorizes (grant (model w)) VIRTIO_DOM VIRTIO_BACKEND m true = true ->
    live w m /\ num_sup_frames b <= m < num_frames b.

(** The machine [k] transitions of the model after it was booted as [w0]: the calls of
    guests through the funnel, interrupts, disks bound to domains, bytes written to frames that
    are allocated, and accesses to the device window. *)
Inductive lifetime (w0 : World) : N -> World -> Prop :=
| life_boot n ports grants vcpus pcpus devices :
    sizes_ok n ports grants vcpus pcpus (num_frames b) ->
    model w0 = Hypervisor.new n ports grants vcpus pcpus (num_frames b) devices ->
    Metal.allocated w0 = vrepeat (num_frames b) false -> Metal.tenant_of w0 = vrepeat n None ->
    wf_world w0 -> lifetime w0 0 w0
| life_call k w caller c w' r : lifetime w0 k w -> k <= u32_max ->
    Teardown.dispatch b caller c w = Done w' r -> lifetime w0 (k + 1) w'
| life_virq k w d v q hv r : lifetime w0 k w -> k <= u32_max ->
    apply (RaiseVcpuVirq d v q) (model w) = Done hv r -> lifetime w0 (k + 1) (lset model_l hv w)
| life_bind k w d t w' : lifetime w0 k w -> t < N_TENANTS ->
    bind_tenant d t w = Done w' tt -> lifetime w0 k w'
| life_write k w f pa byte : lifetime w0 k w -> f < num_frames b -> live w f -> behind b f pa ->
    byte < 256 -> lifetime w0 k (with_mem w (store (mem w) pa [byte]))
| life_mmio k w cpu esr far w' r : lifetime w0 k w -> offers_sound w -> vlen (x cpu) = 31 ->
    VIRTIO_MMIO_BASE <= far -> handle_mmio b cpu esr far w = Done w' r -> lifetime w0 k w'.

(** Nobody's bytes: all zero, or all as at boot. *)
Definition blank_in (w0 w : World) (f : Mfn) : Prop :=
  (forall pa, behind b f pa -> mem w pa = 0) \/ (forall pa, behind b f pa -> mem w pa = mem w0 pa).

Record clean_slate (w0 w : World) : Prop := mkCleanSlate {
  cs_frames : P2m.frame_count (p2m (model w)) = num_frames b;
  cs_shadow : Metal.allocated w = shadow (p2m (model w)) (num_frames b);
  cs_content : forall f, f < num_frames b -> free w f -> blank_in w0 w f;
  cs_wf : wf_world w;
  cs_tenants : tenants_ok w;
}.

(** ** Lemmas *)

Lemma blank_same w0 w w' f : (forall pa, behind b f pa -> mem w' pa = mem w pa) ->
  blank_in w0 w f -> blank_in w0 w' f.
Proof. intros H [Hb|Hb]; [left|right]; intros pa Hpa; rewrite H by done; by apply Hb. Qed.

Lemma freed_shadow w p f : Metal.allocated w = shadow (p2m (model w)) (num_frames b) ->
  freed w p f <-> f < num_frames b /\ live w f /\ P2m.is_allocated p f = false.
Proof.
  intros Hs. unfold freed. rewrite Hs, vget_shadow. case_decide; [|naive_solver]. split.
  - intros [ [= ->] ?]. done.
  - intros (_ & -> & ?). done.
Qed.

(** What the funnel leaves of the memory behind a frame that is free afterwards, or was
    free before. *)
Lemma scrubbed_blank w0 w w' f : windows_ok b -> Metal.allocated w = shadow (p2m (model w)) (num_frames b) ->
  scrubbed b w w' -> f < num_frames b -> (free w f -> blank_in w0 w f) ->
  free w f \/ free w' f -> blank_in w0 w' f.
Proof.
  intros Hw Hs [_ Hz Hr _] Hf Hb Hor. destruct (P2m.is_allocated (p2m (model w)) f) eqn:Ef.
  - destruct Hor as [?|Ef']; [done|]. left. intros pa. apply Hz. by apply freed_shadow.
  - eapply blank_same; [|by apply Hb]. intros pa Hpa. apply Hr.
    intros f' (Hf' & Hl & _)%freed_shadow; [|done]. eapply behind_apart; [exact Hw|..|exact Hpa]; try done.
    intros ->. by rewrite Ef in Hl.
Qed.


(** The funnel keeps the store well formed. *)
Lemma dispatch_wf w w' c : wf_world w -> tenants_ok w' -> scrubbed b w w' -> blk_tenant w' = blk_tenant w ->
  match c with DomainDestroy target _ => released target w w' | _ => devices_kept w w' end -> wf_world w'.
Proof.
  intros [ [Hd [Hb1 Hb2] Hm Ht] Hc Hbk] [Hd' _] [_ _ _ He] Hbt HR.
  assert (Hst : disk_bytes (disk w') -> wf_store w').
  { intros Hby. constructor; [done|done| |by rewrite Hbt]. intros pa.
    destruct (He pa) as [->| ->]; [done|apply Hm]. }
  assert (Hkept : devices_kept w w' -> wf_world w').
  { intros (H1 & H2 & H3). constructor; [|by rewrite H1|by rewrite H2]. apply Hst. rewrite H3. by split. }
  destruct c; try (by apply Hkept). destruct HR as [H1 H2 _ Htp Hp]. constructor.
  - apply Hst. split; [by rewrite Htp|]. intros t s l Htt Hs. rewrite Hp by done.
    case_decide; [done|]. by apply Hb2.
  - rewrite H1. constructor; try done. by exists 0, 0.
  - rewrite H2. constructor; try done. by exists 0, 0.
Qed.

Lemma view_free s s' f : same_view s s' -> P2m.is_allocated (p2m s') f = P2m.is_allocated (p2m s) f.
Proof.
  intros Hv. pose proof (P2m.oe_alloc _ _ (sv_p2m _ _ Hv) f) as H. unfold P2m.is_allocated.
  by destruct (P2m.allocated (p2m s') f), (P2m.allocated (p2m s) f).
Qed.

Lemma shadow_ext p p' n : (forall f, P2m.is_allocated p' f = P2m.is_allocated p f) -> shadow p' n = shadow p n.
Proof. intros H. apply vget_ext. intros f. rewrite !vget_shadow. by rewrite H. Qed.

(** One call through the funnel. *)
Lemma slate_call w0 k w caller c : windows_ok b -> reachable k (model w) -> k <= u32_max ->
  clean_slate w0 w ->
  exists w' r, Teardown.dispatch b caller c w = Done w' r /\
    Hypervisor.dispatch caller c (model w) = Done (model w') r /\ clean_slate w0 w' /\
    forall f, f < num_frames b -> free w f -> blank_in w0 w' f.
Proof.
  intros Hw HR Hk [Hfc Hsh Hco Hwf Htn]. destruct (reachable_HInv _ _ HR) as [HI Hcap].
  destruct (dispatch_run b caller c w Hw HI ltac:(lia)) as (w' & r & E & Em & Hof & Htn' & Hbt & Hr);
    [by rewrite Hsh, vlen_shadow|done|]. exists w', r.
  assert (Hfc' : P2m.frame_count (p2m (model w')) = num_frames b)
    by (rewrite <- Hfc; exact (steady_dispatch _ _ _ _ _ Em)).
  split; [done|]. split; [done|]. destruct r as [o|e].
  - destruct Hr as [Hs HR']. assert (Hbl : forall f, f < num_frames b -> free w f \/ free w' f -> blank_in w0 w' f).
    { intros f Hf. apply (scrubbed_blank w0 w w'); [done..|]. by apply Hco. }
    split; [|intros f Hf Hfr; apply Hbl; [done|by left] ]. constructor; [done| | | |done].
    + rewrite (sc_shadow _ _ _ Hs), Hsh. by rewrite vlen_shadow.
    + intros f Hf Hfr. apply Hbl; [done|by right].
    + by eapply dispatch_wf.
  - destruct Hr as [Eo Hv]. assert (Hmem : mem w' = mem w) by (by rewrite Eo).
    assert (Hbl : forall f, f < num_frames b -> free w f -> blank_in w0 w' f).
    { intros f Hf Hfr. eapply blank_same; [|by apply Hco]. intros. by rewrite Hmem. }
    split; [|done]. constructor; [done| | | |done].
    + assert (Hal : Metal.allocated w' = Metal.allocated w) by (by rewrite Eo).
      rewrite Hal, Hsh. apply shadow_ext. intros f. symmetry. by apply view_free.
    + intros f Hf Hfr. apply Hbl; [done|]. by rewrite <- (view_free _ _ f Hv).
    + rewrite Eo. destruct Hwf as [ [ ] ? ?]. constructor; [by constructor|done|done].
Qed.

Lemma shadow_agrees w0 w mfn : clean_slate w0 w ->
  shadow_says_allocated mfn w = Done w (P2m.is_allocated (p2m (model w)) mfn).
Proof.
  intros HC. unfold shadow_says_allocated, gets. f_equal. rewrite (cs_shadow _ _ HC), vget_shadow.
  case_decide as Hf; [done|]. unfold P2m.is_allocated.
  destruct (P2m.allocated (p2m (model w)) mfn) eqn:E; [|done]. apply P2m.allocated_lt in E.
  pose proof (cs_frames _ _ HC) as Hfc. unfold P2m.frame_count in Hfc. lia.
Qed.

Lemma slate_boot w0 n ports grants vcpus pcpus devices :
  model w0 = Hypervisor.new n ports grants vcpus pcpus (num_frames b) devices ->
  Metal.allocated w0 = vrepeat (num_frames b) false -> Metal.tenant_of w0 = vrepeat n None ->
  wf_world w0 -> clean_slate w0 w0.
Proof.
  intros Em Ha Ht Hw. constructor.
  - rewrite Em. unfold P2m.frame_count. simpl. apply vlen_vrepeat.
  - rewrite Ha, Em. apply vget_ext. intros f. rewrite vget_shadow, vget_vrepeat.
    case_decide as Hf; [|done]. f_equal. unfold P2m.is_allocated, P2m.allocated. unfold P2m.frame. simpl.
    rewrite vget_vrepeat. by rewrite decide_True.
  - intros f _ _. by right.
  - done.
  - split; [apply Hw|]. intros d t. rewrite Ht, vget_vrepeat. by case_decide.
Qed.

(** A change of memory where no free frame is keeps the slate clean. *)
Lemma slate_memory w0 w w' : model w' = model w -> Metal.allocated w' = Metal.allocated w ->
  Metal.tenant_of w' = Metal.tenant_of w -> wf_world w' ->
  (forall f pa, f < num_frames b -> free w f -> behind b f pa -> mem w' pa = mem w pa) ->
  clean_slate w0 w -> clean_slate w0 w'.
Proof.
  intros Em Ha Hof Hwf Hmem [Hfc Hsh Hco _ [_ Ht] ]. constructor.
  - by rewrite Em.
  - by rewrite Ha, Em.
  - intros f Hf. rewrite Em. intros Hfr. eapply blank_same; [|by apply Hco]. intros pa. by apply Hmem.
  - done.
  - split; [apply Hwf|]. by rewrite Hof.
Qed.

Lemma wf_store_mem w m : (forall pa, m pa < 256) -> wf_world w -> wf_world (with_mem w m).
Proof. intros Hm [ [ ] ? ?]. constructor; [by constructor|done|done]. Qed.

(** What the backend may write is behind an allocated frame, when the offers are sound. *)
Lemma granted_live w f pa : windows_ok b -> offers_sound w -> f < num_frames b -> free w f ->
  behind b f pa -> ~ granted b (model w) true pa.
Proof.
  intros Hw Ho Hf Hfr Hb (m & Hau & Hm). destruct (Ho m Hau) as (Hl & Hs & Hlt).
  eapply (behind_apart b f m pa); [done..| |exact Hb|].
  - intros ->. by rewrite Hl in Hfr.
  - unfold behind, backing. destruct (N.ltb_spec m (num_sup_frames b)); [lia|]. simpl. lia.
Qed.

Lemma lifetime_slate w0 k w : overflow_checks b = false -> board_ok b -> windows_ok b ->
  lifetime w0 k w -> reachable k (model w) /\ clean_slate w0 w.
Proof.
  intros Hrel Hb Hw. induction 1 as [n ports grants vcpus pcpus devices Hsz Em Ha Ht Hwf
    |k w caller c w' r _ [HR HC] Hk E|k w d v q hv r _ [HR HC] Hk E|k w d t w' _ [HR HC] Ht E
    |k w f pa byte _ [HR HC] Hf Hl Hbe Hby|k w cpu esr far w' r _ [HR HC] Ho Hx Hfar E].
  - split; [rewrite Em; by apply reach_boot|by eapply slate_boot].
  - destruct (slate_call w0 k w caller c Hw HR Hk HC) as (w1 & r1 & E1 & Em & HC' & _).
    rewrite E in E1. injection E1 as <- <-. split; [|done].
    eapply (reach_step k (model w) (Guest caller c)); [done|done|]. simpl. unfold bind. by rewrite Em.
  - split; [by eapply reach_step|]. simpl in E. unfold bind in E.
    destruct (raise_vcpu_virq d v q (model w)) as [hv' r'|] eqn:E'; [|done]. injection E as -> <-.
    pose proof (virq_pages _ _ _ _ _ _ E') as Hp. unfold same_pages in Hp.
    destruct HC as [Hfc Hsh Hco [ [ ] ? ?] Htn]. constructor; simpl; try rewrite <- Hp; try done.
  - split; [by injection E as <-|]. injection E as <-. destruct HC as [Hfc Hsh Hco [ [ ] ? ?] [Hd Htn] ].
    constructor; try done. split; [done|]. intros d' t'. simpl.
    rewrite vget_vset. case_decide; [by intros [= <-]|apply Htn].
  - split; [done|]. apply slate_memory with (w := w); try done.
    + apply wf_store_mem; [|apply HC]. intros pa'. apply bytes_store; [apply HC|].
      intros x ->%list_elem_of_singleton. done.
    + intros f' pa' Hf' Hfr Hbe'. simpl. apply store_other. intros Hpa.
      assert (pa' = pa) as -> by (unfold vlen in Hpa; simpl in Hpa; lia).
      eapply (behind_apart b f f' pa); [done|done|done| |done|done]. intros ->. by rewrite Hl in Hfr.
  - destruct (mmio_run b Hrel cpu esr far w (cs_wf _ _ HC) Hx Hfar) as (w1 & r1 & E1 & Hwf & He & _).
    rewrite E in E1. injection E1 as <- <-. destruct He as [Em _ _ Ha Hof].
    split; [by rewrite Em|]. apply slate_memory with (w := w); [done..| |done].
    intros f pa Hf Hfr Hbe. pose proof (confined_mmio b Hb (fun _ => True) cpu esr far w w (agree_refl b w) I) as Hc.
    rewrite E in Hc. destruct Hc as (_ & _ & [_ Hk] & _). apply Hk. by eapply granted_live.
Qed.
End Life.

(** ** Small machines *)

(** Calls through the funnel, one after the other. *)
Fixpoint calls (b : Board) (l : list (DomId * HvCall)) : M World unit :=
  match l with
  | [] => ret tt
  | (caller, c) :: l => let! _ := Teardown.dispatch b caller c in calls b l
  end.

Lemma lifetime_calls b w0 l k w w' : lifetime b w0 k w -> k + vlen l <= u32_max ->
  calls b l w = Done w' tt -> lifetime b w0 (k + vlen l) w'.
Proof.
  revert k w. induction l as [|[caller c] l IH]; intros k w HL Hk; simpl.
  - intros [= <-]. by rewrite N.add_0_r.
  - assert (Hl : vlen ((caller, c) :: l) = 1 + vlen l) by (unfold vlen; simpl; lia).
    unfold bind. destruct (Teardown.dispatch b caller c w) as [w1 r|] eqn:E; [|done]. intros E'.
    rewrite Hl, N.add_assoc. apply (IH _ w1); [|lia|done]. eapply life_call; [done|lia|exact E].
Qed.

(** Frame [f], which guest 1 offers the backend for writing, holds the used ring of the
    console. *)
Definition kick_boot (f : N) : World :=
  mkWorld pv_boot (pv_mem 0x80003000)
    (mkConsole 0 1 [0; 1] 0 8 1 0x80002000 0x80002100 (0x80000000 + f * FRAME_SIZE) 15 0 0 0)
    Blk.new new_disk Console 0 (vrepeat 8 false) (vrepeat 3 None) false false false [].
Definition kick_setup (f : N) : list (DomId * HvCall) :=
  [(0, DomainCreate 1 false); (0, DomainCreate 2 false);
   (1, P2mAllocate 2); (1, P2mAllocate 3); (1, P2mAllocate f);
   (1, GrantAccess 0 0 2 false); (1, GrantAccess 1 0 3 true); (1, GrantAccess 2 0 f false)].

Definition outcome_or {S T} (d : S) (o : outcome S T) : S := match o with Done s _ => s | Panic => d end.
Definition kick_world (f : N) (more : list (DomId * HvCall)) : World :=
  outcome_or (kick_boot f) (calls pv_board (kick_setup f ++ more) (kick_boot f)).

Lemma pv_board_ok : board_ok pv_board.
Proof. split; vm_compute; congruence. Qed.
Lemma pv_windows_ok : windows_ok pv_board.
Proof. split; [vm_compute; congruence..|]. left. vm_compute. congruence. Qed.

Lemma kick_boot_life f : f < 8 -> lifetime pv_board (kick_boot f) 0 (kick_boot f).
Proof.
  intros Hf. apply (life_boot pv_board (kick_boot f) 3 1 4 1 1 0); try done.
  constructor; [apply new_store_wf; [apply pv_mem_byte|done]| |].
  - constructor; simpl; try done; [by exists 0, 1|unfold FRAME_SIZE; lia].
  - constructor; try done. by exists 0, 0.
Qed.

Definition completes {S T} (o : outcome S T) : bool := match o with Done _ _ => true | Panic => false end.

Lemma kick_world_life f more : f < 8 -> vlen more <= 100 ->
  completes (calls pv_board (kick_setup f ++ more) (kick_boot f)) = true ->
  lifetime pv_board (kick_boot f) (8 + vlen more) (kick_world f more).
Proof.
  intros Hf Hm Hc. unfold kick_world. destruct (calls _ _ _) as [w []|] eqn:E; [|done]. simpl.
  replace (8 + vlen more) with (0 + vlen (kick_setup f ++ more)) by (unfold vlen; rewrite length_app; simpl; lia).
  eapply lifetime_calls; [by apply kick_boot_life| |exact E].
  unfold vlen in *. rewrite length_app. simpl. unfold u32_max. lia.
Qed.

(** ** Properties *)

(** C16: the funnel, exactly. A call through it ends, with the answer and the state of the
    model's dispatch. A rejected call changes nothing but what no observer of the model can
    tell apart. After an accepted one the memory behind every frame that the shadow had as
    allocated and that is free now is zero and no other byte has changed, the shadow is that of
    the model, and the devices and the disk are as they were, but for the teardown of a domain:
    it resets both devices and discards the private sectors of the tenant bound to it, and of
    no other. *)
Theorem funnel_exact (b : Board) (caller : DomId) (c : HvCall) (w : World) (k : N) :
  windows_ok b -> reachable k (model w) -> k <= u32_max ->
  vlen (Metal.allocated w) = num_frames b -> tenants_ok w ->
  exists w' r, Teardown.dispatch b caller c w = Done w' r /\
    Hypervisor.dispatch caller c (model w) = Done (model w') r /\
    Metal.tenant_of w' = Metal.tenant_of w /\
    match r with
    | Err _ => w' = lset model_l (model w') w /\ same_view (model w) (model w')
    | Ok _ => scrubbed b w w' /\
        match c with DomainDestroy target _ => released target w w' | _ => devices_kept w w' end
    end.
Proof.
  intros Hw HR Hk Hl Ht. destruct (reachable_HInv _ _ HR) as [HI Hcap].
  destruct (dispatch_run b caller c w Hw HI ltac:(lia) Hl Ht) as (w' & r & E & Em & Hof & _ & _ & Hr).
  by exists w', r.
Qed.

Theorem funnel_exact_witness :
  let w := kick_world 4 [] in
  exists w' r, Teardown.dispatch pv_board 0 (DomainDestroy 1 0) w = Done w' r /\
    Hypervisor.dispatch 0 (DomainDestroy 1 0) (model w) = Done (model w') r /\
    Metal.tenant_of w' = Metal.tenant_of w /\
    match r with
    | Err _ => w' = lset model_l (model w') w /\ same_view (model w) (model w')
    | Ok _ => scrubbed pv_board w w' /\ released 1 w w'
    end.
Proof.
  intros w. assert (HL : lifetime pv_board (kick_boot 4) 8 w)
    by (apply (kick_world_life 4 []); vm_compute; [reflexivity|discriminate|reflexivity]).
  destruct (lifetime_slate pv_board _ _ _ eq_refl pv_board_ok pv_windows_ok HL) as [HR HC].
  apply (funnel_exact pv_board 0 (DomainDestroy 1 0) w 8 pv_windows_ok HR);
    [vm_compute; discriminate|by rewrite (cs_shadow _ _ _ HC), vlen_shadow|apply HC].
Defined.


Definition freed_4 : World := kick_world 4 [(1, P2mFree 4)].


(** What stands between: an offer outlives the ownership of the frame. Guest 1 frees
    frame 4 without withdrawing its offer, which is scrubbed; a kick of its queue then writes
    the used ring into the free frame, and domain 2, which allocates it, finds those bytes. *)
Theorem stale_offer_inherits :
  lifetime pv_board (kick_boot 4) 9 freed_4 /\ free freed_4 4 /\
  exists w' cpu' w'', handle_mmio pv_board pv_cpu pv_esr pv_far freed_4 = Done w' (Ok cpu') /\
    Teardown.dispatch pv_board 2 (P2mAllocate 4) w' = Done w'' (Ok ODone) /\
    P2m.owner_of (p2m (model w'')) 4 = Some 2 /\
    fetch (mem (kick_boot 4)) 0x1004000 4 = [0; 0; 0; 0] /\
    fetch (mem w'') 0x1004000 4 = [0; 0; 1; 0].
Proof.
  split; [apply (kick_world_life 4 [(1, P2mFree 4)]); by vm_compute|]. split; [vm_compute; reflexivity|].
  assert (El : match handle_mmio pv_board pv_cpu pv_esr pv_far freed_4 with
    | Done w' (Ok _) => match Teardown.dispatch pv_board 2 (P2mAllocate 4) w' with
      | Done w'' r => r = Ok ODone /\ P2m.owner_of (p2m (model w'')) 4 = Some 2 /\
          fetch (mem w'') 0x1004000 4 = [0; 0; 1; 0]
      | Panic => False end
    | _ => False end) by (vm_compute; split_and!; reflexivity).
  destruct (handle_mmio pv_board pv_cpu pv_esr pv_far freed_4) as [w' [cpu'|]|]; [|destruct El..].
  destruct (Teardown.dispatch pv_board 2 (P2mAllocate 4) w') as [w'' r|] eqn:E; [|destruct El].
  destruct El as (-> & Ho & Hf). exists w', cpu', w''. split_and!; [reflexivity|exact E|exact Ho| |exact Hf].
  vm_compute. reflexivity.
Qed.

(** And the backend reaches a frame of the super partition elsewhere than the scrub
    does: through its page of the data window. What it wrote for frame 0 is read back through
    it after the frame was freed and scrubbed. *)
Theorem scrub_misses_alias :
  let w := kick_world 0 [] in
  lifetime pv_board (kick_boot 0) 8 w /\ P2m.owner_of (p2m (model w)) 0 = Some 1 /\
  exists w' cpu' w'', handle_mmio pv_board pv_cpu pv_esr pv_far w = Done w' (Ok cpu') /\
    Teardown.dispatch pv_board 1 (P2mFree 0) w' = Done w'' (Ok ODone) /\ free w'' 0 /\
    guest_read pv_board 0x80000000 4 (kick_boot 0) = Done (kick_boot 0) (Ok [0; 0; 0; 0]) /\
    guest_read pv_board 0x80000000 4 w'' = Done w'' (Ok [0; 0; 1; 0]).
Proof.
  intros w. split; [apply (kick_world_life 0 []); by vm_compute|]. split; [vm_compute; reflexivity|].
  assert (El : match handle_mmio pv_board pv_cpu pv_esr pv_far w with
    | Done w' (Ok _) => match Teardown.dispatch pv_board 1 (P2mFree 0) w' with
      | Done w'' r => r = Ok ODone /\ free w'' 0 /\ fetch (mem w'') 0x1000000 4 = [0; 0; 1; 0]
      | Panic => False end
    | _ => False end) by (vm_compute; split_and!; reflexivity).
  destruct (handle_mmio pv_board pv_cpu pv_esr pv_far w) as [w' [cpu'|]|]; [|destruct El..].
  destruct (Teardown.dispatch pv_board 1 (P2mFree 0) w') as [w'' r|] eqn:E; [|destruct El].
  destruct El as (-> & Ho & Hf). exists w', cpu', w''. split_and!; [reflexivity|exact E|exact Ho|reflexivity|].
  unfold guest_read, tbind, bind, lift, ret, get, ok. simpl. rewrite <- Hf. reflexivity.
Qed.
