(* ===== verification/Build.v ===== *)
(** * Building the second stage — [hv-metal/src/stage2.rs]

    From the state of the hypervisor to the tables of a domain and the register that points
    the processor at them: the leaf map, the two checks on it, the layout, the emission, the
    read-back and the handles, composed as [build_stage2_from_p2m] composes them. *)

From Stdlib Require Import NArith Lia.
From stdpp Require Import base numbers list option.
From S2P Require Import P2m.
From S2P Require Import Hypervisor.
From S2P Require Import HvInvariant.
From S2P Require Import HvSafety.
From S2P Require Import LeafMap.
From S2P Require Import S2Check.
From S2P Require Import Arm64.
From S2P Require Import Stage2.
From S2P Require Import Emission.
From S2P Require Import Walk.
From S2P Require Import ReadBack.
From S2P Require Import Isolation.
From S2P Require Import Regime.
From S2P Require Import Smmu.
From S2P Require Import DevicePath.
From S2P Require Import Virtio.
From S2P Require Import Blk.
From S2P Require Import Metal.
From S2P Require Import Backend.
From S2P Require Import Paravirt.
From S2P Require Import Teardown.
From S2P Require Import Inherit.
From S2P Require Import Prelude.
#[local] Open Scope N_scope.

(** The features the image is built with, and the addresses the linker gives the guest image
    and the table sets. *)
Record Image : Type := mkImage {
  real_linux : bool;
  selftest : bool;
  guest_ram_start : N;
  stage2_sets : N;
}.

Definition SUP_IPA_BASE : N := 0xC0000000.
Definition LINUX_RAM_BASE : N := 0x48000000.
Definition LINUX_RAM_END : N := 0x80000000.
Definition NUM_STAGE2_SETS : N := 2.
Definition set_vmid (set : N) : N := set + 1.

(** The windows of a build; [sup_frames] is the [num_sup_frames] of the board. *)
Record Windows : Type := mkWin {
  w_data_ipa_base : N;
  w_sup_ipa_base : N;
  w_sup_frames : N;
  w_device_base : N;
  w_device_len : N;
}.
Definition windows (im : Image) : Windows :=
  if real_linux im
  then mkWin DATA_IPA_BASE LINUX_RAM_BASE ((LINUX_RAM_END - LINUX_RAM_BASE) / SUPER_SIZE) 0 0
  else mkWin DATA_IPA_BASE SUP_IPA_BASE 1 0 0.

(** Why the emission stops the machine. *)
Inductive BuildHalt : Type :=
| CannotRepresent (e : MapError)
| BaseInSuperPartition (mfn : N)
| ShadowDisagrees (mfn : N)
| LayoutInvalid (e : EncodingViolation)
| Violation (e : EncodingViolation)
| Unnameable (e : HandleError).

(** Run on a local variable. *)
Definition locally {S L T} (m : M L T) (x : L) : M S (L * T) := fun s =>
  match m x with Done x' r => Done s (x', r) | Panic => Panic end.

Section Image.
Context (b : Board) (im : Image).

(** The six tables of a set lie end to end. *)
Definition table_pa (set n : N) : N := stage2_sets im + (set * 6 + n) * 4096.
Definition layout (set : N) : Layout :=
  mkLayout (table_pa set 0) (table_pa set 1) (table_pa set 2) (table_pa set 3) (table_pa set 4)
    (table_pa set 5)
    (if real_linux im then None else Some (guest_ram_start im))
    (w_data_ipa_base (windows im)) (data_ram_start b) FRAME_SIZE
    (w_sup_ipa_base (windows im)) (sup_ram_start b)
    (w_device_base (windows im)) (w_device_len (windows im)) (real_linux im) (num_sup_frames b).

(** The first base leaf inside the super partition. *)
Definition base_in_super (leaves : list (option Perm)) : option N :=
  first_some (fun '(mfn, leaf) =>
    match leaf with Some _ => if mfn <? num_sup_frames b then Some mfn else None | None => None end)
    (enumerate leaves).

(** The first frame whose allocation the shadow of the funnel has otherwise. *)
Definition shadow_mismatch (hv : Hypervisor) (w : World) (n : N) : M World (option N) :=
  first_some_m (vrange n) (fun mfn =>
    let! was := shadow_says_allocated (as_u32 mfn) in
    ret (if Bool.eqb (P2m.is_allocated (p2m hv) (as_u32 mfn)) was then None else Some mfn)).

(** The cleaning of the caches and the registration with the SMMU are not modelled. The
    tables and the shadow of the funnel are two statics; the shadow is only read. *)
Definition build_stage2_from_p2m (w : World) (guest_dom : DomId) (set : N) :
    M (list Tables) (result BuildHalt N) :=
  let hv := model w in
  if TABLE_ENTRIES <? num_sup_frames b then panic else
  let! mapped := locally (leaf_map (p2m hv) guest_dom)
    (mkMaps (vrepeat TABLE_ENTRIES None) (vrepeat (num_sup_frames b) None)) in
  let leaves := base mapped.1 in
  let supers := sup mapped.1 ++ vrepeat (TABLE_ENTRIES - num_sup_frames b) None in
  match mapped.2 with
  | Err e => err (CannotRepresent e)
  | Ok _ =>
  match base_in_super leaves with
  | Some mfn => err (BaseInSuperPartition mfn)
  | None =>
  let! checked := locally (shadow_mismatch hv w (vlen leaves)) w in
  match checked.2 with
  | Some mfn => err (ShadowDisagrees mfn)
  | None =>
  let! sets := get in
  let! tables := index sets set in
  let lay := layout set in
  let! valid := locally (validate lay) lay in
  match valid.2 with
  | Err e => err (LayoutInvalid e)
  | Ok _ =>
  let! encoded := locally (encode leaves supers lay) tables in
  modify (fun sets => vset sets set encoded.1) ;!
  let! verdict :=
    if selftest im then locally (verify_encoding leaves supers lay encoded.1) lay else ret (lay, Ok tt) in
  match verdict.2 with
  | Err e => err (Violation e)
  | Ok _ =>
  let! h := stage2_handles lay (set_vmid set) in
  match h with
  | Err e => err (Unnameable e)
  | Ok h => ok (h_vttbr h)
  end end end end end end.

(** ** Specification *)

(** The image is one that the windows of the board and the layout of the set fit: checked
    once, by the linker and by [validate]. *)
Record image_ok (set : N) : Prop := mkImageOk {
  io_valid : validate (layout set) (layout set) = Done (layout set) (Ok tt);
  io_sup : num_sup_frames b <= TABLE_ENTRIES;
  io_data_pa : data_ram_start b + BLOCK_SIZE <= 2 ^ 48;
  io_sup_pa : sup_ram_start b + num_sup_frames b * BLOCK_SIZE <= 2 ^ 48;
}.

(** What a walk of the tables of a domain may reach: the guest image, for reading and
    execution, or a byte behind a frame that is allocated and that the domain may access so. *)
Inductive reaches (w : World) (d : DomId) (set ipa : N) (r : Reach) : Prop :=
| reaches_image : in_image (layout set) ipa = true -> r = mkReach ipa Ro false -> reaches w d set ipa r
| reaches_frame f p : f < num_frames b -> P2m.is_allocated (p2m (model w)) f = true ->
    leaf_ok (model w) d f p -> behind b f (r_pa r) ->
    leaf_access_xn p (real_linux im && (f <? num_sup_frames b)) = (r_perm r, r_xn r) ->
    reaches w d set ipa r.

Definition empty_maps : Maps :=
  mkMaps (vrepeat TABLE_ENTRIES None) (vrepeat (num_sup_frames b) None).

(** ** Lemmas *)

Lemma wp_locally {S L T} (m : M L T) (x : L) (Q : S -> L * T -> Prop) s :
  wp m (fun x' r => Q s (x', r)) x -> wp (locally m x) Q s.
Proof. unfold wp, locally. by destruct (m x). Qed.

(** On a clean slate the check of the shadow passes. *)
Lemma wp_shadow_mismatch w0 w n : clean_slate b w0 w ->
  wp (shadow_mismatch (model w) w n) (fun w' o => w' = w /\ o = None) w.
Proof.
  intros HC. apply wp_first_some_m; [|done]. intros f _. wp_step.
  eapply wp_of_Done; [by eapply shadow_agrees|]. cbn beta. wp_step. by rewrite Bool.eqb_reflx.
Qed.

Lemma base_in_super_None leaves : base_in_super leaves = None ->
  forall m p, vget leaves m = Some (Some p) -> num_sup_frames b <= m.
Proof.
  unfold base_in_super. rewrite first_some_None. intros H m p Hm.
  specialize (H (m, Some p) (proj2 (elem_enumerate _ _ _) Hm)). simpl in H.
  by destruct (N.ltb_spec m (num_sup_frames b)).
Qed.

Lemma base_in_super_Some leaves m : base_in_super leaves = Some m ->
  m < num_sup_frames b /\ exists p, vget leaves m = Some (Some p).
Proof.
  intros ([i [p|] ] & Hi%elem_enumerate & H)%first_some_Some; [|done].
  destruct (N.ltb_spec i (num_sup_frames b)); [|done]. injection H as <-. split; [done|by exists p].
Qed.

Lemma emitted_skeleton lay leaves supers t : Emission.emitted lay leaves supers t -> skeleton lay t.
Proof.
  assert (H : forall f l, holds f l -> Emission.quiet f l).
  { intros f l [Hl Hf]. split; [done|]. intros i Hi Hz. by rewrite Hf, Hz. }
  intros [ ]. constructor; auto.
Qed.

Lemma no_device set ipa : in_window (device_base (layout set)) (device_len (layout set)) ipa = false.
Proof.
  unfold in_window, layout, windows. simpl. destruct (real_linux im); simpl;
    apply andb_false_iff; right; apply N.ltb_ge; lia.
Qed.

(** What a walk of the tables of a build reaches. *)
Lemma build_reach k w0 w d o' set t fetch ipa r :
  reachable k (model w) -> clean_slate b w0 w -> image_ok set ->
  leaf_map (p2m (model w)) d empty_maps = Done o' (Ok tt) ->
  (forall sp, vlen (map_of sp o') = vlen (map_of sp empty_maps)) ->
  base_in_super (base o') = None -> nameable_windows (layout set)
    (padded (TABLE_ENTRIES - num_sup_frames b) (sup o')) ->
  Emission.emitted (layout set) (base o') (padded (TABLE_ENTRIES - num_sup_frames b) (sup o')) t ->
  fetches (layout set) t fetch -> walk (l1_pa (layout set)) ipa fetch = Some r -> reaches w d set ipa r.
Proof.
  intros HR HC [Hval Hsup _ _] E Hlen Hbs Hw He Hf Hwalk. destruct (reachable_HInv _ _ HR) as [HI _].
  apply validate_valid in Hval as [_ Hv].
  assert (Hok : forall sp m p, vget (map_of sp o') m = Some (Some p) -> m < num_frames b /\
    P2m.is_allocated (p2m (model w)) m = true /\ leaf_ok (model w) d m p).
  { intros sp m p Hm. assert (Hl : vlen (map_of Base empty_maps) <= u32_max + 1) by done.
    assert (Hl' : vlen (map_of Super empty_maps) <= u32_max + 1).
    { simpl. rewrite vlen_vrepeat. unfold TABLE_ENTRIES in Hsup. unfold u32_max. lia. }
    destruct (emitted_leaf_ok _ d empty_maps o' sp m p HI Hl Hl' E Hm) as [_ Hk]. pose proof Hk as (_ & ow & Ho & _).
    unfold P2m.owner_of in Ho. destruct (P2m.allocated (p2m (model w)) m) as [a|] eqn:Ha; [|done].
    split; [|split; [unfold P2m.is_allocated; by rewrite Ha|done] ].
    apply P2m.allocated_lt in Ha. rewrite <- (cs_frames _ _ _ HC). exact Ha. }
  destruct (emitted_reach _ _ _ _ t fetch ipa r Hv Hw He Hf Hwalk)
    as [ [H1 H2]|[ (m & p & Hm & [Hlo Hhi] & Hx)|[ (m & p & Hm & [Hlo Hhi] & Hx)|[H1 _] ] ] ].
  - by apply reaches_image.
  - pose proof (base_in_super_None _ Hbs m p Hm) as Hge. apply N.ltb_ge in Hge.
    destruct (Hok Base m p Hm) as (Hlt & Hl & Hk). apply reaches_frame with (f := m) (p := p); try done.
    + unfold behind, backing. rewrite Hge. simpl. unfold layout in Hlo, Hhi. change PAGE_SIZE with FRAME_SIZE in Hlo, Hhi.
      simpl in Hlo, Hhi. lia.
    + by rewrite Hge, andb_false_r.
  - pose proof (vget_Some_lt _ _ _ Hm) as Hlt'. change (sup o') with (map_of Super o') in Hlt'.
    rewrite (Hlen Super) in Hlt'. simpl in Hlt'.
    rewrite vlen_vrepeat in Hlt'. apply N.ltb_lt in Hlt'.
    destruct (Hok Super m p Hm) as (Hlt & Hl & Hk). apply reaches_frame with (f := m) (p := p); try done.
    + unfold behind, backing. rewrite Hlt'. simpl. unfold layout in Hlo, Hhi. change BLOCK_SIZE with SUPER_SIZE in Hlo, Hhi.
      simpl in Hlo, Hhi. lia.
    + by rewrite Hlt', andb_true_r.
  - by rewrite no_device in H1.
Qed.

Lemma padded_nameable set o' : image_ok set -> vlen (sup o') = num_sup_frames b ->
  nameable_windows (layout set) (padded (TABLE_ENTRIES - num_sup_frames b) (sup o')).
Proof.
  intros [_ _ Hd Hs] Hl. split; [exact Hd|exact Hs|]. intros m Hm. rewrite wanted_padded.
  apply wanted_beyond. by rewrite Hl.
Qed.

(** The end of a build: the emission, its read-back and the handles. *)
Definition answer (w0 w : World) (k : N) (d : DomId) (set : N) (sets sets' : list Tables)
    (r : result BuildHalt N) : Prop :=
  (forall i, i <> set -> vget sets' i = vget sets i) /\
  match r with
  | Ok v =>
      vttbr_table v = table_pa set 0 /\ vttbr_vmid v BALEEN_VMID_BITS = set_vmid set mod 256 /\
      exists t, vget sets' set = Some t /\ skeleton (layout set) t /\
        forall fetch ipa rc, fetches (layout set) t fetch -> walk (vttbr_table v) ipa fetch = Some rc ->
          reaches w d set ipa rc /\
          (r_perm rc = Rw -> forall byte, byte < 256 ->
             lifetime b w0 k (with_mem w (store (mem w) (r_pa rc) [byte])))
  | Err (CannotRepresent e) => exists o', leaf_map (p2m (model w)) d empty_maps = Done o' (Err e)
  | Err (BaseInSuperPartition m) => m < num_sup_frames b /\
      exists o' p, leaf_map (p2m (model w)) d empty_maps = Done o' (Ok tt) /\
        vget (base o') m = Some (Some p)
  | Err _ => False
  end.

Lemma reaches_store w0 k w d set ipa rc byte : lifetime b w0 k w -> reaches w d set ipa rc ->
  r_perm rc = Rw -> byte < 256 -> lifetime b w0 k (with_mem w (store (mem w) (r_pa rc) [byte])).
Proof.
  intros HL [_ ->|f p Hf Hl _ Hb _] Hp Hby; [done|]. by apply life_write with (f := f).
Qed.

Lemma build_run w0 w k d set sets t0 : reachable k (model w) -> clean_slate b w0 w ->
  lifetime b w0 k w -> image_ok set -> vget sets set = Some t0 -> skeleton (layout set) t0 ->
  wp (build_stage2_from_p2m w d set) (answer w0 w k d set sets) sets.
Proof.
  intros HR HC HL Him Ht0 Hsk. pose proof Him as [Hval Hsup _ _].
  pose proof Hval as [_ Hv]%validate_valid.
  assert (Hkeep : forall t i, i <> set -> vget (vset sets set t) i = vget sets i)
    by (intros; by apply vget_vset_ne).
  unfold build_stage2_from_p2m. destruct (N.ltb_spec TABLE_ENTRIES (num_sup_frames b)); [lia|].
  destruct (leaf_map_spec (P2m.owner_of (p2m (model w))) (span_of_table (p2m (model w))) d
    (P2m.link_edges (p2m (model w))) empty_maps ltac:(done)) as (o' & r & E & Hlen & Hr).
  change (leaf_map (p2m (model w)) d empty_maps = Done o' r) in E.
  wp_step. apply wp_locally. eapply wp_of_Done; [exact E|]. cbn [fst snd].
  destruct r as [ []|e]; [clear Hr|wp_step; split; [done|by exists o'] ].
  destruct (base_in_super (base o')) as [m|] eqn:Hbs.
  { wp_step. split; [done|]. apply base_in_super_Some in Hbs as [Hm [p Hp] ]. split; [done|]. by exists o', p. }
  wp_step. apply wp_locally. wp_apply wp_shadow_mismatch; [exact HC|]. intros w' o [-> ->]. cbn [fst snd].
  wp_step. wp_step. wp_step. apply wp_index. exists t0. split; [done|].
  wp_step. apply wp_locally. eapply wp_of_Done; [exact Hval|]. cbn [fst snd].
  pose proof (Hlen Super) as Hls. simpl in Hls. rewrite vlen_vrepeat in Hls.
  pose proof (padded_nameable set o' Him Hls) as Hw.
  wp_step. apply wp_locally. wp_apply encode_emitted; [done|exact Hw|exact Hsk|]. intros t [] He. cbn [fst snd].
  wp_step. wp_step. wp_step.
  apply wp_mono with (Q := fun s v => s = vset sets set t /\ v.2 = Ok tt).
  { destruct (selftest im); [|by wp_step]. apply wp_locally.
    eapply wp_of_Done; [by apply verify_ok|done]. }
  intros s v [-> ->]. wp_step. destruct (handles_run (layout set) (set_vmid set) (vset sets set t)) as (r & Eh & Hh).
  eapply wp_of_Done; [exact Eh|]. cbn beta.
  destruct (vl_tables _ Hv (l1_pa (layout set)) ltac:(by left)) as [Hal Hlt].
  destruct r as [h|e]; [|by destruct Hh]. destruct Hh as (_ & _ & Hvt & _). wp_step.
  split; [by apply Hkeep|]. rewrite Hvt.
  destruct (vttbr_reads (l1_pa (layout set)) (set_vmid set) Hlt) as [Htab Hvm]. rewrite Htab.
  split; [done|]. split; [exact Hvm|]. exists t.
  split; [by eapply vget_vset_eq, vget_Some_lt|]. split; [by eapply emitted_skeleton|].
  intros fetch ipa rc Hf Hwalk.
  assert (Hre : reaches w d set ipa rc) by (eapply build_reach; eassumption).
  split; [done|]. intros Hp byte Hby. by eapply reaches_store.
Qed.
End Image.

(** ** Properties *)

(** C5: the guest's view of memory, end to end. At any point of the life of the machine,
    building the second stage of a domain into a table set of a valid image ends without a
    panic and leaves the other sets alone. It stops the machine only for a state that no
    tables can represent — a leaf map that fails, or a page-sized leaf of a frame of the super
    partition; the shadow of the funnel, the read-back and the handles never stop it. Otherwise
    the register it returns names the tables of the set, and a walk of them from any guest
    address reaches only the shared image, not for writing, or a byte behind an allocated frame
    that the hypervisor lets the domain access so; a store there is a step of the life of the
    machine, so that what it writes is scrubbed before the frame has another owner. *)
Theorem build_isolates (b : Board) (im : Image) (w0 w : World) (k : N) (d : DomId) (set : N)
    (sets : list Tables) (t0 : Tables) :
  overflow_checks b = false -> board_ok b -> windows_ok b -> image_ok b im set ->
  lifetime b w0 k w -> vget sets set = Some t0 -> skeleton (layout b im set) t0 ->
  exists sets' r, build_stage2_from_p2m b im w d set sets = Done sets' r /\
    answer b im w0 w k d set sets sets' r.
Proof.
  intros Hrel Hb Hw Him HL Ht0 Hsk.
  destruct (lifetime_slate b w0 k w Hrel Hb Hw HL) as [HR HC].
  exact (wp_Done _ _ _ (build_run b im w0 w k d set sets t0 HR HC HL Him Ht0 Hsk)).
Qed.

(** Guest 1 has a page table with one writable leaf, frame 3. *)
Definition paged_calls : list (DomId * HvCall) :=
  [(0, DomainCreate 1 false); (1, P2mAllocate 2); (1, P2mAllocate 3); (1, P2mPin 2 P2m.L1);
   (1, P2mLink 2 0 3 true true false)].
Definition paged_world : World := outcome_or (kick_boot 4) (calls pv_board paged_calls (kick_boot 4)).
Definition pv_image : Image := mkImage false true 0x40000000 0x100000.

Lemma paged_life : lifetime pv_board (kick_boot 4) 5 paged_world.
Proof.
  assert (Hc : completes (calls pv_board paged_calls (kick_boot 4)) = true) by (vm_compute; reflexivity).
  unfold paged_world. destruct (calls pv_board paged_calls (kick_boot 4)) as [w []|] eqn:E; [|discriminate Hc].
  apply (lifetime_calls pv_board (kick_boot 4) paged_calls 0 (kick_boot 4) w);
    [by apply kick_boot_life|vm_compute; discriminate|exact E].
Qed.

Lemma pv_image_ok : image_ok pv_board pv_image 0.
Proof. split; vm_compute; congruence. Qed.

Theorem build_isolates_witness :
  exists sets' v, build_stage2_from_p2m pv_board pv_image paged_world 1 0 [blank; blank] = Done sets' (Ok v) /\
    answer pv_board pv_image (kick_boot 4) paged_world 5 1 0 [blank; blank] sets' (Ok v).
Proof.
  destruct (build_isolates pv_board pv_image (kick_boot 4) paged_world 5 1 0 [blank; blank] blank
    eq_refl pv_board_ok pv_windows_ok pv_image_ok paged_life eq_refl (blank_skeleton _)) as (sets' & r & E & H).
  assert (Ho : match build_stage2_from_p2m pv_board pv_image paged_world 1 0 [blank; blank] with
    | Done _ (Ok _) => True | _ => False end) by (vm_compute; exact I).
  rewrite E in Ho. destruct r as [v|e]; [|destruct Ho]. exists sets', v. split; [exact E|exact H].
Defined.
