(* ===== verification/Role.v ===== *)
(** * Which guest, and which of its vCPUs — [hv-metal/src/role.rs]

    The index of a vCPU, the roles a vCPU plays in a switch (leaving, arriving, running), the
    enumerations of vCPUs, and the one word the running vCPU is stored in. An index that came
    from a role is below its bound ([pack_lt]), so the [usize] arithmetic is exact. *)

From Stdlib Require Import NArith Lia.
From stdpp Require Import base numbers list option.
From S2P Require Import Prelude.
#[local] Open Scope N_scope.

(** ** Data *)

Definition VCPUS_PER_GUEST : N := 2.
Definition BOOT_VCPU : N := 0.

(** [VcpuIdx]: the constructor is private to the module. *)
Record VcpuIdx : Type := mkIdx { idx : N }.

Record OwnVcpu : Type := mkOwn { own_guest : N; own_vcpu : VcpuIdx }.
Record Outgoing : Type := mkOut { out_guest : N; out_vcpu : VcpuIdx }.
Record Incoming : Type := mkInc { inc_guest : N; inc_vcpu : VcpuIdx }.
Record Running : Type := mkRunning { run_guest : N; run_vcpu : VcpuIdx }.

#[global] Instance VcpuIdx_eq_dec : EqDecision VcpuIdx.
Proof. solve_decision. Defined.

(** ** Operations *)

Definition boot : VcpuIdx := mkIdx BOOT_VCPU.
Definition model_idx (v : VcpuIdx) : Vcpu := as_u32 (idx v).
Definition is_boot (v : VcpuIdx) : bool := idx v =? BOOT_VCPU.

Definition census (num_guests : N) : list (N * VcpuIdx) :=
  g ← vrange num_guests; (fun v => (g, mkIdx v)) <$> vrange VCPUS_PER_GUEST.

Definition incoming_at (guest : N) (v : VcpuIdx) : Incoming := mkInc guest v.
Definition now_running (n : Incoming) : Running := mkRunning (inc_guest n) (inc_vcpu n).

Definition at_boot (guest : N) : Running := mkRunning guest boot.
Definition now_leaving (r : Running) : Outgoing := mkOut (run_guest r) (run_vcpu r).

Definition pack (r : Running) : N := run_guest r * VCPUS_PER_GUEST + idx (run_vcpu r).
Definition unpack (packed : N) : Running :=
  mkRunning (packed / VCPUS_PER_GUEST) (mkIdx (packed mod VCPUS_PER_GUEST)).

(** [(1..=n).map(..)]. *)
Definition rotation (r : Running) (num_guests : N) : list (N * VcpuIdx) :=
  let n := num_guests * VCPUS_PER_GUEST in
  let from := pack r in
  (fun step => let packed := (from + step) mod n in
     (packed / VCPUS_PER_GUEST, mkIdx (packed mod VCPUS_PER_GUEST))) <$> vrange_from 1 (n + 1).

Definition own_vcpus (r : Running) : list OwnVcpu :=
  (fun v => mkOwn (run_guest r) (mkIdx v)) <$> vrange VCPUS_PER_GUEST.

(** ** State per guest and per vCPU

    [PerGuest] and [PerVcpu] index by a role; an index out of range panics. *)

Section Containers.
Context {S A T : Type}.

(** Run an operation on the element of one guest. *)
Definition at_guest (l : lens S (list A)) (g : N) (m : M A T) : M S T :=
  let! s := get in
  let! a := index (lget l s) g in
  match m a with
  | Done a' r => modify (lset l (vset (lget l s) g a')) ;! ret r
  | Panic => panic
  end.

(** Run an operation on the element of one vCPU. *)
Definition at_vcpu (l : lens S (list (list A))) (g : N) (v : VcpuIdx) (m : M A T) : M S T :=
  let! s := get in
  let! a := unwrap_opt (tget (lget l s) g (idx v)) in
  match m a with
  | Done a' r => modify (lset l (tset (lget l s) g (idx v) a')) ;! ret r
  | Panic => panic
  end.
End Containers.

(** ** Specification *)

(** A pair that names a vCPU of the machine. *)
Definition names_vcpu (num_guests : N) (p : N * VcpuIdx) : Prop :=
  p.1 < num_guests /\ idx p.2 < VCPUS_PER_GUEST.
Definition on_machine (num_guests : N) (r : Running) : Prop :=
  names_vcpu num_guests (run_guest r, run_vcpu r).

(** ** Lemmas *)

Lemma pack_lt num_guests r : on_machine num_guests r -> pack r < num_guests * VCPUS_PER_GUEST.
Proof.
  intros [Hg Hv]. simpl in *. unfold pack.
  assert ((run_guest r + 1) * VCPUS_PER_GUEST <= num_guests * VCPUS_PER_GUEST)
    by (apply N.mul_le_mono_r; lia). lia.
Qed.

Lemma unpack_pack r : idx (run_vcpu r) < VCPUS_PER_GUEST -> unpack (pack r) = r.
Proof.
  destruct r as [g [v] ]. unfold unpack, pack. simpl. intros Hv.
  rewrite N.div_add_l, N.div_small, N.add_0_r by done.
  by rewrite N.add_comm, N.Div0.mod_add, N.mod_small.
Qed.

Lemma pack_unpack p : pack (unpack p) = p.
Proof. unfold pack, unpack. simpl. rewrite N.mul_comm. symmetry. by apply N.div_mod. Qed.

Lemma unpack_on_machine num_guests p :
  p < num_guests * VCPUS_PER_GUEST -> on_machine num_guests (unpack p).
Proof.
  intros Hp. split; simpl; [|by apply N.mod_lt]. apply N.Div0.div_lt_upper_bound. lia.
Qed.

Lemma elem_census n p : p ∈ census n <-> names_vcpu n p.
Proof.
  unfold census, names_vcpu. rewrite list_elem_of_bind. destruct p as [g [v] ]. cbn [fst snd idx]. split.
  - intros (g' & (v' & [= -> ->] & Hv%elem_vrange)%list_elem_of_fmap & Hg%elem_vrange). done.
  - intros [Hg Hv]. exists g. split; [|by apply elem_vrange]. apply list_elem_of_fmap.
    exists v. split; [done|by apply elem_vrange].
Qed.

Lemma elem_own r o :
  o ∈ own_vcpus r <-> own_guest o = run_guest r /\ idx (own_vcpu o) < VCPUS_PER_GUEST.
Proof.
  unfold own_vcpus. rewrite list_elem_of_fmap. destruct o as [g [v] ]. cbn [own_guest own_vcpu idx]. split.
  - intros (v' & [= -> ->] & Hv%elem_vrange). done.
  - intros [-> Hv]. exists v. split; [done|by apply elem_vrange].
Qed.

(** Stepping [k] places on and coming back to the same place takes a whole turn. *)
Lemma turn_inj n from i j : i < n -> j < n ->
  (from + 1 + i) mod n = (from + 1 + j) mod n -> i = j.
Proof.
  intros Hi Hj H. assert (Hn : n <> 0) by lia.
  pose proof (N.div_mod (from + 1 + i) n Hn) as Di. pose proof (N.div_mod (from + 1 + j) n Hn) as Dj.
  rewrite H in Di. revert Di Dj.
  generalize ((from + 1 + i) / n) ((from + 1 + j) / n) ((from + 1 + j) mod n).
  intros a b r Di Dj. destruct (N.lt_total a b) as [Hl|[->|Hl]]; [|lia|].
  - assert (n * (a + 1) <= n * b) by (apply N.mul_le_mono_l; lia). lia.
  - assert (n * (b + 1) <= n * a) by (apply N.mul_le_mono_l; lia). lia.
Qed.

(** The candidate that is [k] places on. *)
Definition candidate (n : N) (r : Running) (k : N) : N * VcpuIdx :=
  let u := unpack ((pack r + 1 + k) mod (n * VCPUS_PER_GUEST)) in (run_guest u, run_vcpu u).

Lemma rotation_candidates n r :
  rotation r n = candidate n r <$> vrange (n * VCPUS_PER_GUEST).
Proof.
  unfold rotation, vrange_from. rewrite N.add_sub, <- list_fmap_compose.
  apply list_fmap_ext. intros i k Hk. unfold candidate, compose, unpack. simpl.
  by rewrite N.add_assoc.
Qed.

Lemma candidate_self n r : on_machine n r ->
  candidate n r (n * VCPUS_PER_GUEST - 1) = (run_guest r, run_vcpu r).
Proof.
  intros H. pose proof (pack_lt n r H) as Hp. unfold candidate.
  replace (pack r + 1 + (n * VCPUS_PER_GUEST - 1)) with (pack r + 1 * (n * VCPUS_PER_GUEST)) by lia.
  rewrite N.Div0.mod_add, N.mod_small, unpack_pack by (done || apply H). done.
Qed.

Lemma candidate_inj n r i j : i < n * VCPUS_PER_GUEST -> j < n * VCPUS_PER_GUEST ->
  candidate n r i = candidate n r j -> i = j.
Proof.
  intros Hi Hj H. apply (turn_inj (n * VCPUS_PER_GUEST) (pack r)); [done..|].
  rewrite <- (pack_unpack ((pack r + 1 + i) mod _)), <- (pack_unpack ((pack r + 1 + j) mod _)).
  unfold candidate in H. revert H.
  generalize (unpack ((pack r + 1 + i) mod (n * VCPUS_PER_GUEST))).
  generalize (unpack ((pack r + 1 + j) mod (n * VCPUS_PER_GUEST))).
  intros u u' [= H1 H2]. unfold pack. by rewrite H1, H2.
Qed.

Lemma candidate_names n r k : 0 < n -> names_vcpu n (candidate n r k).
Proof.
  intros Hn. apply unpack_on_machine. apply N.mod_lt. unfold VCPUS_PER_GUEST. lia.
Qed.

(** Every vCPU is a candidate. *)
Lemma rotation_all n r p : names_vcpu n p -> p ∈ rotation r n.
Proof.
  intros Hp. assert (Hn : 0 < n) by (destruct Hp; lia). set (m := n * VCPUS_PER_GUEST).
  assert (Hm : 0 < m) by (unfold m, VCPUS_PER_GUEST; lia).
  destruct p as [g v]. set (q := pack (mkRunning g v)).
  assert (Hq : q < m) by (by apply (pack_lt n (mkRunning g v))).
  rewrite rotation_candidates. apply list_elem_of_fmap.
  pose proof (N.div_mod (pack r + 1) m ltac:(lia)) as Hd. pose proof (N.mod_lt (pack r + 1) m ltac:(lia)) as Hlt.
  exists ((q + m - (pack r + 1) mod m) mod m). split.
  - unfold candidate. fold m. rewrite N.Div0.add_mod_idemp_r.
    replace (pack r + 1 + (q + m - (pack r + 1) mod m)) with (q + ((pack r + 1) / m + 1) * m) by lia.
    rewrite N.Div0.mod_add, N.mod_small by done. unfold q. rewrite unpack_pack; [done|]. apply Hp.
  - apply elem_vrange. by apply N.mod_lt; lia.
Qed.

(** ** Properties *)

(** The candidates of the scheduler are fair and complete: for a vCPU of the machine the
    rotation lists every vCPU of every guest exactly once, starts with the next one in
    packed order and ends with the vCPU itself; the word the running vCPU is stored in names
    it and no other; and the vCPUs a delivery may reach are those of the running guest. *)
Theorem rotation_exact (n : N) (r : Running) : on_machine n r ->
  NoDup (rotation r n) /\
  (forall p, p ∈ rotation r n <-> names_vcpu n p) /\
  (forall p, p ∈ rotation r n <-> p ∈ census n) /\
  vget (rotation r n) (vlen (rotation r n) - 1) = Some (run_guest r, run_vcpu r) /\
  unpack (pack r) = r /\
  (forall r', on_machine n r' -> pack r' = pack r -> r' = r) /\
  (forall o, o ∈ own_vcpus r <-> own_guest o = run_guest r /\ idx (own_vcpu o) < VCPUS_PER_GUEST).
Proof.
  intros H. assert (Hn : 0 < n) by (destruct H; lia).
  assert (Hall : forall p, p ∈ rotation r n <-> names_vcpu n p).
  { intros p. split; [|apply rotation_all]. rewrite rotation_candidates.
    intros (k & -> & _)%list_elem_of_fmap. by apply candidate_names. }
  split_and!.
  - rewrite rotation_candidates. apply NoDup_fmap_2_strong; [|apply NoDup_vrange].
    intros i j Hi%elem_vrange Hj%elem_vrange. by apply candidate_inj.
  - exact Hall.
  - intros p. by rewrite Hall, elem_census.
  - rewrite rotation_candidates, vlen_fmap, vlen_vrange, vget_fmap, vget_vrange.
    rewrite decide_True by (unfold VCPUS_PER_GUEST; lia). simpl. f_equal. by apply candidate_self.
  - apply unpack_pack, H.
  - intros r' H' E. rewrite <- (unpack_pack r), <- (unpack_pack r'); [by rewrite E|apply H'|apply H].
  - apply elem_own.
Qed.

Theorem rotation_exact_witness :
  rotation (mkRunning 0 (mkIdx 1)) 2 = [(1, mkIdx 0); (1, mkIdx 1); (0, mkIdx 0); (0, mkIdx 1)] /\
  NoDup (rotation (mkRunning 0 (mkIdx 1)) 2).
Proof.
  split; [reflexivity|]. apply (rotation_exact 2 (mkRunning 0 (mkIdx 1))). split; reflexivity.
Defined.
