(* ===== verification/CpuState.v ===== *)
(** * The physical CPU and the context of a vCPU — [hv-metal/src/vcpu.rs], [gic.rs], [fp.rs]

    The registers of the one physical CPU that a switch of vCPUs moves, as a record of what an
    [mrs] reads back of an [msr]; the operations of [gic.rs] on the list registers, the
    maintenance interrupt and the private interrupts of the redistributor; and the context of
    a vCPU with its save, restore and poison. A barrier has no effect here. What the
    implementation of the machine fixes is a parameter: [ICH_VTR_EL2] and [MIDR_EL1]. *)

From Stdlib Require Import NArith Lia.
From stdpp Require Import base numbers list option.
From S2P Require Import Bits.
From S2P Require Import VgicCpuif.
From S2P Require Import Prelude.
#[local] Open Scope N_scope.

(** ** Data *)

(** [ctx_regs!]: the system registers of a context, in the order of [CtxReg::ALL]. *)
Inductive CtxReg : Type :=
| ElrEl2 | SpsrEl2 | SpEl0 | SpEl1 | SctlrEl1 | Ttbr0El1 | Ttbr1El1 | TcrEl1 | MairEl1
| AmairEl1 | ContextidrEl1 | VbarEl1 | EsrEl1 | FarEl1 | ElrEl1 | SpsrEl1 | ParEl1
| TpidrEl0 | TpidrroEl0 | TpidrEl1 | CpacrEl1 | CntkctlEl1 | CntvCvalEl0 | CntvCtlEl0
| MdscrEl1.
Definition ALL : list CtxReg :=
  [ElrEl2; SpsrEl2; SpEl0; SpEl1; SctlrEl1; Ttbr0El1; Ttbr1El1; TcrEl1; MairEl1; AmairEl1;
   ContextidrEl1; VbarEl1; EsrEl1; FarEl1; ElrEl1; SpsrEl1; ParEl1; TpidrEl0; TpidrroEl0;
   TpidrEl1; CpacrEl1; CntkctlEl1; CntvCvalEl0; CntvCtlEl0; MdscrEl1].
#[global] Instance CtxReg_eq_dec : EqDecision CtxReg.
Proof. solve_decision. Defined.

(** [self as usize]. *)
Definition reg_index (r : CtxReg) : N := default 0 (position (fun r' => bool_decide (r' = r)) ALL).

Definition MAX_AP_REGISTERS : N := 4.

Record FpCtx : Type := mkFp { v : list N; fpcr : N; fpsr : N }.
Record VgicCtx : Type := mkVgic { lr : list N; vmcr : N; apr : list (list N) }.
Record VcpuCtx : Type := mkCtx { x : list N; regs : list N; vgic : VgicCtx; fp : FpCtx }.

Definition FP_ZERO : FpCtx := mkFp (vrepeat 64 0) 0 0.
Definition VGIC_ZERO : VgicCtx :=
  mkVgic (vrepeat MAX_LIST_REGISTERS 0) 0 (vrepeat 2 (vrepeat MAX_AP_REGISTERS 0)).
Definition ctx_new : VcpuCtx := mkCtx (vrepeat 31 0) (vrepeat (vlen ALL) 0) VGIC_ZERO FP_ZERO.

#[global] Instance FpCtx_eq_dec : EqDecision FpCtx.
Proof. solve_decision. Defined.

(** The physical CPU: the trap frame with the general registers of the guest, the system
    registers of [CtxReg], the virtual interface ([ICH_LR<n>_EL2], [ICH_VMCR_EL2],
    [ICH_AP<g>R<n>_EL2], [ICH_HCR_EL2.UIE]), the floating-point file, the enable and active
    words of the private interrupts, and what belongs to the hypervisor. *)
Record Cpu : Type := mkCpu {
  frame : list N;
  sysregs : list N;
  ich_lr : list N;
  ich_vmcr : N;
  ich_apr : list (list N);
  uie : bool;
  fp_file : FpCtx;
  ppi_enable : N;
  ppi_active : N;
  vttbr_el2 : N;
  vmpidr_el2 : N;
  vpidr_el2 : N;
  cnthp_cval : N;
  cnthp_ctl : N;
}.

Definition set_frame u c := mkCpu u (sysregs c) (ich_lr c) (ich_vmcr c) (ich_apr c) (uie c)
  (fp_file c) (ppi_enable c) (ppi_active c) (vttbr_el2 c) (vmpidr_el2 c) (vpidr_el2 c) (cnthp_cval c) (cnthp_ctl c).
Definition set_sysregs u c := mkCpu (frame c) u (ich_lr c) (ich_vmcr c) (ich_apr c) (uie c)
  (fp_file c) (ppi_enable c) (ppi_active c) (vttbr_el2 c) (vmpidr_el2 c) (vpidr_el2 c) (cnthp_cval c) (cnthp_ctl c).
Definition set_ich_lr u c := mkCpu (frame c) (sysregs c) u (ich_vmcr c) (ich_apr c) (uie c)
  (fp_file c) (ppi_enable c) (ppi_active c) (vttbr_el2 c) (vmpidr_el2 c) (vpidr_el2 c) (cnthp_cval c) (cnthp_ctl c).
Definition write_vmcr u c := mkCpu (frame c) (sysregs c) (ich_lr c) u (ich_apr c) (uie c)
  (fp_file c) (ppi_enable c) (ppi_active c) (vttbr_el2 c) (vmpidr_el2 c) (vpidr_el2 c) (cnthp_cval c) (cnthp_ctl c).
Definition set_ich_apr u c := mkCpu (frame c) (sysregs c) (ich_lr c) (ich_vmcr c) u (uie c)
  (fp_file c) (ppi_enable c) (ppi_active c) (vttbr_el2 c) (vmpidr_el2 c) (vpidr_el2 c) (cnthp_cval c) (cnthp_ctl c).
Definition set_underflow_interrupt (armed : bool) c := mkCpu (frame c) (sysregs c) (ich_lr c) (ich_vmcr c)
  (ich_apr c) armed (fp_file c) (ppi_enable c) (ppi_active c) (vttbr_el2 c) (vmpidr_el2 c) (vpidr_el2 c)
  (cnthp_cval c) (cnthp_ctl c).
Definition set_fp_file u c := mkCpu (frame c) (sysregs c) (ich_lr c) (ich_vmcr c) (ich_apr c) (uie c)
  u (ppi_enable c) (ppi_active c) (vttbr_el2 c) (vmpidr_el2 c) (vpidr_el2 c) (cnthp_cval c) (cnthp_ctl c).
Definition set_ppi_enable u c := mkCpu (frame c) (sysregs c) (ich_lr c) (ich_vmcr c) (ich_apr c) (uie c)
  (fp_file c) u (ppi_active c) (vttbr_el2 c) (vmpidr_el2 c) (vpidr_el2 c) (cnthp_cval c) (cnthp_ctl c).
Definition set_ppi_active u c := mkCpu (frame c) (sysregs c) (ich_lr c) (ich_vmcr c) (ich_apr c) (uie c)
  (fp_file c) (ppi_enable c) u (vttbr_el2 c) (vmpidr_el2 c) (vpidr_el2 c) (cnthp_cval c) (cnthp_ctl c).
Definition set_vttbr_no_flush u c := mkCpu (frame c) (sysregs c) (ich_lr c) (ich_vmcr c) (ich_apr c) (uie c)
  (fp_file c) (ppi_enable c) (ppi_active c) u (vmpidr_el2 c) (vpidr_el2 c) (cnthp_cval c) (cnthp_ctl c).
Definition set_identity mp mi c := mkCpu (frame c) (sysregs c) (ich_lr c) (ich_vmcr c) (ich_apr c) (uie c)
  (fp_file c) (ppi_enable c) (ppi_active c) (vttbr_el2 c) mp mi (cnthp_cval c) (cnthp_ctl c).
Definition set_cnthp cval ctl c := mkCpu (frame c) (sysregs c) (ich_lr c) (ich_vmcr c) (ich_apr c) (uie c)
  (fp_file c) (ppi_enable c) (ppi_active c) (vttbr_el2 c) (vmpidr_el2 c) (vpidr_el2 c) cval ctl.

(** ** The system registers *)

Definition read_reg (r : CtxReg) (c : Cpu) : N := default 0 (vget (sysregs c) (reg_index r)).
Definition write_reg (r : CtxReg) (u : N) (c : Cpu) : Cpu :=
  set_sysregs (vset (sysregs c) (reg_index r) u) c.

(** [advance_elr_past_fault]: the addition of the processor wraps. *)
Definition advance_elr_past_fault (c : Cpu) : Cpu :=
  write_reg ElrEl2 ((read_reg ElrEl2 c + 4) mod (u64_max + 1)) c.

(** ** The interrupt interface *)

Definition INJECT_PRIORITY : N := 128.
Definition VTIMER_INTID : N := 27.
Definition MAINT_INTID : N := 25.
Definition HYP_TIMER_INTID : N := 26.

Definition read_lr (c : Cpu) (n : N) : N := if n <? 16 then default 0 (vget (ich_lr c) n) else 0.
Definition write_lr (n u : N) (c : Cpu) : Cpu :=
  if n <? 16 then set_ich_lr (vset (ich_lr c) n u) c else c.
Definition read_apr (c : Cpu) (group n : N) : N :=
  if (group <? 2) && (n <? 4) then default 0 (tget (ich_apr c) group n) else 0.
Definition write_apr (group n u : N) (c : Cpu) : Cpu :=
  if (group <? 2) && (n <? 4) then set_ich_apr (tset (ich_apr c) group n u) c else c.

(** The enable and active words of the redistributor, which cover interrupts 0 to 31; writing
    them acts on the one bit, and a deactivation clears the active bit. *)
Definition ppi_is_active (intid : N) (c : Cpu) : bool :=
  if 32 <=? intid then false else negb (N.land (ppi_active c) (shl 32 1 intid) =? 0).
Definition set_ppi_enabled (intid : N) (enabled : bool) (c : Cpu) : Cpu :=
  if 32 <=? intid then c
  else if enabled then set_ppi_enable (N.lor (ppi_enable c) (shl 32 1 intid)) c
  else set_ppi_enable (N.land (ppi_enable c) (bnot 32 (shl 32 1 intid))) c.
Definition deactivate_physical (intid : N) (c : Cpu) : Cpu :=
  if 32 <=? intid then c else set_ppi_active (N.land (ppi_active c) (bnot 32 (shl 32 1 intid))) c.

Definition release_forwarded_timer (c : Cpu) : Cpu * bool :=
  let was_active := ppi_is_active VTIMER_INTID c in
  let c := set_ppi_enabled VTIMER_INTID false c in
  let c := deactivate_physical VTIMER_INTID c in
  (c, was_active && negb (ppi_is_active VTIMER_INTID c)).
Definition release_hyp_timer (c : Cpu) : Cpu * bool :=
  let was_active := ppi_is_active HYP_TIMER_INTID c in
  let c := deactivate_physical HYP_TIMER_INTID c in
  (c, was_active && negb (ppi_is_active HYP_TIMER_INTID c)).

Definition encode_lr (vintid : N) (hw : option N) : option N :=
  VgicCpuif.encode_lr vintid hw INJECT_PRIORITY.

Section Implementation.
Context (vtr midr : N).

Definition num_list_registers : N := N.min (N.land vtr 31 + 1) MAX_LIST_REGISTERS.
Definition num_ap_registers : N :=
  let pri_bits := N.land (N.shiftr vtr 29) 7 + 1 in
  N.min (if pri_bits =? 7 then 4 else if pri_bits =? 6 then 2 else 1) MAX_AP_REGISTERS.

(** The loop returns at the first free list register. *)
Definition place (l : N) (c : Cpu) : Cpu * bool :=
  match List.find (fun i => lr_is_free (read_lr c i)) (vrange num_list_registers) with
  | Some i => (write_lr i l c, true)
  | None => (c, false)
  end.
Definition inject (intid : N) (c : Cpu) : Cpu * bool :=
  match encode_lr intid None with Some l => place l c | None => (c, false) end.
Definition inject_hw (vintid pintid : N) (c : Cpu) : Cpu * bool :=
  match encode_lr vintid (Some pintid) with Some l => place l c | None => (c, false) end.

(** ** The components of a context *)

(** [for (i, slot) in old.iter_mut().enumerate().take(n) { *slot = f(i) }]. *)
Definition fill_first (n : N) (f : N -> N) (old : list N) : list N :=
  foldl (fun acc i => vset acc i (f i)) old (vrange n).

Definition vgic_save (c : Cpu) (g : VgicCtx) : VgicCtx :=
  mkVgic (fill_first num_list_registers (read_lr c) (lr g)) (ich_vmcr c)
    ((fun '(group, bank) => fill_first num_ap_registers (read_apr c group) bank) <$> enumerate (apr g)).

Definition write_aprs (f : N -> N -> N) (c : Cpu) : Cpu :=
  foldl (fun c group => foldl (fun c i => write_apr group i (f group i) c) c (vrange num_ap_registers))
    c (vrange 2).
Definition write_lrs (f : N -> N) (c : Cpu) : Cpu :=
  foldl (fun c i => write_lr i (f i) c) c (vrange num_list_registers).

(** The saved arrays are as long as the loops. *)
Definition vgic_restore (g : VgicCtx) (c : Cpu) : Cpu :=
  let c := write_lrs (fun i => default 0 (vget (lr g) i)) c in
  let c := write_vmcr (vmcr g) c in
  write_aprs (fun group i => default 0 (tget (apr g) group i)) c.

Definition poison_live (c : Cpu) : Cpu :=
  let c := write_lrs (fun _ => 0) c in
  let c := write_vmcr 0 c in
  write_aprs (fun _ _ => u64_max) c.

(** [VgicCtx::release_hardware_mappings]: on the list registers the machine has. *)
Definition release_hw (g : VgicCtx) : VgicCtx * N :=
  let n := N.to_nat num_list_registers in
  let '(bank, count) := release_hardware_mappings (take n (lr g)) in
  (mkVgic (bank ++ drop n (lr g)) (vmcr g) (apr g), count).

Definition live_active_priorities (c : Cpu) : list (list N) :=
  (fun '(group, bank) => fill_first num_ap_registers (read_apr c group) bank) <$>
    enumerate (vrepeat 2 (vrepeat MAX_AP_REGISTERS 0)).

Definition POISON : N := 0xDEADBEEFDEADBEEF.
Definition FP_POISON : FpCtx :=
  mkFp (vrepeat 64 POISON)
    (N.lor (N.lor (shl 64 1 25) (shl 64 1 24)) (shl 64 3 22))
    (N.lor (N.lor (N.lor (N.lor (N.lor (shl 64 1 7) (shl 64 1 4)) (shl 64 1 3)) (shl 64 1 2)) (shl 64 1 1)) 1).

Definition sysregs_save (c : Cpu) : list N := (fun r => read_reg r c) <$> ALL.
Definition sysregs_restore (saved : list N) (c : Cpu) : Cpu :=
  foldl (fun c '(u, r) => write_reg r u c) c (zip saved ALL).
Definition sysregs_poison (c : Cpu) : Cpu := foldl (fun c r => write_reg r POISON c) c ALL.

(** ** The context *)

Definition ctx_save (c : Cpu) (k : VcpuCtx) : VcpuCtx :=
  mkCtx (frame c) (sysregs_save c) (vgic_save c (vgic k)) (fp_file c).
Definition ctx_restore (k : VcpuCtx) (c : Cpu) : Cpu :=
  let c := set_frame (x k) c in
  let c := sysregs_restore (regs k) c in
  let c := vgic_restore (vgic k) c in
  set_fp_file (fp k) c.
Definition ctx_poison (c : Cpu) : Cpu :=
  set_fp_file FP_POISON (poison_live (sysregs_poison c)).
Definition ctx_release_hw (k : VcpuCtx) : VcpuCtx * N :=
  let '(g, n) := release_hw (vgic k) in (mkCtx (x k) (regs k) g (fp k), n).

Definition seed_boot (entry x0 spsr sctlr : N) : VcpuCtx :=
  let set r u l := vset l (reg_index r) u in
  mkCtx (vset (x ctx_new) 0 x0)
    (set SctlrEl1 sctlr (set SpsrEl2 spsr (set ElrEl2 entry (regs ctx_new))))
    (vgic ctx_new) (fp ctx_new).
End Implementation.

(** ** Specification *)

(** The lengths the arrays and the register files have. *)
Record cpu_wf (c : Cpu) : Prop := mkCpuWf {
  cw_frame : vlen (frame c) = 31;
  cw_regs : vlen (sysregs c) = vlen ALL;
  cw_lr : vlen (ich_lr c) = MAX_LIST_REGISTERS;
  cw_groups : vlen (ich_apr c) = 2;
  cw_apr : forall g, g < 2 -> twidth (ich_apr c) g = MAX_AP_REGISTERS;
}.
Record ctx_wf (k : VcpuCtx) : Prop := mkCtxWf {
  kw_x : vlen (x k) = 31;
  kw_regs : vlen (regs k) = vlen ALL;
  kw_lr : vlen (lr (vgic k)) = MAX_LIST_REGISTERS;
  kw_groups : vlen (apr (vgic k)) = 2;
  kw_apr : forall g, g < 2 -> twidth (apr (vgic k)) g = MAX_AP_REGISTERS;
}.

(** The processor holds the context [k]: every register a program can observe reads what the
    context has, on a machine with [n] list registers and [m] active-priority registers. *)
Record holds (n m : N) (k : VcpuCtx) (c : Cpu) : Prop := mkHolds {
  ho_frame : frame c = x k;
  ho_regs : forall r, read_reg r c = default 0 (vget (regs k) (reg_index r));
  ho_lr : forall i, i < n -> read_lr c i = default 0 (vget (lr (vgic k)) i);
  ho_vmcr : ich_vmcr c = vmcr (vgic k);
  ho_apr : forall g i, g < 2 -> i < m -> read_apr c g i = default 0 (tget (apr (vgic k)) g i);
  ho_fp : fp_file c = fp k;
}.

(** What a context does not contain. *)
Definition same_el2 (c c' : Cpu) : Prop :=
  uie c' = uie c /\ ppi_enable c' = ppi_enable c /\ ppi_active c' = ppi_active c /\
  vttbr_el2 c' = vttbr_el2 c /\ vmpidr_el2 c' = vmpidr_el2 c /\ vpidr_el2 c' = vpidr_el2 c /\
  cnthp_cval c' = cnthp_cval c /\ cnthp_ctl c' = cnthp_ctl c.

(** ** Lemmas *)

Lemma num_lrs_le vtr : num_list_registers vtr <= 16.
Proof. unfold num_list_registers, MAX_LIST_REGISTERS. lia. Qed.
Lemma num_aps_le vtr : num_ap_registers vtr <= 4.
Proof. unfold num_ap_registers, MAX_AP_REGISTERS. lia. Qed.

Lemma reg_index_lt r : reg_index r < vlen ALL.
Proof. by destruct r. Qed.
Lemma reg_index_inj r r' : reg_index r = reg_index r' -> r = r'.
Proof. by destruct r, r'. Qed.
Lemma reg_indices : reg_index <$> ALL = vrange (vlen ALL).
Proof. reflexivity. Qed.

(** A loop of indexed assignments over distinct indices. *)
Lemma vlen_fill {A B} (f : B -> A) (p : B -> N) (ks : list B) (l : list A) :
  vlen (foldl (fun acc k => vset acc (p k) (f k)) l ks) = vlen l.
Proof. revert l. induction ks as [|k ks IH]; intros l; simpl; [done|]. by rewrite IH, vlen_vset. Qed.

Lemma vget_fill {A} (f : N -> A) (ks : list N) (l : list A) j :
  vget (foldl (fun acc k => vset acc k (f k)) l ks) j =
  if decide (j ∈ ks /\ j < vlen l) then Some (f j) else vget l j.
Proof.
  revert l. induction ks as [|k ks IH]; intros l; cbn [foldl].
  - rewrite decide_False; [done|]. intros [H%elem_of_nil _]. done.
  - rewrite IH, vlen_vset, vget_vset.
    destruct (decide (j ∈ ks /\ j < vlen l)) as [ [H1 H2]|H].
    + rewrite decide_True; [done|]. split; [by right|done].
    + destruct (decide (k = j /\ k < vlen l)) as [ [-> Hl]|H'].
      * rewrite decide_True; [done|]. split; [by left|done].
      * rewrite decide_False; [done|]. intros [ [->|Hj]%elem_of_cons Hl]; [by apply H'|by apply H].
Qed.

Lemma vget_fill_first {A} n (f : N -> A) l j : n <= vlen l ->
  vget (foldl (fun acc i => vset acc i (f i)) l (vrange n)) j = if decide (j < n) then Some (f j) else vget l j.
Proof.
  intros Hn. rewrite vget_fill. destruct (decide (j < n)).
  - rewrite decide_True; [done|]. split; [by apply elem_vrange|lia].
  - rewrite decide_False; [done|]. by intros [?%elem_vrange _].
Qed.

(** *** The loops over the registers *)

Lemma write_lrs_ich vtr f c :
  write_lrs vtr f c =
  set_ich_lr (foldl (fun acc i => vset acc i (f i)) (ich_lr c) (vrange (num_list_registers vtr))) c.
Proof.
  unfold write_lrs. assert (H : forall i, i ∈ vrange (num_list_registers vtr) -> i < 16).
  { intros i Hi%elem_vrange. pose proof (num_lrs_le vtr). lia. }
  revert c H. generalize (vrange (num_list_registers vtr)) as ks. intros ks.
  induction ks as [|k ks IH]; intros c H; simpl; [by destruct c|].
  rewrite IH by (intros i Hi; apply H; by right). unfold write_lr.
  rewrite (proj2 (N.ltb_lt _ _)) by (apply H; left). done.
Qed.

Lemma read_lr_write_lrs vtr f c i : cpu_wf c ->
  read_lr (write_lrs vtr f c) i = if decide (i < num_list_registers vtr) then f i else read_lr c i.
Proof.
  intros Hw. pose proof (num_lrs_le vtr) as Hn. rewrite write_lrs_ich. unfold read_lr. cbn [ich_lr set_ich_lr].
  rewrite vget_fill_first by (rewrite (cw_lr _ Hw); unfold MAX_LIST_REGISTERS; lia). case_decide as Hd; [|done].
  by rewrite (proj2 (N.ltb_lt _ _)) by lia.
Qed.

Lemma write_regs_sys (f : CtxReg -> N) (rs : list CtxReg) c :
  foldl (fun c r => write_reg r (f r) c) c rs =
  set_sysregs (foldl (fun acc r => vset acc (reg_index r) (f r)) (sysregs c) rs) c.
Proof. revert c. induction rs as [|r rs IH]; intros c; simpl; [by destruct c|]. by rewrite IH. Qed.

Lemma restore_regs_sys saved rs c :
  foldl (fun c '(u, r) => write_reg r u c) c (zip saved rs) =
  set_sysregs (foldl (fun acc '(u, i) => vset acc i u) (sysregs c) (zip saved (reg_index <$> rs))) c.
Proof.
  revert rs c. induction saved as [|u saved IH]; intros [|r rs] c; simpl; try by destruct c.
  by rewrite IH.
Qed.

Lemma vrange_from_cons a b : a < b -> vrange_from a b = a :: vrange_from (a + 1) b.
Proof.
  intros H. unfold vrange_from. replace (b - a) with (1 + (b - (a + 1))) by lia.
  generalize (b - (a + 1)) as n. intros n. unfold vrange. rewrite N2Nat.inj_add.
  change (N.to_nat 1) with 1%nat. cbn [seq plus]. rewrite !fmap_cons. f_equal; [simpl; lia|].
  rewrite <- fmap_S_seq, <- !list_fmap_compose. apply list_fmap_ext. intros i j _. unfold compose. lia.
Qed.

Lemma vrange_from_nil a b : b <= a -> vrange_from a b = [].
Proof. intros H. unfold vrange_from. by replace (b - a) with 0 by lia. Qed.

(** Assigning the elements of a list to the indices it has. *)
Lemma vset_all {A} (saved l : list A) (k : N) : vlen l = k + vlen saved ->
  foldl (fun acc '(u, i) => vset acc i u) l (zip saved (vrange_from k (k + vlen saved))) =
  take (N.to_nat k) l ++ saved.
Proof.
  revert l k. induction saved as [|u saved IH]; intros l k Hl.
  - simpl. rewrite app_nil_r. symmetry. apply take_ge. unfold vlen in *. simpl in *. lia.
  - assert (E : vrange_from k (k + vlen (u :: saved)) = k :: vrange_from (k + 1) (k + 1 + vlen saved)).
    { rewrite vrange_from_cons by (unfold vlen; simpl; lia). do 2 f_equal. unfold vlen. simpl. lia. }
    rewrite E. cbn [zip zip_with foldl].
    rewrite IH.
    2: { rewrite vlen_vset, Hl. unfold vlen. simpl. lia. }
    unfold vset. replace (N.to_nat (k + 1)) with (S (N.to_nat k)) by lia.
    rewrite (take_S_r _ _ u).
    + rewrite take_insert_ge by lia. by rewrite <- app_assoc.
    + apply list_lookup_insert_eq.
      unfold vlen in Hl. simpl in Hl. lia.
Qed.

Lemma sysregs_restore_all saved c : vlen saved = vlen ALL -> vlen (sysregs c) = vlen ALL ->
  sysregs_restore saved c = set_sysregs saved c.
Proof.
  intros Hs Hc. unfold sysregs_restore. rewrite restore_regs_sys, reg_indices.
  replace (vrange (vlen ALL)) with (vrange_from 0 (0 + vlen saved)) by (by rewrite Hs).
  by rewrite vset_all by (by rewrite Hc, Hs).
Qed.

Lemma tget_fill_row {A} (f : N -> A) (g : N) (ks : list N) (t : list (list A)) g' j :
  tget (foldl (fun t i => tset t g i (f i)) t ks) g' j =
  if decide (g' = g /\ j ∈ ks /\ j < twidth t g) then Some (f j) else tget t g' j.
Proof.
  revert t. induction ks as [|k ks IH]; intros t; cbn [foldl].
  - rewrite decide_False; [done|]. intros (_ & H%elem_of_nil & _). done.
  - rewrite IH, twidth_tset, tget_tset.
    destruct (decide (g' = g /\ j ∈ ks /\ j < twidth t g)) as [ (-> & H1 & H2)|H].
    + rewrite decide_True; [done|]. split_and!; [done|by right|done].
    + destruct (decide (g' = g /\ j = k /\ k < twidth t g)) as [ (-> & -> & Hl)|H'].
      * rewrite decide_True; [done|]. split_and!; [done|by left|done].
      * rewrite decide_False; [done|]. intros (-> & [->|Hj]%elem_of_cons & Hl); [by apply H'|by apply H].
Qed.

Lemma write_apr_group f g ks c : g < 2 -> (forall i, i ∈ ks -> i < 4) ->
  foldl (fun c i => write_apr g i (f i) c) c ks =
  set_ich_apr (foldl (fun t i => tset t g i (f i)) (ich_apr c) ks) c.
Proof.
  intros Hg. revert c. induction ks as [|k ks IH]; intros c H; simpl; [by destruct c|].
  rewrite IH by (intros i Hi; apply H; by right). unfold write_apr.
  rewrite (proj2 (N.ltb_lt g _)), (proj2 (N.ltb_lt k _)) by (done || apply H; left). done.
Qed.

Lemma write_aprs_ich vtr f c : exists t, write_aprs vtr f c = set_ich_apr t c /\
  vlen t = vlen (ich_apr c) /\ (forall g, twidth t g = twidth (ich_apr c) g) /\
  (cpu_wf c -> forall g i, tget t g i =
    if decide (g < 2 /\ i < num_ap_registers vtr) then Some (f g i) else tget (ich_apr c) g i).
Proof.
  assert (H4 : forall i, i ∈ vrange (num_ap_registers vtr) -> i < 4).
  { intros i Hi%elem_vrange. pose proof (num_aps_le vtr). lia. }
  unfold write_aprs. change (vrange 2) with [0; 1]. cbn [foldl].
  rewrite (write_apr_group (f 0) 0), (write_apr_group (f 1) 1) by done.
  assert (Hsz : forall (h : N -> N) g ks (t : list (list N)),
    vlen (foldl (fun t i => tset t g i (h i)) t ks) = vlen t /\
    forall g', twidth (foldl (fun t i => tset t g i (h i)) t ks) g' = twidth t g').
  { intros h g ks. induction ks as [|k ks IH]; intros t; [done|]. cbn [foldl].
    destruct (IH (tset t g k (h k))) as [-> Hr]. rewrite vlen_tset. split; [done|].
    intros g'. by rewrite Hr, twidth_tset. }
  eexists. split; [reflexivity|]. cbn [set_ich_apr ich_apr]. split_and!.
  - by rewrite !(proj1 (Hsz _ _ _ _)).
  - intros g. by rewrite !(proj2 (Hsz _ _ _ _)).
  - intros Hw g i. rewrite !tget_fill_row, (proj2 (Hsz _ _ _ _)).
    pose proof (cw_apr _ Hw 0 ltac:(done)) as ->. pose proof (cw_apr _ Hw 1 ltac:(done)) as ->.
    pose proof (num_aps_le vtr). unfold MAX_AP_REGISTERS. repeat case_decide; try done;
      repeat match goal with H : _ /\ _ |- _ => destruct H end; subst; try tauto;
      try (rewrite elem_vrange in *; lia).
Qed.

Lemma read_apr_write_aprs vtr f c g i : cpu_wf c -> g < 2 -> i < num_ap_registers vtr ->
  read_apr (write_aprs vtr f c) g i = f g i.
Proof.
  intros Hw Hg Hi. destruct (write_aprs_ich vtr f c) as (t & -> & _ & _ & Ht).
  pose proof (num_aps_le vtr). unfold read_apr. cbn [ich_apr set_ich_apr].
  rewrite (proj2 (N.ltb_lt g 2)), (proj2 (N.ltb_lt i 4)) by lia. rewrite (Ht Hw), decide_True by done. done.
Qed.

(** *** Well-formedness of the operations *)

Lemma write_lrs_wf vtr f c : cpu_wf c -> cpu_wf (write_lrs vtr f c).
Proof. intros [? ? ? ? ?]. rewrite write_lrs_ich. split; cbn; rewrite ?vlen_fill; done. Qed.
Lemma write_aprs_wf vtr f c : cpu_wf c -> cpu_wf (write_aprs vtr f c).
Proof.
  intros [? ? ? Hg Ha]. destruct (write_aprs_ich vtr f c) as (t & -> & H1 & H2 & _).
  split; cbn; rewrite ?H1; try done. intros g. rewrite H2. apply Ha.
Qed.

Lemma write_regs_wf (f : CtxReg -> N) rs c : cpu_wf c -> cpu_wf (foldl (fun c r => write_reg r (f r) c) c rs).
Proof.
  intros [? Hr ? ? ?]. rewrite write_regs_sys. split; cbn; try done. rewrite <- Hr. apply (vlen_fill f reg_index).
Qed.

Lemma poison_wf vtr c : cpu_wf c -> cpu_wf (ctx_poison vtr c).
Proof.
  intros H. unfold ctx_poison, sysregs_poison, poison_live.
  assert (H1 : cpu_wf (write_lrs vtr (fun _ => 0) (foldl (fun c r => write_reg r POISON c) c ALL))).
  { apply write_lrs_wf. by apply (write_regs_wf (fun _ => POISON)). }
  assert (H2 : cpu_wf (write_vmcr 0 (write_lrs vtr (fun _ => 0) (foldl (fun c r => write_reg r POISON c) c ALL))))
    by (destruct H1; by split).
  apply (write_aprs_wf vtr (fun _ _ => u64_max)) in H2. destruct H2. by split.
Qed.

Lemma same_el2_refl c : same_el2 c c.
Proof. done. Qed.
Lemma same_el2_trans c1 c2 c3 : same_el2 c1 c2 -> same_el2 c2 c3 -> same_el2 c1 c3.
Proof.
  intros (? & ? & ? & ? & ? & ? & ? & ?) (? & ? & ? & ? & ? & ? & ? & ?). split_and!; congruence.
Qed.

Lemma same_el2_lrs vtr f c : same_el2 c (write_lrs vtr f c).
Proof. by rewrite write_lrs_ich. Qed.
Lemma same_el2_aprs vtr f c : same_el2 c (write_aprs vtr f c).
Proof. by destruct (write_aprs_ich vtr f c) as (t & -> & _). Qed.
Lemma same_el2_poison vtr c : same_el2 c (ctx_poison vtr c).
Proof.
  unfold ctx_poison, sysregs_poison, poison_live. rewrite (write_regs_sys (fun _ => POISON)), write_lrs_ich.
  match goal with |- same_el2 c (set_fp_file _ ?d) => change (same_el2 c d) end.
  eapply same_el2_trans; [|apply same_el2_aprs]. done.
Qed.

(** *** Placing an interrupt in a list register *)

Lemma read_lr_write i u c j : cpu_wf c -> i < 16 ->
  read_lr (write_lr i u c) j = if decide (j = i) then u else read_lr c j.
Proof.
  intros Hw Hi. unfold read_lr, write_lr. rewrite (proj2 (N.ltb_lt i 16) Hi). cbn [ich_lr set_ich_lr].
  rewrite vget_vset, (cw_lr _ Hw). unfold MAX_LIST_REGISTERS. destruct (decide (j = i)) as [->|Hne].
  - by rewrite decide_True, (proj2 (N.ltb_lt i 16) Hi).
  - by rewrite decide_False by naive_solver.
Qed.

Lemma write_lr_wf i u c : cpu_wf c -> cpu_wf (write_lr i u c).
Proof. intros [? ? ? ? ?]. unfold write_lr. destruct (i <? 16); split; cbn; rewrite ?vlen_vset; done. Qed.

(** The list register of a plain virtual interrupt. *)
Definition plain_lr (intid : N) : N := default 0 (encode_lr intid None).
Definition forwarded_lr (vintid pintid : N) : N := default 0 (encode_lr vintid (Some pintid)).

(** The first free list register takes it, or there is none. *)
Definition placed (vtr l : N) (c c' : Cpu) : Prop :=
  exists i, i < num_list_registers vtr /\ lr_is_free (read_lr c i) = true /\
    (forall j, j < i -> lr_is_free (read_lr c j) = false) /\ c' = write_lr i l c.
Definition bank_full (vtr : N) (c : Cpu) : Prop :=
  forall i, i < num_list_registers vtr -> lr_is_free (read_lr c i) = false.

(** The search finds the first. *)
Lemma find_vrange (f : N -> bool) n i : List.find f (vrange n) = Some i ->
  i < n /\ f i = true /\ forall j, j < i -> f j = false.
Proof.
  assert (Hl : forall l, List.find f l = Some i -> exists l1 l2, l = l1 ++ i :: l2 /\ f i = true /\
    forall y, y ∈ l1 -> f y = false).
  { induction l as [|a l IH]; [done|]. simpl. destruct (f a) eqn:E.
    - intros [= ->]. exists [], l. split_and!; [done..|]. by intros y Hy%elem_of_nil.
    - intros (l1 & l2 & -> & Hi & Hy)%IH. exists (a :: l1), l2. split_and!; [done..|].
      intros y [->|H]%elem_of_cons; [done|by apply Hy]. }
  intros (l1 & l2 & E & Hi & Hy)%Hl. destruct (vrange_split n l1 i l2 E) as [-> Hn].
  split_and!; [done..|]. intros j Hj. apply Hy. pose proof (vget_vrange n j) as Hv.
  rewrite decide_True, E, vget_app_l in Hv by (done || lia). by eapply vget_elem.
Qed.

Lemma place_finds vtr l c :
  (exists c', place vtr l c = (c', true) /\ placed vtr l c c') \/
  (place vtr l c = (c, false) /\ bank_full vtr c).
Proof.
  unfold place, placed. destruct (List.find _ _) as [i|] eqn:E.
  - apply find_vrange in E as (Hi & Hf & Hj). left. eexists. split; [done|]. by exists i.
  - right. split; [done|]. intros i Hi. apply (List.find_none _ _ E i), list_elem_of_In, elem_vrange, Hi.
Qed.

Lemma inject_spec vtr intid c :
  (exists c', inject vtr intid c = (c', true) /\ placed vtr (plain_lr intid) c c') \/
  (inject vtr intid c = (c, false) /\ bank_full vtr c).
Proof. apply place_finds. Qed.

Lemma placed_wf vtr l c c' : cpu_wf c -> placed vtr l c c' -> cpu_wf c'.
Proof. intros H (i & _ & _ & _ & ->). by apply write_lr_wf. Qed.

(** *** Save, poison and restore *)

(** Restoring puts the whole context on the processor and touches nothing else. *)
Lemma restore_holds vtr k c : ctx_wf k -> cpu_wf c ->
  let c' := ctx_restore vtr k c in
  holds (num_list_registers vtr) (num_ap_registers vtr) k c' /\ cpu_wf c' /\ same_el2 c c'.
Proof.
  intros Hk Hc. cbn zeta. unfold ctx_restore, vgic_restore.
  rewrite sysregs_restore_all by apply Hk || apply Hc.
  set (c1 := set_sysregs (regs k) (set_frame (x k) c)).
  assert (W1 : cpu_wf c1) by (destruct Hc, Hk; by split).
  set (c2 := write_lrs vtr _ c1). assert (W2 : cpu_wf c2) by by apply write_lrs_wf.
  set (c3 := write_vmcr _ c2). assert (W3 : cpu_wf c3) by (destruct W2; by split).
  set (c4 := write_aprs vtr _ c3). assert (W4 : cpu_wf c4) by by apply write_aprs_wf.
  destruct (write_aprs_ich vtr (fun g i => default 0 (tget (apr (vgic k)) g i)) c3) as (t & E4 & _).
  fold c4 in E4.
  assert (E2 : exists b, c2 = set_ich_lr b c1) by (unfold c2; rewrite write_lrs_ich; by eexists).
  destruct E2 as [b2 E2]. split_and!.
  - split.
    + rewrite E4. unfold c3. by rewrite E2.
    + intros r. rewrite E4. unfold c3. by rewrite E2.
    + intros i Hi. transitivity (read_lr c2 i).
      { rewrite E4. done. }
      unfold c2. by rewrite read_lr_write_lrs, decide_True by done.
    + rewrite E4. done.
    + intros g i Hg Hi. apply (read_apr_write_aprs vtr (fun g i => default 0 (tget (apr (vgic k)) g i)) c3 g i W3 Hg Hi).
    + done.
  - by destruct W4.
  - rewrite E4. unfold c3. by rewrite E2.
Qed.

(** The bank of [enumerate]. *)
Lemma lookup_enumerate {A} (l : list A) i : vget (enumerate l) i = (fun a => (i, a)) <$> vget l i.
Proof.
  unfold enumerate, vget. rewrite lookup_zip_with.
  pose proof (vget_vrange (vlen l) i) as Hr. unfold vget in Hr. rewrite Hr. case_decide as H.
  - destruct (l !! N.to_nat i) as [a|] eqn:E; simpl; by rewrite ?E.
  - assert (E : l !! N.to_nat i = None) by (apply lookup_ge_None; unfold vlen in H; lia). by rewrite E.
Qed.

Lemma tget_save_apr vtr c (t : list (list N)) g i : g < vlen t -> num_ap_registers vtr <= twidth t g ->
  tget ((fun '(group, bank) => fill_first (num_ap_registers vtr) (read_apr c group) bank) <$> enumerate t) g i =
  if decide (i < num_ap_registers vtr) then Some (read_apr c g i) else tget t g i.
Proof.
  intros Hg Hw. unfold tget, twidth in *. rewrite vget_fmap, lookup_enumerate.
  destruct (vget_lt_Some t g Hg) as [bank E]. rewrite E in *. simpl.
  unfold fill_first. by rewrite vget_fill_first by done.
Qed.

(** Saving records what the processor holds. *)
Lemma save_holds vtr c k : ctx_wf k -> cpu_wf c ->
  ctx_wf (ctx_save vtr c k) /\
  holds (num_list_registers vtr) (num_ap_registers vtr) (ctx_save vtr c k) c.
Proof.
  intros [Kx Kr Kl Kg Ka] [Cf Cr Cl Cg Ca]. pose proof (num_lrs_le vtr) as Hn. pose proof (num_aps_le vtr) as Hm.
  assert (Hap : forall g, g < 2 -> num_ap_registers vtr <= twidth (apr (vgic k)) g).
  { intros g Hg. rewrite Ka by done. unfold MAX_AP_REGISTERS. lia. }
  split; split; cbn [ctx_save x regs vgic fp vgic_save lr vmcr apr]; try done.
  - unfold fill_first. rewrite (vlen_fill (read_lr c) (fun i => i)). done.
  - rewrite vlen_fmap. unfold enumerate. rewrite <- Kg. unfold vlen.
    rewrite length_zip_with, Nat.min_r; [done|]. unfold vrange. rewrite length_fmap, length_seq. lia.
  - intros g Hg. rewrite <- (Ka g Hg). unfold twidth at 1. rewrite vget_fmap, lookup_enumerate.
    destruct (vget_lt_Some (apr (vgic k)) g) as [bank E]; [by rewrite Kg|]. unfold twidth. rewrite E. simpl.
    apply (vlen_fill (read_apr c g) (fun i => i)).
  - intros r. unfold sysregs_save. rewrite vget_fmap. by destruct r.
  - intros i Hi. unfold fill_first. rewrite vget_fill_first by (rewrite Kl; unfold MAX_LIST_REGISTERS; lia).
    by rewrite decide_True.
  - intros g i Hg Hi. rewrite (tget_save_apr vtr c (apr (vgic k))) by (auto; rewrite Kg; done).
    by rewrite decide_True.
Qed.

(** Demoting the saved list registers changes nothing else in the context. *)
Lemma release_hw_wf vtr k : ctx_wf k -> ctx_wf (ctx_release_hw vtr k).1.
Proof.
  intros [Kx Kr Kl Kg Ka]. unfold ctx_release_hw, release_hw. rewrite release_spec.
  split; cbn; try done. unfold vlen in *. rewrite length_app, length_fmap, length_take, length_drop. lia.
Qed.

(** What a demotion does to one list register. *)
Definition released_lr (l : N) : N := if negb (lr_is_free l) && lr_is_hw l then demote l else l.

Lemma release_hw_lr vtr k i : ctx_wf k -> i < num_list_registers vtr ->
  vget (lr (vgic (ctx_release_hw vtr k).1)) i = released_lr <$> vget (lr (vgic k)) i.
Proof.
  intros [Kx Kr Kl Kg Ka] Hi. pose proof (num_lrs_le vtr) as Hn.
  unfold ctx_release_hw, release_hw. rewrite release_spec. cbn [fst vgic lr].
  assert (Hlt : (N.to_nat i < length (take (N.to_nat (num_list_registers vtr)) (lr (vgic k))))%nat).
  { rewrite length_take. unfold vlen, MAX_LIST_REGISTERS in Kl. lia. }
  unfold vget. rewrite lookup_app_l by (by rewrite length_fmap).
  rewrite list_lookup_fmap, lookup_take. by case_decide; [|lia].
Qed.

Lemma release_hw_rest vtr k :
  let k' := (ctx_release_hw vtr k).1 in
  x k' = x k /\ regs k' = regs k /\ vmcr (vgic k') = vmcr (vgic k) /\ apr (vgic k') = apr (vgic k) /\
  fp k' = fp k.
Proof. unfold ctx_release_hw, release_hw. by rewrite release_spec. Qed.

(** ** Properties *)


Definition demo_cpu : Cpu :=
  mkCpu (vrange 31) (vrange (vlen ALL)) (vrange 16) 7 [vrange 4; vrange 4] false FP_ZERO 0 0 0 0 0 0 0.
