(* ===== verification/PendingSet.v ===== *)
(** * The pending set of a vCPU — [hv-metal/src/pending.rs]

    The words of the set and the operations on them, over the index arithmetic of [Pending].
    Each operation touches one word with one atomic access; the hypervisor takes no interrupt
    while it runs, so an operation is one step. *)

From Stdlib Require Import NArith Lia Btauto.
From stdpp Require Import base numbers list option.
From S2P Require Import Bits.
From S2P Require Import Gicv3.
From S2P Require Import Pending.
From S2P Require Import Prelude.
#[local] Open Scope N_scope.

(** ** Data *)

Definition PENDING_WORDS : N := words_for NUM_INTIDS.

Abbreviation PendingSet := (list N) (only parsing).
Definition new : PendingSet := vrepeat PENDING_WORDS 0.

(** ** Operations *)

Definition mark (intid : N) : M PendingSet bool :=
  if NUM_INTIDS <=? intid then ret false else
  let! ws := get in
  let! w := index ws (word_of intid) in
  modify (fun ws => vset ws (word_of intid) (N.lor w (bit_of intid))) ;!
  ret true.

Definition snapshot : M PendingSet (list N) := get.

Definition is_empty : M PendingSet bool := let! s := snapshot in ret (Pending.is_empty s).

Definition take_next : M PendingSet (option N) :=
  let! s := snapshot in
  let! o := lowest_set s in
  match o with
  | None => ret None
  | Some intid =>
      let! ws := get in
      let! w := index ws (word_of intid) in
      modify (fun ws => vset ws (word_of intid) (N.land w (bnot 64 (bit_of intid)))) ;!
      ret (Some intid)
  end.

Definition clear : M PendingSet unit := modify (fun ws => vrepeat (vlen ws) 0).

(** ** Specification *)

(** The words are those of the array, each 64 bits, and stand for ids the distributor has. *)
Record set_wf (ws : PendingSet) : Prop := mkSetWf {
  sw_len : vlen ws = PENDING_WORDS;
  sw_word : forall w, w ∈ ws -> w <= u64_max;
  sw_ids : forall i, member ws i -> i < NUM_INTIDS;
}.

(** The same set of ids. *)
Definition adds (ws ws' : PendingSet) (i : N) : Prop := forall j, member ws' j <-> j = i \/ member ws j.
Definition removes (ws ws' : PendingSet) (i : N) : Prop := forall j, member ws' j <-> member ws j /\ j <> i.

(** ** Lemmas *)

Lemma u64_lt x : x <= u64_max <-> x < 2 ^ 64.
Proof. change (2 ^ 64) with (u64_max + 1). lia. Qed.

Lemma set_wf_new : set_wf new.
Proof.
  assert (Hz : forall w, w ∈ new -> w = 0) by (intros w Hw; by apply elem_of_replicate in Hw as [-> _]).
  split.
  - apply vlen_vrepeat.
  - intros w ->%Hz. done.
  - intros i (w & Hw & Ht). apply vget_elem in Hw. apply Hz in Hw as ->. by rewrite N.bits_0 in Ht.
Qed.

(** Replacing the word of [i] by one that differs in the bit of [i] only. *)
Lemma member_vset ws i w w' j :
  vget ws (word_of i) = Some w ->
  (forall k, k <> i mod 64 -> N.testbit w' k = N.testbit w k) ->
  member (vset ws (word_of i) w') j <->
    if decide (j = i) then N.testbit w' (i mod 64) = true else member ws j.
Proof.
  intros Hi Hw'. pose proof (vget_Some_lt _ _ _ Hi) as Hlt. unfold member. setoid_rewrite vget_vset.
  destruct (decide (j = i)) as [->|Hj].
  - rewrite decide_True by done. split; [by intros (y & [= <-] & Ht)|eauto].
  - destruct (decide (word_of i = word_of j)) as [Hwd|Hwd].
    + rewrite <- Hwd, Hi. rewrite decide_True by done.
      assert (j mod 64 <> i mod 64) by (intros H; apply Hj; by apply index_inj).
      split; intros (y & [= <-] & Ht); eexists; (split; [done|]).
      * by rewrite <- Hw'.
      * by rewrite Hw'.
    + by rewrite decide_False by tauto.
Qed.

Lemma member_mark ws i w : vget ws (word_of i) = Some w ->
  adds ws (vset ws (word_of i) (N.lor w (bit_of i))) i.
Proof.
  intros Hi j. rewrite (member_vset ws i w); [|done|].
  2: { intros k Hk. rewrite N.lor_spec, testbit_bit_of. destruct (N.eqb_spec k (i mod 64)); [done|btauto]. }
  destruct (decide (j = i)); [|tauto]. rewrite N.lor_spec, testbit_bit_of, N.eqb_refl, orb_true_r. tauto.
Qed.

Lemma member_take ws i w : vget ws (word_of i) = Some w -> w <= u64_max ->
  removes ws (vset ws (word_of i) (N.land w (bnot 64 (bit_of i)))) i.
Proof.
  intros Hi Hw%u64_lt j. rewrite (member_vset ws i w); [|done|].
  - destruct (decide (j = i)) as [->|Hj]; [|tauto]. rewrite N.land_spec, testbit_bnot, testbit_bit_of, N.eqb_refl.
    pose proof (N.mod_lt i 64 ltac:(done)). rewrite (proj2 (N.ltb_lt _ _)) by done.
    rewrite andb_false_r. split; [done|by intros [_ ?] ].
  - intros k Hk. rewrite N.land_spec, testbit_bnot, testbit_bit_of.
    destruct (N.eqb_spec k (i mod 64)); [done|]. destruct (N.ltb_spec k 64) as [|Hk64]; simpl.
    + btauto.
    + by rewrite (testbit_high w 64).
Qed.

Lemma vset_wf ws k w' :
  set_wf ws -> w' <= u64_max -> (forall i, member (vset ws k w') i -> i < NUM_INTIDS) ->
  set_wf (vset ws k w').
Proof.
  intros [Hl Hw _] Hw' Hi. split; [by rewrite vlen_vset| |done].
  intros x [j Hj]%elem_vget. rewrite vget_vset in Hj. case_decide; [by injection Hj as <-|].
  apply Hw. by eapply vget_elem.
Qed.

Lemma word_exists ws i : set_wf ws -> i < NUM_INTIDS ->
  exists w, vget ws (word_of i) = Some w /\ w <= u64_max.
Proof.
  intros [Hl Hw _] Hi. destruct (word_in_range ws NUM_INTIDS i Hl Hi) as [w H].
  exists w. split; [done|]. apply Hw. by eapply vget_elem.
Qed.

Lemma bit_bound i : bit_of i <= u64_max.
Proof. apply u64_lt, bits_bound. intros k Hk. unfold bit_of. rewrite testbit_shl.
  by rewrite (proj2 (N.ltb_ge _ _)).
Qed.

Lemma lor_word a b : a <= u64_max -> b <= u64_max -> N.lor a b <= u64_max.
Proof. rewrite !u64_lt. intros Ha Hb. apply bits_bound. intros k Hk. rewrite N.lor_spec.
  by rewrite (testbit_high a 64), (testbit_high b 64).
Qed.

Lemma land_word a b : a <= u64_max -> N.land a b <= u64_max.
Proof. rewrite !u64_lt. intros Ha. apply bits_bound. intros k Hk. rewrite N.land_spec.
  by rewrite (testbit_high a 64).
Qed.

(** Marking: an id of the distributor joins the set, any other is refused and changes nothing. *)
Lemma mark_run ws i : set_wf ws ->
  exists ws', mark i ws = Done ws' (i <? NUM_INTIDS) /\ set_wf ws' /\
    if decide (i < NUM_INTIDS) then adds ws ws' i else ws' = ws.
Proof.
  intros Hwf. unfold mark. destruct (N.leb_spec NUM_INTIDS i) as [H|H].
  - exists ws. rewrite (proj2 (N.ltb_ge _ _)) by done. rewrite decide_False by lia. done.
  - destruct (word_exists ws i Hwf H) as (w & Hw & Hwb).
    exists (vset ws (word_of i) (N.lor w (bit_of i))).
    unfold bind, get, index, modify, ret. rewrite Hw. simpl.
    rewrite (proj2 (N.ltb_lt _ _)), decide_True by done.
    pose proof (member_mark ws i w Hw) as Ha. split_and!; [done| |done].
    apply vset_wf; [done|apply lor_word; [done|apply bit_bound]|].
    intros j [->|Hj]%Ha; [done|by apply Hwf].
Qed.

(** Taking: the least id leaves the set, which is empty if there is none. *)
Lemma take_next_run ws : set_wf ws ->
  exists ws' o, take_next ws = Done ws' o /\ set_wf ws' /\
    match o with
    | Some i => member ws i /\ (forall j, member ws j -> i <= j) /\ removes ws ws' i
    | None => ws' = ws /\ forall j, ~ member ws j
    end.
Proof.
  intros Hwf. pose proof Hwf as [Hl Hw Hi].
  destruct (pending_lowest ws NUM_INTIDS ws) as (o & E & He & Hm); [done..|].
  unfold take_next. unfold snapshot, bind, get. rewrite E. destruct o as [i|].
  - destruct (proj1 (Hm i) eq_refl) as [Hmi Hmin].
    destruct (word_exists ws i Hwf (Hi _ Hmi)) as (w & Hgw & Hwb).
    eexists _, (Some i). unfold index, modify, ret. rewrite Hgw. simpl. split; [done|].
    pose proof (member_take ws i w Hgw Hwb) as Hr. split_and!; [|done..].
    apply vset_wf; [done|by apply land_word|]. intros j [Hj _]%Hr. by apply Hi.
  - exists ws, None. split_and!; [done..|]. by apply He.
Qed.

Lemma is_empty_run ws : set_wf ws ->
  exists e, is_empty ws = Done ws e /\ (e = true <-> forall j, ~ member ws j).
Proof.
  intros [Hl Hw _]. eexists. split; [reflexivity|]. rewrite is_empty_spec. apply members_zero.
  intros x Hx. by apply u64_lt, Hw.
Qed.
