(* ===== verification/Console.v ===== *)
(** * The shared serial line — [hv-metal/src/console.rs]

    The guests share one physical line. Each transmits through its own emulated UART into a
    line buffer of its own, and a whole line goes out under the tag of its guest. *)

From Stdlib Require Import NArith Lia.
From stdpp Require Import base numbers list option.
From S2P Require Import Prelude.
#[local] Open Scope N_scope.

(** ** Data *)

Definition LINE_CAP : N := 512.
Definition NEWLINE : N := 10.
Definition RETURN : N := 13.

Record GuestConsole : Type := mkConsole {
  line : list (list N);
  len : list N;
  lines : list N;
}.

(** What is on the wire: the tag ["[dom d] "], whose text the formatter writes, and bytes. *)
Inductive Wire : Type :=
| Tag (slot : N)
| Byte (byte : N).

(** The console and the line it writes to. *)
Record Serial : Type := mkSerial { con : GuestConsole; wire : list Wire }.

Definition line_l : lens Serial (list (list N)) :=
  Lens (fun s => line (con s)) (fun u s => mkSerial (mkConsole u (len (con s)) (lines (con s))) (wire s)).
Definition len_l : lens Serial (list N) :=
  Lens (fun s => len (con s)) (fun u s => mkSerial (mkConsole (line (con s)) u (lines (con s))) (wire s)).
Definition lines_l : lens Serial (list N) :=
  Lens (fun s => lines (con s)) (fun u s => mkSerial (mkConsole (line (con s)) (len (con s)) u) (wire s)).

Definition send (w : Wire) : M Serial unit := modify (fun s => mkSerial (con s) (wire s ++ [w])).

Definition new (num_guests : N) : GuestConsole :=
  mkConsole (vrepeat num_guests (vrepeat LINE_CAP 0)) (vrepeat num_guests 0) (vrepeat num_guests 0).

(** ** Operations *)

(** The addition to the tally of lines is that of the release profile, which wraps. *)
Definition emit (slot : N) : M Serial unit :=
  let! s := get in
  let! n := index (len (con s)) slot in
  let! buf := index (line (con s)) slot in
  let! n :=
    if 0 <? n then let! last := index buf (n - 1) in ret (if last =? RETURN then n - 1 else n)
    else ret n in
  send (Tag slot) ;!
  (if n <=? vlen buf then ret tt else panic) ;!
  for_each (take (N.to_nat n) buf) (fun byte => send (Byte byte)) ;!
  send (Byte RETURN) ;!
  send (Byte NEWLINE) ;!
  index_set len_l slot 0 ;!
  let! k := index (lines (con s)) slot in
  index_set lines_l slot ((k + 1) mod (u64_max + 1)).

Definition put (slot byte : N) : M Serial unit :=
  if byte =? NEWLINE then emit slot else
  let! s := get in
  let! n := index (len (con s)) slot in
  (if n =? LINE_CAP then emit slot else ret tt) ;!
  let! s := get in
  let! n := index (len (con s)) slot in
  let! buf := index (line (con s)) slot in
  index buf n ;!
  index_set line_l slot (vset buf n byte) ;!
  index_set len_l slot (n + 1).

Definition flush (slot : N) : M Serial unit :=
  let! s := get in
  let! n := index (len (con s)) slot in
  if negb (n =? 0) then emit slot else ret tt.

(** ** Specification *)

(** What a guest does to the line. *)
Inductive Op : Type :=
| Put (slot byte : N)
| Flush (slot : N).
Definition slot_of (o : Op) : N := match o with Put s _ => s | Flush s => s end.
Definition run_op (o : Op) : M Serial unit :=
  match o with Put s byte => put s byte | Flush s => flush s end.

(** The lines a guest's own operations end, given what it has pending, and what is left. *)
Definition strip (l : list N) : list N :=
  match list.last l with Some b => if b =? RETURN then removelast l else l | None => l end.
Definition own_step (st : list (list N) * list N) (o : Op) : list (list N) * list N :=
  let '(out, cur) := st in
  match o with
  | Put _ byte =>
      if byte =? NEWLINE then (out ++ [strip cur], [])
      else if vlen cur =? LINE_CAP then (out ++ [strip cur], [byte])
      else (out, cur ++ [byte])
  | Flush _ => if vlen cur =? 0 then (out, cur) else (out ++ [strip cur], [])
  end.
Definition own_lines (os : list Op) : list (list N) * list N := foldl own_step ([], []) os.

(** A line on the wire. *)
Definition framed (e : N * list N) : list Wire :=
  Tag e.1 :: (Byte <$> e.2) ++ [Byte RETURN; Byte NEWLINE].

(** The operations of one guest, and the lines of one guest among all that went out. *)
Definition ops_of (slot : N) (os : list Op) : list Op :=
  List.filter (fun o => slot_of o =? slot) os.
Definition lines_of (slot : N) (log : list (N * list N)) : list (list N) :=
  snd <$> List.filter (fun e => e.1 =? slot) log.

(** ** Lemmas *)

(** What the console holds for a guest: the first [len] bytes of its buffer. *)
Definition pending (c : GuestConsole) (slot : N) : list N :=
  match vget (line c) slot, vget (len c) slot with
  | Some buf, Some n => take (N.to_nat n) buf
  | _, _ => []
  end.

Record console_wf (n : N) (c : GuestConsole) : Prop := mkConsoleWf {
  cw_line : vlen (line c) = n;
  cw_len : vlen (len c) = n;
  cw_lines : vlen (lines c) = n;
  cw_buf : forall i buf, vget (line c) i = Some buf -> vlen buf = LINE_CAP;
  cw_fill : forall i k, vget (len c) i = Some k -> k <= LINE_CAP;
}.

(** After an operation of [slot] the wire has grown by [out], the guest has [cur] pending, and
    nobody else's buffer has changed. *)
Definition effect (n : N) (slot : N) (out : list (list N)) (cur : list N) (s s' : Serial) : Prop :=
  console_wf n (con s') /\ wire s' = wire s ++ (out ≫= fun l => framed (slot, l)) /\
  pending (con s') slot = cur /\ forall i, i <> slot -> pending (con s') i = pending (con s) i.

Lemma vlen_pending n c slot k : console_wf n c -> vget (len c) slot = Some k -> slot < n ->
  exists buf, vget (line c) slot = Some buf /\ pending c slot = take (N.to_nat k) buf /\
    vlen (pending c slot) = k /\ vlen buf = LINE_CAP.
Proof.
  intros [Hl _ _ Hb Hf] Hk Hs. destruct (vget_lt_Some (line c) slot) as [buf Hbuf]; [by rewrite Hl|].
  exists buf. unfold pending. rewrite Hbuf, Hk. split_and!; [done|done| |by eapply Hb].
  pose proof (Hf _ _ Hk). pose proof (Hb _ _ Hbuf) as Hc. unfold vlen in *.
  rewrite length_take. lia.
Qed.

Lemma strip_take (buf : list N) k b : vget buf k = Some b ->
  strip (take (N.to_nat (k + 1)) buf) =
    if b =? RETURN then take (N.to_nat k) buf else take (N.to_nat (k + 1)) buf.
Proof.
  intros Hb. unfold vget in Hb. rewrite N2Nat.inj_add. change (N.to_nat 1) with 1%nat.
  rewrite Nat.add_comm. simpl (1 + _)%nat. rewrite (take_S_r _ _ b) by done. unfold strip.
  rewrite last_snoc. by rewrite removelast_last.
Qed.

Lemma for_each_send l s :
  for_each l (fun byte => send (Byte byte)) s = Done (mkSerial (con s) (wire s ++ (Byte <$> l))) tt.
Proof.
  revert s. induction l as [|b l IH]; intros s; csimpl; [by rewrite app_nil_r; destruct s|].
  unfold bind, send, modify. rewrite IH. simpl. by rewrite <- app_assoc.
Qed.

Lemma pending_reset c slot i u :
  pending (mkConsole (line c) (vset (len c) slot 0) u) i =
    if decide (i = slot) then [] else pending c i.
Proof.
  unfold pending. simpl. case_decide as Hi.
  - subst i. destruct (vget (line c) slot); [|done]. rewrite vget_vset.
    case_decide as H; [done|]. destruct (vget (len c) slot) eqn:E; [|done].
    destruct H. split; [done|by eapply vget_Some_lt].
  - by rewrite vget_vset_ne.
Qed.

Lemma emit_run n slot s : console_wf n (con s) -> slot < n ->
  wp (emit slot) (fun s' _ => effect n slot [strip (pending (con s) slot)] [] s s') s.
Proof.
  intros Hwf Hs. pose proof Hwf as [Hl Hn Hk Hb Hf].
  destruct (vget_lt_Some (len (con s)) slot) as [k Hgk]; [by rewrite Hn|].
  destruct (vget_lt_Some (lines (con s)) slot) as [t Hgt]; [by rewrite Hk|].
  destruct (vlen_pending n _ _ _ Hwf Hgk Hs) as (buf & Hbuf & Hp & Hvl & Hcap).
  pose proof (Hf _ _ Hgk) as Hkc.
  assert (Hstrip : exists m, m <= LINE_CAP /\
    take (N.to_nat m) buf = strip (pending (con s) slot) /\
    wp (if 0 <? k then let! last := index buf (k - 1) in ret (if last =? RETURN then k - 1 else k)
        else ret k) (fun s' x => s' = s /\ x = m) s).
  { rewrite Hp. destruct (N.ltb_spec 0 k) as [H0|H0].
    - destruct (vget_lt_Some buf (k - 1)) as [b Hgb]; [by rewrite Hcap; lia|].
      pose proof (strip_take buf (k - 1) b Hgb) as E. rewrite N.sub_add in E by lia.
      exists (if b =? RETURN then k - 1 else k). split_and!.
      + destruct (b =? RETURN); lia.
      + rewrite E. by destruct (b =? RETURN).
      + wp_step. apply wp_index. exists b. split; [done|]. by wp_step.
    - replace k with 0 by lia. exists 0. split_and!; [lia|done|]. by wp_step. }
  destruct Hstrip as (m & Hm & Etake & Hw).
  unfold emit. wp_step. wp_step. wp_step. apply wp_index. exists k. split; [done|].
  wp_step. apply wp_index. exists buf. split; [done|]. wp_step. wp_apply Hw. intros s' x [-> ->].
  unfold send at 1. wp_step. wp_step. wp_step.
  rewrite (proj2 (N.leb_le _ _)) by (by rewrite Hcap). wp_step. wp_step.
  eapply wp_of_Done; [apply for_each_send|]. unfold send. do 4 wp_step. wp_step.
  apply wp_index_set; simpl; [by rewrite Hn|]. wp_step. apply wp_index. exists t. split; [done|].
  apply wp_index_set; simpl; [by rewrite Hk|]. rewrite Etake. unfold effect. simpl.
  split_and!.
  - split; simpl; rewrite ?vlen_vset; try done. intros i k'. rewrite vget_vset.
    case_decide; [intros [= <-]; lia|apply Hf].
  - unfold framed. rewrite app_nil_r, <- !app_assoc. done.
  - by rewrite pending_reset, decide_True.
  - intros i Hi. by rewrite pending_reset, decide_False.
Qed.

(** An operation does to the buffer of its guest what [own_step] says, and sends the lines it
    ends. *)
Definition steps (n : N) (o : Op) (s s' : Serial) : Prop :=
  let '(out, cur) := own_step ([], pending (con s) (slot_of o)) o in
  effect n (slot_of o) out cur s s'.

Lemma effect_refl n slot s : console_wf n (con s) -> effect n slot [] (pending (con s) slot) s s.
Proof. intros H. unfold effect. by rewrite app_nil_r. Qed.

Lemma pending_push c slot buf k b t i :
  vget (line c) slot = Some buf -> vget (len c) slot = Some k -> k < vlen buf ->
  pending (mkConsole (vset (line c) slot (vset buf k b)) (vset (len c) slot (k + 1)) t) i =
    if decide (i = slot) then pending c slot ++ [b] else pending c i.
Proof.
  intros Hb Hk Hlt. unfold pending. simpl. case_decide as Hi.
  - subst i. rewrite !vget_vset_eq by (by eapply vget_Some_lt). rewrite Hb, Hk.
    rewrite N2Nat.inj_add. change (N.to_nat 1) with 1%nat. rewrite Nat.add_comm. simpl (1 + _)%nat.
    rewrite (take_S_r _ _ b); [|by apply (vget_vset_eq buf k b)]. f_equal.
    unfold vset. by rewrite take_insert_ge.
  - by rewrite !vget_vset_ne.
Qed.

(** Storing a byte that is not a newline when there is room. *)
Lemma store_run n slot byte s : console_wf n (con s) -> slot < n ->
  vlen (pending (con s) slot) < LINE_CAP ->
  wp (let! s := get in
      let! k := index (len (con s)) slot in
      let! buf := index (line (con s)) slot in
      index buf k ;!
      index_set line_l slot (vset buf k byte) ;!
      index_set len_l slot (k + 1))
    (fun s' _ => effect n slot [] (pending (con s) slot ++ [byte]) s s') s.
Proof.
  intros Hwf Hs Hroom. pose proof Hwf as [Hl Hn Hk Hb Hf].
  destruct (vget_lt_Some (len (con s)) slot) as [k Hgk]; [by rewrite Hn|].
  destruct (vlen_pending n _ _ _ Hwf Hgk Hs) as (buf & Hbuf & _ & Hvl & Hcap). rewrite Hvl in Hroom.
  destruct (vget_lt_Some buf k) as [b Hgb]; [by rewrite Hcap|].
  wp_step. wp_step. wp_step. apply wp_index. exists k. split; [done|].
  wp_step. apply wp_index. exists buf. split; [done|]. wp_step. apply wp_index. exists b. split; [done|].
  wp_step. apply wp_index_set; simpl; [by rewrite Hl|]. apply wp_index_set; simpl; [by rewrite Hn|].
  unfold effect. simpl. split_and!.
  - split; simpl; rewrite ?vlen_vset; try done; intros i u; rewrite vget_vset; case_decide.
    + intros [= <-]. by rewrite vlen_vset.
    + apply Hb.
    + intros [= <-]. lia.
    + apply Hf.
  - by rewrite app_nil_r.
  - rewrite (pending_push _ _ _ _ _ _ slot Hbuf Hgk) by (by rewrite Hcap). by rewrite decide_True.
  - intros i Hi. rewrite (pending_push _ _ _ _ _ _ i Hbuf Hgk) by (by rewrite Hcap). by rewrite decide_False.
Qed.

Lemma effect_trans n slot o1 c1 o2 c2 s s1 s2 :
  effect n slot o1 c1 s s1 -> effect n slot o2 c2 s1 s2 -> effect n slot (o1 ++ o2) c2 s s2.
Proof.
  intros (_ & H2 & _ & H4) (K1 & K2 & K3 & K4). split_and!; [done| |done|].
  - by rewrite K2, H2, bind_app, app_assoc.
  - intros i Hi. by rewrite K4, H4.
Qed.

Lemma step_run n o s : console_wf n (con s) -> slot_of o < n ->
  wp (run_op o) (fun s' _ => steps n o s s') s.
Proof.
  intros Hwf Hs. pose proof Hwf as [_ Hn _ _ _].
  destruct (vget_lt_Some (len (con s)) (slot_of o)) as [k Hgk]; [by rewrite Hn|].
  destruct (vlen_pending n _ _ _ Hwf Hgk Hs) as (_ & _ & _ & Hvl & _).
  unfold steps. destruct o as [slot byte|slot]; simpl in *.
  - unfold put. destruct (byte =? NEWLINE); [by apply emit_run|].
    wp_step. wp_step. wp_step. apply wp_index. exists k. split; [done|]. rewrite Hvl. wp_step.
    destruct (N.eqb_spec k LINE_CAP) as [->|Hk].
    + wp_apply emit_run; [done..|]. intros s1 [] Hef. pose proof Hef as (Hwf1 & _ & Hp1 & _).
      eapply wp_mono; [apply (store_run n); [done..|by rewrite Hp1]|]. intros s2 [] Hef2.
      rewrite Hp1 in Hef2. exact (effect_trans _ _ _ _ [] _ _ _ _ Hef Hef2).
    + wp_step. apply store_run; [done..|]. rewrite Hvl.
      pose proof (cw_fill _ _ Hwf _ _ Hgk). lia.
  - unfold flush. wp_step. wp_step. wp_step. apply wp_index. exists k. split; [done|]. rewrite Hvl.
    destruct (k =? 0); simpl; [wp_step; by apply effect_refl|by apply emit_run].
Qed.

(** ** Properties *)

(** C39: the line is shared without being mixed: whatever the guests transmit and in whatever
    order their bytes and the flushes interleave, no access is out of range; the wire carries
    whole lines only, each under the tag of its guest and ended by the console; the lines of a
    guest are a function of its own bytes alone, in order; and what a guest has not ended yet
    is held back, again as its own bytes say. *)
Theorem console_isolates (n : N) (os : list Op) : (forall o, o ∈ os -> slot_of o < n) ->
  exists s log, for_each os run_op (mkSerial (new n) []) = Done s tt /\
    wire s = log ≫= framed /\
    forall slot, slot < n ->
      (lines_of slot log, pending (con s) slot) = own_lines (ops_of slot os).
Proof.
  intros Hos.
  assert (Hw : wp (for_each os run_op) (fun s _ => console_wf n (con s) /\
    exists log, wire s = log ≫= framed /\ forall slot, slot < n ->
      (lines_of slot log, pending (con s) slot) = own_lines (ops_of slot os)) (mkSerial (new n) [])).
  { apply wp_for_each with (I := fun l s => console_wf n (con s) /\
      exists log, wire s = log ≫= framed /\ forall slot, slot < n ->
        (lines_of slot log, pending (con s) slot) = own_lines (ops_of slot l)); [| |done].
    - split; [|exists []; split; [done|]].
      + split; simpl; rewrite ?vlen_vrepeat; try done; intros i u; rewrite vget_vrepeat; case_decide; try done.
        * intros [= <-]. apply vlen_vrepeat.
        * intros [= <-]. done.
      + intros slot Hslot. unfold pending, lines_of, own_lines. simpl.
        rewrite !vget_vrepeat. rewrite !decide_True by done. by unfold ops_of, take.
    - intros l1 o l2 s E (Hwf & log & Hlog & Hown).
      assert (Ho : slot_of o < n) by (apply Hos; rewrite E; apply elem_of_app; right; by left).
      wp_apply step_run; [done..|]. intros s' _ Hst. unfold steps in Hst.
      destruct (own_step ([], pending (con s) (slot_of o)) o) as [out cur] eqn:Eo.
      destruct Hst as (Hwf' & Hw & Hp & Hoth). split; [done|].
      exists (log ++ ((fun l => (slot_of o, l)) <$> out)). split.
      { rewrite Hw, Hlog, bind_app. f_equal. clear. induction out as [|l out IH]; csimpl; [done|]. by rewrite IH. }
      intros slot Hslot. unfold lines_of, ops_of, own_lines.
      rewrite !List.filter_app, fmap_app, foldl_app. specialize (Hown slot Hslot).
      unfold lines_of, ops_of, own_lines in Hown. rewrite <- Hown. cbn [List.filter].
      destruct (N.eqb_spec (slot_of o) slot) as [<-|Hne].
      + assert (Hout : snd <$> List.filter (fun e => e.1 =? slot_of o) ((fun l => (slot_of o, l)) <$> out) = out).
        { clear. induction out as [|l out IH]; csimpl; [done|]. rewrite N.eqb_refl. csimpl. by rewrite IH. }
        rewrite Hout, Hp. cbn [foldl]. clear -Eo.
        destruct o as [slot byte|slot]; simpl in *; repeat case_match; simplify_eq;
          by rewrite ?app_nil_r.
      + assert (Hout : snd <$> List.filter (fun e => e.1 =? slot) ((fun l => (slot_of o, l)) <$> out) = []).
        { clear -Hne. induction out as [|l out IH]; csimpl; [done|]. by rewrite (proj2 (N.eqb_neq _ _) Hne). }
        rewrite Hout, app_nil_r, Hoth by done. done. }
  apply wp_Done in Hw as (s & [] & E & _ & log & Hlog & Hown). by exists s, log.
Qed.

(** Two guests whose bytes interleave, one ending its line with a carriage return. *)
Definition console_demo : list Op :=
  [Put 0 72; Put 1 65; Put 0 73; Put 1 13; Put 1 10; Put 0 10; Put 0 33; Flush 0; Flush 1].

Theorem console_isolates_witness :
  exists s log, for_each console_demo run_op (mkSerial (new 2) []) = Done s tt /\ wire s = log ≫= framed /\
    wire s = [Tag 1; Byte 65; Byte 13; Byte 10; Tag 0; Byte 72; Byte 73; Byte 13; Byte 10;
              Tag 0; Byte 33; Byte 13; Byte 10].
Proof.
  destruct (console_isolates 2 console_demo) as (s & log & E & Hw & _).
  - intros o Ho. unfold console_demo in Ho.
    repeat (apply elem_of_cons in Ho as [->|Ho]; [reflexivity|]). by apply elem_of_nil in Ho.
  - exists s, log. split; [exact E|]. split; [exact Hw|]. vm_compute in E. injection E as <-. reflexivity.
Defined.
