(* ===== verification/Linux.v ===== *)
(** * The real guests under the hypervisor — [hv-metal/src/linux.rs]

    The state of the path that runs real kernels and its trap handlers: the delivery of
    virtual interrupts, the switch of the one physical CPU between vCPUs, the scheduling of
    vCPUs through the hypervisor of [Hypervisor], and the dispatch of synchronous exceptions
    and of physical interrupts.

    A static of the source is a field of [Linux]. Its guards against a second borrow are not
    modelled: a handler is not interrupted and does not nest, so that a [try_borrow_mut]
    succeeds. [park] stops the machine and is [panic] here. What the code reports on the
    serial line and the code of the [selftest], [monitor] and [smmu] features and of the
    probes is left out. *)

From Stdlib Require Import NArith Lia.
From stdpp Require Import base numbers list option.
From S2P Require Import Bits.
From S2P Require Import Hypervisor.
From S2P Require Import Irouter.
From S2P Require Import Sgi.
From S2P Require Import Pl011.
From S2P Require Import Gicv3.
From S2P Require Import VgicCpuif.
From S2P Require Import Abort.
From S2P Require Import Arm64.
From S2P Require Import Partition.
From S2P Require Import Metal.
From S2P Require Import Teardown.
From S2P Require Import PendingSet.
From S2P Require Import CpuState.
From S2P Require Import Role.
From S2P Require Import Console.
From S2P Require Import Prelude.
#[local] Open Scope N_scope.

(** ** The state *)

Definition NUM_GUESTS : N := 2.
Definition SLOT_A : N := 0.
Definition PCPU0 : Pcpu := 0.

(** The statics that hold one atomic word per guest, per vCPU, and one. *)
Inductive GuestWord : Type :=
| SGI_TARGETS_NAMED | SGIS_DELIVERED | SGIS_DEFERRED | SGIS_ROUTED | SGIS_DRAINED | MAINT_TAKEN
| SPI_TARGETS_NAMED | SPIS_DELIVERED | SPIS_DEFERRED | SPIS_ROUTED | SPIS_UNROUTABLE
| AFFINITY_COLLISIONS | SPI_WITNESS_ARMED | SPI_WITNESS_FIRED | TIMER_FORWARDED | TIMER_DEFERRED
| HANDOVERS | HW_RELEASED | TIMER_DEACTIVATED | SWITCHES | FP_FOREIGN | FP_RESTORE_VERIFIED
| AP_FOREIGN | AP_RESTORE_VERIFIED | WFI_TRAPS | WFI_YIELDS | SECONDARIES_SEEDED
| SECONDARIES_ADMITTED | CPU_ON_REFUSED | PEER_FAULTS | RETIREMENT | VTTBR.
Inductive VcpuWord : Type :=
| VCPUS_WOKEN | VCPUS_BLOCKED | BLOCKED_READBACK_OK | VCPUS_OFFLINED_WHILE_BLOCKED | VCPU_SEEDED.
Inductive Word : Type :=
| WAKE_SWEEPS | PREEMPTS | DISPATCHED_NONBOOT | SLICE_EXPIRIES | SLICE_DEACTIVATED | SLICE_QUANTUM
| SLICE_FIRST_ARM | CNTHP_CTL_READBACK | SCTLR_AT_BOOT | IDENTITY_WRITES | IDENTITY_VERIFIED
| IDENTITY_VMPIDR | IDENTITY_VPIDR.
#[global] Instance GuestWord_eq_dec : EqDecision GuestWord.
Proof. solve_decision. Defined.
#[global] Instance VcpuWord_eq_dec : EqDecision VcpuWord.
Proof. solve_decision. Defined.
#[global] Instance Word_eq_dec : EqDecision Word.
Proof. solve_decision. Defined.

(** The devices a guest drives, with the tallies of [vgic.rs] and [vpl011.rs]. *)
Record DeployedGic : Type := mkDeployedGic { dev : VirtGic; traps : N; enables : N }.
Record DeployedPl011 : Type := mkDeployedPl011 {
  uart : VirtPl011; needle : NeedleMatcher; uart_traps : N; dr_writes : N }.

Record Linux : Type := mkLinux {
  world : World;
  cpu : Cpu;
  current : N;
  ctxs : list (list VcpuCtx);
  pending : list (list (list N));
  vgics : list DeployedGic;
  uarts : list DeployedPl011;
  serial : Serial;
  per_guest : GuestWord -> N -> N;
  per_vcpu : VcpuWord -> N -> N -> N;
  word : Word -> N;
  ticks_read : N;
  ended : bool;
}.

Definition world_l : lens Linux World := Lens world (fun u s =>
  mkLinux u (cpu s) (current s) (ctxs s) (pending s) (vgics s) (uarts s) (serial s) (per_guest s)
    (per_vcpu s) (word s) (ticks_read s) (ended s)).
Definition cpu_l : lens Linux Cpu := Lens cpu (fun u s =>
  mkLinux (world s) u (current s) (ctxs s) (pending s) (vgics s) (uarts s) (serial s) (per_guest s)
    (per_vcpu s) (word s) (ticks_read s) (ended s)).
Definition current_l : lens Linux N := Lens current (fun u s =>
  mkLinux (world s) (cpu s) u (ctxs s) (pending s) (vgics s) (uarts s) (serial s) (per_guest s)
    (per_vcpu s) (word s) (ticks_read s) (ended s)).
Definition ctxs_l : lens Linux (list (list VcpuCtx)) := Lens ctxs (fun u s =>
  mkLinux (world s) (cpu s) (current s) u (pending s) (vgics s) (uarts s) (serial s) (per_guest s)
    (per_vcpu s) (word s) (ticks_read s) (ended s)).
Definition pending_l : lens Linux (list (list (list N))) := Lens pending (fun u s =>
  mkLinux (world s) (cpu s) (current s) (ctxs s) u (vgics s) (uarts s) (serial s) (per_guest s)
    (per_vcpu s) (word s) (ticks_read s) (ended s)).
Definition vgics_l : lens Linux (list DeployedGic) := Lens vgics (fun u s =>
  mkLinux (world s) (cpu s) (current s) (ctxs s) (pending s) u (uarts s) (serial s) (per_guest s)
    (per_vcpu s) (word s) (ticks_read s) (ended s)).
Definition uarts_l : lens Linux (list DeployedPl011) := Lens uarts (fun u s =>
  mkLinux (world s) (cpu s) (current s) (ctxs s) (pending s) (vgics s) u (serial s) (per_guest s)
    (per_vcpu s) (word s) (ticks_read s) (ended s)).
Definition serial_l : lens Linux Serial := Lens serial (fun u s =>
  mkLinux (world s) (cpu s) (current s) (ctxs s) (pending s) (vgics s) (uarts s) u (per_guest s)
    (per_vcpu s) (word s) (ticks_read s) (ended s)).
Definition per_guest_l : lens Linux (GuestWord -> N -> N) := Lens per_guest (fun u s =>
  mkLinux (world s) (cpu s) (current s) (ctxs s) (pending s) (vgics s) (uarts s) (serial s) u
    (per_vcpu s) (word s) (ticks_read s) (ended s)).
Definition per_vcpu_l : lens Linux (VcpuWord -> N -> N -> N) := Lens per_vcpu (fun u s =>
  mkLinux (world s) (cpu s) (current s) (ctxs s) (pending s) (vgics s) (uarts s) (serial s)
    (per_guest s) u (word s) (ticks_read s) (ended s)).
Definition word_l : lens Linux (Word -> N) := Lens word (fun u s =>
  mkLinux (world s) (cpu s) (current s) (ctxs s) (pending s) (vgics s) (uarts s) (serial s)
    (per_guest s) (per_vcpu s) u (ticks_read s) (ended s)).
Definition ticks_read_l : lens Linux N := Lens ticks_read (fun u s =>
  mkLinux (world s) (cpu s) (current s) (ctxs s) (pending s) (vgics s) (uarts s) (serial s)
    (per_guest s) (per_vcpu s) (word s) u (ended s)).
Definition ended_l : lens Linux bool := Lens ended (fun u s =>
  mkLinux (world s) (cpu s) (current s) (ctxs s) (pending s) (vgics s) (uarts s) (serial s)
    (per_guest s) (per_vcpu s) (word s) (ticks_read s) u).

(** The atomic words: a load or a store names an element in range, an addition wraps. *)
Definition in_guest (g : N) : M Linux unit := if g <? NUM_GUESTS then ret tt else panic.
Definition in_vcpu (g : N) (v : VcpuIdx) : M Linux unit :=
  if (g <? NUM_GUESTS) && (idx v <? VCPUS_PER_GUEST) then ret tt else panic.
Definition load_g (w : GuestWord) (g : N) : M Linux N := in_guest g ;! gets (fun s => per_guest s w g).
Definition store_g (w : GuestWord) (g u : N) : M Linux unit :=
  in_guest g ;!
  modify (fun s => lset per_guest_l (fun w' g' =>
    if decide (w' = w /\ g' = g) then u else per_guest s w' g') s).
Definition fetch_add_g (w : GuestWord) (g k : N) : M Linux unit :=
  let! u := load_g w g in store_g w g ((u + k) mod (u64_max + 1)).
Definition load_v (w : VcpuWord) (g : N) (v : VcpuIdx) : M Linux N :=
  in_vcpu g v ;! gets (fun s => per_vcpu s w g (idx v)).
Definition store_v (w : VcpuWord) (g : N) (v : VcpuIdx) (u : N) : M Linux unit :=
  in_vcpu g v ;!
  modify (fun s => lset per_vcpu_l (fun w' g' v' =>
    if decide (w' = w /\ g' = g /\ v' = idx v) then u else per_vcpu s w' g' v') s).
Definition fetch_add_v (w : VcpuWord) (g : N) (v : VcpuIdx) : M Linux unit :=
  let! u := load_v w g v in store_v w g v ((u + 1) mod (u64_max + 1)).
Definition store_w (w : Word) (u : N) : M Linux unit :=
  modify (fun s => lset word_l (fun w' => if decide (w' = w) then u else word s w') s).
Definition fetch_add_w (w : Word) : M Linux unit :=
  let! s := get in store_w w ((word s w + 1) mod (u64_max + 1)).

(** What acts on the physical CPU. *)
Definition on_cpu (f : Cpu -> Cpu) : M Linux unit := modify (fun s => lset cpu_l (f (cpu s)) s).
Definition of_cpu {T} (f : Cpu -> Cpu * T) : M Linux T :=
  let! s := get in let '(c, r) := f (cpu s) in modify (lset cpu_l c) ;! ret r.

Definition current_vcpu : M Linux Running := gets (fun s => unpack (current s)).

(** ** The identity of a vCPU *)

Definition MPIDR_RES1 : N := shl 64 1 31.
Definition MPIDR_HWID_BITMASK : N := 0xff00ffffff.
Definition guest_mpidr (v : VcpuIdx) : N := N.lor MPIDR_RES1 (vcpu_affinity (idx v)).

(** ** PSCI *)

Definition PSCI_VERSION_FID : N := 0x84000000.
Definition PSCI_FEATURES_FID : N := 0x8400000A.
Definition PSCI_SYSTEM_OFF_FID : N := 0x84000008.
Definition PSCI_VERSION_1_1 : N := 0x00010001.
Definition PSCI_NOT_SUPPORTED : N := u64_max.
Definition PSCI_CPU_ON_FID : N := 0xc4000003.
Definition PSCI_SUCCESS : N := 0.
Definition PSCI_INVALID_PARAMETERS : N := u64_max - 1.
Definition PSCI_ALREADY_ON : N := u64_max - 3.
Definition PSCI_INVALID_ADDRESS : N := u64_max - 8.

Definition SPSR_EL2_LINUX : N := N.lor 5 (shl 64 15 6).
Definition EC_SYSREG : N := 0x18.
Definition EC_WFX : N := 0x01.
Definition EC_HVC : N := 0x16.
Definition ISS_SYSREG_FIELDS : N := 0x003fffff.
Definition ISS_ICC_SGI1R_EL1_WRITE : N :=
  N.lor (N.lor (N.lor (shl 64 3 20) (shl 64 5 17)) (shl 64 12 10)) (shl 64 11 1).
Definition WITNESS_SPI : N := 33.
Definition MAX_PEER_FAULTS : N := 4096.
Definition EL2_SLICE_HZ : N := 100.
Definition VPL011_BASE : N := 0x09000000.
Definition VPL011_SIZE : N := 0x1000.
Definition IMAGE_MAGIC_OFF : N := 56.
Definition IMAGE_MAGIC : N := 0x644d5241.

Inductive Retirement : Type := Live | PoweredOff | Faulted.

Section Machine.
Context (b : Board) (part : Partition) (vtr midr freq : N) (clock : N -> N).

(** [PARTITION.dom_of]. *)
Definition slot_dom (slot : N) : M Linux DomId := dom_of part slot.

(** The counter: the value of each reading, and [CNTFRQ_EL0]. *)
Definition now : M Linux Ticks :=
  let! s := get in modify (lset ticks_read_l (ticks_read s + 1)) ;! ret (clock (ticks_read s)).

(** ** Delivering a virtual interrupt *)

Definition deliver_or_defer_vint (g : N) (v : VcpuIdx) (named delivered deferred : GuestWord)
    (intid : N) : M Linux unit :=
  fetch_add_g named g 1 ;!
  let! placed := of_cpu (inject vtr intid) in
  if placed : bool then fetch_add_g delivered g 1 else
  let! marked := at_vcpu pending_l g v (mark intid) in
  if marked : bool then fetch_add_g deferred g 1 ;! on_cpu (set_underflow_interrupt true)
  else ret tt.

Definition note_affinity_collisions (r : Running) (names : N -> bool) : M Linux unit :=
  let collisions := count (fun '(g, v) => negb (g =? run_guest r) && names (vcpu_affinity (idx v)))
    (census NUM_GUESTS) in
  if 0 <? collisions then fetch_add_g AFFINITY_COLLISIONS (run_guest r) collisions else ret tt.

(** The body of the two routing loops, for a vCPU that is named. *)
Definition deliver_to (r : Running) (o : OwnVcpu) (named delivered deferred routed : GuestWord)
    (intid : N) : M Linux unit :=
  let slot := run_guest r in
  if decide (own_vcpu o = run_vcpu r) then
    deliver_or_defer_vint slot (run_vcpu r) named delivered deferred intid
  else
    let! marked := at_vcpu pending_l (own_guest o) (own_vcpu o) (mark intid) in
    if marked : bool then fetch_add_g named slot 1 ;! fetch_add_g routed slot 1 else ret tt.

Fixpoint deliver_spi_to (r : Running) (route : SpiRoute) (intid : N) (os : list OwnVcpu) : M Linux unit :=
  match os with
  | [] => fetch_add_g SPIS_UNROUTABLE (run_guest r) 1
  | o :: os =>
      if negb (Irouter.targets route (vcpu_affinity (idx (own_vcpu o)))) then deliver_spi_to r route intid os
      else deliver_to r o SPI_TARGETS_NAMED SPIS_DELIVERED SPIS_DEFERRED SPIS_ROUTED intid
  end.
Definition deliver_spi (route : SpiRoute) (r : Running) (intid : N) : M Linux unit :=
  note_affinity_collisions r (Irouter.targets route) ;!
  deliver_spi_to r route intid (own_vcpus r).

(** The write to [ICC_SGI1R_EL1] of [handle_linux_sysreg_trap]. *)
Definition deliver_sgi (value : N) : M Linux unit :=
  let! r := current_vcpu in
  let decoded := Sgi.decode value (vcpu_affinity (idx (run_vcpu r))) in
  note_affinity_collisions r (Sgi.targets decoded) ;!
  for_each (own_vcpus r) (fun o =>
    if negb (Sgi.targets decoded (vcpu_affinity (idx (own_vcpu o)))) then ret tt
    else deliver_to r o SGI_TARGETS_NAMED SGIS_DELIVERED SGIS_DEFERRED SGIS_ROUTED
           (Sgi.intid decoded)).

Definition arm_spi_witness (r : Running) (route : option SpiRoute) : M Linux unit :=
  match route with
  | None => ret tt
  | Some route =>
      if Irouter.targets route (vcpu_affinity (idx boot)) then ret tt
      else store_g SPI_WITNESS_ARMED (run_guest r) 1
  end.

(** A question to the emulated distributor of a guest. *)
Definition ask_gic {T} (g : N) (m : M VirtGic T) : M Linux T :=
  at_guest vgics_l g (zoom (Lens dev (fun u d => mkDeployedGic u (traps d) (enables d))) m).

Definition maybe_fire_spi_witness (r : Running) : M Linux unit :=
  let slot := run_guest r in
  let! armed := load_g SPI_WITNESS_ARMED slot in
  let! fired := load_g SPI_WITNESS_FIRED slot in
  if (armed =? 0) || negb (fired =? 0) then ret tt else
  let! route := ask_gic slot (spi_route WITNESS_SPI) in
  let! enabled := ask_gic slot (is_enabled (idx (run_vcpu r)) WITNESS_SPI) in
  match route with
  | None => ret tt
  | Some route =>
      if negb enabled then ret tt
      else if Irouter.targets route (vcpu_affinity (idx (run_vcpu r))) then ret tt
      else
        let! was := load_g SPI_WITNESS_FIRED slot in
        store_g SPI_WITNESS_FIRED slot 1 ;!
        if negb (was =? 0) then ret tt else deliver_spi route r WITNESS_SPI
  end.

(** The loop over the list registers, from the [i]s that are left. *)
Fixpoint flush_from (g : N) (v : VcpuIdx) (drained : GuestWord) (ks : list N) (placed : N) : M Linux N :=
  match ks with
  | [] => ret placed
  | i :: ks =>
      let! s := get in
      if negb (lr_is_free (read_lr (cpu s) i)) then flush_from g v drained ks placed else
      let! next := at_vcpu pending_l g v take_next in
      match next with
      | None => ret placed
      | Some intid =>
          let! done := of_cpu (inject vtr intid) in
          if done : bool then fetch_add_g drained g 1 ;! flush_from g v drained ks (placed + 1)
          else let! _ := at_vcpu pending_l g v (mark intid) in ret placed
      end
  end.
Definition flush_pending_to_lrs (g : N) (v : VcpuIdx) (drained : GuestWord) : M Linux N :=
  let! placed := flush_from g v drained (vrange (num_list_registers vtr)) 0 in
  let! e := at_vcpu pending_l g v is_empty in
  on_cpu (set_underflow_interrupt (negb e)) ;!
  ret placed.

(** ** The slice *)

Definition arm_slice : M Linux N :=
  let! s := get in
  let q := word s SLICE_QUANTUM in
  let! quantum :=
    if negb (q =? 0) then ret q
    else let q := freq / EL2_SLICE_HZ in store_w SLICE_QUANTUM q ;! ret q in
  let! t := now in
  let! s := get in
  (if word s SLICE_FIRST_ARM =? 0 then store_w SLICE_FIRST_ARM t else ret tt) ;!
  let! d := uplus b t quantum in
  on_cpu (set_cnthp d 1) ;!
  store_w CNTHP_CTL_READBACK 1 ;!
  ret 1.

(** ** The switch *)

Definition set_guest_identity (next : Incoming) : M Linux unit :=
  let mpidr := guest_mpidr (inc_vcpu next) in
  on_cpu (set_identity mpidr midr) ;!
  let! s := get in
  let vmpidr_back := vmpidr_el2 (cpu s) in
  let vpidr_back := vpidr_el2 (cpu s) in
  store_w IDENTITY_VMPIDR vmpidr_back ;!
  store_w IDENTITY_VPIDR vpidr_back ;!
  fetch_add_w IDENTITY_WRITES ;!
  if (vmpidr_back =? mpidr) && (vpidr_back =? midr) then fetch_add_w IDENTITY_VERIFIED else ret tt.

(** The saved context of the outgoing and of the incoming vCPU. *)
Definition out {T} (cur : Outgoing) (m : M VcpuCtx T) : M Linux T :=
  at_vcpu ctxs_l (out_guest cur) (out_vcpu cur) m.
Definition inc {T} (next : Incoming) (m : M VcpuCtx T) : M Linux T :=
  at_vcpu ctxs_l (inc_guest next) (inc_vcpu next) m.

(** The first half of [switch_context]: the outgoing vCPU is captured and the live registers
    are poisoned. The incoming vCPU's floating-point file and active priorities are kept for
    the check in the second half. *)
Definition switch_out (cur : Outgoing) (next : Incoming) : M Linux (FpCtx * list (list N)) :=
  let! s := get in
  out cur (modify (ctx_save vtr (cpu s))) ;!
  fetch_add_g HANDOVERS (out_guest cur) 1 ;!
  let! released := out cur (fun k => let '(k, n) := ctx_release_hw vtr k in Done k n) in
  fetch_add_g HW_RELEASED (out_guest cur) released ;!
  let! deactivated := of_cpu release_forwarded_timer in
  (if decide (deactivated = true) then fetch_add_g TIMER_DEACTIVATED (out_guest cur) 1 else ret tt) ;!
  let! incoming_fp := inc next (gets fp) in
  let! outgoing_fp := out cur (gets fp) in
  (if decide (outgoing_fp = incoming_fp) then ret tt else fetch_add_g FP_FOREIGN (inc_guest next) 1) ;!
  let! incoming_apr := inc next (gets (fun k => apr (vgic k))) in
  let! s := get in
  (if decide (live_active_priorities vtr (cpu s) = incoming_apr) then ret tt
   else fetch_add_g AP_FOREIGN (inc_guest next) 1) ;!
  on_cpu (ctx_poison vtr) ;!
  ret (incoming_fp, incoming_apr).

(** The second half: the incoming vCPU is loaded. *)
Definition switch_in (next : Incoming) (incoming_fp : FpCtx) (incoming_apr : list (list N)) : M Linux unit :=
  let! seeded := load_v VCPU_SEEDED (inc_guest next) (inc_vcpu next) in
  (if seeded =? 0 then panic else ret tt) ;!
  let! k := inc next get in
  on_cpu (ctx_restore vtr k) ;!
  let! v := load_g VTTBR (inc_guest next) in
  on_cpu (set_vttbr_no_flush v) ;!
  set_guest_identity next ;!
  let! s := get in
  (if decide (fp_file (cpu s) = incoming_fp) then fetch_add_g FP_RESTORE_VERIFIED (inc_guest next) 1
   else ret tt) ;!
  (if decide (live_active_priorities vtr (cpu s) = incoming_apr)
   then fetch_add_g AP_RESTORE_VERIFIED (inc_guest next) 1 else ret tt) ;!
  let! _ := flush_pending_to_lrs (inc_guest next) (inc_vcpu next) SGIS_DRAINED in
  let! wants_timer := ask_gic (inc_guest next) (is_enabled (idx (inc_vcpu next)) VTIMER_INTID) in
  on_cpu (set_ppi_enabled VTIMER_INTID wants_timer) ;!
  modify (lset current_l (pack (now_running next))) ;!
  fetch_add_g SWITCHES (inc_guest next) 1 ;!
  (if negb (is_boot (inc_vcpu next)) then fetch_add_w DISPATCHED_NONBOOT else ret tt) ;!
  let! _ := arm_slice in
  ret tt.

Definition switch_context (cur : Outgoing) (next : Incoming) : M Linux unit :=
  let! incoming := switch_out cur next in
  switch_in next incoming.1 incoming.2.

(** ** Scheduling *)

Definition sched_on (dom : DomId) (c : HvCall) : M Linux unit :=
  let! r := zoom world_l (Teardown.dispatch b dom c) in
  if is_ok r then ret tt else panic.

Definition state_of (slot : N) (v : VcpuIdx) : M Linux (option Sched.RunState) :=
  let! dom := slot_dom slot in
  gets (fun s => Sched.state_of (sched (model (world s))) dom (model_idx v)).

Definition scheduler_run (next : Incoming) (t : Ticks) : HvCall :=
  SchedRun (model_idx (inc_vcpu next)) PCPU0 t.

Definition next_runnable (cur : Running) : M Linux (option Incoming) :=
  first_some_m (rotation cur NUM_GUESTS) (fun '(slot, v) =>
    let! st := state_of slot v in
    ret (if decide (st = Some Sched.Runnable) then Some (incoming_at slot v) else None)).

Definition wake_blocked_vcpus : M Linux unit :=
  fetch_add_w WAKE_SWEEPS ;!
  for_each (census NUM_GUESTS) (fun '(slot, v) =>
    let! st := state_of slot v in
    if decide (st = Some Sched.Blocked) then
      let! dom := slot_dom slot in
      sched_on dom (SchedWake (model_idx v)) ;!
      fetch_add_v VCPUS_WOKEN slot v
    else ret tt).

Definition preempt_through_the_scheduler (cur : Running) : M Linux unit :=
  let! dom := slot_dom (run_guest cur) in
  let! t := now in
  fetch_add_w PREEMPTS ;!
  sched_on dom (SchedPreempt (model_idx (run_vcpu cur)) t) ;!
  wake_blocked_vcpus ;!
  let! next := next_runnable cur in
  match next with
  | None => panic
  | Some next =>
      let! dom := slot_dom (inc_guest next) in
      sched_on dom (scheduler_run next t) ;!
      switch_context (now_leaving cur) next
  end.

Definition set_retirement (slot : N) (why : Retirement) : M Linux unit :=
  store_g RETIREMENT slot (match why with Live => 0 | PoweredOff => 1 | Faulted => 2 end).
Definition retirement_of (slot : N) : M Linux Retirement :=
  let! u := load_g RETIREMENT slot in
  ret (if u =? 1 then PoweredOff else if u =? 2 then Faulted else Live).

Definition retire_vcpu (cur : Running) (t : Ticks) (o : OwnVcpu) : M Linux unit :=
  let! st := state_of (run_guest cur) (own_vcpu o) in
  if decide (st = Some Sched.Offline) then ret tt else
  (if decide (st = Some Sched.Blocked)
   then fetch_add_v VCPUS_OFFLINED_WHILE_BLOCKED (own_guest o) (own_vcpu o) else ret tt) ;!
  let! dom := slot_dom (run_guest cur) in
  sched_on dom (SchedOffline (model_idx (own_vcpu o)) t).

Definition retire_and_hand_over (cur : Running) (why : Retirement) : M Linux bool :=
  set_retirement (run_guest cur) why ;!
  let! t := now in
  for_each (own_vcpus cur) (retire_vcpu cur t) ;!
  wake_blocked_vcpus ;!
  let! next := next_runnable cur in
  match next with
  | None => ret false
  | Some next =>
      let! dom := slot_dom (inc_guest next) in
      sched_on dom (scheduler_run next t) ;!
      switch_context (now_leaving cur) next ;!
      ret true
  end.

(** The flush of every console; the reports of the boot follow it and the machine stops. *)
Definition end_of_boot : M Linux unit :=
  for_each (vrange NUM_GUESTS) (fun slot => zoom serial_l (Console.flush slot)) ;!
  modify (lset ended_l true).

Definition fault_retire (cur : Running) : M Linux unit :=
  zoom serial_l (Console.flush (run_guest cur)) ;!
  let! handed := retire_and_hand_over cur Faulted in
  if handed : bool then ret tt else end_of_boot.

Definition power_off_and_hand_over (cur : Running) : M Linux bool := retire_and_hand_over cur PoweredOff.

Definition handle_linux_wfi : M Linux unit :=
  let! r := current_vcpu in
  let cur := run_guest r in
  fetch_add_g WFI_TRAPS cur 1 ;!
  maybe_fire_spi_witness r ;!
  on_cpu advance_elr_past_fault ;!
  let! peer := next_runnable r in
  match peer with
  | None => ret tt
  | Some peer =>
      let! t := now in
      let! dom := slot_dom cur in
      sched_on dom (SchedBlock (model_idx (run_vcpu r)) t) ;!
      fetch_add_v VCPUS_BLOCKED cur (run_vcpu r) ;!
      let! st := state_of cur (run_vcpu r) in
      (if decide (st = Some Sched.Blocked) then fetch_add_v BLOCKED_READBACK_OK cur (run_vcpu r) else ret tt) ;!
      let! dom := slot_dom (inc_guest peer) in
      sched_on dom (scheduler_run peer t) ;!
      fetch_add_g WFI_YIELDS cur 1 ;!
      switch_context (now_leaving r) peer
  end.

Definition guest_owning (ipa : N) : M Linux (option N) := owner_of part ipa.

Definition refuse (slot code : N) : M Linux N := fetch_add_g CPU_ON_REFUSED slot 1 ;! ret code.

Definition cpu_on (r : Running) (target_mpidr entry context_id : N) : M Linux N :=
  let slot := run_guest r in
  let want := N.land target_mpidr MPIDR_HWID_BITMASK in
  match List.find (fun o => N.land (guest_mpidr (own_vcpu o)) MPIDR_HWID_BITMASK =? want) (own_vcpus r) with
  | None => refuse slot PSCI_INVALID_PARAMETERS
  | Some o =>
      let! owner := guest_owning entry in
      if decide (owner <> Some slot) then refuse slot PSCI_INVALID_ADDRESS else
      let! st := state_of slot (own_vcpu o) in
      if decide (st <> Some Sched.Offline) then refuse slot PSCI_ALREADY_ON else
      let! s := get in
      at_vcpu ctxs_l (own_guest o) (own_vcpu o)
        (modify (fun _ => seed_boot entry context_id SPSR_EL2_LINUX (word s SCTLR_AT_BOOT))) ;!
      store_v VCPU_SEEDED (own_guest o) (own_vcpu o) 1 ;!
      fetch_add_g SECONDARIES_SEEDED slot 1 ;!
      let! dom := slot_dom slot in
      sched_on dom (SchedAdmit (model_idx (own_vcpu o))) ;!
      fetch_add_g SECONDARIES_ADMITTED slot 1 ;!
      ret PSCI_SUCCESS
  end.
End Machine.
