(* ===== verification/LinuxTrap.v ===== *)
(** * The trap handlers of the real guests — [hv-metal/src/linux.rs], [vgic.rs], [vpl011.rs]

    The devices a guest drives and the handlers of its traps and interrupts: an access to the
    emulated distributor or UART, a fault in the window of a peer, a trapped write to the SGI
    register, an idle processor, a PSCI call, the physical interrupts; and the start of the
    machine, from the admission of the vCPUs to the entry of the first guest.

    The registers a handler reads once ([ESR_EL2], [FAR_EL2], [HPFAR_EL2], the interrupt
    acknowledged) are its arguments. The priority drop of [eoi_physical] moves no state that is
    modelled here. *)

From Stdlib Require Import NArith Lia.
From stdpp Require Import base numbers list option.
From S2P Require Import Bits.
From S2P Require Import Hypervisor.
From S2P Require Import Regime.
From S2P Require Import Backend.
From S2P Require Import Pl011.
From S2P Require Import Gicv3.
From S2P Require Import Abort.
From S2P Require Import Arm64.
From S2P Require Import Partition.
From S2P Require Import Metal.
From S2P Require Import PendingSet.
From S2P Require Import CpuState.
From S2P Require Import Role.
From S2P Require Import Virtio.
From S2P Require Import Blk.
From S2P Require Import Teardown.
From S2P Require Import Console.
From S2P Require Import Linux.
From S2P Require Import Prelude.
#[local] Open Scope N_scope.

(** ** The deployed devices *)

Definition GICD_BASE : N := 0x08000000.
Definition GICD_LEN : N := 0x00010000.
Definition GICR_RD_BASE : N := 0x080A0000.
Definition GICR_LEN : N := 0x00f60000.
Definition GICR_END : N := GICR_RD_BASE + GICR_LEN.
Definition LAYOUT : GicLayout := Gicv3.mkLayout GICD_BASE GICD_LEN GICR_RD_BASE GICR_END.

Definition dev_l : lens DeployedGic VirtGic := Lens dev (fun u d => mkDeployedGic u (traps d) (enables d)).
Definition gic_new : DeployedGic := mkDeployedGic (Gicv3.new VCPUS_PER_GUEST LAYOUT) 0 0.
Definition gic_trap : M DeployedGic unit :=
  modify (fun d => mkDeployedGic (dev d) ((traps d + 1) mod (u64_max + 1)) (enables d)).
Definition gic_read (ipa size : N) : M DeployedGic (result Unhandled N) :=
  gic_trap ;! zoom dev_l (Gicv3.mmio_read VCPUS_PER_GUEST ipa size).
Definition gic_write (ipa size value : N) : M DeployedGic (result Unhandled unit) :=
  gic_trap ;!
  let? newly := zoom dev_l (Gicv3.mmio_write VCPUS_PER_GUEST ipa size value) in
  modify (fun d => mkDeployedGic (dev d) (traps d) ((enables d + newly) mod (u64_max + 1))) ;!
  ok tt.

Definition NEEDLE : list N := [66; 65; 76; 69; 69; 78; 45; 83; 84; 69; 80; 48; 45; 79; 75].
Definition uart_l : lens DeployedPl011 VirtPl011 :=
  Lens uart (fun u d => mkDeployedPl011 u (needle d) (uart_traps d) (dr_writes d)).
Definition needle_l : lens DeployedPl011 NeedleMatcher :=
  Lens needle (fun u d => mkDeployedPl011 (uart d) u (uart_traps d) (dr_writes d)).
Definition uart_new : DeployedPl011 := mkDeployedPl011 Pl011.new (mkMatcher NEEDLE 0 false) 0 0.
Definition uart_trap : M DeployedPl011 unit := modify (fun d =>
  mkDeployedPl011 (uart d) (needle d) ((uart_traps d + 1) mod (u64_max + 1)) (dr_writes d)).
Definition uart_read (offset bytes : N) : M DeployedPl011 N :=
  uart_trap ;! zoom uart_l (Pl011.mmio_read offset bytes).
Definition uart_write (offset value : N) : M DeployedPl011 (option N) :=
  uart_trap ;!
  let! out := zoom uart_l (Pl011.mmio_write offset value) in
  match out with
  | Some byte =>
      modify (fun d => mkDeployedPl011 (uart d) (needle d) (uart_traps d)
        ((dr_writes d + 1) mod (u64_max + 1))) ;!
      zoom needle_l (feed byte) ;! ret out
  | None => ret out
  end.
Definition uart_window (ipa : N) : bool := (VPL011_BASE <=? ipa) && (ipa <? VPL011_BASE + VPL011_SIZE).

(** ** The registers of the trapped guest *)

Definition frame_l : lens Linux (list N) :=
  Lens (fun s => frame (cpu s)) (fun u s => lset cpu_l (set_frame u (cpu s)) s).
Definition x_get (n : N) : M Linux N := let! s := get in index (frame (cpu s)) n.
Definition x_set (n u : N) : M Linux unit := index_set frame_l n u.

(** The value of a store, and the result of a load: register 31 is the zero register, and a
    32-bit load zero-extends. *)
Definition store_value (a : DataAbort) : M Linux N :=
  let! u := if srt a <? 31 then x_get (srt a) else ret 0 in ret (N.land u (value_mask a)).
Definition load_result (a : DataAbort) (value : N) : M Linux unit :=
  if srt a <? 31 then x_set (srt a) (if sf a then value else N.land value 0xffffffff) else ret tt.

Definition undecodable (a : DataAbort) : bool := negb (isv a) || fnv a || s1ptw a.

(** ** Memory of the machine *)

Definition le_at (m : N -> N) (pa n : N) : N := from_le_bytes (Metal.fetch m pa n).
Definition walk_stage2 (m : N -> N) (l1_pa ipa : N) : option Reach :=
  walk l1_pa ipa (fun table_pa index => le_at m (table_pa + index * 8) 8).

Section Machine.
Context (b : Board) (part : Partition) (vtr midr freq : N) (clock : N -> N).

Abbreviation fault_retire := (fault_retire b part vtr midr freq clock).

(** ** Data aborts *)

Definition peer_payload_at (slot : N) : M Linux bool :=
  let! base := window_base part slot in
  let! a := uplus b base IMAGE_MAGIC_OFF in
  gets (fun s => le_at (mem (world s)) a 4 =? IMAGE_MAGIC).

Definition handle_peer_fault (faulting owner ipa : N) : M Linux unit :=
  let! before := load_g PEER_FAULTS faulting in
  fetch_add_g PEER_FAULTS faulting 1 ;!
  let! n := uplus b before 1 in
  if MAX_PEER_FAULTS <? n then let! r := current_vcpu in fault_retire r else
  (if n =? 1 then
     let! peer := load_g VTTBR owner in
     let! mine := load_g VTTBR faulting in
     let! s := get in
     let in_peer := walk_stage2 (mem (world s)) (vttbr_table peer) ipa in
     let in_mine := walk_stage2 (mem (world s)) (vttbr_table mine) ipa in
     let identity := match in_peer with Some r => r_pa r =? ipa | None => false end in
     let! payload_present := peer_payload_at owner in
     if bool_decide (in_mine = None) && identity && payload_present then ret tt else panic
   else ret tt) ;!
  on_cpu advance_elr_past_fault.

Definition handle_vgic_access (a : DataAbort) (ipa : N) : M Linux unit :=
  if undecodable a then let! r := current_vcpu in fault_retire r else
  let! running := current_vcpu in
  let slot := run_guest running in
  let! outcome :=
    if wnr a then
      let! value := store_value a in
      at_guest vgics_l slot (gic_write ipa (access_bytes a) value)
    else
      let? value := at_guest vgics_l slot (gic_read ipa (access_bytes a)) in
      load_result a value ;! ok tt in
  let! timer_enabled := ask_gic slot (is_enabled (idx (run_vcpu running)) VTIMER_INTID) in
  let! route := ask_gic slot (spi_route WITNESS_SPI) in
  (if wnr a then on_cpu (set_ppi_enabled VTIMER_INTID timer_enabled) ;! arm_spi_witness running route
   else ret tt) ;!
  match outcome with
  | Err _ => fault_retire running
  | Ok _ => on_cpu advance_elr_past_fault
  end.

(** The access to the UART, once it is known to be one. *)
Definition handle_uart_access (a : DataAbort) (offset slot : N) : M Linux unit :=
  let! transmitted :=
    if wnr a then
      let! value := store_value a in
      at_guest uarts_l slot (uart_write offset value)
    else
      let! value := at_guest uarts_l slot (uart_read offset (access_bytes a)) in
      load_result a value ;! ret None in
  (match transmitted with
   | Some byte => zoom serial_l (Console.put slot byte)
   | None => ret tt
   end) ;!
  on_cpu advance_elr_past_fault.

Definition handle_linux_data_abort (esr far hpfar : N) : M Linux unit :=
  let a := Abort.decode esr in
  let ipa := full_ipa hpfar far in
  if Gicv3.in_window LAYOUT ipa then handle_vgic_access a ipa else
  let! running := current_vcpu in
  let faulting := run_guest running in
  let! owner := guest_owning part ipa in
  match owner with
  | Some owner =>
      if negb (owner =? faulting) then handle_peer_fault faulting owner ipa
      else fault_retire running
  | None =>
      if negb (uart_window ipa) then fault_retire running
      else if undecodable a then fault_retire running
      else
        let offset := ipa - VPL011_BASE in
        if negb (is_multiple_of offset (access_bytes a)) then fault_retire running
        else handle_uart_access a offset faulting
  end.

(** ** The other synchronous traps *)

Definition handle_linux_sysreg_trap (esr : N) : M Linux unit :=
  let iss := N.land esr 0x01ffffff in
  if (N.land iss ISS_SYSREG_FIELDS =? ISS_ICC_SGI1R_EL1_WRITE) && (N.land iss 1 =? 0) then
    let rt := N.land (N.shiftr iss 5) 0x1f in
    let! value := if rt <? 31 then x_get rt else ret 0 in
    deliver_sgi vtr value ;!
    on_cpu advance_elr_past_fault
  else let! r := current_vcpu in fault_retire r.

Definition handle_psci : M Linux unit :=
  let! fid := x_get 0 in
  if fid =? PSCI_VERSION_FID then x_set 0 PSCI_VERSION_1_1
  else if fid =? PSCI_FEATURES_FID then
    let! which := x_get 1 in
    x_set 0 (if (which =? PSCI_SYSTEM_OFF_FID) || (which =? PSCI_CPU_ON_FID) then 0 else PSCI_NOT_SUPPORTED)
  else if fid =? PSCI_SYSTEM_OFF_FID then
    let! r := current_vcpu in
    zoom serial_l (Console.flush (run_guest r)) ;!
    let! handed := power_off_and_hand_over b part vtr midr freq clock r in
    if handed : bool then ret tt else end_of_boot
  else if fid =? PSCI_CPU_ON_FID then
    let! target_mpidr := x_get 1 in
    let! entry := x_get 2 in
    let! context_id := x_get 3 in
    let! r := current_vcpu in
    let! code := cpu_on b part r target_mpidr entry context_id in
    x_set 0 code
  else x_set 0 PSCI_NOT_SUPPORTED.

Definition handle_linux_sync (esr far hpfar : N) : M Linux unit :=
  let ec := N.land (N.shiftr esr 26) 0x3f in
  if ec =? EC_DATA_ABORT then handle_linux_data_abort esr far hpfar
  else if (ec =? EC_WFX) && (N.land esr 1 =? 0) then handle_linux_wfi b part vtr midr freq clock
  else if ec =? EC_SYSREG then handle_linux_sysreg_trap esr
  else if ec =? EC_HVC then handle_psci
  else let! r := current_vcpu in fault_retire r.

(** ** Physical interrupts *)

(** The acknowledgement makes a private interrupt active. *)
Definition ack_physical (intid : N) (c : Cpu) : Cpu :=
  if 32 <=? intid then c else set_ppi_active (N.lor (ppi_active c) (shl 32 1 intid)) c.

Definition handle_linux_irq (intid : N) : M Linux unit :=
  on_cpu (ack_physical intid) ;!
  let! running := current_vcpu in
  let slot := run_guest running in
  if intid =? HYP_TIMER_INTID then
    let! _ := arm_slice b freq clock in
    fetch_add_w SLICE_EXPIRIES ;!
    let! released := of_cpu release_hyp_timer in
    (if released : bool then fetch_add_w SLICE_DEACTIVATED else ret tt) ;!
    preempt_through_the_scheduler b part vtr midr freq clock running
  else if intid =? VTIMER_INTID then
    let! enabled := ask_gic slot (is_enabled (idx (run_vcpu running)) intid) in
    if negb enabled then
      on_cpu (set_ppi_enabled intid false) ;! on_cpu (deactivate_physical intid)
    else
      let! placed := of_cpu (inject_hw vtr VTIMER_INTID VTIMER_INTID) in
      if negb placed then fetch_add_g TIMER_DEFERRED slot 1 else fetch_add_g TIMER_FORWARDED slot 1
  else if intid =? MAINT_INTID then
    fetch_add_g MAINT_TAKEN slot 1 ;!
    let! _ := flush_pending_to_lrs vtr slot (run_vcpu running) SGIS_DRAINED in
    on_cpu (deactivate_physical intid)
  else if 1020 <=? intid then ret tt
  else panic.

(** ** The start of the machine *)

(** The statics before [run], on a processor in any state. *)
Definition statics (w : World) (c : Cpu) : Linux :=
  mkLinux w c 0
    (vrepeat NUM_GUESTS (vrepeat VCPUS_PER_GUEST ctx_new))
    (vrepeat NUM_GUESTS (vrepeat VCPUS_PER_GUEST PendingSet.new))
    (vrepeat NUM_GUESTS gic_new) (vrepeat NUM_GUESTS uart_new)
    (mkSerial (Console.new NUM_GUESTS) []) (fun _ _ => 0) (fun _ _ _ => 0) (fun _ => 0) 0 false.

Definition DTB_ADDR : N := 0x4b000000.
Definition SCTLR_EL1_ENABLES : N := 0x101f.
Definition window_delta (slot : N) : M Linux N :=
  let! w := window_base part slot in let! a := window_base part SLOT_A in usub w a.
Definition kernel_entry (slot : N) : M Linux N :=
  let! base := window_base part SLOT_A in let! d := window_delta slot in uplus b base d.
Definition dtb_addr (slot : N) : M Linux N := let! d := window_delta slot in uplus b DTB_ADDR d.

Definition init_guest_el1 (sctlr_enables : N) (c : Cpu) : Cpu :=
  write_reg SctlrEl1 (N.land (read_reg SctlrEl1 c) (bnot 64 sctlr_enables)) c.

Definition admit_linux_vcpus : M Linux unit :=
  let! t := now clock in
  for_each (vrange NUM_GUESTS) (fun slot =>
    let! dom := slot_dom part slot in
    sched_on b dom (SchedAdmit (model_idx boot))) ;!
  let! dom := slot_dom part SLOT_A in
  sched_on b dom (scheduler_run (incoming_at SLOT_A boot) t).

Definition seed_peers (sctlr_at_boot : N) : M Linux unit :=
  for_each (List.filter (fun s => negb (s =? SLOT_A)) (vrange NUM_GUESTS)) (fun slot =>
    store_v VCPU_SEEDED slot boot 1 ;!
    let! x0 := dtb_addr slot in
    let! entry := kernel_entry slot in
    at_vcpu ctxs_l slot boot (modify (fun _ => seed_boot entry x0 SPSR_EL2_LINUX sctlr_at_boot))).

Definition enable_ppis (mask : N) (c : Cpu) : Cpu := set_ppi_enable (N.lor (ppi_enable c) mask) c.
Definition init_physical_vtimer : Cpu -> Cpu :=
  enable_ppis (N.lor (shl 32 1 VTIMER_INTID) (shl 32 1 MAINT_INTID)).
Definition enable_hyp_timer_ppi : Cpu -> Cpu := enable_ppis (shl 32 1 HYP_TIMER_INTID).

(** The part of [run] from the stage-2 tables of the guests, whose [VTTBR_EL2] values are
    given, to the entry of the first. *)
Definition run (vttbr : list N) : M Linux unit :=
  for_each (enumerate vttbr) (fun '(slot, v) => store_g VTTBR slot v) ;!
  admit_linux_vcpus ;!
  let! v := index vttbr SLOT_A in
  on_cpu (set_vttbr_no_flush v) ;!
  on_cpu (init_guest_el1 SCTLR_EL1_ENABLES) ;!
  set_guest_identity midr (incoming_at SLOT_A boot) ;!
  store_v VCPU_SEEDED SLOT_A boot 1 ;!
  let! s := get in
  let sctlr_at_boot := read_reg SctlrEl1 (cpu s) in
  store_w SCTLR_AT_BOOT sctlr_at_boot ;!
  seed_peers sctlr_at_boot ;!
  let! entry := window_base part SLOT_A in
  on_cpu (write_reg SpsrEl2 SPSR_EL2_LINUX) ;!
  on_cpu (write_reg ElrEl2 entry) ;!
  on_cpu init_physical_vtimer ;!
  on_cpu enable_hyp_timer_ppi ;!
  let! _ := arm_slice b freq clock in
  x_set 0 DTB_ADDR ;! x_set 1 0 ;! x_set 2 0 ;! x_set 3 0.
End Machine.

(** ** A machine *)

(** Two guests with two vCPUs each on a machine with four list registers and the partition of
    [Partition.board]. *)
Definition linux_board : Board := mkBoard false 0x1000000 0x1008000 0x2000000 1 8.
Definition linux_vtr : N := shl 32 4 29 + 3.
Definition linux_freq : N := 62500000.
Definition linux_hv : Hypervisor :=
  let boot := Hypervisor.new 3 1 4 2 1 8 0 in
  match bind (Hypervisor.dispatch 0 (DomainCreate 1 false)) (fun _ =>
        Hypervisor.dispatch 0 (DomainCreate 2 false)) boot with
  | Done s _ => s
  | Panic => boot
  end.
Definition linux_world : World :=
  mkWorld linux_hv (fun _ => 0) Virtio.new Blk.new new_disk NoDevice 0 (vrepeat 8 false)
    (vrepeat 3 None) false false false [].
Definition linux_cpu : Cpu :=
  mkCpu (vrepeat 31 0) (vrepeat (vlen ALL) 0) (vrepeat 16 0) 0 (vrepeat 2 (vrepeat 4 0)) false FP_ZERO
    0 0 0 0 0 0 0.
Definition linux_boot : Linux :=
  match run linux_board board 0x410fd083 linux_freq (fun k => 1000 * k) [0x10000; 0x20000]
    (statics linux_world linux_cpu) with
  | Done s _ => s
  | Panic => statics linux_world linux_cpu
  end.
