(* ===== verification/Deliver.v ===== *)
(** * The delivery of virtual interrupts — [hv-metal/src/linux.rs]

    What the routing of a software-generated interrupt and of the witness SPI does to the
    machine, and the drain of a pending set into the list registers. *)

From Stdlib Require Import NArith Lia.
From stdpp Require Import base numbers list option.
From S2P Require Import Bits.
From S2P Require Import Pending.
From S2P Require Import Irouter.
From S2P Require Import Sgi.
From S2P Require Import Gicv3.
From S2P Require Import VgicCpuif.
From S2P Require Import PendingSet.
From S2P Require Import CpuState.
From S2P Require Import Role.
From S2P Require Import Linux.
From S2P Require Import LinuxTrap.
From S2P Require Import Prelude.
#[local] Open Scope N_scope.

(** ** Specification *)

(** The state once the processor, the pending sets and the tallies are [c], [p] and [pg]. *)
Definition after (c : Cpu) (p : list (list (list N))) (pg : GuestWord -> N -> N) (s : Linux) : Linux :=
  lset per_guest_l pg (lset pending_l p (lset cpu_l c s)).

(** The tallies grew by [f], each modulo its width. *)
Definition counts (f : GuestWord -> N -> N) (pg pg' : GuestWord -> N -> N) : Prop :=
  forall w g, pg' w g = (pg w g + f w g) mod (u64_max + 1).
Definition tally (w : GuestWord) (g k : N) : GuestWord -> N -> N :=
  fun w' g' => if decide (w' = w /\ g' = g) then k else 0.

(** The parts of the state a delivery looks at. *)
Record deliverable (s : Linux) : Prop := mkDeliverable {
  dl_running : on_machine NUM_GUESTS (unpack (current s));
  dl_cpu : cpu_wf (cpu s);
  dl_pending : forall g v, names_vcpu NUM_GUESTS (g, v) ->
    exists q, tget (pending s) g (idx v) = Some q /\ set_wf q;
  dl_tally : forall w g, per_guest s w g <= u64_max;
}.

(** The interrupt is in the pending set of the vCPU, whose other interrupts are untouched. *)
Definition queued (p p' : list (list (list N))) (g : N) (v : VcpuIdx) (i : N) : Prop :=
  exists q q', tget p g (idx v) = Some q /\ tget p' g (idx v) = Some q' /\ adds q q' i /\ set_wf q'.

(** What an interrupt for the running vCPU does: it is in a list register that was free, or no
    register is free, it is in the vCPU's pending set and the underflow interrupt is armed. *)
Definition landed (vtr : N) (c c' : Cpu) (p p' : list (list (list N))) (g : N) (v : VcpuIdx) (i : N) : Prop :=
  (placed vtr (plain_lr i) c c' /\ tget p' g (idx v) = tget p g (idx v)) \/
  (bank_full vtr c /\ c' = set_underflow_interrupt true c /\ queued p p' g v i).

(** The whole of a delivery from the vCPU [r], which names the vCPUs of its guest that
    [names] holds of: those and no others receive the interrupt. *)
Record routed (vtr : N) (r : Running) (names : VcpuIdx -> bool) (i : N) (c c' : Cpu)
    (p p' : list (list (list N))) : Prop := mkRouted {
  rt_running : names (run_vcpu r) = true -> landed vtr c c' p p' (run_guest r) (run_vcpu r) i;
  rt_idle : names (run_vcpu r) = false -> c' = c;
  rt_sibling : forall v, idx v < VCPUS_PER_GUEST -> v <> run_vcpu r -> names v = true ->
    queued p p' (run_guest r) v i;
  rt_other : forall g v, names_vcpu NUM_GUESTS (g, v) -> g <> run_guest r \/ names v = false ->
    tget p' g (idx v) = tget p g (idx v);
}.

(** ** Lemmas *)

(** *** The rules of the state *)

Lemma wp_fetch_add_g w g k (Q : Linux -> unit -> Prop) s : g < NUM_GUESTS ->
  (forall pg, (forall w' g', pg w' g' = if decide (w' = w /\ g' = g) then (per_guest s w g + k) mod (u64_max + 1)
     else per_guest s w' g') -> Q (lset per_guest_l pg s) tt) ->
  wp (fetch_add_g w g k) Q s.
Proof.
  intros Hg HQ. unfold fetch_add_g, load_g, store_g, in_guest.
  rewrite (proj2 (N.ltb_lt _ _) Hg). unfold wp, bind, gets, modify, ret. apply HQ. done.
Qed.

Lemma wp_counted w g k (Q : Linux -> unit -> Prop) s : g < NUM_GUESTS ->
  (forall w g, per_guest s w g <= u64_max) ->
  (forall pg, counts (tally w g k) (per_guest s) pg -> Q (lset per_guest_l pg s) tt) ->
  wp (fetch_add_g w g k) Q s.
Proof.
  intros Hg Hb HQ. apply wp_fetch_add_g; [done|]. intros pg Hpg. apply HQ. intros w' g'.
  rewrite Hpg. unfold tally. case_decide as H; [by destruct H as [-> ->]|].
  rewrite N.add_0_r, N.mod_small; [done|]. specialize (Hb w' g'). lia.
Qed.

Lemma wp_at_vcpu {S A T} (l : lens S (list (list A))) g v (m : M A T) (Q : S -> T -> Prop) s a :
  tget (lget l s) g (idx v) = Some a ->
  wp m (fun a' r => Q (lset l (tset (lget l s) g (idx v) a') s) r) a -> wp (at_vcpu l g v m) Q s.
Proof.
  intros Ha H. unfold wp, at_vcpu, bind, get. rewrite Ha. simpl. revert H. unfold wp, ret. by destruct (m a).
Qed.

Lemma wp_at_guest {S A T} (l : lens S (list A)) g (m : M A T) (Q : S -> T -> Prop) s a :
  vget (lget l s) g = Some a ->
  wp m (fun a' r => Q (lset l (vset (lget l s) g a') s) r) a -> wp (at_guest l g m) Q s.
Proof.
  intros Ha H. unfold wp, at_guest, bind, get. rewrite (index_Done _ _ _ _ Ha).
  revert H. unfold wp, ret. by destruct (m a).
Qed.

Lemma wp_of_cpu {T} (f : Cpu -> Cpu * T) (Q : Linux -> T -> Prop) s c r :
  f (cpu s) = (c, r) -> Q (lset cpu_l c s) r -> wp (of_cpu f) Q s.
Proof. intros E HQ. unfold wp, of_cpu, bind, get, modify, ret. by rewrite E. Qed.

Lemma counts_refl pg : (forall w g, pg w g <= u64_max) -> counts (fun _ _ => 0) pg pg.
Proof. intros H w g. rewrite N.add_0_r, N.mod_small; [done|]. specialize (H w g). lia. Qed.

Lemma counts_trans f1 f2 pg1 pg2 pg3 :
  counts f1 pg1 pg2 -> counts f2 pg2 pg3 -> counts (fun w g => f1 w g + f2 w g) pg1 pg3.
Proof. intros H1 H2 w g. by rewrite H2, H1, N.Div0.add_mod_idemp_l, N.add_assoc. Qed.

Lemma counts_bound f pg pg' : counts f pg pg' -> forall w g, pg' w g <= u64_max.
Proof. intros H w g. rewrite H. pose proof (N.mod_lt (pg w g + f w g) (u64_max + 1) ltac:(done)). lia. Qed.

(** The running guest's vCPUs are its first two. *)
Lemma own_list r : own_vcpus r = [mkOwn (run_guest r) (mkIdx 0); mkOwn (run_guest r) (mkIdx 1)].
Proof. reflexivity. Qed.

Lemma idx_cases v : idx v < VCPUS_PER_GUEST -> v = mkIdx 0 \/ v = mkIdx 1.
Proof.
  destruct v as [i]. unfold VCPUS_PER_GUEST. simpl. intros H.
  assert (i = 0 \/ i = 1) as [-> | ->] by lia; [by left|by right].
Qed.

(** *** One target *)

(** The tallies of a delivery to [n] targets: each is counted as named, and once more as
    delivered, deferred or routed. *)
Definition accounted (named delivered deferred routed : GuestWord) (slot n : N) (f : GuestWord -> N -> N) : Prop :=
  exists kd kf kr, kd + kf + kr = n /\
    forall w g, f w g = tally named slot n w g + tally delivered slot kd w g + tally deferred slot kf w g +
      tally routed slot kr w g.

Lemma tally_add w g k1 k2 w' g' : tally w g (k1 + k2) w' g' = tally w g k1 w' g' + tally w g k2 w' g'.
Proof. unfold tally. by case_decide. Qed.

Lemma tally_0 w g w' g' : tally w g 0 w' g' = 0.
Proof. unfold tally. by case_decide. Qed.

Lemma accounted_0 w1 w2 w3 w4 slot : accounted w1 w2 w3 w4 slot 0 (fun _ _ => 0).
Proof. exists 0, 0, 0. split; [done|]. intros w g. by rewrite !tally_0. Qed.

Lemma accounted_add w1 w2 w3 w4 slot n m f1 f2 :
  accounted w1 w2 w3 w4 slot n f1 -> accounted w1 w2 w3 w4 slot m f2 ->
  accounted w1 w2 w3 w4 slot (n + m) (fun w g => f1 w g + f2 w g).
Proof.
  intros (a & b & c & <- & H1) (a' & b' & c' & <- & H2).
  exists (a + a'), (b + b'), (c + c'). split; [lia|]. intros w g. rewrite H1, H2, !tally_add. lia.
Qed.

Lemma deliverable_after c p pg s : deliverable s -> cpu_wf c ->
  (forall g v, names_vcpu NUM_GUESTS (g, v) -> exists q, tget p g (idx v) = Some q /\ set_wf q) ->
  (forall w g, pg w g <= u64_max) -> deliverable (after c p pg s).
Proof. intros [? ? ? ?] Hc Hp Hg. by split. Qed.

Lemma after_after c p pg c' p' pg' s : after c' p' pg' (after c p pg s) = after c' p' pg' s.
Proof. reflexivity. Qed.

(** Marking an interrupt of a vCPU. *)
Lemma wp_mark g v i (Q : Linux -> bool -> Prop) s : deliverable s -> names_vcpu NUM_GUESTS (g, v) ->
  i < NUM_INTIDS ->
  (forall p, vlen p = vlen (pending s) -> queued (pending s) p g v i ->
     (forall g' v', (g', v') <> (g, v) -> tget p g' (idx v') = tget (pending s) g' (idx v')) ->
     Q (lset pending_l p s) true) ->
  wp (at_vcpu pending_l g v (mark i)) Q s.
Proof.
  intros Hs Hv Hi HQ. destruct (dl_pending _ Hs g v Hv) as (q & Hq & Hwf).
  apply (wp_at_vcpu pending_l g v (mark i) Q s q Hq).
  destruct (mark_run q i Hwf) as (q' & E & Hwf' & Ha). rewrite decide_True in Ha by done.
  rewrite (proj2 (N.ltb_lt _ _) Hi) in E. apply (wp_of_Done _ _ _ _ _ E). apply HQ.
  - apply vlen_tset.
  - exists q, q'. split_and!; [done|by eapply tget_tset_eq|done..].
  - intros g' v' Hne. apply tget_tset_ne. intros [-> Hx]. apply Hne. destruct v, v'. simpl in *. by subst.
Qed.

Lemma queued_pending s p g v i : deliverable s -> queued (pending s) p g v i ->
  (forall g' v', (g', v') <> (g, v) -> tget p g' (idx v') = tget (pending s) g' (idx v')) ->
  forall g v, names_vcpu NUM_GUESTS (g, v) -> exists q, tget p g (idx v) = Some q /\ set_wf q.
Proof.
  intros Hs (q & q' & _ & Hq & _ & Hwf) Ho g' v' Hn.
  destruct (decide ((g', v') = (g, v))) as [ [= -> ->]|Hne]; [by exists q'|].
  rewrite Ho by done. by apply Hs.
Qed.

Definition only (v : VcpuIdx) : VcpuIdx -> bool := fun v' => bool_decide (v' = v).

Section Deliver.
Context (vtr : N).

(** What a step of a delivery from [r] to the [n] targets [names] holds of leaves. *)
Definition delivers (r : Running) (names : VcpuIdx -> bool) (i : N) (w1 w2 w3 w4 : GuestWord) (n : N)
    (s s' : Linux) : Prop :=
  exists c p pg f, s' = after c p pg s /\ deliverable s' /\ counts f (per_guest s) pg /\
    accounted w1 w2 w3 w4 (run_guest r) n f /\ routed vtr r names i (cpu s) c (pending s) p.

Lemma routed_running r i c c' p p' :
  landed vtr c c' p p' (run_guest r) (run_vcpu r) i ->
  (forall g v, (g, v) <> (run_guest r, run_vcpu r) -> tget p' g (idx v) = tget p g (idx v)) ->
  routed vtr r (only (run_vcpu r)) i c c' p p'.
Proof.
  intros Hl Ho. unfold only. split; intros *; rewrite ?bool_decide_eq_true_2 by done; try done.
  - intros _ Hne. by rewrite bool_decide_eq_false_2.
  - intros _ Hor. apply Ho. intros [= -> ->]. rewrite bool_decide_eq_true_2 in Hor by done. by destruct Hor.
Qed.

Lemma routed_sibling r v i c p p' : v <> run_vcpu r -> queued p p' (run_guest r) v i ->
  (forall g' v', (g', v') <> (run_guest r, v) -> tget p' g' (idx v') = tget p g' (idx v')) ->
  routed vtr r (only v) i c c p p'.
Proof.
  intros Hne Hq Ho. unfold only. split; intros *.
  - by rewrite bool_decide_eq_false_2.
  - done.
  - intros _ _ ->%bool_decide_eq_true_1. done.
  - intros _ Hor. apply Ho. intros [= -> ->]. rewrite bool_decide_eq_true_2 in Hor by done. by destruct Hor.
Qed.

Lemma placed_fun_wf c c' l : cpu_wf c -> placed vtr l c c' -> cpu_wf c'.
Proof. apply placed_wf. Qed.

Lemma accounted_1 w1 w2 w3 w4 slot w : w = w2 \/ w = w3 \/ w = w4 ->
  accounted w1 w2 w3 w4 slot 1 (fun w' g' => tally w1 slot 1 w' g' + tally w slot 1 w' g').
Proof.
  intros [-> | [-> | ->] ]; [exists 1, 0, 0|exists 0, 1, 0|exists 0, 0, 1]; (split; [done|]);
    intros w' g'; rewrite !tally_0; lia.
Qed.

Lemma wp_deliver_to s v w1 w2 w3 w4 i :
  deliverable s -> idx v < VCPUS_PER_GUEST -> i < NUM_INTIDS ->
  let r := unpack (current s) in
  wp (deliver_to vtr r (mkOwn (run_guest r) v) w1 w2 w3 w4 i)
    (fun s' _ => delivers r (only v) i w1 w2 w3 w4 1 s s') s.
Proof.
  intros Hs Hv Hi r. assert (Hg : run_guest r < NUM_GUESTS) by apply Hs.
  pose proof (dl_tally _ Hs) as Ht.
  unfold deliver_to. cbn [own_guest own_vcpu]. wp_step; [subst v|].
  - unfold deliver_or_defer_vint. wp_step. apply wp_counted; [done..|]. intros pg H1. wp_step.
    assert (Hs1 : deliverable (lset per_guest_l pg s)).
    { apply (deliverable_after (cpu s) (pending s) pg s Hs); [apply Hs..|]. by eapply counts_bound. }
    destruct (inject_spec vtr i (cpu s)) as [(c' & E & Hp)|[E Hfull] ]; eapply wp_of_cpu; try exact E; cbn iota.
    + apply wp_counted; [done|by eapply counts_bound|]. intros pg2 H2.
      eexists c', (pending s), pg2, _. split_and!; [reflexivity| |by eapply counts_trans|by apply accounted_1; left|].
      * change (deliverable (after c' (pending s) pg2 s)).
        apply deliverable_after; [done|by eapply placed_wf; [apply Hs|]|apply Hs|by eapply counts_bound].
      * apply routed_running; [by left|done].
    + wp_step. apply (wp_mark (run_guest r) (run_vcpu r) i); [|by split|done|].
      { apply (deliverable_after (cpu s) (pending s) pg s Hs); [apply Hs..|]. by eapply counts_bound. }
      intros p _ Hq Ho. cbn iota. wp_step. apply wp_counted; [done|by eapply counts_bound|]. intros pg2 H2.
      unfold on_cpu. wp_step.
      eexists (set_underflow_interrupt true (cpu s)), p, pg2, _.
      split_and!; [reflexivity| |by eapply counts_trans|by apply accounted_1; right; left|].
      * change (deliverable (after (set_underflow_interrupt true (cpu s)) p pg2 s)).
        apply deliverable_after; [done|by destruct (dl_cpu _ Hs)| |by eapply counts_bound].
        by apply (queued_pending _ p (run_guest r) (run_vcpu r) i Hs1).
      * apply routed_running; [|done]. by right.
  - wp_step. apply (wp_mark (run_guest r) v i); [done|by split|done|]. intros p _ Hq Ho. cbn iota.
    wp_step. apply wp_counted; [done..|]. intros pg H1.
    apply wp_counted; [done|by eapply counts_bound|]. intros pg2 H2.
    eexists (cpu s), p, pg2, _. split_and!; [reflexivity| |by eapply counts_trans|by apply accounted_1; right; right|].
    + change (deliverable (after (cpu s) p pg2 s)).
      apply deliverable_after; [done|apply Hs| |by eapply counts_bound].
      by apply (queued_pending s p (run_guest r) v i Hs).
    + by apply routed_sibling.
Qed.

(** Nobody is named. *)
Lemma routed_nobody r names i c p : (forall v, idx v < VCPUS_PER_GUEST -> names v = false) ->
  idx (run_vcpu r) < VCPUS_PER_GUEST -> routed vtr r names i c c p p.
Proof.
  intros H Hr. split; try done.
  - intros E. by rewrite H in E.
  - intros v Hv _ E. by rewrite H in E.
Qed.

(** Two rounds with disjoint targets are one. *)
Lemma routed_trans r n1 n2 i c1 c2 c3 p1 p2 p3 : on_machine NUM_GUESTS r ->
  (forall v, n1 v && n2 v = false) ->
  routed vtr r n1 i c1 c2 p1 p2 -> routed vtr r n2 i c2 c3 p2 p3 ->
  routed vtr r (fun v => n1 v || n2 v) i c1 c3 p1 p3.
Proof.
  intros Hr Hd [R1 I1 S1 O1] [R2 I2 S2 O2].
  assert (Hq : forall v, idx v < VCPUS_PER_GUEST -> n1 v = true -> n2 v = true -> False).
  { intros v _ E1 E2. specialize (Hd v). by rewrite E1, E2 in Hd. }
  split.
  - intros [E|E]%orb_true_iff.
    + assert (E2 : n2 (run_vcpu r) = false) by (specialize (Hd (run_vcpu r)); by rewrite E in Hd).
      rewrite (I2 E2). pose proof (O2 _ (run_vcpu r) Hr (or_intror E2)) as Hp.
      destruct (R1 E) as [ [Hl He]|(Hf & He & q & q' & H1 & H2 & H3 & H4)]; [left|right].
      * by rewrite Hp.
      * split_and!; [done..|]. exists q, q'. by rewrite Hp.
    + assert (E1 : n1 (run_vcpu r) = false)
        by (specialize (Hd (run_vcpu r)); by destruct (n1 (run_vcpu r)), (n2 (run_vcpu r))).
      pose proof (O1 _ (run_vcpu r) Hr (or_intror E1)) as Hp. pose proof (I1 E1) as ->.
      destruct (R2 E) as [ [Hl He]|(Hf & He & q & q' & H1 & H2 & H3 & H4)]; [left|right].
      * by rewrite He.
      * split_and!; [done..|]. exists q, q'. by rewrite <- Hp.
  - intros [E1 E2]%orb_false_iff. by rewrite (I2 E2), (I1 E1).
  - intros v Hv Hne [E|E]%orb_true_iff.
    + assert (E2 : n2 v = false) by (specialize (Hd v); by rewrite E in Hd).
      destruct (S1 v Hv Hne E) as (q & q' & H1 & H2 & H3). exists q, q'.
      rewrite (O2 (run_guest r) v); [done|by split; [apply Hr|]|by right].
    + assert (E1 : n1 v = false) by (specialize (Hd v); by destruct (n1 v), (n2 v)).
      destruct (S2 v Hv Hne E) as (q & q' & H1 & H2 & H3). exists q, q'.
      rewrite <- (O1 (run_guest r) v); [done|by split; [apply Hr|]|by right].
  - intros g v Hn Hor. rewrite O2, O1; [done|done| |done|];
      (destruct Hor as [?|E%orb_false_iff]; [by left|right; apply E]).
Qed.

Lemma delivers_trans r n1 n2 i w1 w2 w3 w4 k1 k2 s1 s2 s3 : on_machine NUM_GUESTS r ->
  (forall v, n1 v && n2 v = false) ->
  delivers r n1 i w1 w2 w3 w4 k1 s1 s2 -> delivers r n2 i w1 w2 w3 w4 k2 s2 s3 ->
  delivers r (fun v => n1 v || n2 v) i w1 w2 w3 w4 (k1 + k2) s1 s3.
Proof.
  intros Hr Hd (c & p & pg & f & -> & D1 & C1 & A1 & R1) (c' & p' & pg' & f' & -> & D2 & C2 & A2 & R2).
  exists c', p', pg', (fun w g => f w g + f' w g).
  split_and!; [reflexivity|done|by eapply counts_trans|by apply accounted_add|by eapply routed_trans].
Qed.

Lemma delivers_ext r n1 n2 i w1 w2 w3 w4 k s s' : on_machine NUM_GUESTS r ->
  (forall v, idx v < VCPUS_PER_GUEST -> n1 v = n2 v) ->
  delivers r n1 i w1 w2 w3 w4 k s s' -> delivers r n2 i w1 w2 w3 w4 k s s'.
Proof.
  intros Hr He (c & p & pg & f & -> & D1 & C1 & A1 & [R I S O]). exists c, p, pg, f.
  split_and!; [done..|]. split.
  - rewrite <- He by apply Hr. done.
  - rewrite <- He by apply Hr. done.
  - intros v Hv. rewrite <- He by done. by apply S.
  - intros g v Hv. rewrite <- He by apply Hv. by apply O.
Qed.

Lemma delivers_nobody r i w1 w2 w3 w4 s names : deliverable s -> on_machine NUM_GUESTS r ->
  (forall v, idx v < VCPUS_PER_GUEST -> names v = false) -> delivers r names i w1 w2 w3 w4 0 s s.
Proof.
  intros Hs Hr Hn. exists (cpu s), (pending s), (per_guest s), (fun _ _ => 0). split_and!.
  - by destruct s.
  - done.
  - by apply counts_refl, Hs.
  - apply accounted_0.
  - apply routed_nobody; [done|apply Hr].
Qed.

(** *** The loops over the vCPUs of the guest *)

Lemma wp_deliver_if s v names w1 w2 w3 w4 i :
  deliverable s -> idx v < VCPUS_PER_GUEST -> i < NUM_INTIDS ->
  let r := unpack (current s) in
  wp (if negb (names v : bool) then ret tt else deliver_to vtr r (mkOwn (run_guest r) v) w1 w2 w3 w4 i)
    (fun s' _ => delivers r (fun v' => only v v' && names v) i w1 w2 w3 w4 (if names v then 1 else 0) s s') s.
Proof.
  intros Hs Hv Hi r. destruct (names v) eqn:E; simpl.
  - eapply wp_mono; [by apply wp_deliver_to|]. intros s' [] H. eapply delivers_ext; [apply Hs| |exact H].
    intros v' _. by rewrite andb_true_r.
  - wp_step. apply delivers_nobody; [done|apply Hs|]. intros v' _. apply andb_false_r.
Qed.

Lemma delivers_current r names i w1 w2 w3 w4 n s s' :
  delivers r names i w1 w2 w3 w4 n s s' -> current s' = current s.
Proof. by intros (c & p & pg & f & -> & _). Qed.

Lemma wp_note_collisions r names (Q : Linux -> unit -> Prop) s :
  run_guest r < NUM_GUESTS -> (forall w g, per_guest s w g <= u64_max) ->
  (forall pg f, counts f (per_guest s) pg ->
     (forall w g, w <> AFFINITY_COLLISIONS \/ g <> run_guest r -> f w g = 0) ->
     Q (lset per_guest_l pg s) tt) ->
  wp (note_affinity_collisions r names) Q s.
Proof.
  intros Hg Hb HQ. unfold note_affinity_collisions. set (k := count _ _). destruct (0 <? k).
  - apply wp_counted; [done..|]. intros pg H. apply (HQ pg _ H). intros w g Hor. unfold tally.
    rewrite decide_False; [done|naive_solver].
  - wp_step. replace s with (lset per_guest_l (per_guest s) s) by (by destruct s).
    by apply (HQ (per_guest s) _ (counts_refl _ Hb)).
Qed.

Lemma wp_deliver_sgi value s : deliverable s ->
  let r := unpack (current s) in
  let d := Sgi.decode value (vcpu_affinity (idx (run_vcpu r))) in
  let names v := Sgi.targets d (vcpu_affinity (idx v)) in
  wp (deliver_sgi vtr value) (fun s' _ => exists pg f, counts f (per_guest s) pg /\
    (forall w g, w <> AFFINITY_COLLISIONS \/ g <> run_guest r -> f w g = 0) /\
    delivers r names (Sgi.intid d) SGI_TARGETS_NAMED SGIS_DELIVERED SGIS_DEFERRED SGIS_ROUTED
      (count names [mkIdx 0; mkIdx 1]) (lset per_guest_l pg s) s') s.
Proof.
  intros Hs r d names. assert (Hi : Sgi.intid d < NUM_INTIDS).
  { eapply N.lt_trans; [apply sgi_intid_lt|done]. }
  assert (Hr : on_machine NUM_GUESTS r) by apply Hs.
  unfold deliver_sgi, current_vcpu. do 2 wp_step. fold r d. wp_step.
  apply wp_note_collisions; [apply Hr|apply Hs|]. intros pg f Hf Hz.
  set (s1 := lset per_guest_l pg s).
  assert (Hs1 : deliverable s1).
  { apply (deliverable_after (cpu s) (pending s) pg s Hs); [apply Hs..|]. by eapply counts_bound. }
  cbn beta. rewrite own_list. cbn [for_each]. wp_step.
  eapply wp_mono; [exact (wp_deliver_if s1 (mkIdx 0) names SGI_TARGETS_NAMED SGIS_DELIVERED SGIS_DEFERRED
    SGIS_ROUTED (Sgi.intid d) Hs1 ltac:(done) Hi)|]. cbn beta. intros s2 [] D1. change (unpack (current s1)) with r in D1.
  assert (Hs2 : deliverable s2) by (destruct D1 as (c & p & pg' & f' & _ & H & _); exact H).
  assert (Hr2 : unpack (current s2) = r) by (rewrite (delivers_current _ _ _ _ _ _ _ _ _ _ D1); done).
  wp_step. eapply wp_mono.
  { pose proof (wp_deliver_if s2 (mkIdx 1) names SGI_TARGETS_NAMED SGIS_DELIVERED SGIS_DEFERRED
      SGIS_ROUTED (Sgi.intid d) Hs2 ltac:(done) Hi) as H. cbn zeta in H. rewrite Hr2 in H. exact H. }
  cbn beta. intros s3 [] D2. wp_step. exists pg, f. split_and!; [done..|].
  replace (count names [mkIdx 0; mkIdx 1]) with
    ((if names (mkIdx 0) then 1 else 0) + (if names (mkIdx 1) then 1 else 0))
    by (cbn [count]; by destruct (names (mkIdx 0)), (names (mkIdx 1))).
  eapply delivers_ext; [exact Hr| |eapply delivers_trans; [exact Hr| |exact D1|exact D2] ].
  - intros v [-> | ->]%idx_cases; unfold only; simpl; by rewrite ?orb_false_r.
  - intros v. unfold only. destruct (decide (v = mkIdx 0)) as [->|]; [by rewrite andb_false_r|].
    by rewrite (bool_decide_eq_false_2 (v = mkIdx 0)).
Qed.

(** The tallies of a delivery, read off. *)
Lemma accounted_sgi r n f f0 : accounted SGI_TARGETS_NAMED SGIS_DELIVERED SGIS_DEFERRED SGIS_ROUTED (run_guest r) n f ->
  (forall w g, w <> AFFINITY_COLLISIONS \/ g <> run_guest r -> f0 w g = 0) ->
  let t w g := f0 w g + f w g in
  t SGI_TARGETS_NAMED (run_guest r) = n /\
  t SGIS_DELIVERED (run_guest r) + t SGIS_DEFERRED (run_guest r) + t SGIS_ROUTED (run_guest r) = n /\
  forall w g, g <> run_guest r -> t w g = 0.
Proof.
  intros (a & b & c & <- & H) H0 t. unfold t. rewrite !H0 by (left; discriminate).
  assert (Ht : forall w w' k, tally w (run_guest r) k w' (run_guest r) = if decide (w' = w) then k else 0).
  { intros w w' k. unfold tally. repeat case_decide; naive_solver. }
  rewrite !H, !Ht. split_and!; [repeat case_decide; (done || lia)..|]. intros w g Hg. rewrite H, H0 by (by right). unfold tally.
  by rewrite !decide_False by naive_solver.
Qed.
End Deliver.

(** *** The drain of a pending set *)

(** The pairs [taken] of a list register and an interrupt are what the drain moved. *)
Record drains (vtr : N) (c c' : Cpu) (q q' : list N) (taken : list (N * N)) : Prop := mkDrains {
  dr_taken : forall i id, (i, id) ∈ taken ->
    i < num_list_registers vtr /\ lr_is_free (read_lr c i) = true /\ read_lr c' i = plain_lr id /\ member q id;
  dr_kept : forall i, i ∉ taken.*1 -> read_lr c' i = read_lr c i;
  dr_once : NoDup taken.*1 /\ NoDup taken.*2;
  dr_left : forall id, member q' id <-> member q id /\ id ∉ taken.*2;
  dr_order : forall id id', id ∈ taken.*2 -> member q' id' -> id < id';
  dr_full : (forall id, ~ member q' id) \/ bank_full vtr c';
  dr_rest : exists bank, c' = set_ich_lr bank c;
}.

Lemma plain_lr_busy id : id < NUM_INTIDS -> lr_is_free (plain_lr id) = false.
Proof.
  intros Hi. unfold plain_lr, encode_lr. destruct (VgicCpuif.encode_lr id None INJECT_PRIORITY) as [l|] eqn:E; [|done].
  simpl. apply encode_lr_view in E as [_ E].
  - apply (f_equal v_state) in E. change (lr_state l = VgicCpuif.Pending) in E.
    unfold lr_is_free. by rewrite E.
  - eapply N.lt_trans; [exact Hi|done].
  - done.
Qed.

Lemma drains_stop vtr c q : (forall id, ~ member q id) \/ bank_full vtr c -> drains vtr c c q q [].
Proof.
  intros H. split; simpl; try done.
  - intros i id Hi. by apply elem_of_nil in Hi.
  - split; constructor.
  - intros id. split; [|by intros [? _] ]. intros Hm. split; [done|]. by intros ?%elem_of_nil.
  - intros id id' Hi. by apply elem_of_nil in Hi.
  - exists (ich_lr c). by destruct c.
Qed.

Lemma drains_step vtr c c' q q1 q' i id taken : cpu_wf c -> i < num_list_registers vtr ->
  lr_is_free (read_lr c i) = true -> id < NUM_INTIDS -> member q id ->
  (forall j, member q j -> id <= j) -> removes q q1 id ->
  drains vtr (write_lr i (plain_lr id) c) c' q1 q' taken -> drains vtr c c' q q' ((i, id) :: taken).
Proof.
  intros Hc Hi Hf Hid Hm Hmin Hr [T K [O1 O2] L Or F [bank R] ].
  pose proof (num_lrs_le vtr) as Hn.
  assert (Hrd : forall j, read_lr (write_lr i (plain_lr id) c) j = if decide (j = i) then plain_lr id else read_lr c j)
    by (intros j; apply read_lr_write; [done|lia]).
  assert (Hni : i ∉ taken.*1).
  { intros ([j id'] & -> & Hx)%list_elem_of_fmap. destruct (T _ _ Hx) as (_ & Hfree & _). simpl in Hfree.
    rewrite Hrd, decide_True in Hfree by done. by rewrite plain_lr_busy in Hfree. }
  assert (Hnid : forall id', id' ∈ taken.*2 -> member q id' /\ id' <> id).
  { intros id' ([j k] & -> & Hx)%list_elem_of_fmap. destruct (T _ _ Hx) as (_ & _ & _ & Hq). by apply Hr in Hq. }
  split.
  - intros j id' [ [= -> ->]|Hx]%elem_of_cons.
    + split_and!; [done..| |done]. by rewrite K, Hrd, decide_True.
    + destruct (T j id' Hx) as (H1 & H2 & H3 & H4). split_and!; [done| |done|by apply Hr in H4 as [? _] ].
      rewrite Hrd in H2. case_decide; [|done]. subst j. destruct Hni. apply list_elem_of_fmap. by exists (i, id').
  - intros j Hj. rewrite fmap_cons, not_elem_of_cons in Hj. destruct Hj as [Hne Hj]. rewrite K, Hrd by done.
    by rewrite decide_False.
  - rewrite !fmap_cons. split; constructor; try done. simpl. intros H. by apply Hnid in H as [_ ?].
  - intros id'. rewrite L, (Hr id'), fmap_cons, not_elem_of_cons. simpl. tauto.
  - intros id1 id2. rewrite fmap_cons, elem_of_cons. simpl. intros [->|H1] H2; [|by apply Or].
    apply L in H2 as [H2 _]. apply Hr in H2 as [H2 Hne]. specialize (Hmin _ H2). lia.
  - done.
  - rewrite R. unfold write_lr. destruct (i <? 16); by eexists.
Qed.

(** What a drain of the set of one vCPU leaves. *)
Definition drained (vtr g : N) (v : VcpuIdx) (w : GuestWord) (s s' : Linux) (taken : list (N * N)) : Prop :=
  exists c p pg q q', s' = after c p pg s /\ deliverable s' /\ vlen p = vlen (pending s) /\
    tget (pending s) g (idx v) = Some q /\ tget p g (idx v) = Some q' /\ set_wf q' /\
    (forall g' v', (g', v') <> (g, v) -> tget p g' (idx v') = tget (pending s) g' (idx v')) /\
    drains vtr (cpu s) c q q' taken /\ counts (tally w g (vlen taken)) (per_guest s) pg.

Lemma lset_pending_id g v q s : tget (pending s) g (idx v) = Some q ->
  lset pending_l (tset (lget pending_l s) g (idx v) q) s = s.
Proof. intros H. cbn. rewrite (tset_id _ _ _ _ H). by destruct s. Qed.

Lemma wp_flush_from vtr g v w m : forall i k s, g < NUM_GUESTS -> idx v < VCPUS_PER_GUEST ->
  deliverable s -> N.of_nat m + i = num_list_registers vtr ->
  (forall j, j < i -> lr_is_free (read_lr (cpu s) j) = false) ->
  wp (flush_from vtr g v w (vrange_from i (num_list_registers vtr)) k)
    (fun s' r => exists taken, drained vtr g v w s s' taken /\ r = k + vlen taken) s.
Proof.
  pose proof (num_lrs_le vtr) as Hn.
  induction m as [|m IH]; intros i k s Hg Hv Hs Hm Hbusy;
    destruct (dl_pending _ Hs g v (conj Hg Hv)) as (q & Hq & Hwf);
    assert (Hstop : (forall id, ~ member q id) \/ bank_full vtr (cpu s) -> drained vtr g v w s s []).
  1, 3: intros Hd; exists (cpu s), (pending s), (per_guest s), q, q; split_and!; try done;
    [by destruct s|by apply drains_stop|]; intros w' g'; unfold tally;
    pose proof (dl_tally _ Hs w' g'); rewrite N.mod_small; case_decide; unfold vlen; simpl; lia.
  - rewrite vrange_from_nil by lia. simpl. wp_step. exists []. split; [|unfold vlen; simpl; lia].
    apply Hstop. right. intros j Hj. apply Hbusy. lia.
  - rewrite vrange_from_cons by lia. cbn [flush_from]. wp_step. wp_step. wp_step.
    + apply IH; try done; [lia|]. intros j Hj. destruct (decide (j = i)) as [->|]; [by apply negb_true_iff|].
      apply Hbusy. lia.
    + bool_prop. wp_step. apply (wp_at_vcpu pending_l g v take_next _ s q Hq).
      destruct (take_next_run q Hwf) as (q1 & o & E & Hwf1 & Ho). apply (wp_of_Done _ _ _ _ _ E).
      destruct o as [id|]; cbn iota.
      2: { destruct Ho as [-> Hnone]. wp_step. rewrite (lset_pending_id g v q s Hq). exists [].
           split; [apply Hstop; by left|unfold vlen; simpl; lia]. }
      destruct Ho as (Hmem & Hmin & Hrem). pose proof (sw_ids _ Hwf _ Hmem) as Hid. wp_step.
      destruct (inject_spec vtr id (cpu s)) as [(c' & Ei & Hp)|[_ Hfull] ].
      2: { exfalso. rewrite Hfull in * by lia. done. }
      eapply wp_of_cpu; [exact Ei|]. cbn iota.
      destruct Hp as (i' & Hi' & Hfree & Hleast & ->).
      assert (i' = i) as ->.
      { destruct (N.lt_total i' i) as [Hl|[?|Hl] ]; [|done|].
        - specialize (Hbusy _ Hl). congruence.
        - specialize (Hleast _ Hl). congruence. }
      wp_step. set (s1 := lset cpu_l _ _). apply wp_counted; [done|apply Hs|]. intros pg Hpg.
      set (s2 := lset per_guest_l pg s1).
      set (p1 := tset (pending s) g (idx v) q1).
      assert (Hp1 : tget p1 g (idx v) = Some q1) by by eapply tget_tset_eq.
      assert (Hpo : forall g' v', (g', v') <> (g, v) -> tget p1 g' (idx v') = tget (pending s) g' (idx v')).
      { intros g' v' Hne. apply tget_tset_ne. intros [-> Hx]. apply Hne. destruct v, v'. simpl in *. by subst. }
      assert (Hs2 : deliverable s2).
      { change s2 with (after (write_lr i (plain_lr id) (cpu s)) p1 pg s).
        apply deliverable_after; [done|by apply write_lr_wf, Hs| |by eapply counts_bound].
        intros g' v' Hgv. destruct (decide ((g', v') = (g, v))) as [ [= -> ->]|Hne]; [by exists q1|].
        rewrite Hpo by done. by apply Hs. }
      eapply wp_mono.
      { apply (IH (i + 1) (k + 1) s2); [done..|lia|]. intros j Hj.
        change (cpu s2) with (write_lr i (plain_lr id) (cpu s)). rewrite read_lr_write; [|apply Hs|lia].
        case_decide; [by apply plain_lr_busy|]. apply Hbusy. lia. }
      cbn beta. intros s' r (taken & (c & p & pg' & q1' & q' & -> & Hd' & Hlp & Hq1 & Hq' & Hwf' & Ho & Hdr & Hpg') & ->).
      exists ((i, id) :: taken). split.
      * exists c, p, pg', q, q'. change (pending s2) with p1 in *. rewrite Hp1 in Hq1. injection Hq1 as <-.
        split_and!; [done|done| |done|done|done| | |].
        -- rewrite Hlp. apply vlen_tset.
        -- intros g' v' Hne. by rewrite Ho, Hpo.
        -- apply (drains_step vtr (cpu s) c q q1 q' i id taken); try done; apply Hs.
        -- intros w' g'. rewrite (counts_trans _ _ _ _ _ Hpg Hpg' w' g'). do 2 f_equal.
           unfold tally, vlen. case_decide; simpl; lia.
      * unfold vlen. simpl. lia.
Qed.

(** The drain with the underflow interrupt armed by what is left. *)
Definition flushed (vtr g : N) (v : VcpuIdx) (w : GuestWord) (s s' : Linux) (n : N) : Prop :=
  exists c p pg q q' taken armed, s' = after (set_underflow_interrupt armed c) p pg s /\ deliverable s' /\
    vlen p = vlen (pending s) /\
    tget (pending s) g (idx v) = Some q /\ tget p g (idx v) = Some q' /\ set_wf q' /\
    (forall g' v', (g', v') <> (g, v) -> tget p g' (idx v') = tget (pending s) g' (idx v')) /\
    drains vtr (cpu s) c q q' taken /\ counts (tally w g (vlen taken)) (per_guest s) pg /\
    (armed = true <-> exists id, member q' id) /\ n = vlen taken.

Lemma wp_flush vtr g v w s : deliverable s -> names_vcpu NUM_GUESTS (g, v) ->
  wp (flush_pending_to_lrs vtr g v w) (fun s' n => flushed vtr g v w s s' n) s.
Proof.
  intros Hs [Hg Hv]. unfold flush_pending_to_lrs. wp_step.
  replace (vrange (num_list_registers vtr)) with (vrange_from 0 (num_list_registers vtr)).
  2: { unfold vrange_from. rewrite N.sub_0_r. apply list_fmap_id. }
  eapply wp_mono.
  { apply (wp_flush_from vtr g v w (N.to_nat (num_list_registers vtr)) 0 0 s); [done..|lia|lia]. }
  cbn beta. intros s1 n (taken & (c & p & pg & q & q' & -> & Hd & Hl & Hq & Hq' & Hwf & Ho & Hdr & Hc) & ->).
  wp_step. apply (wp_at_vcpu pending_l g v is_empty _ (after c p pg s) q' Hq').
  destruct (is_empty_run q' Hwf) as (e & E & He). apply (wp_of_Done _ _ _ _ _ E).
  rewrite lset_pending_id by done. unfold on_cpu. do 3 wp_step.
  exists c, p, pg, q, q', taken, (negb e). split_and!; try done.
  - destruct Hd as [Hr [? ? ? ? ?] Hp Ht]. by split; [|split|..].
  - rewrite negb_true_iff. destruct e.
    + split; [done|]. intros [id Hid]. exfalso. by apply (proj1 He eq_refl id).
    + split; [|done]. intros _.
      destruct (take_next_run q' Hwf) as (q2 & o & _ & _ & Hx). destruct o as [id|]; [by exists id; destruct Hx|].
      destruct Hx as [_ Hx]. by apply He in Hx.
Qed.

(** *** The SPI: the first vCPU the route names *)

Definition spi_target (route : SpiRoute) : option VcpuIdx :=
  List.find (fun v => Irouter.targets route (vcpu_affinity (idx v))) [mkIdx 0; mkIdx 1].

Definition spi_count (route : SpiRoute) : N := match spi_target route with Some _ => 1 | None => 0 end.

Lemma wp_deliver_spi vtr route i s : deliverable s -> i < NUM_INTIDS ->
  let r := unpack (current s) in
  wp (deliver_spi vtr route r i) (fun s' _ => exists pg f, counts f (per_guest s) pg /\
    (forall w g, (w <> AFFINITY_COLLISIONS /\ w <> SPIS_UNROUTABLE) \/ g <> run_guest r -> f w g = 0) /\
    delivers vtr r (fun v => bool_decide (spi_target route = Some v)) i
      SPI_TARGETS_NAMED SPIS_DELIVERED SPIS_DEFERRED SPIS_ROUTED (spi_count route)
      (lset per_guest_l pg s) s') s.
Proof.
  intros Hs Hi r. assert (Hr : on_machine NUM_GUESTS r) by apply Hs.
  unfold deliver_spi. wp_step. apply wp_note_collisions; [apply Hr|apply Hs|]. intros pg f Hf Hz. cbn beta.
  assert (Hs1 : forall pg, (forall w g, pg w g <= u64_max) -> deliverable (lset per_guest_l pg s)).
  { intros pg1 H1. apply (deliverable_after (cpu s) (pending s) pg1 s Hs); [apply Hs..|done]. }
  assert (H1 : deliverable (lset per_guest_l pg s)) by (eapply Hs1, counts_bound, Hf).
  assert (Hone : forall v, idx v < VCPUS_PER_GUEST -> spi_target route = Some v ->
    wp (deliver_to vtr r (mkOwn (run_guest r) v) SPI_TARGETS_NAMED SPIS_DELIVERED SPIS_DEFERRED SPIS_ROUTED i)
      (fun s' _ => exists pg0 f0, counts f0 (per_guest s) pg0 /\
        (forall w g, (w <> AFFINITY_COLLISIONS /\ w <> SPIS_UNROUTABLE) \/ g <> run_guest r -> f0 w g = 0) /\
        delivers vtr r (fun v => bool_decide (spi_target route = Some v)) i SPI_TARGETS_NAMED SPIS_DELIVERED
          SPIS_DEFERRED SPIS_ROUTED (spi_count route) (lset per_guest_l pg0 s) s')
      (lset per_guest_l pg s)).
  { intros v Hv E. eapply wp_mono; [by apply (wp_deliver_to vtr _ v _ _ _ _ i H1)|]. cbn beta. intros s' [] D.
    exists pg, f. split_and!; [done|intros w g Hg; apply Hz; naive_solver|]. unfold spi_count. rewrite E.
    eapply delivers_ext; [exact Hr| |exact D]. intros v' _. unfold only. apply bool_decide_ext. split; congruence. }
  unfold spi_count, spi_target in *. rewrite own_list. cbn [deliver_spi_to List.find own_vcpu] in *.
  destruct (Irouter.targets route (vcpu_affinity (idx (mkIdx 0)))); cbn [negb].
  { by apply Hone. }
  destruct (Irouter.targets route (vcpu_affinity (idx (mkIdx 1)))); cbn [negb].
  { by apply Hone. }
  apply wp_counted; [apply Hr|by eapply counts_bound|]. intros pg2 Hf2.
  eexists pg2, _. split_and!; [by eapply counts_trans| |].
  - cbn beta. intros w g Hg. rewrite Hz by naive_solver. unfold tally. by rewrite decide_False by naive_solver.
  - apply delivers_nobody; [eapply (Hs1 pg2), counts_bound, Hf2|exact Hr|]. intros v _. by apply bool_decide_eq_false_2.
Qed.

(** ** Properties *)

(** C21: interrupts between processors are confined and complete. Whatever 64 bits a guest
    writes to raise a software-generated interrupt, and although the peer's vCPUs have the same
    affinities, the interrupt reaches exactly the vCPUs of the writer's own guest that the
    architecture's decode names: a sibling finds it in its pending set, the writer in a free
    list register or, when none is free, in its own pending set with the underflow interrupt
    armed; every other vCPU of either guest is untouched, and so is the rest of the machine.
    Delivery never fails, and every target named is counted once as delivered, deferred or
    routed. *)
Theorem sgi_confined (vtr value : N) (s : Linux) : deliverable s ->
  let r := unpack (current s) in
  let d := Sgi.decode value (vcpu_affinity (idx (run_vcpu r))) in
  let names v := Sgi.targets d (vcpu_affinity (idx v)) in
  exists c p pg f, deliver_sgi vtr value s = Done (after c p pg s) tt /\
    deliverable (after c p pg s) /\
    routed vtr r names (Sgi.intid d) (cpu s) c (pending s) p /\
    counts f (per_guest s) pg /\
    f SGI_TARGETS_NAMED (run_guest r) = count names [mkIdx 0; mkIdx 1] /\
    f SGIS_DELIVERED (run_guest r) + f SGIS_DEFERRED (run_guest r) + f SGIS_ROUTED (run_guest r) =
      count names [mkIdx 0; mkIdx 1] /\
    (forall w g, g <> run_guest r -> f w g = 0).
Proof.
  intros Hs r d names. pose proof (wp_deliver_sgi vtr value s Hs) as H.
  apply wp_Done in H as (s' & [] & E & pg & f & Hf & Hz & c & p & pg' & f' & -> & Hd & Hf' & Ha & Hr).
  destruct (accounted_sgi r _ f' f Ha Hz) as (H1 & H2 & H3).
  exists c, p, pg', (fun w g => f w g + f' w g). split_and!; [done|done|done|by eapply counts_trans|done..].
Qed.

(** C38: the deferred interrupts of a vCPU are conserved. When its pending set is drained, each
    list register that changes was free and now holds one interrupt of the set, distinct
    interrupts in distinct registers and lowest first; an interrupt is either moved or still
    pending, never both and never neither; the drain stops only when nothing is left or no
    register is free; the underflow interrupt is armed exactly if something is left; and no
    other vCPU's set changes. *)
Theorem flush_conserves (vtr g : N) (v : VcpuIdx) (w : GuestWord) (s : Linux) :
  deliverable s -> names_vcpu NUM_GUESTS (g, v) ->
  exists s' n, flush_pending_to_lrs vtr g v w s = Done s' n /\ flushed vtr g v w s s' n.
Proof. intros Hs Hn. apply wp_Done, (wp_flush vtr g v w s Hs Hn). Qed.

(** A writer on vCPU 0 of the first guest names both vCPUs of its guest for interrupt 3. *)
Definition sgi_demo : N := shl 64 3 24 + 3.
Lemma linux_statics_deliverable w c : cpu_wf c -> deliverable (statics w c).
Proof.
  intros Hc. split; [by split|done| |done]. intros g v [Hg Hv]. exists PendingSet.new. split; [|apply set_wf_new].
  cbn. rewrite tget_vrepeat. by rewrite decide_True.
Qed.
Lemma linux_cpu_wf : cpu_wf linux_cpu.
Proof. split; [done..|]. intros g Hg. assert (g = 0 \/ g = 1) as [-> | ->] by lia; done. Qed.

Theorem sgi_confined_witness :
  exists c p pg f, deliver_sgi linux_vtr sgi_demo (statics linux_world linux_cpu) =
      Done (after c p pg (statics linux_world linux_cpu)) tt /\
    routed linux_vtr (at_boot 0) (fun v => Sgi.targets (Sgi.decode sgi_demo 0) (idx v)) 3
      linux_cpu c (pending (statics linux_world linux_cpu)) p /\
    f SGI_TARGETS_NAMED 0 = 2.
Proof.
  destruct (sgi_confined linux_vtr sgi_demo (statics linux_world linux_cpu)
    (linux_statics_deliverable linux_world linux_cpu linux_cpu_wf)) as (c & p & pg & f & H1 & _ & H2 & _ & H3 & _).
  exists c, p, pg, f. split; [exact H1|]. split; [exact H2|]. exact H3.
Defined.

(** Interrupt 40 is pending for the boot vCPU of the second guest. *)
Definition flush_demo : Linux :=
  lset pending_l (tset (pending (statics linux_world linux_cpu)) 1 0 (vset PendingSet.new 0 (shl 64 1 40)))
    (statics linux_world linux_cpu).
Lemma flush_demo_deliverable : deliverable flush_demo.
Proof.
  destruct (linux_statics_deliverable linux_world linux_cpu linux_cpu_wf) as [H1 H2 H3 H4].
  split; [done..| |done]. intros g v Hn. destruct (mark_run PendingSet.new 40 set_wf_new) as (q & E & Hq & _).
  assert (q = vset PendingSet.new 0 (shl 64 1 40)) as -> by (vm_compute in E; by injection E as <-).
  cbn [flush_demo pending lset pending_l]. rewrite tget_tset. case_decide as Hd; [by eexists|]. by apply H3.
Qed.

Theorem flush_conserves_witness :
  exists s', flush_pending_to_lrs linux_vtr 1 boot SGIS_DRAINED flush_demo = Done s' 1 /\
    flushed linux_vtr 1 boot SGIS_DRAINED flush_demo s' 1.
Proof.
  destruct (flush_conserves linux_vtr 1 boot SGIS_DRAINED flush_demo flush_demo_deliverable) as (s' & n & E & H);
    [split; reflexivity|].
  assert (n = 1) as -> by (vm_compute in E; congruence). exists s'. split; [exact E|exact H].
Defined.
