(* ===== verification/Switch.v ===== *)
(** * The switch of the physical CPU between vCPUs — [hv-metal/src/linux.rs]

    What [switch_context] does: the register file and everything the hypervisor keeps per
    vCPU pass from the vCPU that leaves to the one that arrives. *)

From Stdlib Require Import NArith Lia.
From stdpp Require Import base numbers list option.
From S2P Require Import Bits.
From S2P Require Import Pending.
From S2P Require Import Gicv3.
From S2P Require Import VgicCpuif.
From S2P Require Import Metal.
From S2P Require Import PendingSet.
From S2P Require Import CpuState.
From S2P Require Import Role.
From S2P Require Import Linux.
From S2P Require Import LinuxTrap.
From S2P Require Import Deliver.
From S2P Require Import Prelude.
#[local] Open Scope N_scope.

(** ** Specification *)

(** The words that are not tallies. *)
Definition lasting (w : GuestWord) : Prop := w = VTTBR \/ w = RETIREMENT.
Definition kept_words (pg pg' : GuestWord -> N -> N) : Prop :=
  (forall w g, lasting w -> pg' w g = pg w g) /\
  ((forall w g, pg w g <= u64_max) -> forall w g, pg' w g <= u64_max).

(** The parts of the state a switch looks at. *)
Record switchable (s : Linux) : Prop := mkSwitchable {
  sb_deliverable : deliverable s;
  sb_ctxs : forall g v, names_vcpu NUM_GUESTS (g, v) ->
    exists k, tget (ctxs s) g (idx v) = Some k /\ ctx_wf k;
  sb_gics : forall g, g < NUM_GUESTS -> exists d, vget (vgics s) g = Some d /\
    gic_wf VCPUS_PER_GUEST (dev d);
}.

(** The context of a vCPU. *)
Definition ctx_of (s : Linux) (g : N) (v : VcpuIdx) : VcpuCtx := default ctx_new (tget (ctxs s) g (idx v)).
Definition timer_enabled (s : Linux) (g : N) (v : VcpuIdx) : bool :=
  match vget (vgics s) g with Some d => enabled_for (dev d) (idx v) VTIMER_INTID | None => false end.
Definition ppi_bit (w intid : N) : bool := N.testbit w intid.

(** The state after the switch from the vCPU that runs in [s] to [next]. *)
Record switched (vtr midr : N) (s : Linux) (next : Incoming) (s' : Linux) : Prop := mkSwitched {
  sw_world : world s' = world s /\ vgics s' = vgics s /\ uarts s' = uarts s /\ serial s' = serial s /\
    per_vcpu s' = per_vcpu s /\ ended s' = ended s;
  sw_words : kept_words (per_guest s) (per_guest s');
  sw_current : unpack (current s') = now_running next;
  sw_left : ctx_of s' (run_guest (unpack (current s))) (run_vcpu (unpack (current s))) =
    (ctx_release_hw vtr (ctx_save vtr (cpu s)
       (ctx_of s (run_guest (unpack (current s))) (run_vcpu (unpack (current s)))))).1;
  sw_others : forall g v, (g, v) <> (run_guest (unpack (current s)), run_vcpu (unpack (current s))) ->
    tget (ctxs s') g (idx v) = tget (ctxs s) g (idx v);
  sw_loaded : exists c q q' taken,
    holds (num_list_registers vtr) (num_ap_registers vtr) (ctx_of s' (inc_guest next) (inc_vcpu next)) c /\
    tget (pending s) (inc_guest next) (idx (inc_vcpu next)) = Some q /\
    tget (pending s') (inc_guest next) (idx (inc_vcpu next)) = Some q' /\
    drains vtr c (cpu s') q q' taken /\ (uie (cpu s') = true <-> exists id, member q' id) /\
    frame (cpu s') = frame c /\ (forall r, read_reg r (cpu s') = read_reg r c) /\
    ich_vmcr (cpu s') = ich_vmcr c /\ (forall g i, read_apr (cpu s') g i = read_apr c g i) /\
    fp_file (cpu s') = fp_file c;
  sw_pending : forall g v, (g, v) <> (inc_guest next, inc_vcpu next) ->
    tget (pending s') g (idx v) = tget (pending s) g (idx v);
  sw_el2 : vttbr_el2 (cpu s') = per_guest s VTTBR (inc_guest next) /\
    vmpidr_el2 (cpu s') = guest_mpidr (inc_vcpu next) /\ vpidr_el2 (cpu s') = midr /\
    ppi_bit (ppi_enable (cpu s')) VTIMER_INTID = timer_enabled s (inc_guest next) (inc_vcpu next) /\
    ppi_bit (ppi_active (cpu s')) VTIMER_INTID = false /\ cnthp_ctl (cpu s') = 1;
  sw_still : switchable s';
}.

(** ** Lemmas *)

Lemma kept_refl_words pg : kept_words pg pg.
Proof. by split. Qed.
Lemma kept_trans_words pg1 pg2 pg3 : kept_words pg1 pg2 -> kept_words pg2 pg3 -> kept_words pg1 pg3.
Proof. intros [H1 B1] [H2 B2]. split; [|by auto]. intros w g Hw. by rewrite H2, H1. Qed.

Lemma counts_kept w g k pg pg' : ~ lasting w -> (forall w g, pg w g <= u64_max) ->
  counts (tally w g k) pg pg' -> kept_words pg pg'.
Proof.
  intros Hw Hb H. split; [|by intros _; eapply counts_bound].
  intros w' g' Hl. rewrite H. unfold tally. rewrite decide_False by (intros [-> _]; done).
  rewrite N.add_0_r, N.mod_small; [done|]. specialize (Hb w' g'). lia.
Qed.

Lemma wp_tally w g k (Q : Linux -> unit -> Prop) s : g < NUM_GUESTS -> ~ lasting w ->
  (forall pg, kept_words (per_guest s) pg -> Q (lset per_guest_l pg s) tt) -> wp (fetch_add_g w g k) Q s.
Proof.
  intros Hg Hw HQ. apply wp_fetch_add_g; [done|]. intros pg Hpg. apply HQ. split.
  - intros w' g' Hl. rewrite Hpg. rewrite decide_False; [done|]. by intros [-> _].
  - intros Hb w' g'. rewrite Hpg. case_decide; [|done].
    match goal with |- ?a mod ?m <= _ => pose proof (N.mod_lt a m ltac:(done)) end. lia.
Qed.

(** A tally that is counted in one branch only. *)
Lemma wp_tally_if {P} `{Decision P} w g k (Q : Linux -> unit -> Prop) s : g < NUM_GUESTS -> ~ lasting w ->
  (forall pg, kept_words (per_guest s) pg -> Q (lset per_guest_l pg s) tt) ->
  wp (if decide P then fetch_add_g w g k else ret tt) Q s.
Proof.
  intros Hg Hw HQ. case_decide; [by apply wp_tally|]. wp_step.
  replace s with (lset per_guest_l (per_guest s) s) by (by destruct s). apply HQ, kept_refl_words.
Qed.
Lemma wp_tally_unless {P} `{Decision P} w g k (Q : Linux -> unit -> Prop) s : g < NUM_GUESTS -> ~ lasting w ->
  (forall pg, kept_words (per_guest s) pg -> Q (lset per_guest_l pg s) tt) ->
  wp (if decide P then ret tt else fetch_add_g w g k) Q s.
Proof.
  intros Hg Hw HQ. case_decide; [|by apply wp_tally]. wp_step.
  replace s with (lset per_guest_l (per_guest s) s) by (by destruct s). apply HQ, kept_refl_words.
Qed.

(** The words of the hypervisor that no guarantee is about. *)
Lemma wp_store_w w u (Q : Linux -> unit -> Prop) s :
  (forall wd, Q (lset word_l wd s) tt) -> wp (store_w w u) Q s.
Proof. intros H. apply wp_modify, H. Qed.
Lemma wp_fetch_add_w w (Q : Linux -> unit -> Prop) s :
  (forall wd, Q (lset word_l wd s) tt) -> wp (fetch_add_w w) Q s.
Proof. intros H. unfold fetch_add_w. do 2 wp_step. apply wp_store_w, H. Qed.
Lemma wp_word_if (c : bool) (m : M Linux unit) (Q : Linux -> unit -> Prop) s :
  (forall Q' : Linux -> unit -> Prop, (forall wd, Q' (lset word_l wd s) tt) -> wp m Q' s) ->
  (forall wd, Q (lset word_l wd s) tt) -> wp (if c then m else ret tt) Q s.
Proof.
  intros Hm H. destruct c; [by apply Hm|]. wp_step.
  replace s with (lset word_l (word s) s) by (by destruct s). apply H.
Qed.

Lemma wp_load_g w g (Q : Linux -> N -> Prop) s : g < NUM_GUESTS -> Q s (per_guest s w g) -> wp (load_g w g) Q s.
Proof. intros Hg HQ. unfold load_g, in_guest. by rewrite (proj2 (N.ltb_lt _ _) Hg). Qed.
Lemma wp_load_v w g v (Q : Linux -> N -> Prop) s : names_vcpu NUM_GUESTS (g, v) ->
  Q s (per_vcpu s w g (idx v)) -> wp (load_v w g v) Q s.
Proof.
  intros [Hg Hv] HQ. simpl in Hg, Hv. unfold load_v, in_vcpu.
  by rewrite (proj2 (N.ltb_lt _ _) Hg), (proj2 (N.ltb_lt _ _) Hv).
Qed.

Lemma wp_uplus b x y (Q : Linux -> N -> Prop) s : overflow_checks b = false ->
  (forall z, Q s z) -> wp (uplus b x y) Q s.
Proof. intros Hb HQ. unfold uplus. case_decide; [by wp_step|]. rewrite Hb. by wp_step. Qed.

Lemma wp_now clock (Q : Linux -> Ticks -> Prop) s :
  (forall n, Q (lset ticks_read_l n s) (clock (ticks_read s))) -> wp (now clock) Q s.
Proof. intros H. unfold now. do 4 wp_step. apply H. Qed.

(** Arming the slice: the private timer of the hypervisor, and nothing else. *)
Lemma wp_arm_slice b freq clock (Q : Linux -> N -> Prop) s : overflow_checks b = false ->
  (forall wd n d, Q (lset cpu_l (set_cnthp d 1 (cpu s)) (lset ticks_read_l n (lset word_l wd s))) 1) ->
  wp (arm_slice b freq clock) Q s.
Proof.
  intros Hb HQ. unfold arm_slice. do 3 wp_step.
  assert (Hq : forall (Q' : Linux -> N -> Prop), (forall q wd, Q' (lset word_l wd s) q) ->
    wp (if negb (word s SLICE_QUANTUM =? 0) then ret (word s SLICE_QUANTUM)
        else bind (store_w SLICE_QUANTUM (freq / EL2_SLICE_HZ)) (fun _ => ret (freq / EL2_SLICE_HZ))) Q' s).
  { intros Q' H. wp_step.
    - wp_step. replace s with (lset word_l (word s) s) by (by destruct s). apply H.
    - wp_step. apply wp_store_w. intros wd. wp_step. apply H. }
  apply Hq. intros q wd. wp_step. apply wp_now. intros n. wp_step. wp_step. wp_step.
  set (s1 := lset ticks_read_l n (lset word_l wd s)).
  assert (Hf : forall (Q' : Linux -> unit -> Prop), (forall wd, Q' (lset word_l wd s1) tt) ->
    wp (if word s1 SLICE_FIRST_ARM =? 0 then store_w SLICE_FIRST_ARM (clock (ticks_read (lset word_l wd s)))
        else ret tt) Q' s1).
  { intros Q' H. apply wp_word_if; [|done]. intros Q2 H2. by apply wp_store_w. }
  apply Hf. intros wd1. wp_step. apply wp_uplus; [done|]. intros d. wp_step.
  unfold on_cpu. wp_step. wp_step. apply wp_store_w. intros wd2. wp_step. exact (HQ wd2 n d).
Qed.

(** One bit of the enable and active words. *)
Lemma testbit_enable i e c : i < 32 -> ppi_bit (ppi_enable (set_ppi_enabled i e c)) i = e.
Proof.
  intros Hi. unfold set_ppi_enabled, ppi_bit. rewrite (proj2 (N.leb_gt 32 i) Hi).
  destruct e; cbn [ppi_enable set_ppi_enable].
  - rewrite N.lor_spec, testbit_shl. rewrite (proj2 (N.ltb_lt i 32) Hi), N.leb_refl, N.sub_diag. simpl. apply orb_true_r.
  - rewrite N.land_spec, testbit_bnot, testbit_shl.
    rewrite (proj2 (N.ltb_lt i 32) Hi), N.leb_refl, N.sub_diag. simpl. apply andb_false_r.
Qed.

Lemma release_forwarded_spec c : exists c' e, release_forwarded_timer c = (c', e) /\
  (exists en ac, c' = set_ppi_active ac (set_ppi_enable en c)) /\
  ppi_bit (ppi_active c') VTIMER_INTID = false.
Proof.
  unfold release_forwarded_timer. eexists _, _. split; [reflexivity|]. split; [by eexists _, _|].
  unfold ppi_bit. cbn. rewrite N.land_spec. apply andb_false_r.
Qed.

Section Switch.
Context (b : Board) (vtr midr freq : N) (clock : N -> N) (Hb : overflow_checks b = false).

Lemma wp_set_guest_identity next (Q : Linux -> unit -> Prop) s :
  (forall wd, Q (lset word_l wd (lset cpu_l (set_identity (guest_mpidr (inc_vcpu next)) midr (cpu s)) s)) tt) ->
  wp (set_guest_identity midr next) Q s.
Proof.
  intros HQ. unfold set_guest_identity, on_cpu. do 4 wp_step. wp_step. apply wp_store_w. intros wd1.
  wp_step. apply wp_store_w. intros wd2. wp_step. apply wp_fetch_add_w. intros wd3.
  apply wp_word_if; [intros Q' H; by apply wp_fetch_add_w|]. intros wd4. exact (HQ wd4).
Qed.

(** The context of a vCPU in the table. *)
Lemma ctx_at s g v : switchable s -> names_vcpu NUM_GUESTS (g, v) ->
  tget (ctxs s) g (idx v) = Some (ctx_of s g v) /\ ctx_wf (ctx_of s g v).
Proof. intros Hs Hn. destruct (sb_ctxs _ Hs g v Hn) as (k & E & Hk). unfold ctx_of. by rewrite E. Qed.

(** After the first half: the context of the outgoing vCPU is what the processor held, with the
    hardware mappings demoted, and the processor holds nobody's registers. *)
Definition switched_out (s : Linux) (next : Incoming) (s' : Linux) : Prop :=
  let r := unpack (current s) in
  exists t c pg, s' = lset per_guest_l pg (lset cpu_l c (lset ctxs_l t s)) /\
    kept_words (per_guest s) pg /\ cpu_wf c /\ ppi_bit (ppi_active c) VTIMER_INTID = false /\
    t = tset (ctxs s) (run_guest r) (idx (run_vcpu r))
          (ctx_release_hw vtr (ctx_save vtr (cpu s) (ctx_of s (run_guest r) (run_vcpu r)))).1.

Lemma wp_ctx_gets {T} g v (f : VcpuCtx -> T) (Q : Linux -> T -> Prop) s k :
  tget (ctxs s) g (idx v) = Some k -> Q s (f k) -> wp (at_vcpu ctxs_l g v (gets f)) Q s.
Proof.
  intros Hk HQ. eapply wp_at_vcpu; [exact Hk|]. wp_step. cbn [lget ctxs_l]. rewrite (tset_id _ _ _ _ Hk).
  by destruct s.
Qed.

Lemma wp_switch_out next s (Q : Linux -> FpCtx * list (list N) -> Prop) : switchable s ->
  names_vcpu NUM_GUESTS (inc_guest next, inc_vcpu next) ->
  (forall s' x, switched_out s next s' -> Q s' x) ->
  wp (switch_out vtr (now_leaving (unpack (current s))) next) Q s.
Proof.
  intros Hs [Hg Hv] HQ. simpl in Hg, Hv. pose proof (sb_deliverable _ Hs) as Hd.
  set (r := unpack (current s)). assert (Hr : on_machine NUM_GUESTS r) by apply Hd.
  destruct (ctx_at s (run_guest r) (run_vcpu r) Hs Hr) as [Hk Hkw].
  set (k := ctx_of s (run_guest r) (run_vcpu r)) in *.
  unfold switch_out, out, inc. cbn [now_leaving out_guest out_vcpu]. do 2 wp_step. wp_step.
  eapply wp_at_vcpu; [exact Hk|]. wp_step.
  set (k1 := ctx_save vtr (cpu s) k). set (k2 := (ctx_release_hw vtr k1).1).
  set (t := tset (ctxs s) (run_guest r) (idx (run_vcpu r)) k2).
  wp_step. apply wp_tally; [apply Hr|by intros [?|?]|]. intros pg1 H1. wp_step.
  eapply wp_at_vcpu; [by eapply tget_tset_eq|].
  eapply (wp_of_Done _ _ _ k2 (ctx_release_hw vtr k1).2); [by rewrite (surjective_pairing (ctx_release_hw vtr k1))|].
  wp_step. apply wp_tally; [apply Hr|by intros [?|?]|]. intros pg2 H2. wp_step.
  destruct (release_forwarded_spec (cpu s)) as (c & e & Ec & (en & ac & ->) & Hbit).
  eapply wp_of_cpu; [exact Ec|]. wp_step. apply wp_tally_if; [apply Hr|by intros [?|?]|]. intros pg3 H3.
  assert (Ht : forall g v, names_vcpu NUM_GUESTS (g, v) -> exists k', tget t g (idx v) = Some k').
  { intros g v Hn. unfold t. rewrite tget_tset. case_decide; [by eexists|].
    destruct (sb_ctxs _ Hs g v Hn) as (k' & E & _). by exists k'. }
  destruct (Ht (inc_guest next) (inc_vcpu next)) as [ki Hki]; [by split|].
  wp_step. eapply wp_ctx_gets; [cbn; rewrite tset_tset; exact Hki|]. wp_step.
  eapply wp_ctx_gets; [cbn; rewrite tset_tset; by eapply tget_tset_eq|]. wp_step.
  apply wp_tally_unless; [done|by intros [?|?]|]. intros pg4 H4. wp_step.
  eapply wp_ctx_gets; [cbn; rewrite tset_tset; exact Hki|]. do 2 wp_step. wp_step.
  apply wp_tally_unless; [done|by intros [?|?]|]. intros pg5 H5. unfold on_cpu. do 2 wp_step. wp_step.
  apply HQ. eexists t, _, pg5. split_and!.
  - cbn. by rewrite tset_tset.
  - do 4 (eapply kept_trans_words; [|done]). exact H1.
  - apply poison_wf. destruct (dl_cpu _ Hd). by split.
  - destruct (same_el2_poison vtr (set_ppi_active ac (set_ppi_enable en (cpu s)))) as (_ & _ & Hac & _).
    unfold ppi_bit. lazymatch goal with |- N.testbit ?a _ = _ => change (ppi_bit a VTIMER_INTID = false) end.
    refine (eq_trans (f_equal (fun a => ppi_bit a VTIMER_INTID) Hac) Hbit).
  - done.
Qed.

Lemma switched_out_switchable s next s' : switchable s -> switched_out s next s' -> switchable s'.
Proof.
  intros Hs (t & c & pg & -> & Hpg & Hc & _ & ->). destruct Hs as [Hd Hk Hg]. split.
  - destruct Hd as [H1 _ H3 H4]. split; [exact H1|exact Hc|exact H3|]. by apply Hpg.
  - intros g v Hn. cbn [ctxs lset per_guest_l cpu_l ctxs_l]. rewrite tget_tset. case_decide as Hx; [|by apply Hk].
    eexists. split; [reflexivity|]. apply release_hw_wf. apply save_holds; [|apply Hd].
    apply ctx_at; [by split|apply Hd].
  - exact Hg.
Qed.

Lemma wp_ask_gic {T} g (m : M VirtGic T) (Q : Linux -> T -> Prop) s d x : vget (vgics s) g = Some d ->
  m (dev d) = Done (dev d) x -> Q s x -> wp (ask_gic g m) Q s.
Proof.
  intros Hd Hm HQ. unfold ask_gic. eapply wp_at_guest; [exact Hd|]. apply wp_zoom. cbn.
  eapply wp_of_Done; [exact Hm|]. cbn. replace (mkDeployedGic (dev d) (traps d) (enables d)) with d by (by destruct d).
  rewrite (vset_id _ _ _ Hd). by destruct s.
Qed.

Lemma holds_same n m k c c' : holds n m k c -> frame c' = frame c -> sysregs c' = sysregs c ->
  ich_lr c' = ich_lr c -> ich_vmcr c' = ich_vmcr c -> ich_apr c' = ich_apr c -> fp_file c' = fp_file c ->
  holds n m k c'.
Proof.
  intros [H1 H2 H3 H4 H5 H6] E1 E2 E3 E4 E5 E6. split; try congruence.
  - intros r. unfold read_reg in *. by rewrite E2.
  - intros i Hi. unfold read_lr in *. rewrite E3. by apply H3.
  - intros g i Hg Hi. unfold read_apr in *. rewrite E5. by apply H5.
Qed.

Lemma drains_same n c c' d d' q q' taken : drains n c c' q q' taken ->
  ich_lr d = ich_lr c -> ich_lr d' = ich_lr c' -> (exists bank, d' = set_ich_lr bank d) ->
  drains n d d' q q' taken.
Proof.
  intros [T K O L Or F _] E E' R.
  assert (Hc : forall i, read_lr d i = read_lr c i) by (intros i; unfold read_lr; by rewrite E).
  assert (Hc' : forall i, read_lr d' i = read_lr c' i) by (intros i; unfold read_lr; by rewrite E').
  split; try done.
  - intros i id Hi. rewrite Hc, Hc'. by apply T.
  - intros i Hi. rewrite Hc, Hc'. by apply K.
  - destruct F as [F|F]; [by left|right]. intros i Hi. rewrite Hc'. by apply F.
Qed.

(** The second half. *)
Definition switched_in (s : Linux) (next : Incoming) (s' : Linux) : Prop :=
  exists k c0 c p pg wd n q q' taken,
    s' = lset word_l wd (lset ticks_read_l n (lset per_guest_l pg (lset pending_l p (lset cpu_l c
      (lset current_l (pack (now_running next)) s))))) /\
    tget (ctxs s) (inc_guest next) (idx (inc_vcpu next)) = Some k /\
    holds (num_list_registers vtr) (num_ap_registers vtr) k c0 /\ drains vtr c0 c q q' taken /\
    frame c = frame c0 /\ sysregs c = sysregs c0 /\ ich_vmcr c = ich_vmcr c0 /\ ich_apr c = ich_apr c0 /\
    fp_file c = fp_file c0 /\ (uie c = true <-> exists id, member q' id) /\
    tget (pending s) (inc_guest next) (idx (inc_vcpu next)) = Some q /\
    tget p (inc_guest next) (idx (inc_vcpu next)) = Some q' /\
    (forall g v, (g, v) <> (inc_guest next, inc_vcpu next) -> tget p g (idx v) = tget (pending s) g (idx v)) /\
    kept_words (per_guest s) pg /\ switchable s' /\
    vttbr_el2 c = per_guest s VTTBR (inc_guest next) /\
    vmpidr_el2 c = guest_mpidr (inc_vcpu next) /\ vpidr_el2 c = midr /\
    ppi_bit (ppi_enable c) VTIMER_INTID = timer_enabled s (inc_guest next) (inc_vcpu next) /\
    ppi_active c = ppi_active (cpu s) /\ cnthp_ctl c = 1.

Lemma wp_switch_in next f a s : switchable s ->
  names_vcpu NUM_GUESTS (inc_guest next, inc_vcpu next) ->
  per_vcpu s VCPU_SEEDED (inc_guest next) (idx (inc_vcpu next)) <> 0 ->
  wp (switch_in b vtr midr freq clock next f a) (fun s' _ => switched_in s next s') s.
Proof.
  intros Hs Hn Hseed. pose proof Hn as [Hg Hv]. simpl in Hg, Hv.
  destruct (ctx_at s _ _ Hs Hn) as [Hk Hkw]. set (k := ctx_of s (inc_guest next) (inc_vcpu next)) in *.
  destruct (sb_gics _ Hs _ Hg) as (d & Hd & Hdw).
  unfold switch_in, inc, on_cpu. wp_step. apply wp_load_v; [done|]. wp_step.
  rewrite (proj2 (N.eqb_neq _ _) Hseed). wp_step. wp_step.
  eapply wp_at_vcpu; [exact Hk|]. wp_step. cbn [lget ctxs_l]. rewrite (tset_id _ _ _ _ Hk).
  wp_step. wp_step.
  destruct (restore_holds vtr k (cpu s) Hkw (dl_cpu _ (sb_deliverable _ Hs))) as (Hho & Hcw & Hel2).
  set (c0 := ctx_restore vtr k (cpu s)) in *.
  wp_step. apply wp_load_g; [done|]. cbn [per_guest lset cpu_l]. do 2 wp_step.
  set (vt := per_guest s VTTBR (inc_guest next)).
  wp_step. apply wp_set_guest_identity. intros wd1. do 2 wp_step. wp_step.
  apply wp_tally_if; [done|by intros [?|?]|]. intros pg1 H1. wp_step.
  apply wp_tally_if; [done|by intros [?|?]|]. intros pg2 H2.
  set (c1 := set_identity (guest_mpidr (inc_vcpu next)) midr (set_vttbr_no_flush vt c0)).
  set (s1 := lset word_l wd1 (lset per_guest_l pg2 (lset cpu_l c1 s))).
  assert (Hd1 : deliverable s1).
  { destruct Hs as [ [D1 _ D3 D4] _ _]. split; [exact D1|by destruct Hcw|exact D3|]. by apply H2, H1. }
  wp_step. eapply wp_mono; [exact (wp_flush vtr _ _ SGIS_DRAINED s1 Hd1 Hn)|]. cbn beta.
  intros s2 m (c2 & p & pg3 & q & q' & taken & armed & -> & Hd2 & Hlp & Hq & Hq' & Hqw & Ho & Hdr & Hpg3 & Harm & ->).
  wp_step. eapply wp_ask_gic; [exact Hd|by apply (enabled_for_Done VCPUS_PER_GUEST)|]. wp_step. wp_step.
  do 2 wp_step. wp_step. apply wp_tally; [done|by intros [?|?]|]. intros pg4 H4. wp_step.
  apply wp_word_if; [intros Q' HQ; by apply wp_fetch_add_w|]. intros wd2. wp_step.
  apply wp_arm_slice; [done|]. intros wd3 n dl. wp_step.
  set (e := enabled_for (dev d) (idx (inc_vcpu next)) VTIMER_INTID).
  set (c3 := set_cnthp dl 1 (set_ppi_enabled VTIMER_INTID e (set_underflow_interrupt armed c2))).
  destruct (dr_rest _ _ _ _ _ _ Hdr) as [bank Hbank]. change (cpu s1) with c1 in *.
  set (c1' := set_cnthp dl 1 (set_ppi_enabled VTIMER_INTID e (set_underflow_interrupt armed c1))).
  assert (Hc3 : c3 = set_ich_lr bank c1') by (subst c2 c3 c1'; by destruct e).
  assert (Hlr : ich_lr c1' = ich_lr c1 /\ ich_lr c3 = ich_lr c2) by (subst c3 c1'; by destruct e).
  destruct Hel2 as (_ & _ & Hac & _).
  assert (Hfin : cpu_wf c3) by (rewrite Hc3; destruct (dl_cpu _ Hd2) as [? ? E3 ? ?]; destruct Hcw;
    subst c1' c2; split; destruct e; try done; exact E3).
  exists k, c1', c3, p, pg4, wd3, n, q, q', taken. split_and!; try (subst c3 c1' c2; destruct e; done).
  - apply (holds_same _ _ k c0); [exact Hho|subst c1'; by destruct e..].
  - apply (drains_same _ _ _ _ _ _ _ _ Hdr); [apply Hlr|apply Hlr|by exists bank].
  - eapply kept_trans_words; [|exact H4]. eapply kept_trans_words; [|eapply counts_kept; [|apply Hd1|exact Hpg3] ].
    + exact (kept_trans_words _ _ _ H1 H2).
    + by intros [?|?].
  - destruct Hs as [ [D1 _ D3 D4] Hcx Hgx]. split; [|exact Hcx|exact Hgx]. split; [|exact Hfin| |].
    + change (on_machine NUM_GUESTS (unpack (pack (now_running next)))). by rewrite unpack_pack.
    + apply Hd2.
    + apply H4, Hd2.
  - rewrite Hc3. subst c1'. unfold timer_enabled. rewrite Hd. fold e. by apply testbit_enable.
Qed.

Lemma switched_both s next s1 s2 : switchable s -> names_vcpu NUM_GUESTS (inc_guest next, inc_vcpu next) ->
  switched_out s next s1 -> switched_in s1 next s2 -> switched vtr midr s next s2.
Proof.
  intros Hs Hn Ho Hi. pose proof (switched_out_switchable s next s1 Hs Ho) as Hs1.
  destruct Ho as (t & c & pg & -> & Hpg & Hc & Hb1 & ->).
  destruct Hi as (k & c0 & c' & p & pg' & wd & m & q & q' & taken & -> & Hk & Hho & Hdr & E1 & E2 & E3 & E4 & E5 &
    Hu & Hq & Hq' & Hp & Hpg' & Hs2 & V1 & V2 & V3 & V4 & V5 & V6).
  pose proof (dl_running _ (sb_deliverable _ Hs)) as Hr.
  destruct (ctx_at s _ _ Hs Hr) as [Hkr _].
  split.
  - done.
  - exact (kept_trans_words _ _ _ Hpg Hpg').
  - cbn [current lset word_l ticks_read_l per_guest_l pending_l cpu_l current_l]. apply unpack_pack, Hn.
  - unfold ctx_of at 1. cbn [ctxs lset word_l ticks_read_l per_guest_l pending_l cpu_l current_l ctxs_l].
    by rewrite (tget_tset_eq _ _ _ _ _ Hkr).
  - intros g v Hne. cbn [ctxs lset word_l ticks_read_l per_guest_l pending_l cpu_l current_l ctxs_l].
    apply tget_tset_ne. intros [-> Hx]. apply Hne. f_equal. destruct v, (run_vcpu (unpack (current s))). simpl in *. by subst.
  - exists c0, q, q', taken. split_and!; try done.
    + apply (eq_ind k (fun z => holds _ _ z c0) Hho). symmetry. exact (f_equal (default ctx_new) Hk).
    + intros r. unfold read_reg. cbn. by rewrite E2.
    + intros g i. unfold read_apr. cbn. by rewrite E4.
  - done.
  - split_and!; try done.
    + cbn. rewrite V1. by apply Hpg; left.
    + cbn [cpu lset word_l ticks_read_l per_guest_l pending_l cpu_l current_l]. by rewrite V5.
  - done.
Qed.

Lemma wp_switch_context next s : switchable s -> names_vcpu NUM_GUESTS (inc_guest next, inc_vcpu next) ->
  per_vcpu s VCPU_SEEDED (inc_guest next) (idx (inc_vcpu next)) <> 0 ->
  wp (switch_context b vtr midr freq clock (now_leaving (unpack (current s))) next)
    (fun s' _ => switched vtr midr s next s') s.
Proof.
  intros Hs Hn Hv. unfold switch_context. wp_step. apply wp_switch_out; [done..|]. intros s1 x Ho.
  eapply wp_mono.
  - apply wp_switch_in; [by apply (switched_out_switchable s next)|done|].
    destruct Ho as (t & c & pg & -> & _). exact Hv.
  - cbn beta. intros s2 [] Hi. by apply (switched_both s next s1 s2).
Qed.
End Switch.

(** ** Properties *)

(** C20: a switch hands the processor over whole. For any state of the guests and any vCPU that
    has a context, it never fails; afterwards every register the program can observe (general,
    system, floating-point, virtual interface, active priorities, list registers up to the
    deferred interrupts the drain adds) is that of the incoming vCPU's saved context, the
    stage-2 root, the identity registers and the physical timer enable are the incoming
    guest's, the forwarded timer is inactive, and the slice is armed; the outgoing vCPU's
    context is exactly what the processor held, with its hardware-mapped interrupts demoted;
    and the contexts and pending sets of all others are untouched. *)
Theorem switch_exact (b : Board) (vtr midr freq : N) (clock : N -> N) (s : Linux) (next : Incoming) :
  overflow_checks b = false -> switchable s -> names_vcpu NUM_GUESTS (inc_guest next, inc_vcpu next) ->
  per_vcpu s VCPU_SEEDED (inc_guest next) (idx (inc_vcpu next)) <> 0 ->
  exists s', switch_context b vtr midr freq clock (now_leaving (unpack (current s))) next s = Done s' tt /\
    switched vtr midr s next s'.
Proof.
  intros Hb Hs Hn Hv.
  destruct (wp_Done _ _ _ (wp_switch_context b vtr midr freq clock Hb next s Hs Hn Hv)) as (s' & [] & E & H).
  by exists s'.
Qed.

(** The boot vCPU of the second guest has been given its entry state. *)
Definition switch_demo : Linux :=
  let s := statics linux_world linux_cpu in
  lset ctxs_l (tset (ctxs s) 1 0 (seed_boot 0x44000000 0x4f000000 SPSR_EL2_LINUX 0))
    (lset per_vcpu_l (fun _ _ _ => 1) s).
Lemma ctx_wf_new : ctx_wf ctx_new.
Proof. split; [done..|]. intros g Hg. assert (g = 0 \/ g = 1) as [-> | ->] by lia; done. Qed.
Lemma seed_boot_wf e x0 p c : ctx_wf (seed_boot e x0 p c).
Proof. split; [done..|]. intros g Hg. assert (g = 0 \/ g = 1) as [-> | ->] by lia; done. Qed.
Lemma statics_switchable w c : cpu_wf c -> switchable (statics w c).
Proof.
  intros Hc. split; [by apply linux_statics_deliverable| |].
  - intros g v [Hg Hv]. exists ctx_new. split; [|apply ctx_wf_new]. cbn. rewrite tget_vrepeat. by rewrite decide_True.
  - intros g Hg. exists gic_new. split; [|apply new_wf]. cbn. rewrite vget_vrepeat. by rewrite decide_True.
Qed.
Lemma switch_demo_switchable : switchable switch_demo.
Proof.
  destruct (statics_switchable linux_world linux_cpu linux_cpu_wf) as [ [H1 H2 H3 H4] H5 H6].
  split; [by split| |done]. intros g v Hn. cbn [switch_demo ctxs lset ctxs_l]. rewrite tget_tset.
  case_decide; [|by apply H5]. eexists. split; [reflexivity|]. apply seed_boot_wf.
Qed.

Theorem switch_exact_witness :
  exists s', switch_context linux_board linux_vtr 0x410fd083 linux_freq (fun k => 1000 * k)
      (now_leaving (at_boot 0)) (incoming_at 1 boot) switch_demo = Done s' tt /\
    read_reg ElrEl2 (cpu s') = 0x44000000 /\ switched linux_vtr 0x410fd083 switch_demo (incoming_at 1 boot) s'.
Proof.
  destruct (switch_exact linux_board linux_vtr 0x410fd083 linux_freq (fun k => 1000 * k) switch_demo
    (incoming_at 1 boot) eq_refl switch_demo_switchable) as (s' & E & H); [split; reflexivity|discriminate|].
  exists s'. split; [exact E|]. split; [|exact H]. vm_compute in E. injection E as <-. reflexivity.
Defined.
