(* ===== verification/Handover.v ===== *)
(** * The scheduler under the real guests

    The scheduling calls of [Linux] on the model of the hypervisor: what each does to the run
    states of the guests' vCPUs, and that none is refused from the states the handlers reach. *)

From Stdlib Require Import NArith Lia.
From stdpp Require Import base numbers list option.
From S2P Require Import Bits.
From S2P Require Import Evtchn.
From S2P Require Import Sched.
From S2P Require Import Hypervisor.
From S2P Require Import HvInvariant.
From S2P Require Import HvEvents.
From S2P Require Import HvSafety.
From S2P Require Import Partition.
From S2P Require Import Metal.
From S2P Require Import Teardown.
From S2P Require Import PendingSet.
From S2P Require Import CpuState.
From S2P Require Import Role.
From S2P Require Import Linux.
From S2P Require Import LinuxTrap.
From S2P Require Import Deliver.
From S2P Require Import Switch.
From S2P Require Import Prelude.
#[local] Open Scope N_scope.

(** ** Specification *)

(** What the teardown funnel needs of the world. *)
Record funnel_ok (b : Board) (w : World) : Prop := mkFunnelOk {
  fo_inv : HInv (model w);
  fo_maps : vlen (Grant.maps (grant (model w))) <= u32_max;
  fo_shadow : vlen (Metal.allocated w) = num_frames b;
  fo_tenants : tenants_ok w;
}.

(** The run state of a vCPU of a guest: the domain of a slot is the next one. *)
Definition guest_dom (g : N) : DomId := g + 1.
Definition run_state (w : World) (g : N) (v : VcpuIdx) : option RunState :=
  Sched.state_of (sched (model w)) (guest_dom g) (idx v).

(** The model's side of the machine while the vCPU [who], if any, has the physical CPU. *)
Record sched_ok (b : Board) (w : World) (who : option (N * VcpuIdx)) : Prop := mkSchedOk {
  so_funnel : funnel_ok b w;
  so_live : forall g, g < NUM_GUESTS -> vget (life (model w)) (guest_dom g) = Some Hypervisor.Live;
  so_cpu : 0 < pcpu_count (sched (model w));
  so_vcpus : forall g v, names_vcpu NUM_GUESTS (g, v) ->
    exists x, vcpu_opt (sched (model w)) (guest_dom g) (idx v) = Some x /\ mask_permits (affinity x) PCPU0 = true;
  so_quiet : forall g v, names_vcpu NUM_GUESTS (g, v) ->
    Evtchn.has_deliverable_for (evtchn (model w)) (guest_dom g) (idx v) = false;
  so_running : forall d c p, Sched.state_of (sched (model w)) d c = Some (Sched.Running p) <->
    p = PCPU0 /\ exists g v, who = Some (g, v) /\ d = guest_dom g /\ c = idx v;
  so_who : forall g v, who = Some (g, v) -> names_vcpu NUM_GUESTS (g, v);
}.

(** Exactly the run state of one vCPU changed. *)
Definition moved (w w' : World) (g : N) (v : VcpuIdx) (st : RunState) : Prop :=
  forall g' v', names_vcpu NUM_GUESTS (g', v') ->
    run_state w' g' v' = if decide (g' = g /\ v' = v) then Some st else run_state w g' v'.

(** ** Lemmas *)

(** *** The funnel on a scheduling call *)

Lemma handle_exact caller c (m : M Sched.System (result SchedError unit)) hv sc' :
  HInv hv -> vlen (Grant.maps (grant hv)) <= u32_max -> vget (life hv) caller = Some Hypervisor.Live ->
  handle caller c hv = call sched_l m done ESched hv -> m (sched hv) = Done sc' (Ok tt) ->
  exists r, Hypervisor.dispatch caller c hv = Done (set_sched sc' hv) (Ok r) /\ HInv (set_sched sc' hv).
Proof.
  intros HI Hm Hl Hh Hrun. exists (done tt).
  assert (Hc : handle caller c hv = Done (set_sched sc' hv) (Ok (done tt))).
  { rewrite Hh. unfold call, bind, zoom, ret. change (lget sched_l hv) with (sched hv). by rewrite Hrun. }
  assert (Hr : route caller c hv = Done (set_sched sc' hv) (Ok (done tt))).
  { assert (Hin : in_range hv caller).
    { unfold in_range. rewrite <- (d_life _ (h_dims _ HI)). by eapply vget_Some_lt. }
    unfold route, tbind, bind, get, ensure, ok, ret. rewrite decide_True by done.
    unfold life_at, bind, get. rewrite (index_Done _ _ _ _ Hl). rewrite decide_True by done. exact Hc. }
  destruct (wp_Done _ _ _ (wp_route hv caller c HI Hm)) as (s' & r & E & Hk & _).
  rewrite Hr in E. injection E as <- <-. destruct Hk as (HI' & _). split; [|done].
  unfold Hypervisor.dispatch, bind. rewrite Hr.
  destruct (wp_Done _ _ _ (wp_check_cross (set_sched sc' hv) (fun s _ => s = set_sched sc' hv) HI' eq_refl))
    as (s2 & [] & E2 & ->). by rewrite E2.
Qed.

(** The funnel around it: the model steps, memory and devices keep what the funnel keeps. *)
Lemma wp_sched_on b caller c (m : M Sched.System (result SchedError unit)) sc' (Q : Linux -> unit -> Prop) s :
  windows_ok b -> funnel_ok b (world s) -> vget (life (model (world s))) caller = Some Hypervisor.Live ->
  handle caller c (model (world s)) = call sched_l m done ESched (model (world s)) ->
  m (sched (model (world s))) = Done sc' (Ok tt) ->
  (forall w', model w' = set_sched sc' (model (world s)) -> funnel_ok b w' -> Q (lset world_l w' s) tt) ->
  wp (sched_on b caller c) Q s.
Proof.
  intros Hwin [HI Hm Hsh Ht] Hl Hh Hrun HQ.
  destruct (handle_exact caller c m _ sc' HI Hm Hl Hh Hrun) as (r & Hd & HI').
  destruct (dispatch_run b caller c (world s) Hwin HI Hm Hsh Ht) as (w' & r' & E & Ed & _ & Ht' & _ & Hr).
  rewrite Hd in Ed. injection Ed as Hmodel <-.
  unfold sched_on. wp_step. apply wp_zoom. eapply wp_of_Done; [exact E|]. cbn. wp_step. apply HQ; [done|].
  destruct Hr as [Hs _]. split.
  - by rewrite <- Hmodel.
  - by rewrite <- Hmodel.
  - rewrite (sc_shadow _ _ _ Hs), vlen_shadow. exact Hsh.
  - exact Ht'.
Qed.

Lemma guest_dom_inj g g' : guest_dom g = guest_dom g' -> g = g'.
Proof. unfold guest_dom. lia. Qed.
Lemma idx_inj v v' : idx v = idx v' -> v = v'.
Proof. destruct v, v'. simpl. by intros ->. Qed.

(** A step of the scheduler on the vCPU [(g, v)], which gives up the CPU, takes it or is off it
    before and after. *)
Lemma sched_moved b w w' sc' who who' g v x :
  sched_ok b w who -> names_vcpu NUM_GUESTS (g, v) ->
  model w' = set_sched sc' (model w) -> funnel_ok b w' ->
  step_at (guest_dom g) (idx v) x (sched (model w)) sc' -> mask_permits (affinity x) PCPU0 = true ->
  (state x = Sched.Running PCPU0 /\ who = None /\ who' = Some (g, v)) \/
    ((forall p, state x <> Sched.Running p) /\
     (who = Some (g, v) /\ who' = None \/ who <> Some (g, v) /\ who' = who)) ->
  sched_ok b w' who' /\ moved w w' g v (state x).
Proof.
  intros [F L C V Q R W] Hn Hm HF Hst Haff Hcase.
  assert (Hs : forall d c, Sched.state_of (sched (model w')) d c =
    if decide (d = guest_dom g /\ c = idx v) then Some (state x) else Sched.state_of (sched (model w)) d c).
  { intros d c. rewrite Hm. by apply sched_step_at_state_of. }
  pose proof Hst as (_ & (_ & Hpc & _) & Hl). split.
  - split; rewrite ?Hm; cbn [life sched evtchn set_sched]; try done.
    + by rewrite Hpc.
    + intros g' v' Hn'. rewrite Hl. case_decide as Hd; [by exists x|]. by apply V.
    + intros d c p. change (Sched.state_of sc' d c) with (Sched.state_of (sched (set_sched sc' (model w))) d c).
      rewrite <- Hm, Hs. case_decide as Hd.
      * destruct Hd as [-> ->]. destruct Hcase as [(Hx & _ & ->)|[Hx Hw] ].
        -- rewrite Hx. split; [intros [= <-]; split; [done|by exists g, v]|]. by intros [-> _].
        -- split; [intros [= H]; by destruct (Hx p)|].
           intros (_ & g' & v' & -> & Hg%guest_dom_inj & Hv%idx_inj). subst.
           exfalso. destruct Hw as [ [_ H]|[H1 H2] ]; [done|]. by destruct H1.
      * rewrite R. split; intros (-> & g' & v' & Hw & -> & ->); (split; [done|]); exists g', v'.
        -- split_and!; try done. destruct Hcase as [(_ & -> & _)|[_ [ [-> _]|[_ ->] ] ] ]; [done| |done].
           injection Hw as -> ->. by destruct Hd.
        -- split_and!; try done. destruct Hcase as [(_ & _ & ->)|[_ [ [_ ->]|[_ ->] ] ] ]; [|done|done].
           injection Hw as -> ->. by destruct Hd.
    + destruct Hcase as [(_ & _ & ->)|[_ [ [_ ->]|[_ ->] ] ] ]; [by intros ? ? [= <- <-]|done|done].
  - intros g' v' Hn'. unfold run_state. rewrite Hs. repeat case_decide; try done.
    + destruct H as [Hg%guest_dom_inj Hv%idx_inj]. by destruct H0.
    + destruct H0 as [-> ->]. by destruct H.
Qed.

Lemma run_state_vcpu b w who g v : sched_ok b w who -> names_vcpu NUM_GUESTS (g, v) ->
  exists x, vcpu_opt (sched (model w)) (guest_dom g) (idx v) = Some x /\ run_state w g v = Some (state x) /\
    mask_permits (affinity x) PCPU0 = true.
Proof.
  intros Hs Hn. destruct (so_vcpus _ _ _ Hs g v Hn) as (x & Hx & Ha). exists x. split_and!; [done| |done].
  unfold run_state, Sched.state_of. by rewrite Hx.
Qed.

Lemma leave_affinity now x : affinity (leave now x) = affinity x.
Proof. unfold leave. by destruct (state x). Qed.

Lemma full_permits n : 0 < n -> mask_permits (full_mask n) PCPU0 = true.
Proof.
  intros Hn. apply mask_permits_testbit. split; [done|]. unfold full_mask, PCPU0. case_decide; [done|].
  replace (N.shiftl 1 n - 1) with (N.ones n) by (unfold N.ones; lia). rewrite testbit_ones. by apply N.ltb_lt.
Qed.

(** *** The calls *)

Section Calls.
Context (b : Board) (Hwin : windows_ok b).

(** What a call on the vCPU [(g, v)] leaves: the machine's own state is untouched. *)
Definition called (s : Linux) (g : N) (v : VcpuIdx) (st : RunState) (who' : option (N * VcpuIdx)) (s' : Linux) : Prop :=
  exists w', s' = lset world_l w' s /\ sched_ok b w' who' /\ moved (world s) w' g v st.

Lemma model_idx_id g v : names_vcpu NUM_GUESTS (g, v) -> model_idx v = idx v.
Proof. intros [_ Hv]. simpl in Hv. unfold model_idx. apply as_u32_id. unfold VCPUS_PER_GUEST in Hv. unfold u32_max. lia. Qed.

Lemma wp_call_moved s who who' g v st c (m : M Sched.System (result SchedError unit)) x sc' :
  sched_ok b (world s) who -> names_vcpu NUM_GUESTS (g, v) ->
  handle (guest_dom g) c (model (world s)) = call sched_l m done ESched (model (world s)) ->
  m (sched (model (world s))) = Done sc' (Ok tt) ->
  step_at (guest_dom g) (idx v) x (sched (model (world s))) sc' -> state x = st ->
  mask_permits (affinity x) PCPU0 = true ->
  (st = Sched.Running PCPU0 /\ who = None /\ who' = Some (g, v)) \/
    ((forall p, st <> Sched.Running p) /\
     (who = Some (g, v) /\ who' = None \/ who <> Some (g, v) /\ who' = who)) ->
  wp (sched_on b (guest_dom g) c) (fun s' _ => called s g v st who' s') s.
Proof.
  intros Hs Hn Hh Hm Hst <- Ha Hc.
  eapply (wp_sched_on b _ c m sc'); [done|apply Hs|by apply Hs, Hn|done|done|].
  intros w' Hw' HF. exists w'. split; [done|]. by eapply sched_moved.
Qed.

Lemma who_running w g v : sched_ok b w (Some (g, v)) -> run_state w g v = Some (Sched.Running PCPU0).
Proof. intros Hs. apply (so_running _ _ _ Hs). split; [done|by exists g, v]. Qed.

Lemma not_who w who g v st : sched_ok b w who -> run_state w g v = Some st ->
  (forall p, st <> Sched.Running p) -> who <> Some (g, v).
Proof.
  intros Hs E Hst ->. pose proof (who_running _ _ _ Hs) as H. rewrite E in H. injection H as H.
  by destruct (Hst PCPU0).
Qed.

Lemma wp_call_preempt s g v now :
  sched_ok b (world s) (Some (g, v)) ->
  wp (sched_on b (guest_dom g) (SchedPreempt (model_idx v) now))
    (fun s' _ => called s g v Runnable None s') s.
Proof.
  intros Hs. pose proof (so_who _ _ _ Hs g v eq_refl) as Hn.
  destruct (run_state_vcpu b _ _ g v Hs Hn) as (x & Hx & Hrs & Ha). pose proof (who_running _ _ _ Hs) as Hr.
  rewrite Hrs in Hr. injection Hr as Hr.
  pose proof (ev_sched _ _ (h_events _ (fo_inv _ _ (so_funnel _ _ _ Hs)))) as HI.
  destruct (wp_Done _ _ _ (wp_preempt (guest_dom g) (idx v) now _ HI)) as (sc' & [ []|e] & E & H).
  - destruct H as (y & p & Hy & _ & Hst). rewrite Hx in Hy. injection Hy as <-.
    rewrite (model_idx_id g v Hn). eapply (wp_call_moved s (Some (g, v)) None g v _ _ _ _ sc' Hs Hn); [reflexivity|exact E|exact Hst|reflexivity| |].
    + cbn. by rewrite leave_affinity.
    + right. split; [done|]. by left.
  - destruct H as [_ H]. destruct (H PCPU0). unfold Sched.state_of. by rewrite Hx, <- Hr.
Qed.

(** The record behind a run state, and the scheduler's own invariant. *)
Lemma at_state s who g v st : sched_ok b (world s) who -> names_vcpu NUM_GUESTS (g, v) ->
  run_state (world s) g v = Some st ->
  Sched.Inv (sched (model (world s))) /\ model_idx v = idx v /\
  exists x, vcpu_opt (sched (model (world s))) (guest_dom g) (idx v) = Some x /\ state x = st /\
    mask_permits (affinity x) PCPU0 = true.
Proof.
  intros Hs Hn E. split_and!; [apply (h_events _ (fo_inv _ _ (so_funnel _ _ _ Hs)))|by eapply model_idx_id|].
  destruct (run_state_vcpu b _ _ g v Hs Hn) as (x & Hx & Hrs & Ha). exists x. split_and!; [done|congruence|done].
Qed.

Lemma admit_rejects d c s s' e : admit_vcpu d c s = Done s' (Err e) -> Sched.state_of s d c <> Some Offline.
Proof.
  intros E (v & Hv & Hst)%state_of_Some. apply vcpu_Ok in Hv. revert E.
  unfold admit_vcpu, tbind, bind, get, lift, ret, ensure, ok, err, modify. rewrite Hv, decide_True by done.
  simpl. by destruct (check_invariants _) as [s2 []|].
Qed.

Lemma wp_call_admit s who g v : sched_ok b (world s) who -> names_vcpu NUM_GUESTS (g, v) ->
  run_state (world s) g v = Some Offline ->
  wp (sched_on b (guest_dom g) (SchedAdmit (model_idx v))) (fun s' _ => called s g v Runnable who s') s.
Proof.
  intros Hs Hn Hr. destruct (at_state s who g v _ Hs Hn Hr) as (HI & -> & x & Hx & Hst & Ha).
  destruct (wp_Done _ _ _ (wp_admit_vcpu (guest_dom g) (idx v) _ HI)) as (sc' & [ []|e] & E & H).
  - destruct H as (y & Hy & _ & Hstep). rewrite Hx in Hy. injection Hy as <-.
    eapply (wp_call_moved s who who g v _ _ _ _ sc' Hs Hn); [reflexivity|exact E|exact Hstep|reflexivity|exact Ha|].
    right. split; [done|]. right. split; [|done]. eapply not_who; [done..|]. done.
  - by destruct (admit_rejects _ _ _ _ _ E).
Qed.

(** The pCPU is free when nobody has it. *)
Lemma cpu_free w : sched_ok b w None -> Sched.Inv (sched (model w)) -> occupant (sched (model w)) PCPU0 = None.
Proof.
  intros Hs HI. unfold occupant. destruct (vget (pcpus (sched (model w))) PCPU0) as [ [ [d c]|]|] eqn:E; try done.
  destruct (inv_occupant _ HI _ _ _ E) as (x & Hx & Hst).
  destruct (proj1 (so_running _ _ _ Hs d c PCPU0)) as (_ & g & v & ? & _); [|done].
  apply state_of_Some. by exists x.
Qed.

Lemma wp_call_run s g v now : sched_ok b (world s) None -> names_vcpu NUM_GUESTS (g, v) ->
  run_state (world s) g v = Some Runnable ->
  wp (sched_on b (guest_dom g) (scheduler_run (incoming_at g v) now))
    (fun s' _ => called s g v (Sched.Running PCPU0) (Some (g, v)) s') s.
Proof.
  intros Hs Hn Hr. destruct (at_state s None g v _ Hs Hn Hr) as (HI & Hi & x & Hx & Hst & Ha).
  unfold scheduler_run. cbn [incoming_at inc_vcpu]. rewrite Hi.
  destruct (wp_Done _ _ _ (wp_run (guest_dom g) (idx v) PCPU0 now _ HI)) as (sc' & [ []|e] & E & H).
  - destruct H as (y & Hy & _ & _ & _ & _ & Hstep). rewrite Hx in Hy. injection Hy as <-.
    eapply (wp_call_moved s None (Some (g, v)) g v _ _ _ _ sc' Hs Hn); [reflexivity|exact E|exact Hstep|reflexivity|exact Ha|].
    by left.
  - destruct (run_rejects _ _ _ _ _ _ _ E). split_and!.
    + unfold Sched.state_of. by rewrite Hx, <- Hst.
    + apply Hs.
    + by apply cpu_free.
    + unfold affinity_permits. rewrite vcpu_opt_tget in Hx. by rewrite (proj2 (vcpu_Ok _ _ _ _) Hx).
Qed.

Lemma wp_call_block s g v now : sched_ok b (world s) (Some (g, v)) ->
  wp (sched_on b (guest_dom g) (SchedBlock (model_idx v) now)) (fun s' _ => called s g v Blocked None s') s.
Proof.
  intros Hs. pose proof (so_who _ _ _ Hs g v eq_refl) as Hn. pose proof (who_running _ _ _ Hs) as Hr.
  destruct (at_state s _ g v _ Hs Hn Hr) as (HI & -> & x & Hx & Hst & Ha).
  destruct (wp_Done _ _ _ (wp_block (guest_dom g) (idx v) now _ HI)) as (sc' & [ []|e] & E & H).
  - destruct H as (y & Hy & _ & Hstep). rewrite Hx in Hy. injection Hy as <-.
    eapply (wp_call_moved s (Some (g, v)) None g v _ _ _ _ sc' Hs Hn); [|exact E|exact Hstep|reflexivity|cbn; by rewrite leave_affinity|].
    + cbn [handle]. unfold sched_block, bind at 1, get. rewrite (so_quiet _ _ _ Hs g v Hn). by rewrite andb_false_r.
    + right. split; [done|]. by left.
  - destruct H as (_ & H & _). destruct (H PCPU0). unfold Sched.state_of. by rewrite Hx, <- Hst.
Qed.

Lemma wp_call_wake s who g v : sched_ok b (world s) who -> names_vcpu NUM_GUESTS (g, v) ->
  run_state (world s) g v = Some Blocked ->
  wp (sched_on b (guest_dom g) (SchedWake (model_idx v))) (fun s' _ => called s g v Runnable who s') s.
Proof.
  intros Hs Hn Hr. destruct (at_state s who g v _ Hs Hn Hr) as (HI & -> & x & Hx & Hst & Ha).
  destruct (wp_Done _ _ _ (wp_wake (guest_dom g) (idx v) _ HI)) as (sc' & [ []|e] & E & H).
  - destruct H as (y & Hy & _ & Hstep). rewrite Hx in Hy. injection Hy as <-.
    eapply (wp_call_moved s who who g v _ _ _ _ sc' Hs Hn); [reflexivity|exact E|exact Hstep|reflexivity|exact Ha|].
    right. split; [done|]. right. split; [|done]. eapply not_who; [done..|]. done.
  - destruct H as [_ H]. destruct H. unfold Sched.state_of. by rewrite Hx, <- Hst.
Qed.

Lemma wp_call_offline s who g v now st : sched_ok b (world s) who -> names_vcpu NUM_GUESTS (g, v) ->
  run_state (world s) g v = Some st -> st <> Offline ->
  wp (sched_on b (guest_dom g) (SchedOffline (model_idx v) now))
    (fun s' _ => called s g v Offline (if decide (who = Some (g, v)) then None else who) s') s.
Proof.
  intros Hs Hn Hr Hne. destruct (at_state s who g v _ Hs Hn Hr) as (HI & -> & x & Hx & Hst & Ha).
  destruct (wp_Done _ _ _ (wp_offline (guest_dom g) (idx v) now _ HI)) as (sc' & [ []|e] & E & H).
  - destruct H as (y & Hy & _ & Hstep).
    eapply (wp_call_moved s who _ g v _ _ _ _ sc' Hs Hn); [reflexivity|exact E|exact Hstep|reflexivity|apply full_permits, Hs|].
    right. split; [done|]. case_decide; [by left|by right].
  - destruct H as [_ H]. unfold Sched.state_of in H. rewrite Hx in H. destruct H as [H|H]; [|done].
    injection H as H. congruence.
Qed.
End Calls.
