(* ===== verification/Guests.v ===== *)
(** * The machine that runs the guests keeps running — [hv-metal/src/linux.rs]

    The invariant of the machine between two traps, the handovers that keep it, and the traps
    and interrupts that do. *)

From Stdlib Require Import NArith Lia.
From stdpp Require Import base numbers list option.
From S2P Require Import Bits.
From S2P Require Import Sched.
From S2P Require Import Hypervisor.
From S2P Require Import Pl011.
From S2P Require Import Gicv3.
From S2P Require Import Abort.
From S2P Require Import Partition.
From S2P Require Import Metal.
From S2P Require Import Teardown.
From S2P Require Import PendingSet.
From S2P Require Import CpuState.
From S2P Require Import Role.
From S2P Require Import Console.
From S2P Require Import Linux.
From S2P Require Import LinuxTrap.
From S2P Require Import Deliver.
From S2P Require Import Switch.
From S2P Require Import Handover.
From S2P Require Import Prelude.
#[local] Open Scope N_scope.

(** ** Specification *)

#[export] Instance OwnVcpu_eq_dec : EqDecision OwnVcpu.
Proof. solve_decision. Defined.

(** The emulated devices, the saved contexts and the processor: what no step may break. *)
Definition uart_ok (u : DeployedPl011) : Prop :=
  Pl011.needle (Linux.needle u) = NEEDLE /\ (saw (Linux.needle u) = false -> at_ (Linux.needle u) < vlen NEEDLE).
Record devices_ok (s : Linux) : Prop := mkDevicesOk {
  dv_switch : switchable s;
  dv_uarts : forall g, g < NUM_GUESTS -> exists u, vget (uarts s) g = Some u /\ uart_ok u;
  dv_serial : console_wf NUM_GUESTS (con (serial s));
  dv_live : ended s = false;
}.

(** The machine while the vCPU [who], if any, has the physical CPU. *)
Record guests_ok (b : Board) (s : Linux) (who : option (N * VcpuIdx)) : Prop := mkGuestsOk {
  go_sched : sched_ok b (world s) who;
  go_seeded : forall g v, names_vcpu NUM_GUESTS (g, v) -> run_state (world s) g v <> Some Offline ->
    per_vcpu s VCPU_SEEDED g (idx v) <> 0;
  go_devices : devices_ok s;
}.

(** No vCPU of a guest that was retired is ever a candidate again. *)
Definition retired (s : Linux) : Prop :=
  forall g v, names_vcpu NUM_GUESTS (g, v) -> per_guest s RETIREMENT g <> 0 ->
    run_state (world s) g v = Some Offline.

(** Between two traps: the vCPU the processor executes is the one the model has on it. *)
Definition the_running (s : Linux) : option (N * VcpuIdx) :=
  Some (run_guest (unpack (current s)), run_vcpu (unpack (current s))).
Record linux_ok (b : Board) (s : Linux) : Prop := mkLinuxOk {
  lo_guests : guests_ok b s (the_running s);
  lo_retired : retired s;
}.

(** Whether a guest is retired, and why, is as it was, and no vCPU was taken off. *)
Definition same_fates (s s' : Linux) : Prop :=
  forall g, per_guest s' RETIREMENT g = per_guest s RETIREMENT g.
Definition stands (s s' : Linux) : Prop := forall g v, names_vcpu NUM_GUESTS (g, v) ->
  run_state (world s') g v = Some Offline -> run_state (world s) g v = Some Offline.
Definition level (s s' : Linux) : Prop := forall g v, names_vcpu NUM_GUESTS (g, v) ->
  run_state (world s') g v = Some Offline <-> run_state (world s) g v = Some Offline.
Definition fates (s s' : Linux) : Prop := same_fates s s' /\ stands s s'.

(** A step that leaves alone who runs, who is retired and who has a context. *)
Record mild (s s' : Linux) : Prop := mkMild {
  mi_devices : devices_ok s -> devices_ok s';
  mi_current : current s' = current s;
  mi_fates : same_fates s s';
  mi_seeded : forall g v, per_vcpu s VCPU_SEEDED g v <> 0 -> per_vcpu s' VCPU_SEEDED g v <> 0;
}.
Definition quiet (s s' : Linux) : Prop := mild s s' /\ world s' = world s.

(** A guest was retired, and the others' fates are as they were. *)
Record condemned (g : N) (s s' : Linux) : Prop := mkCondemned {
  cd_retired : per_guest s' RETIREMENT g <> 0;
  cd_others : forall g', g' <> g -> per_guest s' RETIREMENT g' = per_guest s RETIREMENT g';
  cd_stand : forall g' v, g' <> g -> names_vcpu NUM_GUESTS (g', v) ->
    run_state (world s') g' v = Some Offline -> run_state (world s) g' v = Some Offline;
}.
(** Nothing is left to run. *)
Record idle_ok (b : Board) (s : Linux) : Prop := mkIdleOk {
  io_guests : guests_ok b s None;
  io_retired : retired s;
  io_offline : forall g v, names_vcpu NUM_GUESTS (g, v) -> run_state (world s) g v = Some Offline;
}.

(** The first runnable vCPU of the succession. *)
Definition picks (w : World) (p : N * VcpuIdx) : option Incoming :=
  if decide (run_state w p.1 p.2 = Some Runnable) then Some (incoming_at p.1 p.2) else None.
Definition next_of (w : World) (cur : Running) : option Incoming :=
  first_some (picks w) (rotation cur NUM_GUESTS).

(** The first vCPU of the succession that was not taken off. *)
Definition successor (w : World) (cur : Running) : option (N * VcpuIdx) :=
  first_some (fun p => if decide (run_state w p.1 p.2 = Some Offline) then None else Some p)
    (rotation cur NUM_GUESTS).

(** ** Lemmas *)

Lemma elem_of_rotation cur p : on_machine NUM_GUESTS cur -> p ∈ rotation cur NUM_GUESTS -> names_vcpu NUM_GUESTS p.
Proof. intros Hc. rewrite rotation_candidates. intros (k & -> & _)%list_elem_of_fmap. by apply candidate_names. Qed.

Lemma fates_trans s1 s2 s3 : fates s1 s2 -> fates s2 s3 -> fates s1 s3.
Proof. intros [H1 S1] [H2 S2]. split; [intros g; by rewrite (H2 g)|]. intros g v Hn E. by apply S1, S2. Qed.
Lemma condemned_fates g s1 s2 s3 : condemned g s1 s2 -> fates s2 s3 -> condemned g s1 s3.
Proof.
  intros [H1 H2 H3] [Hf Hs]. split; [by rewrite Hf|intros g' Hg; rewrite Hf; by apply H2|].
  intros g' v Hg Hn E. by apply H3, Hs.
Qed.
Lemma moved_stands s s' g v st : moved (world s) (world s') g v st -> st <> Offline -> stands s s'.
Proof. intros Hm Hst g' v' Hn. rewrite (Hm _ _ Hn). case_decide; congruence. Qed.
Lemma moved_level s s' g v st : moved (world s) (world s') g v st -> st <> Offline ->
  run_state (world s) g v <> Some Offline -> level s s'.
Proof.
  intros Hm Hst Hne g' v' Hn. rewrite (Hm _ _ Hn). case_decide as Hd; [|done]. destruct Hd as [-> ->].
  split; [by intros [= ?]|intros E; by destruct Hne].
Qed.
Lemma level_stands s s' : level s s' -> stands s s'.
Proof. intros H g v Hn. by apply H. Qed.
Lemma level_trans s1 s2 s3 : level s1 s2 -> level s2 s3 -> level s1 s3.
Proof. intros H1 H2 g v Hn. by rewrite (H2 _ _ Hn), (H1 _ _ Hn). Qed.
Lemma level_world s s' : world s' = world s -> level s s'.
Proof. intros E g v _. by rewrite E. Qed.
Lemma mild_refl s : mild s s.
Proof. by split. Qed.
Lemma mild_trans s1 s2 s3 : mild s1 s2 -> mild s2 s3 -> mild s1 s3.
Proof. intros [D1 C1 F1 E1] [D2 C2 F2 E2]. split; [auto|congruence|intros g; by rewrite (F2 g)|auto]. Qed.
Lemma quiet_fates s s' : quiet s s' -> fates s s'.
Proof. intros [Hm Ew]. split; [apply Hm|]. intros g v _. by rewrite Ew. Qed.
Lemma quiet_refl s : quiet s s.
Proof. split; [apply mild_refl|done]. Qed.
Lemma quiet_trans s1 s2 s3 : quiet s1 s2 -> quiet s2 s3 -> quiet s1 s3.
Proof. intros [M1 W1] [M2 W2]. split; [by eapply mild_trans|congruence]. Qed.

(** The parts of the state the invariant of the devices is about. *)
Lemma devices_same s s' : deliverable s' -> ctxs s' = ctxs s -> vgics s' = vgics s -> uarts s' = uarts s ->
  serial s' = serial s -> ended s' = ended s -> devices_ok s -> devices_ok s'.
Proof.
  intros Hd Ec Ev Eu Es Ee [ [_ K G] U C L]. split; [split; [done|by rewrite Ec|by rewrite Ev]|..].
  - by rewrite Eu.
  - by rewrite Es.
  - by rewrite Ee.
Qed.

Lemma deliverable_same s s' : current s' = current s -> cpu s' = cpu s -> pending s' = pending s ->
  per_guest s' = per_guest s -> devices_ok s -> deliverable s'.
Proof.
  intros E1 E2 E3 E4 [ [ [D1 D2 D3 D4] _ _] _ _ _]. split; [by rewrite E1|by rewrite E2|by rewrite E3|by rewrite E4].
Qed.

(** A step on the processor, the pending sets and the tallies. *)
Lemma quiet_after c p pg s : (devices_ok s -> deliverable (after c p pg s)) ->
  (forall g, pg RETIREMENT g = per_guest s RETIREMENT g) -> quiet s (after c p pg s).
Proof.
  intros Hd Hf. split; [|done]. split; [|done|done|done].
  intros H. apply (devices_same s); [by apply Hd|done..].
Qed.
Lemma quiet_words pg s : kept_words (per_guest s) pg -> quiet s (lset per_guest_l pg s).
Proof.
  intros [Hl Hb]. apply (quiet_after (cpu s) (pending s) pg s).
  - intros [ [D _ _] _ _ _]. apply deliverable_after; [done|apply D..|apply Hb, D].
  - intros g. apply Hl. by right.
Qed.
Lemma quiet_cpu c s : (cpu_wf (cpu s) -> cpu_wf c) -> quiet s (lset cpu_l c s).
Proof.
  intros Hc. apply (quiet_after c (pending s) (per_guest s) s); [|done].
  intros [ [D _ _] _ _ _]. apply deliverable_after; [done|apply Hc, D|apply D|apply D].
Qed.
Lemma quiet_store_w wd s : quiet s (lset word_l wd s).
Proof. split; [|done]. split; [|done..]. intros H. apply (devices_same s); [by apply (deliverable_same s)|done..]. Qed.
Lemma quiet_ticks n s : quiet s (lset ticks_read_l n s).
Proof. split; [|done]. split; [|done..]. intros H. apply (devices_same s); [by apply (deliverable_same s)|done..]. Qed.
Lemma mild_world w s : mild s (lset world_l w s).
Proof. split; [|done..]. intros H. apply (devices_same s); [by apply (deliverable_same s)|done..]. Qed.

Lemma mild_ok b s s' who who' : mild s s' -> guests_ok b s who -> sched_ok b (world s') who' ->
  (forall g v, names_vcpu NUM_GUESTS (g, v) -> run_state (world s') g v <> Some Offline ->
     run_state (world s) g v <> Some Offline) ->
  guests_ok b s' who'.
Proof.
  intros Hm [_ Hse Hd] Hs Hst. pose proof Hm as [Hdv _ _ Ese]. split; [done| |by apply Hdv].
  intros g v Hn Hr. by apply Ese, Hse; [|apply Hst].
Qed.

Lemma wp_fetch_add_v w g v (Q : Linux -> unit -> Prop) s : names_vcpu NUM_GUESTS (g, v) -> w <> VCPU_SEEDED ->
  (forall s', quiet s s' -> Q s' tt) -> wp (fetch_add_v w g v) Q s.
Proof.
  intros Hn Hw HQ. unfold fetch_add_v. wp_step. apply wp_load_v; [done|].
  unfold store_v. wp_step. destruct Hn as [Hg Hv]. simpl in Hg, Hv. unfold in_vcpu.
  rewrite (proj2 (N.ltb_lt _ _) Hg), (proj2 (N.ltb_lt _ _) Hv). cbn [andb]. wp_step. wp_step.
  apply HQ. split; [|done]. split; [|done|done|].
  - intros H. apply (devices_same s); [by apply (deliverable_same s)|done..].
  - intros g' v'. cbn. by rewrite decide_False by (intros (H & _); congruence).
Qed.

Section Guests.
Context (b : Board) (part : Partition) (vtr midr freq : N) (clock : N -> N).
Context (Hwin : windows_ok b) (Hov : overflow_checks b = false).
Context (HW : WF part) (Hpg : num_guests part = NUM_GUESTS).

Lemma wp_slot_dom g (Q : Linux -> DomId -> Prop) s : g < NUM_GUESTS -> Q s (guest_dom g) -> wp (slot_dom part g) Q s.
Proof.
  intros Hg HQ. unfold slot_dom. eapply wp_of_Done; [|exact HQ]. apply dom_of_Done; [done|by rewrite Hpg].
Qed.

Lemma wp_state_of g v (Q : Linux -> option RunState -> Prop) s : names_vcpu NUM_GUESTS (g, v) ->
  Q s (run_state (world s) g v) -> wp (state_of part g v) Q s.
Proof.
  intros Hn HQ. unfold state_of. wp_step. apply wp_slot_dom; [apply Hn|]. wp_step.
  by rewrite (model_idx_id g v Hn).
Qed.

(** *** Waking the idle vCPUs *)

Definition woken (w : World) (g : N) (v : VcpuIdx) : option RunState :=
  if decide (run_state w g v = Some Blocked) then Some Runnable else run_state w g v.

Lemma snoc_other {A T} `{EqDecision A} (l : list A) (x y : A) (p q : T) : y <> x ->
  (if decide (y ∈ l) then p else q) = (if decide (y ∈ l ++ [x]) then p else q).
Proof. intros Hne. repeat case_decide; rewrite ?elem_of_snoc in *; naive_solver. Qed.

Lemma wp_wake_blocked who s : sched_ok b (world s) who ->
  wp (wake_blocked_vcpus b part) (fun s' _ => mild s s' /\ sched_ok b (world s') who /\
    forall g v, names_vcpu NUM_GUESTS (g, v) -> run_state (world s') g v = woken (world s) g v) s.
Proof.
  intros Hs. unfold wake_blocked_vcpus. wp_step. apply wp_fetch_add_w. intros wd. cbn beta.
  apply wp_for_each with (I := fun done s' => mild s s' /\ sched_ok b (world s') who /\
    forall g v, names_vcpu NUM_GUESTS (g, v) -> run_state (world s') g v =
      if decide ((g, v) ∈ done) then woken (world s) g v else run_state (world s) g v).
  - split_and!; [apply quiet_store_w|done|]. intros g v _. by rewrite decide_False by (by intros ?%elem_of_nil).
  - intros l1 [g v] l2 s1 Hl (Hm & Hs1 & Hr).
    assert (Hn : names_vcpu NUM_GUESTS (g, v)).
    { apply elem_census. rewrite Hl. apply elem_of_app. right. by left. }
    wp_step. apply wp_state_of; [done|]. wp_step.
    + wp_step. apply wp_slot_dom; [apply Hn|]. wp_step.
      eapply wp_mono; [by apply (wp_call_wake b Hwin s1 who g v Hs1 Hn)|]. cbn beta.
      intros s2 [] (w' & -> & Hs2 & Hmv). apply wp_fetch_add_v; [done|done|]. intros s3 [Hm3 Ew]. split_and!.
      * eapply mild_trans; [exact Hm|]. eapply mild_trans; [apply mild_world|exact Hm3].
      * by rewrite Ew.
      * intros g' v' Hn'. rewrite Ew. cbn [world lset world_l]. rewrite (Hmv _ _ Hn'), (Hr _ _ Hn').
        destruct (decide (g' = g /\ v' = v)) as [ [-> ->]|Hne].
        -- rewrite (decide_True (P := (g, v) ∈ l1 ++ _)) by (apply elem_of_snoc; by right).
           rewrite (Hr _ _ Hn) in e. clear Hr Hmv. unfold woken in *. repeat case_decide; congruence.
        -- apply snoc_other. intros [= -> ->]. by apply Hne.
    + wp_step. split_and!; [done|done|]. intros g' v' Hn'. rewrite (Hr _ _ Hn').
      destruct (decide ((g', v') = (g, v))) as [ [= -> ->]|Hne]; [|by apply snoc_other].
      rewrite (decide_True (P := (g, v) ∈ l1 ++ _)) by (apply elem_of_snoc; by right).
      rewrite (Hr _ _ Hn) in n. clear Hr. unfold woken in *. repeat case_decide; congruence.
  - intros s' (Hm & Hs' & Hr). split_and!; [done|done|]. intros g v Hn. rewrite (Hr _ _ Hn), decide_True; [done|].
    by apply elem_census.
Qed.

(** *** Choosing the next vCPU *)

Lemma wp_first_some_pure {S X V} (l : list X) (f : X -> M S (option V)) (h : X -> option V)
    (Q : S -> option V -> Prop) s :
  (forall x (Q : S -> option V -> Prop), x ∈ l -> Q s (h x) -> wp (f x) Q s) ->
  Q s (first_some h l) -> wp (first_some_m l f) Q s.
Proof.
  induction l as [|x l IH]; intros Hf HQ; simpl in *; [by wp_step|].
  wp_step. apply Hf; [by left|]. destruct (h x) as [y|]; [by wp_step|].
  apply IH; [|done]. intros z Q' Hz. apply Hf. by right.
Qed.

Lemma next_of_Some w cur n : on_machine NUM_GUESTS cur -> next_of w cur = Some n ->
  names_vcpu NUM_GUESTS (inc_guest n, inc_vcpu n) /\ run_state w (inc_guest n) (inc_vcpu n) = Some Runnable.
Proof.
  intros Hc ([g v] & Hin & Hp)%first_some_Some. unfold picks in Hp. simpl in Hp. case_decide; [|done].
  injection Hp as <-. split; [|done]. apply elem_of_rotation in Hin; [done|done].
Qed.
Lemma next_of_None w cur : on_machine NUM_GUESTS cur -> next_of w cur = None ->
  forall g v, names_vcpu NUM_GUESTS (g, v) -> run_state w g v <> Some Runnable.
Proof.
  intros Hc E g v Hn Hr. unfold next_of in E. rewrite first_some_None in E.
  specialize (E (g, v) (rotation_all _ _ _ Hn)). unfold picks in E. simpl in E. by rewrite decide_True in E.
Qed.

Lemma wp_next_runnable cur (Q : Linux -> option Incoming -> Prop) s : on_machine NUM_GUESTS cur ->
  Q s (next_of (world s) cur) -> wp (next_runnable part cur) Q s.
Proof.
  intros Hc HQ. unfold next_runnable. apply wp_first_some_pure with (h := picks (world s)); [|exact HQ].
  intros [g v] Q' Hx%elem_of_rotation HQ'; [|done]. wp_step. apply wp_state_of; [done|]. by wp_step.
Qed.

(** *** The handover *)

Lemma called_ok s who g v st who' s' : guests_ok b s who -> called b s g v st who' s' ->
  (st <> Offline -> per_vcpu s VCPU_SEEDED g (idx v) <> 0) -> guests_ok b s' who' /\ mild s s'.
Proof.
  intros Hs (w' & -> & Hs' & Hmv) Hseed. split; [|apply mild_world].
  pose proof Hs as [_ Hse Hd]. split; [exact Hs'| |by apply (mi_devices _ _ (mild_world w' s))].
  intros g' v' Hn. cbn [world lset world_l per_vcpu]. rewrite (Hmv _ _ Hn). case_decide as Hc.
  - destruct Hc as [-> ->]. intros Hne. apply Hseed. congruence.
  - by apply Hse.
Qed.

(** A run state that is not Offline is that of a vCPU with a context. *)
Lemma seeded_at s who g v st : guests_ok b s who -> names_vcpu NUM_GUESTS (g, v) ->
  run_state (world s) g v = Some st -> st <> Offline -> per_vcpu s VCPU_SEEDED g (idx v) <> 0.
Proof. intros Hs Hn E Hne. apply (go_seeded _ _ _ Hs g v Hn). rewrite E. congruence. Qed.

Lemma wp_switch_ok next s : guests_ok b s (Some (inc_guest next, inc_vcpu next)) -> retired s ->
  wp (switch_context b vtr midr freq clock (now_leaving (unpack (current s))) next)
    (fun s' _ => (linux_ok b s' /\ fates s s') /\
       the_running s' = Some (inc_guest next, inc_vcpu next) /\ level s s') s.
Proof.
  intros Hs Hret. pose proof (so_who _ _ _ (go_sched _ _ _ Hs) _ _ eq_refl) as Hn.
  pose proof (who_running b _ _ _ (go_sched _ _ _ Hs)) as Hr.
  eapply wp_mono.
  - apply wp_switch_context; [done|apply (go_devices _ _ _ Hs)|done|]. by eapply seeded_at.
  - cbn beta. intros s' [] [ (Ew & Ev & Eu & Es & Ep & Ee) Hw Hc _ _ _ _ _ Hsw].
    assert (Hwho : the_running s' = Some (inc_guest next, inc_vcpu next)) by (unfold the_running; by rewrite Hc).
    assert (Hf : fates s s').
    { split; [intros g; apply (proj1 Hw RETIREMENT g); by right|]. intros g v _. by rewrite Ew. }
    destruct Hs as [S1 S2 [_ S3 S4 S5] ]. split; [|by split; [|apply level_world] ]. split; [|done]. split.
    + rewrite Hwho. split; rewrite ?Ew, ?Ep; [done..|]. split; rewrite ?Eu, ?Es, ?Ee; done.
    + intros g v Hg. rewrite Ew, (proj1 Hf g). by apply Hret.
Qed.

(** Retirement is a matter of Offline vCPUs, which no call but an admission touches. *)
Lemma called_retired s g v st who' s' : retired s -> called b s g v st who' s' ->
  (per_guest s RETIREMENT g <> 0 -> st = Offline) -> retired s'.
Proof.
  intros Hr (w' & -> & _ & Hmv) Hst g' v' Hn Hne. cbn [world lset world_l]. rewrite (Hmv _ _ Hn).
  case_decide as Hd; [|by apply Hr]. destruct Hd as [-> ->]. f_equal. by apply Hst.
Qed.

Lemma mild_retired s s' : mild s s' -> retired s ->
  (forall g v, names_vcpu NUM_GUESTS (g, v) -> run_state (world s) g v = Some Offline ->
     run_state (world s') g v = Some Offline) -> retired s'.
Proof.
  intros Hm Hr Hst g v Hn Hne. apply Hst; [done|]. apply Hr; [done|].
  by rewrite <- (mi_fates _ _ Hm).
Qed.

(** *** The scheduling calls keep the invariant *)

(** Off the books of [mild]: the calls, each with the retirements in step. *)
Lemma called_kept s who g v st who' s' : guests_ok b s who -> retired s -> called b s g v st who' s' ->
  (st <> Offline -> exists st0, st0 <> Offline /\ run_state (world s) g v = Some st0) ->
  names_vcpu NUM_GUESTS (g, v) ->
  guests_ok b s' who' /\ retired s' /\ mild s s' /\ moved (world s) (world s') g v st.
Proof.
  intros Hs Hr Hc Hst Hn.
  destruct (called_ok _ _ _ _ _ _ _ Hs Hc) as [Hs' Hm].
  { intros Hne. destruct (Hst Hne) as (st0 & H0 & E). by eapply seeded_at. }
  split_and!; [done| |done|by destruct Hc as (w' & -> & _ & Hmv)].
  eapply called_retired; [done..|]. intros Hne. destruct (decide (st = Offline)) as [|Ho]; [done|].
  destruct (Hst Ho) as (st0 & H0 & E). rewrite (Hr _ _ Hn Hne) in E. congruence.
Qed.

Lemma quiet_kept s s' who : guests_ok b s who -> retired s -> quiet s s' ->
  guests_ok b s' who /\ retired s'.
Proof.
  intros Hs Hr [Hm Ew]. split.
  - eapply mild_ok; [done|done|by rewrite Ew; apply Hs|by rewrite Ew].
  - eapply mild_retired; [done|done|by rewrite Ew].
Qed.

Lemma wp_wake_kept who s : guests_ok b s who -> retired s ->
  wp (wake_blocked_vcpus b part) (fun s' _ => guests_ok b s' who /\ retired s' /\ mild s s' /\
    forall g v, names_vcpu NUM_GUESTS (g, v) -> run_state (world s') g v = woken (world s) g v) s.
Proof.
  intros Hs Hr. eapply wp_mono; [by apply wp_wake_blocked, Hs|]. cbn beta. intros s' [] (Hm & Hw & Hst).
  split_and!; [| |done|done].
  - eapply mild_ok; [done..|]. intros g v Hn. rewrite (Hst _ _ Hn). unfold woken. case_decide; congruence.
  - eapply mild_retired; [done..|]. intros g v Hn E. rewrite (Hst _ _ Hn). unfold woken. rewrite E.
    by rewrite decide_False.
Qed.

(** A runnable vCPU takes the free CPU. *)
Lemma wp_take next t s : guests_ok b s None -> retired s ->
  names_vcpu NUM_GUESTS (inc_guest next, inc_vcpu next) ->
  run_state (world s) (inc_guest next) (inc_vcpu next) = Some Runnable ->
  wp (sched_on b (guest_dom (inc_guest next)) (scheduler_run next t))
    (fun s' _ => guests_ok b s' (Some (inc_guest next, inc_vcpu next)) /\ retired s' /\ mild s s' /\ level s s') s.
Proof.
  intros Hs Hret Hn Hr.
  replace (scheduler_run next t) with (scheduler_run (incoming_at (inc_guest next) (inc_vcpu next)) t) by (by destruct next).
  eapply wp_mono; [by apply (wp_call_run b Hwin s _ _ t (go_sched _ _ _ Hs) Hn)|]. cbn beta.
  intros s' [] Hc. destruct (called_kept _ _ _ _ _ _ _ Hs Hret Hc) as (? & ? & ? & Hmv);
    [|done|split_and!; [done..|eapply moved_level; [done|done|by rewrite Hr] ] ].
  intros _. by exists Runnable.
Qed.

Lemma wp_switched {T} cur next s s1 (k : M Linux T) (Q : Linux -> T -> Prop) :
  guests_ok b s1 (Some (inc_guest next, inc_vcpu next)) -> retired s1 ->
  fates s s1 -> current s1 = current s -> cur = unpack (current s) ->
  (forall s', linux_ok b s' -> fates s s' -> wp k Q s') ->
  wp (switch_context b vtr midr freq clock (now_leaving cur) next ;! k) Q s1.
Proof.
  intros Hs Hr Hf Ec -> Hk. rewrite <- Ec. wp_step. eapply wp_mono; [by apply wp_switch_ok|].
  cbn beta. intros s3 [] [ [Hok Hf3] _]. apply Hk; [done|]. by eapply fates_trans.
Qed.

(** The end of a turn: the idle wake, the next in line is switched to, and when there is none
    every vCPU is Offline. *)
Lemma wp_turn {T} cur t (none : M Linux T) (fin : Incoming -> M Linux T) (Q : Linux -> T -> Prop) s : guests_ok b s None -> retired s ->
  on_machine NUM_GUESTS cur ->
  (forall n w s', (forall g v, names_vcpu NUM_GUESTS (g, v) -> run_state w g v = woken (world s) g v) ->
     next_of w cur = Some n -> guests_ok b s' (Some (inc_guest n, inc_vcpu n)) -> retired s' ->
     mild s s' -> level s s' -> wp (fin n) Q s') ->
  (forall s', guests_ok b s' None -> retired s' -> fates s s' ->
     (forall g v, names_vcpu NUM_GUESTS (g, v) ->
        run_state (world s) g v <> Some Runnable /\ run_state (world s') g v = Some Offline) -> wp none Q s') ->
  wp (wake_blocked_vcpus b part ;!
      let! next := next_runnable part cur in
      match next with
      | None => none
      | Some next =>
          let! dom := slot_dom part (inc_guest next) in
          sched_on b dom (scheduler_run next t) ;!
          fin next
      end) Q s.
Proof.
  intros Hs Hret Hon Hk Hnone. wp_step. eapply wp_mono; [by apply wp_wake_kept|]. cbn beta.
  intros s1 [] (Hs1 & Hr1 & Hm1 & Hst1).
  assert (Hw : level s s1).
  { intros g v Hn. rewrite (Hst1 _ _ Hn). unfold woken. case_decide as Hb; [rewrite Hb|]; done. }
  wp_step. apply wp_next_runnable; [done|]. destruct (next_of (world s1) cur) as [n|] eqn:Enext.
  - destruct (next_of_Some _ _ _ Hon Enext) as [Hn Hrun]. cbn beta iota. wp_step. apply wp_slot_dom; [apply Hn|]. wp_step.
    eapply wp_mono; [by apply wp_take|]. cbn beta. intros s2 [] (Hs2 & Hr2 & Hm2 & Hst2).
    apply (Hk n (world s1)); [done|done|done|done|by eapply mild_trans|by eapply level_trans].
  - pose proof (next_of_None _ _ Hon Enext) as Hno. cbn beta iota. apply Hnone; [done|done|split; [by apply mi_fates|by apply level_stands]|]. intros g v Hn. split.
    + intros E. apply (Hno g v Hn). rewrite (Hst1 _ _ Hn). unfold woken. by rewrite decide_False by congruence.
    + destruct (run_state_vcpu b _ _ g v (go_sched _ _ _ Hs1) Hn) as (x & _ & E & _). rewrite E. f_equal.
      destruct (state x) eqn:Ex; [done| | |].
      * by destruct (Hno g v Hn).
      * destruct (proj1 (so_running _ _ _ (go_sched _ _ _ Hs1) _ _ _) E) as (_ & g' & v' & ? & _). done.
      * rewrite (Hst1 _ _ Hn) in E. unfold woken in E. case_decide; [done|congruence].
Qed.

(** With nobody on the CPU and the idle awake, what is not off is runnable. *)
Lemma awake_iff s g v : guests_ok b s None -> names_vcpu NUM_GUESTS (g, v) ->
  woken (world s) g v = Some Runnable <-> run_state (world s) g v <> Some Offline.
Proof.
  intros Hs Hn. destruct (run_state_vcpu b _ _ g v (go_sched _ _ _ Hs) Hn) as (x & _ & E & _).
  unfold woken. rewrite E. destruct (state x) as [| |p|]; case_decide; try naive_solver.
  destruct (proj1 (so_running _ _ _ (go_sched _ _ _ Hs) _ _ _) E) as (_ & g' & v' & ? & _). done.
Qed.

Lemma next_successor w w' cur n : on_machine NUM_GUESTS cur ->
  (forall g v, names_vcpu NUM_GUESTS (g, v) -> run_state w' g v = Some Runnable <-> run_state w g v <> Some Offline) ->
  next_of w' cur = Some n -> successor w cur = Some (inc_guest n, inc_vcpu n).
Proof.
  intros Hc Hst. unfold next_of, successor. pose proof (fun p => elem_of_rotation cur p Hc) as Hin. revert Hin.
  induction (rotation cur NUM_GUESTS) as [|[g v] l IH]; intros Hin; [done|]. simpl. unfold picks at 1. simpl.
  specialize (Hst g v (Hin (g, v) ltac:(by left))). repeat case_decide; try tauto.
  - by intros [= <-].
  - apply IH. intros p Hp. apply Hin. by right.
Qed.

(** The slice expired: the running vCPU goes to the back of the line, and the first after it
    that was not taken off has the CPU. *)
Lemma wp_preempt_all s : linux_ok b s ->
  wp (preempt_through_the_scheduler b part vtr midr freq clock (unpack (current s)))
    (fun s' _ => (linux_ok b s' /\ fates s s') /\
       the_running s' = successor (world s) (unpack (current s)) /\ level s s') s.
Proof.
  intros [Hs Hret]. set (r := unpack (current s)).
  pose proof (so_who _ _ _ (go_sched _ _ _ Hs) (run_guest r) (run_vcpu r) eq_refl) as Hn.
  pose proof (who_running b _ _ _ (go_sched _ _ _ Hs)) as Hrun. fold r in Hrun.
  unfold preempt_through_the_scheduler. wp_step. apply wp_slot_dom; [apply Hn|]. wp_step. apply wp_now. intros n.
  wp_step. apply wp_fetch_add_w. intros wd. wp_step. set (s1 := lset word_l wd _).
  assert (Hq1 : quiet s s1) by (eapply quiet_trans; [apply quiet_ticks|apply quiet_store_w]).
  destruct (quiet_kept s s1 _ Hs Hret Hq1) as [Hs1 Hr1].
  eapply wp_mono; [exact (wp_call_preempt b Hwin s1 _ _ _ (go_sched _ _ _ Hs1))|]. cbn beta. intros s2 [] Hc.
  destruct (called_kept _ _ _ _ _ _ _ Hs1 Hr1 Hc) as (Hs2 & Hr2 & Hm2 & Hmv); [|done|].
  { intros _. exists (Sched.Running PCPU0). split; [done|]. apply (who_running b), Hs1. }
  assert (Hm : mild s s2) by (eapply mild_trans; [apply Hq1|done]).
  assert (Hl2 : level s s2) by (apply (moved_level s s2 _ _ _ Hmv); [done|fold r; by rewrite Hrun]).
  apply (wp_turn r); [done|done|done| |].
  - intros n' w3 s3 Hw3 Hn3 Hs3 Hr3 Hm3 Hl3. assert (Hm' : mild s s3) by (by eapply mild_trans).
    unfold r. rewrite <- (mi_current _ _ Hm'). eapply wp_mono; [by apply wp_switch_ok|]. cbn beta.
    intros s' [] ([Hok Hf] & Hwho & Hl). assert (Hl' : level s s3) by (by eapply level_trans). split_and!.
    + done.
    + eapply fates_trans; [split; [by apply mi_fates|by apply level_stands]|exact Hf].
    + rewrite Hwho, (mi_current _ _ Hm'). fold r. symmetry. apply (next_successor _ w3); [done| |done].
      intros g v Hg. rewrite (Hw3 _ _ Hg), <- (Hl2 _ _ Hg). by apply (awake_iff s2).
    + by eapply level_trans.
  - intros s' _ _ _ Hno. destruct (Hno _ _ Hn) as [H _]. destruct H. rewrite (Hmv _ _ Hn).
    by rewrite decide_True.
Qed.

(** *** Retiring a guest *)

(** The retirement word of a guest is not a tally. *)
Lemma guests_words pg s who : (forall w g, pg w g <= u64_max) -> guests_ok b s who ->
  guests_ok b (lset per_guest_l pg s) who.
Proof.
  intros Hbound [S1 S2 S3]. split; [done|done|]. apply (devices_same s); [|done..].
  destruct S3 as [ [D _ _] _ _ _]. apply (deliverable_after (cpu s) (pending s) pg s); [done|apply D|apply D|done].
Qed.

(** After the vCPUs [off] of the guest of [r] went off. *)
Definition holder (r : Running) (off : list OwnVcpu) : option (N * VcpuIdx) :=
  if decide (mkOwn (run_guest r) (run_vcpu r) ∈ off) then None else Some (run_guest r, run_vcpu r).
Record retiring (r : Running) (s : Linux) (off : list OwnVcpu) (s' : Linux) : Prop := mkRetiring {
  ri_guests : guests_ok b s' (holder r off);
  ri_mild : mild s s';
  ri_states : forall g v, names_vcpu NUM_GUESTS (g, v) -> run_state (world s') g v =
    if decide (mkOwn g v ∈ off) then Some Offline else run_state (world s) g v;
}.

Lemma own_names r o : on_machine NUM_GUESTS r -> o ∈ own_vcpus r ->
  own_guest o = run_guest r /\ names_vcpu NUM_GUESTS (run_guest r, own_vcpu o).
Proof. intros [Hg _]. by intros [-> Hv]%elem_own. Qed.

(** One more went off, or already was. *)
Lemma retiring_snoc r s off s1 s2 v : retiring r s off s1 -> guests_ok b s2 (holder r (off ++ [mkOwn (run_guest r) v])) ->
  mild s1 s2 ->
  (forall g' v', names_vcpu NUM_GUESTS (g', v') -> run_state (world s2) g' v' =
     if decide (g' = run_guest r /\ v' = v) then Some Offline else run_state (world s1) g' v') ->
  retiring r s (off ++ [mkOwn (run_guest r) v]) s2.
Proof.
  intros [_ Hm Hst] Hg Hm2 Hst2. split; [done|by eapply mild_trans|]. intros g' v' Hn.
  rewrite (Hst2 _ _ Hn). case_decide as Hd.
  - destruct Hd as [-> ->]. rewrite decide_True; [done|]. apply elem_of_snoc. by right.
  - rewrite (Hst _ _ Hn). apply snoc_other. intros [= -> ->]. by apply Hd.
Qed.

(** Going off gives up the CPU, for the vCPU that has it. *)
Lemma holder_snoc r off v :
  (if decide (holder r off = Some (run_guest r, v)) then None else holder r off) =
  holder r (off ++ [mkOwn (run_guest r) v]).
Proof.
  unfold holder. destruct (decide (v = run_vcpu r)) as [->|Hv].
  - rewrite (decide_True (P := _ ∈ off ++ _)) by (apply elem_of_snoc; by right). by repeat case_decide.
  - rewrite <- (snoc_other off) by congruence. by repeat case_decide; simplify_eq.
Qed.

Lemma retiring_step r s off s1 o t : retiring r s off s1 -> on_machine NUM_GUESTS r -> o ∈ own_vcpus r ->
  wp (retire_vcpu b part r t o) (fun s2 _ => retiring r s (off ++ [o]) s2) s1.
Proof.
  intros HR Hr Ho. pose proof HR as [Hg _ Hst]. destruct (own_names r o Hr Ho) as [Eg Hn].
  destruct o as [og ov]. simpl in Eg, Hn. subst og. unfold retire_vcpu. cbn [own_guest own_vcpu].
  destruct (run_state_vcpu b _ _ _ _ (go_sched _ _ _ Hg) Hn) as (x & _ & E & _).
  wp_step. apply wp_state_of; [done|]. rewrite E. wp_step.
  - injection e as Ex. apply (retiring_snoc r s off s1); [done| |apply mild_refl|].
    + rewrite <- holder_snoc. destruct (decide _) as [Hh|]; [|done]. rewrite Hh in Hg.
      pose proof (who_running b _ _ _ (go_sched _ _ _ Hg)). congruence.
    + intros g v Hgv. case_decide as Hd; [|done]. destruct Hd as [-> ->]. congruence.
  - assert (Hoffline : forall s2, quiet s1 s2 ->
      wp (sched_on b (guest_dom (run_guest r)) (SchedOffline (model_idx ov) t))
        (fun s3 _ => retiring r s (off ++ [mkOwn (run_guest r) ov]) s3) s2).
    { intros s2 [Hm2 Ew2]. assert (Hg2 : guests_ok b s2 (holder r off)).
      { eapply mild_ok; [done|done|by rewrite Ew2; apply Hg|by rewrite Ew2]. }
      eapply wp_mono.
      - apply (wp_call_offline b Hwin s2 _ _ _ t (state x) (go_sched _ _ _ Hg2) Hn); [by rewrite Ew2|congruence].
      - cbn beta. intros s3 [] Hc. destruct (called_ok _ _ _ _ _ _ _ Hg2 Hc) as [Hg3 Hm3]; [done|].
        apply (retiring_snoc r s off s1); [done| |by eapply mild_trans|].
        + by rewrite <- holder_snoc.
        + destruct Hc as (w' & -> & _ & Hmv). intros g v Hgv. rewrite <- Ew2. by apply Hmv. }
    assert (Hrest : forall s2, quiet s1 s2 -> wp (let! dom := slot_dom part (run_guest r) in
      sched_on b dom (SchedOffline (model_idx ov) t)) (fun s3 _ => retiring r s (off ++ [mkOwn (run_guest r) ov]) s3) s2).
    { intros s2 Hq2. wp_step. apply wp_slot_dom; [apply Hn|]. by apply Hoffline. }
    wp_step. wp_step; [apply wp_fetch_add_v; [done|done|] | wp_step]; auto using quiet_refl.
Qed.

(** The whole of a retirement: the guest's vCPUs are off, and another guest runs unless none
    can. *)
Lemma wp_retire why s : linux_ok b s -> why <> Live ->
  wp (retire_and_hand_over b part vtr midr freq clock (unpack (current s)) why)
    (fun s' handed => condemned (run_guest (unpack (current s))) s s' /\
       if handed : bool then linux_ok b s' else idle_ok b s') s.
Proof.
  intros [Hs Hret] Hwhy. set (r := unpack (current s)).
  pose proof (so_who _ _ _ (go_sched _ _ _ Hs) (run_guest r) (run_vcpu r) eq_refl) as Hn.
  unfold retire_and_hand_over, set_retirement. wp_step. unfold store_g, in_guest.
  rewrite (proj2 (N.ltb_lt (run_guest r) _) (proj1 Hn)). wp_step. wp_step. wp_step. set (s1 := lset per_guest_l _ s).
  wp_step. apply wp_now. intros n. set (s2 := lset ticks_read_l n s1).
  assert (Hc1 : condemned (run_guest r) s s1).
  { split; cbn; [rewrite decide_True by done; by destruct why| |done]. intros g Hg. by rewrite decide_False by naive_solver. }
  assert (Hg2 : guests_ok b s2 (the_running s)).
  { assert (Hg1 : guests_ok b s1 (the_running s)).
    { apply guests_words; [|done]. intros w g. case_decide; [by destruct why|]. apply (go_devices _ _ _ Hs). }
    destruct Hg1 as [G1 G2 G3]. split; [done|done|]. by apply (mi_devices _ _ (proj1 (quiet_ticks n s1))). }
  wp_step. apply wp_for_each with (I := retiring r s2).
  - split; [done|apply mild_refl|]. intros g v _. by rewrite decide_False by (by intros ?%elem_of_nil).
  - intros l1 o l2 s3 Hl HR. apply retiring_step; [done|done|]. rewrite Hl. apply elem_of_app. right. by left.
  - intros s3 [Hg3 Hm3 Hst3].
    assert (Hown : forall v, idx v < VCPUS_PER_GUEST -> mkOwn (run_guest r) v ∈ own_vcpus r) by (intros v Hv; by apply elem_own).
    unfold holder in Hg3. rewrite decide_True in Hg3 by (apply Hown, Hn).
    assert (Hc3 : condemned (run_guest r) s s3).
    { destruct Hc1 as [C1 C2 _]. split.
      - by rewrite (mi_fates _ _ Hm3).
      - intros g Hg. rewrite (mi_fates _ _ Hm3). by apply C2.
      - intros g v Hg Hn'. rewrite (Hst3 _ _ Hn'), decide_False; [done|]. by intros [? _]%elem_own. }
    assert (Hr3 : retired s3).
    { intros g v Hgv Hne. rewrite (Hst3 _ _ Hgv). case_decide as Hin; [done|].
      apply Hret; [done|]. rewrite <- (cd_others _ _ _ Hc3); [done|]. intros ->. by apply Hin, Hown, Hgv. }
    apply (wp_turn r); [done|done|done| |].
    + intros n' w4 s4 _ _ Hs4 Hr4 Hm4 Hst4. apply (wp_switched r n' s4 s4); [done|done|apply quiet_fates, quiet_refl|done| |].
      * rewrite (mi_current _ _ Hm4), (mi_current _ _ Hm3). done.
      * intros s5 Hok Hf. wp_step. split; [|done]. eapply condemned_fates; [done|]. eapply fates_trans; [|exact Hf].
        split; [by apply mi_fates|by apply level_stands].
    + intros s4 Hs4 Hr4 Hf4 Hoff. wp_step. split; [by eapply condemned_fates|]. split; [done|done|].
      intros g v Hgv. by apply Hoff.
Qed.
End Guests.
