(* ===== verification/Traps.v ===== *)
(** * The traps and interrupts of the real guests — [hv-metal/src/linux.rs]

    Every handler, from the invariant of [Guests]: it returns, the machine still has the
    invariant or has stopped with nothing left to run, and a retired guest stays retired. *)

From Stdlib Require Import NArith Lia.
From stdpp Require Import base numbers list option.
From S2P Require Import Bits.
From S2P Require Import Sched.
From S2P Require Import Hypervisor.
From S2P Require Import Pl011.
From S2P Require Import Gicv3.
From S2P Require Import Abort.
From S2P Require Import Partition.
From S2P Require Import Arm64.
From S2P Require Import Metal.
From S2P Require Import Teardown.
From S2P Require Import PendingSet.
From S2P Require Import CpuState.
From S2P Require Import Role.
From S2P Require Import Console.
From S2P Require Import Linux.
From S2P Require Import LinuxTrap.
From S2P Require Import Deliver.
From S2P Require Import Switch.
From S2P Require Import Handover.
From S2P Require Import Regime.
From S2P Require Import Guests.
From S2P Require Import Prelude.
#[local] Open Scope N_scope.

(** ** Specification *)

(** The machine stopped: every vCPU of every guest is Offline. *)
Record stopped (s : Linux) : Prop := mkStopped {
  st_ended : ended s = true;
  st_retired : retired s;
  st_offline : forall g v, names_vcpu NUM_GUESTS (g, v) -> run_state (world s) g v = Some Offline;
}.

(** A step keeps the machine running, or stops it with nothing left to run; no retirement is
    taken back, and only the guest that runs can be retired or lose a vCPU. *)
Record goes_on (b : Board) (s s' : Linux) : Prop := mkGoesOn {
  on_state : linux_ok b s' \/ stopped s';
  on_retired : forall g, per_guest s RETIREMENT g <> 0 -> per_guest s' RETIREMENT g <> 0;
  on_peers : forall g, g <> run_guest (unpack (current s)) ->
    per_guest s' RETIREMENT g = per_guest s RETIREMENT g /\
    forall v, names_vcpu NUM_GUESTS (g, v) ->
      run_state (world s') g v = Some Offline -> run_state (world s) g v = Some Offline;
}.

(** An operation that always returns and disturbs nothing the invariant is about. *)
Definition hushed {T} (m : M Linux T) : Prop := forall s, devices_ok s -> wp m (fun s' _ => quiet s s') s.

(** What the first fault on the memory of a peer is checked for: the address is unmapped for the
    one who faults, it is the peer's own, and the peer's image is still in place. *)
Definition peer_refused (part : Partition) (s : Linux) (faulting owner ipa : N) : bool :=
  bool_decide (walk_stage2 (mem (world s)) (vttbr_table (per_guest s VTTBR faulting)) ipa = None) &&
  match walk_stage2 (mem (world s)) (vttbr_table (per_guest s VTTBR owner)) ipa with
  | Some r => r_pa r =? ipa
  | None => false
  end &&
  (le_at (mem (world s)) ((ram_base part + owner * window_len part + IMAGE_MAGIC_OFF) mod (u64_max + 1)) 4 =? IMAGE_MAGIC).
Definition diagnosed (part : Partition) (s : Linux) (ipa : N) : Prop :=
  let faulting := run_guest (unpack (current s)) in
  forall owner, owner < NUM_GUESTS -> owner <> faulting -> in_slot part owner ipa = true ->
    per_guest s PEER_FAULTS faulting = 0 -> peer_refused part s faulting owner ipa = true.

(** The interrupts that are enabled or signal that there is none. *)
Definition expected (intid : N) : Prop :=
  intid = HYP_TIMER_INTID \/ intid = VTIMER_INTID \/ intid = MAINT_INTID \/ 1020 <= intid.

(** ** Lemmas *)

(** *** Operations that disturb nothing *)

Lemma hushed_ret {T} (x : T) : hushed (ret x).
Proof. intros s _. wp_step. apply quiet_refl. Qed.
Lemma hushed_bind {T U} (m : M Linux T) (k : T -> M Linux U) : hushed m -> (forall x, hushed (k x)) -> hushed (bind m k).
Proof.
  intros Hm Hk s Hs. wp_step. eapply wp_mono; [by apply Hm|]. cbn beta. intros s1 x Hq.
  eapply wp_mono; [apply Hk, (mi_devices _ _ (proj1 Hq)), Hs|]. cbn beta. intros s2 y Hq2. by eapply quiet_trans.
Qed.
Lemma hushed_current {T} (k : Running -> M Linux T) :
  (forall r, on_machine NUM_GUESTS r -> hushed (k r)) -> hushed (bind current_vcpu k).
Proof. intros Hk s Hs. unfold current_vcpu. wp_step. wp_step. apply Hk; [|done]. apply (dl_running _ (sb_deliverable _ (dv_switch _ Hs))). Qed.
Lemma hushed_get {T} (k : Linux -> M Linux T) : (forall s, hushed (k s)) -> hushed (bind get k).
Proof. intros Hk s Hs. wp_step. wp_step. by apply Hk. Qed.
Lemma hushed_gets {T} (f : Linux -> T) : hushed (gets f).
Proof. intros s Hs. wp_step. apply quiet_refl. Qed.

(** A [wp] rule that leaves a known state. *)
Lemma hushed_cpu f : (forall c, cpu_wf c -> cpu_wf (f c)) -> hushed (on_cpu f).
Proof. intros Hf s Hs. unfold on_cpu. wp_step. apply quiet_cpu, Hf. Qed.
Lemma hushed_of_cpu {T} (f : Cpu -> Cpu * T) : (forall c, cpu_wf c -> cpu_wf (f c).1) -> hushed (of_cpu f).
Proof.
  intros Hf s Hs. destruct (f (cpu s)) as [c x] eqn:E. apply (wp_of_cpu f _ s c x E). apply quiet_cpu.
  intros H. specialize (Hf _ H). by rewrite E in Hf.
Qed.
Lemma hushed_load_g w g : g < NUM_GUESTS -> hushed (load_g w g).
Proof. intros Hg s Hs. apply wp_load_g; [done|]. apply quiet_refl. Qed.
Lemma hushed_tally w g k : g < NUM_GUESTS -> ~ lasting w -> hushed (fetch_add_g w g k).
Proof. intros Hg Hw s Hs. apply wp_tally; [done|done|]. intros pg Hpg. by apply quiet_words. Qed.
Lemma hushed_word w : hushed (fetch_add_w w).
Proof. intros s Hs. apply wp_fetch_add_w. intros wd. apply quiet_store_w. Qed.
Lemma hushed_vword w g v : names_vcpu NUM_GUESTS (g, v) -> w <> VCPU_SEEDED -> hushed (fetch_add_v w g v).
Proof. intros Hn Hw s Hs. by apply wp_fetch_add_v. Qed.
Lemma hushed_store_g w g u : g < NUM_GUESTS -> ~ lasting w -> u <= u64_max -> hushed (store_g w g u).
Proof.
  intros Hg Hw Hu s Hs. unfold store_g, in_guest. rewrite (proj2 (N.ltb_lt g _) Hg). do 3 wp_step.
  apply quiet_words. split.
  - intros w' g' Hl. rewrite decide_False; [done|]. by intros [-> _].
  - intros Hb w' g'. by case_decide.
Qed.

Lemma hushed_arm_slice b freq clock : overflow_checks b = false -> hushed (arm_slice b freq clock).
Proof.
  intros Hb s Hs. apply wp_arm_slice; [done|]. intros wd n d.
  eapply quiet_trans; [apply (quiet_store_w wd)|]. eapply quiet_trans; [apply (quiet_ticks n)|].
  apply (quiet_cpu (set_cnthp d 1 (cpu s))). cbn. intros []. by split.
Qed.

(** *** The shared line *)

Lemma quiet_serial u s : (console_wf NUM_GUESTS (con (serial s)) -> console_wf NUM_GUESTS (con u)) -> quiet s (lset serial_l u s).
Proof.
  intros Hu. split; [|done]. split; [|done..]. intros [ [D K G] U C L].
  split; [|done|by apply Hu|done]. split; [|done|done]. destruct D. by split.
Qed.
Lemma hushed_console o : Console.slot_of o < NUM_GUESTS -> hushed (zoom serial_l (Console.run_op o)).
Proof.
  intros Ho s Hs. apply wp_zoom. eapply wp_mono; [by apply step_run, Ho; apply Hs|]. cbn beta. intros u [] Hst.
  apply quiet_serial. intros _. revert Hst. unfold steps. case_match. by intros [? _].
Qed.

(** *** The emulated devices *)

(** A device of one guest changed into another that is as good. *)
Lemma quiet_gic s g d d' : vget (vgics s) g = Some d -> gic_wf VCPUS_PER_GUEST (dev d') ->
  quiet s (lset vgics_l (vset (vgics s) g d') s).
Proof.
  intros Hd Hd'. split; [|done]. split; [|done..]. intros [ [D K G] U C L].
  split; [|done..]. split; [destruct D; by split|done|]. intros g' Hg. destruct (G g' Hg) as (d0 & H0 & W0).
  cbn [vgics lset vgics_l]. destruct (decide (g' = g)) as [->|]; [exists d'|exists d0].
  - by rewrite vget_vset_eq by (by eapply vget_Some_lt).
  - by rewrite vget_vset_ne.
Qed.
Lemma quiet_uart s g u u' : vget (uarts s) g = Some u -> (uart_ok u -> uart_ok u') ->
  quiet s (lset uarts_l (vset (uarts s) g u') s).
Proof.
  intros Hu Hu'. split; [|done]. split; [|done..]. intros [ [D K G] U C L].
  split; [split; [destruct D; by split|done|done]| |done|done]. intros g' Hg. destruct (U g' Hg) as (u0 & H0 & W0).
  cbn [uarts lset uarts_l]. destruct (decide (g' = g)) as [->|]; [exists u'|exists u0].
  - rewrite vget_vset_eq by (by eapply vget_Some_lt). split; [done|]. apply Hu'. congruence.
  - by rewrite vget_vset_ne.
Qed.
Lemma hushed_ask {T} g (m : M VirtGic T) : g < NUM_GUESTS ->
  (forall d, gic_wf VCPUS_PER_GUEST d -> exists x, m d = Done d x) -> hushed (ask_gic g m).
Proof.
  intros Hg Hm s Hs. destruct (sb_gics _ (dv_switch _ Hs) g Hg) as (d & Hd & Hw). destruct (Hm _ Hw) as [x Hx].
  apply (wp_ask_gic g m _ s d x Hd Hx). apply quiet_refl.
Qed.
Lemma hushed_enabled g v i : g < NUM_GUESTS -> hushed (ask_gic g (is_enabled v i)).
Proof. intros Hg. apply hushed_ask; [done|]. intros d Hd. eexists. by eapply enabled_for_Done. Qed.
Lemma hushed_route g i : g < NUM_GUESTS -> hushed (ask_gic g (spi_route i)).
Proof. intros Hg. apply hushed_ask; [done|]. intros d Hd. eexists. by eapply spi_route_Done. Qed.

Lemma hushed_gic_read g ipa size : g < NUM_GUESTS -> ipa <= u64_max -> hushed (at_guest vgics_l g (gic_read ipa size)).
Proof.
  intros Hg Hipa s Hs. destruct (sb_gics _ (dv_switch _ Hs) g Hg) as (d & Hd & Hw).
  eapply wp_at_guest; [exact Hd|]. unfold gic_read, gic_trap. do 2 wp_step. apply wp_zoom.
  destruct (mmio_read_run VCPUS_PER_GUEST (dev d) ipa size ltac:(done) Hw Hipa) as [r Hr].
  eapply wp_of_Done; [exact Hr|]. by apply (quiet_gic s g d).
Qed.
Lemma hushed_gic_write g ipa size value : g < NUM_GUESTS -> ipa <= u64_max ->
  hushed (at_guest vgics_l g (gic_write ipa size value)).
Proof.
  intros Hg Hipa s Hs. destruct (sb_gics _ (dv_switch _ Hs) g Hg) as (d & Hd & Hw).
  eapply wp_at_guest; [exact Hd|]. unfold gic_write, gic_trap. do 3 wp_step. apply wp_zoom.
  destruct (mmio_write_run VCPUS_PER_GUEST (dev d) ipa size value Hw Hipa) as (d' & r & Hr & Hw' & _ & _).
  eapply wp_of_Done; [exact Hr|]. destruct r as [n|e]; cbn; repeat wp_step; by apply (quiet_gic s g d).
Qed.
Lemma hushed_uart_read g off size : g < NUM_GUESTS -> hushed (at_guest uarts_l g (uart_read off size)).
Proof.
  intros Hg s Hs. destruct (dv_uarts _ Hs g Hg) as (u & Hu & Hw).
  eapply wp_at_guest; [exact Hu|]. unfold uart_read, uart_trap. do 2 wp_step. apply wp_zoom.
  destruct (mmio_read_Done off size (uart u)) as (v & Hv & _). eapply wp_of_Done; [exact Hv|]. by apply (quiet_uart s g u).
Qed.
Lemma feed_needle byte m : Pl011.needle m = NEEDLE -> (saw m = false -> at_ m < vlen NEEDLE) ->
  feed byte m = Done (feed_step byte m) tt /\ Pl011.needle (feed_step byte m) = NEEDLE /\
  (saw (feed_step byte m) = false -> at_ (feed_step byte m) < vlen NEEDLE).
Proof.
  intros Hn Hat. split; [apply feed_Done; by rewrite Hn|]. unfold feed_step. destruct (saw m) eqn:Hs; [by split; [|congruence]|].
  rewrite Hn. specialize (Hat eq_refl). case_decide; cbn [Pl011.needle saw at_]; (split; [done|]).
  - intros H1%N.eqb_neq. lia.
  - intros _. by case_decide.
Qed.
Lemma hushed_uart_write g off value : g < NUM_GUESTS -> hushed (at_guest uarts_l g (uart_write off value)).
Proof.
  intros Hg s Hs. destruct (dv_uarts _ Hs g Hg) as (u & Hu & Hn & Hat).
  eapply wp_at_guest; [exact Hu|]. unfold uart_write, uart_trap. do 3 wp_step. apply wp_zoom.
  unfold Pl011.mmio_write. destruct (off =? DR); repeat wp_step; try done; try by apply (quiet_uart s g u).
  eapply wp_of_Done; [exact (proj1 (feed_needle _ _ Hn Hat))|]. repeat wp_step.
  apply (quiet_uart s g u); [done|]. intros _. exact (proj2 (feed_needle _ _ Hn Hat)).
Qed.

(** *** The registers of the guest *)

Lemma x_set_wf n v c : cpu_wf c -> cpu_wf (set_frame (vset (frame c) n v) c).
Proof. intros []. split; cbn; rewrite ?vlen_vset; done. Qed.
Lemma hushed_x_get n : n < 31 -> hushed (x_get n).
Proof.
  intros Hn s Hs. unfold x_get. do 2 wp_step. apply wp_index.
  destruct (vget_lt_Some (frame (cpu s)) n) as [v Hv].
  - by rewrite (cw_frame _ (dl_cpu _ (sb_deliverable _ (dv_switch _ Hs)))).
  - exists v. split; [done|]. apply quiet_refl.
Qed.
Lemma hushed_x_set n v : n < 31 -> hushed (x_set n v).
Proof.
  intros Hn s Hs. unfold x_set. apply wp_index_set.
  - cbn. by rewrite (cw_frame _ (dl_cpu _ (sb_deliverable _ (dv_switch _ Hs)))).
  - apply quiet_cpu. apply x_set_wf.
Qed.
Lemma hushed_store_value a : hushed (store_value a).
Proof.
  unfold store_value. apply hushed_bind; [|intros; apply hushed_ret].
  destruct (N.ltb_spec (srt a) 31); [by apply hushed_x_get|apply hushed_ret].
Qed.
Lemma hushed_load_result a v : hushed (load_result a v).
Proof. unfold load_result. destruct (N.ltb_spec (srt a) 31); [by apply hushed_x_set|apply hushed_ret]. Qed.

(** *** The processor *)

Lemma wf_ppi_enabled i e c : cpu_wf c -> cpu_wf (set_ppi_enabled i e c).
Proof. intros []. unfold set_ppi_enabled. destruct (32 <=? i), e; by split. Qed.
Lemma wf_deactivate i c : cpu_wf c -> cpu_wf (deactivate_physical i c).
Proof. intros []. unfold deactivate_physical. destruct (32 <=? i); by split. Qed.
Lemma wf_ack i c : cpu_wf c -> cpu_wf (ack_physical i c).
Proof. intros []. unfold ack_physical. destruct (32 <=? i); by split. Qed.
Lemma wf_write_reg r v c : cpu_wf c -> cpu_wf (write_reg r v c).
Proof. intros []. unfold write_reg. split; cbn; rewrite ?vlen_vset; done. Qed.
Lemma hushed_advance : hushed (on_cpu advance_elr_past_fault).
Proof. apply hushed_cpu. intros c Hc. by apply wf_write_reg. Qed.
Lemma place_wf vtr l c : cpu_wf c -> cpu_wf (place vtr l c).1.
Proof.
  intros Hc. destruct (place_finds vtr l c) as [(c' & -> & Hp)|[-> _] ]; [by eapply placed_wf|done].
Qed.
Lemma inject_hw_wf vtr v p c : cpu_wf c -> cpu_wf (inject_hw vtr v p c).1.
Proof. intros Hc. unfold inject_hw. case_match; [by apply place_wf|done]. Qed.

(** *** Deliveries *)

Lemma counts_same f pg pg' w g : (forall w g, pg w g <= u64_max) -> counts f pg pg' -> f w g = 0 -> pg' w g = pg w g.
Proof. intros Hb Hc Hf. rewrite (Hc w g), Hf, N.add_0_r. apply N.mod_small. specialize (Hb w g). lia. Qed.

(** A delivery, after tallies of its own, disturbs nothing. *)
Lemma delivers_quiet vtr r names i w1 w2 w3 w4 n s s' pg f : devices_ok s -> counts f (per_guest s) pg ->
  (forall g, f RETIREMENT g = 0) -> delivers vtr r names i w1 w2 w3 w4 n (lset per_guest_l pg s) s' ->
  ~ (RETIREMENT = w1 \/ RETIREMENT = w2 \/ RETIREMENT = w3 \/ RETIREMENT = w4) -> quiet s s'.
Proof.
  intros Hs Hc Hz (c & p & pg' & f' & -> & Hd & Hc' & (kd & kf & kr & _ & Hf') & _) Hw.
  assert (Hb : forall w g, per_guest s w g <= u64_max) by apply (dl_tally _ (sb_deliverable _ (dv_switch _ Hs))).
  apply (quiet_after c p pg' s); [done|]. intros g.
  rewrite (counts_same _ _ _ RETIREMENT g (counts_bound _ _ _ Hc) Hc'); [by eapply counts_same|].
  rewrite Hf'. unfold tally. rewrite !decide_False by naive_solver. done.
Qed.

Lemma hushed_sgi vtr value : hushed (deliver_sgi vtr value).
Proof.
  intros s Hs. pose proof (sb_deliverable _ (dv_switch _ Hs)) as Hd.
  eapply wp_mono; [by apply wp_deliver_sgi|]. cbn beta. intros s' [] (pg & f & Hc & Hz & D).
  eapply (delivers_quiet vtr); [done|exact Hc| |exact D|by intros [?|[?|[?|?] ] ] ].
  intros g. apply Hz. by left.
Qed.
Lemma hushed_spi vtr route r i : i < NUM_INTIDS ->
  forall s, devices_ok s -> unpack (current s) = r -> wp (deliver_spi vtr route r i) (fun s' _ => quiet s s') s.
Proof.
  intros Hi s Hs <-. pose proof (sb_deliverable _ (dv_switch _ Hs)) as Hd.
  eapply wp_mono; [by apply wp_deliver_spi|]. cbn beta. intros s' [] (pg & f & Hc & Hz & D).
  eapply (delivers_quiet vtr); [done|exact Hc| |exact D|by intros [?|[?|[?|?] ] ] ].
  intros g. apply Hz. by left.
Qed.

Lemma hushed_flush vtr g v : names_vcpu NUM_GUESTS (g, v) -> hushed (flush_pending_to_lrs vtr g v SGIS_DRAINED).
Proof.
  intros Hn s Hs. pose proof (sb_deliverable _ (dv_switch _ Hs)) as Hd.
  eapply wp_mono; [by apply wp_flush|]. cbn beta.
  intros s' k (c & p & pg & q & q' & taken & armed & -> & Hd' & _ & _ & _ & _ & _ & _ & Hc & _ & _).
  apply quiet_after; [done|]. intros g'. eapply counts_same; [apply Hd|done|]. unfold tally.
  by rewrite decide_False by naive_solver.
Qed.

(** *** Operations for the vCPU that runs *)

Definition hushed_by {T} (r : Running) (m : M Linux T) : Prop :=
  forall s, devices_ok s -> unpack (current s) = r -> wp m (fun s' _ => quiet s s') s.
Lemma hushed_any {T} r (m : M Linux T) : hushed m -> hushed_by r m.
Proof. intros H s Hs _. by apply H. Qed.
Lemma by_bind {T U} r (m : M Linux T) (k : T -> M Linux U) : hushed_by r m -> (forall x, hushed_by r (k x)) -> hushed_by r (bind m k).
Proof.
  intros Hm Hk s Hs Hr. wp_step. eapply wp_mono; [by apply Hm|]. cbn beta. intros s1 x Hq.
  eapply wp_mono; [apply Hk; [apply (mi_devices _ _ (proj1 Hq)), Hs|by rewrite (mi_current _ _ (proj1 Hq))]|].
  cbn beta. intros s2 y Hq2. by eapply quiet_trans.
Qed.
Lemma hushed_for_each {X} (l : list X) (f : X -> M Linux unit) : (forall x, x ∈ l -> hushed (f x)) -> hushed (for_each l f).
Proof.
  intros Hf s Hs. apply wp_for_each_inv with (I := fun s' => quiet s s'); [apply quiet_refl| |done].
  intros x s1 Hx Hq. eapply wp_mono; [apply (Hf x Hx), (mi_devices _ _ (proj1 Hq)), Hs|].
  cbn beta. intros s2 [] Hq2. by eapply quiet_trans.
Qed.

Create HintDb hush.
#[local] Hint Resolve hushed_ret hushed_gets hushed_load_g hushed_tally hushed_word hushed_vword hushed_store_g
  hushed_arm_slice hushed_console hushed_enabled hushed_route hushed_gic_read hushed_gic_write hushed_uart_read
  hushed_uart_write hushed_x_get hushed_x_set hushed_store_value hushed_load_result hushed_advance hushed_sgi
  hushed_flush hushed_any : hush.
(** The structure of an operation. *)
Ltac hush_step := lazymatch goal with
  | |- hushed (bind _ _) => apply hushed_bind; [|intros ?]
  | |- hushed_by _ (bind _ _) => apply by_bind; [|intros ?]
  | |- hushed (tbind _ _) => apply hushed_bind; [|intros ?]
  | |- hushed (match ?x with _ => _ end) => destruct x eqn:?
  | |- hushed_by _ (match ?x with _ => _ end) => destruct x eqn:?
  end; cbn beta.
Ltac not_lasting := try (intros [?|?]; discriminate).
Ltac hush := repeat hush_step; eauto with hush.

Lemma hushed_arm_witness r route : on_machine NUM_GUESTS r -> hushed (arm_spi_witness r route).
Proof. intros [Hg _]. simpl in Hg. unfold arm_spi_witness. hush. apply hushed_store_g; [done|not_lasting|done]. Qed.
Lemma hushed_witness vtr r : on_machine NUM_GUESTS r -> hushed_by r (maybe_fire_spi_witness vtr r).
Proof.
  intros [Hg _]. simpl in Hg. unfold maybe_fire_spi_witness. hush.
  - apply hushed_any, hushed_store_g; [done|not_lasting|done].
  - intros ? ? ?. by apply hushed_spi.
Qed.

Section Traps.
Context (b : Board) (part : Partition) (vtr midr freq : N) (clock : N -> N).
Context (Hwin : windows_ok b) (Hov : overflow_checks b = false).
Context (HW : WF part) (Hpg : num_guests part = NUM_GUESTS).

(** *** Handlers *)

(** A handler for the vCPU [r]: from the invariant it returns and the machine goes on. *)
Definition served {T} (r : Running) (m : M Linux T) : Prop :=
  forall s, linux_ok b s -> unpack (current s) = r -> wp m (fun s' _ => goes_on b s s') s.

Lemma linux_quiet s s' : linux_ok b s -> quiet s s' -> linux_ok b s'.
Proof.
  intros [Hg Hr] Hq. assert (E : the_running s' = the_running s).
  { unfold the_running. by rewrite (mi_current _ _ (proj1 Hq)). }
  destruct (quiet_kept b _ _ _ Hg Hr Hq) as [? ?]. split; [by rewrite E|done].
Qed.
Lemma linux_devices s : linux_ok b s -> devices_ok s.
Proof. intros Hs. apply Hs. Qed.
Lemma goes_fates s s' : linux_ok b s' -> fates s s' -> goes_on b s s'.
Proof. intros Hs [Hf Ho]. split; [by left|intros g; by rewrite Hf|]. intros g _. split; [apply Hf|apply Ho]. Qed.
Lemma quiet_goes s s1 s2 : quiet s s1 -> goes_on b s1 s2 -> goes_on b s s2.
Proof.
  intros [Hm Ew] [H1 H2 H3]. split; [done|intros g Hg; apply H2; by rewrite (mi_fates _ _ Hm)|].
  intros g Hg. rewrite <- (mi_current _ _ Hm) in Hg. destruct (H3 g Hg) as [H4 H5].
  rewrite <- (mi_fates _ _ Hm g), <- Ew. by split.
Qed.

Lemma served_bind {T U} r (m : M Linux T) (k : T -> M Linux U) : hushed_by r m -> (forall x, served r (k x)) -> served r (bind m k).
Proof.
  intros Hm Hk s Hs Hr. wp_step. eapply wp_mono; [by apply Hm; [apply linux_devices|]|]. cbn beta. intros s1 x Hq.
  eapply wp_mono; [apply Hk; [by eapply linux_quiet|by rewrite (mi_current _ _ (proj1 Hq))]|].
  cbn beta. intros s2 y. by apply quiet_goes.
Qed.
Lemma served_hushed {T} r (m : M Linux T) : hushed_by r m -> served r m.
Proof.
  intros Hm s Hs Hr. eapply wp_mono; [by apply Hm; [apply linux_devices|]|]. cbn beta. intros s' x Hq.
  apply goes_fates; [by eapply linux_quiet|by apply quiet_fates].
Qed.
Lemma served_current {T} r (k : Running -> M Linux T) : served r (k r) -> served r (bind current_vcpu k).
Proof. intros Hk s Hs Hr. unfold current_vcpu. wp_step. wp_step. rewrite Hr. by apply Hk. Qed.

Lemma running_on s : linux_ok b s -> on_machine NUM_GUESTS (unpack (current s)).
Proof. intros Hs. apply (dl_running _ (sb_deliverable _ (dv_switch _ (linux_devices _ Hs)))). Qed.

(** The machine stops with nothing left to run. *)
Lemma wp_end_of_boot s : idle_ok b s -> wp end_of_boot (fun s' _ => stopped s' /\ fates s s') s.
Proof.
  intros [Hg Hr Ho]. unfold end_of_boot. wp_step.
  eapply wp_mono; [eapply hushed_for_each; [|apply Hg]|].
  { intros slot Hs%elem_vrange. exact (hushed_console (Console.Flush slot) Hs). }
  cbn beta. intros s' [] Hq. wp_step. destruct (quiet_kept b _ _ _ Hg Hr Hq) as [_ Hr'].
  split; [|split; [apply Hq|intros g v Hn _; by apply Ho] ]. split; [done|exact Hr'|].
  intros g v Hn. cbn. rewrite (proj2 Hq). by apply Ho.
Qed.

Lemma served_retire r why (k : bool -> M Linux unit) : why <> Live -> k = (fun handed : bool => if handed then ret tt else end_of_boot) ->
  served r (bind (retire_and_hand_over b part vtr midr freq clock r why) k).
Proof.
  intros Hw -> s Hs <-. wp_step. eapply wp_mono; [by apply wp_retire|]. cbn beta. intros s' handed [ [Hc1 Hc2 Hc3] H].
  assert (Hd : forall g, per_guest s RETIREMENT g <> 0 -> per_guest s' RETIREMENT g <> 0).
  { intros g Hg. destruct (decide (g = run_guest (unpack (current s)))) as [->|Hne]; [done|]. by rewrite Hc2. }
  destruct handed; cbn beta iota.
  - wp_step. split; [by left|done|]. intros g Hg. split; [by apply Hc2|]. intros v. by apply Hc3.
  - eapply wp_mono; [by apply wp_end_of_boot|]. cbn beta. intros s2 [] [Hst [Hf Ho] ]. split; [by right| |].
    + intros g Hg. rewrite Hf. by apply Hd.
    + intros g Hg. rewrite Hf. split; [by apply Hc2|]. intros v Hn E. by apply Hc3, Ho.
Qed.
Lemma served_fault r : on_machine NUM_GUESTS r -> served r (fault_retire b part vtr midr freq clock r).
Proof.
  intros [Hg _]. unfold fault_retire. apply served_bind; [|intros _; by apply served_retire].
  apply hushed_any. exact (hushed_console (Console.Flush (run_guest r)) Hg).
Qed.
Lemma served_preempt r : served r (preempt_through_the_scheduler b part vtr midr freq clock r).
Proof.
  intros s Hs <-. eapply wp_mono; [by apply wp_preempt_all|]. cbn beta. intros s' [] [ [Hok Hf] _]. by apply goes_fates.
Qed.

(** A guest that runs is not retired. *)
Lemma running_live s : linux_ok b s -> per_guest s RETIREMENT (run_guest (unpack (current s))) = 0.
Proof.
  intros [Hg Hr]. pose proof (so_who _ _ _ (go_sched _ _ _ Hg) _ _ eq_refl) as Hn.
  pose proof (who_running b _ _ _ (go_sched _ _ _ Hg)) as Hrun.
  destruct (decide (per_guest s RETIREMENT (run_guest (unpack (current s))) = 0)) as [|Hne]; [done|].
  rewrite (Hr _ _ Hn Hne) in Hrun. done.
Qed.

(** The block, the run and the switch of an idle wait. *)
Definition idle_wait (r : Running) (peer : Incoming) : M Linux unit :=
  let! t := now clock in
  let! dom := slot_dom part (run_guest r) in
  sched_on b dom (SchedBlock (model_idx (run_vcpu r)) t) ;!
  fetch_add_v VCPUS_BLOCKED (run_guest r) (run_vcpu r) ;!
  let! st := state_of part (run_guest r) (run_vcpu r) in
  (if decide (st = Some Sched.Blocked) then fetch_add_v BLOCKED_READBACK_OK (run_guest r) (run_vcpu r) else ret tt) ;!
  let! dom := slot_dom part (inc_guest peer) in
  sched_on b dom (scheduler_run peer t) ;!
  fetch_add_g WFI_YIELDS (run_guest r) 1 ;!
  switch_context b vtr midr freq clock (now_leaving r) peer.

Lemma wp_idle_wait s peer : linux_ok b s -> names_vcpu NUM_GUESTS (inc_guest peer, inc_vcpu peer) ->
  run_state (world s) (inc_guest peer) (inc_vcpu peer) = Some Runnable ->
  wp (idle_wait (unpack (current s)) peer) (fun s' _ => linux_ok b s' /\ fates s s') s.
Proof.
  intros [Hs Hret] Hn Hrun. set (r := unpack (current s)).
  pose proof (so_who _ _ _ (go_sched _ _ _ Hs) (run_guest r) (run_vcpu r) eq_refl) as Hr.
  unfold idle_wait. wp_step. apply wp_now. intros n. wp_step. apply wp_slot_dom; [done|done|apply Hr|]. wp_step.
  destruct (quiet_kept b s _ _ Hs Hret (quiet_ticks n s)) as [Hs1 Hr1].
  eapply wp_mono; [exact (wp_call_block b Hwin _ _ _ _ (go_sched _ _ _ Hs1))|]. cbn beta. intros s2 [] Hc.
  destruct (called_kept b _ _ _ _ _ _ _ Hs1 Hr1 Hc) as (Hs2 & Hr2 & Hm2 & Hmv); [|done|].
  { intros _. exists (Sched.Running PCPU0). split; [done|]. apply (who_running b), Hs1. }
  wp_step. apply wp_fetch_add_v; [done|done|]. intros s3 Hq3. wp_step. apply wp_state_of; [done|done|done|].
  wp_step. assert (Hmark : forall s4, quiet s3 s4 -> wp (let! dom := slot_dom part (inc_guest peer) in
    sched_on b dom (scheduler_run peer (clock (ticks_read s))) ;! fetch_add_g WFI_YIELDS (run_guest r) 1 ;!
    switch_context b vtr midr freq clock (now_leaving r) peer) (fun s' _ => linux_ok b s' /\ fates s s') s4).
  { intros s4 Hq4. assert (Hq : quiet s2 s4) by (by eapply quiet_trans).
    destruct (quiet_kept b _ _ _ Hs2 Hr2 Hq) as [Hs4 Hr4]. wp_step. apply wp_slot_dom; [done|done|apply Hn|]. wp_step.
    eapply wp_mono; [apply (wp_take b Hwin); [done|done|done|]|].
    - rewrite (proj2 Hq), (Hmv _ _ Hn), decide_False; [done|]. intros [Eg Ev].
      rewrite Eg, Ev in Hrun. pose proof (who_running b _ _ _ (go_sched _ _ _ Hs)). congruence.
    - cbn beta. intros s5 [] (Hs5 & Hr5 & Hm5 & Hst5). wp_step. apply wp_tally; [apply Hr|not_lasting|]. intros pg Hpg'.
      destruct (quiet_kept b _ _ _ Hs5 Hr5 (quiet_words pg s5 Hpg')) as [Hs6 Hr6].
      assert (Hm : mild s (lset per_guest_l pg s5)).
      { eapply mild_trans; [apply (quiet_ticks n s)|]. eapply mild_trans; [exact Hm2|]. eapply mild_trans; [apply Hq|].
        eapply mild_trans; [exact Hm5|]. by apply quiet_words. }
      unfold r. rewrite <- (mi_current _ _ Hm). eapply wp_mono; [by apply (wp_switch_ok b vtr midr freq clock Hov)|].
      cbn beta. intros s7 [] [ [Hok Hf] _]. split; [done|]. eapply fates_trans; [split; [apply Hm|]|exact Hf].
      intros g v Hg E. apply (moved_stands s s2 _ _ _ Hmv); [done|done|]. rewrite <- (proj2 Hq). by apply Hst5. }
  wp_step; [apply wp_fetch_add_v; [done|done|]; intros s4 Hq4; by apply Hmark|].
  wp_step. apply Hmark, quiet_refl.
Qed.

Lemma served_wfi r : on_machine NUM_GUESTS r -> served r (handle_linux_wfi b part vtr midr freq clock).
Proof.
  intros [Hg Hv]. unfold handle_linux_wfi. apply served_current.
  apply served_bind; [apply hushed_any, hushed_tally; [done|not_lasting]|intros _].
  apply served_bind; [by apply hushed_witness|intros _].
  apply served_bind; [apply hushed_any, hushed_advance|intros _].
  intros s Hs <-. wp_step. apply wp_next_runnable; [done|done|by apply running_on|].
  destruct (next_of (world s) (unpack (current s))) as [peer|] eqn:En; cbn beta iota.
  - destruct (next_of_Some _ _ _ (running_on _ Hs) En) as [Hn Hrun].
    eapply wp_mono; [by apply wp_idle_wait|]. cbn beta. intros s' [] [Hok Hf]. by apply goes_fates.
  - wp_step. apply goes_fates; [done|apply quiet_fates, quiet_refl].
Qed.

(** *** Starting a vCPU *)

(** The state with a fresh context for one vCPU. *)
Definition seeded (g : N) (v : VcpuIdx) (k : VcpuCtx) (s : Linux) : Linux :=
  lset per_vcpu_l (fun w' g' v' => if decide (w' = VCPU_SEEDED /\ g' = g /\ v' = idx v) then 1
    else per_vcpu s w' g' v') (lset ctxs_l (tset (ctxs s) g (idx v) k) s).

Lemma seeded_ok s who g v k : guests_ok b s who -> names_vcpu NUM_GUESTS (g, v) -> ctx_wf k ->
  guests_ok b (seeded g v k s) who.
Proof.
  intros [S1 S2 S3] Hn Hk. split; [done| |].
  - intros g' v' Hn' Hr. cbn. case_decide; [done|]. by apply S2.
  - destruct S3 as [ [D K G] U C L]. split; [|done|done|done]. split; [destruct D; by split| |done].
    intros g' v' Hn'. destruct (K _ _ Hn') as (k' & Hk' & Hw'). cbn. rewrite tget_tset.
    case_decide; [by exists k|by exists k'].
Qed.

Lemma wp_seed {T} g v k (m : M Linux T) (Q : Linux -> T -> Prop) s : devices_ok s -> names_vcpu NUM_GUESTS (g, v) ->
  wp m Q (seeded g v k s) ->
  wp (at_vcpu ctxs_l g v (modify (fun _ => k)) ;! store_v VCPU_SEEDED g v 1 ;! m) Q s.
Proof.
  intros Hs Hn HQ. destruct (sb_ctxs _ (dv_switch _ Hs) _ _ Hn) as (k0 & Hk0 & _). wp_step.
  apply (wp_at_vcpu ctxs_l g v _ _ s k0 Hk0). wp_step. wp_step. unfold store_v, in_vcpu. destruct Hn as [Hg Hv].
  simpl in Hg, Hv. rewrite (proj2 (N.ltb_lt g _) Hg), (proj2 (N.ltb_lt (idx v) _) Hv). cbn [andb]. by do 3 wp_step.
Qed.

Lemma hushed_refuse g code : g < NUM_GUESTS -> hushed (refuse g code).
Proof. intros Hg. unfold refuse. hush. apply hushed_tally; [done|not_lasting]. Qed.

Lemma served_cpu_on r mpidr entry x0 (k : N -> M Linux unit) : on_machine NUM_GUESTS r -> (forall code, hushed (k code)) ->
  served r (bind (cpu_on b part r mpidr entry x0) k).
Proof.
  intros Hr Hk s Hs <-. set (r := unpack (current s)) in *. wp_step.
  assert (Hdone : forall s' code, linux_ok b s' -> fates s s' -> wp (k code) (fun s2 _ => goes_on b s s2) s').
  { intros s' code Hs' Hf. eapply wp_mono; [by apply Hk; apply linux_devices|]. cbn beta. intros s2 [] Hq.
    apply goes_fates; [by eapply linux_quiet|]. eapply fates_trans; [done|by apply quiet_fates]. }
  assert (Hno : forall code, wp (refuse (run_guest r) code) (fun s' a => wp (k a) (fun s2 _ => goes_on b s s2) s') s).
  { intros code. eapply wp_mono; [by apply hushed_refuse; [apply Hr|apply linux_devices]|]. cbn beta. intros s' c Hq.
    apply Hdone; [by eapply linux_quiet|by apply quiet_fates]. }
  unfold cpu_on. cbn zeta. destruct (List.find _ _) as [o|] eqn:Hfind; [|apply Hno].
  apply List.find_some in Hfind as [Hin _]. destruct (own_names r o Hr) as [Eg Hn]; [by apply list_elem_of_In|].
  destruct o as [g v]. cbn [own_guest own_vcpu] in *. subst g. wp_step. unfold guest_owning.
  destruct (owner_of_Done part HW entry s) as (ow & E & _). eapply wp_of_Done; [exact E|]. wp_step; [apply Hno|].
  wp_step. apply wp_state_of; [done|done|done|]. wp_step; [apply Hno|].
  assert (Hst : run_state (world s) (run_guest r) v = Some Offline) by (by destruct (decide (run_state (world s) (run_guest r) v = Some Offline))).
  do 2 wp_step. pose proof Hs as [Hg Hret].
  set (k0 := seed_boot _ _ _ _). apply wp_seed; [by apply linux_devices|done|]. set (s1 := seeded _ _ _ s).
  assert (Hs1 : guests_ok b s1 (the_running s)) by (apply seeded_ok; [done|done|apply seed_boot_wf]).
  assert (Hr1 : retired s1) by exact Hret.
  wp_step. apply wp_tally; [apply Hr|not_lasting|]. intros pg Hpg1. set (s2 := lset per_guest_l pg s1).
  destruct (quiet_kept b _ _ _ Hs1 Hr1 (quiet_words pg s1 Hpg1)) as [Hs2 Hr2]. fold s2 in Hs2, Hr2.
  wp_step. apply wp_slot_dom; [done|done|apply Hr|]. wp_step.
  eapply wp_mono; [by apply (wp_call_admit b Hwin s2 _ _ _ (go_sched _ _ _ Hs2) Hn)|]. cbn beta. intros s3 [] Hc.
  assert (Hz : per_guest s2 RETIREMENT (run_guest r) = 0).
  { transitivity (per_guest s1 RETIREMENT (run_guest r)); [apply Hpg1; by right|by apply running_live]. }
  destruct (called_ok b _ _ _ _ _ _ _ Hs2 Hc) as [Hs3 Hm3].
  { intros _. subst s2 s1. cbn. by rewrite decide_True. }
  assert (Hr3 : retired s3) by (eapply called_retired; [done..|]; by rewrite Hz).
  wp_step. apply wp_tally; [apply Hr|not_lasting|]. intros pg3 Hpg3. wp_step.
  destruct (quiet_kept b _ _ _ Hs3 Hr3 (quiet_words pg3 s3 Hpg3)) as [Hs4 Hr4].
  apply Hdone.
  - assert (Hcur : the_running (lset per_guest_l pg3 s3) = the_running s).
    { unfold the_running. cbn. by rewrite (mi_current _ _ Hm3). }
    split; [by rewrite Hcur|done].
  - split; [|apply (moved_stands s s3 (run_guest r) v Runnable); [by destruct Hc as (w' & -> & _ & Hmv)|done] ].
    intros g. cbn [per_guest lset per_guest_l]. rewrite (proj1 Hpg3 RETIREMENT g), (mi_fates _ _ Hm3 g) by (by right). apply Hpg1. by right.
Qed.

(** *** Traps *)

Lemma served_psci r : on_machine NUM_GUESTS r -> served r (handle_psci b part vtr midr freq clock).
Proof.
  intros Hr. pose proof Hr as [Hg _]. simpl in Hg. unfold handle_psci.
  assert (Hx : forall n, n < 31 -> hushed_by r (x_get n)) by (intros n Hn; by apply hushed_any, hushed_x_get).
  assert (Hw : forall v, served r (x_set 0 v)) by (intros v; by apply served_hushed, hushed_any, hushed_x_set).
  apply served_bind; [by apply Hx|intros fid].
  destruct (fid =? PSCI_VERSION_FID); [apply Hw|]. destruct (fid =? PSCI_FEATURES_FID).
  { apply served_bind; [by apply Hx|]. intros which. apply Hw. }
  destruct (fid =? PSCI_SYSTEM_OFF_FID).
  { apply served_current, served_bind.
    - apply hushed_any. exact (hushed_console (Console.Flush (run_guest r)) Hg).
    - intros _. by apply served_retire. }
  destruct (fid =? PSCI_CPU_ON_FID); [|apply Hw].
  do 3 (apply served_bind; [by apply Hx|intros ?]).
  apply served_current, served_cpu_on; [done|]. intros code. by apply hushed_x_set.
Qed.

Lemma served_sysreg r esr : on_machine NUM_GUESTS r -> served r (handle_linux_sysreg_trap b part vtr midr freq clock esr).
Proof.
  intros Hr. unfold handle_linux_sysreg_trap. cbn zeta.
  destruct (_ && _); [|by apply served_current, served_fault].
  apply served_hushed. apply by_bind.
  - destruct (N.ltb_spec (N.land (N.shiftr (N.land esr 0x01ffffff) 5) 0x1f) 31); eauto with hush.
  - intros value. hush.
Qed.

Lemma served_vgic r a ipa : on_machine NUM_GUESTS r -> ipa <= u64_max ->
  served r (handle_vgic_access b part vtr midr freq clock a ipa).
Proof.
  intros Hr Hipa. pose proof Hr as [Hg _]. simpl in Hg. unfold handle_vgic_access.
  destruct (undecodable a); [by apply served_current, served_fault|].
  apply served_current, served_bind.
  { apply hushed_any. hush. }
  intros outcome. apply served_bind; [by apply hushed_any, hushed_enabled|]. intros e.
  apply served_bind; [by apply hushed_any, hushed_route|]. intros route. apply served_bind.
  { destruct (wnr a); [|apply hushed_any, hushed_ret]. apply hushed_any, hushed_bind.
    - apply hushed_cpu. intros c. by apply wf_ppi_enabled.
    - intros _. by apply hushed_arm_witness. }
  intros _. destruct outcome; [apply served_hushed, hushed_any, hushed_advance|by apply served_fault].
Qed.

Lemma served_uart r a off : on_machine NUM_GUESTS r -> served r (handle_uart_access a off (run_guest r)).
Proof.
  intros [Hg _]. simpl in Hg. unfold handle_uart_access. apply served_hushed, hushed_any, hushed_bind; [hush|].
  intros out. apply hushed_bind; [|intros _; apply hushed_advance]. destruct out as [byte|]; [|apply hushed_ret].
  exact (hushed_console (Console.Put (run_guest r) byte) Hg).
Qed.

Lemma wp_wrapped x y (Q : Linux -> N -> Prop) s : Q s ((x + y) mod (u64_max + 1)) -> wp (uplus b x y) Q s.
Proof.
  intros HQ. unfold uplus. rewrite Hov. case_decide; wp_step; [|done]. by rewrite N.mod_small in HQ by lia.
Qed.

Lemma first_fault s g : linux_ok b s -> ((per_guest s PEER_FAULTS g + 1) mod (u64_max + 1) =? 1) = true ->
  per_guest s PEER_FAULTS g = 0.
Proof.
  intros Hs E%N.eqb_eq. pose proof (dl_tally _ (sb_deliverable _ (dv_switch _ (linux_devices _ Hs))) PEER_FAULTS g) as Hb.
  destruct (N.eq_dec (per_guest s PEER_FAULTS g) u64_max) as [Em|].
  - rewrite Em, N.Div0.mod_same in E. done.
  - rewrite N.mod_small in E by lia. lia.
Qed.

Lemma wp_peer_fault s owner ipa : linux_ok b s -> owner < NUM_GUESTS ->
  (per_guest s PEER_FAULTS (run_guest (unpack (current s))) = 0 ->
     peer_refused part s (run_guest (unpack (current s))) owner ipa = true) ->
  wp (handle_peer_fault b part vtr midr freq clock (run_guest (unpack (current s))) owner ipa)
    (fun s' _ => goes_on b s s') s.
Proof.
  intros Hs Ho Hd. set (r := unpack (current s)) in *. pose proof (running_on _ Hs) as Hr. fold r in Hr.
  unfold handle_peer_fault. wp_step. apply wp_load_g; [apply Hr|]. wp_step. apply wp_tally; [apply Hr|not_lasting|].
  intros pg Hpg1. set (s1 := lset per_guest_l pg s). assert (Hq : quiet s s1) by by apply quiet_words.
  assert (Hs1 : linux_ok b s1) by (by eapply linux_quiet).
  assert (Hadv : wp (on_cpu advance_elr_past_fault) (fun s' _ => goes_on b s s') s1).
  { eapply wp_mono; [by apply hushed_advance, linux_devices|]. cbn beta. intros s2 [] Hq2.
    apply goes_fates; [by eapply linux_quiet|]. eapply fates_trans; by apply quiet_fates. }
  wp_step. apply wp_wrapped. destruct (MAX_PEER_FAULTS <? _).
  { eapply wp_mono; [exact (served_current r _ (served_fault r Hr) s1 Hs1 eq_refl)|]. cbn beta. intros s2 [].
    by apply quiet_goes. }
  destruct (_ =? 1) eqn:E1; [|by do 2 wp_step].
  specialize (Hd (first_fault _ _ Hs E1)). unfold peer_refused in Hd.
  assert (Hv : forall g, per_guest s1 VTTBR g = per_guest s VTTBR g) by (intros g; apply Hpg1; by left).
  wp_step. wp_step. apply wp_load_g; [done|]. wp_step. apply wp_load_g; [apply Hr|]. do 3 wp_step.
  unfold peer_payload_at. wp_step. eapply wp_of_Done; [apply window_base_Done; [done|by rewrite Hpg]|].
  wp_step. apply wp_wrapped. wp_step. rewrite !Hv. change (world s1) with (world s). rewrite Hd. by wp_step.
Qed.

Lemma served_abort r esr far hpfar s : linux_ok b s -> unpack (current s) = r -> full_ipa hpfar far <= u64_max ->
  diagnosed part s (full_ipa hpfar far) ->
  wp (handle_linux_data_abort b part vtr midr freq clock esr far hpfar) (fun s' _ => goes_on b s s') s.
Proof.
  intros Hs Hr Hipa Hd. assert (Hon : on_machine NUM_GUESTS r) by (rewrite <- Hr; by apply running_on).
  unfold handle_linux_data_abort. cbn zeta. set (ipa := full_ipa hpfar far) in *.
  destruct (Gicv3.in_window LAYOUT ipa); [by apply (served_vgic r)|].
  unfold current_vcpu. do 2 wp_step. rewrite Hr. wp_step. unfold guest_owning.
  destruct (owner_of_Done part HW ipa s) as (ow & E & How). eapply wp_of_Done; [exact E|].
  assert (Hfault : wp (fault_retire b part vtr midr freq clock r) (fun s' _ => goes_on b s s') s) by (by apply served_fault).
  destruct ow as [owner|].
  - destruct (owner =? run_guest r) eqn:Eo; cbn [negb]; [done|]. apply N.eqb_neq in Eo.
    destruct (proj1 (How owner) eq_refl) as [Hlt Hin]. rewrite Hpg in Hlt. rewrite <- Hr.
    apply wp_peer_fault; [done|done|]. intros Hz. apply Hd; [done|by rewrite Hr|done|done].
  - destruct (negb (uart_window ipa)); [done|]. destruct (undecodable _); [done|].
    destruct (negb (is_multiple_of _ _)); [done|]. by apply served_uart.
Qed.

Lemma wp_sync esr far hpfar s : linux_ok b s -> full_ipa hpfar far <= u64_max -> diagnosed part s (full_ipa hpfar far) ->
  wp (handle_linux_sync b part vtr midr freq clock esr far hpfar) (fun s' _ => goes_on b s s') s.
Proof.
  intros Hs Hipa Hd. pose proof (running_on _ Hs) as Hr. unfold handle_linux_sync. cbn zeta.
  destruct (_ =? EC_DATA_ABORT); [by eapply served_abort|].
  destruct (_ && _); [by eapply served_wfi|]. destruct (_ =? EC_SYSREG); [by eapply served_sysreg|].
  destruct (_ =? EC_HVC); [by eapply served_psci|]. exact (served_current _ _ (served_fault _ Hr) s Hs eq_refl).
Qed.

(** *** Interrupts *)

Lemma release_hyp_wf c : cpu_wf c -> cpu_wf (release_hyp_timer c).1.
Proof. intros Hc. exact (wf_deactivate HYP_TIMER_INTID c Hc). Qed.

Lemma served_irq r intid : on_machine NUM_GUESTS r -> expected intid ->
  served r (handle_linux_irq b part vtr midr freq clock intid).
Proof.
  intros Hr Hexp. pose proof Hr as [Hg _]. simpl in Hg. unfold handle_linux_irq.
  apply served_bind; [apply hushed_any, hushed_cpu; intros c; apply wf_ack|intros _]. apply served_current.
  cbn zeta. destruct (N.eqb_spec intid HYP_TIMER_INTID).
  { apply served_bind; [by apply hushed_any, hushed_arm_slice|intros _].
    apply served_bind; [apply hushed_any, hushed_word|intros _].
    apply served_bind; [apply hushed_any, hushed_of_cpu, release_hyp_wf|intros rel].
    apply served_bind; [destruct rel; apply hushed_any; auto with hush|intros _]. apply served_preempt. }
  destruct (N.eqb_spec intid VTIMER_INTID).
  { apply served_hushed, hushed_any, hushed_bind; [by apply hushed_enabled|intros on]. destruct (negb on).
    - apply hushed_bind; [apply hushed_cpu; intros c; apply wf_ppi_enabled|intros _]. apply hushed_cpu. intros c. apply wf_deactivate.
    - apply hushed_bind; [apply hushed_of_cpu; intros c; apply inject_hw_wf|intros placed].
      destruct (negb placed); (apply hushed_tally; [done|not_lasting]). }
  destruct (N.eqb_spec intid MAINT_INTID).
  { apply served_hushed, hushed_any, hushed_bind; [apply hushed_tally; [done|not_lasting]|intros _].
    apply hushed_bind; [by apply hushed_flush|intros _]. apply hushed_cpu. intros c. apply wf_deactivate. }
  destruct (N.leb_spec 1020 intid); [apply served_hushed, hushed_any, hushed_ret|].
  exfalso. destruct Hexp as [?|[?|[?|?] ] ]; [done..|lia].
Qed.

(** The slice of the running vCPU expired. *)
Lemma wp_slice s : linux_ok b s ->
  wp (handle_linux_irq b part vtr midr freq clock HYP_TIMER_INTID)
    (fun s' _ => linux_ok b s' /\ the_running s' = successor (world s) (unpack (current s)) /\ level s s') s.
Proof.
  intros Hs. unfold handle_linux_irq. wp_step.
  assert (Hgo : forall {T} (m : M Linux T) (k : T -> M Linux unit) s1, quiet s s1 -> hushed m ->
    (forall s2 x, quiet s s2 -> wp (k x) (fun s' _ => linux_ok b s' /\
      the_running s' = successor (world s) (unpack (current s)) /\ level s s') s2) ->
    wp m (fun s2 x => wp (k x) (fun s' _ => linux_ok b s' /\
      the_running s' = successor (world s) (unpack (current s)) /\ level s s') s2) s1).
  { intros T m k s1 Hq Hm Hk. eapply wp_mono; [apply Hm, linux_devices; by eapply linux_quiet|]. cbn beta.
    intros s2 x Hq2. apply Hk. by eapply quiet_trans. }
  apply Hgo; [apply quiet_refl|apply hushed_cpu; intros c; apply wf_ack|]. intros s1 [] Hq1.
  unfold current_vcpu. do 2 wp_step. cbn zeta. rewrite N.eqb_refl.
  rewrite (mi_current _ _ (proj1 Hq1)). set (r := unpack (current s)).
  wp_step. apply Hgo; [done|by apply hushed_arm_slice|]. intros s2 t Hq2.
  wp_step. apply Hgo; [done|apply hushed_word|]. intros s3 [] Hq3.
  wp_step. apply Hgo; [done|apply hushed_of_cpu, release_hyp_wf|]. intros s4 rel Hq4.
  wp_step. apply Hgo; [done|destruct rel; auto with hush|]. intros s5 [] [Hm5 Hw5].
  unfold r. rewrite <- (mi_current _ _ Hm5). eapply wp_mono; [apply wp_preempt_all; try done; by eapply linux_quiet|].
  cbn beta. intros s6 [] ([Hok _] & Hwho & Hl). split_and!; [done| |].
  - by rewrite Hwho, Hw5, (mi_current _ _ Hm5).
  - eapply level_trans; [by apply level_world|done].
Qed.
End Traps.
