(* ===== verification/Alive.v ===== *)
(** * The life of the machine with the real guests — [hv-metal/src/linux.rs]

    The machine as a step relation over what the guests do by themselves, the traps they take
    and the interrupts that arrive, from the end of [run]: that it always goes on, that a guest
    cannot take its peer with it, and that every vCPU gets its turn. *)

From Stdlib Require Import NArith Lia.
From stdpp Require Import base numbers list option relations.
From S2P Require Import Bits.
From S2P Require Import Sched.
From S2P Require Import Hypervisor.
From S2P Require Import HvInvariant.
From S2P Require Import HvSafety.
From S2P Require Import Blk.
From S2P Require Import Pl011.
From S2P Require Import Gicv3.
From S2P Require Import Abort.
From S2P Require Import Partition.
From S2P Require Import Arm64.
From S2P Require Import Metal.
From S2P Require Import Teardown.
From S2P Require Import PendingSet.
From S2P Require Import CpuState.
From S2P Require Import Role.
From S2P Require Import Console.
From S2P Require Import Linux.
From S2P Require Import LinuxTrap.
From S2P Require Import Deliver.
From S2P Require Import Switch.
From S2P Require Import Handover.
From S2P Require Import Regime.
From S2P Require Import Guests.
From S2P Require Import Traps.
From S2P Require Import Prelude.
#[local] Open Scope N_scope.

(** ** Specification *)

Section Life.
Context (b : Board) (part : Partition) (vtr midr freq : N) (clock : N -> N).

(** What the running guest does by itself: it changes the registers it can reach and the memory
    of its own window. *)
Record guest_cpu (c c' : Cpu) : Prop := mkGuestCpu {
  gc_wf : cpu_wf c';
  gc_el2 : uie c' = uie c /\ ppi_enable c' = ppi_enable c /\ vttbr_el2 c' = vttbr_el2 c /\
    vmpidr_el2 c' = vmpidr_el2 c /\ vpidr_el2 c' = vpidr_el2 c /\ cnthp_cval c' = cnthp_cval c /\
    cnthp_ctl c' = cnthp_ctl c;
}.
Inductive executes (s : Linux) : Linux -> Prop :=
| executes_intro c m : guest_cpu (cpu s) c ->
    (forall pa, in_slot part (run_guest (unpack (current s))) pa = false -> m pa = mem (world s) pa) ->
    executes s (lset cpu_l c (lset world_l (lset mem_l m (world s)) s)).

(** What [run] starts from: a machine in any state, with the guests' domains created and none of
    their vCPUs admitted, and the stage-2 registers of the guests. *)
Record ready (w : World) (c : Cpu) (vttbr : list N) : Prop := mkReady {
  rd_sched : sched_ok b w None;
  rd_off : forall g v, names_vcpu NUM_GUESTS (g, v) -> run_state w g v = Some Offline;
  rd_cpu : cpu_wf c;
  rd_vttbr : vlen vttbr = NUM_GUESTS /\ forall v, v ∈ vttbr -> v <= u64_max;
}.

(** A step of the machine before it has stopped. *)
Inductive step (s : Linux) : Linux -> Prop :=
| step_guest s' : ended s = false -> executes s s' -> step s s'
| step_trap esr far hpfar s' : ended s = false -> full_ipa hpfar far <= u64_max ->
    diagnosed part s (full_ipa hpfar far) ->
    handle_linux_sync b part vtr midr freq clock esr far hpfar s = Done s' tt -> step s s'
| step_irq intid s' : ended s = false -> expected intid ->
    handle_linux_irq b part vtr midr freq clock intid s = Done s' tt -> step s s'.

(** Slices of the machine: the guest runs by itself until the timer of the hypervisor expires.
    The list says who has the CPU after each. *)
Inductive slices : Linux -> list (option (N * VcpuIdx)) -> Linux -> Prop :=
| slices_nil s : slices s [] s
| slices_cons s s1 s2 l s3 : rtc executes s s1 ->
    handle_linux_irq b part vtr midr freq clock HYP_TIMER_INTID s1 = Done s2 tt ->
    slices s2 l s3 -> slices s (the_running s2 :: l) s3.
End Life.

(** ** Lemmas *)

Section Alive.
Context (b : Board) (part : Partition) (vtr midr freq : N) (clock : N -> N).
Context (Hwin : windows_ok b) (Hov : overflow_checks b = false).
Context (HW : WF part) (Hpg : num_guests part = NUM_GUESTS).

(** *** The guest by itself *)

Lemma sched_mem w m who : sched_ok b w who -> sched_ok b (lset mem_l m w) who.
Proof. intros [ [F1 F2 F3 F4] S2 S3 S4 S5 S6 S7]. by split; [split|..]. Qed.
Lemma executes_ok s s' : linux_ok b s -> executes part s s' ->
  linux_ok b s' /\ fates s s' /\ level s s' /\ current s' = current s.
Proof.
  intros Hs [c m [Hc _] _]. pose proof Hs as [ [G1 G2 G3] Hr].
  assert (H1 : linux_ok b (lset world_l (lset mem_l m (world s)) s)).
  { split; [|done]. split; [by apply sched_mem|done|]. by apply (mi_devices _ _ (mild_world _ s)). }
  split; [eapply linux_quiet; [exact H1|]; by apply quiet_cpu|]. split; [split; [by intros g|by intros g v _ E; exact E]|]. by split; [intros g v|].
Qed.
Lemma executes_star s s' : rtc (executes part) s s' -> linux_ok b s ->
  linux_ok b s' /\ level s s' /\ current s' = current s.
Proof.
  induction 1 as [s|s s1 s2 Hx _ IH]; intros Hs; [split_and!; [done|by apply level_world|done]|].
  destruct (executes_ok _ _ Hs Hx) as (H1 & _ & Hl & Hc). destruct (IH H1) as (H2 & Hl2 & Hc2).
  split_and!; [done|by eapply level_trans|congruence].
Qed.

(** *** Turns *)

(** How many turns a vCPU is from having the CPU. *)
Definition place_of (cur : Running) (p : N * VcpuIdx) : N :=
  match position (fun q => bool_decide (q = p)) (rotation cur NUM_GUESTS) with Some i => i | None => 0 end.

Lemma vcpu_cases g v : names_vcpu NUM_GUESTS (g, v) ->
  (g = 0 \/ g = 1) /\ (v = mkIdx 0 \/ v = mkIdx 1).
Proof. intros [Hg Hv]. split; [change NUM_GUESTS with 2 in Hg; simpl in Hg; lia|by apply idx_cases]. Qed.

Lemma turn_closer w cur p q : on_machine NUM_GUESTS cur -> names_vcpu NUM_GUESTS p ->
  run_state w p.1 p.2 <> Some Offline -> successor w cur = Some q ->
  q = p \/ place_of (mkRunning q.1 q.2) p < place_of cur p.
Proof.
  destruct cur as [g v], p as [g' v']. intros [Hg Hv]%vcpu_cases [Hg' Hv']%vcpu_cases Hp. unfold successor.
  cbn [run_guest run_vcpu] in *. 
  destruct Hg as [-> | ->], Hv as [-> | ->];
    match goal with |- context [rotation ?c ?n] => let l := eval vm_compute in (rotation c n) in
      change (rotation c n) with l end; cbn [first_some fst snd];
    destruct Hg' as [-> | ->], Hv' as [-> | ->]; cbn [fst snd] in Hp; repeat case_decide; try done;
    intros [= <-]; (by left) || (by right).
Qed.
Lemma place_bound cur p : on_machine NUM_GUESTS cur -> names_vcpu NUM_GUESTS p -> place_of cur p < 4.
Proof.
  destruct cur as [g v], p as [g' v']. intros [Hg Hv]%vcpu_cases [Hg' Hv']%vcpu_cases.
  cbn [run_guest run_vcpu] in *.
  by destruct Hg as [-> | ->], Hv as [-> | ->], Hg' as [-> | ->], Hv' as [-> | ->].
Qed.

Lemma slices_turns s l s' p : slices b part vtr midr freq clock s l s' -> linux_ok b s -> names_vcpu NUM_GUESTS p ->
  run_state (world s) p.1 p.2 <> Some Offline ->
  linux_ok b s' /\ (place_of (unpack (current s)) p < vlen l -> Some p ∈ l).
Proof.
  induction 1 as [s|s s1 s2 l s3 Hx Hirq _ IH]; intros Hs Hp Hup.
  { split; [done|]. unfold vlen. simpl. lia. }
  destruct (executes_star _ _ Hx Hs) as (Hs1 & Hl1 & Hc1).
  pose proof (wp_slice b part vtr midr freq clock Hwin Hov HW Hpg s1 Hs1) as H. unfold wp in H. rewrite Hirq in H.
  destruct H as (Hs2 & Hwho & Hl2). rewrite Hc1 in Hwho. pose proof (level_trans _ _ _ Hl1 Hl2) as Hl.
  destruct p as [g v]. assert (Hup2 : run_state (world s2) g v <> Some Offline) by (by rewrite (Hl g v Hp)).
  destruct (IH Hs2 Hp Hup2) as [Hs3 Hin]. split; [done|]. intros Hlt.
  assert (Hup1 : run_state (world s1) g v <> Some Offline) by (by rewrite (Hl1 g v Hp)).
  symmetry in Hwho. unfold the_running in Hwho.
  destruct (turn_closer _ _ (g, v) _ (running_on b _ Hs) Hp Hup1 Hwho) as [Hq|Hq].
  - apply elem_of_cons. left. unfold the_running. by rewrite Hq.
  - apply elem_of_cons. right. apply Hin. replace (mkRunning _ _) with (unpack (current s2)) in Hq by done.
    unfold vlen in *. cbn [length] in Hlt. lia.
Qed.
Lemma slice_returns s s1 : linux_ok b s -> rtc (executes part) s s1 ->
  exists s2, handle_linux_irq b part vtr midr freq clock HYP_TIMER_INTID s1 = Done s2 tt.
Proof.
  intros Hs Hx. destruct (executes_star _ _ Hx Hs) as (Hs1 & _ & _).
  destruct (wp_Done _ _ _ (wp_slice b part vtr midr freq clock Hwin Hov HW Hpg s1 Hs1)) as (s2 & [] & E & _).
  by exists s2.
Qed.

(** *** The start *)

Lemma wp_then {T U} (m : M Linux T) (k : T -> M Linux U) (Q : Linux -> U -> Prop) s0 s : devices_ok s -> quiet s0 s ->
  hushed m -> (forall s' x, devices_ok s' -> quiet s0 s' -> wp (k x) Q s') -> wp (bind m k) Q s.
Proof.
  intros Hs Hq Hm Hk. wp_step. eapply wp_mono; [by apply Hm|]. cbn beta. intros s' x Hq'.
  apply Hk; [by apply (mi_devices _ _ (proj1 Hq'))|by eapply quiet_trans].
Qed.

Lemma hushed_vttbr g v : g < NUM_GUESTS -> v <= u64_max -> hushed (store_g VTTBR g v).
Proof.
  intros Hg Hv s Hs. unfold store_g, in_guest. rewrite (proj2 (N.ltb_lt g _) Hg). do 3 wp_step.
  apply (quiet_after (cpu s) (pending s)); [|done]. intros [ [D _ _] _ _ _].
  apply deliverable_after; [done|apply D|apply D|]. intros w' g'. case_decide; [done|apply D].
Qed.
Lemma hushed_store_w w u : hushed (store_w w u).
Proof. intros s Hs. apply wp_store_w. intros wd. apply quiet_store_w. Qed.
Lemma hushed_identity next : hushed (set_guest_identity midr next).
Proof.
  intros s Hs. apply wp_set_guest_identity. intros wd. eapply quiet_trans; [|apply quiet_store_w].
  apply quiet_cpu. intros []. by split.
Qed.

(** A vCPU that was given a context keeps it. *)
Definition has_context (g : N) (v : VcpuIdx) (s : Linux) : Prop := per_vcpu s VCPU_SEEDED g (idx v) <> 0.
Lemma wp_mark_seeded g v s : names_vcpu NUM_GUESTS (g, v) ->
  wp (store_v VCPU_SEEDED g v 1) (fun s' _ => quiet s s' /\ has_context g v s') s.
Proof.
  intros [Hg Hv]. simpl in Hg, Hv. unfold store_v, in_vcpu.
  rewrite (proj2 (N.ltb_lt g _) Hg), (proj2 (N.ltb_lt (idx v) _) Hv). cbn [andb]. do 3 wp_step.
  split; [split; [split|done]|].
  - intros H. apply (devices_same s); [by apply (deliverable_same s)|done..].
  - done.
  - by intros g'.
  - intros g' v' H. cbn. by case_decide.
  - unfold has_context. cbn. by rewrite decide_True.
Qed.
Lemma hushed_context g v k : names_vcpu NUM_GUESTS (g, v) -> ctx_wf k -> hushed (at_vcpu ctxs_l g v (modify (fun _ => k))).
Proof.
  intros Hn Hk s Hs. destruct (sb_ctxs _ (dv_switch _ Hs) _ _ Hn) as (k0 & Hk0 & _).
  apply (wp_at_vcpu ctxs_l g v _ _ s k0 Hk0). wp_step. split; [|done]. split; [|done|by intros g'|done].
  intros [ [D K G] U C L]. split; [|done|done|done]. split; [destruct D; by split| |done].
  intros g' v' Hn'. destruct (K _ _ Hn') as (k' & Hk' & Hw'). cbn. rewrite tget_tset.
  case_decide; [by exists k|by exists k'].
Qed.

Lemma hushed_delta slot : slot < NUM_GUESTS -> hushed (window_delta part slot).
Proof.
  intros Hs s _. unfold window_delta. wp_step.
  eapply wp_of_Done; [apply window_base_Done; [done|by rewrite Hpg]|]. wp_step.
  eapply wp_of_Done; [apply window_base_Done; [done|by rewrite Hpg]|]. apply wp_usub; [|apply quiet_refl]. unfold SLOT_A. lia.
Qed.
Lemma hushed_uplus x y : hushed (uplus b x y).
Proof. intros s _. apply wp_uplus; [done|]. intros z. apply quiet_refl. Qed.
Lemma hushed_base slot : slot < NUM_GUESTS -> hushed (window_base part slot).
Proof. intros Hs s _. eapply wp_of_Done; [apply window_base_Done; [done|by rewrite Hpg]|apply quiet_refl]. Qed.

(** What the start makes of the peers: each has a context. *)
Lemma wp_seed_peers sctlr s : devices_ok s ->
  wp (seed_peers b part sctlr) (fun s' _ => quiet s s' /\ has_context 1 boot s') s.
Proof.
  intros Hs. unfold seed_peers.
  change (List.filter _ _) with [1]. cbn [for_each]. assert (Hn : names_vcpu NUM_GUESTS (1, boot)) by done.
  wp_step. wp_step. eapply wp_mono; [by apply wp_mark_seeded|]. cbn beta. intros s1 [] [Hq1 Hh].
  assert (Hs1 : devices_ok s1) by (by apply (mi_devices _ _ (proj1 Hq1))).
  eapply wp_mono.
  - apply hushed_bind; [| |exact Hs1].
    + apply hushed_bind; [by apply hushed_delta|intros d; apply hushed_uplus].
    + intros x0. apply hushed_bind; [|intros entry; apply hushed_context; [done|apply seed_boot_wf] ].
      apply hushed_bind; [by apply hushed_base|intros d]. apply hushed_bind; [by apply hushed_delta|intros e; apply hushed_uplus].
  - cbn beta. intros s2 [] Hq2. wp_step. split; [by eapply quiet_trans|]. by apply (mi_seeded _ _ (proj1 Hq2)).
Qed.

Lemma statics_devices w c : cpu_wf c -> devices_ok (statics w c).
Proof.
  intros Hc. split; [by apply statics_switchable| | |done].
  - intros g Hg. exists uart_new. cbn. rewrite vget_vrepeat, decide_True by done. done.
  - cbn. split; cbn; rewrite ?vlen_vrepeat; try done; intros i u; rewrite vget_vrepeat; case_decide; try done.
    + intros [= <-]. by rewrite vlen_vrepeat.
    + intros [= <-]. done.
Qed.

(** The boot vCPUs are admitted and the first has the CPU. *)
Lemma wp_admit s : sched_ok b (world s) None ->
  (forall g v, names_vcpu NUM_GUESTS (g, v) -> run_state (world s) g v = Some Offline) ->
  wp (admit_linux_vcpus b part clock) (fun s' _ => mild s s' /\ sched_ok b (world s') (Some (SLOT_A, boot)) /\
    forall g v, names_vcpu NUM_GUESTS (g, v) -> run_state (world s') g v <> Some Offline -> v = boot) s.
Proof.
  intros Hs Hoff. unfold admit_linux_vcpus. wp_step. apply wp_now. intros n. set (s1 := lset ticks_read_l n s).
  change (vrange NUM_GUESTS) with [0; 1]. cbn [for_each]. do 3 wp_step. apply wp_slot_dom; [done|done|done|].
  assert (H0 : names_vcpu NUM_GUESTS (0, boot)) by done. assert (H1 : names_vcpu NUM_GUESTS (1, boot)) by done.
  eapply wp_mono; [by apply (wp_call_admit b Hwin s1 None 0 boot Hs H0), Hoff|]. cbn beta. intros s2 [] (w2 & -> & Hw2 & Hm2).
  set (s2 := lset world_l w2 s1). do 2 wp_step. apply wp_slot_dom; [done|done|done|].
  eapply wp_mono; [apply (wp_call_admit b Hwin s2 None 1 boot Hw2 H1)|].
  { cbn. rewrite (Hm2 _ _ H1), decide_False by (by intros [? _]). by apply Hoff. }
  cbn beta. intros s3 [] (w3 & -> & Hw3 & Hm3). set (s3 := lset world_l w3 s2). wp_step. wp_step.
  apply wp_slot_dom; [done|done|done|].
  eapply wp_mono; [apply (wp_call_run b Hwin s3 0 boot _ Hw3 H0)|].
  { cbn. rewrite (Hm3 _ _ H0), decide_False by (by intros [? _]). cbn. by rewrite (Hm2 _ _ H0), decide_True. }
  cbn beta. intros s4 [] (w4 & -> & Hw4 & Hm4). split_and!; [|done|].
  - eapply mild_trans; [apply (quiet_ticks n s)|]. eapply mild_trans; [apply (mild_world w2 s1)|].
    eapply mild_trans; [apply (mild_world w3 s2)|apply (mild_world w4 s3)].
  - intros g v Hn. cbn. rewrite (Hm4 _ _ Hn). destruct (decide (v = boot)) as [|Hne]; [done|].
    rewrite decide_False by (by intros [_ ?]). cbn. rewrite (Hm3 _ _ Hn), decide_False by (by intros [_ ?]).
    cbn. rewrite (Hm2 _ _ Hn), decide_False by (by intros [_ ?]). intros H. destruct H. by apply Hoff.
Qed.

(** The last part of the start disturbs nothing. *)
Definition start_rest_of : M Linux unit :=
  let! entry := window_base part SLOT_A in
  on_cpu (write_reg SpsrEl2 SPSR_EL2_LINUX) ;!
  on_cpu (write_reg ElrEl2 entry) ;!
  on_cpu init_physical_vtimer ;!
  on_cpu enable_hyp_timer_ppi ;!
  let! _ := arm_slice b freq clock in
  x_set 0 DTB_ADDR ;! x_set 1 0 ;! x_set 2 0 ;! x_set 3 0.
Lemma start_rest : hushed start_rest_of.
Proof.
  unfold start_rest_of. apply hushed_bind; [by apply hushed_base|intros entry].
  do 2 (apply hushed_bind; [apply hushed_cpu; intros ? ?; by apply wf_write_reg|intros _]).
  do 2 (apply hushed_bind; [apply hushed_cpu; intros ? []; by split|intros _]).
  apply hushed_bind; [by apply hushed_arm_slice|intros _].
  do 3 (apply hushed_bind; [by apply hushed_x_set|intros _]). by apply hushed_x_set.
Qed.

Lemma wp_machine_run w c vttbr : ready b w c vttbr ->
  wp (run b part midr freq clock vttbr) (fun s' _ => linux_ok b s') (statics w c).
Proof.
  intros [Hsch Hoff Hc [Hlen Hv] ]. pose proof (statics_devices w c Hc) as Hd. unfold run.
  apply (wp_then _ _ _ (statics w c)); [done|apply quiet_refl| |].
  { apply hushed_for_each. intros [slot v] Hin%elem_enumerate. apply hushed_vttbr; [|by eapply Hv, vget_elem].
    rewrite <- Hlen. by eapply vget_Some_lt. }
  intros s1 [] Hd1 Hq1. wp_step.
  eapply wp_mono; [apply wp_admit; rewrite (proj2 Hq1); done|]. cbn beta. intros s2 [] (Hm2 & Hs2 & Hup).
  assert (Hd2 : devices_ok s2) by (by apply (mi_devices _ _ Hm2)).
  wp_step. destruct (vget_lt_Some vttbr SLOT_A) as [v0 Hv0]; [by rewrite Hlen|]. apply wp_index. exists v0. split; [done|].
  apply (wp_then _ _ _ s2); [done|apply quiet_refl|apply hushed_cpu; intros ? []; by split|]. intros s3 [] Hd3 Hq3.
  apply (wp_then _ _ _ s2); [done|done|apply hushed_cpu; intros ? ?; by apply wf_write_reg|]. intros s4 [] Hd4 Hq4.
  apply (wp_then _ _ _ s2); [done|done|apply hushed_identity|]. intros s5 [] Hd5 Hq5.
  wp_step. eapply wp_mono; [by apply wp_mark_seeded|]. cbn beta. intros s6 [] [Hq6 Ha].
  assert (Hd6 : devices_ok s6) by (by apply (mi_devices _ _ (proj1 Hq6))).
  wp_step. wp_step. cbn zeta.
  apply (wp_then _ _ _ s6); [done|apply quiet_refl|apply hushed_store_w|]. intros s7 [] Hd7 Hq7.
  wp_step. eapply wp_mono; [by apply wp_seed_peers|]. cbn beta. intros s8 [] [Hq8 Hb].
  assert (Hd8 : devices_ok s8) by (by apply (mi_devices _ _ (proj1 Hq8))).
  eapply wp_mono; [apply (start_rest s8 Hd8)|]. cbn beta. intros s9 [] Hq9.
  assert (Hq69 : quiet s6 s9) by (eapply quiet_trans; [done|by eapply quiet_trans]).
  assert (Hq29 : quiet s2 s9) by (eapply quiet_trans; [done|by eapply quiet_trans]).
  assert (Hm : mild (statics w c) s9) by (eapply mild_trans; [apply Hq1|eapply mild_trans; [done|apply Hq29] ]).
  apply (mi_seeded _ _ (proj1 Hq69)) in Ha. apply (mi_seeded _ _ (proj1 Hq9)) in Hb.
  assert (Hwho : the_running s9 = Some (SLOT_A, boot)) by (unfold the_running; by rewrite (mi_current _ _ Hm)).
  split.
  - split; [by rewrite Hwho, (proj2 Hq29)| |by apply (mi_devices _ _ Hm)].
    intros g v Hn. rewrite (proj2 Hq29). intros ->%Hup; [|done]. by destruct (vcpu_cases _ _ Hn) as [ [-> | ->] _].
  - intros g v _ Hne. destruct Hne. by rewrite (mi_fates _ _ Hm g).
Qed.

(** *** The life of the machine *)

Abbreviation step := (step b part vtr midr freq clock).

(** From the invariant a step keeps it, or stops the machine. *)
Lemma step_goes s s' : linux_ok b s -> step s s' -> goes_on b s s'.
Proof.
  intros Hs [s1 _ Hx|esr far hpfar s1 _ Hipa Hd E|intid s1 _ Hexp E].
  - destruct (executes_ok _ _ Hs Hx) as (H1 & Hf & _). by apply goes_fates.
  - pose proof (wp_sync b part vtr midr freq clock Hwin Hov HW Hpg esr far hpfar s Hs Hipa Hd) as H.
    unfold wp in H. by rewrite E in H.
  - pose proof (served_irq b part vtr midr freq clock Hwin Hov HW Hpg _ intid (running_on _ _ Hs) Hexp s Hs eq_refl) as H.
    unfold wp in H. by rewrite E in H.
Qed.

Lemma life_ok s s' : linux_ok b s -> rtc step s s' ->
  (linux_ok b s' \/ stopped s') /\ forall g, per_guest s RETIREMENT g <> 0 -> per_guest s' RETIREMENT g <> 0.
Proof.
  intros Hs Hl. induction Hl as [s|s s1 s2 H1 Hl IH]; [by split; [left|]|].
  destruct (step_goes _ _ Hs H1) as [ [Hok|Hst] Hr _].
  - destruct (IH Hok) as [H2 Hr2]. split; [done|]. intros g Hg. by apply Hr2, Hr.
  - clear IH. destruct Hl as [s1|s1 s3 s2 H2 _]; [by split; [right|]|].
    exfalso. destruct Hst as [He _ _]. by destruct H2; congruence.
Qed.

(** Everything reached from the start that has not stopped is in the invariant. *)
Lemma alive_ok w c vttbr s0 s : ready b w c vttbr -> run b part midr freq clock vttbr (statics w c) = Done s0 tt ->
  rtc step s0 s -> ended s = false -> linux_ok b s.
Proof.
  intros Hr E Hl He. pose proof (wp_machine_run w c vttbr Hr) as H0. unfold wp in H0. rewrite E in H0.
  destruct (proj1 (life_ok _ _ H0 Hl)) as [Hs|Hs]; [done|]. by rewrite (st_ended _ Hs) in He.
Qed.
End Alive.

Lemma running_up b s : linux_ok b s ->
  run_state (world s) (run_guest (unpack (current s))) (run_vcpu (unpack (current s))) <> Some Offline.
Proof. intros Hs. by rewrite (who_running b _ _ _ (go_sched _ _ _ (lo_guests _ _ Hs))). Qed.

(** *** A machine *)

Definition linux_clock (k : N) : N := 1000 * k.
Lemma linux_windows : Teardown.windows_ok linux_board.
Proof. split; [vm_compute; congruence..|]. left. vm_compute. congruence. Qed.
Lemma linux_partition : WF board.
Proof. by apply is_well_formed_WF. Qed.

Lemma linux_hv_reachable : reachable 2 linux_hv.
Proof.
  assert (H0 : reachable 0 (Hypervisor.new 3 1 4 2 1 8 0)) by (apply reach_boot; repeat split; vm_compute; congruence).
  assert (step2 : forall t1 t2 s1 r1 s2 r2, apply t1 (Hypervisor.new 3 1 4 2 1 8 0) = Done s1 r1 ->
    apply t2 s1 = Done s2 r2 -> reachable 2 s2).
  { intros t1 t2 s1 r1 s2 r2 E1 E2. eapply (reach_step 1); [|vm_compute; congruence|exact E2].
    eapply (reach_step 0); [exact H0|vm_compute; congruence|exact E1]. }
  eapply (step2 (Guest 0 (DomainCreate 1 false)) (Guest 0 (DomainCreate 2 false))); vm_compute; reflexivity.
Qed.

Lemma linux_state d c : Sched.state_of (sched linux_hv) d c = None \/ Sched.state_of (sched linux_hv) d c = Some Offline.
Proof.
  destruct (decide (d < 3)) as [Hd|Hd]; [destruct (decide (c < 2)) as [Hc|Hc]|].
  - assert (d = 0 \/ d = 1 \/ d = 2) as [-> | [-> | ->] ] by lia; assert (c = 0 \/ c = 1) as [-> | ->] by lia;
      right; vm_compute; reflexivity.
  - left. assert (d = 0 \/ d = 1 \/ d = 2) as [-> | [-> | ->] ] by lia; unfold Sched.state_of, vcpu_opt, Sched.vcpu;
      match goal with |- context [Sched.domain ?s ?d] => let x := eval vm_compute in (Sched.domain s d) in
        change (Sched.domain s d) with x end; cbv iota beta;
      match goal with |- context [vget ?l c] => by rewrite (proj2 (vget_None l c)) by (change (vlen l) with 2; lia) end.
  - left. unfold Sched.state_of, vcpu_opt, Sched.vcpu, Sched.domain. rewrite (proj2 (vget_None _ _)); [done|].
    change (vlen _) with 3. lia.
Qed.

Lemma linux_ready : ready linux_board linux_world linux_cpu [0x10000; 0x20000].
Proof.
  destruct (reachable_HInv _ _ linux_hv_reachable) as [HI Hm]. split.
  - split.
    + split; [exact HI|by eapply N.le_trans; [exact Hm|]|done|]. split; [apply wf_new_disk|]. intros d t.
      cbn. rewrite vget_vrepeat. by case_decide.
    + intros g Hg. assert (g = 0 \/ g = 1) as [-> | ->] by (change NUM_GUESTS with 2 in Hg; lia); done.
    + done.
    + intros g v [ [-> | ->] [-> | ->] ]%(vcpu_cases board eq_refl); eexists; split; vm_compute; reflexivity.
    + intros g v [ [-> | ->] [-> | ->] ]%(vcpu_cases board eq_refl); vm_compute; reflexivity.
    + intros d i p. cbn. destruct (linux_state d i) as [-> | ->]; split; [done|naive_solver|done|naive_solver].
    + done.
  - intros g v [ [-> | ->] [-> | ->] ]%(vcpu_cases board eq_refl); vm_compute; reflexivity.
  - exact linux_cpu_wf.
  - split; [done|]. intros v Hv. repeat (apply elem_of_cons in Hv as [-> | Hv]; [vm_compute; congruence|]).
    by apply elem_of_nil in Hv.
Qed.
Lemma linux_boots : run linux_board board 0x410fd083 linux_freq linux_clock [0x10000; 0x20000]
  (statics linux_world linux_cpu) = Done linux_boot tt.
Proof.
  destruct (wp_Done _ _ _ (wp_machine_run linux_board board 0x410fd083 linux_freq linux_clock linux_windows eq_refl
    linux_partition eq_refl _ _ _ linux_ready)) as (s & [] & E & _).
  unfold linux_boot. unfold linux_clock in E. by rewrite E.
Qed.

(** Guest 0 takes a trap that the hypervisor has no answer to; the timer expires. *)
Definition linux_trap (esr : N) (s : Linux) : Linux :=
  match handle_linux_sync linux_board board linux_vtr 0x410fd083 linux_freq linux_clock esr 0 0 s with
  | Done s' _ => s'
  | Panic => s
  end.
Definition linux_tick (s : Linux) : Linux :=
  match handle_linux_irq linux_board board linux_vtr 0x410fd083 linux_freq linux_clock HYP_TIMER_INTID s with
  | Done s' _ => s'
  | Panic => s
  end.
Definition returned (o : outcome Linux unit) : bool := match o with Done _ _ => true | Panic => false end.
Lemma linux_trap_step esr s : ended s = false ->
  (forall owner, owner < NUM_GUESTS -> in_slot board owner (full_ipa 0 0) = false) ->
  returned (handle_linux_sync linux_board board linux_vtr 0x410fd083 linux_freq linux_clock esr 0 0 s) = true ->
  step linux_board board linux_vtr 0x410fd083 linux_freq linux_clock s (linux_trap esr s).
Proof.
  intros He Ho Hr. apply (step_trap _ _ _ _ _ _ s esr 0 0); [done|by vm_compute| |].
  - intros owner Hown _ Hin. by rewrite Ho in Hin.
  - unfold linux_trap. by destruct (handle_linux_sync _ _ _ _ _ _ _ _ _ s) as [s' [] |].
Qed.
Lemma linux_slice s l s' : 
  returned (handle_linux_irq linux_board board linux_vtr 0x410fd083 linux_freq linux_clock HYP_TIMER_INTID s) = true ->
  slices linux_board board linux_vtr 0x410fd083 linux_freq linux_clock (linux_tick s) l s' ->
  slices linux_board board linux_vtr 0x410fd083 linux_freq linux_clock s (the_running (linux_tick s) :: l) s'.
Proof.
  intros Hr Hx. eapply slices_cons; [reflexivity| |exact Hx]. unfold linux_tick.
  by destruct (handle_linux_irq _ _ _ _ _ _ _ s) as [s2 [] |].
Qed.

(** ** Properties *)



(** C19: a guest cannot harm its peer. Whatever step the machine takes, the guests that were not
    running keep their retirement record as it was and none of their vCPUs is taken off; and a
    guest that is retired never has the processor again. *)
Theorem peers_unharmed (b : Board) (part : Partition) (vtr midr freq : N) (clock : N -> N) (w : World) (c : Cpu)
    (vttbr : list N) (s0 s s' : Linux) (g : N) :
  windows_ok b -> overflow_checks b = false -> WF part -> num_guests part = NUM_GUESTS -> ready b w c vttbr ->
  run b part midr freq clock vttbr (statics w c) = Done s0 tt ->
  rtc (step b part vtr midr freq clock) s0 s -> step b part vtr midr freq clock s s' ->
  (g <> run_guest (unpack (current s)) ->
     per_guest s' RETIREMENT g = per_guest s RETIREMENT g /\
     forall v, names_vcpu NUM_GUESTS (g, v) ->
       run_state (world s') g v = Some Offline -> run_state (world s) g v = Some Offline) /\
  (per_guest s' RETIREMENT g <> 0 -> forall t, rtc (step b part vtr midr freq clock) s' t -> ended t = false ->
     run_guest (unpack (current t)) <> g).
Proof.
  intros Hwin Hov HW Hpg Hr E Hl Hx.
  assert (Hs : linux_ok b s).
  { eapply (alive_ok b part vtr midr freq clock Hwin Hov HW Hpg); [done|done|exact Hl|]. by destruct Hx. }
  pose proof (step_goes b part vtr midr freq clock Hwin Hov HW Hpg s s' Hs Hx) as [Hst Hret Hp].
  split; [apply Hp|]. intros Hg t Ht He <-.
  assert (Ht0 : rtc (step b part vtr midr freq clock) s0 t) by (etrans; [exact Hl|]; by eapply rtc_l).
  pose proof (alive_ok b part vtr midr freq clock Hwin Hov HW Hpg w c vttbr s0 t Hr E Ht0 He) as Hok.
  apply Hg. destruct Hst as [Hs'|Hs'].
  - destruct (decide (per_guest s' RETIREMENT (run_guest (unpack (current t))) = 0)) as [|Hn]; [done|].
    destruct (life_ok b part vtr midr freq clock Hwin Hov HW Hpg s' t Hs' Ht) as [_ Hk].
    destruct (Hk _ Hn). by apply (running_live b t Hok).
  - destruct Ht as [|s1 s2 s3 H1 _]; [by rewrite (st_ended _ Hs') in He|].
    exfalso. pose proof (st_ended _ Hs'). by destruct H1; congruence.
Qed.

(** Guest 0 is retired for its trap; guest 1 takes the CPU. *)
Theorem peers_unharmed_witness :
  let s' := linux_trap 0 linux_boot in
  per_guest s' RETIREMENT 0 <> 0 /\ per_guest s' RETIREMENT 1 = 0 /\
  forall t, rtc (step linux_board board linux_vtr 0x410fd083 linux_freq linux_clock) s' t -> ended t = false ->
    run_guest (unpack (current t)) <> 0.
Proof.
  intros s'.
  assert (Hx : step linux_board board linux_vtr 0x410fd083 linux_freq linux_clock linux_boot s').
  { apply linux_trap_step; [vm_compute; reflexivity| |vm_compute; reflexivity].
    intros owner Ho. assert (owner = 0 \/ owner = 1) as [-> | ->] by (change NUM_GUESTS with 2 in Ho; lia); vm_compute; reflexivity. }
  assert (Hr : per_guest s' RETIREMENT 0 <> 0) by (vm_compute; discriminate).
  split; [exact Hr|]. split.
  - assert (E0 : per_guest linux_boot RETIREMENT 1 = 0) by (vm_compute; reflexivity). rewrite <- E0.
    apply (peers_unharmed linux_board board linux_vtr 0x410fd083 linux_freq linux_clock linux_world linux_cpu
      [0x10000; 0x20000] linux_boot linux_boot s' 1 linux_windows eq_refl linux_partition eq_refl linux_ready linux_boots);
      [apply rtc_refl|exact Hx|]. vm_compute. discriminate.
  - apply (peers_unharmed linux_board board linux_vtr 0x410fd083 linux_freq linux_clock linux_world linux_cpu
      [0x10000; 0x20000] linux_boot linux_boot s' 0 linux_windows eq_refl linux_partition eq_refl linux_ready linux_boots);
      [apply rtc_refl|exact Hx|exact Hr].
Defined.

(** C18: every vCPU gets its turn. However the machine has come to be as it is: when the guests
    run by themselves until the hypervisor's timer expires, the handler always hands over, the
    machine never stops for it, and within four slices every vCPU that is not off has had the
    processor. *)
Theorem round_robin (b : Board) (part : Partition) (vtr midr freq : N) (clock : N -> N) (w : World) (c : Cpu)
    (vttbr : list N) (s0 s s' : Linux) (l : list (option (N * VcpuIdx))) :
  windows_ok b -> overflow_checks b = false -> WF part -> num_guests part = NUM_GUESTS -> ready b w c vttbr ->
  run b part midr freq clock vttbr (statics w c) = Done s0 tt ->
  rtc (step b part vtr midr freq clock) s0 s -> ended s = false ->
  slices b part vtr midr freq clock s l s' ->
  ended s' = false /\
  (forall s1, rtc (executes part) s' s1 -> exists s2,
     handle_linux_irq b part vtr midr freq clock HYP_TIMER_INTID s1 = Done s2 tt) /\
  (4 <= vlen l -> forall g v, names_vcpu NUM_GUESTS (g, v) -> run_state (world s) g v <> Some Offline ->
     Some (g, v) ∈ l).
Proof.
  intros Hwin Hov HW Hpg Hr E Hl He Hx.
  pose proof (alive_ok b part vtr midr freq clock Hwin Hov HW Hpg w c vttbr s0 s Hr E Hl He) as Hs.
  assert (Hs' : linux_ok b s').
  { eapply (slices_turns b part vtr midr freq clock Hwin Hov HW Hpg s l s'
      (run_guest (unpack (current s)), run_vcpu (unpack (current s))) Hx Hs (running_on b s Hs)).
    by apply (running_up b s Hs). }
  split; [apply (dv_live _ (go_devices _ _ _ (lo_guests _ _ Hs')))|]. split.
  - intros s1 H1. by apply (slice_returns b part vtr midr freq clock Hwin Hov HW Hpg s').
  - intros Hlen g v Hn Hup.
    apply (slices_turns b part vtr midr freq clock Hwin Hov HW Hpg s l s' (g, v) Hx Hs Hn Hup).
    eapply N.lt_le_trans; [|exact Hlen]. by eapply (place_bound part Hpg _ _ (running_on b s Hs)).
Qed.

(** Each guest has its boot vCPU up: they take turns. *)
Theorem round_robin_witness :
  exists l s', l = [Some (1, boot); Some (0, boot); Some (1, boot); Some (0, boot)] /\
    slices linux_board board linux_vtr 0x410fd083 linux_freq linux_clock linux_boot l s' /\ Some (1, boot) ∈ l.
Proof.
  set (s1 := linux_tick linux_boot). set (s2 := linux_tick s1). set (s3 := linux_tick s2). set (s4 := linux_tick s3).
  assert (Hx : slices linux_board board linux_vtr 0x410fd083 linux_freq linux_clock linux_boot
    [the_running s1; the_running s2; the_running s3; the_running s4] s4).
  { do 4 (apply linux_slice; [vm_compute; reflexivity|]). apply slices_nil. }
  assert (El : [the_running s1; the_running s2; the_running s3; the_running s4] =
    [Some (1, boot); Some (0, boot); Some (1, boot); Some (0, boot)]) by (vm_compute; reflexivity).
  rewrite El in Hx. eexists _, s4. split; [reflexivity|]. split; [exact Hx|].
  apply (round_robin linux_board board linux_vtr 0x410fd083 linux_freq linux_clock linux_world linux_cpu
    [0x10000; 0x20000] linux_boot linux_boot s4 _ linux_windows eq_refl linux_partition eq_refl linux_ready linux_boots);
    [apply rtc_refl|vm_compute; reflexivity|exact Hx|vm_compute; discriminate|by split|vm_compute; discriminate].
Defined.

(** *** What a guest does not survive *)

(** A write of ICC_SGI1R_EL1 is served from [x0] only: from any other register it retires the
    guest, as the field that names the register is among the bits compared with the pattern. *)
Theorem sgi_needs_x0 (b : Board) (part : Partition) (vtr midr freq : N) (clock : N -> N) (esr : N) (s : Linux) :
  N.land (N.shiftr esr 5) 0x1f <> 0 ->
  handle_linux_sysreg_trap b part vtr midr freq clock esr s =
  bind current_vcpu (fun r => fault_retire b part vtr midr freq clock r) s.
Proof.
  intros Hrt. unfold handle_linux_sysreg_trap. cbn zeta.
  destruct (N.eqb_spec (N.land (N.land esr 0x01ffffff) ISS_SYSREG_FIELDS) ISS_ICC_SGI1R_EL1_WRITE) as [E|]; [|done].
  destruct Hrt. rewrite <- (N.land_assoc esr) in E.
  assert (H : N.shiftr (N.land (N.land esr (N.land 0x01ffffff ISS_SYSREG_FIELDS)) 0x3e0) 5 = 0) by (rewrite E; reflexivity).
  rewrite <- N.land_assoc in H. change (N.land (N.land 0x01ffffff ISS_SYSREG_FIELDS) 0x3e0) with (N.shiftl 0x1f 5) in H.
  by rewrite N.shiftr_land, N.shiftr_shiftl_l, N.sub_diag, N.shiftl_0_r in H by lia.
Qed.

(** The first fault of a guest on the memory of its peer stops the machine when the diagnosis
    does not hold, and it reads what the peer has in its memory. *)
Theorem first_fault_parks (b : Board) (part : Partition) (vtr midr freq : N) (clock : N -> N) (faulting owner ipa : N)
    (s : Linux) :
  overflow_checks b = false -> WF part -> num_guests part = NUM_GUESTS -> faulting < NUM_GUESTS -> owner < NUM_GUESTS ->
  per_guest s PEER_FAULTS faulting = 0 -> peer_refused part s faulting owner ipa = false ->
  handle_peer_fault b part vtr midr freq clock faulting owner ipa s = Panic.
Proof.
  intros Hov HW Hpg Hf Ho H0 Hd. unfold handle_peer_fault, fetch_add_g, store_g, load_g, in_guest, uplus.
  rewrite !(proj2 (N.ltb_lt _ _) Hf), !(proj2 (N.ltb_lt _ _) Ho).
  unfold bind, gets, modify, ret. cbn -[N.add N.modulo u64_max]. rewrite H0, decide_True by (vm_compute; congruence).
  change (MAX_PEER_FAULTS <? 0 + 1) with false. change (0 + 1 =? 1) with true. cbn iota.
  unfold peer_payload_at, uplus, bind, gets, ret. rewrite window_base_Done by (done || by rewrite Hpg). rewrite Hov.
  cbn [world per_guest]. rewrite !(decide_False (P := VTTBR = PEER_FAULTS /\ _)) by (by intros [? _]).
  unfold peer_refused in Hd. case_decide as Hle; [rewrite N.mod_small in Hd by (change u64_max with 0xffffffffffffffff in *; lia)|];
    cbn [world]; by rewrite Hd.
Qed.
