(* ===== verification/Buses.v ===== *)
(** * What no transition does to the devices

    With the judgement of [Steady]: no transition of the hypervisor changes the number of
    devices, and an interrupt leaves their assignment alone. *)

From Stdlib Require Import NArith Lia.
From stdpp Require Import base numbers list option.
From S2P Require Import Hypervisor.
From S2P Require Import Steady.
From S2P Require Import Prelude.
#[local] Open Scope N_scope.

(** ** Specification *)

Definition same_count (d d' : Device.System) : Prop := Device.device_count d' = Device.device_count d.
#[global] Instance same_count_preorder : PreOrder same_count.
Proof. split; [by intros d|]. intros d1 d2 d3. unfold same_count. congruence. Qed.
Definition same_devices (s s' : Hypervisor) : Prop := same_count (device s) (device s').
#[global] Instance same_devices_preorder : PreOrder same_devices.
Proof. split; [by intros s|]. intros s1 s2 s3. unfold same_devices, same_count. congruence. Qed.

(** ** Lemmas *)

Lemma counted_set d i o : same_count d (Device.set_slot i o d).
Proof. unfold same_count, Device.device_count. simpl. apply vlen_vset. Qed.

Create HintDb buses discriminated.
Ltac buses_auto :=
  repeat match goal with
  | |- ends _ (zoom device_l _) => apply ends_zoom with (Ra := same_count); [done|]
  | |- ends _ (zoom _ _) => apply ends_zoom with (Ra := fun _ _ => True); [done|apply ends_any]
  | |- ends same_devices (modify _) => apply ends_modify; done
  | |- ends same_count (modify _) => apply ends_modify; intros; apply counted_set
  | |- ends _ (sweep_loop _) => fail 1
  | _ => solve [eauto 1 with buses nocore] || ends_step
  end.

Ltac alone_auto :=
  repeat match goal with
  | |- ends _ (zoom _ _) => apply ends_zoom with (Ra := fun _ _ => True); [done|apply ends_any]
  | |- ends _ (modify _) => apply ends_modify; done
  | _ => solve [eauto 1 with buses nocore] || ends_step
  end.

Lemma counted_assign dev d : ends same_count (Device.assign dev d).
Proof. unfold Device.assign. buses_auto. Qed.
Lemma counted_release dev d : ends same_count (Device.release dev d).
Proof. unfold Device.release. buses_auto. Qed.
Lemma counted_release_all d : ends same_count (Device.release_all_of d).
Proof.
  unfold Device.release_all_of. repeat ends_step; try done. intros. unfold same_count, Device.device_count. simpl. apply vlen_fmap.
Qed.
#[export] Hint Resolve counted_assign counted_release counted_release_all : buses.

Lemma counted_reaches_root k c t : ends same_devices (reaches_root k c t).
Proof. revert c. induction k; intros c; simpl; buses_auto. Qed.
#[export] Hint Resolve counted_reaches_root : buses.
Lemma counted_subtree_walk k c cur t : ends same_devices (control_subtree_walk k c cur t).
Proof. revert cur. induction k; intros cur; simpl; buses_auto; auto. Qed.
Lemma counted_sweep_pass : ends same_devices sweep_pass.
Proof. unfold sweep_pass. buses_auto. Qed.
Lemma counted_sweep_loop k : ends same_devices (sweep_loop k).
Proof.
  induction k; simpl; [apply ends_panic|]. apply ends_bind; [apply _|apply counted_sweep_pass|].
  intros []; [done|apply ends_ret, _].
Qed.
#[export] Hint Resolve counted_subtree_walk counted_sweep_loop : buses.
Lemma counted_handle caller c : ends same_devices (handle caller c).
Proof. destruct c; simpl; buses_auto. Qed.
#[export] Hint Resolve counted_handle : buses.
Lemma counted_dispatch caller c : ends same_devices (Hypervisor.dispatch caller c).
Proof. unfold Hypervisor.dispatch, route. buses_auto. Qed.

(** An interrupt changes no device. *)
Definition devices_alone (s s' : Hypervisor) : Prop := device s' = device s.
#[global] Instance devices_alone_preorder : PreOrder devices_alone.
Proof. split; [by intros s|]. intros s1 s2 s3. unfold devices_alone. congruence. Qed.
Lemma alone_reaches_root k c t : ends devices_alone (reaches_root k c t).
Proof. revert c. induction k; intros c; simpl; alone_auto. Qed.
#[export] Hint Resolve alone_reaches_root : buses.
Lemma alone_virq d v q : ends devices_alone (raise_vcpu_virq d v q).
Proof. alone_auto. Qed.
