(* ===== verification/SmmuDriver.v ===== *)
(** * The driver of the system MMU — [hv-metal/src/smmu.rs]

    The stream table, the command queue and the event queue in memory, the registers, and the
    operations on them: the enables, the submission of commands, the invalidations, the binding
    of one stream, the derivation of the whole table after a hypercall, and the funnel of
    [Teardown] in the build with the [smmu] feature, which calls it.

    The other agent is the unit itself, which the driver sees through its registers and which
    sees memory as it was when last published (the driver's maintenance writes cache lines
    back; the unit does not snoop). What the unit does on its side is the record [Unit]: it
    fetches commands in order from the ring as it sees it, an invalidation makes it forget the
    entries, or the translations, it may have cached, and until then it may serve any it has
    seen. How fast it fetches ([pace]), what its other registers read ([reg]) and what it writes
    to the event queue ([evt]) are parameters. *)

From Stdlib Require Import NArith Lia.
From stdpp Require Import base numbers list option.
From S2P Require Import Bits.
From S2P Require Import Hypervisor.
From S2P Require Import Regime.
From S2P Require Import Smmu.
From S2P Require Import Metal.
From S2P Require Import Teardown.
From S2P Require Import Prelude.
#[local] Open Scope N_scope.

(** ** Registers and commands *)

Definition SMMU_IDR0 : N := 0x0.
Definition SMMU_IDR1 : N := 0x4.
Definition SMMU_CR0 : N := 0x20.
Definition SMMU_CR0ACK : N := 0x24.
Definition SMMU_CR1 : N := 0x28.
Definition SMMU_CR2 : N := 0x2c.
Definition SMMU_GBPA : N := 0x44.
Definition SMMU_GERROR : N := 0x60.
Definition SMMU_GERRORN : N := 0x64.
Definition SMMU_STRTAB_BASE : N := 0x80.
Definition SMMU_STRTAB_BASE_CFG : N := 0x88.
Definition SMMU_CMDQ_BASE : N := 0x90.
Definition SMMU_CMDQ_PROD : N := 0x98.
Definition SMMU_CMDQ_CONS : N := 0x9c.
Definition SMMU_EVENTQ_BASE : N := 0xa0.
Definition SMMU_EVENTQ_PROD : N := 0x100a8.
Definition SMMU_EVENTQ_CONS : N := 0x100ac.
Definition IDR0_S2P : N := shl 32 1 0.
Definition IDR0_S1P : N := shl 32 1 1.
Definition IDR1_SIDSIZE_MASK : N := 0x3f.
Definition IDR1_REL : N := shl 32 1 28.
Definition GBPA_UPDATE : N := shl 32 1 31.
Definition GBPA_ABORT : N := shl 32 1 20.
Definition CR0_SMMUEN : N := shl 32 1 0.
Definition CR0_EVENTQEN : N := shl 32 1 2.
Definition CR0_CMDQEN : N := shl 32 1 3.
Definition CR2_RECINVSID : N := shl 32 1 1.
Definition CMD_CFGI_STE : N := 0x03.
Definition CMD_CFGI_STE_RANGE : N := 0x04.
Definition CMD_TLBI_NSNH_ALL : N := 0x30.
Definition CMD_SYNC : N := 0x46.

Definition STRTAB_LOG2SIZE : N := BUS0_LOG2SIZE.
Definition STRTAB_ENTRIES : N := shl 64 1 STRTAB_LOG2SIZE.
Definition STRTAB_WORDS : N := STRTAB_ENTRIES * STE_WORDS.
Definition CMDQ_LOG2SIZE : N := 4.
Definition CMDQ_ENTRIES : N := shl 64 1 CMDQ_LOG2SIZE.
Definition EVENTQ_LOG2SIZE : N := 4.
Definition EVENTQ_ENTRIES : N := shl 64 1 EVENTQ_LOG2SIZE.
(** Resolved at compile time, where [None] ends the build. *)
Definition STRTAB_CFG : N := match strtab_base_cfg STRTAB_LOG2SIZE with Some cfg => cfg | None => 0 end.
Definition queue_mask (log2size : N) : N := shl 32 1 (log2size + 1) - 1.

(** ** The state *)

(** The tables from which the unit may serve the entry of a stream, and those from which it may
    serve a translation of the stream. *)
Record Caches : Type := mkCaches { config : N -> list (list N); tlb : N -> list (list N) }.

(** The unit: the register writes it has taken, newest first, its two queue indices with their
    wrap bit, the stream table and the command ring as it sees them, the commands it has
    fetched, what it may have cached, and how often it was read. *)
Record Unit : Type := mkUnit {
  writes : list (N * N);
  cons : N;
  prod : N;
  seen_strtab : list N;
  seen_cmdq : list N;
  fetched : list (N * N);
  caches : Caches;
  reads : N;
}.

(** [eventq], which only the unit writes, is the parameter [evt] below. *)
Record Smmu : Type := mkSmmu {
  strtab : list N;
  scratch : list N;
  cmdq : list N;
  cmdq_prod : N;
  eventq_cons : N;
  armed : bool;
  stream_of : list N;
  binding_of : list (option Stage2Binding);
  published : N;
  unit_of : Unit;
}.

Definition strtab_l : lens Smmu (list N) := Lens strtab (fun u s =>
  mkSmmu u (scratch s) (cmdq s) (cmdq_prod s) (eventq_cons s) (armed s) (stream_of s) (binding_of s)
    (published s) (unit_of s)).
Definition scratch_l : lens Smmu (list N) := Lens scratch (fun u s =>
  mkSmmu (strtab s) u (cmdq s) (cmdq_prod s) (eventq_cons s) (armed s) (stream_of s) (binding_of s)
    (published s) (unit_of s)).
Definition cmdq_l : lens Smmu (list N) := Lens cmdq (fun u s =>
  mkSmmu (strtab s) (scratch s) u (cmdq_prod s) (eventq_cons s) (armed s) (stream_of s) (binding_of s)
    (published s) (unit_of s)).
Definition cmdq_prod_l : lens Smmu N := Lens cmdq_prod (fun u s =>
  mkSmmu (strtab s) (scratch s) (cmdq s) u (eventq_cons s) (armed s) (stream_of s) (binding_of s)
    (published s) (unit_of s)).
Definition eventq_cons_l : lens Smmu N := Lens eventq_cons (fun u s =>
  mkSmmu (strtab s) (scratch s) (cmdq s) (cmdq_prod s) u (armed s) (stream_of s) (binding_of s)
    (published s) (unit_of s)).
Definition armed_l : lens Smmu bool := Lens armed (fun u s =>
  mkSmmu (strtab s) (scratch s) (cmdq s) (cmdq_prod s) (eventq_cons s) u (stream_of s) (binding_of s)
    (published s) (unit_of s)).
Definition stream_of_l : lens Smmu (list N) := Lens stream_of (fun u s =>
  mkSmmu (strtab s) (scratch s) (cmdq s) (cmdq_prod s) (eventq_cons s) (armed s) u (binding_of s)
    (published s) (unit_of s)).
Definition binding_of_l : lens Smmu (list (option Stage2Binding)) := Lens binding_of (fun u s =>
  mkSmmu (strtab s) (scratch s) (cmdq s) (cmdq_prod s) (eventq_cons s) (armed s) (stream_of s) u
    (published s) (unit_of s)).
Definition published_l : lens Smmu N := Lens published (fun u s =>
  mkSmmu (strtab s) (scratch s) (cmdq s) (cmdq_prod s) (eventq_cons s) (armed s) (stream_of s) (binding_of s)
    u (unit_of s)).
Definition unit_l : lens Smmu Unit := Lens unit_of (fun u s =>
  mkSmmu (strtab s) (scratch s) (cmdq s) (cmdq_prod s) (eventq_cons s) (armed s) (stream_of s) (binding_of s)
    (published s) u).

(** The static [SMMU], over a unit in any state. *)
Definition SMMU (ndev ndom : N) (u : Unit) : Smmu :=
  mkSmmu (vrepeat STRTAB_WORDS 0) (vrepeat STRTAB_WORDS 0) (vrepeat (CMDQ_ENTRIES * 2) 0) 0 0 false
    (vrepeat ndev 0) (vrepeat ndom None) 0 u.

(** ** The unit *)

(** Opcode [7:0]; the stream in [63:32]; the range in [4:0] of the second word. What an
    invalidation covers is served from then on from the table as it is seen. *)
Definition obey (seen : list N) (cmd : N * N) (k : Caches) : Caches :=
  let op := N.land cmd.1 0xff in
  let sid := N.shiftr cmd.1 32 in
  if op =? CMD_CFGI_STE then
    mkCaches (fun s => if s =? sid then [seen] else config k s) (tlb k)
  else if op =? CMD_CFGI_STE_RANGE then
    let range := N.land cmd.2 31 in
    mkCaches (fun s => if N.shiftr s (range + 1) =? N.shiftr sid (range + 1) then [seen] else config k s) (tlb k)
  else if op =? CMD_TLBI_NSNH_ALL then mkCaches (config k) (config k)
  else k.

Definition advance (x : N) : N := N.land ((x + 1) mod 2 ^ 32) (queue_mask CMDQ_LOG2SIZE).

(** It fetches the next command, if one was announced. *)
Definition fetch_one (u : Unit) : Unit :=
  if cons u =? prod u then u else
  let idx := N.land (cons u) (CMDQ_ENTRIES - 1) in
  let word i := match vget (seen_cmdq u) i with Some w => w | None => 0 end in
  let cmd := (word (idx * 2), word (idx * 2 + 1)) in
  mkUnit (writes u) (advance (cons u)) (prod u) (seen_strtab u) (seen_cmdq u) (fetched u ++ [cmd])
    (obey (seen_strtab u) cmd (caches u)) (reads u).

(** It sees a new table: it may fetch an entry of it at any time. *)
Definition see_strtab (words : list N) (u : Unit) : Unit :=
  mkUnit (writes u) (cons u) (prod u) words (seen_cmdq u) (fetched u)
    (mkCaches (fun sid => config (caches u) sid ++ [words]) (fun sid => tlb (caches u) sid ++ [words])) (reads u).
Definition see_cmdq (words : list N) (u : Unit) : Unit :=
  mkUnit (writes u) (cons u) (prod u) (seen_strtab u) words (fetched u) (caches u) (reads u).

Definition take_write (off v : N) (u : Unit) : Unit :=
  mkUnit ((off, v) :: writes u)
    (if off =? SMMU_CMDQ_CONS then N.land v (queue_mask CMDQ_LOG2SIZE) else cons u)
    (if off =? SMMU_CMDQ_PROD then N.land v (queue_mask CMDQ_LOG2SIZE) else prod u)
    (seen_strtab u) (seen_cmdq u) (fetched u) (caches u) (reads u).
Definition count_read (u : Unit) : Unit :=
  mkUnit (writes u) (cons u) (prod u) (seen_strtab u) (seen_cmdq u) (fetched u) (caches u) (reads u + 1).

Section Driver.
Context (b : Board) (pace : N -> N) (reg : list (N * N) -> N -> N -> N) (evt : N -> N -> N).
Context (strtab_pa cmdq_pa eventq_pa : N).

(** ** Access *)

Definition on_unit (f : Unit -> Unit) : M Smmu unit := modify (fun s => lset unit_l (f (unit_of s)) s).

(** Between two reads of its registers the unit goes on; [CMDQ_CONS] has its error code above
    the index. *)
Definition read32 (off : N) : M Smmu N :=
  on_unit (fun u => count_read (N.iter (pace (reads u)) fetch_one u)) ;!
  gets (fun s => let u := unit_of s in let v := reg (writes u) (reads u) off in
    if off =? SMMU_CMDQ_CONS then N.lor (cons u) (shl 32 v 24) else v).
Definition write32 (off v : N) : M Smmu unit := on_unit (take_write off v).

Definition publish_strtab : M Smmu unit := modify (fun s => lset unit_l (see_strtab (strtab s) (unit_of s)) s).
Definition publish_cmdq : M Smmu unit := modify (fun s => lset unit_l (see_cmdq (cmdq s) (unit_of s)) s).
(** The two words of one slot. *)
Definition publish_slot (idx : N) : M Smmu unit :=
  let! s := get in
  let! w0 := index (cmdq s) (idx * 2) in
  let! w1 := index (cmdq s) (idx * 2 + 1) in
  on_unit (fun u => see_cmdq (vset (vset (seen_cmdq u) (idx * 2) w0) (idx * 2 + 1) w1) u).

(** A loop that ends when the test holds, or after [fuel] rounds with [false]. *)
Fixpoint spin (fuel : nat) (test : M Smmu bool) : M Smmu bool :=
  match fuel with
  | O => ret false
  | S fuel => let! hit := test in if hit : bool then ret true else spin fuel test
  end.

Definition present : M Smmu bool :=
  let! v := read32 SMMU_IDR0 in ret (negb (N.land v (N.lor IDR0_S1P IDR0_S2P) =? 0)).
Definition supports_stage2 : M Smmu bool :=
  let! v := read32 SMMU_IDR0 in ret (negb (N.land v IDR0_S2P =? 0)).
Definition translating : M Smmu bool :=
  let! v := read32 SMMU_CR0 in ret (negb (N.land v CR0_SMMUEN =? 0)).
Definition bypass_aborts : M Smmu bool :=
  let! v := read32 SMMU_GBPA in ret (negb (N.land v GBPA_ABORT =? 0)).

Definition abort_bypassed_traffic : M Smmu bool :=
  let! v := read32 SMMU_GBPA in
  let cur := N.land v (bnot 32 GBPA_UPDATE) in
  write32 SMMU_GBPA (N.lor (N.lor cur GBPA_ABORT) GBPA_UPDATE) ;!
  let! hit := spin (N.to_nat 100000) (let! v := read32 SMMU_GBPA in ret (N.land v GBPA_UPDATE =? 0)) in
  if hit : bool then bypass_aborts else ret false.

Definition set_cr0_bits (bits : N) : M Smmu bool :=
  let! v := read32 SMMU_CR0 in
  write32 SMMU_CR0 (N.lor v bits) ;!
  spin (N.to_nat 100000) (let! v := read32 SMMU_CR0ACK in ret (N.land v bits =? bits)).

(** ** Commands *)

Definition submit (word0 word1 : N) : M Smmu unit :=
  let! s := get in
  let idx := N.land (cmdq_prod s) (CMDQ_ENTRIES - 1) in
  index_set cmdq_l (idx * 2) word0 ;!
  index_set cmdq_l (idx * 2 + 1) word1 ;!
  publish_slot idx ;!
  modify (fun s => lset cmdq_prod_l (advance (cmdq_prod s)) s) ;!
  let! s := get in
  write32 SMMU_CMDQ_PROD (cmdq_prod s).

Definition sync : M Smmu bool :=
  submit CMD_SYNC 0 ;!
  let! hit := spin (N.to_nat 1000000) (
    let! v := read32 SMMU_CMDQ_CONS in
    let! s := get in
    ret (N.land v (queue_mask CMDQ_LOG2SIZE) =? cmdq_prod s)) in
  if hit : bool then
    let! e := read32 SMMU_GERROR in
    let! n := read32 SMMU_GERRORN in
    ret (e =? n)
  else ret false.

Definition invalidate_all_config : M Smmu bool := submit CMD_CFGI_STE_RANGE 31 ;! sync.
Definition invalidate_ste (sid : N) : M Smmu bool :=
  submit (N.lor CMD_CFGI_STE (shl 64 sid 32)) 1 ;! sync.
Definition invalidate_s2_tlb : M Smmu bool := submit CMD_TLBI_NSNH_ALL 0 ;! sync.

(** [x && y]: the second is not run when the first fails. *)
Definition both (x y : M Smmu bool) : M Smmu bool :=
  let! l := x in if l : bool then y else ret false.

Definition set_announced_table_size (log2size : N) : M Smmu bool :=
  if STRTAB_LOG2SIZE <? log2size then ret false else
  match strtab_base_cfg log2size with
  | None => ret false
  | Some cfg =>
      write32 SMMU_STRTAB_BASE_CFG cfg ;!
      let! synced := invalidate_all_config in
      if synced : bool then let! v := read32 SMMU_STRTAB_BASE_CFG in ret (v =? cfg) else ret false
  end.

(** ** The table *)

Record StreamTableReport : Type := mkReport {
  sidsize : N;
  page1_at_64k : bool;
  strtab_base_ok : bool;
  strtab_cfg_ok : bool;
  enabled : bool;
  gerror_clean : bool;
  denies_every : bool;
}.
Definition report_ok (r : StreamTableReport) : bool :=
  page1_at_64k r && strtab_base_ok r && strtab_cfg_ok r && enabled r && gerror_clean r && denies_every r &&
  (STRTAB_LOG2SIZE <=? sidsize r).

Definition install_stream_table (streams : list N) : M Smmu StreamTableReport :=
  let! idr1 := read32 SMMU_IDR1 in
  let page1 := N.land idr1 IDR1_REL =? 0 in
  zoom strtab_l init_deny ;!
  write32 SMMU_CR1 0 ;!
  write32 SMMU_CR2 CR2_RECINVSID ;!
  publish_strtab ;!
  write32 SMMU_STRTAB_BASE (strtab_base strtab_pa) ;!
  write32 SMMU_STRTAB_BASE_CFG STRTAB_CFG ;!
  let! base_back := read32 SMMU_STRTAB_BASE in
  let base_ok := strtab_base base_back =? strtab_base strtab_pa in
  let! cfg_back := read32 SMMU_STRTAB_BASE_CFG in
  let cfg_ok := cfg_back =? STRTAB_CFG in
  modify (fun s => lset eventq_cons_l 0 (lset cmdq_prod_l 0 s)) ;!
  publish_cmdq ;!
  write32 SMMU_CMDQ_BASE (N.lor cmdq_pa CMDQ_LOG2SIZE) ;!
  write32 SMMU_CMDQ_PROD 0 ;!
  write32 SMMU_CMDQ_CONS 0 ;!
  write32 SMMU_EVENTQ_BASE (N.lor eventq_pa EVENTQ_LOG2SIZE) ;!
  let! queues :=
    if page1 then
      write32 SMMU_EVENTQ_PROD 0 ;!
      write32 SMMU_EVENTQ_CONS 0 ;!
      set_cr0_bits (N.lor CR0_CMDQEN CR0_EVENTQEN)
    else ret page1 in
  let! clean := invalidate_all_config in
  let! on := set_cr0_bits CR0_SMMUEN in
  let! s := get in
  let! denies := denies_every_stream (strtab s) STRTAB_LOG2SIZE in
  modify (fun s => lset armed_l true (lset stream_of_l streams s)) ;!
  ret (mkReport (N.land idr1 IDR1_SIDSIZE_MASK) page1 base_ok cfg_ok (queues && on) clean denies).

Definition bind_stream_bypass (sid : N) : M Smmu bool :=
  let! r := zoom strtab_l (bind_ste STRTAB_LOG2SIZE sid bypass_ste) in
  if negb (is_ok r) then ret false else
  publish_strtab ;!
  let! synced := invalidate_ste sid in
  let! s := get in
  let! n := permitted_stream_count (strtab s) STRTAB_LOG2SIZE in
  let! only := if n =? 1 then let! v := verdict (strtab s) STRTAB_LOG2SIZE sid in ret (permits v) else ret false in
  ret (synced && only).

Definition bind_stream_stage2 (sid : N) (binding : Stage2Binding) : M Smmu bool :=
  let! r := zoom strtab_l (bind_stage2 STRTAB_LOG2SIZE sid binding) in
  if negb (is_ok r) then ret false else
  publish_strtab ;!
  let! synced := both (invalidate_ste sid) invalidate_s2_tlb in
  let! s := get in
  let! back := stage2_binding_at (strtab s) STRTAB_LOG2SIZE sid in
  let! n := permitted_stream_count (strtab s) STRTAB_LOG2SIZE in
  ret (synced && bool_decide (back = Some binding) && (n =? 1)).

Definition unbind_stream (sid : N) : M Smmu bool :=
  let! r := zoom strtab_l (unbind STRTAB_LOG2SIZE sid) in
  if negb (is_ok r) then ret false else
  publish_strtab ;!
  let! synced := invalidate_ste sid in
  let! s := get in
  if synced : bool then denies_every_stream (strtab s) STRTAB_LOG2SIZE else ret false.

(** ** The derivation *)

Definition register_domain_binding (dom : DomId) (binding : Stage2Binding) : M Smmu unit :=
  modify (fun s => lset binding_of_l (vset (binding_of s) dom (Some binding)) s).

Inductive Derived : Type :=
| NotArmed
| Unchanged
| Published
| Refused (e : DeriveError)
| Unfaithful.

Definition rederive (hv : Hypervisor) : M Smmu Derived :=
  let! s := get in
  if negb (armed s) then ret NotArmed else
  let streams := stream_of s in
  let bindings := binding_of s in
  let! outcome := zoom scratch_l (derive_stream_table STRTAB_LOG2SIZE (device hv) streams bindings) in
  let! s := get in
  if decide (scratch s = strtab s) then
    ret (match outcome with Ok _ => Unchanged | Err e => Refused e end)
  else
    modify (fun s => lset strtab_l (scratch s) s) ;!
    publish_strtab ;!
    let! synced := both invalidate_all_config invalidate_s2_tlb in
    modify (fun s => lset published_l ((published s + 1) mod 2 ^ 32) s) ;!
    match outcome with
    | Err e => ret (Refused e)
    | Ok _ =>
        if negb synced then ret Unfaithful else
        let! s := get in
        let! refines := table_refines_the_relation (strtab s) STRTAB_LOG2SIZE (device hv) streams bindings in
        ret (if negb refines then Unfaithful else Published)
    end.

Definition published_binding (sid : N) : M Smmu (option Stage2Binding) :=
  let! s := get in stage2_binding_at (strtab s) STRTAB_LOG2SIZE sid.
Definition denies_everything : M Smmu bool :=
  let! s := get in denies_every_stream (strtab s) STRTAB_LOG2SIZE.
Definition derivations_published : M Smmu N := gets published.

(** ** Events *)

Record SmmuEvent : Type := mkEvent { kind : N; sid : N; addr : N; at_prod : N }.

(** The records are read from the memory the unit writes, after the driver's copy was dropped. *)
Definition take_event : M Smmu (option SmmuEvent) :=
  let! v := read32 SMMU_EVENTQ_PROD in
  let p := N.land v (queue_mask EVENTQ_LOG2SIZE) in
  let! s := get in
  if p =? eventq_cons s then ret None else
  let idx := N.land (eventq_cons s) (EVENTQ_ENTRIES - 1) in
  let word i := evt (reads (unit_of s)) (idx * 4 + i) in
  let next := N.land ((eventq_cons s + 1) mod 2 ^ 32) (queue_mask EVENTQ_LOG2SIZE) in
  modify (lset eventq_cons_l next) ;!
  write32 SMMU_EVENTQ_CONS next ;!
  ret (Some (mkEvent (N.land (word 0) 0xff) (as_u32 (N.shiftr (word 0) 32)) (word 2) p)).

Fixpoint drain_from (fuel : nat) (n : N) : M Smmu N :=
  match fuel with
  | O => ret n
  | S fuel =>
      let! e := take_event in
      match e with
      | None => ret n
      | Some _ => if EVENTQ_ENTRIES <=? n + 1 then ret (n + 1) else drain_from fuel (n + 1)
      end
  end.
Definition drain_events : M Smmu N := drain_from 16 0.

(** ** The funnel *)

Record Machine : Type := mkMachine { world : World; smmu : Smmu }.
Definition world_l : lens Machine World := Lens world (fun u s => mkMachine u (smmu s)).
Definition smmu_l : lens Machine Smmu := Lens smmu (fun u s => mkMachine (world s) u).

(** [teardown::dispatch] with the [smmu] feature. The machine stops on a refused or unfaithful
    derivation, which is the [Err]. *)
Definition dispatch (caller : DomId) (c : HvCall) : M Machine (result Derived (result HvError HvOutcome)) :=
  let! outcome := zoom world_l (Teardown.dispatch b caller c) in
  if is_ok outcome then
    let! s := get in
    let! d := zoom smmu_l (rederive (model (world s))) in
    match d with
    | NotArmed | Unchanged | Published => ok outcome
    | Refused _ | Unfaithful => err d
    end
  else ok outcome.
End Driver.
