(* ===== verification/Dma.v ===== *)
(** * The system MMU follows the hypervisor — [hv-metal/src/smmu.rs] composed with [hv-core]

    What the commands of the driver make of the unit: they arrive exactly once and in order,
    and an invalidation that reports success leaves the unit nothing to serve but the table in
    memory. With [Derive]: after every hypercall whatever the unit serves, cached or not, is
    what the device assignment of the hypervisor says. *)

From Stdlib Require Import NArith Lia Btauto.
From stdpp Require Import base numbers list option.
From S2P Require Import Bits.
From S2P Require Import Hypervisor.
From S2P Require Import HvInvariant.
From S2P Require Import HvEvents.
From S2P Require Import HvSafety.
From S2P Require Import HvTheorems.
From S2P Require Import Regime.
From S2P Require Import Smmu.
From S2P Require Import Streams.
From S2P Require Import Derive.
From S2P Require Import Metal.
From S2P Require Import Teardown.
From S2P Require Import Inherit.
From S2P Require Import Steady.
From S2P Require Import Paravirt.
From S2P Require Import Buses.
From S2P Require Import SmmuDriver.
From S2P Require Import Prelude.
#[local] Open Scope N_scope.

(** ** Specification *)

(** The commands [l] were announced to the unit and not fetched. *)
Record ring (s : Smmu) (l : list (N * N)) : Prop := mkRing {
  rg_len : vlen (cmdq s) = 32;
  rg_seen : vlen (seen_cmdq (unit_of s)) = 32;
  rg_prod : prod (unit_of s) = cmdq_prod s;
  rg_bound : cmdq_prod s < 32 /\ cons (unit_of s) < 32;
  rg_at : cmdq_prod s = (cons (unit_of s) + vlen l) mod 32;
  rg_cmds : forall k c, vget l k = Some c -> let i := (cons (unit_of s) + k) mod 16 in
    vget (seen_cmdq (unit_of s)) (i * 2) = Some c.1 /\ vget (seen_cmdq (unit_of s)) (i * 2 + 1) = Some c.2;
  rg_room : vlen l <= 15;
}.

(** What the unit has fetched and may serve once it has fetched [l]. *)
Definition effect (u : Unit) (l : list (N * N)) : list (N * N) * Caches :=
  (fetched u ++ l, fold_left (fun k c => obey (seen_strtab u) c k) l (caches u)).

(** A unit that fetches whenever it is read and reports no error. *)
Definition responsive (pace : N -> N) (reg : list (N * N) -> N -> N -> N) : Prop :=
  (forall t, 1 <= pace t) /\ forall w w' t t', reg w t SMMU_GERROR = reg w' t' SMMU_GERRORN.

(** The driver's side is as it was, but for the ring. *)
Record same_tables (s s' : Smmu) : Prop := mkSameTables {
  sm_strtab : strtab s' = strtab s;
  sm_scratch : scratch s' = scratch s;
  sm_armed : armed s' = armed s;
  sm_streams : stream_of s' = stream_of s;
  sm_bindings : binding_of s' = binding_of s;
  sm_published : published s' = published s;
  sm_seen : seen_strtab (unit_of s') = seen_strtab (unit_of s);
}.

(** The life of the machine with the system MMU, from the start of the unit at some point of the
    life of [Inherit]: hypercalls, the registration of a domain's tables, and whatever else
    happens to the machine that leaves the device assignment alone. The flag tells that a call
    was accepted since tables were registered. *)
Section Life.
Context (b : Board) (w0 : World) (pace : N -> N) (reg : list (N * N) -> N -> N -> N).
Context (strtab_pa cmdq_pa eventq_pa : N).

Inductive dma_life : bool -> N -> Machine -> Prop :=
| dma_start k w u ndom streams s r : lifetime b w0 k w ->
    install_stream_table pace reg strtab_pa cmdq_pa eventq_pa streams (SMMU (vlen streams) ndom u) = Done s r ->
    report_ok r = true -> dma_life false k (mkMachine w s)
| dma_call fresh k m caller c m' r : dma_life fresh k m -> k <= u32_max ->
    SmmuDriver.dispatch b pace reg caller c m = Done m' (Ok r) -> dma_life (fresh || is_ok r) (k + 1) m'
| dma_register fresh k m d bnd s : dma_life fresh k m -> vmid bnd <= u16_max ->
    register_domain_binding d bnd (smmu m) = Done s tt -> dma_life false k (mkMachine (world m) s)
| dma_other fresh k k' m w : dma_life fresh k m -> lifetime b w0 k' w ->
    device (model w) = device (model (world m)) -> dma_life fresh k' (mkMachine w (smmu m)).
End Life.

(** A table from which the unit may serve the entry of a stream: one it may have cached it from,
    or the one it sees. *)
Definition serves (s : Smmu) (sid : N) (t : list N) : Prop :=
  t = seen_strtab (unit_of s) \/ t ∈ config (caches (unit_of s)) sid.

(** Whatever the unit serves of a stream is what the device assignment says of it, and it
    translates for the stream by no older table. *)
Definition enforced (hv : Hypervisor) (s : Smmu) : Prop :=
  forall sid t, sid <= u32_max -> serves s sid t ->
    exists v o, verdict t STRTAB_LOG2SIZE sid tt = Done tt v /\ stage2_binding_at t STRTAB_LOG2SIZE sid tt = Done tt o /\
      permits v = bool_decide (is_Some o) /\ stage2_unconfined v = false /\
      (forall bnd, o = Some bnd <-> exists dev h, dev < Device.device_count (device hv) /\
         vget (stream_of s) dev = Some sid /\ Device.holder_of (device hv) dev = Some h /\
         vget (binding_of s) h = Some (Some bnd)) /\
      (permits v = true -> forall t', t' ∈ tlb (caches (unit_of s)) sid -> t' = t).

(** Whatever the unit serves denies. *)
Definition all_denied (s : Smmu) : Prop := forall sid t, sid <= u32_max -> serves s sid t ->
  exists v, verdict t STRTAB_LOG2SIZE sid tt = Done tt v /\ permits v = false.

(** ** Lemmas *)

Lemma same_tables_refl s : same_tables s s.
Proof. by split. Qed.
Lemma same_tables_trans s1 s2 s3 : same_tables s1 s2 -> same_tables s2 s3 -> same_tables s1 s3.
Proof. intros [] []. split; congruence. Qed.

(** *** The ring *)

Lemma low_bits x : N.land x 31 = x mod 32 /\ N.land x 15 = x mod 16.
Proof. split; [apply (land_ones_mod x 5)|apply (land_ones_mod x 4)]. Qed.
Lemma advance_mod x : x < 32 -> advance x = (x + 1) mod 32.
Proof.
  intros H. unfold advance. change (queue_mask CMDQ_LOG2SIZE) with 31.
  rewrite (proj1 (low_bits _)), (N.mod_small _ (2 ^ 32)); [done|]. change (2 ^ 32) with 4294967296. lia.
Qed.
Lemma advance_lt x : advance x < 32.
Proof. unfold advance. change (queue_mask CMDQ_LOG2SIZE) with 31. rewrite (proj1 (low_bits _)). by apply N.mod_lt. Qed.

Lemma ring_drained s l : ring s l -> cons (unit_of s) = cmdq_prod s <-> l = [].
Proof.
  intros [_ _ _ [Hp Hc] Ha _ Hr]. rewrite Ha. split.
  - intros H. destruct l as [|c l]; [done|]. exfalso. unfold vlen in *. cbn [length] in *.
    pose proof (N.div_mod' (cons (unit_of s) + N.of_nat (S (length l))) 32).
    pose proof (N.mod_lt (cons (unit_of s) + N.of_nat (S (length l))) 32 ltac:(done)). lia.
  - intros ->. change (vlen []) with 0. rewrite N.add_0_r, N.mod_small by done. done.
Qed.

Lemma vget_cons_0 {A} (x : A) l : vget (x :: l) 0 = Some x.
Proof. done. Qed.
Lemma vget_cons_succ {A} (x : A) l k : vget (x :: l) (k + 1) = vget l k.
Proof. unfold vget. replace (N.to_nat (k + 1)) with (S (N.to_nat k)) by lia. done. Qed.

(** The unit goes on. *)
Lemma fetch_ring s l : ring s l -> exists l', ring (lset unit_l (fetch_one (unit_of s)) s) l' /\
  effect (fetch_one (unit_of s)) l' = effect (unit_of s) l /\
  seen_strtab (fetch_one (unit_of s)) = seen_strtab (unit_of s) /\ vlen l' = vlen l - 1.
Proof.
  intros Hr. pose proof (ring_drained _ _ Hr) as Hd. unfold fetch_one.
  destruct (N.eqb_spec (cons (unit_of s)) (prod (unit_of s))) as [E|E].
  - exists []. rewrite (rg_prod _ _ Hr) in E. apply Hd in E. subst l. by destruct s.
  - rewrite (rg_prod _ _ Hr) in E. destruct l as [|c l]; [by destruct E; apply Hd|].
    destruct Hr as [H1 H2 H3 [H4 H5] H6 H7 H8]. change (CMDQ_ENTRIES - 1) with 15. rewrite (proj2 (low_bits _)).
    destruct (H7 0 c eq_refl) as [E0 E1]. rewrite N.add_0_r in E0, E1. rewrite E0, E1. exists l.
    assert (Hv : vlen (c :: l) = vlen l + 1) by (unfold vlen; cbn [length]; lia).
    rewrite Hv in *. split; [|split; [|split; [done|lia] ] ].
    + split; cbn; try done; [split; [done|apply advance_lt]| | |lia].
      * rewrite advance_mod, N.Div0.add_mod_idemp_l, H6 by done. f_equal. lia.
      * intros k c' Hk. rewrite advance_mod by done.
        replace ((((cons (unit_of s) + 1) mod 32 + k) mod 16)) with ((cons (unit_of s) + (k + 1)) mod 16).
        -- apply H7. by rewrite vget_cons_succ.
        -- rewrite <- (N.Div0.add_mod_idemp_l ((cons (unit_of s) + 1) mod 32)).
           change 32 with (16 * 2). rewrite N.Div0.mod_mul_r, (N.mul_comm 16), N.Div0.mod_add, N.Div0.mod_mod, N.Div0.add_mod_idemp_l.
           f_equal. lia.
    + unfold effect. cbn. rewrite <- app_assoc. by destruct c.
Qed.

(** The unit went on while the driver only looked. *)
Record went (s : Smmu) (l : list (N * N)) (s' : Smmu) (l' : list (N * N)) : Prop := mkWent {
  wt_ring : ring s' l';
  wt_same : same_tables s s';
  wt_effect : effect (unit_of s') l' = effect (unit_of s) l;
  wt_prod : cmdq_prod s' = cmdq_prod s;
  wt_less : vlen l' <= vlen l;
}.
Lemma went_refl s l : ring s l -> went s l s l.
Proof. by split. Qed.
Lemma went_trans s1 l1 s2 l2 s3 l3 : went s1 l1 s2 l2 -> went s2 l2 s3 l3 -> went s1 l1 s3 l3.
Proof.
  intros [_ S1 E1 P1 L1] [R2 S2 E2 P2 L2]. split; [done|by eapply same_tables_trans|congruence|congruence|lia].
Qed.

Lemma fetch_iter n s l : ring s l -> exists l', went s l (lset unit_l (N.iter n fetch_one (unit_of s)) s) l' /\
  vlen l' = vlen l - n.
Proof.
  intros Hr. induction n as [|n IH] using N.peano_ind.
  - exists l. split; [|lia]. destruct s. by apply went_refl.
  - destruct IH as (l1 & [H1 S1 E1 P1 L1] & Hl). rewrite N.iter_succ.
    destruct (fetch_ring _ _ H1) as (l2 & H2 & E2 & Hs2 & Hl2). exists l2. split; [|lia].
    split; [exact H2| |by rewrite <- E1|done|lia].
    split; try done. etrans; [exact Hs2|apply (sm_seen _ _ S1)].
Qed.

Section Driver.
Context (pace : N -> N) (reg : list (N * N) -> N -> N -> N).

Lemma cons_value c v : c < 32 -> N.land (N.lor c (shl 32 v 24)) 31 = c.
Proof.
  intros Hc. change 31 with (N.ones 5). apply N.bits_inj. intros i. autorewrite with bits.
  destruct (N.ltb_spec i 5) as [H|H].
  - rewrite (proj2 (N.leb_gt 24 i)) by lia. btauto.
  - rewrite (testbit_high c 5 i) by (done || lia). btauto.
Qed.

Lemma wp_read32 off s l (Q : Smmu -> N -> Prop) : ring s l ->
  (forall s' l' v, went s l s' l' -> (off = SMMU_CMDQ_CONS -> N.land v 31 = cons (unit_of s')) ->
    (off <> SMMU_CMDQ_CONS -> exists w t, v = reg w t off) -> vlen l' = vlen l - pace (reads (unit_of s)) -> Q s' v) ->
  wp (read32 pace reg off) Q s.
Proof.
  intros Hr HQ. unfold read32, on_unit. do 3 wp_step.
  destruct (fetch_iter (pace (reads (unit_of s))) s l Hr) as (l' & [H1 S1 E1 P1 L1] & Hl).
  apply (HQ _ l'); [| | |done].
  - destruct H1 as [A1 A2 A3 A4 A5 A6 A7], S1. split; [by split|by split|done..].
  - intros ->. cbn. apply cons_value. apply (rg_bound _ _ H1).
  - intros Hne. cbn. rewrite (proj2 (N.eqb_neq _ _) Hne). by do 2 eexists.
Qed.

Lemma wp_write32 off v s l (Q : Smmu -> unit -> Prop) : ring s l -> off <> SMMU_CMDQ_PROD -> off <> SMMU_CMDQ_CONS ->
  (forall s', went s l s' l -> Q s' tt) -> wp (write32 off v) Q s.
Proof.
  intros [A1 A2 A3 A4 A5 A6 A7] H1%N.eqb_neq H2%N.eqb_neq HQ. unfold write32, on_unit. wp_step. apply HQ.
  unfold take_write. rewrite H1, H2. split; [by split|by split|done..].
Qed.

(** A command is announced. *)
Record issued (s : Smmu) (l : list (N * N)) (c : N * N) (s' : Smmu) (l' : list (N * N)) : Prop := mkIssued {
  is_ring : ring s' l';
  is_same : same_tables s s';
  is_effect : effect (unit_of s') l' = effect (unit_of s) (l ++ [c]);
  is_still : caches (unit_of s') = caches (unit_of s) /\ reads (unit_of s') = reads (unit_of s);
}.

Lemma wp_submit w0 w1 s l (Q : Smmu -> unit -> Prop) : ring s l -> vlen l <= 14 ->
  (forall s', issued s l (w0, w1) s' (l ++ [(w0, w1)]) -> Q s' tt) -> wp (submit w0 w1) Q s.
Proof.
  intros [A1 A2 A3 [A4 A4'] A5 A6 A7] Hl HQ. unfold submit, index_set. do 2 wp_step.
  change (CMDQ_ENTRIES - 1) with 15. rewrite (proj2 (low_bits _)). set (i := cmdq_prod s mod 16).
  assert (Hi : i < 16) by (by apply N.mod_lt).
  destruct (vget_lt_Some (cmdq s) (i * 2)) as [x0 Hx0]; [lia|].
  repeat wp_step. apply wp_index. exists x0. split; [done|]. wp_step.
  set (s1 := lset cmdq_l _ s).
  destruct (vget_lt_Some (cmdq s1) (i * 2 + 1)) as [x1 Hx1]; [cbn; rewrite vlen_vset; lia|].
  repeat wp_step. apply wp_index. exists x1. split; [done|]. wp_step. set (s2 := lset cmdq_l _ s1).
  unfold publish_slot, on_unit. repeat wp_step. apply wp_index. exists w0. split.
  { cbn. rewrite vget_vset_ne by lia. apply vget_vset_eq. lia. }
  repeat wp_step. apply wp_index. exists w1. split; [cbn; apply vget_vset_eq; rewrite vlen_vset; lia|].
  unfold write32, on_unit. repeat wp_step. apply HQ.
  assert (Hlt := advance_lt (cmdq_prod s)). pose proof (advance_mod _ A4) as Hadv.
  split; [|by split| |].
  - split; cbn; rewrite ?vlen_vset, ?vlen_snoc; try done; try lia.
    + change (queue_mask CMDQ_LOG2SIZE) with 31. rewrite (proj1 (low_bits _)). by apply N.mod_small.
    + rewrite Hadv, A5, N.Div0.add_mod_idemp_l. f_equal. lia.
    + intros k c Hk.
      assert (Hin : i = (cons (unit_of s) + vlen l) mod 16).
      { unfold i. rewrite A5. change 32 with (16 * 2). by rewrite N.Div0.mod_mul_r, (N.mul_comm 16), N.Div0.mod_add, N.Div0.mod_mod. }
      destruct (decide (k < vlen l)) as [Hlk|Hlk].
      * rewrite vget_app_l in Hk by done. destruct (A6 k c Hk) as [B0 B1].
        assert (Hne : (cons (unit_of s) + k) mod 16 <> i).
        { rewrite Hin. intros E. pose proof (N.div_mod' (cons (unit_of s) + k) 16).
          pose proof (N.div_mod' (cons (unit_of s) + vlen l) 16). lia. }
        by rewrite !vget_vset_ne by lia.
      * assert (k = vlen l) as -> by (apply vget_Some_lt in Hk; rewrite vlen_snoc in Hk; lia).
        rewrite vget_snoc in Hk. rewrite decide_True in Hk by done. injection Hk as <-.
        rewrite <- Hin. cbn. rewrite vget_vset_ne by lia.
        by rewrite !vget_vset_eq by (rewrite ?vlen_vset; lia).
  - reflexivity.
  - done.
Qed.

(** *** Commands that complete *)

Lemma effect_app u u' l m : seen_strtab u = seen_strtab u' -> effect u l = effect u' l -> effect u (l ++ m) = effect u' (l ++ m).
Proof.
  unfold effect. intros Hs E. rewrite !app_assoc, !fold_left_app, Hs. rewrite Hs in E. injection E as E1 E2. congruence.
Qed.

(** What [c] and the rest did: [done] tells that nothing is left to fetch. *)
Record ran (s : Smmu) (l cs : list (N * N)) (ok : bool) (s' : Smmu) (l' : list (N * N)) : Prop := mkRan {
  rn_ring : ring s' l';
  rn_same : same_tables s s';
  rn_effect : effect (unit_of s') l' = effect (unit_of s) (l ++ cs);
  rn_done : ok = true -> l' = [];
  rn_room : vlen l' <= vlen l + vlen cs;
  rn_responsive : responsive pace reg -> ok = true;
}.

Lemma wp_submit_all s l cs : ring s l -> vlen l + vlen cs <= 14 ->
  wp (for_each cs (fun c => submit c.1 c.2)) (fun s' _ => ring s' (l ++ cs) /\
    effect (unit_of s') (l ++ cs) = effect (unit_of s) (l ++ cs)) s.
Proof.
  revert s l. induction cs as [|c cs IH]; intros s l Hr Hl; cbn [for_each].
  { wp_step. by rewrite app_nil_r. }
  assert (Hv : vlen (c :: cs) = vlen cs + 1) by (unfold vlen; cbn [length]; lia).
  wp_step. apply (wp_submit c.1 c.2 s l); [done|lia|]. destruct c as [c0 c1]. cbn [fst snd] in *. intros s1 [R1 S1 E1 _].
  eapply wp_mono; [apply (IH s1 (l ++ [(c0, c1)])); [done|rewrite vlen_snoc; lia]|]. cbn beta. intros s2 _.
  rewrite <- app_assoc. cbn [app]. intros [R2 E2]. split; [done|]. rewrite E2.
  change ((c0, c1) :: cs) with ([(c0, c1)] ++ cs). rewrite app_assoc. apply effect_app; [apply S1|done].
Qed.

Lemma wp_wait fuel s l : ring s l ->
  wp (spin fuel (let! v := read32 pace reg SMMU_CMDQ_CONS in let! s := get in
        ret (N.land v (queue_mask CMDQ_LOG2SIZE) =? cmdq_prod s)))
    (fun s' hit => exists l', went s l s' l' /\ (hit = true -> l' = []) /\
       (responsive pace reg -> vlen l < N.of_nat fuel -> hit = true)) s.
Proof.
  revert s l. induction fuel as [|fuel IH]; intros s l Hr; cbn [spin].
  { wp_step. exists l. split; [by apply went_refl|]. split; [done|]. intros _ H. simpl in H. lia. }
  do 2 wp_step. eapply wp_read32; [exact Hr|]. intros s1 l1 v Hw Hv _ Hl. do 3 wp_step. cbn beta.
  change (queue_mask CMDQ_LOG2SIZE) with 31. rewrite (Hv eq_refl).
  pose proof (ring_drained _ _ (wt_ring _ _ _ _ Hw)) as Hd.
  destruct (N.eqb_spec (cons (unit_of s1)) (cmdq_prod s1)) as [E|E].
  - wp_step. exists l1. split; [done|]. split; [intros _; by apply Hd|done].
  - eapply wp_mono; [apply IH, Hw|]. cbn beta. intros s2 hit (l2 & Hw2 & Hh & Hf).
    exists l2. split; [by eapply went_trans|]. split; [done|]. intros [Hp Hg] Hlt. apply Hf; [done|].
    pose proof (Hp (reads (unit_of s))). rewrite Nat2N.inj_succ in Hlt.
    destruct l1 as [|c l1]; [by destruct E; apply Hd|]. unfold vlen in *. cbn [length] in *. lia.
Qed.

Lemma went_nil s s' l' : went s [] s' l' -> l' = [].
Proof. intros [_ _ _ _ H]. destruct l'; [done|]. unfold vlen in H. cbn [length] in H. lia. Qed.

Lemma wp_synced s l : ring s l -> vlen l <= 14 ->
  wp (sync pace reg) (fun s' ok => exists l', ran s l [(CMD_SYNC, 0)] ok s' l') s.
Proof.
  intros Hr Hl. unfold sync. wp_step. apply (wp_submit CMD_SYNC 0 s l); [done..|]. intros s1 [R1 S1 E1 _]. wp_step.
  eapply wp_mono; [apply wp_wait, R1|]. cbn beta. intros s2 hit (l2 & [R2 S2 E2 P2 L2] & Hh & Hf).
  rewrite vlen_snoc in *.
  assert (Hfuel : responsive pace reg -> hit = true).
  { intros Hresp. apply Hf; [done|]. rewrite N2Nat.id. lia. }
  destruct hit.
  - specialize (Hh eq_refl). subst l2. wp_step. eapply wp_read32; [exact R2|]. intros s3 l3 e W3 _ He _.
    pose proof (went_nil _ _ _ W3) as ->. wp_step. eapply wp_read32; [exact (wt_ring _ _ _ _ W3)|]. intros s4 l4 n W4 _ Hn _.
    pose proof (went_nil _ _ _ W4) as ->. wp_step. exists []. split; try done.
    + apply W4.
    + eapply same_tables_trans; [exact S1|]. eapply same_tables_trans; [exact S2|].
      eapply same_tables_trans; [apply W3|apply W4].
    + by rewrite (wt_effect _ _ _ _ W4), (wt_effect _ _ _ _ W3), E2.
    + intros [_ Hg]. destruct He as (w & t & ->); [done|]. destruct Hn as (w' & t' & ->); [done|].
      apply N.eqb_eq, Hg.
  - wp_step. exists l2. split; try done.
    + by eapply same_tables_trans.
    + by rewrite E2.
Qed.

Lemma wp_invalidate c0 c1 s l : ring s l -> vlen l <= 13 ->
  wp (submit c0 c1 ;! sync pace reg) (fun s' ok => exists l', ran s l [(c0, c1); (CMD_SYNC, 0)] ok s' l') s.
Proof.
  intros Hr Hl. wp_step. apply (wp_submit c0 c1 s l); [done|lia|]. intros s1 [R1 S1 E1 _].
  eapply wp_mono; [apply (wp_synced s1); [exact R1|rewrite vlen_snoc; lia]|]. cbn beta. intros s2 ok (l2 & [R2 S2 E2 D2 L2 P2]).
  exists l2. split; try done.
  - by eapply same_tables_trans.
  - rewrite E2. change [(c0, c1); (CMD_SYNC, 0)] with ([(c0, c1)] ++ [(CMD_SYNC, 0)]). rewrite app_assoc.
    apply effect_app; [apply S1|exact E1].
  - rewrite vlen_snoc in L2. change (vlen [(c0, c1); (CMD_SYNC, 0)]) with 2. change (vlen [(CMD_SYNC, 0)]) with 1 in L2. lia.
Qed.

(** The two invalidations of a derivation. *)
Definition rebuild : list (N * N) := [(CMD_CFGI_STE_RANGE, 31); (CMD_SYNC, 0)].
Definition retranslate : list (N * N) := [(CMD_TLBI_NSNH_ALL, 0); (CMD_SYNC, 0)].

Lemma wp_both s : ring s [] ->
  wp (both (invalidate_all_config pace reg) (invalidate_s2_tlb pace reg)) (fun s' ok => exists l' cs,
    ran s [] cs ok s' l' /\ (ok = true -> cs = rebuild ++ retranslate)) s.
Proof.
  intros Hr. unfold both. wp_step. eapply wp_mono; [by apply (wp_invalidate CMD_CFGI_STE_RANGE 31 s [])|].
  cbn beta. intros s1 [] (l1 & H1).
  - destruct H1 as [R1 S1 E1 D1 L1 P1]. rewrite (D1 eq_refl) in *.
    eapply wp_mono; [by apply (wp_invalidate CMD_TLBI_NSNH_ALL 0 s1 [])|]. cbn beta. intros s2 ok (l2 & [R2 S2 E2 D2 L2 P2]).
    exists l2, (rebuild ++ retranslate). split; [|done]. split; try done.
    + by eapply same_tables_trans.
    + rewrite E2. change ([] ++ retranslate) with retranslate. cbn [app].
      change (effect (unit_of s1) retranslate) with (effect (unit_of s1) ([] ++ retranslate)).
      unfold effect in *. cbn [app fold_left] in *. injection E1 as Ef Ek. rewrite app_nil_r in Ef.
      rewrite Ef, Ek, (sm_seen _ _ S1). by rewrite <- !app_assoc.
    + change (vlen (rebuild ++ retranslate)) with 4. change (vlen []) with 0 in *. change (vlen [_; _]) with 2 in *. lia.
  - wp_step. exists l1, rebuild. split; [|done]. exact H1.
Qed.

(** *** The derivation *)

(** A quiet unit: nothing is left to fetch, and what it may serve is the table in memory. Stream
    identifiers have 32 bits; translations matter of the streams that have a binding. *)
Record settled (s : Smmu) : Prop := mkSettled {
  st_ring : ring s [];
  st_len : vlen (strtab s) = STRTAB_WORDS /\ vlen (scratch s) = STRTAB_WORDS;
  st_seen : seen_strtab (unit_of s) = strtab s;
  st_config : forall sid t, sid <= u32_max -> t ∈ config (caches (unit_of s)) sid -> t = strtab s;
  st_tlb : forall sid t, sid <= u32_max -> t ∈ tlb (caches (unit_of s)) sid ->
    permits (verdict_of (strtab s) STRTAB_LOG2SIZE sid) = true -> t = strtab s;
}.

Lemma range_all sid : sid <= u32_max -> (N.shiftr sid 32 =? 0) = true.
Proof.
  intros H. apply N.eqb_eq. rewrite (N.shiftr_div_pow2 sid), N.div_small; [done|].
  change (2 ^ 32) with 4294967296. unfold u32_max in H. lia.
Qed.

(** After the two invalidations only the table that is seen can be served. *)
Lemma ran_rebuilt s s' : ran s [] (rebuild ++ retranslate) true s' [] -> forall sid, sid <= u32_max ->
  config (caches (unit_of s')) sid = [seen_strtab (unit_of s)] /\ tlb (caches (unit_of s')) sid = [seen_strtab (unit_of s)].
Proof.
  intros [_ _ E _ _ _] sid Hsid. unfold effect in E. cbn [fold_left app] in E. injection E as _ Ek. rewrite Ek.
  set (k := caches (unit_of s)). set (seen := seen_strtab (unit_of s)).
  set (f := fun sid => if N.shiftr sid 32 =? 0 then [seen] else config k sid).
  change (f sid = [seen] /\ f sid = [seen]). unfold f. by rewrite range_all.
Qed.

Definition kept_maps (s s' : Smmu) : Prop :=
  armed s' = armed s /\ stream_of s' = stream_of s /\ binding_of s' = binding_of s.

(** The table in memory is the one the relation asks for. *)
Definition derives (hv : Hypervisor) (s : Smmu) : Prop :=
  derivable (device hv) (stream_of s) (binding_of s) (strtab s) STRTAB_LOG2SIZE /\
  derived (device hv) (stream_of s) (binding_of s) STRTAB_WORDS (Device.device_count (device hv)) (strtab s).

Definition rederived (hv : Hypervisor) (s s' : Smmu) (d : Derived) : Prop :=
  kept_maps s s' /\
  match d with
  | NotArmed => armed s = false /\ s' = s
  | Unchanged | Published => settled s' /\ derives hv s'
  | Refused e => zeros STRTAB_WORDS (strtab s') /\ seen_strtab (unit_of s') = strtab s' /\
      ~ derivable (device hv) (stream_of s) (binding_of s) (strtab s') STRTAB_LOG2SIZE /\
      (responsive pace reg -> settled s')
  | Unfaithful => ~ responsive pace reg
  end.

Lemma derivable_len devices streams bindings w w' l : vlen w' = vlen w ->
  derivable devices streams bindings w l -> derivable devices streams bindings w' l.
Proof. intros E []. split; try done. unfold fits in *. by rewrite E. Qed.

Lemma wp_rederive hv s : settled s -> wf (device hv) (binding_of s) ->
  wp (rederive pace reg hv) (fun s' d => rederived hv s s' d) s.
Proof.
  intros [Hr [Hl1 Hl2] Hseen Hcf Htl] Hwf. unfold rederive. do 2 wp_step.
  destruct (armed s) eqn:Ea; cbn [negb]; [|wp_step; by split].
  destruct (derive_run (scratch s) STRTAB_LOG2SIZE _ (stream_of s) _ Hwf) as (w & r & E & Hlw & Hd). rewrite Hl2 in *.
  wp_step. unfold zoom, wp at 1. cbn [lget scratch_l]. rewrite E. set (s1 := lset scratch_l w s).
  assert (Hr1 : ring s1 []) by (by destruct Hr). do 2 wp_step. change (scratch s1) with w. change (strtab s1) with (strtab s).
  case_decide as Hw.
  { wp_step. split; [by split|]. assert (Hst : settled s1) by (by split). destruct r as [ []|e].
    - split; [done|]. destruct Hd as [Hdv Hd]. split; [|by rewrite Hw in Hd].
      eapply derivable_len; [|exact Hdv]. by rewrite Hl2.
    - destruct Hd as [Hz Hno]. change (strtab s1) with (strtab s). rewrite <- Hw. split; [done|]. split; [by rewrite Hw|].
      split; [|done]. intros Hdv. apply Hno. eapply derivable_len; [|exact Hdv]. by rewrite Hlw, Hl2. }
  do 2 wp_step. unfold publish_strtab. do 2 wp_step. set (s2 := lset unit_l _ _).
  assert (Hr2 : ring s2 []) by (by destruct Hr). wp_step.
  eapply wp_mono; [by apply wp_both|]. cbn beta. intros s3 synced (l & cs & Hran & Hcs). do 2 wp_step. set (s4 := lset published_l _ s3).
  pose proof (rn_same _ _ _ _ _ _ Hran) as [M1 M2 M3 M4 M5 _ M7].
  assert (Hk : kept_maps s s4) by (unfold kept_maps; cbn; by rewrite M3, M4, M5).
  assert (Hw4 : strtab s4 = w) by (cbn; by rewrite M1). assert (Hseen4 : seen_strtab (unit_of s4) = strtab s4) by (cbn; by rewrite M7, M1).
  assert (Hset : synced = true -> settled s4).
  { intros ->. specialize (Hcs eq_refl). subst cs. pose proof (rn_done _ _ _ _ _ _ Hran eq_refl). subst l.
    pose proof (ran_rebuilt _ _ Hran) as Hall. split.
    - destruct (rn_ring _ _ _ _ _ _ Hran). by split.
    - rewrite Hw4. cbn. rewrite M2. by split.
    - done.
    - intros sid t Hsid Ht. change (caches (unit_of s4)) with (caches (unit_of s3)) in Ht.
      rewrite (proj1 (Hall sid Hsid)) in Ht. by apply list_elem_of_singleton in Ht as ->.
    - intros sid t Hsid Ht _. change (caches (unit_of s4)) with (caches (unit_of s3)) in Ht.
      rewrite (proj2 (Hall sid Hsid)) in Ht. by apply list_elem_of_singleton in Ht as ->. }
  destruct r as [ []|e].
  - destruct synced; cbn [negb].
    + do 2 wp_step. wp_step. destruct Hd as [Hdv Hd].
      assert (Hdv4 : derivable (device hv) (stream_of s4) (binding_of s4) (strtab s4) STRTAB_LOG2SIZE).
      { destruct Hk as (_ & -> & ->). rewrite Hw4. eapply derivable_len; [|exact Hdv]. by rewrite Hlw, Hl2. }
      eapply wp_of_Done; [apply (derived_refines (scratch s)); [done|done|by rewrite Hw4, Hlw, Hl2|by rewrite Hw4, Hl2]|].
      wp_step. split; [done|]. split; [by apply Hset|]. split; [done|]. destruct Hk as (_ & -> & ->). by rewrite Hw4.
    + wp_step. split; [done|]. intros Hresp. by apply (rn_responsive _ _ _ _ _ _ Hran) in Hresp.
  - wp_step. split; [done|]. destruct Hd as [Hz Hno]. rewrite Hw4 in *. split; [done|]. split; [done|]. split.
    + intros Hdv. apply Hno. eapply derivable_len; [|exact Hdv]. by rewrite Hlw, Hl2.
    + intros Hresp. apply Hset. by apply (rn_responsive _ _ _ _ _ _ Hran).
Qed.

(** *** A unit that has stopped *)

Definition idle (s : Smmu) : Prop := forall t, reads (unit_of s) <= t -> pace t = 0.
(** It may still serve what it might have served. *)
Definition stalled (s s' : Smmu) : Prop := idle s' /\ caches (unit_of s') = caches (unit_of s).

Lemma stall_trans s1 s2 s3 : stalled s1 s2 -> stalled s2 s3 -> stalled s1 s3.
Proof. intros [H1 E1] [H2 E2]. split; [done|congruence]. Qed.
Lemma stall_read off s : idle s -> wp (read32 pace reg off) (fun s' _ => stalled s s') s.
Proof.
  intros Hi. unfold read32, on_unit. do 3 wp_step. rewrite (Hi (reads (unit_of s))) by done.
  split; [|done]. intros t Ht. apply Hi. cbn in Ht. lia.
Qed.
Lemma stall_spin fuel test s : idle s -> (forall s1, idle s1 -> wp test (fun s2 (_ : bool) => stalled s1 s2) s1) ->
  wp (spin fuel test) (fun s' _ => stalled s s') s.
Proof.
  intros Hi Ht. revert s Hi. induction fuel as [|fuel IH]; intros s Hi; cbn [spin]; [by wp_step|].
  wp_step. eapply wp_mono; [by apply Ht|]. cbn beta. intros s1 [] Hs1; [by wp_step|].
  eapply wp_mono; [apply IH, Hs1|]. cbn beta. intros s2 _. by apply stall_trans.
Qed.
Lemma stall_sync s l : ring s l -> vlen l <= 14 -> idle s -> wp (sync pace reg) (fun s' _ => stalled s s') s.
Proof.
  intros Hr Hl Hi. unfold sync. wp_step. apply (wp_submit CMD_SYNC 0 s l); [done..|]. intros s1 [_ _ _ [Hc Ht] ].
  assert (H1 : stalled s s1) by (split; [intros t; rewrite Ht; apply Hi|done]). wp_step.
  eapply wp_mono; [apply stall_spin; [apply H1|]|].
  - intros s2 H2. wp_step. eapply wp_mono; [by apply stall_read|]. cbn beta. intros s3 v H3. by repeat wp_step.
  - cbn beta. intros s2 [] H2; [|wp_step; by eapply stall_trans].
    wp_step. eapply wp_mono; [apply stall_read, H2|]. cbn beta. intros s3 e H3.
    wp_step. eapply wp_mono; [apply stall_read, H3|]. cbn beta. intros s4 n H4. wp_step.
    eapply stall_trans; [exact H1|]. eapply stall_trans; [exact H2|]. by eapply stall_trans.
Qed.
Lemma stall_invalidate c0 c1 s l : ring s l -> vlen l <= 13 -> idle s ->
  wp (submit c0 c1 ;! sync pace reg) (fun s' _ => stalled s s') s.
Proof.
  intros Hr Hl Hi. wp_step. apply (wp_submit c0 c1 s l); [done|lia|]. intros s1 [R1 _ _ [Hc Ht] ].
  assert (H1 : stalled s s1) by (split; [intros t; rewrite Ht; apply Hi|done]).
  eapply wp_mono; [apply (stall_sync s1 _ R1); [rewrite vlen_snoc; lia|apply H1]|]. cbn beta. intros s2 _. by apply stall_trans.
Qed.
Lemma stall_both s : ring s [] -> idle s ->
  wp (both (invalidate_all_config pace reg) (invalidate_s2_tlb pace reg)) (fun s' _ => stalled s s') s.
Proof.
  intros Hr Hi. unfold both. wp_step.
  eapply wp_mono; [apply wp_and; [by apply (wp_invalidate CMD_CFGI_STE_RANGE 31 s [])|by apply (stall_invalidate CMD_CFGI_STE_RANGE 31 s [])]|].
  cbn beta. intros s1 [] [ (l1 & Hran) H1]; [|by wp_step].
  pose proof (rn_done _ _ _ _ _ _ Hran eq_refl) as ->.
  eapply wp_mono; [apply (stall_invalidate CMD_TLBI_NSNH_ALL 0 s1 []); [apply Hran|done|apply H1]|]. cbn beta. intros s2 _. by apply stall_trans.
Qed.

(** *** The start *)

Lemma wp_read_any off s (Q : Smmu -> N -> Prop) :
  (forall u v, seen_strtab u = seen_strtab (unit_of s) -> Q (lset unit_l u s) v) -> wp (read32 pace reg off) Q s.
Proof.
  intros HQ. unfold read32, on_unit. do 3 wp_step. apply HQ. cbn. generalize (pace (reads (unit_of s))). intros n.
  induction n as [|n IH] using N.peano_ind; [done|]. rewrite N.iter_succ. rewrite <- IH. unfold fetch_one. by destruct (_ =? _).
Qed.
Lemma wp_write_any off v s (Q : Smmu -> unit -> Prop) :
  (forall u, seen_strtab u = seen_strtab (unit_of s) -> Q (lset unit_l u s) tt) -> wp (write32 off v) Q s.
Proof. intros HQ. unfold write32, on_unit. wp_step. by apply HQ. Qed.

Lemma wp_spin fuel test s l : ring s l ->
  (forall s1 l1, ring s1 l1 -> wp test (fun s2 (_ : bool) => exists l2, went s1 l1 s2 l2) s1) ->
  wp (spin fuel test) (fun s' _ => exists l', went s l s' l') s.
Proof.
  intros Hr Ht. revert s l Hr. induction fuel as [|fuel IH]; intros s l Hr; cbn [spin].
  { wp_step. exists l. by apply went_refl. }
  wp_step. eapply wp_mono; [by apply Ht|]. cbn beta. intros s1 [] (l1 & Hw); [wp_step; by exists l1|].
  eapply wp_mono; [apply IH, Hw|]. cbn beta. intros s2 _ (l2 & Hw2). exists l2. by eapply went_trans.
Qed.

Lemma wp_set_cr0_bits bits s l : ring s l ->
  wp (set_cr0_bits pace reg bits) (fun s' _ => exists l', went s l s' l') s.
Proof.
  intros Hr. unfold set_cr0_bits. wp_step. eapply wp_read32; [exact Hr|]. intros s1 l1 v H1 _ _ _. wp_step.
  eapply wp_write32; [apply H1|done..|]. intros s2 H2.
  eapply wp_mono; [apply (wp_spin _ _ s2 l1); [apply H2|]|].
  - intros s3 l3 Hr3. wp_step. eapply wp_read32; [exact Hr3|]. intros s4 l4 v4 H4 _ _ _. wp_step. by exists l4.
  - cbn beta. intros s3 _ (l3 & H3). exists l3. eapply went_trans; [exact H1|]. by eapply went_trans.
Qed.

(** The ring after it was reset. *)
Lemma ring_reset s : vlen (cmdq s) = 32 -> cmdq_prod s = 0 -> seen_cmdq (unit_of s) = cmdq s ->
  prod (unit_of s) = 0 -> cons (unit_of s) = 0 -> ring s [].
Proof. intros H1 H2 H3 H4 H5. split; rewrite ?H2, ?H3, ?H4, ?H5; done. Qed.

Context (strtab_pa cmdq_pa eventq_pa : N).

Lemma denies_zeros {S} w (s : S) : zeros STRTAB_WORDS w -> denies_every_stream w STRTAB_LOG2SIZE s = Done s true.
Proof.
  intros Hz. unfold denies_every_stream. change (table_words STRTAB_LOG2SIZE) with (Some 2048).
  unfold zeros in Hz. subst w. rewrite (vlen_vrepeat STRTAB_WORDS 0).
  change (STRTAB_WORDS <? 2048) with false. cbv iota. apply all_m_true. intros sid _. unfold bind. rewrite verdict_Done. unfold ret.
  by rewrite (zeros_denies _ STRTAB_WORDS).
Qed.

(** What the start leaves, and what it has settled when the unit has taken the invalidation. *)
Record installed (streams : list N) (s s' : Smmu) (r : StreamTableReport) : Prop := mkInstalled {
  in_armed : armed s' = true;
  in_streams : stream_of s' = streams;
  in_bindings : binding_of s' = binding_of s;
  in_zeros : zeros STRTAB_WORDS (strtab s');
  in_settled : gerror_clean r = true -> settled s';
}.

Lemma wp_install streams s : vlen (strtab s) = STRTAB_WORDS -> vlen (scratch s) = STRTAB_WORDS -> vlen (cmdq s) = 32 ->
  wp (install_stream_table pace reg strtab_pa cmdq_pa eventq_pa streams) (installed streams s) s.
Proof.
  intros Hl1 Hl2 Hl3. unfold install_stream_table. wp_step. apply wp_read_any. intros u0 idr1 _. cbn zeta.
  wp_step. apply wp_zoom. unfold init_deny. wp_step. set (s1 := lset strtab_l _ _).
  assert (Hz : strtab s1 = vrepeat STRTAB_WORDS 0) by (cbn; by rewrite Hl1).
  wp_step. apply wp_write_any. intros u1 _. wp_step. apply wp_write_any. intros u2 _.
  unfold publish_strtab. do 2 wp_step. set (s2 := lset unit_l _ _).
  assert (H2 : seen_strtab (unit_of s2) = strtab s1) by done.
  wp_step. apply wp_write_any. intros u3 E3. wp_step. apply wp_write_any. intros u4 E4.
  wp_step. apply wp_read_any. intros u5 base_back E5. wp_step. apply wp_read_any. intros u6 cfg_back E6.
  do 2 wp_step. unfold publish_cmdq. do 2 wp_step.
  wp_step. unfold write32 at 1, on_unit. wp_step. wp_step. unfold write32 at 1, on_unit. wp_step.
  wp_step. unfold write32 at 1, on_unit. wp_step. wp_step. unfold write32 at 1, on_unit. wp_step.
  match goal with |- wp _ _ ?x => set (s3 := x) end.
  assert (Hr3 : ring s3 []) by (by apply ring_reset).
  assert (Hseen : seen_strtab (unit_of s3) = strtab s3) by (cbn in *; congruence).
  assert (H3 : strtab s3 = strtab s1 /\ scratch s3 = scratch s /\ binding_of s3 = binding_of s) by done.
  clearbody s3.
  wp_step. apply wp_mono with (Q := fun s' _ => exists l', went s3 [] s' l').
  { destruct (_ =? 0); [|wp_step; exists []; by apply went_refl].
    wp_step. eapply wp_write32; [exact Hr3|done..|]. intros s4 W4. wp_step. eapply wp_write32; [apply W4|done..|]. intros s5 W5.
    eapply wp_mono; [apply (wp_set_cr0_bits _ s5 []), W5|]. cbn beta. intros s6 _ (l6 & W6). exists l6.
    eapply went_trans; [exact W4|]. by eapply went_trans. }
  intros s4 queues (l4 & W4). pose proof (went_nil _ _ _ W4) as ->. wp_step.
  eapply wp_mono; [by apply (wp_invalidate CMD_CFGI_STE_RANGE 31 s4 []); [apply W4|]|]. cbn beta. intros s5 clean (l5 & Hran).
  wp_step. eapply wp_mono; [apply (wp_set_cr0_bits _ s5 l5), Hran|]. cbn beta. intros s6 on (l6 & W6).
  destruct (wt_same _ _ _ _ W4) as [A1 A2 A3 A4 A5 _ A7], (rn_same _ _ _ _ _ _ Hran) as [B1 B2 B3 B4 B5 _ B7].
  destruct (wt_same _ _ _ _ W6) as [C1 C2 C3 C4 C5 _ C7]. destruct H3 as (D1 & D2 & D3).
  assert (Hz6 : strtab s6 = vrepeat STRTAB_WORDS 0) by congruence.
  do 3 wp_step. eapply wp_of_Done; [by apply denies_zeros|]. do 3 wp_step.
  split; [done|done|cbn; congruence|exact Hz6|]. cbn [gerror_clean]. intros ->.
  pose proof (rn_done _ _ _ _ _ _ Hran eq_refl) as ->. pose proof (went_nil _ _ _ W6) as ->. split.
  - destruct (wt_ring _ _ _ _ W6). by split.
  - cbn. rewrite Hz6, vlen_vrepeat. split; [done|congruence].
  - cbn. congruence.
  - intros sid t Hsid Ht. change (unit_of _) with (unit_of s6) in Ht. change (strtab _) with (strtab s6).
    pose proof (wt_effect _ _ _ _ W6) as F6. pose proof (rn_effect _ _ _ _ _ _ Hran) as F5.
    rewrite F5 in F6. unfold effect in F6. cbn [fold_left app] in F6. injection F6 as _ Ek. rewrite Ek in Ht.
    set (f := fun sid => if N.shiftr sid 32 =? 0 then [seen_strtab (unit_of s4)] else config (caches (unit_of s4)) sid) in *.
    change (t ∈ f sid) in Ht. unfold f in Ht. rewrite range_all in Ht by done. apply list_elem_of_singleton in Ht as ->. congruence.
  - intros sid t Hsid Ht Hp. change (strtab _) with (strtab s6) in Hp. by rewrite (zeros_denies _ STRTAB_WORDS) in Hp.
Qed.
End Driver.

(** *** The life of the machine *)

Lemma settled_enforced hv s : settled s -> derives hv s -> wf (device hv) (binding_of s) -> enforced hv s.
Proof.
  intros [Hr [Hl _] Hseen Hcf Htl] [Hdv Hd] Hwf sid t Hsid Ht.
  assert (t = strtab s) as -> by (destruct Ht as [-> |Ht]; [done|by eapply Hcf]).
  rewrite <- Hl in Hd. destruct (derived_reads (strtab s) (strtab s) STRTAB_LOG2SIZE _ _ _ sid Hwf Hdv Hd) as [Hb Hp].
  exists (verdict_of (strtab s) STRTAB_LOG2SIZE sid), (binding_at (strtab s) STRTAB_LOG2SIZE sid).
  split; [apply verdict_Done|]. split; [apply binding_at_Done|]. split; [by rewrite Hb|]. split; [|split].
  - destruct (binding_at (strtab s) STRTAB_LOG2SIZE sid) as [bnd|] eqn:Eb; [by rewrite (binding_verdict _ _ _ _ Eb)|].
    rewrite <- Hb in Hp. rewrite bool_decide_eq_false_2 in Hp by (intros [? ?]; done).
    by destruct (verdict_of (strtab s) STRTAB_LOG2SIZE sid).
  - intros bnd. rewrite Hb, (intended_spec _ _ _ Hwf sid bnd (dv_inj _ _ _ _ _ Hdv)). unfold bound. naive_solver.
  - intros Hperm t' Ht'. by eapply Htl.
Qed.

Lemma zeros_denied s : zeros STRTAB_WORDS (strtab s) -> settled s -> all_denied s.
Proof.
  intros Hz [_ _ Hseen Hcf _] sid t Hsid Ht.
  assert (t = strtab s) as -> by (destruct Ht as [-> |Ht]; [done|by eapply Hcf]).
  eexists. split; [apply verdict_Done|]. by apply (zeros_denies _ STRTAB_WORDS).
Qed.

Section Life.
Context (b : Board) (w0 : World) (pace : N -> N) (reg : list (N * N) -> N -> N -> N).
Context (strtab_pa cmdq_pa eventq_pa : N).
Context (Hrel : overflow_checks b = false) (Hb : board_ok b) (Hw : windows_ok b).
Context (Hdevs : Device.device_count (device (model w0)) <= u16_max + 1).

Lemma lifetime_devices k w : lifetime b w0 k w ->
  Device.device_count (device (model w)) = Device.device_count (device (model w0)).
Proof.
  induction 1 as [|k w caller c w' r HL IH Hk E|k w d v q hv r HL IH Hk E|k w d t w' HL IH Ht E
    |k w f pa byte HL IH|k w cpu esr far w' r HL IH Ho Hx Hfar E]; [done|..].
  - destruct (lifetime_slate b w0 k w Hrel Hb Hw HL) as [HR HC].
    destruct (slate_call b w0 k w caller c Hw HR Hk HC) as (w1 & r1 & E1 & Em & _). rewrite E in E1. injection E1 as <- <-.
    rewrite <- IH. exact (counted_dispatch _ _ _ _ _ Em).
  - rewrite <- IH. simpl in E. unfold bind in E. destruct (raise_vcpu_virq d v q (model w)) as [hv' r'|] eqn:E'; [|done].
    injection E as -> <-. by rewrite <- (alone_virq _ _ _ _ _ _ E').
  - by injection E as <-.
  - done.
  - destruct (lifetime_slate b w0 k w Hrel Hb Hw HL) as [_ HC].
    destruct (mmio_run b Hrel cpu esr far w (cs_wf _ _ _ HC) Hx Hfar) as (w1 & r1 & E1 & _ & He & _).
    rewrite E in E1. injection E1 as <- <-. destruct He as [Em _ _ _ _]. by rewrite Em.
Qed.

(** What holds at every point of the life. *)
Record dma_ok (fresh : bool) (k : N) (m : Machine) : Prop := mkDmaOk {
  dk_life : lifetime b w0 k (world m);
  dk_settled : settled (smmu m);
  dk_armed : armed (smmu m) = true;
  dk_vmid : forall h bnd, vget (binding_of (smmu m)) h = Some (Some bnd) -> vmid bnd <= u16_max;
  dk_fresh : fresh = true -> derives (model (world m)) (smmu m);
}.

Lemma life_wf k w bindings : lifetime b w0 k w -> (forall h bnd, vget bindings h = Some (Some bnd) -> vmid bnd <= u16_max) ->
  wf (device (model w)) bindings.
Proof.
  intros HL Hv. destruct (lifetime_slate b w0 k w Hrel Hb Hw HL) as [ [HI _]%reachable_HInv _].
  split; [apply HI|by rewrite (lifetime_devices _ _ HL)|done].
Qed.

Lemma derives_device hv hv' s : device hv' = device hv -> derives hv s -> derives hv' s.
Proof. unfold derives. by intros ->. Qed.

(** A call through the funnel, on every branch. *)
Definition called (m m' : Machine) (r : result Derived (result HvError HvOutcome)) : Prop :=
  match r with
  | Ok (Ok _) => derives (model (world m')) (smmu m')
  | Ok (Err _) => smmu m' = smmu m /\ device (model (world m')) = device (model (world m))
  | Err (Refused _) => zeros STRTAB_WORDS (strtab (smmu m')) /\ seen_strtab (unit_of (smmu m')) = strtab (smmu m') /\
      (responsive pace reg -> settled (smmu m'))
  | Err _ => ~ responsive pace reg
  end.
Lemma wp_called fresh k m caller c : dma_ok fresh k m -> k <= u32_max ->
  wp (SmmuDriver.dispatch b pace reg caller c) (fun m' r => called m m' r /\
    match r with
    | Ok o => Hypervisor.dispatch caller c (model (world m)) = Done (model (world m')) o /\
        dma_ok (fresh || is_ok o) (k + 1) m'
    | Err _ => True
    end) m.
Proof.
  intros [HL Hst Harm Hv Hf] Hk. destruct (lifetime_slate b w0 k _ Hrel Hb Hw HL) as [HR HC].
  destruct (slate_call b w0 k _ caller c Hw HR Hk HC) as (w' & o & E & Em & _).
  assert (HL' : lifetime b w0 (k + 1) w') by (by eapply life_call).
  unfold SmmuDriver.dispatch. wp_step. apply wp_zoom. eapply wp_of_Done; [exact E|]. destruct o as [o|e]; cbn [is_ok].
  - do 3 wp_step. apply wp_zoom. cbn [lget smmu_l lset world_l smmu world].
    eapply wp_mono; [apply wp_rederive; [done|by eapply life_wf]|]. cbn beta. intros s' d [ (K1 & K2 & K3) Hd].
    assert (Hok : settled s' /\ derives (model w') s' -> called m (mkMachine w' s') (Ok (Ok o)) /\
      Hypervisor.dispatch caller c (model (world m)) = Done (model w') (Ok o) /\ dma_ok (fresh || true) (k + 1) (mkMachine w' s')).
    { intros [Hs' Hd']. split; [exact Hd'|]. split; [exact Em|]. split; cbn; [done|done|congruence|by rewrite K3|done]. }
    destruct d; wp_step; [|by apply Hok|by apply Hok| |].
    + by destruct Hd as [Hd _]; rewrite Harm in Hd.
    + split; [|done]. destruct Hd as (Z1 & Z2 & _ & Z3). by split_and!.
    + by split.
  - wp_step. pose proof (wp_dispatch (model (world m)) caller c) as Hdis. destruct (reachable_HInv _ _ HR) as [HI Hm].
    specialize (Hdis HI ltac:(lia)). unfold wp in Hdis. rewrite Em in Hdis. destruct Hdis as [ (_ & _ & Hsv) _].
    assert (Hdev : device (model w') = device (model (world m))) by apply (sv_device _ _ Hsv).
    split; [done|]. split; [exact Em|]. rewrite orb_false_r. split; cbn; [done..|]. intros H%Hf. by eapply derives_device.
Qed.

Lemma life_dma_ok fresh k m : dma_life b w0 pace reg strtab_pa cmdq_pa eventq_pa fresh k m -> dma_ok fresh k m.
Proof.
  induction 1 as [k w u ndom streams s r HL E Hrep|fresh k m caller c m' r _ IH Hk E|fresh k m d bnd s _ IH Hv E
    |fresh k k' m w _ IH HL Hd].
  - pose proof (wp_install pace reg strtab_pa cmdq_pa eventq_pa streams (SMMU (vlen streams) ndom u)) as H.
    unfold wp in H. rewrite E in H. destruct H as [I1 I2 I3 I4 I5]; [done..|]. split; [done| |done| |done].
    + apply I5. unfold report_ok in Hrep. by repeat (apply andb_prop in Hrep as [Hrep ?]).
    + intros h bnd. cbn. rewrite I3. cbn. rewrite vget_vrepeat. by case_decide.
  - pose proof (wp_called fresh k m caller c IH Hk) as H. unfold wp in H. rewrite E in H. apply H.
  - injection E as <-. destruct IH as [H1 H2 H3 H4 H5]. split; [done| |done| |done].
    + by destruct H2 as [ [] ? ? ? ?].
    + intros h bnd'. cbn. rewrite vget_vset. case_decide; [by intros [= <-]|apply H4].
  - destruct IH as [H1 H2 H3 H4 H5]. split; [done..|]. intros H%H5. by eapply derives_device.
Qed.
End Life.

(** *** A machine *)

(** Two devices on streams 8 and 16 and a unit that answers reads with what was last written, fetches
    sixteen commands at a time while [pace] lets it, and starts with an unknown table cached. *)
Definition bus_reg (writes : list (N * N)) (t off : N) : N :=
  if off =? SMMU_IDR1 then 16 else
  if off =? SMMU_GERROR then 0 else if off =? SMMU_GERRORN then 0 else
  let off := if off =? SMMU_CR0ACK then SMMU_CR0 else off in
  match List.find (fun e => e.1 =? off) writes with Some e => e.2 | None => 0 end.
Definition bus_pace (until t : N) : N := if t <? until then 16 else 0.
Definition bus_unit : Unit :=
  mkUnit [] 3 9 [] [] [] (mkCaches (fun _ => [vrepeat 2048 9]) (fun _ => [vrepeat 2048 9])) 0.
Definition bus_boot : World := lset model_l (Hypervisor.new 3 1 4 1 1 8 2) (kick_boot 4).

Lemma bus_boot_life : lifetime pv_board bus_boot 0 bus_boot.
Proof.
  apply (life_boot pv_board bus_boot 3 1 4 1 1 2); try done.
  constructor; [apply new_store_wf; [apply pv_mem_byte|done]| |].
  - constructor; simpl; try done; by exists 0, 1.
  - constructor; try done. by exists 0, 0.
Qed.

Section Bus.
Context (until : N).
Definition bus_installed : Smmu :=
  outcome_or (SMMU 2 3 bus_unit)
    (install_stream_table (bus_pace until) bus_reg 0x44000000 0x44004000 0x44004200 [8; 16] (SMMU 2 3 bus_unit)).
Definition bus_registered : Machine :=
  mkMachine bus_boot (outcome_or bus_installed (register_domain_binding 1 dom1_binding bus_installed)).
Definition bus_call (caller : DomId) (c : HvCall) (m : Machine) : Machine :=
  outcome_or m (SmmuDriver.dispatch pv_board (bus_pace until) bus_reg caller c m).
Definition bus_created : Machine := bus_call 0 (DomainCreate 1 false) bus_registered.
Definition bus_assigned : Machine := bus_call 0 (DeviceAssign 0 1) (bus_call 0 (DomainCreate 2 false) bus_created).
End Bus.

(** A call that was accepted, and a start that reports success, without unfolding what they end in. *)
Definition accepted {S D E T} (o : outcome S (result D (result E T))) : bool :=
  match o with Done _ (Ok (Ok _)) => true | _ => false end.
Definition started {S} (o : outcome S StreamTableReport) : bool :=
  match o with Done _ r => report_ok r | Panic => false end.
Lemma accepted_Done {S D E T} (o : outcome S (result D (result E T))) s : accepted o = true ->
  exists r, o = Done (outcome_or s o) (Ok (Ok r)).
Proof. destruct o as [s' [ [r|e]|d]|]; try done. intros _. by exists r. Qed.
Lemma started_Done {S} (o : outcome S StreamTableReport) s : started o = true ->
  exists r, o = Done (outcome_or s o) r /\ report_ok r = true.
Proof. destruct o as [s' r|]; [|done]. intros H. by exists r. Qed.

(** The unit that never stops. *)
Definition forever : N := u64_max.
Abbreviation bus_life := (dma_life pv_board bus_boot (bus_pace forever) bus_reg 0x44000000 0x44004000 0x44004200).
Lemma bus_life_registered : bus_life false 0 (bus_registered forever).
Proof.
  destruct (started_Done (install_stream_table (bus_pace forever) bus_reg 0x44000000 0x44004000 0x44004200 [8; 16] (SMMU 2 3 bus_unit))
    (SMMU 2 3 bus_unit)) as (r & E & Hr); [vm_compute; reflexivity|].
  eapply (dma_register _ _ _ _ _ _ _ false 0 (mkMachine bus_boot (bus_installed forever)) 1 dom1_binding); [|done|reflexivity].
  exact (dma_start _ _ _ _ _ _ _ 0 bus_boot bus_unit 3 [8; 16] _ r bus_boot_life E Hr).
Qed.
Lemma bus_life_call fresh k m caller c : bus_life fresh k m -> k <= u32_max ->
  accepted (SmmuDriver.dispatch pv_board (bus_pace forever) bus_reg caller c m) = true ->
  bus_life true (k + 1) (bus_call forever caller c m).
Proof.
  intros HL Hk Ha. destruct (accepted_Done _ m Ha) as (r & E).
  pose proof (dma_call _ _ _ _ _ _ _ fresh k m caller c _ _ HL Hk E) as H. by rewrite orb_true_r in H.
Qed.
Lemma bus_life_created : bus_life true (0 + 1) (bus_created forever).
Proof.
  assert (Ha : accepted (SmmuDriver.dispatch pv_board (bus_pace forever) bus_reg 0 (DomainCreate 1 false)
    (bus_registered forever)) = true) by (vm_compute; reflexivity).
  assert (Hk : 0 <= u32_max) by (vm_compute; discriminate).
  unfold bus_created. exact (bus_life_call false 0 _ 0 _ bus_life_registered Hk Ha).
Qed.

(** ** Properties *)

(** C9: the system MMU follows the device assignment. At any point of the life of the machine, and
    however slowly the unit works: the next hypercall ends; if it is accepted, every table from
    which the unit may serve a stream, cached or seen, permits the stream exactly when a device that
    carries it is held by a domain whose tables are registered, with exactly that binding, and no
    translation of an older table is left; if it is refused, nothing of the unit is touched; and
    if the derivation stops the machine, then the relation cannot be expressed and a unit that
    works denies everything, or the unit did not complete an invalidation. *)
Theorem assignment_enforced (b : Board) (w0 : World) (pace : N -> N) (reg : list (N * N) -> N -> N -> N)
    (strtab_pa cmdq_pa eventq_pa : N) (fresh : bool) (k : N) (m : Machine) (caller : DomId) (c : HvCall) :
  overflow_checks b = false -> board_ok b -> windows_ok b ->
  Device.device_count (device (model w0)) <= u16_max + 1 ->
  dma_life b w0 pace reg strtab_pa cmdq_pa eventq_pa fresh k m -> k <= u32_max ->
  (fresh = true -> enforced (model (world m)) (smmu m)) /\
  exists m' r, SmmuDriver.dispatch b pace reg caller c m = Done m' r /\
    match r with
    | Ok o => Hypervisor.dispatch caller c (model (world m)) = Done (model (world m')) o /\
        match o with
        | Ok _ => enforced (model (world m')) (smmu m')
        | Err _ => smmu m' = smmu m
        end
    | Err (Refused _) => responsive pace reg -> all_denied (smmu m')
    | Err _ => ~ responsive pace reg
    end.
Proof.
  intros Hrel Hb Hw Hdevs HL Hk.
  pose proof (life_dma_ok b w0 pace reg strtab_pa cmdq_pa eventq_pa Hrel Hb Hw Hdevs _ _ _ HL) as Hok. split.
  { intros Hf. apply settled_enforced; [apply Hok|by apply Hok|]. eapply (life_wf b w0); [done..|apply Hok|apply Hok]. }
  destruct (wp_Done _ _ _ (wp_called b w0 pace reg Hrel Hb Hw Hdevs fresh k m caller c Hok Hk)) as (m' & r & E & Hc & Hr).
  exists m', r. split; [exact E|]. destruct r as [o|d].
  - destruct Hr as [Em Hok']. split; [exact Em|]. destruct o as [o|e].
    + apply settled_enforced; [apply Hok'|exact Hc|]. eapply (life_wf b w0); [done..|apply Hok'|apply Hok'].
    + apply Hc.
  - destruct d; try exact Hc. destruct Hc as (Hz & _ & Hs). intros Hresp. by apply zeros_denied; [|apply Hs].
Qed.

(** Domain 1 is given the device on stream 8. *)
Theorem assignment_enforced_witness :
  let m' := bus_call forever 0 (DeviceAssign 0 1) (bus_created forever) in
  enforced (model (world m')) (smmu m') /\
  forall t, serves (smmu m') 8 t -> stage2_binding_at t STRTAB_LOG2SIZE 8 tt = Done tt (Some dom1_binding).
Proof.
  intros m'.
  destruct (assignment_enforced pv_board bus_boot (bus_pace forever) bus_reg 0x44000000 0x44004000 0x44004200 true (0 + 1)
    (bus_created forever) 0 (DeviceAssign 0 1) eq_refl pv_board_ok pv_windows_ok) as (_ & m1 & r & E & H);
    [vm_compute; discriminate|apply bus_life_created|vm_compute; discriminate|].
  assert (Ha : accepted (SmmuDriver.dispatch pv_board (bus_pace forever) bus_reg 0 (DeviceAssign 0 1)
    (bus_created forever)) = true) by (vm_compute; reflexivity).
  assert (Em : m' = m1) by (unfold m', bus_call; rewrite E; reflexivity).
  rewrite E in Ha. destruct r as [ [o|e]|d]; [|discriminate Ha..]. destruct H as [_ He]. rewrite <- Em in He.
  split; [exact He|]. intros t Ht. destruct (He 8 t ltac:(vm_compute; discriminate) Ht) as (v & o' & _ & Eo & _ & _ & Hb & _).
  rewrite Eo. f_equal. apply Hb. exists 0, 1.
  split; [vm_compute; reflexivity|]. split; [vm_compute; reflexivity|]. split; vm_compute; reflexivity.
Defined.

(** Commands arrive. However slowly the unit fetches, a run of at most fourteen commands into
    a drained ring, which wraps wherever it may stand, followed by a synchronization, ends; if the
    synchronization reports success, then the unit has fetched exactly those commands and the
    synchronization, in order, and the ring is drained again; and it does when the unit works. *)
Theorem commands_arrive (pace : N -> N) (reg : list (N * N) -> N -> N -> N) (s : Smmu) (cs : list (N * N)) :
  ring s [] -> vlen cs <= 14 ->
  exists s' ok, (for_each cs (fun c => submit c.1 c.2) ;! sync pace reg) s = Done s' ok /\
    (ok = true -> ring s' [] /\ fetched (unit_of s') = fetched (unit_of s) ++ cs ++ [(CMD_SYNC, 0)]) /\
    (responsive pace reg -> ok = true).
Proof.
  intros Hr Hcs. apply wp_Done. wp_step. eapply wp_mono; [by apply (wp_submit_all s [] cs)|]. cbn beta.
  intros s1 [] (R1 & E1). eapply wp_mono; [by apply (wp_synced pace reg s1 cs)|]. cbn beta.
  intros s2 ok (l2 & [R2 _ E2 D2 _ P2]). split; [|done]. intros Hok. specialize (D2 Hok). subst l2. split; [done|].
  unfold effect in *. injection E2 as E2 _. injection E1 as E1 _. cbn [app] in *. rewrite app_nil_r in E2.
  rewrite E2, !app_assoc. by rewrite E1.
Qed.

Theorem commands_arrive_witness :
  exists s', (for_each [(CMD_TLBI_NSNH_ALL, 0)] (fun c => submit c.1 c.2) ;! sync (fun _ => 16) bus_reg)
      (smmu (bus_created forever)) = Done s' true /\
    fetched (unit_of s') = fetched (unit_of (smmu (bus_created forever))) ++ [(CMD_TLBI_NSNH_ALL, 0); (CMD_SYNC, 0)].
Proof.
  pose proof (life_dma_ok pv_board bus_boot (bus_pace forever) bus_reg 0x44000000 0x44004000 0x44004200 eq_refl pv_board_ok
    pv_windows_ok ltac:(vm_compute; discriminate) _ _ _ bus_life_created) as Hok.
  destruct (commands_arrive (fun _ => 16) bus_reg (smmu (bus_created forever)) [(CMD_TLBI_NSNH_ALL, 0)]
    (st_ring _ (dk_settled _ _ _ _ _ Hok)) ltac:(vm_compute; discriminate)) as (s' & ok & E & H & Hr).
  rewrite Hr in * by (split; [intros t; vm_compute; discriminate|reflexivity]).
  exists s'. split; [exact E|]. apply (H eq_refl).
Defined.

(** C10: a machine starts with every device denied. Whatever the unit had cached or was told
    before, the start ends, and if it reports success then every table from which the unit may
    serve any stream denies it. *)
Theorem start_denies (pace : N -> N) (reg : list (N * N) -> N -> N -> N) (strtab_pa cmdq_pa eventq_pa : N)
    (streams : list N) (ndom : N) (u : Unit) :
  exists s r, install_stream_table pace reg strtab_pa cmdq_pa eventq_pa streams (SMMU (vlen streams) ndom u) = Done s r /\
    armed s = true /\ (report_ok r = true -> all_denied s).
Proof.
  destruct (wp_Done _ _ _ (wp_install pace reg strtab_pa cmdq_pa eventq_pa streams (SMMU (vlen streams) ndom u)
    eq_refl eq_refl eq_refl)) as (s & r & E & [I1 _ _ I4 I5]).
  exists s, r. split; [exact E|]. split; [done|]. intros Hr. apply zeros_denied; [done|apply I5].
  unfold report_ok in Hr. by repeat (apply andb_prop in Hr as [Hr ?]).
Qed.

(** The unit comes with a table cached that is not the driver's. *)
Theorem start_denies_witness : all_denied (bus_installed forever).
Proof.
  destruct (start_denies (bus_pace forever) bus_reg 0x44000000 0x44004000 0x44004200 [8; 16] 3 bus_unit) as (s & r & E & _ & H).
  change (vlen [8; 16]) with 2 in E.
  assert (Hs : started (install_stream_table (bus_pace forever) bus_reg 0x44000000 0x44004000 0x44004200 [8; 16]
    (SMMU 2 3 bus_unit)) = true) by (vm_compute; reflexivity).
  rewrite E in Hs. unfold bus_installed. rewrite E. exact (H Hs).
Defined.

(** The events: a drain ends, takes at most as many records as the queue has, and moves the
    consumer's index by that number, inside the queue. *)
Theorem drain_bounded (pace : N -> N) (reg : list (N * N) -> N -> N -> N) (evt : N -> N -> N) (s : Smmu) :
  eventq_cons s < 32 ->
  exists s' n, drain_events pace reg evt s = Done s' n /\ n <= 16 /\ eventq_cons s' = (eventq_cons s + n) mod 32.
Proof.
  intros Hc. apply wp_Done. unfold drain_events.
  enough (H : forall fuel n s1, n + N.of_nat fuel <= 16 -> eventq_cons s1 = (eventq_cons s + n) mod 32 ->
    wp (drain_from pace reg evt fuel n) (fun s' m => m <= 16 /\ eventq_cons s' = (eventq_cons s + m) mod 32) s1).
  { apply H; [done|]. by rewrite N.add_0_r, N.mod_small. }
  intros fuel. induction fuel as [|fuel IH]; intros n s1 Hn He; cbn [drain_from]; [wp_step; split; [lia|done]|].
  unfold take_event. do 2 wp_step. apply wp_read_any. intros u v _. do 2 wp_step. cbn [eventq_cons lset unit_l].
  destruct (_ =? _); [do 2 wp_step; split; [lia|done]|]. do 2 wp_step. wp_step. apply wp_write_any. intros u' _. do 1 wp_step.
  rewrite Nat2N.inj_succ in Hn.
  assert (Hnext : N.land ((eventq_cons s1 + 1) mod 2 ^ 32) (queue_mask EVENTQ_LOG2SIZE) = (eventq_cons s + (n + 1)) mod 32).
  { change (queue_mask EVENTQ_LOG2SIZE) with 31. rewrite (proj1 (low_bits _)), He.
    pose proof (N.mod_lt (eventq_cons s + n) 32 ltac:(done)).
    rewrite (N.mod_small _ (2 ^ 32)) by (change (2 ^ 32) with 4294967296; lia). rewrite N.Div0.add_mod_idemp_l. f_equal. lia. }
  destruct (_ <=? _); [wp_step; split; [lia|exact Hnext]|]. apply IH; [lia|exact Hnext].
Qed.

(** What stands between: a refused derivation is reported although the invalidation did not
    complete. Of a unit that has stopped to fetch, the table in memory denies everything, and it
    may still serve each stream from whatever it had cached. *)
Theorem refused_may_serve (pace : N -> N) (reg : list (N * N) -> N -> N -> N) (hv : Hypervisor) (s : Smmu) :
  settled s -> wf (device hv) (binding_of s) -> armed s = true -> (forall t, reads (unit_of s) <= t -> pace t = 0) ->
  ~ derivable (device hv) (stream_of s) (binding_of s) (scratch s) STRTAB_LOG2SIZE ->
  exists s' e, rederive pace reg hv s = Done s' (Refused e) /\ zeros STRTAB_WORDS (strtab s') /\
    forall sid t, t ∈ config (caches (unit_of s)) sid -> t ∈ config (caches (unit_of s')) sid.
Proof.
  intros [Hr [Hl1 Hl2] _ _ _] Hwf Ha Hi Hno.
  enough (H : wp (rederive pace reg hv) (fun s' d => exists e, d = Refused e /\ zeros STRTAB_WORDS (strtab s') /\
    forall sid t, t ∈ config (caches (unit_of s)) sid -> t ∈ config (caches (unit_of s')) sid) s).
  { destruct (wp_Done _ _ _ H) as (s' & d & E & e & -> & H'). by exists s', e. }
  unfold rederive. do 2 wp_step. rewrite Ha. cbn [negb].
  destruct (derive_run (scratch s) STRTAB_LOG2SIZE _ (stream_of s) _ Hwf) as (w & [ []|e] & E & Hlw & Hd); [by destruct Hd|].
  destruct Hd as [Hz _]. rewrite Hl2 in Hz. wp_step. unfold zoom, wp at 1. cbn [lget scratch_l]. rewrite E. set (s1 := lset scratch_l w s).
  assert (Hr1 : ring s1 []) by (by destruct Hr). do 2 wp_step. change (scratch s1) with w. change (strtab s1) with (strtab s).
  case_decide as Hw.
  { wp_step. exists e. split; [done|]. split; [|done]. change (strtab s1) with (strtab s). by rewrite <- Hw. }
  do 2 wp_step. unfold publish_strtab. do 2 wp_step. set (s2 := lset unit_l _ _).
  assert (Hr2 : ring s2 []) by (by destruct Hr). wp_step.
  eapply wp_mono; [apply wp_and; [by apply (wp_both pace reg s2)|by apply (stall_both pace reg s2)]|].
  cbn beta. intros s3 synced [ (l & cs & Hran & _) [_ Hc] ]. do 3 wp_step. exists e. split; [done|]. split.
  - cbn. by rewrite (sm_strtab _ _ (rn_same _ _ _ _ _ _ _ _ Hran)).
  - intros sid t Ht. cbn. rewrite Hc. cbn. apply elem_of_app. by left.
Qed.
