(* ===== verification/Mmu.v ===== *)
(** * The hypervisor's own address space — [hv-metal/src/mmu.rs]

    The three tables that EL2 builds for itself before it turns its MMU on, an identity map in
    which only the text is executable and nothing executable is writable, and the sweep
    [coverage] that reads every descriptor back. The addresses of the linker's symbols and of the
    two lower tables are parameters, and the walk of the hardware is part of the specification. *)

From Stdlib Require Import NArith ZArith Lia Btauto.
From stdpp Require Import base numbers list option sets.
From S2P Require Import Bits.
From S2P Require Import Arm64.
From S2P Require Import Prelude.
#[local] Open Scope N_scope.

(** ** Descriptors *)

Definition PAGE : N := 0x1000.
Definition BLOCK_2M : N := 0x200000.
Definition ENTRIES : N := 512.

Definition ATTRIDX_DEVICE : N := shl 64 0 2.
Definition ATTRIDX_NORMAL_NC : N := shl 64 1 2.
Definition ATTRIDX_NORMAL_WB : N := shl 64 2 2.
Definition ATTRIDX_MASK : N := shl 64 7 2.
Definition SH_MASK : N := shl 64 3 8.
Definition DESC_TABLE : N := 3.
Definition DESC_BLOCK : N := 1.
Definition DESC_PAGE : N := 3.
Definition AF : N := shl 64 1 10.
Definition SH_NON_SHAREABLE : N := shareability_bits DeviceNGnRnE.
Definition SH_INNER_SHAREABLE : N := shareability_bits NormalWbIsh.
Definition AP_RW : N := shl 64 1 6.
Definition AP_RO : N := shl 64 3 6.
Definition AP_MASK : N := shl 64 3 6.
Definition XN : N := shl 64 1 54.

(** The source panics on any other index; the three above are the only ones it passes. *)
Definition attr_type (attr_idx : N) : MemoryType :=
  match N.shiftr attr_idx 2 with
  | 0 => DeviceNGnRnE
  | 1 => NormalNonCacheable
  | _ => NormalWbIsh
  end.
Definition MAIR_EL2_VALUE : N :=
  N.lor (N.lor (stage1_mair_byte (attr_type ATTRIDX_DEVICE))
    (shl 64 (stage1_mair_byte (attr_type ATTRIDX_NORMAL_NC)) 8))
    (shl 64 (stage1_mair_byte (attr_type ATTRIDX_NORMAL_WB)) 16).

Definition shareability (attr_idx : N) : N := shareability_bits (attr_type attr_idx).
Definition block (pa attr_idx ap xn : N) : N :=
  N.lor (N.lor (N.lor (N.lor (N.lor (N.lor pa attr_idx) ap) (shareability attr_idx)) AF) xn) DESC_BLOCK.
Definition page (pa attr_idx ap xn : N) : N :=
  N.lor (N.lor (N.lor (N.lor (N.lor (N.lor pa attr_idx) ap) (shareability attr_idx)) AF) xn) DESC_PAGE.

Definition tcr_el2 : N :=
  let T0SZ := 25 in
  let IRGN0_WB := shl 64 1 8 in
  let ORGN0_WB := shl 64 1 10 in
  let SH0_INNER_SHAREABLE := shl 64 3 12 in
  let TG0_4K := shl 64 0 14 in
  let PS_40BIT := shl 64 2 16 in
  let RES1 := N.lor (shl 64 1 31) (shl 64 1 23) in
  N.lor (N.lor (N.lor (N.lor (N.lor (N.lor T0SZ IRGN0_WB) ORGN0_WB) SH0_INNER_SHAREABLE) TG0_4K) PS_40BIT) RES1.

Definition SCTLR_EL2_M : N := shl 64 1 0.
Definition SCTLR_EL2_C : N := shl 64 1 2.
Definition mmu_is_on (sctlr : N) : bool := negb (N.land sctlr SCTLR_EL2_M =? 0).
Definition data_cache_on (sctlr : N) : bool := negb (N.land sctlr SCTLR_EL2_C =? 0).

(** ** The tables *)

Record El2Tables : Type := mkEl2 { L1 : list N; L2_IMAGE : list N; L3_IMAGE : list N }.
Definition l1_l : lens El2Tables (list N) := Lens L1 (fun t s => mkEl2 t (L2_IMAGE s) (L3_IMAGE s)).
Definition l2_l : lens El2Tables (list N) := Lens L2_IMAGE (fun t s => mkEl2 (L1 s) t (L3_IMAGE s)).
Definition l3_l : lens El2Tables (list N) := Lens L3_IMAGE (fun t s => mkEl2 (L1 s) (L2_IMAGE s) t).
(** The statics, zero in [.bss]. *)
Definition el2_statics : El2Tables := mkEl2 (vrepeat ENTRIES 0) (vrepeat ENTRIES 0) (vrepeat ENTRIES 0).

Section Image.
Context (text_start text_end rodata_start rodata_end l2_pa l3_pa : N).

Definition text (va : N) : bool := (text_start <=? va) && (va <? text_end).
Definition rodata (va : N) : bool := (rodata_start <=? va) && (va <? rodata_end).

Definition image_page (va : N) : N :=
  if text va then page va ATTRIDX_NORMAL_NC AP_RO 0
  else if rodata va then page va ATTRIDX_NORMAL_WB AP_RO XN
  else page va ATTRIDX_NORMAL_WB AP_RW XN.

Definition build_tables : M El2Tables unit :=
  index_set l1_l 0 (block 0x00000000 ATTRIDX_DEVICE AP_RW XN) ;!
  index_set l1_l 1 (N.lor l2_pa DESC_TABLE) ;!
  index_set l1_l 2 (block 0x80000000 ATTRIDX_DEVICE AP_RW XN) ;!
  index_set l1_l 3 (block 0xC0000000 ATTRIDX_DEVICE AP_RW XN) ;!
  index_set l1_l 256 (block 0x4000000000 ATTRIDX_DEVICE AP_RW XN) ;!
  index_set l2_l 0 (N.lor l3_pa DESC_TABLE) ;!
  for_each (vrange_from 1 ENTRIES) (fun i =>
    let pa := 0x40000000 + i * BLOCK_2M in
    index_set l2_l i (block pa ATTRIDX_NORMAL_WB AP_RW XN)) ;!
  for_each (vrange ENTRIES) (fun i =>
    let va := 0x40000000 + i * PAGE in
    index_set l3_l i (image_page va)).

Definition l3_descriptor (va : N) : M El2Tables (option N) :=
  if negb ((0x40000000 <=? va) && (va <? 0x40200000)) then ret None else
  let! s := get in
  let! d := index (L3_IMAGE s) ((va - 0x40000000) / PAGE) in
  ret (Some d).
Definition is_execute_never (va : N) : M El2Tables bool :=
  let! o := l3_descriptor va in
  ret (match o with
       | Some d => (N.land d 3 =? DESC_PAGE) && negb (N.land d XN =? 0)
       | None => false
       end).

(** ** The sweep *)

Record Coverage : Type := mkCoverage {
  text_pages : N;
  rodata_pages : N;
  rw_pages : N;
  wb_blocks : N;
  device_gib : N;
  cov_ok : bool;
}.
Definition coverage_start : Coverage := mkCoverage 0 0 0 0 0 true.

Definition sweep_l1 (c : Coverage) (e : N * N) : Coverage :=
  let '(i, desc) := e in
  let device := (i =? 0) || (i =? 2) || (i =? 3) || (i =? 256) in
  let want :=
    if device then
      (N.land desc 3 =? DESC_BLOCK) && (N.land desc ATTRIDX_MASK =? ATTRIDX_DEVICE) &&
      (N.land desc AP_MASK =? AP_RW) && negb (N.land desc XN =? 0)
    else if i =? 1 then N.land desc 3 =? DESC_TABLE
    else desc =? 0 in
  mkCoverage (text_pages c) (rodata_pages c) (rw_pages c) (wb_blocks c)
    (if device then device_gib c + 1 else device_gib c) (cov_ok c && want).

Definition sweep_l2 (c : Coverage) (e : N * N) : Coverage :=
  let '(i, desc) := e in
  let want :=
    if i =? 0 then N.land desc 3 =? DESC_TABLE
    else (N.land desc 3 =? DESC_BLOCK) && (N.land desc ATTRIDX_MASK =? ATTRIDX_NORMAL_WB) &&
      (N.land desc SH_MASK =? SH_INNER_SHAREABLE) && (N.land desc AP_MASK =? AP_RW) && negb (N.land desc XN =? 0) in
  mkCoverage (text_pages c) (rodata_pages c) (rw_pages c)
    (if i =? 0 then wb_blocks c else wb_blocks c + 1) (device_gib c) (cov_ok c && want).

Definition sweep_l3 (c : Coverage) (e : N * N) : Coverage :=
  let '(i, desc) := e in
  let va := 0x40000000 + i * PAGE in
  let ap := N.land desc AP_MASK in
  let xn := negb (N.land desc XN =? 0) in
  let is_page := N.land desc 3 =? DESC_PAGE in
  let attr := N.land desc ATTRIDX_MASK in
  let sh := N.land desc SH_MASK in
  if text va then
    mkCoverage (text_pages c + 1) (rodata_pages c) (rw_pages c) (wb_blocks c) (device_gib c)
      (cov_ok c && (is_page && (ap =? AP_RO) && negb xn && (attr =? ATTRIDX_NORMAL_NC) && (sh =? SH_NON_SHAREABLE)))
  else if rodata va then
    mkCoverage (text_pages c) (rodata_pages c + 1) (rw_pages c) (wb_blocks c) (device_gib c)
      (cov_ok c && (is_page && (ap =? AP_RO) && xn && (attr =? ATTRIDX_NORMAL_WB) && (sh =? SH_INNER_SHAREABLE)))
  else
    mkCoverage (text_pages c) (rodata_pages c) (rw_pages c + 1) (wb_blocks c) (device_gib c)
      (cov_ok c && (is_page && (ap =? AP_RW) && xn && (attr =? ATTRIDX_NORMAL_WB) && (sh =? SH_INNER_SHAREABLE))).

Definition coverage : M El2Tables Coverage :=
  gets (fun t =>
    let c := fold_left sweep_l1 (enumerate (L1 t)) coverage_start in
    let c := fold_left sweep_l2 (enumerate (L2_IMAGE t)) c in
    let c := fold_left sweep_l3 (enumerate (L3_IMAGE t)) c in
    let ok := cov_ok c && ((0 <? text_pages c) && (0 <? rodata_pages c) && (0 <? rw_pages c)) in
    let ok := ok && ((wb_blocks c =? ENTRIES - 1) && (device_gib c =? 4)) in
    mkCoverage (text_pages c) (rodata_pages c) (rw_pages c) (wb_blocks c) (device_gib c) ok).

(** ** Turning it on *)

Record El2Regs : Type := mkRegs { mair_el2 : N; tcr_reg : N; ttbr0_el2 : N; sctlr_el2 : N }.

Definition switch_on (l1_pa : N) : M El2Regs N :=
  modify (fun r => mkRegs MAIR_EL2_VALUE (tcr_reg r) (ttbr0_el2 r) (sctlr_el2 r)) ;!
  modify (fun r => mkRegs (mair_el2 r) tcr_el2 (ttbr0_el2 r) (sctlr_el2 r)) ;!
  modify (fun r => mkRegs (mair_el2 r) (tcr_reg r) l1_pa (sctlr_el2 r)) ;!
  let! tmp := gets sctlr_el2 in
  modify (fun r => mkRegs (mair_el2 r) (tcr_reg r) (ttbr0_el2 r)
    (N.lor tmp (N.lor SCTLR_EL2_M SCTLR_EL2_C))) ;!
  gets sctlr_el2.

Definition tables_l : lens (El2Tables * El2Regs) El2Tables := Lens fst (fun t s => (t, s.2)).
Definition regs_l : lens (El2Tables * El2Regs) El2Regs := Lens snd (fun r s => (s.1, r)).

Definition enable (l1_pa : N) : M (El2Tables * El2Regs) N :=
  zoom tables_l build_tables ;!
  zoom regs_l (switch_on l1_pa).

(** ** Specification *)

(** What an address of EL2 is: where it lies, its memory type and shareability, whether it is
    writable and whether it is execute-never. *)
Record View : Type := mkView { v_pa : N; v_attr : N; v_sh : N; v_rw : bool; v_xn : bool }.

(** A leaf that covers [2 ^ k] bytes. *)
Definition leaf (d k va : N) : View :=
  mkView (N.shiftl (N.shiftr (N.land d (N.ones 48)) k) k + va mod 2 ^ k) (N.land d ATTRIDX_MASK) (N.land d SH_MASK)
    (N.land d AP_MASK =? AP_RW) (negb (N.land d XN =? 0)).
Definition next_table (d : N) : N := N.shiftl (N.shiftr (N.land d (N.ones 48)) 12) 12.

(** The walk of the hardware: 39-bit addresses, a 4 KiB granule. *)
Definition el2_walk (root va : N) (fetch : N -> N -> N) : option View :=
  if 2 ^ 39 <=? va then None else
  let d1 := fetch root (N.shiftr va 30) in
  if N.land d1 3 =? DESC_BLOCK then Some (leaf d1 30 va)
  else if negb (N.land d1 3 =? DESC_TABLE) then None else
  let d2 := fetch (next_table d1) (N.shiftr va 21 mod 512) in
  if N.land d2 3 =? DESC_BLOCK then Some (leaf d2 21 va)
  else if negb (N.land d2 3 =? DESC_TABLE) then None else
  let d3 := fetch (next_table d2) (N.shiftr va 12 mod 512) in
  if N.land d3 3 =? DESC_PAGE then Some (leaf d3 12 va) else None.

(** The attribute byte that an index selects. *)
Definition attr_byte (mair attr : N) : N := N.land (N.shiftr mair (8 * N.shiftr attr 2)) 0xff.

(** Memory holds the three tables. *)
Record in_memory (root : N) (t : El2Tables) (fetch : N -> N -> N) : Prop := mkInMemory {
  im_l1 : forall i d, vget (L1 t) i = Some d -> fetch root i = d;
  im_l2 : forall i d, vget (L2_IMAGE t) i = Some d -> fetch l2_pa i = d;
  im_l3 : forall i d, vget (L3_IMAGE t) i = Some d -> fetch l3_pa i = d;
}.

(** The map the comments describe. *)
Definition el2_map (va : N) : option View :=
  let g := va / 2 ^ 30 in
  if (g =? 0) || (g =? 2) || (g =? 3) || (g =? 256)
  then Some (mkView va ATTRIDX_DEVICE SH_NON_SHAREABLE true true)
  else if negb (g =? 1) then None
  else if 0x40200000 <=? va then Some (mkView va ATTRIDX_NORMAL_WB SH_INNER_SHAREABLE true true)
  else
    let p := va - va mod 4096 in
    if text p then Some (mkView va ATTRIDX_NORMAL_NC SH_NON_SHAREABLE false false)
    else if rodata p then Some (mkView va ATTRIDX_NORMAL_WB SH_INNER_SHAREABLE false true)
    else Some (mkView va ATTRIDX_NORMAL_WB SH_INNER_SHAREABLE true true).
End Image.

(** ** Lemmas *)

(** A field of a descriptor is a field of its attributes, and its address is the base it was
    built from. *)
Lemma field_of base F mask k : base mod 2 ^ k = 0 -> mask < 2 ^ k -> N.land (N.lor base F) mask = N.land F mask.
Proof. intros Hb Hm. by rewrite N.land_lor_distr_l, (land_aligned_low base k). Qed.

Lemma address_of base F k :
  base mod 2 ^ k = 0 -> base < 2 ^ 48 -> N.land F (N.ones 48) < 2 ^ k ->
  N.shiftl (N.shiftr (N.land (N.lor base F) (N.ones 48)) k) k = base.
Proof.
  intros Hb Hlt HF. rewrite N.land_lor_distr_l, N.shiftr_lor, N.shiftl_lor.
  replace (N.shiftr (N.land F (N.ones 48)) k) with 0.
  - rewrite N.shiftl_0_l, N.lor_0_r, land_ones_mod, (N.mod_small base) by done.
    rewrite N.shiftl_mul_pow2, N.shiftr_div_pow2.
    rewrite (N.div_mod base (2 ^ k)) at 2 by (apply N.pow_nonzero; lia). lia.
  - rewrite N.shiftr_div_pow2. by rewrite N.div_small.
Qed.

Lemma execute_never_of base F : base < 2 ^ 48 -> N.land (N.lor base F) XN = N.land F XN.
Proof.
  intros Hlt. rewrite N.land_lor_distr_l. replace (N.land base XN) with 0; [done|].
  apply N.bits_inj. intros i. rewrite N.land_spec, N.bits_0. destruct (N.ltb_spec i 48).
  - change XN with (N.shiftl 1 54). rewrite testbit_shiftl. destruct (N.leb_spec 54 i); [lia|]. btauto.
  - by rewrite (testbit_high base 48).
Qed.

Lemma aligned_le x j k : j <= k -> x mod 2 ^ k = 0 -> x mod 2 ^ j = 0.
Proof.
  intros Hj Hx. apply N.Div0.mod_divides in Hx as [c ->]. apply N.Div0.mod_divides.
  exists (2 ^ (k - j) * c). rewrite N.mul_assoc, <- N.pow_add_r. do 2 f_equal. lia.
Qed.

Lemma leaf_of base F k va :
  12 <= k -> base mod 2 ^ k = 0 -> base < 2 ^ 48 -> N.land F (N.ones 48) < 2 ^ 12 ->
  leaf (N.lor base F) k va =
    mkView (base + va mod 2 ^ k) (N.land F ATTRIDX_MASK) (N.land F SH_MASK)
      (N.land F AP_MASK =? AP_RW) (negb (N.land F XN =? 0)).
Proof.
  intros Hk Hb Hlt HF. pose proof (aligned_le base 12 k Hk Hb) as H12. unfold leaf.
  assert (HFk : N.land F (N.ones 48) < 2 ^ k).
  { apply N.lt_le_trans with (2 ^ 12); [done|by apply N.pow_le_mono_r]. }
  rewrite address_of by done.
  by rewrite !(field_of base F _ 12), execute_never_of by done.
Qed.

Lemma block_split pa a ap xn : block pa a ap xn = N.lor pa (block 0 a ap xn).
Proof. unfold block. by rewrite N.lor_0_l, !N.lor_assoc. Qed.
Lemma page_split pa a ap xn : page pa a ap xn = N.lor pa (page 0 a ap xn).
Proof. unfold page. by rewrite N.lor_0_l, !N.lor_assoc. Qed.

(** A loop that writes each entry of a table once. *)
Lemma wp_fill {S} (l : lens S (list N)) (f : N -> N) (Q : S -> unit -> Prop) ks s :
  (forall v s, lget l (lset l v s) = v) -> (forall v w s, lset l v (lset l w s) = lset l v s) ->
  (forall s, lset l (lget l s) s = s) ->
  (forall i, i ∈ ks -> i < vlen (lget l s)) ->
  (forall v, vlen v = vlen (lget l s) ->
     (forall i, vget v i = if decide (i ∈ ks) then Some (f i) else vget (lget l s) i) -> Q (lset l v s) tt) ->
  wp (for_each ks (fun i => index_set l i (f i))) Q s.
Proof.
  intros Hgs Hss Hsg Hks HQ.
  apply wp_for_each with (I := fun done s' => exists v, s' = lset l v s /\ vlen v = vlen (lget l s) /\
    forall i, vget v i = if decide (i ∈ done) then Some (f i) else vget (lget l s) i).
  - exists (lget l s). split; [by rewrite Hsg|]. split; [done|]. intros i. rewrite decide_False; [done|]. set_solver.
  - intros l1 i l2 s' -> (v & -> & Hv & Hget). assert (Hi : i < vlen v) by (rewrite Hv; apply Hks; set_solver).
    apply wp_index_set; rewrite Hgs; [done|]. exists (vset v i (f i)). split; [by rewrite Hss|].
    split; [by rewrite vlen_vset|]. intros j. destruct (decide (j = i)) as [->|Hj].
    + rewrite vget_vset_eq by done. rewrite decide_True; [done|set_solver].
    + rewrite vget_vset_ne by done. rewrite Hget. destruct (decide (j ∈ l1)); [rewrite decide_True|rewrite decide_False]; set_solver.
  - intros s' (v & -> & Hv & Hget). by apply HQ.
Qed.

Section Built.
Context (text_start text_end rodata_start rodata_end l2_pa l3_pa : N).
#[local] Abbreviation build_tables := (build_tables text_start text_end rodata_start rodata_end l2_pa l3_pa).
#[local] Abbreviation image_page := (image_page text_start text_end rodata_start rodata_end).
#[local] Abbreviation el2_map := (el2_map text_start text_end rodata_start rodata_end).

(** The entries of the three tables. *)
Definition l1_entry (i : N) : N :=
  if (i =? 0) || (i =? 2) || (i =? 3) || (i =? 256) then block (i * 2 ^ 30) ATTRIDX_DEVICE AP_RW XN
  else if i =? 1 then N.lor l2_pa DESC_TABLE else 0.
Definition l2_entry (i : N) : N :=
  if i =? 0 then N.lor l3_pa DESC_TABLE else block (0x40000000 + i * BLOCK_2M) ATTRIDX_NORMAL_WB AP_RW XN.
Definition l3_entry (i : N) : N := image_page (0x40000000 + i * PAGE).

Lemma build_tables_Done : exists t, build_tables el2_statics = Done t tt /\
  vlen (L1 t) = 512 /\ vlen (L2_IMAGE t) = 512 /\ vlen (L3_IMAGE t) = 512 /\
  (forall i, i < 512 -> vget (L1 t) i = Some (l1_entry i)) /\
  (forall i, i < 512 -> vget (L2_IMAGE t) i = Some (l2_entry i)) /\
  (forall i, i < 512 -> vget (L3_IMAGE t) i = Some (l3_entry i)).
Proof.
  set (post := fun t (_ : unit) => vlen (L1 t) = 512 /\ vlen (L2_IMAGE t) = 512 /\ vlen (L3_IMAGE t) = 512 /\
    (forall i, i < 512 -> vget (L1 t) i = Some (l1_entry i)) /\
    (forall i, i < 512 -> vget (L2_IMAGE t) i = Some (l2_entry i)) /\
    (forall i, i < 512 -> vget (L3_IMAGE t) i = Some (l3_entry i))).
  cut (wp build_tables post el2_statics).
  { intros (t & [] & Ht & Hp)%wp_Done. exists t. split; assumption. }
  unfold build_tables, el2_statics. assert (Hz : vlen (vrepeat ENTRIES 0) = 512) by apply vlen_vrepeat.
  assert (Hz0 : forall i, i < 512 -> vget (vrepeat ENTRIES 0) i = Some 0).
  { intros i Hi. rewrite vget_vrepeat. by rewrite decide_True. }
  revert Hz Hz0. generalize (vrepeat ENTRIES 0). intros z Hz Hz0.
  do 6 (apply wp_bind; apply wp_index_set; [cbn -[vset]; rewrite ?vlen_vset, Hz; done|cbn -[vset block]]).
  apply wp_bind.
  apply (wp_fill l2_l (fun i => block (0x40000000 + i * BLOCK_2M) ATTRIDX_NORMAL_WB AP_RW XN)); try done.
  { by intros []. }
  { intros i Hi. cbn -[vset]. rewrite vlen_vset, Hz. apply elem_vrange_from in Hi. unfold ENTRIES in *. lia. }
  cbn -[vset vrange vrange_from block]. intros v2 Hv2 Hget2.
  apply (wp_fill l3_l l3_entry); try done.
  { by intros []. }
  { intros i Hi. cbn. rewrite Hz. by apply elem_vrange in Hi. }
  cbn -[vset vrange vrange_from block]. intros v3 Hv3 Hget3. unfold post. cbn -[vset vrange vrange_from block].
  rewrite Hv2, Hv3, !vlen_vset, !Hz. split; [done|]. split; [done|]. split; [done|].
  split; [|split]; intros i Hi.
  - unfold l1_entry. destruct (N.eqb_spec i 256) as [->|H256].
    { rewrite vget_vset_eq by (rewrite !vlen_vset, Hz; done). done. }
    rewrite vget_vset_ne by done. destruct (N.eqb_spec i 3) as [->|H3].
    { rewrite vget_vset_eq by (rewrite !vlen_vset, Hz; done). done. }
    rewrite vget_vset_ne by done. destruct (N.eqb_spec i 2) as [->|H2].
    { rewrite vget_vset_eq by (rewrite !vlen_vset, Hz; done). done. }
    rewrite vget_vset_ne by done. destruct (N.eqb_spec i 1) as [->|H1].
    { rewrite vget_vset_eq by (rewrite !vlen_vset, Hz; done). done. }
    rewrite vget_vset_ne by done. destruct (N.eqb_spec i 0) as [->|H0].
    { rewrite vget_vset_eq by (rewrite Hz; done). done. }
    rewrite vget_vset_ne by done. by apply Hz0.
  - rewrite Hget2. unfold l2_entry. destruct (N.eqb_spec i 0) as [->|Hi0].
    + rewrite decide_False; [rewrite vget_vset_eq by (by rewrite Hz); done|]. intros Hin. apply elem_vrange_from in Hin. lia.
    + rewrite decide_True; [done|]. apply elem_vrange_from. unfold ENTRIES. lia.
  - rewrite Hget3, decide_True; [done|]. by apply elem_vrange.
Qed.

(** What each entry of the tables leads the walk to. *)
Lemma table_of pa : pa mod 4096 = 0 -> pa < 2 ^ 48 ->
  N.land (N.lor pa DESC_TABLE) 3 = 3 /\ next_table (N.lor pa DESC_TABLE) = pa.
Proof.
  intros Ha Hlt. split; [by rewrite (field_of pa _ 3 12)|]. by apply (address_of pa DESC_TABLE 12).
Qed.

Lemma block_of pa k a ap xn :
  12 <= k -> pa mod 2 ^ k = 0 -> pa < 2 ^ 48 ->
  N.land (block 0 a ap xn) (N.ones 48) < 2 ^ 12 -> N.land (block 0 a ap xn) 3 = DESC_BLOCK ->
  N.land (block pa a ap xn) 3 = DESC_BLOCK /\
  forall va, leaf (block pa a ap xn) k va =
    mkView (pa + va mod 2 ^ k) (N.land (block 0 a ap xn) ATTRIDX_MASK) (N.land (block 0 a ap xn) SH_MASK)
      (N.land (block 0 a ap xn) AP_MASK =? AP_RW) (negb (N.land (block 0 a ap xn) XN =? 0)).
Proof.
  intros Hk Ha Hlt HF Hb. rewrite block_split. split.
  - rewrite (field_of pa _ 3 12); [done|by apply (aligned_le pa 12 k)|done].
  - intros va. by apply leaf_of.
Qed.

Lemma page_of pa a ap xn va :
  pa mod 2 ^ 12 = 0 -> pa < 2 ^ 48 ->
  N.land (page 0 a ap xn) (N.ones 48) < 2 ^ 12 -> N.land (page 0 a ap xn) 3 = DESC_PAGE ->
  N.land (page pa a ap xn) 3 = DESC_PAGE /\
  leaf (page pa a ap xn) 12 va =
    mkView (pa + va mod 2 ^ 12) (N.land (page 0 a ap xn) ATTRIDX_MASK) (N.land (page 0 a ap xn) SH_MASK)
      (N.land (page 0 a ap xn) AP_MASK =? AP_RW) (negb (N.land (page 0 a ap xn) XN =? 0)).
Proof.
  intros Ha Hlt HF Hb. rewrite page_split. split.
  - by rewrite (field_of pa _ 3 12).
  - by apply leaf_of.
Qed.

Lemma image_leaf pa va : pa mod 2 ^ 12 = 0 -> pa < 2 ^ 48 ->
  N.land (image_page pa) 3 = DESC_PAGE /\
  leaf (image_page pa) 12 va =
    if text text_start text_end pa then mkView (pa + va mod 2 ^ 12) ATTRIDX_NORMAL_NC SH_NON_SHAREABLE false false
    else if rodata rodata_start rodata_end pa
    then mkView (pa + va mod 2 ^ 12) ATTRIDX_NORMAL_WB SH_INNER_SHAREABLE false true
    else mkView (pa + va mod 2 ^ 12) ATTRIDX_NORMAL_WB SH_INNER_SHAREABLE true true.
Proof.
  intros Ha Hlt. unfold Mmu.image_page. destruct (text _ _ _); [by apply page_of|].
  destruct (rodata _ _ _); by apply page_of.
Qed.

(** The pieces of an address. *)
#[local] Ltac Zify.zify_post_hook ::= Z.to_euclidean_division_equations.
Lemma split_gib va k : va / 2 ^ 30 = k -> k * 2 ^ 30 + va mod 2 ^ 30 = va.
Proof. intros <-. rewrite (N.div_mod va (2 ^ 30)) at 3 by done. lia. Qed.

Lemma gib_bound va : (2 ^ 39 <=? va) = (512 <=? va / 2 ^ 30).
Proof.
  change (2 ^ 30) with 1073741824. change (2 ^ 39) with 549755813888.
  destruct (N.leb_spec 512 (va / 1073741824)); [apply N.leb_le|apply N.leb_gt]; lia.
Qed.

Lemma block_aligned i : (0x40000000 + i * BLOCK_2M) mod 2 ^ 21 = 0.
Proof.
  replace (0x40000000 + i * BLOCK_2M) with ((512 + i) * 2 ^ 21) by (unfold BLOCK_2M; change (2 ^ 21) with 0x200000; lia).
  by apply N.Div0.mod_mul.
Qed.

Lemma page_aligned i : (0x40000000 + i * PAGE) mod 2 ^ 12 = 0.
Proof.
  replace (0x40000000 + i * PAGE) with ((262144 + i) * 2 ^ 12) by (unfold PAGE; change (2 ^ 12) with 0x1000; lia).
  by apply N.Div0.mod_mul.
Qed.

Lemma split_mib va :
  va / 2 ^ 30 = 1 -> 0x40000000 + (N.shiftr va 21 mod 512) * BLOCK_2M + va mod 2 ^ 21 = va.
Proof.
  intros Hg. rewrite N.shiftr_div_pow2. unfold BLOCK_2M. change (2 ^ 30) with 1073741824 in *.
  change (2 ^ 21) with 2097152. lia.
Qed.

Lemma split_page va :
  va / 2 ^ 21 = 512 -> 0x40000000 + (N.shiftr va 12 mod 512) * PAGE + va mod 2 ^ 12 = va.
Proof.
  intros Hg. rewrite N.shiftr_div_pow2. unfold PAGE. change (2 ^ 21) with 2097152 in *.
  change (2 ^ 12) with 4096. lia.
Qed.
Lemma image_bounds va : va / 2 ^ 30 = 1 ->
  (0x40200000 <=? va) = negb (N.shiftr va 21 mod 512 =? 0) /\
  (N.shiftr va 21 mod 512 = 0 -> va / 2 ^ 21 = 512).
Proof.
  intros Hg. rewrite N.shiftr_div_pow2. change (2 ^ 30) with 1073741824 in *. change (2 ^ 21) with 2097152.
  split; [|lia]. destruct (N.eqb_spec (va / 2097152 mod 512) 0); cbn; [apply N.leb_gt|apply N.leb_le]; lia.
Qed.

Section Walk.
Context (fetch : N -> N -> N) (root va : N).
Context (Hl2 : l2_pa mod 4096 = 0) (Hl2b : l2_pa < 2 ^ 48) (Hl3 : l3_pa mod 4096 = 0) (Hl3b : l3_pa < 2 ^ 48).
Context (H1 : forall i, i < 512 -> fetch root i = l1_entry i).
Context (H2 : forall i, i < 512 -> fetch l2_pa i = l2_entry i).
Context (H3 : forall i, i < 512 -> fetch l3_pa i = l3_entry i).

(** The four gigabytes of device memory. *)
Lemma el2_walk_device k : k < 512 -> (k =? 0) || (k =? 2) || (k =? 3) || (k =? 256) = true -> va / 2 ^ 30 = k ->
  el2_walk root va fetch = Some (mkView va ATTRIDX_DEVICE SH_NON_SHAREABLE true true).
Proof.
  intros Hk Hdev Hg. unfold el2_walk. rewrite gib_bound, Hg, (proj2 (N.leb_gt _ _) Hk).
  rewrite N.shiftr_div_pow2, Hg, H1 by done. unfold l1_entry. rewrite Hdev.
  destruct (block_of (k * 2 ^ 30) 30 ATTRIDX_DEVICE AP_RW XN) as [Hkind Hleaf]; try done.
  { by apply N.Div0.mod_mul. }
  { change (2 ^ 30) with 1073741824. change (2 ^ 48) with 281474976710656. lia. }
  rewrite Hkind, Hleaf. cbn [N.eqb]. by rewrite (split_gib va k).
Qed.

(** The gigabyte of the image. *)
Lemma el2_walk_image : va / 2 ^ 30 = 1 -> el2_walk root va fetch = el2_map va.
Proof.
  intros Hg. unfold el2_walk, Mmu.el2_map. rewrite Hg. cbn [N.eqb negb orb].
  destruct (image_bounds va Hg) as [Hb Hp]. rewrite Hb.
  rewrite gib_bound, Hg. cbn [N.leb N.compare Pos.compare Pos.compare_cont].
  rewrite N.shiftr_div_pow2, Hg, H1 by done. change (l1_entry 1) with (N.lor l2_pa DESC_TABLE).
  destruct (table_of l2_pa) as [Hk2 ->]; [done..|]. rewrite Hk2. cbn -[leaf N.shiftr N.modulo N.land N.sub].
  pose proof (split_mib va Hg) as Hs. set (b := N.shiftr va 21 mod 512) in *.
  assert (Hb512 : b < 512) by (by apply N.mod_lt). rewrite H2 by done. unfold l2_entry.
  destruct (N.eqb_spec b 0) as [Hb0|Hb0].
  - destruct (table_of l3_pa) as [Hk3 ->]; [done..|]. rewrite Hk3. cbn -[leaf N.shiftr N.modulo N.land N.sub].
    pose proof (split_page va (Hp Hb0)) as Hs3. set (p := N.shiftr va 12 mod 512) in *.
    assert (Hp512 : p < 512) by (by apply N.mod_lt). rewrite H3 by done. unfold l3_entry.
    destruct (image_leaf (0x40000000 + p * PAGE) va (page_aligned p)) as [Hk ->].
    { unfold PAGE. change (2 ^ 48) with 281474976710656. lia. }
    change 4096 with (2 ^ 12). rewrite (N.add_sub_eq_r _ _ _ Hs3).
    rewrite Hk, Hs3. change (DESC_PAGE =? DESC_PAGE) with true. destruct (text _ _ _); [done|].
    by destruct (rodata _ _ _).
  - destruct (block_of (0x40000000 + b * BLOCK_2M) 21 ATTRIDX_NORMAL_WB AP_RW XN) as [Hkind Hleaf]; try done.
    { apply block_aligned. }
    { unfold BLOCK_2M. change (2 ^ 48) with 281474976710656. lia. }
    rewrite Hkind, Hleaf, Hs. done.
Qed.

Lemma walk_exact : el2_walk root va fetch = el2_map va.
Proof.
  destruct (N.leb_spec 512 (va / 2 ^ 30)) as [Hhi|Hlt].
  { unfold el2_walk. rewrite gib_bound, (proj2 (N.leb_le _ _) Hhi). unfold Mmu.el2_map.
    generalize dependent (va / 2 ^ 30). intros g Hhi. rewrite !(proj2 (N.eqb_neq _ _)) by lia. done. }
  destruct (N.eqb_spec (va / 2 ^ 30) 1) as [Hg|Hg]; [by apply el2_walk_image|].
  unfold Mmu.el2_map. destruct (_ || _) eqn:Hdev; [by apply el2_walk_device with (va / 2 ^ 30)|].
  rewrite (proj2 (N.eqb_neq _ _) Hg). unfold el2_walk. rewrite gib_bound, (proj2 (N.leb_gt _ _) Hlt), N.shiftr_div_pow2, H1 by done.
  unfold l1_entry. by rewrite Hdev, (proj2 (N.eqb_neq _ _) Hg).
Qed.
End Walk.
End Built.

(** ** The sweep *)

Section Sweep.
Context (text_start text_end rodata_start rodata_end l2_pa l3_pa : N).
#[local] Abbreviation sweep_l3 := (sweep_l3 text_start text_end rodata_start rodata_end).
#[local] Abbreviation coverage := (coverage text_start text_end rodata_start rodata_end).
#[local] Abbreviation el2_map := (el2_map text_start text_end rodata_start rodata_end).

(** A sweep passes a table when it passes each of its entries. *)
Lemma fold_passes (f : Coverage -> N * N -> Coverage) l c :
  (forall c e, cov_ok (f c e) = cov_ok c && cov_ok (f coverage_start e)) ->
  cov_ok (fold_left f l c) = cov_ok c && forallb (fun e => cov_ok (f coverage_start e)) l.
Proof.
  intros Hf. revert c. induction l as [|e l IH]; intros c; simpl; [by rewrite andb_true_r|].
  by rewrite IH, Hf, andb_assoc.
Qed.

Lemma sweep_l1_ok c e : cov_ok (sweep_l1 c e) = cov_ok c && cov_ok (sweep_l1 coverage_start e).
Proof. by destruct e. Qed.
Lemma sweep_l2_ok c e : cov_ok (sweep_l2 c e) = cov_ok c && cov_ok (sweep_l2 coverage_start e).
Proof. by destruct e. Qed.
Lemma sweep_l3_ok c e : cov_ok (sweep_l3 c e) = cov_ok c && cov_ok (sweep_l3 coverage_start e).
Proof. destruct e as [i d]. unfold Mmu.sweep_l3. destruct (text _ _ _); [done|by destruct (rodata _ _ _)]. Qed.

(** What a verdict says of each descriptor. *)
Lemma coverage_entries t s c : coverage t = Done s c -> cov_ok c = true ->
  (forall i d, vget (L1 t) i = Some d -> cov_ok (sweep_l1 coverage_start (i, d)) = true) /\
  (forall i d, vget (L2_IMAGE t) i = Some d -> cov_ok (sweep_l2 coverage_start (i, d)) = true) /\
  (forall i d, vget (L3_IMAGE t) i = Some d -> cov_ok (sweep_l3 coverage_start (i, d)) = true).
Proof.
  intros [= _ <-] H. cbn [cov_ok] in H.
  apply andb_prop in H as [[H _]%andb_prop _].
  rewrite (fold_passes _ _ _ sweep_l3_ok), (fold_passes _ _ _ sweep_l2_ok), (fold_passes _ _ _ sweep_l1_ok) in H.
  apply andb_prop in H as [[[_ H1]%andb_prop H2]%andb_prop H3].
  rewrite forallb_elem in H1, H2, H3.
  split; [|split]; intros i d Hd%elem_enumerate; [by apply (H1 (i, d))|by apply (H2 (i, d))|by apply (H3 (i, d))].
Qed.

(** The view without its output address and shareability. *)
Definition rights (v : View) : N * bool * bool := (v_attr v, v_rw v, v_xn v).

Lemma l1_verdict d i : cov_ok (sweep_l1 coverage_start (i, d)) = true ->
  if (i =? 0) || (i =? 2) || (i =? 3) || (i =? 256)
  then N.land d 3 = DESC_BLOCK /\ forall va k, rights (leaf d k va) = (ATTRIDX_DEVICE, true, true)
  else if i =? 1 then N.land d 3 = DESC_TABLE else d = 0.
Proof.
  cbn -[N.land N.eqb]. destruct (_ || _); [|destruct (i =? 1); apply N.eqb_eq].
  intros [[[Hk Ha]%andb_prop Hp]%andb_prop Hx]%andb_prop. split; [by apply N.eqb_eq|].
  intros va k. unfold rights, leaf. cbn -[N.land N.eqb]. apply N.eqb_eq in Ha. by rewrite Ha, Hp, Hx.
Qed.

Lemma l2_verdict d i : cov_ok (sweep_l2 coverage_start (i, d)) = true ->
  if i =? 0 then N.land d 3 = DESC_TABLE
  else N.land d 3 = DESC_BLOCK /\ forall va k, rights (leaf d k va) = (ATTRIDX_NORMAL_WB, true, true).
Proof.
  cbn -[N.land N.eqb]. destruct (i =? 0); [apply N.eqb_eq|].
  intros [[[[Hk Ha]%andb_prop _]%andb_prop Hp]%andb_prop Hx]%andb_prop. split; [by apply N.eqb_eq|].
  intros va k. unfold rights, leaf. cbn -[N.land N.eqb]. apply N.eqb_eq in Ha. by rewrite Ha, Hp, Hx.
Qed.

Lemma l3_verdict d i : cov_ok (sweep_l3 coverage_start (i, d)) = true ->
  N.land d 3 = DESC_PAGE /\ forall va k, rights (leaf d k va) =
    if text text_start text_end (0x40000000 + i * PAGE) then (ATTRIDX_NORMAL_NC, false, false)
    else if rodata rodata_start rodata_end (0x40000000 + i * PAGE) then (ATTRIDX_NORMAL_WB, false, true)
    else (ATTRIDX_NORMAL_WB, true, true).
Proof.
  unfold Mmu.sweep_l3, rights, leaf. cbn -[N.land N.eqb N.mul N.add text rodata].
  destruct (text _ _ _); [|destruct (rodata _ _ _)]; cbn -[N.land N.eqb].
  - intros [[[[Hk%N.eqb_eq Hp%N.eqb_eq]%andb_prop Hx]%andb_prop Ha%N.eqb_eq]%andb_prop _]%andb_prop.
    split; [done|]. intros va k. rewrite Ha, Hp. by destruct (N.land d XN =? 0).
  - intros [[[[Hk%N.eqb_eq Hp%N.eqb_eq]%andb_prop Hx]%andb_prop Ha%N.eqb_eq]%andb_prop _]%andb_prop.
    split; [done|]. intros va k. by rewrite Ha, Hp, Hx.
  - intros [[[[Hk%N.eqb_eq Hp%N.eqb_eq]%andb_prop Hx]%andb_prop Ha%N.eqb_eq]%andb_prop _]%andb_prop.
    split; [done|]. intros va k. by rewrite Ha, Hp, Hx.
Qed.

(** Three tables whose upper two point at the lower two. *)
Record linked (t : El2Tables) : Prop := mkLinked {
  lk_1 : vlen (L1 t) = 512;
  lk_2 : vlen (L2_IMAGE t) = 512;
  lk_3 : vlen (L3_IMAGE t) = 512;
  lk_l2 : forall d, vget (L1 t) 1 = Some d -> next_table d = l2_pa;
  lk_l3 : forall d, vget (L2_IMAGE t) 0 = Some d -> next_table d = l3_pa;
}.

Section Verdict.
Context (t : El2Tables) (fetch : N -> N -> N) (root va : N).
Context (Hlk : linked t) (Hm : in_memory l2_pa l3_pa root t fetch).
Context (V1 : forall i d, vget (L1 t) i = Some d -> cov_ok (sweep_l1 coverage_start (i, d)) = true).
Context (V2 : forall i d, vget (L2_IMAGE t) i = Some d -> cov_ok (sweep_l2 coverage_start (i, d)) = true).
Context (V3 : forall i d, vget (L3_IMAGE t) i = Some d -> cov_ok (sweep_l3 coverage_start (i, d)) = true).

Lemma verdict_image : va / 2 ^ 30 = 1 -> rights <$> el2_walk root va fetch = rights <$> el2_map va.
Proof.
  intros Hg. unfold el2_walk, Mmu.el2_map. rewrite Hg. cbn [N.eqb negb orb].
  destruct (image_bounds va Hg) as [Hb Hp]. rewrite Hb.
  rewrite gib_bound, Hg. cbn [N.leb N.compare Pos.compare Pos.compare_cont].
  rewrite N.shiftr_div_pow2, Hg.
  destruct (vget_lt_Some (L1 t) 1) as [d1 Hd1]; [by rewrite (lk_1 _ Hlk)|].
  rewrite (im_l1 _ _ _ _ _ Hm 1 d1 Hd1), (lk_l2 _ Hlk d1 Hd1).
  pose proof (l1_verdict d1 1 (V1 1 d1 Hd1)) as K1. cbn -[N.land] in K1. rewrite K1.
  cbn -[leaf N.shiftr N.modulo N.land N.sub].
  set (b := N.shiftr va 21 mod 512) in *. assert (Hb512 : b < 512) by (by apply N.mod_lt).
  destruct (vget_lt_Some (L2_IMAGE t) b) as [d2 Hd2]; [by rewrite (lk_2 _ Hlk)|].
  rewrite (im_l2 _ _ _ _ _ Hm b d2 Hd2). pose proof (l2_verdict d2 b (V2 b d2 Hd2)) as K2.
  destruct (N.eqb_spec b 0) as [Hb0|Hb0].
  - rewrite K2, Hb0 in *. rewrite (lk_l3 _ Hlk d2 Hd2). cbn -[leaf N.shiftr N.modulo N.land N.sub].
    pose proof (split_page va (Hp eq_refl)) as Hs3. set (p := N.shiftr va 12 mod 512) in *.
    assert (Hp512 : p < 512) by (by apply N.mod_lt).
    destruct (vget_lt_Some (L3_IMAGE t) p) as [d3 Hd3]; [by rewrite (lk_3 _ Hlk)|].
    rewrite (im_l3 _ _ _ _ _ Hm p d3 Hd3). destruct (l3_verdict d3 p (V3 p d3 Hd3)) as [K3 R3].
    change 4096 with (2 ^ 12). rewrite (N.add_sub_eq_r _ _ _ Hs3).
    rewrite K3. change (DESC_PAGE =? DESC_PAGE) with true. cbn -[leaf N.mul N.add text rodata]. rewrite R3.
    destruct (text _ _ _); [done|]. by destruct (rodata _ _ _).
  - destruct K2 as [K2 R2]. rewrite K2. cbn -[leaf]. by rewrite R2.
Qed.

Lemma verdict_walk : rights <$> el2_walk root va fetch = rights <$> el2_map va.
Proof.
  destruct (N.leb_spec 512 (va / 2 ^ 30)) as [Hhi|Hlt].
  { unfold el2_walk. rewrite gib_bound, (proj2 (N.leb_le _ _) Hhi). unfold Mmu.el2_map.
    generalize dependent (va / 2 ^ 30). intros g Hhi. rewrite !(proj2 (N.eqb_neq _ _)) by lia. done. }
  destruct (N.eqb_spec (va / 2 ^ 30) 1) as [Hg|Hg]; [by apply verdict_image|].
  unfold el2_walk, Mmu.el2_map. rewrite gib_bound, (proj2 (N.leb_gt _ _) Hlt), N.shiftr_div_pow2.
  set (g := va / 2 ^ 30) in *. destruct (vget_lt_Some (L1 t) g) as [d1 Hd1]; [by rewrite (lk_1 _ Hlk)|].
  rewrite (im_l1 _ _ _ _ _ Hm g d1 Hd1). pose proof (l1_verdict d1 g (V1 g d1 Hd1)) as K1.
  destruct (_ || _).
  - destruct K1 as [K1 R1]. rewrite K1. cbn -[leaf]. by rewrite R1.
  - rewrite (proj2 (N.eqb_neq _ _) Hg) in *. by rewrite K1.
Qed.
End Verdict.

(** *** The tables the boot builds pass *)

Lemma fields_of base F : base mod 2 ^ 12 = 0 -> base < 2 ^ 48 ->
  N.land (N.lor base F) 3 = N.land F 3 /\ N.land (N.lor base F) ATTRIDX_MASK = N.land F ATTRIDX_MASK /\
  N.land (N.lor base F) SH_MASK = N.land F SH_MASK /\ N.land (N.lor base F) AP_MASK = N.land F AP_MASK /\
  N.land (N.lor base F) XN = N.land F XN.
Proof.
  intros Ha Hlt. rewrite !(field_of base F _ 12) by done. by rewrite execute_never_of.
Qed.

Lemma l1_entry_passes i : l2_pa mod 4096 = 0 -> l2_pa < 2 ^ 48 -> i < 512 ->
  cov_ok (sweep_l1 coverage_start (i, l1_entry l2_pa i)) = true.
Proof.
  intros Ha Hlt Hi. cbn -[N.land N.eqb block N.lor N.mul]. unfold l1_entry.
  destruct (_ || _); [|destruct (i =? 1); [|done]].
  - rewrite block_split. destruct (fields_of (i * 2 ^ 30) (block 0 ATTRIDX_DEVICE AP_RW XN)) as (-> & -> & _ & -> & ->); [| |done].
    + change (2 ^ 30) with (2 ^ 18 * 2 ^ 12). rewrite N.mul_assoc. by apply N.Div0.mod_mul.
    + change (2 ^ 30) with 1073741824. change (2 ^ 48) with 281474976710656. lia.
  - by destruct (fields_of l2_pa DESC_TABLE) as (-> & _).
Qed.

Lemma l2_entry_passes i : l3_pa mod 4096 = 0 -> l3_pa < 2 ^ 48 -> i < 512 ->
  cov_ok (sweep_l2 coverage_start (i, l2_entry l3_pa i)) = true.
Proof.
  intros Ha Hlt Hi. cbn -[N.land N.eqb block N.lor N.mul N.add]. unfold l2_entry.
  destruct (i =? 0); [by destruct (fields_of l3_pa DESC_TABLE) as (-> & _)|].
  rewrite block_split. destruct (fields_of (0x40000000 + i * BLOCK_2M) (block 0 ATTRIDX_NORMAL_WB AP_RW XN))
    as (-> & -> & -> & -> & ->); [| |done].
  - apply (aligned_le _ 12 21); [done|]. apply block_aligned.
  - unfold BLOCK_2M. change (2 ^ 48) with 281474976710656. lia.
Qed.

Lemma l3_entry_passes i : i < 512 ->
  cov_ok (sweep_l3 coverage_start (i, l3_entry text_start text_end rodata_start rodata_end i)) = true.
Proof.
  intros Hi. unfold Mmu.sweep_l3, l3_entry, image_page. set (pa := 0x40000000 + i * PAGE).
  assert (Ha : pa mod 2 ^ 12 = 0) by apply page_aligned.
  assert (Hlt : pa < 2 ^ 48). { unfold pa, PAGE. change (2 ^ 48) with 281474976710656. lia. }
  clearbody pa. rewrite !(page_split pa).
  destruct (text _ _ _); [|destruct (rodata _ _ _)]; cbn -[N.land N.eqb page N.lor].
  - by destruct (fields_of pa (page 0 ATTRIDX_NORMAL_NC AP_RO 0)) as (-> & -> & -> & -> & ->).
  - by destruct (fields_of pa (page 0 ATTRIDX_NORMAL_WB AP_RO XN)) as (-> & -> & -> & -> & ->).
  - by destruct (fields_of pa (page 0 ATTRIDX_NORMAL_WB AP_RW XN)) as (-> & -> & -> & -> & ->).
Qed.

(** A counter of a sweep counts indices. *)
Definition count (p : N -> bool) (ks : list N) : N := vlen (filter (fun i => p i = true) ks).

Lemma count_cons p k ks : count p (k :: ks) = (if p k then 1 else 0) + count p ks.
Proof.
  unfold count. rewrite filter_cons. destruct (p k) eqn:Hk; [rewrite decide_True by done|rewrite decide_False by done]; [|done].
  unfold vlen. rewrite length_cons. lia.
Qed.

Lemma fold_counts (f : Coverage -> N * N -> Coverage) (n : Coverage -> N) (p : N -> bool) l c :
  (forall c i d, n (f c (i, d)) = n c + if p i then 1 else 0) ->
  n (fold_left f l c) = n c + count p l.*1.
Proof.
  intros Hf. revert c. induction l as [|[i d] l IH]; intros c; [by rewrite N.add_0_r|].
  cbn [fold_left]. rewrite IH, Hf, fmap_cons, count_cons. cbn [fst]. lia.
Qed.

Lemma fold_keeps (f : Coverage -> N * N -> Coverage) (n : Coverage -> N) l c :
  (forall c i d, n (f c (i, d)) = n c) -> n (fold_left f l c) = n c.
Proof. intros Hf. revert c. induction l as [|[i d] l IH]; intros c; [done|]. cbn. by rewrite IH, Hf. Qed.

Lemma enumerate_fst {A} (l : list A) : (enumerate l).*1 = vrange (vlen l).
Proof. apply fst_zip. pose proof (vlen_vrange (vlen l)). unfold vlen in *. lia. Qed.

Definition in_text (i : N) : bool := text text_start text_end (0x40000000 + i * PAGE).
Definition in_rodata (i : N) : bool :=
  negb (in_text i) && rodata rodata_start rodata_end (0x40000000 + i * PAGE).
Definition in_rw (i : N) : bool :=
  negb (in_text i) && negb (rodata rodata_start rodata_end (0x40000000 + i * PAGE)).

Lemma sweep_l3_counts c i d :
  text_pages (sweep_l3 c (i, d)) = text_pages c + (if in_text i then 1 else 0) /\
  rodata_pages (sweep_l3 c (i, d)) = rodata_pages c + (if in_rodata i then 1 else 0) /\
  rw_pages (sweep_l3 c (i, d)) = rw_pages c + (if in_rw i then 1 else 0) /\
  wb_blocks (sweep_l3 c (i, d)) = wb_blocks c /\ device_gib (sweep_l3 c (i, d)) = device_gib c.
Proof.
  unfold Mmu.sweep_l3, in_rodata, in_rw, in_text.
  destruct (text _ _ _); [|destruct (rodata _ _ _)]; cbn -[N.add]; rewrite ?N.add_0_r; done.
Qed.

(** The sweep's counters and its verdict over tables whose entries all pass. *)
Lemma coverage_counts t : vlen (L1 t) = 512 -> vlen (L2_IMAGE t) = 512 -> vlen (L3_IMAGE t) = 512 ->
  (forall i d, vget (L1 t) i = Some d -> cov_ok (sweep_l1 coverage_start (i, d)) = true) ->
  (forall i d, vget (L2_IMAGE t) i = Some d -> cov_ok (sweep_l2 coverage_start (i, d)) = true) ->
  (forall i d, vget (L3_IMAGE t) i = Some d -> cov_ok (sweep_l3 coverage_start (i, d)) = true) ->
  let n p := count p (vrange 512) in
  coverage t = Done t (mkCoverage (n in_text) (n in_rodata) (n in_rw) 511 4
    ((0 <? n in_text) && (0 <? n in_rodata) && (0 <? n in_rw))).
Proof.
  intros E1 E2 E3 V1 V2 V3 n. unfold Mmu.coverage, gets. f_equal. cbv zeta.
  set (c1 := fold_left sweep_l1 _ _). set (c2 := fold_left sweep_l2 _ _). set (c3 := fold_left sweep_l3 _ _).
  assert (Hd : device_gib c3 = 4).
  { unfold c3. rewrite (fold_keeps _ device_gib) by (intros; apply sweep_l3_counts).
    unfold c2. rewrite (fold_keeps _ device_gib) by done. unfold c1.
    rewrite (fold_counts _ device_gib (fun i => (i =? 0) || (i =? 2) || (i =? 3) || (i =? 256))).
    - rewrite enumerate_fst, E1. by vm_compute.
    - intros c i d. cbn -[N.add]. by destruct (_ || _); rewrite ?N.add_0_r. }
  assert (Hw : wb_blocks c3 = 511).
  { unfold c3. rewrite (fold_keeps _ wb_blocks) by (intros; apply sweep_l3_counts).
    unfold c2. rewrite (fold_counts _ wb_blocks (fun i => negb (i =? 0))).
    - rewrite enumerate_fst, E2. unfold c1. rewrite (fold_keeps _ wb_blocks) by done. by vm_compute.
    - intros c i d. cbn -[N.add]. by destruct (i =? 0); rewrite ?N.add_0_r. }
  assert (Ht : text_pages c3 = n in_text).
  { unfold c3. rewrite (fold_counts _ text_pages in_text) by (intros; apply sweep_l3_counts).
    unfold c2, c1. by rewrite !(fold_keeps _ text_pages), enumerate_fst, E3 by done. }
  assert (Hr : rodata_pages c3 = n in_rodata).
  { unfold c3. rewrite (fold_counts _ rodata_pages in_rodata) by (intros; apply sweep_l3_counts).
    unfold c2, c1. by rewrite !(fold_keeps _ rodata_pages), enumerate_fst, E3 by done. }
  assert (Hrw : rw_pages c3 = n in_rw).
  { unfold c3. rewrite (fold_counts _ rw_pages in_rw) by (intros; apply sweep_l3_counts).
    unfold c2, c1. by rewrite !(fold_keeps _ rw_pages), enumerate_fst, E3 by done. }
  assert (Ho : cov_ok c3 = true).
  { unfold c3, c2, c1. rewrite (fold_passes _ _ _ sweep_l3_ok), (fold_passes _ _ _ sweep_l2_ok), (fold_passes _ _ _ sweep_l1_ok).
    cbn [cov_ok coverage_start]. rewrite !andb_true_iff, !forallb_elem.
    split; [split; [split; [done|] |] |]; intros [i d] Hin%elem_enumerate; [by apply V1|by apply V2|by apply V3]. }
  clearbody c3. clear c1 c2. rewrite Hd, Hw, Ht, Hr, Hrw, Ho. cbn [andb]. f_equal.
  apply andb_true_r.
Qed.
End Sweep.

(** ** The map that the boot installs *)

(** What the map promises of each address it translates. *)
Definition sound_view (mair va : N) (v : View) : Prop :=
  v_pa v = va /\ (v_rw v = true -> v_xn v = true) /\
  exists m, attr_byte mair (v_attr v) = stage1_mair_byte m /\ v_sh v = shareability_bits m.

Lemma sound_device mair va rw xn : mair = MAIR_EL2_VALUE -> (rw = true -> xn = true) ->
  sound_view mair va (mkView va ATTRIDX_DEVICE SH_NON_SHAREABLE rw xn).
Proof. intros -> H. split; [done|]. split; [done|]. by exists DeviceNGnRnE. Qed.
Lemma sound_nc mair va rw xn : mair = MAIR_EL2_VALUE -> (rw = true -> xn = true) ->
  sound_view mair va (mkView va ATTRIDX_NORMAL_NC SH_NON_SHAREABLE rw xn).
Proof. intros -> H. split; [done|]. split; [done|]. by exists NormalNonCacheable. Qed.
Lemma sound_wb mair va rw xn : mair = MAIR_EL2_VALUE -> (rw = true -> xn = true) ->
  sound_view mair va (mkView va ATTRIDX_NORMAL_WB SH_INNER_SHAREABLE rw xn).
Proof. intros -> H. split; [done|]. split; [done|]. by exists NormalWbIsh. Qed.

Lemma el2_map_sound text_start text_end rodata_start rodata_end mair va v : mair = MAIR_EL2_VALUE ->
  el2_map text_start text_end rodata_start rodata_end va = Some v -> sound_view mair va v.
Proof.
  intros Hm. unfold el2_map. destruct (_ || _); [intros [= <-]; by apply sound_device|].
  destruct (negb _); [done|]. destruct (_ <=? _); [intros [= <-]; by apply sound_wb|].
  destruct (text _ _ _); [intros [= <-]; by apply sound_nc|].
  destruct (rodata _ _ _); intros [= <-]; by apply sound_wb.
Qed.

Lemma sctlr_on x : let v := N.lor x (N.lor SCTLR_EL2_M SCTLR_EL2_C) in mmu_is_on v && data_cache_on v = true.
Proof.
  cbv zeta. unfold mmu_is_on, data_cache_on. change SCTLR_EL2_M with (N.shiftl 1 0). change SCTLR_EL2_C with (N.shiftl 1 2).
  rewrite !land_pow2, !N.lor_spec. cbn -[N.testbit]. by rewrite !orb_true_r.
Qed.

(** C14: let the two lower tables lie on page boundaries below 2^48. Then [enable] returns with the
    MMU and the data cache on, whatever the registers held, and wherever memory holds the three
    tables it wrote, the walk of the hardware from the root register gives every address exactly
    the view of [el2_map]: the device gigabytes, the blocks of DRAM, the text, the read-only data
    and the rest of the image, and no other address. Each address that translates goes to itself,
    none is both writable and executable, and the attribute byte and the shareability are those
    of one memory type. *)
Theorem el2_map_exact text_start text_end rodata_start rodata_end l1_pa l2_pa l3_pa r :
  l2_pa mod 4096 = 0 -> l2_pa < 2 ^ 48 -> l3_pa mod 4096 = 0 -> l3_pa < 2 ^ 48 ->
  exists t r' sctlr,
    enable text_start text_end rodata_start rodata_end l2_pa l3_pa l1_pa (el2_statics, r) = Done (t, r') sctlr /\
    mmu_is_on sctlr && data_cache_on sctlr = true /\ ttbr0_el2 r' = l1_pa /\ tcr_reg r' = tcr_el2 /\
    forall fetch va, in_memory l2_pa l3_pa l1_pa t fetch ->
      el2_walk (ttbr0_el2 r') va fetch = el2_map text_start text_end rodata_start rodata_end va /\
      forall v, el2_walk (ttbr0_el2 r') va fetch = Some v -> sound_view (mair_el2 r') va v.
Proof.
  intros A2 B2 A3 B3.
  destruct (build_tables_Done text_start text_end rodata_start rodata_end l2_pa l3_pa)
    as (t & Ht & _ & _ & _ & H1 & H2 & H3).
  eexists t, _, _. split; [unfold enable, bind, zoom; cbn [lget tables_l fst]; rewrite Ht; reflexivity|].
  split; [apply sctlr_on|]. split; [done|]. split; [done|]. intros fetch va [M1 M2 M3]. cbn [ttbr0_el2 mair_el2].
  assert (E : el2_walk l1_pa va fetch = el2_map text_start text_end rodata_start rodata_end va).
  { apply walk_exact with l2_pa l3_pa; [done..| | |]; intros i Hi; [by apply M1, H1|by apply M2, H2|by apply M3, H3]. }
  split; [exact E|]. rewrite E. intros v. by apply el2_map_sound.
Qed.


(** The boot's own tables pass the sweep exactly when the text, the read-only data and the rest
    each have a page; the counts are theirs. *)
Theorem coverage_of_boot text_start text_end rodata_start rodata_end l2_pa l3_pa :
  l2_pa mod 4096 = 0 -> l2_pa < 2 ^ 48 -> l3_pa mod 4096 = 0 -> l3_pa < 2 ^ 48 ->
  let n p := count p (vrange 512) in
  let text_n := n (in_text text_start text_end) in
  let rodata_n := n (in_rodata text_start text_end rodata_start rodata_end) in
  let rw_n := n (in_rw text_start text_end rodata_start rodata_end) in
  exists t, build_tables text_start text_end rodata_start rodata_end l2_pa l3_pa el2_statics = Done t tt /\
    linked l2_pa l3_pa t /\
    coverage text_start text_end rodata_start rodata_end t =
      Done t (mkCoverage text_n rodata_n rw_n 511 4 ((0 <? text_n) && (0 <? rodata_n) && (0 <? rw_n))).
Proof.
  intros A2 B2 A3 B3.
  destruct (build_tables_Done text_start text_end rodata_start rodata_end l2_pa l3_pa)
    as (t & Ht & E1 & E2 & E3 & H1 & H2 & H3).
  exists t. split; [exact Ht|]. split.
  - split; [done..| |]; intros d Hd.
    + rewrite H1 in Hd by done. injection Hd as <-. by apply table_of.
    + rewrite H2 in Hd by done. injection Hd as <-. by apply table_of.
  - apply coverage_counts; [done..| | |]; intros i d Hd; pose proof (vget_Some_lt _ _ _ Hd) as Hi.
    + rewrite E1 in Hi. rewrite H1 in Hd by done. injection Hd as <-. by apply l1_entry_passes.
    + rewrite E2 in Hi. rewrite H2 in Hd by done. injection Hd as <-. by apply l2_entry_passes.
    + rewrite E3 in Hi. rewrite H3 in Hd by done. injection Hd as <-. by apply l3_entry_passes.
Qed.

(** What the probe reads back before it jumps: in the image's window, every page that is not text. *)
Lemma is_execute_never_exact text_start text_end rodata_start rodata_end t va :
  vlen (L3_IMAGE t) = 512 ->
  (forall i d, vget (L3_IMAGE t) i = Some d ->
    cov_ok (sweep_l3 text_start text_end rodata_start rodata_end coverage_start (i, d)) = true) ->
  is_execute_never va t = Done t ((0x40000000 <=? va) && (va <? 0x40200000) &&
    negb (in_text text_start text_end ((va - 0x40000000) / PAGE))).
Proof.
  intros E3 V3. unfold is_execute_never, l3_descriptor. destruct (_ && (va <? 0x40200000)) eqn:Hw; [|done].
  apply andb_prop in Hw as [Hlo%N.leb_le Hhi%N.ltb_lt].
  assert (Hi : (va - 0x40000000) / PAGE < 512).
  { apply N.Div0.div_lt_upper_bound. unfold PAGE. lia. }
  cbn [negb andb]. set (i := (va - 0x40000000) / PAGE) in *. clearbody i.
  destruct (vget_lt_Some (L3_IMAGE t) i) as [d Hd]; [by rewrite E3|].
  unfold bind, get, index. rewrite Hd. cbn -[N.land].
  destruct (l3_verdict text_start text_end rodata_start rodata_end d i (V3 i d Hd)) as [Hk Hr].
  rewrite Hk. f_equal. change (DESC_PAGE =? DESC_PAGE) with true. cbn [andb].
  specialize (Hr 0 12). unfold rights, leaf in Hr. cbn [v_attr v_rw v_xn] in Hr. unfold in_text.
  destruct (text _ _ _); [by injection Hr as _ _ ->|]. by destruct (rodata _ _ _); injection Hr as _ _ ->.
Qed.

(** The attributes, as the source asserts them; and the walker reads the tables write-back,
    inner and outer, against the comment on the statics, which says non-cacheable. *)
Example mair_value : MAIR_EL2_VALUE = 0x00ff4400.
Proof. reflexivity. Qed.
Example walker_write_back :
  N.land (N.shiftr tcr_el2 8) 3 = 1 /\ N.land (N.shiftr tcr_el2 10) 3 = 1 /\ N.land (N.shiftr tcr_el2 12) 3 = 3.
Proof. split; [|split]; reflexivity. Qed.
Example switch_bits : mmu_is_on (N.lor SCTLR_EL2_M SCTLR_EL2_C) && data_cache_on (N.lor SCTLR_EL2_M SCTLR_EL2_C) = true.
Proof. reflexivity. Qed.

(** *** A concrete image *)

Definition memory_of (root l2_pa l3_pa : N) (t : El2Tables) (pa i : N) : N :=
  default 0 (vget (if pa =? root then L1 t else if pa =? l2_pa then L2_IMAGE t
    else if pa =? l3_pa then L3_IMAGE t else []) i).

Lemma memory_holds root l2_pa l3_pa t : root <> l2_pa -> root <> l3_pa -> l2_pa <> l3_pa ->
  in_memory l2_pa l3_pa root t (memory_of root l2_pa l3_pa t).
Proof.
  intros N2 N3 N23. split; intros i d Hd; unfold memory_of.
  - by rewrite N.eqb_refl, Hd.
  - by rewrite (proj2 (N.eqb_neq _ _)), N.eqb_refl, Hd by done.
  - by rewrite !(proj2 (N.eqb_neq _ _)), N.eqb_refl, Hd by done.
Qed.

Lemma concrete_holds t : in_memory 0x400c1000 0x400c2000 0x400c0000 t (memory_of 0x400c0000 0x400c1000 0x400c2000 t).
Proof. by apply memory_holds. Qed.

Lemma el2_map_exact_witness :
  exists t r' v,
    enable 0x40080000 0x400a0000 0x400a0000 0x400b0000 0x400c1000 0x400c2000 0x400c0000
      (el2_statics, mkRegs 0 0 0 0x30c50830) = Done (t, r') v /\
    mmu_is_on v && data_cache_on v = true /\
    el2_walk (ttbr0_el2 r') 0x40081234 (memory_of 0x400c0000 0x400c1000 0x400c2000 t) =
      Some (mkView 0x40081234 ATTRIDX_NORMAL_NC SH_NON_SHAREABLE false false) /\
    el2_walk (ttbr0_el2 r') 0x48000000 (memory_of 0x400c0000 0x400c1000 0x400c2000 t) =
      Some (mkView 0x48000000 ATTRIDX_NORMAL_WB SH_INNER_SHAREABLE true true).
Proof.
  destruct (el2_map_exact 0x40080000 0x400a0000 0x400a0000 0x400b0000 0x400c0000 0x400c1000 0x400c2000
    (mkRegs 0 0 0 0x30c50830)) as (t & r' & v & Ht & Hon & _ & _ & H); [done..|].
  exists t, r', v. split; [exact Ht|]. split; [exact Hon|]. split.
  - rewrite (proj1 (H _ 0x40081234 (concrete_holds t))). vm_compute. reflexivity.
  - rewrite (proj1 (H _ 0x48000000 (concrete_holds t))). vm_compute. reflexivity.
Defined.


(** The verdict is about attributes and permissions: tables in which a writable page of data goes
    to the frame of a page of text pass the sweep. *)
Definition aliased : El2Tables :=
  match build_tables 0x40080000 0x400a0000 0x400a0000 0x400b0000 0x400c1000 0x400c2000 el2_statics with
  | Done t _ => mkEl2 (L1 t) (L2_IMAGE t) (vset (L3_IMAGE t) 300 (page 0x40080000 ATTRIDX_NORMAL_WB AP_RW XN))
  | Panic => el2_statics
  end.
Example coverage_ignores_addresses :
  match coverage 0x40080000 0x400a0000 0x400a0000 0x400b0000 aliased with Done _ c => cov_ok c | Panic => false end = true /\
  v_pa <$> el2_walk 0x400c0000 0x4012c008 (memory_of 0x400c0000 0x400c1000 0x400c2000 aliased) = Some 0x40080008.
Proof. split; vm_compute; reflexivity. Qed.
